(* ===== verification/_CoqProject ===== *)
-Q . S2P
Prelude.v
BTree.v
Lifecycle.v
Text.v
Values.v
Managed.v
Email.v
KeyProvider.v
UrlValues.v
Webhooks.v
IdentityMutation.v
IdentityMutationProofs.v
Json.v
Mail.v
BTreeMap.v
Config.v
ConfigProofs.v
LoginTables.v
WebhookTables.v
Database.v
LoginStore.v
Projection.v
ProjectionProofs.v
WebhookOutbox.v
WebhookDelivery.v
Custody.v
WebhookControl.v
SessionAuthority.v
BrowserLogout.v
Login.v
Handoff.v
SessionStore.v
SessionEffects.v
LoginHistory.v
Frames.v
LoginEffects.v
HandoffEffects.v
ServerKeys.v
ServerApi.v
ControlLifecycle.v
ControlEffects.v
EmailTables.v
PasswordlessEmail.v
EmailEffects.v
EmailProofs.v
SessionOps.v
FamilyHistory.v
SessionAuthorityProofs.v
BrowserLogoutProofs.v
EmailSessions.v
LoginSamples.v
LoginProofs.v
HandoffProofs.v
RevisionHistory.v
WebhookOutboxProofs.v
WebhookDeliveryProofs.v
WebhookDispatchProofs.v
CustodyProofs.v
WebhookSecrets.v
WebhookControlProofs.v
WebhookHistoryProofs.v
WebhookEndpointProofs.v
ServerCredentials.v
ServerKeyProofs.v
ServerApiProofs.v
ControlProofs.v
SignOut.v
DirectoryProofs.v
ServerSamples.v
ControlSamples.v
EmailSamples.v
