(* ===== verification/Prelude.v ===== *)
(** * OwlAuth: a verified model of the authentication core

    OwlAuth (src/) is an authentication server written in Rust: projects own
    applications and users; a user signs in through an identity provider or an
    emailed code; an application receives a handoff ticket, exchanges it for an
    application session, and keeps the session alive with rotating refresh
    tokens.  Around that: linking, unlinking and merging of identities, managed
    provider connections, webhooks, signing keys and their custody.

    ** How the program is put together

    - [crates/owlauth-server/src/domain]: values that validate themselves on
      construction, status machines, and the identity-mutation aggregate.
    - [crates/owlauth-server/src/application]: commands, results and the traits
      ("authorities") of the stateful operations.
    - [crates/owlauth-server/src/adapters/postgres]: the authorities, as
      transactions over PostgreSQL tables whose constraints come from
      [crates/owlauth-server/migrations].
    - [crates/owlauth-key-provider]: the interface to key custody, with the
      canonical context that key material is authenticated against.
    - HTTP, MCP, configuration, provider clients, SMTP and the command line
      around them.

    ** Files

    - [Prelude]: results and the [?] operator ([<-?], [;;?]), the state and error
      monad [mut] ([<~], [;;~]), byte-string functions of [str], integers at
      their width, time, and the lemmas and tactics shared by all files.
    - [BTree]: [BTreeSet] and [binary_search] over an order class [TotalOrd].
    - [Lifecycle]: the status enums of [domain/{session,login,key,project,
      application,provider,identity}.rs]; classes [Lifecycle] and [OneWay] carry
      the theorems shared by all one-way machines.
    - [Text]: lemmas on splitting and case folding of byte strings.
    - [Values]: [domain/{project,projection,identity}.rs] without URLs.
    - [Managed]: [domain/managed_connection.rs] and the provider registry of
      [domain/provider.rs].
    - [Email]: [domain/email.rs]: addresses, proof policy, challenge machine, the
      one-time password generator.
    - [KeyProvider]: [owlauth-key-provider/src/{values,context,error}.rs].
    - [UrlValues]: redirect URIs, browser origins, provider origins, egress
      policy, endpoint and picture URLs, over the [url] crate as the class
      [UrlLib].
    - [Webhooks]: [domain/webhook.rs].
    - [IdentityMutation]: [domain/identity_mutation.rs], data, [restore] and every
      operation; [IdentityMutationProofs]: its theorems.
    - [Json]: [application/error.rs] and [serde_json::Value].
    - [Mail]: the policy of [application/mail.rs]: relay endpoints, permitted
      addresses, submissions, retries, the context of a protected mail.
    - [BTreeMap]: ordered maps, integer parsing, trimming and socket addresses of
      the standard library; [Config]: the whole of [config.rs];
      [ConfigProofs]: its theorems.
    - [LoginTables], [WebhookTables]: rows and checks of the login and webhook
      tables; [Database]: the other rows of [adapters/postgres/entity.rs], table
      constraints of the migrations, statements and transactions; [LoginStore]:
      the statements on the login tables.
    - [Projection]: [adapters/postgres/projection.rs], the user data an
      application is shown: materialization, the stored document with its
      encrypted address, repair of a stale row; [ProjectionProofs]: its theorems.
    - [WebhookOutbox]: events and their fan-out to applications and endpoints
      ([append_projection_event], [event_raw_body] of
      [adapters/postgres/webhook.rs], [fan_out_projected_user]);
      [WebhookOutboxProofs]: its theorems.
    - [WebhookDelivery]: the delivery worker, [WebhookDeliveryRepository] of
      [adapters/postgres/webhook.rs] and [WebhookWorker] of
      [application/webhook.rs]: claims, leases, outcomes, recovery, retirement
      and erasure of secrets, maintenance.  [WebhookDeliveryProofs]: the machine
      it refines; [WebhookDispatchProofs]: fairness, and the end of leases.
    - [Custody]: the protected materials of [adapters/postgres/custody.rs]:
      reservation, finalization, erasure, readiness; [CustodyProofs]: its
      theorems.
    - [WebhookControl]: the control half of [adapters/postgres/webhook.rs] and
      [WebhookControlService]: registration, test, activation, rotation,
      disabling, history, replay, over the worker's tables and the materials.
      [WebhookSecrets]: the invariant of endpoints, secrets, leases, erasures and
      materials, and the worker's part of it; [WebhookControlProofs]: the control
      commands' part, and all operations in sequence ([exec_webhooks]);
      [WebhookEndpointProofs], [WebhookHistoryProofs]: the theorems.
    - [SessionAuthority]: [prepare_refresh_rotation], [rotate_refresh_token],
      [record_refresh_replay] and [logout_application_session] of
      [adapters/postgres/session_authority.rs]; [BrowserLogout]: the three steps
      of a browser logout; [Handoff]: session reuse, the exchange of a handoff
      ticket and the recovery of abandoned exchanges, all of the same file.
    - [Login]: [adapters/postgres/authentication.rs], login transactions from
      creation to the provider's callback.
    - [SessionStore]: the invariant of the session tables ([store_ok]) and the
      relation between a store and a later one ([evolves]); [LoginHistory]: the
      same for logins and tickets; [Frames]: what programs may do to a store;
      [SessionEffects], [LoginEffects], [HandoffEffects]: what each operation
      does; [SessionOps]: all operations in sequence ([run_session_ops]);
      [FamilyHistory]: the current generation of every refresh family, kept by
      each of them.
    - [ServerKeys]: [adapters/server_key_security.rs], the keys of the server API
      with their commands ([adapters/postgres/server_key.rs],
      [application/server_key.rs]) and the command records that make them
      idempotent; [ServerCredentials]: the grammar of a credential, and Base64
      itself; [ServerKeyProofs]: their theorems.
    - [ServerApi]: [adapters/postgres/server_api.rs] and
      [application/server_api.rs]: authentication with a key, introspection of
      access tokens, the directory and the projections an application reads, the
      record of a key's use; [ServerApiProofs]: its theorems, [ServerSamples]:
      the store they are evaluated on.
    - [ControlLifecycle]: [adapters/postgres/control_lifecycle.rs] and
      [application/control_lifecycle.rs]: the operator's directory of users,
      disabling and enabling a user with the checks and triggers of the users
      table, revocation of sessions.  [ControlEffects]: what these commands do to
      the store; [RevisionHistory]: the order of the security revisions, kept by
      every operation of [SessionOps]; [ControlProofs], [DirectoryProofs]: the
      theorems, evaluated in [ControlSamples].
    - [EmailTables]: rows, constraints and statements of the challenges, transfer
      contexts and mails of passwordless email; [PasswordlessEmail]: the
      [PasswordlessEmailRepository] of [adapters/postgres/email.rs], from the
      choice of email to the completed sign-in, with
      [adapters/postgres/mail_delivery_safety.rs], the browser session of a
      completion, the end of a mail attempt and the retention statements.
      [EmailEffects]: the invariant of these tables and what may become of them;
      [EmailProofs]: runs of the authority ([run_email_ops]) and the theorems;
      [EmailSessions]: the same operations on the session tables, and both
      authorities in one sequence ([run_sign_in_ops]); [SignOut]: what disabling a
      user means for such sequences; [EmailSamples]: the login they are evaluated
      on.
    - [SessionAuthorityProofs], [BrowserLogoutProofs], [LoginProofs],
      [HandoffProofs]: the theorems, on the store of [LoginSamples] where they
      are evaluated.

    ** What the theorems show

    - Refresh tokens ([SessionAuthorityProofs]): under every sequence of session,
      login, handoff and control operations a family has exactly one current
      generation, the one it counts, and its others are consumed and older
      ([families_current] says so of the store one starts from, as the empty one);
      a token rotates once; presenting it again
      is always detected and revokes the family for good; logout ends refresh; a
      rotation that was prepared commits, so it is accepted by every constraint
      of the store.
    - Browser logout ([BrowserLogoutProofs]): a session ends only for the bound
      token, browser and CSRF value; the logout then ends refresh of every
      application session of that browser; a request is used once; a well-formed
      request completes; failures leave the store as it was, or record expiry.
    - Logins ([LoginProofs]): every write to a login takes one revision and an edge
      of the domain's machine or one of two edges that machine refuses
      ([store_edge], both taken in examples), and there is none after the login
      ended; a callback is claimed once; a login belongs to the browser it was
      bound to.
    - Handoff ([HandoffProofs]): a ticket is exchanged once, against the login's
      PKCE challenge, and opens one session with one refresh family.
    - Projections ([ProjectionProofs]): the stored document never holds the
      verified address; repair is idempotent; a document is produced exactly of the
      rows within the contract ([projection_bounded]), and holds their values.
    - Webhooks ([WebhookOutboxProofs]): what is sent is byte for byte what was
      signed off, and no subscriber is forgotten.  Delivery
      ([WebhookDeliveryProofs], [WebhookDispatchProofs]): every interleaving of
      workers, maintenance and outbox refines a small machine; leases are
      exclusive and fenced; attempts are bounded; verdicts are final; the
      application that waited longest is served; the holder of a lease can end
      it; and an event that cannot be rebuilt holds up the queue.  Endpoints
      ([WebhookEndpointProofs], [WebhookHistoryProofs]): a secret a lease holds is
      never erased under it; an endpoint signs with exactly its active and its
      overlapping secret, and a disabled one with none; a replay is a delivery of
      its own; and the pages of a history are the history.
    - Server keys ([ServerKeyProofs]): a project has at most ten active keys and
      a hundred in all, whatever the sequence of commands; a command that is
      repeated answers as it did and changes nothing; the grammar of credentials
      is exact, and a digest is that of one credential.  Server API
      ([ServerApiProofs]): the credential a creation returned authenticates its
      project and no other credential does; a revoked key is dead for good.
    - Control ([SignOut], [ControlProofs], [DirectoryProofs]): once a user is
      disabled, no session of the past refreshes or is introspected as active and no
      ticket of the past is exchanged, even after the user is enabled and signs in by
      email again; a browser session of the past is not reused either, unless such a
      sign-in has written its row anew, which happens ([EmailSamples]); a revoked
      session stays revoked; the winner of a merge cannot be disabled; and
      a client that follows the cursors of the directory reads every user it asked
      for, once and in order.
    - Mail and configuration ([Mail], [ConfigProofs]): the address predicates
      equal the published blocks; an accepted configuration keeps every bound,
      its protection roots are pairwise distinct, a plane does not see the
      secrets of the other, and the planes share no path.
    - Identity mutation ([IdentityMutationProofs]): every method does its own step
      of a protocol ([intent_step]) at the revision it names and changes nothing
      when it fails, with one exception at the last revision; whatever a sequence of
      methods leaves behind is accepted by the program's own [restore] if and only
      if its receipts have distinct ids; a completed intent holds
      a consumed receipt for every slot that proves the right user; revisions
      admit one winner; terminal states absorb; deadlines are enforced.
    - Key custody ([KeyProvider], [CustodyProofs]): the context encoding is
      injective and can fail only on a zero generation; a material goes one way
      from pending to live to erased; the first envelope stays; a reservation
      reads back as it was made; contexts tell materials apart.
    - Email ([Email]): bounded guessing, one use, idempotent canonicalization,
      bounded lifetimes, termination of the code generator.  The stored side
      ([EmailProofs]): challenges move by the domain's guesses and consumption and
      by the replacement and expiry the store has of its own ([domain_move],
      [store_move]), and their ends are final; a login
      answers at most twenty-five wrong codes; a proof completes once, and only
      the newest one; an address leads to one user; a project has at most a
      thousand mails under way.  These hold with any change to the other tables in
      between.  With the session authority ([EmailSessions]): both keep the
      invariants of both, and what was used up stays so.  An email completion
      gives a browser session a new credential and the user's present revision, so
      these operations are not among those of [run_session_ops], and theorems over
      [run_session_ops] speak of runs without a sign-in's completion.
    - Managed connections, URLs, lifecycles, values and webhooks: exact
      functional descriptions, fences, safety of accepted redirects,
      noninterference of provider profile data, round trips.
    - Behaviour that surprises is stated as it is: partial writes on counter
      overflow ([managed_overflow_partial_write],
      [bind_browser_overflow_partial_write]), bracketed IPv6 redirects
      ([bracketed_host_not_loopback]), the error of a short public identifier
      ([public_id_verdicts]), receipts of one id ([reused_receipt_id_not_restored]),
      statuses the domain's machines refuse ([claimed_login_expires],
      [unclaimed_login_denied], [email_move_edges], [exhausted_challenge_replaced],
      [unavailable_challenge_replaced]).

    ** Modelling decisions

    - Strings are their UTF-8 bytes ([String.string]); integers are [Z], with
      checked operations returning [None] outside their width and the [i64]
      additions the code leaves unchecked wrapping around ([i64_add], the
      release build).
    - [OffsetDateTime] is a [Z] of nanoseconds; the calendar limit at year 9999,
      where the [time] crate panics, is outside the model.  [Uuid] is a [Z], the
      nil value being 0.
    - A [&mut self] method is a [mut] computation: an error returns with the
      state as the method left it, so partial writes are visible.  A database
      transaction is [transaction]: an error restores the store.
    - Rows a transaction locks are not changed by others until it ends, so a
      transaction is one step on the store; reads made before it opens see
      earlier stores, which are arguments, and the theorems hold for any of them.
      Failures of the database engine itself are not modelled.
    - Clocks (of the process and of the store), random identifiers, nonces,
      sequence values and the rows [SKIP LOCKED] skips are arguments of the
      operation that draws them.  Advisory locks have no state.  A [CHECK] over a
      NULL passes; deferred constraints are checked at the end of a transaction.
    - Code outside src/ is a parameter: [UrlLib] (url), [CanonicalHash]
      (serde_json's writer and SHA-256), [TimeFormat] (RFC 3339 printing),
      [JsonbText] (how PostgreSQL prints a [jsonb] value), [rnd] (getrandom),
      [new_v4] (uuid).  [ProjectionCryptography] is the trait of the source, with
      the laws [ProjectionCryptographyLaws]: decryption undoes encryption under the
      same context, and encryption uses the write version; its nonce is an
      argument.  [ConfigLib] holds what the configuration takes from base64, serde,
      rustls and the file system; [WebhookIo] is HMAC with the worker's resolver
      and transport; [WebhookControlIo] the sealers and the check of an endpoint
      over the network; [CursorCodec] the readers of a cursor, with the laws
      [CursorCodecLaws].  [Base64Url], [Hmac], [UnixTime], [CntrlClass],
      [RecordCodec], [TokenJson] and [Ed25519] are what the server keys and the
      access tokens take from their libraries ([Base64UrlLaws], [RecordCodecLaws]:
      decoding undoes encoding);
      [EmailAddressReader] and [EmailLookupDigester] are traits of the source;
      [PgText] is the database's [lower].  [IdentityGraph] holds the linked
      identities and merge tombstones, which the control commands read and do not
      change.  [other_owner] says whether a material of another kind has
      its owner.
    - Fuel: [bsearch_base] halves a range, and the length of the list is enough
      (proved); [otp_loop] counts random blocks, and one block per digit is
      enough when every block holds a usable byte
      ([otp_generation_succeeds]); [follow] counts the pages a client asks for,
      and more than the entries of the history are enough
      ([pages_list_deliveries]); [follow_users] likewise for the directory
      ([directory_pages]).  The four attempts of [create_server_key] are the
      source's own bound.

    ** Not modelled, and the plan

    HTTP, MCP, provider, SMTP and webhook clients are network code; cryptographic
    adapters wrap libraries; wire types are derived serialization.
    [maintenance.rs] removes old logins with their challenges; the runs do not
    contain that step.  The claim of a mail compares the queues of logins and of
    identity mutations, so it waits for the latter.  Left, in order: provider
    completion of the session authority ([complete_authenticated_identity], which
    writes browser sessions as an email completion does); the identity-mutation, managed-connection
    and provisioning authorities; the mail worker; the runtime authentication
    service; and the journeys of [capability_journeys.rs]. *)
From stdpp Require Export base decidable list sets sorting strings gmap.
From Stdlib Require Export ZArith Lia Strings.Ascii.

#[global] Open Scope Z_scope.

(** ** Results: Rust's [Result<A, E>], with the error type first so that
    [result E] is a monad. *)
Inductive result (E A : Type) : Type :=
| Ok (a : A)
| Err (e : E).
Arguments Ok {_ _} a.
Arguments Err {_ _} e.

#[global] Instance result_eq_dec `{EqDecision E, EqDecision A} : EqDecision (result E A).
Proof. solve_decision. Defined.

(** The [?] operator. *)
Definition rbind {E A B : Type} (m : result E A) (k : A -> result E B) : result E B :=
  match m with
  | Ok a => k a
  | Err e => Err e
  end.

Definition map_err {E F A : Type} (f : E -> F) (m : result E A) : result F A :=
  match m with
  | Ok a => Ok a
  | Err e => Err (f e)
  end.

Definition rmap {E A B : Type} (f : A -> B) (m : result E A) : result E B :=
  match m with
  | Ok a => Ok (f a)
  | Err e => Err e
  end.

(** [Option::ok_or]. *)
Definition ok_or {E A : Type} (o : option A) (e : E) : result E A :=
  match o with
  | Some a => Ok a
  | None => Err e
  end.

Definition is_ok {E A : Type} (m : result E A) : bool :=
  match m with
  | Ok _ => true
  | Err _ => false
  end.

(** [Option::is_some], [is_none], [is_some_and]; [Vec::len]. *)
Definition is_some {A : Type} (o : option A) : bool :=
  match o with
  | Some _ => true
  | None => false
  end.
Definition is_none {A : Type} (o : option A) : bool := negb (is_some o).
Definition is_some_and {A : Type} (o : option A) (f : A -> bool) : bool :=
  match o with
  | Some a => f a
  | None => false
  end.
Definition list_len {A : Type} (l : list A) : Z := Z.of_nat (length l).

Declare Scope owl_scope.
Delimit Scope owl_scope with owl.
Notation "x <-? m ;; k" := (rbind m (fun x => k))
  (at level 100, m at next level, right associativity) : owl_scope.
Notation "'let?' pat := m 'in' k" := (rbind m (fun x => match x with pat => k end))
  (at level 10, pat pattern, m at level 200, k at level 200) : owl_scope.
Notation "m ;;? k" := (rbind m (fun _ => k))
  (at level 100, right associativity) : owl_scope.
#[global] Open Scope owl_scope.

(** [iter().map(f).collect::<Result<Vec<_>, _>>()]: the first error wins. *)
Fixpoint rmapM {E A B : Type} (f : A -> result E B) (l : list A) : result E (list B) :=
  match l with
  | [] => Ok []
  | x :: r => y <-? f x ;; ys <-? rmapM f r ;; Ok (y :: ys)
  end.

(** ** Mutating methods: [fn f(&mut self) -> Result<A, E>].  The receiver is
    threaded explicitly and survives an error, because Rust does not roll a
    [&mut self] method back when it returns [Err]. *)
Definition mut (S E A : Type) : Type := S -> S * result E A.

Definition mret {S E A : Type} (a : A) : mut S E A := fun s => (s, Ok a).
Definition mfail {S E A : Type} (e : E) : mut S E A := fun s => (s, Err e).
Definition mget {S E : Type} : mut S E S := fun s => (s, Ok s).
Definition mmodify {S E : Type} (f : S -> S) : mut S E unit := fun s => (f s, Ok tt).
Definition mlift {S E A : Type} (r : result E A) : mut S E A := fun s => (s, r).
Definition mseq {S E A B : Type} (m : mut S E A) (k : A -> mut S E B) : mut S E B :=
  fun s =>
    match m s with
    | (s', Ok a) => k a s'
    | (s', Err e) => (s', Err e)
    end.

Notation "x <~ m ;; k" := (mseq m (fun x => k))
  (at level 100, m at next level, right associativity) : owl_scope.
Notation "m ;;~ k" := (mseq m (fun _ => k))
  (at level 100, right associativity) : owl_scope.

(** A status setter guarded by a predicate on the current value: the shape of
    every [fn verb(&mut self) -> Result<(), DomainError>] of the status enums. *)
Definition guarded {S E : Type} (allowed : S -> bool) (e : E) (next : S) : mut S E unit :=
  fun s => if allowed s then (next, Ok tt) else (s, Err e).

(** ** Machine integers *)
Definition i64_min : Z := - 2 ^ 63.
Definition i64_max : Z := 2 ^ 63 - 1.
Definition i64_range (z : Z) : Prop := i64_min <= z <= i64_max.
Definition in_i64 (z : Z) : bool := (i64_min <=? z) && (z <=? i64_max).

(** [i64::checked_add]. *)
Definition checked_add_i64 (a b : Z) : option Z :=
  if in_i64 (a + b) then Some (a + b) else None.

(** [i64] addition of the release build: wraps around. *)
Definition i64_add (a b : Z) : Z := (a + b + 2 ^ 63) mod 2 ^ 64 - 2 ^ 63.
#[global] Arguments i64_add : simpl never.

(** [(lo..=hi).contains(&x)]. *)
Definition in_range (lo hi x : Z) : bool := (lo <=? x) && (x <=? hi).

(** Big-endian fixed-width encodings ([to_be_bytes]). *)
Fixpoint be_bytes (width : nat) (v : Z) : list Z :=
  match width with
  | O => []
  | S w => be_bytes w (v / 256) ++ [v mod 256]
  end.

Fixpoint be_value (acc : Z) (l : list Z) : Z :=
  match l with
  | [] => acc
  | b :: r => be_value (acc * 256 + b) r
  end.

(** ** Strings.  A Rust [String]/[&str] is its UTF-8 byte sequence. *)
Definition byte_of (a : Ascii.ascii) : Z := Z.of_N (Ascii.N_of_ascii a).

Fixpoint bytes (s : string) : list Z :=
  match s with
  | EmptyString => []
  | String a r => byte_of a :: bytes r
  end.

Fixpoint str_len (s : string) : Z :=
  match s with
  | EmptyString => 0
  | String _ r => 1 + str_len r
  end.

Definition is_empty (s : string) : bool :=
  match s with
  | EmptyString => true
  | String _ _ => false
  end.

(** [str::chars]: the Unicode scalar values of a UTF-8 byte sequence.  On
    malformed input, which a Rust [&str] never holds, decoding continues with
    the bytes that are there. *)
Fixpoint utf8_chars (l : list Z) : list Z :=
  match l with
  | [] => []
  | b0 :: r0 =>
      if b0 <? 0x80 then b0 :: utf8_chars r0
      else if b0 <? 0xE0 then
        match r0 with
        | b1 :: r1 => ((b0 mod 0x20) * 64 + b1 mod 64) :: utf8_chars r1
        | [] => [b0]
        end
      else if b0 <? 0xF0 then
        match r0 with
        | b1 :: b2 :: r2 =>
            ((b0 mod 0x10) * 4096 + (b1 mod 64) * 64 + b2 mod 64) :: utf8_chars r2
        | _ => [b0]
        end
      else
        match r0 with
        | b1 :: b2 :: b3 :: r3 =>
            ((b0 mod 0x08) * 262144 + (b1 mod 64) * 4096 + (b2 mod 64) * 64 + b3 mod 64)
              :: utf8_chars r3
        | _ => [b0]
        end
  end.

Definition chars (s : string) : list Z := utf8_chars (bytes s).

(** [char::is_control]: Unicode general category Cc. *)
Definition char_is_control (c : Z) : bool := (c <=? 0x1F) || in_range 0x7F 0x9F c.

(** [char::is_whitespace]: Unicode property White_Space. *)
Definition char_is_whitespace (c : Z) : bool :=
  in_range 0x09 0x0D c || (c =? 0x20) || (c =? 0x85) || (c =? 0xA0) || (c =? 0x1680)
  || in_range 0x2000 0x200A c || (c =? 0x2028) || (c =? 0x2029) || (c =? 0x202F)
  || (c =? 0x205F) || (c =? 0x3000).

Definition is_ascii_lowercase (b : Z) : bool := in_range 0x61 0x7A b.
Definition is_ascii_uppercase (b : Z) : bool := in_range 0x41 0x5A b.
Definition is_ascii_digit (b : Z) : bool := in_range 0x30 0x39 b.
Definition is_ascii_alphanumeric (b : Z) : bool :=
  is_ascii_lowercase b || is_ascii_uppercase b || is_ascii_digit b.
Definition is_ascii_control (b : Z) : bool := (b <=? 0x1F) || (b =? 0x7F).
(** [u8::is_ascii_whitespace]: space, tab, LF, FF, CR (not vertical tab). *)
Definition is_ascii_whitespace (b : Z) : bool :=
  (b =? 0x20) || (b =? 0x09) || (b =? 0x0A) || (b =? 0x0C) || (b =? 0x0D).
Definition is_ascii_str (s : string) : bool := forallb (fun b => b <=? 0x7F) (bytes s).

Definition contains_byte (b : Z) (s : string) : bool := existsb (Z.eqb b) (bytes s).

Definition starts_with_byte (b : Z) (s : string) : bool :=
  match s with
  | EmptyString => false
  | String a _ => byte_of a =? b
  end.

Fixpoint ends_with_byte (b : Z) (s : string) : bool :=
  match s with
  | EmptyString => false
  | String a EmptyString => byte_of a =? b
  | String _ r => ends_with_byte b r
  end.

(** [str::contains] with a string pattern. *)
Fixpoint contains_str (needle s : string) : bool :=
  String.prefix needle s ||
  match s with
  | EmptyString => false
  | String _ r => contains_str needle r
  end.

Definition ascii_lower (a : Ascii.ascii) : Ascii.ascii :=
  if is_ascii_uppercase (byte_of a)
  then Ascii.ascii_of_N (Z.to_N (byte_of a + 32))
  else a.

Fixpoint to_ascii_lowercase (s : string) : string :=
  match s with
  | EmptyString => EmptyString
  | String a r => String (ascii_lower a) (to_ascii_lowercase r)
  end.

(** [str::rsplit_once(c)]. *)
Fixpoint rsplit_once (b : Z) (s : string) : option (string * string) :=
  match s with
  | EmptyString => None
  | String a r =>
      match rsplit_once b r with
      | Some (l, t) => Some (String a l, t)
      | None => if byte_of a =? b then Some (EmptyString, r) else None
      end
  end.

(** [str::split(c)]: always at least one piece. *)
Fixpoint split_byte (b : Z) (s : string) : list string :=
  match s with
  | EmptyString => [EmptyString]
  | String a r =>
      if byte_of a =? b then EmptyString :: split_byte b r
      else match split_byte b r with
           | p :: ps => String a p :: ps
           | [] => [String a EmptyString]
           end
  end.

(** [str::strip_suffix(c)]. *)
Fixpoint strip_suffix_byte (b : Z) (s : string) : option string :=
  match s with
  | EmptyString => None
  | String a EmptyString => if byte_of a =? b then Some EmptyString else None
  | String a r => match strip_suffix_byte b r with
                  | Some p => Some (String a p)
                  | None => None
                  end
  end.

(** Timestamps ([OffsetDateTime]) are instants: nanoseconds since the Unix
    epoch.  Durations are nanoseconds. *)
Abbreviation OffsetDateTime := Z (only parsing).
Definition seconds (n : Z) : Z := n * 1000000000.
Definition minutes (n : Z) : Z := seconds (n * 60).

(** A [Uuid] is its 128-bit value; the nil UUID is zero. *)
Abbreviation Uuid := Z (only parsing).
Definition uuid_is_nil (u : Uuid) : bool := u =? 0.

(** * Shared lemmas and automation *)
Create HintDb owl discriminated.
Create Rewrite HintDb owl_bool.

(** ** Results and mutating methods *)
Section result_lemmas.
Context {E A B : Type}.

Lemma rbind_ok (m : result E A) (k : A -> result E B) (b : B) :
  rbind m k = Ok b <-> exists a, m = Ok a /\ k a = Ok b.
Proof. destruct m; simpl; naive_solver. Qed.

Lemma rbind_err (m : result E A) (k : A -> result E B) (e : E) :
  rbind m k = Err e <-> m = Err e \/ exists a, m = Ok a /\ k a = Err e.
Proof. destruct m; simpl; naive_solver. Qed.

Lemma ok_or_ok (o : option A) (e : E) (a : A) : ok_or o e = Ok a <-> o = Some a.
Proof. destruct o; simpl; naive_solver. Qed.

Lemma map_err_ok {F : Type} (f : E -> F) (m : result E A) (a : A) :
  map_err f m = Ok a <-> m = Ok a.
Proof. destruct m; simpl; naive_solver. Qed.

Lemma rmap_ok (f : A -> B) (m : result E A) (b : B) :
  rmap f m = Ok b <-> exists a, m = Ok a /\ b = f a.
Proof. destruct m; simpl; naive_solver. Qed.

Lemma if_err_ok (c : bool) (e : E) (k : result E A) (a : A) :
  (if c then Err e else k) = Ok a <-> c = false /\ k = Ok a.
Proof. destruct c; naive_solver. Qed.

Lemma if_ok_err (c : bool) (e : E) (k : result E A) (a : A) :
  (if c then k else Err e) = Ok a <-> c = true /\ k = Ok a.
Proof. destruct c; naive_solver. Qed.

End result_lemmas.

(** [collect] succeeds exactly when every element does. *)
Lemma rmapM_ok {E A B : Type} (f : A -> result E B) (l : list A) (r : list B) :
  rmapM f l = Ok r <-> Forall2 (fun x y => f x = Ok y) l r.
Proof.
  revert r; induction l as [|x l IH]; intros r; simpl.
  - split; [intros [= <-]; constructor | inversion 1; done].
  - rewrite rbind_ok; setoid_rewrite rbind_ok; split.
    + intros (y & Hy & ys & Hys & [= <-]); constructor; [done | by apply IH].
    + inversion 1 as [|? y ? ys Hy Hys]; subst.
      exists y; split; [done|]; exists ys; split; [by apply IH | done].
Qed.

Lemma rmapM_length {E A B : Type} (f : A -> result E B) l r :
  rmapM f l = Ok r -> length r = length l.
Proof. rewrite rmapM_ok; intros H; symmetry; by eapply Forall2_length. Qed.

Lemma guarded_ok {S E : Type} (allowed : S -> bool) (e : E) next s :
  (guarded allowed e next s).2 = Ok tt <-> allowed s = true.
Proof. unfold guarded; destruct (allowed s); naive_solver. Qed.

Lemma guarded_state {S E : Type} (allowed : S -> bool) (e : E) next s :
  (guarded allowed e next s).1 = if allowed s then next else s.
Proof. unfold guarded; by destruct (allowed s). Qed.

Lemma mseq_run {S E A B : Type} (m : mut S E A) (k : A -> mut S E B) s s1 a :
  m s = (s1, Ok a) -> mseq m k s = k a s1.
Proof. unfold mseq. by intros ->. Qed.

Lemma mseq_ok {S E A B : Type} (m : mut S E A) (k : A -> mut S E B) s s' b :
  mseq m k s = (s', Ok b) <-> exists s1 a, m s = (s1, Ok a) /\ k a s1 = (s', Ok b).
Proof. unfold mseq; destruct (m s) as [s1 [a|e]]; naive_solver. Qed.

(** ** Booleans of the source as propositions *)
#[export] Hint Rewrite orb_false_iff orb_true_iff andb_true_iff andb_false_iff
  negb_true_iff negb_false_iff Z.eqb_eq Z.eqb_neq Z.leb_le Z.leb_gt Z.ltb_lt Z.ltb_ge
  bool_decide_eq_true bool_decide_eq_false : owl_bool.

Lemma in_range_true lo hi x : in_range lo hi x = true <-> lo <= x <= hi.
Proof. unfold in_range; autorewrite with owl_bool; lia. Qed.
Lemma in_range_false lo hi x : in_range lo hi x = false <-> x < lo \/ hi < x.
Proof. unfold in_range; autorewrite with owl_bool; lia. Qed.
#[export] Hint Rewrite in_range_true in_range_false : owl_bool.

Ltac bool_prop := autorewrite with owl_bool in *.

(** Invert a successful computation in the result monad. *)
Ltac inv_ok_step :=
  match goal with
  | H : rbind _ _ = Ok _ |- _ => apply rbind_ok in H; destruct H as (? & ? & H)
  | H : ok_or _ _ = Ok _ |- _ => apply ok_or_ok in H
  | H : map_err _ _ = Ok _ |- _ => apply map_err_ok in H
  | H : rmap _ _ = Ok _ |- _ => apply rmap_ok in H; destruct H as (? & H & ->)
  | H : (if _ then Err _ else _) = Ok _ |- _ => apply if_err_ok in H; destruct H as [? H]
  | H : (if _ then _ else Err _) = Ok _ |- _ => apply if_ok_err in H; destruct H as [? H]
  | H : Ok _ = Ok _ |- _ => injection H as H; try subst
  | H : Err _ = Ok _ |- _ => discriminate H
  | H : Ok _ = Err _ |- _ => discriminate H
  | H : Some _ = Some _ |- _ => injection H as H; try subst
  | u : unit |- _ => destruct u
  end.
Ltac inv_ok := repeat inv_ok_step.

(** Two results of one computation are the same. *)
Ltac same_ok := repeat match goal with
  | H1 : ?t = Ok ?a, H2 : ?t = Ok ?b |- _ =>
      rewrite H1 in H2; injection H2; clear H2; intros; subst
  end.

Lemma some_of_not_none {A} (o : option A) : is_none o = false -> is_some o = true.
Proof. by destruct o. Qed.
Lemma none_of_not_some {A} (o : option A) : is_some o = false -> o = None.
Proof. by destruct o. Qed.
Lemma some_of_is_some {A} (o : option A) : is_some o = true -> exists a, o = Some a.
Proof. destruct o; simpl; [eauto | done]. Qed.

(** ** Machine integers *)
Lemma checked_add_i64_some a b c :
  checked_add_i64 a b = Some c <-> c = a + b /\ i64_range c.
Proof.
  unfold checked_add_i64, in_i64, i64_range.
  destruct (_ && _) eqn:H; bool_prop; naive_solver lia.
Qed.

Lemma checked_add_i64_none a b :
  checked_add_i64 a b = None <-> ~ i64_range (a + b).
Proof.
  unfold checked_add_i64, in_i64, i64_range.
  destruct (_ && _) eqn:H; bool_prop; naive_solver lia.
Qed.

Lemma be_bytes_length w v : length (be_bytes w v) = w.
Proof.
  revert v; induction w as [|w IH]; intros v; simpl; [done|].
  rewrite length_app, IH; simpl; lia.
Qed.

Lemma be_value_app acc l1 l2 : be_value acc (l1 ++ l2) = be_value (be_value acc l1) l2.
Proof. revert acc; induction l1 as [|x l1 IH]; intros acc; simpl; auto. Qed.

(** Encoding then decoding a fixed-width integer is the identity. *)
Lemma be_value_be_bytes w v acc :
  0 <= v < 256 ^ Z.of_nat w ->
  be_value acc (be_bytes w v) = acc * 256 ^ Z.of_nat w + v.
Proof.
  revert v acc; induction w as [|w IH]; intros v acc Hv.
  - simpl in *; lia.
  - rewrite Nat2Z.inj_succ, Z.pow_succ_r in * by lia.
    simpl be_bytes; rewrite be_value_app, IH; simpl.
    + pose proof (Z.div_mod v 256); nia.
    + split; [apply Z.div_pos; lia | apply Z.div_lt_upper_bound; lia].
Qed.

Lemma be_bytes_inj w v1 v2 :
  0 <= v1 < 256 ^ Z.of_nat w -> 0 <= v2 < 256 ^ Z.of_nat w ->
  be_bytes w v1 = be_bytes w v2 -> v1 = v2.
Proof.
  intros H1 H2 Heq.
  pose proof (be_value_be_bytes w v1 0 H1) as E1.
  pose proof (be_value_be_bytes w v2 0 H2) as E2.
  rewrite Heq in E1; lia.
Qed.

(** Two length-delimited prefixes of the same length split a list uniquely. *)
Lemma app_inj_length {A : Type} (l1 l2 r1 r2 : list A) :
  length l1 = length l2 -> l1 ++ r1 = l2 ++ r2 -> l1 = l2 /\ r1 = r2.
Proof. intros Hl Heq; by apply app_inj_1. Qed.

(** ** Strings *)
Lemma str_len_bytes s : str_len s = Z.of_nat (length (bytes s)).
Proof. induction s as [|a s IH]; simpl; [done|]; rewrite IH; lia. Qed.

Lemma str_len_nonneg s : 0 <= str_len s.
Proof. rewrite str_len_bytes; lia. Qed.

Lemma is_empty_true s : is_empty s = true <-> s = EmptyString.
Proof. destruct s; simpl; naive_solver. Qed.
Lemma is_empty_false s : is_empty s = false <-> 0 < str_len s.
Proof. destruct s as [|a s]; simpl; [split; [done | lia]|]. pose proof (str_len_nonneg s); split; [lia | done]. Qed.
#[export] Hint Rewrite is_empty_true is_empty_false : owl_bool.

Lemma byte_of_inj a b : byte_of a = byte_of b -> a = b.
Proof.
  unfold byte_of; intros H%N2Z.inj.
  by rewrite <- (Ascii.ascii_N_embedding a), <- (Ascii.ascii_N_embedding b), H.
Qed.

Lemma byte_of_range a : 0 <= byte_of a < 256.
Proof.
  unfold byte_of; pose proof (Ascii.N_ascii_bounded a) as H.
  apply N2Z.inj_lt in H; change (Z.of_N 256) with 256 in H.
  pose proof (N2Z.is_nonneg (Ascii.N_of_ascii a)); lia.
Qed.

Lemma bytes_inj s t : bytes s = bytes t -> s = t.
Proof.
  revert t; induction s as [|a s IH]; intros [|b t]; simpl; try done.
  intros [= Hb Hr]; f_equal; [by apply byte_of_inj | by apply IH].
Qed.

Lemma bytes_app s t : bytes (String.append s t) = bytes s ++ bytes t.
Proof. induction s as [|a s IH]; simpl; [done|]; by rewrite IH. Qed.

Lemma str_len_app s t : str_len (String.append s t) = str_len s + str_len t.
Proof. rewrite !str_len_bytes, bytes_app, length_app; lia. Qed.

#[export] Hint Resolve str_len_nonneg byte_of_range : owl.
