(* ===== verification/BTree.v ===== *)
(** * Ordered sets: [std::collections::BTreeSet] and [slice::binary_search]

    A [BTreeSet<T>] is modelled by what its iterator yields: the strictly
    increasing list of its elements.  [collect] inserts one element at a time.
    [TotalOrd] is Rust's [Ord]; the instances used by the program follow the
    derived orders of the source. *)
From Stdlib Require Import Sorting.Sorted.
From S2P Require Import Prelude.

Class TotalOrd (A : Type) : Type := {
  cmp : A -> A -> comparison;
  cmp_eq : forall x y, cmp x y = Eq <-> x = y;
  cmp_antisym : forall x y, cmp y x = CompOpp (cmp x y);
  cmp_trans : forall x y z, cmp x y = Lt -> cmp y z = Lt -> cmp x z = Lt
}.

Definition lt_ord `{TotalOrd A} (x y : A) : Prop := cmp x y = Lt.

Fixpoint bt_insert `{TotalOrd A} (x : A) (l : list A) : list A :=
  match l with
  | [] => [x]
  | y :: r =>
      match cmp x y with
      | Lt => x :: y :: r
      | Eq => y :: r
      | Gt => y :: bt_insert x r
      end
  end.

(** [iter.collect::<BTreeSet<_>>()]. *)
Definition bt_collect `{TotalOrd A} (l : list A) : list A :=
  fold_left (fun acc x => bt_insert x acc) l [].

(** [slice::binary_search(..).is_ok()]: the loop of the standard library, which
    halves [size] until one candidate is left.  [fuel] bounds the iterations;
    the slice length always suffices. *)
Fixpoint bsearch_base `{TotalOrd A} (fuel : nat) (l : list A) (x : A) (base size : nat) : nat :=
  match fuel with
  | O => base
  | S f =>
      if Nat.leb size 1 then base
      else
        let half := Nat.div2 size in
        let mid := (base + half)%nat in
        let base' :=
          match l !! mid with
          | Some y => match cmp y x with Gt => base | _ => mid end
          | None => base
          end in
        bsearch_base f l x base' (size - half)
  end.

Definition binary_search `{TotalOrd A} (l : list A) (x : A) : bool :=
  match l !! (bsearch_base (length l) l x 0 (length l)) with
  | Some y => match cmp y x with Eq => true | _ => false end
  | None => false
  end.

Section order_lemmas.
Context `{TotalOrd A}.

Lemma cmp_refl (x : A) : cmp x x = Eq.
Proof. by apply cmp_eq. Qed.

Lemma lt_ord_irrefl (x : A) : ~ lt_ord x x.
Proof. unfold lt_ord; rewrite cmp_refl; done. Qed.

Lemma cmp_gt_lt (x y : A) : cmp x y = Gt <-> lt_ord y x.
Proof. unfold lt_ord; rewrite (cmp_antisym x y); destruct (cmp x y); simpl; naive_solver. Qed.

#[global] Instance lt_ord_trans : Transitive (lt_ord (A := A)).
Proof. intros x y z; apply cmp_trans. Qed.

Lemma bt_insert_elem (x z : A) l : z ∈ bt_insert x l <-> z = x \/ z ∈ l.
Proof.
  induction l as [|y r IH]; simpl; [set_solver|].
  destruct (cmp x y) eqn:Hc; [apply cmp_eq in Hc; subst; set_solver|set_solver|].
  rewrite !elem_of_cons, IH; naive_solver.
Qed.

Lemma bt_insert_sorted (x : A) l :
  StronglySorted lt_ord l -> StronglySorted lt_ord (bt_insert x l).
Proof.
  induction 1 as [|y r Hs IH Hall]; simpl; [repeat constructor|].
  destruct (cmp x y) eqn:Hc.
  - by constructor.
  - constructor; [by constructor|]; constructor; [done|].
    eapply Forall_impl; [exact Hall|]; intros z Hz; by transitivity y.
  - constructor; [done|]; apply Forall_forall; intros z [->|Hz]%bt_insert_elem.
    + by apply cmp_gt_lt.
    + rewrite Forall_forall in Hall; by apply Hall.
Qed.

Lemma bt_collect_acc l acc :
  StronglySorted lt_ord acc ->
  StronglySorted lt_ord (fold_left (fun acc x => bt_insert x acc) l acc) /\
  forall z, z ∈ fold_left (fun acc x => bt_insert x acc) l acc <-> z ∈ l \/ z ∈ acc.
Proof.
  revert acc; induction l as [|x l IH]; intros acc Hs; simpl; [set_solver|].
  destruct (IH (bt_insert x acc)) as [H1 H2]; [by apply bt_insert_sorted|].
  split; [done|]; intros z; rewrite H2, bt_insert_elem; set_solver.
Qed.

(** Collecting yields a strictly increasing list ... *)
Lemma bt_collect_sorted (l : list A) : StronglySorted lt_ord (bt_collect l).
Proof. by destruct (bt_collect_acc l [] ltac:(constructor)). Qed.

(** ... of exactly the collected elements. *)
Lemma bt_collect_elem (l : list A) z : z ∈ bt_collect l <-> z ∈ l.
Proof. destruct (bt_collect_acc l [] ltac:(constructor)) as [_ Hz]; set_solver. Qed.

Lemma sorted_nodup (l : list A) : StronglySorted lt_ord l -> NoDup l.
Proof.
  induction 1 as [|x l Hs IH Hall]; constructor; [|done].
  intros Hin; rewrite Forall_forall in Hall; by apply (lt_ord_irrefl x), Hall.
Qed.

(** A strictly increasing list is determined by its elements. *)
Lemma sorted_ext (l1 l2 : list A) :
  StronglySorted lt_ord l1 -> StronglySorted lt_ord l2 ->
  (forall z, z ∈ l1 <-> z ∈ l2) -> l1 = l2.
Proof.
  intros Hs1; revert l2; induction Hs1 as [|x l1 Hs1 IH Hall1]; intros l2 Hs2 Heq.
  - destruct l2 as [|y l2]; [done|]; exfalso.
    apply (not_elem_of_nil y), Heq; set_solver.
  - inversion Hs2 as [|y l2' Hs2' Hall2]; subst.
    { exfalso; apply (not_elem_of_nil x), Heq; set_solver. }
    rewrite Forall_forall in Hall1, Hall2.
    assert (x = y) as ->.
    { assert (Hx : x ∈ y :: l2') by (apply Heq; set_solver).
      assert (Hy : y ∈ x :: l1) by (apply Heq; set_solver).
      apply elem_of_cons in Hx as [?|Hx]; [done|].
      apply elem_of_cons in Hy as [?|Hy]; [done|].
      exfalso; apply (lt_ord_irrefl x); transitivity y; auto. }
    f_equal; apply IH; [done|]; intros z; split; intros Hz.
    + assert (Hz' : z ∈ y :: l2') by (apply Heq; set_solver).
      apply elem_of_cons in Hz' as [->|?]; [|done].
      exfalso; by apply (lt_ord_irrefl y), Hall1.
    + assert (Hz' : z ∈ y :: l1) by (apply Heq; set_solver).
      apply elem_of_cons in Hz' as [->|?]; [|done].
      exfalso; by apply (lt_ord_irrefl y), Hall2.
Qed.

(** Collecting an already canonical list changes nothing. *)
Lemma bt_collect_id (l : list A) : StronglySorted lt_ord l -> bt_collect l = l.
Proof.
  intros Hs; apply sorted_ext; [apply bt_collect_sorted|done|]; apply bt_collect_elem.
Qed.

Lemma bt_collect_length_le (l : list A) : (length (bt_collect l) <= length l)%nat.
Proof.
  apply submseteq_length, NoDup_submseteq; [apply sorted_nodup, bt_collect_sorted|].
  intros z; by rewrite bt_collect_elem.
Qed.

(** [set.len() == vec.len()] exactly when the vector has no duplicate. *)
Lemma bt_collect_length_nodup (l : list A) : length (bt_collect l) = length l <-> NoDup l.
Proof.
  assert (Hnd : NoDup (bt_collect l)) by apply sorted_nodup, bt_collect_sorted.
  assert (Hsub : bt_collect l ⊆+ l).
  { apply NoDup_submseteq; [done|]; intros z; by rewrite bt_collect_elem. }
  split; intros Hl.
  - eapply NoDup_Permutation_proper; [symmetry; apply submseteq_length_Permutation|];
      [exact Hsub|lia|done].
  - apply Permutation_length, NoDup_Permutation; [done|done|apply bt_collect_elem].
Qed.

Lemma bt_collect_nil (l : list A) : bt_collect l = [] <-> l = [].
Proof.
  split; [|by intros ->]; intros Hl; destruct l as [|x l]; [done|exfalso].
  apply (not_elem_of_nil x); rewrite <- Hl; apply bt_collect_elem; set_solver.
Qed.
End order_lemmas.

(** ** Orders of the source *)
#[global, refine] Instance Z_ord : TotalOrd Z := {| cmp := Z.compare |}.
Proof.
  - apply Z.compare_eq_iff.
  - intros x y; apply Z.compare_antisym.
  - intros x y z; rewrite !Z.compare_lt_iff; lia.
Defined.

(** An enum with a derived [Ord] is ordered by the position of its variants. *)
Definition enum_cmp {A : Type} (pos : A -> Z) (x y : A) : comparison := Z.compare (pos x) (pos y).

Definition enum_ord {A : Type} (pos : A -> Z) (Hinj : forall x y, pos x = pos y -> x = y) :
  TotalOrd A.
Proof.
  refine {| cmp := enum_cmp pos |}; unfold enum_cmp.
  - intros x y; rewrite Z.compare_eq_iff; split; [apply Hinj | by intros ->].
  - intros x y; apply Z.compare_antisym.
  - intros x y z; rewrite !Z.compare_lt_iff; lia.
Defined.

(** [str]'s [Ord]: lexicographic on bytes. *)
Fixpoint str_cmp (s t : string) : comparison :=
  match s, t with
  | EmptyString, EmptyString => Eq
  | EmptyString, String _ _ => Lt
  | String _ _, EmptyString => Gt
  | String a s', String b t' =>
      match Z.compare (byte_of a) (byte_of b) with
      | Eq => str_cmp s' t'
      | c => c
      end
  end.

Lemma str_cmp_eq s t : str_cmp s t = Eq <-> s = t.
Proof.
  revert t; induction s as [|a s IH]; intros [|b t]; simpl; try done.
  destruct (Z.compare_spec (byte_of a) (byte_of b)) as [Hb|Hb|Hb].
  - apply byte_of_inj in Hb as ->; rewrite IH; naive_solver.
  - split; [done|]; intros [= -> ->]; lia.
  - split; [done|]; intros [= -> ->]; lia.
Qed.

Lemma str_cmp_antisym s t : str_cmp t s = CompOpp (str_cmp s t).
Proof.
  revert t; induction s as [|a s IH]; intros [|b t]; simpl; try done.
  rewrite (Z.compare_antisym (byte_of a) (byte_of b)).
  destruct (byte_of a ?= byte_of b); simpl; [apply IH|done|done].
Qed.

Lemma str_cmp_trans s t u : str_cmp s t = Lt -> str_cmp t u = Lt -> str_cmp s u = Lt.
Proof.
  revert t u; induction s as [|a s IH]; intros [|b t] [|c u]; simpl; try done.
  destruct (Z.compare_spec (byte_of a) (byte_of b)) as [Hab|Hab|Hab];
    destruct (Z.compare_spec (byte_of b) (byte_of c)) as [Hbc|Hbc|Hbc]; try done;
    destruct (Z.compare_spec (byte_of a) (byte_of c)) as [Hac|Hac|Hac]; try done; try lia.
  apply IH.
Qed.

#[global] Instance str_ord : TotalOrd string :=
  {| cmp := str_cmp; cmp_eq := str_cmp_eq; cmp_antisym := str_cmp_antisym;
     cmp_trans := str_cmp_trans |}.

(** ** Binary search decides membership in a sorted slice *)
Section binary_search_lemmas.
Context `{TotalOrd A}.

Lemma sorted_lookup_lt (l : list A) i j x y :
  StronglySorted lt_ord l -> l !! i = Some x -> l !! j = Some y -> (i < j)%nat -> lt_ord x y.
Proof.
  intros Hs; revert i j; induction Hs as [|z l Hs IH Hall]; intros i j Hi Hj Hij; [done|].
  destruct i as [|i], j as [|j]; simpl in *; try lia.
  - simplify_eq; rewrite Forall_forall in Hall; apply Hall, list_elem_of_lookup; eauto.
  - apply (IH i j); [done|done|lia].
Qed.

Lemma bsearch_base_spec (l : list A) x fuel base size i :
  StronglySorted lt_ord l -> l !! i = Some x ->
  (size <= S fuel)%nat -> (base <= i < base + size)%nat -> (base + size <= length l)%nat ->
  bsearch_base fuel l x base size = i.
Proof.
  intros Hs Hi; revert base size; induction fuel as [|f IH]; intros base size Hf Hb Hle; simpl.
  { lia. }
  destruct (Nat.leb_spec size 1); [lia|].
  pose proof (Nat.div2_odd size) as Hdiv; destruct (Nat.odd size); simpl in Hdiv.
  all: destruct (lookup_lt_is_Some_2 l (base + Nat.div2 size)) as [y Hy]; [lia|];
       rewrite Hy; destruct (cmp y x) eqn:Hc.
  all: try (apply cmp_eq in Hc; subst y).
  all: apply IH; try lia.
  all: destruct (Nat.lt_trichotomy i (base + Nat.div2 size)) as [Hlt|[Heq|Hgt]]; try lia.
  all: try (pose proof (sorted_lookup_lt l _ _ _ _ Hs Hi Hy Hlt) as Hxy).
  all: try (pose proof (sorted_lookup_lt l _ _ _ _ Hs Hy Hi Hgt) as Hyx).
  all: try (by exfalso; eapply lt_ord_irrefl).
  all: try (exfalso; eapply (lt_ord_irrefl x); transitivity y; [done|by unfold lt_ord]).
  all: try (apply cmp_gt_lt in Hc; exfalso; eapply (lt_ord_irrefl x); by transitivity y).
  all: simplify_eq; by rewrite cmp_refl in Hc.
Qed.

Lemma binary_search_elem (l : list A) x :
  StronglySorted lt_ord l -> binary_search l x = true <-> x ∈ l.
Proof.
  intros Hs; unfold binary_search; split.
  - destruct (l !! _) as [y|] eqn:Hy; [|done].
    destruct (cmp y x) eqn:Hc; [|done..]; intros _; apply cmp_eq in Hc as ->.
    apply list_elem_of_lookup; eauto.
  - intros [i Hi]%list_elem_of_lookup.
    pose proof (lookup_lt_Some _ _ _ Hi) as Hlt.
    rewrite (bsearch_base_spec l x (length l) 0 (length l) i) by (done || lia).
    by rewrite Hi, cmp_refl.
Qed.
End binary_search_lemmas.

(** ** [slice::sort_unstable] and [Vec::dedup] on a totally ordered type *)
Fixpoint sort_insert `{TotalOrd A} (x : A) (l : list A) : list A :=
  match l with
  | [] => [x]
  | y :: r => match cmp x y with Gt => y :: sort_insert x r | _ => x :: y :: r end
  end.

Fixpoint sort_unstable `{TotalOrd A} (l : list A) : list A :=
  match l with
  | [] => []
  | x :: r => sort_insert x (sort_unstable r)
  end.

Fixpoint dedup `{TotalOrd A} (l : list A) : list A :=
  match l with
  | [] => []
  | x :: r =>
      match r with
      | y :: _ => match cmp x y with Eq => dedup r | _ => x :: dedup r end
      | [] => [x]
      end
  end.

Section sort_lemmas.
Context `{TotalOrd A}.

Definition le_ord (x y : A) : Prop := cmp x y <> Gt.

Lemma le_ord_trans (x y z : A) : le_ord x y -> le_ord y z -> le_ord x z.
Proof.
  unfold le_ord; intros H1 H2 H3; apply cmp_gt_lt in H3.
  destruct (cmp y z) eqn:Hyz; [apply cmp_eq in Hyz; subst|..]; try done.
  - by apply H1, cmp_gt_lt.
  - apply H1, cmp_gt_lt; by apply (lt_ord_trans y z x).
Qed.

Lemma sort_insert_perm (x : A) l : sort_insert x l ≡ₚ x :: l.
Proof.
  induction l as [|y r IH]; simpl; [done|]; destruct (cmp x y); [done|done|].
  rewrite IH; apply Permutation_swap.
Qed.

Lemma sort_unstable_perm (l : list A) : sort_unstable l ≡ₚ l.
Proof. induction l as [|x l IH]; simpl; [done|]; by rewrite sort_insert_perm, IH. Qed.

Lemma sort_insert_sorted (x : A) l :
  StronglySorted le_ord l -> StronglySorted le_ord (sort_insert x l).
Proof.
  induction 1 as [|y r Hs IH Hall]; simpl; [repeat constructor|].
  destruct (cmp x y) eqn:Hc.
  1-2: constructor; [by constructor|]; constructor; [unfold le_ord; congruence|];
       eapply Forall_impl; [exact Hall|]; intros z Hz;
       apply (le_ord_trans x y z); [unfold le_ord; congruence|done].
  constructor; [done|]; rewrite sort_insert_perm; constructor; [|done].
  unfold le_ord; rewrite (cmp_antisym x y), Hc; done.
Qed.

Lemma sort_unstable_sorted (l : list A) : StronglySorted le_ord (sort_unstable l).
Proof. induction l as [|x l IH]; simpl; [constructor|]; by apply sort_insert_sorted. Qed.

Lemma sorted_strict (l : list A) :
  StronglySorted le_ord l -> NoDup l -> StronglySorted lt_ord l.
Proof.
  induction 1 as [|x l Hs IH Hall]; [constructor|]; intros [Hx Hnd]%NoDup_cons.
  constructor; [auto|]; rewrite Forall_forall in Hall |- *; intros z Hz.
  specialize (Hall z Hz); unfold le_ord, lt_ord in *.
  destruct (cmp x z) eqn:Hc; [apply cmp_eq in Hc; congruence|done|done].
Qed.

Lemma dedup_length_le (l : list A) : (length (dedup l) <= length l)%nat.
Proof.
  induction l as [|x l IH]; simpl; [done|]; destruct l as [|y l]; [done|].
  destruct (cmp x y); simpl in *; lia.
Qed.

Lemma dedup_sorted_length (l : list A) :
  StronglySorted le_ord l -> length (dedup l) = length l <-> NoDup l.
Proof.
  induction 1 as [|x l Hs IH Hall]; [split; [constructor|done]|].
  destruct l as [|y l']; [split; [intros _; apply NoDup_singleton|done]|].
  set (l := y :: l') in *; change (dedup (x :: l)) with
    (match cmp x y with Eq => dedup l | _ => x :: dedup l end).
  pose proof (dedup_length_le l) as Hle; rewrite NoDup_cons.
  destruct (cmp x y) eqn:Hc.
  - apply cmp_eq in Hc as ->; split; [simpl in *; lia|]; unfold l; set_solver.
  - simpl; split.
    + intros [= Hl]; split; [|by apply IH]; intros Hx.
      assert (Hyx : le_ord y x); [|by apply Hyx, cmp_gt_lt].
      unfold l in Hx; apply elem_of_cons in Hx as [->|Hx].
      * unfold le_ord; rewrite cmp_refl; done.
      * unfold l in Hs; inversion Hs as [|?? _ Hy]; subst; rewrite Forall_forall in Hy; auto.
    + intros [_ Hnd]; f_equal; by apply IH.
  - apply Forall_cons in Hall as [Hxy _]; by destruct Hxy.
Qed.

Lemma dedup_nodup (l : list A) : NoDup l -> dedup l = l.
Proof.
  induction l as [|x l IH]; [done|]; intros [Hx Hnd]%NoDup_cons; specialize (IH Hnd).
  destruct l as [|y l]; [done|]; cbn [dedup] in *.
  destruct (cmp x y) eqn:Hc; [apply cmp_eq in Hc; set_solver|by f_equal..].
Qed.

(** [v.sort(); v.dedup(); v.len() == n] decides that [v] had no duplicates. *)
Lemma sort_dedup_length (l : list A) :
  length (dedup (sort_unstable l)) = length l <-> NoDup l.
Proof.
  rewrite <- (Permutation_length (sort_unstable_perm l)).
  rewrite dedup_sorted_length by apply sort_unstable_sorted.
  by rewrite sort_unstable_perm.
Qed.

(** Sorting is canonical on duplicate-free lists. *)
Lemma sort_unstable_eq (l1 l2 : list A) :
  NoDup l1 -> sort_unstable l1 = sort_unstable l2 <-> l1 ≡ₚ l2.
Proof.
  intros Hnd; split.
  - intros Heq; by rewrite <- (sort_unstable_perm l1), Heq, sort_unstable_perm.
  - intros Hp; apply sorted_ext.
    + apply sorted_strict; [apply sort_unstable_sorted|by rewrite sort_unstable_perm].
    + apply sorted_strict; [apply sort_unstable_sorted|].
      by rewrite sort_unstable_perm, <- Hp.
    + intros z; by rewrite !sort_unstable_perm, Hp.
Qed.
End sort_lemmas.
