(* ===== verification/Lifecycle.v ===== *)
(** * Status machines of the domain layer

    The closed status enums of [crates/owlauth-server/src/domain]
    ([session.rs], [login.rs], [key.rs], [project.rs], [application.rs],
    [provider.rs], [identity.rs]) with their guarded transition methods, and
    the interface ([Lifecycle], [OneWay]) against which the generic theorems on
    one-way machines are proved once and instantiated for every enum. *)
From S2P Require Import Prelude.

(** ** [domain/mod.rs] *)
Inductive DomainError :=
| Empty
| TooLong
| InvalidCharacters
| InvalidUrl
| InvalidTransition
| InvalidValue.

#[global] Instance DomainError_eq_dec : EqDecision DomainError.
Proof. solve_decision. Defined.

(** ** [domain/session.rs] *)
Module BrowserSession.
Inductive BrowserSessionStatus := Active | Terminated | Expired.
#[global] Instance BrowserSessionStatus_eq_dec : EqDecision BrowserSessionStatus.
Proof. solve_decision. Defined.

Definition BrowserSessionStatus_as_str (s : BrowserSessionStatus) : string :=
  match s with
  | Active => "active"
  | Terminated => "terminated"
  | Expired => "expired"
  end.

Definition BrowserSessionStatus_terminate : mut BrowserSessionStatus DomainError unit :=
  guarded (fun s => bool_decide (s = Active)) InvalidTransition Terminated.
Definition BrowserSessionStatus_expire : mut BrowserSessionStatus DomainError unit :=
  guarded (fun s => bool_decide (s = Active)) InvalidTransition Expired.
End BrowserSession.

Module Handoff.
Inductive HandoffStatus := Issued | Consumed | Expired.
#[global] Instance HandoffStatus_eq_dec : EqDecision HandoffStatus.
Proof. solve_decision. Defined.

Definition HandoffStatus_as_str (s : HandoffStatus) : string :=
  match s with
  | Issued => "issued"
  | Consumed => "consumed"
  | Expired => "expired"
  end.

Definition HandoffStatus_consume : mut HandoffStatus DomainError unit :=
  guarded (fun s => bool_decide (s = Issued)) InvalidTransition Consumed.
Definition HandoffStatus_expire : mut HandoffStatus DomainError unit :=
  guarded (fun s => bool_decide (s = Issued)) InvalidTransition Expired.
End Handoff.

Module ApplicationSession.
Inductive ApplicationSessionStatus := Active | Revoked | Expired.
#[global] Instance ApplicationSessionStatus_eq_dec : EqDecision ApplicationSessionStatus.
Proof. solve_decision. Defined.

Definition ApplicationSessionStatus_as_str (s : ApplicationSessionStatus) : string :=
  match s with
  | Active => "active"
  | Revoked => "revoked"
  | Expired => "expired"
  end.

Definition ApplicationSessionStatus_revoke : mut ApplicationSessionStatus DomainError unit :=
  guarded (fun s => bool_decide (s = Active)) InvalidTransition Revoked.
Definition ApplicationSessionStatus_expire : mut ApplicationSessionStatus DomainError unit :=
  guarded (fun s => bool_decide (s = Active)) InvalidTransition Expired.
End ApplicationSession.

Module RefreshFamily.
Inductive RefreshFamilyStatus := Active | Revoked | Expired.
#[global] Instance RefreshFamilyStatus_eq_dec : EqDecision RefreshFamilyStatus.
Proof. solve_decision. Defined.

Definition RefreshFamilyStatus_as_str (s : RefreshFamilyStatus) : string :=
  match s with
  | Active => "active"
  | Revoked => "revoked"
  | Expired => "expired"
  end.

Definition RefreshFamilyStatus_revoke : mut RefreshFamilyStatus DomainError unit :=
  guarded (fun s => bool_decide (s = Active)) InvalidTransition Revoked.
Definition RefreshFamilyStatus_expire : mut RefreshFamilyStatus DomainError unit :=
  guarded (fun s => bool_decide (s = Active)) InvalidTransition Expired.
End RefreshFamily.

Module RefreshGeneration.
Inductive RefreshGenerationStatus := Current | Consumed.
#[global] Instance RefreshGenerationStatus_eq_dec : EqDecision RefreshGenerationStatus.
Proof. solve_decision. Defined.

Inductive RefreshPresentationDecision := RotateSuccessor | RevokeFamilyForReplay.

Definition RefreshGenerationStatus_as_str (s : RefreshGenerationStatus) : string :=
  match s with
  | Current => "current"
  | Consumed => "consumed"
  end.

(** [present] cannot fail: it returns the decision and the next status. *)
Definition RefreshGenerationStatus_present (s : RefreshGenerationStatus) :
    RefreshGenerationStatus * RefreshPresentationDecision :=
  match s with
  | Current => (Consumed, RotateSuccessor)
  | Consumed => (Consumed, RevokeFamilyForReplay)
  end.

(** Any number of presentations of one generation, with their decisions. *)
Fixpoint presentations (n : nat) (s : RefreshGenerationStatus) :
    RefreshGenerationStatus * list RefreshPresentationDecision :=
  match n with
  | O => (s, [])
  | S n' =>
      let '(s', d) := RefreshGenerationStatus_present s in
      let '(s'', ds) := presentations n' s' in
      (s'', d :: ds)
  end.
End RefreshGeneration.

Module BrowserLogout.
Inductive BrowserLogoutStatus := Prepared | CsrfBound | Consumed | Expired.
#[global] Instance BrowserLogoutStatus_eq_dec : EqDecision BrowserLogoutStatus.
Proof. solve_decision. Defined.

Definition BrowserLogoutStatus_as_str (s : BrowserLogoutStatus) : string :=
  match s with
  | Prepared => "prepared"
  | CsrfBound => "csrf_bound"
  | Consumed => "consumed"
  | Expired => "expired"
  end.

Definition BrowserLogoutStatus_bind_csrf : mut BrowserLogoutStatus DomainError unit :=
  guarded (fun s => bool_decide (s = Prepared)) InvalidTransition CsrfBound.
Definition BrowserLogoutStatus_consume : mut BrowserLogoutStatus DomainError unit :=
  guarded (fun s => bool_decide (s = CsrfBound)) InvalidTransition Consumed.
Definition BrowserLogoutStatus_expire : mut BrowserLogoutStatus DomainError unit :=
  guarded (fun s => bool_decide (s = Prepared) || bool_decide (s = CsrfBound))
    InvalidTransition Expired.
End BrowserLogout.

(** ** [domain/login.rs] *)
Module Login.
Inductive LoginTransactionStatus :=
| AwaitingBrowserBinding
| AwaitingMethodSelection
| EmailAddressEntry
| EmailChallengePending
| ProviderAuthorizationStarted
| ProviderExchangeInProgress
| ProviderExchangeFailed
| Authenticated
| HandoffIssued
| Completed
| Expired
| Cancelled.
#[global] Instance LoginTransactionStatus_eq_dec : EqDecision LoginTransactionStatus.
Proof. solve_decision. Defined.

Definition LoginTransactionStatus_as_str (s : LoginTransactionStatus) : string :=
  match s with
  | AwaitingBrowserBinding => "awaiting_browser_binding"
  | AwaitingMethodSelection => "awaiting_method_selection"
  | EmailAddressEntry => "email_address_entry"
  | EmailChallengePending => "email_challenge_pending"
  | ProviderAuthorizationStarted => "provider_authorization_started"
  | ProviderExchangeInProgress => "provider_exchange_in_progress"
  | ProviderExchangeFailed => "provider_exchange_failed"
  | Authenticated => "authenticated"
  | HandoffIssued => "handoff_issued"
  | Completed => "completed"
  | Expired => "expired"
  | Cancelled => "cancelled"
  end.

(** The [matches!] table of [transition]. *)
Definition LoginTransactionStatus_allowed (s next : LoginTransactionStatus) : bool :=
  match s, next with
  | AwaitingBrowserBinding, (AwaitingMethodSelection | Expired | Cancelled) => true
  | AwaitingMethodSelection,
      (ProviderAuthorizationStarted | EmailAddressEntry | HandoffIssued | Expired | Cancelled) =>
      true
  | EmailAddressEntry, (EmailChallengePending | Expired | Cancelled) => true
  | EmailChallengePending, (Authenticated | Expired | Cancelled) => true
  | ProviderAuthorizationStarted, (ProviderExchangeInProgress | Expired | Cancelled) => true
  | ProviderExchangeInProgress, (Authenticated | ProviderExchangeFailed) => true
  | Authenticated, (HandoffIssued | Expired) => true
  | HandoffIssued, (Completed | Expired) => true
  | _, _ => false
  end.

Definition LoginTransactionStatus_transition (next : LoginTransactionStatus) :
    mut LoginTransactionStatus DomainError unit :=
  guarded (fun s => LoginTransactionStatus_allowed s next) InvalidTransition next.

(** The public verbs, each a [transition] to a fixed target. *)
Inductive LoginVerb :=
| bind_browser | select_provider | select_email | begin_email_challenge
| confirm_session_reuse | claim_provider_callback | authenticate
| fail_provider_exchange | issue_handoff | complete | expire | cancel.

Definition LoginVerb_target (v : LoginVerb) : LoginTransactionStatus :=
  match v with
  | bind_browser => AwaitingMethodSelection
  | select_provider => ProviderAuthorizationStarted
  | select_email => EmailAddressEntry
  | begin_email_challenge => EmailChallengePending
  | confirm_session_reuse => HandoffIssued
  | claim_provider_callback => ProviderExchangeInProgress
  | authenticate => Authenticated
  | fail_provider_exchange => ProviderExchangeFailed
  | issue_handoff => HandoffIssued
  | complete => Completed
  | expire => Expired
  | cancel => Cancelled
  end.

Definition LoginTransactionStatus_verb (v : LoginVerb) :
    mut LoginTransactionStatus DomainError unit :=
  LoginTransactionStatus_transition (LoginVerb_target v).
End Login.

(** ** [domain/key.rs] *)
Module SigningKey.
Inductive SigningKeyState :=
| Provisioning | Published | Active | Retiring | Retired | Revoked | Abandoned.
#[global] Instance SigningKeyState_eq_dec : EqDecision SigningKeyState.
Proof. solve_decision. Defined.

Definition SigningKeyState_as_str (s : SigningKeyState) : string :=
  match s with
  | Provisioning => "provisioning"
  | Published => "published"
  | Active => "active"
  | Retiring => "retiring"
  | Retired => "retired"
  | Revoked => "revoked"
  | Abandoned => "abandoned"
  end.

Definition SigningKeyState_allowed (s next : SigningKeyState) : bool :=
  match s, next with
  | Provisioning, (Published | Abandoned | Revoked) => true
  | Published, (Active | Abandoned | Revoked) => true
  | Active, (Retiring | Revoked) => true
  | Retiring, (Retired | Revoked) => true
  | _, _ => false
  end.

Definition SigningKeyState_transition (next : SigningKeyState) :
    mut SigningKeyState DomainError unit :=
  guarded (fun s => SigningKeyState_allowed s next) InvalidTransition next.
End SigningKey.

(** ** Status enums of [project.rs], [application.rs], [provider.rs] and
    [identity.rs] *)
Module Project.
Inductive ProjectStatus := Active | Disabled | Deleting.
#[global] Instance ProjectStatus_eq_dec : EqDecision ProjectStatus.
Proof. solve_decision. Defined.

Definition ProjectStatus_as_str (s : ProjectStatus) : string :=
  match s with
  | Active => "active"
  | Disabled => "disabled"
  | Deleting => "deleting"
  end.

Definition ProjectStatus_disable : mut ProjectStatus DomainError unit :=
  guarded (fun s => bool_decide (s = Active)) InvalidTransition Disabled.
Definition ProjectStatus_enable : mut ProjectStatus DomainError unit :=
  guarded (fun s => bool_decide (s = Disabled)) InvalidTransition Active.
Definition ProjectStatus_delete : mut ProjectStatus DomainError unit :=
  guarded (fun s => bool_decide (s = Active) || bool_decide (s = Disabled))
    InvalidTransition Deleting.
End Project.

Module Application.
Inductive ApplicationStatus := Active | Disabled.
#[global] Instance ApplicationStatus_eq_dec : EqDecision ApplicationStatus.
Proof. solve_decision. Defined.

Definition ApplicationStatus_as_str (s : ApplicationStatus) : string :=
  match s with
  | Active => "active"
  | Disabled => "disabled"
  end.

Definition ApplicationStatus_disable : mut ApplicationStatus DomainError unit :=
  guarded (fun s => bool_decide (s = Active)) InvalidTransition Disabled.
End Application.

Module Provider.
Inductive ProviderStatus := Provisioning | Active | Disabled.
#[global] Instance ProviderStatus_eq_dec : EqDecision ProviderStatus.
Proof. solve_decision. Defined.

Definition ProviderStatus_as_str (s : ProviderStatus) : string :=
  match s with
  | Provisioning => "provisioning"
  | Active => "active"
  | Disabled => "disabled"
  end.

Definition ProviderStatus_provision : mut ProviderStatus DomainError unit :=
  guarded (fun s => bool_decide (s = Provisioning)) InvalidTransition Active.
Definition ProviderStatus_disable : mut ProviderStatus DomainError unit :=
  guarded (fun s => bool_decide (s = Active)) InvalidTransition Disabled.
End Provider.

Module User.
Inductive ProjectUserStatus := Active | Disabled.
#[global] Instance ProjectUserStatus_eq_dec : EqDecision ProjectUserStatus.
Proof. solve_decision. Defined.

Definition ProjectUserStatus_as_str (s : ProjectUserStatus) : string :=
  match s with
  | Active => "active"
  | Disabled => "disabled"
  end.

Definition ProjectUserStatus_disable : mut ProjectUserStatus DomainError unit :=
  guarded (fun s => bool_decide (s = Active)) InvalidTransition Disabled.
Definition ProjectUserStatus_enable : mut ProjectUserStatus DomainError unit :=
  guarded (fun s => bool_decide (s = Disabled)) InvalidTransition Active.
End User.

(** * The interface: guarded machines and one-way machines *)

(** What every status enum offers: a set of verbs, each a mutating method. *)
Class Lifecycle (S Ev : Type) : Type := { apply : Ev -> mut S DomainError unit }.

(** A rejected verb leaves the status alone and reports [InvalidTransition]. *)
Class GuardedLifecycle (S Ev : Type) `{Lifecycle S Ev} : Prop := {
  apply_rejects : forall ev s s' e, apply ev s = (s', Err e) -> s' = s /\ e = InvalidTransition
}.

(** An accepted verb makes progress along a bounded rank. *)
Class OneWay (S Ev : Type) `{Lifecycle S Ev} : Type := {
  rank : S -> nat;
  apply_progress : forall ev s s', apply ev s = (s', Ok tt) -> (rank s < rank s')%nat
}.

(** Attempt every verb of a schedule, in order; the trace lists the accepted
    verbs with the status each one produced. *)
Fixpoint attempts {S Ev : Type} `{Lifecycle S Ev} (evs : list Ev) (s : S) : S * list (Ev * S) :=
  match evs with
  | [] => (s, [])
  | ev :: r =>
      match apply ev s with
      | (s', Ok _) => let '(sf, tr) := attempts r s' in (sf, (ev, s') :: tr)
      | (s', Err _) => attempts r s'
      end
  end.

Section lifecycle_theory.
Context {S Ev : Type} `{!Lifecycle S Ev}.

(** The final status is the last one the trace visited. *)
Lemma attempts_final `{!GuardedLifecycle S Ev} evs s sf tr :
  attempts evs s = (sf, tr) -> sf = default s (last (tr.*2)).
Proof.
  revert s tr; induction evs as [|ev evs IH]; intros s tr; simpl; [by intros [= <- <-]|].
  destruct (apply ev s) as [s1 [u|e]] eqn:Ha.
  - destruct (attempts evs s1) as [sf1 tr1] eqn:Hr; intros [= <- <-].
    rewrite (IH _ _ Hr), fmap_cons, last_cons; simpl; by destruct (last tr1.*2).
  - intros Hr; apply apply_rejects in Ha as [-> _]; by apply IH.
Qed.

Lemma attempts_rank `{!GuardedLifecycle S Ev, !OneWay S Ev} evs s sf tr :
  attempts evs s = (sf, tr) ->
  Forall (fun s' => (rank s < rank s')%nat) tr.*2 /\ NoDup tr.*2.
Proof.
  revert s tr; induction evs as [|ev evs IH]; intros s tr; simpl.
  { intros [= <- <-]; split; constructor. }
  destruct (apply ev s) as [s1 [[]|e]] eqn:Ha.
  - destruct (attempts evs s1) as [sf1 tr1] eqn:Hr; intros [= <- <-].
    destruct (IH _ _ Hr) as [Hlt Hnd]; apply apply_progress in Ha.
    rewrite fmap_cons; simpl; split; constructor; try done.
    + eapply Forall_impl; [exact Hlt|]; simpl; lia.
    + intros Hin; rewrite Forall_forall in Hlt; specialize (Hlt _ Hin); lia.
  - intros Hr; apply apply_rejects in Ha as [-> _]; by apply IH.
Qed.

(** No schedule makes a one-way machine enter a status twice. *)
Lemma attempts_never_reenter `{!GuardedLifecycle S Ev, !OneWay S Ev} evs s sf tr :
  attempts evs s = (sf, tr) -> NoDup (s :: tr.*2).
Proof.
  intros Hr; destruct (attempts_rank _ _ _ _ Hr) as [Hlt Hnd]; constructor; [|done].
  intros Hin; rewrite Forall_forall in Hlt; specialize (Hlt _ Hin); lia.
Qed.

(** A status that accepts no verb stays forever. *)
Lemma attempts_terminal `{!GuardedLifecycle S Ev} evs s :
  (forall ev, (apply ev s).2 = Err InvalidTransition) -> attempts evs s = (s, []).
Proof.
  intros Ht; induction evs as [|ev evs IH]; simpl; [done|].
  specialize (Ht ev); destruct (apply ev s) as [s1 [u|e]] eqn:Ha; [done|].
  by apply apply_rejects in Ha as [-> _].
Qed.

(** A path of accepted steps: consecutive statuses linked by some verb. *)
Inductive path : list S -> Prop :=
| path_one s : path [s]
| path_step ev s s' l : apply ev s = (s', Ok tt) -> path (s' :: l) -> path (s :: s' :: l).
End lifecycle_theory.
Arguments path {_} _ {_} _.

(** A machine all of whose verbs are guarded setters is a [GuardedLifecycle]. *)
Lemma guarded_rejects {S : Type} (allowed : S -> bool) (next s s' : S) e :
  guarded allowed InvalidTransition next s = (s', Err e) -> s' = s /\ e = InvalidTransition.
Proof. unfold guarded; destruct (allowed s); naive_solver. Qed.

Ltac solve_guarded :=
  constructor; intros [] ? ? ?; simpl; apply guarded_rejects.
Ltac solve_oneway r :=
  refine {| rank := r |}; by intros [] [] ?; simpl; cbv; intros [=]; subst; simpl; lia.

(** ** Instances *)
Section instances.
Inductive BrowserSessionVerb := bs_terminate | bs_expire.
#[global] Instance browser_session_lifecycle :
    Lifecycle BrowserSession.BrowserSessionStatus BrowserSessionVerb := {|
  apply ev := match ev with
              | bs_terminate => BrowserSession.BrowserSessionStatus_terminate
              | bs_expire => BrowserSession.BrowserSessionStatus_expire
              end |}.
#[global] Instance browser_session_guarded :
  GuardedLifecycle BrowserSession.BrowserSessionStatus BrowserSessionVerb.
Proof. solve_guarded. Qed.
#[global] Instance browser_session_oneway :
  OneWay BrowserSession.BrowserSessionStatus BrowserSessionVerb.
Proof. solve_oneway (fun s => match s with BrowserSession.Active => 0 | _ => 1 end)%nat. Defined.

Inductive HandoffVerb := ho_consume | ho_expire.
#[global] Instance handoff_lifecycle : Lifecycle Handoff.HandoffStatus HandoffVerb := {|
  apply ev := match ev with
              | ho_consume => Handoff.HandoffStatus_consume
              | ho_expire => Handoff.HandoffStatus_expire
              end |}.
#[global] Instance handoff_guarded : GuardedLifecycle Handoff.HandoffStatus HandoffVerb.
Proof. solve_guarded. Qed.
#[global] Instance handoff_oneway : OneWay Handoff.HandoffStatus HandoffVerb.
Proof. solve_oneway (fun s => match s with Handoff.Issued => 0 | _ => 1 end)%nat. Defined.

Inductive ApplicationSessionVerb := as_revoke | as_expire.
#[global] Instance application_session_lifecycle :
    Lifecycle ApplicationSession.ApplicationSessionStatus ApplicationSessionVerb := {|
  apply ev := match ev with
              | as_revoke => ApplicationSession.ApplicationSessionStatus_revoke
              | as_expire => ApplicationSession.ApplicationSessionStatus_expire
              end |}.
#[global] Instance application_session_guarded :
  GuardedLifecycle ApplicationSession.ApplicationSessionStatus ApplicationSessionVerb.
Proof. solve_guarded. Qed.
#[global] Instance application_session_oneway :
  OneWay ApplicationSession.ApplicationSessionStatus ApplicationSessionVerb.
Proof. solve_oneway (fun s => match s with ApplicationSession.Active => 0 | _ => 1 end)%nat. Defined.

Inductive RefreshFamilyVerb := rf_revoke | rf_expire.
#[global] Instance refresh_family_lifecycle :
    Lifecycle RefreshFamily.RefreshFamilyStatus RefreshFamilyVerb := {|
  apply ev := match ev with
              | rf_revoke => RefreshFamily.RefreshFamilyStatus_revoke
              | rf_expire => RefreshFamily.RefreshFamilyStatus_expire
              end |}.
#[global] Instance refresh_family_guarded :
  GuardedLifecycle RefreshFamily.RefreshFamilyStatus RefreshFamilyVerb.
Proof. solve_guarded. Qed.
#[global] Instance refresh_family_oneway :
  OneWay RefreshFamily.RefreshFamilyStatus RefreshFamilyVerb.
Proof. solve_oneway (fun s => match s with RefreshFamily.Active => 0 | _ => 1 end)%nat. Defined.

Inductive BrowserLogoutVerb := bl_bind_csrf | bl_consume | bl_expire.
#[global] Instance BrowserLogoutVerb_eq_dec : EqDecision BrowserLogoutVerb.
Proof. solve_decision. Defined.
#[global] Instance browser_logout_lifecycle :
    Lifecycle BrowserLogout.BrowserLogoutStatus BrowserLogoutVerb := {|
  apply ev := match ev with
              | bl_bind_csrf => BrowserLogout.BrowserLogoutStatus_bind_csrf
              | bl_consume => BrowserLogout.BrowserLogoutStatus_consume
              | bl_expire => BrowserLogout.BrowserLogoutStatus_expire
              end |}.
#[global] Instance browser_logout_guarded :
  GuardedLifecycle BrowserLogout.BrowserLogoutStatus BrowserLogoutVerb.
Proof. solve_guarded. Qed.
#[global] Instance browser_logout_oneway :
  OneWay BrowserLogout.BrowserLogoutStatus BrowserLogoutVerb.
Proof.
  solve_oneway (fun s => match s with
                         | BrowserLogout.Prepared => 0
                         | BrowserLogout.CsrfBound => 1
                         | _ => 2
                         end)%nat.
Defined.

#[global] Instance login_lifecycle : Lifecycle Login.LoginTransactionStatus Login.LoginVerb := {|
  apply := Login.LoginTransactionStatus_verb |}.
#[global] Instance login_guarded : GuardedLifecycle Login.LoginTransactionStatus Login.LoginVerb.
Proof. solve_guarded. Qed.
#[global] Instance login_oneway : OneWay Login.LoginTransactionStatus Login.LoginVerb.
Proof.
  solve_oneway (fun s => match s with
                         | Login.AwaitingBrowserBinding => 0
                         | Login.AwaitingMethodSelection => 1
                         | Login.EmailAddressEntry | Login.ProviderAuthorizationStarted => 2
                         | Login.EmailChallengePending | Login.ProviderExchangeInProgress => 3
                         | Login.Authenticated => 4
                         | Login.HandoffIssued => 5
                         | _ => 6
                         end)%nat.
Defined.

#[global] Instance signing_key_lifecycle :
    Lifecycle SigningKey.SigningKeyState SigningKey.SigningKeyState := {|
  apply := SigningKey.SigningKeyState_transition |}.
#[global] Instance signing_key_guarded :
  GuardedLifecycle SigningKey.SigningKeyState SigningKey.SigningKeyState.
Proof. solve_guarded. Qed.
#[global] Instance signing_key_oneway :
  OneWay SigningKey.SigningKeyState SigningKey.SigningKeyState.
Proof.
  solve_oneway (fun s => match s with
                         | SigningKey.Provisioning => 0
                         | SigningKey.Published => 1
                         | SigningKey.Active => 2
                         | SigningKey.Retiring => 3
                         | _ => 4
                         end)%nat.
Defined.

Inductive ProjectVerb := pj_disable | pj_enable | pj_delete.
#[global] Instance project_lifecycle : Lifecycle Project.ProjectStatus ProjectVerb := {|
  apply ev := match ev with
              | pj_disable => Project.ProjectStatus_disable
              | pj_enable => Project.ProjectStatus_enable
              | pj_delete => Project.ProjectStatus_delete
              end |}.
#[global] Instance project_guarded : GuardedLifecycle Project.ProjectStatus ProjectVerb.
Proof. solve_guarded. Qed.

Inductive ProviderVerb := pv_provision | pv_disable.
#[global] Instance provider_lifecycle : Lifecycle Provider.ProviderStatus ProviderVerb := {|
  apply ev := match ev with
              | pv_provision => Provider.ProviderStatus_provision
              | pv_disable => Provider.ProviderStatus_disable
              end |}.
#[global] Instance provider_guarded : GuardedLifecycle Provider.ProviderStatus ProviderVerb.
Proof. solve_guarded. Qed.
#[global] Instance provider_oneway : OneWay Provider.ProviderStatus ProviderVerb.
Proof.
  solve_oneway (fun s => match s with
                         | Provider.Provisioning => 0
                         | Provider.Active => 1
                         | Provider.Disabled => 2
                         end)%nat.
Defined.
End instances.

(** * Properties of the machines *)

(** Paths unfold along the successor lists of a machine. *)
Lemma path_cons_inv {S Ev : Type} `{!Lifecycle S Ev} (s : S) l :
  path Ev (s :: l) ->
  l = [] \/ exists ev s' r, l = s' :: r /\ apply ev s = (s', Ok tt) /\ path Ev (s' :: r).
Proof. inversion 1; subst; [by left | right; naive_solver]. Qed.

Ltac path_step_inv :=
  match goal with
  | H : path _ (_ :: _) |- _ =>
      apply path_cons_inv in H;
      destruct H as [-> | ([] & ? & ? & -> & Ha & H)];
      [|simpl in Ha; first [discriminate Ha | injection Ha as <-]..]
  end.

Tactic Notation "walk" constr(ev) := apply (path_step ev); [reflexivity|].

(** A login transaction that completes went through exactly one of three
    status sequences: provider authentication, email proof, or confirmed reuse
    of a browser session; every one of the three is possible. *)
Theorem login_completed_paths (l : list Login.LoginTransactionStatus) :
  path Login.LoginVerb (Login.AwaitingBrowserBinding :: l) /\ last l = Some Login.Completed <->
  l = [Login.AwaitingMethodSelection; Login.ProviderAuthorizationStarted;
       Login.ProviderExchangeInProgress; Login.Authenticated; Login.HandoffIssued;
       Login.Completed] \/
  l = [Login.AwaitingMethodSelection; Login.EmailAddressEntry; Login.EmailChallengePending;
       Login.Authenticated; Login.HandoffIssued; Login.Completed] \/
  l = [Login.AwaitingMethodSelection; Login.HandoffIssued; Login.Completed].
Proof.
  split.
  - intros [Hp Hl]; repeat path_step_inv; simpl in Hl; try discriminate Hl; auto.
  - intros [-> | [-> | ->]]; (split; [|done]); walk Login.bind_browser.
    + walk Login.select_provider; walk Login.claim_provider_callback.
      walk Login.authenticate; walk Login.issue_handoff; walk Login.complete; constructor.
    + walk Login.select_email; walk Login.begin_email_challenge.
      walk Login.authenticate; walk Login.issue_handoff; walk Login.complete; constructor.
    + walk Login.confirm_session_reuse; walk Login.complete; constructor.
Qed.

(** Whatever verbs are attempted on a login transaction, in any order and
    with any number of repetitions, it never enters a status twice: it never
    returns to method selection, claims a callback again, or is reactivated. *)
Theorem login_never_reenters (evs : list Login.LoginVerb) (s : Login.LoginTransactionStatus) :
  NoDup (s :: (attempts evs s).2.*2).
Proof. destruct (attempts evs s) as [sf tr] eqn:H; by eapply attempts_never_reenter. Qed.

(** The statuses in which a login transaction rejects every verb are
    exactly the completed, expired, cancelled and failed-exchange ones. *)
Theorem login_terminal_statuses (s : Login.LoginTransactionStatus) :
  (forall v, (Login.LoginTransactionStatus_verb v s).2 = Err InvalidTransition) <->
  s ∈ [Login.Completed; Login.Expired; Login.Cancelled; Login.ProviderExchangeFailed].
Proof.
  split.
  - intros H; destruct s;
      try (by specialize (H Login.expire)); try (by specialize (H Login.authenticate));
      set_solver.
  - rewrite !elem_of_cons, elem_of_nil; intros [->|[->|[->|[->|[]]]]] []; done.
Qed.

(** A handoff ticket is used up by the first verb that reaches it: under
    any further attempts the ticket keeps the status the first one gave it, and
    no other verb is ever accepted. *)
Theorem handoff_first_verb_wins (ev : HandoffVerb) (evs : list HandoffVerb) :
  attempts (ev :: evs) Handoff.Issued =
  match ev with
  | ho_consume => (Handoff.Consumed, [(ho_consume, Handoff.Consumed)])
  | ho_expire => (Handoff.Expired, [(ho_expire, Handoff.Expired)])
  end.
Proof. destruct ev; simpl; by rewrite attempts_terminal by (by intros []). Qed.

(** However often one refresh-token generation is presented, the first
    presentation rotates it and every later one demands revocation of the family. *)
Theorem refresh_generation_rotates_once (n : nat) :
  RefreshGeneration.presentations (S n) RefreshGeneration.Current =
  (RefreshGeneration.Consumed,
   RefreshGeneration.RotateSuccessor ::
   replicate n RefreshGeneration.RevokeFamilyForReplay).
Proof.
  assert (H : RefreshGeneration.presentations n RefreshGeneration.Consumed =
    (RefreshGeneration.Consumed, replicate n RefreshGeneration.RevokeFamilyForReplay)).
  { induction n as [|n IH]; simpl; [done|]; by rewrite IH. }
  simpl; by rewrite H.
Qed.

(** A prepared browser logout is consumed only after its CSRF binding: the
    accepted verbs of any schedule form one of five sequences, and the only one
    that consumes is bind-then-consume. *)
Theorem browser_logout_schedules (evs : list BrowserLogoutVerb) :
  (attempts evs BrowserLogout.Prepared).2.*1 ∈
  [ []; [bl_bind_csrf]; [bl_expire]; [bl_bind_csrf; bl_consume]; [bl_bind_csrf; bl_expire] ].
Proof.
  assert (Hb : forall evs, (attempts evs BrowserLogout.CsrfBound).2.*1 ∈
                 [ []; [bl_consume]; [bl_expire] ]).
  { intros evs'; induction evs' as [|[] r IH]; simpl; [set_solver|done| |];
      rewrite attempts_terminal by (by intros []); set_solver. }
  induction evs as [|[] r IH]; simpl; [set_solver| |done|].
  - specialize (Hb r); destruct (attempts r BrowserLogout.CsrfBound) as [sf tr].
    clear IH; cbn [fst snd] in *; rewrite fmap_cons; cbn [fst].
    rewrite !elem_of_cons, elem_of_nil in Hb.
    destruct Hb as [-> | [-> | [-> | []]]]; set_solver.
  - rewrite attempts_terminal by (by intros []); set_solver.
Qed.

(** A signing key that was retired was first published, then active, then
    retiring: no status sequence from provisioning to retirement skips or
    reorders a stage. *)
Theorem signing_key_retirement_path (l : list SigningKey.SigningKeyState) :
  path SigningKey.SigningKeyState (SigningKey.Provisioning :: l) /\
  last l = Some SigningKey.Retired <->
  l = [SigningKey.Published; SigningKey.Active; SigningKey.Retiring; SigningKey.Retired].
Proof.
  split.
  - intros [Hp Hl]; repeat path_step_inv; simpl in Hl; try discriminate Hl; auto.
  - intros ->; split; [|done].
    walk SigningKey.Published; walk SigningKey.Active.
    walk SigningKey.Retiring; walk SigningKey.Retired; constructor.
Qed.

(** A project that is not being deleted ends up deleting under a schedule
    of verbs exactly when the schedule contains a deletion: deletion is always
    accepted and nothing undoes it. *)
Theorem project_deletion_absorbs (evs : list ProjectVerb) (s : Project.ProjectStatus) :
  (attempts evs s).1 = Project.Deleting <-> s = Project.Deleting \/ pj_delete ∈ evs.
Proof.
  revert s; induction evs as [|ev evs IH]; intros s; simpl.
  { rewrite elem_of_nil; naive_solver. }
  rewrite elem_of_cons.
  destruct ev, s; simpl;
    try (destruct (attempts evs _) as [sf tr] eqn:Hr; simpl);
    match goal with
    | H : attempts evs ?s0 = _ |- _ => specialize (IH s0); rewrite H in IH
    | |- _ => idtac
    end; naive_solver.
Qed.
