(* ===== verification/Text.v ===== *)
(** * Lemmas on byte strings

    Splitting at a separator byte, lowercasing and concatenation: the facts
    about [str::split], [str::rsplit_once] and [to_ascii_lowercase] that the
    grammars of locales and email addresses rest on. *)
From S2P Require Import Prelude.

(** ** Splitting *)
Lemma split_byte_cons b s : exists p ps, split_byte b s = p :: ps.
Proof.
  induction s as [|a s (p & ps & IH)]; simpl; [eauto|].
  destruct (_ =? _); [eauto|]; rewrite IH; eauto.
Qed.

Definition split_tail (b : Z) (s : string) : list string := tail (split_byte b s).

Lemma split_byte_head b s p ps :
  split_byte b s = p :: ps -> p = EmptyString <-> s = EmptyString \/ starts_with_byte b s = true.
Proof.
  destruct s as [|a s]; simpl; [intros [= <- <-]; naive_solver|].
  destruct (byte_of a =? b) eqn:Hb; [intros [= <- <-]; naive_solver|].
  destruct (split_byte_cons b s) as (q & qs & ->); intros [= <- <-]; naive_solver.
Qed.

Definition doubled (a : Ascii.ascii) : string := String a (String a EmptyString).

Lemma prefix_doubled a s c :
  String.prefix (doubled a) (String c s) =
  (byte_of c =? byte_of a) && starts_with_byte (byte_of a) s.
Proof.
  unfold doubled; simpl.
  destruct (Ascii.ascii_dec a c) as [->|Hne].
  - rewrite Z.eqb_refl; destruct s as [|c' s]; simpl; [done|].
    destruct (Ascii.ascii_dec c c') as [->|Hne]; [rewrite Z.eqb_refl; by destruct s|].
    symmetry; apply Z.eqb_neq; intros Heq; by apply Hne, byte_of_inj.
  - assert ((byte_of c =? byte_of a) = false) as ->; [|done].
    apply Z.eqb_neq; intros Heq; by apply Hne, byte_of_inj.
Qed.

Lemma split_tail_nonempty a s :
  s <> EmptyString ->
  Forall (fun p => p <> EmptyString) (split_tail (byte_of a) s) <->
  ends_with_byte (byte_of a) s = false /\ contains_str (doubled a) s = false.
Proof.
  induction s as [|c s IH]; [done|]; intros _.
  unfold split_tail in *; cbn [split_byte contains_str].
  rewrite prefix_doubled; destruct (byte_of c =? byte_of a) eqn:Hc; cbn [tail andb orb].
  - destruct s as [|c' s']; [simpl; rewrite Hc|].
    { split; [intros H; by inversion H|naive_solver]. }
    specialize (IH ltac:(done)).
    destruct (split_byte_cons (byte_of a) (String c' s')) as (p & ps & Hsp).
    pose proof (split_byte_head _ _ _ _ Hsp) as Hp; rewrite Hsp in IH |- *; cbn [tail] in IH.
    rewrite Forall_cons, IH, Hp, orb_false_iff.
    destruct (starts_with_byte (byte_of a) (String c' s')) eqn:Hst; naive_solver.
  - destruct s as [|c' s']; [simpl; rewrite Hc; split; [done|constructor]|].
    specialize (IH ltac:(done)).
    destruct (split_byte_cons (byte_of a) (String c' s')) as (p & ps & Hsp).
    rewrite Hsp in IH |- *; cbn [tail] in *; rewrite IH; naive_solver.
Qed.

(** A string splits into non-empty pieces exactly when it is non-empty and has
    no leading, trailing or doubled separator. *)
Lemma split_byte_nonempty a s :
  Forall (fun p => p <> EmptyString) (split_byte (byte_of a) s) <->
  s <> EmptyString /\ starts_with_byte (byte_of a) s = false /\
  ends_with_byte (byte_of a) s = false /\ contains_str (doubled a) s = false.
Proof.
  destruct (split_byte_cons (byte_of a) s) as (p & ps & Hsp).
  pose proof (split_byte_head _ _ _ _ Hsp) as Hp; rewrite Hsp, Forall_cons, Hp.
  destruct (decide (s = EmptyString)) as [->|Hne]; [naive_solver|].
  pose proof (split_tail_nonempty a s Hne) as Ht; unfold split_tail in Ht.
  rewrite Hsp in Ht; cbn [tail] in Ht; rewrite Ht.
  destruct (starts_with_byte (byte_of a) s); naive_solver.
Qed.

(** The bytes of the pieces are the bytes of the string, separators aside. *)
Lemma split_byte_forallb (f : Z -> bool) b s :
  forallb f (bytes s) = true ->
  Forall (fun p => forallb f (bytes p) = true) (split_byte b s).
Proof.
  induction s as [|a s IH]; simpl; [by repeat constructor|].
  intros [Ha Hs]%andb_true_iff; specialize (IH Hs).
  destruct (_ =? _); [by constructor|].
  destruct (split_byte_cons b s) as (p & ps & Hsp); rewrite Hsp in *.
  apply Forall_cons in IH as [Hp Hps]; constructor; [simpl; by rewrite Ha|done].
Qed.

(** Conversely, pieces within a class make a string within the class extended
    by the separator. *)
Lemma split_byte_forallb_inv (f : Z -> bool) b s :
  Forall (fun p => forallb f (bytes p) = true) (split_byte b s) ->
  forallb (fun x => f x || (x =? b)) (bytes s) = true.
Proof.
  induction s as [|a s IH]; simpl; [done|].
  destruct (byte_of a =? b) eqn:Hb.
  - intros [_ Hs]%Forall_cons; rewrite orb_true_r; simpl; auto.
  - destruct (split_byte_cons b s) as (p & ps & Hsp); rewrite Hsp in *; simpl.
    intros [[Ha Hp]%andb_true_iff Hps]%Forall_cons; rewrite Ha; simpl; apply IH.
    by constructor.
Qed.

Lemma split_byte_forallb_excl (f : Z -> bool) b s :
  forallb (fun x => f x || (x =? b)) (bytes s) = true ->
  Forall (fun p => forallb f (bytes p) = true) (split_byte b s).
Proof.
  induction s as [|a s IH]; simpl; [by repeat constructor|].
  intros [Ha Hs]%andb_true_iff; specialize (IH Hs).
  destruct (byte_of a =? b) eqn:Hb; [by constructor|].
  destruct (split_byte_cons b s) as (p & ps & Hsp); rewrite Hsp in *.
  apply Forall_cons in IH as [Hp Hps]; rewrite orb_false_r in Ha.
  constructor; [simpl; by rewrite Ha|done].
Qed.

(** ** Splitting once from the right *)
Lemma rsplit_once_some b s l r :
  rsplit_once b s = Some (l, r) ->
  exists a, byte_of a = b /\ s = String.append l (String a r) /\ contains_byte b r = false.
Proof.
  revert l r; induction s as [|c s IH]; intros l r; simpl; [done|].
  destruct (rsplit_once b s) as [[l' t]|] eqn:Hr.
  - intros [= <- <-]; destruct (IH _ _ eq_refl) as (a & ? & -> & ?); eauto.
  - destruct (byte_of c =? b) eqn:Hb; [|done]; intros [= <- <-].
    exists c; split; [by apply Z.eqb_eq|]; split; [done|].
    clear IH; induction s as [|d s IHs]; simpl in *; [done|].
    unfold contains_byte in *; simpl.
    destruct (rsplit_once b s) as [[??]|]; [done|].
    rewrite Z.eqb_sym; destruct (byte_of d =? b); [done|]; by apply IHs.
Qed.

Lemma rsplit_once_append a l r :
  contains_byte (byte_of a) r = false ->
  rsplit_once (byte_of a) (String.append l (String a r)) = Some (l, r).
Proof.
  intros Hr; induction l as [|c l IH]; simpl; [|by rewrite IH].
  assert (rsplit_once (byte_of a) r = None) as ->.
  { induction r as [|d r IH]; simpl; [done|].
    unfold contains_byte in Hr; simpl in Hr; apply orb_false_iff in Hr as [Hd Hr].
    rewrite IH by done; by rewrite Z.eqb_sym, Hd. }
  by rewrite Z.eqb_refl.
Qed.

(** ** Lowercasing *)
Lemma byte_of_ascii_lower a :
  byte_of (ascii_lower a) =
  if is_ascii_uppercase (byte_of a) then byte_of a + 32 else byte_of a.
Proof.
  unfold ascii_lower; destruct (is_ascii_uppercase (byte_of a)) eqn:Hu; [|done].
  unfold is_ascii_uppercase in Hu; apply in_range_true in Hu.
  unfold byte_of at 1; rewrite Ascii.N_ascii_embedding; lia.
Qed.

Lemma ascii_lower_idem a : ascii_lower (ascii_lower a) = ascii_lower a.
Proof.
  apply byte_of_inj; rewrite !byte_of_ascii_lower.
  destruct (is_ascii_uppercase (byte_of a)) eqn:Hu; [|by rewrite Hu].
  unfold is_ascii_uppercase in *; apply in_range_true in Hu.
  assert (in_range 65 90 (byte_of a + 32) = false) as ->; [|done].
  apply in_range_false; lia.
Qed.

Lemma to_ascii_lowercase_idem s :
  to_ascii_lowercase (to_ascii_lowercase s) = to_ascii_lowercase s.
Proof. induction s as [|a s IH]; simpl; [done|]; by rewrite ascii_lower_idem, IH. Qed.

Lemma str_len_lowercase s : str_len (to_ascii_lowercase s) = str_len s.
Proof. induction s as [|a s IH]; simpl; [done|]; by rewrite IH. Qed.

(** A byte that is not an ASCII letter is unaffected by, and never produced
    by, lowercasing. *)
Lemma ascii_lower_neutral b a :
  is_ascii_uppercase b = false -> is_ascii_lowercase b = false ->
  (byte_of (ascii_lower a) =? b) = (byte_of a =? b).
Proof.
  intros Hu Hl; rewrite byte_of_ascii_lower.
  destruct (is_ascii_uppercase (byte_of a)) eqn:Ha; [|done].
  unfold is_ascii_uppercase, is_ascii_lowercase in *; bool_prop.
  destruct (Z.eqb_spec (byte_of a + 32) b), (Z.eqb_spec (byte_of a) b); lia || done.
Qed.

(** Splitting at such a byte commutes with lowercasing. *)
Lemma split_byte_lowercase b s :
  is_ascii_uppercase b = false -> is_ascii_lowercase b = false ->
  split_byte b (to_ascii_lowercase s) = map to_ascii_lowercase (split_byte b s).
Proof.
  intros Hu Hl; induction s as [|a s IH]; simpl; [done|].
  rewrite ascii_lower_neutral by done; destruct (byte_of a =? b); simpl; [by rewrite IH|].
  rewrite IH; destruct (split_byte_cons b s) as (p & ps & ->); done.
Qed.

(** A class closed under lowercasing is preserved by it. *)
Lemma forallb_lowercase (f : Z -> bool) s :
  (forall b, is_ascii_uppercase b = true -> f b = true -> f (b + 32) = true) ->
  forallb f (bytes s) = true -> forallb f (bytes (to_ascii_lowercase s)) = true.
Proof.
  intros Hf; induction s as [|a s IH]; simpl; [done|].
  intros [Ha Hs]%andb_true_iff; rewrite IH by done; rewrite byte_of_ascii_lower.
  destruct (is_ascii_uppercase (byte_of a)) eqn:Hu; [by rewrite Hf | by rewrite Ha].
Qed.

Lemma starts_with_lowercase b s :
  is_ascii_uppercase b = false -> is_ascii_lowercase b = false ->
  starts_with_byte b (to_ascii_lowercase s) = starts_with_byte b s.
Proof. destruct s; simpl; [done|]; intros; by apply ascii_lower_neutral. Qed.

Lemma ends_with_lowercase b s :
  is_ascii_uppercase b = false -> is_ascii_lowercase b = false ->
  ends_with_byte b (to_ascii_lowercase s) = ends_with_byte b s.
Proof.
  intros Hu Hl; induction s as [|a s IH]; simpl; [done|].
  destruct s as [|c s]; simpl in *; [by apply ascii_lower_neutral | exact IH].
Qed.

Lemma contains_byte_lowercase b s :
  is_ascii_uppercase b = false -> is_ascii_lowercase b = false ->
  contains_byte b (to_ascii_lowercase s) = contains_byte b s.
Proof.
  intros Hu Hl; unfold contains_byte; induction s as [|a s IH]; simpl; [done|].
  rewrite IH, (Z.eqb_sym b), (Z.eqb_sym b (byte_of a)).
  by rewrite ascii_lower_neutral.
Qed.
