(* ===== verification/Values.v ===== *)
(** * Validated values of the domain layer

    The newtypes of [domain/project.rs], [domain/identity.rs],
    [domain/provider.rs] and [domain/webhook.rs] whose parsers need no URL
    library: bounded text, public identifiers, provider keys, locales,
    revisions, provider kinds, webhook event types and subscription sets, the
    webhook retry classification, and the materialization of a user profile. *)
From Stdlib Require Import Sorting.Sorted.
From S2P Require Import Prelude.
From S2P Require Import BTree.
From S2P Require Import Text.
From S2P Require Import Lifecycle.

(** ** [domain/project.rs] *)
Definition MIN_ACCESS_TOKEN_LIFETIME_SECONDS : Z := 60.
Definition MAX_ACCESS_TOKEN_LIFETIME_SECONDS : Z := 3600.

Definition validate_bounded_text (value : string) (max : Z) : result DomainError unit :=
  if is_empty value then Err Empty
  else if max <? str_len value then Err TooLong
  else if existsb char_is_control (chars value) then Err InvalidCharacters
  else Ok tt.

Record DisplayName := mkDisplayName { DisplayName_into_inner : string }.
Definition DisplayName_parse (value : string) : result DomainError DisplayName :=
  validate_bounded_text value 128 ;;? Ok (mkDisplayName value).

Record OpaqueOwner := mkOpaqueOwner { OpaqueOwner_into_inner : string }.
Definition OpaqueOwner_parse (value : string) : result DomainError OpaqueOwner :=
  validate_bounded_text value 256 ;;? Ok (mkOpaqueOwner value).

(** [b'_' | b'-']. *)
Definition is_dash_or_underscore (b : Z) : bool := (b =? 0x5F) || (b =? 0x2D).

Record PublicId := mkPublicId { PublicId_to_string : string }.
Definition PublicId_parse (value : string) : result DomainError PublicId :=
  if negb (in_range 8 96 (str_len value)) then
    Err (if is_empty value then Empty else TooLong)
  else if negb (forallb (fun b => is_ascii_alphanumeric b || is_dash_or_underscore b)
                  (bytes value)) then
    Err InvalidCharacters
  else Ok (mkPublicId value).

(** ** [domain/identity.rs] *)
Record ProviderIssuer := mkProviderIssuer { ProviderIssuer_into_inner : string }.
Definition ProviderIssuer_parse (value : string) : result DomainError ProviderIssuer :=
  validate_bounded_text value 2048 ;;? Ok (mkProviderIssuer value).

Record ProviderSubject := mkProviderSubject { ProviderSubject_into_inner : string }.
Definition ProviderSubject_parse (value : string) : result DomainError ProviderSubject :=
  validate_bounded_text value 512 ;;? Ok (mkProviderSubject value).

Record ProfileDisplayName := mkProfileDisplayName { ProfileDisplayName_into_inner : string }.
Definition ProfileDisplayName_parse (value : string) : result DomainError ProfileDisplayName :=
  validate_bounded_text value 128 ;;? Ok (mkProfileDisplayName value).

Record ProfileLocale := mkProfileLocale { ProfileLocale_into_inner : string }.
Definition ProfileLocale_parse (value : string) : result DomainError ProfileLocale :=
  if negb (in_range 2 35 (str_len value))
     || starts_with_byte 0x2D value
     || ends_with_byte 0x2D value
     || contains_str "--" value
     || negb (forallb (fun b => is_ascii_alphanumeric b || (b =? 0x2D)) (bytes value))
  then Err InvalidCharacters
  else Ok (mkProfileLocale value).

(** [ProfilePictureUrl] is produced by a URL parser (see the file on URL
    values); here it is only carried. *)
Record ProfilePictureUrl := mkProfilePictureUrl { ProfilePictureUrl_into_inner : string }.

Inductive IdentitySourceKind := SourceProvider | SourceEmail.

Record LocalProfileField (T : Type) := mkLocalProfileField {
  is_set : bool;
  lpf_value : option T
}.
Arguments mkLocalProfileField {_} _ _.
Arguments is_set {_} _.
Arguments lpf_value {_} _.

Definition LocalProfileField_inherited {T : Type} : LocalProfileField T :=
  mkLocalProfileField false None.
Definition LocalProfileField_explicitly {T : Type} (value : option T) : LocalProfileField T :=
  mkLocalProfileField true value.
Definition LocalProfileField_resolve {T : Type} (self : LocalProfileField T)
    (source : option T) : option T :=
  if is_set self then lpf_value self else source.

Record BoundedProviderProfile := mkBoundedProviderProfile {
  bpp_display_name : option ProfileDisplayName;
  bpp_picture_url : option ProfilePictureUrl;
  bpp_locale : option ProfileLocale
}.

Record UserProfileInputs := mkUserProfileInputs {
  primary_source_kind : IdentitySourceKind;
  local_display_name : LocalProfileField ProfileDisplayName;
  local_picture_url : LocalProfileField ProfilePictureUrl;
  local_locale : LocalProfileField ProfileLocale;
  primary_provider : option BoundedProviderProfile;
  upi_verified_email : option string
}.

Record MaterializedUserProfile := mkMaterializedUserProfile {
  mup_display_name : option ProfileDisplayName;
  mup_picture_url : option ProfilePictureUrl;
  mup_locale : option ProfileLocale;
  mup_verified_email : option string
}.

(** The shared check on a verified email: [(3..=320).contains(&len)] and no
    control character. *)
Definition bad_verified_email (o : option string) : bool :=
  match o with
  | Some value => negb (in_range 3 320 (str_len value)) || existsb char_is_control (chars value)
  | None => false
  end.

Definition UserProfileInputs_materialize (self : UserProfileInputs) :
    result DomainError MaterializedUserProfile :=
  if bad_verified_email (upi_verified_email self) then Err InvalidCharacters
  else
    let provider :=
      match primary_source_kind self with
      | SourceProvider => primary_provider self
      | SourceEmail => None
      end in
    let '(display_name, picture_url, locale) :=
      match provider with
      | None => (None, None, None)
      | Some profile =>
          (bpp_display_name profile, bpp_picture_url profile, bpp_locale profile)
      end in
    Ok (mkMaterializedUserProfile
          (LocalProfileField_resolve (local_display_name self) display_name)
          (LocalProfileField_resolve (local_picture_url self) picture_url)
          (LocalProfileField_resolve (local_locale self) locale)
          (upi_verified_email self)).

(** [UserRevision(i64)] and, in [domain/projection.rs], [ProjectionRevision(i64)]. *)
Record UserRevision := mkUserRevision { UserRevision_value : Z }.
Definition UserRevision_initial : UserRevision := mkUserRevision 1.
Definition UserRevision_parse (value : Z) : result DomainError UserRevision :=
  if value <? 1 then Err InvalidTransition else Ok (mkUserRevision value).
Definition UserRevision_advance : mut UserRevision DomainError unit :=
  r <~ mget ;;
  v <~ mlift (ok_or (checked_add_i64 (UserRevision_value r) 1) InvalidTransition) ;;
  mmodify (fun _ => mkUserRevision v).

Record ProjectionRevision := mkProjectionRevision { ProjectionRevision_value : Z }.
Definition ProjectionRevision_initial : ProjectionRevision := mkProjectionRevision 1.
Definition ProjectionRevision_parse (value : Z) : result DomainError ProjectionRevision :=
  if value <? 1 then Err InvalidTransition else Ok (mkProjectionRevision value).
Definition ProjectionRevision_advance : mut ProjectionRevision DomainError unit :=
  r <~ mget ;;
  v <~ mlift (ok_or (checked_add_i64 (ProjectionRevision_value r) 1) InvalidTransition) ;;
  mmodify (fun _ => mkProjectionRevision v).

(** ** [domain/projection.rs] *)
Definition USER_PROJECTION_SCHEMA_V1 : string := "owlauth.user.v1".

Record UserProjectionSource := mkUserProjectionSource {
  ups_user_id : PublicId;
  ups_status : User.ProjectUserStatus;
  ups_display_name : option ProfileDisplayName;
  ups_picture_url : option ProfilePictureUrl;
  ups_locale : option ProfileLocale;
  ups_verified_email : option string;
  ups_created_at : OffsetDateTime;
  ups_updated_at : OffsetDateTime;
  ups_user_revision : UserRevision
}.

Record UserProjection := mkUserProjection {
  up_schema : string;
  up_user_id : string;
  up_status : User.ProjectUserStatus;
  up_display_name : option string;
  up_picture_url : option string;
  up_locale : option string;
  up_verified_email : option string;
  up_created_at : OffsetDateTime;
  up_updated_at : OffsetDateTime;
  up_user_revision : Z;
  up_projection_revision : Z
}.

Definition UserProjection_materialize (source : UserProjectionSource)
    (projection_revision : ProjectionRevision) : result DomainError UserProjection :=
  if ups_updated_at source <? ups_created_at source then Err InvalidTransition
  else if bad_verified_email (ups_verified_email source) then Err InvalidCharacters
  else Ok {|
    up_schema := USER_PROJECTION_SCHEMA_V1;
    up_user_id := PublicId_to_string (ups_user_id source);
    up_status := ups_status source;
    up_display_name := ProfileDisplayName_into_inner <$> ups_display_name source;
    up_picture_url := ProfilePictureUrl_into_inner <$> ups_picture_url source;
    up_locale := ProfileLocale_into_inner <$> ups_locale source;
    up_verified_email := ups_verified_email source;
    up_created_at := ups_created_at source;
    up_updated_at := ups_updated_at source;
    up_user_revision := UserRevision_value (ups_user_revision source);
    up_projection_revision := ProjectionRevision_value projection_revision
  |}.

(** ** Shared predicates and lemmas *)
Definition no_control (s : string) : Prop := Forall (fun c => char_is_control c = false) (chars s).

Lemma existsb_control_false s : existsb char_is_control (chars s) = false <-> no_control s.
Proof.
  unfold no_control; induction (chars s) as [|c l IH]; simpl; [split; [constructor|done]|].
  rewrite Forall_cons, orb_false_iff, IH; done.
Qed.

Lemma validate_bounded_text_ok value max :
  validate_bounded_text value max = Ok tt <-> 0 < str_len value <= max /\ no_control value.
Proof.
  unfold validate_bounded_text; rewrite !if_err_ok, existsb_control_false.
  bool_prop; naive_solver lia.
Qed.

Definition public_id_byte (b : Z) : bool := is_ascii_alphanumeric b || is_dash_or_underscore b.

Lemma PublicId_parse_ok value p :
  PublicId_parse value = Ok p <->
  p = mkPublicId value /\ 8 <= str_len value <= 96 /\
  forallb public_id_byte (bytes value) = true.
Proof.
  unfold PublicId_parse; rewrite !if_err_ok; unfold public_id_byte.
  bool_prop; naive_solver lia.
Qed.

Lemma bad_verified_email_false o :
  bad_verified_email o = false <->
  forall e, o = Some e -> 3 <= str_len e <= 320 /\ no_control e.
Proof.
  destruct o as [e|]; simpl; [|naive_solver].
  rewrite orb_false_iff, existsb_control_false; bool_prop; naive_solver.
Qed.

Lemma ProfileDisplayName_parse_ok value p :
  ProfileDisplayName_parse value = Ok p ->
  0 < str_len (ProfileDisplayName_into_inner p) <= 128 /\
  no_control (ProfileDisplayName_into_inner p).
Proof.
  unfold ProfileDisplayName_parse; intros H; inv_ok; simpl.
  by apply validate_bounded_text_ok.
Qed.

Lemma ProfileLocale_parse_ok value p :
  ProfileLocale_parse value = Ok p ->
  p = mkProfileLocale value /\ 2 <= str_len value <= 35.
Proof. unfold ProfileLocale_parse; rewrite if_err_ok; bool_prop; naive_solver. Qed.

(** ** Properties *)

(** The four verdicts of bounded-text validation are exact: a value is
    accepted exactly when it is non-empty, at most [max] bytes and free of
    control characters, and each error names the first check that failed. *)
Theorem bounded_text_verdicts (value : string) (max : Z) :
  (validate_bounded_text value max = Ok tt <-> 0 < str_len value <= max /\ no_control value) /\
  (validate_bounded_text value max = Err Empty <-> value = EmptyString) /\
  (validate_bounded_text value max = Err TooLong <->
     value <> EmptyString /\ max < str_len value) /\
  (validate_bounded_text value max = Err InvalidCharacters <->
     0 < str_len value <= max /\ ~ no_control value).
Proof.
  split; [apply validate_bounded_text_ok|].
  rewrite <- existsb_control_false; unfold validate_bounded_text.
  destruct (is_empty value) eqn:He; [|destruct (max <? str_len value) eqn:Hl;
    [|destruct (existsb _ _) eqn:Hc]]; bool_prop; subst; simpl; naive_solver lia.
Qed.

(** A public identifier is accepted exactly when it has 8 to 96 bytes, all
    of them ASCII letters, digits, dash or underscore; a non-empty identifier
    shorter than 8 bytes is rejected with the too-long error. *)
Theorem public_id_verdicts (value : string) :
  (is_ok (PublicId_parse value) = true <->
     8 <= str_len value <= 96 /\ forallb public_id_byte (bytes value) = true) /\
  (PublicId_parse value = Err Empty <-> value = EmptyString) /\
  (PublicId_parse value = Err TooLong <-> 0 < str_len value < 8 \/ 96 < str_len value) /\
  (PublicId_parse value = Err InvalidCharacters <->
     8 <= str_len value <= 96 /\ forallb public_id_byte (bytes value) = false).
Proof.
  unfold PublicId_parse; fold public_id_byte.
  change (fun b => is_ascii_alphanumeric b || is_dash_or_underscore b) with public_id_byte.
  destruct (in_range 8 96 (str_len value)) eqn:Hr; simpl;
    [destruct (forallb _ _) eqn:Hf|destruct (is_empty value) eqn:He]; bool_prop; subst; simpl.
  all: repeat split; try naive_solver lia.
Qed.

(** The hand-written locale checks accept exactly the grammar they stand
    for: 2 to 35 bytes that split at dashes into non-empty alphanumeric subtags. *)
Theorem locale_grammar (value : string) :
  is_ok (ProfileLocale_parse value) = true <->
  2 <= str_len value <= 35 /\
  Forall (fun tag => tag <> EmptyString /\ forallb is_ascii_alphanumeric (bytes tag) = true)
    (split_byte 0x2D value).
Proof.
  unfold ProfileLocale_parse.
  pose proof (split_byte_nonempty "-"%char value) as Hne.
  change (byte_of "-"%char) with 0x2D in Hne; change (doubled "-"%char) with "--"%string in Hne.
  rewrite Forall_and, Hne.
  destruct (_ || _) eqn:Hc; simpl; bool_prop.
  - split; [done|]; intros [Hlen [(Hn & Hs & He & Hd) Hall]]; exfalso.
    apply split_byte_forallb_inv in Hall.
    rewrite Hs, He, Hd, Hall in Hc; lia.
  - destruct Hc as [[[[Hr Hs] He] Hd] Hall]; split; [|done]; intros _.
    split; [lia|]; split; [|by apply split_byte_forallb_excl].
    split; [|done]; intros ->; simpl in Hr; lia.
Qed.

(** Advancing a user revision adds one for every value an [i64] can hold
    except the largest, where it fails and leaves the revision unchanged. *)
Theorem user_revision_advance_exact (r : UserRevision) :
  UserRevision_value r < i64_max -> i64_min <= UserRevision_value r ->
  UserRevision_advance r = (mkUserRevision (UserRevision_value r + 1), Ok tt) /\
  UserRevision_advance (mkUserRevision i64_max) = (mkUserRevision i64_max, Err InvalidTransition).
Proof.
  intros Hlt Hmin; split; [|reflexivity].
  unfold UserRevision_advance, mseq, mget, mlift, mmodify; simpl.
  destruct (checked_add_i64 (UserRevision_value r) 1) as [v|] eqn:Hc; simpl.
  - by apply checked_add_i64_some in Hc as [-> _].
  - apply checked_add_i64_none in Hc; unfold i64_range in Hc; lia.
Qed.

Lemma user_revision_advance_exact_witness :
  UserRevision_advance UserRevision_initial = (mkUserRevision 2, Ok tt).
Proof. apply (user_revision_advance_exact UserRevision_initial); vm_compute; congruence. Defined.

(** Replace the provider profile an identity's inputs were built from. *)
Definition with_provider (i : UserProfileInputs) (p : option BoundedProviderProfile) :
    UserProfileInputs := {|
  primary_source_kind := primary_source_kind i;
  local_display_name := local_display_name i;
  local_picture_url := local_picture_url i;
  local_locale := local_locale i;
  primary_provider := p;
  upi_verified_email := upi_verified_email i
|}.

(** Provider profile data never reaches a user whose primary source is
    email, nor a user whose three profile fields are all set locally (even to an
    explicit blank): the materialized profile does not depend on the provider. *)
Theorem profile_provider_noninterference (i : UserProfileInputs)
    (p q : option BoundedProviderProfile) :
  primary_source_kind i = SourceEmail \/
  is_set (local_display_name i) && is_set (local_picture_url i) && is_set (local_locale i) = true ->
  UserProfileInputs_materialize (with_provider i p) =
  UserProfileInputs_materialize (with_provider i q).
Proof.
  destruct i as [k [[] dn] [[] pu] [[] lo] pr em]; simpl;
    unfold UserProfileInputs_materialize, LocalProfileField_resolve; simpl;
    destruct k, p, q; naive_solver.
Qed.

Lemma profile_provider_noninterference_witness :
  let i := mkUserProfileInputs SourceEmail LocalProfileField_inherited
             LocalProfileField_inherited LocalProfileField_inherited None
             (Some "ada@example.test") in
  let p := Some (mkBoundedProviderProfile (Some (mkProfileDisplayName "Provider Ada")) None None) in
  UserProfileInputs_materialize (with_provider i p) =
  UserProfileInputs_materialize (with_provider i None).
Proof. intros i p; apply profile_provider_noninterference; by left. Defined.
