(* ===== verification/Managed.v ===== *)
(** * Managed provider connections and the closed provider registry

    [domain/managed_connection.rs]: the adapter capability with its exact scope
    set and bounds, and the revision- and generation-fenced lifecycle of a
    managed connection.  [domain/provider.rs] (the part without URLs): provider
    kinds, their capabilities, the named issuers and provider keys. *)
From S2P Require Import Prelude.
From S2P Require Import BTree.
From S2P Require Import Lifecycle.
From S2P Require Import Values.

(** ** [domain/managed_connection.rs]: capabilities *)
Definition MAX_MANAGED_SCOPES : Z := 16.
Definition MAX_PROFILE_BODY_BYTES : Z := 64 * 1024.
Definition MAX_PROVIDER_LATENCY_SECONDS : Z := 15.

Inductive RenewalReplay := Never | StableAttemptId.

Record ManagedProfileCapability := mkManagedProfileCapability {
  adapter_key : string;
  adapter_revision : Z;
  exact_scopes : list string;
  provider_pkce_required : bool;
  oidc_nonce_required : bool;
  credential_rotates : bool;
  read_retry_safe : bool;
  renewal_replay : RenewalReplay;
  supports_revocation : bool;
  profile_schema : string;
  maximum_body_bytes : Z;
  maximum_latency_seconds : Z
}.

Definition bad_managed_scope (scope : string) : bool :=
  is_empty scope || (128 <? str_len scope) || existsb char_is_whitespace (chars scope).

Definition ManagedProfileCapability_validate (self : ManagedProfileCapability) :
    result DomainError unit :=
  if is_empty (adapter_key self)
     || (adapter_revision self <=? 0)
     || negb (bool_decide (profile_schema self = "owlauth.provider-profile.v1"%string))
     || negb (oidc_nonce_required self)
     || (list_len (exact_scopes self) =? 0)
     || (MAX_MANAGED_SCOPES <? list_len (exact_scopes self))
     || (maximum_body_bytes self =? 0)
     || (MAX_PROFILE_BODY_BYTES <? maximum_body_bytes self)
     || (maximum_latency_seconds self =? 0)
     || (MAX_PROVIDER_LATENCY_SECONDS <? maximum_latency_seconds self)
     || existsb bad_managed_scope (exact_scopes self)
  then Err InvalidTransition
  else
    let sorted := dedup (sort_unstable (exact_scopes self)) in
    if negb (list_len sorted =? list_len (exact_scopes self)) then Err InvalidTransition
    else Ok tt.

Definition ManagedProfileCapability_scopes_match (self : ManagedProfileCapability)
    (returned : list string) : bool :=
  let expected := sort_unstable (exact_scopes self) in
  let actual := sort_unstable returned in
  let actual_count := list_len actual in
  let actual' := dedup actual in
  (list_len actual' =? actual_count) && bool_decide (actual' = expected).

(** ** [domain/managed_connection.rs]: the lifecycle *)
Module ManagedState.
Inductive ManagedConnectionState := Active | ReauthRequired | Revoked | Disconnected.
#[global] Instance ManagedConnectionState_eq_dec : EqDecision ManagedConnectionState.
Proof. solve_decision. Defined.

Definition ManagedConnectionState_as_str (s : ManagedConnectionState) : string :=
  match s with
  | Active => "active"
  | ReauthRequired => "reauth_required"
  | Revoked => "revoked"
  | Disconnected => "disconnected"
  end.

Definition ManagedConnectionState_parse (value : string) :
    result DomainError ManagedConnectionState :=
  if bool_decide (value = "active"%string) then Ok Active
  else if bool_decide (value = "reauth_required"%string) then Ok ReauthRequired
  else if bool_decide (value = "revoked"%string) then Ok Revoked
  else if bool_decide (value = "disconnected"%string) then Ok Disconnected
  else Err InvalidTransition.
End ManagedState.

Module ManagedEvent.
Inductive ManagedConnectionEvent :=
| ReplaceCredential
| RequireReauthorization
| ConfirmProviderRevocation
| Disconnect
| Reauthorize.
#[global] Instance ManagedConnectionEvent_eq_dec : EqDecision ManagedConnectionEvent.
Proof. solve_decision. Defined.
End ManagedEvent.
Import ManagedState ManagedEvent.

Record ManagedConnectionLifecycle := mkManagedConnectionLifecycle {
  mc_state : ManagedConnectionState;
  mc_revision : Z;
  mc_generation : Z;
  mc_credential_generation : Z;
  mc_updated_at : OffsetDateTime
}.

(** The state table of [transition]. *)
Definition managed_next_state (s : ManagedConnectionState) (ev : ManagedConnectionEvent) :
    option ManagedConnectionState :=
  match s, ev with
  | Active, ReplaceCredential => Some Active
  | Active, RequireReauthorization => Some ReauthRequired
  | Active, ConfirmProviderRevocation => Some Revoked
  | (Active | ReauthRequired | Revoked), Disconnect => Some Disconnected
  | (ReauthRequired | Revoked | Disconnected), Reauthorize => Some Active
  | _, _ => None
  end.

Definition bumps_generation (ev : ManagedConnectionEvent) : bool :=
  match ev with
  | ReplaceCredential | Reauthorize | RequireReauthorization | ConfirmProviderRevocation
  | Disconnect => true
  end.

Definition bumps_credential (ev : ManagedConnectionEvent) : bool :=
  match ev with
  | ReplaceCredential | Reauthorize => true
  | _ => false
  end.

Definition mc_set_revision (v : Z) (c : ManagedConnectionLifecycle) : ManagedConnectionLifecycle :=
  mkManagedConnectionLifecycle (mc_state c) v (mc_generation c) (mc_credential_generation c)
    (mc_updated_at c).
Definition mc_set_generation (v : Z) (c : ManagedConnectionLifecycle) :
    ManagedConnectionLifecycle :=
  mkManagedConnectionLifecycle (mc_state c) (mc_revision c) v (mc_credential_generation c)
    (mc_updated_at c).
Definition mc_set_credential_generation (v : Z) (c : ManagedConnectionLifecycle) :
    ManagedConnectionLifecycle :=
  mkManagedConnectionLifecycle (mc_state c) (mc_revision c) (mc_generation c) v (mc_updated_at c).
Definition mc_set_state_time (s : ManagedConnectionState) (now : OffsetDateTime)
    (c : ManagedConnectionLifecycle) : ManagedConnectionLifecycle :=
  mkManagedConnectionLifecycle s (mc_revision c) (mc_generation c) (mc_credential_generation c)
    now.

(** [checked_add(1).ok_or(InvalidTransition)?]. *)
Definition bump (v : Z) : result DomainError Z := ok_or (checked_add_i64 v 1) InvalidTransition.

(** The whole method: the three counters are assigned one after the other, so a
    later overflow leaves the earlier assignments in place. *)
Definition ManagedConnectionLifecycle_transition (event : ManagedConnectionEvent)
    (expected_revision expected_generation : Z) (now : OffsetDateTime) :
    mut ManagedConnectionLifecycle DomainError unit :=
  self <~ mget ;;
  if negb (expected_revision =? mc_revision self)
     || negb (expected_generation =? mc_generation self)
     || (now <? mc_updated_at self)
  then mfail InvalidTransition
  else
    next <~ mlift (ok_or (managed_next_state (mc_state self) event) InvalidTransition) ;;
    rev <~ mlift (bump (mc_revision self)) ;;
    mmodify (mc_set_revision rev) ;;~
    (if bumps_generation event then
       gen <~ mlift (bump (mc_generation self)) ;; mmodify (mc_set_generation gen)
     else mret tt) ;;~
    (if bumps_credential event then
       cgen <~ mlift (bump (mc_credential_generation self)) ;;
       mmodify (mc_set_credential_generation cgen)
     else mret tt) ;;~
    mmodify (mc_set_state_time next now).

(** ** [domain/provider.rs] without URLs *)
Definition GOOGLE_ISSUER : string := "https://accounts.google.com".
Definition GITHUB_ISSUER : string := "https://github.com".
Definition GOOGLE_SCOPES : list string := ["openid"%string; "profile"%string].
Definition GITHUB_SCOPES : list string := ["read:user"%string].

Inductive ProviderKind := Oidc | Google | Github.
#[global] Instance ProviderKind_eq_dec : EqDecision ProviderKind.
Proof. solve_decision. Defined.

Definition ProviderKind_parse (value : string) : result DomainError ProviderKind :=
  if bool_decide (value = "oidc"%string) then Ok Oidc
  else if bool_decide (value = "google"%string) then Ok Google
  else if bool_decide (value = "github"%string) then Ok Github
  else Err InvalidCharacters.

Definition ProviderKind_as_str (k : ProviderKind) : string :=
  match k with
  | Oidc => "oidc"
  | Google => "google"
  | Github => "github"
  end.

Record ProviderCapabilities := mkProviderCapabilities {
  login : bool;
  identity_proof : bool;
  managed_profile : bool;
  pc_adapter_key : string
}.

Definition ProviderKind_capabilities (k : ProviderKind) : ProviderCapabilities :=
  match k with
  | Oidc => mkProviderCapabilities true true true "controlled_oidc_profile_v1"
  | Google => mkProviderCapabilities true true true "google_oidc_profile_v1"
  | Github => mkProviderCapabilities true false false "github_oauth_login_v1"
  end.

Inductive ProviderConsentBehavior := Standard | ExplicitOfflineConsent.

Record FixedProviderAuthorizationPolicy := mkFixedProviderAuthorizationPolicy {
  fp_exact_scopes : list string;
  consent_behavior : ProviderConsentBehavior
}.

Definition STANDARD_OPENID_POLICY := mkFixedProviderAuthorizationPolicy GOOGLE_SCOPES Standard.
Definition GOOGLE_MANAGED_POLICY :=
  mkFixedProviderAuthorizationPolicy GOOGLE_SCOPES ExplicitOfflineConsent.
Definition GITHUB_LOGIN_POLICY := mkFixedProviderAuthorizationPolicy GITHUB_SCOPES Standard.

Record NamedProviderProfile := mkNamedProviderProfile {
  np_issuer : string;
  np_login : FixedProviderAuthorizationPolicy;
  np_managed_profile : option FixedProviderAuthorizationPolicy
}.

Definition ProviderKind_named_profile (k : ProviderKind) : option NamedProviderProfile :=
  match k with
  | Oidc => None
  | Google =>
      Some (mkNamedProviderProfile GOOGLE_ISSUER STANDARD_OPENID_POLICY
              (Some GOOGLE_MANAGED_POLICY))
  | Github => Some (mkNamedProviderProfile GITHUB_ISSUER GITHUB_LOGIN_POLICY None)
  end.

Definition ProviderKind_issuer_matches (k : ProviderKind) (issuer : string) : bool :=
  match ProviderKind_named_profile k with
  | Some profile => bool_decide (issuer = np_issuer profile)
  | None =>
      let canonical_root := default issuer (strip_suffix_byte 0x2F issuer) in
      negb (bool_decide (canonical_root = GOOGLE_ISSUER)
            || bool_decide (canonical_root = GITHUB_ISSUER))
  end.

Record ManagedProfileCapabilities := mkManagedProfileCapabilities {
  cap_oidc : ManagedProfileCapability;
  cap_google : ManagedProfileCapability
}.

Definition ManagedProfileCapabilities_shared (c : ManagedProfileCapability) :
    ManagedProfileCapabilities := mkManagedProfileCapabilities c c.

Definition ManagedProfileCapabilities_for_kind (self : ManagedProfileCapabilities)
    (kind : ProviderKind) : option ManagedProfileCapability :=
  match kind with
  | Oidc => Some (cap_oidc self)
  | Google => Some (cap_google self)
  | Github => None
  end.

Definition ManagedProfileCapabilities_for_adapter_key (self : ManagedProfileCapabilities)
    (key : string) : option ManagedProfileCapability :=
  head (filter (fun c => adapter_key c = key) [cap_oidc self; cap_google self]).

Definition ManagedProfileCapabilities_validate (self : ManagedProfileCapabilities) :
    result DomainError unit :=
  ManagedProfileCapability_validate (cap_oidc self) ;;?
  ManagedProfileCapability_validate (cap_google self).

Record ProviderKey := mkProviderKey { ProviderKey_as_str : string }.

Definition provider_key_byte (b : Z) : bool :=
  is_ascii_lowercase b || is_ascii_digit b || is_dash_or_underscore b.

Definition ProviderKey_parse (value : string) : result DomainError ProviderKey :=
  let valid_length := in_range 1 64 (str_len value) in
  let valid_first :=
    match bytes value with
    | b :: _ => is_ascii_lowercase b
    | [] => false
    end in
  let valid_rest := forallb provider_key_byte (tail (bytes value)) in
  if negb valid_length then Err (if is_empty value then Empty else TooLong)
  else if negb valid_first || negb valid_rest then Err InvalidCharacters
  else Ok (mkProviderKey value).

Inductive ProviderEgressMode := AllowAll | ExactOrigins.
#[global] Instance ProviderEgressMode_eq_dec : EqDecision ProviderEgressMode.
Proof. solve_decision. Defined.

Definition ProviderEgressMode_parse (value : string) : result DomainError ProviderEgressMode :=
  if bool_decide (value = "allow_all"%string) then Ok AllowAll
  else if bool_decide (value = "exact_origins"%string) then Ok ExactOrigins
  else Err InvalidCharacters.

Definition ProviderEgressMode_as_str (m : ProviderEgressMode) : string :=
  match m with
  | AllowAll => "allow_all"
  | ExactOrigins => "exact_origins"
  end.

(** ** Lemmas *)
Lemma bump_ok v w : bump v = Ok w <-> w = v + 1 /\ i64_range w.
Proof. unfold bump; rewrite ok_or_ok; apply checked_add_i64_some. Qed.

Lemma bump_cases v :
  (i64_range (v + 1) /\ bump v = Ok (v + 1)) \/ (~ i64_range (v + 1) /\ bump v = Err InvalidTransition).
Proof.
  unfold bump; destruct (checked_add_i64 v 1) as [w|] eqn:Hc.
  - apply checked_add_i64_some in Hc as [-> Hr]; by left.
  - apply checked_add_i64_none in Hc; by right.
Qed.

Lemma bumps_generation_always ev : bumps_generation ev = true.
Proof. by destruct ev. Qed.

(** ** Properties *)

(** What a successful transition produces. *)
Definition managed_successor (c : ManagedConnectionLifecycle) (ev : ManagedConnectionEvent)
    (next : ManagedConnectionState) (now : OffsetDateTime) : ManagedConnectionLifecycle := {|
  mc_state := next;
  mc_revision := mc_revision c + 1;
  mc_generation := mc_generation c + 1;
  mc_credential_generation := mc_credential_generation c + (if bumps_credential ev then 1 else 0);
  mc_updated_at := now
|}.

(** A managed-connection event succeeds exactly when both fences match the
    stored counters, time does not run backwards, the state table allows the
    event and no counter overflows; it then advances revision and generation by
    one, the credential generation by one exactly when the credential changes,
    and stamps the time. *)
Theorem managed_transition_spec (c c' : ManagedConnectionLifecycle)
    (ev : ManagedConnectionEvent) (er eg : Z) (now : OffsetDateTime) :
  ManagedConnectionLifecycle_transition ev er eg now c = (c', Ok tt) <->
  er = mc_revision c /\ eg = mc_generation c /\ mc_updated_at c <= now /\
  i64_range (mc_revision c + 1) /\ i64_range (mc_generation c + 1) /\
  (bumps_credential ev = true -> i64_range (mc_credential_generation c + 1)) /\
  exists next, managed_next_state (mc_state c) ev = Some next /\
    c' = managed_successor c ev next now.
Proof.
  unfold ManagedConnectionLifecycle_transition, managed_successor, mseq, mget, mlift, mmodify,
    mret, mfail; rewrite bumps_generation_always.
  destruct (negb (er =? mc_revision c) || _ || _) eqn:Hg; bool_prop.
  { split; [done|]; lia. }
  destruct (managed_next_state (mc_state c) ev) as [next|] eqn:Hn; simpl; [|naive_solver].
  destruct (bump_cases (mc_revision c)) as [[Hr ->]|[Hr ->]]; simpl; [|naive_solver].
  destruct (bump_cases (mc_generation c)) as [[Hgn ->]|[Hgn ->]]; simpl; [|naive_solver].
  destruct (bumps_credential ev) eqn:Hb; simpl.
  - destruct (bump_cases (mc_credential_generation c)) as [[Hc ->]|[Hc ->]]; simpl; [|naive_solver].
    split; [intros [= <-]; naive_solver lia|].
    intros (_ & _ & _ & _ & _ & _ & nx & [= <-] & ->); done.
  - rewrite Z.add_0_r; split; [intros [= <-]; naive_solver lia|].
    intros (_ & _ & _ & _ & _ & _ & nx & [= <-] & ->); done.
Qed.

(** A fence admits one winner: after an event succeeded under an expected
    revision and generation, every event presented under the same fence is
    rejected and changes nothing. *)
Theorem managed_fence_single_winner (c c' : ManagedConnectionLifecycle)
    (ev1 ev2 : ManagedConnectionEvent) (er eg : Z) (now1 now2 : OffsetDateTime) :
  ManagedConnectionLifecycle_transition ev1 er eg now1 c = (c', Ok tt) ->
  ManagedConnectionLifecycle_transition ev2 er eg now2 c' = (c', Err InvalidTransition).
Proof.
  intros (-> & -> & _ & _ & _ & _ & next & _ & ->)%managed_transition_spec.
  unfold ManagedConnectionLifecycle_transition, mseq, mget, mfail; simpl.
  assert ((mc_revision c =? mc_revision c + 1) = false) as -> by (apply Z.eqb_neq; lia).
  done.
Qed.

Definition example_connection : ManagedConnectionLifecycle :=
  mkManagedConnectionLifecycle Active 7 3 3 (seconds 1785542400).

Lemma managed_fence_single_winner_witness :
  exists c', ManagedConnectionLifecycle_transition Disconnect 7 3 (seconds 1785542460)
               example_connection = (c', Ok tt) /\
    ManagedConnectionLifecycle_transition Reauthorize 7 3 (seconds 1785542520) c' =
      (c', Err InvalidTransition).
Proof.
  eexists; split; [reflexivity|].
  apply (managed_fence_single_winner example_connection _ Disconnect Reauthorize 7 3
           (seconds 1785542460)); reflexivity.
Defined.

(** A rejected transition is not always a no-op: when the generation counter
    is exhausted, the call fails after the revision was already advanced. *)
Theorem managed_overflow_partial_write (c : ManagedConnectionLifecycle)
    (ev : ManagedConnectionEvent) (next : ManagedConnectionState) (now : OffsetDateTime) :
  mc_generation c = i64_max -> managed_next_state (mc_state c) ev = Some next ->
  i64_range (mc_revision c + 1) -> mc_updated_at c <= now ->
  ManagedConnectionLifecycle_transition ev (mc_revision c) i64_max now c =
  (mc_set_revision (mc_revision c + 1) c, Err InvalidTransition).
Proof.
  intros Hgen Hn Hr Ht.
  unfold ManagedConnectionLifecycle_transition, mseq, mget, mlift, mmodify; rewrite Hgen, Hn.
  rewrite !Z.eqb_refl, bumps_generation_always; simpl.
  assert ((now <? mc_updated_at c) = false) as -> by (apply Z.ltb_ge; lia).
  destruct (bump_cases (mc_revision c)) as [[_ ->]|[? _]]; [|done]; reflexivity.
Qed.

Lemma managed_overflow_partial_write_witness :
  let c := mkManagedConnectionLifecycle Active 7 i64_max 3 0 in
  ManagedConnectionLifecycle_transition Disconnect 7 i64_max 1 c =
  (mkManagedConnectionLifecycle Active 8 i64_max 3 0, Err InvalidTransition).
Proof.
  intros c; apply (managed_overflow_partial_write c Disconnect Disconnected 1);
    [reflexivity|reflexivity|split; vm_compute; congruence|vm_compute; congruence].
Defined.

(** The granted scopes match a capability exactly when they are the
    capability's scopes in some order, none of them twice: sorting and
    deduplicating decides equality of the two scope sets. *)
Theorem scopes_match_exact (c : ManagedProfileCapability) (returned : list string) :
  ManagedProfileCapability_scopes_match c returned = true <->
  NoDup returned /\ returned ≡ₚ exact_scopes c.
Proof.
  unfold ManagedProfileCapability_scopes_match, list_len.
  rewrite andb_true_iff, bool_decide_eq_true, Z.eqb_eq, Nat2Z.inj_iff.
  rewrite (Permutation_length (sort_unstable_perm returned)), sort_dedup_length.
  split; intros [Hnd Heq]; (split; [done|]).
  - apply sort_unstable_eq; [done|]; rewrite <- Heq, dedup_nodup; [done|].
    by rewrite sort_unstable_perm.
  - rewrite dedup_nodup by (by rewrite sort_unstable_perm); by apply sort_unstable_eq.
Qed.

(** No issuer is claimed by two provider kinds, so provider dispatch by kind
    never falls back to another provider; and the kind that cannot prove
    identities is exactly the one with no managed capability. *)
Theorem provider_kinds_exclusive (issuer : string) (caps : ManagedProfileCapabilities) :
  (length (filter (fun k => ProviderKind_issuer_matches k issuer = true)
             [Oidc; Google; Github]) <= 1)%nat /\
  forall k, ManagedProfileCapabilities_for_kind caps k = None <->
    identity_proof (ProviderKind_capabilities k) = false.
Proof.
  split; [|by intros []].
  destruct (decide (issuer = GOOGLE_ISSUER)) as [->|Hg]; [by vm_compute; lia|].
  destruct (decide (issuer = GITHUB_ISSUER)) as [->|Hh]; [by vm_compute; lia|].
  assert (ProviderKind_issuer_matches Google issuer = false) as Hgo.
  { apply bool_decide_eq_false; done. }
  assert (ProviderKind_issuer_matches Github issuer = false) as Hgi.
  { apply bool_decide_eq_false; done. }
  rewrite !filter_cons, filter_nil; rewrite Hgo, Hgi.
  repeat case_decide; simpl; done || lia.
Qed.

(** Provider keys are exactly the strings [a-z] followed by at most 63 of
    [a-z0-9_-]; so a key never contains a byte that is special in a URL path. *)
Theorem provider_key_grammar (value : string) :
  is_ok (ProviderKey_parse value) = true <->
  exists b r, bytes value = b :: r /\ is_ascii_lowercase b = true /\
    forallb provider_key_byte r = true /\ Z.of_nat (length r) <= 63.
Proof.
  unfold ProviderKey_parse; rewrite str_len_bytes.
  destruct (bytes value) as [|b r] eqn:Hb; cbn [tail length].
  { simpl; split; [done|]; intros (? & ? & ? & _); done. }
  destruct (in_range 1 64 (Z.of_nat (S (length r)))) eqn:Hr; simpl; bool_prop.
  - destruct (is_ascii_lowercase b) eqn:Hl, (forallb provider_key_byte r) eqn:Hf; simpl.
    { split; [intros _; exists b, r; repeat split; try done; lia | done]. }
    all: split; [done|]; intros (b' & r' & [= <- <-] & ? & ? & _); congruence.
  - split; [done|]; intros (b' & r' & [= <- <-] & _ & _ & Hlen); lia.
Qed.
