(* ===== verification/Email.v ===== *)
(** * Passwordless email: [domain/email.rs]

    Canonical mailboxes, the proof policy and its expiry, the challenge state
    machine (attempts, generations, resend), and the decimal one-time password
    generator with its rejection sampling. *)
From S2P Require Import Prelude.
From S2P Require Import Text.
From S2P Require Import Lifecycle.

Definition EMAIL_CANONICALIZATION_V1 : Z := 1.
Definition OTP_MIN_DIGITS : Z := 6.
Definition OTP_MAX_DIGITS : Z := 10.
Definition OTP_MAX_ATTEMPTS : Z := 5.
Definition EMAIL_MAX_GENERATIONS : Z := 5.
Definition EMAIL_MIN_RESEND_SECONDS : Z := 30.
Definition EMAIL_MAX_VALIDITY_SECONDS : Z := 600.
Definition EMAIL_MAX_BYTES : Z := 254.

(** ** Canonical mailboxes *)
Record CanonicalEmail := mkCanonicalEmail { CanonicalEmail_expose : string }.
Inductive EmailValidationError := mkEmailValidationError.

(** The punctuation of the [matches!] in [valid_local]. *)
Definition local_punctuation (b : Z) : bool :=
  existsb (Z.eqb b)
    [0x21; 0x23; 0x24; 0x25; 0x26; 0x27; 0x2A; 0x2B; 0x2D; 0x2F; 0x3D; 0x3F; 0x5E; 0x5F;
     0x60; 0x7B; 0x7C; 0x7D; 0x7E; 0x2E].

Definition local_byte (b : Z) : bool := is_ascii_alphanumeric b || local_punctuation b.
Definition label_byte (b : Z) : bool := is_ascii_alphanumeric b || (b =? 0x2D).

Definition valid_label (label : string) : bool :=
  negb (is_empty label)
  && (str_len label <=? 63)
  && negb (starts_with_byte 0x2D label)
  && negb (ends_with_byte 0x2D label)
  && forallb label_byte (bytes label).

Definition CanonicalEmail_parse_v1 (input : string) :
    result EmailValidationError CanonicalEmail :=
  if is_empty input
     || (EMAIL_MAX_BYTES <? str_len input)
     || negb (is_ascii_str input)
     || existsb (fun b => is_ascii_control b || (b =? 0x20)) (bytes input)
  then Err mkEmailValidationError
  else
    let? (local, domain) := ok_or (rsplit_once 0x40 input) mkEmailValidationError in
    if is_empty local
       || (64 <? str_len local)
       || is_empty domain
       || (253 <? str_len domain)
       || contains_byte 0x40 local
       || starts_with_byte 0x2E local
       || ends_with_byte 0x2E local
       || contains_str ".." local
       || starts_with_byte 0x2E domain
       || ends_with_byte 0x2E domain
       || contains_str ".." domain
    then Err mkEmailValidationError
    else
      let valid_local := forallb local_byte (bytes local) in
      let valid_domain := forallb valid_label (split_byte 0x2E domain) in
      if negb valid_local || negb valid_domain || negb (contains_byte 0x2E domain)
      then Err mkEmailValidationError
      else Ok (mkCanonicalEmail
                 (String.append local (String "@" (to_ascii_lowercase domain)))).

(** ** Proof policy *)
Record EmailProofPolicy := mkEmailProofPolicy {
  otp_enabled : bool;
  magic_link_enabled : bool;
  otp_digits : Z;
  otp_validity_seconds : Z;
  pol_otp_max_attempts : Z;
  resend_after_seconds : Z;
  max_generations : Z;
  magic_validity_seconds : Z
}.

Definition EmailProofPolicy_validate (self : EmailProofPolicy) :
    result DomainError EmailProofPolicy :=
  if (negb (otp_enabled self) && negb (magic_link_enabled self))
     || negb (in_range OTP_MIN_DIGITS OTP_MAX_DIGITS (otp_digits self))
     || negb (in_range 1 OTP_MAX_ATTEMPTS (pol_otp_max_attempts self))
     || negb (in_range EMAIL_MIN_RESEND_SECONDS EMAIL_MAX_VALIDITY_SECONDS
                (resend_after_seconds self))
     || negb (in_range 1 EMAIL_MAX_GENERATIONS (max_generations self))
     || negb (in_range 30 EMAIL_MAX_VALIDITY_SECONDS (otp_validity_seconds self))
     || negb (in_range 30 EMAIL_MAX_VALIDITY_SECONDS (magic_validity_seconds self))
  then Err InvalidValue
  else Ok self.

Definition EmailProofPolicy_effective_expiry (self : EmailProofPolicy)
    (issued_at transaction_expires_at : OffsetDateTime) : result DomainError OffsetDateTime :=
  EmailProofPolicy_validate self ;;?
  if transaction_expires_at <=? issued_at then Err InvalidTransition
  else
    let proof_seconds :=
      if otp_enabled self && magic_link_enabled self then
        Z.max (otp_validity_seconds self) (magic_validity_seconds self)
      else if otp_enabled self then otp_validity_seconds self
      else magic_validity_seconds self in
    Ok (Z.min (issued_at + seconds proof_seconds) transaction_expires_at).

(** ** Challenges *)
Module Challenge.
Inductive EmailChallengeStatus :=
| Pending | Consumed | Exhausted | Expired | Superseded | DeliveryUnavailable.
#[global] Instance EmailChallengeStatus_eq_dec : EqDecision EmailChallengeStatus.
Proof. solve_decision. Defined.
End Challenge.
Import Challenge.

Record EmailChallengeState := mkEmailChallengeState {
  ec_generation : Z;
  ec_status : EmailChallengeStatus;
  otp_attempts : Z;
  otp_max_attempts : Z;
  ec_issued_at : OffsetDateTime;
  ec_expires_at : OffsetDateTime
}.

Definition ec_set_status (s : EmailChallengeStatus) (c : EmailChallengeState) :
    EmailChallengeState :=
  mkEmailChallengeState (ec_generation c) s (otp_attempts c) (otp_max_attempts c)
    (ec_issued_at c) (ec_expires_at c).
Definition ec_set_attempts (n : Z) (c : EmailChallengeState) : EmailChallengeState :=
  mkEmailChallengeState (ec_generation c) (ec_status c) n (otp_max_attempts c)
    (ec_issued_at c) (ec_expires_at c).

Definition EmailChallengeState_require_pending (self : EmailChallengeState)
    (now : OffsetDateTime) : result DomainError unit :=
  if negb (bool_decide (ec_status self = Pending)) || (ec_expires_at self <=? now)
  then Err InvalidTransition
  else Ok tt.

Definition EmailChallengeState_failed_otp (self : EmailChallengeState) (now : OffsetDateTime) :
    result DomainError EmailChallengeState :=
  EmailChallengeState_require_pending self now ;;?
  if otp_max_attempts self <=? otp_attempts self then Err InvalidTransition
  else
    let self := ec_set_attempts (otp_attempts self + 1) self in
    Ok (if otp_attempts self =? otp_max_attempts self
        then ec_set_status Exhausted self
        else self).

Definition EmailChallengeState_consume (self : EmailChallengeState) (now : OffsetDateTime) :
    result DomainError EmailChallengeState :=
  EmailChallengeState_require_pending self now ;;?
  Ok (ec_set_status Consumed self).

(** The superseded parent is overwritten in the local copy and dropped; the
    returned value is the next generation. *)
Definition EmailChallengeState_resend (self : EmailChallengeState) (now : OffsetDateTime)
    (policy : EmailProofPolicy) (transaction_expires_at : OffsetDateTime) :
    result DomainError EmailChallengeState :=
  EmailChallengeState_require_pending self now ;;?
  EmailProofPolicy_validate policy ;;?
  if (now <? ec_issued_at self + seconds (resend_after_seconds policy))
     || (max_generations policy <=? ec_generation self)
  then Err InvalidTransition
  else
    expires_at <-? EmailProofPolicy_effective_expiry policy now transaction_expires_at ;;
    Ok {|
      ec_generation := ec_generation self + 1;
      ec_status := Pending;
      otp_attempts := 0;
      otp_max_attempts := pol_otp_max_attempts policy;
      ec_issued_at := now;
      ec_expires_at := expires_at
    |}.

(** ** One-time passwords.  [getrandom::fill] is a parameter: [rnd i] is the
    32-byte block its [i]-th call fills, [None] when the call fails. *)
Section otp.
Context (rnd : nat -> option (list Z)).

Fixpoint otp_consume_block (digits : Z) (block : list Z) (acc : string) : string :=
  match block with
  | [] => acc
  | value :: r =>
      let acc' :=
        if (value <? 250) && (str_len acc <? digits) then
          String.append acc (String (Ascii.ascii_of_N (Z.to_N (0x30 + value mod 10))) EmptyString)
        else acc in
      otp_consume_block digits r acc'
  end.

(** [None] only when [fuel] blocks were not enough. *)
Fixpoint otp_loop (fuel : nat) (i : nat) (digits : Z) (acc : string) :
    option (result DomainError string) :=
  if str_len acc <? digits then
    match fuel with
    | O => None
    | S f =>
        match rnd i with
        | None => Some (Err InvalidValue)
        | Some block => otp_loop f (S i) digits (otp_consume_block digits block acc)
        end
    end
  else Some (Ok acc).

Definition generate_decimal_otp (fuel : nat) (digits : Z) :
    option (result DomainError string) :=
  if negb (in_range OTP_MIN_DIGITS OTP_MAX_DIGITS digits) then Some (Err InvalidValue)
  else otp_loop fuel 0 digits EmptyString.
End otp.

(** * Canonicalization *)

(** What the checks establish about an accepted address. *)
Definition mailbox_ok (local domain : string) : Prop :=
  0 < str_len local <= 64 /\ 0 < str_len domain <= 253 /\
  contains_byte 0x40 local = false /\
  starts_with_byte 0x2E local = false /\ ends_with_byte 0x2E local = false /\
  contains_str ".." local = false /\
  forallb local_byte (bytes local) = true /\
  forallb valid_label (split_byte 0x2E domain) = true /\
  contains_byte 0x2E domain = true.

Lemma mailbox_domain_dots domain :
  forallb valid_label (split_byte 0x2E domain) = true ->
  starts_with_byte 0x2E domain = false /\ ends_with_byte 0x2E domain = false /\
  contains_str ".." domain = false.
Proof.
  intros Hv; pose proof (split_byte_nonempty "."%char domain) as Hn.
  change (byte_of "."%char) with 0x2E in Hn; change (doubled "."%char) with ".."%string in Hn.
  destruct Hn as [Hn _]; destruct Hn as (_ & ? & ? & ?); [|done].
  rewrite Forall_forall; intros p Hp%list_elem_of_In.
  rewrite forallb_forall in Hv; specialize (Hv p Hp); unfold valid_label in Hv.
  intros ->; done.
Qed.

(** Bytes of an accepted address are printable ASCII. *)
Definition address_byte (b : Z) : bool := in_range 0x21 0x7E b.

Lemma local_byte_address b : local_byte b = true -> address_byte b = true.
Proof.
  unfold local_byte, local_punctuation, address_byte, is_ascii_alphanumeric,
    is_ascii_lowercase, is_ascii_uppercase, is_ascii_digit; simpl; bool_prop; lia.
Qed.

Lemma label_byte_address b : label_byte b = true -> address_byte b = true.
Proof.
  unfold label_byte, address_byte, is_ascii_alphanumeric,
    is_ascii_lowercase, is_ascii_uppercase, is_ascii_digit; bool_prop; lia.
Qed.

Lemma forallb_impl {A : Type} (f g : A -> bool) l :
  (forall x, f x = true -> g x = true) -> forallb f l = true -> forallb g l = true.
Proof.
  intros Hfg; induction l as [|x l IH]; simpl; [done|].
  intros [Hx Hl]%andb_true_iff; rewrite Hfg, IH; done.
Qed.

Lemma domain_address_bytes domain :
  forallb valid_label (split_byte 0x2E domain) = true ->
  forallb address_byte (bytes domain) = true.
Proof.
  intros Hv; apply (forallb_impl (fun x => label_byte x || (x =? 0x2E))).
  { intros b; rewrite orb_true_iff; intros [Hb|Hb]; [by apply label_byte_address|].
    apply Z.eqb_eq in Hb as ->; done. }
  apply split_byte_forallb_inv; rewrite Forall_forall; intros p Hp%list_elem_of_In.
  rewrite forallb_forall in Hv; specialize (Hv p Hp); unfold valid_label in Hv.
  by apply andb_true_iff in Hv as [_ Hv].
Qed.

Lemma address_bytes_screened s :
  forallb address_byte (bytes s) = true ->
  is_ascii_str s = true /\
  existsb (fun b => is_ascii_control b || (b =? 0x20)) (bytes s) = false.
Proof.
  unfold is_ascii_str; induction (bytes s) as [|b l IH]; simpl; [done|].
  intros [Hb Hl]%andb_true_iff; destruct (IH Hl) as [-> ->].
  unfold address_byte, is_ascii_control in *; bool_prop.
  split; [split; [lia|done]|lia].
Qed.

Lemma contains_at_domain domain :
  forallb valid_label (split_byte 0x2E domain) = true -> contains_byte 0x40 domain = false.
Proof.
  intros Hv.
  assert (Hl : forallb (fun x => label_byte x || (x =? 0x2E)) (bytes domain) = true).
  { apply split_byte_forallb_inv; rewrite Forall_forall; intros p Hp%list_elem_of_In.
    rewrite forallb_forall in Hv; specialize (Hv p Hp); unfold valid_label in Hv.
    by apply andb_true_iff in Hv as [_ Hv]. }
  unfold contains_byte; induction (bytes domain) as [|b l IH]; [done|].
  cbn [forallb existsb] in *; apply andb_true_iff in Hl as [Hb Hl].
  rewrite (IH Hl), orb_false_r; apply Z.eqb_neq; intros <-; done.
Qed.

(** The parser accepts exactly [local@domain] with [mailbox_ok] parts and at
    most 254 bytes, and returns [local@lowercase(domain)]. *)
Lemma parse_v1_ok input e :
  CanonicalEmail_parse_v1 input = Ok e <->
  exists local domain,
    input = String.append local (String "@" domain) /\ mailbox_ok local domain /\
    str_len input <= EMAIL_MAX_BYTES /\
    e = mkCanonicalEmail (String.append local (String "@" (to_ascii_lowercase domain))).
Proof.
  unfold CanonicalEmail_parse_v1; split.
  - intros H; inv_ok; destruct x as [local domain]; inv_ok.
    destruct (rsplit_once_some _ _ _ _ H1) as (a & Ha & -> & _).
    assert (a = "@"%char) as -> by (apply byte_of_inj; exact Ha).
    exists local, domain; split; [done|]; split; [|bool_prop; naive_solver lia].
    unfold mailbox_ok; bool_prop; naive_solver lia.
  - intros (local & domain & -> & Hok & Hlen & ->).
    destruct Hok as (Hl & Hd & Hat & Hls & Hle & Hld & Hlb & Hdl & Hdot).
    destruct (mailbox_domain_dots _ Hdl) as (Hds & Hde & Hdd).
    assert (Hbytes : forallb address_byte (bytes (String.append local (String "@" domain))) = true).
    { rewrite bytes_app, forallb_app; cbn [bytes forallb].
      rewrite (forallb_impl _ _ _ local_byte_address Hlb), (domain_address_bytes _ Hdl).
      reflexivity. }
    destruct (address_bytes_screened _ Hbytes) as [-> ->].
    assert (is_empty (String.append local (String "@" domain)) = false) as ->.
    { apply is_empty_false; rewrite str_len_app; simpl; lia. }
    assert ((EMAIL_MAX_BYTES <? str_len (String.append local (String "@" domain))) = false)
      as -> by (apply Z.ltb_ge; lia).
    assert (rsplit_once 0x40 (String.append local (String "@" domain)) = Some (local, domain))
      as -> by (apply (rsplit_once_append "@"%char); by apply contains_at_domain).
    cbn [rbind ok_or orb negb]; rewrite Hat, Hls, Hle, Hld, Hds, Hde, Hdd, Hlb, Hdl, Hdot.
    assert (is_empty local = false) as -> by (apply is_empty_false; lia).
    assert (is_empty domain = false) as -> by (apply is_empty_false; lia).
    assert ((64 <? str_len local) = false) as -> by (apply Z.ltb_ge; lia).
    assert ((253 <? str_len domain) = false) as -> by (apply Z.ltb_ge; lia).
    done.
Qed.

Lemma valid_label_lowercase p : valid_label p = true -> valid_label (to_ascii_lowercase p) = true.
Proof.
  unfold valid_label; rewrite str_len_lowercase, starts_with_lowercase, ends_with_lowercase
    by done.
  intros H; repeat (apply andb_true_iff in H as [H ?]).
  repeat (apply andb_true_iff; split); try done.
  - by destruct p.
  - apply forallb_lowercase; [|done]; intros b.
    unfold label_byte, is_ascii_alphanumeric, is_ascii_lowercase, is_ascii_uppercase,
      is_ascii_digit; bool_prop; lia.
Qed.

Lemma mailbox_ok_lowercase local domain :
  mailbox_ok local domain -> mailbox_ok local (to_ascii_lowercase domain).
Proof.
  intros (Hl & Hd & Hat & Hls & Hle & Hld & Hlb & Hdl & Hdot).
  unfold mailbox_ok; rewrite str_len_lowercase, contains_byte_lowercase, split_byte_lowercase
    by done.
  repeat split; try done; try lia.
  clear -Hdl; induction (split_byte 0x2E domain) as [|p ps IH]; simpl in *; [done|].
  apply andb_true_iff in Hdl as [Hp Hps]; rewrite valid_label_lowercase, IH by done; done.
Qed.

(** Canonicalization is exact and idempotent: an accepted address splits at
    its last at-sign, keeps the local part byte for byte, lowercases only the
    domain, and parsing the canonical form again returns it unchanged. *)
Theorem canonical_email_idempotent (input : string) (e : CanonicalEmail) :
  CanonicalEmail_parse_v1 input = Ok e ->
  (exists local domain,
    input = String.append local (String "@" domain) /\
    CanonicalEmail_expose e = String.append local (String "@" (to_ascii_lowercase domain)) /\
    contains_byte 0x40 local = false) /\
  CanonicalEmail_parse_v1 (CanonicalEmail_expose e) = Ok e.
Proof.
  intros (local & domain & -> & Hok & Hlen & ->)%parse_v1_ok; split.
  - exists local, domain; destruct Hok as (_ & _ & ? & _); done.
  - apply parse_v1_ok; exists local, (to_ascii_lowercase domain).
    simpl; rewrite to_ascii_lowercase_idem; split; [done|].
    split; [by apply mailbox_ok_lowercase|]; split; [|done].
    rewrite str_len_app in *; simpl in *; by rewrite str_len_lowercase.
Qed.

Lemma canonical_email_idempotent_witness :
  exists e, CanonicalEmail_parse_v1 "User.Name+tag@EXAMPLE.COM" = Ok e /\
    CanonicalEmail_parse_v1 (CanonicalEmail_expose e) = Ok e.
Proof.
  eexists; split; [vm_compute; reflexivity|].
  eapply (canonical_email_idempotent "User.Name+tag@EXAMPLE.COM"); vm_compute; reflexivity.
Defined.

(** * Policy and challenges *)
Lemma EmailProofPolicy_validate_ok p q :
  EmailProofPolicy_validate p = Ok q ->
  q = p /\ (otp_enabled p = true \/ magic_link_enabled p = true) /\
  6 <= otp_digits p <= 10 /\ 1 <= pol_otp_max_attempts p <= 5 /\
  30 <= resend_after_seconds p <= 600 /\ 1 <= max_generations p <= 5 /\
  30 <= otp_validity_seconds p <= 600 /\ 30 <= magic_validity_seconds p <= 600.
Proof.
  unfold EmailProofPolicy_validate, OTP_MIN_DIGITS, OTP_MAX_DIGITS, OTP_MAX_ATTEMPTS,
    EMAIL_MIN_RESEND_SECONDS, EMAIL_MAX_VALIDITY_SECONDS, EMAIL_MAX_GENERATIONS.
  intros H; inv_ok; bool_prop.
  destruct (otp_enabled q), (magic_link_enabled q); naive_solver.
Qed.

(** An issued proof expires strictly after it was issued, never outlives the
    login transaction, and lives at most ten minutes; when the transaction has
    time left it lives at least thirty seconds. *)
Theorem effective_expiry_bounded (p : EmailProofPolicy)
    (issued tx expiry : OffsetDateTime) :
  EmailProofPolicy_effective_expiry p issued tx = Ok expiry ->
  issued < expiry <= tx /\ expiry <= issued + seconds 600 /\
  (issued + seconds 30 <= tx -> issued + seconds 30 <= expiry).
Proof.
  unfold EmailProofPolicy_effective_expiry; intros H; inv_ok.
  apply EmailProofPolicy_validate_ok in H0 as (_ & _ & _ & _ & _ & _ & Ho & Hm).
  unfold seconds in *; bool_prop.
  destruct (otp_enabled p), (magic_link_enabled p); simpl in *; lia.
Qed.

Definition example_policy : EmailProofPolicy :=
  mkEmailProofPolicy true true 6 600 5 30 5 600.

Lemma effective_expiry_bounded_witness :
  EmailProofPolicy_effective_expiry example_policy (minutes 9) (minutes 10) = Ok (minutes 10) /\
  minutes 9 < minutes 10 <= minutes 10.
Proof.
  split; [reflexivity|].
  apply (effective_expiry_bounded example_policy (minutes 9) (minutes 10) (minutes 10)).
  reflexivity.
Defined.

(** A caller drives a challenge with these requests; a rejected request leaves
    the stored challenge as it was. *)
Inductive ChallengeOp :=
| OpFailedOtp (now : OffsetDateTime)
| OpConsume (now : OffsetDateTime)
| OpResend (now : OffsetDateTime) (policy : EmailProofPolicy) (tx : OffsetDateTime).

Definition challenge_apply (op : ChallengeOp) (c : EmailChallengeState) :
    result DomainError EmailChallengeState :=
  match op with
  | OpFailedOtp now => EmailChallengeState_failed_otp c now
  | OpConsume now => EmailChallengeState_consume c now
  | OpResend now policy tx => EmailChallengeState_resend c now policy tx
  end.

(** The final challenge and the number of wrong codes that were accepted for
    checking. *)
Fixpoint challenge_run (ops : list ChallengeOp) (c : EmailChallengeState) :
    EmailChallengeState * Z :=
  match ops with
  | [] => (c, 0)
  | op :: r =>
      match challenge_apply op c with
      | Err _ => challenge_run r c
      | Ok c' =>
          let '(cf, n) := challenge_run r c' in
          (cf, n + match op with OpFailedOtp _ => 1 | _ => 0 end)
      end
  end.

Definition challenge_wf (c : EmailChallengeState) : Prop :=
  1 <= ec_generation c <= EMAIL_MAX_GENERATIONS /\
  0 <= otp_attempts c <= otp_max_attempts c /\ otp_max_attempts c <= OTP_MAX_ATTEMPTS.

(** Wrong codes still possible over the rest of the challenge's generations. *)
Definition guess_budget (c : EmailChallengeState) : Z :=
  (EMAIL_MAX_GENERATIONS - ec_generation c) * OTP_MAX_ATTEMPTS
  + (otp_max_attempts c - otp_attempts c).

Lemma challenge_apply_wf op c c' :
  challenge_wf c -> challenge_apply op c = Ok c' ->
  challenge_wf c' /\
  guess_budget c' + match op with OpFailedOtp _ => 1 | _ => 0 end <= guess_budget c.
Proof.
  unfold challenge_wf, guess_budget, EMAIL_MAX_GENERATIONS, OTP_MAX_ATTEMPTS.
  intros Hwf; destruct op as [now|now|now policy tx]; simpl.
  - unfold EmailChallengeState_failed_otp; intros H; inv_ok; bool_prop.
    destruct (_ =? _); simpl; lia.
  - unfold EmailChallengeState_consume; intros H; inv_ok; simpl; lia.
  - unfold EmailChallengeState_resend; intros H; inv_ok; simpl.
    apply EmailProofPolicy_validate_ok in H1; bool_prop; lia.
Qed.

Lemma challenge_not_pending op c :
  ec_status c <> Pending -> challenge_apply op c = Err InvalidTransition.
Proof.
  intros Hs; assert (Hr : forall now,
    EmailChallengeState_require_pending c now = Err InvalidTransition).
  { intros now; unfold EmailChallengeState_require_pending.
    by rewrite bool_decide_eq_false_2. }
  destruct op; simpl; unfold EmailChallengeState_failed_otp, EmailChallengeState_consume,
    EmailChallengeState_resend; by rewrite Hr.
Qed.

Lemma challenge_run_stuck ops c : ec_status c <> Pending -> challenge_run ops c = (c, 0).
Proof.
  intros Hs; induction ops as [|op ops IH]; simpl; [done|].
  by rewrite challenge_not_pending.
Qed.

(** Over any schedule of guesses, resends (under any valid policies) and
    consumptions, one email challenge admits at most [guess_budget] wrong codes,
    hence never more than 25 over all its generations. *)
Theorem email_guesses_bounded (ops : list ChallengeOp) (c : EmailChallengeState) :
  challenge_wf c ->
  challenge_wf (challenge_run ops c).1 /\
  0 <= (challenge_run ops c).2 <= guess_budget c /\ guess_budget c <= 25.
Proof.
  revert c; induction ops as [|op ops IH]; intros c Hwf.
  - simpl; split; [done|].
    unfold challenge_wf, guess_budget, EMAIL_MAX_GENERATIONS, OTP_MAX_ATTEMPTS in *; lia.
  - simpl; destruct (challenge_apply op c) as [c'|e] eqn:Ha; [|by apply IH].
    destruct (challenge_apply_wf _ _ _ Hwf Ha) as [Hwf' Hb].
    specialize (IH c' Hwf'); destruct (challenge_run ops c') as [cf n]; simpl in *.
    split; [naive_solver|].
    unfold challenge_wf, guess_budget, EMAIL_MAX_GENERATIONS, OTP_MAX_ATTEMPTS in *.
    destruct op; lia.
Qed.

Definition example_challenge : EmailChallengeState :=
  mkEmailChallengeState 1 Pending 0 5 0 (minutes 10).

Lemma email_guesses_bounded_witness :
  (challenge_run [OpFailedOtp 1; OpResend (seconds 30) example_policy (minutes 10);
                  OpFailedOtp (seconds 31); OpConsume (seconds 32); OpFailedOtp (seconds 33)]
     example_challenge).2 = 2 /\
  0 <= (challenge_run [OpFailedOtp 1] example_challenge).2 <= guess_budget example_challenge.
Proof.
  split; [vm_compute; reflexivity|].
  apply (email_guesses_bounded [OpFailedOtp 1] example_challenge).
  unfold challenge_wf; simpl; unfold EMAIL_MAX_GENERATIONS, OTP_MAX_ATTEMPTS; lia.
Defined.

(** A challenge proves an address once: after an accepted consumption, and
    after the attempt that exhausts it, every further guess, resend or
    consumption is rejected. *)
Theorem email_challenge_one_use (c c' : EmailChallengeState) (now : OffsetDateTime)
    (ops : list ChallengeOp) :
  EmailChallengeState_consume c now = Ok c' \/
  (EmailChallengeState_failed_otp c now = Ok c' /\ otp_attempts c' = otp_max_attempts c') ->
  challenge_run ops c' = (c', 0).
Proof.
  intros H; apply challenge_run_stuck; destruct H as [H|[H Hmax]].
  - unfold EmailChallengeState_consume in H; inv_ok; done.
  - unfold EmailChallengeState_failed_otp in H; inv_ok.
    destruct (_ =? _) eqn:He; simpl in *; [done|]; bool_prop; lia.
Qed.

Lemma email_challenge_one_use_witness :
  let c' := mkEmailChallengeState 1 Consumed 0 5 0 (minutes 10) in
  EmailChallengeState_consume example_challenge 7 = Ok c' /\
  challenge_run [OpConsume 8; OpFailedOtp 9] c' = (c', 0).
Proof.
  intros c'; split; [reflexivity|].
  apply (email_challenge_one_use example_challenge c' 7); left; reflexivity.
Defined.

(** * One-time passwords *)
Definition all_digits (s : string) : Prop := forallb is_ascii_digit (bytes s) = true.

Lemma otp_digit_byte value :
  byte_of (Ascii.ascii_of_N (Z.to_N (0x30 + value mod 10))) = 0x30 + value mod 10.
Proof.
  pose proof (Z.mod_pos_bound value 10); unfold byte_of.
  rewrite Ascii.N_ascii_embedding; lia.
Qed.

(** One block never overfills, only adds digits, and makes progress when it
    holds an unbiased byte. *)
Lemma otp_consume_block_spec digits block acc :
  all_digits acc -> str_len acc <= digits ->
  let acc' := otp_consume_block digits block acc in
  all_digits acc' /\ str_len acc <= str_len acc' <= digits /\
  (existsb (fun b => b <? 250) block = true -> str_len acc < digits ->
   str_len acc < str_len acc').
Proof.
  revert acc; induction block as [|v r IH]; intros acc Hd Hl; simpl; [split; [done|lia]|].
  destruct ((v <? 250) && (str_len acc <? digits)) eqn:Hc; bool_prop.
  - set (a := Ascii.ascii_of_N _); set (acc1 := String.append acc (String a EmptyString)).
    assert (Hlen1 : str_len acc1 = str_len acc + 1) by (unfold acc1; rewrite str_len_app; done).
    assert (Hd1 : all_digits acc1).
    { unfold all_digits, acc1, a in *; rewrite bytes_app, forallb_app, Hd; cbn [bytes forallb].
      rewrite otp_digit_byte, andb_true_r; pose proof (Z.mod_pos_bound v 10).
      apply in_range_true; lia. }
    destruct (IH acc1 Hd1 ltac:(lia)) as (H1 & H2 & H3); split; [done|]; lia.
  - destruct (IH acc Hd Hl) as (H1 & H2 & H3); split; [done|]; split; [done|].
    intros Hex Hlt; apply H3; [|done].
    destruct Hex as [Hv|Hex]; [lia|done].
Qed.

Lemma otp_loop_spec rnd digits fuel i acc :
  (forall j, exists block, rnd j = Some block /\ existsb (fun b => b <? 250) block = true) ->
  all_digits acc -> str_len acc <= digits -> digits <= str_len acc + Z.of_nat fuel ->
  exists s, otp_loop rnd fuel i digits acc = Some (Ok s) /\ all_digits s /\ str_len s = digits.
Proof.
  intros Hrnd; revert i acc; induction fuel as [|f IH]; intros i acc Hd Hl Hf; simpl.
  - destruct (Z.ltb_spec (str_len acc) digits); [lia|].
    exists acc; split; [done|]; split; [done|lia].
  - destruct (Z.ltb_spec (str_len acc) digits);
      [|exists acc; split; [done|]; split; [done|lia]].
    destruct (Hrnd i) as (block & -> & Hex).
    destruct (otp_consume_block_spec digits block acc Hd Hl) as (H1 & H2 & H3).
    apply IH; [done|lia|]; specialize (H3 Hex ltac:(lia)); lia.
Qed.

(** C15: The generator returns: when every random block holds at least one byte
    below 250, [digits] blocks suffice and the result is a string of exactly
    [digits] decimal digits; out-of-range lengths are refused. *)
Theorem otp_generation_succeeds (rnd : nat -> option (list Z)) (digits : Z) (fuel : nat) :
  (forall j, exists block, rnd j = Some block /\ existsb (fun b => b <? 250) block = true) ->
  digits <= Z.of_nat fuel ->
  (6 <= digits <= 10 /\
   exists s, generate_decimal_otp rnd fuel digits = Some (Ok s) /\
     str_len s = digits /\ all_digits s) \/
  (~ 6 <= digits <= 10 /\ generate_decimal_otp rnd fuel digits = Some (Err InvalidValue)).
Proof.
  intros Hrnd Hf; unfold generate_decimal_otp, OTP_MIN_DIGITS, OTP_MAX_DIGITS.
  destruct (in_range 6 10 digits) eqn:Hr; simpl; bool_prop; [left|right; split; [lia|done]].
  split; [lia|].
  destruct (otp_loop_spec rnd digits fuel 0 EmptyString Hrnd) as (s & -> & Hs & Hl);
    [done|simpl; lia|simpl; lia|eauto].
Qed.

Lemma otp_generation_succeeds_witness :
  exists s, generate_decimal_otp (fun _ => Some [255; 7; 250; 19]) 6 6 = Some (Ok s) /\
    str_len s = 6 /\ all_digits s.
Proof.
  destruct (otp_generation_succeeds (fun _ => Some [255; 7; 250; 19]) 6 6) as [[_ H]|[H _]].
  - intros j; exists [255; 7; 250; 19]; split; reflexivity.
  - lia.
  - exact H.
  - lia.
Defined.

(** Rejection sampling is unbiased: among the 256 values of a random byte,
    each decimal digit is produced by exactly 25, and the six others are
    rejected. *)
Theorem otp_digits_unbiased (d : Z) :
  0 <= d <= 9 ->
  length (filter (fun v => otp_consume_block 1 [v] EmptyString =
                           String (Ascii.ascii_of_N (Z.to_N (0x30 + d))) EmptyString)
            (Z.of_nat <$> seq 0 256)) = 25%nat /\
  length (filter (fun v => otp_consume_block 1 [v] EmptyString = EmptyString)
            (Z.of_nat <$> seq 0 256)) = 6%nat.
Proof.
  intros Hd.
  assert (d = 0 \/ d = 1 \/ d = 2 \/ d = 3 \/ d = 4 \/ d = 5 \/ d = 6 \/ d = 7 \/ d = 8 \/ d = 9)
    as Hcases by lia.
  repeat destruct Hcases as [->|Hcases]; try subst d; split; vm_compute; reflexivity.
Qed.

Lemma otp_digits_unbiased_witness :
  length (filter (fun v => otp_consume_block 1 [v] EmptyString =
                           String (Ascii.ascii_of_N (Z.to_N (0x30 + 7))) EmptyString)
            (Z.of_nat <$> seq 0 256)) = 25%nat.
Proof. apply (otp_digits_unbiased 7); lia. Defined.
