(* ===== verification/KeyProvider.v ===== *)
(** * Key-provider SPI: [crates/owlauth-key-provider]

    The bounded values of [values.rs] and [error.rs], and the canonical
    protection context of [context.rs] that provider material is authenticated
    against: a domain string, a version and eleven tag-length-value fields.

    Rust types that the proofs need as facts ([u64] generation, non-zero [u16]
    format version, values that passed their constructors) are collected in
    [parts_typed] and [parts_constructed]. *)
From Stdlib Require Import Sorting.Sorted.
From S2P Require Import Prelude.
From S2P Require Import BTree.

(** ** [error.rs] *)
Module ValueErr.
Inductive ValueError := Empty | TooLong | InvalidLength | InvalidCharacter | InvalidValue.
#[global] Instance ValueError_eq_dec : EqDecision ValueError.
Proof. solve_decision. Defined.
End ValueErr.
Import ValueErr.

(** Non-empty, bounded, drawn from a byte class: the shape of every string
    constructor of the crate. *)
Definition bounded_class (max_len : Z) (cls : Z -> bool) (value : string) :
    result ValueError string :=
  if is_empty value then Err Empty
  else if max_len <? str_len value then Err TooLong
  else if negb (forallb cls (bytes value)) then Err InvalidCharacter
  else Ok value.

(** [.] [_] [-] after lowercase letters and digits. *)
Definition label_class (b : Z) : bool :=
  is_ascii_lowercase b || is_ascii_digit b || (b =? 0x2E) || (b =? 0x5F) || (b =? 0x2D).

Record ProviderErrorCode := mkProviderErrorCode { ProviderErrorCode_as_str : string }.
Definition ProviderErrorCode_new (value : string) : result ValueError ProviderErrorCode :=
  rmap mkProviderErrorCode (bounded_class 64 label_class value).

(** ** [values.rs] *)
Record ProviderId := mkProviderId { ProviderId_as_str : string }.

Definition ProviderId_new (value : string) : result ValueError ProviderId :=
  if is_empty value then Err Empty
  else if 64 <? str_len value then Err TooLong
  else
    let first_ok :=
      match bytes value with
      | b :: _ => is_ascii_lowercase b
      | [] => false
      end in
    let rest_ok :=
      forallb (fun b => is_ascii_lowercase b || is_ascii_digit b || (b =? 0x5F) || (b =? 0x2D))
        (tail (bytes value)) in
    if negb first_ok || negb rest_ok then Err InvalidCharacter
    else Ok (mkProviderId value).

(** [NonZeroU16]. *)
Definition ProviderFormatVersion_new (value : Z) : result ValueError Z :=
  if value =? 0 then Err InvalidValue else Ok value.

Record ProviderFormatVersions := mkProviderFormatVersions { pfv_as_slice : list Z }.

Definition ProviderFormatVersions_new (values : list Z) :
    result ValueError ProviderFormatVersions :=
  if Z.of_nat (length values) =? 0 then Err Empty
  else if 16 <? Z.of_nat (length values) then Err TooLong
  else
    let unique := bt_collect values in
    if negb (Z.of_nat (length unique) =? Z.of_nat (length values)) then Err InvalidValue
    else Ok (mkProviderFormatVersions unique).

Definition ProviderFormatVersions_contains (self : ProviderFormatVersions) (version : Z) : bool :=
  binary_search (pfv_as_slice self) version.

Inductive SigningAlgorithm := Ed25519.
#[global] Instance SigningAlgorithm_eq_dec : EqDecision SigningAlgorithm.
Proof. solve_decision. Defined.
#[global] Instance SigningAlgorithm_ord : TotalOrd SigningAlgorithm :=
  enum_ord (fun a => match a with Ed25519 => 0 end)
    (fun x y _ => match x, y with Ed25519, Ed25519 => eq_refl end).

Definition SigningAlgorithm_jws_name (a : SigningAlgorithm) : string :=
  match a with Ed25519 => "EdDSA" end.

Record SigningProviderCapabilities := mkSigningProviderCapabilities {
  spc_algorithms : list SigningAlgorithm;
  spc_format_versions : ProviderFormatVersions
}.

Definition SigningProviderCapabilities_new (algorithms : list SigningAlgorithm)
    (format_versions : ProviderFormatVersions) : result ValueError SigningProviderCapabilities :=
  if Z.of_nat (length algorithms) =? 0 then Err Empty
  else if 8 <? Z.of_nat (length algorithms) then Err TooLong
  else
    let unique := bt_collect algorithms in
    if negb (Z.of_nat (length unique) =? Z.of_nat (length algorithms)) then Err InvalidValue
    else Ok (mkSigningProviderCapabilities unique format_versions).

Definition SigningProviderCapabilities_supports_algorithm (self : SigningProviderCapabilities)
    (a : SigningAlgorithm) : bool :=
  binary_search (spc_algorithms self) a.

(** [bounded_bytes!] and [bounded_secret_bytes!]. *)
Definition bounded_bytes_new (max_len : Z) (value : list Z) : result ValueError (list Z) :=
  if Z.of_nat (length value) =? 0 then Err Empty
  else if max_len <? Z.of_nat (length value) then Err TooLong
  else Ok value.

Definition OperationId_new := bounded_bytes_new 256.
Definition OpaqueHandle_new := bounded_bytes_new 65536.
Definition OpaqueEnvelope_new := bounded_bytes_new 65536.
Definition SigningInput_new := bounded_bytes_new 65536.

Definition RequestFingerprint_new (value : list Z) : result ValueError (list Z) :=
  if Z.of_nat (length value) =? 32 then Ok value else Err InvalidLength.

Definition SigningPublicKey_new (algorithm : SigningAlgorithm) (bs : list Z) :
    result ValueError (SigningAlgorithm * list Z) :=
  match algorithm with
  | Ed25519 => if Z.of_nat (length bs) =? 32 then Ok (algorithm, bs) else Err InvalidLength
  end.

Definition Signature_new (algorithm : SigningAlgorithm) (bs : list Z) :
    result ValueError (SigningAlgorithm * list Z) :=
  match algorithm with
  | Ed25519 => if Z.of_nat (length bs) =? 64 then Ok (algorithm, bs) else Err InvalidLength
  end.

(** ** [context.rs] *)
Definition identifier_class (b : Z) : bool :=
  is_ascii_alphanumeric b || (b =? 0x2E) || (b =? 0x5F) || (b =? 0x3A) || (b =? 0x2D).

(** [context_identifier!(.., 128)]. *)
Definition context_identifier_new (value : string) : result ValueError string :=
  bounded_class 128 identifier_class value.

(** [validate_label] with [MAX_LEN = 64]. *)
Definition validate_label (value : string) (max_len : Z) : result ValueError string :=
  bounded_class max_len label_class value.

Definition context_label_new (value : string) : result ValueError string :=
  validate_label value 64.

Inductive ContextVersion := V1.
Definition ContextVersion_get (v : ContextVersion) : Z := match v with V1 => 1 end.
Definition ContextVersion_try_from (value : Z) : result ValueError ContextVersion :=
  if value =? 1 then Ok V1 else Err InvalidValue.

Inductive Scope := Deployment | ProjectScope (project_id : string).
Inductive MaterialKind := SigningKeyMaterial | ConfigurationSecret.

Record ProtectionContextParts := mkProtectionContextParts {
  version : ContextVersion;
  deployment_id : string;
  scope : Scope;
  material_id : string;
  material_kind : MaterialKind;
  owner_kind : string;
  owner_id : string;
  generation : Z;
  field_purpose : string;
  provider_id : ProviderId;
  provider_format_version : Z
}.

Definition ProtectionContextParts_validate (self : ProtectionContextParts) :
    result ValueError unit :=
  if generation self =? 0 then Err InvalidValue else Ok tt.

(** ["owlauth-key-provider-context\0"]. *)
Definition CONTEXT_DOMAIN : list Z := bytes "owlauth-key-provider-context" ++ [0].

Definition u32_max : Z := 2 ^ 32 - 1.

(** [push_field]: the buffer is returned extended. *)
Definition push_field (output : list Z) (tag : Z) (value : list Z) :
    result ValueError (list Z) :=
  if u32_max <? Z.of_nat (length value) then Err TooLong
  else Ok (output ++ [tag] ++ be_bytes 4 (Z.of_nat (length value)) ++ value).

Definition material_kind_byte (k : MaterialKind) : Z :=
  match k with
  | SigningKeyMaterial => 1
  | ConfigurationSecret => 2
  end.

Definition encode_v1 (parts : ProtectionContextParts) : result ValueError (list Z) :=
  let output := CONTEXT_DOMAIN ++ be_bytes 2 (ContextVersion_get (version parts)) in
  output <-? push_field output 1 (bytes (deployment_id parts)) ;;
  output <-?
    match scope parts with
    | Deployment => push_field output 2 [0]
    | ProjectScope project_id =>
        output <-? push_field output 2 [1] ;;
        push_field output 3 (bytes project_id)
    end ;;
  output <-? push_field output 4 (bytes (material_id parts)) ;;
  output <-? push_field output 5 [material_kind_byte (material_kind parts)] ;;
  output <-? push_field output 6 (bytes (owner_kind parts)) ;;
  output <-? push_field output 7 (bytes (owner_id parts)) ;;
  output <-? push_field output 8 (be_bytes 8 (generation parts)) ;;
  output <-? push_field output 9 (bytes (field_purpose parts)) ;;
  output <-? push_field output 10 (bytes (ProviderId_as_str (provider_id parts))) ;;
  push_field output 11 (be_bytes 2 (provider_format_version parts)).

Record ProtectionContext := mkProtectionContext {
  pctx_parts : ProtectionContextParts;
  pctx_canonical : list Z
}.

Definition ProtectionContext_MAX_CANONICAL_LEN : Z := 2048.

Definition ProtectionContext_new (parts : ProtectionContextParts) :
    result ValueError ProtectionContext :=
  ProtectionContextParts_validate parts ;;?
  canonical <-? match version parts with V1 => encode_v1 parts end ;;
  if ProtectionContext_MAX_CANONICAL_LEN <? Z.of_nat (length canonical) then Err TooLong
  else Ok (mkProtectionContext parts canonical).

(** * The encoding as a list of fields *)
Definition field_bytes (f : Z * list Z) : list Z :=
  [f.1] ++ be_bytes 4 (Z.of_nat (length f.2)) ++ f.2.

Fixpoint fields_bytes (fs : list (Z * list Z)) : list Z :=
  match fs with
  | [] => []
  | f :: r => field_bytes f ++ fields_bytes r
  end.

Definition scope_fields (s : Scope) : list (Z * list Z) :=
  match s with
  | Deployment => [(2, [0])]
  | ProjectScope project_id => [(2, [1]); (3, bytes project_id)]
  end.

Definition parts_fields (parts : ProtectionContextParts) : list (Z * list Z) :=
  [(1, bytes (deployment_id parts))] ++ scope_fields (scope parts) ++
  [(4, bytes (material_id parts)); (5, [material_kind_byte (material_kind parts)]);
   (6, bytes (owner_kind parts)); (7, bytes (owner_id parts));
   (8, be_bytes 8 (generation parts)); (9, bytes (field_purpose parts));
   (10, bytes (ProviderId_as_str (provider_id parts)));
   (11, be_bytes 2 (provider_format_version parts))].

Definition context_header (parts : ProtectionContextParts) : list Z :=
  CONTEXT_DOMAIN ++ be_bytes 2 (ContextVersion_get (version parts)).

Definition field_fits (f : Z * list Z) : Prop := Z.of_nat (length f.2) <= u32_max.

Lemma push_field_ok output tag value r :
  push_field output tag value = Ok r <->
  field_fits (tag, value) /\ r = output ++ field_bytes (tag, value).
Proof.
  unfold push_field, field_fits, field_bytes; rewrite if_err_ok; cbn [fst snd].
  rewrite Z.ltb_ge; naive_solver.
Qed.

Lemma fields_bytes_app fs gs : fields_bytes (fs ++ gs) = fields_bytes fs ++ fields_bytes gs.
Proof. induction fs as [|f fs IH]; simpl; [done|]; by rewrite IH, <- app_assoc. Qed.

(** The encoder writes the header and then the fields, in order. *)
Lemma encode_v1_ok parts out :
  encode_v1 parts = Ok out <->
  Forall field_fits (parts_fields parts) /\
  out = context_header parts ++ fields_bytes (parts_fields parts).
Proof.
  unfold encode_v1, parts_fields, context_header; rewrite !fields_bytes_app.
  repeat setoid_rewrite rbind_ok; repeat setoid_rewrite push_field_ok.
  destruct (scope parts) as [|pid]; cbn [scope_fields].
  - setoid_rewrite push_field_ok; simpl app; rewrite !Forall_cons.
    split.
    + intros (? & [? ->] & ? & [? ->] & ? & [? ->] & ? & [? ->] & ? & [? ->] & ? & [? ->] &
              ? & [? ->] & ? & [? ->] & ? & [? ->] & ? & ->).
      split; [naive_solver|]; cbn [fields_bytes]; by rewrite <- !app_assoc, ?app_nil_r.
    + intros (? & ->); repeat (eexists; split; [split; [naive_solver|done]|]).
      split; [naive_solver|]; cbn [fields_bytes]; by rewrite <- !app_assoc, ?app_nil_r.
  - repeat setoid_rewrite rbind_ok; repeat setoid_rewrite push_field_ok.
    simpl app; rewrite !Forall_cons.
    split.
    + intros (? & [? ->] & ? & (? & [? ->] & ? & ->) & ? & [? ->] & ? & [? ->] & ? & [? ->] &
              ? & [? ->] & ? & [? ->] & ? & [? ->] & ? & [? ->] & ? & ->).
      split; [naive_solver|]; cbn [fields_bytes]; by rewrite <- !app_assoc, ?app_nil_r.
    + intros (? & ->).
      eexists; split; [split; [naive_solver|done]|].
      eexists; split; [eexists; split; [split; [naive_solver|done]|split; [naive_solver|done]]|].
      repeat (eexists; split; [split; [naive_solver|done]|]).
      split; [naive_solver|]; cbn [fields_bytes]; by rewrite <- !app_assoc, ?app_nil_r.
Qed.

Lemma field_bytes_inj f g r1 r2 :
  field_fits f -> field_fits g -> field_bytes f ++ r1 = field_bytes g ++ r2 -> f = g /\ r1 = r2.
Proof.
  destruct f as [t1 v1], g as [t2 v2]; unfold field_fits, field_bytes, u32_max; cbn [fst snd].
  intros H1 H2 Heq; rewrite <- !app_assoc in Heq.
  apply (app_inj_length [t1] [t2]) in Heq as [[= ->] Hb]; [|done].
  apply app_inj_length in Hb as [Hlen Hb]; [|by rewrite !be_bytes_length].
  apply be_bytes_inj in Hlen; [|simpl; lia..].
  apply app_inj_length in Hb as [-> ->]; [done|lia].
Qed.

Lemma fields_bytes_inj fs gs :
  Forall field_fits fs -> Forall field_fits gs -> fields_bytes fs = fields_bytes gs -> fs = gs.
Proof.
  intros Hf; revert gs; induction Hf as [|f fs Hf Hfs IH]; intros gs Hg Heq.
  - destruct gs as [|g gs]; [done|]; simpl in Heq; destruct g; discriminate Heq.
  - destruct gs as [|g gs]; [simpl in Heq; destruct f; discriminate Heq|].
    apply Forall_cons in Hg as [Hg Hgs]; cbn [fields_bytes] in Heq.
    apply field_bytes_inj in Heq as [-> Heq]; [|done..]; f_equal; auto.
Qed.

(** The Rust types of the two integer fields. *)
Definition parts_typed (p : ProtectionContextParts) : Prop :=
  0 <= generation p < 2 ^ 64 /\ 0 < provider_format_version p < 2 ^ 16.

Lemma parts_fields_inj p q :
  parts_typed p -> parts_typed q -> parts_fields p = parts_fields q -> p = q.
Proof.
  destruct p as [[] d1 s1 m1 k1 ok1 oi1 g1 fp1 [pi1] fv1].
  destruct q as [[] d2 s2 m2 k2 ok2 oi2 g2 fp2 [pi2] fv2].
  unfold parts_typed, parts_fields; cbn [deployment_id scope material_id material_kind
    owner_kind owner_id generation field_purpose provider_id provider_format_version
    ProviderId_as_str].
  intros [Hg1 Hf1] [Hg2 Hf2] Heq.
  assert (Hs : s1 = s2).
  { destruct s1 as [|p1], s2 as [|p2]; cbn [scope_fields app] in Heq;
      try discriminate Heq; [done|].
    assert (Hp : bytes p1 = bytes p2) by congruence; by apply bytes_inj in Hp as ->. }
  subst s2; apply (f_equal (skipn (S (length (scope_fields s1))))) in Heq as Htail.
  injection Heq as Hd _; apply bytes_inj in Hd as ->.
  destruct s1 as [|p1]; cbn [scope_fields app length skipn] in Htail.
  all: assert (Hm : bytes m1 = bytes m2) by congruence.
  all: assert (Hk : material_kind_byte k1 = material_kind_byte k2) by congruence.
  all: assert (Hok : bytes ok1 = bytes ok2) by congruence.
  all: assert (Hoi : bytes oi1 = bytes oi2) by congruence.
  all: assert (Hg : be_bytes 8 g1 = be_bytes 8 g2) by congruence.
  all: assert (Hfp : bytes fp1 = bytes fp2) by congruence.
  all: assert (Hpi : bytes pi1 = bytes pi2) by congruence.
  all: assert (Hfv : be_bytes 2 fv1 = be_bytes 2 fv2) by congruence.
  all: apply bytes_inj in Hm, Hok, Hoi, Hfp, Hpi; subst.
  all: apply be_bytes_inj in Hg; [|simpl; lia..].
  all: apply be_bytes_inj in Hfv; [|simpl; lia..].
  all: subst; destruct k1, k2; done.
Qed.

Definition canonical_bytes (p : ProtectionContextParts) : list Z :=
  context_header p ++ fields_bytes (parts_fields p).

Lemma ProtectionContext_new_ok p c :
  ProtectionContext_new p = Ok c <->
  generation p <> 0 /\ Forall field_fits (parts_fields p) /\
  Z.of_nat (length (canonical_bytes p)) <= ProtectionContext_MAX_CANONICAL_LEN /\
  c = mkProtectionContext p (canonical_bytes p).
Proof.
  unfold ProtectionContext_new, ProtectionContextParts_validate, canonical_bytes.
  destruct (version p) eqn:Hv; rewrite rbind_ok; setoid_rewrite if_err_ok.
  setoid_rewrite rbind_ok; setoid_rewrite if_err_ok; setoid_rewrite encode_v1_ok.
  setoid_rewrite Z.eqb_neq; setoid_rewrite Z.ltb_ge; split.
  - intros ([] & [? _] & out & [? ->] & ? & [= <-]); done.
  - intros (? & ? & ? & ->); exists tt; split; [done|]; eexists; split; [done|]; done.
Qed.

Lemma canonical_bytes_inj p q :
  parts_typed p -> parts_typed q ->
  Forall field_fits (parts_fields p) -> Forall field_fits (parts_fields q) ->
  canonical_bytes p = canonical_bytes q -> p = q.
Proof.
  intros Tp Tq Fp Fq; unfold canonical_bytes, context_header.
  destruct (version p), (version q); intros Heq%app_inv_head.
  by apply parts_fields_inj, fields_bytes_inj.
Qed.

(** * Properties *)

(** The canonical context bytes determine the context: two contexts with the
    same encoding agree in deployment, scope, material, owner, generation,
    purpose, provider and format version, so material authenticated against one
    context can never be presented under another. *)
Theorem protection_context_injective (p q : ProtectionContextParts)
    (cp cq : ProtectionContext) :
  parts_typed p -> parts_typed q ->
  ProtectionContext_new p = Ok cp -> ProtectionContext_new q = Ok cq ->
  pctx_canonical cp = pctx_canonical cq -> p = q.
Proof.
  intros Tp Tq (_ & Fp & _ & ->)%ProtectionContext_new_ok (_ & Fq & _ & ->)%ProtectionContext_new_ok.
  cbn [pctx_canonical]; by apply canonical_bytes_inj.
Qed.

Definition example_parts (s : Scope) : ProtectionContextParts := {|
  version := V1;
  deployment_id := "instance-1";
  scope := s;
  material_id := "018f-material";
  material_kind := ConfigurationSecret;
  owner_kind := "provider.client";
  owner_id := "018f-owner";
  generation := 7;
  field_purpose := "client-secret";
  provider_id := mkProviderId "software";
  provider_format_version := 1
|}.

Lemma protection_context_injective_witness :
  exists cp, ProtectionContext_new (example_parts Deployment) = Ok cp /\
    example_parts Deployment = example_parts Deployment.
Proof.
  eexists; split; [vm_compute; reflexivity|].
  eapply (protection_context_injective (example_parts Deployment) (example_parts Deployment));
    [split; simpl; lia|split; simpl; lia|vm_compute; reflexivity..|reflexivity].
Defined.

(** The parts whose components all came from their constructors. *)
Definition parts_constructed (p : ProtectionContextParts) : Prop :=
  (exists r, context_identifier_new r = Ok (deployment_id p)) /\
  (forall i, scope p = ProjectScope i -> exists r, context_identifier_new r = Ok i) /\
  (exists r, context_identifier_new r = Ok (material_id p)) /\
  (exists r, context_label_new r = Ok (owner_kind p)) /\
  (exists r, context_identifier_new r = Ok (owner_id p)) /\
  (exists r, context_label_new r = Ok (field_purpose p)) /\
  (exists r, ProviderId_new r = Ok (provider_id p)).

Lemma bounded_class_len max cls r v : bounded_class max cls r = Ok v -> 0 < str_len v <= max.
Proof. unfold bounded_class; intros H; inv_ok; bool_prop; lia. Qed.

Lemma ProviderId_new_len r v : ProviderId_new r = Ok v -> str_len (ProviderId_as_str v) <= 64.
Proof. unfold ProviderId_new; intros H; inv_ok; simpl; bool_prop; lia. Qed.

Lemma field_bytes_length f : Z.of_nat (length (field_bytes f)) = 5 + Z.of_nat (length f.2).
Proof.
  unfold field_bytes; rewrite !length_app, be_bytes_length; simpl; lia.
Qed.

Lemma parts_constructed_sizes p :
  parts_constructed p ->
  Forall (fun f => Z.of_nat (length f.2) <= 128) (parts_fields p).
Proof.
  intros ((?&H1) & H2 & (?&H3) & (?&H4) & (?&H5) & (?&H6) & (?&H7)).
  apply bounded_class_len in H1, H3, H4, H5, H6; apply ProviderId_new_len in H7.
  unfold parts_fields; rewrite !str_len_bytes in *.
  repeat first [rewrite Forall_app | rewrite Forall_cons | rewrite Forall_nil];
    cbn [fst snd]; rewrite !be_bytes_length; simpl length.
  repeat split; try lia.
  destruct (scope p) as [|i]; cbn [scope_fields]; repeat constructor; simpl; try lia.
  destruct (H2 i eq_refl) as [? Hi]; apply bounded_class_len in Hi.
  rewrite str_len_bytes in Hi; lia.
Qed.

Lemma fields_bytes_length_le fs n :
  Forall (fun f => Z.of_nat (length f.2) <= n) fs ->
  Z.of_nat (length (fields_bytes fs)) <= Z.of_nat (length fs) * (n + 5).
Proof.
  induction 1 as [|f fs Hf Hfs IH]; [simpl; lia|]; cbn [fields_bytes].
  rewrite length_app, Nat2Z.inj_add, field_bytes_length; simpl length; lia.
Qed.

(** For components that passed their own constructors, building a context
    fails in one case only, a zero generation: the length and size checks of
    the encoder can never fire. *)
Theorem protection_context_total (p : ProtectionContextParts) :
  parts_constructed p ->
  ProtectionContext_new p =
  if generation p =? 0 then Err InvalidValue
  else Ok (mkProtectionContext p (canonical_bytes p)).
Proof.
  intros Hc; pose proof (parts_constructed_sizes p Hc) as Hs.
  destruct (generation p =? 0) eqn:Hg.
  - unfold ProtectionContext_new, ProtectionContextParts_validate; by rewrite Hg.
  - apply ProtectionContext_new_ok; split; [by apply Z.eqb_neq|]; split; [|split; [|done]].
    + eapply Forall_impl; [exact Hs|]; unfold field_fits, u32_max; simpl; lia.
    + pose proof (fields_bytes_length_le _ _ Hs) as Hl.
      unfold canonical_bytes, context_header, ProtectionContext_MAX_CANONICAL_LEN.
      rewrite !length_app, be_bytes_length.
      change (length CONTEXT_DOMAIN) with 29%nat.
      assert (length (parts_fields p) <= 11)%nat.
      { unfold parts_fields; destruct (scope p); simpl; lia. }
      lia.
Qed.

Lemma protection_context_total_witness :
  ProtectionContext_new (example_parts Deployment) =
  Ok (mkProtectionContext (example_parts Deployment) (canonical_bytes (example_parts Deployment))).
Proof.
  apply (protection_context_total (example_parts Deployment)).
  split; [by exists "instance-1"%string|]; split; [done|].
  split; [by exists "018f-material"%string|]; split; [by exists "provider.client"%string|].
  split; [by exists "018f-owner"%string|]; split; [by exists "client-secret"%string|].
  by exists "software"%string.
Defined.

(** A format-version set holds exactly the versions it was built from, in
    strictly increasing order, and the binary search of [contains] decides
    membership in them. *)
Theorem format_versions_contains (values : list Z) (s : ProviderFormatVersions) (v : Z) :
  ProviderFormatVersions_new values = Ok s ->
  (ProviderFormatVersions_contains s v = true <-> v ∈ values) /\
  NoDup values /\ StronglySorted lt_ord (pfv_as_slice s) /\ (1 <= length values <= 16)%nat.
Proof.
  unfold ProviderFormatVersions_new; intros H; inv_ok; bool_prop.
  assert (Hs : StronglySorted lt_ord (bt_collect values)) by apply bt_collect_sorted.
  unfold ProviderFormatVersions_contains; cbn [pfv_as_slice].
  split; [rewrite binary_search_elem by done; apply bt_collect_elem|].
  split; [apply bt_collect_length_nodup; lia|]; split; [done|lia].
Qed.

Lemma format_versions_contains_witness :
  exists s, ProviderFormatVersions_new [3; 1; 2] = Ok s /\
    (ProviderFormatVersions_contains s 2 = true <-> 2 ∈ [3; 1; 2]).
Proof.
  eexists; split; [vm_compute; reflexivity|].
  apply (format_versions_contains [3; 1; 2]); vm_compute; reflexivity.
Defined.

(** The encoding of [canonical_context_is_stable_and_length_delimited]. *)
Example canonical_context_golden :
  canonical_bytes (example_parts (ProjectScope "018f-project")) =
  bytes "owlauth-key-provider-context" ++ [0; 0; 1; 1; 0; 0; 0; 10] ++ bytes "instance-1" ++
  [2; 0; 0; 0; 1; 1; 3; 0; 0; 0; 12] ++ bytes "018f-project" ++ [4; 0; 0; 0; 13] ++
  bytes "018f-material" ++ [5; 0; 0; 0; 1; 2; 6; 0; 0; 0; 15] ++ bytes "provider.client" ++
  [7; 0; 0; 0; 10] ++ bytes "018f-owner" ++ [8; 0; 0; 0; 8; 0; 0; 0; 0; 0; 0; 0; 7; 9; 0; 0; 0; 13]
  ++ bytes "client-secret" ++ [10; 0; 0; 0; 8] ++ bytes "software" ++ [11; 0; 0; 0; 2; 0; 1].
Proof. vm_compute; reflexivity. Qed.
