(* ===== verification/UrlValues.v ===== *)
(** * URL-valued domain types

    [domain/application.rs] (redirect URIs and browser origins),
    [domain/provider.rs] (provider origins and the egress policy),
    [domain/webhook.rs] (endpoint URLs) and [domain/identity.rs] (profile
    pictures).  The [url] crate is not part of the repository: it is the class
    [UrlLib], an argument of every definition here, whose fields are the
    accessors the source calls.  [std::net] addresses, their parser and their
    [Display] are modelled. *)
From Stdlib Require Import Sorting.Sorted.
From S2P Require Import Prelude.
From S2P Require Import BTree.
From S2P Require Import Lifecycle.
From S2P Require Import Values.
From S2P Require Import Managed.

(** ** [std::net]: an IPv4 address is four octets, an IPv6 address eight
    16-bit segments. *)
Inductive IpAddr :=
| V4 (octets : list Z)
| V6 (segments : list Z).

Definition ip_is_loopback (ip : IpAddr) : bool :=
  match ip with
  | V4 (o :: _) => o =? 127
  | V4 [] => false
  | V6 segs => bool_decide (segs = [0; 0; 0; 0; 0; 0; 0; 1])
  end.

(** Parsers consume a prefix of the input. *)
Definition parser (A : Type) : Type := list Z -> option (A * list Z).

Definition to_digit (radix b : Z) : option Z :=
  let d :=
    if is_ascii_digit b then b - 0x30
    else if is_ascii_lowercase b then b - 0x61 + 10
    else if is_ascii_uppercase b then b - 0x41 + 10
    else radix in
  if d <? radix then Some d else None.

(** The digit loop of [read_number]: [None] on too many digits or overflow of
    the target type. *)
Fixpoint read_digits (radix max_digits limit count acc : Z) (l : list Z) :
    option (Z * Z * list Z) :=
  match l with
  | [] => Some (count, acc, [])
  | b :: r =>
      match to_digit radix b with
      | None => Some (count, acc, l)
      | Some d =>
          let acc' := acc * radix + d in
          if limit <? acc' then None
          else if max_digits <? count + 1 then None
          else read_digits radix max_digits limit (count + 1) acc' r
      end
  end.

Definition read_number (radix max_digits limit : Z) (allow_zero_prefix : bool) : parser Z :=
  fun l =>
    let has_leading_zero := match l with b :: _ => b =? 0x30 | [] => false end in
    match read_digits radix max_digits limit 0 0 l with
    | None => None
    | Some (count, v, r) =>
        if count =? 0 then None
        else if negb allow_zero_prefix && has_leading_zero && (1 <? count) then None
        else Some (v, r)
    end.

Definition read_given_char (c : Z) : parser unit :=
  fun l => match l with
           | b :: r => if b =? c then Some (tt, r) else None
           | [] => None
           end.

(** [read_separator]: the separator precedes every element but the first. *)
Definition read_separator {A : Type} (sep : Z) (index : nat) (p : parser A) : parser A :=
  fun l =>
    match index with
    | O => p l
    | S _ => match read_given_char sep l with
             | Some (_, r) => p r
             | None => None
             end
    end.

Definition read_octet : parser Z := read_number 10 3 255 false.

Definition read_ipv4_addr : parser (list Z) :=
  fun l =>
    match read_separator 0x2E 0 read_octet l with
    | None => None
    | Some (a, l1) =>
        match read_separator 0x2E 1 read_octet l1 with
        | None => None
        | Some (b, l2) =>
            match read_separator 0x2E 2 read_octet l2 with
            | None => None
            | Some (c, l3) =>
                match read_separator 0x2E 3 read_octet l3 with
                | None => None
                | Some (d, l4) => Some ([a; b; c; d], l4)
                end
            end
        end
    end.

(** [read_groups]: up to [limit] groups, the last two of which may be an
    embedded IPv4 address; [true] reports such an ending. *)
Fixpoint read_groups (fuel i limit : nat) (acc : list Z) (l : list Z) : list Z * bool * list Z :=
  match fuel with
  | O => (acc, false, l)
  | S f =>
      let v4 :=
        if Nat.ltb i (limit - 1) then read_separator 0x3A i read_ipv4_addr l else None in
      match v4 with
      | Some ([a; b; c; d], r) => (acc ++ [a * 256 + b; c * 256 + d], true, r)
      | _ =>
          match read_separator 0x3A i (read_number 16 4 0xFFFF true) l with
          | Some (g, r) => read_groups f (S i) limit (acc ++ [g]) r
          | None => (acc, false, l)
          end
      end
  end.

Definition read_ipv6_addr : parser (list Z) :=
  fun l =>
    let '(hd, hd_ipv4, r) := read_groups 8 0 8 [] l in
    if Nat.eqb (length hd) 8 then Some (hd, r)
    else if hd_ipv4 then None
    else
      match read_given_char 0x3A r with
      | None => None
      | Some (_, r1) =>
          match read_given_char 0x3A r1 with
          | None => None
          | Some (_, r2) =>
              let limit := (8 - (length hd + 1))%nat in
              let '(tl, _, r3) := read_groups limit 0 limit [] r2 in
              Some (hd ++ replicate (8 - length hd - length tl) 0 ++ tl, r3)
          end
      end.

(** [str::parse::<IpAddr>]: the whole input must be consumed. *)
Definition parse_ip_addr (s : string) : option IpAddr :=
  let l := bytes s in
  match read_ipv4_addr l with
  | Some (o, []) => Some (V4 o)
  | Some (_, _ :: _) => None
  | None =>
      match read_ipv6_addr l with
      | Some (g, []) => Some (V6 g)
      | _ => None
      end
  end.

(** ** [Display] of addresses and ports *)
Fixpoint digits_of (fuel : nat) (radix v : Z) (acc : string) : string :=
  match fuel with
  | O => acc
  | S f =>
      let d := v mod radix in
      let c := Ascii.ascii_of_N (Z.to_N (if d <? 10 then 0x30 + d else 0x61 + d - 10)) in
      let acc' := String c acc in
      if v / radix =? 0 then acc' else digits_of f radix (v / radix) acc'
  end.

Definition show_decimal (v : Z) : string := digits_of 20 10 v EmptyString.
Definition show_hex (v : Z) : string := digits_of 16 16 v EmptyString.

Definition show_ipv4 (o : list Z) : string := String.concat "." (map show_decimal o).

(** The leftmost longest run of at least two zero segments, as (start, length). *)
Fixpoint zero_run (segs : list Z) : nat :=
  match segs with
  | 0 :: r => S (zero_run r)
  | _ => O
  end.

Fixpoint longest_zero_run (i : nat) (segs : list Z) (best : nat * nat) : nat * nat :=
  match segs with
  | [] => best
  | _ :: r =>
      let n := zero_run segs in
      longest_zero_run (S i) r (if Nat.ltb best.2 n then (i, n) else best)
  end.

Definition show_segments (segs : list Z) : string := String.concat ":" (map show_hex segs).

Definition show_ipv6 (segs : list Z) : string :=
  match segs with
  | [0; 0; 0; 0; 0; 0xFFFF; g; h] =>
      String.append "::ffff:" (show_ipv4 [g / 256; g mod 256; h / 256; h mod 256])
  | _ =>
      let '(start, len) := longest_zero_run 0 segs (O, O) in
      if Nat.ltb 1 len then
        String.append (show_segments (take start segs))
          (String.append "::" (show_segments (drop (start + len) segs)))
      else show_segments segs
  end.

(** ** The [url] crate *)
Inductive Host := DomainHost (domain : string) | Ipv4Host (octets : list Z) | Ipv6Host (segments : list Z).

Class UrlLib : Type := {
  Url : Type;
  url_parse : string -> option Url;
  url_as_str : Url -> string;
  url_scheme : Url -> string;
  url_username : Url -> string;
  url_password : Url -> option string;
  url_host_str : Url -> option string;
  url_host : Url -> option Host;
  url_port : Url -> option Z;
  url_path : Url -> string;
  url_query : Url -> option string;
  url_fragment : Url -> option string;
  url_cannot_be_a_base : Url -> bool;
  (** [path_segments_mut()?.pop_if_empty().push(s1)...push(sn)]; [None] when
      the URL cannot be a base. *)
  url_extend_path : Url -> list string -> option Url;
  (** [Url::join]. *)
  url_join : Url -> string -> option Url
}.

Section url_values.
Context `{UrlLib}.

(** ** [domain/application.rs] *)
Definition has_ambiguous_url_bytes (value : string) : bool :=
  contains_byte 0x5C value
  || existsb is_ascii_whitespace (bytes value)
  || contains_str "%2f" (to_ascii_lowercase value)
  || contains_str "%5c" (to_ascii_lowercase value).

Definition is_private_application_scheme (scheme : string) : bool :=
  contains_byte 0x2E scheme
  && negb (bool_decide (scheme ∈ (["about"; "blob"; "data"; "file"; "ftp"; "http"; "https";
       "javascript"; "mailto"; "vbscript"; "ws"; "wss"] : list string)%string)).
End url_values.

Inductive ApplicationType := WebApplication | NativeApplication.
#[global] Instance ApplicationType_eq_dec : EqDecision ApplicationType.
Proof. solve_decision. Defined.

Inductive RedirectType := WebRedirect | LoopbackRedirect | CustomSchemeRedirect.
#[global] Instance RedirectType_eq_dec : EqDecision RedirectType.
Proof. solve_decision. Defined.

Definition ApplicationType_as_str (t : ApplicationType) : string :=
  match t with
  | WebApplication => "web"
  | NativeApplication => "native"
  end.

Definition RedirectType_as_str (t : RedirectType) : string :=
  match t with
  | WebRedirect => "web"
  | LoopbackRedirect => "loopback"
  | CustomSchemeRedirect => "custom_scheme"
  end.

Record RedirectUri := mkRedirectUri { exact : string; kind : RedirectType }.
Record BrowserOrigin := mkBrowserOrigin { BrowserOrigin_into_inner : string }.
Record WebhookEndpointUrl := mkWebhookEndpointUrl { WebhookEndpointUrl_into_inner : string }.
Record ProviderOrigin := mkProviderOrigin { ProviderOrigin_as_str : string }.

Section url_parsers.
Context `{UrlLib}.

(** The [match (application_type, url.scheme(), loopback)] of [parse]. *)
Definition classify_redirect (t : ApplicationType) (url : Url) (loopback : bool) :
    result DomainError RedirectType :=
  match t with
  | WebApplication =>
      if bool_decide (url_scheme url = "https"%string) then Ok WebRedirect
      else if bool_decide (url_scheme url = "http"%string) && loopback then Ok LoopbackRedirect
      else Err InvalidUrl
  | NativeApplication =>
      if bool_decide (url_scheme url = "http"%string) && loopback then Ok LoopbackRedirect
      else if negb loopback && is_private_application_scheme (url_scheme url)
              && is_none (url_host_str url)
      then Ok CustomSchemeRedirect
      else Err InvalidUrl
  end.

Definition redirect_is_loopback (url : Url) : bool :=
  is_some_and (url_host_str url) (fun host =>
    bool_decide (host = "localhost"%string) || is_some_and (parse_ip_addr host) ip_is_loopback).

Definition RedirectUri_parse (value : string) (application_type : ApplicationType) :
    result DomainError RedirectUri :=
  if negb (in_range 8 2048 (str_len value)) || has_ambiguous_url_bytes value
  then Err InvalidUrl
  else
    url <-? ok_or (url_parse value) InvalidUrl ;;
    if negb (bool_decide (url_as_str url = value))
       || negb (is_empty (url_username url))
       || is_some (url_password url)
       || is_some (url_fragment url)
       || is_some_and (url_host_str url) (contains_byte 0x2A)
    then Err InvalidUrl
    else
      let loopback := redirect_is_loopback url in
      kind <-? classify_redirect application_type url loopback ;;
      Ok (mkRedirectUri value kind).

(** [port().map_or_else(String::new, |port| format!(":{port}"))]. *)
Definition show_port (o : option Z) : string :=
  match o with
  | Some port => String.append ":" (show_decimal port)
  | None => EmptyString
  end.

Definition origin_string (scheme host : string) (port : option Z) : string :=
  String.append scheme (String.append "://" (String.append host (show_port port))).

(** [expect("validated origin has a host")] cannot fire: the host was checked. *)
Definition BrowserOrigin_parse (value : string) : result DomainError BrowserOrigin :=
  if negb (in_range 8 512 (str_len value)) || has_ambiguous_url_bytes value
  then Err InvalidUrl
  else
    url <-? ok_or (url_parse value) InvalidUrl ;;
    match url_host_str url with
    | None => Err InvalidUrl
    | Some host =>
        let valid :=
          (bool_decide (url_scheme url = "http"%string)
           || bool_decide (url_scheme url = "https"%string))
          && is_empty (url_username url)
          && is_none (url_password url)
          && is_none (url_query url)
          && is_none (url_fragment url)
          && bool_decide (url_path url = "/"%string)
          && negb (contains_byte 0x2A host) in
        if negb valid then Err InvalidUrl
        else
          let canonical := origin_string (url_scheme url) host (url_port url) in
          if negb (bool_decide (canonical = value)) then Err InvalidUrl
          else Ok (mkBrowserOrigin value)
    end.

(** ** [domain/webhook.rs] *)
Definition MAX_WEBHOOK_URL_LENGTH : Z := 2048.

Definition WebhookEndpointUrl_parse (value : string) : result DomainError WebhookEndpointUrl :=
  if is_empty value || (MAX_WEBHOOK_URL_LENGTH <? str_len value) then Err InvalidUrl
  else
    parsed <-? ok_or (url_parse value) InvalidUrl ;;
    if negb (bool_decide (url_scheme parsed = "https"%string))
       || is_none (url_host_str parsed)
       || negb (is_empty (url_username parsed))
       || is_some (url_password parsed)
       || is_some (url_fragment parsed)
       || negb (bool_decide (url_as_str parsed = value))
    then Err InvalidUrl
    else Ok (mkWebhookEndpointUrl value).

(** ** [domain/identity.rs] *)
Definition ProfilePictureUrl_parse (value : string) : result DomainError ProfilePictureUrl :=
  if negb (in_range 8 2048 (str_len value))
     || contains_byte 0x5C value
     || existsb is_ascii_whitespace (bytes value)
  then Err InvalidUrl
  else
    url <-? ok_or (url_parse value) InvalidUrl ;;
    if negb (bool_decide (url_scheme url = "https"%string))
       || is_none (url_host_str url)
       || negb (is_empty (url_username url))
       || is_some (url_password url)
       || is_some (url_fragment url)
       || is_some_and (url_host_str url) (contains_byte 0x2A)
    then Err InvalidUrl
    else Ok (mkProfilePictureUrl value).

(** ** [domain/provider.rs] *)
Definition show_host (h : Host) : string :=
  match h with
  | DomainHost domain => domain
  | Ipv4Host o => show_ipv4 o
  | Ipv6Host segs => String.append "[" (String.append (show_ipv6 segs) "]")
  end.

Definition canonical_provider_origin (url : Url) (allow_http_loopback : bool) :
    result DomainError string :=
  if negb (is_empty (url_username url)) || is_some (url_password url) then Err InvalidUrl
  else
    host <-? ok_or (url_host url) InvalidUrl ;;
    let secure :=
      if bool_decide (url_scheme url = "https"%string) then true
      else if bool_decide (url_scheme url = "http"%string) && allow_http_loopback then
        match host with
        | Ipv4Host o => ip_is_loopback (V4 o)
        | Ipv6Host segs => ip_is_loopback (V6 segs)
        | DomainHost _ => false
        end
      else false in
    if negb secure then Err InvalidUrl
    else Ok (origin_string (url_scheme url) (show_host host) (url_port url)).

Definition ProviderOrigin_parse (value : string) (allow_http_loopback : bool) :
    result DomainError ProviderOrigin :=
  if negb (in_range 8 512 (str_len value))
     || existsb (fun b => is_ascii_control b || is_ascii_whitespace b) (bytes value)
  then Err InvalidUrl
  else
    url <-? ok_or (url_parse value) InvalidUrl ;;
    if negb (bool_decide (url_path url = "/"%string)) || is_some (url_query url)
       || is_some (url_fragment url)
    then Err InvalidUrl
    else
      canonical <-? canonical_provider_origin url allow_http_loopback ;;
      if negb (bool_decide (canonical = value)) then Err InvalidUrl
      else Ok (mkProviderOrigin canonical).

Definition ProviderOrigin_from_url (url : Url) (allow_http_loopback : bool) :
    result DomainError ProviderOrigin :=
  rmap mkProviderOrigin (canonical_provider_origin url allow_http_loopback).

(** [runtime_base.join("projects/{id}/auth/callback/{key}")]. *)
Definition provider_callback_url (runtime_base : Url) (project_public_id : string)
    (provider_key : ProviderKey) : result DomainError string :=
  match url_join runtime_base
          (String.append "projects/" (String.append project_public_id
             (String.append "/auth/callback/" (ProviderKey_as_str provider_key)))) with
  | Some url => Ok (url_as_str url)
  | None => Err InvalidUrl
  end.
End url_parsers.

(** [derive(Ord)] on the newtype compares the string. *)
#[global, refine] Instance ProviderOrigin_ord : TotalOrd ProviderOrigin :=
  {| cmp := fun a b => str_cmp (ProviderOrigin_as_str a) (ProviderOrigin_as_str b) |}.
Proof.
  - intros [a] [b]; simpl; rewrite str_cmp_eq; naive_solver.
  - intros [a] [b]; apply str_cmp_antisym.
  - intros [a] [b] [c]; apply str_cmp_trans.
Defined.

Record ProviderEgressPolicy := mkProviderEgressPolicy {
  pep_mode : ProviderEgressMode;
  pep_exact_origins : list ProviderOrigin
}.

Definition MAX_PROVIDER_EGRESS_ORIGINS : Z := 1024.

Section egress.
Context `{UrlLib}.

Definition ProviderEgressPolicy_new (mode : ProviderEgressMode) (exact_origins : list string)
    (allow_http_loopback : bool) : result DomainError ProviderEgressPolicy :=
  parsed <-? rmapM (fun o => ProviderOrigin_parse o allow_http_loopback) exact_origins ;;
  let origins := bt_collect parsed in
  match mode with
  | AllowAll =>
      if list_len origins =? 0 then Ok (mkProviderEgressPolicy mode origins)
      else Err InvalidValue
  | ExactOrigins =>
      if in_range 1 MAX_PROVIDER_EGRESS_ORIGINS (list_len origins)
      then Ok (mkProviderEgressPolicy mode origins)
      else Err InvalidValue
  end.
End egress.

(** * Lemmas *)
Lemma is_some_false {A : Type} (o : option A) : is_some o = false <-> o = None.
Proof. destruct o; simpl; naive_solver. Qed.
Lemma is_none_false {A : Type} (o : option A) : is_none o = false <-> exists a, o = Some a.
Proof. destruct o; simpl; naive_solver. Qed.
Lemma is_none_true {A : Type} (o : option A) : is_none o = true <-> o = None.
Proof. destruct o; simpl; naive_solver. Qed.
#[export] Hint Rewrite @is_some_false @is_none_false @is_none_true : owl_bool.

Section url_theory.
Context `{UrlLib}.

Lemma BrowserOrigin_parse_ok value o :
  BrowserOrigin_parse value = Ok o ->
  o = mkBrowserOrigin value /\
  exists url host, url_parse value = Some url /\ url_host_str url = Some host /\
    (url_scheme url = "http"%string \/ url_scheme url = "https"%string) /\
    value = origin_string (url_scheme url) host (url_port url).
Proof.
  unfold BrowserOrigin_parse; intros Hp; inv_ok.
  destruct (url_host_str x) as [host|] eqn:Hh; [|done]; inv_ok.
  split; [done|]; exists x, host; split; [done|]; split; [done|].
  bool_prop; naive_solver.
Qed.

Lemma ProviderOrigin_parse_ok value allow o :
  ProviderOrigin_parse value allow = Ok o -> o = mkProviderOrigin value.
Proof.
  unfold ProviderOrigin_parse; intros Hp; inv_ok.
  bool_prop; naive_solver congruence.
Qed.

Lemma rmapM_provider_origins allow origins parsed :
  rmapM (fun o => ProviderOrigin_parse o allow) origins = Ok parsed ->
  parsed = mkProviderOrigin <$> origins.
Proof.
  rewrite rmapM_ok; induction 1 as [|o p os ps Ho _ IH]; simpl; [done|].
  apply ProviderOrigin_parse_ok in Ho as ->; by rewrite IH.
Qed.
End url_theory.

(** * Properties *)

(** A registered redirect is the exact serialized URL, carries no user
    info and no fragment, and leaves the machine in clear never: plain HTTP is
    accepted only towards a loopback host, HTTPS only for web applications, and
    a custom scheme only for native applications, without a host and outside
    the reserved schemes. *)
Theorem redirect_uri_safe `{UrlLib} (value : string) (t : ApplicationType) (r : RedirectUri) :
  RedirectUri_parse value t = Ok r ->
  exact r = value /\
  exists url, url_parse value = Some url /\ url_as_str url = value /\
    url_username url = EmptyString /\ url_password url = None /\ url_fragment url = None /\
    match kind r with
    | WebRedirect => t = WebApplication /\ url_scheme url = "https"%string
    | LoopbackRedirect => url_scheme url = "http"%string /\ redirect_is_loopback url = true
    | CustomSchemeRedirect =>
        t = NativeApplication /\ url_host_str url = None /\
        is_private_application_scheme (url_scheme url) = true
    end.
Proof.
  unfold RedirectUri_parse; intros Hp; inv_ok; split; [done|].
  exists x; split; [done|].
  assert (url_as_str x = value /\ url_username x = EmptyString /\ url_password x = None /\
          url_fragment x = None) as (? & ? & ? & ?) by (bool_prop; naive_solver).
  repeat (split; [done|]); cbn [kind].
  unfold classify_redirect in *; destruct t.
  - destruct (bool_decide (url_scheme x = "https"%string)) eqn:Hs; inv_ok; [by bool_prop|].
    destruct (_ && _) eqn:Hl; inv_ok; by bool_prop.
  - destruct (_ && redirect_is_loopback x) eqn:Hl; inv_ok; [by bool_prop|].
    destruct (_ && _ && _) eqn:Hc; inv_ok; bool_prop; naive_solver.
Qed.

(** A two-entry URL library, enough to instantiate the class. *)
Record ToyUrl := mkToyUrl {
  toy_text : string;
  toy_scheme : string;
  toy_host : option string;
  toy_path : string
}.

Definition toy_table : list ToyUrl :=
  [ mkToyUrl "https://app.example/callback" "https" (Some "app.example"%string) "/callback";
    mkToyUrl "https://app.example" "https" (Some "app.example"%string) "/";
    mkToyUrl "http://127.0.0.1/callback" "http" (Some "127.0.0.1"%string) "/callback";
    mkToyUrl "com.example.app:/callback" "com.example.app" None "/callback" ].

#[local] Instance toy_url_lib : UrlLib := {|
  Url := ToyUrl;
  url_parse s := head (filter (fun u => toy_text u = s) toy_table);
  url_as_str := toy_text;
  url_scheme := toy_scheme;
  url_username _ := EmptyString;
  url_password _ := None;
  url_host_str := toy_host;
  url_host u := DomainHost <$> toy_host u;
  url_port _ := None;
  url_path := toy_path;
  url_query _ := None;
  url_fragment _ := None;
  url_cannot_be_a_base u := is_none (toy_host u);
  url_extend_path u segs :=
    Some (mkToyUrl (String.append (toy_text u) (String.append "/" (String.concat "/" segs)))
            (toy_scheme u) (toy_host u) (String.append "/" (String.concat "/" segs)));
  url_join u s := Some (mkToyUrl (String.append (toy_text u) s) (toy_scheme u) (toy_host u) s)
|}.

Lemma redirect_uri_safe_witness :
  exists r, RedirectUri_parse "http://127.0.0.1/callback" NativeApplication = Ok r /\
    exact r = "http://127.0.0.1/callback"%string.
Proof.
  eexists; split; [vm_compute; reflexivity|].
  eapply (redirect_uri_safe "http://127.0.0.1/callback" NativeApplication);
    vm_compute; reflexivity.
Defined.

(** An address in brackets never parses as an IP address, so a redirect
    whose host is a bracketed IPv6 literal, loopback included, is never treated
    as loopback. *)
Theorem bracketed_host_not_loopback `{UrlLib} (url : Url) (host : string) :
  url_host_str url = Some (String "[" host) -> redirect_is_loopback url = false.
Proof.
  intros Hh; unfold redirect_is_loopback; rewrite Hh; cbn [is_some_and].
  assert (parse_ip_addr (String "[" host) = None) as ->; [reflexivity|done].
Qed.

Lemma bracketed_host_not_loopback_witness :
  redirect_is_loopback (mkToyUrl "http://[::1]/cb" "http" (Some "[::1]"%string) "/cb") = false.
Proof. apply (bracketed_host_not_loopback _ "::1]"); reflexivity. Defined.

(** Browser origins are canonical: two registered origins whose URLs agree
    in scheme, host and port are the same string, so an origin has one spelling
    in the allowlist. *)
Theorem browser_origin_canonical `{UrlLib} (v1 v2 : string) (o1 o2 : BrowserOrigin)
    (u1 u2 : Url) :
  BrowserOrigin_parse v1 = Ok o1 -> BrowserOrigin_parse v2 = Ok o2 ->
  url_parse v1 = Some u1 -> url_parse v2 = Some u2 ->
  url_scheme u1 = url_scheme u2 -> url_host_str u1 = url_host_str u2 ->
  url_port u1 = url_port u2 -> o1 = o2.
Proof.
  intros (-> & x1 & h1 & Hp1 & Hh1 & _ & Hv1)%BrowserOrigin_parse_ok
         (-> & x2 & h2 & Hp2 & Hh2 & _ & Hv2)%BrowserOrigin_parse_ok Hu1 Hu2 Hs Hh Hport.
  rewrite Hu1 in Hp1; rewrite Hu2 in Hp2; simplify_eq.
  rewrite Hh1, Hh2 in Hh; simplify_eq; by rewrite Hs, Hport.
Qed.

Lemma browser_origin_canonical_witness :
  exists o, BrowserOrigin_parse "https://app.example" = Ok o /\ o = o.
Proof.
  eexists; split; [vm_compute; reflexivity|].
  eapply (browser_origin_canonical "https://app.example" "https://app.example");
    try (vm_compute; reflexivity); reflexivity.
Defined.

(** An egress policy keeps exactly the configured origins, sorted and
    without duplicates; the unrestricted mode has none and the restricted mode
    between 1 and 1024 distinct ones, so no policy is silently empty. *)
Theorem egress_policy_exact `{UrlLib} (mode : ProviderEgressMode) (origins : list string)
    (allow : bool) (p : ProviderEgressPolicy) :
  ProviderEgressPolicy_new mode origins allow = Ok p ->
  pep_mode p = mode /\
  (forall o, o ∈ pep_exact_origins p <-> ProviderOrigin_as_str o ∈ origins) /\
  StronglySorted lt_ord (pep_exact_origins p) /\
  match mode with
  | AllowAll => origins = []
  | ExactOrigins => 1 <= list_len (pep_exact_origins p) <= 1024
  end.
Proof.
  unfold ProviderEgressPolicy_new; intros Hp; inv_ok.
  apply rmapM_provider_origins in H0; subst x.
  set (l := bt_collect (mkProviderOrigin <$> origins)) in *.
  assert (Hel : forall o, o ∈ l <-> ProviderOrigin_as_str o ∈ origins).
  { intros [o]; unfold l; rewrite bt_collect_elem, list_elem_of_fmap; naive_solver. }
  assert (Hs : StronglySorted lt_ord l) by apply bt_collect_sorted.
  destruct mode.
  - destruct (list_len l =? 0) eqn:Hl; inv_ok; split; [done|]; split; [done|]; split; [done|].
    apply Z.eqb_eq in Hl; unfold list_len in Hl.
    assert (l = []) as Hnil by (destruct l; [done|simpl in Hl; lia]).
    unfold l in Hnil; apply bt_collect_nil, fmap_nil_inv in Hnil; done.
  - destruct (in_range 1 _ (list_len l)) eqn:Hl; inv_ok.
    split; [done|]; split; [done|]; split; [done|]; by apply in_range_true in Hl.
Qed.

Lemma egress_policy_exact_witness :
  exists p, ProviderEgressPolicy_new ExactOrigins ["https://app.example"%string] false = Ok p /\
    pep_mode p = ExactOrigins.
Proof.
  eexists; split; [vm_compute; reflexivity|].
  eapply (egress_policy_exact ExactOrigins ["https://app.example"%string] false).
  vm_compute; reflexivity.
Defined.
