(* ===== verification/Webhooks.v ===== *)
(** * Webhook values: [domain/webhook.rs]

    Event types, the canonical subscription set, endpoint statuses and the
    classification of delivery outcomes. *)
From Stdlib Require Import Sorting.Sorted.
From S2P Require Import Prelude.
From S2P Require Import BTree.
From S2P Require Import Lifecycle.

Definition MAX_WEBHOOK_ENDPOINTS_PER_APPLICATION : Z := 8.
Definition MAX_WEBHOOK_EVENT_TYPES : Z := 3.
Definition MAX_WEBHOOK_DELIVERY_ATTEMPTS : Z := 12.

Module UserEvent.
Inductive ApplicationUserEventType := Created | Updated | Disabled.
#[global] Instance ApplicationUserEventType_eq_dec : EqDecision ApplicationUserEventType.
Proof. solve_decision. Defined.

Definition ApplicationUserEventType_as_str (e : ApplicationUserEventType) : string :=
  match e with
  | Created => "user.projection.created"
  | Updated => "user.projection.updated"
  | Disabled => "user.projection.disabled"
  end.

Definition ApplicationUserEventType_parse (value : string) :
    result DomainError ApplicationUserEventType :=
  if bool_decide (value = "user.projection.created"%string) then Ok Created
  else if bool_decide (value = "user.projection.updated"%string) then Ok Updated
  else if bool_decide (value = "user.projection.disabled"%string) then Ok Disabled
  else Err InvalidValue.

(** [derive(Ord)]: declaration order. *)
Definition event_position (e : ApplicationUserEventType) : Z :=
  match e with
  | Created => 0
  | Updated => 1
  | Disabled => 2
  end.

Lemma event_position_inj x y : event_position x = event_position y -> x = y.
Proof. by destruct x, y. Qed.
End UserEvent.
Import UserEvent.

#[global] Instance ApplicationUserEventType_ord : TotalOrd ApplicationUserEventType :=
  enum_ord event_position event_position_inj.

Record WebhookSubscriptions := mkWebhookSubscriptions {
  subscribed : list ApplicationUserEventType
}.

Definition WebhookSubscriptions_parse (values : list string) :
    result DomainError WebhookSubscriptions :=
  if (Z.of_nat (length values) =? 0) || (MAX_WEBHOOK_EVENT_TYPES <? Z.of_nat (length values))
  then Err InvalidValue
  else
    parsed <-? rmapM ApplicationUserEventType_parse values ;;
    let set := bt_collect parsed in
    if Z.of_nat (length set) =? 0 then Err InvalidValue
    else Ok (mkWebhookSubscriptions set).

Definition WebhookSubscriptions_into_strings (self : WebhookSubscriptions) : list string :=
  map ApplicationUserEventType_as_str (subscribed self).

Module Endpoint.
Inductive WebhookEndpointStatus := Pending | Active | Disabled.
#[global] Instance WebhookEndpointStatus_eq_dec : EqDecision WebhookEndpointStatus.
Proof. solve_decision. Defined.

Definition WebhookEndpointStatus_parse (value : string) :
    result DomainError WebhookEndpointStatus :=
  if bool_decide (value = "pending"%string) then Ok Pending
  else if bool_decide (value = "active"%string) then Ok Active
  else if bool_decide (value = "disabled"%string) then Ok Disabled
  else Err InvalidValue.

Definition WebhookEndpointStatus_can_activate (s : WebhookEndpointStatus) : bool :=
  match s with
  | Pending => true
  | _ => false
  end.

Definition WebhookEndpointStatus_can_disable (s : WebhookEndpointStatus) : bool :=
  match s with
  | Pending | Active => true
  | _ => false
  end.
End Endpoint.

Module Delivery.
Inductive WebhookDeliveryOutcome := Accepted | Transient | Ambiguous | Permanent.
#[global] Instance WebhookDeliveryOutcome_eq_dec : EqDecision WebhookDeliveryOutcome.
Proof. solve_decision. Defined.

Definition WebhookDeliveryOutcome_from_http_status (status : Z) : WebhookDeliveryOutcome :=
  if in_range 200 299 status then Accepted
  else if existsb (Z.eqb status) [408; 425; 429; 500; 502; 503; 504] then Transient
  else Permanent.

Definition WebhookDeliveryOutcome_as_str (o : WebhookDeliveryOutcome) : string :=
  match o with
  | Accepted => "accepted"
  | Transient => "transient"
  | Ambiguous => "ambiguous"
  | Permanent => "permanent"
  end.

Definition WebhookDeliveryOutcome_retryable (o : WebhookDeliveryOutcome) : bool :=
  match o with
  | Transient | Ambiguous => true
  | _ => false
  end.
End Delivery.

(** * Properties *)
Lemma event_parse_as_str e :
  ApplicationUserEventType_parse (ApplicationUserEventType_as_str e) = Ok e.
Proof. by destruct e. Qed.

Lemma event_parse_ok v e :
  ApplicationUserEventType_parse v = Ok e -> v = ApplicationUserEventType_as_str e.
Proof.
  unfold ApplicationUserEventType_parse; intros H.
  repeat case_bool_decide; by simplify_eq.
Qed.

Lemma rmapM_event_strings l :
  rmapM ApplicationUserEventType_parse (map ApplicationUserEventType_as_str l) = Ok l.
Proof.
  apply rmapM_ok; induction l as [|e l IH]; simpl; constructor; [apply event_parse_as_str|done].
Qed.

(** Three event types leave room for at most three distinct ones. *)
Lemma events_nodup_length (l : list ApplicationUserEventType) : NoDup l -> (length l <= 3)%nat.
Proof.
  intros Hnd; change 3%nat with (length [Created; Updated; Disabled]).
  apply submseteq_length, NoDup_submseteq; [done|]; intros [] _; set_solver.
Qed.

(** A subscription set is canonical: it is non-empty, strictly ordered,
    holds exactly the requested event types, and printing it and parsing the
    result gives the same set back, whatever order and repetitions the request
    had. *)
Theorem subscriptions_roundtrip (values : list string) (s : WebhookSubscriptions) :
  WebhookSubscriptions_parse values = Ok s ->
  subscribed s <> [] /\ StronglySorted lt_ord (subscribed s) /\
  (forall e, e ∈ subscribed s <-> ApplicationUserEventType_as_str e ∈ values) /\
  WebhookSubscriptions_parse (WebhookSubscriptions_into_strings s) = Ok s.
Proof.
  unfold WebhookSubscriptions_parse at 1; intros H; inv_ok.
  assert (Hs : StronglySorted lt_ord (bt_collect x)) by apply bt_collect_sorted.
  assert (Hne : bt_collect x <> []) by (intros Hn; rewrite Hn in *; done).
  split; [done|]; split; [done|]; split.
  - intros e; cbn [subscribed]; rewrite bt_collect_elem.
    apply rmapM_ok in H1; clear -H1; induction H1 as [|v e' vs es Hv _ IH]; [set_solver|].
    apply event_parse_ok in Hv as ->; rewrite !elem_of_cons, IH.
    destruct e, e'; naive_solver.
  - unfold WebhookSubscriptions_parse, WebhookSubscriptions_into_strings; cbn [subscribed].
    rewrite rmapM_event_strings, length_map; cbn [rbind].
    assert (Hlen : (length (bt_collect x) <= 3)%nat) by (by apply events_nodup_length, sorted_nodup).
    destruct (bt_collect x) as [|e es] eqn:He; [done|].
    assert (((Z.of_nat (length (e :: es)) =? 0)
             || (MAX_WEBHOOK_EVENT_TYPES <? Z.of_nat (length (e :: es)))) = false) as ->;
      cycle 1.
    { by rewrite (bt_collect_id _ Hs). }
    unfold MAX_WEBHOOK_EVENT_TYPES; bool_prop; simpl in *; lia.
Qed.

Lemma subscriptions_roundtrip_witness :
  exists s, WebhookSubscriptions_parse
      ["user.projection.updated"; "user.projection.created"; "user.projection.updated"]%string
      = Ok s /\ WebhookSubscriptions_parse (WebhookSubscriptions_into_strings s) = Ok s.
Proof.
  eexists; split; [vm_compute; reflexivity|].
  eapply (subscriptions_roundtrip
    ["user.projection.updated"; "user.projection.created"; "user.projection.updated"]%string).
  vm_compute; reflexivity.
Defined.

(** Every HTTP status is classified once: success exactly for 2xx, retry
    exactly for the seven transient statuses, and everything else, redirects
    included, ends the delivery for good. *)
Theorem http_status_classification (status : Z) :
  let o := Delivery.WebhookDeliveryOutcome_from_http_status status in
  (o = Delivery.Accepted <-> 200 <= status <= 299) /\
  (Delivery.WebhookDeliveryOutcome_retryable o = true <->
     status ∈ [408; 425; 429; 500; 502; 503; 504]) /\
  (o = Delivery.Permanent <->
     ~ 200 <= status <= 299 /\ status ∉ [408; 425; 429; 500; 502; 503; 504]).
Proof.
  unfold Delivery.WebhookDeliveryOutcome_from_http_status.
  assert (Hex : existsb (Z.eqb status) [408; 425; 429; 500; 502; 503; 504] = true <->
                status ∈ [408; 425; 429; 500; 502; 503; 504]).
  { rewrite existsb_exists, list_elem_of_In; split.
    - by intros (y & Hy & ->%Z.eqb_eq).
    - intros Hin; exists status; split; [done|apply Z.eqb_refl]. }
  assert (Hdisj : status ∈ [408; 425; 429; 500; 502; 503; 504] -> 299 < status).
  { rewrite !elem_of_cons, elem_of_nil; lia. }
  destruct (in_range 200 299 status) eqn:Hr; [apply in_range_true in Hr|apply in_range_false in Hr].
  { simpl; split; [done|]; split; [|split; [done|]; intros [? _]; lia].
    split; [done|]; intros Hin; specialize (Hdisj Hin); lia. }
  destruct (existsb _ _) eqn:He; simpl; (split; [split; [done|lia]|]); split.
  - split; [intros _; by apply Hex|done].
  - split; [done|]; intros [_ Hn]; exfalso; by apply Hn, Hex.
  - split; [done|]; intros Hin; apply Hex in Hin; congruence.
  - split; [|done]; intros _; split; [lia|]; intros Hin; apply Hex in Hin; congruence.
Qed.
