(* ===== verification/IdentityMutation.v ===== *)
(** * Identity mutation intents: [domain/identity_mutation.rs]

    Linking, unlinking and merging identities is a two-phase protocol: an
    intent with one or two proof slots is created, bound to a browser, its
    slots are proved through a provider or an email challenge, each proof is
    attached as a receipt, the intent becomes ready, and completion consumes
    the receipts.  This file has the whole aggregate: the data, validation of a
    stored aggregate ([restore]), and every mutating operation.

    [Uuid::new_v4] is the parameter [new_v4] (the id given to the slot at each
    position).  The [url] crate comes in through [UrlLib]. *)
From S2P Require Import Prelude.
From S2P Require Import Lifecycle.
From S2P Require Import Values.
From S2P Require Import Managed.
From S2P Require Import UrlValues.

Definition MAX_INTENT_LIFETIME : Z := minutes 10.
Definition MAX_RECEIPT_LIFETIME : Z := minutes 5.
Definition MAX_PROVIDER_PROOF_SCOPES : Z := 16.
Definition INITIAL_BROWSER_BINDING_REVISION : Z := 1.

(** ** Enumerations *)
Inductive IdentityMutationKind := Link | Unlink | Merge.
#[global] Instance IdentityMutationKind_eq_dec : EqDecision IdentityMutationKind.
Proof. solve_decision. Defined.

Definition IdentityMutationKind_as_str (k : IdentityMutationKind) : string :=
  match k with
  | Link => "link"
  | Unlink => "unlink"
  | Merge => "merge"
  end.

Module MutationStatus.
Inductive IdentityMutationStatus := PendingProof | Ready | Completed | Expired | Cancelled.
#[global] Instance IdentityMutationStatus_eq_dec : EqDecision IdentityMutationStatus.
Proof. solve_decision. Defined.

Definition IdentityMutationStatus_as_str (s : IdentityMutationStatus) : string :=
  match s with
  | PendingProof => "pending_proof"
  | Ready => "ready"
  | Completed => "completed"
  | Expired => "expired"
  | Cancelled => "cancelled"
  end.

Definition IdentityMutationStatus_is_terminal (s : IdentityMutationStatus) : bool :=
  match s with
  | Completed | Expired | Cancelled => true
  | _ => false
  end.
End MutationStatus.

Inductive IdentityMutationSlotRole :=
| DestinationOwner | CandidateIdentity | IdentityOwner | WinnerOwner | LoserOwner.
#[global] Instance IdentityMutationSlotRole_eq_dec : EqDecision IdentityMutationSlotRole.
Proof. solve_decision. Defined.

Definition IdentityMutationSlotRole_as_str (r : IdentityMutationSlotRole) : string :=
  match r with
  | DestinationOwner => "destination_owner"
  | CandidateIdentity => "candidate_identity"
  | IdentityOwner => "identity_owner"
  | WinnerOwner => "winner_owner"
  | LoserOwner => "loser_owner"
  end.

Definition IdentityMutationSlotRole_purpose (r : IdentityMutationSlotRole) : string :=
  match r with
  | DestinationOwner => "link.destination_owner"
  | CandidateIdentity => "link.candidate_identity"
  | IdentityOwner => "unlink.identity_owner"
  | WinnerOwner => "merge.winner_owner"
  | LoserOwner => "merge.loser_owner"
  end.

Inductive IdentityKind := ProviderIdentity | EmailIdentity.
#[global] Instance IdentityKind_eq_dec : EqDecision IdentityKind.
Proof. solve_decision. Defined.

Definition IdentityKind_as_str (k : IdentityKind) : string :=
  match k with
  | ProviderIdentity => "provider"
  | EmailIdentity => "email"
  end.

Module SlotState.
Inductive IdentityMutationSlotState :=
| Pending | ProviderAuthorizationStarted | ProviderExchangeInProgress | ProviderExchangeFailed
| EmailAddressEntry | EmailChallengePending | Proved | Expired.
#[global] Instance IdentityMutationSlotState_eq_dec : EqDecision IdentityMutationSlotState.
Proof. solve_decision. Defined.

Definition IdentityMutationSlotState_as_str (s : IdentityMutationSlotState) : string :=
  match s with
  | Pending => "pending"
  | ProviderAuthorizationStarted => "provider_authorization_started"
  | ProviderExchangeInProgress => "provider_exchange_in_progress"
  | ProviderExchangeFailed => "provider_exchange_failed"
  | EmailAddressEntry => "email_address_entry"
  | EmailChallengePending => "email_challenge_pending"
  | Proved => "proved"
  | Expired => "expired"
  end.
End SlotState.

Module ReceiptStatus.
Inductive IdentityProofReceiptStatus := Issued | Consumed | Expired.
#[global] Instance IdentityProofReceiptStatus_eq_dec : EqDecision IdentityProofReceiptStatus.
Proof. solve_decision. Defined.
End ReceiptStatus.

Inductive IdentityMutationEffect := Applied | ExpiredEffect.

(** ** Records *)
Record ExistingIdentitySnapshot := mkExistingIdentitySnapshot {
  ei_project_id : Uuid;
  ei_user_id : Uuid;
  ei_identity_id : Uuid;
  ei_identity_kind : IdentityKind;
  ei_expected_user_revision : Z;
  ei_expected_user_security_revision : Z;
  ei_expected_identity_revision : Z
}.

Record TrustedRuntimeProviderCallback := mkTrustedRuntimeProviderCallback {
  cb_runtime_base : string;
  cb_project_public_id : string;
  cb_provider_key : string;
  cb_value : string
}.

Record ProviderProofCapabilitySnapshot := mkProviderProofCapabilitySnapshot {
  pp_adapter_key : string;
  pp_adapter_capability_revision : Z;
  pp_exact_non_renewable_proof_scopes : list string;
  pp_callback : TrustedRuntimeProviderCallback;
  pp_provider_pkce_required : bool;
  pp_oidc_nonce_required : bool
}.

Inductive ProofMethodAuthority :=
| ProviderAuthority (project_id application_id : Uuid) (application_security_revision : Z)
    (provider_configuration_id : Uuid) (provider_revision assignment_security_revision : Z)
    (proof_scopes : list string) (capability : ProviderProofCapabilitySnapshot)
| EmailAuthority (project_id application_id : Uuid) (application_security_revision : Z)
    (method_policy_revision method_security_revision assignment_security_revision : Z).

Definition ProofMethodAuthority_project_id (a : ProofMethodAuthority) : Uuid :=
  match a with
  | ProviderAuthority p _ _ _ _ _ _ _ => p
  | EmailAuthority p _ _ _ _ _ => p
  end.

Definition ProofMethodAuthority_identity_kind (a : ProofMethodAuthority) : IdentityKind :=
  match a with
  | ProviderAuthority _ _ _ _ _ _ _ _ => ProviderIdentity
  | EmailAuthority _ _ _ _ _ _ => EmailIdentity
  end.

Inductive IdentityMutationPlan :=
| LinkPlan (destination_identity : ExistingIdentitySnapshot) (candidate_kind : IdentityKind)
    (destination_authority candidate_authority : ProofMethodAuthority)
| UnlinkPlan (identity : ExistingIdentitySnapshot) (authority : ProofMethodAuthority)
| MergePlan (winner_identity loser_identity : ExistingIdentitySnapshot)
    (winner_authority loser_authority : ProofMethodAuthority).

Inductive IdentityMutationSlotTarget :=
| Existing (identity : ExistingIdentitySnapshot)
| Candidate (project_id destination_user_id : Uuid) (expected_user_revision : Z)
    (expected_user_security_revision : Z) (identity_kind : IdentityKind).

Definition target_project_id (t : IdentityMutationSlotTarget) : Uuid :=
  match t with
  | Existing i => ei_project_id i
  | Candidate p _ _ _ _ => p
  end.
Definition target_user_id (t : IdentityMutationSlotTarget) : Uuid :=
  match t with
  | Existing i => ei_user_id i
  | Candidate _ u _ _ _ => u
  end.
Definition target_expected_user_revision (t : IdentityMutationSlotTarget) : Z :=
  match t with
  | Existing i => ei_expected_user_revision i
  | Candidate _ _ r _ _ => r
  end.
Definition target_expected_user_security_revision (t : IdentityMutationSlotTarget) : Z :=
  match t with
  | Existing i => ei_expected_user_security_revision i
  | Candidate _ _ _ r _ => r
  end.
Definition target_identity_kind (t : IdentityMutationSlotTarget) : IdentityKind :=
  match t with
  | Existing i => ei_identity_kind i
  | Candidate _ _ _ _ k => k
  end.

Record InteractionBrowserBinding := mkInteractionBrowserBinding {
  bb_digest : list Z;
  bb_digest_key_version : Z;
  bb_revision : Z
}.
#[global] Instance InteractionBrowserBinding_eq_dec : EqDecision InteractionBrowserBinding.
Proof. solve_decision. Defined.

Inductive IdentityProofEvidence :=
| ExistingIdentity (identity_id : Uuid) (identity_revision : Z)
| CandidateEvidence (evidence_id : Uuid) (evidence_revision : Z).

Record IdentityProofReceiptSnapshot := mkIdentityProofReceiptSnapshot {
  rc_id : Uuid;
  rc_project_id : Uuid;
  rc_intent_id : Uuid;
  rc_slot_id : Uuid;
  rc_role : IdentityMutationSlotRole;
  rc_purpose : string;
  rc_browser_binding : InteractionBrowserBinding;
  rc_proof_user_id : Uuid;
  rc_proof_user_revision : Z;
  rc_proof_user_security_revision : Z;
  rc_captured_intent_revision : Z;
  rc_evidence : IdentityProofEvidence;
  rc_issued_at : OffsetDateTime;
  rc_expires_at : OffsetDateTime
}.

Record RestoredIdentityProofReceipt := mkRestoredIdentityProofReceipt {
  rr_snapshot : IdentityProofReceiptSnapshot;
  rr_status : ReceiptStatus.IdentityProofReceiptStatus
}.

Record RestoredIdentityMutationProofSlot := mkRestoredIdentityMutationProofSlot {
  rs_id : Uuid;
  rs_role : IdentityMutationSlotRole;
  rs_ordinal : Z;
  rs_target : IdentityMutationSlotTarget;
  rs_state : SlotState.IdentityMutationSlotState;
  rs_slot_revision : Z;
  rs_receipt : option RestoredIdentityProofReceipt
}.

Record RestoredIdentityMutationIntent := mkRestoredIdentityMutationIntent {
  ri_id : Uuid;
  ri_project_id : Uuid;
  ri_kind : IdentityMutationKind;
  ri_status : MutationStatus.IdentityMutationStatus;
  ri_intent_revision : Z;
  ri_browser_binding : option InteractionBrowserBinding;
  ri_slots : list (RestoredIdentityMutationProofSlot * ProofMethodAuthority);
  ri_created_at : OffsetDateTime;
  ri_expires_at : OffsetDateTime
}.

Record IdentityMutationProofSlot := mkIdentityMutationProofSlot {
  slot_id : Uuid;
  slot_role : IdentityMutationSlotRole;
  slot_ordinal : Z;
  slot_target : IdentityMutationSlotTarget;
  slot_authority : ProofMethodAuthority;
  slot_state : SlotState.IdentityMutationSlotState;
  slot_revision : Z;
  slot_receipt : option RestoredIdentityProofReceipt
}.

Record IdentityMutationIntent := mkIdentityMutationIntent {
  im_id : Uuid;
  im_project_id : Uuid;
  im_kind : IdentityMutationKind;
  im_status : MutationStatus.IdentityMutationStatus;
  im_intent_revision : Z;
  im_browser_binding : option InteractionBrowserBinding;
  im_slots : list IdentityMutationProofSlot;
  im_created_at : OffsetDateTime;
  im_expires_at : OffsetDateTime
}.

(** ** Validation *)
Definition reject_nil (value : Uuid) : result DomainError unit :=
  if uuid_is_nil value then Err InvalidValue else Ok tt.

Definition next_revision (revision : Z) : result DomainError Z :=
  ok_or (checked_add_i64 revision 1) InvalidTransition.

Definition next_slot_revisions (slots : list IdentityMutationProofSlot) :
    result DomainError (list Z) :=
  rmapM (fun slot => next_revision (slot_revision slot)) slots.

Definition validate_lifetime (created_at expires_at : OffsetDateTime) :
    result DomainError unit :=
  if (expires_at <=? created_at) || (created_at + MAX_INTENT_LIFETIME <? expires_at)
  then Err InvalidValue
  else Ok tt.

Definition validate_existing (project_id : Uuid) (identity : ExistingIdentitySnapshot) :
    result DomainError unit :=
  if negb (ei_project_id identity =? project_id)
     || (ei_expected_user_revision identity <=? 0)
     || (ei_expected_user_security_revision identity <=? 0)
     || (ei_expected_identity_revision identity <=? 0)
  then Err InvalidValue
  else
    reject_nil (ei_user_id identity) ;;?
    reject_nil (ei_identity_id identity).

Definition validate_target (project_id : Uuid) (target : IdentityMutationSlotTarget) :
    result DomainError unit :=
  match target with
  | Existing identity => validate_existing project_id identity
  | Candidate target_project_id destination_user_id user_revision security_revision _ =>
      if negb (target_project_id =? project_id)
         || (user_revision <=? 0)
         || (security_revision <=? 0)
      then Err InvalidValue
      else reject_nil destination_user_id
  end.

Definition InteractionBrowserBinding_validate (self : InteractionBrowserBinding) :
    result DomainError unit :=
  if (bb_digest_key_version self <=? 0)
     || negb (bb_revision self =? INITIAL_BROWSER_BINDING_REVISION)
  then Err InvalidValue
  else Ok tt.

(** The [all] of [valid_exact_scope_set], with the growing [HashSet]. *)
Definition scope_byte (b : Z) : bool :=
  (b =? 0x21) || in_range 0x23 0x5B b || in_range 0x5D 0x7E b.

Fixpoint scopes_valid_unique (seen : list string) (scopes : list string) : bool :=
  match scopes with
  | [] => true
  | scope :: r =>
      negb (is_empty scope)
      && (str_len scope <=? 128)
      && negb (bool_decide (scope = "offline_access"%string))
      && forallb scope_byte (bytes scope)
      && negb (bool_decide (scope ∈ seen))
      && scopes_valid_unique (scope :: seen) r
  end.

Definition valid_exact_scope_set (scopes : list string) : bool :=
  if (list_len scopes =? 0) || (MAX_PROVIDER_PROOF_SCOPES <? list_len scopes) then false
  else scopes_valid_unique [] scopes.

Definition exact_scope_sets_match (requested declared : list string) : bool :=
  valid_exact_scope_set requested
  && valid_exact_scope_set declared
  && (list_len requested =? list_len declared)
  && forallb (fun scope => bool_decide (scope ∈ declared)) requested.

Section identity_mutation.
Context `{UrlLib}.

(** ** Provider callbacks and method authorities *)
Definition TrustedRuntimeProviderCallback_derive (runtime_base : string)
    (project_public_id : PublicId) (provider_key : ProviderKey) :
    result DomainError TrustedRuntimeProviderCallback :=
  base <-? ok_or (url_parse runtime_base) InvalidValue ;;
  if negb (bool_decide (url_scheme base = "http"%string)
           || bool_decide (url_scheme base = "https"%string))
     || is_none (url_host_str base)
     || negb (is_empty (url_username base))
     || is_some (url_password base)
     || is_some (url_query base)
     || is_some (url_fragment base)
     || url_cannot_be_a_base base
  then Err InvalidValue
  else
    callback <-?
      ok_or (url_extend_path base
               ["projects"%string; PublicId_to_string project_public_id; "auth"%string;
                "callback"%string; ProviderKey_as_str provider_key])
        InvalidValue ;;
    Ok {|
      cb_runtime_base := url_as_str base;
      cb_project_public_id := PublicId_to_string project_public_id;
      cb_provider_key := ProviderKey_as_str provider_key;
      cb_value := url_as_str callback
    |}.

Definition TrustedRuntimeProviderCallback_validate (self : TrustedRuntimeProviderCallback) :
    result DomainError unit :=
  project_public_id <-? PublicId_parse (cb_project_public_id self) ;;
  provider_key <-? ProviderKey_parse (cb_provider_key self) ;;
  derived <-? TrustedRuntimeProviderCallback_derive (cb_runtime_base self) project_public_id
                provider_key ;;
  if negb (bool_decide (cb_value derived = cb_value self)) then Err InvalidValue else Ok tt.

Definition ProviderProofCapabilitySnapshot_validate (self : ProviderProofCapabilitySnapshot) :
    result DomainError unit :=
  if is_empty (pp_adapter_key self)
     || (64 <? str_len (pp_adapter_key self))
     || (pp_adapter_capability_revision self <=? 0)
     || negb (pp_oidc_nonce_required self)
     || negb (valid_exact_scope_set (pp_exact_non_renewable_proof_scopes self))
  then Err InvalidValue
  else TrustedRuntimeProviderCallback_validate (pp_callback self).

Definition ProviderProofCapabilitySnapshot_from_reviewed_adapter (adapter_key : string)
    (adapter_capability_revision : Z) (scopes : list string)
    (callback : TrustedRuntimeProviderCallback) (pkce_required nonce_required : bool) :
    result DomainError ProviderProofCapabilitySnapshot :=
  let snapshot := mkProviderProofCapabilitySnapshot adapter_key adapter_capability_revision
                    scopes callback pkce_required nonce_required in
  ProviderProofCapabilitySnapshot_validate snapshot ;;?
  Ok snapshot.

Definition ProofMethodAuthority_validate (self : ProofMethodAuthority) (project_id : Uuid)
    (target_kind : IdentityKind) : result DomainError unit :=
  if negb (ProofMethodAuthority_project_id self =? project_id)
     || negb (bool_decide (ProofMethodAuthority_identity_kind self = target_kind))
  then Err InvalidValue
  else
    match self with
    | ProviderAuthority _ application_id application_security_revision
        provider_configuration_id provider_revision assignment_security_revision
        proof_scopes capability =>
        reject_nil application_id ;;?
        reject_nil provider_configuration_id ;;?
        ProviderProofCapabilitySnapshot_validate capability ;;?
        if existsb (fun revision => revision <=? 0)
             [application_security_revision; provider_revision; assignment_security_revision]
           || negb (exact_scope_sets_match proof_scopes
                      (pp_exact_non_renewable_proof_scopes capability))
        then Err InvalidValue
        else Ok tt
    | EmailAuthority _ application_id application_security_revision method_policy_revision
        method_security_revision assignment_security_revision =>
        reject_nil application_id ;;?
        if existsb (fun revision => revision <=? 0)
             [application_security_revision; method_policy_revision; method_security_revision;
              assignment_security_revision]
        then Err InvalidValue
        else Ok tt
    end.

(** ** Slot sets *)
Definition expected_roles (kind : IdentityMutationKind) : list IdentityMutationSlotRole :=
  match kind with
  | Link => [DestinationOwner; CandidateIdentity]
  | Unlink => [IdentityOwner]
  | Merge => [WinnerOwner; LoserOwner]
  end.

(** The [zip(expected).enumerate().any(..)] of [validate_slot_set], negated. *)
Fixpoint slots_in_order (project_id : Uuid) (index : Z)
    (slots : list IdentityMutationProofSlot) (roles : list IdentityMutationSlotRole) : bool :=
  match slots, roles with
  | slot :: ss, role :: rs =>
      bool_decide (slot_role slot = role)
      && (slot_ordinal slot =? index + 1)
      && (target_project_id (slot_target slot) =? project_id)
      && slots_in_order project_id (index + 1) ss rs
  | _, _ => true
  end.

Definition valid_targets (kind : IdentityMutationKind) (slots : list IdentityMutationProofSlot) :
    bool :=
  match kind, map slot_target slots with
  | Link, Existing destination
          :: Candidate _ destination_user_id user_revision security_revision _ :: _ =>
      (ei_user_id destination =? destination_user_id)
      && (ei_expected_user_revision destination =? user_revision)
      && (ei_expected_user_security_revision destination =? security_revision)
  | Unlink, Existing _ :: _ => true
  | Merge, Existing winner :: Existing loser :: _ =>
      negb (ei_user_id winner =? ei_user_id loser)
      && negb (ei_identity_id winner =? ei_identity_id loser)
  | _, _ => false
  end.

Fixpoint validate_targets (project_id : Uuid) (slots : list IdentityMutationProofSlot) :
    result DomainError unit :=
  match slots with
  | [] => Ok tt
  | slot :: r => validate_target project_id (slot_target slot) ;;? validate_targets project_id r
  end.

Definition validate_slot_set (project_id : Uuid) (kind : IdentityMutationKind)
    (slots : list IdentityMutationProofSlot) : result DomainError unit :=
  validate_targets project_id slots ;;?
  let expected := expected_roles kind in
  if negb (list_len slots =? list_len expected)
     || negb (slots_in_order project_id 0 slots expected)
  then Err InvalidValue
  else if negb (valid_targets kind slots) then Err InvalidValue
  else Ok tt.

(** [Uuid::new_v4] for the slot at an ordinal. *)
Context (new_v4 : Z -> Uuid).

Definition slot_definition : Type :=
  IdentityMutationSlotRole * IdentityMutationSlotTarget * ProofMethodAuthority.

Fixpoint build_slots (project_id : Uuid) (ordinal : Z) (definitions : list slot_definition) :
    result DomainError (list IdentityMutationProofSlot) :=
  match definitions with
  | [] => Ok []
  | (role, target, authority) :: r =>
      ProofMethodAuthority_validate authority project_id (target_identity_kind target) ;;?
      if 255 <? ordinal + 1 then Err InvalidValue
      else
        rest <-? build_slots project_id (ordinal + 1) r ;;
        Ok ({| slot_id := new_v4 ordinal;
               slot_role := role;
               slot_ordinal := ordinal + 1;
               slot_target := target;
               slot_authority := authority;
               slot_state := SlotState.Pending;
               slot_revision := 1;
               slot_receipt := None |} :: rest)
  end.

Definition plan_definitions (project_id : Uuid) (plan : IdentityMutationPlan) :
    result DomainError (IdentityMutationKind * list slot_definition) :=
  match plan with
  | LinkPlan destination candidate_kind destination_authority candidate_authority =>
      validate_existing project_id destination ;;?
      Ok (Link,
          [(DestinationOwner, Existing destination, destination_authority);
           (CandidateIdentity,
            Candidate project_id (ei_user_id destination) (ei_expected_user_revision destination)
              (ei_expected_user_security_revision destination) candidate_kind,
            candidate_authority)])
  | UnlinkPlan identity authority =>
      validate_existing project_id identity ;;?
      Ok (Unlink, [(IdentityOwner, Existing identity, authority)])
  | MergePlan winner loser winner_authority loser_authority =>
      validate_existing project_id winner ;;?
      validate_existing project_id loser ;;?
      if (ei_user_id winner =? ei_user_id loser) || (ei_identity_id winner =? ei_identity_id loser)
      then Err InvalidValue
      else
        Ok (Merge,
            [(WinnerOwner, Existing winner, winner_authority);
             (LoserOwner, Existing loser, loser_authority)])
  end.

Definition derive_slots (project_id : Uuid) (plan : IdentityMutationPlan) :
    result DomainError (IdentityMutationKind * list IdentityMutationProofSlot) :=
  let? (kind, definitions) := plan_definitions project_id plan in
  slots <-? build_slots project_id 0 definitions ;;
  validate_slot_set project_id kind slots ;;?
  Ok (kind, slots).

Definition IdentityMutationIntent_create (id project_id : Uuid) (plan : IdentityMutationPlan)
    (created_at expires_at : OffsetDateTime) : result DomainError IdentityMutationIntent :=
  reject_nil id ;;?
  reject_nil project_id ;;?
  validate_lifetime created_at expires_at ;;?
  let? (kind, slots) := derive_slots project_id plan in
  Ok {| im_id := id;
        im_project_id := project_id;
        im_kind := kind;
        im_status := MutationStatus.PendingProof;
        im_intent_revision := 1;
        im_browser_binding := None;
        im_slots := slots;
        im_created_at := created_at;
        im_expires_at := expires_at |}.
End identity_mutation.

(** ** Receipts *)
Definition evidence_matches (target : IdentityMutationSlotTarget)
    (evidence : IdentityProofEvidence) : bool :=
  match target, evidence with
  | Existing identity, ExistingIdentity identity_id identity_revision =>
      (identity_id =? ei_identity_id identity)
      && (identity_revision =? ei_expected_identity_revision identity)
  | Candidate _ _ _ _ _, CandidateEvidence evidence_id evidence_revision =>
      negb (uuid_is_nil evidence_id) && (0 <? evidence_revision)
  | _, _ => false
  end.

Definition validate_receipt_for_slot (self : IdentityMutationIntent)
    (receipt : IdentityProofReceiptSnapshot) (slot : IdentityMutationProofSlot) :
    result DomainError unit :=
  reject_nil (rc_id receipt) ;;?
  InteractionBrowserBinding_validate (rc_browser_binding receipt) ;;?
  if negb (rc_project_id receipt =? im_project_id self)
     || negb (rc_intent_id receipt =? im_id self)
     || negb (rc_slot_id receipt =? slot_id slot)
     || negb (bool_decide (rc_role receipt = slot_role slot))
     || negb (bool_decide (Some (rc_browser_binding receipt) = im_browser_binding self))
     || negb (bool_decide (rc_purpose receipt = IdentityMutationSlotRole_purpose (slot_role slot)))
     || (rc_captured_intent_revision receipt <=? 0)
     || (rc_issued_at receipt <? im_created_at self)
     || (rc_expires_at receipt <=? rc_issued_at receipt)
     || (rc_issued_at receipt + MAX_RECEIPT_LIFETIME <? rc_expires_at receipt)
     || (im_expires_at self <? rc_expires_at receipt)
     || negb (rc_proof_user_id receipt =? target_user_id (slot_target slot))
     || negb (rc_proof_user_revision receipt
                =? target_expected_user_revision (slot_target slot))
     || negb (rc_proof_user_security_revision receipt
                =? target_expected_user_security_revision (slot_target slot))
  then Err InvalidValue
  else if evidence_matches (slot_target slot) (rc_evidence receipt) then Ok tt
  else Err InvalidValue.

(** ** Restoring a stored aggregate *)
Definition state_matches_authority (slot : IdentityMutationProofSlot) : bool :=
  match slot_authority slot, slot_state slot with
  | ProviderAuthority _ _ _ _ _ _ _ _,
      (SlotState.EmailAddressEntry | SlotState.EmailChallengePending) => false
  | EmailAuthority _ _ _ _ _ _,
      (SlotState.ProviderAuthorizationStarted | SlotState.ProviderExchangeInProgress
       | SlotState.ProviderExchangeFailed) => false
  | _, _ => true
  end.

Definition receipt_state_valid (status : MutationStatus.IdentityMutationStatus)
    (state : SlotState.IdentityMutationSlotState)
    (receipt : ReceiptStatus.IdentityProofReceiptStatus) : bool :=
  match receipt with
  | ReceiptStatus.Issued =>
      bool_decide (state = SlotState.Proved)
      && (bool_decide (status = MutationStatus.PendingProof)
          || bool_decide (status = MutationStatus.Ready))
  | ReceiptStatus.Consumed =>
      bool_decide (state = SlotState.Proved) && bool_decide (status = MutationStatus.Completed)
  | ReceiptStatus.Expired =>
      bool_decide (state = SlotState.Expired)
      && (bool_decide (status = MutationStatus.Expired)
          || bool_decide (status = MutationStatus.Cancelled))
  end.

Definition no_receipt_state_valid (status : MutationStatus.IdentityMutationStatus)
    (state : SlotState.IdentityMutationSlotState) : bool :=
  negb (bool_decide (state = SlotState.Proved)
        || (bool_decide (state = SlotState.Expired)
            && negb (bool_decide (status = MutationStatus.Expired)
                     || bool_decide (status = MutationStatus.Cancelled)))).

Definition receipt_has_status (slot : IdentityMutationProofSlot)
    (status : ReceiptStatus.IdentityProofReceiptStatus) : bool :=
  match slot_receipt slot with
  | Some r => bool_decide (rr_status r = status)
  | None => false
  end.

Definition valid_aggregate_state (self : IdentityMutationIntent) : bool :=
  match im_status self with
  | MutationStatus.PendingProof =>
      forallb (fun slot => negb (bool_decide (slot_state slot = SlotState.Expired))) (im_slots self)
  | MutationStatus.Ready =>
      forallb (fun slot => bool_decide (slot_state slot = SlotState.Proved)
                           && receipt_has_status slot ReceiptStatus.Issued) (im_slots self)
  | MutationStatus.Completed =>
      forallb (fun slot => bool_decide (slot_state slot = SlotState.Proved)
                           && receipt_has_status slot ReceiptStatus.Consumed) (im_slots self)
  | MutationStatus.Expired | MutationStatus.Cancelled =>
      forallb (fun slot => bool_decide (slot_state slot = SlotState.Expired)) (im_slots self)
  end.

Definition validate_browser_binding_state (self : IdentityMutationIntent) :
    result DomainError unit :=
  match im_browser_binding self with
  | Some _ => if 1 <? im_intent_revision self then Ok tt else Err InvalidValue
  | None =>
      if negb (bool_decide (im_status self = MutationStatus.PendingProof)
               || bool_decide (im_status self = MutationStatus.Expired)
               || bool_decide (im_status self = MutationStatus.Cancelled))
         || existsb (fun slot =>
              is_some (slot_receipt slot)
              || negb (bool_decide (slot_state slot = SlotState.Pending)
                       || bool_decide (slot_state slot = SlotState.Expired))) (im_slots self)
      then Err InvalidValue
      else Ok tt
  end.

Section restore.
Context `{UrlLib}.

(** The loop of [validate_restored], with its two [HashSet]s. *)
Fixpoint validate_restored_slots (self : IdentityMutationIntent) (slot_ids receipt_ids : list Uuid)
    (slots : list IdentityMutationProofSlot) : result DomainError unit :=
  match slots with
  | [] => Ok tt
  | slot :: r =>
      reject_nil (slot_id slot) ;;?
      if (slot_revision slot <=? 0)
         || bool_decide (slot_id slot ∈ slot_ids)
         || negb (target_project_id (slot_target slot) =? im_project_id self)
      then Err InvalidValue
      else
        ProofMethodAuthority_validate (slot_authority slot) (im_project_id self)
          (target_identity_kind (slot_target slot)) ;;?
        if negb (state_matches_authority slot) then Err InvalidValue
        else
          match slot_receipt slot with
          | Some receipt =>
              validate_receipt_for_slot self (rr_snapshot receipt) slot ;;?
              if (im_intent_revision self <=? rc_captured_intent_revision (rr_snapshot receipt))
                 || bool_decide (rc_id (rr_snapshot receipt) ∈ receipt_ids)
              then Err InvalidValue
              else if negb (receipt_state_valid (im_status self) (slot_state slot)
                              (rr_status receipt))
              then Err InvalidValue
              else
                validate_restored_slots self (slot_id slot :: slot_ids)
                  (rc_id (rr_snapshot receipt) :: receipt_ids) r
          | None =>
              if negb (no_receipt_state_valid (im_status self) (slot_state slot))
              then Err InvalidValue
              else validate_restored_slots self (slot_id slot :: slot_ids) receipt_ids r
          end
  end.

Definition validate_restored (self : IdentityMutationIntent) : result DomainError unit :=
  validate_slot_set (im_project_id self) (im_kind self) (im_slots self) ;;?
  validate_browser_binding_state self ;;?
  validate_restored_slots self [] [] (im_slots self) ;;?
  if negb (valid_aggregate_state self) then Err InvalidValue else Ok tt.

(** [restore] copies the stored record into an aggregate and validates it. *)
Definition restore_slot (entry : RestoredIdentityMutationProofSlot * ProofMethodAuthority) :
    IdentityMutationProofSlot :=
  let '(slot, authority) := entry in
  {| slot_id := rs_id slot;
     slot_role := rs_role slot;
     slot_ordinal := rs_ordinal slot;
     slot_target := rs_target slot;
     slot_authority := authority;
     slot_state := rs_state slot;
     slot_revision := rs_slot_revision slot;
     slot_receipt := rs_receipt slot |}.

Definition IdentityMutationIntent_restore (record : RestoredIdentityMutationIntent) :
    result DomainError IdentityMutationIntent :=
  reject_nil (ri_id record) ;;?
  reject_nil (ri_project_id record) ;;?
  match ri_browser_binding record with
  | Some binding => InteractionBrowserBinding_validate binding
  | None => Ok tt
  end ;;?
  validate_lifetime (ri_created_at record) (ri_expires_at record) ;;?
  if ri_intent_revision record <=? 0 then Err InvalidValue
  else
    let intent := {|
      im_id := ri_id record;
      im_project_id := ri_project_id record;
      im_kind := ri_kind record;
      im_status := ri_status record;
      im_intent_revision := ri_intent_revision record;
      im_browser_binding := ri_browser_binding record;
      im_slots := map restore_slot (ri_slots record);
      im_created_at := ri_created_at record;
      im_expires_at := ri_expires_at record
    |} in
    validate_restored intent ;;?
    Ok intent.
End restore.

(** ** Operations *)
Definition intent_op (A : Type) : Type := mut IdentityMutationIntent DomainError A.

Definition set_intent_revision (revision : Z) (self : IdentityMutationIntent) :
    IdentityMutationIntent :=
  {| im_id := im_id self; im_project_id := im_project_id self; im_kind := im_kind self;
     im_status := im_status self; im_intent_revision := revision;
     im_browser_binding := im_browser_binding self; im_slots := im_slots self;
     im_created_at := im_created_at self; im_expires_at := im_expires_at self |}.

Definition set_intent_status (status : MutationStatus.IdentityMutationStatus)
    (self : IdentityMutationIntent) : IdentityMutationIntent :=
  {| im_id := im_id self; im_project_id := im_project_id self; im_kind := im_kind self;
     im_status := status; im_intent_revision := im_intent_revision self;
     im_browser_binding := im_browser_binding self; im_slots := im_slots self;
     im_created_at := im_created_at self; im_expires_at := im_expires_at self |}.

Definition set_intent_binding (binding : option InteractionBrowserBinding)
    (self : IdentityMutationIntent) : IdentityMutationIntent :=
  {| im_id := im_id self; im_project_id := im_project_id self; im_kind := im_kind self;
     im_status := im_status self; im_intent_revision := im_intent_revision self;
     im_browser_binding := binding; im_slots := im_slots self;
     im_created_at := im_created_at self; im_expires_at := im_expires_at self |}.

Definition set_intent_slots (slots : list IdentityMutationProofSlot)
    (self : IdentityMutationIntent) : IdentityMutationIntent :=
  {| im_id := im_id self; im_project_id := im_project_id self; im_kind := im_kind self;
     im_status := im_status self; im_intent_revision := im_intent_revision self;
     im_browser_binding := im_browser_binding self; im_slots := slots;
     im_created_at := im_created_at self; im_expires_at := im_expires_at self |}.

(** A slot's three mutable fields. *)
Definition update_slot (state : SlotState.IdentityMutationSlotState) (revision : Z)
    (receipt : option RestoredIdentityProofReceipt) (slot : IdentityMutationProofSlot) :
    IdentityMutationProofSlot :=
  {| slot_id := slot_id slot; slot_role := slot_role slot; slot_ordinal := slot_ordinal slot;
     slot_target := slot_target slot; slot_authority := slot_authority slot;
     slot_state := state; slot_revision := revision; slot_receipt := receipt |}.

Definition set_receipt_status (status : ReceiptStatus.IdentityProofReceiptStatus)
    (receipt : RestoredIdentityProofReceipt) : RestoredIdentityProofReceipt :=
  {| rr_snapshot := rr_snapshot receipt; rr_status := status |}.

Definition effective_confirmation_deadline (self : IdentityMutationIntent) : OffsetDateTime :=
  fold_left Z.min
    (omap (fun slot => rc_expires_at ∘ rr_snapshot <$> slot_receipt slot) (im_slots self))
    (im_expires_at self).

(** [slot]: the slot with a role; a missing or duplicate role is an error. *)
Definition intent_slot (self : IdentityMutationIntent) (role : IdentityMutationSlotRole) :
    result DomainError IdentityMutationProofSlot :=
  match base.filter (fun slot => slot_role slot = role) (im_slots self) with
  | [slot] => Ok slot
  | _ => Err InvalidTransition
  end.

(** Writing through the reference [slot_mut] returns. *)
Definition write_slot (role : IdentityMutationSlotRole)
    (f : IdentityMutationProofSlot -> IdentityMutationProofSlot)
    (slots : list IdentityMutationProofSlot) : list IdentityMutationProofSlot :=
  map (fun slot => if bool_decide (slot_role slot = role) then f slot else slot) slots.

(** The body of the loop of [terminalize]. *)
Definition expire_slot (slot : IdentityMutationProofSlot) (next_slot_revision : Z) :
    IdentityMutationProofSlot :=
  update_slot SlotState.Expired next_slot_revision
    ((fun receipt =>
        if bool_decide (rr_status receipt = ReceiptStatus.Issued)
        then set_receipt_status ReceiptStatus.Expired receipt
        else receipt) <$> slot_receipt slot)
    slot.

Definition terminalize (status : MutationStatus.IdentityMutationStatus) : intent_op unit :=
  self <~ mget ;;
  if negb (bool_decide (status = MutationStatus.Expired)
           || bool_decide (status = MutationStatus.Cancelled))
     || MutationStatus.IdentityMutationStatus_is_terminal (im_status self)
  then mfail InvalidTransition
  else
    next_intent_revision <~ mlift (next_revision (im_intent_revision self)) ;;
    revisions <~ mlift (next_slot_revisions (im_slots self)) ;;
    mmodify (set_intent_slots (zip_with expire_slot (im_slots self) revisions)) ;;~
    mmodify (set_intent_status status) ;;~
    mmodify (set_intent_revision next_intent_revision).

Definition ensure_pending (expected_revision : Z) (now : OffsetDateTime) :
    intent_op (option IdentityMutationEffect) :=
  self <~ mget ;;
  if negb (bool_decide (im_status self = MutationStatus.PendingProof))
     || negb (im_intent_revision self =? expected_revision)
  then mfail InvalidTransition
  else if effective_confirmation_deadline self <=? now
  then terminalize MutationStatus.Expired ;;~ mret (Some ExpiredEffect)
  else mret None.

(** [if let Some(outcome) = self.ensure_pending(..)? { return Ok(outcome); }] *)
Definition while_pending (expected_revision : Z) (now : OffsetDateTime)
    (body : intent_op IdentityMutationEffect) : intent_op IdentityMutationEffect :=
  pending <~ ensure_pending expected_revision now ;;
  match pending with
  | Some outcome => mret outcome
  | None => body
  end.

Definition slot_transition : Type :=
  ProofMethodAuthority -> SlotState.IdentityMutationSlotState ->
  result DomainError SlotState.IdentityMutationSlotState.

Definition transition_slot (role : IdentityMutationSlotRole) (expected_revision : Z)
    (now : OffsetDateTime) (transition : slot_transition) : intent_op IdentityMutationEffect :=
  while_pending expected_revision now
    (self <~ mget ;;
     if is_none (im_browser_binding self) then mfail InvalidTransition
     else
       next_intent_revision <~ mlift (next_revision (im_intent_revision self)) ;;
       slot <~ mlift (intent_slot self role) ;;
       next_state <~ mlift (transition (slot_authority slot) (slot_state slot)) ;;
       next_slot_revision <~ mlift (next_revision (slot_revision slot)) ;;
       mmodify (set_intent_slots
         (write_slot role
            (fun slot => update_slot next_state next_slot_revision (slot_receipt slot) slot)
            (im_slots self))) ;;~
       mmodify (set_intent_revision next_intent_revision) ;;~
       mret Applied).

Definition bind_browser (expected_revision : Z) (browser_binding : InteractionBrowserBinding)
    (now : OffsetDateTime) : intent_op IdentityMutationEffect :=
  mlift (InteractionBrowserBinding_validate browser_binding) ;;~
  while_pending expected_revision now
    (self <~ mget ;;
     if is_some (im_browser_binding self)
        || existsb (fun slot => negb (bool_decide (slot_state slot = SlotState.Pending))
                                || is_some (slot_receipt slot)) (im_slots self)
     then mfail InvalidTransition
     else
       mmodify (set_intent_binding (Some browser_binding)) ;;~
       next_intent_revision <~ mlift (next_revision (im_intent_revision self)) ;;
       mmodify (set_intent_revision next_intent_revision) ;;~
       mret Applied).

(** The closures the public verbs pass to [transition_slot]. *)
Definition provider_transition (allowed : list SlotState.IdentityMutationSlotState)
    (next : SlotState.IdentityMutationSlotState) : slot_transition :=
  fun authority state =>
    if negb (bool_decide (ProofMethodAuthority_identity_kind authority = ProviderIdentity))
       || negb (bool_decide (state ∈ allowed))
    then Err InvalidTransition
    else Ok next.

Definition email_transition (allowed next : SlotState.IdentityMutationSlotState) :
    slot_transition :=
  fun authority state =>
    if negb (bool_decide (ProofMethodAuthority_identity_kind authority = EmailIdentity))
       || negb (bool_decide (state = allowed))
    then Err InvalidTransition
    else Ok next.

Definition start_provider role expected_revision now : intent_op IdentityMutationEffect :=
  transition_slot role expected_revision now
    (provider_transition [SlotState.Pending] SlotState.ProviderAuthorizationStarted).

Definition claim_provider_callback role expected_revision now :
    intent_op IdentityMutationEffect :=
  transition_slot role expected_revision now
    (provider_transition [SlotState.ProviderAuthorizationStarted]
       SlotState.ProviderExchangeInProgress).

Definition fail_provider_exchange role expected_revision now :
    intent_op IdentityMutationEffect :=
  transition_slot role expected_revision now
    (provider_transition
       [SlotState.ProviderAuthorizationStarted; SlotState.ProviderExchangeInProgress]
       SlotState.ProviderExchangeFailed).

Definition begin_email role expected_revision now : intent_op IdentityMutationEffect :=
  transition_slot role expected_revision now
    (email_transition SlotState.Pending SlotState.EmailAddressEntry).

Definition mark_email_challenge_pending role expected_revision now :
    intent_op IdentityMutationEffect :=
  transition_slot role expected_revision now
    (email_transition SlotState.EmailAddressEntry SlotState.EmailChallengePending).

Definition replace_email_challenge role expected_revision now :
    intent_op IdentityMutationEffect :=
  transition_slot role expected_revision now
    (email_transition SlotState.EmailChallengePending SlotState.EmailChallengePending).

Definition attach_receipt (expected_revision : Z) (now : OffsetDateTime)
    (receipt : IdentityProofReceiptSnapshot) : intent_op IdentityMutationEffect :=
  self <~ mget ;;
  if negb (bool_decide (im_status self = MutationStatus.PendingProof))
     || negb (im_intent_revision self =? expected_revision)
     || is_none (im_browser_binding self)
  then mfail InvalidTransition
  else
    slot <~ mlift (intent_slot self (rc_role receipt)) ;;
    mlift (validate_receipt_for_slot self receipt slot) ;;~
    if negb (rc_captured_intent_revision receipt =? expected_revision)
       || (now <? rc_issued_at receipt)
       || (rc_expires_at receipt <=? now)
    then mfail InvalidValue
    else if negb (bool_decide (slot_state slot = SlotState.ProviderExchangeInProgress)
                  || bool_decide (slot_state slot = SlotState.EmailChallengePending))
            || is_some (slot_receipt slot)
    then mfail InvalidTransition
    else
      while_pending expected_revision now
        (self <~ mget ;;
         next_intent_revision <~ mlift (next_revision (im_intent_revision self)) ;;
         slot <~ mlift (intent_slot self (rc_role receipt)) ;;
         next_slot_revision <~ mlift (next_revision (slot_revision slot)) ;;
         mmodify (set_intent_slots
           (write_slot (rc_role receipt)
              (update_slot SlotState.Proved next_slot_revision
                 (Some {| rr_snapshot := receipt; rr_status := ReceiptStatus.Issued |}))
              (im_slots self))) ;;~
         mmodify (set_intent_revision next_intent_revision) ;;~
         mret Applied).

Definition confirm_ready (expected_revision : Z) (now : OffsetDateTime) :
    intent_op IdentityMutationEffect :=
  while_pending expected_revision now
    (self <~ mget ;;
     if existsb (fun slot => negb (bool_decide (slot_state slot = SlotState.Proved))
                             || negb (receipt_has_status slot ReceiptStatus.Issued))
          (im_slots self)
     then mfail InvalidTransition
     else
       next_intent_revision <~ mlift (next_revision (im_intent_revision self)) ;;
       mmodify (set_intent_revision next_intent_revision) ;;~
       mmodify (set_intent_status MutationStatus.Ready) ;;~
       mret Applied).

(** The loop of [complete]: a slot without a receipt stops it, with the slots
    before it already written. *)
Fixpoint consume_slots (slots : list IdentityMutationProofSlot) (revisions : list Z) :
    list IdentityMutationProofSlot * result DomainError unit :=
  match slots, revisions with
  | slot :: ss, revision :: rs =>
      match slot_receipt slot with
      | None => (slots, Err InvalidTransition)
      | Some receipt =>
          let '(rest, r) := consume_slots ss rs in
          (update_slot (slot_state slot) revision
             (Some (set_receipt_status ReceiptStatus.Consumed receipt)) slot :: rest, r)
      end
  | _, _ => (slots, Ok tt)
  end.

Definition complete (expected_revision : Z) (now : OffsetDateTime) :
    intent_op IdentityMutationEffect :=
  self <~ mget ;;
  if negb (bool_decide (im_status self = MutationStatus.Ready))
     || negb (im_intent_revision self =? expected_revision)
  then mfail InvalidTransition
  else if effective_confirmation_deadline self <=? now
  then terminalize MutationStatus.Expired ;;~ mret ExpiredEffect
  else if existsb (fun slot => negb (receipt_has_status slot ReceiptStatus.Issued)) (im_slots self)
  then mfail InvalidTransition
  else
    next_intent_revision <~ mlift (next_revision (im_intent_revision self)) ;;
    revisions <~ mlift (next_slot_revisions (im_slots self)) ;;
    mmodify (set_intent_slots (consume_slots (im_slots self) revisions).1) ;;~
    mlift (consume_slots (im_slots self) revisions).2 ;;~
    mmodify (set_intent_status MutationStatus.Completed) ;;~
    mmodify (set_intent_revision next_intent_revision) ;;~
    mret Applied.

Definition cancel (expected_revision : Z) (now : OffsetDateTime) :
    intent_op IdentityMutationEffect :=
  self <~ mget ;;
  if MutationStatus.IdentityMutationStatus_is_terminal (im_status self)
     || negb (im_intent_revision self =? expected_revision)
  then mfail InvalidTransition
  else if effective_confirmation_deadline self <=? now
  then terminalize MutationStatus.Expired ;;~ mret ExpiredEffect
  else terminalize MutationStatus.Cancelled ;;~ mret Applied.

Definition expire (now : OffsetDateTime) : intent_op bool :=
  self <~ mget ;;
  if MutationStatus.IdentityMutationStatus_is_terminal (im_status self)
     || (now <? effective_confirmation_deadline self)
  then mret false
  else terminalize MutationStatus.Expired ;;~ mret true.
