(* ===== verification/IdentityMutationProofs.v ===== *)
(** * Identity mutation intents: theorems

    The aggregate of [IdentityMutation.v] under every sequence of its verbs.
    The central invariant is the program's own acceptance check: whatever the
    verbs leave behind, [restore] accepts unchanged from its record, exactly when
    no receipt id is used twice.  On top of it: each verb does its own step of the
    protocol at the revision it names, compare-and-swap on the revision, absorbing
    terminal states, deadlines, and what a completed intent proves. *)
From S2P Require Import Prelude.
From S2P Require Import Lifecycle.
From S2P Require Import Values.
From S2P Require Import Managed.
From S2P Require Import UrlValues.
From S2P Require Import IdentityMutation.

Create HintDb intent discriminated.

(** ** The record of an aggregate

    [restore] takes a [RestoredIdentityMutationIntent]; the record of an aggregate
    holds its fields one by one ([record_for] of the tests of identity_mutation.rs).
    The rows of the store are not modelled. *)
Definition record_slot (slot : IdentityMutationProofSlot) :
    RestoredIdentityMutationProofSlot * ProofMethodAuthority :=
  ({| rs_id := slot_id slot; rs_role := slot_role slot; rs_ordinal := slot_ordinal slot;
      rs_target := slot_target slot; rs_state := slot_state slot;
      rs_slot_revision := slot_revision slot; rs_receipt := slot_receipt slot |},
   slot_authority slot).

Definition record_for (self : IdentityMutationIntent) : RestoredIdentityMutationIntent :=
  {| ri_id := im_id self; ri_project_id := im_project_id self; ri_kind := im_kind self;
     ri_status := im_status self; ri_intent_revision := im_intent_revision self;
     ri_browser_binding := im_browser_binding self; ri_slots := map record_slot (im_slots self);
     ri_created_at := im_created_at self; ri_expires_at := im_expires_at self |}.

Lemma restore_record_slots slots : map restore_slot (map record_slot slots) = slots.
Proof. rewrite map_map; etrans; [|apply map_id]; apply map_ext; by intros []. Qed.

(** ** The invariant *)
Section invariant.
Context `{UrlLib}.

Definition receipt_ok (self : IdentityMutationIntent) (slot : IdentityMutationProofSlot) : Prop :=
  match slot_receipt slot with
  | Some receipt =>
      validate_receipt_for_slot self (rr_snapshot receipt) slot = Ok tt
      /\ rc_captured_intent_revision (rr_snapshot receipt) < im_intent_revision self
      /\ receipt_state_valid (im_status self) (slot_state slot) (rr_status receipt) = true
  | None => no_receipt_state_valid (im_status self) (slot_state slot) = true
  end.

(** What no verb changes of a slot, and what verbs must re-establish. *)
Definition slot_static (self : IdentityMutationIntent) (slot : IdentityMutationProofSlot) : Prop :=
  slot_id slot <> 0
  /\ target_project_id (slot_target slot) = im_project_id self
  /\ ProofMethodAuthority_validate (slot_authority slot) (im_project_id self)
       (target_identity_kind (slot_target slot)) = Ok tt.

Definition slot_dynamic (self : IdentityMutationIntent) (slot : IdentityMutationProofSlot) : Prop :=
  0 < slot_revision slot /\ state_matches_authority slot = true /\ receipt_ok self slot.

Definition receipt_id (slot : IdentityMutationProofSlot) : option Uuid :=
  rc_id ∘ rr_snapshot <$> slot_receipt slot.

Definition binding_valid (self : IdentityMutationIntent) : Prop :=
  match im_browser_binding self with
  | Some binding => InteractionBrowserBinding_validate binding = Ok tt
  | None => True
  end.

Record wf (self : IdentityMutationIntent) : Prop := {
  wf_id : im_id self <> 0;
  wf_project : im_project_id self <> 0;
  wf_binding : binding_valid self;
  wf_lifetime : validate_lifetime (im_created_at self) (im_expires_at self) = Ok tt;
  wf_revision : 0 < im_intent_revision self;
  wf_slot_set : validate_slot_set (im_project_id self) (im_kind self) (im_slots self) = Ok tt;
  wf_binding_state : validate_browser_binding_state self = Ok tt;
  wf_static : Forall (slot_static self) (im_slots self);
  wf_dynamic : Forall (slot_dynamic self) (im_slots self);
  wf_slot_ids : NoDup (map slot_id (im_slots self));
  wf_aggregate : valid_aggregate_state self = true
}.

Lemma reject_nil_ok u : reject_nil u = Ok tt <-> u <> 0.
Proof. unfold reject_nil, uuid_is_nil; destruct (Z.eqb_spec u 0); naive_solver. Qed.

Lemma rseq_ok {A} (m : result DomainError unit) (k : result DomainError A) a :
  (m ;;? k) = Ok a <-> m = Ok tt /\ k = Ok a.
Proof. destruct m as [[]|]; simpl; naive_solver. Qed.

(** The loop with its two seen-sets is the conjunction of the per-slot checks
    and the absence of duplicates. *)
Lemma validate_restored_slots_ok self ids rids slots :
  validate_restored_slots self ids rids slots = Ok tt <->
  Forall (slot_static self) slots /\ Forall (slot_dynamic self) slots
  /\ NoDup (map slot_id slots) /\ (forall i, i ∈ map slot_id slots -> i ∉ ids)
  /\ NoDup (omap receipt_id slots) /\ (forall i, i ∈ omap receipt_id slots -> i ∉ rids).
Proof.
  revert ids rids; induction slots as [|slot slots IH]; intros ids rids.
  { simpl; split; [intros _|done].
    split_and!; try constructor; intros i Hi; by apply elem_of_nil in Hi. }
  simpl validate_restored_slots; rewrite rseq_ok, reject_nil_ok, if_err_ok, rseq_ok, if_err_ok.
  rewrite !Forall_cons; unfold slot_static at 1, slot_dynamic at 1, receipt_ok.
  simpl; unfold receipt_id at 1 4.
  destruct (slot_receipt slot) as [r|] eqn:Hr; simpl;
    [rewrite rseq_ok, !if_err_ok, IH | rewrite if_err_ok, IH]; bool_prop;
    rewrite ?NoDup_cons; setoid_rewrite elem_of_cons; naive_solver.
Qed.

(** No two slots hold receipts of one id. *)
Definition receipts_distinct (self : IdentityMutationIntent) : Prop :=
  NoDup (omap receipt_id (im_slots self)).

Lemma wf_restore self :
  wf self /\ receipts_distinct self <-> IdentityMutationIntent_restore (record_for self) = Ok self.
Proof.
  unfold IdentityMutationIntent_restore, validate_restored; simpl.
  rewrite restore_record_slots, rseq_ok, rseq_ok, rseq_ok, rseq_ok, !reject_nil_ok, if_err_ok,
    rseq_ok, rseq_ok, rseq_ok, rseq_ok, if_err_ok, validate_restored_slots_ok.
  unfold receipts_distinct; destruct self; simpl; split.
  - intros [[] ?]; simpl in *; bool_prop; unfold binding_valid in *; simpl in *.
    split_and!; try done; try (intros ? ? Hn; by apply elem_of_nil in Hn).
    by destruct (im_browser_binding).
  - intros (? & ? & Hb & ? & ? & (? & ? & ? & ?) & _); destruct_and!; bool_prop.
    split; [|done]; constructor; simpl; try done. unfold binding_valid; simpl. by destruct im_browser_binding.
Qed.

(** Whatever [restore] accepts satisfies the invariant. *)
Lemma restore_wf record self : IdentityMutationIntent_restore record = Ok self -> wf self.
Proof.
  intros Hr; apply (proj2 (wf_restore self)); rewrite <- Hr; f_equal; revert Hr.
  unfold IdentityMutationIntent_restore; intros Hr; inv_ok.
  destruct record as [? ? ? ? ? ? slots ? ?]; unfold record_for; simpl; f_equal.
  rewrite map_map; etrans; [|apply map_id]; apply map_ext; by intros [[] ?].
Qed.
End invariant.

(** ** Abstract protocol

    The protocol without its encoding: what each verb may do to an intent,
    as a step relation labelled with the time, the proof receipt on offer and the
    effect. *)
Definition live (self : IdentityMutationIntent) : Prop :=
  MutationStatus.IdentityMutationStatus_is_terminal (im_status self) = false.
Definition pending (self : IdentityMutationIntent) : Prop :=
  im_status self = MutationStatus.PendingProof.

Definition bump (self : IdentityMutationIntent) : IdentityMutationIntent :=
  set_intent_revision (im_intent_revision self + 1) self.

Definition terminalized (status : MutationStatus.IdentityMutationStatus)
    (self : IdentityMutationIntent) : IdentityMutationIntent :=
  bump (set_intent_status status
    (set_intent_slots
       (map (fun slot => expire_slot slot (slot_revision slot + 1)) (im_slots self)) self)).

Definition slot_written (role : IdentityMutationSlotRole)
    (state : SlotState.IdentityMutationSlotState)
    (receipt : IdentityMutationProofSlot -> option RestoredIdentityProofReceipt)
    (self : IdentityMutationIntent) : IdentityMutationIntent :=
  bump (set_intent_slots
    (write_slot role
       (fun slot => update_slot state (slot_revision slot + 1) (receipt slot) slot)
       (im_slots self)) self).

Definition consume_slot (slot : IdentityMutationProofSlot) : IdentityMutationProofSlot :=
  update_slot (slot_state slot) (slot_revision slot + 1)
    (set_receipt_status ReceiptStatus.Consumed <$> slot_receipt slot) slot.

Definition completed (self : IdentityMutationIntent) : IdentityMutationIntent :=
  bump (set_intent_status MutationStatus.Completed
    (set_intent_slots (map consume_slot (im_slots self)) self)).

Definition awaiting_proof (slot : IdentityMutationProofSlot) : Prop :=
  slot_receipt slot = None
  /\ (slot_state slot = SlotState.ProviderExchangeInProgress
      \/ slot_state slot = SlotState.EmailChallengePending).

Definition issued (slot : IdentityMutationProofSlot) : Prop :=
  receipt_has_status slot ReceiptStatus.Issued = true.

(** Every public verb with its arguments. *)
Inductive verb :=
| BindBrowser (expected_revision : Z) (binding : InteractionBrowserBinding) (now : OffsetDateTime)
| StartProvider (role : IdentityMutationSlotRole) (expected_revision : Z) (now : OffsetDateTime)
| ClaimProviderCallback (role : IdentityMutationSlotRole) (expected_revision : Z)
    (now : OffsetDateTime)
| FailProviderExchange (role : IdentityMutationSlotRole) (expected_revision : Z)
    (now : OffsetDateTime)
| BeginEmail (role : IdentityMutationSlotRole) (expected_revision : Z) (now : OffsetDateTime)
| MarkEmailChallengePending (role : IdentityMutationSlotRole) (expected_revision : Z)
    (now : OffsetDateTime)
| ReplaceEmailChallenge (role : IdentityMutationSlotRole) (expected_revision : Z)
    (now : OffsetDateTime)
| AttachReceipt (expected_revision : Z) (now : OffsetDateTime)
    (receipt : IdentityProofReceiptSnapshot)
| ConfirmReady (expected_revision : Z) (now : OffsetDateTime)
| Complete (expected_revision : Z) (now : OffsetDateTime)
| Cancel (expected_revision : Z) (now : OffsetDateTime)
| Expire (now : OffsetDateTime).

Definition run_verb (v : verb) : intent_op (option IdentityMutationEffect) :=
  match v with
  | BindBrowser r b now => e <~ bind_browser r b now ;; mret (Some e)
  | StartProvider role r now => e <~ start_provider role r now ;; mret (Some e)
  | ClaimProviderCallback role r now => e <~ claim_provider_callback role r now ;; mret (Some e)
  | FailProviderExchange role r now => e <~ fail_provider_exchange role r now ;; mret (Some e)
  | BeginEmail role r now => e <~ begin_email role r now ;; mret (Some e)
  | MarkEmailChallengePending role r now =>
      e <~ mark_email_challenge_pending role r now ;; mret (Some e)
  | ReplaceEmailChallenge role r now => e <~ replace_email_challenge role r now ;; mret (Some e)
  | AttachReceipt r now receipt => e <~ attach_receipt r now receipt ;; mret (Some e)
  | ConfirmReady r now => e <~ confirm_ready r now ;; mret (Some e)
  | Complete r now => e <~ complete r now ;; mret (Some e)
  | Cancel r now => e <~ cancel r now ;; mret (Some e)
  | Expire now => b <~ expire now ;; mret (if b then Some ExpiredEffect else None)
  end.

Definition verb_now (v : verb) : OffsetDateTime :=
  match v with
  | BindBrowser _ _ now | StartProvider _ _ now | ClaimProviderCallback _ _ now
  | FailProviderExchange _ _ now | BeginEmail _ _ now | MarkEmailChallengePending _ _ now
  | ReplaceEmailChallenge _ _ now | AttachReceipt _ now _ | ConfirmReady _ now
  | Complete _ now | Cancel _ now | Expire now => now
  end.

Definition verb_expected_revision (v : verb) : option Z :=
  match v with
  | BindBrowser r _ _ | StartProvider _ r _ | ClaimProviderCallback _ r _
  | FailProviderExchange _ r _ | BeginEmail _ r _ | MarkEmailChallengePending _ r _
  | ReplaceEmailChallenge _ r _ | AttachReceipt r _ _ | ConfirmReady r _
  | Complete r _ | Cancel r _ => Some r
  | Expire _ => None
  end.

(** The verb names the revision it was decided at; the expiry sweep names none. *)
Definition at_revision (v : verb) (s : IdentityMutationIntent) : Prop :=
  match verb_expected_revision v with
  | Some revision => im_intent_revision s = revision
  | None => True
  end.

(** The statuses a verb works on. *)
Definition verb_admits (v : verb) (s : IdentityMutationIntent) : Prop :=
  match v with
  | Complete _ _ => im_status s = MutationStatus.Ready
  | Cancel _ _ | Expire _ => live s
  | _ => pending s
  end.

(** The proof-collection graph of one slot: for each of the six verbs that move a
    slot, the slot it names, the kind of identity the slot must be proved with, the
    states it starts from and the state it leaves. *)
Definition verb_move (v : verb) :
    option (IdentityMutationSlotRole * IdentityKind
            * list SlotState.IdentityMutationSlotState * SlotState.IdentityMutationSlotState) :=
  match v with
  | StartProvider role _ _ =>
      Some (role, ProviderIdentity, [SlotState.Pending], SlotState.ProviderAuthorizationStarted)
  | ClaimProviderCallback role _ _ =>
      Some (role, ProviderIdentity, [SlotState.ProviderAuthorizationStarted],
            SlotState.ProviderExchangeInProgress)
  | FailProviderExchange role _ _ =>
      Some (role, ProviderIdentity,
            [SlotState.ProviderAuthorizationStarted; SlotState.ProviderExchangeInProgress],
            SlotState.ProviderExchangeFailed)
  | BeginEmail role _ _ =>
      Some (role, EmailIdentity, [SlotState.Pending], SlotState.EmailAddressEntry)
  | MarkEmailChallengePending role _ _ =>
      Some (role, EmailIdentity, [SlotState.EmailAddressEntry], SlotState.EmailChallengePending)
  | ReplaceEmailChallenge role _ _ =>
      Some (role, EmailIdentity, [SlotState.EmailChallengePending],
            SlotState.EmailChallengePending)
  | _ => None
  end.

(** A browser may be bound: nothing has happened to any slot. *)
Definition unbound (s : IdentityMutationIntent) : Prop :=
  im_browser_binding s = None
  /\ Forall (fun slot => slot_state slot = SlotState.Pending /\ slot_receipt slot = None)
       (im_slots s).

(** The step of each verb, labelled with the verb and the effect it reports. *)
Inductive intent_step : verb -> IdentityMutationIntent -> IdentityMutationEffect ->
    IdentityMutationIntent -> Prop :=
| step_expire v s :
    verb_admits v s -> at_revision v s -> effective_confirmation_deadline s <= verb_now v ->
    intent_step v s ExpiredEffect (terminalized MutationStatus.Expired s)
| step_cancel now s :
    live s -> now < effective_confirmation_deadline s ->
    intent_step (Cancel (im_intent_revision s) now) s Applied
      (terminalized MutationStatus.Cancelled s)
| step_bind binding now s :
    pending s -> now < effective_confirmation_deadline s ->
    InteractionBrowserBinding_validate binding = Ok tt -> unbound s ->
    intent_step (BindBrowser (im_intent_revision s) binding now) s Applied
      (bump (set_intent_binding (Some binding) s))
| step_slot v role kind from next slot s :
    verb_move v = Some (role, kind, from, next) -> at_revision v s ->
    pending s -> verb_now v < effective_confirmation_deadline s ->
    is_some (im_browser_binding s) = true -> intent_slot s role = Ok slot ->
    ProofMethodAuthority_identity_kind (slot_authority slot) = kind -> slot_state slot ∈ from ->
    intent_step v s Applied (slot_written role next slot_receipt s)
| step_attach now receipt slot s :
    pending s -> now < effective_confirmation_deadline s ->
    is_some (im_browser_binding s) = true ->
    intent_slot s (rc_role receipt) = Ok slot -> awaiting_proof slot ->
    validate_receipt_for_slot s receipt slot = Ok tt ->
    rc_captured_intent_revision receipt = im_intent_revision s ->
    rc_issued_at receipt <= now < rc_expires_at receipt ->
    intent_step (AttachReceipt (im_intent_revision s) now receipt) s Applied
      (slot_written (rc_role receipt) SlotState.Proved
         (fun _ => Some (mkRestoredIdentityProofReceipt receipt ReceiptStatus.Issued)) s)
| step_ready now s :
    pending s -> now < effective_confirmation_deadline s ->
    Forall (fun slot => slot_state slot = SlotState.Proved /\ issued slot) (im_slots s) ->
    intent_step (ConfirmReady (im_intent_revision s) now) s Applied
      (set_intent_status MutationStatus.Ready (bump s))
| step_complete now s :
    im_status s = MutationStatus.Ready -> now < effective_confirmation_deadline s ->
    Forall issued (im_slots s) ->
    intent_step (Complete (im_intent_revision s) now) s Applied (completed s).

(** The one failure that is not atomic: [bind_browser] writes the binding before it
    computes the next revision, so with no revision left it fails with the binding
    in place. *)
Definition half_bound (v : verb) (s s' : IdentityMutationIntent) : Prop :=
  exists binding now,
    v = BindBrowser (im_intent_revision s) binding now /\ ~ i64_range (im_intent_revision s + 1)
    /\ pending s /\ InteractionBrowserBinding_validate binding = Ok tt /\ unbound s
    /\ s' = set_intent_binding (Some binding) s.

(** A verb performs its own step and says which effect it had; the expiry sweep may
    also report that nothing was due; otherwise the verb fails and leaves the intent
    alone, but for [half_bound]. *)
Definition verb_spec (v : verb) (s s' : IdentityMutationIntent)
    (r : result DomainError (option IdentityMutationEffect)) : Prop :=
  match r with
  | Ok (Some effect) => intent_step v s effect s'
  | Ok None =>
      s' = s /\ exists now, v = Expire now
                           /\ (~ live s \/ now < effective_confirmation_deadline s)
  | Err _ => s' = s \/ half_bound v s s'
  end.

(** ** The verbs refine the protocol *)
Lemma next_revision_cases r :
  next_revision r = Ok (r + 1) /\ i64_range (r + 1) \/ next_revision r = Err InvalidTransition.
Proof.
  unfold next_revision; destruct (checked_add_i64 r 1) eqn:Hr; simpl; [|by right].
  apply checked_add_i64_some in Hr as [-> ?]; by left.
Qed.

Lemma next_slot_revisions_cases slots :
  next_slot_revisions slots = Ok (map (fun slot => slot_revision slot + 1) slots)
  \/ next_slot_revisions slots = Err InvalidTransition.
Proof.
  unfold next_slot_revisions; induction slots as [|slot slots IH]; simpl; [by left|].
  destruct (next_revision_cases (slot_revision slot)) as [[-> _]| ->]; simpl; [|by right].
  destruct IH as [-> | ->]; [by left | by right].
Qed.

Lemma zip_with_map_self {A B C} (f : A -> B -> C) (g : A -> B) l :
  zip_with f l (map g l) = map (fun x => f x (g x)) l.
Proof. induction l; simpl; congruence. Qed.

Lemma consume_slots_issued slots :
  Forall issued slots ->
  consume_slots slots (map (fun slot => slot_revision slot + 1) slots)
  = (map consume_slot slots, Ok tt).
Proof.
  induction 1 as [|slot slots Hs _ IH]; simpl; [done|].
  unfold issued, receipt_has_status in Hs; unfold consume_slot at 1.
  destruct (slot_receipt slot); [by rewrite IH | done].
Qed.

(** The effects of [terminalize] and of the pending check. *)
Lemma terminalize_cases status s :
  status = MutationStatus.Expired \/ status = MutationStatus.Cancelled ->
  live s ->
  terminalize status s = (terminalized status s, Ok tt)
  \/ terminalize status s = (s, Err InvalidTransition).
Proof.
  intros Hst Hl; unfold terminalize, mseq, mget; simpl.
  rewrite Hl, orb_false_r.
  replace (negb _) with false by (destruct Hst; subst; done); unfold mlift.
  destruct (next_revision_cases (im_intent_revision s)) as [[-> _]| ->]; [|by right].
  destruct (next_slot_revisions_cases (im_slots s)) as [-> | ->]; [|by right].
  left; unfold mmodify; simpl; by rewrite zip_with_map_self.
Qed.

Definition pending_cases (expected_revision : Z) (now : OffsetDateTime)
    (body : intent_op IdentityMutationEffect) (s s' : IdentityMutationIntent)
    (r : result DomainError IdentityMutationEffect) : Prop :=
  (s' = s /\ r = Err InvalidTransition)
  \/ (pending s /\ im_intent_revision s = expected_revision
      /\ effective_confirmation_deadline s <= now
      /\ s' = terminalized MutationStatus.Expired s /\ r = Ok ExpiredEffect)
  \/ (pending s /\ im_intent_revision s = expected_revision
      /\ now < effective_confirmation_deadline s /\ body s = (s', r)).

Lemma while_pending_cases expected_revision now body s s' r :
  while_pending expected_revision now body s = (s', r) ->
  pending_cases expected_revision now body s s' r.
Proof.
  unfold while_pending, ensure_pending, mseq at 1 2, mget.
  destruct (_ || _) eqn:Hg; [intros [= <- <-]; by left|]; bool_prop; destruct Hg as [Hp Hr].
  destruct (Z.leb_spec (effective_confirmation_deadline s) now).
  - destruct (terminalize_cases MutationStatus.Expired s) as [Ht|Ht];
      [by left | by unfold live; rewrite Hp | |];
      unfold mseq; rewrite Ht; intros [= <- <-]; [right; left; done | by left].
  - intros Hb; do 2 right; done.
Qed.

(** The slot a role names is the only one written through it. *)
Lemma intent_slot_unique s role slot :
  intent_slot s role = Ok slot ->
  forall x, x ∈ im_slots s -> slot_role x = role -> x = slot.
Proof.
  unfold intent_slot; destruct (base.filter _ _) as [|y [|]] eqn:Hf; try done.
  intros [= ->] x Hx Hrole.
  assert (x ∈ [slot]) as Hin by (rewrite <- Hf; by apply list_elem_of_filter).
  by apply list_elem_of_singleton in Hin.
Qed.

Lemma intent_slot_elem s role slot :
  intent_slot s role = Ok slot -> slot ∈ im_slots s /\ slot_role slot = role.
Proof.
  unfold intent_slot; destruct (base.filter _ _) as [|y [|]] eqn:Hf; try done.
  intros [= ->].
  assert (slot ∈ [slot]) as Hin by (by apply list_elem_of_singleton).
  rewrite <- Hf in Hin; apply list_elem_of_filter in Hin; naive_solver.
Qed.

Lemma write_slot_ext s role slot f g :
  intent_slot s role = Ok slot -> f slot = g slot ->
  write_slot role f (im_slots s) = write_slot role g (im_slots s).
Proof.
  intros Hs Hfg; apply map_ext_in; intros x Hx%list_elem_of_In.
  case_bool_decide; [|done]; by rewrite (intent_slot_unique _ _ _ Hs x).
Qed.

Definition op_spec (v : verb) (s s' : IdentityMutationIntent)
    (r : result DomainError IdentityMutationEffect) : Prop :=
  match r with
  | Ok effect => intent_step v s effect s'
  | Err _ => s' = s
  end.

Lemma pending_live s : pending s -> live s.
Proof. unfold pending, live; by intros ->. Qed.
#[export] Hint Resolve pending_live : intent.
#[export] Hint Constructors intent_step : intent.

(** An operation guarded by [ensure_pending] refines the protocol when its
    body does while the intent is pending and unexpired. *)
Lemma while_pending_refines v expected_revision now body (P : _ -> _ -> Prop) s s' r :
  verb_now v = now -> verb_expected_revision v = Some expected_revision ->
  (forall s, pending s -> verb_admits v s) -> (forall s' r, op_spec v s s' r -> P s' r) ->
  (pending s -> im_intent_revision s = expected_revision ->
   now < effective_confirmation_deadline s -> body s = (s', r) -> P s' r) ->
  while_pending expected_revision now body s = (s', r) -> P s' r.
Proof.
  intros Hn He Ha HP Hbody
    [[-> ->]|[(Hp & Hr & Hd & -> & ->)|(? & ? & ? & ?)]]%while_pending_cases; [by apply HP| |auto].
  apply HP, step_expire; [auto|unfold at_revision; by rewrite He|by rewrite Hn].
Qed.

Lemma transition_slot_refines v role kind from next expected_revision t s s' r :
  verb_move v = Some (role, kind, from, next) -> verb_expected_revision v = Some expected_revision ->
  (forall s, pending s -> verb_admits v s) ->
  (forall a state to, t a state = Ok to ->
     to = next /\ ProofMethodAuthority_identity_kind a = kind /\ state ∈ from) ->
  transition_slot role expected_revision (verb_now v) t s = (s', r) -> op_spec v s s' r.
Proof.
  intros Hm He Ha Ht; apply (while_pending_refines v); try done; intros Hp Hrev Hd.
  unfold mseq, mget, mlift, mmodify, mret, mfail.
  destruct (is_none _) eqn:Hb; [by intros [= <- <-]|].
  destruct (next_revision_cases (im_intent_revision s)) as [[-> _]| ->]; [|by intros [= <- <-]].
  destruct (intent_slot s role) as [slot|] eqn:Hs; [|by intros [= <- <-]].
  destruct (t _ _) as [to|] eqn:Hn; [|by intros [= <- <-]]; apply Ht in Hn as (-> & Hk & Hin).
  destruct (next_revision_cases (slot_revision slot)) as [[-> _]| ->]; [|by intros [= <- <-]].
  intros [= <- <-]; simpl.
  erewrite write_slot_ext with (slot := slot)
    (g := fun slot => update_slot next (slot_revision slot + 1) (slot_receipt slot) slot);
    [|done|done].
  eapply (step_slot v role kind from next slot); eauto using some_of_not_none.
  unfold at_revision; by rewrite He.
Qed.

Lemma provider_transition_moves allowed next a from to :
  provider_transition allowed next a from = Ok to ->
  to = next /\ ProofMethodAuthority_identity_kind a = ProviderIdentity /\ from ∈ allowed.
Proof.
  unfold provider_transition; intros [Hg [= ->]]%if_err_ok; bool_prop; naive_solver.
Qed.

Lemma email_transition_moves allowed next a from to :
  email_transition allowed next a from = Ok to ->
  to = next /\ ProofMethodAuthority_identity_kind a = EmailIdentity /\ from ∈ [allowed].
Proof.
  unfold email_transition; intros [Hg [= ->]]%if_err_ok; bool_prop; destruct Hg as [? ->].
  split_and!; [done..|by apply list_elem_of_singleton].
Qed.

(** The negated [any] of the guards, as a property of every slot. *)
Lemma existsb_false_Forall {A} (f : A -> bool) (P : A -> Prop) l :
  (forall x, f x = false -> P x) -> existsb f l = false -> Forall P l.
Proof.
  intros HP; induction l as [|x l IH]; simpl; intros Hf; constructor;
    apply orb_false_iff in Hf as [? ?]; auto.
Qed.

Lemma bind_browser_refines expected_revision b now s s' r :
  let v := BindBrowser expected_revision b now in
  bind_browser expected_revision b now s = (s', r) ->
  op_spec v s s' r \/ is_ok r = false /\ half_bound v s s'.
Proof.
  intros v; unfold bind_browser, mseq at 1, mlift at 1.
  destruct (InteractionBrowserBinding_validate b) as [[]|] eqn:Hv; [|intros [= <- <-]; by left].
  apply (while_pending_refines v expected_revision now _
           (fun s' r => op_spec v s s' r \/ is_ok r = false /\ half_bound v s s')); try done;
    [by intros; left|]; intros Hp <- Hd.
  unfold mseq, mget, mlift, mmodify, mret, mfail.
  destruct (_ || _) eqn:Hg; [intros [= <- <-]; by left|].
  apply orb_false_iff in Hg as [Hb Hs].
  assert (unbound s) as Hun.
  { split; [by apply none_of_not_some|]; eapply existsb_false_Forall; [|done].
    intros x Hx; apply orb_false_iff in Hx as [? ?]; bool_prop; auto using none_of_not_some. }
  unfold next_revision; destruct (checked_add_i64 _ _) eqn:Hr.
  - apply checked_add_i64_some in Hr as [-> _]; intros [= <- <-]; left; by apply step_bind.
  - apply checked_add_i64_none in Hr; intros [= <- <-]; right; split; [done|].
    by exists b, now.
Qed.

Lemma attach_receipt_refines expected_revision now receipt s s' r :
  attach_receipt expected_revision now receipt s = (s', r) ->
  op_spec (AttachReceipt expected_revision now receipt) s s' r.
Proof.
  unfold attach_receipt, mseq at 1, mget at 1.
  destruct (_ || _) eqn:Hg; [by intros [= <- <-]|].
  apply orb_false_iff in Hg as [_ Hb%some_of_not_none].
  unfold mseq at 1, mlift at 1; destruct (intent_slot s (rc_role receipt)) as [slot|] eqn:Hs;
    [|by intros [= <- <-]].
  unfold mseq at 1, mlift at 1; destruct (validate_receipt_for_slot s receipt slot) as [[]|] eqn:Hv;
    [|by intros [= <- <-]].
  destruct (_ || _) eqn:Ht; [by intros [= <- <-]|].
  bool_prop; destruct (_ || _) eqn:Hst; [by intros [= <- <-]|].
  apply orb_false_iff in Hst as [Hst Hnr%none_of_not_some].
  apply (while_pending_refines (AttachReceipt expected_revision now receipt)); try done;
    intros Hp <- Hd.
  unfold mseq, mget, mlift, mmodify, mret, mfail; rewrite Hs.
  destruct (next_revision_cases (im_intent_revision s)) as [[-> _]| ->]; [|by intros [= <- <-]].
  destruct (next_revision_cases (slot_revision slot)) as [[-> _]| ->]; [|by intros [= <- <-]].
  intros [= <- <-]; simpl; bool_prop.
  set (rr := Some (mkRestoredIdentityProofReceipt receipt ReceiptStatus.Issued)).
  erewrite write_slot_ext with (slot := slot)
    (g := fun slot => update_slot SlotState.Proved (slot_revision slot + 1) rr slot); [|done|done].
  apply (step_attach now receipt slot); unfold awaiting_proof; auto; [|lia].
  destruct Ht as [[-> _] _]; done.
Qed.

Lemma confirm_ready_refines expected_revision now s s' r :
  confirm_ready expected_revision now s = (s', r) ->
  op_spec (ConfirmReady expected_revision now) s s' r.
Proof.
  apply (while_pending_refines (ConfirmReady expected_revision now)); try done; intros Hp <- Hd.
  unfold mseq, mget, mlift, mmodify, mret, mfail.
  destruct (existsb _ _) eqn:Hs; [by intros [= <- <-]|].
  destruct (next_revision_cases (im_intent_revision s)) as [[-> _]| ->]; [|by intros [= <- <-]].
  intros [= <- <-]; simpl; apply step_ready; auto.
  eapply existsb_false_Forall; [|done]; intros x Hx; bool_prop; done.
Qed.

Lemma terminalize_refines (A : Type) status (a : A) s s' r :
  status = MutationStatus.Expired \/ status = MutationStatus.Cancelled -> live s ->
  (terminalize status ;;~ mret a) s = (s', r) ->
  s' = terminalized status s /\ r = Ok a \/ s' = s /\ r = Err InvalidTransition.
Proof.
  intros Hst Hl; unfold mseq.
  destruct (terminalize_cases status s Hst Hl) as [-> | ->]; intros [= <- <-]; auto.
Qed.

Lemma complete_refines expected_revision now s s' r :
  complete expected_revision now s = (s', r) -> op_spec (Complete expected_revision now) s s' r.
Proof.
  unfold complete, mseq at 1, mget at 1.
  destruct (_ || _) eqn:Hg; [by intros [= <- <-]|]; bool_prop; destruct Hg as [Hready <-].
  assert (live s) as Hl by (unfold live; by rewrite Hready).
  destruct (Z.leb_spec (effective_confirmation_deadline s) now).
  { intros [[-> ->]|[-> ->]]%terminalize_refines; simpl; auto; by apply step_expire. }
  destruct (existsb _ _) eqn:Hi; [by intros [= <- <-]|].
  assert (Forall issued (im_slots s)) as Hiss.
  { eapply existsb_false_Forall; [|done]; intros x Hx; by bool_prop. }
  unfold mseq, mlift, mmodify, mret.
  destruct (next_revision_cases (im_intent_revision s)) as [[-> _]| ->]; [|by intros [= <- <-]].
  destruct (next_slot_revisions_cases (im_slots s)) as [-> | ->]; [|by intros [= <- <-]].
  rewrite (consume_slots_issued _ Hiss); simpl; intros [= <- <-]; by apply step_complete.
Qed.

Lemma cancel_refines expected_revision now s s' r :
  cancel expected_revision now s = (s', r) -> op_spec (Cancel expected_revision now) s s' r.
Proof.
  unfold cancel, mseq at 1, mget at 1.
  destruct (_ || _) eqn:Hg; [by intros [= <- <-]|]; apply orb_false_iff in Hg as [Hl Hrev].
  bool_prop; subst; destruct (Z.leb_spec (effective_confirmation_deadline s) now);
    intros [[-> ->]|[-> ->]]%terminalize_refines; simpl; auto;
    [by apply step_expire|by apply step_cancel].
Qed.

Lemma expire_refines now s s' r :
  run_verb (Expire now) s = (s', r) -> verb_spec (Expire now) s s' r.
Proof.
  simpl; unfold mseq at 1, expire, mseq at 1, mget at 1; destruct (_ || _) eqn:Hg.
  - intros [= <- <-]; simpl; split; [done|]; exists now; split; [done|].
    apply orb_true_iff in Hg as [Hl|Hd]; [left; unfold live; by rewrite Hl|right; lia].
  - bool_prop; destruct Hg as [Hl Hd]; destruct ((_ ;;~ _) s) as [s1 r1] eqn:Ht.
    apply terminalize_refines in Ht as [[-> ->]|[-> ->]]; [| |by left|done];
      intros [= <- <-]; simpl; [by apply step_expire|by left].
Qed.

(** Each verb does its own step. *)
Lemma verb_refines v s s' r : run_verb v s = (s', r) -> verb_spec v s s' r.
Proof.
  assert (forall (op : intent_op IdentityMutationEffect),
    (forall s1 r1, op s = (s1, r1) -> op_spec v s s1 r1 \/ is_ok r1 = false /\ half_bound v s s1) ->
    (e <~ op ;; mret (Some e)) s = (s', r) -> verb_spec v s s' r) as Hop.
  { intros op Hop; unfold mseq; destruct (op s) as [s1 r1]; specialize (Hop _ _ eq_refl).
    destruct r1 as [e|e]; intros [= <- <-]; simpl in *; naive_solver. }
  destruct v; [..|apply expire_refines]; simpl; apply Hop; clear Hop; intros s1 r1;
    first [ apply bind_browser_refines
          | intros Hr; left; first [ by apply attach_receipt_refines | by apply confirm_ready_refines
              | by apply complete_refines | by apply cancel_refines
              | revert Hr;
                match goal with |- _ -> op_spec ?v _ _ _ => eapply (transition_slot_refines v) end;
                [done..|]; intros *;
                first [apply provider_transition_moves | apply email_transition_moves] ]].
Qed.

(** ** Preservation of the invariant *)
Definition same_frame (a b : IdentityMutationProofSlot) : Prop :=
  slot_id b = slot_id a /\ slot_role b = slot_role a /\ slot_ordinal b = slot_ordinal a
  /\ slot_target b = slot_target a /\ slot_authority b = slot_authority a.

Definition same_header (s s' : IdentityMutationIntent) : Prop :=
  im_id s' = im_id s /\ im_project_id s' = im_project_id s /\ im_kind s' = im_kind s
  /\ im_created_at s' = im_created_at s /\ im_expires_at s' = im_expires_at s.

Lemma validate_slot_set_frame p k f slots :
  (forall x, same_frame x (f x)) ->
  validate_slot_set p k (map f slots) = validate_slot_set p k slots.
Proof.
  intros Hf.
  assert (map slot_target (map f slots) = map slot_target slots) as Ht.
  { rewrite map_map; apply map_ext; intros x; apply Hf. }
  assert (validate_targets p (map f slots) = validate_targets p slots) as Hv.
  { clear Ht; induction slots as [|x slots IH]; simpl; [done|].
    destruct (Hf x) as (_ & _ & _ & -> & _); by rewrite IH. }
  assert (forall i rs, slots_in_order p i (map f slots) rs = slots_in_order p i slots rs) as Ho.
  { clear Ht Hv; induction slots as [|x slots IH]; intros i [|r rs]; simpl; [done..|].
    destruct (Hf x) as (_ & -> & -> & -> & _); by rewrite IH. }
  unfold validate_slot_set, valid_targets, list_len; rewrite Hv, Ho, Ht, length_map; done.
Qed.

Lemma validate_receipt_frame s s' receipt slot slot' :
  same_header s s' -> im_browser_binding s' = im_browser_binding s -> same_frame slot slot' ->
  validate_receipt_for_slot s' receipt slot' = validate_receipt_for_slot s receipt slot.
Proof.
  intros (H1 & H2 & H3 & H4 & H5) H6 (F1 & F2 & F3 & F4 & F5).
  unfold validate_receipt_for_slot; by rewrite H1, H2, H4, H5, H6, F1, F2, F4.
Qed.

Lemma forallb_map_true {A B} (f : A -> B) (P : B -> bool) l :
  (forall x, x ∈ l -> P (f x) = true) -> forallb P (map f l) = true.
Proof.
  intros HP; apply forallb_forall; intros y (x & <- & Hx%list_elem_of_In)%in_map_iff; auto.
Qed.

Section preservation.
Context `{UrlLib}.

(** A change of the mutable fields keeps the invariant when it re-establishes
    the checks on those fields. *)
Lemma wf_evolve s s' f :
  wf s -> same_header s s' -> im_slots s' = map f (im_slots s) ->
  (forall x, same_frame x (f x)) ->
  0 < im_intent_revision s' -> binding_valid s' ->
  validate_browser_binding_state s' = Ok tt ->
  (forall x, x ∈ im_slots s -> slot_dynamic s' (f x)) ->
  valid_aggregate_state s' = true -> wf s'.
Proof.
  intros Hwf Hh Hs Hf Hr Hb Hbs Hd Ha; destruct Hwf, Hh as (H1 & H2 & H3 & H4 & H5).
  constructor; rewrite ?H1, ?H2, ?H3, ?H4, ?H5; auto; rewrite Hs.
  - by rewrite validate_slot_set_frame.
  - apply Forall_map; eapply Forall_impl; [exact wf_static0|]; intros x Hx; unfold slot_static in *.
    destruct (Hf x) as (-> & _ & _ & -> & ->); by rewrite H2.
  - apply Forall_map, Forall_forall; auto.
  - rewrite map_map; erewrite map_ext; [done|]; intros x; apply Hf.
Qed.

Lemma wf_slot s x : wf s -> x ∈ im_slots s -> slot_dynamic s x.
Proof. intros Hwf Hx; eapply Forall_forall; [apply wf_dynamic, Hwf | done]. Qed.

(** In a live intent the receipts there are have been issued, by proved slots. *)
Lemma live_receipt s x r :
  wf s -> live s -> x ∈ im_slots s -> slot_receipt x = Some r ->
  rr_status r = ReceiptStatus.Issued /\ slot_state x = SlotState.Proved.
Proof.
  intros Hwf Hl Hx Hr; destruct (wf_slot _ _ Hwf Hx) as (_ & _ & Hok).
  unfold receipt_ok in Hok; rewrite Hr in Hok; destruct Hok as (_ & _ & Hok).
  revert Hl Hok; unfold live, receipt_state_valid.
  destruct (rr_status r), (im_status s); simpl; try done; rewrite ?andb_false_r; try done;
    rewrite andb_true_iff, bool_decide_eq_true; naive_solver.
Qed.

Lemma validate_browser_binding_state_ok s :
  validate_browser_binding_state s = Ok tt <->
  match im_browser_binding s with
  | Some _ => 1 < im_intent_revision s
  | None =>
      (im_status s = MutationStatus.PendingProof \/ im_status s = MutationStatus.Expired
       \/ im_status s = MutationStatus.Cancelled)
      /\ Forall (fun x => slot_receipt x = None
                          /\ (slot_state x = SlotState.Pending
                              \/ slot_state x = SlotState.Expired)) (im_slots s)
  end.
Proof.
  unfold validate_browser_binding_state; destruct (im_browser_binding s).
  { rewrite if_ok_err; bool_prop; naive_solver. }
  rewrite if_err_ok; split.
  - intros [Hg _]; apply orb_false_iff in Hg as [Hst Hs]; bool_prop; split; [tauto|].
    eapply existsb_false_Forall; [|done]; intros x Hx; apply orb_false_iff in Hx as [? Hx].
    bool_prop; auto using none_of_not_some.
  - intros [Hst Hs]; split; [|done]; apply orb_false_iff; split; [bool_prop; tauto|].
    induction Hs as [|x l [Hr Hx] _ IH]; simpl; [done|]; rewrite IH, Hr, orb_false_r.
    simpl; bool_prop; tauto.
Qed.

Lemma wf_terminalized s status :
  status = MutationStatus.Expired \/ status = MutationStatus.Cancelled ->
  wf s -> live s -> wf (terminalized status s).
Proof.
  intros Hst Hwf Hl; pose proof (wf_revision _ Hwf).
  eapply (wf_evolve s _ (fun slot => expire_slot slot (slot_revision slot + 1))); try done.
  - simpl; lia.
  - apply (wf_binding _ Hwf).
  - pose proof (wf_binding_state _ Hwf) as Hbs; apply validate_browser_binding_state_ok in Hbs.
    apply validate_browser_binding_state_ok; simpl.
    destruct (im_browser_binding s); [lia|]; destruct Hbs as [_ Hbs]; split; [tauto|].
    apply Forall_map; eapply Forall_impl; [done|]; intros x [Hx _]; simpl; by rewrite Hx; auto.
  - intros x Hx; destruct (wf_slot _ _ Hwf Hx) as (Hr & _ & Hok); split_and!; simpl; [lia| |].
    { unfold state_matches_authority; simpl; by destruct (slot_authority x). }
    unfold receipt_ok in *; simpl; destruct (slot_receipt x) as [r|] eqn:Hrr; simpl.
    + destruct (live_receipt s x r Hwf Hl Hx Hrr) as [Hi _], Hok as (Hv & Hc & _).
      rewrite Hi; simpl; split_and!; [|lia|by destruct Hst; subst].
      erewrite validate_receipt_frame; [exact Hv|..]; done.
    + by destruct Hst; subst.
  - assert (forallb (fun x => bool_decide (slot_state x = SlotState.Expired))
              (im_slots (terminalized status s)) = true) as Ha
      by (by apply forallb_map_true).
    by unfold valid_aggregate_state; destruct Hst; subst.
Qed.
(** A slot the verb does not touch stays valid when only the revision grows. *)
Lemma slot_dynamic_untouched s s' x :
  same_header s s' -> im_browser_binding s' = im_browser_binding s -> im_status s' = im_status s ->
  im_intent_revision s <= im_intent_revision s' ->
  slot_dynamic s x -> slot_dynamic s' x.
Proof.
  intros Hh Hb Hst Hr (Hrev & Hm & Hok); split_and!; [done..|].
  unfold receipt_ok in *; rewrite Hst; destruct (slot_receipt x) as [r|]; [|done].
  destruct Hok as (Hv & Hc & Hs); split_and!; [|lia|done].
  erewrite validate_receipt_frame; [exact Hv|done..].
Qed.

Lemma wf_slot_written s role slot st rc :
  wf s -> pending s -> is_some (im_browser_binding s) = true -> intent_slot s role = Ok slot ->
  st <> SlotState.Expired ->
  state_matches_authority (update_slot st (slot_revision slot + 1) (rc slot) slot) = true ->
  receipt_ok (slot_written role st rc s)
    (update_slot st (slot_revision slot + 1) (rc slot) slot) ->
  wf (slot_written role st rc s).
Proof.
  intros Hwf Hp Hb Hs Hst Hm Hok; pose proof (wf_revision _ Hwf).
  eapply (wf_evolve s); try done.
  - intros x; simpl; by case_bool_decide.
  - simpl; lia.
  - apply (wf_binding _ Hwf).
  - apply validate_browser_binding_state_ok; simpl; destruct (im_browser_binding s); [lia|done].
  - intros x Hx; simpl; case_bool_decide as Hr.
    + rewrite (intent_slot_unique _ _ _ Hs x Hx Hr).
      destruct (intent_slot_elem _ _ _ Hs) as [Hin _].
      destruct (wf_slot _ _ Hwf Hin) as (? & _); split_and!; simpl; [lia|done..].
    + apply (slot_dynamic_untouched s); try done; [simpl; lia | by apply wf_slot].
  - unfold valid_aggregate_state; simpl; rewrite Hp; apply forallb_map_true; intros x Hx.
    pose proof (wf_aggregate _ Hwf) as Ha; unfold valid_aggregate_state in Ha; rewrite Hp in Ha.
    destruct (bool_decide (slot_role x = role)); simpl; [by rewrite bool_decide_false|].
    apply (proj1 (forallb_forall _ _) Ha); by apply list_elem_of_In.
Qed.

(** The moves of slots stay inside proof collection. *)
Lemma verb_move_states v role kind from next state x :
  verb_move v = Some (role, kind, from, next) -> state ∈ from ->
  ProofMethodAuthority_identity_kind (slot_authority x) = kind -> slot_state x = next ->
  state <> SlotState.Proved /\ next <> SlotState.Proved /\ next <> SlotState.Expired
  /\ state_matches_authority x = true.
Proof.
  intros Hm Hin Hk Hx; unfold state_matches_authority; rewrite Hx.
  destruct v; simpl in Hm; try discriminate; injection Hm as <- <- <- <-;
    destruct (slot_authority x); try discriminate Hk; split_and!; try done; set_solver.
Qed.

Lemma wf_step_slot v s role kind from next slot :
  verb_move v = Some (role, kind, from, next) ->
  wf s -> pending s -> is_some (im_browser_binding s) = true -> intent_slot s role = Ok slot ->
  ProofMethodAuthority_identity_kind (slot_authority slot) = kind -> slot_state slot ∈ from ->
  wf (slot_written role next slot_receipt s).
Proof.
  intros Hv Hwf Hp Hb Hs Hk Hm; destruct (intent_slot_elem _ _ _ Hs) as [Hin _].
  destruct (verb_move_states _ _ _ _ _ _
              (update_slot next (slot_revision slot + 1) (slot_receipt slot) slot) Hv Hm Hk eq_refl)
    as (Hf & Hnp & Hne & Hma).
  eapply wf_slot_written; try done.
  unfold receipt_ok; simpl; destruct (slot_receipt slot) as [r|] eqn:Hr.
  - by destruct (live_receipt s slot r Hwf (pending_live _ Hp) Hin Hr).
  - rewrite Hp; by destruct next.
Qed.

Lemma wf_step_attach s receipt slot :
  wf s -> pending s -> is_some (im_browser_binding s) = true ->
  intent_slot s (rc_role receipt) = Ok slot -> awaiting_proof slot ->
  validate_receipt_for_slot s receipt slot = Ok tt ->
  rc_captured_intent_revision receipt = im_intent_revision s ->
  wf (slot_written (rc_role receipt) SlotState.Proved
        (fun _ => Some (mkRestoredIdentityProofReceipt receipt ReceiptStatus.Issued)) s).
Proof.
  intros Hwf Hp Hb Hs Haw Hv Hc; eapply wf_slot_written; try done.
  - unfold state_matches_authority; simpl; by destruct (slot_authority slot).
  - unfold receipt_ok; simpl; split_and!; [|lia|by rewrite Hp].
    erewrite validate_receipt_frame; [exact Hv|done..].
Qed.

Lemma wf_bound s binding revision :
  wf s -> pending s -> InteractionBrowserBinding_validate binding = Ok tt ->
  Forall (fun x => slot_state x = SlotState.Pending /\ slot_receipt x = None) (im_slots s) ->
  1 < revision -> wf (set_intent_revision revision (set_intent_binding (Some binding) s)).
Proof.
  intros Hwf Hp Hv Hs Hrev; eapply (wf_evolve s _ id); try done.
  - simpl; by rewrite map_id.
  - simpl; lia.
  - apply validate_browser_binding_state_ok; simpl; lia.
  - intros x Hx; destruct (wf_slot _ _ Hwf Hx) as (? & ? & Hok); split_and!; [done..|].
    destruct (proj1 (Forall_forall _ _) Hs x Hx) as [_ Hr].
    unfold receipt_ok in *; simpl; by rewrite Hr in *.
  - apply (wf_aggregate _ Hwf).
Qed.

(** Any binding that is not yet there would contradict a proved slot. *)
Lemma proved_needs_binding s :
  wf s -> (exists x, x ∈ im_slots s /\ slot_state x = SlotState.Proved) ->
  is_some (im_browser_binding s) = true.
Proof.
  intros Hwf (x & Hx & Hp); pose proof (wf_binding_state _ Hwf) as Hb.
  apply validate_browser_binding_state_ok in Hb; destruct (im_browser_binding s); [done|].
  destruct Hb as [_ Hb]; apply (proj1 (Forall_forall _ _) Hb) in Hx; destruct Hx as [_ [Hx|Hx]]; congruence.
Qed.

Lemma wf_has_slot s : wf s -> exists x, x ∈ im_slots s.
Proof.
  intros Hwf; pose proof (wf_slot_set _ Hwf) as Hv; unfold validate_slot_set in Hv.
  apply rseq_ok in Hv as [_ Hv]; simpl in Hv; apply if_err_ok in Hv as [Hv _].
  destruct (im_slots s) as [|x l]; [by destruct (im_kind s)|]; exists x; by left.
Qed.

(** Moves of the whole intent that leave every slot proved. *)
Lemma wf_all_proved s s' f :
  wf s -> live s -> same_header s s' -> im_browser_binding s' = im_browser_binding s ->
  im_intent_revision s' = im_intent_revision s + 1 ->
  Forall issued (im_slots s) -> im_slots s' = map f (im_slots s) ->
  (forall x, same_frame x (f x)) ->
  (forall x r, x ∈ im_slots s -> slot_receipt x = Some r ->
     slot_state (f x) = SlotState.Proved /\ 0 < slot_revision (f x)
     /\ exists status, slot_receipt (f x) = Some (set_receipt_status status r)
                       /\ receipt_state_valid (im_status s') SlotState.Proved status = true) ->
  valid_aggregate_state s' = true -> wf s'.
Proof.
  intros Hwf Hl Hh Hb Hr Hi Hs Hf Hx Ha; pose proof (wf_revision _ Hwf).
  assert (forall x, x ∈ im_slots s -> exists r, slot_receipt x = Some r) as Hsome.
  { intros x Hin; apply (proj1 (Forall_forall _ _) Hi) in Hin.
    unfold issued, receipt_has_status in Hin; destruct (slot_receipt x); naive_solver. }
  eapply (wf_evolve s _ f); try done; [lia|unfold binding_valid; rewrite Hb; apply (wf_binding _ Hwf)|..].
  - apply validate_browser_binding_state_ok; rewrite Hb.
    destruct (wf_has_slot _ Hwf) as [x Hin], (Hsome x Hin) as [r Hrr].
    assert (is_some (im_browser_binding s) = true) as Hbs.
    { apply (proved_needs_binding _ Hwf); exists x; split; [done|]; by eapply live_receipt. }
    destruct (im_browser_binding s); [lia|done].
  - intros x Hin; destruct (Hsome x Hin) as [r Hrr], (Hx x r Hin Hrr) as (Hp & Hrev & st & Hr' & Hv').
    destruct (wf_slot _ _ Hwf Hin) as (_ & _ & Hok); split_and!; [done| |].
    { unfold state_matches_authority; rewrite Hp; by destruct (slot_authority (f x)). }
    unfold receipt_ok in *; rewrite Hr', Hp; rewrite Hrr in Hok; destruct Hok as (Hv & Hc & _).
    simpl; split_and!; [|lia|done]; erewrite validate_receipt_frame; [exact Hv|done..].
Qed.

Lemma issued_receipt s x :
  wf s -> live s -> Forall issued (im_slots s) -> x ∈ im_slots s ->
  slot_state x = SlotState.Proved
  /\ exists r, slot_receipt x = Some r /\ rr_status r = ReceiptStatus.Issued.
Proof.
  intros Hwf Hl Hi Hx; pose proof (proj1 (Forall_forall _ _) Hi x Hx) as His.
  unfold issued, receipt_has_status in His; destruct (slot_receipt x) as [r|] eqn:Hr; [|done].
  destruct (live_receipt s x r Hwf Hl Hx Hr); eauto.
Qed.

Lemma wf_step_ready s :
  wf s -> pending s ->
  Forall (fun x => slot_state x = SlotState.Proved /\ issued x) (im_slots s) ->
  wf (set_intent_status MutationStatus.Ready (bump s)).
Proof.
  intros Hwf Hp Hs; pose proof (pending_live _ Hp) as Hl.
  assert (Forall issued (im_slots s)) as Hi by (eapply Forall_impl; [done|]; by intros x [_ ?]).
  eapply (wf_all_proved s _ (fun x => x)); try done; [by rewrite map_id| |].
  - intros x r Hx Hr; destruct (live_receipt s x r Hwf Hl Hx Hr) as [Hst Hpr].
    destruct (wf_slot _ _ Hwf Hx) as (Hrev & _); split_and!; [done..|].
    exists ReceiptStatus.Issued; split; [|done]; simpl; rewrite Hr; destruct r; simpl in *; by subst.
  - unfold valid_aggregate_state; simpl; apply forallb_forall; intros x Hx%list_elem_of_In.
    destruct (proj1 (Forall_forall _ _) Hs x Hx) as [-> ->]; done.
Qed.

Lemma wf_step_complete s :
  wf s -> im_status s = MutationStatus.Ready -> Forall issued (im_slots s) -> wf (completed s).
Proof.
  intros Hwf Hr Hi; assert (live s) as Hl by (unfold live; by rewrite Hr).
  eapply (wf_all_proved s _ consume_slot); try done.
  - intros x r Hx Hrr; destruct (live_receipt s x r Hwf Hl Hx Hrr) as [Hst Hpr].
    destruct (wf_slot _ _ Hwf Hx) as (Hrev & _); simpl; rewrite Hrr.
    split_and!; [done|lia|]; by exists ReceiptStatus.Consumed.
  - unfold valid_aggregate_state; simpl; apply forallb_map_true; intros x Hx.
    destruct (issued_receipt s x Hwf Hl Hi Hx) as (Hp & r & Hrr & _).
    unfold receipt_has_status; simpl; by rewrite Hp, Hrr.
Qed.

(** Every step of the protocol keeps the invariant, and so does the failure that
    is not atomic. *)
Lemma admits_live v s : verb_admits v s -> live s.
Proof. destruct v; simpl; auto using pending_live; unfold live; by intros ->. Qed.

Lemma intent_step_wf v s e s' : wf s -> intent_step v s e s' -> wf s'.
Proof.
  intros Hwf Hst; pose proof (wf_revision _ Hwf).
  destruct Hst as [| | ? ? ? ? ? ? [? ?] | | | |];
    eauto using wf_terminalized, admits_live, wf_step_slot, wf_step_attach, wf_step_ready,
      wf_step_complete.
  apply wf_bound; [done..|simpl; lia].
Qed.

Lemma half_bound_wf v s s' : wf s -> half_bound v s s' -> wf s'.
Proof.
  intros Hwf (binding & now & _ & Hmax & Hp & Hv & [_ Hs] & ->).
  pose proof (wf_revision _ Hwf) as Hpos; assert (1 < im_intent_revision s).
  { unfold i64_range, i64_min, i64_max in Hmax; lia. }
  pose proof (wf_bound s binding (im_intent_revision s) Hwf Hp Hv Hs) as Hb.
  destruct s; by apply Hb.
Qed.

(** ** Reachable intents *)
Context (new_v4 : Z -> Uuid).

(** An intent created and then driven by any verbs with any arguments, the calls
    that fail included. *)
Inductive reachable : IdentityMutationIntent -> Prop :=
| reachable_create id project_id plan created_at expires_at s :
    IdentityMutationIntent_create new_v4 id project_id plan created_at expires_at = Ok s ->
    reachable s
| reachable_verb v s s' r :
    reachable s -> run_verb v s = (s', r) -> reachable s'.

(** Version-4 UUIDs are neither nil nor repeated. *)
Context (new_v4_not_nil : forall i, new_v4 i <> 0).
Context (new_v4_unique : forall i j, new_v4 i = new_v4 j -> i = j).

Definition slot_initial (project_id : Uuid) (x : IdentityMutationProofSlot) : Prop :=
  slot_id x <> 0 /\ slot_state x = SlotState.Pending /\ slot_revision x = 1
  /\ slot_receipt x = None
  /\ ProofMethodAuthority_validate (slot_authority x) project_id
       (target_identity_kind (slot_target x)) = Ok tt.

Lemma build_slots_ok project_id ordinal definitions slots :
  build_slots new_v4 project_id ordinal definitions = Ok slots ->
  Forall (slot_initial project_id) slots /\ NoDup (map slot_id slots)
  /\ (forall u, u ∈ map slot_id slots -> exists i, ordinal <= i /\ u = new_v4 i).
Proof.
  revert ordinal slots; induction definitions as [|[[role target] authority] ds IH];
    intros ordinal slots; simpl.
  { intros [= <-]; split_and!; [constructor|constructor|]; intros u Hu; by apply elem_of_nil in Hu. }
  intros [Hv Hk]%rseq_ok; inv_ok.
  destruct (IH _ _ ltac:(eassumption)) as (Hf & Hn & Hi); split_and!.
  - constructor; [unfold slot_initial; simpl; auto | done].
  - simpl; apply NoDup_cons; split; [|done]; intros (i & Hle & He)%Hi.
    apply new_v4_unique in He; lia.
  - simpl; intros u [->|(i & ? & ->)%Hi]%elem_of_cons; [by exists ordinal|]; exists i; split; [lia|done].
Qed.

Lemma validate_targets_ok project_id slots x :
  validate_targets project_id slots = Ok tt -> x ∈ slots ->
  target_project_id (slot_target x) = project_id.
Proof.
  induction slots as [|y slots IH]; simpl; [by intros _ ?%elem_of_nil|].
  intros [Hv Hvs]%rseq_ok [->|Hx]%elem_of_cons; [|auto].
  unfold validate_target, validate_existing in Hv.
  destruct (slot_target y); apply if_err_ok in Hv as [Hv _]; bool_prop; simpl; tauto.
Qed.

Lemma create_wf id project_id plan created_at expires_at s :
  IdentityMutationIntent_create new_v4 id project_id plan created_at expires_at = Ok s -> wf s.
Proof.
  unfold IdentityMutationIntent_create, derive_slots.
  intros [Hid%reject_nil_ok [Hp%reject_nil_ok [Hl Hk]%rseq_ok]%rseq_ok]%rseq_ok.
  apply rbind_ok in Hk as ([kind slots] & Hd & [= <-]).
  apply rbind_ok in Hd as ([kind' defs] & _ & Hd); apply rbind_ok in Hd as (slots' & Hb & Hd).
  apply rseq_ok in Hd as [Hvs [= -> ->]].
  destruct (build_slots_ok _ _ _ _ Hb) as (Hf & Hn & _).
  assert (validate_targets project_id slots = Ok tt) as Hvt.
  { unfold validate_slot_set in Hvs; by apply rseq_ok in Hvs as [? _]. }
  constructor; simpl; try done.
  - apply validate_browser_binding_state_ok; simpl; split; [auto|].
    eapply Forall_impl; [done|]; intros x (_ & ? & _ & ? & _); auto.
  - apply Forall_forall; intros x Hx; destruct (proj1 (Forall_forall _ _) Hf x Hx) as (?&_&_&_&?).
    split_and!; [done|by eapply validate_targets_ok|done].
  - eapply Forall_impl; [done|]; intros x (_ & Hs & Hr & Hrc & _); split_and!; [lia|..].
    + unfold state_matches_authority; rewrite Hs; by destruct (slot_authority x).
    + unfold receipt_ok; by rewrite Hrc, Hs.
  - unfold valid_aggregate_state; simpl; apply forallb_forall; intros x Hx%list_elem_of_In.
    destruct (proj1 (Forall_forall _ _) Hf x Hx) as (_ & -> & _); done.
Qed.

Lemma reachable_wf s : reachable s -> wf s.
Proof.
  induction 1 as [|v s s' r Hr IH Hv]; [by eapply create_wf|]; apply verb_refines in Hv.
  destruct r as [[e|]|]; simpl in Hv;
    [by eapply intent_step_wf | by destruct Hv; subst
    | destruct Hv; [by subst | by eapply half_bound_wf]].
Qed.
End preservation.

(** ** Consequences *)
Lemma step_revision v s e s' :
  intent_step v s e s' -> im_intent_revision s' = im_intent_revision s + 1.
Proof. by intros []. Qed.

Lemma while_pending_stale expected_revision now body s :
  im_intent_revision s <> expected_revision \/ ~ pending s ->
  while_pending expected_revision now body s = (s, Err InvalidTransition).
Proof.
  intros Hs; unfold while_pending, ensure_pending, mseq, mget.
  destruct (_ || _) eqn:Hg; [done|]; bool_prop; unfold pending in Hs; naive_solver.
Qed.

(** A verb that carries another revision, or meets a finished intent, is refused. *)
Lemma verb_refused v s :
  (exists e, verb_expected_revision v = Some e /\ e <> im_intent_revision s) \/
  (~ live s /\ verb_expected_revision v <> None) ->
  exists err, run_verb v s = (s, Err err).
Proof.
  intros Hs.
  assert (forall e, verb_expected_revision v = Some e ->
            im_intent_revision s <> e \/ ~ pending s) as Hstale.
  { intros e He; destruct Hs as [(e' & He' & Hne)|[Hl _]]; [left; congruence|right].
    intros Hp; by apply Hl, pending_live. }
  destruct v; simpl in *; try specialize (Hstale _ eq_refl);
    unfold start_provider, claim_provider_callback, fail_provider_exchange, begin_email,
      mark_email_challenge_pending, replace_email_challenge, transition_slot, confirm_ready;
    try (exists InvalidTransition; unfold mseq at 1; by rewrite while_pending_stale).
  - unfold bind_browser, mseq at 1 2, mlift at 1.
    destruct (InteractionBrowserBinding_validate _) as [[]|e']; [|by exists e'].
    exists InvalidTransition; by rewrite while_pending_stale.
  - exists InvalidTransition; unfold attach_receipt, mseq at 1 2, mget at 1.
    destruct (_ || _) eqn:Hg; [done|]; bool_prop; unfold pending in *; naive_solver.
  - exists InvalidTransition; unfold complete, mseq at 1 2, mget at 1.
    destruct (_ || _) eqn:Hg; [done|]; bool_prop.
    destruct Hs as [(e & [= <-] & ?)|[Hl _]]; [naive_solver|].
    destruct Hl; unfold live; by destruct Hg as [-> _].
  - exists InvalidTransition; unfold cancel, mseq at 1 2, mget at 1.
    destruct (_ || _) eqn:Hg; [done|]; apply orb_false_iff in Hg as [Hl Hr]; bool_prop.
    destruct Hs as [(e & [= <-] & ?)|[Hnl _]]; [naive_solver | by destruct Hnl].
  - naive_solver.
Qed.

(** An instant before the deadline is before every expiry it is the minimum of. *)
Lemma fold_min_le l a : fold_left Z.min l a <= a /\ forall x, x ∈ l -> fold_left Z.min l a <= x.
Proof.
  revert a; induction l as [|y l IH]; intros a; simpl; [split; [lia|by intros x ?%elem_of_nil]|].
  destruct (IH (Z.min a y)) as [Ha Hl]; split; [lia|].
  intros x [->|Hx]%elem_of_cons; [lia | auto].
Qed.

Lemma deadline_lt s now :
  now < effective_confirmation_deadline s ->
  now < im_expires_at s
  /\ forall x r, x ∈ im_slots s -> slot_receipt x = Some r -> now < rc_expires_at (rr_snapshot r).
Proof.
  unfold effective_confirmation_deadline; intros Hd.
  set (f := fun slot => rc_expires_at ∘ rr_snapshot <$> slot_receipt slot) in *.
  destruct (fold_min_le (omap f (im_slots s)) (im_expires_at s)) as [He Hl]; split; [lia|].
  intros x r Hx Hr.
  assert (rc_expires_at (rr_snapshot r) ∈ omap f (im_slots s)) as Hin.
  { apply list_elem_of_omap; exists x; split; [done|]; unfold f; by rewrite Hr. }
  apply Hl in Hin; lia.
Qed.

Lemma Forall_existsb_false {A} (f : A -> bool) (P : A -> Prop) l :
  Forall P l -> (forall x, P x -> f x = false) -> existsb f l = false.
Proof. intros Hl Hf; induction Hl as [|x l Hx _ IH]; simpl; [done|]; by rewrite (Hf x Hx), IH. Qed.

Lemma next_revision_ok r : 0 < r < i64_max -> next_revision r = Ok (r + 1).
Proof.
  intros Hr; unfold next_revision.
  destruct (checked_add_i64 r 1) eqn:Ha; [by apply checked_add_i64_some in Ha as [-> _]|].
  apply checked_add_i64_none in Ha; destruct Ha; unfold i64_range, i64_min, i64_max in *; lia.
Qed.

Lemma next_slot_revisions_ok slots :
  Forall (fun x => 0 < slot_revision x < i64_max) slots ->
  next_slot_revisions slots = Ok (map (fun x => slot_revision x + 1) slots).
Proof.
  induction 1 as [|x l Hx _ IH]; [done|]; unfold next_slot_revisions; simpl.
  rewrite next_revision_ok by done; simpl; by setoid_rewrite IH.
Qed.

Section claims.
Context `{UrlLib}.
Context (new_v4 : Z -> Uuid).
Context (new_v4_not_nil : forall i, new_v4 i <> 0).
Context (new_v4_unique : forall i j, new_v4 i = new_v4 j -> i = j).

(** C11: every public method of the aggregate does its own step of the protocol and
    nothing else.  A call that has an effect was made at the aggregate's current
    revision, in a status the method works on, and either expired the aggregate at
    its deadline or, before it, made exactly the change of that method; only the
    expiry sweep may report that nothing was due; and a call that fails leaves the
    aggregate as it was, with the one exception that [bind_browser], called at the
    last revision, fails with the binding already written. *)
Theorem intent_verbs_refine_protocol (v : verb) (s s' : IdentityMutationIntent)
    (r : result DomainError (option IdentityMutationEffect)) :
  run_verb v s = (s', r) ->
  match r with
  | Ok (Some effect) => intent_step v s effect s'
  | Ok None =>
      s' = s /\ exists now, v = Expire now
                           /\ (~ live s \/ now < effective_confirmation_deadline s)
  | Err _ =>
      s' = s
      \/ exists binding now,
           v = BindBrowser (im_intent_revision s) binding now
           /\ ~ i64_range (im_intent_revision s + 1)
           /\ pending s /\ InteractionBrowserBinding_validate binding = Ok tt /\ unbound s
           /\ s' = set_intent_binding (Some binding) s
  end.
Proof. apply verb_refines. Qed.

(** C10: an intent that was created and then driven by any sequence of method calls
    with any arguments, the failing ones included, is accepted unchanged by
    [restore] from its record exactly when no two of its slots hold receipts of one
    id.  [attach_receipt] does not compare the ids, so it is its callers that keep
    them apart. *)
Theorem reachable_intents_restore (s : IdentityMutationIntent) :
  reachable new_v4 s ->
  IdentityMutationIntent_restore (record_for s) = Ok s <-> receipts_distinct s.
Proof. intros Hs%reachable_wf; [|done..]; rewrite <- wf_restore; naive_solver. Qed.

(** C12: a completed intent that [restore] accepts has, for every one of its
    slots, a consumed receipt collected in the intent's own browser for exactly
    that slot, role and purpose, proving the targeted user at the expected
    revisions with matching evidence, issued within the intent's lifetime. *)
Theorem completed_intent_is_proved (record : RestoredIdentityMutationIntent)
    (s : IdentityMutationIntent) (x : IdentityMutationProofSlot) :
  IdentityMutationIntent_restore record = Ok s ->
  im_status s = MutationStatus.Completed -> x ∈ im_slots s ->
  exists r, slot_receipt x = Some (mkRestoredIdentityProofReceipt r ReceiptStatus.Consumed)
    /\ im_browser_binding s = Some (rc_browser_binding r)
    /\ rc_intent_id r = im_id s /\ rc_slot_id r = slot_id x
    /\ rc_purpose r = IdentityMutationSlotRole_purpose (slot_role x)
    /\ rc_proof_user_id r = target_user_id (slot_target x)
    /\ rc_proof_user_revision r = target_expected_user_revision (slot_target x)
    /\ rc_proof_user_security_revision r = target_expected_user_security_revision (slot_target x)
    /\ evidence_matches (slot_target x) (rc_evidence r) = true
    /\ im_created_at s <= rc_issued_at r < rc_expires_at r
    /\ rc_expires_at r <= im_expires_at s
    /\ rc_captured_intent_revision r < im_intent_revision s.
Proof.
  intros Hrec%restore_wf Hc Hx; destruct (wf_slot _ _ Hrec Hx) as (_ & _ & Hok).
  pose proof (wf_aggregate _ Hrec) as Ha; unfold valid_aggregate_state in Ha; rewrite Hc in Ha.
  apply (proj1 (forallb_forall _ _)) with (x := x) in Ha; [|by apply list_elem_of_In].
  unfold receipt_has_status, receipt_ok in *; destruct (slot_receipt x) as [[r st]|]; simpl in *.
  2: { by rewrite andb_false_r in Ha. }
  bool_prop; destruct Ha as [_ ->], Hok as (Hv & Hcap & _); exists r.
  unfold validate_receipt_for_slot in Hv; inv_ok; bool_prop; destruct_and!.
  split_and!; auto; lia.
Qed.

(** a method can make an intent completed only from ready, while every slot
    holds an issued receipt that has not expired at that moment and the intent
    itself has not; completing consumes each of those receipts and changes
    nothing else of a slot but its revision. *)
Theorem completion_consumes_live_receipts (v : verb) (s s' : IdentityMutationIntent)
    (effect : IdentityMutationEffect) :
  reachable new_v4 s ->
  run_verb v s = (s', Ok (Some effect)) -> im_status s' = MutationStatus.Completed ->
  im_status s = MutationStatus.Ready /\ effect = Applied /\ verb_now v < im_expires_at s
  /\ im_slots s' = map consume_slot (im_slots s)
  /\ (forall x, x ∈ im_slots s ->
        exists r, slot_receipt x = Some (mkRestoredIdentityProofReceipt r ReceiptStatus.Issued)
                  /\ verb_now v < rc_expires_at r).
Proof.
  intros Hs%reachable_wf Hv Hc; [|done..].
  apply verb_refines in Hv; simpl in Hv.
  destruct Hv as [| | | | | |now s Hr Hlt Hi]; simpl in Hc; try discriminate;
    try (unfold pending in *; congruence).
  assert (live s) as Hl by (unfold live; by rewrite Hr).
  destruct (deadline_lt s now) as [Hd Hdx]; [done|]; split_and!; try done.
  intros x Hx; destruct (issued_receipt s x Hs Hl Hi Hx) as (_ & [r st] & Hrr & Hst).
  simpl in Hst; subst; exists r; split; [done|]; by apply (Hdx x _ Hx Hrr).
Qed.

(** a ready intent is completed by its next revision holder: before the
    deadline, and with room in the revision counters, [complete] at the current
    revision succeeds, consumes the receipts and bumps the revisions. *)
Theorem ready_intent_completes (s : IdentityMutationIntent) (now : OffsetDateTime) :
  reachable new_v4 s -> im_status s = MutationStatus.Ready ->
  now < effective_confirmation_deadline s ->
  im_intent_revision s < i64_max -> Forall (fun x => slot_revision x < i64_max) (im_slots s) ->
  complete (im_intent_revision s) now s = (completed s, Ok Applied).
Proof.
  intros Hs%reachable_wf Hr Hd Hmax Hslots; [|done..].
  assert (Forall issued (im_slots s)) as Hi.
  { pose proof (wf_aggregate _ Hs) as Ha; unfold valid_aggregate_state in Ha; rewrite Hr in Ha.
    apply Forall_forall; intros x Hx%list_elem_of_In.
    apply (proj1 (forallb_forall _ _) Ha) in Hx; unfold issued; by apply andb_true_iff in Hx as [_ ?]. }
  pose proof (wf_revision _ Hs) as Hpos.
  unfold complete, mseq, mget; rewrite Hr, Z.eqb_refl; simpl.
  rewrite (proj2 (Z.leb_gt _ _) Hd).
  rewrite (Forall_existsb_false _ _ _ Hi) by (unfold issued; by intros x ->).
  unfold mlift, mmodify, mret; rewrite next_revision_ok by lia.
  rewrite next_slot_revisions_ok, consume_slots_issued; [done|done|].
  apply Forall_forall; intros x Hx; split; [by apply (wf_slot _ _ Hs)|].
  by apply (proj1 (Forall_forall _ _) Hslots).
Qed.

(** compare-and-swap on the revision: of two methods called with the same
    expected revision, once one has taken effect the other is refused and
    changes nothing. *)
Theorem intent_revision_single_winner (v1 v2 : verb) (revision : Z)
    (s s' : IdentityMutationIntent) (effect : IdentityMutationEffect) :
  verb_expected_revision v1 = Some revision -> verb_expected_revision v2 = Some revision ->
  run_verb v1 s = (s', Ok (Some effect)) -> exists err, run_verb v2 s' = (s', Err err).
Proof.
  intros H1 H2 Hv; apply verb_refused; left; exists revision; split; [done|].
  destruct (decide (revision = im_intent_revision s)) as [->|Hne].
  - apply verb_refines in Hv; simpl in Hv; rewrite (step_revision _ _ _ _ Hv); lia.
  - destruct (verb_refused v1 s) as [err Herr]; [left; eauto|]; congruence.
Qed.

(** completed, expired and cancelled are final: no method changes a
    finished intent in any field, and every method but the expiry sweep fails on
    it. *)
Theorem finished_intents_absorb (v : verb) (s : IdentityMutationIntent) :
  MutationStatus.IdentityMutationStatus_is_terminal (im_status s) = true ->
  (run_verb v s).1 = s
  /\ (verb_expected_revision v <> None -> exists err, (run_verb v s).2 = Err err).
Proof.
  intros Hterm; destruct (decide (verb_expected_revision v = None)) as [Hn|Hn].
  - split; [|done]; destruct v; try discriminate Hn; simpl.
    unfold expire, mseq, mget; by rewrite Hterm.
  - destruct (verb_refused v s) as [err ->]; [right|by eauto].
    split; [unfold live; by rewrite Hterm | done].
Qed.

(** deadlines are enforced by every method: a method that has an effect
    applies its change exactly when the intent's lifetime and all its receipts
    are unexpired, and otherwise expires the intent. *)
Theorem intent_effects_respect_deadline (v : verb) (s s' : IdentityMutationIntent)
    (effect : IdentityMutationEffect) :
  run_verb v s = (s', Ok (Some effect)) ->
  (effect = Applied <-> verb_now v < effective_confirmation_deadline s)
  /\ (effect = ExpiredEffect -> s' = terminalized MutationStatus.Expired s).
Proof.
  intros Hv; apply verb_refines in Hv; simpl in Hv.
  destruct Hv; simpl in *; split; try done; split; intros; (done || lia).
Qed.

(** at the last representable revision [bind_browser] is not atomic: it
    returns an error after it has already stored the browser binding. *)
Theorem bind_browser_overflow_partial_write (s : IdentityMutationIntent)
    (binding : InteractionBrowserBinding) (now : OffsetDateTime) :
  im_status s = MutationStatus.PendingProof -> im_intent_revision s = i64_max ->
  now < effective_confirmation_deadline s ->
  InteractionBrowserBinding_validate binding = Ok tt -> im_browser_binding s = None ->
  Forall (fun x => slot_state x = SlotState.Pending /\ slot_receipt x = None) (im_slots s) ->
  bind_browser i64_max binding now s
  = (set_intent_binding (Some binding) s, Err InvalidTransition).
Proof.
  intros Hp Hr Hd Hv Hb Hs; unfold bind_browser, mseq at 1, mlift at 1; rewrite Hv.
  unfold while_pending, ensure_pending, mseq, mget; rewrite Hp, Hr, Z.eqb_refl; simpl.
  rewrite (proj2 (Z.leb_gt _ _) Hd); unfold mret; rewrite Hb.
  rewrite (Forall_existsb_false _ _ _ Hs); [unfold mmodify, mlift; by rewrite Hr|].
  intros x [-> ->]; done.
Qed.
End claims.

(** ** A worked run: unlinking an email identity *)
Definition sample_v4 (i : Z) : Uuid := 2 * i + 101.
Definition sample_identity : ExistingIdentitySnapshot :=
  {| ei_project_id := 7; ei_user_id := 8; ei_identity_id := 9; ei_identity_kind := EmailIdentity;
     ei_expected_user_revision := 3; ei_expected_user_security_revision := 2;
     ei_expected_identity_revision := 1 |}.
Definition sample_plan : IdentityMutationPlan :=
  UnlinkPlan sample_identity (EmailAuthority 7 11 1 1 1 1).
Definition sample_binding : InteractionBrowserBinding :=
  {| bb_digest := repeat 5 32; bb_digest_key_version := 1; bb_revision := 1 |}.
Definition sample_receipt : IdentityProofReceiptSnapshot :=
  {| rc_id := 77; rc_project_id := 7; rc_intent_id := 1; rc_slot_id := 101;
     rc_role := IdentityOwner; rc_purpose := "unlink.identity_owner";
     rc_browser_binding := sample_binding; rc_proof_user_id := 8; rc_proof_user_revision := 3;
     rc_proof_user_security_revision := 2; rc_captured_intent_revision := 4;
     rc_evidence := ExistingIdentity 9 1; rc_issued_at := seconds 20;
     rc_expires_at := seconds 120 |}.

Definition sample_slot (state : SlotState.IdentityMutationSlotState) (revision : Z)
    (receipt : option RestoredIdentityProofReceipt) : IdentityMutationProofSlot :=
  {| slot_id := 101; slot_role := IdentityOwner; slot_ordinal := 1;
     slot_target := Existing sample_identity; slot_authority := EmailAuthority 7 11 1 1 1 1;
     slot_state := state; slot_revision := revision; slot_receipt := receipt |}.
Definition sample_intent (status : MutationStatus.IdentityMutationStatus) (revision : Z)
    (binding : option InteractionBrowserBinding) (slot : IdentityMutationProofSlot) :
    IdentityMutationIntent :=
  {| im_id := 1; im_project_id := 7; im_kind := Unlink; im_status := status;
     im_intent_revision := revision; im_browser_binding := binding; im_slots := [slot];
     im_created_at := 0; im_expires_at := seconds 300 |}.

Definition sample_issued (status : ReceiptStatus.IdentityProofReceiptStatus) :
    option RestoredIdentityProofReceipt :=
  Some {| rr_snapshot := sample_receipt; rr_status := status |}.
Definition sample_created : IdentityMutationIntent :=
  sample_intent MutationStatus.PendingProof 1 None (sample_slot SlotState.Pending 1 None).
Definition sample_ready : IdentityMutationIntent :=
  sample_intent MutationStatus.Ready 6 (Some sample_binding)
    (sample_slot SlotState.Proved 4 (sample_issued ReceiptStatus.Issued)).
Definition sample_completed : IdentityMutationIntent :=
  sample_intent MutationStatus.Completed 7 (Some sample_binding)
    (sample_slot SlotState.Proved 5 (sample_issued ReceiptStatus.Consumed)).

Definition sample_run : list verb :=
  [BindBrowser 1 sample_binding (seconds 1);
   BeginEmail IdentityOwner 2 (seconds 2);
   MarkEmailChallengePending IdentityOwner 3 (seconds 3);
   AttachReceipt 4 (seconds 21) sample_receipt;
   ConfirmReady 5 (seconds 22)].

Lemma sample_run_ready :
  fold_left (fun s v => (run_verb v s).1) sample_run sample_created = sample_ready.
Proof. vm_compute; reflexivity. Qed.

Lemma sample_v4_not_nil i : sample_v4 i <> 0.
Proof. unfold sample_v4; lia. Qed.
Lemma sample_v4_unique i j : sample_v4 i = sample_v4 j -> i = j.
Proof. unfold sample_v4; lia. Qed.

Lemma reachable_next `{UrlLib} new_v4 v s :
  reachable new_v4 s -> reachable new_v4 (run_verb v s).1.
Proof.
  intros Hs; eapply (reachable_verb new_v4 v s _ (run_verb v s).2); [done|].
  by destruct (run_verb v s).
Qed.

Lemma reachable_run `{UrlLib} new_v4 vs s :
  reachable new_v4 s -> reachable new_v4 (fold_left (fun s v => (run_verb v s).1) vs s).
Proof. revert s; induction vs; intros s Hs; [done|]; by apply IHvs, reachable_next. Qed.

Lemma sample_ready_reachable : reachable (H := toy_url_lib) sample_v4 sample_ready.
Proof.
  rewrite <- sample_run_ready; apply reachable_run.
  apply (reachable_create (H := toy_url_lib) sample_v4 1 7 sample_plan 0 (seconds 300)).
  vm_compute; reflexivity.
Qed.

Lemma intent_verbs_refine_protocol_witness :
  intent_step (Complete 6 (seconds 23)) sample_ready Applied sample_completed.
Proof.
  apply (intent_verbs_refine_protocol (Complete 6 (seconds 23)) sample_ready sample_completed
           (Ok (Some Applied))).
  vm_compute; reflexivity.
Defined.

Lemma reachable_intents_restore_witness :
  IdentityMutationIntent_restore (H := toy_url_lib) (record_for sample_ready) = Ok sample_ready.
Proof.
  apply (proj2 (reachable_intents_restore sample_v4 sample_v4_not_nil sample_v4_unique sample_ready
                  sample_ready_reachable)).
  vm_compute; apply NoDup_singleton.
Defined.

(** A receipt id used for both slots of a merge: every call succeeds, and the
    intent it leaves is one [restore] refuses. *)
Definition other_identity : ExistingIdentitySnapshot :=
  {| ei_project_id := 7; ei_user_id := 18; ei_identity_id := 19; ei_identity_kind := EmailIdentity;
     ei_expected_user_revision := 3; ei_expected_user_security_revision := 2;
     ei_expected_identity_revision := 1 |}.
Definition merge_plan : IdentityMutationPlan :=
  MergePlan sample_identity other_identity (EmailAuthority 7 11 1 1 1 1) (EmailAuthority 7 11 1 1 1 1).
Definition merge_receipt (role : IdentityMutationSlotRole) (slot user identity revision : Z) :
    IdentityProofReceiptSnapshot :=
  {| rc_id := 77; rc_project_id := 7; rc_intent_id := 1; rc_slot_id := slot; rc_role := role;
     rc_purpose := IdentityMutationSlotRole_purpose role; rc_browser_binding := sample_binding;
     rc_proof_user_id := user; rc_proof_user_revision := 3; rc_proof_user_security_revision := 2;
     rc_captured_intent_revision := revision; rc_evidence := ExistingIdentity identity 1;
     rc_issued_at := seconds 20; rc_expires_at := seconds 120 |}.
Definition merge_run : list verb :=
  [BindBrowser 1 sample_binding (seconds 1);
   BeginEmail WinnerOwner 2 (seconds 2); MarkEmailChallengePending WinnerOwner 3 (seconds 3);
   AttachReceipt 4 (seconds 21) (merge_receipt WinnerOwner 101 8 9 4);
   BeginEmail LoserOwner 5 (seconds 22); MarkEmailChallengePending LoserOwner 6 (seconds 23);
   AttachReceipt 7 (seconds 24) (merge_receipt LoserOwner 103 18 19 7)].
Definition merge_created : result DomainError IdentityMutationIntent :=
  IdentityMutationIntent_create (H := toy_url_lib) sample_v4 1 7 merge_plan 0 (seconds 300).
Definition merge_end : result DomainError IdentityMutationIntent :=
  rmap (fold_left (fun s v => (run_verb v s).1) merge_run) merge_created.
Example reused_receipt_id_not_restored :
  rmap (fun s => (im_intent_revision s, map slot_state (im_slots s))) merge_end
  = Ok (8, [SlotState.Proved; SlotState.Proved])
  /\ is_ok (s <-? merge_end ;; IdentityMutationIntent_restore (H := toy_url_lib) (record_for s)) = false.
Proof. split; vm_compute; reflexivity. Qed.

Lemma completed_intent_is_proved_witness :
  exists r, slot_receipt (sample_slot SlotState.Proved 5 (sample_issued ReceiptStatus.Consumed))
            = Some (mkRestoredIdentityProofReceipt r ReceiptStatus.Consumed).
Proof.
  destruct (completed_intent_is_proved (H := toy_url_lib) (record_for sample_completed) sample_completed
              (sample_slot SlotState.Proved 5 (sample_issued ReceiptStatus.Consumed)))
    as (r & Hr & _).
  - vm_compute; reflexivity.
  - reflexivity.
  - by left.
  - exists r; exact Hr.
Defined.

Lemma completion_consumes_live_receipts_witness :
  im_slots sample_completed = map consume_slot (im_slots sample_ready).
Proof.
  apply (completion_consumes_live_receipts sample_v4 sample_v4_not_nil sample_v4_unique
           (Complete 6 (seconds 23)) sample_ready sample_completed Applied
           sample_ready_reachable); vm_compute; reflexivity.
Defined.

Lemma ready_intent_completes_witness :
  complete 6 (seconds 23) sample_ready = (sample_completed, Ok Applied).
Proof.
  apply (ready_intent_completes sample_v4 sample_v4_not_nil sample_v4_unique sample_ready
           (seconds 23) sample_ready_reachable); [reflexivity|vm_compute; reflexivity..|].
  repeat constructor; vm_compute; reflexivity.
Defined.

Lemma intent_revision_single_winner_witness :
  exists err, run_verb (Cancel 6 (seconds 24)) sample_completed = (sample_completed, Err err).
Proof.
  apply (intent_revision_single_winner (Complete 6 (seconds 23)) (Cancel 6 (seconds 24)) 6
           sample_ready sample_completed Applied); vm_compute; reflexivity.
Defined.

Lemma finished_intents_absorb_witness :
  (run_verb (Cancel 7 (seconds 24)) sample_completed).1 = sample_completed.
Proof. apply (finished_intents_absorb (Cancel 7 (seconds 24)) sample_completed); reflexivity. Defined.

Lemma intent_effects_respect_deadline_witness :
  terminalized MutationStatus.Expired sample_ready
  = (run_verb (Complete 6 (seconds 120)) sample_ready).1.
Proof.
  symmetry.
  apply (intent_effects_respect_deadline (Complete 6 (seconds 120)) sample_ready _ ExpiredEffect);
    vm_compute; reflexivity.
Defined.

Lemma bind_browser_overflow_partial_write_witness :
  bind_browser i64_max sample_binding (seconds 1)
    (sample_intent MutationStatus.PendingProof i64_max None (sample_slot SlotState.Pending 1 None))
  = (sample_intent MutationStatus.PendingProof i64_max (Some sample_binding)
       (sample_slot SlotState.Pending 1 None), Err InvalidTransition).
Proof.
  apply (bind_browser_overflow_partial_write
           (sample_intent MutationStatus.PendingProof i64_max None
              (sample_slot SlotState.Pending 1 None)) sample_binding (seconds 1));
    try reflexivity; repeat constructor.
Defined.
