(* ===== verification/Json.v ===== *)
(** * Errors and JSON values shared by the store and its clients

    [application/error.rs] and the part of [serde_json::Value] the program uses. *)
From S2P Require Import Prelude.

(** ** Errors: [application/error.rs] *)
Module AppError.
Inductive ApplicationError :=
| InvalidInput | NotFound | Disabled | RevisionConflict | IdempotencyConflict
| OperationInProgress | InvalidTransition | CapacityExceeded | Integrity | Persistence
| ProviderPreflightRejected | ProviderPreflightUnavailable | ExternalStore.
#[global] Instance ApplicationError_eq_dec : EqDecision ApplicationError.
Proof. solve_decision. Defined.
End AppError.
Abbreviation ApplicationError := AppError.ApplicationError.

(** ** JSON values ([serde_json::Value], objects in key order) *)
#[warnings="-register-all"]
Inductive json :=
| JNull
| JBool (b : bool)
| JInt (n : Z)
| JFloat (repr : string)
| JString (s : string)
| JArray (l : list json)
| JObject (fields : list (string * json)).

Fixpoint json_eqb (a b : json) : bool :=
  match a, b with
  | JNull, JNull => true
  | JBool x, JBool y => Bool.eqb x y
  | JInt x, JInt y => x =? y
  | JFloat x, JFloat y => bool_decide (x = y)
  | JString x, JString y => bool_decide (x = y)
  | JArray l, JArray m =>
      (fix go (l m : list json) : bool :=
         match l, m with
         | [], [] => true
         | x :: l', y :: m' => json_eqb x y && go l' m'
         | _, _ => false
         end) l m
  | JObject l, JObject m =>
      (fix go (l m : list (string * json)) : bool :=
         match l, m with
         | [], [] => true
         | (k, x) :: l', (k', y) :: m' => bool_decide (k = k') && json_eqb x y && go l' m'
         | _, _ => false
         end) l m
  | _, _ => false
  end.

(** [Value::get] with a string key. *)
Definition json_get (key : string) (v : json) : option json :=
  match v with
  | JObject fields => snd <$> List.find (fun f => bool_decide (fst f = key)) fields
  | _ => None
  end.

(** [Value::as_i64]. *)
Definition json_as_i64 (v : json) : option Z :=
  match v with
  | JInt n => if in_i64 n then Some n else None
  | _ => None
  end.

(** [Map::insert]: replaces a field or adds it in key order. *)
Fixpoint object_insert (key : string) (v : json) (fields : list (string * json)) :
    list (string * json) :=
  match fields with
  | [] => [(key, v)]
  | (k, w) :: r =>
      match String.compare key k with
      | Eq => (key, v) :: r
      | Lt => (key, v) :: (k, w) :: r
      | Gt => (k, w) :: object_insert key v r
      end
  end.
