(* ===== verification/Mail.v ===== *)
(** * Mail submission policy

    The pure part of [application/mail.rs]: what an SMTP endpoint may look like,
    which resolved addresses a submission may connect to, the checks on a
    submission, the retry schedule, and the context that binds a protected mail
    to its challenge.  The predicates on addresses are shared with the webhook
    transport and with the configuration.

    [std::net] supplies [is_loopback], [is_private] and the like; they are
    defined here as the standard library documents them. *)
From S2P Require Import Prelude.
From S2P Require Import Email.
From S2P Require Import Values.
From S2P Require Import UrlValues.
From S2P Require Import Json.

#[global] Instance IpAddr_eq_dec : EqDecision IpAddr.
Proof. solve_decision. Defined.

Definition MAX_DNS_ANSWERS : Z := 16.
Definition MAX_CNAME_DEPTH : Z := 8.
Definition MAX_MAIL_BODY_BYTES : Z := 64 * 1024.
Definition MAX_MAIL_ATTEMPTS : Z := 8.

(** ** [std::net] predicates *)
Definition octet (i : nat) (o : list Z) : Z := List.nth i o 0.

(** [Ipv6Addr::octets]. *)
Definition ipv6_octets (segments : list Z) : list Z :=
  flat_map (fun s => [s / 256; s mod 256]) segments.

Definition ipv4_is_link_local (o : list Z) : bool := (octet 0 o =? 169) && (octet 1 o =? 254).
Definition ipv4_is_broadcast (o : list Z) : bool := bool_decide (o = [255; 255; 255; 255]).
Definition ipv4_is_unspecified (o : list Z) : bool := bool_decide (o = [0; 0; 0; 0]).
Definition ipv4_is_multicast (o : list Z) : bool := in_range 224 239 (octet 0 o).
Definition ipv4_is_private (o : list Z) : bool :=
  (octet 0 o =? 10)
  || ((octet 0 o =? 172) && in_range 16 31 (octet 1 o))
  || ((octet 0 o =? 192) && (octet 1 o =? 168)).

Definition ipv6_is_unspecified (s : list Z) : bool := bool_decide (s = [0; 0; 0; 0; 0; 0; 0; 0]).
Definition ipv6_is_multicast (s : list Z) : bool := octet 0 (ipv6_octets s) =? 0xFF.
(** [to_ipv4_mapped().is_some()]. *)
Definition ipv6_is_ipv4_mapped (s : list Z) : bool :=
  bool_decide (take 6 s = [0; 0; 0; 0; 0; 0xFFFF]).

(** ** Address policy *)
Definition is_non_public_ipv4 (value : list Z) : bool :=
  let first := octet 0 value in
  let second := octet 1 value in
  let third := octet 2 value in
  (first =? 0)
  || ((first =? 100) && (Z.land second 0xC0 =? 64))
  || ((first =? 192) && (second =? 0) && (third =? 0))
  || ((first =? 192) && (second =? 0) && (third =? 2))
  || ((first =? 192) && (second =? 88) && (third =? 99))
  || ((first =? 198) && ((second =? 18) || (second =? 19)))
  || ((first =? 198) && (second =? 51) && (third =? 100))
  || ((first =? 203) && (second =? 0) && (third =? 113))
  || (240 <=? first).

Definition is_ipv6_unique_local (value : list Z) : bool :=
  Z.land (octet 0 (ipv6_octets value)) 0xFE =? 0xFC.

Definition is_ipv6_link_local (value : list Z) : bool :=
  let octets := ipv6_octets value in
  (octet 0 octets =? 0xFE) && (Z.land (octet 1 octets) 0xC0 =? 0x80).

Definition is_globally_routable_ipv6 (value : list Z) : bool :=
  let octets := ipv6_octets value in
  if negb (Z.land (octet 0 octets) 0xE0 =? 0x20) then false
  else if (octet 0 octets =? 0x20) && (octet 1 octets =? 0x01) && (octet 2 octets <=? 0x01)
  then false
  else if bool_decide (take 4 octets = [0x20; 0x01; 0x0D; 0xB8]) then false
  else if bool_decide (take 2 octets = [0x20; 0x02]) then false
  else if bool_decide (take 6 octets = [0x26; 0x20; 0x00; 0x4F; 0x80; 0x00]) then false
  else if (octet 0 octets =? 0x3F) && (octet 1 octets =? 0xFF)
          && (Z.land (octet 2 octets) 0xF0 =? 0)
  then false
  else true.

Definition unconditionally_denied (address : IpAddr) : bool :=
  match address with
  | V4 o =>
      ip_is_loopback (V4 o)
      || ipv4_is_link_local o
      || ipv4_is_broadcast o
      || ipv4_is_unspecified o
      || ipv4_is_multicast o
      || (octet 0 o =? 0)
      || (224 <=? octet 0 o)
      || bool_decide (o = [169; 254; 169; 254])
      || bool_decide (o = [100; 100; 100; 200])
  | V6 s =>
      ipv6_is_ipv4_mapped s
      || ip_is_loopback (V6 s)
      || ipv6_is_unspecified s
      || ipv6_is_multicast s
      || is_ipv6_link_local s
      || (negb (is_ipv6_unique_local s) && negb (is_globally_routable_ipv6 s))
  end.

Definition private_requires_explicit_allow (address : IpAddr) : bool :=
  match address with
  | V4 o => ipv4_is_private o || is_non_public_ipv4 o
  | V6 s => is_ipv6_unique_local s
  end.

Definition validate_private_relay_allowlist (addresses : list IpAddr) :
    result ApplicationError unit :=
  if (16 <? list_len addresses)
     || existsb (fun address =>
          (negb (ip_is_loopback address) && unconditionally_denied address)
          || (negb (ip_is_loopback address) && negb (private_requires_explicit_allow address)))
          addresses
  then Err AppError.InvalidInput
  else Ok tt.

(** ** Endpoints *)
Inductive SmtpTlsMode := ImplicitTls | StartTlsRequired | DevelopmentLoopbackPlaintext.
#[global] Instance SmtpTlsMode_eq_dec : EqDecision SmtpTlsMode.
Proof. solve_decision. Defined.

Record SmtpEndpoint := mkSmtpEndpoint {
  se_hostname : string;
  se_port : Z;
  se_tls_mode : SmtpTlsMode;
  se_explicitly_allowed_private_ips : list IpAddr;
  se_development_plaintext_enabled : bool
}.

Definition SmtpEndpoint_validate (self : SmtpEndpoint) : result ApplicationError unit :=
  if is_empty (se_hostname self)
     || (253 <? str_len (se_hostname self))
     || is_some (parse_ip_addr (se_hostname self))
     || (se_port self =? 0)
     || (16 <? list_len (se_explicitly_allowed_private_ips self))
  then Err AppError.InvalidInput
  else if bool_decide (se_tls_mode self = DevelopmentLoopbackPlaintext)
          && (negb (se_development_plaintext_enabled self)
              || negb (bool_decide (se_hostname self = "localhost"%string)))
  then Err AppError.InvalidInput
  else Ok tt.

(** The body of the loop over the resolved addresses. *)
Definition check_address (self : SmtpEndpoint) (address : IpAddr) : result ApplicationError unit :=
  let allowed := bool_decide (address ∈ se_explicitly_allowed_private_ips self) in
  let plaintext := bool_decide (se_tls_mode self = DevelopmentLoopbackPlaintext) in
  let explicitly_allowed_tls_loopback := negb plaintext && ip_is_loopback address && allowed in
  if unconditionally_denied address
     && negb (plaintext && ip_is_loopback address)
     && negb explicitly_allowed_tls_loopback
  then Err AppError.Disabled
  else if private_requires_explicit_allow address && negb allowed
  then Err AppError.Disabled
  else Ok tt.

Fixpoint check_addresses (self : SmtpEndpoint) (addresses : list IpAddr) :
    result ApplicationError unit :=
  match addresses with
  | [] => Ok tt
  | address :: rest => check_address self address ;;? check_addresses self rest
  end.

Definition validate_resolution (self : SmtpEndpoint) (cname_depth : Z) (addresses : list IpAddr) :
    result ApplicationError unit :=
  SmtpEndpoint_validate self ;;?
  if (MAX_CNAME_DEPTH <? cname_depth)
     || (list_len addresses =? 0)
     || (MAX_DNS_ANSWERS <? list_len addresses)
  then Err AppError.InvalidInput
  else check_addresses self addresses.

(** ** Submissions *)
Inductive MailTransportOutcome := Delivered | Transient | Permanent | Ambiguous | PolicyDenied.
#[global] Instance MailTransportOutcome_eq_dec : EqDecision MailTransportOutcome.
Proof. solve_decision. Defined.

Record MailSubmission := mkMailSubmission {
  ms_endpoint : SmtpEndpoint;
  ms_message_id : string;
  ms_envelope_from : string;
  ms_sender_name : option string;
  ms_reply_to : option string;
  ms_envelope_to : string;
  ms_credential : list Z;
  ms_body : list Z
}.

Definition invalid_mailbox (value : string) : bool :=
  is_empty value
  || (254 <? str_len value)
  || existsb (fun c => char_is_control c || (c =? 0x3C) || (c =? 0x3E)) (chars value)
  || negb (is_ok (CanonicalEmail_parse_v1 value)).

Definition MailSubmission_validate (self : MailSubmission) : result ApplicationError unit :=
  SmtpEndpoint_validate (ms_endpoint self) ;;?
  if (str_len (ms_message_id self) <? 16)
     || (255 <? str_len (ms_message_id self))
     || invalid_mailbox (ms_envelope_from self)
     || invalid_mailbox (ms_envelope_to self)
     || is_some_and (ms_reply_to self) invalid_mailbox
     || is_some_and (ms_sender_name self) (fun name =>
          is_empty name || (128 <? str_len name) || existsb char_is_control (chars name))
     || (4096 <? list_len (ms_credential self))
     || (list_len (ms_body self) =? 0)
     || (MAX_MAIL_BODY_BYTES <? list_len (ms_body self))
  then Err AppError.InvalidInput
  else Ok tt.

(** ** Retries *)
Record MailRetryState := mkMailRetryState {
  mr_attempts : Z;
  mr_max_attempts : Z;
  mr_useful_until : OffsetDateTime
}.

Definition milliseconds (n : Z) : Z := n * 1000000.

Definition MailRetryState_next_attempt (self : MailRetryState) (outcome : MailTransportOutcome)
    (now : OffsetDateTime) (jitter_millis : Z) : result ApplicationError (option OffsetDateTime) :=
  if (mr_attempts self <? 0)
     || (mr_max_attempts self <? 1)
     || (MAX_MAIL_ATTEMPTS <? mr_max_attempts self)
     || (mr_max_attempts self <=? mr_attempts self)
     || negb (in_range 0 1000 jitter_millis)
  then Ok None
  else if negb (bool_decide (outcome = Transient) || bool_decide (outcome = Ambiguous))
  then Ok None
  else
    exponent <-? (if Z.min (mr_attempts self) 6 <? 0 then Err AppError.Integrity
                  else Ok (Z.min (mr_attempts self) 6)) ;;
    let secs := Z.min (2 ^ exponent) 60 in
    let retry := now + seconds secs + milliseconds jitter_millis in
    Ok (if retry <? mr_useful_until self then Some retry else None).

(** The first eight bytes of the identifier, mixed with the attempt number. *)
Definition stable_retry_jitter_ms (mail_id : Uuid) (attempt : Z) : Z :=
  let prefix := mail_id / 2 ^ 64 in
  let seed := Z.lxor prefix ((Z.max attempt 0 * 0x9E3779B97F4A7C15) mod 2 ^ 64) in
  seed mod 1000 + 1.

Definition classify_smtp_status (code : Z) : MailTransportOutcome :=
  if in_range 200 299 code then Delivered
  else if in_range 400 499 code then Transient
  else if in_range 500 599 code then Permanent
  else Ambiguous.

(** ** The context of a protected mail *)
Inductive MailChallengeOwner :=
| LoginOwner (transaction_id : Uuid)
| IdentityMutationOwner (intent_id proof_slot_id : Uuid).

(** The fields of [ClaimedMailJob] that [mail_context] reads. *)
Record MailChallengeRef := mkMailChallengeRef {
  mc_project_id : Uuid;
  mc_owner : MailChallengeOwner;
  mc_challenge_id : Uuid;
  mc_challenge_generation : Z
}.

Definition uuid_bytes (u : Uuid) : list Z := be_bytes 16 u.

Definition mail_context (job : MailChallengeRef) : list Z :=
  match mc_owner job with
  | LoginOwner transaction_id =>
      (bytes "owlauth-email-challenge-v1" ++ [0])
      ++ uuid_bytes (mc_project_id job) ++ uuid_bytes transaction_id
  | IdentityMutationOwner intent_id proof_slot_id =>
      (bytes "owlauth-identity-mutation-email-challenge-v1" ++ [0])
      ++ uuid_bytes (mc_project_id job) ++ uuid_bytes intent_id ++ uuid_bytes proof_slot_id
  end
  ++ uuid_bytes (mc_challenge_id job)
  ++ be_bytes 2 (mc_challenge_generation job mod 2 ^ 16).

(** ** The address policy as blocks of addresses

    The reference reading of the predicates above: an address is a number, a
    block is a network and a prefix length. *)
Record Cidr := mkCidr { cidr_network : Z; cidr_length : Z }.

Definition in_cidr (width : Z) (v : Z) (c : Cidr) : bool :=
  (cidr_network c <=? v) && (v <? cidr_network c + 2 ^ (width - cidr_length c)).

Definition in_blocks (width : Z) (blocks : list Cidr) (v : Z) : bool :=
  existsb (in_cidr width v) blocks.

Definition block4 (a b c d len : Z) : Cidr :=
  mkCidr (a * 2 ^ 24 + b * 2 ^ 16 + c * 2 ^ 8 + d) len.
Definition block6 (a b c d len : Z) : Cidr :=
  mkCidr (a * 2 ^ 112 + b * 2 ^ 96 + c * 2 ^ 80 + d * 2 ^ 64) len.

Definition denied_blocks4 : list Cidr :=
  [block4 0 0 0 0 8; block4 127 0 0 0 8; block4 169 254 0 0 16;
   block4 100 100 100 200 32; block4 224 0 0 0 3].

Definition private_blocks4 : list Cidr :=
  [block4 10 0 0 0 8; block4 172 16 0 0 12; block4 192 168 0 0 16; block4 0 0 0 0 8;
   block4 100 64 0 0 10; block4 192 0 0 0 24; block4 192 0 2 0 24; block4 192 88 99 0 24;
   block4 198 18 0 0 15; block4 198 51 100 0 24; block4 203 0 113 0 24; block4 240 0 0 0 4].

Definition unique_local6 : list Cidr := [block6 0xFC00 0 0 0 7].
Definition global6 : list Cidr := [block6 0x2000 0 0 0 3].
Definition special6 : list Cidr :=
  [block6 0x2001 0 0 0 23; block6 0x2001 0xDB8 0 0 32; block6 0x2002 0 0 0 16;
   block6 0x2620 0x4F 0x8000 0 48; block6 0x3FFF 0 0 0 20].

Definition address_value (ip : IpAddr) : Z :=
  match ip with
  | V4 o => foldl (fun acc b => acc * 2 ^ 8 + b) 0 o
  | V6 s => foldl (fun acc g => acc * 2 ^ 16 + g) 0 s
  end.

Definition denied_by_blocks (ip : IpAddr) : bool :=
  match ip with
  | V4 _ => in_blocks 32 denied_blocks4 (address_value ip)
  | V6 _ =>
      negb (in_blocks 128 unique_local6 (address_value ip))
      && negb (in_blocks 128 global6 (address_value ip)
               && negb (in_blocks 128 special6 (address_value ip)))
  end.

Definition private_by_blocks (ip : IpAddr) : bool :=
  match ip with
  | V4 _ => in_blocks 32 private_blocks4 (address_value ip)
  | V6 _ => in_blocks 128 unique_local6 (address_value ip)
  end.

(** What [std::net] guarantees of its types. *)
Definition ip_ok (ip : IpAddr) : Prop :=
  match ip with
  | V4 o => length o = 4%nat /\ Forall (fun b => 0 <= b < 2 ^ 8) o
  | V6 s => length s = 8%nat /\ Forall (fun g => 0 <= g < 2 ^ 16) s
  end.

(** ** Lemmas *)
Lemma byte_forall (P : Z -> bool) :
  forallb P (map Z.of_nat (seq 0 256)) = true -> forall x, 0 <= x < 256 -> P x = true.
Proof.
  intros Hall x Hx. rewrite forallb_forall in Hall. apply Hall.
  apply in_map_iff. exists (Z.to_nat x). split; [lia|]. apply in_seq; lia.
Qed.

Ltac by_bytes :=
  intros x Hx; apply eqb_true_iff; revert x Hx; apply byte_forall; vm_compute; reflexivity.

Lemma land_c0_64 : forall x, 0 <= x < 256 -> (Z.land x 0xC0 =? 64) = in_range 64 127 x.
Proof. by_bytes. Qed.
Lemma land_c0_80 : forall x, 0 <= x < 256 -> (Z.land x 0xC0 =? 0x80) = in_range 0x80 0xBF x.
Proof. by_bytes. Qed.
Lemma land_fe_fc : forall x, 0 <= x < 256 -> (Z.land x 0xFE =? 0xFC) = in_range 0xFC 0xFD x.
Proof. by_bytes. Qed.
Lemma land_e0_20 : forall x, 0 <= x < 256 -> (Z.land x 0xE0 =? 0x20) = in_range 0x20 0x3F x.
Proof. by_bytes. Qed.
Lemma land_f0_0 : forall x, 0 <= x < 256 -> (Z.land x 0xF0 =? 0) = in_range 0 0x0F x.
Proof. by_bytes. Qed.

Lemma bool_decide_cons (a b : Z) (l m : list Z) :
  bool_decide (a :: l = b :: m) = (a =? b) && bool_decide (l = m).
Proof.
  apply eq_true_iff_eq. rewrite andb_true_iff, !bool_decide_eq_true, Z.eqb_eq.
  split; [intros [=]; done | by intros [-> ->]].
Qed.
Lemma bool_decide_nil `{!Decision (([] : list Z) = [])} : bool_decide (([] : list Z) = []) = true.
Proof. by apply bool_decide_eq_true. Qed.

(** Names the parts of a well-formed address. *)
Ltac open_ip Hok :=
  let Hl := fresh "Hl" in let Hf := fresh "Hf" in
  destruct Hok as [Hl Hf];
  match type of Hl with length ?l = _ =>
    repeat (destruct l as [|? l]; try discriminate Hl); clear Hl end;
  repeat match goal with
  | Hf' : Forall _ (_ :: _) |- _ => apply Forall_cons in Hf' as [? Hf']
  end; clear Hf.

(** A block in terms of the leading parts of an address. *)
Ltac by_block :=
  intros; unfold in_cidr, block4, block6, cidr_network, cidr_length;
  apply eq_true_iff_eq; bool_prop; lia.

Section blocks4.
Variables a b c d : Z.
Hypothesis Ha : 0 <= a < 2 ^ 8.
Hypothesis Hb : 0 <= b < 2 ^ 8.
Hypothesis Hc : 0 <= c < 2 ^ 8.
Hypothesis Hd : 0 <= d < 2 ^ 8.
Let v := address_value (V4 [a; b; c; d]).

Lemma in_block8 n : in_cidr 32 v (block4 n 0 0 0 8) = (a =? n).
Proof. unfold v, address_value; cbn [foldl]. by_block. Qed.
Lemma in_block16 n m : 0 <= m < 2 ^ 8 ->
  in_cidr 32 v (block4 n m 0 0 16) = (a =? n) && (b =? m).
Proof. unfold v, address_value; cbn [foldl]. by_block. Qed.
Lemma in_block24 n m k : 0 <= m < 2 ^ 8 -> 0 <= k < 2 ^ 8 ->
  in_cidr 32 v (block4 n m k 0 24) = (a =? n) && (b =? m) && (c =? k).
Proof. unfold v, address_value; cbn [foldl]. by_block. Qed.
Lemma in_block32 n m k l : 0 <= m < 2 ^ 8 -> 0 <= k < 2 ^ 8 -> 0 <= l < 2 ^ 8 ->
  in_cidr 32 v (block4 n m k l 32) = (a =? n) && (b =? m) && (c =? k) && (d =? l).
Proof. unfold v, address_value; cbn [foldl]. by_block. Qed.
Lemma in_block12 : in_cidr 32 v (block4 172 16 0 0 12) = (a =? 172) && in_range 16 31 b.
Proof. unfold v, address_value; cbn [foldl]. by_block. Qed.
Lemma in_block10 : in_cidr 32 v (block4 100 64 0 0 10) = (a =? 100) && in_range 64 127 b.
Proof. unfold v, address_value; cbn [foldl]. by_block. Qed.
Lemma in_block15 :
  in_cidr 32 v (block4 198 18 0 0 15) = (a =? 198) && ((b =? 18) || (b =? 19)).
Proof. unfold v, address_value; cbn [foldl]. by_block. Qed.
Lemma in_block4 : in_cidr 32 v (block4 240 0 0 0 4) = (240 <=? a).
Proof. unfold v, address_value; cbn [foldl]. by_block. Qed.
Lemma in_block3 : in_cidr 32 v (block4 224 0 0 0 3) = (224 <=? a).
Proof. unfold v, address_value; cbn [foldl]. by_block. Qed.
End blocks4.

Lemma private_ipv4_blocks o :
  ip_ok (V4 o) -> private_requires_explicit_allow (V4 o) = private_by_blocks (V4 o).
Proof.
  intros Hok. open_ip Hok.
  unfold private_by_blocks, in_blocks, private_blocks4; cbn [existsb].
  rewrite !in_block8, !in_block16, !in_block24, in_block12, in_block10, in_block15, in_block4
    by lia.
  unfold private_requires_explicit_allow, ipv4_is_private, is_non_public_ipv4, octet;
    cbn [List.nth].
  rewrite land_c0_64 by lia. rewrite orb_false_r, !orb_assoc. reflexivity.
Qed.

Lemma denied_ipv4_blocks o :
  ip_ok (V4 o) -> unconditionally_denied (V4 o) = denied_by_blocks (V4 o).
Proof.
  intros Hok. open_ip Hok.
  unfold denied_by_blocks, in_blocks, denied_blocks4; cbn [existsb].
  rewrite !in_block8, !in_block16, !in_block32, in_block3 by lia.
  unfold unconditionally_denied, ip_is_loopback, ipv4_is_link_local, ipv4_is_broadcast,
    ipv4_is_unspecified, ipv4_is_multicast, octet; cbn [List.nth].
  rewrite !bool_decide_cons, bool_decide_nil.
  destruct (224 <=? z) eqn:Hhigh; [by rewrite !orb_true_r, !orb_true_l|].
  destruct (z =? 0) eqn:Hzero; [by rewrite !orb_true_r, !orb_true_l|].
  replace (z =? 255) with false by lia.
  replace (in_range 224 239 z) with false by (symmetry; bool_prop; lia).
  destruct (z =? 127), (z =? 169), (z0 =? 254), (z =? 100); cbn; rewrite ?orb_false_r; try done;
    by rewrite !andb_true_r, !andb_assoc.
Qed.

(** The two bytes of a segment. *)
Lemma segment_bytes x :
  0 <= x < 2 ^ 16 -> x = 256 * (x / 256) + x mod 256 /\ 0 <= x / 256 < 256 /\ 0 <= x mod 256 < 256.
Proof. intros Hx. pose proof (Z.div_mod x 256). Z.to_euclidean_division_equations. lia. Qed.

Ltac name_bytes x :=
  let Hx := fresh in let hi := fresh "hi" in let lo := fresh "lo" in
  assert (Hx := segment_bytes x); generalize dependent (x / 256); intros hi;
  generalize dependent (x mod 256); intros lo; intros;
  destruct Hx as (Hx & ? & ?); [assumption|].

Section blocks6.
Variables a b c d e f g h : Z.
Hypothesis Ha : 0 <= a < 2 ^ 16.
Hypothesis Hb : 0 <= b < 2 ^ 16.
Hypothesis Hc : 0 <= c < 2 ^ 16.
Hypothesis Hd : 0 <= d < 2 ^ 16.
Hypothesis He : 0 <= e < 2 ^ 16.
Hypothesis Hf : 0 <= f < 2 ^ 16.
Hypothesis Hg : 0 <= g < 2 ^ 16.
Hypothesis Hh : 0 <= h < 2 ^ 16.
Let v := address_value (V6 [a; b; c; d; e; f; g; h]).

Lemma in_block7 : in_cidr 128 v (block6 0xFC00 0 0 0 7) = in_range 0xFC00 0xFDFF a.
Proof. unfold v, address_value; cbn [foldl]. by_block. Qed.
Lemma in_block6_3 : in_cidr 128 v (block6 0x2000 0 0 0 3) = in_range 0x2000 0x3FFF a.
Proof. unfold v, address_value; cbn [foldl]. by_block. Qed.
Lemma in_block6_23 :
  in_cidr 128 v (block6 0x2001 0 0 0 23) = (a =? 0x2001) && (b <=? 0x1FF).
Proof. unfold v, address_value; cbn [foldl]. by_block. Qed.
Lemma in_block6_32 : in_cidr 128 v (block6 0x2001 0xDB8 0 0 32) = (a =? 0x2001) && (b =? 0xDB8).
Proof. unfold v, address_value; cbn [foldl]. by_block. Qed.
Lemma in_block6_16 : in_cidr 128 v (block6 0x2002 0 0 0 16) = (a =? 0x2002).
Proof. unfold v, address_value; cbn [foldl]. by_block. Qed.
Lemma in_block6_48 :
  in_cidr 128 v (block6 0x2620 0x4F 0x8000 0 48) = (a =? 0x2620) && (b =? 0x4F) && (c =? 0x8000).
Proof. unfold v, address_value; cbn [foldl]. by_block. Qed.
Lemma in_block6_20 :
  in_cidr 128 v (block6 0x3FFF 0 0 0 20) = (a =? 0x3FFF) && (b <=? 0xFFF).
Proof. unfold v, address_value; cbn [foldl]. by_block. Qed.

Lemma unique_local_blocks :
  is_ipv6_unique_local [a; b; c; d; e; f; g; h] = in_blocks 128 unique_local6 v.
Proof using Ha Hb Hc Hd He Hf Hg Hh.
  unfold in_blocks, unique_local6; cbn [existsb]. rewrite in_block7, orb_false_r.
  unfold is_ipv6_unique_local, octet; cbn [ipv6_octets flat_map app List.nth].
  name_bytes a. rewrite land_fe_fc by lia. apply eq_true_iff_eq; bool_prop. lia.
Qed.

(** The source compares bytes, the blocks compare segments. *)
Ltac by_segments :=
  rewrite ?bool_decide_cons, ?bool_decide_nil; apply eq_true_iff_eq; bool_prop; lia.

Lemma globally_routable_blocks :
  is_globally_routable_ipv6 [a; b; c; d; e; f; g; h]
  = in_blocks 128 global6 v && negb (in_blocks 128 special6 v).
Proof using Ha Hb Hc Hd He Hf Hg Hh.
  unfold in_blocks, global6, special6; cbn [existsb].
  rewrite in_block6_3, in_block6_23, in_block6_32, in_block6_16, in_block6_48, in_block6_20.
  unfold is_globally_routable_ipv6, octet; cbn [ipv6_octets flat_map app List.nth take].
  name_bytes a; name_bytes b; name_bytes c.
  rewrite land_e0_20, land_f0_0 by lia.
  match goal with |- (if negb ?g then _ else if ?x1 then _ else if ?x2 then _ else if ?x3 then _
                      else if ?x4 then _ else if ?x5 then _ else _)
                     = (?g' || _) && negb (?y1 || (?y2 || (?y3 || (?y4 || (?y5 || _))))) =>
    replace g with g' by by_segments; replace x1 with y1 by by_segments;
    replace x2 with y2 by by_segments; replace x3 with y3 by by_segments;
    replace x4 with y4 by by_segments; replace x5 with y5 by by_segments;
    destruct g', y1, y2, y3, y4, y5; reflexivity
  end.
Qed.
End blocks6.

Lemma unique_local_bound s :
  ip_ok (V6 s) -> is_ipv6_unique_local s = in_blocks 128 unique_local6 (address_value (V6 s)).
Proof. intros Hok. open_ip Hok. by apply unique_local_blocks. Qed.

(** Everything the source denies by name lies outside [fc00::/7] and [2000::/3]. *)
Lemma denied_ipv6_blocks s :
  ip_ok (V6 s) -> unconditionally_denied (V6 s) = denied_by_blocks (V6 s).
Proof.
  intros Hok. open_ip Hok.
  unfold denied_by_blocks. rewrite <-unique_local_blocks, <-globally_routable_blocks by done.
  unfold unconditionally_denied.
  match goal with |- ?x || (negb ?l && negb ?g) = _ => destruct x eqn:Hnamed; [|done];
    enough (l = false /\ g = false) as [-> ->] by done end.
  unfold ip_is_loopback, ipv6_is_unspecified, ipv6_is_ipv4_mapped, ipv6_is_multicast,
    is_ipv6_link_local, is_ipv6_unique_local, is_globally_routable_ipv6, octet in *.
  cbn [ipv6_octets flat_map app List.nth take] in *.
  name_bytes z; name_bytes z0.
  rewrite ?land_e0_20, ?land_fe_fc, ?land_c0_80 in * by lia.
  assert (Hout : hi = 0 \/ hi = 0xFE \/ hi = 0xFF).
  { bool_prop; repeat destruct Hnamed as [Hnamed|Hnamed];
      try injection Hnamed; lia. }
  split; [bool_prop; lia|].
  replace (in_range 32 63 hi) with false by (symmetry; bool_prop; lia). done.
Qed.

Lemma ip_policy_blocks ip :
  ip_ok ip ->
  unconditionally_denied ip = denied_by_blocks ip
  /\ private_requires_explicit_allow ip = private_by_blocks ip.
Proof.
  destruct ip as [o|s]; intros Hok; split.
  - by apply denied_ipv4_blocks.
  - by apply private_ipv4_blocks.
  - by apply denied_ipv6_blocks.
  - by apply unique_local_bound.
Qed.

Lemma check_addresses_ok e addresses :
  check_addresses e addresses = Ok tt <-> Forall (fun ip => check_address e ip = Ok tt) addresses.
Proof.
  induction addresses as [|ip rest IH]; cbn; [by split|].
  rewrite Forall_cons, <-IH. destruct (check_address e ip) as [[]|]; cbn; naive_solver.
Qed.

(** A loopback address is never private, so no list is needed for it in the
    development mode. *)
Lemma loopback_not_private ip :
  ip_ok ip -> ip_is_loopback ip = true ->
  private_requires_explicit_allow ip = false /\ unconditionally_denied ip = true.
Proof.
  destruct ip as [o|s]; intros Hok Hl.
  - open_ip Hok. unfold ip_is_loopback in Hl. bool_prop. subst. by cbn.
  - unfold ip_is_loopback in Hl. bool_prop. by subst.
Qed.

(** The destinations an endpoint may use. *)
Definition permitted (e : SmtpEndpoint) (ip : IpAddr) : Prop :=
  if ip_is_loopback ip
  then ip ∈ se_explicitly_allowed_private_ips e \/ se_tls_mode e = DevelopmentLoopbackPlaintext
  else denied_by_blocks ip = false
       /\ (private_by_blocks ip = true -> ip ∈ se_explicitly_allowed_private_ips e).

Lemma check_address_permitted e ip :
  ip_ok ip -> check_address e ip = Ok tt <-> permitted e ip.
Proof.
  intros Hok. unfold check_address, permitted.
  destruct (ip_policy_blocks ip Hok) as [<- <-].
  destruct (ip_is_loopback ip) eqn:Hl.
  - destruct (loopback_not_private ip Hok Hl) as [-> ->].
    do 2 case_bool_decide; cbn; naive_solver.
  - rewrite !andb_false_r. destruct (unconditionally_denied ip), (private_requires_explicit_allow ip);
      case_bool_decide; cbn; naive_solver.
Qed.

(** ** Theorems *)

(** C17: The predicates that decide where the server may connect are the
    published address blocks.  For every address, [unconditionally_denied] holds
    exactly in the listed IPv4 blocks and, for IPv6, exactly outside unique-local
    space and ordinary global unicast less its special blocks; an explicit
    allowance is needed exactly in the listed private blocks. *)
Theorem address_policy_is_block_policy (ip : IpAddr) :
  ip_ok ip ->
  unconditionally_denied ip = denied_by_blocks ip
  /\ private_requires_explicit_allow ip = private_by_blocks ip.
Proof. apply ip_policy_blocks. Qed.

Lemma address_policy_is_block_policy_witness :
  let metadata := V4 [169; 254; 169; 254] in
  let documentation := V6 [0x2001; 0xDB8; 0; 0; 0; 0; 0; 1] in
  unconditionally_denied metadata = true /\ denied_by_blocks metadata = true
  /\ unconditionally_denied documentation = denied_by_blocks documentation
  /\ private_requires_explicit_allow (V4 [172; 31; 0; 9]) = true.
Proof.
  intros metadata documentation.
  assert (Hm : ip_ok metadata) by (split; [done|repeat constructor; lia]).
  destruct (address_policy_is_block_policy metadata Hm) as [Hd _].
  split; [reflexivity|]. split; [rewrite <-Hd; reflexivity|]. split; [|reflexivity].
  apply (address_policy_is_block_policy documentation).
  split; [reflexivity|repeat constructor; lia].
Defined.

(** A resolution is accepted exactly when the endpoint is well formed, the
    answer is not empty, has at most sixteen addresses behind at most eight
    aliases, and every single address is permitted: outside the denied blocks,
    on the explicit list when private, and on the loopback interface only by
    explicit allowance or in the development mode.  One bad address refuses the
    whole answer. *)
Theorem mail_destinations_exact (e : SmtpEndpoint) (cname_depth : Z) (addresses : list IpAddr) :
  Forall ip_ok addresses ->
  validate_resolution e cname_depth addresses = Ok tt
  <-> SmtpEndpoint_validate e = Ok tt
      /\ cname_depth <= 8 /\ 1 <= list_len addresses <= 16
      /\ Forall (permitted e) addresses.
Proof.
  intros Hok. unfold validate_resolution, MAX_CNAME_DEPTH, MAX_DNS_ANSWERS.
  assert (Hn : 0 <= list_len addresses) by (unfold list_len; lia).
  destruct (SmtpEndpoint_validate e) as [[]|]; cbn; [|naive_solver].
  rewrite if_err_ok, check_addresses_ok. bool_prop.
  assert (Forall (fun ip => check_address e ip = Ok tt) addresses
          <-> Forall (permitted e) addresses) as ->.
  { rewrite !Forall_forall in *. split; intros Hall ip Hin;
      apply check_address_permitted; auto. }
  split; intros; intuition lia.
Qed.

Lemma mail_destinations_exact_witness :
  let relay := mkSmtpEndpoint "relay.example" 587 StartTlsRequired [V4 [10; 0; 0; 5]] false in
  validate_resolution relay 1 [V4 [93; 184; 216; 34]; V4 [10; 0; 0; 5]] = Ok tt
  /\ Forall (permitted relay) [V4 [93; 184; 216; 34]; V4 [10; 0; 0; 5]]
  /\ validate_resolution relay 1 [V4 [93; 184; 216; 34]; V4 [10; 0; 0; 6]]
     = Err AppError.Disabled.
Proof.
  intros relay. split; [reflexivity|]. split; [|reflexivity].
  apply (mail_destinations_exact relay 1 [V4 [93; 184; 216; 34]; V4 [10; 0; 0; 5]]);
    [|reflexivity].
  repeat constructor; lia.
Defined.

(** The exact content of an explicit allowlist. *)
Lemma allowlist_exact (addresses : list IpAddr) :
  Forall ip_ok addresses ->
  validate_private_relay_allowlist addresses = Ok tt
  <-> list_len addresses <= 16
      /\ Forall (fun ip => ip_is_loopback ip = true
                           \/ denied_by_blocks ip = false /\ private_by_blocks ip = true) addresses.
Proof.
  intros Hok. unfold validate_private_relay_allowlist. rewrite if_err_ok. bool_prop.
  rewrite <-not_true_iff_false, existsb_exists, Forall_forall.
  rewrite Forall_forall in Hok. split.
  - intros [[Hlen Hno] _]. split; [lia|]. intros ip Hin.
    destruct (ip_policy_blocks ip) as [<- <-]; [auto|].
    destruct (ip_is_loopback ip) eqn:Hl; [by left|]. right.
    destruct (unconditionally_denied ip) eqn:Hd, (private_requires_explicit_allow ip) eqn:Hp;
      try done; exfalso; apply Hno; exists ip; rewrite Hl, Hd, Hp;
      (split; [by apply list_elem_of_In|done]).
  - intros [Hlen Hall]. repeat split; [lia|].
    intros (ip & Hin & Hbad). apply list_elem_of_In in Hin.
    specialize (Hall ip Hin). destruct (ip_policy_blocks ip (Hok ip Hin)) as [Hd Hp].
    rewrite Hd, Hp in Hbad. destruct Hall as [Hl|[Hd' Hp']].
    + by rewrite Hl in Hbad.
    + rewrite Hd', Hp' in Hbad. by destruct (ip_is_loopback ip).
Qed.

Lemma retry_jitter_range mail_id attempt :
  0 <= mail_id < 2 ^ 128 -> 1 <= stable_retry_jitter_ms mail_id attempt <= 1000.
Proof.
  intros Hid. unfold stable_retry_jitter_ms.
  set (seed := Z.lxor _ _). pose proof (Z.mod_pos_bound seed 1000). lia.
Qed.

(** The retry schedule of a mail, with the jitter the worker derives from
    its identifier.  It never fails; a further attempt is planned exactly when
    the outcome is transient or ambiguous, attempts remain, and the retry time
    is still useful; that time lies between one and sixty-one seconds ahead. *)
Theorem mail_retry_schedule (attempts max_attempts : Z) (useful_until now : OffsetDateTime)
    (mail_id : Uuid) (outcome : MailTransportOutcome) :
  0 <= mail_id < 2 ^ 128 -> 0 <= attempts -> 1 <= max_attempts <= 8 ->
  let jitter := stable_retry_jitter_ms mail_id attempts in
  let at_ := now + seconds (Z.min (2 ^ Z.min attempts 6) 60) + milliseconds jitter in
  MailRetryState_next_attempt (mkMailRetryState attempts max_attempts useful_until) outcome now jitter
  = Ok (if (bool_decide (outcome = Transient) || bool_decide (outcome = Ambiguous))
           && (attempts <? max_attempts) && (at_ <? useful_until)
        then Some at_ else None)
  /\ now + seconds 1 < at_ <= now + seconds 61.
Proof.
  intros Hid Ha Hm jitter at_. pose proof (retry_jitter_range mail_id attempts Hid) as Hj.
  assert (Hp : 1 <= 2 ^ Z.min attempts 6)
    by (change 1 with (2 ^ 0); apply Z.pow_le_mono_r; lia).
  split; [|unfold at_, jitter, seconds, milliseconds; lia].
  unfold MailRetryState_next_attempt, MAX_MAIL_ATTEMPTS;
    cbn [mr_attempts mr_max_attempts mr_useful_until].
  replace (attempts <? 0) with false by lia. replace (max_attempts <? 1) with false by lia.
  replace (8 <? max_attempts) with false by lia.
  replace (in_range 0 1000 jitter) with true by (symmetry; apply in_range_true; lia).
  replace (Z.min attempts 6 <? 0) with false by lia. cbn [orb negb].
  destruct (max_attempts <=? attempts) eqn:Hleft; cbn [orb].
  - replace (attempts <? max_attempts) with false by lia. by rewrite andb_false_r.
  - replace (attempts <? max_attempts) with true by lia. rewrite andb_true_r.
    by destruct (bool_decide (outcome = Transient) || bool_decide (outcome = Ambiguous)).
Qed.

Lemma mail_retry_schedule_witness :
  exists t, MailRetryState_next_attempt (mkMailRetryState 3 5 (seconds 100)) Transient 0
              (stable_retry_jitter_ms 7 3) = Ok (Some t)
            /\ seconds 1 < t <= seconds 61.
Proof.
  destruct (mail_retry_schedule 3 5 (seconds 100) 0 7 Transient) as [Heq Hb]; [lia..|].
  eexists. split; [rewrite Heq; reflexivity|]. exact Hb.
Defined.

(** What the store guarantees of the fields a context is built from. *)
Definition uuid_range (u : Uuid) : Prop := 0 <= u < 2 ^ 128.
Definition mail_ref_ok (job : MailChallengeRef) : Prop :=
  uuid_range (mc_project_id job) /\ uuid_range (mc_challenge_id job)
  /\ - 2 ^ 15 <= mc_challenge_generation job < 2 ^ 15
  /\ match mc_owner job with
     | LoginOwner transaction_id => uuid_range transaction_id
     | IdentityMutationOwner intent_id proof_slot_id =>
         uuid_range intent_id /\ uuid_range proof_slot_id
     end.

Lemma uuid_bytes_app_inj u v r1 r2 :
  uuid_range u -> uuid_range v -> uuid_bytes u ++ r1 = uuid_bytes v ++ r2 -> u = v /\ r1 = r2.
Proof.
  intros Hu Hv Heq. apply app_inj_length in Heq as [Heq ->].
  - split; [|done]. by apply (be_bytes_inj 16) in Heq.
  - unfold uuid_bytes. by rewrite !be_bytes_length.
Qed.

(** A protected mail can only be opened as the mail it was written for: the
    context is different for every two challenges, owners, projects and
    generations, and never the same for a login and an identity mutation. *)
Theorem mail_context_injective (j1 j2 : MailChallengeRef) :
  mail_ref_ok j1 -> mail_ref_ok j2 -> mail_context j1 = mail_context j2 -> j1 = j2.
Proof.
  destruct j1 as [p1 o1 c1 g1], j2 as [p2 o2 c2 g2].
  unfold mail_ref_ok, mail_context; cbn [mc_project_id mc_owner mc_challenge_id mc_challenge_generation].
  intros (Hp1 & Hc1 & Hg1 & Ho1) (Hp2 & Hc2 & Hg2 & Ho2) Heq.
  assert (Hgen : forall r1 r2, be_bytes 2 (g1 mod 2 ^ 16) ++ r1 = be_bytes 2 (g2 mod 2 ^ 16) ++ r2 ->
            g1 = g2).
  { intros r1 r2 Hr. apply app_inj_length in Hr as [Hr _]; [|by rewrite !be_bytes_length].
    apply be_bytes_inj in Hr; [|apply Z.mod_pos_bound; lia..].
    Z.to_euclidean_division_equations. lia. }
  destruct o1 as [t1|i1 s1], o2 as [t2|i2 s2]; rewrite <-!app_assoc in Heq.
  - apply app_inv_head, app_inv_head in Heq.
    apply uuid_bytes_app_inj in Heq as [-> Heq]; [|done..].
    apply uuid_bytes_app_inj in Heq as [-> Heq]; [|done..].
    apply uuid_bytes_app_inj in Heq as [-> Heq]; [|done..].
    by rewrite (Hgen [] []) by (by rewrite !app_nil_r).
  - discriminate Heq.
  - discriminate Heq.
  - destruct Ho1 as [Hi1 Hs1], Ho2 as [Hi2 Hs2].
    apply app_inv_head, app_inv_head in Heq.
    apply uuid_bytes_app_inj in Heq as [-> Heq]; [|done..].
    apply uuid_bytes_app_inj in Heq as [-> Heq]; [|done..].
    apply uuid_bytes_app_inj in Heq as [-> Heq]; [|done..].
    apply uuid_bytes_app_inj in Heq as [-> Heq]; [|done..].
    by rewrite (Hgen [] []) by (by rewrite !app_nil_r).
Qed.

Lemma mail_context_injective_witness :
  mail_context (mkMailChallengeRef 1 (LoginOwner 2) 3 1)
  <> mail_context (mkMailChallengeRef 1 (LoginOwner 2) 3 2).
Proof.
  intros Heq. enough (mkMailChallengeRef 1 (LoginOwner 2) 3 1 = mkMailChallengeRef 1 (LoginOwner 2) 3 2)
    by discriminate.
  apply mail_context_injective; [..|exact Heq];
    unfold mail_ref_ok, uuid_range; cbn; lia.
Defined.
