(* ===== verification/BTreeMap.v ===== *)
(** * More of the standard library: ordered maps, integer parsing, trimming

    A [BTreeMap<K, V>] is modelled by what its iterator yields: its entries in
    strictly increasing key order.  [str::parse] of an integer type and
    [str::trim] are defined as the standard library documents them, and the
    derived order of [IpAddr] is given. *)
From Stdlib Require Import Sorting.Sorted.
From S2P Require Import Prelude.
From S2P Require Import BTree.
From S2P Require Import UrlValues.

(** ** [BTreeMap] *)
Fixpoint bm_insert `{TotalOrd K} {V : Type} (k : K) (v : V) (l : list (K * V)) : list (K * V) :=
  match l with
  | [] => [(k, v)]
  | (k', v') :: r =>
      match cmp k k' with
      | Lt => (k, v) :: (k', v') :: r
      | Eq => (k, v) :: r
      | Gt => (k', v') :: bm_insert k v r
      end
  end.

Fixpoint bm_get `{TotalOrd K} {V : Type} (k : K) (l : list (K * V)) : option V :=
  match l with
  | [] => None
  | (k', v) :: r => match cmp k k' with Eq => Some v | _ => bm_get k r end
  end.

Definition bm_contains_key `{TotalOrd K} {V : Type} (k : K) (l : list (K * V)) : bool :=
  is_some (bm_get k l).

(** [extend]: entries inserted in order, a later one replacing an earlier one. *)
Definition bm_collect `{TotalOrd K} {V : Type} (entries : list (K * V)) : list (K * V) :=
  fold_left (fun acc e => bm_insert e.1 e.2 acc) entries [].

Definition bm_keys {K V : Type} (l : list (K * V)) : list K := map fst l.
Definition bm_values {K V : Type} (l : list (K * V)) : list V := map snd l.

Section btreemap.
Context `{TotalOrd K} {V : Type}.
Implicit Types (l : list (K * V)) (k : K) (v : V).

Lemma bm_get_insert k v l : bm_get k (bm_insert k v l) = Some v.
Proof.
  induction l as [|[k' v'] r IH]; cbn; [by rewrite cmp_refl|].
  destruct (cmp k k') eqn:Hc; cbn; rewrite ?cmp_refl, ?Hc; done.
Qed.

Lemma bm_get_insert_ne k k' v l : k <> k' -> bm_get k (bm_insert k' v l) = bm_get k l.
Proof.
  intros Hne. assert (Hc0 : cmp k k' <> Eq) by (by rewrite cmp_eq).
  induction l as [|[k0 v0] r IH]; cbn; [by destruct (cmp k k')|].
  destruct (cmp k' k0) eqn:Hc; cbn.
  - apply cmp_eq in Hc as ->. by destruct (cmp k k0).
  - by destruct (cmp k k').
  - by rewrite IH.
Qed.

Lemma bm_insert_keys k v l : bm_keys (bm_insert k v l) = bt_insert k (bm_keys l).
Proof.
  induction l as [|[k' v'] r IH]; cbn; [done|].
  destruct (cmp k k') eqn:Hc; cbn; [apply cmp_eq in Hc as ->; done|done|f_equal; apply IH].
Qed.

Lemma bm_collect_keys (entries : list (K * V)) :
  bm_keys (bm_collect entries) = bt_collect (map fst entries).
Proof.
  unfold bm_collect, bt_collect. change (@nil K) with (bm_keys (@nil (K * V))).
  generalize (@nil (K * V)) as acc.
  induction entries as [|[k v] r IH]; intros acc; [done|].
  cbn [fold_left map fst snd]. by rewrite IH, bm_insert_keys.
Qed.

Lemma bm_collect_sorted (entries : list (K * V)) :
  StronglySorted lt_ord (bm_keys (bm_collect entries)).
Proof. rewrite bm_collect_keys. apply bt_collect_sorted. Qed.

Lemma bm_insert_in k v l e : e ∈ bm_insert k v l -> e = (k, v) \/ e ∈ l.
Proof.
  induction l as [|[k' v'] r IH]; cbn; [set_solver|].
  destruct (cmp k k'); rewrite ?elem_of_cons; naive_solver.
Qed.

Lemma bm_collect_in (entries : list (K * V)) e : e ∈ bm_collect entries -> e ∈ entries.
Proof.
  unfold bm_collect. enough (forall acc, e ∈ fold_left (fun acc e => bm_insert e.1 e.2 acc) entries acc ->
    e ∈ acc \/ e ∈ entries) as Hacc by (intros He; apply Hacc in He; set_solver).
  induction entries as [|[k v] r IH]; intros acc; cbn [fold_left fst snd]; [auto|].
  intros He. apply IH in He as [He|He]; [apply bm_insert_in in He|]; set_solver.
Qed.

Lemma bm_get_in k v l : bm_get k l = Some v -> (k, v) ∈ l.
Proof.
  induction l as [|[k' v'] r IH]; cbn; [done|].
  destruct (cmp k k') eqn:Hc; [apply cmp_eq in Hc as ->; intros [= ->]; left|right; auto..].
Qed.

Lemma bm_get_none k l : bm_get k l = None <-> k ∉ bm_keys l.
Proof.
  induction l as [|[k' v'] r IH]; cbn; [set_solver|].
  rewrite not_elem_of_cons, <-IH.
  destruct (cmp k k') eqn:Hc; [apply cmp_eq in Hc; naive_solver|..];
    (split; [intros ?; split; [intros ->; by rewrite cmp_refl in Hc|done]|naive_solver]).
Qed.
End btreemap.

(** ** [str::parse] on integers: an optional sign ([-] for signed types only),
    then at least one decimal digit, and the value in the range of the type. *)
Fixpoint decimal_digits (acc : Z) (l : list Z) : option Z :=
  match l with
  | [] => Some acc
  | b :: r => if is_ascii_digit b then decimal_digits (acc * 10 + (b - 0x30)) r else None
  end.

Definition parse_int (lo hi : Z) (s : string) : option Z :=
  let unsigned (l : list Z) := match l with [] => None | _ => decimal_digits 0 l end in
  let value :=
    match bytes s with
    | [] => None
    | b :: r =>
        if b =? 0x2B then unsigned r
        else if b =? 0x2D then (if lo <? 0 then option_map Z.opp (unsigned r) else None)
        else unsigned (b :: r)
    end in
  match value with
  | Some v => if in_range lo hi v then Some v else None
  | None => None
  end.

Definition parse_i32 : string -> option Z := parse_int (- 2 ^ 31) (2 ^ 31 - 1).
Definition parse_u16 : string -> option Z := parse_int 0 (2 ^ 16 - 1).
Definition parse_u32 : string -> option Z := parse_int 0 (2 ^ 32 - 1).
Definition parse_u64 : string -> option Z := parse_int 0 (2 ^ 64 - 1).
(** [usize] on the 64-bit targets the server is built for. *)
Definition parse_usize : string -> option Z := parse_int 0 (2 ^ 64 - 1).

Lemma parse_int_range lo hi s v : parse_int lo hi s = Some v -> lo <= v <= hi.
Proof.
  unfold parse_int. set (value := match bytes s with [] => _ | _ => _ end). clearbody value.
  destruct value as [w|]; [|done].
  destruct (in_range lo hi w) eqn:Hr; [|done]. intros [= ->]. by apply in_range_true.
Qed.

Lemma bytes_digit d r :
  0 <= d < 10 ->
  bytes (String (Ascii.ascii_of_N (Z.to_N (0x30 + d))) r) = (0x30 + d) :: bytes r.
Proof.
  intros Hd. cbn. f_equal. unfold byte_of. rewrite Ascii.N_ascii_embedding by lia. lia.
Qed.

Lemma is_ascii_digit_of d : 0 <= d < 10 -> is_ascii_digit (0x30 + d) = true.
Proof. intros. unfold is_ascii_digit. apply in_range_true. lia. Qed.

Lemma digits_of_head fuel v acc :
  (0 < fuel)%nat ->
  exists d r, 0 <= d < 10 /\ digits_of fuel 10 v acc = String (Ascii.ascii_of_N (Z.to_N (0x30 + d))) r.
Proof.
  revert v acc. induction fuel as [|fuel IH]; intros v acc Hf; [lia|]. cbn [digits_of].
  pose proof (Z.mod_pos_bound v 10 ltac:(lia)) as Hm.
  replace (v mod 10 <? 10) with true by lia.
  destruct (v / 10 =? 0); [by eexists _, _|].
  destruct fuel; [cbn; by eexists _, _|]. apply IH. lia.
Qed.

Lemma digits_of_parse fuel v acc :
  0 <= v < 10 ^ Z.of_nat fuel ->
  (0 < fuel)%nat -> decimal_digits 0 (bytes (digits_of fuel 10 v acc)) = decimal_digits v (bytes acc).
Proof.
  revert v acc. induction fuel as [|fuel IH]; intros v acc Hv Hf; [lia|]. cbn [digits_of].
  pose proof (Z.mod_pos_bound v 10 ltac:(lia)) as Hm.
  replace (v mod 10 <? 10) with true by lia.
  assert (Hdm := Z.div_mod v 10 ltac:(lia)).
  destruct (v / 10 =? 0) eqn:Hz.
  - rewrite bytes_digit by lia. cbn [decimal_digits]. rewrite is_ascii_digit_of by lia. f_equal. lia.
  - rewrite Nat2Z.inj_succ, Z.pow_succ_r in Hv by lia.
    assert (Hv' : 0 <= v / 10 < 10 ^ Z.of_nat fuel)
      by (split; [apply Z.div_pos; lia|apply Z.div_lt_upper_bound; lia]).
    destruct fuel as [|fuel]; [cbn in Hv'; lia|].
    rewrite IH by (done || lia). rewrite bytes_digit by lia. cbn [decimal_digits].
    rewrite is_ascii_digit_of by lia. f_equal. lia.
Qed.

(** Printing and parsing an unsigned integer. *)
Lemma parse_show_decimal hi v : 0 <= v <= hi -> hi < 10 ^ 20 -> parse_int 0 hi (show_decimal v) = Some v.
Proof.
  intros Hv Hhi. unfold parse_int, show_decimal.
  destruct (digits_of_head 20 v EmptyString ltac:(lia)) as (d & r & Hd & Heq).
  pose proof (digits_of_parse 20 v EmptyString ltac:(lia) ltac:(lia)) as Hp.
  rewrite Heq in *. rewrite bytes_digit in * by lia. cbn [decimal_digits bytes] in Hp.
  replace (48 + d =? 43) with false by lia. replace (48 + d =? 45) with false by lia.
  cbn [decimal_digits]. rewrite Hp.
  by replace (in_range 0 hi v) with true by (symmetry; apply in_range_true; lia).
Qed.

(** ** [str::trim]: the UTF-8 encodings of the characters with the Unicode
    property White_Space. *)
Definition whitespace_encodings : list (list Z) :=
  [[0x09]; [0x0A]; [0x0B]; [0x0C]; [0x0D]; [0x20]; [0xC2; 0x85]; [0xC2; 0xA0];
   [0xE1; 0x9A; 0x80]]
  ++ map (fun i => [0xE2; 0x80; 0x80 + Z.of_nat i]) (seq 0 11)
  ++ [[0xE2; 0x80; 0xA8]; [0xE2; 0x80; 0xA9]; [0xE2; 0x80; 0xAF]; [0xE2; 0x81; 0x9F];
      [0xE3; 0x80; 0x80]].

Fixpoint drop_encoding (encodings : list (list Z)) (l : list Z) : option (list Z) :=
  match encodings with
  | [] => None
  | e :: rest =>
      if bool_decide (take (length e) l = e) then Some (drop (length e) l)
      else drop_encoding rest l
  end.

(** Every step drops at least one byte, so the length is enough fuel. *)
Fixpoint trim_bytes (fuel : nat) (encodings : list (list Z)) (l : list Z) : list Z :=
  match fuel with
  | O => l
  | S f => match drop_encoding encodings l with
           | Some r => trim_bytes f encodings r
           | None => l
           end
  end.

Fixpoint str_of_bytes (l : list Z) : string :=
  match l with
  | [] => EmptyString
  | b :: r => String (Ascii.ascii_of_N (Z.to_N b)) (str_of_bytes r)
  end.

Definition trim (s : string) : string :=
  let start := trim_bytes (String.length s) whitespace_encodings (bytes s) in
  let stop := trim_bytes (length start) (map (@rev Z) whitespace_encodings) (rev start) in
  str_of_bytes (rev stop).

(** ** [Ord] of addresses: IPv4 before IPv6, then part by part *)
Fixpoint zlist_cmp (l m : list Z) : comparison :=
  match l, m with
  | [], [] => Eq
  | [], _ :: _ => Lt
  | _ :: _, [] => Gt
  | x :: l', y :: m' => match Z.compare x y with Eq => zlist_cmp l' m' | c => c end
  end.

Lemma zlist_cmp_eq l m : zlist_cmp l m = Eq <-> l = m.
Proof.
  revert m; induction l as [|x l IH]; intros [|y m]; cbn; try done.
  destruct (Z.compare_spec x y) as [->|Hlt|Hlt]; [rewrite IH; naive_solver|..];
    (split; [done|intros [= -> ->]; lia]).
Qed.

Lemma zlist_cmp_antisym l m : zlist_cmp m l = CompOpp (zlist_cmp l m).
Proof.
  revert m; induction l as [|x l IH]; intros [|y m]; cbn; try done.
  rewrite (Z.compare_antisym x y). destruct (x ?= y); cbn; [apply IH|done|done].
Qed.

Lemma zlist_cmp_trans l m n : zlist_cmp l m = Lt -> zlist_cmp m n = Lt -> zlist_cmp l n = Lt.
Proof.
  revert m n; induction l as [|x l IH]; intros [|y m] [|z n]; cbn; try done.
  destruct (Z.compare_spec x y) as [Hxy|Hxy|Hxy]; destruct (Z.compare_spec y z) as [Hyz|Hyz|Hyz];
    try done; destruct (Z.compare_spec x z) as [Hxz|Hxz|Hxz]; try done; try lia.
  apply IH.
Qed.

Definition ip_cmp (a b : IpAddr) : comparison :=
  match a, b with
  | V4 x, V4 y => zlist_cmp x y
  | V4 _, V6 _ => Lt
  | V6 _, V4 _ => Gt
  | V6 x, V6 y => zlist_cmp x y
  end.

#[global, refine] Instance IpAddr_ord : TotalOrd IpAddr := {| cmp := ip_cmp |}.
Proof.
  - intros [x|x] [y|y]; cbn; try done; rewrite zlist_cmp_eq; naive_solver.
  - intros [x|x] [y|y]; cbn; try done; apply zlist_cmp_antisym.
  - intros [x|x] [y|y] [z|z]; cbn; try done; apply zlist_cmp_trans.
Defined.

(** ** [str::parse::<SocketAddr>] *)
Inductive SocketAddr :=
| SocketV4 (octets : list Z) (port : Z)
| SocketV6 (segments : list Z) (port : Z) (scope_id : Z).

Definition socket_ip (a : SocketAddr) : IpAddr :=
  match a with SocketV4 o _ => V4 o | SocketV6 s _ _ => V6 s end.

(** No limit on the number of digits, only the width of the type. *)
Definition read_port : parser Z :=
  fun l => match read_given_char 0x3A l with
           | Some (_, r) => read_number 10 (Z.of_nat (length r)) (2 ^ 16 - 1) true r
           | None => None
           end.

Definition read_scope_id : parser Z :=
  fun l => match read_given_char 0x25 l with
           | Some (_, r) => read_number 10 (Z.of_nat (length r)) (2 ^ 32 - 1) true r
           | None => None
           end.

Definition read_socket_addr_v4 : parser SocketAddr :=
  fun l => match read_ipv4_addr l with
           | Some (ip, r) => match read_port r with
                             | Some (port, r') => Some (SocketV4 ip port, r')
                             | None => None
                             end
           | None => None
           end.

Definition read_socket_addr_v6 : parser SocketAddr :=
  fun l =>
    match read_given_char 0x5B l with
    | Some (_, l1) =>
        match read_ipv6_addr l1 with
        | Some (ip, l2) =>
            let '(scope, l3) := match read_scope_id l2 with Some r => r | None => (0, l2) end in
            match read_given_char 0x5D l3 with
            | Some (_, l4) =>
                match read_port l4 with
                | Some (port, l5) => Some (SocketV6 ip port scope, l5)
                | None => None
                end
            | None => None
            end
        | None => None
        end
    | None => None
    end.

Definition parse_socket_addr (s : string) : option SocketAddr :=
  let l := bytes s in
  match read_socket_addr_v4 l with
  | Some (a, []) => Some a
  | Some (_, _ :: _) => None
  | None => match read_socket_addr_v6 l with
            | Some (a, []) => Some a
            | _ => None
            end
  end.

Example parse_socket_addr_loopback :
  parse_socket_addr "127.0.0.1:8080" = Some (SocketV4 [127; 0; 0; 1] 8080)
  /\ parse_socket_addr "[::1%3]:443" = Some (SocketV6 [0; 0; 0; 0; 0; 0; 0; 1] 443 3)
  /\ parse_socket_addr "127.0.0.1:65536" = None
  /\ parse_socket_addr "localhost:80" = None.
Proof. repeat split; vm_compute; reflexivity. Qed.

Example trim_spaces : trim "  relay.example	" = "relay.example"%string.
Proof. vm_compute. reflexivity. Qed.
