(* ===== verification/Config.v ===== *)
(** * Server configuration

    [config.rs]: the parser of the [OWLAUTH_*] environment into a
    [ServerConfig], every check included, in the order of the source.

    The environment is a [BTreeMap] of strings.  Code outside the repository is
    the class [ConfigLib]: base64url decoding, SHA-256, the entries serde_json
    reports for the two shapes of retained-key objects, the error text and the
    default port of the [url] crate, reading a file, and rustls' check of a
    trust anchor.  A [Duration] is its number of nanoseconds. *)
From S2P Require Import Prelude.
From S2P Require Import BTree.
From S2P Require Import Values.
From S2P Require Import Email.
From S2P Require Import UrlValues.
From S2P Require Import Json.
From S2P Require Import Mail.
From S2P Require Import BTreeMap.

Definition CONTROL_KEY_PREFIX : string := "owl_ctrl_v1_".
Definition CONTROL_KEY_SECRET_LENGTH : Z := 43.

Definition from_mins (n : Z) : Z := minutes n.
Definition from_hours (n : Z) : Z := minutes (n * 60).
Definition MAX_KEY_PROPAGATION_DELAY : Z := from_hours 24.
Definition MAX_SIGNING_VERIFICATION_RETENTION : Z := from_hours 24.
Definition MIN_DATABASE_LOCK_TIMEOUT : Z := milliseconds 10.
Definition MAX_DATABASE_LOCK_TIMEOUT : Z := from_mins 1.
Definition MIN_MIGRATION_LOCK_TIMEOUT : Z := milliseconds 10.
Definition MAX_MIGRATION_LOCK_TIMEOUT : Z := from_mins 5.
Definition MIN_MIGRATION_STATEMENT_TIMEOUT : Z := milliseconds 100.
Definition MAX_MIGRATION_STATEMENT_TIMEOUT : Z := from_hours 1.
Definition MIN_MIGRATION_DEADLINE : Z := seconds 1.
Definition MAX_MIGRATION_DEADLINE : Z := from_hours 24.
Definition FEDERATED_PROJECT_AUTH_AVAILABLE : bool := true.

Definition KNOWN_ENVIRONMENT_KEYS : list string := ([
  "OWLAUTH_MODE";
  "OWLAUTH_INSTANCE_ID";
  "OWLAUTH_AUTH_ADDR";
  "OWLAUTH_AUTH_BASE_URL";
  "OWLAUTH_CONTROL_ADDR";
  "OWLAUTH_CONTROL_BASE_URL";
  "OWLAUTH_CONTROL_API_KEY";
  "OWLAUTH_SERVER_KEY_DIGEST_KEY_VERSION";
  "OWLAUTH_SERVER_KEY_DIGEST_KEY";
  "OWLAUTH_SERVER_KEY_DIGEST_RETAINED_KEYS";
  "OWLAUTH_CONTROL_MCP_ENABLED";
  "OWLAUTH_CONTROL_MCP_MAX_REQUEST_BYTES";
  "OWLAUTH_CONTROL_MCP_REQUEST_TIMEOUT_MS";
  "OWLAUTH_CONTROL_MCP_MAX_CONCURRENT_REQUESTS";
  "OWLAUTH_CONTROL_MCP_MAX_RESULT_BYTES";
  "OWLAUTH_SOFTWARE_CUSTODY_KEY";
  "OWLAUTH_RUNTIME_KEY_VERSION";
  "OWLAUTH_RUNTIME_DIGEST_KEY";
  "OWLAUTH_RUNTIME_PROTECTION_KEY";
  "OWLAUTH_RUNTIME_RETAINED_KEYS";
  "OWLAUTH_EMAIL_IDENTITY_KEY_VERSION";
  "OWLAUTH_EMAIL_IDENTITY_DIGEST_KEY";
  "OWLAUTH_EMAIL_IDENTITY_PROTECTION_KEY";
  "OWLAUTH_EMAIL_IDENTITY_RETAINED_KEYS";
  "OWLAUTH_PROJECTION_EMAIL_KEY_VERSION";
  "OWLAUTH_PROJECTION_EMAIL_PROTECTION_KEY";
  "OWLAUTH_PROJECTION_EMAIL_RETAINED_KEYS";
  "OWLAUTH_SMTP_EXTRA_ROOT_CERT_DER_FILE";
  "OWLAUTH_WEBHOOK_EXTRA_ROOT_CERT_DER_FILE";
  "OWLAUTH_MANAGED_REAUTHORIZATION_KEY_VERSION";
  "OWLAUTH_MANAGED_REAUTHORIZATION_DIGEST_KEY";
  "OWLAUTH_MANAGED_REAUTHORIZATION_PROTECTION_KEY";
  "OWLAUTH_MANAGED_REAUTHORIZATION_RETAINED_KEYS";
  "OWLAUTH_IDENTITY_MUTATION_EVIDENCE_KEY_VERSION";
  "OWLAUTH_IDENTITY_MUTATION_EVIDENCE_DIGEST_KEY";
  "OWLAUTH_IDENTITY_MUTATION_EVIDENCE_PROTECTION_KEY";
  "OWLAUTH_IDENTITY_MUTATION_EVIDENCE_RETAINED_KEYS";
  "OWLAUTH_MANAGED_CREDENTIAL_KEY_VERSION";
  "OWLAUTH_MANAGED_CREDENTIAL_KEY";
  "OWLAUTH_MANAGED_CREDENTIAL_RETAINED_KEYS";
  "OWLAUTH_PROVIDER_ALLOW_HTTP_LOOPBACK";
  "OWLAUTH_DEPLOYMENT_SMTP_GENERATION";
  "OWLAUTH_DEPLOYMENT_SMTP_STATUS";
  "OWLAUTH_DEPLOYMENT_SMTP_HOST";
  "OWLAUTH_DEPLOYMENT_SMTP_PORT";
  "OWLAUTH_DEPLOYMENT_SMTP_TLS_MODE";
  "OWLAUTH_DEPLOYMENT_SMTP_SENDER_ADDRESS";
  "OWLAUTH_DEPLOYMENT_SMTP_SAFE_FINGERPRINT";
  "OWLAUTH_DEPLOYMENT_SMTP_ALLOWED_PRIVATE_IPS";
  "OWLAUTH_WEBHOOK_ALLOWED_PRIVATE_IPS";
  "OWLAUTH_KEY_PROPAGATION_DELAY_MS";
  "OWLAUTH_SIGNING_VERIFICATION_RETENTION_MS";
  "OWLAUTH_POSTGRES_URL";
  "OWLAUTH_RUNTIME_POSTGRES_URL";
  "OWLAUTH_SERVER_POSTGRES_URL";
  "OWLAUTH_CONTROL_POSTGRES_URL";
  "OWLAUTH_MIGRATION_POSTGRES_URL";
  "OWLAUTH_MIGRATION_MODE";
  "OWLAUTH_MIGRATION_OWNER_ROLE";
  "OWLAUTH_DATABASE_CONNECT_TIMEOUT_MS";
  "OWLAUTH_DATABASE_LOCK_TIMEOUT_MS";
  "OWLAUTH_MIGRATION_LOCK_TIMEOUT_MS";
  "OWLAUTH_MIGRATION_STATEMENT_TIMEOUT_MS";
  "OWLAUTH_MIGRATION_DEADLINE_MS";
  "OWLAUTH_RUNTIME_DATABASE_MAX_CONNECTIONS";
  "OWLAUTH_SERVER_DATABASE_MAX_CONNECTIONS";
  "OWLAUTH_CONTROL_DATABASE_MAX_CONNECTIONS";
  "OWLAUTH_AUTH_REQUEST_TIMEOUT_MS";
  "OWLAUTH_AUTH_MAX_REQUEST_BYTES";
  "OWLAUTH_AUTH_MAX_IN_FLIGHT_REQUESTS";
  "OWLAUTH_AUTH_MAX_CONNECTIONS";
  "OWLAUTH_AUTH_MAX_HEADER_COUNT";
  "OWLAUTH_AUTH_MAX_HEADER_BYTES";
  "OWLAUTH_AUTH_MAX_URI_BYTES";
  "OWLAUTH_CONTROL_REQUEST_TIMEOUT_MS";
  "OWLAUTH_CONTROL_MAX_REQUEST_BYTES";
  "OWLAUTH_CONTROL_MAX_IN_FLIGHT_REQUESTS";
  "OWLAUTH_CONTROL_MAX_CONNECTIONS";
  "OWLAUTH_CONTROL_MAX_HEADER_COUNT";
  "OWLAUTH_CONTROL_MAX_HEADER_BYTES";
  "OWLAUTH_CONTROL_MAX_URI_BYTES";
  "OWLAUTH_SHUTDOWN_TIMEOUT_MS"
])%string.

(** ** Errors *)
Module ConfigErr.
Inductive ConfigError :=
| Missing (key : string)
| Unknown (key : string)
| InvalidValue (key reason : string)
| DatabaseAuthority (key : string)
| SharedOriginBases.
#[global] Instance ConfigError_eq_dec : EqDecision ConfigError.
Proof. solve_decision. Defined.
End ConfigErr.
Abbreviation ConfigError := ConfigErr.ConfigError.
Abbreviation InvalidValue := ConfigErr.InvalidValue.
Abbreviation MissingKey := ConfigErr.Missing.

(** ** Modes *)
Inductive ProcessMode := AllPlanes | AuthPlane | ControlPlane.
#[global] Instance ProcessMode_eq_dec : EqDecision ProcessMode.
Proof. solve_decision. Defined.

Definition ProcessMode_has_auth (self : ProcessMode) : bool :=
  match self with AllPlanes | AuthPlane => true | ControlPlane => false end.
Definition ProcessMode_has_control (self : ProcessMode) : bool :=
  match self with AllPlanes | ControlPlane => true | AuthPlane => false end.

Definition ProcessMode_from_str (value : string) : result ConfigError ProcessMode :=
  if bool_decide (value = "all"%string) then Ok AllPlanes
  else if bool_decide (value = "auth"%string) then Ok AuthPlane
  else if bool_decide (value = "control"%string) then Ok ControlPlane
  else Err (InvalidValue "OWLAUTH_MODE" "must be `all`, `auth`, or `control`").

Inductive MigrationMode := AutoMigration | VerifyMigration.

Definition MigrationMode_from_str (value : string) : result ConfigError MigrationMode :=
  if bool_decide (value = "auto"%string) then Ok AutoMigration
  else if bool_decide (value = "verify"%string) then Ok VerifyMigration
  else Err (InvalidValue "OWLAUTH_MIGRATION_MODE" "must be `auto` or `verify`").

(** ** The libraries the parser calls *)
Class ConfigLib `{UrlLib} : Type := {
  base64url_decode : string -> option (list Z);
  sha256 : list Z -> list Z;
  url_error : string -> string;
  url_port_or_known_default : Url -> option Z;
  (** [std::fs::read] at startup. *)
  fs_read : string -> option (list Z);
  (** [RootCertStore::add]. *)
  trust_anchor_ok : list Z -> bool;
  (** The entries of a JSON object with integer keys, in the order of the text,
      or [None] when the text is not such an object. *)
  json_key_entries : string -> option (list (Z * string));
  json_ring_entries : string -> option (list (Z * (string * string)))
}.

(** ** Operator key and protection keys *)
Record OperatorApiKey := mkOperatorApiKey { ok_secret : string }.

Definition base64url_byte (b : Z) : bool := is_ascii_alphanumeric b || (b =? 0x5F) || (b =? 0x2D).

Definition OperatorApiKey_parse (value : string) : result ConfigError OperatorApiKey :=
  let expected_length := str_len CONTROL_KEY_PREFIX + CONTROL_KEY_SECRET_LENGTH in
  let valid :=
    (str_len value =? expected_length)
    && String.prefix CONTROL_KEY_PREFIX value
    && forallb base64url_byte (drop (Z.to_nat (str_len CONTROL_KEY_PREFIX)) (bytes value)) in
  if negb valid
  then Err (InvalidValue "OWLAUTH_CONTROL_API_KEY"
              "must be `owl_ctrl_v1_` followed by 43 unpadded base64url characters")
  else Ok (mkOperatorApiKey value).

(** [ct_eq] is equality of the two byte slices. *)
Definition OperatorApiKey_matches (self : OperatorApiKey) (candidate : list Z) : bool :=
  let expected := bytes (ok_secret self) in
  (list_len expected =? list_len candidate) && bool_decide (expected = candidate).

Record StoreMasterKey := mkStoreMasterKey { mk_bytes : list Z }.

Definition StoreMasterKey_parse `{ConfigLib} (key value : string) :
    result ConfigError StoreMasterKey :=
  decoded <-? ok_or (base64url_decode value)
    (InvalidValue key "must be exactly 32 bytes encoded as unpadded base64url") ;;
  if list_len decoded =? 32 then Ok (mkStoreMasterKey decoded)
  else Err (InvalidValue key "must be exactly 32 bytes encoded as unpadded base64url").

(** ** The configuration *)
Record HttpBudgetConfig := mkHttpBudgetConfig {
  hb_request_timeout : Z;
  hb_max_request_bytes : Z;
  hb_max_in_flight_requests : Z;
  hb_max_connections : Z;
  hb_max_header_count : Z;
  hb_max_header_bytes : Z;
  hb_max_uri_bytes : Z
}.

Record ListenerConfig `{UrlLib} := mkListenerConfig {
  lc_bind : SocketAddr;
  lc_external_base : Url;
  lc_http : HttpBudgetConfig
}.

Record McpHttpConfig := mkMcpHttpConfig {
  mcp_enabled : bool;
  mcp_max_request_bytes : Z;
  mcp_request_timeout : Z;
  mcp_max_concurrent_requests : Z;
  mcp_max_result_bytes : Z
}.

Record PostgresConfig := mkPostgresConfig {
  pg_serving_url : string;
  pg_runtime_url : string;
  pg_server_url : string;
  pg_control_url : string;
  pg_migration_url : string;
  pg_migration_mode : MigrationMode;
  pg_migration_owner_role : option string;
  pg_connect_timeout : Z;
  pg_database_lock_timeout : Z;
  pg_migration_lock_timeout : Z;
  pg_migration_statement_timeout : Z;
  pg_migration_deadline : Z
}.

Record ProvisioningConfig := mkProvisioningConfig { pv_software_custody_key : option StoreMasterKey }.

Record RuntimeKeyConfig := mkRuntimeKeyConfig {
  rk_digest_key : StoreMasterKey;
  rk_protection_key : StoreMasterKey
}.

Record RuntimeProtectionConfig := mkRuntimeProtectionConfig {
  rp_active_version : Z;
  rp_active : RuntimeKeyConfig;
  rp_retained : list (Z * RuntimeKeyConfig)
}.

Record EmailIdentityProtectionConfig := mkEmailIdentityProtectionConfig {
  ei_active_version : Z;
  ei_active : RuntimeKeyConfig;
  ei_retained : list (Z * RuntimeKeyConfig)
}.

Record ProjectionEmailProtectionConfig := mkProjectionEmailProtectionConfig {
  pe_active_version : Z;
  pe_active_key : StoreMasterKey;
  pe_retained : list (Z * StoreMasterKey)
}.

Record ManagedCredentialProtectionConfig := mkManagedCredentialProtectionConfig {
  mp_active_version : Z;
  mp_active_key : StoreMasterKey;
  mp_retained : list (Z * StoreMasterKey)
}.

Record ServerKeyDigestConfig := mkServerKeyDigestConfig {
  sk_active_version : Z;
  sk_active_key : StoreMasterKey;
  sk_retained : list (Z * StoreMasterKey)
}.

Inductive DeploymentSmtpStatus := SmtpReconciled | SmtpActive | SmtpDisabled | SmtpCompromised.
#[global] Instance DeploymentSmtpStatus_eq_dec : EqDecision DeploymentSmtpStatus.
Proof. solve_decision. Defined.

Record DeploymentSmtpConfig := mkDeploymentSmtpConfig {
  ds_generation : Z;
  ds_status : DeploymentSmtpStatus;
  ds_host : string;
  ds_port : Z;
  ds_tls_mode : string;
  ds_sender_address : string;
  ds_safe_fingerprint : option (list Z);
  ds_explicitly_allowed_private_ips : list IpAddr
}.

Record ServerConfig `{UrlLib} := mkServerConfig {
  sc_mode : ProcessMode;
  sc_instance_id : option string;
  sc_auth : ListenerConfig;
  sc_control : ListenerConfig;
  sc_runtime_database_max_connections : Z;
  sc_server_database_max_connections : Z;
  sc_control_database_max_connections : Z;
  sc_control_api_key : option OperatorApiKey;
  sc_control_mcp : McpHttpConfig;
  sc_provisioning : option ProvisioningConfig;
  sc_runtime_protection : option RuntimeProtectionConfig;
  sc_email_identity_protection : option EmailIdentityProtectionConfig;
  sc_projection_email_protection : ProjectionEmailProtectionConfig;
  sc_smtp_extra_root_cert_der : option (list Z);
  sc_webhook_extra_root_cert_der : option (list Z);
  sc_managed_reauthorization_target_protection : RuntimeProtectionConfig;
  sc_identity_mutation_evidence_protection : RuntimeProtectionConfig;
  sc_managed_credential_protection : option ManagedCredentialProtectionConfig;
  sc_server_key_digest : option ServerKeyDigestConfig;
  sc_provider_allow_http_loopback : bool;
  sc_deployment_smtp : option DeploymentSmtpConfig;
  sc_webhook_allowed_private_ips : list IpAddr;
  sc_key_propagation_delay : Z;
  sc_signing_verification_retention : Z;
  sc_postgres : PostgresConfig;
  sc_shutdown_timeout : Z
}.

(** ** Reading the environment *)
Definition Env : Type := list (string * string).

Definition optional (values : Env) (key : string) : option string := bm_get key values.

Definition required (values : Env) (key : string) : result ConfigError string :=
  match optional values key with
  | Some value => if is_empty value then Err (MissingKey key) else Ok value
  | None => Err (MissingKey key)
  end.

Definition unwrap_or {A : Type} (o : option A) (default : A) : A :=
  match o with Some a => a | None => default end.

(** [keys()] are in order, so the first unknown one is reported. *)
Definition reject_unknown_keys (values : Env) : result ConfigError unit :=
  let known := bt_collect KNOWN_ENVIRONMENT_KEYS in
  match List.find (fun key => negb (bool_decide (key ∈ known))) (bm_keys values) with
  | Some key => Err (ConfigErr.Unknown key)
  | None => Ok tt
  end.

Definition parse_boolean (values : Env) (key : string) (default : bool) : result ConfigError bool :=
  match optional values key with
  | None => Ok default
  | Some value =>
      if bool_decide (value = "true"%string) then Ok true
      else if bool_decide (value = "false"%string) then Ok false
      else Err (InvalidValue key "must be `true` or `false`")
  end.

(** [T] is given by its parser. *)
Definition parse_value {T : Type} (parse : string -> option T) (values : Env)
    (key default reason : string) : result ConfigError T :=
  ok_or (parse (unwrap_or (optional values key) default)) (InvalidValue key reason).

Definition parse_nonzero_u32 (values : Env) (key : string) (default : Z) : result ConfigError Z :=
  value <-? match optional values key with
            | Some text => ok_or (parse_u32 text) (InvalidValue key "must be a positive integer")
            | None => Ok default
            end ;;
  if value =? 0 then Err (InvalidValue key "must be greater than zero") else Ok value.

Definition parse_bounded_usize (values : Env) (key : string) (default maximum : Z) :
    result ConfigError Z :=
  value <-? parse_value parse_usize values key (show_decimal default) "must be a positive integer" ;;
  if (value =? 0) || (maximum <? value)
  then Err (InvalidValue key (String.append "must be between 1 and " (show_decimal maximum)))
  else Ok value.

Definition parse_millis (values : Env) (key : string) (default : Z) : result ConfigError Z :=
  ms <-? parse_value parse_u64 values key (show_decimal default)
           "must be a positive integer number of milliseconds" ;;
  if ms =? 0 then Err (InvalidValue key "must be greater than zero") else Ok (milliseconds ms).

Definition as_millis (duration : Z) : Z := duration / 1000000.

Definition parse_bounded_millis (values : Env) (key : string) (default minimum maximum : Z) :
    result ConfigError Z :=
  duration <-? parse_millis values key default ;;
  if negb (in_range minimum maximum duration)
  then Err (InvalidValue key
              (String.append "must be between "
                (String.append (show_decimal (as_millis minimum))
                  (String.append " and "
                    (String.append (show_decimal (as_millis maximum)) " milliseconds")))))
  else Ok duration.

Inductive HttpBudgetPlane := AuthBudget | ControlBudget.

Definition parse_http_budget (values : Env) (plane : HttpBudgetPlane) :
    result ConfigError HttpBudgetConfig :=
  let '(timeout, body, in_flight, connections, header_count, header_bytes, uri_bytes, defaults) :=
    match plane with
    | AuthBudget =>
        ("OWLAUTH_AUTH_REQUEST_TIMEOUT_MS", "OWLAUTH_AUTH_MAX_REQUEST_BYTES",
         "OWLAUTH_AUTH_MAX_IN_FLIGHT_REQUESTS", "OWLAUTH_AUTH_MAX_CONNECTIONS",
         "OWLAUTH_AUTH_MAX_HEADER_COUNT", "OWLAUTH_AUTH_MAX_HEADER_BYTES",
         "OWLAUTH_AUTH_MAX_URI_BYTES", (256, 512))%string
    | ControlBudget =>
        ("OWLAUTH_CONTROL_REQUEST_TIMEOUT_MS", "OWLAUTH_CONTROL_MAX_REQUEST_BYTES",
         "OWLAUTH_CONTROL_MAX_IN_FLIGHT_REQUESTS", "OWLAUTH_CONTROL_MAX_CONNECTIONS",
         "OWLAUTH_CONTROL_MAX_HEADER_COUNT", "OWLAUTH_CONTROL_MAX_HEADER_BYTES",
         "OWLAUTH_CONTROL_MAX_URI_BYTES", (64, 128))%string
    end in
  request_timeout <-? parse_bounded_millis values timeout 10000 (milliseconds 10) (from_mins 1) ;;
  max_request_bytes <-? parse_bounded_usize values body 1048576 16777216 ;;
  max_in_flight_requests <-? parse_bounded_usize values in_flight defaults.1 4096 ;;
  max_connections <-? parse_bounded_usize values connections defaults.2 8192 ;;
  max_header_count <-? parse_bounded_usize values header_count 128 512 ;;
  max_header_bytes <-? parse_bounded_usize values header_bytes 65536 262144 ;;
  max_uri_bytes <-? parse_bounded_usize values uri_bytes 8192 65536 ;;
  Ok (mkHttpBudgetConfig request_timeout max_request_bytes max_in_flight_requests max_connections
        max_header_count max_header_bytes max_uri_bytes).

(** ** Listeners *)
Section listeners.
Context `{ConfigLib}.

Definition parse_external_base (key value : string) : result ConfigError Url :=
  url <-? ok_or (url_parse value)
    (InvalidValue key (String.append "must be an absolute HTTP(S) URL: " (url_error value))) ;;
  let valid :=
    (bool_decide (url_scheme url = "http"%string) || bool_decide (url_scheme url = "https"%string))
    && is_some (url_host_str url)
    && is_empty (url_username url)
    && is_none (url_password url)
    && is_none (url_query url)
    && is_none (url_fragment url)
    && starts_with_byte 0x2F (url_path url)
    && ends_with_byte 0x2F (url_path url)
    && negb (contains_byte 0x25 value)
    && negb (contains_byte 0x5C value) in
  if negb valid
  then Err (InvalidValue key "must be an absolute HTTP(S) origin plus canonical trailing-slash path")
  else Ok url.

Definition same_origin (left right : Url) : bool :=
  bool_decide (url_scheme left = url_scheme right)
  && bool_decide (url_host_str left = url_host_str right)
  && bool_decide (url_port_or_known_default left = url_port_or_known_default right).

Definition validate_external_bases (auth control : Url) : result ConfigError unit :=
  if same_origin auth control
     && (bool_decide (url_path auth = "/"%string)
         || bool_decide (url_path control = "/"%string)
         || String.prefix (url_path control) (url_path auth)
         || String.prefix (url_path auth) (url_path control))
  then Err ConfigErr.SharedOriginBases
  else Ok tt.

Definition is_ascii_graphic (b : Z) : bool := in_range 0x21 0x7E b.

Definition validate_instance_id (value : string) : result ConfigError string :=
  if (128 <? str_len value) || is_empty value || negb (forallb is_ascii_graphic (bytes value))
  then Err (InvalidValue "OWLAUTH_INSTANCE_ID" "must be 1 to 128 opaque printable ASCII characters")
  else Ok value.

Definition parse_control_identity (mode : ProcessMode) (values : Env) :
    result ConfigError (option string * option OperatorApiKey) :=
  id <-? required values "OWLAUTH_INSTANCE_ID" ;;
  instance_id <-? validate_instance_id id ;;
  control_api_key <-?
    (if ProcessMode_has_control mode
     then text <-? required values "OWLAUTH_CONTROL_API_KEY" ;;
          rmap Some (OperatorApiKey_parse text)
     else Ok None) ;;
  Ok (Some instance_id, control_api_key).

Definition parse_control_mcp (mode : ProcessMode) (values : Env) : result ConfigError McpHttpConfig :=
  enabled <-? parse_boolean values "OWLAUTH_CONTROL_MCP_ENABLED" false ;;
  if enabled && negb (ProcessMode_has_control mode)
  then Err (InvalidValue "OWLAUTH_CONTROL_MCP_ENABLED"
              "requires `OWLAUTH_MODE=control` or `OWLAUTH_MODE=all`")
  else
    request_timeout <-? parse_millis values "OWLAUTH_CONTROL_MCP_REQUEST_TIMEOUT_MS" 10000 ;;
    if from_mins 1 <? request_timeout
    then Err (InvalidValue "OWLAUTH_CONTROL_MCP_REQUEST_TIMEOUT_MS"
                "must not exceed 60000 milliseconds")
    else
      max_request_bytes <-?
        parse_bounded_usize values "OWLAUTH_CONTROL_MCP_MAX_REQUEST_BYTES" 65536 1048576 ;;
      max_concurrent_requests <-?
        parse_bounded_usize values "OWLAUTH_CONTROL_MCP_MAX_CONCURRENT_REQUESTS" 16 64 ;;
      max_result_bytes <-?
        parse_bounded_usize values "OWLAUTH_CONTROL_MCP_MAX_RESULT_BYTES" 65536 1048576 ;;
      Ok (mkMcpHttpConfig enabled max_request_bytes request_timeout max_concurrent_requests
            max_result_bytes).

Definition host_is_loopback (h : option Host) : bool :=
  match h with
  | Some (Ipv4Host o) => ip_is_loopback (V4 o)
  | Some (Ipv6Host s) => ip_is_loopback (V6 s)
  | Some (DomainHost _) | None => false
  end.

Definition validate_control_mcp_listener (config : McpHttpConfig) (listener : ListenerConfig) :
    result ConfigError unit :=
  if negb (mcp_enabled config)
     || bool_decide (url_scheme (lc_external_base listener) = "https"%string)
  then Ok tt
  else if negb (host_is_loopback (url_host (lc_external_base listener)))
  then Err (InvalidValue "OWLAUTH_CONTROL_BASE_URL"
              "must use HTTPS when remote MCP is enabled, except for an exact loopback IP")
  else if negb (ip_is_loopback (socket_ip (lc_bind listener)))
  then Err (InvalidValue "OWLAUTH_CONTROL_ADDR"
              "must bind to an exact loopback IP when remote MCP uses development HTTP")
  else Ok tt.

(** ** Databases *)
Definition database_authority (value key : string) :
    result ConfigError (string * string * Z * string) :=
  url <-? ok_or (url_parse value)
    (InvalidValue key (String.append "must be a PostgreSQL URL: " (url_error value))) ;;
  let invalid :=
    InvalidValue key "must identify one PostgreSQL host, port, and database without a fragment" in
  if negb (bool_decide (url_scheme url = "postgres"%string)
           || bool_decide (url_scheme url = "postgresql"%string))
     || is_none (url_host_str url)
     || is_some (url_fragment url)
     || (str_len (url_path url) <=? 1)
  then Err invalid
  else
    Ok ("postgresql"%string,
        to_ascii_lowercase (unwrap_or (url_host_str url) EmptyString),
        unwrap_or (url_port url) 5432,
        url_path url).

Definition validate_database_authority (serving candidate candidate_key : string) :
    result ConfigError unit :=
  expected <-? database_authority serving "OWLAUTH_POSTGRES_URL" ;;
  actual <-? database_authority candidate candidate_key ;;
  if negb (bool_decide (expected = actual))
  then Err (ConfigErr.DatabaseAuthority candidate_key)
  else Ok tt.

Definition validate_role (value : string) : result ConfigError string :=
  let valid :=
    match bytes value with
    | [] => false
    | first :: rest =>
        ((first =? 0x5F) || is_ascii_lowercase first)
        && forallb (fun b => (b =? 0x5F) || is_ascii_lowercase b || is_ascii_digit b) rest
    end in
  if negb valid || (63 <? str_len value)
  then Err (InvalidValue "OWLAUTH_MIGRATION_OWNER_ROLE"
              "must be a lowercase PostgreSQL identifier of at most 63 bytes")
  else Ok value.
End listeners.

(** ** Deployment SMTP *)
Definition parse_allowed_private_ips (key : string) (value : option string) :
    result ConfigError (list IpAddr) :=
  addresses <-?
    map_err (fun _ => InvalidValue key "must be a comma-separated list of IP literals")
      (rmapM (fun text => ok_or (parse_ip_addr text) tt)
         (List.filter (fun text => negb (is_empty text))
            (split_byte 0x2C (unwrap_or value EmptyString)))) ;;
  let addresses := dedup (sort_unstable addresses) in
  map_err (fun _ => InvalidValue key
                      "must contain at most 16 explicitly overridable private addresses")
    (validate_private_relay_allowlist addresses) ;;?
  Ok addresses.

Definition parse_deployment_smtp_private_ips (value : option string) :
    result ConfigError (list IpAddr) :=
  parse_allowed_private_ips "OWLAUTH_DEPLOYMENT_SMTP_ALLOWED_PRIVATE_IPS" value.

Definition parse_deployment_smtp_status (value : string) : result ConfigError DeploymentSmtpStatus :=
  if bool_decide (value = "reconciled"%string) then Ok SmtpReconciled
  else if bool_decide (value = "active"%string) then Ok SmtpActive
  else if bool_decide (value = "disabled"%string) then Ok SmtpDisabled
  else if bool_decide (value = "compromised"%string) then Ok SmtpCompromised
  else Err (InvalidValue "OWLAUTH_DEPLOYMENT_SMTP_STATUS"
              "must be reconciled, active, disabled, or compromised").

Definition invalid_host_label (label : string) : bool :=
  is_empty label
  || (63 <? str_len label)
  || starts_with_byte 0x2D label
  || ends_with_byte 0x2D label
  || negb (forallb (fun b => is_ascii_alphanumeric b || (b =? 0x2D)) (bytes label)).

Definition normalize_deployment_smtp_host (value : string) : result ConfigError string :=
  let host := to_ascii_lowercase (trim value) in
  let invalid_label := existsb invalid_host_label (split_byte 0x2E host) in
  if is_empty host || (253 <? str_len host) || is_some (parse_ip_addr host) || invalid_label
  then Err (InvalidValue "OWLAUTH_DEPLOYMENT_SMTP_HOST"
              "must be a bounded DNS hostname rather than an IP literal")
  else Ok host.

Definition is_ascii_hexdigit (b : Z) : bool :=
  is_ascii_digit b || in_range 0x41 0x46 b || in_range 0x61 0x66 b.

(** [chunks_exact(2)] with [u8::from_str_radix(chunk, 16)]. *)
Fixpoint hex_pairs (l : list Z) : option (list Z) :=
  match l with
  | [] | [_] => Some []
  | a :: b :: r =>
      match to_digit 16 a, to_digit 16 b, hex_pairs r with
      | Some x, Some y, Some rest => Some (x * 16 + y :: rest)
      | _, _, _ => None
      end
  end.

Definition parse_deployment_smtp_fingerprint (value : string) : result ConfigError (list Z) :=
  let invalid := InvalidValue "OWLAUTH_DEPLOYMENT_SMTP_SAFE_FINGERPRINT"
                   "must be exactly 32 bytes encoded as hexadecimal" in
  if negb (str_len value =? 64) || negb (forallb is_ascii_hexdigit (bytes value))
  then Err invalid
  else ok_or (hex_pairs (bytes value)) invalid.

Definition DEPLOYMENT_SMTP_KEYS : list string :=
  ["OWLAUTH_DEPLOYMENT_SMTP_GENERATION"; "OWLAUTH_DEPLOYMENT_SMTP_STATUS";
   "OWLAUTH_DEPLOYMENT_SMTP_HOST"; "OWLAUTH_DEPLOYMENT_SMTP_PORT";
   "OWLAUTH_DEPLOYMENT_SMTP_TLS_MODE"; "OWLAUTH_DEPLOYMENT_SMTP_SENDER_ADDRESS"]%string.

Definition parse_deployment_smtp (values : Env) : result ConfigError (option DeploymentSmtpConfig) :=
  let present := length (List.filter (fun key => bm_contains_key key values) DEPLOYMENT_SMTP_KEYS) in
  let fingerprint_present := bm_contains_key "OWLAUTH_DEPLOYMENT_SMTP_SAFE_FINGERPRINT"%string values in
  if Nat.eqb present 0 && negb fingerprint_present then Ok None
  else if negb (Nat.eqb present (length DEPLOYMENT_SMTP_KEYS))
  then Err (InvalidValue "OWLAUTH_DEPLOYMENT_SMTP_GENERATION"
              "deployment SMTP configuration must supply every generation metadata field")
  else
    let bad_generation := InvalidValue "OWLAUTH_DEPLOYMENT_SMTP_GENERATION"
                            "must be a positive 32-bit generation" in
    generation_text <-? required values "OWLAUTH_DEPLOYMENT_SMTP_GENERATION" ;;
    generation <-? ok_or (parse_i32 generation_text) bad_generation ;;
    if generation <=? 0 then Err bad_generation
    else
      status_text <-? required values "OWLAUTH_DEPLOYMENT_SMTP_STATUS" ;;
      status <-? parse_deployment_smtp_status status_text ;;
      host_text <-? required values "OWLAUTH_DEPLOYMENT_SMTP_HOST" ;;
      host <-? normalize_deployment_smtp_host host_text ;;
      port_text <-? required values "OWLAUTH_DEPLOYMENT_SMTP_PORT" ;;
      port <-? ok_or (match parse_u16 port_text with
                      | Some port => if port =? 0 then None else Some port
                      | None => None
                      end)
                 (InvalidValue "OWLAUTH_DEPLOYMENT_SMTP_PORT" "must be a non-zero TCP port") ;;
      tls_mode <-? required values "OWLAUTH_DEPLOYMENT_SMTP_TLS_MODE" ;;
      if negb (bool_decide (tls_mode = "implicit_tls"%string)
               || bool_decide (tls_mode = "starttls_required"%string))
      then Err (InvalidValue "OWLAUTH_DEPLOYMENT_SMTP_TLS_MODE"
                  "must be implicit_tls or starttls_required")
      else
        sender_text <-? required values "OWLAUTH_DEPLOYMENT_SMTP_SENDER_ADDRESS" ;;
        sender <-? map_err (fun _ => InvalidValue "OWLAUTH_DEPLOYMENT_SMTP_SENDER_ADDRESS"
                                       "must be a canonicalizable email address")
                     (CanonicalEmail_parse_v1 sender_text) ;;
        safe_fingerprint <-?
          match optional values "OWLAUTH_DEPLOYMENT_SMTP_SAFE_FINGERPRINT" with
          | Some text => rmap Some (parse_deployment_smtp_fingerprint text)
          | None => Ok None
          end ;;
        if negb (bool_decide (status = SmtpReconciled)) && is_none safe_fingerprint
        then Err (MissingKey "OWLAUTH_DEPLOYMENT_SMTP_SAFE_FINGERPRINT")
        else
          allowed <-? parse_deployment_smtp_private_ips
                        (optional values "OWLAUTH_DEPLOYMENT_SMTP_ALLOWED_PRIVATE_IPS") ;;
          Ok (Some (mkDeploymentSmtpConfig generation status host port tls_mode
                      (CanonicalEmail_expose sender) safe_fingerprint allowed)).

(** The transport a configured relay is used with ([reconcile_deployment_smtp] of
    [composition.rs]), and [DeploymentSmtpGeneration::endpoint]. *)
Definition deployment_tls_mode (tls_mode : string) : result ApplicationError SmtpTlsMode :=
  if bool_decide (tls_mode = "implicit_tls"%string) then Ok ImplicitTls
  else if bool_decide (tls_mode = "starttls_required"%string) then Ok StartTlsRequired
  else Err AppError.Integrity.

Definition deployment_endpoint (configured : DeploymentSmtpConfig) :
    result ApplicationError SmtpEndpoint :=
  tls_mode <-? deployment_tls_mode (ds_tls_mode configured) ;;
  Ok (mkSmtpEndpoint (ds_host configured) (ds_port configured) tls_mode
        (ds_explicitly_allowed_private_ips configured) false).

(** ** Protection rings *)
Definition positive_integer (key : string) : ConfigError :=
  InvalidValue key "must be a positive integer".
Definition not_versioned_object (key : string) : ConfigError :=
  InvalidValue key "must be a JSON object keyed by unique positive key versions".

(** [parse::<i32>().ok().filter(|version| *version > 0)], and the same check
    written as a guard. *)
Definition parse_key_version (values : Env) (key : string) : result ConfigError Z :=
  text <-? required values key ;;
  ok_or (match parse_i32 text with
         | Some version => if 0 <? version then Some version else None
         | None => None
         end) (positive_integer key).

(** The closure that reads one retained entry. *)
Definition retained_entry {V W : Type} (retained_key : string) (active_version : Z)
    (parse : V -> result ConfigError W) (entry : Z * V) : result ConfigError (Z * W) :=
  let '(version, value) := entry in
  if (version <=? 0) || (version =? active_version)
  then Err (InvalidValue retained_key
              "versions must be positive and must not repeat the active version")
  else rmap (pair version) (parse value).

(** [.into_iter().map(..).collect::<Result<BTreeMap<_, _>, _>>()]. *)
Definition retained_map {V W : Type} (retained_key : string) (active_version : Z)
    (parse : V -> result ConfigError W) (entries : list (Z * V)) :
    result ConfigError (list (Z * W)) :=
  rmap bm_collect (rmapM (retained_entry retained_key active_version parse) entries).

(** [UniqueVersionedKeys]: the visitor of the source refuses a repeated key. *)
Fixpoint unique_versioned_keys (keys : list (Z * string)) (entries : list (Z * string)) :
    option (list (Z * string)) :=
  match entries with
  | [] => Some keys
  | (version, key) :: rest =>
      if is_some (bm_get version keys) then None
      else unique_versioned_keys (bm_insert version key keys) rest
  end.

Section rings.
Context `{ConfigLib}.

(** [serde_json::from_str::<BTreeMap<i32, _>>]: entries inserted in the order of
    the text. *)
Definition versioned_keys (text : string) : option (list (Z * string)) :=
  option_map bm_collect (json_key_entries text).
Definition versioned_rings (text : string) : option (list (Z * (string * string))) :=
  option_map bm_collect (json_ring_entries text).
Definition UniqueVersionedKeys_deserialize (text : string) : option (list (Z * string)) :=
  match json_key_entries text with
  | Some entries => unique_versioned_keys [] entries
  | None => None
  end.

Definition parse_runtime_key (digest_key_name digest_key protection_key_name protection_key : string) :
    result ConfigError RuntimeKeyConfig :=
  digest <-? StoreMasterKey_parse digest_key_name digest_key ;;
  protection <-? StoreMasterKey_parse protection_key_name protection_key ;;
  if bool_decide (mk_bytes digest = mk_bytes protection)
  then Err (InvalidValue protection_key_name "must be separate from the corresponding digest key")
  else Ok (mkRuntimeKeyConfig digest protection).

Definition parse_protection_ring (values : Env)
    (version_key digest_key protection_key retained_key : string) :
    result ConfigError (Z * RuntimeKeyConfig * list (Z * RuntimeKeyConfig)) :=
  active_version <-? parse_key_version values version_key ;;
  digest_text <-? required values digest_key ;;
  protection_text <-? required values protection_key ;;
  active <-? parse_runtime_key digest_key digest_text protection_key protection_text ;;
  entries <-? ok_or (versioned_rings (unwrap_or (optional values retained_key) "{}"%string))
                (not_versioned_object retained_key) ;;
  retained <-? retained_map retained_key active_version
                 (fun key => parse_runtime_key digest_key key.1 protection_key key.2) entries ;;
  if 15 <? list_len retained
  then Err (InvalidValue retained_key
              "at most 15 retained versions are supported alongside the active version")
  else Ok (active_version, active, retained).

Definition parse_runtime_protection (mode : ProcessMode) (values : Env) :
    result ConfigError (option RuntimeProtectionConfig) :=
  if negb (ProcessMode_has_auth mode) then Ok None
  else
    let? (active_version, active, retained) :=
      parse_protection_ring values "OWLAUTH_RUNTIME_KEY_VERSION" "OWLAUTH_RUNTIME_DIGEST_KEY"
        "OWLAUTH_RUNTIME_PROTECTION_KEY" "OWLAUTH_RUNTIME_RETAINED_KEYS" in
    Ok (Some (mkRuntimeProtectionConfig active_version active retained)).

Definition EMAIL_IDENTITY_KEYS : list string :=
  ["OWLAUTH_EMAIL_IDENTITY_KEY_VERSION"; "OWLAUTH_EMAIL_IDENTITY_DIGEST_KEY";
   "OWLAUTH_EMAIL_IDENTITY_PROTECTION_KEY"; "OWLAUTH_EMAIL_IDENTITY_RETAINED_KEYS"]%string.

Definition parse_email_identity_protection (values : Env) :
    result ConfigError (option EmailIdentityProtectionConfig) :=
  if negb (existsb (fun key => bm_contains_key key values) EMAIL_IDENTITY_KEYS) then Ok None
  else
    let? (active_version, active, retained) :=
      parse_protection_ring values "OWLAUTH_EMAIL_IDENTITY_KEY_VERSION"
        "OWLAUTH_EMAIL_IDENTITY_DIGEST_KEY" "OWLAUTH_EMAIL_IDENTITY_PROTECTION_KEY"
        "OWLAUTH_EMAIL_IDENTITY_RETAINED_KEYS" in
    Ok (Some (mkEmailIdentityProtectionConfig active_version active retained)).

Definition parse_projection_email_protection (values : Env) :
    result ConfigError ProjectionEmailProtectionConfig :=
  active_version <-? parse_key_version values "OWLAUTH_PROJECTION_EMAIL_KEY_VERSION" ;;
  active_text <-? required values "OWLAUTH_PROJECTION_EMAIL_PROTECTION_KEY" ;;
  active_key <-? StoreMasterKey_parse "OWLAUTH_PROJECTION_EMAIL_PROTECTION_KEY" active_text ;;
  entries <-? ok_or (UniqueVersionedKeys_deserialize
                       (unwrap_or (optional values "OWLAUTH_PROJECTION_EMAIL_RETAINED_KEYS")
                          "{}"%string))
                (not_versioned_object "OWLAUTH_PROJECTION_EMAIL_RETAINED_KEYS") ;;
  retained <-? retained_map "OWLAUTH_PROJECTION_EMAIL_RETAINED_KEYS" active_version
                 (StoreMasterKey_parse "OWLAUTH_PROJECTION_EMAIL_RETAINED_KEYS") entries ;;
  if 15 <? list_len retained
  then Err (InvalidValue "OWLAUTH_PROJECTION_EMAIL_RETAINED_KEYS"
              "at most 15 retained versions are supported")
  else Ok (mkProjectionEmailProtectionConfig active_version active_key retained).

Definition parse_identity_mutation_evidence_protection (values : Env) :
    result ConfigError RuntimeProtectionConfig :=
  let? (active_version, active, retained) :=
    parse_protection_ring values "OWLAUTH_IDENTITY_MUTATION_EVIDENCE_KEY_VERSION"
      "OWLAUTH_IDENTITY_MUTATION_EVIDENCE_DIGEST_KEY"
      "OWLAUTH_IDENTITY_MUTATION_EVIDENCE_PROTECTION_KEY"
      "OWLAUTH_IDENTITY_MUTATION_EVIDENCE_RETAINED_KEYS" in
  Ok (mkRuntimeProtectionConfig active_version active retained).

Definition parse_managed_reauthorization_target_key (digest_key protection_key : string) :
    result ConfigError RuntimeKeyConfig :=
  digest <-? StoreMasterKey_parse "OWLAUTH_MANAGED_REAUTHORIZATION_DIGEST_KEY" digest_key ;;
  protection <-? StoreMasterKey_parse "OWLAUTH_MANAGED_REAUTHORIZATION_PROTECTION_KEY"
                   protection_key ;;
  if bool_decide (mk_bytes digest = mk_bytes protection)
  then Err (InvalidValue "OWLAUTH_MANAGED_REAUTHORIZATION_PROTECTION_KEY"
              "must be separate from the managed reauthorization digest key")
  else Ok (mkRuntimeKeyConfig digest protection).

Definition parse_managed_reauthorization_target_protection (values : Env) :
    result ConfigError RuntimeProtectionConfig :=
  active_version <-? parse_key_version values "OWLAUTH_MANAGED_REAUTHORIZATION_KEY_VERSION" ;;
  digest_text <-? required values "OWLAUTH_MANAGED_REAUTHORIZATION_DIGEST_KEY" ;;
  protection_text <-? required values "OWLAUTH_MANAGED_REAUTHORIZATION_PROTECTION_KEY" ;;
  active <-? parse_managed_reauthorization_target_key digest_text protection_text ;;
  entries <-? ok_or (versioned_rings
                       (unwrap_or (optional values "OWLAUTH_MANAGED_REAUTHORIZATION_RETAINED_KEYS")
                          "{}"%string))
                (not_versioned_object "OWLAUTH_MANAGED_REAUTHORIZATION_RETAINED_KEYS") ;;
  retained <-? retained_map "OWLAUTH_MANAGED_REAUTHORIZATION_RETAINED_KEYS" active_version
                 (fun key => parse_managed_reauthorization_target_key key.1 key.2) entries ;;
  Ok (mkRuntimeProtectionConfig active_version active retained).

Definition parse_server_key_digest (mode : ProcessMode) (values : Env) :
    result ConfigError (option ServerKeyDigestConfig) :=
  if negb (ProcessMode_has_auth mode) && negb (ProcessMode_has_control mode) then Ok None
  else
    active_version <-? parse_key_version values "OWLAUTH_SERVER_KEY_DIGEST_KEY_VERSION" ;;
    active_text <-? required values "OWLAUTH_SERVER_KEY_DIGEST_KEY" ;;
    active_key <-? StoreMasterKey_parse "OWLAUTH_SERVER_KEY_DIGEST_KEY" active_text ;;
    entries <-? ok_or (versioned_keys
                         (unwrap_or (optional values "OWLAUTH_SERVER_KEY_DIGEST_RETAINED_KEYS")
                            "{}"%string))
                  (not_versioned_object "OWLAUTH_SERVER_KEY_DIGEST_RETAINED_KEYS") ;;
    retained <-? retained_map "OWLAUTH_SERVER_KEY_DIGEST_RETAINED_KEYS" active_version
                   (StoreMasterKey_parse "OWLAUTH_SERVER_KEY_DIGEST_RETAINED_KEYS") entries ;;
    if 31 <? list_len retained
    then Err (InvalidValue "OWLAUTH_SERVER_KEY_DIGEST_RETAINED_KEYS"
                "at most 31 retained versions are supported")
    else Ok (Some (mkServerKeyDigestConfig active_version active_key retained)).

Definition parse_managed_credential_protection (mode : ProcessMode) (values : Env) :
    result ConfigError (option ManagedCredentialProtectionConfig) :=
  if negb (ProcessMode_has_auth mode && FEDERATED_PROJECT_AUTH_AVAILABLE) then Ok None
  else
    active_version <-? parse_key_version values "OWLAUTH_MANAGED_CREDENTIAL_KEY_VERSION" ;;
    active_text <-? required values "OWLAUTH_MANAGED_CREDENTIAL_KEY" ;;
    active_key <-? StoreMasterKey_parse "OWLAUTH_MANAGED_CREDENTIAL_KEY" active_text ;;
    entries <-? ok_or (versioned_keys
                         (unwrap_or (optional values "OWLAUTH_MANAGED_CREDENTIAL_RETAINED_KEYS")
                            "{}"%string))
                  (not_versioned_object "OWLAUTH_MANAGED_CREDENTIAL_RETAINED_KEYS") ;;
    retained <-? retained_map "OWLAUTH_MANAGED_CREDENTIAL_RETAINED_KEYS" active_version
                   (StoreMasterKey_parse "OWLAUTH_MANAGED_CREDENTIAL_RETAINED_KEYS") entries ;;
    Ok (Some (mkManagedCredentialProtectionConfig active_version active_key retained)).

Definition parse_provisioning (mode : ProcessMode) (values : Env) (require_software_custody : bool) :
    result ConfigError (option ProvisioningConfig) :=
  let runtime_needs_stores := ProcessMode_has_auth mode && FEDERATED_PROJECT_AUTH_AVAILABLE in
  if negb (ProcessMode_has_control mode) && negb runtime_needs_stores then Ok None
  else
    software_custody_key <-?
      match optional values "OWLAUTH_SOFTWARE_CUSTODY_KEY" with
      | Some value => rmap Some (StoreMasterKey_parse "OWLAUTH_SOFTWARE_CUSTODY_KEY" value)
      | None => if require_software_custody then Err (MissingKey "OWLAUTH_SOFTWARE_CUSTODY_KEY")
                else Ok None
      end ;;
    Ok (Some (mkProvisioningConfig software_custody_key)).

(** The two blocks that read an extra root certificate differ in their key only. *)
Definition extra_root_cert (mode : ProcessMode) (values : Env) (key : string) :
    result ConfigError (option (list Z)) :=
  if ProcessMode_has_auth mode then
    match optional values key with
    | None => Ok None
    | Some path =>
        if negb (starts_with_byte 0x2F path)
        then Err (InvalidValue key "must be an absolute path to one DER certificate")
        else
          content <-? ok_or (fs_read path) (InvalidValue key "must be a readable DER certificate") ;;
          if (list_len content =? 0) || (65536 <? list_len content)
          then Err (InvalidValue key "must contain one bounded DER certificate")
          else if negb (trust_anchor_ok content)
          then Err (InvalidValue key "must contain one valid DER trust anchor")
          else Ok (Some content)
    end
  else Ok None.
End rings.

(** ** Separation of the protection roots *)
#[global] Instance zlist_ord : TotalOrd (list Z) :=
  {| cmp := zlist_cmp; cmp_eq := zlist_cmp_eq; cmp_antisym := zlist_cmp_antisym;
     cmp_trans := zlist_cmp_trans |}.

(** A [for] loop whose body may return early with an error. *)
Fixpoint for_each {S E A : Type} (body : A -> mut S E unit) (l : list A) : mut S E unit :=
  match l with
  | [] => mret tt
  | a :: rest => body a ;;~ for_each body rest
  end.

Section separation.
Context `{ConfigLib}.

(** The closure [insert] over the set of fingerprints. *)
Definition insert_root (material : list Z) (key : string) : mut (list (list Z)) ConfigError unit :=
  fun fingerprints =>
    let fingerprint := sha256 material in
    if bool_decide (fingerprint ∈ fingerprints)
    then (fingerprints, Err (InvalidValue key
           "every active and retained protection root across all plane authorities must be distinct"))
    else (bt_insert fingerprint fingerprints, Ok tt).

Definition insert_pair (digest_name protection_name : string) (key : RuntimeKeyConfig) :
    mut (list (list Z)) ConfigError unit :=
  insert_root (mk_bytes (rk_digest_key key)) digest_name ;;~
  insert_root (mk_bytes (rk_protection_key key)) protection_name.

Definition insert_key (name : string) (key : StoreMasterKey) : mut (list (list Z)) ConfigError unit :=
  insert_root (mk_bytes key) name.

Definition if_some {S E A : Type} (o : option A) (body : A -> mut S E unit) : mut S E unit :=
  match o with Some a => body a | None => mret tt end.

Definition insert_all_roots
    (runtime : option RuntimeProtectionConfig)
    (email_identity : option EmailIdentityProtectionConfig)
    (projection_email : ProjectionEmailProtectionConfig)
    (managed_target identity_evidence : RuntimeProtectionConfig)
    (managed_credential : option ManagedCredentialProtectionConfig)
    (server_key_digest : option ServerKeyDigestConfig)
    (provisioning : option ProvisioningConfig) : mut (list (list Z)) ConfigError unit :=
  if_some runtime (fun r =>
    for_each (insert_pair "OWLAUTH_RUNTIME_PROTECTION_KEY" "OWLAUTH_RUNTIME_PROTECTION_KEY")
      (rp_active r :: bm_values (rp_retained r))) ;;~
  if_some email_identity (fun r =>
    for_each (insert_pair "OWLAUTH_EMAIL_IDENTITY_PROTECTION_KEY"
                "OWLAUTH_EMAIL_IDENTITY_PROTECTION_KEY")
      (ei_active r :: bm_values (ei_retained r))) ;;~
  for_each (insert_key "OWLAUTH_PROJECTION_EMAIL_PROTECTION_KEY")
    (pe_active_key projection_email :: bm_values (pe_retained projection_email)) ;;~
  if_some managed_credential (fun r =>
    for_each (insert_key "OWLAUTH_MANAGED_CREDENTIAL_KEY")
      (mp_active_key r :: bm_values (mp_retained r))) ;;~
  if_some server_key_digest (fun r =>
    for_each (insert_key "OWLAUTH_SERVER_KEY_DIGEST_KEY")
      (sk_active_key r :: bm_values (sk_retained r))) ;;~
  for_each (insert_pair "OWLAUTH_MANAGED_REAUTHORIZATION_DIGEST_KEY"
              "OWLAUTH_MANAGED_REAUTHORIZATION_PROTECTION_KEY")
    (rp_active managed_target :: bm_values (rp_retained managed_target)) ;;~
  for_each (insert_pair "OWLAUTH_IDENTITY_MUTATION_EVIDENCE_DIGEST_KEY"
              "OWLAUTH_IDENTITY_MUTATION_EVIDENCE_PROTECTION_KEY")
    (rp_active identity_evidence :: bm_values (rp_retained identity_evidence)) ;;~
  if_some provisioning (fun p =>
    if_some (pv_software_custody_key p) (insert_key "OWLAUTH_SOFTWARE_CUSTODY_KEY")).

Definition validate_protection_root_separation
    (runtime : option RuntimeProtectionConfig)
    (email_identity : option EmailIdentityProtectionConfig)
    (projection_email : ProjectionEmailProtectionConfig)
    (managed_target identity_evidence : RuntimeProtectionConfig)
    (managed_credential : option ManagedCredentialProtectionConfig)
    (server_key_digest : option ServerKeyDigestConfig)
    (provisioning : option ProvisioningConfig) : result ConfigError unit :=
  (insert_all_roots runtime email_identity projection_email managed_target identity_evidence
     managed_credential server_key_digest provisioning []).2.

(** ** The whole environment *)

(** [std::time::Duration::checked_add], whose seconds are a [u64], and
    [time::Duration::try_from], whose seconds are an [i64]. *)
Definition duration_checked_add (a b : Z) : option Z :=
  if (a + b) / seconds 1 <=? 2 ^ 64 - 1 then Some (a + b) else None.
Definition time_duration_try_from (d : Z) : option Z :=
  if d / seconds 1 <=? i64_max then Some d else None.

Definition parse_listener (values : Env) (addr_key addr_default base_key base_default : string)
    (plane : HttpBudgetPlane) : result ConfigError ListenerConfig :=
  bind <-? parse_value parse_socket_addr values addr_key addr_default "must be an IP socket address" ;;
  external_base <-? parse_external_base base_key (unwrap_or (optional values base_key) base_default) ;;
  http <-? parse_http_budget values plane ;;
  Ok (mkListenerConfig _ bind external_base http).

(** The database addresses: one authority for all planes. *)
Definition parse_database_urls (values : Env) :
    result ConfigError (string * string * string * string * string) :=
  serving_url <-? required values "OWLAUTH_POSTGRES_URL" ;;
  let url_or_serving (key : string) := unwrap_or (optional values key) serving_url in
  let runtime_url := url_or_serving "OWLAUTH_RUNTIME_POSTGRES_URL"%string in
  let server_url := url_or_serving "OWLAUTH_SERVER_POSTGRES_URL"%string in
  let control_url := url_or_serving "OWLAUTH_CONTROL_POSTGRES_URL"%string in
  let migration_url := url_or_serving "OWLAUTH_MIGRATION_POSTGRES_URL"%string in
  validate_database_authority serving_url runtime_url "OWLAUTH_RUNTIME_POSTGRES_URL" ;;?
  validate_database_authority serving_url server_url "OWLAUTH_SERVER_POSTGRES_URL" ;;?
  validate_database_authority serving_url control_url "OWLAUTH_CONTROL_POSTGRES_URL" ;;?
  validate_database_authority serving_url migration_url "OWLAUTH_MIGRATION_POSTGRES_URL" ;;?
  Ok (serving_url, runtime_url, server_url, control_url, migration_url).

(** The timeouts of the store, as (lock, migration lock, statement, deadline). *)
Definition parse_database_timeouts (values : Env) : result ConfigError (Z * Z * Z * Z) :=
  database_lock_timeout <-? parse_bounded_millis values "OWLAUTH_DATABASE_LOCK_TIMEOUT_MS" 5000
                              MIN_DATABASE_LOCK_TIMEOUT MAX_DATABASE_LOCK_TIMEOUT ;;
  migration_lock_timeout <-? parse_bounded_millis values "OWLAUTH_MIGRATION_LOCK_TIMEOUT_MS" 30000
                               MIN_MIGRATION_LOCK_TIMEOUT MAX_MIGRATION_LOCK_TIMEOUT ;;
  migration_statement_timeout <-?
    parse_bounded_millis values "OWLAUTH_MIGRATION_STATEMENT_TIMEOUT_MS" 300000
      MIN_MIGRATION_STATEMENT_TIMEOUT MAX_MIGRATION_STATEMENT_TIMEOUT ;;
  migration_deadline <-? parse_bounded_millis values "OWLAUTH_MIGRATION_DEADLINE_MS" 1800000
                           MIN_MIGRATION_DEADLINE MAX_MIGRATION_DEADLINE ;;
  if (migration_deadline <=? migration_lock_timeout)
     || (migration_deadline <=? migration_statement_timeout)
  then Err (InvalidValue "OWLAUTH_MIGRATION_DEADLINE_MS"
              "must be greater than both migration timeout settings")
  else Ok (database_lock_timeout, migration_lock_timeout, migration_statement_timeout,
           migration_deadline).

(** Key propagation delay and verification retention. *)
Definition parse_key_windows (values : Env) : result ConfigError (Z * Z) :=
  key_propagation_delay <-? parse_millis values "OWLAUTH_KEY_PROPAGATION_DELAY_MS" 2000 ;;
  if MAX_KEY_PROPAGATION_DELAY <? key_propagation_delay
  then Err (InvalidValue "OWLAUTH_KEY_PROPAGATION_DELAY_MS" "must not exceed 86400000 milliseconds")
  else
    retention <-? parse_millis values "OWLAUTH_SIGNING_VERIFICATION_RETENTION_MS" 1200000 ;;
    if MAX_SIGNING_VERIFICATION_RETENTION <? retention
    then Err (InvalidValue "OWLAUTH_SIGNING_VERIFICATION_RETENTION_MS"
                "must not exceed 86400000 milliseconds")
    else
      let maximum_token_lifetime := seconds MAX_ACCESS_TOKEN_LIFETIME_SECONDS in
      let required_verification_overlap :=
        match duration_checked_add maximum_token_lifetime retention with
        | Some d => duration_checked_add d key_propagation_delay
        | None => None
        end in
      if is_none (match required_verification_overlap with
                  | Some d => time_duration_try_from d
                  | None => None
                  end)
      then Err (InvalidValue "OWLAUTH_SIGNING_VERIFICATION_RETENTION_MS"
                  "is too large to form the required verification overlap")
      else Ok (key_propagation_delay, retention).

Definition from_values_with_requirements (values : Env) (require_software_custody : bool) :
    result ConfigError ServerConfig :=
  reject_unknown_keys values ;;?
  mode <-? ProcessMode_from_str (unwrap_or (optional values "OWLAUTH_MODE") "auth"%string) ;;
  auth <-? parse_listener values "OWLAUTH_AUTH_ADDR" "127.0.0.1:8080" "OWLAUTH_AUTH_BASE_URL"
             "http://127.0.0.1:8080/" AuthBudget ;;
  control <-? parse_listener values "OWLAUTH_CONTROL_ADDR" "127.0.0.1:8081"
                "OWLAUTH_CONTROL_BASE_URL" "http://127.0.0.1:8081/" ControlBudget ;;
  runtime_max <-? parse_nonzero_u32 values "OWLAUTH_RUNTIME_DATABASE_MAX_CONNECTIONS" 20 ;;
  server_max <-? parse_nonzero_u32 values "OWLAUTH_SERVER_DATABASE_MAX_CONNECTIONS" 10 ;;
  control_max <-? parse_nonzero_u32 values "OWLAUTH_CONTROL_DATABASE_MAX_CONNECTIONS" 5 ;;
  validate_external_bases (lc_external_base auth) (lc_external_base control) ;;?
  let? (instance_id, control_api_key) := parse_control_identity mode values in
  control_mcp <-? parse_control_mcp mode values ;;
  validate_control_mcp_listener control_mcp control ;;?
  provisioning <-? parse_provisioning mode values require_software_custody ;;
  runtime_protection <-? parse_runtime_protection mode values ;;
  email_identity_protection <-? parse_email_identity_protection values ;;
  projection_email_protection <-? parse_projection_email_protection values ;;
  smtp_extra_root_cert_der <-? extra_root_cert mode values "OWLAUTH_SMTP_EXTRA_ROOT_CERT_DER_FILE" ;;
  webhook_extra_root_cert_der <-?
    extra_root_cert mode values "OWLAUTH_WEBHOOK_EXTRA_ROOT_CERT_DER_FILE" ;;
  managed_target <-? parse_managed_reauthorization_target_protection values ;;
  identity_evidence <-? parse_identity_mutation_evidence_protection values ;;
  managed_credential <-? parse_managed_credential_protection mode values ;;
  server_key_digest <-? parse_server_key_digest mode values ;;
  allow_http_loopback <-? parse_boolean values "OWLAUTH_PROVIDER_ALLOW_HTTP_LOOPBACK" false ;;
  deployment_smtp <-? parse_deployment_smtp values ;;
  webhook_allowed_private_ips <-?
    parse_allowed_private_ips "OWLAUTH_WEBHOOK_ALLOWED_PRIVATE_IPS"
      (optional values "OWLAUTH_WEBHOOK_ALLOWED_PRIVATE_IPS") ;;
  validate_protection_root_separation runtime_protection email_identity_protection
    projection_email_protection managed_target identity_evidence managed_credential
    server_key_digest provisioning ;;?
  let? (serving_url, runtime_url, server_url, control_url, migration_url) :=
    parse_database_urls values in
  migration_owner_role <-?
    match optional values "OWLAUTH_MIGRATION_OWNER_ROLE" with
    | Some role => rmap Some (validate_role role)
    | None => Ok None
    end ;;
  let? (lock_timeout, migration_lock_timeout, migration_statement_timeout, migration_deadline) :=
    parse_database_timeouts values in
  let? (key_propagation_delay, retention) := parse_key_windows values in
  migration_mode <-?
    MigrationMode_from_str (unwrap_or (optional values "OWLAUTH_MIGRATION_MODE") "auto"%string) ;;
  connect_timeout <-? parse_millis values "OWLAUTH_DATABASE_CONNECT_TIMEOUT_MS" 5000 ;;
  shutdown_timeout <-? parse_millis values "OWLAUTH_SHUTDOWN_TIMEOUT_MS" 10000 ;;
  Ok (mkServerConfig _ mode instance_id auth control runtime_max server_max control_max
        control_api_key control_mcp provisioning runtime_protection email_identity_protection
        projection_email_protection smtp_extra_root_cert_der webhook_extra_root_cert_der
        managed_target identity_evidence managed_credential server_key_digest allow_http_loopback
        deployment_smtp webhook_allowed_private_ips key_propagation_delay retention
        (mkPostgresConfig serving_url runtime_url server_url control_url migration_url
           migration_mode migration_owner_role connect_timeout lock_timeout migration_lock_timeout
           migration_statement_timeout migration_deadline)
        shutdown_timeout).

(** An operating-system string is [Some] of its text, or [None] when it is not
    UTF-8. *)
Fixpoint collect_environment (values : Env) (vars : list (option string * option string)) :
    result ConfigError Env :=
  match vars with
  | [] => Ok values
  | (key, value) :: rest =>
      match key with
      | None => collect_environment values rest
      | Some key =>
          if negb (String.prefix "OWLAUTH_" key) then collect_environment values rest
          else
            text <-? ok_or value (InvalidValue "environment"
                                    (String.append key " is not valid UTF-8")) ;;
            collect_environment (bm_insert key text values) rest
      end
  end.

Definition from_env_with_requirements (vars : list (option string * option string))
    (require_software_custody : bool) : result ConfigError ServerConfig :=
  values <-? collect_environment [] vars ;;
  from_values_with_requirements values require_software_custody.

Definition from_env (vars : list (option string * option string)) : result ConfigError ServerConfig :=
  from_env_with_requirements vars true.
Definition from_env_for_custom_providers (vars : list (option string * option string)) :
    result ConfigError ServerConfig :=
  from_env_with_requirements vars false.
End separation.
