(* ===== verification/ConfigProofs.v ===== *)
(** * Theorems on the server configuration

    Every accepted configuration keeps the bounds of its fields; the protection
    roots of all planes are distinct; a plane does not depend on the secrets of
    the other; the two external bases never share a path; unknown variables are
    refused. *)
From Stdlib Require Import Sorting.Sorted.
From S2P Require Import Prelude.
From S2P Require Import BTree.
From S2P Require Import Values.
From S2P Require Import Email.
From S2P Require Import UrlValues.
From S2P Require Import Json.
From S2P Require Import Mail.
From S2P Require Import BTreeMap.
From S2P Require Import Config.

(** ** Loops *)
Section loops.
Context {S E A B : Type}.

Lemma for_each_app (body : A -> mut S E unit) l1 l2 s :
  for_each body (l1 ++ l2) s = (for_each body l1 ;;~ for_each body l2) s.
Proof.
  revert s; induction l1 as [|a l1 IH]; intros s; [done|].
  cbn [app for_each]. unfold mseq. destruct (body a s) as [s' [[]|e]]; [|done].
  rewrite IH. unfold mseq. done.
Qed.

Lemma for_each_flat_map (body : A -> mut S E unit) (f : B -> list A) l s :
  for_each (fun b => for_each body (f b)) l s = for_each body (flat_map f l) s.
Proof.
  revert s; induction l as [|b l IH]; intros s; [done|].
  cbn [flat_map for_each]. rewrite for_each_app. unfold mseq.
  destruct (for_each body (f b) s) as [s' [[]|e]]; [apply IH|done].
Qed.

Lemma for_each_ext (f g : A -> mut S E unit) l s :
  (forall a s, f a s = g a s) -> for_each f l s = for_each g l s.
Proof.
  intros Hfg. revert s; induction l as [|a l IH]; intros s; [done|].
  cbn [for_each]. unfold mseq. rewrite Hfg. destruct (g a s) as [s' [[]|e]]; [apply IH|done].
Qed.
End loops.

(** ** Separation of the roots *)
Section separation.
Context `{ConfigLib}.

Definition pair_roots (digest_name protection_name : string) (key : RuntimeKeyConfig) :
    list (list Z * string) :=
  [(mk_bytes (rk_digest_key key), digest_name); (mk_bytes (rk_protection_key key), protection_name)].
Definition key_roots (name : string) (key : StoreMasterKey) : list (list Z * string) :=
  [(mk_bytes key, name)].
Definition opt_roots {A R : Type} (o : option A) (f : A -> list R) : list R :=
  match o with Some a => f a | None => [] end.

(** Every root of a configuration, in the order of the check, with the variable
    an error names. *)
Definition named_roots
    (runtime : option RuntimeProtectionConfig)
    (email_identity : option EmailIdentityProtectionConfig)
    (projection_email : ProjectionEmailProtectionConfig)
    (managed_target identity_evidence : RuntimeProtectionConfig)
    (managed_credential : option ManagedCredentialProtectionConfig)
    (server_key_digest : option ServerKeyDigestConfig)
    (provisioning : option ProvisioningConfig) : list (list Z * string) :=
  opt_roots runtime (fun r =>
    flat_map (pair_roots "OWLAUTH_RUNTIME_PROTECTION_KEY" "OWLAUTH_RUNTIME_PROTECTION_KEY")
      (rp_active r :: bm_values (rp_retained r)))
  ++ opt_roots email_identity (fun r =>
       flat_map (pair_roots "OWLAUTH_EMAIL_IDENTITY_PROTECTION_KEY"
                   "OWLAUTH_EMAIL_IDENTITY_PROTECTION_KEY")
         (ei_active r :: bm_values (ei_retained r)))
  ++ flat_map (key_roots "OWLAUTH_PROJECTION_EMAIL_PROTECTION_KEY")
       (pe_active_key projection_email :: bm_values (pe_retained projection_email))
  ++ opt_roots managed_credential (fun r =>
       flat_map (key_roots "OWLAUTH_MANAGED_CREDENTIAL_KEY")
         (mp_active_key r :: bm_values (mp_retained r)))
  ++ opt_roots server_key_digest (fun r =>
       flat_map (key_roots "OWLAUTH_SERVER_KEY_DIGEST_KEY")
         (sk_active_key r :: bm_values (sk_retained r)))
  ++ flat_map (pair_roots "OWLAUTH_MANAGED_REAUTHORIZATION_DIGEST_KEY"
                 "OWLAUTH_MANAGED_REAUTHORIZATION_PROTECTION_KEY")
       (rp_active managed_target :: bm_values (rp_retained managed_target))
  ++ flat_map (pair_roots "OWLAUTH_IDENTITY_MUTATION_EVIDENCE_DIGEST_KEY"
                 "OWLAUTH_IDENTITY_MUTATION_EVIDENCE_PROTECTION_KEY")
       (rp_active identity_evidence :: bm_values (rp_retained identity_evidence))
  ++ opt_roots provisioning (fun p =>
       opt_roots (pv_software_custody_key p) (key_roots "OWLAUTH_SOFTWARE_CUSTODY_KEY")).

Definition insert_named (root : list Z * string) : mut (list (list Z)) ConfigError unit :=
  insert_root root.1 root.2.

Lemma insert_pair_named d p key s : insert_pair d p key s = for_each insert_named (pair_roots d p key) s.
Proof.
  unfold insert_pair. cbn. unfold mseq, insert_named; cbn.
  destruct (insert_root _ d s) as [s' [[]|e]]; [|done].
  by destruct (insert_root _ p s') as [s'' [[]|e]].
Qed.

Lemma insert_key_named n key s : insert_key n key s = for_each insert_named (key_roots n key) s.
Proof.
  unfold insert_key. cbn. unfold mseq, insert_named; cbn.
  by destruct (insert_root _ n s) as [s' [[]|e]].
Qed.

Lemma if_some_named {A} (o : option A) (body : A -> mut (list (list Z)) ConfigError unit) f s :
  (forall a s, body a s = for_each insert_named (f a) s) ->
  if_some o body s = for_each insert_named (opt_roots o f) s.
Proof. destruct o; cbn; auto. Qed.

Lemma pairs_named d p keys s :
  for_each (insert_pair d p) keys s = for_each insert_named (flat_map (pair_roots d p) keys) s.
Proof.
  rewrite <-for_each_flat_map. apply for_each_ext. apply insert_pair_named.
Qed.
Lemma keys_named n keys s :
  for_each (insert_key n) keys s = for_each insert_named (flat_map (key_roots n) keys) s.
Proof.
  rewrite <-for_each_flat_map. apply for_each_ext. apply insert_key_named.
Qed.

Lemma seq_named (m k : mut (list (list Z)) ConfigError unit) l1 l2 s :
  (forall s, m s = for_each insert_named l1 s) ->
  (forall s, k s = for_each insert_named l2 s) ->
  (m ;;~ k) s = for_each insert_named (l1 ++ l2) s.
Proof.
  intros Hm Hk. rewrite for_each_app. unfold mseq. rewrite Hm.
  destruct (for_each insert_named l1 s) as [s' [[]|e]]; [apply Hk|done].
Qed.

Lemma insert_all_named runtime email projection target evidence credential digest provisioning s :
  insert_all_roots runtime email projection target evidence credential digest provisioning s
  = for_each insert_named
      (named_roots runtime email projection target evidence credential digest provisioning) s.
Proof.
  unfold insert_all_roots, named_roots.
  repeat (apply seq_named; [|intros]); intros;
    repeat first [apply pairs_named | apply keys_named | apply insert_key_named
                 | apply if_some_named; intros].
Qed.

(** Running the check from a set of fingerprints. *)
Lemma insert_named_ok roots fps :
  StronglySorted lt_ord fps ->
  (for_each insert_named roots fps).2 = Ok tt
  <-> NoDup (map (fun r => sha256 r.1) roots)
      /\ (forall f, f ∈ map (fun r => sha256 r.1) roots -> f ∉ fps).
Proof.
  revert fps; induction roots as [|[m k] roots IH]; intros fps Hs; cbn [map for_each fst].
  - split; [|done]. intros _. split; [constructor|set_solver].
  - unfold mseq, insert_named at 1, insert_root; cbn [fst snd].
    rewrite NoDup_cons. case_bool_decide as Hin; cbn.
    + split; [done|]. intros [_ Hno]. exfalso. eapply Hno; [left|done].
    + rewrite IH by (by apply bt_insert_sorted). setoid_rewrite bt_insert_elem. set_solver.
Qed.
End separation.

(** The materials of a configuration, as one list. *)
Section config_roots.
Context `{ConfigLib}.

Definition config_roots (cfg : ServerConfig) : list (list Z) :=
  map fst (named_roots (sc_runtime_protection cfg) (sc_email_identity_protection cfg)
             (sc_projection_email_protection cfg)
             (sc_managed_reauthorization_target_protection cfg)
             (sc_identity_mutation_evidence_protection cfg) (sc_managed_credential_protection cfg)
             (sc_server_key_digest cfg) (sc_provisioning cfg)).

Lemma separation_nodup runtime email projection target evidence credential digest provisioning :
  validate_protection_root_separation runtime email projection target evidence credential digest
    provisioning = Ok tt
  <-> NoDup (map sha256 (map fst (named_roots runtime email projection target evidence credential
                                     digest provisioning))).
Proof.
  unfold validate_protection_root_separation. rewrite insert_all_named, insert_named_ok by constructor.
  rewrite map_map. set_solver.
Qed.
End config_roots.

(** ** What an accepted environment went through *)
Section inversion.
Context `{ConfigLib}.

Record accepted (values : Env) (custody : bool) (cfg : ServerConfig) : Prop := {
  acc_known : reject_unknown_keys values = Ok tt;
  acc_mode : ProcessMode_from_str (unwrap_or (optional values "OWLAUTH_MODE") "auth"%string)
             = Ok (sc_mode cfg);
  acc_auth_budget : parse_http_budget values AuthBudget = Ok (lc_http (sc_auth cfg));
  acc_control_budget : parse_http_budget values ControlBudget = Ok (lc_http (sc_control cfg));
  acc_auth_base : exists text, parse_external_base "OWLAUTH_AUTH_BASE_URL" text
                               = Ok (lc_external_base (sc_auth cfg));
  acc_control_base : exists text, parse_external_base "OWLAUTH_CONTROL_BASE_URL" text
                                  = Ok (lc_external_base (sc_control cfg));
  acc_runtime_max : parse_nonzero_u32 values "OWLAUTH_RUNTIME_DATABASE_MAX_CONNECTIONS" 20
                    = Ok (sc_runtime_database_max_connections cfg);
  acc_server_max : parse_nonzero_u32 values "OWLAUTH_SERVER_DATABASE_MAX_CONNECTIONS" 10
                   = Ok (sc_server_database_max_connections cfg);
  acc_control_max : parse_nonzero_u32 values "OWLAUTH_CONTROL_DATABASE_MAX_CONNECTIONS" 5
                    = Ok (sc_control_database_max_connections cfg);
  acc_bases : validate_external_bases (lc_external_base (sc_auth cfg))
                (lc_external_base (sc_control cfg)) = Ok tt;
  acc_identity : parse_control_identity (sc_mode cfg) values
                 = Ok (sc_instance_id cfg, sc_control_api_key cfg);
  acc_mcp : parse_control_mcp (sc_mode cfg) values = Ok (sc_control_mcp cfg);
  acc_mcp_listener : validate_control_mcp_listener (sc_control_mcp cfg) (sc_control cfg) = Ok tt;
  acc_provisioning : parse_provisioning (sc_mode cfg) values custody = Ok (sc_provisioning cfg);
  acc_runtime : parse_runtime_protection (sc_mode cfg) values = Ok (sc_runtime_protection cfg);
  acc_email : parse_email_identity_protection values = Ok (sc_email_identity_protection cfg);
  acc_projection : parse_projection_email_protection values
                   = Ok (sc_projection_email_protection cfg);
  acc_target : parse_managed_reauthorization_target_protection values
               = Ok (sc_managed_reauthorization_target_protection cfg);
  acc_evidence : parse_identity_mutation_evidence_protection values
                 = Ok (sc_identity_mutation_evidence_protection cfg);
  acc_credential : parse_managed_credential_protection (sc_mode cfg) values
                   = Ok (sc_managed_credential_protection cfg);
  acc_server_key : parse_server_key_digest (sc_mode cfg) values = Ok (sc_server_key_digest cfg);
  acc_smtp : parse_deployment_smtp values = Ok (sc_deployment_smtp cfg);
  acc_webhook_ips : parse_allowed_private_ips "OWLAUTH_WEBHOOK_ALLOWED_PRIVATE_IPS"
                      (optional values "OWLAUTH_WEBHOOK_ALLOWED_PRIVATE_IPS")
                    = Ok (sc_webhook_allowed_private_ips cfg);
  acc_roots : NoDup (map sha256 (config_roots cfg));
  acc_urls : parse_database_urls values
             = Ok (pg_serving_url (sc_postgres cfg), pg_runtime_url (sc_postgres cfg),
                   pg_server_url (sc_postgres cfg), pg_control_url (sc_postgres cfg),
                   pg_migration_url (sc_postgres cfg));
  acc_timeouts : parse_database_timeouts values
                 = Ok (pg_database_lock_timeout (sc_postgres cfg),
                       pg_migration_lock_timeout (sc_postgres cfg),
                       pg_migration_statement_timeout (sc_postgres cfg),
                       pg_migration_deadline (sc_postgres cfg));
  acc_windows : parse_key_windows values
                = Ok (sc_key_propagation_delay cfg, sc_signing_verification_retention cfg);
  acc_connect : parse_millis values "OWLAUTH_DATABASE_CONNECT_TIMEOUT_MS" 5000
                = Ok (pg_connect_timeout (sc_postgres cfg));
  acc_shutdown : parse_millis values "OWLAUTH_SHUTDOWN_TIMEOUT_MS" 10000
                 = Ok (sc_shutdown_timeout cfg)
}.

Lemma from_values_accepted values custody cfg :
  from_values_with_requirements values custody = Ok cfg -> accepted values custody cfg.
Proof.
  unfold from_values_with_requirements, parse_listener. intros Hok.
  repeat first [ progress inv_ok
               | match goal with
                 | Hm : match ?p with pair _ _ => _ end = Ok _ |- _ => destruct p
                 end ].
  repeat match goal with Hs : validate_protection_root_separation _ _ _ _ _ _ _ _ = Ok tt |- _ =>
    apply separation_nodup in Hs end.
  constructor; cbn; eauto.
Qed.
End inversion.

(** ** Bounds *)
Lemma parse_value_some {T} (parse : string -> option T) values key default reason v :
  parse_value parse values key default reason = Ok v -> exists text, parse text = Some v.
Proof. unfold parse_value. intros. inv_ok. eauto. Qed.

Lemma parse_bounded_usize_range values key default maximum v :
  parse_bounded_usize values key default maximum = Ok v -> 1 <= v <= maximum.
Proof.
  unfold parse_bounded_usize. intros. inv_ok.
  match goal with Hp : parse_value _ _ _ _ _ = Ok _ |- _ => apply parse_value_some in Hp as [? Hp];
    apply parse_int_range in Hp end.
  bool_prop. lia.
Qed.

Lemma parse_millis_positive values key default d :
  parse_millis values key default = Ok d -> milliseconds 1 <= d.
Proof.
  unfold parse_millis. intros. inv_ok.
  match goal with Hp : parse_value _ _ _ _ _ = Ok _ |- _ => apply parse_value_some in Hp as [? Hp];
    apply parse_int_range in Hp end.
  bool_prop. unfold milliseconds. lia.
Qed.

Lemma parse_bounded_millis_range values key default minimum maximum d :
  parse_bounded_millis values key default minimum maximum = Ok d -> minimum <= d <= maximum.
Proof. unfold parse_bounded_millis. intros. inv_ok. bool_prop. lia. Qed.

Lemma parse_nonzero_u32_range values key default v :
  0 <= default < 2 ^ 32 -> parse_nonzero_u32 values key default = Ok v -> 1 <= v < 2 ^ 32.
Proof.
  unfold parse_nonzero_u32. intros Hd Hok. inv_ok.
  match goal with Hm : match optional ?vs ?k with _ => _ end = Ok _ |- _ =>
    destruct (optional vs k) eqn:?; inv_ok;
    [apply parse_int_range in Hm|] end; bool_prop; lia.
Qed.

(** Turns every parsed number of the context into its range. *)
Ltac ranges := repeat match goal with
  | Hp : parse_bounded_usize _ _ _ _ = Ok _ |- _ => apply parse_bounded_usize_range in Hp
  | Hp : parse_bounded_millis _ _ _ _ _ = Ok _ |- _ => apply parse_bounded_millis_range in Hp
  | Hp : parse_millis _ _ _ = Ok _ |- _ => apply parse_millis_positive in Hp
  | Hp : (_, _) = (_, _) |- _ => injection Hp; clear Hp; intros; subst
  end.

Definition budget_bounded (b : HttpBudgetConfig) : Prop :=
  milliseconds 10 <= hb_request_timeout b <= from_mins 1
  /\ 1 <= hb_max_request_bytes b <= 16777216
  /\ 1 <= hb_max_in_flight_requests b <= 4096
  /\ 1 <= hb_max_connections b <= 8192
  /\ 1 <= hb_max_header_count b <= 512
  /\ 1 <= hb_max_header_bytes b <= 262144
  /\ 1 <= hb_max_uri_bytes b <= 65536.

Lemma http_budget_bounded values plane b :
  parse_http_budget values plane = Ok b -> budget_bounded b.
Proof.
  unfold parse_http_budget. destruct plane; intros; inv_ok;
    ranges; unfold budget_bounded; cbn; lia.
Qed.

Definition mcp_bounded (m : McpHttpConfig) : Prop :=
  1 <= mcp_max_request_bytes m <= 1048576
  /\ milliseconds 1 <= mcp_request_timeout m <= from_mins 1
  /\ 1 <= mcp_max_concurrent_requests m <= 64
  /\ 1 <= mcp_max_result_bytes m <= 1048576.

Lemma control_mcp_bounded mode values m :
  parse_control_mcp mode values = Ok m ->
  mcp_bounded m /\ (mcp_enabled m = true -> ProcessMode_has_control mode = true).
Proof.
  unfold parse_control_mcp. intros Hok. inv_ok. bool_prop. ranges. unfold mcp_bounded; cbn.
  split; [lia|]. intros ->. match goal with Hx : _ \/ _ |- _ => destruct Hx; done end.
Qed.

Lemma key_windows_bounded values delay retention :
  parse_key_windows values = Ok (delay, retention) ->
  milliseconds 1 <= delay <= from_hours 24 /\ milliseconds 1 <= retention <= from_hours 24.
Proof.
  unfold parse_key_windows, MAX_KEY_PROPAGATION_DELAY, MAX_SIGNING_VERIFICATION_RETENTION.
  intros Hok. inv_ok. bool_prop.
  ranges. lia.
Qed.

Lemma database_timeouts_ordered values lock mlock statement deadline :
  parse_database_timeouts values = Ok (lock, mlock, statement, deadline) ->
  milliseconds 10 <= lock <= from_mins 1 /\ milliseconds 10 <= mlock <= from_mins 5
  /\ milliseconds 100 <= statement <= from_hours 1 /\ deadline <= from_hours 24
  /\ mlock < deadline /\ statement < deadline.
Proof.
  unfold parse_database_timeouts. intros Hok. inv_ok. bool_prop.
  ranges.
  unfold MIN_DATABASE_LOCK_TIMEOUT, MAX_DATABASE_LOCK_TIMEOUT, MIN_MIGRATION_LOCK_TIMEOUT,
    MAX_MIGRATION_LOCK_TIMEOUT, MIN_MIGRATION_STATEMENT_TIMEOUT, MAX_MIGRATION_STATEMENT_TIMEOUT,
    MAX_MIGRATION_DEADLINE in *. lia.
Qed.

(** ** Rings of keys *)
Definition ring_ok {W : Type} (P : W -> Prop) (active_version : Z) (active : W)
    (retained : list (Z * W)) : Prop :=
  0 < active_version < 2 ^ 31 /\ P active
  /\ StronglySorted lt_ord (bm_keys retained)
  /\ Forall (fun e => 0 < e.1 /\ e.1 <> active_version /\ P e.2) retained.

Definition key_ok (k : StoreMasterKey) : Prop := list_len (mk_bytes k) = 32.
Definition pair_ok (k : RuntimeKeyConfig) : Prop :=
  key_ok (rk_digest_key k) /\ key_ok (rk_protection_key k)
  /\ mk_bytes (rk_digest_key k) <> mk_bytes (rk_protection_key k).

Section rings.
Context `{ConfigLib}.

Lemma master_key_ok key value k : StoreMasterKey_parse key value = Ok k -> key_ok k.
Proof. unfold StoreMasterKey_parse, key_ok. intros. inv_ok. bool_prop. done. Qed.

Lemma runtime_key_ok dn d pn p k : parse_runtime_key dn d pn p = Ok k -> pair_ok k.
Proof.
  unfold parse_runtime_key, pair_ok. intros. inv_ok. bool_prop.
  repeat match goal with Hp : StoreMasterKey_parse _ _ = Ok _ |- _ => apply master_key_ok in Hp end.
  done.
Qed.

Lemma target_key_ok d p k : parse_managed_reauthorization_target_key d p = Ok k -> pair_ok k.
Proof.
  unfold parse_managed_reauthorization_target_key, pair_ok. intros. inv_ok. bool_prop.
  repeat match goal with Hp : StoreMasterKey_parse _ _ = Ok _ |- _ => apply master_key_ok in Hp end.
  done.
Qed.

Lemma key_version_range values key v : parse_key_version values key = Ok v -> 0 < v < 2 ^ 31.
Proof.
  unfold parse_key_version. intros. inv_ok. destruct (parse_i32 _) as [w|] eqn:Hw; [|done].
  apply parse_int_range in Hw. destruct (0 <? w) eqn:?; [|done]. inv_ok. bool_prop. lia.
Qed.

Lemma retained_map_ok {V W} (P : W -> Prop) key active_version (parse : V -> result ConfigError W)
    entries retained active :
  (forall v w, parse v = Ok w -> P w) -> 0 < active_version < 2 ^ 31 -> P active ->
  retained_map key active_version parse entries = Ok retained ->
  ring_ok P active_version active retained.
Proof.
  unfold retained_map. intros HP Hv Ha Hok. inv_ok.
  do 2 (split; [done|]). split; [apply bm_collect_sorted|].
  apply Forall_forall. intros e He. apply bm_collect_in in He.
  apply rmapM_ok in Hok. apply list_elem_of_lookup in He as [i He].
  destruct (Forall2_lookup_r _ _ _ _ _ Hok He) as ([n v] & _ & He').
  unfold retained_entry in He'. inv_ok. bool_prop. cbn. split; [lia|]. split; [lia|eauto].
Qed.
End rings.

Section accepted_rings.
Context `{ConfigLib}.

Lemma protection_ring_ok values vk dk pk rk v a r :
  parse_protection_ring values vk dk pk rk = Ok (v, a, r) ->
  ring_ok pair_ok v a r /\ list_len r <= 15.
Proof.
  unfold parse_protection_ring. intros. inv_ok. bool_prop. ranges. split; [|lia].
  eapply retained_map_ok; [..|eassumption]; eauto using key_version_range, runtime_key_ok.
  cbn. intros. eapply runtime_key_ok; eassumption.
Qed.

(** Opens the result of a ring parser. *)
Ltac open_ring := repeat first
  [ progress inv_ok
  | match goal with
    | Hm : match ?p with pair _ _ => _ end = Ok _ |- _ => destruct p
    | Hp : parse_protection_ring _ _ _ _ _ = Ok _ |- _ => apply protection_ring_ok in Hp
    | Hp : StoreMasterKey_parse _ _ = Ok _ |- _ => apply master_key_ok in Hp
    | Hp : parse_key_version _ _ = Ok _ |- _ => apply key_version_range in Hp
    end ].

Definition all_rings_ok (cfg : ServerConfig) : Prop :=
  (forall r, sc_runtime_protection cfg = Some r ->
     ring_ok pair_ok (rp_active_version r) (rp_active r) (rp_retained r)
     /\ list_len (rp_retained r) <= 15)
  /\ (forall r, sc_email_identity_protection cfg = Some r ->
     ring_ok pair_ok (ei_active_version r) (ei_active r) (ei_retained r)
     /\ list_len (ei_retained r) <= 15)
  /\ (let r := sc_projection_email_protection cfg in
      ring_ok key_ok (pe_active_version r) (pe_active_key r) (pe_retained r)
      /\ list_len (pe_retained r) <= 15)
  /\ (let r := sc_managed_reauthorization_target_protection cfg in
      ring_ok pair_ok (rp_active_version r) (rp_active r) (rp_retained r))
  /\ (let r := sc_identity_mutation_evidence_protection cfg in
      ring_ok pair_ok (rp_active_version r) (rp_active r) (rp_retained r)
      /\ list_len (rp_retained r) <= 15)
  /\ (forall r, sc_managed_credential_protection cfg = Some r ->
     ring_ok key_ok (mp_active_version r) (mp_active_key r) (mp_retained r))
  /\ (forall r, sc_server_key_digest cfg = Some r ->
     ring_ok key_ok (sk_active_version r) (sk_active_key r) (sk_retained r)
     /\ list_len (sk_retained r) <= 31).

Lemma runtime_ring values mode o r :
  parse_runtime_protection mode values = Ok o -> o = Some r ->
  ring_ok pair_ok (rp_active_version r) (rp_active r) (rp_retained r) /\ list_len (rp_retained r) <= 15.
Proof.
  unfold parse_runtime_protection. destruct (negb _); intros Hok ->; open_ring; done.
Qed.

Lemma email_ring values o r :
  parse_email_identity_protection values = Ok o -> o = Some r ->
  ring_ok pair_ok (ei_active_version r) (ei_active r) (ei_retained r) /\ list_len (ei_retained r) <= 15.
Proof.
  unfold parse_email_identity_protection. destruct (negb _); intros Hok ->; open_ring; done.
Qed.

Lemma projection_ring values r :
  parse_projection_email_protection values = Ok r ->
  ring_ok key_ok (pe_active_version r) (pe_active_key r) (pe_retained r) /\ list_len (pe_retained r) <= 15.
Proof.
  unfold parse_projection_email_protection. intros. open_ring. bool_prop. cbn. split; [|lia].
  eapply retained_map_ok; [..|eassumption]; eauto using master_key_ok.
Qed.

Lemma target_ring values r :
  parse_managed_reauthorization_target_protection values = Ok r ->
  ring_ok pair_ok (rp_active_version r) (rp_active r) (rp_retained r).
Proof.
  unfold parse_managed_reauthorization_target_protection. intros. open_ring. cbn.
  eapply retained_map_ok; [..|eassumption]; eauto using target_key_ok.
  cbn. intros. eapply target_key_ok; eassumption.
Qed.

Lemma evidence_ring values r :
  parse_identity_mutation_evidence_protection values = Ok r ->
  ring_ok pair_ok (rp_active_version r) (rp_active r) (rp_retained r) /\ list_len (rp_retained r) <= 15.
Proof. unfold parse_identity_mutation_evidence_protection. intros. open_ring. done. Qed.

Lemma credential_ring values mode o r :
  parse_managed_credential_protection mode values = Ok o -> o = Some r ->
  ring_ok key_ok (mp_active_version r) (mp_active_key r) (mp_retained r).
Proof.
  unfold parse_managed_credential_protection. destruct (negb _); intros Hok ->; open_ring; [done|].
  cbn. eapply retained_map_ok; [..|eassumption]; eauto using master_key_ok.
Qed.

Lemma server_key_ring values mode o r :
  parse_server_key_digest mode values = Ok o -> o = Some r ->
  ring_ok key_ok (sk_active_version r) (sk_active_key r) (sk_retained r) /\ list_len (sk_retained r) <= 31.
Proof.
  unfold parse_server_key_digest. destruct (negb _ && _); intros Hok ->; open_ring; [done|].
  bool_prop. cbn. split; [|lia]. eapply retained_map_ok; [..|eassumption]; eauto using master_key_ok.
Qed.

Lemma accepted_rings values custody cfg : accepted values custody cfg -> all_rings_ok cfg.
Proof.
  intros Hacc. unfold all_rings_ok. destruct Hacc.
  split_and!; eauto using runtime_ring, email_ring, target_ring, credential_ring, server_key_ring.
  1, 2: by apply (projection_ring values).
  all: by apply (evidence_ring values).
Qed.
End accepted_rings.

(** ** Which variables a plane reads *)
Lemma find_known `{TotalOrd A} (f : A -> bool) k l :
  f k = false -> List.find f (bt_insert k l) = List.find f l.
Proof.
  intros Hk. induction l as [|y r IH]; cbn; [by rewrite Hk|].
  destruct (cmp k y) eqn:Hc; cbn; rewrite ?Hk; [done|done|by rewrite IH].
Qed.

Lemma reject_unknown_insert values k v :
  k ∈ KNOWN_ENVIRONMENT_KEYS ->
  reject_unknown_keys (bm_insert k v values) = reject_unknown_keys values.
Proof.
  intros Hk. unfold reject_unknown_keys. rewrite bm_insert_keys, find_known; [done|].
  apply negb_false_iff, bool_decide_eq_true, bt_collect_elem, Hk.
Qed.

(** The secrets a plane must not depend on. *)
Definition ignored_keys (mode : ProcessMode) : list string :=
  match mode with
  | AllPlanes => []
  | AuthPlane => ["OWLAUTH_CONTROL_API_KEY"]
  | ControlPlane =>
      ["OWLAUTH_RUNTIME_KEY_VERSION"; "OWLAUTH_RUNTIME_DIGEST_KEY";
       "OWLAUTH_RUNTIME_PROTECTION_KEY"; "OWLAUTH_RUNTIME_RETAINED_KEYS";
       "OWLAUTH_SMTP_EXTRA_ROOT_CERT_DER_FILE"; "OWLAUTH_WEBHOOK_EXTRA_ROOT_CERT_DER_FILE";
       "OWLAUTH_MANAGED_CREDENTIAL_KEY_VERSION"; "OWLAUTH_MANAGED_CREDENTIAL_KEY";
       "OWLAUTH_MANAGED_CREDENTIAL_RETAINED_KEYS"]
  end%string.

Definition agree_except (ks : list string) (v1 v2 : Env) : Prop :=
  forall k, k ∉ ks -> bm_get k v1 = bm_get k v2.

(** Decides that a literal key is not one of a literal list. *)
Ltac not_listed := apply (bool_decide_eq_true_1 _); vm_compute; reflexivity.

(** Rewrites every read of an unaffected key. *)
Ltac reads Hagree :=
  unfold parse_control_identity, parse_control_mcp, parse_http_budget, parse_database_timeouts,
    parse_key_windows, parse_database_urls, parse_deployment_smtp,
    parse_identity_mutation_evidence_protection, parse_managed_reauthorization_target_protection,
    parse_managed_credential_protection, parse_server_key_digest,
    parse_projection_email_protection, parse_email_identity_protection, parse_runtime_protection,
    parse_protection_ring, parse_key_version, parse_provisioning, extra_root_cert,
    parse_bounded_millis, parse_bounded_usize, parse_millis, parse_nonzero_u32, parse_value,
    parse_boolean, required, optional, bm_contains_key,
    EMAIL_IDENTITY_KEYS, DEPLOYMENT_SMTP_KEYS;
  cbn [existsb List.filter ProcessMode_has_auth ProcessMode_has_control andb orb negb];
  repeat match goal with
  | |- context [bm_get ?k ?v] => match type of Hagree with agree_except _ v _ =>
      rewrite (Hagree k) by not_listed end
  end; reflexivity.

Lemma rbind_ext {E A B : Type} (m1 m2 : result E A) (k1 k2 : A -> result E B) :
  m1 = m2 -> (forall a, k1 a = k2 a) -> rbind m1 k1 = rbind m2 k2.
Proof. intros -> Hk. destruct m2; cbn; auto. Qed.

Section planes.
Context `{ConfigLib}.

Lemma ignored_from_values mode v1 v2 custody :
  agree_except (ignored_keys mode) v1 v2 ->
  reject_unknown_keys v1 = reject_unknown_keys v2 ->
  ProcessMode_from_str (unwrap_or (optional v2 "OWLAUTH_MODE") "auth"%string) = Ok mode ->
  mode <> AllPlanes ->
  from_values_with_requirements v1 custody = from_values_with_requirements v2 custody.
Proof.
  intros Hagree Hknown Hmode Hall. unfold from_values_with_requirements, parse_listener.
  rewrite Hknown.
  assert (Hm : optional v1 "OWLAUTH_MODE" = optional v2 "OWLAUTH_MODE").
  { apply Hagree. destruct mode; [done|not_listed..]. }
  rewrite Hm, Hmode. cbn [rbind].
  destruct mode; [done|..]; cbn [ignored_keys] in Hagree.
  all: repeat match goal with
    | |- rbind _ _ = rbind _ _ =>
        apply rbind_ext; [first [reflexivity | reads Hagree] | intros ?]
    | |- match ?p with pair _ _ => _ end = _ => destruct p
    end; reflexivity.
Qed.
End planes.

(** ** A sample deployment: concrete libraries and a minimal environment *)
Record SampleUrl := mkSampleUrl {
  su_text : string; su_scheme : string; su_host : string; su_ip : option Host;
  su_port : option Z; su_path : string
}.

Definition sample_urls : list SampleUrl :=
  [ mkSampleUrl "http://127.0.0.1:8080/" "http" "127.0.0.1" (Some (Ipv4Host [127; 0; 0; 1]))
      (Some 8080) "/";
    mkSampleUrl "http://127.0.0.1:8081/" "http" "127.0.0.1" (Some (Ipv4Host [127; 0; 0; 1]))
      (Some 8081) "/";
    mkSampleUrl "https://auth.example/auth/" "https" "auth.example" (Some (DomainHost "auth.example"))
      None "/auth/";
    mkSampleUrl "https://auth.example/control/" "https" "auth.example"
      (Some (DomainHost "auth.example")) None "/control/";
    mkSampleUrl "postgres://db.example/owlauth" "postgres" "db.example"
      (Some (DomainHost "db.example")) None "/owlauth" ].

#[local] Instance sample_url_lib : UrlLib := {|
  Url := SampleUrl;
  url_parse text := List.find (fun u => bool_decide (su_text u = text)) sample_urls;
  url_as_str := su_text;
  url_scheme := su_scheme;
  url_username _ := EmptyString;
  url_password _ := None;
  url_host_str u := Some (su_host u);
  url_host := su_ip;
  url_port := su_port;
  url_path := su_path;
  url_query _ := None;
  url_fragment _ := None;
  url_cannot_be_a_base _ := false;
  url_extend_path _ _ := None;
  url_join _ _ := None
|}.

(** A key is thirty-two copies of the first character of its text; the text
    [dup] stands for an object that repeats version 2. *)
#[local] Instance sample_lib : ConfigLib := {|
  base64url_decode text := match bytes text with b :: _ => Some (replicate 32 b) | [] => None end;
  sha256 material := material;
  url_error _ := "relative URL without a base"%string;
  url_port_or_known_default u :=
    match su_port u with Some p => Some p | None => Some 443 end;
  fs_read _ := None;
  trust_anchor_ok _ := false;
  json_key_entries text :=
    if bool_decide (text = "{}"%string) then Some []
    else if bool_decide (text = "dup"%string) then Some [(2, "x"); (2, "y")]%string else None;
  json_ring_entries text := if bool_decide (text = "{}"%string) then Some [] else None
|}.

Definition sample_env : Env := Eval vm_compute in bm_collect ([
  ("OWLAUTH_INSTANCE_ID", "deployment-1"); ("OWLAUTH_POSTGRES_URL", "postgres://db.example/owlauth");
  ("OWLAUTH_SERVER_KEY_DIGEST_KEY_VERSION", "1"); ("OWLAUTH_SERVER_KEY_DIGEST_KEY", "a");
  ("OWLAUTH_SOFTWARE_CUSTODY_KEY", "b");
  ("OWLAUTH_RUNTIME_KEY_VERSION", "1"); ("OWLAUTH_RUNTIME_DIGEST_KEY", "c");
  ("OWLAUTH_RUNTIME_PROTECTION_KEY", "d");
  ("OWLAUTH_PROJECTION_EMAIL_KEY_VERSION", "1"); ("OWLAUTH_PROJECTION_EMAIL_PROTECTION_KEY", "e");
  ("OWLAUTH_MANAGED_REAUTHORIZATION_KEY_VERSION", "1");
  ("OWLAUTH_MANAGED_REAUTHORIZATION_DIGEST_KEY", "f");
  ("OWLAUTH_MANAGED_REAUTHORIZATION_PROTECTION_KEY", "g");
  ("OWLAUTH_IDENTITY_MUTATION_EVIDENCE_KEY_VERSION", "1");
  ("OWLAUTH_IDENTITY_MUTATION_EVIDENCE_DIGEST_KEY", "h");
  ("OWLAUTH_IDENTITY_MUTATION_EVIDENCE_PROTECTION_KEY", "i");
  ("OWLAUTH_MANAGED_CREDENTIAL_KEY_VERSION", "1"); ("OWLAUTH_MANAGED_CREDENTIAL_KEY", "j")]%string).

Definition shared_origin_env : Env := Eval vm_compute in
  bm_insert "OWLAUTH_AUTH_BASE_URL"%string "https://auth.example/auth/"%string
    (bm_insert "OWLAUTH_CONTROL_BASE_URL"%string "https://auth.example/control/"%string sample_env).

Definition config_of (values : Env) : option ServerConfig :=
  match from_values_with_requirements values true with Ok cfg => Some cfg | Err _ => None end.

Example sample_accepted :
  is_some (config_of sample_env) = true /\ is_some (config_of shared_origin_env) = true
  /\ from_values_with_requirements (bm_insert "OWLAUTH_RUNTIME_DIGEST_KEY"%string "j"%string sample_env)
       true
     = Err (InvalidValue "OWLAUTH_MANAGED_CREDENTIAL_KEY"
              "every active and retained protection root across all plane authorities must be distinct").
Proof. repeat split; vm_compute; reflexivity. Qed.

(** ** Theorems *)

(** Two prefixes of one string are comparable. *)
Lemma prefixes_comparable a b p :
  String.prefix a p = true -> String.prefix b p = true ->
  String.prefix a b = true \/ String.prefix b a = true.
Proof.
  revert a b; induction p as [|c p IH]; intros a b.
  - destruct a, b; cbn; auto; done.
  - destruct a as [|x a], b as [|y b]; cbn; auto.
    destruct (Ascii.ascii_dec x c) as [->|]; [|done].
    destruct (Ascii.ascii_dec y c) as [->|]; [|done].
    intros Ha Hb. destruct (IH a b Ha Hb) as [Hp|Hp]; [left|right];
      (destruct (Ascii.ascii_dec c c); [exact Hp|done]).
Qed.

Section theorems.
Context `{ConfigLib}.

(** C18: The check that keeps the protection roots of all planes apart is exact:
    it passes if and only if all active and retained roots, of every ring and of
    software custody, are pairwise distinct, as long as SHA-256 does not collide
    on them.  The order of the loops and the set of fingerprints do not matter. *)
Theorem root_separation_exact runtime email projection target evidence credential digest provisioning :
  let roots := map fst (named_roots runtime email projection target evidence credential digest
                          provisioning) in
  (forall a b, a ∈ roots -> b ∈ roots -> sha256 a = sha256 b -> a = b) ->
  validate_protection_root_separation runtime email projection target evidence credential digest
    provisioning = Ok tt
  <-> NoDup roots.
Proof.
  intros roots Hsha. rewrite separation_nodup. fold roots. split.
  - intros Hn. exact (NoDup_fmap_1 sha256 roots Hn).
  - intros Hnd. apply NoDup_alt. intros i j h Hi Hj.
    rewrite list_lookup_fmap in Hi, Hj.
    apply fmap_Some in Hi as (a & Hi & ->). apply fmap_Some in Hj as (b & Hj & Hab).
    apply (Hsha a b) in Hab; [|by eapply list_elem_of_lookup_2..]. subst.
    by eapply NoDup_lookup.
Qed.

(** What an accepted environment guarantees: both HTTP planes and the MCP
    endpoint keep their limits, connection pools are not empty, the migration
    deadline exceeds both migration timeouts, key windows are at most a day, all
    roots are distinct, and every ring has positive versions that differ from
    the active one, thirty-two-byte keys and separate digest and protection
    keys. *)
Theorem accepted_config_bounded (values : Env) (custody : bool) (cfg : ServerConfig) :
  from_values_with_requirements values custody = Ok cfg ->
  budget_bounded (lc_http (sc_auth cfg)) /\ budget_bounded (lc_http (sc_control cfg))
  /\ mcp_bounded (sc_control_mcp cfg)
  /\ 1 <= sc_runtime_database_max_connections cfg < 2 ^ 32
  /\ 1 <= sc_server_database_max_connections cfg < 2 ^ 32
  /\ 1 <= sc_control_database_max_connections cfg < 2 ^ 32
  /\ pg_migration_lock_timeout (sc_postgres cfg) < pg_migration_deadline (sc_postgres cfg)
  /\ pg_migration_statement_timeout (sc_postgres cfg) < pg_migration_deadline (sc_postgres cfg)
  /\ sc_key_propagation_delay cfg <= from_hours 24
  /\ sc_signing_verification_retention cfg <= from_hours 24
  /\ NoDup (config_roots cfg)
  /\ all_rings_ok cfg.
Proof.
  intros Hok. apply from_values_accepted in Hok as Hacc. pose proof (accepted_rings _ _ _ Hacc).
  destruct Hacc.
  pose proof (database_timeouts_ordered _ _ _ _ _ acc_timeouts0).
  pose proof (key_windows_bounded _ _ _ acc_windows0).
  pose proof (control_mcp_bounded _ _ _ acc_mcp0) as [? _].
  pose proof (http_budget_bounded _ _ _ acc_auth_budget0).
  pose proof (http_budget_bounded _ _ _ acc_control_budget0).
  apply parse_nonzero_u32_range in acc_runtime_max0, acc_server_max0, acc_control_max0; [|lia..].
  apply (NoDup_fmap_1 sha256) in acc_roots0. intuition lia.
Qed.

(** A plane does not depend on the secrets of the other plane: with
    [OWLAUTH_MODE] set to [control], the runtime roots, the managed-credential
    roots and the extra certificates have no influence on the configuration or
    on its errors, and in [auth] mode neither has the operator key.  They may be
    present or absent, well formed or not. *)
Theorem plane_ignores_other_secrets (values : Env) (custody : bool) (mode : ProcessMode)
    (k v : string) :
  ProcessMode_from_str (unwrap_or (optional values "OWLAUTH_MODE") "auth"%string) = Ok mode ->
  k ∈ ignored_keys mode ->
  from_values_with_requirements (bm_insert k v values) custody
  = from_values_with_requirements values custody.
Proof.
  intros Hmode Hk. apply (ignored_from_values mode).
  - intros k' Hk'. apply bm_get_insert_ne. by intros ->.
  - apply reject_unknown_insert. revert k Hk. apply Forall_forall.
    destruct mode; apply (bool_decide_eq_true_1 _); vm_compute; reflexivity.
  - exact Hmode.
  - intros ->. cbn in Hk. set_solver.
Qed.

(** The two planes never answer for the same URL: when an accepted
    configuration puts both external bases on one origin, no path lies below
    both of them.  And the MCP endpoint is only ever enabled on a control plane
    that is reached over HTTPS, or on loopback addresses at both ends. *)
Theorem planes_do_not_overlap (values : Env) (custody : bool) (cfg : ServerConfig) :
  from_values_with_requirements values custody = Ok cfg ->
  (same_origin (lc_external_base (sc_auth cfg)) (lc_external_base (sc_control cfg)) = true ->
   forall path, ~ (String.prefix (url_path (lc_external_base (sc_auth cfg))) path = true
                   /\ String.prefix (url_path (lc_external_base (sc_control cfg))) path = true))
  /\ (mcp_enabled (sc_control_mcp cfg) = true ->
      ProcessMode_has_control (sc_mode cfg) = true
      /\ (url_scheme (lc_external_base (sc_control cfg)) = "https"%string
          \/ host_is_loopback (url_host (lc_external_base (sc_control cfg))) = true
             /\ ip_is_loopback (socket_ip (lc_bind (sc_control cfg))) = true)).
Proof.
  intros Hok. apply from_values_accepted in Hok as []. split.
  - intros Horigin path [Ha Hc]. unfold validate_external_bases in acc_bases0.
    rewrite Horigin in acc_bases0. inv_ok. bool_prop.
    destruct (prefixes_comparable _ _ _ Ha Hc); intuition congruence.
  - intros Henabled. apply control_mcp_bounded in acc_mcp0 as [_ Hmcp]. split; [auto|].
    unfold validate_control_mcp_listener in acc_mcp_listener0. rewrite Henabled in *.
    cbn [negb orb] in *. case_bool_decide; [by left|]. inv_ok. bool_prop. auto.
Qed.
End theorems.

Lemma find_first_sorted `{TotalOrd A} (f : A -> bool) l k :
  StronglySorted lt_ord l -> k ∈ l -> f k = true ->
  exists k', List.find f l = Some k' /\ f k' = true /\ k' ∈ l /\ (k' = k \/ lt_ord k' k).
Proof.
  induction l as [|y l IH]; [set_solver|]. intros Hs Hk Hf. cbn.
  apply StronglySorted_inv in Hs as [Hs Hall]. destruct (f y) eqn:Hy.
  - exists y. rewrite Forall_forall in Hall. apply elem_of_cons in Hk as [->|Hk];
      (split; [done|]); (split; [done|]); (split; [left|]); auto.
  - apply elem_of_cons in Hk as [->|Hk]; [congruence|].
    destruct (IH Hs Hk Hf) as (k' & ? & ? & ? & ?). exists k'. set_solver.
Qed.

Lemma collect_environment_keys vars values acc k :
  StronglySorted lt_ord (bm_keys acc) -> collect_environment acc vars = Ok values ->
  StronglySorted lt_ord (bm_keys values)
  /\ (k ∈ bm_keys acc \/ (exists v, (Some k, Some v) ∈ vars) /\ String.prefix "OWLAUTH_" k = true ->
      k ∈ bm_keys values).
Proof.
  revert acc; induction vars as [|[[key|] value] vars IH]; intros acc Hs Hok; cbn in Hok.
  - injection Hok as <-. set_solver.
  - destruct (negb (String.prefix "OWLAUTH_" key)) eqn:Hp.
    + destruct (IH acc Hs Hok) as [Hs' Hk]. split; [done|]. intros [Ha|[[v Hv] Hpre]]; [auto|].
      apply elem_of_cons in Hv as [Hv|Hv]; [simplify_eq; by rewrite Hpre in Hp|eauto].
    + inv_ok. apply IH in Hok as [Hs' Hk];
        [|rewrite bm_insert_keys; by apply bt_insert_sorted].
      rewrite bm_insert_keys in Hk. setoid_rewrite bt_insert_elem in Hk.
      split; [done|]. intros [Ha|[[v Hv] Hpre]]; [auto|].
      apply elem_of_cons in Hv as [Hv|Hv]; [simplify_eq; auto|eauto].
  - destruct (IH acc Hs Hok) as [Hs' Hk]. split; [done|]. intros [Ha|[[v Hv] Hpre]]; [auto|].
    apply elem_of_cons in Hv as [Hv|Hv]; [discriminate Hv|eauto].
Qed.

(** A misspelt variable is never ignored: if the environment holds a variable
    that starts with [OWLAUTH_] and is not one of the known ones, startup fails,
    and the error names an unknown variable that is this one or sorts before it. *)
Theorem unknown_variable_refused `{ConfigLib} (vars : list (option string * option string))
    (custody : bool) (values : Env) (k v : string) :
  collect_environment [] vars = Ok values ->
  (Some k, Some v) ∈ vars -> String.prefix "OWLAUTH_" k = true -> k ∉ KNOWN_ENVIRONMENT_KEYS ->
  exists k', from_env_with_requirements vars custody = Err (ConfigErr.Unknown k')
             /\ (k' ∉ KNOWN_ENVIRONMENT_KEYS) /\ (k' = k \/ lt_ord k' k).
Proof.
  intros Hcol Hin Hpre Hk.
  destruct (collect_environment_keys vars values [] k) as [Hs Hkeys];
    [constructor|done|]. specialize (Hkeys (or_intror (conj (ex_intro _ v Hin) Hpre))).
  set (f := fun key => negb (bool_decide (key ∈ bt_collect KNOWN_ENVIRONMENT_KEYS))).
  assert (Hf : forall key, f key = true <-> key ∉ KNOWN_ENVIRONMENT_KEYS).
  { intros key. unfold f. rewrite negb_true_iff, bool_decide_eq_false, bt_collect_elem. done. }
  destruct (find_first_sorted f _ k Hs Hkeys) as (k' & Hfind & Hk' & _ & Hle); [by apply Hf|].
  exists k'. split; [|split; [by apply Hf|done]].
  unfold from_env_with_requirements. rewrite Hcol. cbn [rbind].
  unfold from_values_with_requirements, reject_unknown_keys. fold f. by rewrite Hfind.
Qed.

Lemma unique_versioned_keys_spec entries keys :
  unique_versioned_keys keys entries
  = if decide (NoDup (map fst entries) /\ Forall (fun e => e.1 ∉ bm_keys keys) entries)
    then Some (fold_left (fun acc e => bm_insert e.1 e.2 acc) entries keys) else None.
Proof.
  revert keys; induction entries as [|[n k] entries IH]; intros keys; cbn [unique_versioned_keys].
  - by rewrite decide_True by (split; [constructor|done]).
  - destruct (bm_get n keys) eqn:Hg; cbn [is_some].
    + rewrite decide_False; [done|]. rewrite Forall_cons. intros (_ & Hn & _). cbn in Hn.
      apply bm_get_none in Hn. congruence.
    + rewrite IH. cbn [fold_left fst snd map]. apply bm_get_none in Hg.
      apply decide_ext. rewrite NoDup_cons, Forall_cons, bm_insert_keys, !Forall_forall.
      setoid_rewrite bt_insert_elem. rewrite list_elem_of_fmap. split.
      * intros [Hnd Hall]. split_and!; [|done..|].
        { intros ([n' k'] & -> & He). apply (Hall _ He). by left. }
        { intros e He. specialize (Hall e He). tauto. }
      * intros [[Hn Hnd] [_ Hall]]. split; [done|]. intros e He [Hen|Hin].
        { apply Hn. by exists e. }
        { by apply (Hall e). }
Qed.

(** Duplicate versions.  The ring of the projection address refuses an object
    that repeats a version; the other rings, which are read into a plain map,
    accept it and keep the last entry, although their error message asks for
    unique versions.  Without repetition both readings agree. *)
Theorem retained_versions_uniqueness `{ConfigLib} (text : string) (entries : list (Z * string)) :
  json_key_entries text = Some entries ->
  versioned_keys text = Some (bm_collect entries)
  /\ UniqueVersionedKeys_deserialize text
     = if decide (NoDup (map fst entries)) then versioned_keys text else None.
Proof.
  intros Hj. unfold versioned_keys, UniqueVersionedKeys_deserialize. rewrite Hj. split; [done|].
  rewrite unique_versioned_keys_spec. apply decide_ext. rewrite Forall_forall. set_solver.
Qed.

Lemma allowed_private_ips_ok key value ips :
  parse_allowed_private_ips key value = Ok ips ->
  validate_private_relay_allowlist ips = Ok tt /\ list_len ips <= 16.
Proof.
  unfold parse_allowed_private_ips. intros. inv_ok. split; [done|].
  match goal with Hv : validate_private_relay_allowlist _ = Ok _ |- _ =>
    unfold validate_private_relay_allowlist in Hv end.
  inv_ok. bool_prop. lia.
Qed.

Lemma deployment_host_ok value host :
  normalize_deployment_smtp_host value = Ok host ->
  is_empty host = false /\ (253 <? str_len host) = false /\ is_some (parse_ip_addr host) = false.
Proof.
  unfold normalize_deployment_smtp_host. intros. inv_ok.
  match goal with Hb : _ || _ = false |- _ => rewrite !orb_false_iff in Hb end. tauto.
Qed.

Lemma nonzero_port text port :
  match parse_u16 text with
  | Some port => if port =? 0 then None else Some port
  | None => None
  end = Some port -> (port =? 0) = false.
Proof. destruct (parse_u16 text) as [p|]; [|done]. destruct (p =? 0) eqn:?; congruence. Qed.

Lemma deployment_tls_mode_ok t :
  negb (bool_decide (t = "implicit_tls"%string) || bool_decide (t = "starttls_required"%string))
  = false ->
  exists mode, deployment_tls_mode t = Ok mode /\ mode <> DevelopmentLoopbackPlaintext.
Proof. unfold deployment_tls_mode. do 2 case_bool_decide; cbn; eauto; done. Qed.

(** A configured relay is usable: when the environment describes a deployment
    relay, either completely or not at all, the endpoint the mail worker builds
    from it passes the worker's own validation, uses TLS, and carries only
    overridable private addresses; and a relay that is not merely reconciled has
    its credential fingerprint. *)
Theorem configured_relay_is_usable (values : Env) (c : DeploymentSmtpConfig) :
  parse_deployment_smtp values = Ok (Some c) ->
  exists e, deployment_endpoint c = Ok e
    /\ SmtpEndpoint_validate e = Ok tt
    /\ se_tls_mode e <> DevelopmentLoopbackPlaintext
    /\ validate_private_relay_allowlist (se_explicitly_allowed_private_ips e) = Ok tt
    /\ 0 < ds_generation c < 2 ^ 31
    /\ (ds_status c <> SmtpReconciled -> is_some (ds_safe_fingerprint c) = true).
Proof.
  unfold parse_deployment_smtp, parse_deployment_smtp_private_ips.
  destruct (_ && _); [discriminate|]. intros. inv_ok.
  match goal with Hp : parse_allowed_private_ips _ _ = Ok _ |- _ =>
    apply allowed_private_ips_ok in Hp as [Hlist Hlen] end.
  match goal with Hp : parse_i32 _ = Some _ |- _ => apply parse_int_range in Hp end.
  match goal with Hp : normalize_deployment_smtp_host _ = Ok _ |- _ =>
    apply deployment_host_ok in Hp as (Hempty & Hlong & Hip) end.
  match goal with Hp : match parse_u16 _ with _ => _ end = Some _ |- _ =>
    apply nonzero_port in Hp as Hport end.
  match goal with Hm : negb (bool_decide _ || bool_decide _) = false |- _ =>
    apply deployment_tls_mode_ok in Hm as (mode & Hmode & Hdev) end.
  unfold deployment_endpoint; cbn. rewrite Hmode. eexists. split; [reflexivity|].
  unfold SmtpEndpoint_validate; cbn. rewrite Hempty, Hlong, Hip, Hport.
  replace (16 <? _) with false by lia. rewrite (bool_decide_eq_false_2 _ Hdev).
  do 4 (split; [done || lia|]). intros Hstatus.
  match goal with Hf : negb (bool_decide _) && is_none _ = false |- _ =>
    rewrite (bool_decide_eq_false_2 _ Hstatus) in Hf; by apply some_of_not_none end.
Qed.

(** ** Witnesses *)
Lemma config_of_some values cfg :
  config_of values = Some cfg -> from_values_with_requirements values true = Ok cfg.
Proof. unfold config_of. destruct (from_values_with_requirements _ _); congruence. Qed.


(** The accepted configurations of the samples. *)
Lemma sample_config_of values : is_some (config_of values) = true ->
  exists cfg, from_values_with_requirements values true = Ok cfg.
Proof.
  destruct (config_of values) as [cfg|] eqn:Hc; [|done]. intros _. exists cfg.
  by apply config_of_some.
Qed.

Lemma root_separation_exact_witness :
  let key (b : Z) := mkStoreMasterKey (replicate 32 b) in
  let pair a b := mkRuntimeKeyConfig (key a) (key b) in
  let ring a b := mkRuntimeProtectionConfig 1 (pair a b) [] in
  let projection := mkProjectionEmailProtectionConfig 1 (key 5) [(2, key 6)] in
  let credential b := Some (mkManagedCredentialProtectionConfig 1 (key b) []) in
  let check b := validate_protection_root_separation (Some (ring 1 2)) None projection (ring 7 8)
                   (ring 9 10) (credential b) None None in
  check 11 = Ok tt
  /\ NoDup (map fst (named_roots (Some (ring 1 2)) None projection (ring 7 8) (ring 9 10)
                       (credential 11) None None))
  /\ check 6 <> Ok tt.
Proof.
  intros key pair ring projection credential check.
  assert (Hok : check 11 = Ok tt) by (vm_compute; reflexivity).
  split; [exact Hok|]. split.
  - apply (root_separation_exact (Some (ring 1 2)) None projection (ring 7 8) (ring 9 10)
             (credential 11) None None); [|exact Hok]. intros a b _ _ Heq. exact Heq.
  - vm_compute. discriminate.
Defined.

Lemma accepted_config_bounded_witness :
  exists cfg, from_values_with_requirements sample_env true = Ok cfg /\ NoDup (config_roots cfg)
              /\ all_rings_ok cfg.
Proof.
  destruct (sample_config_of sample_env) as [cfg Hok]; [vm_compute; reflexivity|].
  exists cfg. split; [exact Hok|]. apply (accepted_config_bounded sample_env true cfg Hok).
Defined.

Lemma plane_ignores_other_secrets_witness :
  from_values_with_requirements
    (bm_insert "OWLAUTH_CONTROL_API_KEY"%string "not a key"%string sample_env) true
  = from_values_with_requirements sample_env true.
Proof.
  apply (plane_ignores_other_secrets sample_env true AuthPlane); [reflexivity|].
  apply (bool_decide_eq_true_1 _). vm_compute. reflexivity.
Defined.

Lemma planes_do_not_overlap_witness :
  exists cfg, from_values_with_requirements shared_origin_env true = Ok cfg
    /\ ~ (String.prefix (url_path (lc_external_base (sc_auth cfg))) "/auth/login" = true
          /\ String.prefix (url_path (lc_external_base (sc_control cfg))) "/auth/login" = true).
Proof.
  destruct (config_of shared_origin_env) as [cfg|] eqn:Hc; [|vm_compute in Hc; discriminate Hc].
  exists cfg. split; [by apply config_of_some|].
  apply (planes_do_not_overlap shared_origin_env true cfg); [by apply config_of_some|].
  vm_compute in Hc. injection Hc as <-. reflexivity.
Defined.

Lemma unknown_variable_refused_witness :
  exists k', from_env_with_requirements
               [(Some "PATH", Some "/bin"); (Some "OWLAUTH_MOED", Some "all")]%string true
             = Err (ConfigErr.Unknown k')
             /\ (k' ∉ KNOWN_ENVIRONMENT_KEYS)
             /\ (k' = "OWLAUTH_MOED"%string \/ lt_ord k' "OWLAUTH_MOED"%string).
Proof.
  eapply unknown_variable_refused with (v := "all"%string); [vm_compute; reflexivity|..].
  - right. left.
  - reflexivity.
  - apply (bool_decide_eq_true_1 _). vm_compute. reflexivity.
Defined.

Lemma retained_versions_uniqueness_witness :
  versioned_keys "dup" = Some [(2, "y"%string)] /\ UniqueVersionedKeys_deserialize "dup" = None.
Proof.
  destruct (retained_versions_uniqueness "dup" [(2, "x"%string); (2, "y"%string)]) as [Hv Hu];
    [reflexivity|].
  rewrite Hv, Hu. split; [reflexivity|].
  rewrite decide_False; [reflexivity|]. intros Hn. apply NoDup_cons in Hn as [Hn _].
  apply Hn. left.
Defined.

Lemma configured_relay_is_usable_witness :
  let env := bm_collect ([
    ("OWLAUTH_DEPLOYMENT_SMTP_GENERATION", "3"); ("OWLAUTH_DEPLOYMENT_SMTP_STATUS", "reconciled");
    ("OWLAUTH_DEPLOYMENT_SMTP_HOST", " Relay.Example "); ("OWLAUTH_DEPLOYMENT_SMTP_PORT", "465");
    ("OWLAUTH_DEPLOYMENT_SMTP_TLS_MODE", "implicit_tls");
    ("OWLAUTH_DEPLOYMENT_SMTP_SENDER_ADDRESS", "auth@example.com");
    ("OWLAUTH_DEPLOYMENT_SMTP_ALLOWED_PRIVATE_IPS", "10.0.0.5,127.0.0.1,10.0.0.5")]%string) in
  exists c e, parse_deployment_smtp env = Ok (Some c) /\ deployment_endpoint c = Ok e
    /\ se_hostname e = "relay.example"%string
    /\ se_explicitly_allowed_private_ips e = [V4 [10; 0; 0; 5]; V4 [127; 0; 0; 1]]
    /\ SmtpEndpoint_validate e = Ok tt.
Proof.
  intros env.
  assert (Hok : parse_deployment_smtp env = Ok (Some (mkDeploymentSmtpConfig 3 SmtpReconciled
    "relay.example" 465 "implicit_tls" "auth@example.com" None
    [V4 [10; 0; 0; 5]; V4 [127; 0; 0; 1]]))) by (vm_compute; reflexivity).
  destruct (configured_relay_is_usable env _ Hok) as (e & He & Hv & _).
  eexists _, e. split; [exact Hok|]. split; [exact He|].
  vm_compute in He. injection He as <-. split; [reflexivity|]. split; [reflexivity|]. exact Hv.
Defined.
