(* ===== verification/LoginTables.v ===== *)
(** * Tables of the login flow

    Rows of [adapters/postgres/entity.rs] for login transactions, their admitted
    methods, handoff tickets, providers and their assignments, and the checks the
    migrations put on the tables the login flow writes.  Tables that are only
    read through SQL text ([project_email_policies] and the like) have the
    columns those statements read. *)
From S2P Require Import Prelude.

(** [char_length]: the number of characters of a text column. *)
Definition char_length (s : string) : Z := list_len (chars s).

(** ** Rows *)
Record LoginTransactionRow := mkLoginTransactionRow {
  lg_id : Uuid; lg_project_id : Uuid; lg_application_id : Uuid;
  lg_interaction_digest : list Z; lg_interaction_digest_key_version : Z;
  lg_status : string; lg_transaction_revision : Z; lg_redirect_uri : string;
  lg_application_pkce_challenge : string; lg_application_state_ciphertext : list Z;
  lg_application_state_key_version : Z; lg_presentation_hint : option string;
  lg_browser_binding_digest : option (list Z);
  lg_browser_binding_digest_key_version : option Z;
  lg_csrf_digest : option (list Z); lg_csrf_digest_key_version : option Z;
  lg_selected_method : option string; lg_provider_configuration_id : option Uuid;
  lg_user_id : option Uuid; lg_callback_url : option string;
  lg_upstream_state_digest : option (list Z); lg_upstream_state_digest_key_version : option Z;
  lg_oidc_nonce_digest : option (list Z); lg_oidc_nonce_digest_key_version : option Z;
  lg_provider_pkce_ciphertext : option (list Z); lg_provider_pkce_key_version : option Z;
  lg_project_metadata_revision : Z; lg_project_security_revision : Z;
  lg_application_security_revision : Z; lg_provider_revision : option Z;
  lg_assignment_security_revision : option Z; lg_claims_revision : Z; lg_session_revision : Z;
  lg_authenticated_at : option OffsetDateTime; lg_expires_at : OffsetDateTime;
  lg_terminal_at : option OffsetDateTime; lg_created_at : OffsetDateTime;
  lg_updated_at : OffsetDateTime
}.

Record LoginMethodRow := mkLoginMethodRow {
  lm_project_id : Uuid; lm_transaction_id : Uuid; lm_method_key : string;
  lm_method_kind : string; lm_provider_configuration_id : option Uuid;
  lm_display_name : string; lm_provider_revision : option Z;
  lm_assignment_security_revision : option Z; lm_provider_kind : option string;
  lm_provider_egress_policy_revision : option Z; lm_created_at : OffsetDateTime
}.

(** [login_email_method_snapshots], written by SQL text. *)
Record LoginEmailMethodRow := mkLoginEmailMethodRow {
  le_project_id : Uuid; le_transaction_id : Uuid; le_application_id : Uuid;
  le_method_policy_revision : Z; le_method_security_revision : Z;
  le_assignment_security_revision : Z; le_otp_enabled : bool; le_magic_link_enabled : bool;
  le_otp_digits : Z; le_otp_validity_seconds : Z; le_otp_max_attempts : Z;
  le_resend_after_seconds : Z; le_max_generations : Z; le_magic_validity_seconds : Z;
  le_signup_enabled : bool; le_transferred_magic_link_enabled : bool;
  le_smtp_selection_kind : string; le_smtp_configuration_id : option Uuid;
  le_smtp_generation : Z; le_smtp_security_eligibility_revision : Z;
  le_created_at : OffsetDateTime
}.

Record HandoffTicketRow := mkHandoffTicketRow {
  ht_id : Uuid; ht_project_id : Uuid; ht_login_transaction_id : Uuid;
  ht_application_id : Uuid; ht_user_id : Uuid; ht_browser_session_id : Uuid;
  ht_provider_configuration_id : option Uuid; ht_ticket_digest : list Z;
  ht_ticket_digest_key_version : Z; ht_status : string; ht_redirect_uri : string;
  ht_application_pkce_challenge : string; ht_authentication_method : string;
  ht_authenticated_at : OffsetDateTime; ht_project_security_revision : Z;
  ht_application_security_revision : Z; ht_user_security_revision : Z;
  ht_provider_revision : option Z; ht_assignment_security_revision : option Z;
  ht_claims_revision : Z; ht_policy_session_revision : Z; ht_issued_at : OffsetDateTime;
  ht_expires_at : OffsetDateTime; ht_consumed_at : option OffsetDateTime;
  ht_created_at : OffsetDateTime
}.

Record ProviderConfigurationRow := mkProviderConfigurationRow {
  pc_id : Uuid; pc_project_id : Uuid; pc_provider_key : string; pc_kind : string;
  pc_display_name : string; pc_issuer : string; pc_client_id : string;
  pc_callback_url : string; pc_secret_material_id : Uuid; pc_secret_generation : Z;
  pc_status : string; pc_revision : Z; pc_managed_profile_enabled : bool;
  pc_managed_profile_revision : Z; pc_onboarding_policy_revision : option Z
}.

Record ProviderAssignmentRow := mkProviderAssignmentRow {
  pa_project_id : Uuid; pa_application_id : Uuid; pa_provider_id : Uuid;
  pa_status : string; pa_security_revision : Z
}.

(** The egress policy of a project; the login flow reads its revision. *)
Record EgressPolicyRow := mkEgressPolicyRow { eg_project_id : Uuid; eg_revision : Z }.

Record EmailPolicyRow := mkEmailPolicyRow {
  ep_project_id : Uuid; ep_status : string; ep_policy_revision : Z; ep_security_revision : Z;
  ep_signup_enabled : bool
}.

Record EmailAssignmentRow := mkEmailAssignmentRow {
  ea_project_id : Uuid; ea_application_id : Uuid; ea_status : string; ea_security_revision : Z
}.

(** A project's SMTP configurations, and the deployment's generations. *)
Record SmtpConfigurationRow := mkSmtpConfigurationRow {
  sc_id : Uuid; sc_project_id : Uuid; sc_generation : Z;
  sc_security_eligibility_revision : Z; sc_status : string;
  sc_retained_until : option OffsetDateTime
}.

Record DeploymentSmtpRow := mkDeploymentSmtpRow {
  ds_generation : Z; ds_security_eligibility_revision : Z; ds_status : string;
  ds_retained_until : option OffsetDateTime
}.

(** [provider_callback_owners]: the interaction that owns an upstream state. *)
Record CallbackOwnerRow := mkCallbackOwnerRow {
  co_state_id : Uuid; co_project_id : Uuid; co_provider_configuration_id : Uuid;
  co_owner_kind : string; co_login_transaction_id : option Uuid
}.

Record LoginTables := mkLoginTables {
  lt_logins : gmap Z LoginTransactionRow;
  lt_methods : gmap (Z * Z * string) LoginMethodRow;
  lt_email_methods : gmap (Z * Z) LoginEmailMethodRow;
  lt_tickets : gmap Z HandoffTicketRow;
  lt_callback_owners : gmap Z CallbackOwnerRow;
  lt_redirects : gset (Z * Z * string);
  lt_providers : gmap Z ProviderConfigurationRow;
  lt_assignments : gmap (Z * Z * Z) ProviderAssignmentRow;
  lt_egress_policies : gmap Z EgressPolicyRow;
  lt_email_policies : gmap Z EmailPolicyRow;
  lt_email_assignments : gmap (Z * Z) EmailAssignmentRow;
  lt_project_smtp : gmap Z SmtpConfigurationRow;
  lt_deployment_smtp : gmap Z DeploymentSmtpRow
}.

Definition set_lt_logins t (l : LoginTables) : LoginTables :=
  mkLoginTables t (lt_methods l) (lt_email_methods l) (lt_tickets l) (lt_callback_owners l)
    (lt_redirects l) (lt_providers l) (lt_assignments l) (lt_egress_policies l)
    (lt_email_policies l) (lt_email_assignments l) (lt_project_smtp l) (lt_deployment_smtp l).
Definition set_lt_methods t (l : LoginTables) : LoginTables :=
  mkLoginTables (lt_logins l) t (lt_email_methods l) (lt_tickets l) (lt_callback_owners l)
    (lt_redirects l) (lt_providers l) (lt_assignments l) (lt_egress_policies l)
    (lt_email_policies l) (lt_email_assignments l) (lt_project_smtp l) (lt_deployment_smtp l).
Definition set_lt_email_methods t (l : LoginTables) : LoginTables :=
  mkLoginTables (lt_logins l) (lt_methods l) t (lt_tickets l) (lt_callback_owners l)
    (lt_redirects l) (lt_providers l) (lt_assignments l) (lt_egress_policies l)
    (lt_email_policies l) (lt_email_assignments l) (lt_project_smtp l) (lt_deployment_smtp l).
Definition set_lt_tickets t (l : LoginTables) : LoginTables :=
  mkLoginTables (lt_logins l) (lt_methods l) (lt_email_methods l) t (lt_callback_owners l)
    (lt_redirects l) (lt_providers l) (lt_assignments l) (lt_egress_policies l)
    (lt_email_policies l) (lt_email_assignments l) (lt_project_smtp l) (lt_deployment_smtp l).
Definition set_lt_callback_owners t (l : LoginTables) : LoginTables :=
  mkLoginTables (lt_logins l) (lt_methods l) (lt_email_methods l) (lt_tickets l) t
    (lt_redirects l) (lt_providers l) (lt_assignments l) (lt_egress_policies l)
    (lt_email_policies l) (lt_email_assignments l) (lt_project_smtp l) (lt_deployment_smtp l).

(** ** Checks *)
Definition TERMINAL_LOGIN_STATUSES : list string :=
  ["provider_exchange_failed"; "completed"; "expired"; "cancelled"]%string.
Definition LOGIN_STATUSES : list string :=
  ["awaiting_browser_binding"; "awaiting_method_selection"; "email_address_entry";
   "email_challenge_pending"; "provider_authorization_started";
   "provider_exchange_in_progress"; "provider_exchange_failed"; "authenticated";
   "handoff_issued"; "completed"; "expired"; "cancelled"]%string.

Definition PROVIDER_LOGIN_STATUSES : list string :=
  ["provider_authorization_started"; "provider_exchange_in_progress";
   "provider_exchange_failed"]%string.

Definition status_in (statuses : list string) (status : string) : bool :=
  bool_decide (status ∈ statuses).

(** A digest column pair that is set. *)
Definition digest_set (digest : option (list Z)) (key_version : option Z) : bool :=
  is_some_and digest (fun d => list_len d =? 32) && is_some_and key_version (fun v => 0 <? v).

Definition login_browser_check (row : LoginTransactionRow) : bool :=
  ((bool_decide (lg_status row = "awaiting_browser_binding"%string)
    && is_none (lg_browser_binding_digest row))
   || status_in TERMINAL_LOGIN_STATUSES (lg_status row)
   || is_some (lg_browser_binding_digest row))
  && ((is_none (lg_browser_binding_digest row)
       && is_none (lg_browser_binding_digest_key_version row)
       && is_none (lg_csrf_digest row) && is_none (lg_csrf_digest_key_version row))
      || (digest_set (lg_browser_binding_digest row) (lg_browser_binding_digest_key_version row)
          && digest_set (lg_csrf_digest row) (lg_csrf_digest_key_version row))).

(** A check that evaluates to [NULL] passes, so a login without a selected method
    only has to name a provider where one is required. *)
Definition login_method_check (row : LoginTransactionRow) : bool :=
  match lg_selected_method row with
  | None =>
      negb (status_in PROVIDER_LOGIN_STATUSES (lg_status row))
      || is_some (lg_provider_configuration_id row)
  | Some method =>
      (bool_decide (method = "email"%string)
       || (bool_decide (method = "provider"%string)
           && is_some (lg_provider_configuration_id row)))
      && (negb (status_in PROVIDER_LOGIN_STATUSES (lg_status row))
          || (bool_decide (method = "provider"%string)
              && is_some (lg_provider_configuration_id row)))
      && (negb (status_in ["email_address_entry"; "email_challenge_pending"]%string
                  (lg_status row))
          || bool_decide (method = "email"%string))
  end.

Definition login_provider_material_check (row : LoginTransactionRow) : bool :=
  is_none (lg_provider_configuration_id row)
  || (is_some_and (lg_callback_url row) (fun u => in_range 8 2048 (char_length u))
      && is_some_and (lg_provider_revision row) (fun r => 0 <? r)
      && is_some_and (lg_assignment_security_revision row) (fun r => 0 <? r)
      && ((status_in TERMINAL_LOGIN_STATUSES (lg_status row)
           && is_none (lg_upstream_state_digest row)
           && is_none (lg_upstream_state_digest_key_version row)
           && is_none (lg_oidc_nonce_digest row)
           && is_none (lg_oidc_nonce_digest_key_version row)
           && is_none (lg_provider_pkce_ciphertext row)
           && is_none (lg_provider_pkce_key_version row))
          || (digest_set (lg_upstream_state_digest row) (lg_upstream_state_digest_key_version row)
              && digest_set (lg_oidc_nonce_digest row) (lg_oidc_nonce_digest_key_version row)
              && is_some_and (lg_provider_pkce_ciphertext row)
                   (fun c => in_range 17 4096 (list_len c))
              && is_some_and (lg_provider_pkce_key_version row) (fun v => 0 <? v)))).

Definition login_check (row : LoginTransactionRow) : bool :=
  (char_length (lg_application_pkce_challenge row) =? 43)
  && (0 <? lg_application_security_revision row)
  && in_range 17 4096 (list_len (lg_application_state_ciphertext row))
  && (0 <? lg_application_state_key_version row)
  && login_browser_check row
  && (lg_expires_at row =? lg_created_at row + minutes 10)
  && login_method_check row
  && (negb (status_in ["authenticated"; "handoff_issued"; "completed"]%string (lg_status row))
      || (is_some (lg_user_id row) && is_some (lg_authenticated_at row)))
  && Bool.eqb (status_in TERMINAL_LOGIN_STATUSES (lg_status row)) (is_some (lg_terminal_at row))
  && (0 <? lg_claims_revision row)
  && (list_len (lg_interaction_digest row) =? 32)
  && (0 <? lg_interaction_digest_key_version row)
  && match lg_presentation_hint row with
     | Some hint => in_range 1 64 (char_length hint)
     | None => true
     end
  && (0 <? lg_project_metadata_revision row)
  && (0 <? lg_project_security_revision row)
  && login_provider_material_check row
  && in_range 8 2048 (char_length (lg_redirect_uri row))
  && match lg_selected_method row with
     | Some method => status_in ["provider"; "email"]%string method
     | None => true
     end
  && (0 <? lg_session_revision row)
  && status_in LOGIN_STATUSES (lg_status row)
  && (0 <? lg_transaction_revision row).

(** Unique keys: the interaction digest, and the upstream state when it is set. *)
Definition login_conflict (a b : LoginTransactionRow) : bool :=
  bool_decide (lg_interaction_digest_key_version a = lg_interaction_digest_key_version b
               /\ lg_interaction_digest a = lg_interaction_digest b)
  || (is_some (lg_upstream_state_digest a)
      && bool_decide (lg_upstream_state_digest a = lg_upstream_state_digest b)
      && is_some (lg_upstream_state_digest_key_version a)
      && bool_decide (lg_upstream_state_digest_key_version a
                      = lg_upstream_state_digest_key_version b)).

Definition method_row_check (row : LoginMethodRow) : bool :=
  ((bool_decide (lm_method_kind row = "provider"%string)
    && is_some (lm_provider_configuration_id row)
    && is_some_and (lm_provider_revision row) (fun r => 0 <? r)
    && is_some_and (lm_assignment_security_revision row) (fun r => 0 <? r))
   || (bool_decide (lm_method_kind row = "email"%string)
       && is_none (lm_provider_configuration_id row) && is_none (lm_provider_revision row)
       && is_none (lm_assignment_security_revision row)))
  && in_range 1 128 (char_length (lm_display_name row))
  && in_range 1 96 (char_length (lm_method_key row))
  && match lm_provider_egress_policy_revision row with Some r => 0 <? r | None => true end
  && match lm_provider_kind row with
     | Some kind => status_in ["oidc"; "google"; "github"]%string kind
     | None => true
     end.

(** The trigger [owlauth_validate_provider_method_snapshot]. *)
Definition validate_provider_method_snapshot (row : LoginMethodRow) : bool :=
  if bool_decide (lm_method_kind row = "email"%string)
  then is_none (lm_provider_kind row) && is_none (lm_provider_egress_policy_revision row)
  else match lm_provider_kind row with
       | None => false
       | Some kind =>
           if bool_decide (kind = "oidc"%string)
           then is_some (lm_provider_egress_policy_revision row)
           else is_none (lm_provider_egress_policy_revision row)
       end.

Definition login_email_method_check (row : LoginEmailMethodRow) : bool :=
  (0 <? le_assignment_security_revision row)
  && (le_otp_enabled row || le_magic_link_enabled row)
  && Bool.eqb (bool_decide (le_smtp_selection_kind row = "project"%string))
       (is_some (le_smtp_configuration_id row))
  && in_range 30 600 (le_magic_validity_seconds row)
  && in_range 1 5 (le_max_generations row)
  && (0 <? le_method_policy_revision row)
  && (0 <? le_method_security_revision row)
  && in_range 6 10 (le_otp_digits row)
  && in_range 1 5 (le_otp_max_attempts row)
  && in_range 30 600 (le_otp_validity_seconds row)
  && in_range 30 600 (le_resend_after_seconds row)
  && (0 <? le_smtp_generation row)
  && (0 <? le_smtp_security_eligibility_revision row)
  && status_in ["project"; "deployment_default"]%string (le_smtp_selection_kind row).

Definition handoff_ticket_check (row : HandoffTicketRow) : bool :=
  (char_length (ht_application_pkce_challenge row) =? 43)
  && (0 <? ht_application_security_revision row)
  && status_in ["provider"; "email"; "session_reuse"]%string (ht_authentication_method row)
  && (ht_issued_at row <? ht_expires_at row)
  && (ht_expires_at row <=? ht_issued_at row + minutes 1)
  && (if bool_decide (ht_authentication_method row = "provider"%string)
      then is_some (ht_provider_configuration_id row)
           && is_some_and (ht_provider_revision row) (fun r => 0 <? r)
           && is_some_and (ht_assignment_security_revision row) (fun r => 0 <? r)
      else is_none (ht_provider_configuration_id row) && is_none (ht_provider_revision row)
           && is_none (ht_assignment_security_revision row))
  && Bool.eqb (bool_decide (ht_status row = "consumed"%string)) (is_some (ht_consumed_at row))
  && (0 <? ht_claims_revision row)
  && (0 <? ht_policy_session_revision row)
  && (0 <? ht_project_security_revision row)
  && in_range 8 2048 (char_length (ht_redirect_uri row))
  && status_in ["issued"; "consumed"; "expired"]%string (ht_status row)
  && (list_len (ht_ticket_digest row) =? 32)
  && (0 <? ht_ticket_digest_key_version row)
  && (0 <? ht_user_security_revision row).

(** Unique keys: one ticket per login, and the ticket digest. *)
Definition handoff_ticket_conflict (a b : HandoffTicketRow) : bool :=
  bool_decide (ht_project_id a = ht_project_id b
               /\ ht_login_transaction_id a = ht_login_transaction_id b)
  || bool_decide (ht_ticket_digest_key_version a = ht_ticket_digest_key_version b
                  /\ ht_ticket_digest a = ht_ticket_digest b).

Definition no_login_rows : LoginTables := mkLoginTables ∅ ∅ ∅ ∅ ∅ ∅ ∅ ∅ ∅ ∅ ∅ ∅ ∅.
