(* ===== verification/WebhookTables.v ===== *)
(** * Tables of the webhook outbox

    Rows of [adapters/postgres/entity.rs] for application user events, webhook
    endpoints and deliveries, with the checks of the tables the outbox writes. *)
From S2P Require Import Prelude.
From S2P Require Import Json.

Record UserEventRow := mkUserEventRow {
  ue_id : Uuid; ue_event_id : string; ue_project_id : Uuid; ue_application_id : Uuid;
  ue_binding_id : Uuid; ue_user_id : Uuid; ue_event_type : string; ue_user_revision : Z;
  ue_projection_revision : Z; ue_projection_schema : string; ue_safe_body : json;
  ue_canonical_body_digest : list Z; ue_verified_email_source_identity_id : option Uuid;
  ue_verified_email_ciphertext : option (list Z); ue_verified_email_key_version : option Z;
  ue_occurred_at : OffsetDateTime; ue_replay_until : OffsetDateTime;
  ue_retain_until : OffsetDateTime; ue_created_at : OffsetDateTime
}.

Record WebhookEndpointRow := mkWebhookEndpointRow {
  we_id : Uuid; we_project_id : Uuid; we_application_id : Uuid; we_public_id : string;
  we_idempotency_key : string; we_secret_request_fingerprint : list Z; we_url : string;
  we_subscribed_event_types : list string; we_status : string; we_revision : Z;
  we_current_secret_generation : option Z; we_overlap_secret_generation : option Z;
  we_overlap_expires_at : option OffsetDateTime; we_consecutive_failure_count : Z;
  we_last_delivery_at : option OffsetDateTime; we_last_success_at : option OffsetDateTime;
  we_last_failure_class : option string; we_last_tested_at : option OffsetDateTime;
  we_last_test_succeeded_at : option OffsetDateTime; we_created_at : OffsetDateTime;
  we_updated_at : OffsetDateTime; we_disabled_at : option OffsetDateTime
}.

Record WebhookDeliveryRow := mkWebhookDeliveryRow {
  wd_id : Uuid; wd_project_id : Uuid; wd_application_id : Uuid; wd_endpoint_id : Uuid;
  wd_event_id : Uuid; wd_replay_sequence : Z; wd_replay_of_delivery_id : option Uuid;
  wd_state : string; wd_attempt_count : Z; wd_next_attempt_at : OffsetDateTime;
  wd_lease_owner : option string; wd_lease_incarnation : option Uuid;
  wd_lease_generation : Z; wd_lease_expires_at : option OffsetDateTime;
  wd_claimed_secret_generation : option Z; wd_claimed_overlap_generation : option Z;
  wd_claimed_secret_material_id : option Uuid; wd_claimed_overlap_material_id : option Uuid;
  wd_last_outcome_class : option string; wd_last_http_status : option Z;
  wd_created_at : OffsetDateTime; wd_updated_at : OffsetDateTime;
  wd_delivered_at : option OffsetDateTime; wd_terminal_at : option OffsetDateTime
}.

(** [webhook_application_dispatch_state]: the last claim sequence of an application. *)
Record WebhookTables := mkWebhookTables {
  wt_events : gmap Z UserEventRow;
  wt_endpoints : gmap Z WebhookEndpointRow;
  wt_deliveries : gmap Z WebhookDeliveryRow;
  wt_dispatch : gmap (Z * Z) Z
}.

Definition set_wt_events t (w : WebhookTables) : WebhookTables :=
  mkWebhookTables t (wt_endpoints w) (wt_deliveries w) (wt_dispatch w).
Definition set_wt_endpoints t (w : WebhookTables) : WebhookTables :=
  mkWebhookTables (wt_events w) t (wt_deliveries w) (wt_dispatch w).
Definition set_wt_deliveries t (w : WebhookTables) : WebhookTables :=
  mkWebhookTables (wt_events w) (wt_endpoints w) t (wt_dispatch w).
Definition set_wt_dispatch t (w : WebhookTables) : WebhookTables :=
  mkWebhookTables (wt_events w) (wt_endpoints w) (wt_deliveries w) t.

(** [body #> '{data,projection,verified_email}']. *)
Definition body_email (body : json) : option json :=
  data ← json_get "data" body; projection ← json_get "projection" data;
  json_get "verified_email" projection.

Definition user_event_check (row : UserEventRow) : bool :=
  match ue_verified_email_source_identity_id row, ue_verified_email_ciphertext row,
        ue_verified_email_key_version row with
  | None, None, None => true
  | Some _, Some _, Some key_version => 0 <? key_version
  | Some _, Some _, None => true
  | _, _, _ => false
  end
  && (ue_occurred_at row <? ue_replay_until row)
  && (ue_replay_until row <? ue_retain_until row)
  && match ue_safe_body row, body_email (ue_safe_body row) with
     | JObject _, Some JNull => true
     | _, _ => false
     end
  && (list_len (ue_canonical_body_digest row) =? 32)
  && bool_decide (ue_event_type row ∈ ["user.projection.created"; "user.projection.updated";
                                       "user.projection.disabled"]%string)
  && (0 <? ue_projection_revision row)
  && bool_decide (ue_projection_schema row = "owlauth.user.v1"%string)
  && (0 <? ue_user_revision row).

(** Unique keys: the event's public id, and one event per binding and revision. *)
Definition user_event_conflict (a b : UserEventRow) : bool :=
  bool_decide (ue_event_id a = ue_event_id b)
  || bool_decide (ue_binding_id a = ue_binding_id b
                  /\ ue_projection_revision a = ue_projection_revision b).

Definition delivery_lease_check (row : WebhookDeliveryRow) : bool :=
  if bool_decide (wd_state row = "leased"%string)
  then is_some (wd_lease_owner row) && is_some (wd_lease_incarnation row)
       && is_some (wd_lease_expires_at row) && is_some (wd_claimed_secret_generation row)
       && is_some (wd_claimed_secret_material_id row)
       && Bool.eqb (is_some (wd_claimed_overlap_generation row))
            (is_some (wd_claimed_overlap_material_id row))
  else is_none (wd_lease_owner row) && is_none (wd_lease_incarnation row)
       && is_none (wd_lease_expires_at row) && is_none (wd_claimed_secret_generation row)
       && is_none (wd_claimed_secret_material_id row)
       && is_none (wd_claimed_overlap_generation row)
       && is_none (wd_claimed_overlap_material_id row).

Definition delivery_terminal_check (row : WebhookDeliveryRow) : bool :=
  (bool_decide (wd_state row = "delivered"%string)
   && is_some (wd_delivered_at row) && is_none (wd_terminal_at row))
  || (bool_decide (wd_state row ∈ ["terminal"; "cancelled"]%string)
      && is_some (wd_terminal_at row) && is_none (wd_delivered_at row))
  || (bool_decide (wd_state row ∈ ["pending"; "leased"]%string)
      && is_none (wd_delivered_at row) && is_none (wd_terminal_at row)).

Definition webhook_delivery_check (row : WebhookDeliveryRow) : bool :=
  (0 <=? wd_attempt_count row)
  && match wd_last_http_status row with Some status => in_range 100 599 status | None => true end
  && (0 <=? wd_lease_generation row)
  && (0 <=? wd_replay_sequence row)
  && bool_decide (wd_state row ∈ ["pending"; "leased"; "delivered"; "terminal";
                                  "cancelled"]%string)
  && delivery_lease_check row
  && (if wd_replay_sequence row =? 0 then is_none (wd_replay_of_delivery_id row)
      else (0 <? wd_replay_sequence row) && is_some (wd_replay_of_delivery_id row))
  && delivery_terminal_check row.

Definition webhook_delivery_conflict (a b : WebhookDeliveryRow) : bool :=
  bool_decide (wd_event_id a = wd_event_id b /\ wd_endpoint_id a = wd_endpoint_id b
               /\ wd_replay_sequence a = wd_replay_sequence b).

Definition no_webhook_rows : WebhookTables := mkWebhookTables ∅ ∅ ∅ ∅.
