(* ===== verification/Database.v ===== *)
(** * The store: rows, constraints and transactions

    The PostgreSQL tables the session authority works on
    ([adapters/postgres/entity.rs]), with the constraints the migrations put on
    the tables it writes, JSON values, and transactions.

    A table is a finite map from primary keys to rows.  A statement that breaks
    a constraint fails with [Persistence]; a transaction that returns an error is
    rolled back.  Rows and advisory locks taken by a transaction make it run
    alone on the rows it touches, so a transaction is a function from the store
    it starts on; the reads the code makes before it opens a transaction see an
    earlier store, which is an argument of their own.  Timestamps are the
    driver's; a failing connection is a rolled-back transaction and has no
    definition of its own. *)
From S2P Require Import Prelude.
From S2P Require Import Json.
From S2P Require Import LoginTables.
From S2P Require Import WebhookTables.

(** ** Rows *)
Record ProjectRow := mkProjectRow {
  pj_id : Uuid; pj_public_id : string; pj_belongs_to : option string; pj_display_name : string;
  pj_status : string; pj_metadata_revision : Z; pj_security_revision : Z;
  pj_deletion_requested_at : option OffsetDateTime;
  pj_created_at : OffsetDateTime; pj_updated_at : OffsetDateTime
}.

Record ApplicationRow := mkApplicationRow {
  ap_id : Uuid; ap_project_id : Uuid; ap_public_id : string; ap_display_name : string;
  ap_application_type : string; ap_status : string; ap_revision : Z; ap_metadata_revision : Z;
  ap_security_revision : Z; ap_created_at : OffsetDateTime; ap_updated_at : OffsetDateTime
}.

Record KeyRingRow := mkKeyRingRow {
  kr_id : Uuid; kr_project_id : Uuid; kr_issuer : string; kr_purpose : string;
  kr_algorithm : string; kr_revision : Z; kr_signing_epoch : Z
}.

Record SigningKeyRow := mkSigningKeyRow {
  sk_id : Uuid; sk_project_id : Uuid; sk_ring_id : Uuid; sk_kid : string; sk_public_jwk : json;
  sk_signer_material_id : Uuid; sk_signer_material_generation : Z; sk_state : string;
  sk_ring_revision : Z; sk_provisioned_at : option OffsetDateTime;
  sk_published_at : option OffsetDateTime; sk_activated_at : option OffsetDateTime;
  sk_sign_not_before : option OffsetDateTime; sk_retiring_at : option OffsetDateTime;
  sk_verify_not_after : option OffsetDateTime; sk_maintenance_claimed_at : option OffsetDateTime;
  sk_retired_at : option OffsetDateTime; sk_revoked_at : option OffsetDateTime;
  sk_created_at : OffsetDateTime; sk_updated_at : OffsetDateTime
}.

Record PolicyRow := mkPolicyRow {
  po_project_id : Uuid; po_claims_revision : Z; po_session_revision : Z;
  po_claims_policy : json; po_session_policy : json
}.

Record UserRow := mkUserRow {
  us_id : Uuid; us_project_id : Uuid; us_public_id : string; us_status : string;
  us_merged_into_user_id : option Uuid; us_user_revision : Z; us_security_revision : Z;
  us_primary_profile_identity_id : option Uuid; us_primary_email_identity_id : option Uuid;
  us_primary_source_kind : string; us_base_profile_digest : list Z;
  us_local_display_name_set : bool; us_local_display_name : option string;
  us_local_picture_url_set : bool; us_local_picture_url : option string;
  us_local_locale_set : bool; us_local_locale : option string;
  us_display_name : option string; us_picture_url : option string; us_locale : option string;
  us_created_at : OffsetDateTime; us_updated_at : OffsetDateTime
}.

Record BrowserSessionRow := mkBrowserSessionRow {
  bs_id : Uuid; bs_project_id : Uuid; bs_user_id : Uuid; bs_credential_digest : list Z;
  bs_credential_digest_key_version : Z; bs_status : string; bs_session_revision : Z;
  bs_project_security_revision : Z; bs_user_security_revision : Z;
  bs_policy_session_revision : Z; bs_authenticated_at : OffsetDateTime;
  bs_last_activity_at : OffsetDateTime; bs_idle_expires_at : OffsetDateTime;
  bs_absolute_expires_at : OffsetDateTime; bs_terminated_at : option OffsetDateTime;
  bs_created_at : OffsetDateTime; bs_updated_at : OffsetDateTime
}.

Record UserBindingRow := mkUserBindingRow {
  ub_id : Uuid; ub_project_id : Uuid; ub_application_id : Uuid; ub_user_id : Uuid;
  ub_status : string; ub_binding_revision : Z; ub_merged_into_binding_id : option Uuid;
  ub_merged_at : option OffsetDateTime; ub_created_at : OffsetDateTime;
  ub_updated_at : OffsetDateTime
}.

Record ProjectionRow := mkProjectionRow {
  pn_id : Uuid; pn_project_id : Uuid; pn_binding_id : Uuid; pn_application_id : Uuid;
  pn_user_id : Uuid; pn_schema_name : string; pn_projection_revision : Z;
  pn_source_user_revision : Z; pn_canonical_digest : list Z;
  pn_source_base_profile_digest : list Z; pn_verified_email_source_identity_id : option Uuid;
  pn_verified_email_ciphertext : option (list Z); pn_verified_email_key_version : option Z;
  pn_document : json; pn_created_at : OffsetDateTime; pn_updated_at : OffsetDateTime
}.

Record ApplicationSessionRow := mkApplicationSessionRow {
  as_id : Uuid; as_project_id : Uuid; as_application_id : Uuid; as_user_id : Uuid;
  as_binding_id : Uuid; as_browser_session_id : option Uuid; as_status : string;
  as_session_revision : Z; as_project_security_revision : Z;
  as_application_security_revision : Z; as_user_security_revision : Z; as_claims_revision : Z;
  as_policy_session_revision : Z; as_authenticated_at : OffsetDateTime;
  as_absolute_expires_at : OffsetDateTime; as_revoked_at : option OffsetDateTime;
  as_created_at : OffsetDateTime; as_updated_at : OffsetDateTime
}.

Record RefreshFamilyRow := mkRefreshFamilyRow {
  rf_id : Uuid; rf_project_id : Uuid; rf_application_id : Uuid; rf_user_id : Uuid;
  rf_application_session_id : Uuid; rf_status : string; rf_family_revision : Z;
  rf_current_generation : Z; rf_allowed_clock_skew_seconds : Z;
  rf_absolute_expires_at : OffsetDateTime; rf_revoked_at : option OffsetDateTime;
  rf_revocation_reason : option string; rf_created_at : OffsetDateTime;
  rf_updated_at : OffsetDateTime
}.

Record RefreshGenerationRow := mkRefreshGenerationRow {
  rg_id : Uuid; rg_project_id : Uuid; rg_family_id : Uuid; rg_application_id : Uuid;
  rg_user_id : Uuid; rg_generation : Z; rg_token_digest : list Z;
  rg_token_digest_key_version : Z; rg_status : string; rg_consumed_at : option OffsetDateTime;
  rg_replay_detected_at : option OffsetDateTime; rg_retain_until : OffsetDateTime;
  rg_created_at : OffsetDateTime
}.

Record BrowserLogoutRow := mkBrowserLogoutRow {
  bl_id : Uuid; bl_project_id : Uuid; bl_application_id : Uuid; bl_user_id : Uuid;
  bl_application_session_id : Uuid; bl_browser_session_id : Uuid;
  bl_preparation_digest : list Z; bl_preparation_digest_key_version : Z; bl_status : string;
  bl_interaction_revision : Z; bl_csrf_digest : option (list Z);
  bl_csrf_digest_key_version : option Z; bl_application_session_revision : Z;
  bl_browser_session_revision : Z; bl_expires_at : OffsetDateTime;
  bl_csrf_bound_at : option OffsetDateTime; bl_consumed_at : option OffsetDateTime;
  bl_created_at : OffsetDateTime; bl_updated_at : OffsetDateTime
}.

(** The columns of [email_identities], read and written by SQL text. *)
Record EmailIdentityRow := mkEmailIdentityRow {
  ei_project_id : Uuid; ei_user_id : Uuid; ei_status : string;
  ei_address_ciphertext : list Z; ei_address_key_version : Z;
  ei_verified_at : option OffsetDateTime; ei_identity_revision : Z;
  ei_canonicalization_version : Z; ei_created_at : OffsetDateTime; ei_updated_at : OffsetDateTime
}.

(** The id of an audit event is a fresh UUID no code reads back; the log is the
    sequence of the other columns. *)
Record AuditEventRow := mkAuditEventRow {
  ae_project_id : option Uuid; ae_actor_kind : string; ae_action : string;
  ae_target_kind : string; ae_target_id : option Uuid; ae_outcome : string;
  ae_correlation_id : Uuid; ae_safe_context : json
}.

Record Database := mkDatabase {
  db_projects : gmap Z ProjectRow;
  db_applications : gmap Z ApplicationRow;
  db_users : gmap Z UserRow;
  db_policies : gmap Z PolicyRow;
  db_rings : gmap Z KeyRingRow;
  db_keys : gmap Z SigningKeyRow;
  db_browsers : gmap Z BrowserSessionRow;
  db_bindings : gmap Z UserBindingRow;
  db_projections : gmap Z ProjectionRow;
  db_sessions : gmap Z ApplicationSessionRow;
  db_families : gmap Z RefreshFamilyRow;
  db_generations : gmap Z RefreshGenerationRow;
  db_logouts : gmap Z BrowserLogoutRow;
  db_email_identities : gmap Z EmailIdentityRow;
  db_login : LoginTables;
  db_webhook : WebhookTables;
  db_audit : list AuditEventRow
}.

Definition set_db_users t (db : Database) : Database :=
  mkDatabase (db_projects db) (db_applications db) t (db_policies db) (db_rings db) (db_keys db)
    (db_browsers db) (db_bindings db) (db_projections db) (db_sessions db) (db_families db)
    (db_generations db) (db_logouts db) (db_email_identities db) (db_login db) (db_webhook db)
    (db_audit db).
Definition set_db_browsers t (db : Database) : Database :=
  mkDatabase (db_projects db) (db_applications db) (db_users db) (db_policies db) (db_rings
    db) (db_keys db) t (db_bindings db) (db_projections db) (db_sessions db) (db_families db)
    (db_generations db) (db_logouts db) (db_email_identities db) (db_login db) (db_webhook db)
    (db_audit db).
Definition set_db_bindings t (db : Database) : Database :=
  mkDatabase (db_projects db) (db_applications db) (db_users db) (db_policies db) (db_rings
    db) (db_keys db) (db_browsers db) t (db_projections db) (db_sessions db) (db_families db)
    (db_generations db) (db_logouts db) (db_email_identities db) (db_login db) (db_webhook db)
    (db_audit db).
Definition set_db_projections t (db : Database) : Database :=
  mkDatabase (db_projects db) (db_applications db) (db_users db) (db_policies db) (db_rings
    db) (db_keys db) (db_browsers db) (db_bindings db) t (db_sessions db) (db_families db)
    (db_generations db) (db_logouts db) (db_email_identities db) (db_login db) (db_webhook db)
    (db_audit db).
Definition set_db_sessions t (db : Database) : Database :=
  mkDatabase (db_projects db) (db_applications db) (db_users db) (db_policies db) (db_rings
    db) (db_keys db) (db_browsers db) (db_bindings db) (db_projections db) t (db_families db)
    (db_generations db) (db_logouts db) (db_email_identities db) (db_login db) (db_webhook db)
    (db_audit db).
Definition set_db_families t (db : Database) : Database :=
  mkDatabase (db_projects db) (db_applications db) (db_users db) (db_policies db) (db_rings
    db) (db_keys db) (db_browsers db) (db_bindings db) (db_projections db) (db_sessions db) t
    (db_generations db) (db_logouts db) (db_email_identities db) (db_login db) (db_webhook db)
    (db_audit db).
Definition set_db_generations t (db : Database) : Database :=
  mkDatabase (db_projects db) (db_applications db) (db_users db) (db_policies db) (db_rings
    db) (db_keys db) (db_browsers db) (db_bindings db) (db_projections db) (db_sessions db)
    (db_families db) t (db_logouts db) (db_email_identities db) (db_login db) (db_webhook db)
    (db_audit db).
Definition set_db_logouts t (db : Database) : Database :=
  mkDatabase (db_projects db) (db_applications db) (db_users db) (db_policies db) (db_rings
    db) (db_keys db) (db_browsers db) (db_bindings db) (db_projections db) (db_sessions db)
    (db_families db) (db_generations db) t (db_email_identities db) (db_login db) (db_webhook
    db) (db_audit db).
Definition set_db_email_identities t (db : Database) : Database :=
  mkDatabase (db_projects db) (db_applications db) (db_users db) (db_policies db) (db_rings
    db) (db_keys db) (db_browsers db) (db_bindings db) (db_projections db) (db_sessions db)
    (db_families db) (db_generations db) (db_logouts db) t (db_login db) (db_webhook db)
    (db_audit db).
Definition set_db_login t (db : Database) : Database :=
  mkDatabase (db_projects db) (db_applications db) (db_users db) (db_policies db) (db_rings
    db) (db_keys db) (db_browsers db) (db_bindings db) (db_projections db) (db_sessions db)
    (db_families db) (db_generations db) (db_logouts db) (db_email_identities db) t
    (db_webhook db) (db_audit db).
Definition set_db_webhook t (db : Database) : Database :=
  mkDatabase (db_projects db) (db_applications db) (db_users db) (db_policies db) (db_rings
    db) (db_keys db) (db_browsers db) (db_bindings db) (db_projections db) (db_sessions db)
    (db_families db) (db_generations db) (db_logouts db) (db_email_identities db) (db_login
    db) t (db_audit db).
Definition set_db_audit t (db : Database) : Database :=
  mkDatabase (db_projects db) (db_applications db) (db_users db) (db_policies db) (db_rings
    db) (db_keys db) (db_browsers db) (db_bindings db) (db_projections db) (db_sessions db)
    (db_families db) (db_generations db) (db_logouts db) (db_email_identities db) (db_login
    db) (db_webhook db) t.

(** ** Queries *)
Section queries.
Context {Row : Type}.

(** [Entity::find_by_id(id).filter(..).one(..)] *)
Definition find_by_id (table : gmap Z Row) (id : Z) (p : Row -> bool) : option Row :=
  row ← table !! id; if p row then Some row else None.

(** [Entity::find().filter(..).order_by(..).one(..)]: the first match in the
    order [before]. *)
Definition find_first (table : gmap Z Row) (p : Row -> bool) (before : Row -> Row -> bool) :
    option Row :=
  fold_left (fun best row =>
    if p row
    then match best with
         | Some b => if before row b then Some row else best
         | None => Some row
         end
    else best) (map snd (map_to_list table)) None.

Definition key_le (key : Row -> Z) (a b : Row) : Prop := key a <= key b.
#[global] Instance key_le_dec key : RelDecision (key_le key) :=
  fun a b => Z_le_dec (key a) (key b).

(** [Entity::find().filter(..).order_by_asc(..).limit(..).all(..)], in the order
    [before]. *)
Definition find_all (table : gmap Z Row) (p : Row -> bool) (before : Row -> Row -> Prop)
    `{!RelDecision before} (limit : Z) : list Row :=
  take (Z.to_nat limit) (merge_sort before (List.filter p (map snd (map_to_list table)))).

(** [Entity::find().filter(..).one(..)]: a row that matches. *)
Definition find_one (table : gmap Z Row) (p : Row -> bool) : option Row :=
  List.find p (map snd (map_to_list table)).
End queries.

(** ** Constraints of the tables written here *)
(** No other row of the table clashes with [row]. *)
Definition unique_in {Row : Type} (conflict : Row -> Row -> bool) (id : Z) (row : Row)
    (table : gmap Z Row) : bool :=
  forallb (fun other => negb (conflict row other)) (map snd (map_to_list (delete id table))).

Definition refresh_generation_check (row : RefreshGenerationRow) : bool :=
  (rg_created_at row <? rg_retain_until row)
  && Bool.eqb (bool_decide (rg_status row = "consumed"%string)) (is_some (rg_consumed_at row))
  && (is_none (rg_replay_detected_at row) || is_some (rg_consumed_at row))
  && (0 <? rg_generation row)
  && (bool_decide (rg_status row = "current"%string)
      || bool_decide (rg_status row = "consumed"%string))
  && (Z.of_nat (length (rg_token_digest row)) =? 32)
  && (0 <? rg_token_digest_key_version row).

(** The unique keys: the digest with its key version, the generation number in
    a family, and one current generation per family. *)
Definition refresh_generation_conflict (a b : RefreshGenerationRow) : bool :=
  bool_decide (rg_token_digest_key_version a = rg_token_digest_key_version b
               /\ rg_token_digest a = rg_token_digest b)
  || bool_decide (rg_project_id a = rg_project_id b /\ rg_family_id a = rg_family_id b
                  /\ rg_generation a = rg_generation b)
  || bool_decide (rg_project_id a = rg_project_id b /\ rg_family_id a = rg_family_id b
                  /\ rg_status a = "current"%string /\ rg_status b = "current"%string).

(** The foreign key to the family. *)
Definition refresh_generation_owner (db : Database) (row : RefreshGenerationRow) : bool :=
  match db_families db !! rg_family_id row with
  | Some family =>
      (rf_project_id family =? rg_project_id row)
      && (rf_application_id family =? rg_application_id row)
      && (rf_user_id family =? rg_user_id row)
  | None => false
  end.

Definition refresh_generation_accepts (db : Database) (row : RefreshGenerationRow) : bool :=
  refresh_generation_check row
  && refresh_generation_owner db row
  && unique_in refresh_generation_conflict (rg_id row) row (db_generations db).

Definition refresh_family_check (row : RefreshFamilyRow) : bool :=
  in_range 0 300 (rf_allowed_clock_skew_seconds row)
  && (rf_absolute_expires_at row =? rf_created_at row + seconds (30 * 24 * 3600))
  && (if bool_decide (rf_status row = "revoked"%string)
      then is_some (rf_revoked_at row) && is_some (rf_revocation_reason row)
      else is_none (rf_revoked_at row) && is_none (rf_revocation_reason row))
  && (0 <? rf_current_generation row)
  && (0 <? rf_family_revision row)
  && match rf_revocation_reason row with
     | Some reason => bool_decide (reason ∈ ["logout"; "replay"; "control"; "owner_invalidated"]%string)
     | None => true
     end
  && bool_decide (rf_status row ∈ ["active"; "revoked"; "expired"]%string).

Definition application_session_check (row : ApplicationSessionRow) : bool :=
  (0 <? as_application_security_revision row)
  && (as_absolute_expires_at row =? as_created_at row + seconds (30 * 24 * 3600))
  && Bool.eqb (bool_decide (as_status row = "revoked"%string)) (is_some (as_revoked_at row))
  && (0 <? as_claims_revision row)
  && (0 <? as_policy_session_revision row)
  && (0 <? as_project_security_revision row)
  && (0 <? as_session_revision row)
  && bool_decide (as_status row ∈ ["active"; "revoked"; "expired"]%string)
  && (0 <? as_user_security_revision row).

Definition browser_session_check (row : BrowserSessionRow) : bool :=
  (bs_authenticated_at row <=? bs_last_activity_at row)
  && (bs_absolute_expires_at row =? bs_authenticated_at row + seconds (24 * 3600))
  && (bs_idle_expires_at row
      =? Z.min (bs_last_activity_at row + seconds (8 * 3600)) (bs_absolute_expires_at row))
  && Bool.eqb (bool_decide (bs_status row = "terminated"%string)) (is_some (bs_terminated_at row))
  && (list_len (bs_credential_digest row) =? 32)
  && (0 <? bs_credential_digest_key_version row)
  && (0 <? bs_policy_session_revision row)
  && (0 <? bs_project_security_revision row)
  && (0 <? bs_session_revision row)
  && bool_decide (bs_status row ∈ ["active"; "terminated"; "expired"]%string)
  && (0 <? bs_user_security_revision row).

(** The unique key of a browser session: its credential digest. *)
Definition browser_session_conflict (a b : BrowserSessionRow) : bool :=
  bool_decide (bs_credential_digest_key_version a = bs_credential_digest_key_version b
               /\ bs_credential_digest a = bs_credential_digest b).

Definition browser_logout_check (row : BrowserLogoutRow) : bool :=
  (0 <? bl_application_session_revision row)
  && (0 <? bl_preparation_digest_key_version row)
  && (0 <? bl_browser_session_revision row)
  && (bl_created_at row <? bl_expires_at row)
  && (bl_expires_at row <=? bl_created_at row + seconds 60)
  && ((bool_decide (bl_status row ∈ ["prepared"; "expired"]%string)
       && is_none (bl_csrf_digest row) && is_none (bl_csrf_digest_key_version row)
       && is_none (bl_csrf_bound_at row))
      || (bool_decide (bl_status row ∈ ["csrf_bound"; "consumed"; "expired"]%string)
          && is_some_and (bl_csrf_digest row) (fun d => list_len d =? 32)
          && is_some_and (bl_csrf_digest_key_version row) (fun v => 0 <? v)
          && is_some (bl_csrf_bound_at row)))
  && Bool.eqb (bool_decide (bl_status row = "consumed"%string)) (is_some (bl_consumed_at row))
  && (0 <? bl_interaction_revision row)
  && (list_len (bl_preparation_digest row) =? 32)
  && bool_decide (bl_status row ∈ ["prepared"; "csrf_bound"; "consumed"; "expired"]%string).

Definition browser_logout_conflict (a b : BrowserLogoutRow) : bool :=
  bool_decide (bl_preparation_digest_key_version a = bl_preparation_digest_key_version b
               /\ bl_preparation_digest a = bl_preparation_digest b).

(** The foreign keys to the application session and the browser session. *)
Definition browser_logout_owner (db : Database) (row : BrowserLogoutRow) : bool :=
  is_some_and (db_sessions db !! bl_application_session_id row)
    (fun s => (as_project_id s =? bl_project_id row)
              && (as_application_id s =? bl_application_id row)
              && (as_user_id s =? bl_user_id row))
  && is_some_and (db_browsers db !! bl_browser_session_id row)
       (fun b => (bs_project_id b =? bl_project_id row) && (bs_user_id b =? bl_user_id row)).

(** PostgreSQL's rendering of a [jsonb] value as text, which one check measures. *)
Class JsonbText := { jsonb_text_len : json -> Z }.

Definition object_keys (v : json) : list string :=
  match v with
  | JObject fields => map fst fields
  | _ => []
  end.

Definition PROJECTION_FIELDS_V1 : list string :=
  ["user_id"; "user_revision"; "projection_schema"; "projection_revision"; "display_name";
   "picture_url"; "status"; "created_at"; "updated_at"]%string.

(** [document ?& keys AND (document - keys) = '{}']: exactly these keys. *)
Definition has_exactly (keys : list string) (v : json) : bool :=
  forallb (fun k => bool_decide (k ∈ object_keys v)) keys
  && forallb (fun k => bool_decide (k ∈ keys)) (object_keys v).

Definition safe_document_check (document : json) : bool :=
  match document with
  | JObject _ =>
      match json_get "projection_schema" document with
      | Some (JString schema) => bool_decide (schema = "owlauth.user.v1"%string)
      | _ => false
      end
      && ((has_exactly ("locale" :: "verified_email" :: PROJECTION_FIELDS_V1)%string document
           && match json_get "verified_email" document with
              | Some JNull => true
              | _ => false
              end)
          || has_exactly PROJECTION_FIELDS_V1 document)
  | _ => false
  end.

(** The comparison with a missing key version is [NULL], which passes a check. *)
Definition projection_email_check (row : ProjectionRow) : bool :=
  match pn_verified_email_source_identity_id row, pn_verified_email_ciphertext row,
        pn_verified_email_key_version row with
  | None, None, None => true
  | Some _, Some ciphertext, Some key_version =>
      in_range 40 4096 (list_len ciphertext) && (0 <? key_version)
  | Some _, Some ciphertext, None => in_range 40 4096 (list_len ciphertext)
  | _, _, _ => false
  end.

Definition projection_check `{JsonbText} (row : ProjectionRow) : bool :=
  (list_len (pn_canonical_digest row) =? 32)
  && (jsonb_text_len (pn_document row) <=? 16384)
  && (0 <? pn_projection_revision row)
  && bool_decide (pn_schema_name row = "owlauth.user.v1"%string)
  && (0 <? pn_source_user_revision row)
  && projection_email_check row
  && safe_document_check (pn_document row)
  && (list_len (pn_source_base_profile_digest row) =? 32).

Definition projection_conflict (a b : ProjectionRow) : bool :=
  bool_decide (pn_project_id a = pn_project_id b /\ pn_binding_id a = pn_binding_id b).

(** The foreign keys to the binding and to the email identity. *)
Definition projection_owner (db : Database) (row : ProjectionRow) : bool :=
  is_some_and (db_bindings db !! pn_binding_id row)
    (fun b => (ub_project_id b =? pn_project_id row)
              && (ub_application_id b =? pn_application_id row)
              && (ub_user_id b =? pn_user_id row))
  && match pn_verified_email_source_identity_id row with
     | None => true
     | Some identity_id =>
         is_some_and (db_email_identities db !! identity_id)
           (fun e => (ei_project_id e =? pn_project_id row) && (ei_user_id e =? pn_user_id row))
     end.

(** ** Foreign keys shared by several tables *)
Definition application_exists (db : Database) (project_id application_id : Uuid) : bool :=
  is_some (find_by_id (db_applications db) application_id
             (fun a => ap_project_id a =? project_id)).
Definition user_exists (db : Database) (project_id user_id : Uuid) : bool :=
  is_some (find_by_id (db_users db) user_id (fun u => us_project_id u =? project_id)).

(** A nullable foreign key. *)
Definition optional_key (exists_ : Uuid -> bool) (key : option Uuid) : bool :=
  match key with
  | Some id => exists_ id
  | None => true
  end.

Definition binding_check (row : UserBindingRow) : bool :=
  (0 <? ub_binding_revision row)
  && (if bool_decide (ub_status row = "merged"%string)
      then is_some_and (ub_merged_into_binding_id row) (fun id => negb (id =? ub_id row))
           && is_some (ub_merged_at row)
      else is_none (ub_merged_into_binding_id row) && is_none (ub_merged_at row))
  && bool_decide (ub_status row ∈ ["active"; "disabled"; "merged"]%string).

Definition binding_conflict (a b : UserBindingRow) : bool :=
  bool_decide (ub_project_id a = ub_project_id b /\ ub_application_id a = ub_application_id b
               /\ ub_user_id a = ub_user_id b).

(** The foreign keys of a binding, and the deferred trigger that keeps live
    bindings away from merged users. *)
Definition binding_owner (db : Database) (row : UserBindingRow) : bool :=
  application_exists db (ub_project_id row) (ub_application_id row)
  && is_some_and (find_by_id (db_users db) (ub_user_id row)
                    (fun u => us_project_id u =? ub_project_id row))
       (fun u => negb (bool_decide (us_status u = "merged"%string))
                 || bool_decide (ub_status row = "merged"%string)).

(** The foreign keys of an application session, and the trigger that makes it
    belong to the user of its binding. *)
Definition session_owner (db : Database) (row : ApplicationSessionRow) : bool :=
  is_some_and (db_bindings db !! as_binding_id row)
    (fun b => (ub_project_id b =? as_project_id row)
              && (ub_application_id b =? as_application_id row)
              && (ub_user_id b =? as_user_id row))
  && user_exists db (as_project_id row) (as_user_id row)
  && optional_key (fun id => is_some (find_by_id (db_browsers db) id (fun b =>
                     (bs_project_id b =? as_project_id row)
                     && (bs_user_id b =? as_user_id row)))) (as_browser_session_id row).

Definition family_owner (db : Database) (row : RefreshFamilyRow) : bool :=
  is_some_and (db_sessions db !! rf_application_session_id row)
    (fun s => (as_project_id s =? rf_project_id row)
              && (as_application_id s =? rf_application_id row)
              && (as_user_id s =? rf_user_id row)).

Definition family_conflict (a b : RefreshFamilyRow) : bool :=
  bool_decide (rf_project_id a = rf_project_id b
               /\ rf_application_session_id a = rf_application_session_id b).

(** ** Statements and transactions *)
Definition txn (A : Type) : Type := mut Database ApplicationError A.

(** A transaction that fails is dropped before it commits. *)
Definition transaction {A : Type} (body : txn A) : txn A := fun db =>
  match body db with
  | (db', Ok a) => (db', Ok a)
  | (_, Err e) => (db, Err e)
  end.

(** A transaction that commits and then returns a value or an error: the body
    fails to roll back, and succeeds with what the caller gets after the commit. *)
Definition committed {A : Type} (body : txn (result ApplicationError A)) : txn A :=
  r <~ transaction body ;; mlift r.

Definition check_that (c : bool) (e : ApplicationError) : txn unit :=
  if c then mret tt else mfail e.

Definition insert_generation (row : RefreshGenerationRow) : txn unit :=
  db <~ mget ;;
  check_that (is_none (db_generations db !! rg_id row) && refresh_generation_accepts db row)
    AppError.Persistence ;;~
  mmodify (set_db_generations (<[rg_id row := row]> (db_generations db))).

Definition update_generation (row : RefreshGenerationRow) : txn unit :=
  db <~ mget ;;
  check_that (is_some (db_generations db !! rg_id row) && refresh_generation_accepts db row)
    AppError.Persistence ;;~
  mmodify (set_db_generations (<[rg_id row := row]> (db_generations db))).

Definition update_family (row : RefreshFamilyRow) : txn unit :=
  db <~ mget ;;
  check_that (is_some (db_families db !! rf_id row) && refresh_family_check row)
    AppError.Persistence ;;~
  mmodify (set_db_families (<[rf_id row := row]> (db_families db))).

Definition update_session (row : ApplicationSessionRow) : txn unit :=
  db <~ mget ;;
  check_that (is_some (db_sessions db !! as_id row) && application_session_check row)
    AppError.Persistence ;;~
  mmodify (set_db_sessions (<[as_id row := row]> (db_sessions db))).

Definition update_browser (row : BrowserSessionRow) : txn unit :=
  db <~ mget ;;
  check_that (is_some (db_browsers db !! bs_id row)
              && (browser_session_check row
                  && unique_in browser_session_conflict (bs_id row) row (db_browsers db)))
    AppError.Persistence ;;~
  mmodify (set_db_browsers (<[bs_id row := row]> (db_browsers db))).

Definition browser_logout_accepts (db : Database) (row : BrowserLogoutRow) : bool :=
  browser_logout_check row && browser_logout_owner db row
  && unique_in browser_logout_conflict (bl_id row) row (db_logouts db).

Definition insert_logout (row : BrowserLogoutRow) : txn unit :=
  db <~ mget ;;
  check_that (is_none (db_logouts db !! bl_id row) && browser_logout_accepts db row)
    AppError.Persistence ;;~
  mmodify (set_db_logouts (<[bl_id row := row]> (db_logouts db))).

Definition update_logout (row : BrowserLogoutRow) : txn unit :=
  db <~ mget ;;
  check_that (is_some (db_logouts db !! bl_id row) && browser_logout_accepts db row)
    AppError.Persistence ;;~
  mmodify (set_db_logouts (<[bl_id row := row]> (db_logouts db))).

Definition projection_accepts `{JsonbText} (db : Database) (row : ProjectionRow) : bool :=
  projection_check row && projection_owner db row
  && unique_in projection_conflict (pn_id row) row (db_projections db).

Definition update_projection `{JsonbText} (row : ProjectionRow) : txn unit :=
  db <~ mget ;;
  check_that (is_some (db_projections db !! pn_id row) && projection_accepts db row)
    AppError.Persistence ;;~
  mmodify (set_db_projections (<[pn_id row := row]> (db_projections db))).

Definition insert_projection `{JsonbText} (row : ProjectionRow) : txn unit :=
  db <~ mget ;;
  check_that (is_none (db_projections db !! pn_id row) && projection_accepts db row)
    AppError.Persistence ;;~
  mmodify (set_db_projections (<[pn_id row := row]> (db_projections db))).

Definition binding_accepts (db : Database) (row : UserBindingRow) : bool :=
  binding_check row && binding_owner db row
  && unique_in binding_conflict (ub_id row) row (db_bindings db).

Definition insert_binding (row : UserBindingRow) : txn unit :=
  db <~ mget ;;
  check_that (is_none (db_bindings db !! ub_id row) && binding_accepts db row)
    AppError.Persistence ;;~
  mmodify (set_db_bindings (<[ub_id row := row]> (db_bindings db))).

Definition session_accepts (db : Database) (row : ApplicationSessionRow) : bool :=
  application_session_check row && session_owner db row.

Definition insert_session (row : ApplicationSessionRow) : txn unit :=
  db <~ mget ;;
  check_that (is_none (db_sessions db !! as_id row) && session_accepts db row)
    AppError.Persistence ;;~
  mmodify (set_db_sessions (<[as_id row := row]> (db_sessions db))).

Definition family_accepts (db : Database) (row : RefreshFamilyRow) : bool :=
  refresh_family_check row && family_owner db row
  && unique_in family_conflict (rf_id row) row (db_families db).

Definition insert_family (row : RefreshFamilyRow) : txn unit :=
  db <~ mget ;;
  check_that (is_none (db_families db !! rf_id row) && family_accepts db row)
    AppError.Persistence ;;~
  mmodify (set_db_families (<[rf_id row := row]> (db_families db))).

(** [append_runtime_audit]: [adapters/postgres/audit.rs]. *)
Definition append_runtime_audit (project_id : Uuid)
    (actor_kind action target_kind : string) (target_id : option Uuid) (correlation_id : Uuid) :
    txn unit :=
  mmodify (fun db =>
    set_db_audit (db_audit db ++
      [{| ae_project_id := Some project_id; ae_actor_kind := actor_kind; ae_action := action;
          ae_target_kind := target_kind; ae_target_id := target_id; ae_outcome := "succeeded";
          ae_correlation_id := correlation_id; ae_safe_context := JObject [] |}]) db).

(** ** Lemmas *)
Lemma transaction_ok {A} (body : txn A) db db' a :
  transaction body db = (db', Ok a) <-> body db = (db', Ok a).
Proof. unfold transaction; destruct (body db) as [d [x|e]]; naive_solver. Qed.

(** Rollback: a failed transaction changes nothing. *)
Lemma transaction_err {A} (body : txn A) db db' e :
  transaction body db = (db', Err e) -> db' = db.
Proof. unfold transaction; destruct (body db) as [d [x|e']]; naive_solver. Qed.

Lemma find_by_id_some {Row} (t : gmap Z Row) id p row :
  find_by_id t id p = Some row <-> t !! id = Some row /\ p row = true.
Proof.
  unfold find_by_id; destruct (t !! id) as [r|]; simpl; [|naive_solver].
  destruct (p r) eqn:Hp; naive_solver congruence.
Qed.

Lemma find_one_some {Row} (t : gmap Z Row) p row :
  find_one t p = Some row -> exists id, t !! id = Some row /\ p row = true.
Proof.
  unfold find_one; intros [Hin Hp]%List.find_some.
  apply in_map_iff in Hin as ([id r] & Hr & Hin); simpl in Hr; subst.
  exists id; split; [|done]; by apply elem_of_map_to_list, list_elem_of_In.
Qed.

Lemma find_one_none {Row} (t : gmap Z Row) p id row :
  find_one t p = None -> t !! id = Some row -> p row = false.
Proof.
  unfold find_one; intros Hf Hid; apply (List.find_none _ _ Hf).
  apply in_map_iff; exists (id, row); split; [done|].
  by apply list_elem_of_In, elem_of_map_to_list.
Qed.

Lemma find_first_some {Row} (t : gmap Z Row) p before row :
  find_first t p before = Some row -> exists id, t !! id = Some row /\ p row = true.
Proof.
  unfold find_first; intros Hf.
  assert (forall (l : list Row) best, 
            (forall b, best = Some b -> In b (map snd (map_to_list t)) /\ p b = true) ->
            (forall x, In x l -> In x (map snd (map_to_list t))) ->
            forall r, fold_left (fun best row => if p row then match best with
                Some b => if before row b then Some row else best | None => Some row end else best) l best
              = Some r -> In r (map snd (map_to_list t)) /\ p r = true) as Hgen.
  { induction l as [|x l IH]; simpl; intros best Hb Hl r; [by apply Hb|].
    apply IH; [|auto]; intros b; destruct (p x) eqn:Hp; [|by apply Hb].
    destruct best as [b'|]; [destruct (before x b'); [|by apply Hb]|]; intros [= <-]; auto. }
  destruct (Hgen _ None ltac:(done) ltac:(done) _ Hf) as [Hin Hp].
  apply in_map_iff in Hin as ([id r] & Hr & Hin); simpl in Hr; subst.
  exists id; split; [|done]; by apply elem_of_map_to_list, list_elem_of_In.
Qed.

Lemma find_all_in {Row} (t : gmap Z Row) p before `{!RelDecision before} limit row :
  row ∈ find_all t p before limit -> exists id, t !! id = Some row /\ p row = true.
Proof.
  unfold find_all; intros Hin; apply elem_of_take in Hin as (i & Hi & _).
  apply list_elem_of_lookup_2 in Hi; rewrite merge_sort_Permutation in Hi.
  apply list_elem_of_In, filter_In in Hi as [Hi Hp].
  apply in_map_iff in Hi as ([id r] & Hr & Hi); simpl in Hr; subst.
  exists id; split; [|done]; by apply elem_of_map_to_list, list_elem_of_In.
Qed.

(** A query that returns fewer rows than its limit returned them all. *)
Lemma find_all_complete {Row} (t : gmap Z Row) p before `{!RelDecision before} limit id row :
  list_len (find_all t p before limit) < limit -> t !! id = Some row -> p row = true ->
  row ∈ find_all t p before limit.
Proof.
  unfold find_all, list_len; rewrite length_take; intros Hlen Hid Hp.
  set (l := merge_sort _ _) in *.
  rewrite take_ge by lia; subst l; rewrite merge_sort_Permutation.
  apply list_elem_of_In, filter_In; split; [|done].
  apply in_map_iff; exists (id, row); split; [done|].
  by apply list_elem_of_In, elem_of_map_to_list.
Qed.

Lemma unique_in_true {Row} (conflict : Row -> Row -> bool) id row (t : gmap Z Row) :
  unique_in conflict id row t = true <->
  forall j b, j <> id -> t !! j = Some b -> conflict row b = false.
Proof.
  unfold unique_in; rewrite forallb_forall; split.
  - intros Hf j b Hj Hb; apply negb_true_iff, Hf, in_map_iff; exists (j, b); split; [done|].
    apply list_elem_of_In, elem_of_map_to_list; by rewrite lookup_delete_ne.
  - intros Hf b ([j b'] & <- & Hin)%in_map_iff.
    apply list_elem_of_In, elem_of_map_to_list, lookup_delete_Some in Hin as [Hj Hb].
    simpl; apply negb_true_iff; eauto.
Qed.

(** [committed] keeps the writes also when it returns an error. *)
Lemma committed_ok {A} (body : txn (result ApplicationError A)) db db' a :
  committed body db = (db', Ok a) <-> body db = (db', Ok (Ok a)).
Proof.
  unfold committed, mseq, mlift, transaction; destruct (body db) as [d [[x|e]|e]]; naive_solver.
Qed.

Lemma committed_effect {A} (body : txn (result ApplicationError A)) db db' r :
  committed body db = (db', r) -> db' = db \/ body db = (db', Ok r).
Proof.
  unfold committed, mseq, mlift, transaction; destruct (body db) as [d [[x|e']|e']]; naive_solver.
Qed.

(** ** What a successful statement did *)
Lemma check_that_ok c e db db' :
  check_that c e db = (db', Ok tt) <-> c = true /\ db' = db.
Proof. unfold check_that, mret, mfail; destruct c; naive_solver. Qed.

Lemma mlift_ok {S E A} (r : result E A) (s s' : S) a :
  mlift r s = (s', Ok a) <-> r = Ok a /\ s' = s.
Proof. unfold mlift; naive_solver. Qed.

Lemma if_mfail_ok {S E A} (c : bool) (e : E) (k : mut S E A) s s' a :
  (if c then mfail e else k) s = (s', Ok a) <-> c = false /\ k s = (s', Ok a).
Proof. unfold mfail; destruct c; naive_solver. Qed.

(** A statement that checks its constraints and writes. *)
Ltac solve_statement :=
  unfold mseq, mget, check_that; destruct (_ && _) eqn:Hc; unfold mret, mfail, mmodify;
  [ apply andb_true_iff in Hc as [? ?]; split; [by intros [= <-] | by intros (_ & _ & ->)]
  | split; [done | intros (H1 & H2 & _); by rewrite H1, H2 in Hc] ].

Lemma update_generation_ok row db db' :
  update_generation row db = (db', Ok tt) <->
  is_some (db_generations db !! rg_id row) = true /\ refresh_generation_accepts db row = true
  /\ db' = set_db_generations (<[rg_id row := row]> (db_generations db)) db.
Proof. unfold update_generation; solve_statement. Qed.

Lemma insert_generation_ok row db db' :
  insert_generation row db = (db', Ok tt) <->
  is_none (db_generations db !! rg_id row) = true /\ refresh_generation_accepts db row = true
  /\ db' = set_db_generations (<[rg_id row := row]> (db_generations db)) db.
Proof. unfold insert_generation; solve_statement. Qed.

Lemma update_family_ok row db db' :
  update_family row db = (db', Ok tt) <->
  is_some (db_families db !! rf_id row) = true /\ refresh_family_check row = true
  /\ db' = set_db_families (<[rf_id row := row]> (db_families db)) db.
Proof. unfold update_family; solve_statement. Qed.

Lemma update_session_ok row db db' :
  update_session row db = (db', Ok tt) <->
  is_some (db_sessions db !! as_id row) = true /\ application_session_check row = true
  /\ db' = set_db_sessions (<[as_id row := row]> (db_sessions db)) db.
Proof. unfold update_session; solve_statement. Qed.

Lemma update_browser_ok row db db' :
  update_browser row db = (db', Ok tt) <->
  is_some (db_browsers db !! bs_id row) = true
  /\ (browser_session_check row
      && unique_in browser_session_conflict (bs_id row) row (db_browsers db)) = true
  /\ db' = set_db_browsers (<[bs_id row := row]> (db_browsers db)) db.
Proof. unfold update_browser; solve_statement. Qed.

Lemma insert_logout_ok row db db' :
  insert_logout row db = (db', Ok tt) <->
  is_none (db_logouts db !! bl_id row) = true /\ browser_logout_accepts db row = true
  /\ db' = set_db_logouts (<[bl_id row := row]> (db_logouts db)) db.
Proof. unfold insert_logout; solve_statement. Qed.

Lemma update_logout_ok row db db' :
  update_logout row db = (db', Ok tt) <->
  is_some (db_logouts db !! bl_id row) = true /\ browser_logout_accepts db row = true
  /\ db' = set_db_logouts (<[bl_id row := row]> (db_logouts db)) db.
Proof. unfold update_logout; solve_statement. Qed.

Lemma update_projection_ok `{JsonbText} row db db' :
  update_projection row db = (db', Ok tt) <->
  is_some (db_projections db !! pn_id row) = true /\ projection_accepts db row = true
  /\ db' = set_db_projections (<[pn_id row := row]> (db_projections db)) db.
Proof. unfold update_projection; solve_statement. Qed.

Lemma insert_projection_ok `{JsonbText} row db db' :
  insert_projection row db = (db', Ok tt) <->
  is_none (db_projections db !! pn_id row) = true /\ projection_accepts db row = true
  /\ db' = set_db_projections (<[pn_id row := row]> (db_projections db)) db.
Proof. unfold insert_projection; solve_statement. Qed.

Lemma insert_binding_ok row db db' :
  insert_binding row db = (db', Ok tt) <->
  is_none (db_bindings db !! ub_id row) = true /\ binding_accepts db row = true
  /\ db' = set_db_bindings (<[ub_id row := row]> (db_bindings db)) db.
Proof. unfold insert_binding; solve_statement. Qed.

Lemma insert_session_ok row db db' :
  insert_session row db = (db', Ok tt) <->
  is_none (db_sessions db !! as_id row) = true /\ session_accepts db row = true
  /\ db' = set_db_sessions (<[as_id row := row]> (db_sessions db)) db.
Proof. unfold insert_session; solve_statement. Qed.

Lemma insert_family_ok row db db' :
  insert_family row db = (db', Ok tt) <->
  is_none (db_families db !! rf_id row) = true /\ family_accepts db row = true
  /\ db' = set_db_families (<[rf_id row := row]> (db_families db)) db.
Proof. unfold insert_family; solve_statement. Qed.

Lemma append_runtime_audit_ok p a c k t i db db' u :
  append_runtime_audit p a c k t i db = (db', Ok u) <->
  exists event, db' = set_db_audit (db_audit db ++ [event]) db
    /\ event = mkAuditEventRow (Some p) a c k t "succeeded" i (JObject []).
Proof. unfold append_runtime_audit, mmodify; destruct u; naive_solver. Qed.

(** Invert a successful transaction body. *)
Ltac inv_txn :=
  repeat match goal with
  | H : mseq _ _ _ = (_, Ok _) |- _ => apply mseq_ok in H; destruct H as (? & ? & ? & H)
  | H : mget _ = (_, Ok _) |- _ => unfold mget in H; injection H as <- <-
  | H : mret _ _ = (_, Ok _) |- _ => unfold mret in H; injection H; intros; subst; clear H
  | H : mfail _ _ = (_, Ok _) |- _ => unfold mfail in H; discriminate H
  | H : mlift _ _ = (_, Ok _) |- _ => apply mlift_ok in H; destruct H as [H ->]
  | H : (if _ then mfail _ else _) _ = (_, Ok _) |- _ => apply if_mfail_ok in H; destruct H as [? H]
  | H : update_generation _ _ = (_, Ok ?u) |- _ =>
      destruct u; apply update_generation_ok in H; destruct H as (? & ? & ->)
  | H : insert_generation _ _ = (_, Ok ?u) |- _ =>
      destruct u; apply insert_generation_ok in H; destruct H as (? & ? & ->)
  | H : update_family _ _ = (_, Ok ?u) |- _ =>
      destruct u; apply update_family_ok in H; destruct H as (? & ? & ->)
  | H : update_session _ _ = (_, Ok ?u) |- _ =>
      destruct u; apply update_session_ok in H; destruct H as (? & ? & ->)
  | H : update_browser _ _ = (_, Ok ?u) |- _ =>
      destruct u; apply update_browser_ok in H; destruct H as (? & ? & ->)
  | H : insert_logout _ _ = (_, Ok ?u) |- _ =>
      destruct u; apply insert_logout_ok in H; destruct H as (? & ? & ->)
  | H : update_logout _ _ = (_, Ok ?u) |- _ =>
      destruct u; apply update_logout_ok in H; destruct H as (? & ? & ->)
  | H : update_projection _ _ = (_, Ok ?u) |- _ =>
      destruct u; apply update_projection_ok in H; destruct H as (? & ? & ->)
  | H : insert_projection _ _ = (_, Ok ?u) |- _ =>
      destruct u; apply insert_projection_ok in H; destruct H as (? & ? & ->)
  | H : insert_binding _ _ = (_, Ok ?u) |- _ =>
      destruct u; apply insert_binding_ok in H; destruct H as (? & ? & ->)
  | H : insert_session _ _ = (_, Ok ?u) |- _ =>
      destruct u; apply insert_session_ok in H; destruct H as (? & ? & ->)
  | H : insert_family _ _ = (_, Ok ?u) |- _ =>
      destruct u; apply insert_family_ok in H; destruct H as (? & ? & ->)
  | H : append_runtime_audit _ _ _ _ _ _ _ = (_, Ok _) |- _ =>
      apply append_runtime_audit_ok in H; destruct H as (? & -> & ?)
  | H : check_that _ _ _ = (_, Ok ?u) |- _ =>
      destruct u; apply check_that_ok in H; destruct H as [? ->]
  | H : committed _ _ = (_, Ok _) |- _ => apply (proj1 (committed_ok _ _ _ _)) in H
  | H : transaction _ _ = (_, Ok _) |- _ => apply (proj1 (transaction_ok _ _ _ _)) in H
  end.
