(* ===== verification/LoginStore.v ===== *)
(** * Statements on the login tables

    Inserts and updates of the tables of [LoginTables], with the foreign keys
    that tie them to the rest of the store, and what a successful statement did. *)
From S2P Require Import Prelude.
From S2P Require Import Json.
From S2P Require Import LoginTables.
From S2P Require Import WebhookTables.
From S2P Require Import Database.

Definition db_logins (db : Database) := lt_logins (db_login db).
Definition db_methods (db : Database) := lt_methods (db_login db).
Definition db_tickets (db : Database) := lt_tickets (db_login db).
Definition db_providers (db : Database) := lt_providers (db_login db).
Definition db_assignments (db : Database) := lt_assignments (db_login db).
Definition db_callback_owners (db : Database) := lt_callback_owners (db_login db).

Definition set_db_logins t (db : Database) := set_db_login (set_lt_logins t (db_login db)) db.
Definition set_db_methods t (db : Database) := set_db_login (set_lt_methods t (db_login db)) db.
Definition set_db_email_methods t (db : Database) :=
  set_db_login (set_lt_email_methods t (db_login db)) db.
Definition set_db_tickets t (db : Database) := set_db_login (set_lt_tickets t (db_login db)) db.
Definition set_db_callback_owners t (db : Database) :=
  set_db_login (set_lt_callback_owners t (db_login db)) db.

(** ** Foreign keys *)
Definition provider_exists (db : Database) (project_id provider_id : Uuid) : bool :=
  is_some (find_by_id (db_providers db) provider_id (fun p => pc_project_id p =? project_id)).
Definition login_exists (db : Database) (project_id login_id : Uuid) : bool :=
  is_some (find_by_id (db_logins db) login_id (fun l => lg_project_id l =? project_id)).

Definition login_owner (db : Database) (row : LoginTransactionRow) : bool :=
  application_exists db (lg_project_id row) (lg_application_id row)
  && optional_key (provider_exists db (lg_project_id row)) (lg_provider_configuration_id row)
  && optional_key (user_exists db (lg_project_id row)) (lg_user_id row).

Definition login_accepts (db : Database) (row : LoginTransactionRow) : bool :=
  login_check row && login_owner db row
  && unique_in login_conflict (lg_id row) row (db_logins db).

Definition method_accepts (db : Database) (row : LoginMethodRow) : bool :=
  method_row_check row && validate_provider_method_snapshot row
  && optional_key (provider_exists db (lm_project_id row)) (lm_provider_configuration_id row)
  && login_exists db (lm_project_id row) (lm_transaction_id row).

Definition email_method_accepts (db : Database) (row : LoginEmailMethodRow) : bool :=
  login_email_method_check row
  && application_exists db (le_project_id row) (le_application_id row)
  && optional_key (fun id => is_some (find_by_id (lt_project_smtp (db_login db)) id
                               (fun s => sc_project_id s =? le_project_id row)))
       (le_smtp_configuration_id row)
  && login_exists db (le_project_id row) (le_transaction_id row).

Definition ticket_owner (db : Database) (row : HandoffTicketRow) : bool :=
  application_exists db (ht_project_id row) (ht_application_id row)
  && is_some (find_by_id (db_browsers db) (ht_browser_session_id row)
                (fun b => (bs_project_id b =? ht_project_id row)
                          && (bs_user_id b =? ht_user_id row)))
  && login_exists db (ht_project_id row) (ht_login_transaction_id row)
  && optional_key (provider_exists db (ht_project_id row)) (ht_provider_configuration_id row)
  && user_exists db (ht_project_id row) (ht_user_id row).

Definition ticket_accepts (db : Database) (row : HandoffTicketRow) : bool :=
  handoff_ticket_check row && ticket_owner db row
  && unique_in handoff_ticket_conflict (ht_id row) row (db_tickets db).

Definition callback_owner_accepts (db : Database) (row : CallbackOwnerRow) : bool :=
  bool_decide (co_owner_kind row = "login"%string)
  && bool_decide (co_login_transaction_id row = Some (co_state_id row))
  && optional_key (login_exists db (co_project_id row)) (co_login_transaction_id row)
  && provider_exists db (co_project_id row) (co_provider_configuration_id row).

(** ** Statements *)
Definition insert_login (row : LoginTransactionRow) : txn unit :=
  db <~ mget ;;
  check_that (is_none (db_logins db !! lg_id row) && login_accepts db row)
    AppError.Persistence ;;~
  mmodify (set_db_logins (<[lg_id row := row]> (db_logins db))).

Definition update_login (row : LoginTransactionRow) : txn unit :=
  db <~ mget ;;
  check_that (is_some (db_logins db !! lg_id row) && login_accepts db row)
    AppError.Persistence ;;~
  mmodify (set_db_logins (<[lg_id row := row]> (db_logins db))).

Definition method_key_of (row : LoginMethodRow) : Z * Z * string :=
  (lm_project_id row, lm_transaction_id row, lm_method_key row).

Definition insert_method (row : LoginMethodRow) : txn unit :=
  db <~ mget ;;
  check_that (is_none (db_methods db !! method_key_of row) && method_accepts db row)
    AppError.Persistence ;;~
  mmodify (set_db_methods (<[method_key_of row := row]> (db_methods db))).

(** [insert_many]: one statement, row by row. *)
Fixpoint insert_methods (rows : list LoginMethodRow) : txn unit :=
  match rows with
  | [] => mret tt
  | row :: rest => insert_method row ;;~ insert_methods rest
  end.

Definition insert_email_method (row : LoginEmailMethodRow) : txn unit :=
  db <~ mget ;;
  check_that (is_none (lt_email_methods (db_login db) !! (le_project_id row, le_transaction_id row))
              && email_method_accepts db row) AppError.Persistence ;;~
  mmodify (set_db_email_methods
             (<[(le_project_id row, le_transaction_id row) := row]>
                (lt_email_methods (db_login db)))).

Definition insert_ticket (row : HandoffTicketRow) : txn unit :=
  db <~ mget ;;
  check_that (is_none (db_tickets db !! ht_id row) && ticket_accepts db row)
    AppError.Persistence ;;~
  mmodify (set_db_tickets (<[ht_id row := row]> (db_tickets db))).

Definition update_ticket (row : HandoffTicketRow) : txn unit :=
  db <~ mget ;;
  check_that (is_some (db_tickets db !! ht_id row) && ticket_accepts db row)
    AppError.Persistence ;;~
  mmodify (set_db_tickets (<[ht_id row := row]> (db_tickets db))).

Definition insert_callback_owner (row : CallbackOwnerRow) : txn unit :=
  db <~ mget ;;
  check_that (is_none (db_callback_owners db !! co_state_id row) && callback_owner_accepts db row)
    AppError.Persistence ;;~
  mmodify (set_db_callback_owners (<[co_state_id row := row]> (db_callback_owners db))).

(** [DELETE FROM provider_callback_owners WHERE state_id = $1 AND owner_kind =
    'login' AND login_transaction_id = $1]. *)
Definition delete_login_callback_owner (login_id : Uuid) : txn unit :=
  mmodify (fun db =>
    match find_by_id (db_callback_owners db) login_id
            (fun o => bool_decide (co_owner_kind o = "login"%string)
                      && bool_decide (co_login_transaction_id o = Some login_id)) with
    | Some _ => set_db_callback_owners (delete login_id (db_callback_owners db)) db
    | None => db
    end).

(** The deferred trigger [owlauth_enforce_provider_callback_owner] at commit: a
    login with an upstream state has its callback owner. *)
Definition callback_owner_present (db : Database) (login_id project_id : Uuid) : bool :=
  match find_by_id (db_logins db) login_id
          (fun l => (lg_project_id l =? project_id) && is_some (lg_upstream_state_digest l)) with
  | None => true
  | Some login =>
      is_some (find_by_id (db_callback_owners db) login_id
                 (fun o => (co_project_id o =? lg_project_id login)
                           && bool_decide (lg_provider_configuration_id login
                                           = Some (co_provider_configuration_id o))
                           && bool_decide (co_owner_kind o = "login"%string)
                           && bool_decide (co_login_transaction_id o = Some login_id)))
  end.

Definition check_callback_owner (login_id project_id : Uuid) : txn unit :=
  db <~ mget ;;
  check_that (callback_owner_present db login_id project_id) AppError.Persistence.

(** ** What a successful statement did *)
Lemma insert_login_ok row db db' :
  insert_login row db = (db', Ok tt) <->
  is_none (db_logins db !! lg_id row) = true /\ login_accepts db row = true
  /\ db' = set_db_logins (<[lg_id row := row]> (db_logins db)) db.
Proof. unfold insert_login; solve_statement. Qed.

Lemma update_login_ok row db db' :
  update_login row db = (db', Ok tt) <->
  is_some (db_logins db !! lg_id row) = true /\ login_accepts db row = true
  /\ db' = set_db_logins (<[lg_id row := row]> (db_logins db)) db.
Proof. unfold update_login; solve_statement. Qed.

Lemma insert_ticket_ok row db db' :
  insert_ticket row db = (db', Ok tt) <->
  is_none (db_tickets db !! ht_id row) = true /\ ticket_accepts db row = true
  /\ db' = set_db_tickets (<[ht_id row := row]> (db_tickets db)) db.
Proof. unfold insert_ticket; solve_statement. Qed.

Lemma update_ticket_ok row db db' :
  update_ticket row db = (db', Ok tt) <->
  is_some (db_tickets db !! ht_id row) = true /\ ticket_accepts db row = true
  /\ db' = set_db_tickets (<[ht_id row := row]> (db_tickets db)) db.
Proof. unfold update_ticket; solve_statement. Qed.

Lemma insert_method_ok row db db' :
  insert_method row db = (db', Ok tt) <->
  is_none (db_methods db !! method_key_of row) = true /\ method_accepts db row = true
  /\ db' = set_db_methods (<[method_key_of row := row]> (db_methods db)) db.
Proof. unfold insert_method; solve_statement. Qed.

Lemma insert_email_method_ok row db db' :
  insert_email_method row db = (db', Ok tt) <->
  is_none (lt_email_methods (db_login db) !! (le_project_id row, le_transaction_id row)) = true
  /\ email_method_accepts db row = true
  /\ db' = set_db_email_methods (<[(le_project_id row, le_transaction_id row) := row]>
             (lt_email_methods (db_login db))) db.
Proof. unfold insert_email_method; solve_statement. Qed.

Lemma insert_callback_owner_ok row db db' :
  insert_callback_owner row db = (db', Ok tt) <->
  is_none (db_callback_owners db !! co_state_id row) = true
  /\ callback_owner_accepts db row = true
  /\ db' = set_db_callback_owners (<[co_state_id row := row]> (db_callback_owners db)) db.
Proof. unfold insert_callback_owner; solve_statement. Qed.

Lemma check_callback_owner_ok id p db db' u :
  check_callback_owner id p db = (db', Ok u) ->
  db' = db /\ callback_owner_present db id p = true.
Proof. unfold check_callback_owner; intros Hc; inv_txn; done. Qed.

(** Invert the statements on the login tables. *)
Ltac inv_login :=
  inv_txn;
  repeat (match goal with
  | H : insert_login _ _ = (_, Ok ?u) |- _ =>
      destruct u; apply insert_login_ok in H; destruct H as (? & ? & ->)
  | H : update_login _ _ = (_, Ok ?u) |- _ =>
      destruct u; apply update_login_ok in H; destruct H as (? & ? & ->)
  | H : insert_ticket _ _ = (_, Ok ?u) |- _ =>
      destruct u; apply insert_ticket_ok in H; destruct H as (? & ? & ->)
  | H : update_ticket _ _ = (_, Ok ?u) |- _ =>
      destruct u; apply update_ticket_ok in H; destruct H as (? & ? & ->)
  | H : insert_method _ _ = (_, Ok ?u) |- _ =>
      destruct u; apply insert_method_ok in H; destruct H as (? & ? & ->)
  | H : insert_email_method _ _ = (_, Ok ?u) |- _ =>
      destruct u; apply insert_email_method_ok in H; destruct H as (? & ? & ->)
  | H : insert_callback_owner _ _ = (_, Ok ?u) |- _ =>
      destruct u; apply insert_callback_owner_ok in H; destruct H as (? & ? & ->)
  | H : check_callback_owner _ _ _ = (_, Ok ?u) |- _ =>
      apply check_callback_owner_ok in H; destruct H as [-> ?]
  end; inv_txn).
