(* ===== verification/Projection.v ===== *)
(** * User projections: [adapters/postgres/projection.rs]

    A projection is what an application sees of a user: a JSON document with the
    public profile and, when the user's primary source is an email identity, the
    verified address.  The stored row never holds the address in clear: the
    document has [null] in its place, the address sits next to it encrypted for
    exactly this project, application, user and revision, and a digest covers the
    document with the address in it.

    [ProjectionCryptography] is the trait of the source; [nonce] is the random
    input of one encryption.  The JSON writer with SHA-256 and the RFC 3339
    formatter are the classes [CanonicalHash] and [TimeFormat]. *)
From S2P Require Import Prelude.
From S2P Require Import Lifecycle.
From S2P Require Import Values.
From S2P Require Import UrlValues.
From S2P Require Import Json.
From S2P Require Import Database.

Record ProtectedValue := mkProtectedValue {
  pv_ciphertext : list Z;
  pv_key_version : Z
}.

Class CanonicalHash := {
  json_to_vec : json -> option (list Z);
  sha256 : list Z -> list Z
}.

(** [OffsetDateTime::format(&Rfc3339)]. *)
Class TimeFormat := { format_rfc3339 : OffsetDateTime -> option string }.

Class ProjectionCryptography := {
  projection_write_version : Z;
  projection_readable_versions : list Z;
  read_durable_email : Uuid -> Uuid -> ProtectedValue -> result ApplicationError string;
  protect_projection_email :
    list Z -> Uuid -> Uuid -> Uuid -> Z -> list Z -> result ApplicationError ProtectedValue;
  unprotect_projection_email :
    Uuid -> Uuid -> Uuid -> Z -> ProtectedValue -> result ApplicationError string
}.

Record ProjectionMaterial := mkProjectionMaterial {
  pm_revision : Z;
  pm_document : json;
  pm_storage_document : json;
  pm_digest : list Z;
  pm_verified_email_source_identity_id : option Uuid;
  pm_verified_email_ciphertext : option (list Z);
  pm_verified_email_key_version : option Z;
  pm_semantic_change : bool;
  pm_storage_repair_required : bool
}.

(** [json!(value)] for an optional string. *)
Definition json_of_option (value : option string) : json :=
  match value with
  | Some s => JString s
  | None => JNull
  end.

(** [value.map(parse).transpose().map_err(|_| Integrity)] *)
Definition parse_optional {A : Type} (parse : string -> result DomainError A)
    (value : option string) : result ApplicationError (option A) :=
  match value with
  | Some s => rmap Some (map_err (fun _ => AppError.Integrity) (parse s))
  | None => Ok None
  end.

Definition integrity {A : Type} (r : result DomainError A) : result ApplicationError A :=
  map_err (fun _ => AppError.Integrity) r.

Section projection.
Context `{CanonicalHash} `{ProjectionCryptography} `{UrlLib} `{TimeFormat} `{JsonbText}.

(** ** Authority of the local key ring *)
Definition validate_local_projection_ring (write_version : Z) (readable : list Z) :
    result ApplicationError Z :=
  if (write_version <=? 0) || negb (bool_decide (write_version ∈ readable))
  then Err AppError.Disabled
  else Ok write_version.

Definition projection_authority_write_version : result ApplicationError Z :=
  validate_local_projection_ring projection_write_version projection_readable_versions.

Definition assert_projection_crypto_authority : result ApplicationError unit :=
  rmap (fun _ => tt) projection_authority_write_version.

(** ** Reading a stored projection *)
Definition decrypted_projection_verified_email (projection : ProjectionRow) :
    result ApplicationError (option string) :=
  match pn_verified_email_source_identity_id projection,
        pn_verified_email_ciphertext projection, pn_verified_email_key_version projection with
  | None, None, None => Ok None
  | Some _, Some ciphertext, Some key_version =>
      if 0 <? key_version then
        plaintext <-?
          unprotect_projection_email (pn_project_id projection) (pn_application_id projection)
            (pn_user_id projection) (pn_projection_revision projection)
            (mkProtectedValue ciphertext key_version) ;;
        Ok (Some plaintext)
      else Err AppError.Integrity
  | _, _, _ => Err AppError.Integrity
  end.

Definition wire_projection_document (projection : ProjectionRow) : result ApplicationError json :=
  email <-? decrypted_projection_verified_email projection ;;
  match pn_document projection with
  | JObject fields =>
      let document := JObject (object_insert "verified_email" (json_of_option email) fields) in
      canonical <-? ok_or (json_to_vec document) AppError.Integrity ;;
      if negb (bool_decide (pn_canonical_digest projection = sha256 canonical))
      then Err AppError.Integrity
      else Ok document
  | _ => Err AppError.Integrity
  end.

Definition safe_projection_document (wire_document : json) : result ApplicationError json :=
  match wire_document with
  | JObject fields => Ok (JObject (object_insert "verified_email" JNull fields))
  | _ => Err AppError.Integrity
  end.

(** ** Materializing a projection *)
Definition base_profile_digest (display_name picture_url locale : option string) :
    result ApplicationError (list Z) :=
  let profile := [("display_name"%string, json_of_option display_name);
                  ("picture_url"%string, json_of_option picture_url)] in
  let profile := if is_some locale
                 then object_insert "locale" (json_of_option locale) profile
                 else profile in
  canonical <-? ok_or (json_to_vec (JObject profile)) AppError.Integrity ;;
  Ok (sha256 canonical).

Definition projected_status (status : string) : result ApplicationError User.ProjectUserStatus :=
  if bool_decide (status = "active"%string) then Ok User.Active
  else if bool_decide (status = "disabled"%string) then Ok User.Disabled
  else Err AppError.Integrity.

Definition projection_source (user : UserRow) (verified_email : option string) :
    result ApplicationError UserProjectionSource :=
  user_id <-? integrity (PublicId_parse (us_public_id user)) ;;
  status <-? projected_status (us_status user) ;;
  display_name <-? parse_optional ProfileDisplayName_parse (us_display_name user) ;;
  picture_url <-? parse_optional ProfilePictureUrl_parse (us_picture_url user) ;;
  locale <-? parse_optional ProfileLocale_parse (us_locale user) ;;
  user_revision <-? integrity (UserRevision_parse (us_user_revision user)) ;;
  Ok (mkUserProjectionSource user_id status display_name picture_url locale verified_email
        (us_created_at user) (us_updated_at user) user_revision).

(** The [json!] object, in key order. *)
Definition projection_document (p : UserProjection) (created_at updated_at : string) : json :=
  JObject [("created_at"%string, JString created_at);
           ("display_name"%string, json_of_option (up_display_name p));
           ("locale"%string, json_of_option (up_locale p));
           ("picture_url"%string, json_of_option (up_picture_url p));
           ("projection_revision"%string, JInt (up_projection_revision p));
           ("projection_schema"%string, JString (up_schema p));
           ("status"%string, JString (User.ProjectUserStatus_as_str (up_status p)));
           ("updated_at"%string, JString updated_at);
           ("user_id"%string, JString (up_user_id p));
           ("user_revision"%string, JInt (up_user_revision p));
           ("verified_email"%string, json_of_option (up_verified_email p))].

Definition projection_material_with_verified_email (user : UserRow) (projection_revision : Z)
    (verified_email : option string) : result ApplicationError (json * list Z) :=
  if projection_revision <=? 0 then Err AppError.Integrity
  else
    source <-? projection_source user verified_email ;;
    revision <-? integrity (ProjectionRevision_parse projection_revision) ;;
    projection <-? integrity (UserProjection_materialize source revision) ;;
    created_at <-? ok_or (format_rfc3339 (up_created_at projection)) AppError.Integrity ;;
    updated_at <-? ok_or (format_rfc3339 (up_updated_at projection)) AppError.Integrity ;;
    let document := projection_document projection created_at updated_at in
    canonical <-? ok_or (json_to_vec document) AppError.Integrity ;;
    Ok (document, sha256 canonical).

(** The address of the user's primary email identity, read from the store. *)
Definition primary_verified_email (db : Database) (user : UserRow) :
    result ApplicationError (option (Uuid * string)) :=
  if bool_decide (us_status user = "disabled"%string) then Ok None
  else if negb (bool_decide (us_status user = "active"%string)) then Err AppError.Integrity
  else if negb (bool_decide (us_primary_source_kind user = "email"%string)) then Ok None
  else
    identity_id <-? ok_or (us_primary_email_identity_id user) AppError.Integrity ;;
    row <-? ok_or (find_by_id (db_email_identities db) identity_id
                     (fun e => ei_project_id e =? us_project_id user)) AppError.Integrity ;;
    if negb (ei_user_id row =? us_id user) then Err AppError.Integrity
    else if bool_decide (ei_status row = "disabled"%string) && is_some (ei_verified_at row)
    then Ok None
    else if bool_decide (ei_status row = "active"%string) && is_some (ei_verified_at row)
    then
      plaintext <-? read_durable_email (us_project_id user) identity_id
                      (mkProtectedValue (ei_address_ciphertext row) (ei_address_key_version row)) ;;
      Ok (Some (identity_id, plaintext))
    else Err AppError.Integrity.

(** [projection.is_none_or(|existing| ...)]: a public field or its source moved. *)
Definition semantic_change (projection : option ProjectionRow) (user : UserRow)
    (source_email : option (Uuid * string)) : bool :=
  match projection with
  | None => true
  | Some existing =>
      negb (pn_user_id existing =? us_id user)
      || negb (pn_source_user_revision existing =? us_user_revision user)
      || negb (bool_decide (pn_verified_email_source_identity_id existing = fst <$> source_email))
      || negb (Bool.eqb (is_some (pn_verified_email_ciphertext existing)) (is_some source_email))
      || negb (Bool.eqb (is_some (pn_verified_email_key_version existing)) (is_some source_email))
  end.

Definition can_reuse_protected (projection : option ProjectionRow) (semantic_change : bool)
    (source_email : option (Uuid * string)) (write_version : option Z) : bool :=
  is_some_and projection (fun existing =>
    negb semantic_change
    && bool_decide (pn_verified_email_source_identity_id existing = fst <$> source_email)
    && Bool.eqb (is_some (pn_verified_email_ciphertext existing)) (is_some source_email)
    && Bool.eqb (is_some (pn_verified_email_key_version existing)) (is_some source_email)
    && bool_decide (pn_verified_email_key_version existing = write_version)).

(** The ciphertext of the new row: reused, made anew, or none. *)
Definition projection_ciphertext (nonce : list Z) (projection : option ProjectionRow)
    (application_id : Uuid) (user : UserRow) (revision : Z) (reuse : bool)
    (source_email : option (Uuid * string)) :
    result ApplicationError (option (list Z) * option Z) :=
  match source_email with
  | None => Ok (None, None)
  | Some (_, email) =>
      if reuse then
        existing <-? ok_or projection AppError.Integrity ;;
        Ok (pn_verified_email_ciphertext existing, pn_verified_email_key_version existing)
      else
        protected <-? protect_projection_email nonce (us_project_id user) application_id
                        (us_id user) revision (bytes email) ;;
        Ok (Some (pv_ciphertext protected), Some (pv_key_version protected))
  end.

Definition storage_repair_required (projection : option ProjectionRow) (user : UserRow)
    (semantic_change : bool) (storage_document : json) (source_identity_id : option Uuid)
    (ciphertext : option (list Z)) (key_version : option Z) (digest : list Z) : bool :=
  match projection with
  | None => true
  | Some existing =>
      semantic_change
      || negb (json_eqb (pn_document existing) storage_document)
      || negb (bool_decide (pn_verified_email_source_identity_id existing = source_identity_id))
      || negb (bool_decide (pn_verified_email_ciphertext existing = ciphertext))
      || negb (bool_decide (pn_verified_email_key_version existing = key_version))
      || negb (bool_decide (pn_canonical_digest existing = digest))
      || negb (bool_decide (pn_source_base_profile_digest existing = us_base_profile_digest user))
  end.

Definition authoritative_runtime_projection_material (nonce : list Z) (db : Database)
    (projection : option ProjectionRow) (application_id : Uuid) (user : UserRow) :
    result ApplicationError ProjectionMaterial :=
  source_email <-? primary_verified_email db user ;;
  projection_write_version <-?
    (if is_some source_email
        || is_some_and projection (fun e => is_some (pn_verified_email_ciphertext e))
     then rmap Some projection_authority_write_version
     else Ok None) ;;
  let source_identity_id := fst <$> source_email in
  let changed := semantic_change projection user source_email in
  revision <-?
    match projection with
    | None => Ok 1
    | Some existing =>
        if changed
        then ok_or (checked_add_i64 (pn_projection_revision existing) 1) AppError.Integrity
        else Ok (pn_projection_revision existing)
    end ;;
  let reuse := can_reuse_protected projection changed source_email projection_write_version in
  protected <-? projection_ciphertext nonce projection application_id user revision reuse
                  source_email ;;
  let email := snd <$> source_email in
  material <-? projection_material_with_verified_email user revision email ;;
  (if reuse then
     existing <-? ok_or projection AppError.Integrity ;;
     stored <-? decrypted_projection_verified_email existing ;;
     if negb (bool_decide (stored = email)) then Err AppError.Integrity else Ok tt
   else Ok tt) ;;?
  storage_document <-? safe_projection_document material.1 ;;
  Ok {| pm_revision := revision;
        pm_document := material.1;
        pm_storage_document := storage_document;
        pm_digest := material.2;
        pm_verified_email_source_identity_id := source_identity_id;
        pm_verified_email_ciphertext := protected.1;
        pm_verified_email_key_version := protected.2;
        pm_semantic_change := changed;
        pm_storage_repair_required :=
          storage_repair_required projection user changed storage_document source_identity_id
            protected.1 protected.2 material.2 |}.

(** The row a repair writes. *)
Definition repaired_projection (projection : ProjectionRow) (user : UserRow)
    (material : ProjectionMaterial) (now : OffsetDateTime) : ProjectionRow :=
  {| pn_id := pn_id projection;
     pn_project_id := pn_project_id projection;
     pn_binding_id := pn_binding_id projection;
     pn_application_id := pn_application_id projection;
     pn_user_id := us_id user;
     pn_schema_name := pn_schema_name projection;
     pn_projection_revision := pm_revision material;
     pn_source_user_revision := us_user_revision user;
     pn_canonical_digest := pm_digest material;
     pn_source_base_profile_digest := us_base_profile_digest user;
     pn_verified_email_source_identity_id := pm_verified_email_source_identity_id material;
     pn_verified_email_ciphertext := pm_verified_email_ciphertext material;
     pn_verified_email_key_version := pm_verified_email_key_version material;
     pn_document := pm_storage_document material;
     pn_created_at := pn_created_at projection;
     pn_updated_at := now |}.

Definition repair_runtime_projection (nonce : list Z) (projection : ProjectionRow)
    (application_id : Uuid) (user : UserRow) (now : OffsetDateTime) :
    txn (ProjectionRow * ProjectionMaterial) :=
  db <~ mget ;;
  material <~ mlift (authoritative_runtime_projection_material nonce db (Some projection)
                       application_id user) ;;
  if pm_storage_repair_required material then
    let row := repaired_projection projection user material now in
    update_projection row ;;~ mret (row, material)
  else mret (projection, material).
End projection.
