(* ===== verification/ProjectionProofs.v ===== *)
(** * User projections: theorems

    A stored projection never holds the verified address in clear and still
    determines the document an application sees; repairing a projection brings
    the row up to date in one step, and a second repair finds nothing to do. *)
From S2P Require Import Prelude.
From S2P Require Import Lifecycle.
From S2P Require Import Text.
From S2P Require Import Values.
From S2P Require Import UrlValues.
From S2P Require Import Json.
From S2P Require Import LoginTables.
From S2P Require Import WebhookTables.
From S2P Require Import Database.
From S2P Require Import Projection.

(** ** JSON equality *)
Section json_induction.
Context (P : json -> Prop).
Hypothesis Hnull : P JNull.
Hypothesis Hbool : forall b, P (JBool b).
Hypothesis Hint : forall n, P (JInt n).
Hypothesis Hfloat : forall s, P (JFloat s).
Hypothesis Hstring : forall s, P (JString s).
Hypothesis Harray : forall l, Forall P l -> P (JArray l).
Hypothesis Hobject : forall l, Forall (fun f => P f.2) l -> P (JObject l).

Fixpoint json_rect_nested (v : json) : P v :=
  match v with
  | JNull => Hnull
  | JBool b => Hbool b
  | JInt n => Hint n
  | JFloat s => Hfloat s
  | JString s => Hstring s
  | JArray l =>
      Harray l ((fix go (l : list json) : Forall P l :=
                   match l with
                   | [] => List.Forall_nil _
                   | x :: r => @List.Forall_cons _ _ x r (json_rect_nested x) (go r)
                   end) l)
  | JObject l =>
      Hobject l ((fix go (l : list (string * json)) : Forall (fun f => P f.2) l :=
                    match l with
                    | [] => List.Forall_nil _
                    | (k, x) :: r => @List.Forall_cons _ (fun f => P f.2) (k, x) r (json_rect_nested x) (go r)
                    end) l)
  end.
End json_induction.

Lemma json_eqb_eq a b : json_eqb a b = true <-> a = b.
Proof.
  revert b; induction a as [| | | | |l Hl|l Hl] using json_rect_nested; intros []; simpl;
    try (split; [done|naive_solver]); try (bool_prop; naive_solver).
  - rewrite Bool.eqb_true_iff; naive_solver.
  - revert l0; induction Hl as [|x l Hx Hl IH]; intros [|y m]; try naive_solver.
    rewrite andb_true_iff, Hx, IH; naive_solver.
  - revert fields; induction Hl as [|[k x] l Hx Hl IH]; intros [|[k' y] m]; try naive_solver.
    rewrite !andb_true_iff, bool_decide_eq_true, Hx, IH; naive_solver.
Qed.

Lemma json_eqb_refl a : json_eqb a a = true.
Proof. by apply json_eqb_eq. Qed.

(** ** The document with and without the address *)
Definition without_email (p : UserProjection) : UserProjection :=
  {| up_schema := up_schema p; up_user_id := up_user_id p; up_status := up_status p;
     up_display_name := up_display_name p; up_picture_url := up_picture_url p;
     up_locale := up_locale p; up_verified_email := None; up_created_at := up_created_at p;
     up_updated_at := up_updated_at p; up_user_revision := up_user_revision p;
     up_projection_revision := up_projection_revision p |}.

Lemma safe_document p c u :
  safe_projection_document (projection_document p c u)
  = Ok (projection_document (without_email p) c u).
Proof. reflexivity. Qed.

(** Putting the address back gives the document it was taken from. *)
Lemma document_fields p c u :
  exists fields, projection_document (without_email p) c u = JObject fields
    /\ JObject (object_insert "verified_email" (json_of_option (up_verified_email p)) fields)
       = projection_document p c u.
Proof. eexists; split; reflexivity. Qed.

(** What the program relies on: a protected address opens in the context it was
    made for, under the ring's write version. *)
Class ProjectionCryptographyLaws `{ProjectionCryptography} : Prop := {
  protect_opens : forall nonce project_id application_id user_id revision email v,
    protect_projection_email nonce project_id application_id user_id revision (bytes email) = Ok v ->
    unprotect_projection_email project_id application_id user_id revision v = Ok email;
  protect_version : forall nonce project_id application_id user_id revision email v,
    protect_projection_email nonce project_id application_id user_id revision email = Ok v ->
    pv_key_version v = projection_write_version
}.

(** ** The contract of a projection

    What an application may rely on: the bounds of every field of the document,
    and for the picture a plain https URL. *)
Definition picture_contract `{UrlLib} (value : string) : Prop :=
  8 <= str_len value <= 2048
  /\ contains_byte 0x5C value = false /\ existsb is_ascii_whitespace (bytes value) = false
  /\ exists url host, url_parse value = Some url
       /\ url_scheme url = "https"%string /\ url_host_str url = Some host
       /\ url_username url = EmptyString /\ url_password url = None /\ url_fragment url = None
       /\ contains_byte 0x2A host = false.

Definition display_name_contract (value : string) : Prop :=
  0 < str_len value <= 128 /\ no_control value.

Definition locale_contract (value : string) : Prop :=
  2 <= str_len value <= 35
  /\ Forall (fun tag => tag <> EmptyString /\ forallb is_ascii_alphanumeric (bytes tag) = true)
       (split_byte 0x2D value).

Record projection_bounded `{UrlLib} (p : UserProjection) : Prop := {
  pb_schema : up_schema p = USER_PROJECTION_SCHEMA_V1;
  pb_user_id : 8 <= str_len (up_user_id p) <= 96
    /\ forallb public_id_byte (bytes (up_user_id p)) = true;
  pb_display_name : forall n, up_display_name p = Some n -> display_name_contract n;
  pb_picture_url : forall v, up_picture_url p = Some v -> picture_contract v;
  pb_locale : forall l, up_locale p = Some l -> locale_contract l;
  pb_verified_email : forall e, up_verified_email p = Some e ->
    3 <= str_len e <= 320 /\ no_control e;
  pb_times : up_created_at p <= up_updated_at p;
  pb_user_revision : 1 <= up_user_revision p;
  pb_projection_revision : 1 <= up_projection_revision p
}.

(** The fields of a user row, as a projection at a revision with an address. *)
Definition row_projection (user : UserRow) (status : User.ProjectUserStatus) (revision : Z)
    (verified_email : option string) : UserProjection :=
  {| up_schema := USER_PROJECTION_SCHEMA_V1; up_user_id := us_public_id user; up_status := status;
     up_display_name := us_display_name user; up_picture_url := us_picture_url user;
     up_locale := us_locale user; up_verified_email := verified_email;
     up_created_at := us_created_at user; up_updated_at := us_updated_at user;
     up_user_revision := us_user_revision user; up_projection_revision := revision |}.

Section contract.
Context `{CanonicalHash} `{ProjectionCryptography} `{UrlLib} `{TimeFormat} `{JsonbText}.

Lemma picture_parse_iff value a :
  ProfilePictureUrl_parse value = Ok a <-> a = mkProfilePictureUrl value /\ picture_contract value.
Proof.
  unfold ProfilePictureUrl_parse, picture_contract.
  rewrite if_err_ok, !orb_false_iff, negb_false_iff, in_range_true.
  destruct (url_parse value) as [url|]; simpl; [|naive_solver].
  rewrite if_err_ok, !orb_false_iff, !negb_false_iff, bool_decide_eq_true.
  destruct (url_host_str url) eqn:?, (url_username url) eqn:?, (url_password url) eqn:?,
    (url_fragment url) eqn:?; simpl; naive_solver congruence.
Qed.

Lemma display_name_parse_iff value a :
  ProfileDisplayName_parse value = Ok a <->
  a = mkProfileDisplayName value /\ display_name_contract value.
Proof.
  unfold ProfileDisplayName_parse, display_name_contract.
  rewrite <- validate_bounded_text_ok.
  destruct (validate_bounded_text value 128) as [[]|]; simpl; naive_solver.
Qed.

Lemma locale_parse_iff value a :
  ProfileLocale_parse value = Ok a <-> a = mkProfileLocale value /\ locale_contract value.
Proof.
  unfold locale_contract. rewrite <- locale_grammar.
  split; [|destruct (ProfileLocale_parse value) as [l|] eqn:Hl]; simpl; [| |naive_solver].
  - intros Hp; rewrite Hp; split; [|done]. by apply ProfileLocale_parse_ok in Hp as [-> _].
  - apply ProfileLocale_parse_ok in Hl as [-> _]. by intros [-> _].
Qed.

Lemma parse_optional_iff {A} (parse : string -> result DomainError A) (mk : string -> A)
    (P : string -> Prop) value o :
  (forall s a, parse s = Ok a <-> a = mk s /\ P s) ->
  parse_optional parse value = Ok o <-> o = mk <$> value /\ forall s, value = Some s -> P s.
Proof.
  intros Hp; destruct value as [s|]; simpl; [|naive_solver].
  rewrite rmap_ok; setoid_rewrite map_err_ok; setoid_rewrite Hp; naive_solver.
Qed.

Lemma source_iff user email source :
  projection_source user email = Ok source <->
  exists status, projected_status (us_status user) = Ok status
    /\ (8 <= str_len (us_public_id user) <= 96
        /\ forallb public_id_byte (bytes (us_public_id user)) = true)
    /\ (forall s, us_display_name user = Some s -> display_name_contract s)
    /\ (forall s, us_picture_url user = Some s -> picture_contract s)
    /\ (forall s, us_locale user = Some s -> locale_contract s)
    /\ 1 <= us_user_revision user
    /\ source = mkUserProjectionSource (mkPublicId (us_public_id user)) status
         (mkProfileDisplayName <$> us_display_name user) (mkProfilePictureUrl <$> us_picture_url user)
         (mkProfileLocale <$> us_locale user) email (us_created_at user) (us_updated_at user)
         (mkUserRevision (us_user_revision user)).
Proof.
  unfold projection_source, integrity.
  setoid_rewrite rbind_ok; setoid_rewrite rbind_ok; setoid_rewrite rbind_ok;
    setoid_rewrite rbind_ok; setoid_rewrite rbind_ok; setoid_rewrite rbind_ok.
  setoid_rewrite map_err_ok; setoid_rewrite PublicId_parse_ok.
  setoid_rewrite (parse_optional_iff _ _ _ _ _ display_name_parse_iff).
  setoid_rewrite (parse_optional_iff _ _ _ _ _ picture_parse_iff).
  setoid_rewrite (parse_optional_iff _ _ _ _ _ locale_parse_iff).
  unfold UserRevision_parse. setoid_rewrite if_err_ok. setoid_rewrite Z.ltb_ge.
  split.
  - intros (? & (-> & Hid) & status & Hst & ? & (-> & Hd) & ? & (-> & Hp) & ? & (-> & Hl) & ?
            & (Hr & [= <-]) & [= <-]). by exists status.
  - intros (status & Hst & Hid & Hd & Hp & Hl & Hr & ->).
    repeat (eexists; split; [done|]). done.
Qed.

Lemma materialize_iff source revision p :
  UserProjection_materialize source revision = Ok p <->
  ups_created_at source <= ups_updated_at source
  /\ (forall e, ups_verified_email source = Some e -> 3 <= str_len e <= 320 /\ no_control e)
  /\ p = mkUserProjection USER_PROJECTION_SCHEMA_V1 (PublicId_to_string (ups_user_id source))
       (ups_status source) (ProfileDisplayName_into_inner <$> ups_display_name source)
       (ProfilePictureUrl_into_inner <$> ups_picture_url source)
       (ProfileLocale_into_inner <$> ups_locale source) (ups_verified_email source)
       (ups_created_at source) (ups_updated_at source)
       (UserRevision_value (ups_user_revision source)) (ProjectionRevision_value revision).
Proof.
  unfold UserProjection_materialize.
  rewrite !if_err_ok, bad_verified_email_false, Z.ltb_ge. naive_solver.
Qed.

(** C16: the document an application is given keeps the projection's contract, and
    every row that keeps it is given one.  Of any user row, revision and address,
    whatever the store holds, a document is produced exactly when the row's status
    is projected, the identifier, display name, picture URL (https, 8 to 2048 bytes,
    a host without wildcard, no credentials, no fragment), locale, address, times
    and revisions are within their bounds, the times can be formatted and the
    document encoded; and then it holds exactly the row's values, with the digest
    of its encoding. *)
Theorem projection_material_exact user revision email d h :
  projection_material_with_verified_email user revision email = Ok (d, h) <->
  exists status created updated encoded,
    projected_status (us_status user) = Ok status
    /\ projection_bounded (row_projection user status revision email)
    /\ format_rfc3339 (us_created_at user) = Some created
    /\ format_rfc3339 (us_updated_at user) = Some updated
    /\ d = projection_document (row_projection user status revision email) created updated
    /\ json_to_vec d = Some encoded /\ h = sha256 encoded.
Proof.
  unfold projection_material_with_verified_email, integrity. split.
  - intros Hm. inv_ok.
    match goal with Hs : projection_source _ _ = Ok _ |- _ =>
      apply source_iff in Hs as (status & Hst & Hid & Hd & Hp & Hl & Hr & ->) end.
    match goal with Hu : UserProjection_materialize _ _ = Ok _ |- _ =>
      apply materialize_iff in Hu as (Ht & He & ->) end.
    match goal with Hv : ProjectionRevision_parse _ = Ok _ |- _ =>
      unfold ProjectionRevision_parse in Hv; inv_ok end.
    bool_prop. simpl in *.
    assert (forall (A : Type) (mk : string -> A) un (o : option string), (forall s, un (mk s) = s) ->
              un <$> (mk <$> o) = o) as Hback by (intros A mk un [s|] Hs; simpl; congruence).
    rewrite !Hback in * by done.
    exists status; do 3 eexists; split_and!; [done| |done..].
    constructor; simpl; try done; lia.
  - intros (status & created & updated & encoded & Hst & Hb & Hc & Hu & -> & Hj & ->).
    destruct Hb as [_ Hid Hd Hp Hl He Ht Hur Hpr]; simpl in *.
    assert (projection_source user email
            = Ok (mkUserProjectionSource (mkPublicId (us_public_id user)) status
                    (mkProfileDisplayName <$> us_display_name user)
                    (mkProfilePictureUrl <$> us_picture_url user)
                    (mkProfileLocale <$> us_locale user) email (us_created_at user)
                    (us_updated_at user) (mkUserRevision (us_user_revision user)))) as ->
      by (apply source_iff; by exists status).
    rewrite (proj2 (Z.leb_gt revision 0)) by lia. unfold ProjectionRevision_parse.
    rewrite (proj2 (Z.ltb_ge revision 1)) by lia; simpl.
    erewrite (proj2 (materialize_iff _ _ _)) by (split_and!; done). simpl.
    rewrite Hc, Hu; simpl.
    assert (forall (A : Type) (mk : string -> A) un (o : option string), (forall s, un (mk s) = s) ->
              un <$> (mk <$> o) = o) as Hback by (intros A mk un [s|] Hs; simpl; congruence).
    rewrite !Hback by done. unfold row_projection in Hj. by rewrite Hj.
Qed.
End contract.

Section proofs.
Context `{CanonicalHash} `{ProjectionCryptography} `{UrlLib} `{TimeFormat} `{JsonbText}.

(** The material of a user at a revision: one document, whose digest covers the
    address; only the address depends on the address. *)
Lemma material_ok user revision email d h :
  projection_material_with_verified_email user revision email = Ok (d, h) ->
  exists p c u, d = projection_document p c u /\ up_verified_email p = email
    /\ (exists v, json_to_vec d = Some v /\ h = sha256 v).
Proof.
  unfold projection_material_with_verified_email, projection_source, integrity; intros Hm; inv_ok.
  match goal with Hu : UserProjection_materialize _ _ = Ok ?q |- _ =>
    unfold UserProjection_materialize in Hu; inv_ok end.
  simplify_eq; do 3 eexists; split_and!; [reflexivity|done|eauto].
Qed.

Lemma material_same_profile user revision e1 e2 d1 h1 d2 h2 :
  projection_material_with_verified_email user revision e1 = Ok (d1, h1) ->
  projection_material_with_verified_email user revision e2 = Ok (d2, h2) ->
  safe_projection_document d1 = safe_projection_document d2.
Proof.
  unfold projection_material_with_verified_email, projection_source, integrity.
  intros Hm1 Hm2; inv_ok.
  repeat match goal with Hu : UserProjection_materialize _ _ = Ok ?q |- _ =>
    unfold UserProjection_materialize in Hu; inv_ok end.
  simpl in *; same_ok; simplify_eq; reflexivity.
Qed.

(** The parts of a successful materialization over an existing row. *)
Record material_of (nonce : list Z) (db : Database) (x : ProjectionRow) (app : Uuid)
    (u : UserRow) (m : ProjectionMaterial) (source : option (Uuid * string))
    (version : option Z) : Prop := {
  mo_source : primary_verified_email db u = Ok source;
  mo_version :
    (if is_some source || is_some (pn_verified_email_ciphertext x)
     then rmap Some projection_authority_write_version else Ok None) = Ok version;
  mo_revision :
    (if semantic_change (Some x) u source
     then ok_or (checked_add_i64 (pn_projection_revision x) 1) AppError.Integrity
     else Ok (pn_projection_revision x)) = Ok (pm_revision m);
  mo_ciphertext :
    projection_ciphertext nonce (Some x) app u (pm_revision m)
      (can_reuse_protected (Some x) (semantic_change (Some x) u source) source version) source
    = Ok (pm_verified_email_ciphertext m, pm_verified_email_key_version m);
  mo_material :
    projection_material_with_verified_email u (pm_revision m) (snd <$> source)
    = Ok (pm_document m, pm_digest m);
  mo_reused :
    can_reuse_protected (Some x) (semantic_change (Some x) u source) source version = true ->
    decrypted_projection_verified_email x = Ok (snd <$> source);
  mo_storage : safe_projection_document (pm_document m) = Ok (pm_storage_document m);
  mo_identity : pm_verified_email_source_identity_id m = fst <$> source;
  mo_change : pm_semantic_change m = semantic_change (Some x) u source;
  mo_repair :
    pm_storage_repair_required m
    = storage_repair_required (Some x) u (semantic_change (Some x) u source)
        (pm_storage_document m) (fst <$> source) (pm_verified_email_ciphertext m)
        (pm_verified_email_key_version m) (pm_digest m)
}.

Lemma authoritative_ok nonce db x app u m :
  authoritative_runtime_projection_material nonce db (Some x) app u = Ok m <->
  exists source version, material_of nonce db x app u m source version.
Proof.
  unfold authoritative_runtime_projection_material; split.
  - intros Hm; apply rbind_ok in Hm as (source & Hs & Hm).
    apply rbind_ok in Hm as (version & Hv & Hm); cbv zeta in Hm.
    apply rbind_ok in Hm as (revision & Hr & Hm).
    apply rbind_ok in Hm as ([c v] & Hc & Hm); apply rbind_ok in Hm as ([d h] & Hd & Hm).
    apply rbind_ok in Hm as ([] & Hreuse & Hm); apply rbind_ok in Hm as (st & Hst & Hm).
    injection Hm as <-; exists source, version; constructor; try done.
    intros Hre; rewrite Hre in Hreuse; inv_ok.
    by case_bool_decide; subst.
  - intros (source & version & []).
    rewrite mo_source0; cbn [rbind is_some_and]; rewrite mo_version0; cbn [rbind]; cbv zeta.
    rewrite mo_revision0; cbn [rbind]; rewrite mo_ciphertext0; cbn [rbind].
    rewrite mo_material0; cbn [rbind].
    assert ((if can_reuse_protected (Some x) (semantic_change (Some x) u source) source version
             then existing <-? ok_or (Some x) AppError.Integrity ;;
                  stored <-? decrypted_projection_verified_email existing ;;
                  if negb (bool_decide (stored = snd <$> source)) then Err AppError.Integrity
                  else Ok tt
             else Ok tt) = Ok tt) as ->.
    { destruct (can_reuse_protected _ _ _ _); [|done].
      simpl; rewrite mo_reused0 by done; simpl; by rewrite bool_decide_true. }
    cbn [rbind fst snd]; rewrite mo_storage0; cbn [rbind].
    rewrite <- mo_repair0, <- mo_change0, <- mo_identity0; by destruct m.
Qed.

(** The row in the store after a repair. *)
Definition current_row (x : ProjectionRow) (u : UserRow) (m : ProjectionMaterial)
    (now : OffsetDateTime) : ProjectionRow :=
  if pm_storage_repair_required m then repaired_projection x u m now else x.

Definition row_context (x : ProjectionRow) (app : Uuid) (u : UserRow) : Prop :=
  pn_project_id x = us_project_id u /\ pn_application_id x = app.

Lemma semantic_change_false x u source :
  semantic_change (Some x) u source = false <->
  pn_user_id x = us_id u /\ pn_source_user_revision x = us_user_revision u
  /\ pn_verified_email_source_identity_id x = fst <$> source
  /\ is_some (pn_verified_email_ciphertext x) = is_some source
  /\ is_some (pn_verified_email_key_version x) = is_some source.
Proof.
  unfold semantic_change; rewrite !orb_false_iff, !negb_false_iff, !Z.eqb_eq, !Bool.eqb_true_iff.
  rewrite bool_decide_eq_true; tauto.
Qed.

(** Whether or not a repair was needed, the row agrees with the material. *)
Lemma current_row_fields nonce db x app u m source version now :
  material_of nonce db x app u m source version ->
  let row := current_row x u m now in
  pn_id row = pn_id x /\ pn_project_id row = pn_project_id x
  /\ pn_binding_id row = pn_binding_id x /\ pn_application_id row = pn_application_id x
  /\ pn_user_id row = us_id u /\ pn_projection_revision row = pm_revision m
  /\ pn_source_user_revision row = us_user_revision u
  /\ pn_document row = pm_storage_document m /\ pn_canonical_digest row = pm_digest m
  /\ pn_source_base_profile_digest row = us_base_profile_digest u
  /\ pn_verified_email_source_identity_id row = fst <$> source
  /\ pn_verified_email_ciphertext row = pm_verified_email_ciphertext m
  /\ pn_verified_email_key_version row = pm_verified_email_key_version m.
Proof.
  intros []; unfold current_row; destruct (pm_storage_repair_required m); simpl.
  { by split_and!. }
  symmetry in mo_repair0; unfold storage_repair_required in mo_repair0.
  rewrite !orb_false_iff, !negb_false_iff, !bool_decide_eq_true, json_eqb_eq in mo_repair0.
  destruct mo_repair0 as ((((((Hch & ?) & ?) & ?) & ?) & ?) & ?).
  rewrite Hch in mo_revision0; injection mo_revision0 as Hrev.
  apply semantic_change_false in Hch; naive_solver.
Qed.

(** The address column of the new row opens to the source's address. *)
Lemma ciphertext_opens `{!ProjectionCryptographyLaws} nonce db x app u m identity email version :
  material_of nonce db x app u m (Some (identity, email)) version -> row_context x app u ->
  exists ct k,
    pm_verified_email_ciphertext m = Some ct /\ pm_verified_email_key_version m = Some k
    /\ version = Some k /\ 0 < k /\ k = projection_write_version
    /\ unprotect_projection_email (us_project_id u) app (us_id u) (pm_revision m)
         (mkProtectedValue ct k) = Ok email.
Proof.
  intros [] [Hp Ha]; simpl in mo_version0; inv_ok.
  assert (0 < projection_write_version /\ x0 = projection_write_version) as [Hpos ->].
  { unfold projection_authority_write_version, validate_local_projection_ring in *; inv_ok.
    bool_prop; naive_solver. }
  unfold projection_ciphertext in mo_ciphertext0.
  destruct (can_reuse_protected _ _ _ _) eqn:Hre.
  - cbn [ok_or rbind] in mo_ciphertext0; injection mo_ciphertext0 as Hct Hk.
    specialize (mo_reused0 eq_refl); unfold can_reuse_protected in Hre; cbn [is_some_and] in Hre.
    rewrite !andb_true_iff, negb_true_iff, !bool_decide_eq_true in Hre; destruct_and!.
    match goal with Hs : semantic_change _ _ _ = false |- _ =>
      rewrite Hs in mo_revision0; apply semantic_change_false in Hs as (Hu & _) end.
    injection mo_revision0 as Hrev; unfold decrypted_projection_verified_email in mo_reused0.
    rewrite <- Hct, <- Hk.
    destruct (pn_verified_email_source_identity_id x), (pn_verified_email_ciphertext x) as [ct|],
      (pn_verified_email_key_version x) as [k|]; try discriminate; inv_ok; simplify_eq/=.
    exists ct, projection_write_version; split_and!; congruence.
  - inv_ok; simplify_eq/=.
    match goal with Hpr : protect_projection_email _ _ _ _ _ _ = Ok ?v |- _ =>
      pose proof (protect_version _ _ _ _ _ _ _ Hpr) as Hk;
      pose proof (protect_opens _ _ _ _ _ _ _ Hpr) as Hopen; destruct v as [ct k] end.
    simpl in *; subst k; exists ct, projection_write_version; split_and!; congruence.
Qed.

Lemma no_source_no_ciphertext nonce db x app u m version :
  material_of nonce db x app u m None version ->
  pm_verified_email_ciphertext m = None /\ pm_verified_email_key_version m = None.
Proof. intros []; simpl in mo_ciphertext0; by simplify_eq. Qed.

Lemma current_row_opens `{!ProjectionCryptographyLaws} nonce db x app u m source version now :
  material_of nonce db x app u m source version -> row_context x app u ->
  decrypted_projection_verified_email (current_row x u m now) = Ok (snd <$> source).
Proof.
  intros Hm Hx; pose proof Hx as [Hp Ha].
  destruct (current_row_fields _ _ _ _ _ _ _ _ now Hm)
    as (_ & Hp' & _ & Ha' & Hu & Hr & _ & _ & _ & _ & Hid & Hc & Hk).
  unfold decrypted_projection_verified_email; rewrite Hid, Hc, Hk, Hp', Ha', Hu, Hr, Hp, Ha.
  destruct source as [[identity email]|]; simpl.
  - destruct (ciphertext_opens _ _ _ _ _ _ _ _ _ Hm Hx) as (ct & k & -> & -> & _ & Hpos & _ & Hop).
    rewrite (proj2 (Z.ltb_lt _ _) Hpos), Hop; done.
  - by destruct (no_source_no_ciphertext _ _ _ _ _ _ _ Hm) as [-> ->].
Qed.

(** An application reads from the row exactly the document of the material. *)
Lemma current_row_wire `{!ProjectionCryptographyLaws} nonce db x app u m source version now :
  material_of nonce db x app u m source version -> row_context x app u ->
  wire_projection_document (current_row x u m now) = Ok (pm_document m).
Proof.
  intros Hm Hx; pose proof (current_row_opens _ _ _ _ _ _ _ _ now Hm Hx) as Hop.
  destruct (current_row_fields _ _ _ _ _ _ _ _ now Hm) as (_ & _ & _ & _ & _ & _ & _ & Hd & Hh & _).
  unfold wire_projection_document; rewrite Hop, Hd, Hh; cbn [rbind].
  destruct Hm; destruct (material_ok _ _ _ _ _ mo_material0) as (p & c & t & Hdoc & He & v & Hv & Hsha).
  rewrite Hdoc, safe_document in mo_storage0; injection mo_storage0 as <-.
  destruct (document_fields p c t) as (fields & -> & Hf); rewrite <- He, Hf, <- Hdoc, Hv; simpl.
  by rewrite Hsha, bool_decide_true.
Qed.

Lemma current_row_authority nonce db x app u m source version now :
  material_of nonce db x app u m source version ->
  is_some (pn_verified_email_ciphertext (current_row x u m now)) = true ->
  assert_projection_crypto_authority = Ok tt.
Proof.
  intros Hm Hs; destruct (current_row_fields _ _ _ _ _ _ _ _ now Hm)
    as (_ & _ & _ & _ & _ & _ & _ & _ & _ & _ & _ & Hc & _); rewrite Hc in Hs.
  destruct source as [e|].
  - destruct Hm; simpl in mo_version0; inv_ok.
    match goal with Ha : projection_authority_write_version = _ |- _ =>
      unfold assert_projection_crypto_authority; by rewrite Ha end.
  - destruct (no_source_no_ciphertext _ _ _ _ _ _ _ Hm) as [Hn _]; by rewrite Hn in Hs.
Qed.

(** The material of an up-to-date row: the same, and nothing changed. *)
Definition settled (m : ProjectionMaterial) : ProjectionMaterial :=
  mkProjectionMaterial (pm_revision m) (pm_document m) (pm_storage_document m) (pm_digest m)
    (pm_verified_email_source_identity_id m) (pm_verified_email_ciphertext m)
    (pm_verified_email_key_version m) false false.

Lemma primary_verified_email_frame db db' u :
  db_email_identities db' = db_email_identities db ->
  primary_verified_email db' u = primary_verified_email db u.
Proof. intros He; unfold primary_verified_email; by rewrite He. Qed.

Lemma settled_material `{!ProjectionCryptographyLaws} nonce nonce' db db' x app u m source version now :
  material_of nonce db x app u m source version -> row_context x app u ->
  db_email_identities db' = db_email_identities db ->
  exists version', material_of nonce' db' (current_row x u m now) app u (settled m) source version'.
Proof.
  intros Hm Hx He.
  pose proof (current_row_opens _ _ _ _ _ _ _ _ now Hm Hx) as Hop.
  destruct (current_row_fields _ _ _ _ _ _ _ _ now Hm)
    as (_ & Hp & _ & Ha & Hu & Hr & Hur & Hd & Hh & Hb & Hid & Hc & Hk).
  set (row := current_row x u m now) in *.
  assert (exists version', (if is_some source || is_some (pn_verified_email_ciphertext row)
            then rmap Some projection_authority_write_version else Ok None) = Ok version'
          /\ pn_verified_email_key_version row = version'
          /\ is_some (pn_verified_email_ciphertext row) = is_some source
          /\ is_some (pn_verified_email_key_version row) = is_some source)
    as (version' & Hv & Hkv & Hcs & Hks).
  { rewrite Hc, Hk; destruct source as [[identity email]|].
    - destruct (ciphertext_opens _ _ _ _ _ _ _ _ _ Hm Hx) as (ct & k & -> & -> & -> & _).
      exists (Some k); split_and!; try done; exact (mo_version _ _ _ _ _ _ _ _ Hm).
    - destruct (no_source_no_ciphertext _ _ _ _ _ _ _ Hm) as [-> ->]; by exists None. }
  assert (semantic_change (Some row) u source = false) as Hch by (by apply semantic_change_false).
  assert (can_reuse_protected (Some row) false source version' = true) as Hre.
  { unfold can_reuse_protected; cbn [is_some_and].
    by rewrite Hcs, Hks, !Bool.eqb_reflx, !bool_decide_true. }
  exists version'; destruct Hm; constructor; rewrite ?Hch, ?Hre; simpl; try done.
  - by rewrite (primary_verified_email_frame db).
  - by rewrite Hr.
  - destruct source as [[]|]; simpl; [by rewrite Hc, Hk|].
    exact mo_ciphertext0.
  - by rewrite Hd, Hid, Hc, Hk, Hh, Hb, json_eqb_refl, !bool_decide_true.
Qed.
(** A repair writes the new row, or finds that nothing is to be done. *)
Lemma repair_ok nonce x app u now db db' row m :
  repair_runtime_projection nonce x app u now db = (db', Ok (row, m)) ->
  authoritative_runtime_projection_material nonce db (Some x) app u = Ok m
  /\ (if pm_storage_repair_required m
      then row = repaired_projection x u m now /\ projection_accepts db row = true
           /\ db' = set_db_projections (<[pn_id x := row]> (db_projections db)) db
      else row = x /\ db' = db).
Proof.
  unfold repair_runtime_projection; intros Hr.
  apply mseq_ok in Hr as (d & a & Hget & Hr); unfold mget in Hget; injection Hget as <- <-.
  apply mseq_ok in Hr as (d & m' & Hm & Hr); apply mlift_ok in Hm as [Hm ->].
  destruct (pm_storage_repair_required m') eqn:Hreq.
  - cbv zeta in Hr; inv_txn; split; [done|]; rewrite Hreq; by split_and!.
  - unfold mret in Hr; injection Hr as <- <- <-; split; [done|]; by rewrite Hreq.
Qed.

(** one repair is enough: whatever state the row was in, after a repair the
    row agrees with the user and the email identity, and a second repair, at any
    later time, reports the same document and revision and writes nothing. *)
Theorem projection_repair_idempotent `{!ProjectionCryptographyLaws} nonce nonce' x app u now now'
    db db1 row m :
  row_context x app u ->
  repair_runtime_projection nonce x app u now db = (db1, Ok (row, m)) ->
  repair_runtime_projection nonce' row app u now' db1 = (db1, Ok (row, settled m)).
Proof.
  intros Hx Hr; apply repair_ok in Hr as [Hm Hr]; apply authoritative_ok in Hm as (source & version & Hm).
  assert (row = current_row x u m now /\ db_email_identities db1 = db_email_identities db)
    as [-> He] by (unfold current_row; destruct (pm_storage_repair_required m); naive_solver).
  destruct (settled_material nonce nonce' db db1 x app u m source version now Hm Hx He) as [v' Hm'].
  unfold repair_runtime_projection, mseq, mget, mlift.
  by rewrite (proj2 (authoritative_ok _ _ _ _ _ _) (ex_intro _ source (ex_intro _ v' Hm'))).
Qed.

(** C13: the stored projection never holds the verified address in clear: the
    document in the row is the same for every address the user could have, with
    [null] in its place, and yet the row determines the document the
    application is given, address included. *)
Theorem stored_projection_hides_address `{!ProjectionCryptographyLaws} nonce x app u now db db1 row m :
  row_context x app u ->
  repair_runtime_projection nonce x app u now db = (db1, Ok (row, m)) ->
  json_get "verified_email" (pn_document row) = Some JNull
  /\ (forall e d h, projection_material_with_verified_email u (pm_revision m) e = Ok (d, h) ->
        safe_projection_document d = Ok (pn_document row))
  /\ wire_projection_document row = Ok (pm_document m).
Proof.
  intros Hx Hr; apply repair_ok in Hr as [Hm Hr]; apply authoritative_ok in Hm as (source & version & Hm).
  assert (row = current_row x u m now) as ->
    by (unfold current_row; destruct (pm_storage_repair_required m); naive_solver).
  destruct (current_row_fields _ _ _ _ _ _ _ _ now Hm) as (_ & _ & _ & _ & _ & _ & _ & Hd & _).
  pose proof (current_row_wire _ _ _ _ _ _ _ _ now Hm Hx) as Hw; rewrite Hd; destruct Hm.
  split_and!; [|intros e d h Hmat|exact Hw].
  - destruct (material_ok _ _ _ _ _ mo_material0) as (p & c & t & Hdoc & _).
    rewrite Hdoc, safe_document in mo_storage0; by injection mo_storage0 as <-.
  - rewrite <- mo_storage0; by eapply material_same_profile.
Qed.
End proofs.

(** ** A worked projection: a user who signed up by email and changed since *)
Fixpoint text_of (l : list Z) : string :=
  match l with
  | [] => EmptyString
  | b :: r => String (Ascii.ascii_of_N (Z.to_N b)) (text_of r)
  end.

Lemma text_of_bytes s : text_of (bytes s) = s.
Proof.
  induction s as [|a s IH]; simpl; [done|].
  by rewrite IH; unfold byte_of; rewrite N2Z.id, Ascii.ascii_N_embedding.
Qed.

#[export] Instance sample_hash : CanonicalHash :=
  {| json_to_vec := fun _ => Some []; sha256 := fun _ => repeat 1 32 |}.
#[export] Instance sample_time : TimeFormat :=
  {| format_rfc3339 := fun _ => Some "1970-01-01T00:00:00Z"%string |}.
#[export] Instance sample_jsonb : JsonbText := {| jsonb_text_len := fun _ => 512 |}.
#[export] Existing Instance toy_url_lib.

(** A stand-in cipher: forty bytes of header, then the text. *)
#[export] Instance sample_crypto : ProjectionCryptography :=
  {| projection_write_version := 1;
     projection_readable_versions := [1];
     read_durable_email := fun _ _ _ => Ok "user@example.com"%string;
     protect_projection_email := fun _ _ _ _ _ e => Ok (mkProtectedValue (repeat 0 40 ++ e) 1);
     unprotect_projection_email := fun _ _ _ _ v => Ok (text_of (drop 40 (pv_ciphertext v))) |}.

#[export] Instance sample_crypto_laws : ProjectionCryptographyLaws.
Proof.
  constructor; simpl; [intros ? ? ? ? ? e ? [= <-]; simpl | by intros ? ? ? ? ? ? ? [= <-]].
  by rewrite drop_0, text_of_bytes.
Qed.

Definition sample_user : UserRow :=
  mkUserRow 3 1 "usr_12345678" "active" None 2 1 None (Some 20) "email" (repeat 2 32) false None
    false None false None (Some "Ada"%string) None None 0 0.
Definition sample_user_binding : UserBindingRow :=
  mkUserBindingRow 6 1 2 3 "active" 1 None None 0 0.
(** The same user with a picture: an https URL is projected, an http one is not. *)
Definition pictured_user (picture : string) : UserRow :=
  mkUserRow 3 1 "usr_12345678" "active" None 2 1 None (Some 20) "email" (repeat 2 32) false None
    false None false None (Some "Ada"%string) (Some picture) None 0 0.
Example picture_is_projected :
  is_ok (projection_material_with_verified_email (pictured_user "https://app.example/callback") 1
           (Some "ada@example.test"%string)) = true
  /\ projection_material_with_verified_email (pictured_user "http://127.0.0.1/callback") 1 None
     = Err AppError.Integrity.
Proof. split; vm_compute; reflexivity. Qed.

(** The row still shows the user's first revision, without an address. *)
Definition sample_projection : ProjectionRow :=
  mkProjectionRow 7 1 6 2 3 "owlauth.user.v1" 1 1 (repeat 1 32) (repeat 2 32) None None None
    (JObject [("verified_email"%string, JNull)]) 0 0.

Definition projection_db : Database :=
  {| db_projects := ∅; db_applications := ∅; db_users := {[3 := sample_user]}; db_policies := ∅;
     db_rings := ∅; db_keys := ∅; db_browsers := ∅; db_bindings := {[6 := sample_user_binding]};
     db_projections := {[7 := sample_projection]}; db_sessions := ∅; db_families := ∅;
     db_generations := ∅; db_logouts := ∅;
     db_email_identities := {[20 := mkEmailIdentityRow 1 3 "active" (repeat 0 41) 1 (Some 0) 1 1 0 0]};
     db_login := no_login_rows; db_webhook := no_webhook_rows;
     db_audit := [] |}.

Definition sample_repair : Database * result ApplicationError (ProjectionRow * ProjectionMaterial) :=
  repair_runtime_projection [] sample_projection 2 sample_user (seconds 4) projection_db.

Lemma projection_repair_idempotent_witness :
  exists row m,
    sample_repair.2 = Ok (row, m) /\ pm_semantic_change m = true
    /\ pn_projection_revision row = 2
    /\ repair_runtime_projection [] row 2 sample_user (seconds 9) sample_repair.1
       = (sample_repair.1, Ok (row, settled m)).
Proof.
  destruct sample_repair as [db1 [[row m]|e]] eqn:Hr; [|vm_compute in Hr; discriminate Hr].
  exists row, m; split; [reflexivity|]; split; [|split].
  - revert Hr; vm_compute; intros [= _ _ <-]; reflexivity.
  - revert Hr; vm_compute; intros [= _ <- _]; reflexivity.
  - apply (projection_repair_idempotent [] [] sample_projection 2 sample_user (seconds 4) (seconds 9)
             projection_db); [split; reflexivity|exact Hr].
Defined.

Lemma stored_projection_hides_address_witness :
  exists row m,
    sample_repair.2 = Ok (row, m)
    /\ json_get "verified_email" (pn_document row) = Some JNull
    /\ wire_projection_document row = Ok (pm_document m)
    /\ json_get "verified_email" (pm_document m) = Some (JString "user@example.com").
Proof.
  destruct sample_repair as [db1 [[row m]|e]] eqn:Hr; [|vm_compute in Hr; discriminate Hr].
  destruct (stored_projection_hides_address [] sample_projection 2 sample_user (seconds 4)
              projection_db db1 row m) as (Hn & _ & Hw); [split; reflexivity|exact Hr|].
  exists row, m; split_and!; [reflexivity|exact Hn|exact Hw|].
  revert Hr; vm_compute; intros [= _ _ <-]; reflexivity.
Defined.
