(* ===== verification/WebhookOutbox.v ===== *)
(** * The webhook outbox

    [append_projection_event] and [event_raw_body] of [adapters/postgres/webhook.rs],
    and [fan_out_projected_user] of [adapters/postgres/projection.rs].  A change
    of what an application is shown becomes an immutable event and one pending
    delivery for every active endpoint of the application that subscribes to it.
    The stored body has [null] for the verified address; what is sent is rebuilt
    from the body and the ciphertext, and checked against the stored digest.

    The clock of the transaction ([transaction_timestamp()]) and the random UUIDs
    and nonces a call draws are arguments. *)
From S2P Require Import Prelude.
From S2P Require Import Json.
From S2P Require Import WebhookTables.
From S2P Require Import Webhooks.
From S2P Require Import UrlValues.
From S2P Require Import Database.
From S2P Require Import Projection.

Definition MAX_APPLICATION_BINDINGS_PER_USER : Z := 64.

(** [Uuid::simple]: 32 lower-case hexadecimal digits. *)
Definition hex_digit (n : Z) : Ascii.ascii :=
  Ascii.ascii_of_N (Z.to_N (if n <? 10 then 0x30 + n else 0x57 + n)).
Fixpoint hex_string (digits : nat) (v : Z) (rest : string) : string :=
  match digits with
  | O => rest
  | S d => hex_string d (v / 16) (String (hex_digit (v mod 16)) rest)
  end.
Definition uuid_simple (u : Uuid) : string := hex_string 32 u EmptyString.

(** ** Tables *)
Definition db_events (db : Database) := wt_events (db_webhook db).
Definition db_endpoints (db : Database) := wt_endpoints (db_webhook db).
Definition db_deliveries (db : Database) := wt_deliveries (db_webhook db).
Definition db_dispatch (db : Database) := wt_dispatch (db_webhook db).
Definition set_db_events t (db : Database) := set_db_webhook (set_wt_events t (db_webhook db)) db.
Definition set_db_deliveries t (db : Database) :=
  set_db_webhook (set_wt_deliveries t (db_webhook db)) db.
Definition set_db_dispatch t (db : Database) :=
  set_db_webhook (set_wt_dispatch t (db_webhook db)) db.

Definition user_event_accepts (db : Database) (row : UserEventRow) : bool :=
  user_event_check row
  && application_exists db (ue_project_id row) (ue_application_id row)
  && is_some (find_by_id (db_bindings db) (ue_binding_id row)
                (fun b => (ub_project_id b =? ue_project_id row)
                          && (ub_application_id b =? ue_application_id row)))
  && user_exists db (ue_project_id row) (ue_user_id row)
  && unique_in user_event_conflict (ue_id row) row (db_events db).

Definition insert_event (row : UserEventRow) : txn unit :=
  db <~ mget ;;
  check_that (is_none (db_events db !! ue_id row) && user_event_accepts db row)
    AppError.Persistence ;;~
  mmodify (set_db_events (<[ue_id row := row]> (db_events db))).

(** The foreign keys of a delivery that has not been claimed or replayed. *)
Definition delivery_accepts (db : Database) (row : WebhookDeliveryRow) : bool :=
  webhook_delivery_check row
  && is_some (find_by_id (db_endpoints db) (wd_endpoint_id row)
                (fun e => (we_project_id e =? wd_project_id row)
                          && (we_application_id e =? wd_application_id row)))
  && is_some (find_by_id (db_events db) (wd_event_id row)
                (fun e => (ue_project_id e =? wd_project_id row)
                          && (ue_application_id e =? wd_application_id row)))
  && is_some (db_dispatch db !! (wd_project_id row, wd_application_id row))
  && unique_in webhook_delivery_conflict (wd_id row) row (db_deliveries db).

Definition insert_delivery (row : WebhookDeliveryRow) : txn unit :=
  db <~ mget ;;
  check_that (is_none (db_deliveries db !! wd_id row) && delivery_accepts db row)
    AppError.Persistence ;;~
  mmodify (set_db_deliveries (<[wd_id row := row]> (db_deliveries db))).

(** [INSERT .. ON CONFLICT DO NOTHING], with the key to the application. *)
Definition ensure_dispatch_state (project_id application_id : Uuid) : txn unit :=
  db <~ mget ;;
  match db_dispatch db !! (project_id, application_id) with
  | Some _ => mret tt
  | None =>
      check_that (application_exists db project_id application_id) AppError.Persistence ;;~
      mmodify (set_db_dispatch (<[(project_id, application_id) := 0]> (db_dispatch db)))
  end.

(** ** Event bodies *)
(** [event_retention_window]. *)
Definition event_replay_until (occurred_at : OffsetDateTime) : OffsetDateTime :=
  occurred_at + seconds (29 * 24 * 3600).
Definition event_retain_until (occurred_at : OffsetDateTime) : OffsetDateTime :=
  occurred_at + seconds (30 * 24 * 3600).

(** Replaces the value of a field that is there. *)
Fixpoint object_replace (key : string) (v : json) (fields : list (string * json)) :
    option (list (string * json)) :=
  match fields with
  | [] => None
  | (k, w) :: r =>
      if bool_decide (k = key) then Some ((k, v) :: r)
      else rest ← object_replace key v r; Some ((k, w) :: rest)
  end.
Definition json_replace (key : string) (v : json) (value : json) : option json :=
  match value with
  | JObject fields => JObject <$> object_replace key v fields
  | _ => None
  end.

(** [body.pointer_mut("/data/projection/verified_email")?.clone_from(&email)]. *)
Definition set_body_email (email : json) (body : json) : option json :=
  data ← json_get "data" body;
  projection ← json_get "projection" data;
  projection' ← json_replace "verified_email" email projection;
  data' ← json_replace "projection" projection' data;
  json_replace "data" data' body.

Section outbox.
Context `{CanonicalHash} `{ProjectionCryptography} `{UrlLib} `{TimeFormat} `{JsonbText}.

Definition event_body (project_public_id application_public_id event_id occurred_at : string)
    (user_id wire_projection : json) (projection : ProjectionRow)
    (event_type : UserEvent.ApplicationUserEventType) : json :=
  JObject [("application_id", JString application_public_id);
           ("data", JObject [("projection", wire_projection)]);
           ("event_id", JString event_id);
           ("occurred_at", JString occurred_at);
           ("project_id", JString project_public_id);
           ("projection_revision", JInt (pn_projection_revision projection));
           ("projection_schema", JString "owlauth.user.v1");
           ("type", JString (UserEvent.ApplicationUserEventType_as_str event_type));
           ("user_id", user_id);
           ("user_revision", JInt (pn_source_user_revision projection))]%string.

Definition user_event_row (event_uuid binding_id : Uuid) (occurred_at : OffsetDateTime)
    (projection : ProjectionRow) (event_type : UserEvent.ApplicationUserEventType) (safe_body : json)
    (digest : list Z) : UserEventRow :=
  {| ue_id := event_uuid;
     ue_event_id := String.append "evt_" (uuid_simple event_uuid);
     ue_project_id := pn_project_id projection;
     ue_application_id := pn_application_id projection;
     ue_binding_id := binding_id;
     ue_user_id := pn_user_id projection;
     ue_event_type := UserEvent.ApplicationUserEventType_as_str event_type;
     ue_user_revision := pn_source_user_revision projection;
     ue_projection_revision := pn_projection_revision projection;
     ue_projection_schema := "owlauth.user.v1";
     ue_safe_body := safe_body;
     ue_canonical_body_digest := digest;
     ue_verified_email_source_identity_id := pn_verified_email_source_identity_id projection;
     ue_verified_email_ciphertext := pn_verified_email_ciphertext projection;
     ue_verified_email_key_version := pn_verified_email_key_version projection;
     ue_occurred_at := occurred_at;
     ue_replay_until := event_replay_until occurred_at;
     ue_retain_until := event_retain_until occurred_at;
     ue_created_at := occurred_at |}.

Definition pending_delivery (id : Uuid) (event : UserEventRow) (endpoint_id : Uuid) :
    WebhookDeliveryRow :=
  {| wd_id := id; wd_project_id := ue_project_id event;
     wd_application_id := ue_application_id event; wd_endpoint_id := endpoint_id;
     wd_event_id := ue_id event; wd_replay_sequence := 0; wd_replay_of_delivery_id := None;
     wd_state := "pending"; wd_attempt_count := 0; wd_next_attempt_at := ue_occurred_at event;
     wd_lease_owner := None; wd_lease_incarnation := None; wd_lease_generation := 0;
     wd_lease_expires_at := None; wd_claimed_secret_generation := None;
     wd_claimed_overlap_generation := None; wd_claimed_secret_material_id := None;
     wd_claimed_overlap_material_id := None; wd_last_outcome_class := None;
     wd_last_http_status := None; wd_created_at := ue_occurred_at event;
     wd_updated_at := ue_occurred_at event; wd_delivered_at := None; wd_terminal_at := None |}.

Definition subscribes (event_type : UserEvent.ApplicationUserEventType) (endpoint : WebhookEndpointRow) :
    bool :=
  existsb (fun value => bool_decide (value = UserEvent.ApplicationUserEventType_as_str event_type))
    (we_subscribed_event_types endpoint).

(** The loop over the endpoints; [delivery_id] gives the random id per endpoint. *)
Fixpoint enqueue_deliveries (delivery_id : Uuid -> Uuid) (event : UserEventRow)
    (event_type : UserEvent.ApplicationUserEventType) (endpoints : list WebhookEndpointRow) : txn unit :=
  match endpoints with
  | [] => mret tt
  | endpoint :: rest =>
      (if subscribes event_type endpoint
       then insert_delivery (pending_delivery (delivery_id (we_id endpoint)) event (we_id endpoint))
       else mret tt) ;;~
      enqueue_deliveries delivery_id event event_type rest
  end.

Definition active_endpoints (db : Database) (project_id application_id : Uuid) :
    list WebhookEndpointRow :=
  find_all (db_endpoints db)
    (fun e => (we_project_id e =? project_id) && (we_application_id e =? application_id)
              && bool_decide (we_status e = "active"%string))
    (key_le we_id) (MAX_WEBHOOK_ENDPOINTS_PER_APPLICATION + 1).

Definition append_projection_event (clock : OffsetDateTime) (event_uuid : Uuid)
    (delivery_id : Uuid -> Uuid) (project_public_id application_public_id : string)
    (binding_id : Uuid) (projection : ProjectionRow) (wire_projection : json)
    (event_type : UserEvent.ApplicationUserEventType) : txn UserEventRow :=
  occurred_at_text <~ mlift (ok_or (format_rfc3339 clock) AppError.Integrity) ;;
  user_id <~ mlift (ok_or (json_get "user_id" wire_projection) AppError.Integrity) ;;
  let body := event_body project_public_id application_public_id
                (String.append "evt_" (uuid_simple event_uuid)) occurred_at_text user_id
                wire_projection projection event_type in
  canonical <~ mlift (ok_or (json_to_vec body) AppError.Integrity) ;;
  safe_body <~ mlift (ok_or (set_body_email JNull body) AppError.Integrity) ;;
  let event := user_event_row event_uuid binding_id clock projection event_type safe_body
                 (sha256 canonical) in
  insert_event event ;;~
  db <~ mget ;;
  let endpoints := active_endpoints db (pn_project_id projection) (pn_application_id projection) in
  if MAX_WEBHOOK_ENDPOINTS_PER_APPLICATION <? list_len endpoints then mfail AppError.Integrity
  else
    ensure_dispatch_state (pn_project_id projection) (pn_application_id projection) ;;~
    enqueue_deliveries delivery_id event event_type endpoints ;;~
    mret event.

(** The bytes a delivery sends. *)
Definition event_raw_body (event : UserEventRow) : result ApplicationError (list Z) :=
  body <-?
    match ue_verified_email_source_identity_id event, ue_verified_email_ciphertext event,
          ue_verified_email_key_version event with
    | None, None, None => Ok (ue_safe_body event)
    | Some _, Some ciphertext, Some key_version =>
        if 0 <? key_version then
          plaintext <-?
            unprotect_projection_email (ue_project_id event) (ue_application_id event)
              (ue_user_id event) (ue_projection_revision event)
              (mkProtectedValue ciphertext key_version) ;;
          ok_or (set_body_email (JString plaintext) (ue_safe_body event)) AppError.Integrity
        else Err AppError.Integrity
    | _, _, _ => Err AppError.Integrity
    end ;;
  raw <-? ok_or (json_to_vec body) AppError.Integrity ;;
  if negb (bool_decide (ue_canonical_body_digest event = sha256 raw))
  then Err AppError.Integrity
  else Ok raw.

(** ** Fan-out over a user's applications *)
(** The random values drawn for a binding. *)
Record Draws := mkDraws {
  dr_nonce : Uuid -> list Z;
  dr_event : Uuid -> Uuid;
  dr_delivery : Uuid -> Uuid -> Uuid
}.

Definition active_bindings (db : Database) (user : UserRow) : list UserBindingRow :=
  find_all (db_bindings db)
    (fun b => (ub_project_id b =? us_project_id user) && (ub_user_id b =? us_id user)
              && bool_decide (ub_status b = "active"%string))
    (key_le ub_application_id) (MAX_APPLICATION_BINDINGS_PER_USER + 1).

Definition fan_out_binding (clock : OffsetDateTime) (draws : Draws) (project : ProjectRow)
    (user : UserRow) (now : OffsetDateTime) (binding : UserBindingRow) : txn unit :=
  db <~ mget ;;
  application <~ mlift (ok_or (find_by_id (db_applications db) (ub_application_id binding)
                                 (fun a => ap_project_id a =? us_project_id user))
                          AppError.Integrity) ;;
  if negb (bool_decide (ap_status application = "active"%string)) then mret tt
  else
    projection <~ mlift (ok_or (find_one (db_projections db)
                                  (fun x => (pn_project_id x =? us_project_id user)
                                            && (pn_binding_id x =? ub_id binding)))
                           AppError.Integrity) ;;
    let binding_id := pn_binding_id projection in
    repaired <~ repair_runtime_projection (dr_nonce draws binding_id) projection
                  (ap_id application) user now ;;
    if pm_semantic_change repaired.2 then
      append_projection_event clock (dr_event draws binding_id) (dr_delivery draws binding_id)
        (pj_public_id project) (ap_public_id application) binding_id repaired.1
        (pm_document repaired.2)
        (if bool_decide (us_status user = "disabled"%string) then UserEvent.Disabled else UserEvent.Updated) ;;~
      mret tt
    else mret tt.

Fixpoint fan_out_bindings (clock : OffsetDateTime) (draws : Draws) (project : ProjectRow)
    (user : UserRow) (now : OffsetDateTime) (bindings : list UserBindingRow) : txn unit :=
  match bindings with
  | [] => mret tt
  | binding :: rest =>
      fan_out_binding clock draws project user now binding ;;~
      fan_out_bindings clock draws project user now rest
  end.

Definition fan_out_projected_user (clock : OffsetDateTime) (draws : Draws) (user : UserRow)
    (now : OffsetDateTime) : txn unit :=
  db <~ mget ;;
  project <~ mlift (ok_or (db_projects db !! us_project_id user) AppError.Integrity) ;;
  if negb (bool_decide (pj_status project = "active"%string)) then mret tt
  else
    let bindings := active_bindings db user in
    if MAX_APPLICATION_BINDINGS_PER_USER <? list_len bindings then mfail AppError.Integrity
    else fan_out_bindings clock draws project user now bindings.
End outbox.

(** ** What a successful statement did *)
Lemma insert_event_ok row db db' :
  insert_event row db = (db', Ok tt) <->
  is_none (db_events db !! ue_id row) = true /\ user_event_accepts db row = true
  /\ db' = set_db_events (<[ue_id row := row]> (db_events db)) db.
Proof. unfold insert_event; solve_statement. Qed.

Lemma insert_delivery_ok row db db' :
  insert_delivery row db = (db', Ok tt) <->
  is_none (db_deliveries db !! wd_id row) = true /\ delivery_accepts db row = true
  /\ db' = set_db_deliveries (<[wd_id row := row]> (db_deliveries db)) db.
Proof. unfold insert_delivery; solve_statement. Qed.
