(* ===== verification/WebhookDelivery.v ===== *)
(** * Webhook delivery: leases

    The runtime half of [adapters/postgres/webhook.rs]: a worker claims a pending
    delivery, which leases it, sends it, and finishes the claim; leases that run
    out are recovered; overlapping secrets and the secrets of disabled endpoints
    are retired and their erasure queued; old rows are removed.

    The store is the [Database] of the outbox with the tables only the worker
    uses.  A query made before a transaction takes its locks sees an earlier
    store: a [Read] is such a snapshot with the clock of its transaction, and is
    an argument.  So are the clocks ([now] of the worker, [transaction_timestamp()]
    and [clock_timestamp()] of the store), random identifiers, the next value of
    the claim sequence, and whether [SKIP LOCKED] skipped the chosen row. *)
From S2P Require Import Prelude.
From S2P Require Import Json.
From S2P Require Import WebhookTables.
From S2P Require Import Webhooks.
From S2P Require Import UrlValues.
From S2P Require Import Database.
From S2P Require Import Projection.
From S2P Require Import WebhookOutbox.

Definition MAX_WEBHOOK_DELIVERY_ATTEMPTS : Z := 12.
Definition i32_max : Z := 2 ^ 31 - 1.

(** ** Tables *)
Record WebhookSecretRow := mkWebhookSecretRow {
  ws_endpoint_id : Uuid; ws_generation : Z; ws_idempotency_key : string;
  ws_request_fingerprint : list Z; ws_safe_fingerprint : option string; ws_state : string;
  ws_created_at : OffsetDateTime; ws_provisioned_at : option OffsetDateTime;
  ws_activated_at : option OffsetDateTime; ws_retired_at : option OffsetDateTime;
  ws_material_id : Uuid
}.

Record WebhookAttemptRow := mkWebhookAttemptRow {
  wa_delivery_id : Uuid; wa_attempt_number : Z; wa_lease_generation : Z;
  wa_attempted_at : OffsetDateTime; wa_attempt_timestamp : Z; wa_outcome_class : string;
  wa_http_status : option Z; wa_duration_millis : Z; wa_correlation_id : Uuid
}.

(** [webhook_secret_cleanup_operations]. *)
Record WebhookCleanupRow := mkWebhookCleanupRow {
  wc_id : Uuid; wc_endpoint_id : Uuid; wc_generation : Z; wc_state : string;
  wc_lease_owner : option string; wc_lease_incarnation : option Uuid; wc_lease_generation : Z;
  wc_lease_expires_at : option OffsetDateTime; wc_not_before : OffsetDateTime;
  wc_created_at : OffsetDateTime; wc_updated_at : OffsetDateTime;
  wc_erased_at : option OffsetDateTime; wc_material_id : Uuid
}.

Record DeliveryStore := mkDeliveryStore {
  dl_db : Database;
  dl_secrets : gmap (Z * Z) WebhookSecretRow;
  dl_attempts : gmap (Z * Z) WebhookAttemptRow;
  dl_cleanups : gmap Z WebhookCleanupRow
}.

Definition set_dl_db d (s : DeliveryStore) : DeliveryStore :=
  mkDeliveryStore d (dl_secrets s) (dl_attempts s) (dl_cleanups s).
Definition set_dl_secrets t (s : DeliveryStore) : DeliveryStore :=
  mkDeliveryStore (dl_db s) t (dl_attempts s) (dl_cleanups s).
Definition set_dl_attempts t (s : DeliveryStore) : DeliveryStore :=
  mkDeliveryStore (dl_db s) (dl_secrets s) t (dl_cleanups s).
Definition set_dl_cleanups t (s : DeliveryStore) : DeliveryStore :=
  mkDeliveryStore (dl_db s) (dl_secrets s) (dl_attempts s) t.

Definition deliveries (s : DeliveryStore) := db_deliveries (dl_db s).
Definition endpoints (s : DeliveryStore) := db_endpoints (dl_db s).

(** A snapshot and its transaction's clock. *)
Record Read := mkRead { rd_store : DeliveryStore; rd_at : OffsetDateTime }.

(** ** Transactions over the store *)
Definition dtxn (A : Type) : Type := mut DeliveryStore ApplicationError A.

Definition d_transaction {A : Type} (body : dtxn A) : dtxn A := fun s =>
  match body s with
  | (s', Ok a) => (s', Ok a)
  | (_, Err e) => (s, Err e)
  end.

Definition d_check (c : bool) (e : ApplicationError) : dtxn unit :=
  if c then mret tt else mfail e.

Definition in_database {A : Type} (body : txn A) : dtxn A := fun s =>
  match body (dl_db s) with
  | (db, r) => (set_dl_db db s, r)
  end.

(** ** Statements *)
Definition webhook_endpoint_check (row : WebhookEndpointRow) : bool :=
  (negb (bool_decide (we_status row = "active"%string)) || is_some (we_last_test_succeeded_at row))
  && Bool.eqb (bool_decide (we_status row = "disabled"%string)) (is_some (we_disabled_at row))
  && match we_overlap_secret_generation row, we_overlap_expires_at row with
     | None, None => true
     | Some overlap, Some _ =>
         (** [overlap <> NULL] is unknown, which a check accepts. *)
         match we_current_secret_generation row with
         | Some current => negb (overlap =? current)
         | None => true
         end
     | _, _ => false
     end
  && ((bool_decide (we_status row = "pending"%string) && is_none (we_current_secret_generation row))
      || (bool_decide (we_status row = "active"%string) && is_some (we_current_secret_generation row))
      || bool_decide (we_status row = "disabled"%string))
  && in_range 1 3 (list_len (we_subscribed_event_types row))
  && forallb (fun t => bool_decide (t ∈ ["user.projection.created"; "user.projection.updated";
                                         "user.projection.disabled"]%string))
       (we_subscribed_event_types row)
  && bool_decide (we_last_test_succeeded_at row = we_last_tested_at row)
  && (0 <=? we_consecutive_failure_count row)
  && match we_current_secret_generation row with Some g => 0 <? g | None => true end
  && match we_overlap_secret_generation row with Some g => 0 <? g | None => true end
  && (0 <? we_revision row)
  && (list_len (we_secret_request_fingerprint row) =? 32)
  && bool_decide (we_status row ∈ ["pending"; "active"; "disabled"]%string).

Definition webhook_attempt_check (row : WebhookAttemptRow) : bool :=
  (0 <? wa_attempt_number row)
  && (0 <? wa_attempt_timestamp row)
  && (0 <=? wa_duration_millis row)
  && match wa_http_status row with Some status => in_range 100 599 status | None => true end
  && (0 <? wa_lease_generation row).

Definition webhook_secret_check (row : WebhookSecretRow) : bool :=
  ((bool_decide (ws_state row = "pending"%string)
    && is_none (ws_activated_at row) && is_none (ws_retired_at row))
   || (bool_decide (ws_state row ∈ ["active"; "overlap"]%string)
       && is_some (ws_activated_at row) && is_none (ws_retired_at row))
   || (bool_decide (ws_state row ∈ ["retired"; "compromised"]%string)
       && is_some (ws_retired_at row)))
  && (0 <? ws_generation row)
  && (list_len (ws_request_fingerprint row) =? 32)
  && (bool_decide (ws_state row ∈ ["pending"; "retired"]%string) || is_some (ws_provisioned_at row)).

(** Updates of a row that is there; the keys to other tables do not change. *)
Definition update_delivery (row : WebhookDeliveryRow) : dtxn unit :=
  s <~ mget ;;
  d_check (is_some (deliveries s !! wd_id row) && webhook_delivery_check row)
    AppError.Persistence ;;~
  mmodify (set_dl_db (set_db_deliveries (<[wd_id row := row]> (deliveries s)) (dl_db s))).

Definition update_endpoint_row (row : WebhookEndpointRow) : dtxn unit :=
  s <~ mget ;;
  d_check (is_some (endpoints s !! we_id row) && webhook_endpoint_check row)
    AppError.Persistence ;;~
  mmodify (set_dl_db (set_db_webhook (set_wt_endpoints (<[we_id row := row]> (endpoints s))
                                        (db_webhook (dl_db s))) (dl_db s))).

Definition update_secret (row : WebhookSecretRow) : dtxn unit :=
  s <~ mget ;;
  let key := (ws_endpoint_id row, ws_generation row) in
  d_check (is_some (dl_secrets s !! key) && webhook_secret_check row) AppError.Persistence ;;~
  mmodify (set_dl_secrets (<[key := row]> (dl_secrets s))).

(** The primary key is the delivery and the attempt number. *)
Definition insert_attempt (row : WebhookAttemptRow) : dtxn unit :=
  s <~ mget ;;
  let key := (wa_delivery_id row, wa_attempt_number row) in
  d_check (is_none (dl_attempts s !! key) && is_some (deliveries s !! wa_delivery_id row)
           && webhook_attempt_check row) AppError.Persistence ;;~
  mmodify (set_dl_attempts (<[key := row]> (dl_attempts s))).

(** ** Owners *)
Definition lock_application_owners (project_id application_id : Uuid) :
    dtxn (ProjectRow * ApplicationRow) :=
  s <~ mget ;;
  project <~ mlift (ok_or (db_projects (dl_db s) !! project_id) AppError.NotFound) ;;
  application <~ mlift (ok_or (find_by_id (db_applications (dl_db s)) application_id
                                 (fun a => ap_project_id a =? project_id)) AppError.NotFound) ;;
  mret (project, application).

Definition is_active (status : string) : bool := bool_decide (status = "active"%string).

Definition lock_active_application (project_id application_id : Uuid) : dtxn ApplicationRow :=
  owners <~ lock_application_owners project_id application_id ;;
  if negb (is_active (pj_status owners.1)) then mfail AppError.Disabled
  else if negb (is_active (ap_status owners.2)) then mfail AppError.Disabled
  else mret owners.2.

Definition lock_endpoint (project_id application_id endpoint_id : Uuid) : dtxn WebhookEndpointRow :=
  s <~ mget ;;
  mlift (ok_or (find_by_id (endpoints s) endpoint_id
                  (fun e => (we_project_id e =? project_id)
                            && (we_application_id e =? application_id))) AppError.NotFound).

Definition owners_active (project : ProjectRow) (application : ApplicationRow)
    (endpoint : WebhookEndpointRow) : bool :=
  is_active (pj_status project) && is_active (ap_status application)
  && is_active (we_status endpoint).

(** ** Rows written *)
(** A delivery that gives up its lease. *)
Definition delivery_released (state : string) (next_attempt_at : OffsetDateTime)
    (outcome_class : string) (http_status : option Z) (delivered_at : option OffsetDateTime)
    (now : OffsetDateTime) (d : WebhookDeliveryRow) : WebhookDeliveryRow :=
  {| wd_id := wd_id d; wd_project_id := wd_project_id d; wd_application_id := wd_application_id d;
     wd_endpoint_id := wd_endpoint_id d; wd_event_id := wd_event_id d;
     wd_replay_sequence := wd_replay_sequence d;
     wd_replay_of_delivery_id := wd_replay_of_delivery_id d;
     wd_state := state; wd_attempt_count := wd_attempt_count d;
     wd_next_attempt_at := next_attempt_at; wd_lease_owner := None; wd_lease_incarnation := None;
     wd_lease_generation := wd_lease_generation d; wd_lease_expires_at := None;
     wd_claimed_secret_generation := None; wd_claimed_overlap_generation := None;
     wd_claimed_secret_material_id := None; wd_claimed_overlap_material_id := None;
     wd_last_outcome_class := Some outcome_class; wd_last_http_status := http_status;
     wd_created_at := wd_created_at d; wd_updated_at := now;
     wd_delivered_at := delivered_at;
     wd_terminal_at := if bool_decide (state ∈ ["terminal"; "cancelled"]%string)
                       then Some now else None |}.

Definition delivery_leased (owner : string) (incarnation : Uuid) (clock : OffsetDateTime)
    (lease_seconds : Z) (secret overlap : option Z) (material overlap_material : option Uuid)
    (d : WebhookDeliveryRow) : WebhookDeliveryRow :=
  {| wd_id := wd_id d; wd_project_id := wd_project_id d; wd_application_id := wd_application_id d;
     wd_endpoint_id := wd_endpoint_id d; wd_event_id := wd_event_id d;
     wd_replay_sequence := wd_replay_sequence d;
     wd_replay_of_delivery_id := wd_replay_of_delivery_id d;
     wd_state := "leased"; wd_attempt_count := wd_attempt_count d + 1;
     wd_next_attempt_at := wd_next_attempt_at d; wd_lease_owner := Some owner;
     wd_lease_incarnation := Some incarnation; wd_lease_generation := wd_lease_generation d + 1;
     wd_lease_expires_at := Some (clock + seconds lease_seconds);
     wd_claimed_secret_generation := secret; wd_claimed_overlap_generation := overlap;
     wd_claimed_secret_material_id := material; wd_claimed_overlap_material_id := overlap_material;
     wd_last_outcome_class := wd_last_outcome_class d; wd_last_http_status := wd_last_http_status d;
     wd_created_at := wd_created_at d; wd_updated_at := clock;
     wd_delivered_at := wd_delivered_at d; wd_terminal_at := wd_terminal_at d |}.

Definition delivery_cancelled (clock : OffsetDateTime) (d : WebhookDeliveryRow) : WebhookDeliveryRow :=
  {| wd_id := wd_id d; wd_project_id := wd_project_id d; wd_application_id := wd_application_id d;
     wd_endpoint_id := wd_endpoint_id d; wd_event_id := wd_event_id d;
     wd_replay_sequence := wd_replay_sequence d;
     wd_replay_of_delivery_id := wd_replay_of_delivery_id d;
     wd_state := "cancelled"; wd_attempt_count := wd_attempt_count d;
     wd_next_attempt_at := wd_next_attempt_at d; wd_lease_owner := wd_lease_owner d;
     wd_lease_incarnation := wd_lease_incarnation d; wd_lease_generation := wd_lease_generation d;
     wd_lease_expires_at := wd_lease_expires_at d;
     wd_claimed_secret_generation := wd_claimed_secret_generation d;
     wd_claimed_overlap_generation := wd_claimed_overlap_generation d;
     wd_claimed_secret_material_id := wd_claimed_secret_material_id d;
     wd_claimed_overlap_material_id := wd_claimed_overlap_material_id d;
     wd_last_outcome_class := wd_last_outcome_class d; wd_last_http_status := wd_last_http_status d;
     wd_created_at := wd_created_at d; wd_updated_at := clock;
     wd_delivered_at := wd_delivered_at d; wd_terminal_at := Some clock |}.

(** The health of an endpoint after an attempt; [None] is a success. *)
Definition endpoint_attempted (failure : option string) (now : OffsetDateTime)
    (e : WebhookEndpointRow) : WebhookEndpointRow :=
  {| we_id := we_id e; we_project_id := we_project_id e; we_application_id := we_application_id e;
     we_public_id := we_public_id e; we_idempotency_key := we_idempotency_key e;
     we_secret_request_fingerprint := we_secret_request_fingerprint e; we_url := we_url e;
     we_subscribed_event_types := we_subscribed_event_types e; we_status := we_status e;
     we_revision := we_revision e; we_current_secret_generation := we_current_secret_generation e;
     we_overlap_secret_generation := we_overlap_secret_generation e;
     we_overlap_expires_at := we_overlap_expires_at e;
     we_consecutive_failure_count :=
       match failure with
       | None => 0
       | Some _ => if we_consecutive_failure_count e + 1 <=? i32_max
                   then we_consecutive_failure_count e + 1 else i32_max
       end;
     we_last_delivery_at := Some now;
     we_last_success_at := match failure with None => Some now | Some _ => we_last_success_at e end;
     we_last_failure_class := failure;
     we_last_tested_at := we_last_tested_at e;
     we_last_test_succeeded_at := we_last_test_succeeded_at e; we_created_at := we_created_at e;
     we_updated_at := now; we_disabled_at := we_disabled_at e |}.

(** An endpoint whose secrets are dropped, all of them ([status] and revision as
    given) or the overlapping one. *)
Definition endpoint_secrets (status : string) (revision : Z) (disabled_at : option OffsetDateTime)
    (current : option Z) (now : OffsetDateTime) (e : WebhookEndpointRow) : WebhookEndpointRow :=
  {| we_id := we_id e; we_project_id := we_project_id e; we_application_id := we_application_id e;
     we_public_id := we_public_id e; we_idempotency_key := we_idempotency_key e;
     we_secret_request_fingerprint := we_secret_request_fingerprint e; we_url := we_url e;
     we_subscribed_event_types := we_subscribed_event_types e; we_status := status;
     we_revision := revision; we_current_secret_generation := current;
     we_overlap_secret_generation := None; we_overlap_expires_at := None;
     we_consecutive_failure_count := we_consecutive_failure_count e;
     we_last_delivery_at := we_last_delivery_at e; we_last_success_at := we_last_success_at e;
     we_last_failure_class := we_last_failure_class e; we_last_tested_at := we_last_tested_at e;
     we_last_test_succeeded_at := we_last_test_succeeded_at e; we_created_at := we_created_at e;
     we_updated_at := now; we_disabled_at := disabled_at |}.

Definition secret_retired (now : OffsetDateTime) (r : WebhookSecretRow) : WebhookSecretRow :=
  mkWebhookSecretRow (ws_endpoint_id r) (ws_generation r) (ws_idempotency_key r)
    (ws_request_fingerprint r) (ws_safe_fingerprint r) "retired" (ws_created_at r)
    (ws_provisioned_at r) (ws_activated_at r) (Some now) (ws_material_id r).

(** ** Erasure of secrets *)
(** [ON CONFLICT (endpoint_id, generation) DO NOTHING]; the identifier and the
    material are unique too. *)
Definition enqueue_secret_cleanup (id : Uuid) (clock : OffsetDateTime) (endpoint_id : Uuid)
    (generation : Z) (material_id : Uuid) (now not_before : OffsetDateTime) : dtxn unit :=
  s <~ mget ;;
  let rows := map snd (map_to_list (dl_cleanups s)) in
  if existsb (fun c => (wc_endpoint_id c =? endpoint_id) && (wc_generation c =? generation)) rows
  then mret tt
  else
    d_check (is_none (dl_cleanups s !! id)
             && forallb (fun c => negb (wc_material_id c =? material_id)) rows
             && is_some (dl_secrets s !! (endpoint_id, generation)) && (0 <? generation))
      AppError.Persistence ;;~
    mmodify (set_dl_cleanups (<[id :=
      {| wc_id := id; wc_endpoint_id := endpoint_id; wc_generation := generation;
         wc_state := "pending"; wc_lease_owner := None; wc_lease_incarnation := None;
         wc_lease_generation := 0; wc_lease_expires_at := None;
         wc_not_before := if not_before <=? now then clock else not_before;
         wc_created_at := clock; wc_updated_at := clock; wc_erased_at := None;
         wc_material_id := material_id |}]> (dl_cleanups s))).

(** ** Retiring secrets *)
Definition overlap_expired (clock : OffsetDateTime) (e : WebhookEndpointRow) : bool :=
  is_some_and (we_overlap_expires_at e) (fun t => t <=? clock).

Definition expired_overlap_hint (r : Read) : option WebhookEndpointRow :=
  find_first (endpoints (rd_store r))
    (fun e => is_active (we_status e) && overlap_expired (rd_at r) e)
    (fun a b => match we_overlap_expires_at a, we_overlap_expires_at b with
                | Some x, Some y => (x <? y) || ((x =? y) && (we_id a <? we_id b))
                | _, _ => false
                end).

Definition retire_one_expired_overlap (seen : Read) (clock now : OffsetDateTime) (cleanup_id : Uuid) :
    dtxn bool :=
  match expired_overlap_hint seen with
  | None => mret false
  | Some hint =>
      d_transaction (
        _ <~ lock_application_owners (we_project_id hint) (we_application_id hint) ;;
        endpoint <~ lock_endpoint (we_project_id hint) (we_application_id hint) (we_id hint) ;;
        if negb (is_active (we_status endpoint)) || negb (overlap_expired clock endpoint)
        then mret false
        else
          generation <~ mlift (ok_or (we_overlap_secret_generation endpoint) AppError.Integrity) ;;
          s <~ mget ;;
          secret <~ mlift (ok_or (dl_secrets s !! (we_id endpoint, generation)) AppError.Integrity) ;;
          (if bool_decide (ws_state secret = "overlap"%string) then update_secret (secret_retired now secret)
           else if negb (bool_decide (ws_state secret = "retired"%string)) then mfail AppError.Integrity
           else mret tt) ;;~
          not_before <~ mlift (ok_or (we_overlap_expires_at endpoint) AppError.Integrity) ;;
          update_endpoint_row
            (endpoint_secrets (we_status endpoint) (we_revision endpoint) (we_disabled_at endpoint)
               (we_current_secret_generation endpoint) now endpoint) ;;~
          enqueue_secret_cleanup cleanup_id clock (we_id endpoint) generation (ws_material_id secret)
            now not_before ;;~
          mret true)
  end.

Definition retirable_states : list string := ["pending"; "active"; "overlap"]%string.

Definition disabled_owner_hint (r : Read) : option WebhookEndpointRow :=
  let s := rd_store r in
  find_first (endpoints s)
    (fun e =>
       match find_by_id (db_applications (dl_db s)) (we_application_id e)
               (fun a => ap_project_id a =? we_project_id e),
             db_projects (dl_db s) !! we_project_id e with
       | Some application, Some project =>
           (bool_decide (we_status e = "disabled"%string)
            || negb (is_active (ap_status application)) || negb (is_active (pj_status project)))
           && (is_some (we_current_secret_generation e) || is_some (we_overlap_secret_generation e)
               || existsb (fun x => (ws_endpoint_id x =? we_id e)
                                    && bool_decide (ws_state x = "pending"%string))
                    (map snd (map_to_list (dl_secrets s))))
       | _, _ => false
       end)
    (fun a b => (we_updated_at a <? we_updated_at b)
                || ((we_updated_at a =? we_updated_at b) && (we_id a <? we_id b))).

Definition secret_before (a b : WebhookSecretRow) : Prop := ws_generation a <= ws_generation b.
#[global] Instance secret_before_dec : RelDecision secret_before :=
  fun a b => Z_le_dec (ws_generation a) (ws_generation b).

Definition retirable_secrets (s : DeliveryStore) (endpoint_id : Uuid) : list WebhookSecretRow :=
  take 4 (merge_sort secret_before
    (List.filter (fun x => (ws_endpoint_id x =? endpoint_id)
                           && bool_decide (ws_state x ∈ retirable_states))
       (map snd (map_to_list (dl_secrets s))))).

Fixpoint retire_secrets (cleanup_id : Z -> Uuid) (clock now : OffsetDateTime) (endpoint_id : Uuid)
    (overlap_generation : option Z) (overlap_not_before : option OffsetDateTime)
    (generations : list WebhookSecretRow) : dtxn unit :=
  match generations with
  | [] => mret tt
  | secret :: rest =>
      update_secret (secret_retired now secret) ;;~
      not_before <~ (if bool_decide (overlap_generation = Some (ws_generation secret))
                     then mlift (ok_or overlap_not_before AppError.Integrity) else mret now) ;;
      enqueue_secret_cleanup (cleanup_id (ws_generation secret)) clock endpoint_id
        (ws_generation secret) (ws_material_id secret) now not_before ;;~
      retire_secrets cleanup_id clock now endpoint_id overlap_generation overlap_not_before rest
  end.

Definition retire_one_disabled_owner_endpoint (seen : Read) (clock now : OffsetDateTime)
    (cleanup_id : Z -> Uuid) : dtxn bool :=
  match disabled_owner_hint seen with
  | None => mret false
  | Some hint =>
      d_transaction (
        owners <~ lock_application_owners (we_project_id hint) (we_application_id hint) ;;
        endpoint <~ lock_endpoint (we_project_id hint) (we_application_id hint) (we_id hint) ;;
        if negb (bool_decide (we_status endpoint = "disabled"%string))
           && is_active (pj_status owners.1) && is_active (ap_status owners.2)
        then mret false
        else
          s <~ mget ;;
          let generations := retirable_secrets s (we_id endpoint) in
          if 3 <? list_len generations then mfail AppError.Integrity
          else
            overlap_not_before <~
              match we_overlap_secret_generation endpoint with
              | Some _ => t <~ mlift (ok_or (we_overlap_expires_at endpoint) AppError.Integrity) ;;
                          mret (Some t)
              | None => mret None
              end ;;
            let should_disable := negb (bool_decide (we_status endpoint = "disabled"%string)) in
            revision <~ (if should_disable
                         then mlift (ok_or (checked_add_i64 (we_revision endpoint) 1) AppError.Integrity)
                         else mret (we_revision endpoint)) ;;
            update_endpoint_row
              (endpoint_secrets (if should_disable then "disabled"%string else we_status endpoint)
                 revision (if should_disable then Some now else we_disabled_at endpoint) None now
                 endpoint) ;;~
            retire_secrets cleanup_id clock now (we_id endpoint)
              (we_overlap_secret_generation endpoint) overlap_not_before generations ;;~
            mret true)
  end.

(** ** Leases that ran out *)
Definition lease_expired (clock : OffsetDateTime) (d : WebhookDeliveryRow) : bool :=
  is_some_and (wd_lease_expires_at d) (fun t => t <=? clock).
Definition is_leased (d : WebhookDeliveryRow) : bool := bool_decide (wd_state d = "leased"%string).
Definition is_pending (d : WebhookDeliveryRow) : bool := bool_decide (wd_state d = "pending"%string).
Definition is_finished (d : WebhookDeliveryRow) : bool :=
  bool_decide (wd_state d ∈ ["delivered"; "terminal"; "cancelled"]%string).

Definition expired_delivery_hint (r : Read) : option WebhookDeliveryRow :=
  find_first (deliveries (rd_store r)) (fun d => is_leased d && lease_expired (rd_at r) d)
    (fun a b => match wd_lease_expires_at a, wd_lease_expires_at b with
                | Some x, Some y =>
                    (x <? y)
                    || ((x =? y) && ((wd_endpoint_id a <? wd_endpoint_id b)
                                     || ((wd_endpoint_id a =? wd_endpoint_id b)
                                         && (wd_id a <? wd_id b))))
                | _, _ => false
                end).

(** [OffsetDateTime::unix_timestamp]. *)
Definition unix_timestamp (t : OffsetDateTime) : Z := t / seconds 1.

Definition recovered_state (active : bool) (attempt_count : Z) : string :=
  if negb active then "cancelled"
  else if MAX_WEBHOOK_DELIVERY_ATTEMPTS <=? attempt_count then "terminal"
  else "pending".

Definition recover_locked (hint : WebhookDeliveryRow) (clock now : OffsetDateTime)
    (correlation_id : Uuid) : dtxn unit :=
  owners <~ lock_application_owners (wd_project_id hint) (wd_application_id hint) ;;
  endpoint <~ lock_endpoint (wd_project_id hint) (wd_application_id hint) (wd_endpoint_id hint) ;;
  s <~ mget ;;
  delivery <~ mlift (ok_or (deliveries s !! wd_id hint) AppError.Integrity) ;;
  if negb (wd_project_id delivery =? wd_project_id hint)
     || negb (wd_application_id delivery =? wd_application_id hint)
     || negb (wd_endpoint_id delivery =? we_id endpoint)
  then mfail AppError.Integrity
  else if negb (is_leased delivery) || negb (lease_expired clock delivery) then mret tt
  else
    insert_attempt (mkWebhookAttemptRow (wd_id delivery) (wd_attempt_count delivery)
      (wd_lease_generation delivery) now (Z.max (unix_timestamp (wd_updated_at delivery)) 1)
      "ambiguous" None 0 correlation_id) ;;~
    let state := recovered_state (owners_active owners.1 owners.2 endpoint)
                   (wd_attempt_count delivery) in
    update_delivery (delivery_released state (Z.min (wd_next_attempt_at delivery) now) "ambiguous"
                       None (wd_delivered_at delivery) now delivery) ;;~
    update_endpoint_row (endpoint_attempted (Some "ambiguous"%string) now endpoint).

Definition recover_one_expired_delivery (seen : Read) (clock now : OffsetDateTime)
    (correlation_id : Uuid) : dtxn unit :=
  match expired_delivery_hint seen with
  | None => mret tt
  | Some hint => d_transaction (recover_locked hint clock now correlation_id)
  end.

(** ** Choosing a delivery *)
(** [ORDER BY next_attempt_at, created_at, id]. *)
Definition delivery_before (a b : WebhookDeliveryRow) : bool :=
  (wd_next_attempt_at a <? wd_next_attempt_at b)
  || ((wd_next_attempt_at a =? wd_next_attempt_at b)
      && ((wd_created_at a <? wd_created_at b)
          || ((wd_created_at a =? wd_created_at b) && (wd_id a <? wd_id b)))).

(** [SELECT DISTINCT ON (group) .. ORDER BY group, ..]. *)
Definition distinct_on {G : Type} `{EqDecision G} (group : WebhookDeliveryRow -> G)
    (l : list WebhookDeliveryRow) : list WebhookDeliveryRow :=
  List.filter (fun d => forallb (fun other =>
    negb (bool_decide (group other = group d) && delivery_before other d)) l) l.

(** The joins and the [WHERE] of the candidates. *)
Definition claimable (s : DeliveryStore) (now : OffsetDateTime) (d : WebhookDeliveryRow) : bool :=
  is_pending d && (wd_next_attempt_at d <=? now)
  && is_some_and (endpoints s !! wd_endpoint_id d) (fun e => is_active (we_status e))
  && is_some_and (find_by_id (db_applications (dl_db s)) (wd_application_id d)
                    (fun a => ap_project_id a =? wd_project_id d))
       (fun a => is_active (ap_status a))
  && is_some_and (db_projects (dl_db s) !! wd_project_id d) (fun p => is_active (pj_status p))
  && negb (existsb (fun leased => (wd_endpoint_id leased =? wd_endpoint_id d) && is_leased leased)
             (map snd (map_to_list (deliveries s)))).

Definition event_retained (s : DeliveryStore) (clock : OffsetDateTime) (d : WebhookDeliveryRow) : bool :=
  is_some_and (db_events (dl_db s) !! wd_event_id d) (fun e => clock <? ue_retain_until e).

Definition application_candidates (s : DeliveryStore) (eligible : WebhookDeliveryRow -> bool) :
    list WebhookDeliveryRow :=
  distinct_on wd_application_id
    (distinct_on wd_endpoint_id (List.filter eligible (map snd (map_to_list (deliveries s))))).

Definition last_claim (s : DeliveryStore) (d : WebhookDeliveryRow) : option Z :=
  db_dispatch (dl_db s) !! (wd_project_id d, wd_application_id d).

(** The application served longest ago comes first. *)
Definition dispatch_before (s : DeliveryStore) (a b : WebhookDeliveryRow) : bool :=
  match last_claim s a, last_claim s b with
  | Some x, Some y => (x <? y) || ((x =? y) && delivery_before a b)
  | _, _ => false
  end.

Fixpoint first_by {A : Type} (before : A -> A -> bool) (l : list A) : option A :=
  match l with
  | [] => None
  | a :: r => match first_by before r with
              | Some b => if before b a then Some b else Some a
              | None => Some a
              end
  end.

Definition find_claim_candidate (seen : Read) (now : OffsetDateTime) : option WebhookDeliveryRow :=
  let s := rd_store seen in
  first_by (dispatch_before s)
    (List.filter (fun d => is_some (last_claim s d))
       (application_candidates s
          (fun d => claimable s now d && event_retained s (rd_at seen) d))).

Section claims.
Context `{CanonicalHash} `{ProjectionCryptography} `{UrlLib} `{TimeFormat} `{JsonbText}.

Record ClaimedWebhookDelivery := mkClaimedWebhookDelivery {
  cw_delivery_id : Uuid;
  cw_lease_owner : string;
  cw_lease_incarnation : Uuid;
  cw_lease_generation : Z;
  cw_event_id : string;
  cw_endpoint_url : string;
  cw_raw_body : list Z;
  cw_primary_secret_material_id : Uuid;
  cw_overlap_secret_material_id : option Uuid;
  cw_attempt_number : Z
}.

Definition secret_material (s : DeliveryStore) (endpoint_id : Uuid) (generation : option Z) :
    option Uuid :=
  g ← generation; ws_material_id <$> dl_secrets s !! (endpoint_id, g).

(** The row the [UPDATE] of a claim writes. *)
Definition claimed_row (s : DeliveryStore) (worker_id : string) (incarnation : Uuid)
    (clock : OffsetDateTime) (lease_seconds : Z) (e : WebhookEndpointRow) (d : WebhookDeliveryRow) :
    WebhookDeliveryRow :=
  let overlap := if is_some_and (we_overlap_expires_at e) (fun t => clock <? t)
                 then we_overlap_secret_generation e else None in
  delivery_leased worker_id incarnation clock lease_seconds (we_current_secret_generation e) overlap
    (secret_material s (we_id e) (we_current_secret_generation e))
    (secret_material s (we_id e) overlap) d.

(** The statement that chooses, advances the dispatch state and leases; [None]
    when it returns no row.  [locked]: another transaction holds the delivery or
    its dispatch row.  The owners were found active by the candidates of the same
    statement; the dispatch state advances even when the event is no longer
    retained and nothing is leased. *)
Definition lease_delivery (worker_id : string) (incarnation : Uuid) (clock now : OffsetDateTime)
    (lease_seconds sequence : Z) (locked : bool) (candidate_id : Uuid) :
    dtxn (option (WebhookDeliveryRow * WebhookEndpointRow)) :=
  s <~ mget ;;
  match List.find (fun d => wd_id d =? candidate_id) (application_candidates s (claimable s now)) with
  | None => mret None
  | Some d =>
      if locked || is_none (last_claim s d) then mret None
      else
        mmodify (set_dl_db (set_db_dispatch
          (<[(wd_project_id d, wd_application_id d) := sequence]> (db_dispatch (dl_db s))) (dl_db s))) ;;~
        match endpoints s !! wd_endpoint_id d with
        | Some e =>
            if event_retained s clock d then
              let row := claimed_row s worker_id incarnation clock lease_seconds e d in
              d_check ((wd_attempt_count row <=? i32_max) && (wd_lease_generation row <=? i64_max))
                AppError.Persistence ;;~
              update_delivery row ;;~
              mret (Some (row, e))
            else mret None
        | None => mret None
        end
  end.

Definition claim_locked (seen : Read) (worker_id : string) (incarnation : Uuid)
    (clock now : OffsetDateTime) (lease_seconds sequence : Z) (locked : bool) :
    dtxn (option ClaimedWebhookDelivery) :=
  match find_claim_candidate seen now with
  | None => mret None
  | Some candidate =>
      _ <~ lock_active_application (wd_project_id candidate) (wd_application_id candidate) ;;
      endpoint <~ lock_endpoint (wd_project_id candidate) (wd_application_id candidate)
                    (wd_endpoint_id candidate) ;;
      if negb (is_active (we_status endpoint)) then mfail AppError.Disabled
      else
        leased <~ lease_delivery worker_id incarnation clock now lease_seconds sequence locked
                    (wd_id candidate) ;;
        match leased with
        | None => mret None
        | Some (row, e) =>
            primary <~ mlift (ok_or (wd_claimed_secret_material_id row) AppError.Persistence) ;;
            s <~ mget ;;
            event <~ mlift (ok_or (db_events (dl_db s) !! wd_event_id row) AppError.Integrity) ;;
            raw_body <~ mlift (event_raw_body event) ;;
            mret (Some (mkClaimedWebhookDelivery (wd_id row) worker_id incarnation
                          (wd_lease_generation row) (ue_event_id event) (we_url e) raw_body primary
                          (wd_claimed_overlap_material_id row) (wd_attempt_count row)))
        end
  end.

(** The reads, clocks and identifiers a claim draws. *)
Record ClaimDraws := mkClaimDraws {
  cd_overlap : Read; cd_overlap_clock : OffsetDateTime; cd_cleanup_id : Uuid;
  cd_expired : Read; cd_expired_clock : OffsetDateTime; cd_correlation : Uuid;
  cd_candidates : Read; cd_clock : OffsetDateTime; cd_sequence : Z; cd_locked : bool
}.

(** [lease] is [Duration::as_secs]. *)
Definition claim_one (draws : ClaimDraws) (worker_id : string) (incarnation : Uuid)
    (now : OffsetDateTime) (lease_seconds : Z) : dtxn (option ClaimedWebhookDelivery) :=
  if (i64_max <? lease_seconds) || (lease_seconds <? 1) then mfail AppError.InvalidInput
  else
    _ <~ retire_one_expired_overlap (cd_overlap draws) (cd_overlap_clock draws) now
           (cd_cleanup_id draws) ;;
    recover_one_expired_delivery (cd_expired draws) (cd_expired_clock draws) now
      (cd_correlation draws) ;;~
    d_transaction (claim_locked (cd_candidates draws) worker_id incarnation (cd_clock draws) now
                     lease_seconds (cd_sequence draws) (cd_locked draws)).

(** ** Finishing a claim *)
Record WebhookTransportOutcome := mkWebhookTransportOutcome {
  wo_outcome : Delivery.WebhookDeliveryOutcome;
  wo_http_status : option Z;
  wo_duration_millis : Z
}.

Definition finished_state (outcome : Delivery.WebhookDeliveryOutcome) (active : bool)
    (attempt_count : Z) (next_attempt_at : option OffsetDateTime) : string :=
  let retryable := Delivery.WebhookDeliveryOutcome_retryable outcome in
  let retry := active && retryable && (attempt_count <? MAX_WEBHOOK_DELIVERY_ATTEMPTS)
               && is_some next_attempt_at in
  if bool_decide (Delivery.WebhookDeliveryOutcome_as_str outcome = "accepted"%string)
  then "delivered"
  else if retry then "pending"
  else if retryable && negb active then "cancelled"
  else "terminal".

Definition lease_mismatch (hint delivery : WebhookDeliveryRow) (endpoint : WebhookEndpointRow)
    (claim : ClaimedWebhookDelivery) : bool :=
  negb (wd_project_id delivery =? wd_project_id hint)
  || negb (wd_application_id delivery =? wd_application_id hint)
  || negb (wd_endpoint_id delivery =? we_id endpoint)
  || negb (is_leased delivery)
  || negb (bool_decide (wd_lease_owner delivery = Some (cw_lease_owner claim)))
  || negb (bool_decide (wd_lease_incarnation delivery = Some (cw_lease_incarnation claim)))
  || negb (wd_lease_generation delivery =? cw_lease_generation claim)
  || negb (wd_attempt_count delivery =? cw_attempt_number claim).

Definition finish_locked (hint : WebhookDeliveryRow) (claim : ClaimedWebhookDelivery)
    (attempt_timestamp : Z) (outcome : WebhookTransportOutcome)
    (next_attempt_at : option OffsetDateTime) (now : OffsetDateTime) (correlation_id : Uuid) :
    dtxn unit :=
  owners <~ lock_application_owners (wd_project_id hint) (wd_application_id hint) ;;
  endpoint <~ lock_endpoint (wd_project_id hint) (wd_application_id hint) (wd_endpoint_id hint) ;;
  s <~ mget ;;
  delivery <~ mlift (ok_or (deliveries s !! cw_delivery_id claim) AppError.NotFound) ;;
  if lease_mismatch hint delivery endpoint claim then mfail AppError.RevisionConflict
  else
    let class := Delivery.WebhookDeliveryOutcome_as_str (wo_outcome outcome) in
    insert_attempt (mkWebhookAttemptRow (wd_id delivery) (wd_attempt_count delivery)
      (wd_lease_generation delivery) now attempt_timestamp class (wo_http_status outcome)
      (Z.min (wo_duration_millis outcome) i32_max) correlation_id) ;;~
    let state := finished_state (wo_outcome outcome) (owners_active owners.1 owners.2 endpoint)
                   (wd_attempt_count delivery) next_attempt_at in
    update_delivery (delivery_released state
      (match next_attempt_at with Some t => t | None => now end) class (wo_http_status outcome)
      (if bool_decide (state = "delivered"%string) then Some now else None) now delivery) ;;~
    update_endpoint_row (endpoint_attempted
      (if bool_decide (state = "delivered"%string) then None else Some class) now endpoint).

Definition finish (seen : DeliveryStore) (claim : ClaimedWebhookDelivery) (attempt_timestamp : Z)
    (outcome : WebhookTransportOutcome) (next_attempt_at : option OffsetDateTime)
    (now : OffsetDateTime) (correlation_id : Uuid) : dtxn unit :=
  hint <~ mlift (ok_or (deliveries seen !! cw_delivery_id claim) AppError.NotFound) ;;
  d_transaction (finish_locked hint claim attempt_timestamp outcome next_attempt_at now
                   correlation_id).
End claims.

(** ** Maintenance *)
(** [ORDER BY before LIMIT n .. SKIP LOCKED]. *)
Definition in_order {A : Type} (before : A -> A -> bool) (a b : A) : Prop := before b a = false.
#[global] Instance in_order_dec {A} (before : A -> A -> bool) : RelDecision (in_order before).
Proof. intros a b. unfold in_order. apply _. Defined.

Definition bounded {A : Type} (before : A -> A -> bool) (limit : Z) (l : list A) : list A :=
  take (Z.to_nat limit) (merge_sort (in_order before) l).

Definition event_of (s : DeliveryStore) (d : WebhookDeliveryRow) : option UserEventRow :=
  db_events (dl_db s) !! wd_event_id d.
Definition retain_of (s : DeliveryStore) (d : WebhookDeliveryRow) : Z :=
  match event_of s d with Some e => ue_retain_until e | None => 0 end.
Definition event_over (s : DeliveryStore) (clock : OffsetDateTime) (d : WebhookDeliveryRow) : bool :=
  is_some_and (event_of s d) (fun e => ue_retain_until e <=? clock).

Definition cancellable (s : DeliveryStore) (clock : OffsetDateTime) (d : WebhookDeliveryRow) : bool :=
  is_pending d
  && is_some (event_of s d)
  && is_some_and (endpoints s !! wd_endpoint_id d) (fun e =>
       bool_decide (we_status e = "disabled"%string) || event_over s clock d).

Fixpoint update_deliveries (rows : list WebhookDeliveryRow) : dtxn unit :=
  match rows with
  | [] => mret tt
  | row :: rest => update_delivery row ;;~ update_deliveries rest
  end.

(** Each of the four statements, with the budget that is left and the rows other
    transactions hold; the result is the number of rows affected. *)
Definition cancel_deliveries (clock : OffsetDateTime) (locked : Uuid -> bool) (limit : Z) : dtxn Z :=
  s <~ mget ;;
  let rows := bounded (fun a b => (retain_of s a <? retain_of s b)
                        || ((retain_of s a =? retain_of s b)
                            && ((wd_created_at a <? wd_created_at b)
                                || ((wd_created_at a =? wd_created_at b) && (wd_id a <? wd_id b)))))
                limit
                (List.filter (fun d => cancellable s clock d && negb (locked (wd_id d)))
                   (map snd (map_to_list (deliveries s)))) in
  update_deliveries (map (delivery_cancelled clock) rows) ;;~
  mret (list_len rows).

Definition delete_attempts (clock : OffsetDateTime) (limit : Z) : dtxn Z :=
  s <~ mget ;;
  let expired (a : WebhookAttemptRow) :=
    is_some_and (deliveries s !! wa_delivery_id a) (fun d => is_finished d && event_over s clock d) in
  let retain (a : WebhookAttemptRow) :=
    match deliveries s !! wa_delivery_id a with Some d => retain_of s d | None => 0 end in
  let rows := bounded (fun a b => (retain a <? retain b)
                        || ((retain a =? retain b)
                            && ((wa_delivery_id a <? wa_delivery_id b)
                                || ((wa_delivery_id a =? wa_delivery_id b)
                                    && (wa_attempt_number a <? wa_attempt_number b)))))
                limit (List.filter expired (map snd (map_to_list (dl_attempts s)))) in
  mmodify (set_dl_attempts (fold_right (fun a t => delete (wa_delivery_id a, wa_attempt_number a) t)
                              (dl_attempts s) rows)) ;;~
  mret (list_len rows).

Definition delete_deliveries (clock : OffsetDateTime) (locked : Uuid -> bool) (limit : Z) : dtxn Z :=
  s <~ mget ;;
  let rows := bounded (fun a b => (retain_of s a <? retain_of s b)
                        || ((retain_of s a =? retain_of s b)
                            && ((wd_replay_sequence b <? wd_replay_sequence a)
                                || ((wd_replay_sequence a =? wd_replay_sequence b)
                                    && (wd_id a <? wd_id b)))))
                limit
                (List.filter (fun d =>
                     is_finished d && event_over s clock d
                     && negb (existsb (fun a => wa_delivery_id a =? wd_id d)
                                (map snd (map_to_list (dl_attempts s))))
                     && negb (existsb (fun r => bool_decide (wd_replay_of_delivery_id r = Some (wd_id d)))
                                (map snd (map_to_list (deliveries s))))
                     && negb (locked (wd_id d)))
                   (map snd (map_to_list (deliveries s)))) in
  mmodify (fun s => set_dl_db (set_db_deliveries
    (fold_right (fun d t => delete (wd_id d) t) (deliveries s) rows) (dl_db s)) s) ;;~
  mret (list_len rows).

Definition delete_events (clock : OffsetDateTime) (locked : Uuid -> bool) (limit : Z) : dtxn Z :=
  s <~ mget ;;
  let rows := bounded (fun a b => (ue_retain_until a <? ue_retain_until b)
                        || ((ue_retain_until a =? ue_retain_until b) && (ue_id a <? ue_id b)))
                limit
                (List.filter (fun e =>
                     (ue_retain_until e <=? clock)
                     && negb (existsb (fun d => wd_event_id d =? ue_id e)
                                (map snd (map_to_list (deliveries s))))
                     && negb (locked (ue_id e)))
                   (map snd (map_to_list (db_events (dl_db s))))) in
  mmodify (fun s => set_dl_db (set_db_events
    (fold_right (fun e t => delete (ue_id e) t) (db_events (dl_db s)) rows) (dl_db s)) s) ;;~
  mret (list_len rows).

(** A statement runs while the budget lasts. *)
Definition within_budget (row_budget affected : Z) (statement : Z -> dtxn Z) : dtxn Z :=
  if affected <? row_budget
  then n <~ statement (row_budget - affected) ;; mret (affected + n)
  else mret affected.

Record MaintainDraws := mkMaintainDraws {
  md_disabled : Read; md_disabled_clock : OffsetDateTime; md_cleanup_ids : Z -> Uuid;
  md_overlap : Read; md_overlap_clock : OffsetDateTime; md_cleanup_id : Uuid;
  md_expired : Read; md_expired_clock : OffsetDateTime; md_correlation : Uuid;
  md_clock : OffsetDateTime; md_locked_deliveries : Uuid -> bool; md_locked_events : Uuid -> bool
}.

Definition maintain (draws : MaintainDraws) (now : OffsetDateTime) (row_budget : Z) : dtxn Z :=
  if (row_budget =? 0) || (100 <? row_budget) then mfail AppError.InvalidInput
  else
    disabled <~ retire_one_disabled_owner_endpoint (md_disabled draws) (md_disabled_clock draws) now
                  (md_cleanup_ids draws) ;;
    let affected := if disabled : bool then 1 else 0 in
    affected <~ within_budget row_budget affected (fun _ =>
      overlap <~ retire_one_expired_overlap (md_overlap draws) (md_overlap_clock draws) now
                   (md_cleanup_id draws) ;;
      mret (if overlap : bool then 1 else 0)) ;;
    recover_one_expired_delivery (md_expired draws) (md_expired_clock draws) now
      (md_correlation draws) ;;~
    if row_budget <=? affected then mret affected
    else
      d_transaction (
        let clock := md_clock draws in
        cancelled <~ cancel_deliveries clock (md_locked_deliveries draws) (row_budget - affected) ;;
        affected <~ within_budget row_budget (affected + cancelled) (delete_attempts clock) ;;
        affected <~ within_budget row_budget affected
                      (delete_deliveries clock (md_locked_deliveries draws)) ;;
        within_budget row_budget affected (delete_events clock (md_locked_events draws))).

(** ** Erasing retired secrets *)
Record ClaimedWebhookSecretCleanup := mkClaimedWebhookSecretCleanup {
  cs_id : Uuid; cs_material_id : Uuid; cs_lease_owner : string; cs_lease_incarnation : Uuid;
  cs_lease_generation : Z
}.

Definition cleanup_due (clock : OffsetDateTime) (c : WebhookCleanupRow) : bool :=
  (wc_not_before c <=? clock)
  && (bool_decide (wc_state c = "pending"%string)
      || (bool_decide (wc_state c = "leased"%string)
          && is_some_and (wc_lease_expires_at c) (fun t => t <=? clock))).

(** The secret is retired, and neither its endpoint nor a leased delivery uses it. *)
Definition cleanup_safe (s : DeliveryStore) (c : WebhookCleanupRow) : bool :=
  is_some_and (dl_secrets s !! (wc_endpoint_id c, wc_generation c)) (fun secret =>
    (ws_material_id secret =? wc_material_id c)
    && bool_decide (ws_state secret ∈ ["retired"; "compromised"]%string))
  && negb (is_some_and (endpoints s !! wc_endpoint_id c) (fun e =>
             bool_decide (we_current_secret_generation e = Some (wc_generation c))
             || bool_decide (we_overlap_secret_generation e = Some (wc_generation c))))
  && negb (existsb (fun d => (wd_endpoint_id d =? wc_endpoint_id c) && is_leased d
             && (bool_decide (wd_claimed_secret_generation d = Some (wc_generation c))
                 || bool_decide (wd_claimed_overlap_generation d = Some (wc_generation c))))
             (map snd (map_to_list (deliveries s)))).

Definition cleanup_with (state : string) (owner : option string) (incarnation : option Uuid)
    (generation : Z) (expires_at erased_at : option OffsetDateTime) (now : OffsetDateTime)
    (c : WebhookCleanupRow) : WebhookCleanupRow :=
  mkWebhookCleanupRow (wc_id c) (wc_endpoint_id c) (wc_generation c) state owner incarnation
    generation expires_at (wc_not_before c) (wc_created_at c) now erased_at (wc_material_id c).

Definition update_cleanup (row : WebhookCleanupRow) : dtxn unit :=
  mmodify (fun s => set_dl_cleanups (<[wc_id row := row]> (dl_cleanups s)) s).

Definition claim_secret_cleanup (worker_id : string) (incarnation : Uuid) (clock : OffsetDateTime)
    (lease_seconds : Z) (locked : Uuid -> bool) : dtxn (option ClaimedWebhookSecretCleanup) :=
  if (i64_max <? lease_seconds) || is_empty worker_id || (lease_seconds <? 1)
  then mfail AppError.InvalidInput
  else
    d_transaction (
      s <~ mget ;;
      match find_first (dl_cleanups s)
              (fun c => cleanup_due clock c && cleanup_safe s c && negb (locked (wc_id c)))
              (fun a b => (wc_created_at a <? wc_created_at b)
                          || ((wc_created_at a =? wc_created_at b) && (wc_id a <? wc_id b))) with
      | None => mret None
      | Some c =>
          d_check (wc_lease_generation c + 1 <=? i64_max) AppError.Persistence ;;~
          update_cleanup (cleanup_with "leased" (Some worker_id) (Some incarnation)
            (wc_lease_generation c + 1) (Some (clock + seconds lease_seconds)) (wc_erased_at c) clock c) ;;~
          mret (Some (mkClaimedWebhookSecretCleanup (wc_id c) (wc_material_id c) worker_id incarnation
                        (wc_lease_generation c + 1)))
      end).

(** [erase] is the erasure of the material in the custody store, which belongs
    to the custody component; it may fail. *)
Definition finish_secret_cleanup (cleanup : ClaimedWebhookSecretCleanup) (clock now : OffsetDateTime)
    (erase : Uuid -> result ApplicationError unit) (correlation_id : Uuid) : dtxn unit :=
  d_transaction (
    s <~ mget ;;
    c <~ mlift (ok_or (find_by_id (dl_cleanups s) (cs_id cleanup) (fun c =>
           (wc_material_id c =? cs_material_id cleanup)
           && bool_decide (wc_state c = "leased"%string)
           && bool_decide (wc_lease_owner c = Some (cs_lease_owner cleanup))
           && bool_decide (wc_lease_incarnation c = Some (cs_lease_incarnation cleanup))
           && (wc_lease_generation c =? cs_lease_generation cleanup)
           && is_some_and (wc_lease_expires_at c) (fun t => clock <? t))) AppError.RevisionConflict) ;;
    update_cleanup (cleanup_with "erased" None None (wc_lease_generation c) None (Some now) now c) ;;~
    mlift (erase (cs_material_id cleanup)) ;;~
    endpoint <~ mlift (ok_or (endpoints s !! wc_endpoint_id c) AppError.Integrity) ;;
    in_database (append_runtime_audit (we_project_id endpoint) "system" "webhook.secret.erased"
                   "webhook_endpoint" (Some (wc_endpoint_id c)) correlation_id)).

(** ** The worker ([application/webhook.rs]) *)
Definition MIN_WEBHOOK_SECRET_BYTES : Z := 32.
Definition MAX_WEBHOOK_SECRET_BYTES : Z := 128.
Definition WEBHOOK_MAINTENANCE_ROWS : Z := 25.

(** HMAC-SHA256 and base64url come from libraries; the secret resolver and the
    HTTP transport are the traits of the source. *)
Class WebhookIo : Type := {
  hmac_sha256 : list Z -> list Z -> list Z;
  base64url_no_pad : list Z -> string;
  resolve_secret : Uuid -> result ApplicationError (list Z);
  webhook_post : string -> string -> Z -> string -> list Z -> WebhookTransportOutcome
}.

Definition validate_secret (secret : list Z) : result ApplicationError unit :=
  if negb (in_range MIN_WEBHOOK_SECRET_BYTES MAX_WEBHOOK_SECRET_BYTES (list_len secret))
  then Err AppError.InvalidInput else Ok tt.

(** The bytes that are authenticated. *)
Definition signed_content (timestamp : Z) (event_id : string) (raw_body : list Z) : list Z :=
  bytes (show_decimal timestamp) ++ [0x2E] ++ bytes event_id ++ [0x2E] ++ raw_body.

(** The sum is in the range of [OffsetDateTime], which is not bounded here. *)
Definition retry_at (now : OffsetDateTime) (delivery_id : Uuid) (attempt_number : Z) :
    result ApplicationError OffsetDateTime :=
  let exponent := Z.max 1 (Z.min attempt_number 10) - 1 in
  let shifted := if exponent <? 64 then Z.shiftl 1 exponent else i64_max in
  let base := Z.min (if 5 * shifted <=? i64_max then 5 * shifted else 3600) 3600 in
  let jitter := (delivery_id / 2 ^ 120) mod 11 in
  Ok (now + seconds (base + jitter)).

(** [WebhookWorker::new]: the checks on the worker's name and lease. *)
Definition WebhookWorker_new (worker_id : string) (lease_nanoseconds : Z) :
    result ApplicationError unit :=
  if is_empty worker_id || (128 <? str_len worker_id) || (lease_nanoseconds =? 0)
  then Err AppError.InvalidInput else Ok tt.

Section worker.
Context `{WebhookIo}.

Definition webhook_signature (secret : list Z) (timestamp : Z) (event_id : string)
    (raw_body : list Z) : result ApplicationError string :=
  validate_secret secret ;;?
  if (timestamp <=? 0) || is_empty event_id || (128 <? str_len event_id)
  then Err AppError.InvalidInput
  else Ok (String.append "v1="
             (base64url_no_pad (hmac_sha256 secret (signed_content timestamp event_id raw_body)))).

Definition without_response (outcome : Delivery.WebhookDeliveryOutcome) : WebhookTransportOutcome :=
  mkWebhookTransportOutcome outcome None 0.

(** What [run_delivery_once] does between the claim and its end: resolve the
    secrets, sign, and post; every failure before the request is an outcome. *)
Definition attempt_delivery (claim : ClaimedWebhookDelivery) (attempt_timestamp : Z) :
    WebhookTransportOutcome :=
  match resolve_secret (cw_primary_secret_material_id claim) with
  | Err _ => without_response Delivery.Transient
  | Ok primary =>
      match webhook_signature primary attempt_timestamp (cw_event_id claim) (cw_raw_body claim) with
      | Err _ => without_response Delivery.Permanent
      | Ok primary_signature =>
          let send (signature : string) :=
            webhook_post (cw_endpoint_url claim) (cw_event_id claim) attempt_timestamp signature
              (cw_raw_body claim) in
          match cw_overlap_secret_material_id claim with
          | None => send primary_signature
          | Some overlap_material_id =>
              match resolve_secret overlap_material_id with
              | Err _ => without_response Delivery.Transient
              | Ok overlap =>
                  match webhook_signature overlap attempt_timestamp (cw_event_id claim)
                          (cw_raw_body claim) with
                  | Err _ => without_response Delivery.Permanent
                  | Ok overlap_signature =>
                      send (String.append primary_signature (String.append "," overlap_signature))
                  end
              end
          end
      end
  end.

Definition finish_transport_claim (seen : DeliveryStore) (claim : ClaimedWebhookDelivery)
    (attempt_timestamp : Z) (outcome : WebhookTransportOutcome) (now finished_at : OffsetDateTime)
    (correlation_id : Uuid) : dtxn bool :=
  next_attempt_at <~
    (if Delivery.WebhookDeliveryOutcome_retryable (wo_outcome outcome)
        && (cw_attempt_number claim <? MAX_WEBHOOK_DELIVERY_ATTEMPTS)
     then t <~ mlift (retry_at now (cw_delivery_id claim) (cw_attempt_number claim)) ;; mret (Some t)
     else mret None) ;;
  finish seen claim attempt_timestamp outcome next_attempt_at finished_at correlation_id ;;~
  mret true.

Context `{CanonicalHash} `{ProjectionCryptography} `{UrlLib} `{TimeFormat} `{JsonbText}.

(** [others] is what the rest of the system did to the store while the request
    was under way. *)
Definition run_delivery_once (draws : ClaimDraws) (worker_id : string) (incarnation : Uuid)
    (lease_seconds : Z) (now finished_at : OffsetDateTime) (others : DeliveryStore -> DeliveryStore)
    (correlation_id : Uuid) : dtxn bool :=
  claimed <~ claim_one draws worker_id incarnation now lease_seconds ;;
  match claimed with
  | None => mret false
  | Some claim =>
      let attempt_timestamp := unix_timestamp now in
      mmodify others ;;~
      seen <~ mget ;;
      finish_transport_claim seen claim attempt_timestamp (attempt_delivery claim attempt_timestamp)
        now finished_at correlation_id
  end.

Definition run_secret_cleanup_once (worker_id : string) (incarnation : Uuid) (lease_seconds : Z)
    (clock : OffsetDateTime) (locked : Uuid -> bool) (finish_clock finished_at : OffsetDateTime)
    (erase : Uuid -> result ApplicationError unit) (correlation_id : Uuid) : dtxn bool :=
  claimed <~ claim_secret_cleanup worker_id incarnation clock lease_seconds locked ;;
  match claimed with
  | None => mret false
  | Some cleanup =>
      finish_secret_cleanup cleanup finish_clock finished_at erase correlation_id ;;~ mret true
  end.

(** The schedule of [run_once]: an 8-bit cursor picks one of three lanes, of
    which the first maintains and the second erases before a delivery is tried.
    A failure of the maintenance does not stop the delivery. *)
Definition next_cursor (cursor : Z) : Z := (cursor + 1) mod 2 ^ 8.

Definition run_once (cursor : Z) (maintenance : dtxn Z) (cleanup delivery : dtxn bool) : dtxn bool :=
  let lane := cursor mod 3 in
  let after_cleanup : dtxn bool :=
    if lane =? 1 then done_ <~ cleanup ;; if done_ : bool then mret true else delivery
    else delivery in
  if lane =? 0 then
    fun s => match maintenance s with
             | (s', Ok affected) => if 0 <? affected then (s', Ok true) else after_cleanup s'
             | (s', Err _) => after_cleanup s'
             end
  else after_cleanup.
End worker.
