(* ===== verification/Custody.v ===== *)
(** * Protected materials

    [adapters/postgres/custody.rs]: the store of sealed keys and secrets.  A
    material is reserved for an owner (a signing key, a provider secret, an SMTP
    credential, a webhook secret), finalized with the envelope a key provider
    made for it, and erased.  Its identity is hashed into the context the
    envelope is authenticated against ([KeyProvider]); reading a row rebuilds the
    context and compares the digest.

    The inventory authority is one row whose revision every write to the table
    increases; every writer locks it first.  The foreign key to the project is
    the argument [project_exists], and the clock of the transaction is an
    argument.  The deferred check that an owner names the material belongs to the
    transaction that writes both ([WebhookControl]). *)
From S2P Require Import Prelude.
From S2P Require Import Json.
From S2P Require Import BTree.
From S2P Require Import KeyProvider.
From S2P Require Import WebhookTables.
From S2P Require Import Database.
From S2P Require Import Projection.
From S2P Require Import WebhookOutbox.

#[global] Instance MaterialKind_eq_dec : EqDecision MaterialKind.
Proof. solve_decision. Defined.
#[global] Instance ContextVersion_eq_dec : EqDecision ContextVersion.
Proof. solve_decision. Defined.
#[global] Instance Scope_eq_dec : EqDecision Scope.
Proof. solve_decision. Defined.
#[global] Instance ProviderId_eq_dec : EqDecision ProviderId.
Proof. solve_decision. Defined.
#[global] Instance ProtectionContextParts_eq_dec : EqDecision ProtectionContextParts.
Proof. solve_decision. Defined.
#[global] Instance ProtectionContext_eq_dec : EqDecision ProtectionContext.
Proof. solve_decision. Defined.

(** ** Names *)
Module Owner.
Inductive MaterialOwnerKind :=
| SigningKey | ProviderSecret | ProjectSmtp | DeploymentSmtp | SmtpTestRecipient | WebhookSecret.
#[global] Instance MaterialOwnerKind_eq_dec : EqDecision MaterialOwnerKind.
Proof. solve_decision. Defined.

Definition MaterialOwnerKind_as_str (k : MaterialOwnerKind) : string :=
  match k with
  | SigningKey => "signing_key"
  | ProviderSecret => "provider_secret"
  | ProjectSmtp => "project_smtp"
  | DeploymentSmtp => "deployment_smtp"
  | SmtpTestRecipient => "smtp_test_recipient"
  | WebhookSecret => "webhook_secret"
  end.

Definition all : list MaterialOwnerKind :=
  [SigningKey; ProviderSecret; ProjectSmtp; DeploymentSmtp; SmtpTestRecipient; WebhookSecret].

Definition MaterialOwnerKind_parse (value : string) : result ApplicationError MaterialOwnerKind :=
  ok_or (List.find (fun k => bool_decide (value = MaterialOwnerKind_as_str k)) all)
    AppError.Integrity.
End Owner.
Abbreviation MaterialOwnerKind := Owner.MaterialOwnerKind.

Module Purpose.
Inductive MaterialPurpose :=
| SigningSeed | ProviderClientSecret | SmtpCredential | SmtpTestRecipient | WebhookSigningSecret.

Definition MaterialPurpose_as_str (p : MaterialPurpose) : string :=
  match p with
  | SigningSeed => "signing-seed"
  | ProviderClientSecret => "provider-client-secret"
  | SmtpCredential => "smtp-credential"
  | SmtpTestRecipient => "smtp-test-recipient"
  | WebhookSigningSecret => "webhook-signing-secret"
  end.

Definition MaterialPurpose_for_owner (owner_kind : MaterialOwnerKind) : MaterialPurpose :=
  match owner_kind with
  | Owner.SigningKey => SigningSeed
  | Owner.ProviderSecret => ProviderClientSecret
  | Owner.ProjectSmtp | Owner.DeploymentSmtp => SmtpCredential
  | Owner.SmtpTestRecipient => SmtpTestRecipient
  | Owner.WebhookSecret => WebhookSigningSecret
  end.
End Purpose.
Abbreviation MaterialPurpose := Purpose.MaterialPurpose.

Module MaterialState.
Inductive ProtectedMaterialState := Pending | Live | Erased.
#[global] Instance ProtectedMaterialState_eq_dec : EqDecision ProtectedMaterialState.
Proof. solve_decision. Defined.

Definition ProtectedMaterialState_as_str (s : ProtectedMaterialState) : string :=
  match s with Pending => "pending" | Live => "live" | Erased => "erased" end.

Definition ProtectedMaterialState_parse (value : string) :
    result ApplicationError ProtectedMaterialState :=
  if bool_decide (value = "pending"%string) then Ok Pending
  else if bool_decide (value = "live"%string) then Ok Live
  else if bool_decide (value = "erased"%string) then Ok Erased
  else Err AppError.Integrity.
End MaterialState.
Abbreviation ProtectedMaterialState := MaterialState.ProtectedMaterialState.

Definition material_kind_name (kind : MaterialKind) : string :=
  match kind with
  | SigningKeyMaterial => "signing_key"
  | ConfigurationSecret => "configuration_secret"
  end.

Definition parse_material_kind (value : string) : result ApplicationError MaterialKind :=
  if bool_decide (value = "signing_key"%string) then Ok SigningKeyMaterial
  else if bool_decide (value = "configuration_secret"%string) then Ok ConfigurationSecret
  else Err AppError.Integrity.

(** [Uuid::to_string]: hyphens after 8, 12, 16 and 20 digits. *)
Definition hyphenate (digits : string) : string :=
  let part (from len : nat) := String.substring from len digits in
  String.append (part 0 8)%nat (String.append "-" (String.append (part 8 4)%nat
    (String.append "-" (String.append (part 12 4)%nat (String.append "-"
      (String.append (part 16 4)%nat (String.append "-" (part 20 12)%nat))))))).
Definition uuid_hyphenated (u : Uuid) : string := hyphenate (uuid_simple u).

(** ** Rows *)
Record ProtectedMaterialRow := mkProtectedMaterialRow {
  pm_id : Uuid; pm_scope_kind : string; pm_project_id : option Uuid; pm_owner_kind : string;
  pm_owner_id : Uuid; pm_generation : Z; pm_material_kind : string; pm_provider_id : string;
  pm_provider_format_version : Z; pm_context_version : Z; pm_context_digest : list Z;
  pm_opaque_value : option (list Z); pm_safe_fingerprint : option (list Z); pm_state : string;
  pm_created_at : OffsetDateTime; pm_updated_at : OffsetDateTime;
  pm_erased_at : option OffsetDateTime
}.

(** [cu_inventory]: the revision of the inventory authority's row. *)
Record CustodyStore := mkCustodyStore {
  cu_materials : gmap Z ProtectedMaterialRow;
  cu_inventory : option Z
}.

Definition ctxn (A : Type) : Type := mut CustodyStore ApplicationError A.
Definition c_check (c : bool) (e : ApplicationError) : ctxn unit := if c then mret tt else mfail e.

(** [provider_id ~ '^[a-z][a-z0-9_-]*$'], 1 to 64 characters. *)
Definition provider_id_check (value : string) : bool :=
  match bytes value with
  | [] => false
  | b :: r => is_ascii_lowercase b
              && forallb (fun b => is_ascii_lowercase b || is_ascii_digit b || (b =? 0x5F)
                                   || (b =? 0x2D)) r
  end
  && (str_len value <=? 64).

Definition protected_material_check (row : ProtectedMaterialRow) : bool :=
  let is_state (v : string) := bool_decide (pm_state row = v) in
  let signing := bool_decide (pm_material_kind row = "signing_key"%string) in
  let secret := bool_decide (pm_material_kind row = "configuration_secret"%string) in
  let signing_owner := bool_decide (pm_owner_kind row = "signing_key"%string) in
  let len_ok (lo hi : Z) (v : option (list Z)) :=
    match v with Some l => in_range lo hi (list_len l) | None => true end in
  ((signing && is_none (pm_safe_fingerprint row))
   || (secret && ((is_state "pending" && is_none (pm_safe_fingerprint row))
                  || (is_state "live" && is_some (pm_safe_fingerprint row))
                  || is_state "erased")))
  && ((signing && signing_owner) || (secret && negb signing_owner))
  && ((bool_decide (pm_scope_kind row = "deployment"%string) && is_none (pm_project_id row))
      || (bool_decide (pm_scope_kind row = "project"%string) && is_some (pm_project_id row)))
  && ((is_state "pending" && is_none (pm_opaque_value row) && is_none (pm_erased_at row))
      || (is_state "live" && is_some (pm_opaque_value row) && is_none (pm_erased_at row))
      || (is_state "erased" && is_none (pm_opaque_value row) && is_some (pm_erased_at row)))
  && (list_len (pm_context_digest row) =? 32)
  && in_range 1 65535 (pm_context_version row)
  && (0 <? pm_generation row)
  && (signing || secret)
  && len_ok 1 65536 (pm_opaque_value row)
  && bool_decide (pm_owner_kind row ∈ map Owner.MaterialOwnerKind_as_str Owner.all)
  && in_range 1 65535 (pm_provider_format_version row)
  && provider_id_check (pm_provider_id row)
  && len_ok 32 32 (pm_safe_fingerprint row)
  && bool_decide (pm_scope_kind row ∈ ["deployment"; "project"]%string)
  && bool_decide (pm_state row ∈ ["pending"; "live"; "erased"]%string).

(** One material per owner and generation ([NULLS NOT DISTINCT]). *)
Definition protected_material_conflict (a b : ProtectedMaterialRow) : bool :=
  bool_decide (pm_scope_kind a = pm_scope_kind b /\ pm_project_id a = pm_project_id b
               /\ pm_owner_kind a = pm_owner_kind b /\ pm_owner_id a = pm_owner_id b
               /\ pm_generation a = pm_generation b).

(** The trigger that increases the inventory's revision. *)
Definition bump_material_inventory_revision : ctxn unit :=
  s <~ mget ;;
  match cu_inventory s with
  | None => mret tt
  | Some revision =>
      c_check (revision + 1 <=? i64_max) AppError.Persistence ;;~
      mmodify (fun s => mkCustodyStore (cu_materials s) (Some (revision + 1)))
  end.

Definition insert_material (project_exists : Uuid -> bool) (row : ProtectedMaterialRow) : ctxn unit :=
  s <~ mget ;;
  c_check (is_none (cu_materials s !! pm_id row) && protected_material_check row
           && unique_in protected_material_conflict (pm_id row) row (cu_materials s)
           && match pm_project_id row with Some p => project_exists p | None => true end)
    AppError.Persistence ;;~
  mmodify (fun s => mkCustodyStore (<[pm_id row := row]> (cu_materials s)) (cu_inventory s)) ;;~
  bump_material_inventory_revision.

(** The trigger that keeps a material's identity. *)
Definition material_identity (row : ProtectedMaterialRow) :=
  (pm_id row, pm_scope_kind row, pm_project_id row, pm_owner_kind row, pm_owner_id row,
   pm_generation row, pm_material_kind row, pm_provider_id row, pm_provider_format_version row,
   pm_context_version row, pm_context_digest row, pm_created_at row).

Definition update_material (row : ProtectedMaterialRow) : ctxn unit :=
  s <~ mget ;;
  c_check (is_some_and (cu_materials s !! pm_id row)
             (fun old => bool_decide (material_identity old = material_identity row))
           && protected_material_check row) AppError.Persistence ;;~
  mmodify (fun s => mkCustodyStore (<[pm_id row := row]> (cu_materials s)) (cu_inventory s)) ;;~
  bump_material_inventory_revision.

(** The columns an update of a material writes. *)
Definition material_with (opaque_value safe_fingerprint : option (list Z)) (state : string)
    (updated_at : OffsetDateTime) (erased_at : option OffsetDateTime) (m : ProtectedMaterialRow) :
    ProtectedMaterialRow :=
  mkProtectedMaterialRow (pm_id m) (pm_scope_kind m) (pm_project_id m) (pm_owner_kind m)
    (pm_owner_id m) (pm_generation m) (pm_material_kind m) (pm_provider_id m)
    (pm_provider_format_version m) (pm_context_version m) (pm_context_digest m) opaque_value
    safe_fingerprint state (pm_created_at m) updated_at erased_at.

(** ** Reading rows *)
Record ProtectedMaterialReservation := mkProtectedMaterialReservation {
  pr_id : Uuid; pr_project_id : option Uuid; pr_owner_kind : MaterialOwnerKind; pr_owner_id : Uuid;
  pr_generation : Z; pr_material_kind : MaterialKind; pr_provider_id : ProviderId;
  pr_provider_format_version : Z; pr_context : ProtectionContext; pr_state : ProtectedMaterialState
}.

Record LiveProtectedMaterial := mkLiveProtectedMaterial {
  lm_reservation : ProtectedMaterialReservation;
  lm_opaque_value : list Z;
  lm_safe_fingerprint : option (list Z)
}.

Definition integrity_of {A : Type} (r : result ValueErr.ValueError A) : result ApplicationError A :=
  map_err (fun _ => AppError.Integrity) r.

(** [u16::try_from], [u64::try_from]. *)
Definition u16_try_from (v : Z) : option Z := if in_range 0 65535 v then Some v else None.
Definition u64_try_from (v : Z) : option Z := if in_range 0 (2 ^ 64 - 1) v then Some v else None.

(** The parts both [context] and [map_reservation] build. *)
Definition context_parts (version : ContextVersion) (deployment_id : string)
    (project_id : option Uuid) (material_id : Uuid) (material_kind : MaterialKind)
    (owner_kind : MaterialOwnerKind) (owner_id : Uuid) (generation : Z) (purpose : MaterialPurpose)
    (provider_id : ProviderId) (provider_format_version : Z) :
    result ApplicationError ProtectionContextParts :=
  scope <-? match project_id with
            | Some project_id =>
                p <-? integrity_of (context_identifier_new (uuid_hyphenated project_id)) ;;
                Ok (ProjectScope p)
            | None => Ok Deployment
            end ;;
  material_id <-? integrity_of (context_identifier_new (uuid_hyphenated material_id)) ;;
  owner_kind <-? integrity_of (context_label_new (Owner.MaterialOwnerKind_as_str owner_kind)) ;;
  owner_id <-? integrity_of (context_identifier_new (uuid_hyphenated owner_id)) ;;
  field_purpose <-? integrity_of (context_label_new (Purpose.MaterialPurpose_as_str purpose)) ;;
  Ok (mkProtectionContextParts version deployment_id scope material_id material_kind owner_kind
        owner_id generation field_purpose provider_id provider_format_version).

(** [ProtectedMaterialRepository::new]; the deployment's identifier. *)
Definition ProtectedMaterialRepository_new (deployment_id : string) : result ApplicationError string :=
  integrity_of (context_identifier_new deployment_id).

Section custody.
Context `{CanonicalHash}.

Definition context (deployment_id : string) (project_id : option Uuid) (material_id : Uuid)
    (owner_kind : MaterialOwnerKind) (owner_id : Uuid) (generation : Z)
    (material_kind : MaterialKind) (purpose : MaterialPurpose) (provider_id : ProviderId)
    (provider_format_version : Z) : result ApplicationError ProtectionContext :=
  generation <-? ok_or (u64_try_from generation) AppError.InvalidInput ;;
  parts <-? context_parts V1 deployment_id project_id material_id material_kind owner_kind owner_id
              generation purpose provider_id provider_format_version ;;
  integrity_of (ProtectionContext_new parts).

Definition map_reservation (model : ProtectedMaterialRow) (deployment_id : string)
    (purpose : MaterialPurpose) : result ApplicationError ProtectedMaterialReservation :=
  owner_kind <-? Owner.MaterialOwnerKind_parse (pm_owner_kind model) ;;
  material_kind <-? parse_material_kind (pm_material_kind model) ;;
  provider_id <-? integrity_of (ProviderId_new (pm_provider_id model)) ;;
  format <-? ok_or (u16_try_from (pm_provider_format_version model)) AppError.Integrity ;;
  provider_format_version <-? integrity_of (ProviderFormatVersion_new format) ;;
  version <-? ok_or (u16_try_from (pm_context_version model)) AppError.Integrity ;;
  context_version <-? integrity_of (ContextVersion_try_from version) ;;
  generation <-? ok_or (u64_try_from (pm_generation model)) AppError.Integrity ;;
  parts <-? context_parts context_version deployment_id (pm_project_id model) (pm_id model)
              material_kind owner_kind (pm_owner_id model) generation purpose provider_id
              provider_format_version ;;
  context <-? integrity_of (ProtectionContext_new parts) ;;
  if negb (bool_decide (sha256 (pctx_canonical context) = pm_context_digest model))
     || negb (Bool.eqb (bool_decide (pm_scope_kind model = "project"%string))
                (is_some (pm_project_id model)))
  then Err AppError.Integrity
  else
    state <-? MaterialState.ProtectedMaterialState_parse (pm_state model) ;;
    Ok (mkProtectedMaterialReservation (pm_id model) (pm_project_id model) owner_kind
          (pm_owner_id model) (pm_generation model) material_kind provider_id
          provider_format_version context state).

Definition map_live (model : ProtectedMaterialRow) (deployment_id : string)
    (purpose : MaterialPurpose) : result ApplicationError LiveProtectedMaterial :=
  opaque_value <-? ok_or (pm_opaque_value model) AppError.Integrity ;;
  reservation <-? map_reservation model deployment_id purpose ;;
  if negb (bool_decide (pr_state reservation = MaterialState.Live))
  then Err AppError.InvalidTransition
  else Ok (mkLiveProtectedMaterial reservation opaque_value (pm_safe_fingerprint model)).

(** ** Reservation *)
Definition lock_material_inventory : ctxn unit :=
  s <~ mget ;;
  c_check (is_some (cu_inventory s)) AppError.Integrity.

Definition scope_name (project_id : option Uuid) : string :=
  if is_some project_id then "project" else "deployment".

Definition reserved_by (project_id : option Uuid) (owner_kind : MaterialOwnerKind) (owner_id : Uuid)
    (generation : Z) (row : ProtectedMaterialRow) : bool :=
  bool_decide (pm_scope_kind row = scope_name project_id)
  && bool_decide (pm_project_id row = project_id)
  && bool_decide (pm_owner_kind row = Owner.MaterialOwnerKind_as_str owner_kind)
  && (pm_owner_id row =? owner_id) && (pm_generation row =? generation).

Definition reserved_row (clock : OffsetDateTime) (project_id : option Uuid) (material_id : Uuid)
    (owner_kind : MaterialOwnerKind) (owner_id : Uuid) (generation : Z)
    (material_kind : MaterialKind) (provider_id : ProviderId) (provider_format_version : Z)
    (context_digest : list Z) : ProtectedMaterialRow :=
  mkProtectedMaterialRow material_id (scope_name project_id) project_id
    (Owner.MaterialOwnerKind_as_str owner_kind) owner_id generation
    (material_kind_name material_kind) (ProviderId_as_str provider_id) provider_format_version
    (ContextVersion_get V1) context_digest None None
    (MaterialState.ProtectedMaterialState_as_str MaterialState.Pending) clock clock None.

Definition reserve_in_transaction (clock : OffsetDateTime) (project_exists : Uuid -> bool)
    (deployment_id : string) (project_id : option Uuid) (material_id : Uuid)
    (owner_kind : MaterialOwnerKind) (owner_id : Uuid) (generation : Z)
    (material_kind : MaterialKind) (purpose : MaterialPurpose) (provider_id : ProviderId)
    (provider_format_version : Z) : ctxn ProtectedMaterialReservation :=
  lock_material_inventory ;;~
  ctx <~ mlift (context deployment_id project_id material_id owner_kind owner_id generation
                  material_kind purpose provider_id provider_format_version) ;;
  let context_digest := sha256 (pctx_canonical ctx) in
  s <~ mget ;;
  match find_one (cu_materials s) (reserved_by project_id owner_kind owner_id generation) with
  | Some existing =>
      reservation <~ mlift (map_reservation existing deployment_id purpose) ;;
      if negb (pr_id reservation =? material_id)
         || negb (bool_decide (pr_material_kind reservation = material_kind))
         || negb (bool_decide (pr_provider_id reservation = provider_id))
         || negb (pr_provider_format_version reservation =? provider_format_version)
         || negb (bool_decide (pr_context reservation = ctx))
      then mfail AppError.IdempotencyConflict
      else mret reservation
  | None =>
      if generation <=? 0 then mfail AppError.InvalidInput
      else
        let row := reserved_row clock project_id material_id owner_kind owner_id generation
                     material_kind provider_id provider_format_version context_digest in
        insert_material project_exists row ;;~
        mlift (map_reservation row deployment_id purpose)
  end.

Definition reserve_deployment_in_transaction (clock : OffsetDateTime) (project_exists : Uuid -> bool)
    (deployment_id : string) := reserve_in_transaction clock project_exists deployment_id None.

Definition reserve_project_in_transaction (clock : OffsetDateTime) (project_exists : Uuid -> bool)
    (deployment_id : string) (project_id : Uuid) :=
  reserve_in_transaction clock project_exists deployment_id (Some project_id).

(** The reads, within a transaction or not. *)
Definition load_project_reservation (s : CustodyStore) (deployment_id : string) (project_id : Uuid)
    (material_id : Uuid) (purpose : MaterialPurpose) :
    result ApplicationError ProtectedMaterialReservation :=
  model <-? ok_or (find_by_id (cu_materials s) material_id
                     (fun m => bool_decide (pm_project_id m = Some project_id))) AppError.NotFound ;;
  map_reservation model deployment_id purpose.

Definition load_deployment_reservation (s : CustodyStore) (deployment_id : string)
    (material_id : Uuid) (purpose : MaterialPurpose) :
    result ApplicationError ProtectedMaterialReservation :=
  model <-? ok_or (find_by_id (cu_materials s) material_id (fun m => is_none (pm_project_id m)))
              AppError.NotFound ;;
  map_reservation model deployment_id purpose.

Definition load_live_by_id (s : CustodyStore) (deployment_id : string) (material_id : Uuid) :
    result ApplicationError LiveProtectedMaterial :=
  model <-? ok_or (cu_materials s !! material_id) AppError.NotFound ;;
  owner_kind <-? Owner.MaterialOwnerKind_parse (pm_owner_kind model) ;;
  map_live model deployment_id (Purpose.MaterialPurpose_for_owner owner_kind).

(** ** Finalization and erasure *)
Definition finalize_pending_material (material_id : Uuid) (project_id : option Uuid)
    (opaque_value : list Z) (safe_fingerprint : option (list Z)) (finalized_at : OffsetDateTime) :
    ctxn unit :=
  lock_material_inventory ;;~
  s <~ mget ;;
  model <~ mlift (ok_or (find_by_id (cu_materials s) material_id
                           (fun m => bool_decide (pm_project_id m = project_id))) AppError.NotFound) ;;
  state <~ mlift (MaterialState.ProtectedMaterialState_parse (pm_state model)) ;;
  let same_fingerprint := bool_decide (pm_safe_fingerprint model = safe_fingerprint) in
  match state with
  | MaterialState.Pending =>
      update_material (material_with (Some opaque_value) safe_fingerprint
        (MaterialState.ProtectedMaterialState_as_str MaterialState.Live) finalized_at
        (pm_erased_at model) model)
  | MaterialState.Live =>
      if same_fingerprint
         && (is_some safe_fingerprint || bool_decide (pm_opaque_value model = Some opaque_value))
      then mret tt
      else mfail AppError.IdempotencyConflict
  | MaterialState.Erased =>
      if is_some safe_fingerprint && same_fingerprint then mret tt
      else if is_some safe_fingerprint then mfail AppError.IdempotencyConflict
      else mfail AppError.InvalidTransition
  end.

Definition erase_by_id_in_transaction (material_id : Uuid) (erased_at : OffsetDateTime) : ctxn unit :=
  lock_material_inventory ;;~
  s <~ mget ;;
  model <~ mlift (ok_or (cu_materials s !! material_id) AppError.NotFound) ;;
  state <~ mlift (MaterialState.ProtectedMaterialState_parse (pm_state model)) ;;
  match state with
  | MaterialState.Erased => mret tt
  | MaterialState.Pending | MaterialState.Live =>
      update_material (material_with None (pm_safe_fingerprint model)
        (MaterialState.ProtectedMaterialState_as_str MaterialState.Erased) erased_at
        (Some erased_at) model)
  end.

Definition material_inventory_revision (s : CustodyStore) : result ApplicationError Z :=
  revision <-? ok_or (cu_inventory s) AppError.Integrity ;;
  if revision <=? 0 then Err AppError.Integrity else Ok revision.

(** ** What the runtime needs *)
Record RequiredRuntimeCapability := mkRequiredRuntimeCapability {
  rc_provider_id : ProviderId; rc_provider_format_version : Z; rc_material_kind : MaterialKind
}.

Definition is_live (m : ProtectedMaterialRow) : bool :=
  bool_decide (pm_state m = MaterialState.ProtectedMaterialState_as_str MaterialState.Live).

(** [SELECT DISTINCT]. *)
Definition live_capabilities (s : CustodyStore) : list (string * Z * string) :=
  remove_dups (map (fun m => (pm_provider_id m, pm_provider_format_version m, pm_material_kind m))
                 (List.filter is_live (map snd (map_to_list (cu_materials s))))).

Definition required_capability (row : string * Z * string) :
    result ApplicationError RequiredRuntimeCapability :=
  let '(provider_id, format_version, material_kind) := row in
  provider_id <-? integrity_of (ProviderId_new provider_id) ;;
  format <-? ok_or (u16_try_from format_version) AppError.Integrity ;;
  provider_format_version <-? integrity_of (ProviderFormatVersion_new format) ;;
  material_kind <-? parse_material_kind material_kind ;;
  Ok (mkRequiredRuntimeCapability provider_id provider_format_version material_kind).

Definition required_runtime_capabilities (s : CustodyStore) :
    result ApplicationError (list RequiredRuntimeCapability) :=
  rmapM required_capability (live_capabilities s).

Record RuntimeReadinessCandidate := mkRuntimeReadinessCandidate {
  rr_material : LiveProtectedMaterial;
  rr_signing_public_jwk : option json
}.

(** The rows of a page: live, after a cursor, in the order of their ids. *)
Definition readiness_rows (s : CustodyStore) (after : option Uuid) (limit : Z) :
    list ProtectedMaterialRow :=
  find_all (cu_materials s)
    (fun m => is_live m && match after with Some a => a <? pm_id m | None => true end)
    (key_le pm_id) limit.

(** The keys that name a signing material of the page. *)
Definition signing_owners (keys : gmap Z SigningKeyRow) (material_id : Uuid) : list SigningKeyRow :=
  List.filter (fun k => sk_signer_material_id k =? material_id) (map snd (map_to_list keys)).

Definition readiness_candidate (deployment_id : string) (keys : gmap Z SigningKeyRow)
    (row : ProtectedMaterialRow) : result ApplicationError RuntimeReadinessCandidate :=
  owner_kind <-? Owner.MaterialOwnerKind_parse (pm_owner_kind row) ;;
  material <-? map_live row deployment_id (Purpose.MaterialPurpose_for_owner owner_kind) ;;
  let reservation := lm_reservation material in
  jwk <-?
    match pr_material_kind reservation with
    | SigningKeyMaterial =>
        if negb (bool_decide (owner_kind = Owner.SigningKey)) then Err AppError.Integrity
        else
          match signing_owners keys (pm_id row) with
          | [owner] =>
              if negb (bool_decide (Some (sk_project_id owner) = pr_project_id reservation))
                 || negb (sk_id owner =? pr_owner_id reservation)
                 || negb (sk_signer_material_generation owner =? pr_generation reservation)
              then Err AppError.Integrity
              else Ok (Some (sk_public_jwk owner))
          | _ => Err AppError.Integrity
          end
    | ConfigurationSecret =>
        if bool_decide (owner_kind = Owner.SigningKey) then Err AppError.Integrity else Ok None
    end ;;
  Ok (mkRuntimeReadinessCandidate material jwk).

(** The owners of a page's signing materials are consumed one by one; none is
    left because each was looked up through its own row. *)
Definition runtime_readiness_page (s : CustodyStore) (deployment_id : string)
    (keys : gmap Z SigningKeyRow) (after : option Uuid) (limit : Z) :
    result ApplicationError (list RuntimeReadinessCandidate) :=
  if (limit =? 0) || (256 <? limit) then Err AppError.InvalidInput
  else rmapM (readiness_candidate deployment_id keys) (readiness_rows s after limit).
End custody.
