(* ===== verification/WebhookControl.v ===== *)
(** * Webhook endpoints: control

    The control half of [adapters/postgres/webhook.rs] and the service
    [WebhookControlService] of [application/webhook.rs]: an operator registers an
    endpoint with its first secret, tests and activates it, changes what it
    subscribes to, rotates its secret with an overlap, disables it, reads its
    history and replays a delivery.

    The store is the [DeliveryStore] of the worker with the [CustodyStore] of the
    materials: registering an endpoint or preparing a rotation writes both in one
    transaction, and the erasure that ends a secret ([finish_secret_cleanup] of
    the worker) becomes the custody store's ([finish_cleanup_erasing]).  A deferred
    trigger compares a written material with its owner when the transaction
    commits ([commit_material]); owners of the other kinds are the argument
    [other_owner].

    Arguments stand for the clocks, the random identifiers, and [seen], the
    custody store a read made after a commit sees. *)
From S2P Require Import Prelude.
From S2P Require Import Json.
From S2P Require Import Lifecycle.
From S2P Require Import KeyProvider.
From S2P Require Import UrlValues.
From S2P Require Import WebhookTables.
From S2P Require Import Webhooks.
From S2P Require Import Database.
From S2P Require Import Projection.
From S2P Require Import WebhookOutbox.
From S2P Require Import WebhookDelivery.
From S2P Require Import Custody.

Definition MAX_LIST_ROWS : Z := 101.

(** ** The store *)
Record ControlStore := mkControlStore { ct_delivery : DeliveryStore; ct_custody : CustodyStore }.

Definition xtxn (A : Type) : Type := mut ControlStore ApplicationError A.

Definition x_transaction {A : Type} (body : xtxn A) : xtxn A := fun s =>
  match body s with
  | (s', Ok a) => (s', Ok a)
  | (_, Err e) => (s, Err e)
  end.

Definition x_check (c : bool) (e : ApplicationError) : xtxn unit := if c then mret tt else mfail e.

Definition on_delivery {A : Type} (body : dtxn A) : xtxn A := fun s =>
  match body (ct_delivery s) with
  | (d, r) => (mkControlStore d (ct_custody s), r)
  end.

Definition on_custody {A : Type} (body : ctxn A) : xtxn A := fun s =>
  match body (ct_custody s) with
  | (c, r) => (mkControlStore (ct_delivery s) c, r)
  end.

Definition x_database (s : ControlStore) : Database := dl_db (ct_delivery s).
Definition x_endpoints (s : ControlStore) := endpoints (ct_delivery s).
Definition x_secrets (s : ControlStore) := dl_secrets (ct_delivery s).
Definition x_materials (s : ControlStore) := cu_materials (ct_custody s).

Definition audit (project_id : Uuid) (action target_kind : string) (target : Uuid)
    (correlation_id : Uuid) : xtxn unit :=
  on_delivery (in_database (append_runtime_audit project_id "deployment_operator" action target_kind
                              (Some target) correlation_id)).

(** ** Statements *)
(** Unique among the endpoints: the public id, a key of the application's, and
    the URL of an application's endpoints that are not disabled. *)
Definition webhook_endpoint_conflict (a b : WebhookEndpointRow) : bool :=
  let same_application := (we_project_id a =? we_project_id b)
                          && (we_application_id a =? we_application_id b) in
  bool_decide (we_public_id a = we_public_id b)
  || (same_application && bool_decide (we_idempotency_key a = we_idempotency_key b))
  || (same_application && bool_decide (we_url a = we_url b)
      && negb (bool_decide (we_status a = "disabled"%string))
      && negb (bool_decide (we_status b = "disabled"%string))).

Definition insert_endpoint (row : WebhookEndpointRow) : dtxn unit :=
  s <~ mget ;;
  d_check (is_none (endpoints s !! we_id row) && webhook_endpoint_check row
           && application_exists (dl_db s) (we_project_id row) (we_application_id row)
           && unique_in webhook_endpoint_conflict (we_id row) row (endpoints s))
    AppError.Persistence ;;~
  mmodify (set_dl_db (set_db_webhook (set_wt_endpoints (<[we_id row := row]> (endpoints s))
                                        (db_webhook (dl_db s))) (dl_db s))).

(** Unique among the secrets: the material, the key of a request to an endpoint,
    and the endpoint's secret in each of the three states before retirement. *)
Definition webhook_secret_conflict (a b : WebhookSecretRow) : bool :=
  (ws_material_id a =? ws_material_id b)
  || ((ws_endpoint_id a =? ws_endpoint_id b)
      && (bool_decide (ws_idempotency_key a = ws_idempotency_key b)
          || (bool_decide (ws_state a = ws_state b)
              && bool_decide (ws_state a ∈ ["pending"; "active"; "overlap"]%string)))).

Definition secret_unique (s : DeliveryStore) (row : WebhookSecretRow) : bool :=
  forallb (fun other => negb (webhook_secret_conflict row other))
    (map snd (map_to_list (delete (ws_endpoint_id row, ws_generation row) (dl_secrets s)))).

Definition insert_secret (row : WebhookSecretRow) : dtxn unit :=
  s <~ mget ;;
  let key := (ws_endpoint_id row, ws_generation row) in
  d_check (is_none (dl_secrets s !! key) && webhook_secret_check row
           && is_some (endpoints s !! ws_endpoint_id row) && secret_unique s row)
    AppError.Persistence ;;~
  mmodify (set_dl_secrets (<[key := row]> (dl_secrets s))).

(** The trigger on updates: a secret keeps its request and material, and gets its
    fingerprint once, while it is pending. *)
Definition secret_material_immutable (old row : WebhookSecretRow) : bool :=
  bool_decide (ws_idempotency_key row = ws_idempotency_key old
               /\ ws_request_fingerprint row = ws_request_fingerprint old
               /\ ws_material_id row = ws_material_id old
               /\ ws_created_at row = ws_created_at old)
  && (bool_decide (ws_safe_fingerprint row = ws_safe_fingerprint old)
      || (is_none (ws_safe_fingerprint old) && is_some (ws_safe_fingerprint row)
          && bool_decide (ws_state old = "pending"%string))).

Definition write_secret (row : WebhookSecretRow) : dtxn unit :=
  s <~ mget ;;
  d_check (is_some_and (dl_secrets s !! (ws_endpoint_id row, ws_generation row))
             (fun old => secret_material_immutable old row) && secret_unique s row)
    AppError.Persistence ;;~
  update_secret row.

(** The deferred trigger on the materials a transaction wrote. *)
Definition material_owner_matches (other_owner : ProtectedMaterialRow -> bool) (s : ControlStore)
    (m : ProtectedMaterialRow) : bool :=
  if bool_decide (pm_owner_kind m = "webhook_secret"%string) then
    is_some_and (x_secrets s !! (pm_owner_id m, pm_generation m)) (fun secret =>
      ws_material_id secret =? pm_id m)
    && is_some_and (x_endpoints s !! pm_owner_id m) (fun owner =>
         bool_decide (pm_project_id m = Some (we_project_id owner)))
  else other_owner m.

Definition commit_material (other_owner : ProtectedMaterialRow -> bool) (material_id : Uuid) : xtxn unit :=
  s <~ mget ;;
  x_check (match x_materials s !! material_id with
           | Some m => material_owner_matches other_owner s m
           | None => true
           end) AppError.Persistence.

(** ** Owners *)
Definition lock_active_endpoint (project_id application_id endpoint_id : Uuid) :
    dtxn WebhookEndpointRow :=
  _ <~ lock_active_application project_id application_id ;;
  lock_endpoint project_id application_id endpoint_id.

Definition ensure_application (db : Database) (project_id application_id : Uuid) :
    result ApplicationError unit :=
  rmap (fun _ => tt) (ok_or (find_by_id (db_applications db) application_id
                               (fun a => ap_project_id a =? project_id)) AppError.NotFound).

(** ** Records *)
Record WebhookEndpointRecord := mkWebhookEndpointRecord {
  er_id : Uuid; er_public_id : string; er_project_id : Uuid; er_application_id : Uuid;
  er_url : string; er_subscribed_event_types : list string; er_status : string; er_revision : Z;
  er_current_secret_generation : option Z; er_overlap_secret_generation : option Z;
  er_overlap_expires_at : option OffsetDateTime; er_consecutive_failure_count : Z;
  er_last_delivery_at : option OffsetDateTime; er_last_success_at : option OffsetDateTime;
  er_last_failure_class : option string; er_last_tested_at : option OffsetDateTime;
  er_last_test_succeeded_at : option OffsetDateTime; er_created_at : OffsetDateTime;
  er_updated_at : OffsetDateTime
}.

(** A domain error becomes [InvalidInput]. *)
Definition of_domain {A : Type} (r : result DomainError A) : result ApplicationError A :=
  map_err (fun _ => AppError.InvalidInput) r.

Definition endpoint_status (value : string) : result ApplicationError Endpoint.WebhookEndpointStatus :=
  of_domain (Endpoint.WebhookEndpointStatus_parse value).
Definition event_type (value : string) : result ApplicationError UserEvent.ApplicationUserEventType :=
  of_domain (UserEvent.ApplicationUserEventType_parse value).

Definition endpoint_record (e : WebhookEndpointRow) : result ApplicationError WebhookEndpointRecord :=
  _ <-? endpoint_status (we_status e) ;;
  Ok {| er_id := we_id e; er_public_id := we_public_id e; er_project_id := we_project_id e;
        er_application_id := we_application_id e; er_url := we_url e;
        er_subscribed_event_types := we_subscribed_event_types e; er_status := we_status e;
        er_revision := we_revision e;
        er_current_secret_generation := we_current_secret_generation e;
        er_overlap_secret_generation := we_overlap_secret_generation e;
        er_overlap_expires_at := we_overlap_expires_at e;
        er_consecutive_failure_count := we_consecutive_failure_count e;
        er_last_delivery_at := we_last_delivery_at e; er_last_success_at := we_last_success_at e;
        er_last_failure_class := we_last_failure_class e;
        er_last_tested_at := we_last_tested_at e;
        er_last_test_succeeded_at := we_last_test_succeeded_at e;
        er_created_at := we_created_at e; er_updated_at := we_updated_at e |}.

(** [WebhookSecretPreparationState]. *)
Module Preparation.
Inductive WebhookSecretPreparationState := Pending | Provisioned | Terminal.
#[global] Instance WebhookSecretPreparationState_eq_dec :
  EqDecision WebhookSecretPreparationState.
Proof. solve_decision. Defined.
End Preparation.

Definition secret_preparation_state (secret : WebhookSecretRow) (can_provision : bool) :
    Preparation.WebhookSecretPreparationState :=
  if is_some (ws_provisioned_at secret) then Preparation.Provisioned
  else if can_provision && bool_decide (ws_state secret = "pending"%string) then Preparation.Pending
  else Preparation.Terminal.

Record PreparedSecretMaterial := mkPreparedSecretMaterial {
  ps_material_id : Uuid; ps_provider_id : ProviderId; ps_provider_format_version : Z;
  ps_context : ProtectionContext
}.

Record PreparedWebhookEndpoint := mkPreparedWebhookEndpoint {
  pe_endpoint : WebhookEndpointRecord; pe_material : PreparedSecretMaterial;
  pe_preparation_state : Preparation.WebhookSecretPreparationState
}.

Record PreparedWebhookSecret := mkPreparedWebhookSecret {
  px_endpoint : WebhookEndpointRecord; px_generation : Z; px_material : PreparedSecretMaterial;
  px_preparation_state : Preparation.WebhookSecretPreparationState; px_already_active : bool
}.

Record PrepareWebhookEndpoint := mkPrepareWebhookEndpoint {
  we_cmd_url : string; we_cmd_subscribed_event_types : list string; we_cmd_idempotency_key : string;
  we_cmd_request_fingerprint : list Z
}.

Record PrepareWebhookRotation := mkPrepareWebhookRotation {
  rot_idempotency_key : string; rot_request_fingerprint : list Z; rot_expected_revision : Z
}.

Record UpdateWebhookEndpoint := mkUpdateWebhookEndpoint {
  up_subscribed_event_types : list string; up_expected_revision : Z
}.

Record SealedProtectedMaterial := mkSealedProtectedMaterial {
  sp_material_id : Uuid; sp_provider_id : ProviderId; sp_provider_format_version : Z;
  sp_envelope : list Z; sp_request_fingerprint : list Z
}.

(** The deployment and the provider that seals new secrets; a runtime process has
    none. *)
Record WebhookCustody := mkWebhookCustody {
  wk_deployment_id : string; wk_active_secret : option (ProviderId * Z)
}.

(** [ProviderErrorClass] of the key provider and what the service makes of it. *)
Module ProviderErr.
Inductive ProviderErrorClass :=
| InvalidRequest | UnsupportedAlgorithm | NotFound | Conflict | PermissionDenied | Unavailable
| Integrity.
End ProviderErr.
Abbreviation ProviderErrorClass := ProviderErr.ProviderErrorClass.

Definition map_provider_error (class : ProviderErrorClass) : ApplicationError :=
  match class with
  | ProviderErr.InvalidRequest | ProviderErr.UnsupportedAlgorithm | ProviderErr.Integrity =>
      AppError.Integrity
  | ProviderErr.Conflict => AppError.IdempotencyConflict
  | ProviderErr.NotFound => AppError.NotFound
  | ProviderErr.PermissionDenied | ProviderErr.Unavailable => AppError.ExternalStore
  end.

(** ** Rows written *)
Definition new_endpoint (endpoint_id project_id application_id : Uuid)
    (command : PrepareWebhookEndpoint) (now : OffsetDateTime) : WebhookEndpointRow :=
  {| we_id := endpoint_id; we_project_id := project_id; we_application_id := application_id;
     we_public_id := String.append "wh_" (uuid_simple endpoint_id);
     we_idempotency_key := we_cmd_idempotency_key command;
     we_secret_request_fingerprint := we_cmd_request_fingerprint command;
     we_url := we_cmd_url command;
     we_subscribed_event_types := we_cmd_subscribed_event_types command;
     we_status := "pending"; we_revision := 1; we_current_secret_generation := None;
     we_overlap_secret_generation := None; we_overlap_expires_at := None;
     we_consecutive_failure_count := 0; we_last_delivery_at := None; we_last_success_at := None;
     we_last_failure_class := None; we_last_tested_at := None; we_last_test_succeeded_at := None;
     we_created_at := now; we_updated_at := now; we_disabled_at := None |}.

Definition pending_secret (endpoint_id : Uuid) (generation : Z) (idempotency_key : string)
    (request_fingerprint : list Z) (material_id : Uuid) (now : OffsetDateTime) : WebhookSecretRow :=
  mkWebhookSecretRow endpoint_id generation idempotency_key request_fingerprint None "pending" now
    None None None material_id.

(** A secret with its state and times rewritten. *)
Definition secret_with (safe_fingerprint : option string) (state : string)
    (provisioned_at activated_at : option OffsetDateTime) (r : WebhookSecretRow) : WebhookSecretRow :=
  mkWebhookSecretRow (ws_endpoint_id r) (ws_generation r) (ws_idempotency_key r)
    (ws_request_fingerprint r) safe_fingerprint state (ws_created_at r) provisioned_at activated_at
    (ws_retired_at r) (ws_material_id r).

Definition secret_activated (now : OffsetDateTime) (r : WebhookSecretRow) : WebhookSecretRow :=
  secret_with (ws_safe_fingerprint r) "active" (ws_provisioned_at r) (Some now) r.
Definition secret_overlapping (r : WebhookSecretRow) : WebhookSecretRow :=
  secret_with (ws_safe_fingerprint r) "overlap" (ws_provisioned_at r) (ws_activated_at r) r.

(** The columns the control commands set on an endpoint. *)
Definition endpoint_with (subscribed_event_types : list string) (status : string) (revision : Z)
    (current overlap : option Z) (overlap_expires_at last_tested_at last_test_succeeded_at :
    option OffsetDateTime) (now : OffsetDateTime) (e : WebhookEndpointRow) : WebhookEndpointRow :=
  {| we_id := we_id e; we_project_id := we_project_id e; we_application_id := we_application_id e;
     we_public_id := we_public_id e; we_idempotency_key := we_idempotency_key e;
     we_secret_request_fingerprint := we_secret_request_fingerprint e; we_url := we_url e;
     we_subscribed_event_types := subscribed_event_types; we_status := status;
     we_revision := revision; we_current_secret_generation := current;
     we_overlap_secret_generation := overlap; we_overlap_expires_at := overlap_expires_at;
     we_consecutive_failure_count := we_consecutive_failure_count e;
     we_last_delivery_at := we_last_delivery_at e; we_last_success_at := we_last_success_at e;
     we_last_failure_class := we_last_failure_class e; we_last_tested_at := last_tested_at;
     we_last_test_succeeded_at := last_test_succeeded_at; we_created_at := we_created_at e;
     we_updated_at := now; we_disabled_at := we_disabled_at e |}.

Definition endpoint_tested (revision : Z) (now : OffsetDateTime) (e : WebhookEndpointRow) :=
  endpoint_with (we_subscribed_event_types e) (we_status e) revision
    (we_current_secret_generation e) (we_overlap_secret_generation e) (we_overlap_expires_at e)
    (Some now) (Some now) now e.
Definition endpoint_updated (subscribed_event_types : list string) (revision : Z)
    (now : OffsetDateTime) (e : WebhookEndpointRow) :=
  endpoint_with subscribed_event_types (we_status e) revision (we_current_secret_generation e)
    (we_overlap_secret_generation e) (we_overlap_expires_at e) (we_last_tested_at e)
    (we_last_test_succeeded_at e) now e.
Definition endpoint_activated (revision : Z) (now : OffsetDateTime) (e : WebhookEndpointRow) :=
  endpoint_with (we_subscribed_event_types e) "active" revision (Some 1)
    (we_overlap_secret_generation e) (we_overlap_expires_at e) (we_last_tested_at e)
    (we_last_test_succeeded_at e) now e.
Definition endpoint_rotated (revision generation previous : Z) (overlap_expires_at now : OffsetDateTime)
    (e : WebhookEndpointRow) :=
  endpoint_with (we_subscribed_event_types e) (we_status e) revision (Some generation)
    (Some previous) (Some overlap_expires_at) (we_last_tested_at e) (we_last_test_succeeded_at e)
    now e.

(** [i64::saturating_add(1)], [i32 + 1]. *)
Definition saturating_succ (v : Z) : Z := Z.min (v + 1) i64_max.
Definition i32_succ (v : Z) : Z := if v =? i32_max then - 2 ^ 31 else v + 1.

Section control.
Context `{CanonicalHash}.
Context (other_owner : ProtectedMaterialRow -> bool).

Definition project_exists (s : ControlStore) (project_id : Uuid) : bool :=
  is_some (db_projects (x_database s) !! project_id).

Definition prepared_secret_material (seen : CustodyStore) (deployment_id : string)
    (project_id : Uuid) (secret : WebhookSecretRow) : result ApplicationError PreparedSecretMaterial :=
  let material_id := ws_material_id secret in
  reservation <-? load_project_reservation seen deployment_id project_id material_id
                    Purpose.WebhookSigningSecret ;;
  if negb (bool_decide (pr_owner_kind reservation = Owner.WebhookSecret))
     || negb (pr_owner_id reservation =? ws_endpoint_id secret)
     || negb (pr_generation reservation =? ws_generation secret)
     || negb (bool_decide (pr_material_kind reservation = ConfigurationSecret))
  then Err AppError.Integrity
  else Ok (mkPreparedSecretMaterial material_id (pr_provider_id reservation)
             (pr_provider_format_version reservation) (pr_context reservation)).

(** Reserves the material of a new secret and inserts the secret. *)
Definition reserve_secret (custody : WebhookCustody) (clock now : OffsetDateTime)
    (project_id endpoint_id : Uuid) (generation : Z) (material_id : Uuid) (idempotency_key : string)
    (request_fingerprint : list Z) : xtxn PreparedSecretMaterial :=
  provider <~ mlift (ok_or (wk_active_secret custody) AppError.Integrity) ;;
  s <~ mget ;;
  reservation <~ on_custody (reserve_project_in_transaction clock (project_exists s)
                   (wk_deployment_id custody) project_id material_id Owner.WebhookSecret endpoint_id
                   generation ConfigurationSecret Purpose.WebhookSigningSecret provider.1 provider.2) ;;
  on_delivery (insert_secret (pending_secret endpoint_id generation idempotency_key
                                request_fingerprint material_id now)) ;;~
  mret (mkPreparedSecretMaterial material_id (pr_provider_id reservation)
          (pr_provider_format_version reservation) (pr_context reservation)).

(** ** Registration *)
Definition of_application (project_id application_id : Uuid) (e : WebhookEndpointRow) : bool :=
  (we_project_id e =? project_id) && (we_application_id e =? application_id).

Definition request_matches (command : PrepareWebhookEndpoint) (e : WebhookEndpointRow) : bool :=
  bool_decide (we_subscribed_event_types e = we_cmd_subscribed_event_types command)
  && bool_decide (we_secret_request_fingerprint e = we_cmd_request_fingerprint command).

(** The answer to a request that was made before. *)
Definition existing_endpoint (custody : WebhookCustody) (seen : CustodyStore) (project_id : Uuid)
    (existing : WebhookEndpointRow) :
    xtxn (WebhookEndpointRow * PreparedSecretMaterial * Preparation.WebhookSecretPreparationState) :=
  s <~ mget ;;
  secret <~ mlift (ok_or (x_secrets s !! (we_id existing, 1)) AppError.Integrity) ;;
  let preparation_state :=
    secret_preparation_state secret (bool_decide (we_status existing = "pending"%string)) in
  material <~ mlift (prepared_secret_material seen (wk_deployment_id custody) project_id secret) ;;
  mret (existing, material, preparation_state).

Definition open_endpoints (s : ControlStore) (project_id application_id : Uuid) :
    list WebhookEndpointRow :=
  take (Z.to_nat (MAX_WEBHOOK_ENDPOINTS_PER_APPLICATION + 1))
    (List.filter (fun e => of_application project_id application_id e
                           && bool_decide (we_status e ∈ ["pending"; "active"]%string))
       (map snd (map_to_list (x_endpoints s)))).

Definition register_endpoint (custody : WebhookCustody) (clock : OffsetDateTime)
    (endpoint_id material_id : Uuid) (project_id application_id : Uuid)
    (command : PrepareWebhookEndpoint) (now : OffsetDateTime) (correlation_id : Uuid) :
    xtxn (WebhookEndpointRow * PreparedSecretMaterial * Preparation.WebhookSecretPreparationState) :=
  let endpoint := new_endpoint endpoint_id project_id application_id command now in
  on_delivery (insert_endpoint endpoint) ;;~
  material <~ reserve_secret custody clock now project_id endpoint_id 1 material_id
                (we_cmd_idempotency_key command) (we_cmd_request_fingerprint command) ;;
  audit project_id "webhook.endpoint.prepare" "webhook_endpoint" endpoint_id correlation_id ;;~
  commit_material other_owner material_id ;;~
  mret (endpoint, material, Preparation.Pending).

Definition prepare_endpoint_locked (custody : WebhookCustody) (seen : CustodyStore)
    (clock : OffsetDateTime) (endpoint_id material_id : Uuid) (project_id application_id : Uuid)
    (command : PrepareWebhookEndpoint) (now : OffsetDateTime) (correlation_id : Uuid) :
    xtxn (WebhookEndpointRow * PreparedSecretMaterial * Preparation.WebhookSecretPreparationState) :=
  _ <~ on_delivery (lock_active_application project_id application_id) ;;
  s <~ mget ;;
  match find_one (x_endpoints s) (fun e => of_application project_id application_id e
          && bool_decide (we_idempotency_key e = we_cmd_idempotency_key command)) with
  | Some existing =>
      if negb (bool_decide (we_url existing = we_cmd_url command))
         || negb (request_matches command existing)
      then mfail AppError.IdempotencyConflict
      else existing_endpoint custody seen project_id existing
  | None =>
      match find_one (x_endpoints s) (fun e => of_application project_id application_id e
              && bool_decide (we_url e = we_cmd_url command)
              && negb (bool_decide (we_status e = "disabled"%string))) with
      | Some existing =>
          if negb (bool_decide (we_status existing = "pending"%string))
             || negb (request_matches command existing)
          then mfail AppError.IdempotencyConflict
          else existing_endpoint custody seen project_id existing
      | None =>
          if MAX_WEBHOOK_ENDPOINTS_PER_APPLICATION
             <=? list_len (open_endpoints s project_id application_id)
          then mfail AppError.CapacityExceeded
          else register_endpoint custody clock endpoint_id material_id project_id application_id
                 command now correlation_id
      end
  end.

Definition prepare_endpoint (custody : WebhookCustody) (seen : CustodyStore) (clock : OffsetDateTime)
    (endpoint_id material_id : Uuid) (project_id application_id : Uuid)
    (command : PrepareWebhookEndpoint) (now : OffsetDateTime) (correlation_id : Uuid) :
    xtxn PreparedWebhookEndpoint :=
  if negb (list_len (we_cmd_request_fingerprint command) =? 32) then mfail AppError.InvalidInput
  else
    prepared <~ x_transaction (prepare_endpoint_locked custody seen clock endpoint_id material_id
                                 project_id application_id command now correlation_id) ;;
    record <~ mlift (endpoint_record prepared.1.1) ;;
    mret (mkPreparedWebhookEndpoint record prepared.1.2 prepared.2).

(** ** Sealed secrets *)
Context `{WebhookIo}.

Definition secret_finalizable (generation : Z) (request_fingerprint : list Z)
    (material : SealedProtectedMaterial) (secret : WebhookSecretRow) : bool :=
  (ws_material_id secret =? sp_material_id material)
  && bool_decide (ws_request_fingerprint secret = request_fingerprint)
  && bool_decide (ws_state secret ∈ ["pending"; "active"; "overlap"; "retired"; "compromised"]%string).

Definition finalize_secret_locked (custody : WebhookCustody) (project_id application_id
    endpoint_id : Uuid) (generation expected_endpoint_revision : Z) (request_fingerprint : list Z)
    (material : SealedProtectedMaterial) (now : OffsetDateTime) (correlation_id : Uuid) : xtxn unit :=
  let fingerprint := sp_request_fingerprint material in
  endpoint <~ on_delivery (lock_active_endpoint project_id application_id endpoint_id) ;;
  if negb (we_revision endpoint =? expected_endpoint_revision) then mfail AppError.RevisionConflict
  else
    s <~ mget ;;
    secret <~ mlift (ok_or (x_secrets s !! (endpoint_id, generation)) AppError.NotFound) ;;
    if negb (secret_finalizable generation request_fingerprint material secret)
    then mfail AppError.InvalidTransition
    else
      reservation <~ mlift (load_project_reservation (ct_custody s) (wk_deployment_id custody)
                              project_id (sp_material_id material) Purpose.WebhookSigningSecret) ;;
      if negb (bool_decide (pr_owner_kind reservation = Owner.WebhookSecret))
         || negb (pr_owner_id reservation =? endpoint_id)
         || negb (pr_generation reservation =? generation)
         || negb (bool_decide (pr_material_kind reservation = ConfigurationSecret))
         || negb (bool_decide (pr_provider_id reservation = sp_provider_id material))
         || negb (pr_provider_format_version reservation =? sp_provider_format_version material)
      then mfail AppError.Integrity
      else
        on_custody (finalize_pending_material (sp_material_id material) (Some project_id)
                      (sp_envelope material) (Some fingerprint) now) ;;~
        (if bool_decide (ws_state secret ∈ ["retired"; "compromised"]%string) then mret tt
         else
           on_delivery (write_secret (secret_with
             (Some (base64url_no_pad (take 16 fingerprint))) (ws_state secret)
             (match ws_provisioned_at secret with Some t => Some t | None => Some now end)
             (ws_activated_at secret) secret)) ;;~
           if is_none (ws_provisioned_at secret)
           then audit project_id "webhook.secret.provision" "webhook_endpoint" endpoint_id correlation_id
           else mret tt) ;;~
        commit_material other_owner (sp_material_id material).

Definition finalize_protected_secret (custody : WebhookCustody) (project_id application_id
    endpoint_id : Uuid) (generation expected_endpoint_revision : Z) (request_fingerprint : list Z)
    (material : SealedProtectedMaterial) (now : OffsetDateTime) (correlation_id : Uuid) : xtxn unit :=
  if (generation <? 1) || negb (list_len request_fingerprint =? 32) then mfail AppError.InvalidInput
  else if negb (list_len (sp_request_fingerprint material) =? 32) then mfail AppError.Integrity
  else x_transaction (finalize_secret_locked custody project_id application_id endpoint_id generation
         expected_endpoint_revision request_fingerprint material now correlation_id).

(** ** Reading, testing and activating an endpoint *)
Definition get_endpoint (s : ControlStore) (project_id application_id endpoint_id : Uuid) :
    result ApplicationError WebhookEndpointRecord :=
  endpoint <-? ok_or (find_by_id (x_endpoints s) endpoint_id
                        (of_application project_id application_id)) AppError.NotFound ;;
  endpoint_record endpoint.

(** A transaction on the worker's tables, then the record of the row it returns. *)
Definition endpoint_command (body : dtxn WebhookEndpointRow) : xtxn WebhookEndpointRecord :=
  endpoint <~ x_transaction (on_delivery body) ;;
  mlift (endpoint_record endpoint).

Definition d_audit (project_id : Uuid) (action : string) (endpoint_id correlation_id : Uuid) : dtxn unit :=
  in_database (append_runtime_audit project_id "deployment_operator" action "webhook_endpoint"
                 (Some endpoint_id) correlation_id).

Definition record_test_locked (project_id application_id endpoint_id : Uuid) (expected_revision : Z)
    (now : OffsetDateTime) (correlation_id : Uuid) : dtxn WebhookEndpointRow :=
  endpoint <~ lock_active_endpoint project_id application_id endpoint_id ;;
  if bool_decide (we_status endpoint = "disabled"%string) then mfail AppError.Disabled
  else if negb (we_revision endpoint =? expected_revision) then mfail AppError.RevisionConflict
  else
    revision <~ mlift (ok_or (checked_add_i64 expected_revision 1) AppError.Integrity) ;;
    let tested := endpoint_tested revision now endpoint in
    update_endpoint_row tested ;;~
    d_audit project_id "webhook.endpoint.test" endpoint_id correlation_id ;;~
    mret tested.

Definition record_endpoint_test_success (project_id application_id endpoint_id : Uuid)
    (expected_revision : Z) (now : OffsetDateTime) (correlation_id : Uuid) : xtxn WebhookEndpointRecord :=
  endpoint_command (record_test_locked project_id application_id endpoint_id expected_revision now
                      correlation_id).

Definition activate_endpoint_locked (project_id application_id endpoint_id : Uuid)
    (expected_revision : Z) (now : OffsetDateTime) (correlation_id : Uuid) : dtxn WebhookEndpointRow :=
  endpoint <~ lock_active_endpoint project_id application_id endpoint_id ;;
  if is_active (we_status endpoint) then
    if we_revision endpoint =? saturating_succ expected_revision then mret endpoint
    else mfail AppError.RevisionConflict
  else
    status <~ mlift (endpoint_status (we_status endpoint)) ;;
    if negb (Endpoint.WebhookEndpointStatus_can_activate status) then mfail AppError.InvalidTransition
    else if negb (we_revision endpoint =? expected_revision) then mfail AppError.RevisionConflict
    else if is_none (we_last_test_succeeded_at endpoint) then mfail AppError.InvalidTransition
    else
      s <~ mget ;;
      secret <~ mlift (ok_or (dl_secrets s !! (endpoint_id, 1)) AppError.Integrity) ;;
      if negb (bool_decide (ws_state secret = "pending"%string)) || is_none (ws_provisioned_at secret)
      then mfail AppError.InvalidTransition
      else
        write_secret (secret_activated now secret) ;;~
        revision <~ mlift (ok_or (checked_add_i64 expected_revision 1) AppError.Integrity) ;;
        let activated := endpoint_activated revision now endpoint in
        update_endpoint_row activated ;;~
        d_audit project_id "webhook.endpoint.activate" endpoint_id correlation_id ;;~
        mret activated.

Definition activate_prepared_endpoint (project_id application_id endpoint_id : Uuid)
    (expected_revision : Z) (now : OffsetDateTime) (correlation_id : Uuid) : xtxn WebhookEndpointRecord :=
  endpoint_command (activate_endpoint_locked project_id application_id endpoint_id expected_revision
                      now correlation_id).

Definition endpoint_created_before (a b : WebhookEndpointRow) : Prop :=
  we_created_at a < we_created_at b \/ (we_created_at a = we_created_at b /\ we_id a <= we_id b).
#[global] Instance endpoint_created_before_dec : RelDecision endpoint_created_before.
Proof. intros a b. unfold endpoint_created_before. apply _. Defined.

Definition list_endpoints (s : ControlStore) (project_id application_id : Uuid) :
    result ApplicationError (list WebhookEndpointRecord) :=
  ensure_application (x_database s) project_id application_id ;;?
  rmapM endpoint_record
    (find_all (x_endpoints s) (of_application project_id application_id) endpoint_created_before
       MAX_LIST_ROWS).

(** ** Changing and disabling an endpoint *)
(** [expected_revision + 1] wraps in a release build. *)
Definition update_endpoint_locked (project_id application_id endpoint_id : Uuid)
    (command : UpdateWebhookEndpoint) (now : OffsetDateTime) (correlation_id : Uuid) :
    dtxn WebhookEndpointRow :=
  endpoint <~ lock_active_endpoint project_id application_id endpoint_id ;;
  if bool_decide (we_status endpoint = "disabled"%string) then mfail AppError.Disabled
  else if negb (we_revision endpoint =? up_expected_revision command) then mfail AppError.RevisionConflict
  else
    let updated := endpoint_updated (up_subscribed_event_types command)
                     (i64_add (up_expected_revision command) 1) now endpoint in
    update_endpoint_row updated ;;~
    d_audit project_id "webhook.endpoint.update" endpoint_id correlation_id ;;~
    mret updated.

Definition update_endpoint (project_id application_id endpoint_id : Uuid)
    (command : UpdateWebhookEndpoint) (now : OffsetDateTime) (correlation_id : Uuid) :
    xtxn WebhookEndpointRecord :=
  endpoint_command (update_endpoint_locked project_id application_id endpoint_id command now
                      correlation_id).

(** The secrets of an endpoint before retirement; the query has no limit. *)
Definition unretired_secrets (s : DeliveryStore) (endpoint_id : Uuid) : list WebhookSecretRow :=
  merge_sort secret_before
    (List.filter (fun x => (ws_endpoint_id x =? endpoint_id)
                           && bool_decide (ws_state x ∈ retirable_states))
       (map snd (map_to_list (dl_secrets s)))).

Definition disable_endpoint_locked (cleanup_id : Z -> Uuid) (clock : OffsetDateTime)
    (project_id application_id endpoint_id : Uuid) (expected_revision : Z) (now : OffsetDateTime)
    (correlation_id : Uuid) : dtxn WebhookEndpointRow :=
  _ <~ lock_active_application project_id application_id ;;
  endpoint <~ lock_endpoint project_id application_id endpoint_id ;;
  status <~ mlift (endpoint_status (we_status endpoint)) ;;
  if negb (Endpoint.WebhookEndpointStatus_can_disable status) then mfail AppError.InvalidTransition
  else if negb (we_revision endpoint =? expected_revision) then mfail AppError.RevisionConflict
  else
    s <~ mget ;;
    let generations := unretired_secrets s endpoint_id in
    if 3 <? list_len generations then mfail AppError.Integrity
    else
      overlap_not_before <~
        match we_overlap_secret_generation endpoint with
        | Some _ => t <~ mlift (ok_or (we_overlap_expires_at endpoint) AppError.Integrity) ;;
                    mret (Some t)
        | None => mret None
        end ;;
      let disabled := endpoint_secrets "disabled" (i64_add expected_revision 1) (Some now) None now
                        endpoint in
      update_endpoint_row disabled ;;~
      retire_secrets cleanup_id clock now endpoint_id (we_overlap_secret_generation endpoint)
        overlap_not_before generations ;;~
      d_audit project_id "webhook.endpoint.disable" endpoint_id correlation_id ;;~
      mret disabled.

Definition disable_endpoint (cleanup_id : Z -> Uuid) (clock : OffsetDateTime)
    (project_id application_id endpoint_id : Uuid) (expected_revision : Z) (now : OffsetDateTime)
    (correlation_id : Uuid) : xtxn WebhookEndpointRecord :=
  endpoint_command (disable_endpoint_locked cleanup_id clock project_id application_id endpoint_id
                      expected_revision now correlation_id).

(** ** Rotation *)
Definition endpoint_secret (s : DeliveryStore) (endpoint_id : Uuid) (p : WebhookSecretRow -> bool) :
    option WebhookSecretRow :=
  List.find (fun x => (ws_endpoint_id x =? endpoint_id) && p x) (map snd (map_to_list (dl_secrets s))).

Definition last_generation (s : DeliveryStore) (endpoint_id : Uuid) : option Z :=
  fold_right (fun x best => match best with
                            | Some g => Some (Z.max (ws_generation x) g)
                            | None => Some (ws_generation x)
                            end) None
    (List.filter (fun x => ws_endpoint_id x =? endpoint_id) (map snd (map_to_list (dl_secrets s)))).

Definition existing_rotation (custody : WebhookCustody) (seen : CustodyStore) (project_id : Uuid)
    (endpoint : WebhookEndpointRow) (secret : WebhookSecretRow) (already_active : bool) :
    xtxn (WebhookEndpointRow * Z * PreparedSecretMaterial
          * Preparation.WebhookSecretPreparationState * bool) :=
  material <~ mlift (prepared_secret_material seen (wk_deployment_id custody) project_id secret) ;;
  mret (endpoint, ws_generation secret, material, secret_preparation_state secret true, already_active).

(** Retires the pending secret a new rotation replaces. *)
Definition abandon_pending (cleanup_id : Uuid) (clock now : OffsetDateTime) (endpoint_id : Uuid)
    (pending : WebhookSecretRow) : dtxn unit :=
  update_secret (secret_retired now pending) ;;~
  enqueue_secret_cleanup cleanup_id clock endpoint_id (ws_generation pending)
    (ws_material_id pending) now now.

Definition new_rotation (custody : WebhookCustody) (cleanup_id material_id : Uuid)
    (clock : OffsetDateTime) (project_id : Uuid) (endpoint : WebhookEndpointRow)
    (pending : option WebhookSecretRow) (command : PrepareWebhookRotation) (now : OffsetDateTime)
    (correlation_id : Uuid) :
    xtxn (WebhookEndpointRow * Z * PreparedSecretMaterial
          * Preparation.WebhookSecretPreparationState * bool) :=
  (match pending with
   | Some p => on_delivery (abandon_pending cleanup_id clock now (we_id endpoint) p)
   | None => mret tt
   end) ;;~
  s <~ mget ;;
  let generation := match last_generation (ct_delivery s) (we_id endpoint) with
                    | Some g => i32_succ g
                    | None => 1
                    end in
  material <~ reserve_secret custody clock now project_id (we_id endpoint) generation material_id
                (rot_idempotency_key command) (rot_request_fingerprint command) ;;
  audit project_id "webhook.secret.prepare" "webhook_endpoint" (we_id endpoint) correlation_id ;;~
  commit_material other_owner material_id ;;~
  mret (endpoint, generation, material, Preparation.Pending, false).

Definition prepare_rotation_locked (custody : WebhookCustody) (seen : CustodyStore)
    (cleanup_id material_id : Uuid) (clock : OffsetDateTime) (project_id application_id
    endpoint_id : Uuid) (command : PrepareWebhookRotation) (now : OffsetDateTime)
    (correlation_id : Uuid) :
    xtxn (WebhookEndpointRow * Z * PreparedSecretMaterial
          * Preparation.WebhookSecretPreparationState * bool) :=
  endpoint <~ on_delivery (lock_active_endpoint project_id application_id endpoint_id) ;;
  if negb (is_active (we_status endpoint)) then mfail AppError.Disabled
  else
    s <~ mget ;;
    match endpoint_secret (ct_delivery s) endpoint_id
            (fun x => bool_decide (ws_idempotency_key x = rot_idempotency_key command)) with
    | Some existing =>
        if negb (bool_decide (ws_request_fingerprint existing = rot_request_fingerprint command))
        then mfail AppError.IdempotencyConflict
        else existing_rotation custody seen project_id endpoint existing
               (is_some (ws_activated_at existing))
    | None =>
        if negb (we_revision endpoint =? rot_expected_revision command)
        then mfail AppError.RevisionConflict
        else
          match endpoint_secret (ct_delivery s) endpoint_id
                  (fun x => bool_decide (ws_state x = "pending"%string)) with
          | Some pending =>
              if bool_decide (ws_request_fingerprint pending = rot_request_fingerprint command)
              then existing_rotation custody seen project_id endpoint pending false
              else new_rotation custody cleanup_id material_id clock project_id endpoint
                     (Some pending) command now correlation_id
          | None => new_rotation custody cleanup_id material_id clock project_id endpoint None
                      command now correlation_id
          end
    end.

Definition prepare_secret_rotation (custody : WebhookCustody) (seen : CustodyStore)
    (cleanup_id material_id : Uuid) (clock : OffsetDateTime) (project_id application_id
    endpoint_id : Uuid) (command : PrepareWebhookRotation) (now : OffsetDateTime)
    (correlation_id : Uuid) : xtxn PreparedWebhookSecret :=
  if negb (list_len (rot_request_fingerprint command) =? 32) then mfail AppError.InvalidInput
  else
    prepared <~ x_transaction (prepare_rotation_locked custody seen cleanup_id material_id clock
                  project_id application_id endpoint_id command now correlation_id) ;;
    let '(endpoint, generation, material, preparation_state, already_active) := prepared in
    record <~ mlift (endpoint_record endpoint) ;;
    mret (mkPreparedWebhookSecret record generation material preparation_state already_active).

(** The overlap of an earlier rotation, which must have run out. *)
Definition retire_previous_overlap (cleanup_id : Uuid) (clock now : OffsetDateTime)
    (endpoint : WebhookEndpointRow) : dtxn unit :=
  match we_overlap_secret_generation endpoint with
  | None => mret tt
  | Some previous_overlap =>
      expires_at <~ mlift (ok_or (we_overlap_expires_at endpoint) AppError.Integrity) ;;
      if now <? expires_at then mfail AppError.InvalidTransition
      else
        s <~ mget ;;
        overlap <~ mlift (ok_or (dl_secrets s !! (we_id endpoint, previous_overlap))
                            AppError.Integrity) ;;
        update_secret (secret_retired now overlap) ;;~
        enqueue_secret_cleanup cleanup_id clock (we_id endpoint) (ws_generation overlap)
          (ws_material_id overlap) now expires_at
  end.

(** [now] is the clock of the store. *)
Definition activate_rotation_locked (cleanup_id : Uuid) (clock now : OffsetDateTime)
    (project_id application_id endpoint_id : Uuid) (generation expected_revision overlap_seconds : Z)
    (correlation_id : Uuid) : dtxn WebhookEndpointRow :=
  endpoint <~ lock_active_endpoint project_id application_id endpoint_id ;;
  if negb (is_active (we_status endpoint)) then mfail AppError.Disabled
  else
    current_generation <~ mlift (ok_or (we_current_secret_generation endpoint) AppError.Integrity) ;;
    if generation =? current_generation then
      if we_revision endpoint =? saturating_succ expected_revision then mret endpoint
      else mfail AppError.RevisionConflict
    else if negb (we_revision endpoint =? expected_revision) then mfail AppError.RevisionConflict
    else
      s <~ mget ;;
      pending <~ mlift (ok_or (dl_secrets s !! (endpoint_id, generation)) AppError.NotFound) ;;
      if negb (bool_decide (ws_state pending = "pending"%string)) || is_none (ws_provisioned_at pending)
      then mfail AppError.InvalidTransition
      else
        current <~ mlift (ok_or (dl_secrets s !! (endpoint_id, current_generation))
                            AppError.Integrity) ;;
        if negb (is_active (ws_state current)) then mfail AppError.Integrity
        else
          retire_previous_overlap cleanup_id clock now endpoint ;;~
          write_secret (secret_overlapping current) ;;~
          write_secret (secret_activated now pending) ;;~
          let rotated := endpoint_rotated (i64_add expected_revision 1) generation current_generation
                           (now + seconds overlap_seconds) now endpoint in
          update_endpoint_row rotated ;;~
          d_audit project_id "webhook.secret.activate" endpoint_id correlation_id ;;~
          mret rotated.

Definition activate_secret_rotation (cleanup_id : Uuid) (clock now : OffsetDateTime)
    (project_id application_id endpoint_id : Uuid) (generation expected_revision overlap_seconds : Z)
    (correlation_id : Uuid) : xtxn WebhookEndpointRecord :=
  if negb (in_range 300 86400 overlap_seconds) then mfail AppError.InvalidInput
  else endpoint_command (activate_rotation_locked cleanup_id clock now project_id application_id
         endpoint_id generation expected_revision overlap_seconds correlation_id).

(** ** Erasing a retired secret *)
(** The worker's [finish_secret_cleanup] with the erasure of the custody store. *)
Definition finish_cleanup_erasing (cleanup : ClaimedWebhookSecretCleanup) (clock now : OffsetDateTime)
    (correlation_id : Uuid) : xtxn unit :=
  x_transaction (
    s <~ mget ;;
    on_delivery (finish_secret_cleanup cleanup clock now
      (fun id => snd (erase_by_id_in_transaction id now (ct_custody s))) correlation_id) ;;~
    on_custody (erase_by_id_in_transaction (cs_material_id cleanup) now) ;;~
    commit_material other_owner (cs_material_id cleanup)).

(** ** History *)
Record HistoryCursor := mkHistoryCursor { hc_timestamp : OffsetDateTime; hc_id : Uuid }.

(** [(at, id) < ($3, $4)], or no cursor. *)
Definition before_cursor (cursor : option HistoryCursor) (at_ : OffsetDateTime) (id : Uuid) : bool :=
  match cursor with
  | None => true
  | Some c => (at_ <? hc_timestamp c) || ((at_ =? hc_timestamp c) && (id <? hc_id c))
  end.

(** [ORDER BY at DESC, id DESC]. *)
Definition latest_first {Row : Type} (at_ : Row -> OffsetDateTime) (id : Row -> Uuid) (a b : Row) : Prop :=
  at_ b < at_ a \/ (at_ a = at_ b /\ id b <= id a).
#[global] Instance latest_first_dec {Row} (at_ : Row -> OffsetDateTime) (id : Row -> Uuid) :
  RelDecision (latest_first at_ id).
Proof. intros a b. unfold latest_first. apply _. Defined.

Record ApplicationUserEventRecord := mkApplicationUserEventRecord {
  ur_id : Uuid; ur_event_id : string; ur_project_id : Uuid; ur_application_id : Uuid;
  ur_user_id : Uuid; ur_event_type : string; ur_user_revision : Z; ur_projection_revision : Z;
  ur_projection_schema : string; ur_safe_body : json; ur_occurred_at : OffsetDateTime
}.

Definition event_record_from_row (e : UserEventRow) : result ApplicationError ApplicationUserEventRecord :=
  _ <-? event_type (ue_event_type e) ;;
  Ok (mkApplicationUserEventRecord (ue_id e) (ue_event_id e) (ue_project_id e) (ue_application_id e)
        (ue_user_id e) (ue_event_type e) (ue_user_revision e) (ue_projection_revision e)
        (ue_projection_schema e) (ue_safe_body e) (ue_occurred_at e)).

Record WebhookDeliveryRecord := mkWebhookDeliveryRecord {
  dr_id : Uuid; dr_endpoint_id : Uuid; dr_event_id : string; dr_replay_sequence : Z;
  dr_replay_of_delivery_id : option Uuid; dr_state : string; dr_attempt_count : Z;
  dr_next_attempt_at : OffsetDateTime; dr_last_outcome_class : option string;
  dr_last_http_status : option Z; dr_delivered_at : option OffsetDateTime;
  dr_terminal_at : option OffsetDateTime; dr_created_at : OffsetDateTime
}.

Definition delivery_record (d : WebhookDeliveryRow) (event_id : string) : WebhookDeliveryRecord :=
  mkWebhookDeliveryRecord (wd_id d) (wd_endpoint_id d) event_id (wd_replay_sequence d)
    (wd_replay_of_delivery_id d) (wd_state d) (wd_attempt_count d) (wd_next_attempt_at d)
    (wd_last_outcome_class d) (wd_last_http_status d) (wd_delivered_at d) (wd_terminal_at d)
    (wd_created_at d).

Definition list_events (s : ControlStore) (clock : OffsetDateTime) (project_id application_id : Uuid)
    (cursor : option HistoryCursor) (limit : Z) :
    result ApplicationError (list ApplicationUserEventRecord) :=
  ensure_application (x_database s) project_id application_id ;;?
  if negb (in_range 1 MAX_LIST_ROWS limit) then Err AppError.InvalidInput
  else
    rmapM event_record_from_row
      (find_all (db_events (x_database s))
         (fun e => (ue_project_id e =? project_id) && (ue_application_id e =? application_id)
                   && (clock <? ue_retain_until e)
                   && before_cursor cursor (ue_occurred_at e) (ue_id e))
         (latest_first ue_occurred_at ue_id) limit).

(** A delivery with its event, which is retained: the join. *)
Definition delivery_listed (s : ControlStore) (clock : OffsetDateTime) (project_id application_id : Uuid)
    (d : WebhookDeliveryRow) : bool :=
  (wd_project_id d =? project_id) && (wd_application_id d =? application_id)
  && event_retained (ct_delivery s) clock d.
Definition joined_record (s : ControlStore) (d : WebhookDeliveryRow) : result ApplicationError
    WebhookDeliveryRecord :=
  event <-? ok_or (db_events (x_database s) !! wd_event_id d) AppError.Persistence ;;
  Ok (delivery_record d (ue_event_id event)).

Definition list_deliveries (s : ControlStore) (clock : OffsetDateTime)
    (project_id application_id : Uuid) (endpoint_id : option Uuid) (cursor : option HistoryCursor)
    (limit : Z) : result ApplicationError (list WebhookDeliveryRecord) :=
  ensure_application (x_database s) project_id application_id ;;?
  if negb (in_range 1 MAX_LIST_ROWS limit) then Err AppError.InvalidInput
  else
    rmapM (joined_record s)
      (find_all (deliveries (ct_delivery s))
         (fun d => delivery_listed s clock project_id application_id d
                   && match endpoint_id with Some e => wd_endpoint_id d =? e | None => true end
                   && before_cursor cursor (wd_created_at d) (wd_id d))
         (latest_first wd_created_at wd_id) limit).

Definition get_delivery (s : ControlStore) (clock : OffsetDateTime)
    (project_id application_id delivery_id : Uuid) : result ApplicationError WebhookDeliveryRecord :=
  ensure_application (x_database s) project_id application_id ;;?
  d <-? ok_or (find_by_id (deliveries (ct_delivery s)) delivery_id
                 (delivery_listed s clock project_id application_id)) AppError.NotFound ;;
  joined_record s d.

(** ** Replay *)
Definition replayed_delivery (id : Uuid) (original : WebhookDeliveryRow) (replay_sequence : Z)
    (project_id application_id : Uuid) (now : OffsetDateTime) : WebhookDeliveryRow :=
  {| wd_id := id; wd_project_id := project_id; wd_application_id := application_id;
     wd_endpoint_id := wd_endpoint_id original; wd_event_id := wd_event_id original;
     wd_replay_sequence := replay_sequence; wd_replay_of_delivery_id := Some (wd_id original);
     wd_state := "pending"; wd_attempt_count := 0; wd_next_attempt_at := now;
     wd_lease_owner := None; wd_lease_incarnation := None; wd_lease_generation := 0;
     wd_lease_expires_at := None; wd_claimed_secret_generation := None;
     wd_claimed_overlap_generation := None; wd_claimed_secret_material_id := None;
     wd_claimed_overlap_material_id := None; wd_last_outcome_class := None;
     wd_last_http_status := None; wd_created_at := now; wd_updated_at := now;
     wd_delivered_at := None; wd_terminal_at := None |}.

(** The largest replay sequence of an event at an endpoint. *)
Definition latest_replay (s : DeliveryStore) (event_id endpoint_id : Uuid) : option WebhookDeliveryRow :=
  find_first (deliveries s)
    (fun d => (wd_event_id d =? event_id) && (wd_endpoint_id d =? endpoint_id))
    (fun a b => wd_replay_sequence b <? wd_replay_sequence a).

Definition replay_locked (replay_id : Uuid) (clock : OffsetDateTime) (project_id application_id
    delivery_id : Uuid) (hint : WebhookDeliveryRow) (now : OffsetDateTime) (correlation_id : Uuid) :
    dtxn (WebhookDeliveryRow * string) :=
  _ <~ lock_active_application project_id application_id ;;
  endpoint <~ lock_endpoint project_id application_id (wd_endpoint_id hint) ;;
  if negb (is_active (we_status endpoint)) then mfail AppError.Disabled
  else
    s <~ mget ;;
    original <~ mlift (ok_or (deliveries s !! delivery_id) AppError.NotFound) ;;
    if negb (wd_project_id original =? project_id) || negb (wd_application_id original =? application_id)
       || negb (wd_endpoint_id original =? we_id endpoint)
    then mfail AppError.NotFound
    else
      event <~ mlift (ok_or (find_by_id (db_events (dl_db s)) (wd_event_id original)
                 (fun e => (ue_project_id e =? project_id) && (ue_application_id e =? application_id)
                           && (clock <? ue_replay_until e))) AppError.InvalidTransition) ;;
      latest <~ mlift (ok_or (latest_replay s (wd_event_id original) (wd_endpoint_id original))
                         AppError.Integrity) ;;
      replay_sequence <~ mlift (ok_or (if wd_replay_sequence latest + 1 <=? i32_max
                                       then Some (wd_replay_sequence latest + 1) else None)
                                  AppError.Integrity) ;;
      in_database (ensure_dispatch_state project_id application_id) ;;~
      let replay := replayed_delivery replay_id original replay_sequence project_id application_id now in
      in_database (insert_delivery replay) ;;~
      in_database (append_runtime_audit project_id "deployment_operator" "webhook.delivery.replay"
                     "webhook_delivery" (Some replay_id) correlation_id) ;;~
      mret (replay, ue_event_id event).

(** [hint] is read before the transaction. *)
Definition replay_delivery (hinted : DeliveryStore) (replay_id : Uuid) (clock : OffsetDateTime)
    (project_id application_id delivery_id : Uuid) (now : OffsetDateTime) (correlation_id : Uuid) :
    xtxn WebhookDeliveryRecord :=
  hint <~ mlift (ok_or (deliveries hinted !! delivery_id) AppError.NotFound) ;;
  if negb (wd_project_id hint =? project_id) || negb (wd_application_id hint =? application_id)
  then mfail AppError.NotFound
  else
    replay <~ x_transaction (on_delivery (replay_locked replay_id clock project_id application_id
                delivery_id hint now correlation_id)) ;;
    mret (delivery_record replay.1 replay.2).

(** ** The service ([application/webhook.rs]) *)
Definition MIN_SECRET_OVERLAP_SECONDS : Z := 300.
Definition MAX_SECRET_OVERLAP_SECONDS : Z := 86400.
Definition MAX_CONTROL_RESULTS : Z := 100.
Definition DEFAULT_CONTROL_RESULTS : Z := 50.

Definition request_digest_domain : list Z := bytes "owlauth-webhook-protected-request-v1" ++ [0].

(** What the digest of a request hashes: every part with its length before it. *)
Definition digest_parts (parts : list (list Z)) : list Z :=
  concat (map (fun part => be_bytes 8 (list_len part) ++ part) parts).
Definition protected_webhook_request_digest (parts : list (list Z)) : list Z :=
  sha256 (request_digest_domain ++ digest_parts parts).

Definition validate_idempotency_key (value : string) : result ApplicationError unit :=
  if is_empty value || (128 <? str_len value) || existsb char_is_control (chars value)
  then Err AppError.InvalidInput else Ok tt.

Definition positive_revision (value : Z) : result ApplicationError unit :=
  if value <? 1 then Err AppError.InvalidInput else Ok tt.

Definition history_limit (limit : option Z) : result ApplicationError Z :=
  let limit := match limit with Some l => l | None => DEFAULT_CONTROL_RESULTS end in
  if negb (in_range 1 MAX_CONTROL_RESULTS limit) then Err AppError.InvalidInput else Ok limit.

(** [subscriptions.join] with a NUL byte between, and [Uuid::as_bytes]. *)
Fixpoint join_nul (values : list string) : list Z :=
  match values with
  | [] => []
  | [v] => bytes v
  | v :: rest => bytes v ++ [0] ++ join_nul rest
  end.
Definition uuid_as_bytes (u : Uuid) : list Z := be_bytes 16 u.

Definition endpoint_fingerprint (url idempotency_key : string) (subscriptions : list string) : list Z :=
  protected_webhook_request_digest
    [bytes "endpoint-v1"; bytes url; bytes idempotency_key; join_nul subscriptions].
Definition rotation_fingerprint (endpoint_id : Uuid) (idempotency_key : string) : list Z :=
  protected_webhook_request_digest
    [bytes "rotation-v1"; uuid_as_bytes endpoint_id; bytes idempotency_key].

Record CreateWebhookEndpoint := mkCreateWebhookEndpoint {
  cr_url : string; cr_subscribed_event_types : list string; cr_secret : list Z;
  cr_idempotency_key : string
}.
Record PrepareWebhookSecretRotation := mkPrepareWebhookSecretRotation {
  sr_secret : list Z; sr_idempotency_key : string; sr_expected_revision : Z
}.

(** The sealers by provider, with the formats each supports, and the validation
    of an endpoint's URL over the network: traits of the source. *)
Class WebhookControlIo : Type := {
  sealer_formats : ProviderId -> option ProviderFormatVersions;
  seal_secret : ProviderId -> ProtectionContext -> list Z ->
    result ProviderErrorClass (list Z * list Z);
  validate_endpoint : string -> result ApplicationError unit
}.
Context `{WebhookControlIo} `{UrlLib}.

(** [ConfigurationSecretSealers::resolve]. *)
Definition resolve_sealer (material : PreparedSecretMaterial) : result ApplicationError unit :=
  formats <-? ok_or (sealer_formats (ps_provider_id material)) AppError.Integrity ;;
  if negb (ProviderFormatVersions_contains formats (ps_provider_format_version material))
  then Err AppError.Integrity else Ok tt.

Definition seal_material (material : PreparedSecretMaterial) (secret : list Z) :
    result ApplicationError SealedProtectedMaterial :=
  resolve_sealer material ;;?
  plaintext <-? map_err (fun _ => AppError.InvalidInput) (bounded_bytes_new 65536 secret) ;;
  sealed <-? map_err map_provider_error
               (seal_secret (ps_provider_id material) (ps_context material) plaintext) ;;
  Ok (mkSealedProtectedMaterial (ps_material_id material) (ps_provider_id material)
        (ps_provider_format_version material) sealed.1 sealed.2).

(** The store, the clocks and the identifiers a preparation and the finalization
    after it draw; [others] is what ran in between. *)
Record PrepareDraws := mkPrepareDraws {
  pd_seen : CustodyStore; pd_clock : OffsetDateTime; pd_endpoint_id : Uuid; pd_material_id : Uuid;
  pd_cleanup_id : Uuid; pd_now : OffsetDateTime; pd_others : ControlStore -> ControlStore;
  pd_finalized_at : OffsetDateTime
}.

Definition create_endpoint (custody : WebhookCustody) (draws : PrepareDraws)
    (project_id application_id : Uuid) (command : CreateWebhookEndpoint) (correlation_id : Uuid) :
    xtxn WebhookEndpointRecord :=
  mlift (validate_idempotency_key (cr_idempotency_key command)) ;;~
  mlift (validate_secret (cr_secret command)) ;;~
  url <~ mlift (of_domain (WebhookEndpointUrl_parse (cr_url command))) ;;
  let url := WebhookEndpointUrl_into_inner url in
  mlift (validate_endpoint url) ;;~
  subscriptions <~ mlift (of_domain (WebhookSubscriptions_parse (cr_subscribed_event_types command))) ;;
  let subscriptions := WebhookSubscriptions_into_strings subscriptions in
  let fingerprint := endpoint_fingerprint url (cr_idempotency_key command) subscriptions in
  prepared <~ prepare_endpoint custody (pd_seen draws) (pd_clock draws) (pd_endpoint_id draws)
                (pd_material_id draws) project_id application_id
                (mkPrepareWebhookEndpoint url subscriptions (cr_idempotency_key command) fingerprint)
                (pd_now draws) correlation_id ;;
  (if bool_decide (pe_preparation_state prepared = Preparation.Terminal) then mret tt
   else
     sealed <~ mlift (seal_material (pe_material prepared) (cr_secret command)) ;;
     mmodify (pd_others draws) ;;~
     finalize_protected_secret custody project_id application_id (er_id (pe_endpoint prepared)) 1
       (er_revision (pe_endpoint prepared)) fingerprint sealed (pd_finalized_at draws)
       correlation_id) ;;~
  mret (pe_endpoint prepared).

(** The endpoint is read, validated over the network, and then written; [seen]
    is the store of the read. *)
Definition test_endpoint (seen : ControlStore) (project_id application_id endpoint_id : Uuid)
    (expected_revision : Z) (now : OffsetDateTime) (correlation_id : Uuid) : xtxn WebhookEndpointRecord :=
  mlift (positive_revision expected_revision) ;;~
  endpoint <~ mlift (get_endpoint seen project_id application_id endpoint_id) ;;
  if negb (er_revision endpoint =? expected_revision) then mfail AppError.RevisionConflict
  else
    mlift (validate_endpoint (er_url endpoint)) ;;~
    record_endpoint_test_success project_id application_id endpoint_id expected_revision now
      correlation_id.

Definition activate_endpoint (seen : ControlStore) (project_id application_id endpoint_id : Uuid)
    (expected_revision : Z) (now : OffsetDateTime) (correlation_id : Uuid) : xtxn WebhookEndpointRecord :=
  mlift (positive_revision expected_revision) ;;~
  endpoint <~ mlift (get_endpoint seen project_id application_id endpoint_id) ;;
  if bool_decide (er_status endpoint = "active"%string)
     && (er_revision endpoint =? saturating_succ expected_revision)
  then mret endpoint
  else if negb (er_revision endpoint =? expected_revision) then mfail AppError.RevisionConflict
  else
    mlift (validate_endpoint (er_url endpoint)) ;;~
    activate_prepared_endpoint project_id application_id endpoint_id expected_revision now
      correlation_id.

Definition service_list_endpoints (s : ControlStore) (project_id application_id : Uuid) :
    result ApplicationError (list WebhookEndpointRecord) :=
  records <-? list_endpoints s project_id application_id ;;
  if MAX_CONTROL_RESULTS <? list_len records then Err AppError.Integrity else Ok records.

Definition service_update_endpoint (project_id application_id endpoint_id : Uuid)
    (command : UpdateWebhookEndpoint) (now : OffsetDateTime) (correlation_id : Uuid) :
    xtxn WebhookEndpointRecord :=
  subscriptions <~ mlift (of_domain (WebhookSubscriptions_parse (up_subscribed_event_types command))) ;;
  mlift (positive_revision (up_expected_revision command)) ;;~
  update_endpoint project_id application_id endpoint_id
    (mkUpdateWebhookEndpoint (WebhookSubscriptions_into_strings subscriptions)
       (up_expected_revision command)) now correlation_id.

Definition service_disable_endpoint (cleanup_id : Z -> Uuid) (clock : OffsetDateTime)
    (project_id application_id endpoint_id : Uuid) (expected_revision : Z) (now : OffsetDateTime)
    (correlation_id : Uuid) : xtxn WebhookEndpointRecord :=
  mlift (positive_revision expected_revision) ;;~
  disable_endpoint cleanup_id clock project_id application_id endpoint_id expected_revision now
    correlation_id.

Definition service_prepare_secret_rotation (custody : WebhookCustody) (draws : PrepareDraws)
    (project_id application_id endpoint_id : Uuid) (command : PrepareWebhookSecretRotation)
    (correlation_id : Uuid) : xtxn PreparedWebhookSecret :=
  mlift (validate_idempotency_key (sr_idempotency_key command)) ;;~
  mlift (validate_secret (sr_secret command)) ;;~
  mlift (positive_revision (sr_expected_revision command)) ;;~
  let fingerprint := rotation_fingerprint endpoint_id (sr_idempotency_key command) in
  prepared <~ prepare_secret_rotation custody (pd_seen draws) (pd_cleanup_id draws)
                (pd_material_id draws) (pd_clock draws) project_id application_id endpoint_id
                (mkPrepareWebhookRotation (sr_idempotency_key command) fingerprint
                   (sr_expected_revision command)) (pd_now draws) correlation_id ;;
  (if bool_decide (px_preparation_state prepared = Preparation.Terminal) then mret tt
   else
     sealed <~ mlift (seal_material (px_material prepared) (sr_secret command)) ;;
     mmodify (pd_others draws) ;;~
     finalize_protected_secret custody project_id application_id endpoint_id (px_generation prepared)
       (er_revision (px_endpoint prepared)) fingerprint sealed (pd_finalized_at draws)
       correlation_id) ;;~
  mret prepared.

Definition service_activate_secret_rotation (cleanup_id : Uuid) (clock now : OffsetDateTime)
    (project_id application_id endpoint_id : Uuid) (generation expected_revision overlap_seconds : Z)
    (correlation_id : Uuid) : xtxn WebhookEndpointRecord :=
  if (generation <? 1)
     || negb (in_range MIN_SECRET_OVERLAP_SECONDS MAX_SECRET_OVERLAP_SECONDS overlap_seconds)
  then mfail AppError.InvalidInput
  else
    mlift (positive_revision expected_revision) ;;~
    activate_secret_rotation cleanup_id clock now project_id application_id endpoint_id generation
      expected_revision overlap_seconds correlation_id.

(** ** Pages of history *)
Record HistoryPage (T : Type) := mkHistoryPage { hp_items : list T; hp_next_cursor : option string }.
#[global] Arguments mkHistoryPage {T}.
#[global] Arguments hp_items {T}.
#[global] Arguments hp_next_cursor {T}.

(** Base64, JSON, times and UUIDs are read and written by libraries. *)
Class CursorCodec : Type := {
  base64url_decode : string -> option (list Z);
  json_from_slice : list Z -> option json;
  parse_rfc3339 : string -> option OffsetDateTime;
  parse_uuid : string -> option Uuid
}.
Context `{CursorCodec} `{TimeFormat}.

Definition cursor_json (t : string) (id : Uuid) : json :=
  JObject [("v", JInt 1); ("t", JString t); ("id", JString (uuid_hyphenated id))]%string.

Definition encode_cursor (cursor : HistoryCursor) : result ApplicationError string :=
  t <-? ok_or (format_rfc3339 (hc_timestamp cursor)) AppError.Integrity ;;
  raw <-? ok_or (json_to_vec (cursor_json t (hc_id cursor))) AppError.Integrity ;;
  Ok (base64url_no_pad raw).

(** [EncodedHistoryCursor]: a [u8], a string and a UUID, as an object with exactly
    these fields, each once, or as an array. *)
Definition decode_members (v t id : json) : option (Z * string * Uuid) :=
  match v, t, id with
  | JInt v, JString t, JString id =>
      id ← parse_uuid id; if in_range 0 255 v then Some (v, t, id) else None
  | _, _, _ => None
  end.

Definition decode_fields (value : json) : option (Z * string * Uuid) :=
  match value with
  | JArray [v; t; id] => decode_members v t id
  | JObject [_; _; _] =>
      v ← json_get "v" value; t ← json_get "t" value; id ← json_get "id" value;
      decode_members v t id
  | _ => None
  end.

Definition decode_cursor (value : option string) : result ApplicationError (option HistoryCursor) :=
  match value with
  | None => Ok None
  | Some value =>
      if is_empty value || (512 <? str_len value) then Err AppError.InvalidInput
      else
        raw <-? ok_or (base64url_decode value) AppError.InvalidInput ;;
        fields <-? ok_or (json_from_slice raw ≫= decode_fields) AppError.InvalidInput ;;
        let '(v, t, id) := fields in
        if negb (v =? 1) then Err AppError.InvalidInput
        else
          timestamp <-? ok_or (parse_rfc3339 t) AppError.InvalidInput ;;
          Ok (Some (mkHistoryCursor timestamp id))
  end.

Definition history_page {T : Type} (records : list T) (limit : Z) (cursor : T -> HistoryCursor) :
    result ApplicationError (HistoryPage T) :=
  if limit + 1 <? list_len records then Err AppError.Integrity
  else
    let items := take (Z.to_nat limit) records in
    next <-? (if limit <? list_len records
              then match last items with
                   | Some record => rmap Some (encode_cursor (cursor record))
                   | None => Ok None
                   end
              else Ok None) ;;
    Ok (mkHistoryPage items next).

Definition service_list_events (s : ControlStore) (clock : OffsetDateTime)
    (project_id application_id : Uuid) (cursor : option string) (limit : option Z) :
    result ApplicationError (HistoryPage ApplicationUserEventRecord) :=
  limit <-? history_limit limit ;;
  cursor <-? decode_cursor cursor ;;
  records <-? list_events s clock project_id application_id cursor (limit + 1) ;;
  history_page records limit (fun r => mkHistoryCursor (ur_occurred_at r) (ur_id r)).

Definition service_list_deliveries (s : ControlStore) (clock : OffsetDateTime)
    (project_id application_id : Uuid) (endpoint_id : option Uuid) (cursor : option string)
    (limit : option Z) : result ApplicationError (HistoryPage WebhookDeliveryRecord) :=
  limit <-? history_limit limit ;;
  cursor <-? decode_cursor cursor ;;
  records <-? list_deliveries s clock project_id application_id endpoint_id cursor (limit + 1) ;;
  history_page records limit (fun r => mkHistoryCursor (dr_created_at r) (dr_id r)).
End control.
