(* ===== verification/SessionAuthority.v ===== *)
(** * The session authority: refresh preparation, rotation, replay and logout

    [prepare_refresh_rotation], [rotate_refresh_token], [record_refresh_replay],
    [logout_application_session] and the helpers they call, of
    [adapters/postgres/session_authority.rs].

    A refresh is two transactions: preparation checks the token, brings the
    projection up to date and collects what the access token will say; the caller
    signs; rotation checks that nothing moved and replaces the token.  The reads
    either makes before it opens its transaction take the stores they see as
    arguments, so that any commit may fall between them and the transaction. *)
From S2P Require Import Prelude.
From S2P Require Import UrlValues.
From S2P Require Import Json.
From S2P Require Import Database.
From S2P Require Import Projection.

(** ** Commands and results: [application/session_authority.rs] *)
Record VersionedDigest := mkVersionedDigest {
  vd_value : list Z;
  vd_key_version : Z
}.

Record RefreshPreparation := mkRefreshPreparation {
  rp_generation_id : Uuid; rp_family_id : Uuid; rp_project_public_id : string;
  rp_project_issuer : string; rp_application_public_id : string; rp_family_revision : Z;
  rp_generation : Z; rp_application_session_id : Uuid; rp_session_revision : Z;
  rp_binding_id : Uuid; rp_binding_revision : Z; rp_user_id : Uuid; rp_user_public_id : string;
  rp_user_revision : Z; rp_claims_revision : Z; rp_projection_revision : Z;
  rp_projection_document : json; rp_signing_ring_id : Uuid; rp_signing_key_id : Uuid;
  rp_signing_kid : string; rp_signing_public_jwk : json; rp_signing_material_id : Uuid;
  rp_signing_epoch : Z; rp_access_token_lifetime_seconds : Z;
  rp_authenticated_at : OffsetDateTime; rp_absolute_expires_at : OffsetDateTime
}.

Record RotateRefreshToken := mkRotateRefreshToken {
  rt_project_id : Uuid;
  rt_application_id : Uuid;
  rt_presented_token : VersionedDigest;
  rt_preparation : RefreshPreparation;
  rt_successor_generation_id : Uuid;
  rt_successor_token : VersionedDigest;
  rt_now : OffsetDateTime
}.

Inductive RefreshRotationResult :=
| Rotated (user_id application_session_id family_id : Uuid) (generation : Z)
    (absolute_expires_at : OffsetDateTime)
| ReplayRevoked (family_id : Uuid).

Record PrepareRefreshRotation := mkPrepareRefreshRotation {
  pr_project_id : Uuid;
  pr_application_id : Uuid;
  pr_presented_token : VersionedDigest;
  pr_now : OffsetDateTime
}.

Module Prep.
Inductive RefreshPreparationResult :=
| Ready (preparation : RefreshPreparation)
| ReplayRevoked (family_id : Uuid).
End Prep.

Record SigningSnapshot := mkSigningSnapshot {
  ss_ring_id : Uuid; ss_key_id : Uuid; ss_issuer : string; ss_kid : string;
  ss_public_jwk : json; ss_material_id : Uuid; ss_epoch : Z
}.

Record LogoutApplicationSession := mkLogoutApplicationSession {
  lo_project_id : Uuid;
  lo_application_id : Uuid;
  lo_user_id : Uuid;
  lo_application_session_id : Uuid;
  lo_now : OffsetDateTime
}.

(** ** Digests *)
Definition validate_digest (digest : VersionedDigest) : result ApplicationError unit :=
  if vd_key_version digest <=? 0 then Err AppError.InvalidInput else Ok tt.

Definition digest_matches (stored : list Z) (stored_key_version : Z) (supplied : VersionedDigest) :
    bool :=
  (stored_key_version =? vd_key_version supplied)
  && Nat.eqb (length stored) (length (vd_value supplied))
  && bool_decide (stored = vd_value supplied).

Section session_authority.
Context `{CanonicalHash} `{ProjectionCryptography} `{UrlLib} `{TimeFormat} `{JsonbText}.

(** ** Policy and signing *)
Definition access_token_lifetime (policy : PolicyRow) : result ApplicationError Z :=
  ok_or
    (seconds ← json_get "access_token_lifetime_seconds" (po_claims_policy policy) ≫= json_as_i64;
     if in_range 60 3600 seconds then Some seconds else None)
    AppError.Integrity.

(** [option.is_none_or(|value| value > now)] *)
Definition not_yet_signing (sign_not_before : option OffsetDateTime) (now : OffsetDateTime) : bool :=
  match sign_not_before with
  | Some value => now <? value
  | None => true
  end.

Definition lock_signing_epoch (project_id ring_id key_id : Uuid) (signing_epoch : Z)
    (now : OffsetDateTime) : txn unit :=
  db <~ mget ;;
  ring <~ mlift (ok_or (find_by_id (db_rings db) ring_id
                          (fun ring => kr_project_id ring =? project_id)) AppError.NotFound) ;;
  key <~ mlift (ok_or (find_by_id (db_keys db) key_id
                         (fun key => (sk_project_id key =? project_id)
                                     && (sk_ring_id key =? ring_id))) AppError.NotFound) ;;
  check_that (negb (negb (kr_signing_epoch ring =? signing_epoch)
                    || negb (bool_decide (kr_purpose ring = "application_tokens"%string))
                    || negb (bool_decide (kr_algorithm ring = "EdDSA"%string))
                    || negb (bool_decide (sk_state key = "active"%string))
                    || not_yet_signing (sk_sign_not_before key) now))
    AppError.RevisionConflict.

(** [ORDER BY activated_at DESC, id ASC]; PostgreSQL sorts nulls first in a
    descending order. *)
Definition activated_before (a b : SigningKeyRow) : bool :=
  match sk_activated_at a, sk_activated_at b with
  | None, None => sk_id a <? sk_id b
  | None, Some _ => true
  | Some _, None => false
  | Some x, Some y => (y <? x) || ((x =? y) && (sk_id a <? sk_id b))
  end.

Definition active_signing_snapshot (db : Database) (project_id : Uuid) (now : OffsetDateTime) :
    result ApplicationError SigningSnapshot :=
  ring <-? ok_or (find_one (db_rings db)
                    (fun r => (kr_project_id r =? project_id)
                              && bool_decide (kr_purpose r = "application_tokens"%string)
                              && bool_decide (kr_algorithm r = "EdDSA"%string)))
             AppError.NotFound ;;
  key <-? ok_or (find_first (db_keys db)
                   (fun k => (sk_project_id k =? project_id) && (sk_ring_id k =? kr_id ring)
                             && bool_decide (sk_state k = "active"%string)) activated_before)
            AppError.NotFound ;;
  if not_yet_signing (sk_sign_not_before key) now then Err AppError.RevisionConflict
  else Ok {| ss_ring_id := kr_id ring; ss_key_id := sk_id key; ss_issuer := kr_issuer ring;
             ss_kid := sk_kid key; ss_public_jwk := sk_public_jwk key;
             ss_material_id := sk_signer_material_id key; ss_epoch := kr_signing_epoch ring |}.

(** ** Replay *)
Definition with_replay (now : OffsetDateTime) (g : RefreshGenerationRow) : RefreshGenerationRow :=
  mkRefreshGenerationRow (rg_id g) (rg_project_id g) (rg_family_id g) (rg_application_id g)
    (rg_user_id g) (rg_generation g) (rg_token_digest g) (rg_token_digest_key_version g)
    (rg_status g) (rg_consumed_at g) (Some now) (rg_retain_until g) (rg_created_at g).

Definition with_family_revoked (reason : string) (now : OffsetDateTime) (f : RefreshFamilyRow) :
    RefreshFamilyRow :=
  mkRefreshFamilyRow (rf_id f) (rf_project_id f) (rf_application_id f) (rf_user_id f)
    (rf_application_session_id f) "revoked" (i64_add (rf_family_revision f) 1)
    (rf_current_generation f) (rf_allowed_clock_skew_seconds f) (rf_absolute_expires_at f)
    (Some now) (Some reason) (rf_created_at f) now.

Definition record_refresh_replay (generation : RefreshGenerationRow) (family : RefreshFamilyRow)
    (project_id : Uuid) (now : OffsetDateTime) : txn unit :=
  (if is_none (rg_replay_detected_at generation)
   then update_generation (with_replay now generation)
   else mret tt) ;;~
  (if bool_decide (rf_status family = "active"%string)
   then update_family (with_family_revoked "replay" now family)
   else mret tt) ;;~
  append_runtime_audit project_id "system" "auth.refresh.replay_detected" "refresh_family"
    (Some (rf_id family)) (rf_id family).

(** ** Rotation *)
Definition with_consumed (now : OffsetDateTime) (g : RefreshGenerationRow) : RefreshGenerationRow :=
  mkRefreshGenerationRow (rg_id g) (rg_project_id g) (rg_family_id g) (rg_application_id g)
    (rg_user_id g) (rg_generation g) (rg_token_digest g) (rg_token_digest_key_version g)
    "consumed" (Some now) (rg_replay_detected_at g) (rg_retain_until g) (rg_created_at g).

Definition with_next_generation (successor_generation : Z) (now : OffsetDateTime)
    (f : RefreshFamilyRow) : RefreshFamilyRow :=
  mkRefreshFamilyRow (rf_id f) (rf_project_id f) (rf_application_id f) (rf_user_id f)
    (rf_application_session_id f) (rf_status f) (i64_add (rf_family_revision f) 1)
    successor_generation (rf_allowed_clock_skew_seconds f) (rf_absolute_expires_at f)
    (rf_revoked_at f) (rf_revocation_reason f) (rf_created_at f) now.

Definition successor_row (command : RotateRefreshToken) (family : RefreshFamilyRow)
    (user : UserRow) (successor_generation : Z) : RefreshGenerationRow :=
  {| rg_id := rt_successor_generation_id command;
     rg_project_id := rt_project_id command;
     rg_family_id := rf_id family;
     rg_application_id := rt_application_id command;
     rg_user_id := us_id user;
     rg_generation := successor_generation;
     rg_token_digest := vd_value (rt_successor_token command);
     rg_token_digest_key_version := vd_key_version (rt_successor_token command);
     rg_status := "current";
     rg_consumed_at := None;
     rg_replay_detected_at := None;
     rg_retain_until :=
       rf_absolute_expires_at family + seconds (rf_allowed_clock_skew_seconds family);
     rg_created_at := rt_now command |}.

(** The unlocked reads that find the token's row and its family. *)
Definition routed_generation (snapshot : Database) (project_id application_id : Uuid)
    (presented : VersionedDigest) : option RefreshGenerationRow :=
  find_one (db_generations snapshot) (fun g =>
    (rg_project_id g =? project_id) && (rg_application_id g =? application_id)
    && bool_decide (rg_token_digest g = vd_value presented)
    && (rg_token_digest_key_version g =? vd_key_version presented)).

Definition routed_family (snapshot : Database) (project_id family_id : Uuid) :
    option RefreshFamilyRow :=
  find_by_id (db_families snapshot) family_id (fun f => rf_project_id f =? project_id).

(** The locked reads: session, family and generation. *)
Definition locked_refresh_rows (db : Database) (project_id application_id : Uuid)
    (routed_generation_row : RefreshGenerationRow) (routed_family_row : RefreshFamilyRow) :
    result ApplicationError (ApplicationSessionRow * RefreshFamilyRow * RefreshGenerationRow) :=
  session <-? ok_or (find_by_id (db_sessions db) (rf_application_session_id routed_family_row)
                       (fun s => (as_project_id s =? project_id)
                                 && (as_application_id s =? application_id))) AppError.NotFound ;;
  family <-? ok_or (find_by_id (db_families db) (rf_id routed_family_row)
                      (fun f => (rf_project_id f =? project_id)
                                && (rf_application_id f =? application_id))) AppError.NotFound ;;
  generation <-? ok_or (find_by_id (db_generations db) (rg_id routed_generation_row)
                          (fun g => (rg_project_id g =? project_id)
                                    && (rg_family_id g =? rf_id family))) AppError.NotFound ;;
  Ok (session, family, generation).

(** The state guard: the presented generation is current in an active, unexpired
    family, and nothing has moved since the preparation. *)
Definition rotation_state_conflict (command : RotateRefreshToken) (session : ApplicationSessionRow)
    (family : RefreshFamilyRow) (generation : RefreshGenerationRow) : bool :=
  let p := rt_preparation command in
  negb (bool_decide (rg_status generation = "current"%string))
  || negb (bool_decide (rf_status family = "active"%string))
  || negb (bool_decide (as_status session = "active"%string))
  || negb (rg_generation generation =? rf_current_generation family)
  || (rf_absolute_expires_at family <=? rt_now command)
  || (as_absolute_expires_at session <=? rt_now command)
  || negb (rf_absolute_expires_at family =? as_absolute_expires_at session)
  || negb (rg_id generation =? rp_generation_id p)
  || negb (rf_id family =? rp_family_id p)
  || negb (rf_family_revision family =? rp_family_revision p)
  || negb (rg_generation generation =? rp_generation p)
  || negb (as_id session =? rp_application_session_id p)
  || negb (as_session_revision session =? rp_session_revision p)
  || negb (rf_absolute_expires_at family =? rp_absolute_expires_at p).

(** The owners' guard up to the policy's lifetime, which is read last. *)
Definition rotation_owner_conflict (command : RotateRefreshToken) (session : ApplicationSessionRow)
    (project : ProjectRow) (application : ApplicationRow) (user : UserRow) (policy : PolicyRow) :
    bool :=
  let p := rt_preparation command in
  negb (bool_decide (pj_status project = "active"%string))
  || negb (bool_decide (ap_status application = "active"%string))
  || negb (bool_decide (us_status user = "active"%string))
  || negb (pj_security_revision project =? as_project_security_revision session)
  || negb (ap_security_revision application =? as_application_security_revision session)
  || negb (us_security_revision user =? as_user_security_revision session)
  || negb (po_claims_revision policy =? as_claims_revision session)
  || negb (po_session_revision policy =? as_policy_session_revision session)
  || negb (us_id user =? rp_user_id p)
  || negb (bool_decide (us_public_id user = rp_user_public_id p))
  || negb (us_user_revision user =? rp_user_revision p)
  || negb (po_claims_revision policy =? rp_claims_revision p).

Definition rotation_owners (db : Database) (command : RotateRefreshToken)
    (session : ApplicationSessionRow) :
    result ApplicationError (ProjectRow * ApplicationRow * UserRow * PolicyRow) :=
  project <-? ok_or (db_projects db !! rt_project_id command) AppError.NotFound ;;
  application <-? ok_or (find_by_id (db_applications db) (rt_application_id command)
                           (fun a => ap_project_id a =? rt_project_id command))
                    AppError.NotFound ;;
  user <-? ok_or (find_by_id (db_users db) (as_user_id session)
                    (fun u => us_project_id u =? rt_project_id command)) AppError.NotFound ;;
  policy <-? ok_or (db_policies db !! rt_project_id command) AppError.Integrity ;;
  if rotation_owner_conflict command session project application user policy
  then Err AppError.RevisionConflict
  else
    lifetime <-? access_token_lifetime policy ;;
    if negb (lifetime =? rp_access_token_lifetime_seconds (rt_preparation command))
    then Err AppError.RevisionConflict
    else Ok (project, application, user, policy).

Definition rotation_binding (db : Database) (command : RotateRefreshToken)
    (session : ApplicationSessionRow) (user : UserRow) : result ApplicationError UserBindingRow :=
  let p := rt_preparation command in
  binding <-? ok_or (find_by_id (db_bindings db) (as_binding_id session)
                       (fun b => (ub_project_id b =? rt_project_id command)
                                 && (ub_application_id b =? rt_application_id command)
                                 && (ub_user_id b =? us_id user))) AppError.Integrity ;;
  if negb (ub_id binding =? rp_binding_id p)
     || negb (ub_binding_revision binding =? rp_binding_revision p)
     || negb (bool_decide (ub_status binding = "active"%string))
  then Err AppError.RevisionConflict
  else Ok binding.

Definition binding_projection (db : Database) (project_id binding_id : Uuid) :
    result ApplicationError ProjectionRow :=
  ok_or (find_one (db_projections db)
           (fun x => (pn_project_id x =? project_id) && (pn_binding_id x =? binding_id)))
    AppError.Integrity.

Definition rotation_projection (db : Database) (command : RotateRefreshToken) (user : UserRow)
    (binding : UserBindingRow) : result ApplicationError unit :=
  let p := rt_preparation command in
  projection <-? binding_projection db (rt_project_id command) (ub_id binding) ;;
  (if is_some (pn_verified_email_ciphertext projection)
   then assert_projection_crypto_authority
   else Ok tt) ;;?
  projection_document <-? wire_projection_document projection ;;
  let projection_digest := pn_canonical_digest projection in
  projection_storage_document <-? safe_projection_document projection_document ;;
  if negb (pn_projection_revision projection =? rp_projection_revision p)
     || negb (pn_source_user_revision projection =? us_user_revision user)
     || negb (bool_decide (pn_source_base_profile_digest projection = us_base_profile_digest user))
     || negb (json_eqb (pn_document projection) projection_storage_document)
     || negb (json_eqb projection_document (rp_projection_document p))
     || negb (bool_decide (pn_canonical_digest projection = projection_digest))
  then Err AppError.RevisionConflict
  else Ok tt.

(** The browser session behind an application session, when there is one. *)
Definition session_browser (db : Database) (project_id : Uuid) (now : OffsetDateTime)
    (session : ApplicationSessionRow) (project : ProjectRow) (user : UserRow)
    (policy : PolicyRow) : result ApplicationError unit :=
  match as_browser_session_id session with
  | None => Ok tt
  | Some browser_session_id =>
      browser <-? ok_or (find_by_id (db_browsers db) browser_session_id
                           (fun b => (bs_project_id b =? project_id)
                                     && (bs_user_id b =? us_id user))) AppError.Integrity ;;
      if negb (bool_decide (bs_status browser = "active"%string))
         || (bs_idle_expires_at browser <=? now)
         || (bs_absolute_expires_at browser <=? now)
         || negb (bs_project_security_revision browser =? pj_security_revision project)
         || negb (bs_user_security_revision browser =? us_security_revision user)
         || negb (bs_policy_session_revision browser =? po_session_revision policy)
      then Err AppError.Disabled
      else Ok tt
  end.

Definition rotation_browser (db : Database) (command : RotateRefreshToken)
    (session : ApplicationSessionRow) (project : ProjectRow) (user : UserRow)
    (policy : PolicyRow) : result ApplicationError unit :=
  session_browser db (rt_project_id command) (rt_now command) session project user policy.

(** The writes of a rotation. *)
Definition rotation_writes (command : RotateRefreshToken) (session : ApplicationSessionRow)
    (family : RefreshFamilyRow) (generation : RefreshGenerationRow) (user : UserRow) :
    txn RefreshRotationResult :=
  let successor_generation := i64_add (rg_generation generation) 1 in
  update_generation (with_consumed (rt_now command) generation) ;;~
  insert_generation (successor_row command family user successor_generation) ;;~
  update_family (with_next_generation successor_generation (rt_now command) family) ;;~
  append_runtime_audit (rt_project_id command) "project_user" "auth.refresh.rotated"
    "refresh_family" (Some (rf_id family)) (rf_id family) ;;~
  mret (Rotated (us_id user) (as_id session) (rf_id family) successor_generation
          (rf_absolute_expires_at family)).

(** The transaction of [rotate_refresh_token], on the rows routing found. *)
Definition rotate_locked (command : RotateRefreshToken)
    (routed_generation_row : RefreshGenerationRow) (routed_family_row : RefreshFamilyRow) :
    txn RefreshRotationResult :=
  db <~ mget ;;
  rows <~ mlift (locked_refresh_rows db (rt_project_id command) (rt_application_id command)
                   routed_generation_row routed_family_row) ;;
  let '(session, family, generation) := rows in
  if negb (digest_matches (rg_token_digest generation) (rg_token_digest_key_version generation)
             (rt_presented_token command))
  then mfail AppError.NotFound
  else if bool_decide (rg_status generation = "consumed"%string)
  then
    record_refresh_replay generation family (rt_project_id command) (rt_now command) ;;~
    mret (ReplayRevoked (rf_id family))
  else if rotation_state_conflict command session family generation
  then mfail AppError.InvalidTransition
  else
    owners <~ mlift (rotation_owners db command session) ;;
    let '(project, application, user, policy) := owners in
    binding <~ mlift (rotation_binding db command session user) ;;
    mlift (rotation_projection db command user binding) ;;~
    mlift (rotation_browser db command session project user policy) ;;~
    lock_signing_epoch (rt_project_id command) (rp_signing_ring_id (rt_preparation command))
      (rp_signing_key_id (rt_preparation command)) (rp_signing_epoch (rt_preparation command))
      (rt_now command) ;;~
    rotation_writes command session family generation user.

(** [generation_snapshot] and [family_snapshot] are the stores the two reads
    before the transaction see. *)
Definition rotate_refresh_token (generation_snapshot family_snapshot : Database)
    (command : RotateRefreshToken) : txn RefreshRotationResult :=
  mlift (validate_digest (rt_presented_token command)) ;;~
  mlift (validate_digest (rt_successor_token command)) ;;~
  if rp_signing_epoch (rt_preparation command) <=? 0 then mfail AppError.InvalidInput
  else
    generation <~ mlift (ok_or (routed_generation generation_snapshot (rt_project_id command)
                                  (rt_application_id command) (rt_presented_token command))
                           AppError.NotFound) ;;
    family <~ mlift (ok_or (routed_family family_snapshot (rt_project_id command)
                              (rg_family_id generation)) AppError.NotFound) ;;
    transaction (rotate_locked command generation family).
(** ** Preparation *)
Definition preparation_state_conflict (now : OffsetDateTime) (session : ApplicationSessionRow)
    (family : RefreshFamilyRow) (generation : RefreshGenerationRow) : bool :=
  negb (bool_decide (rg_status generation = "current"%string))
  || negb (bool_decide (rf_status family = "active"%string))
  || negb (bool_decide (as_status session = "active"%string))
  || negb (rg_generation generation =? rf_current_generation family)
  || (rf_absolute_expires_at family <=? now)
  || (as_absolute_expires_at session <=? now)
  || negb (rf_absolute_expires_at family =? as_absolute_expires_at session).

Definition preparation_owners (db : Database) (project_id application_id : Uuid)
    (session : ApplicationSessionRow) :
    result ApplicationError (ProjectRow * ApplicationRow * UserRow * PolicyRow) :=
  project <-? ok_or (db_projects db !! project_id) AppError.NotFound ;;
  application <-? ok_or (find_by_id (db_applications db) application_id
                           (fun a => ap_project_id a =? project_id)) AppError.NotFound ;;
  user <-? ok_or (find_by_id (db_users db) (as_user_id session)
                    (fun u => us_project_id u =? project_id)) AppError.NotFound ;;
  policy <-? ok_or (db_policies db !! project_id) AppError.Integrity ;;
  if negb (bool_decide (pj_status project = "active"%string))
     || negb (bool_decide (ap_status application = "active"%string))
     || negb (bool_decide (us_status user = "active"%string))
     || negb (pj_security_revision project =? as_project_security_revision session)
     || negb (ap_security_revision application =? as_application_security_revision session)
     || negb (us_security_revision user =? as_user_security_revision session)
     || negb (po_claims_revision policy =? as_claims_revision session)
     || negb (po_session_revision policy =? as_policy_session_revision session)
  then Err AppError.RevisionConflict
  else Ok (project, application, user, policy).

Definition preparation_binding (db : Database) (project_id application_id : Uuid)
    (session : ApplicationSessionRow) (user : UserRow) : result ApplicationError UserBindingRow :=
  binding <-? ok_or (find_by_id (db_bindings db) (as_binding_id session)
                       (fun b => (ub_project_id b =? project_id)
                                 && (ub_application_id b =? application_id)
                                 && (ub_user_id b =? us_id user))) AppError.Integrity ;;
  if negb (bool_decide (ub_status binding = "active"%string)) then Err AppError.Disabled
  else Ok binding.

Definition refresh_preparation (session : ApplicationSessionRow) (family : RefreshFamilyRow)
    (generation : RefreshGenerationRow) (project : ProjectRow) (application : ApplicationRow)
    (user : UserRow) (policy : PolicyRow) (binding : UserBindingRow)
    (material : ProjectionMaterial) (signing : SigningSnapshot) (lifetime : Z) :
    RefreshPreparation :=
  {| rp_generation_id := rg_id generation;
     rp_family_id := rf_id family;
     rp_project_public_id := pj_public_id project;
     rp_project_issuer := ss_issuer signing;
     rp_application_public_id := ap_public_id application;
     rp_family_revision := rf_family_revision family;
     rp_generation := rg_generation generation;
     rp_application_session_id := as_id session;
     rp_session_revision := as_session_revision session;
     rp_binding_id := ub_id binding;
     rp_binding_revision := ub_binding_revision binding;
     rp_user_id := us_id user;
     rp_user_public_id := us_public_id user;
     rp_user_revision := us_user_revision user;
     rp_claims_revision := po_claims_revision policy;
     rp_projection_revision := pm_revision material;
     rp_projection_document := pm_document material;
     rp_signing_ring_id := ss_ring_id signing;
     rp_signing_key_id := ss_key_id signing;
     rp_signing_kid := ss_kid signing;
     rp_signing_public_jwk := ss_public_jwk signing;
     rp_signing_material_id := ss_material_id signing;
     rp_signing_epoch := ss_epoch signing;
     rp_access_token_lifetime_seconds := lifetime;
     rp_authenticated_at := as_authenticated_at session;
     rp_absolute_expires_at := rf_absolute_expires_at family |}.

(** The transaction of [prepare_refresh_rotation], on the rows routing found;
    [nonce] is the random input of an encryption, should one be needed. *)
Definition prepare_locked (nonce : list Z) (command : PrepareRefreshRotation)
    (routed_generation_row : RefreshGenerationRow) (routed_family_row : RefreshFamilyRow) :
    txn Prep.RefreshPreparationResult :=
  let project_id := pr_project_id command in
  let application_id := pr_application_id command in
  let now := pr_now command in
  db <~ mget ;;
  rows <~ mlift (locked_refresh_rows db project_id application_id routed_generation_row
                   routed_family_row) ;;
  let '(session, family, generation) := rows in
  if negb (digest_matches (rg_token_digest generation) (rg_token_digest_key_version generation)
             (pr_presented_token command))
  then mfail AppError.NotFound
  else if bool_decide (rg_status generation = "consumed"%string)
  then
    record_refresh_replay generation family project_id now ;;~
    mret (Prep.ReplayRevoked (rf_id family))
  else if preparation_state_conflict now session family generation
  then mfail AppError.InvalidTransition
  else
    owners <~ mlift (preparation_owners db project_id application_id session) ;;
    let '(project, application, user, policy) := owners in
    mlift (session_browser db project_id now session project user policy) ;;~
    binding <~ mlift (preparation_binding db project_id application_id session user) ;;
    projection <~ mlift (binding_projection db project_id (ub_id binding)) ;;
    repaired <~ repair_runtime_projection nonce projection (ap_id application) user now ;;
    repaired_db <~ mget ;;
    signing <~ mlift (active_signing_snapshot repaired_db project_id now) ;;
    lifetime <~ mlift (access_token_lifetime policy) ;;
    mret (Prep.Ready (refresh_preparation session family generation project application user
                        policy binding repaired.2 signing lifetime)).

Definition prepare_refresh_rotation (nonce : list Z)
    (generation_snapshot family_snapshot : Database) (command : PrepareRefreshRotation) :
    txn Prep.RefreshPreparationResult :=
  mlift (validate_digest (pr_presented_token command)) ;;~
  generation <~ mlift (ok_or (routed_generation generation_snapshot (pr_project_id command)
                                (pr_application_id command) (pr_presented_token command))
                         AppError.NotFound) ;;
  family <~ mlift (ok_or (routed_family family_snapshot (pr_project_id command)
                            (rg_family_id generation)) AppError.NotFound) ;;
  transaction (prepare_locked nonce command generation family).
End session_authority.

(** ** Logout *)
Definition with_session_revoked (now : OffsetDateTime) (s : ApplicationSessionRow) :
    ApplicationSessionRow :=
  mkApplicationSessionRow (as_id s) (as_project_id s) (as_application_id s) (as_user_id s)
    (as_binding_id s) (as_browser_session_id s) "revoked" (i64_add (as_session_revision s) 1)
    (as_project_security_revision s) (as_application_security_revision s)
    (as_user_security_revision s) (as_claims_revision s) (as_policy_session_revision s)
    (as_authenticated_at s) (as_absolute_expires_at s) (Some now) (as_created_at s) now.

Definition logout_application_session (command : LogoutApplicationSession) : txn unit :=
  transaction (
    db <~ mget ;;
    session <~ mlift (ok_or (find_by_id (db_sessions db) (lo_application_session_id command)
                               (fun s => (as_project_id s =? lo_project_id command)
                                         && (as_application_id s =? lo_application_id command)
                                         && (as_user_id s =? lo_user_id command)))
                        AppError.NotFound) ;;
    family <~ mlift (ok_or (find_one (db_families db)
                              (fun f => (rf_project_id f =? lo_project_id command)
                                        && (rf_application_session_id f
                                              =? lo_application_session_id command)))
                       AppError.Integrity) ;;
    let session_changed := bool_decide (as_status session = "active"%string) in
    let family_changed := bool_decide (rf_status family = "active"%string) in
    (if session_changed then update_session (with_session_revoked (lo_now command) session)
     else mret tt) ;;~
    (if family_changed then update_family (with_family_revoked "logout" (lo_now command) family)
     else mret tt) ;;~
    (if session_changed || family_changed
     then append_runtime_audit (lo_project_id command) "project_user"
            "auth.application_session.logged_out" "application_session"
            (Some (lo_application_session_id command)) (lo_application_session_id command)
     else mret tt)).
