(* ===== verification/BrowserLogout.v ===== *)
(** * Browser logout

    [prepare_browser_logout], [bind_browser_logout] and [confirm_browser_logout]
    of [adapters/postgres/session_authority.rs].  An application asks for the
    browser session behind it to end; the browser, holding its own credential,
    binds a CSRF token to the request and then confirms with that token.  The
    request lives at most a minute, and each step names the revision it saw.

    An overdue request is marked expired by whoever finds it, in a transaction
    that commits although the call returns an error ([committed]). *)
From S2P Require Import Prelude.
From S2P Require Import Json.
From S2P Require Import Database.
From S2P Require Import SessionAuthority.

Record PrepareBrowserLogout := mkPrepareBrowserLogout {
  pb_id : Uuid;
  pb_project_id : Uuid;
  pb_application_id : Uuid;
  pb_user_id : Uuid;
  pb_application_session_id : Uuid;
  pb_browser_session_id : Uuid;
  pb_preparation : VersionedDigest;
  pb_now : OffsetDateTime
}.

Record BindBrowserLogout := mkBindBrowserLogout {
  bb_preparation : VersionedDigest;
  bb_browser_credential : VersionedDigest;
  bb_expected_interaction_revision : Z;
  bb_csrf : VersionedDigest;
  bb_now : OffsetDateTime
}.

Record ConfirmBrowserLogout := mkConfirmBrowserLogout {
  cb_preparation : VersionedDigest;
  cb_browser_credential : VersionedDigest;
  cb_csrf : VersionedDigest;
  cb_expected_interaction_revision : Z;
  cb_now : OffsetDateTime
}.

Record BrowserLogoutRecord := mkBrowserLogoutRecord {
  br_id : Uuid;
  br_project_id : Uuid;
  br_browser_session_id : Uuid;
  br_interaction_revision : Z;
  br_expires_at : OffsetDateTime
}.

Record LogoutOwners := mkLogoutOwners {
  low_project : ProjectRow;
  low_user : UserRow;
  low_policy : PolicyRow;
  low_session : ApplicationSessionRow
}.

Definition browser_logout_record (interaction : BrowserLogoutRow) : BrowserLogoutRecord :=
  {| br_id := bl_id interaction;
     br_project_id := bl_project_id interaction;
     br_browser_session_id := bl_browser_session_id interaction;
     br_interaction_revision := bl_interaction_revision interaction;
     br_expires_at := bl_expires_at interaction |}.

(** [optional_digest_matches]: [adapters/postgres/authentication.rs]. *)
Definition optional_digest_matches (stored : option (list Z)) (stored_key_version : option Z)
    (supplied : VersionedDigest) : bool :=
  bool_decide (stored_key_version = Some (vd_key_version supplied))
  && is_some_and stored (fun value =>
       Nat.eqb (length value) (length (vd_value supplied))
       && bool_decide (value = vd_value supplied)).

Definition lock_logout_owners (db : Database)
    (project_id application_id user_id application_session_id : Uuid)
    (expected_session_revision : option Z) (now : OffsetDateTime) :
    result ApplicationError LogoutOwners :=
  project <-? ok_or (db_projects db !! project_id) AppError.NotFound ;;
  application <-? ok_or (find_by_id (db_applications db) application_id
                           (fun a => ap_project_id a =? project_id)) AppError.NotFound ;;
  user <-? ok_or (find_by_id (db_users db) user_id (fun u => us_project_id u =? project_id))
             AppError.NotFound ;;
  policy <-? ok_or (db_policies db !! project_id) AppError.Integrity ;;
  session <-? ok_or (find_by_id (db_sessions db) application_session_id
                       (fun s => (as_project_id s =? project_id)
                                 && (as_application_id s =? application_id)
                                 && (as_user_id s =? user_id))) AppError.NotFound ;;
  if negb (bool_decide (pj_status project = "active"%string))
     || negb (bool_decide (ap_status application = "active"%string))
     || negb (bool_decide (us_status user = "active"%string))
     || negb (bool_decide (as_status session = "active"%string))
     || (as_absolute_expires_at session <=? now)
     || negb (pj_security_revision project =? as_project_security_revision session)
     || negb (ap_security_revision application =? as_application_security_revision session)
     || negb (us_security_revision user =? as_user_security_revision session)
     || negb (po_claims_revision policy =? as_claims_revision session)
     || negb (po_session_revision policy =? as_policy_session_revision session)
     || is_some_and expected_session_revision
          (fun revision => negb (revision =? as_session_revision session))
  then Err AppError.RevisionConflict
  else Ok (mkLogoutOwners project user policy session).

(** The browser session is live under the owners' revisions. *)
Definition browser_unfit (browser : BrowserSessionRow) (owners : LogoutOwners)
    (now : OffsetDateTime) : bool :=
  (bs_idle_expires_at browser <=? now)
  || (bs_absolute_expires_at browser <=? now)
  || negb (bs_project_security_revision browser =? pj_security_revision (low_project owners))
  || negb (bs_user_security_revision browser =? us_security_revision (low_user owners))
  || negb (bs_policy_session_revision browser =? po_session_revision (low_policy owners)).

(** ** Preparation *)
Definition prepared_logout (command : PrepareBrowserLogout) (session : ApplicationSessionRow)
    (browser : BrowserSessionRow) (expires_at : OffsetDateTime) : BrowserLogoutRow :=
  {| bl_id := pb_id command;
     bl_project_id := pb_project_id command;
     bl_application_id := pb_application_id command;
     bl_user_id := pb_user_id command;
     bl_application_session_id := pb_application_session_id command;
     bl_browser_session_id := pb_browser_session_id command;
     bl_preparation_digest := vd_value (pb_preparation command);
     bl_preparation_digest_key_version := vd_key_version (pb_preparation command);
     bl_status := "prepared";
     bl_interaction_revision := 1;
     bl_csrf_digest := None;
     bl_csrf_digest_key_version := None;
     bl_application_session_revision := as_session_revision session;
     bl_browser_session_revision := bs_session_revision browser;
     bl_expires_at := expires_at;
     bl_csrf_bound_at := None;
     bl_consumed_at := None;
     bl_created_at := pb_now command;
     bl_updated_at := pb_now command |}.

Definition prepare_browser_logout (command : PrepareBrowserLogout) : txn BrowserLogoutRecord :=
  mlift (validate_digest (pb_preparation command)) ;;~
  transaction (
    db <~ mget ;;
    owners <~ mlift (lock_logout_owners db (pb_project_id command) (pb_application_id command)
                       (pb_user_id command) (pb_application_session_id command) None
                       (pb_now command)) ;;
    let session := low_session owners in
    browser <~ mlift (ok_or (find_by_id (db_browsers db) (pb_browser_session_id command)
                               (fun b => (bs_project_id b =? pb_project_id command)
                                         && (bs_user_id b =? pb_user_id command)))
                        AppError.NotFound) ;;
    if negb (bool_decide (as_browser_session_id session = Some (bs_id browser)))
       || negb (bool_decide (bs_status browser = "active"%string))
       || browser_unfit browser owners (pb_now command)
    then mfail AppError.InvalidTransition
    else
      let expires_at :=
        Z.min (pb_now command + seconds 60)
          (Z.min (as_absolute_expires_at session)
             (Z.min (bs_idle_expires_at browser) (bs_absolute_expires_at browser))) in
      if expires_at <=? pb_now command then mfail AppError.InvalidTransition
      else
        let interaction := prepared_logout command session browser expires_at in
        insert_logout interaction ;;~
        append_runtime_audit (pb_project_id command) "project_user" "auth.browser_logout.prepared"
          "browser_logout_interaction" (Some (bl_id interaction))
          (pb_application_session_id command) ;;~
        mret (browser_logout_record interaction)).

(** ** Expiry, binding and confirmation *)
Definition logout_expired (now : OffsetDateTime) (i : BrowserLogoutRow) : BrowserLogoutRow :=
  mkBrowserLogoutRow (bl_id i) (bl_project_id i) (bl_application_id i) (bl_user_id i)
    (bl_application_session_id i) (bl_browser_session_id i) (bl_preparation_digest i)
    (bl_preparation_digest_key_version i) "expired" (i64_add (bl_interaction_revision i) 1)
    (bl_csrf_digest i) (bl_csrf_digest_key_version i) (bl_application_session_revision i)
    (bl_browser_session_revision i) (bl_expires_at i) (bl_csrf_bound_at i) (bl_consumed_at i)
    (bl_created_at i) now.

Definition logout_bound (csrf : VersionedDigest) (now : OffsetDateTime) (i : BrowserLogoutRow) :
    BrowserLogoutRow :=
  mkBrowserLogoutRow (bl_id i) (bl_project_id i) (bl_application_id i) (bl_user_id i)
    (bl_application_session_id i) (bl_browser_session_id i) (bl_preparation_digest i)
    (bl_preparation_digest_key_version i) "csrf_bound" (i64_add (bl_interaction_revision i) 1)
    (Some (vd_value csrf)) (Some (vd_key_version csrf)) (bl_application_session_revision i)
    (bl_browser_session_revision i) (bl_expires_at i) (Some now) (bl_consumed_at i)
    (bl_created_at i) now.

Definition logout_consumed (now : OffsetDateTime) (i : BrowserLogoutRow) : BrowserLogoutRow :=
  mkBrowserLogoutRow (bl_id i) (bl_project_id i) (bl_application_id i) (bl_user_id i)
    (bl_application_session_id i) (bl_browser_session_id i) (bl_preparation_digest i)
    (bl_preparation_digest_key_version i) "consumed" (i64_add (bl_interaction_revision i) 1)
    (bl_csrf_digest i) (bl_csrf_digest_key_version i) (bl_application_session_revision i)
    (bl_browser_session_revision i) (bl_expires_at i) (bl_csrf_bound_at i) (Some now)
    (bl_created_at i) now.

Definition browser_terminated (now : OffsetDateTime) (b : BrowserSessionRow) : BrowserSessionRow :=
  mkBrowserSessionRow (bs_id b) (bs_project_id b) (bs_user_id b) (bs_credential_digest b)
    (bs_credential_digest_key_version b) "terminated" (i64_add (bs_session_revision b) 1)
    (bs_project_security_revision b) (bs_user_security_revision b)
    (bs_policy_session_revision b) (bs_authenticated_at b) (bs_last_activity_at b)
    (bs_idle_expires_at b) (bs_absolute_expires_at b) (Some now) (bs_created_at b) now.

Definition expire_browser_logout (interaction : BrowserLogoutRow) (now : OffsetDateTime) :
    txn bool :=
  if negb (bool_decide (bl_status interaction = "prepared"%string)
           || bool_decide (bl_status interaction = "csrf_bound"%string))
  then mret false
  else
    update_logout (logout_expired now interaction) ;;~
    append_runtime_audit (bl_project_id interaction) "system" "auth.browser_logout.expired"
      "browser_logout_interaction" (Some (bl_id interaction))
      (bl_application_session_id interaction) ;;~
    mret true.

(** The unlocked read that routes by the preparation digest, and the locked read
    of the routed row. *)
Definition routed_logout (snapshot : Database) (preparation : VersionedDigest) :
    option BrowserLogoutRow :=
  find_one (db_logouts snapshot) (fun i =>
    bool_decide (bl_preparation_digest i = vd_value preparation)
    && (bl_preparation_digest_key_version i =? vd_key_version preparation)).

Definition locked_logout (db : Database) (id : Uuid) (preparation : VersionedDigest) :
    option BrowserLogoutRow :=
  find_by_id (db_logouts db) id (fun i =>
    bool_decide (bl_preparation_digest i = vd_value preparation)
    && (bl_preparation_digest_key_version i =? vd_key_version preparation)).

(** The owners and the browser session of a request, for a caller that holds the
    browser's credential. *)
Definition logout_browser (db : Database) (interaction : BrowserLogoutRow)
    (browser_credential : VersionedDigest) (now : OffsetDateTime) :
    result ApplicationError BrowserSessionRow :=
  owners <-? lock_logout_owners db (bl_project_id interaction) (bl_application_id interaction)
               (bl_user_id interaction) (bl_application_session_id interaction)
               (Some (bl_application_session_revision interaction)) now ;;
  browser <-? ok_or (find_by_id (db_browsers db) (bl_browser_session_id interaction)
                       (fun b => (bs_project_id b =? bl_project_id interaction)
                                 && (bs_user_id b =? bl_user_id interaction)))
                AppError.NotFound ;;
  if negb (digest_matches (bs_credential_digest browser) (bs_credential_digest_key_version browser)
             browser_credential)
     || negb (bool_decide (as_browser_session_id (low_session owners) = Some (bs_id browser)))
     || negb (bool_decide (bs_status browser = "active"%string))
     || negb (bs_session_revision browser =? bl_browser_session_revision interaction)
     || browser_unfit browser owners now
  then Err AppError.NotFound
  else Ok browser.

Definition bind_locked (command : BindBrowserLogout) (id : Uuid) :
    txn (result ApplicationError BrowserLogoutRecord) :=
  db <~ mget ;;
  interaction <~ mlift (ok_or (locked_logout db id (bb_preparation command)) AppError.NotFound) ;;
  if bl_expires_at interaction <=? bb_now command then
    expired <~ expire_browser_logout interaction (bb_now command) ;;
    mret (Err (if expired : bool then AppError.InvalidTransition else AppError.NotFound))
  else if negb (bool_decide (bl_status interaction = "prepared"%string))
          || negb (bl_interaction_revision interaction
                     =? bb_expected_interaction_revision command)
  then mfail AppError.RevisionConflict
  else
    mlift (logout_browser db interaction (bb_browser_credential command) (bb_now command)) ;;~
    let bound := logout_bound (bb_csrf command) (bb_now command) interaction in
    update_logout bound ;;~
    append_runtime_audit (bl_project_id bound) "project_user" "auth.browser_logout.csrf_bound"
      "browser_logout_interaction" (Some (bl_id bound)) (bl_application_session_id bound) ;;~
    mret (Ok (browser_logout_record bound)).

Definition bind_browser_logout (snapshot : Database) (command : BindBrowserLogout) :
    txn BrowserLogoutRecord :=
  mlift (validate_digest (bb_preparation command)) ;;~
  mlift (validate_digest (bb_browser_credential command)) ;;~
  mlift (validate_digest (bb_csrf command)) ;;~
  routed <~ mlift (ok_or (routed_logout snapshot (bb_preparation command)) AppError.NotFound) ;;
  committed (bind_locked command (bl_id routed)).

Definition confirm_locked (command : ConfirmBrowserLogout) (id : Uuid) :
    txn (result ApplicationError BrowserLogoutRecord) :=
  db <~ mget ;;
  interaction <~ mlift (ok_or (locked_logout db id (cb_preparation command)) AppError.NotFound) ;;
  if bl_expires_at interaction <=? cb_now command then
    expire_browser_logout interaction (cb_now command) ;;~
    mret (Err AppError.InvalidTransition)
  else if negb (bool_decide (bl_status interaction = "csrf_bound"%string))
          || negb (bl_interaction_revision interaction
                     =? cb_expected_interaction_revision command)
          || negb (optional_digest_matches (bl_csrf_digest interaction)
                     (bl_csrf_digest_key_version interaction) (cb_csrf command))
  then mfail AppError.NotFound
  else
    browser <~ mlift (logout_browser db interaction (cb_browser_credential command)
                        (cb_now command)) ;;
    update_browser (browser_terminated (cb_now command) browser) ;;~
    let consumed := logout_consumed (cb_now command) interaction in
    update_logout consumed ;;~
    append_runtime_audit (bl_project_id consumed) "project_user" "auth.browser_logout.confirmed"
      "project_browser_session" (Some (bl_browser_session_id consumed))
      (bl_application_session_id consumed) ;;~
    mret (Ok (browser_logout_record consumed)).

Definition confirm_browser_logout (snapshot : Database) (command : ConfirmBrowserLogout) :
    txn BrowserLogoutRecord :=
  mlift (validate_digest (cb_preparation command)) ;;~
  mlift (validate_digest (cb_browser_credential command)) ;;~
  mlift (validate_digest (cb_csrf command)) ;;~
  routed <~ mlift (ok_or (routed_logout snapshot (cb_preparation command)) AppError.NotFound) ;;
  committed (confirm_locked command (bl_id routed)).
