(* ===== verification/Login.v ===== *)
(** * The login authority

    [adapters/postgres/authentication.rs]: a login transaction is created for an
    application, bound to a browser, given a method, sent to a provider and
    claimed when the provider calls back.  Every step locks the login, checks the
    revision the caller saw, and moves the status through the domain's machine
    ([Lifecycle.Login]); a login past its ten minutes is marked expired by
    whoever finds it, in a transaction that commits although the call fails. *)
From S2P Require Import Prelude.
From S2P Require Import Json.
From S2P Require Import LoginTables.
From S2P Require Import Lifecycle.
From S2P Require Import Managed.
From S2P Require Import Database.
From S2P Require Import LoginStore.
From S2P Require Import Projection.
From S2P Require Import SessionAuthority.
From S2P Require Import BrowserLogout.

(** ** Commands: [application/authentication.rs] *)
Record LoginRevisionSnapshot := mkLoginRevisionSnapshot {
  lr_project_metadata_revision : Z; lr_project_security_revision : Z;
  lr_application_security_revision : Z; lr_claims_revision : Z; lr_session_revision : Z
}.

Record AdmittedProviderMethod := mkAdmittedProviderMethod {
  am_kind : ProviderKind; am_method_key : string; am_provider_id : Uuid;
  am_display_name : string; am_issuer : string; am_provider_revision : Z;
  am_provider_egress_policy_revision : option Z; am_assignment_security_revision : Z
}.

Record AdmittedEmailMethod := mkAdmittedEmailMethod {
  em_policy_revision : Z; em_security_revision : Z; em_assignment_security_revision : Z;
  em_otp_enabled : bool; em_magic_link_enabled : bool; em_otp_digits : Z;
  em_otp_validity_seconds : Z; em_otp_max_attempts : Z; em_resend_after_seconds : Z;
  em_max_generations : Z; em_magic_validity_seconds : Z; em_signup_enabled : bool;
  em_transferred_magic_link_enabled : bool; em_smtp_selection_kind : string;
  em_smtp_configuration_id : option Uuid; em_smtp_generation : Z;
  em_smtp_security_eligibility_revision : Z
}.

Record CreateLoginTransaction := mkCreateLoginTransaction {
  cl_id : Uuid; cl_project_id : Uuid; cl_application_id : Uuid;
  cl_interaction : VersionedDigest; cl_redirect_uri : string;
  cl_application_pkce_challenge : string; cl_application_state : ProtectedValue;
  cl_presentation_hint : option string; cl_revisions : LoginRevisionSnapshot;
  cl_created_at : OffsetDateTime; cl_expires_at : OffsetDateTime;
  cl_admitted_providers : list AdmittedProviderMethod;
  cl_admitted_email : option AdmittedEmailMethod
}.

Record LoginTransactionRecord := mkLoginTransactionRecord {
  ltr_id : Uuid; ltr_project_id : Uuid; ltr_application_id : Uuid;
  ltr_status : Login.LoginTransactionStatus; ltr_transaction_revision : Z;
  ltr_expires_at : OffsetDateTime
}.

Record BindHostedBrowser := mkBindHostedBrowser {
  bh_interaction : VersionedDigest; bh_expected_transaction_revision : Z;
  bh_browser_binding : VersionedDigest; bh_csrf : VersionedDigest; bh_now : OffsetDateTime
}.

Record SelectProviderMethod := mkSelectProviderMethod {
  sp_project_id : Uuid; sp_transaction_id : Uuid; sp_expected_transaction_revision : Z;
  sp_method_key : string; sp_provider_id : Uuid; sp_browser_binding : VersionedDigest;
  sp_csrf : VersionedDigest; sp_callback_url : string; sp_upstream_state : VersionedDigest;
  sp_oidc_nonce : VersionedDigest; sp_provider_pkce : ProtectedValue; sp_now : OffsetDateTime
}.

Record ClaimProviderCallback := mkClaimProviderCallback {
  cp_transaction_id : Uuid; cp_project_public_id : string; cp_provider_key : string;
  cp_upstream_state : VersionedDigest; cp_browser_binding : VersionedDigest;
  cp_readable_key_versions : list Z; cp_now : OffsetDateTime
}.

Record DenyProviderCallback := mkDenyProviderCallback {
  dp_transaction_id : Uuid; dp_project_public_id : string; dp_provider_key : string;
  dp_upstream_state : VersionedDigest; dp_browser_binding : VersionedDigest;
  dp_safe_outcome : string; dp_now : OffsetDateTime
}.

Record FailProviderExchange := mkFailProviderExchange {
  fp_project_id : Uuid; fp_transaction_id : Uuid; fp_expected_transaction_revision : Z;
  fp_now : OffsetDateTime
}.

Record ClaimedProviderExchange := mkClaimedProviderExchange {
  ce_transaction : LoginTransactionRecord; ce_provider_id : Uuid; ce_callback_url : string;
  ce_oidc_nonce : VersionedDigest; ce_provider_pkce : ProtectedValue
}.

(** ** Validation *)
Definition is_pkce_s256_challenge (value : string) : bool :=
  (str_len value =? 43)
  && forallb (fun b => is_ascii_alphanumeric b || (b =? 0x2D) || (b =? 0x5F)) (bytes value).

Definition validate_protected (value : ProtectedValue) : result ApplicationError unit :=
  if (pv_key_version value <=? 0) || negb (in_range 17 4096 (list_len (pv_ciphertext value)))
  then Err AppError.InvalidInput else Ok tt.

Definition validate_revisions (revisions : LoginRevisionSnapshot) : result ApplicationError unit :=
  if (lr_project_metadata_revision revisions <=? 0)
     || (lr_project_security_revision revisions <=? 0)
     || (lr_application_security_revision revisions <=? 0)
     || (lr_claims_revision revisions <=? 0)
     || (lr_session_revision revisions <=? 0)
  then Err AppError.InvalidInput else Ok tt.

Definition validate_login_command (command : CreateLoginTransaction) :
    result ApplicationError unit :=
  validate_digest (cl_interaction command) ;;?
  validate_protected (cl_application_state command) ;;?
  validate_revisions (cl_revisions command) ;;?
  if negb (is_pkce_s256_challenge (cl_application_pkce_challenge command))
     || (str_len (cl_redirect_uri command) <? 8)
     || ((list_len (cl_admitted_providers command) =? 0) && is_none (cl_admitted_email command))
     || negb (cl_expires_at command =? cl_created_at command + minutes 10)
  then Err AppError.InvalidInput else Ok tt.

Definition validate_admitted_email (m : AdmittedEmailMethod) : result ApplicationError unit :=
  if (em_policy_revision m <=? 0)
     || (em_security_revision m <=? 0)
     || (em_assignment_security_revision m <=? 0)
     || (negb (em_otp_enabled m) && negb (em_magic_link_enabled m))
     || negb (in_range 6 10 (em_otp_digits m))
     || negb (in_range 30 600 (em_otp_validity_seconds m))
     || negb (in_range 1 5 (em_otp_max_attempts m))
     || negb (in_range 30 600 (em_resend_after_seconds m))
     || negb (in_range 1 5 (em_max_generations m))
     || negb (in_range 30 600 (em_magic_validity_seconds m))
     || negb (status_in ["project"; "deployment_default"]%string (em_smtp_selection_kind m))
     || negb (Bool.eqb (bool_decide (em_smtp_selection_kind m = "project"%string))
                (is_some (em_smtp_configuration_id m)))
     || (em_smtp_generation m <=? 0)
     || (em_smtp_security_eligibility_revision m <=? 0)
  then Err AppError.InvalidInput else Ok tt.

Definition validate_admitted_provider (m : AdmittedProviderMethod) :
    result ApplicationError unit :=
  if is_empty (am_method_key m) || is_empty (am_display_name m) || is_empty (am_issuer m)
     || (2048 <? str_len (am_issuer m))
     || negb (login (ProviderKind_capabilities (am_kind m)))
     || negb (ProviderKind_issuer_matches (am_kind m) (am_issuer m))
     || (am_provider_revision m <=? 0)
     || (am_assignment_security_revision m <=? 0)
  then Err AppError.InvalidInput else Ok tt.

(** [effective_provider_kind]: [adapters/postgres/provider_row.rs]. *)
Definition effective_provider_kind (stored_kind issuer : string) :
    result ApplicationError ProviderKind :=
  kind <-? map_err (fun _ => AppError.Integrity) (ProviderKind_parse stored_kind) ;;
  if negb (ProviderKind_issuer_matches kind issuer) then Err AppError.Integrity else Ok kind.

Definition parse_login_status (value : string) :
    result ApplicationError Login.LoginTransactionStatus :=
  if bool_decide (value = "awaiting_browser_binding"%string) then Ok Login.AwaitingBrowserBinding
  else if bool_decide (value = "awaiting_method_selection"%string)
  then Ok Login.AwaitingMethodSelection
  else if bool_decide (value = "email_address_entry"%string) then Ok Login.EmailAddressEntry
  else if bool_decide (value = "email_challenge_pending"%string)
  then Ok Login.EmailChallengePending
  else if bool_decide (value = "provider_authorization_started"%string)
  then Ok Login.ProviderAuthorizationStarted
  else if bool_decide (value = "provider_exchange_in_progress"%string)
  then Ok Login.ProviderExchangeInProgress
  else if bool_decide (value = "provider_exchange_failed"%string)
  then Ok Login.ProviderExchangeFailed
  else if bool_decide (value = "authenticated"%string) then Ok Login.Authenticated
  else if bool_decide (value = "handoff_issued"%string) then Ok Login.HandoffIssued
  else if bool_decide (value = "completed"%string) then Ok Login.Completed
  else if bool_decide (value = "expired"%string) then Ok Login.Expired
  else if bool_decide (value = "cancelled"%string) then Ok Login.Cancelled
  else Err AppError.Integrity.

(** A verb of the status machine, with the error the caller maps its failure to. *)
Definition login_verb (verb : Login.LoginVerb) (error : ApplicationError)
    (status : Login.LoginTransactionStatus) :
    result ApplicationError Login.LoginTransactionStatus :=
  match Login.LoginTransactionStatus_verb verb status with
  | (next, Ok _) => Ok next
  | (_, Err _) => Err error
  end.

Definition login_record (l : LoginTransactionRow) : result ApplicationError LoginTransactionRecord :=
  status <-? parse_login_status (lg_status l) ;;
  Ok {| ltr_id := lg_id l; ltr_project_id := lg_project_id l;
        ltr_application_id := lg_application_id l; ltr_status := status;
        ltr_transaction_revision := lg_transaction_revision l;
        ltr_expires_at := lg_expires_at l |}.

Definition digest_array (value : option (list Z)) : result ApplicationError (list Z) :=
  ok_or (d ← value; if list_len d =? 32 then Some d else None) AppError.Integrity.

(** ** Row updates *)
(** [status], [transaction_revision] and [updated_at]. *)
Definition login_moved (status : Login.LoginTransactionStatus) (revision : Z)
    (now : OffsetDateTime) (l : LoginTransactionRow) : LoginTransactionRow :=
  mkLoginTransactionRow (lg_id l) (lg_project_id l) (lg_application_id l)
    (lg_interaction_digest l) (lg_interaction_digest_key_version l)
    (Login.LoginTransactionStatus_as_str status) revision (lg_redirect_uri l)
    (lg_application_pkce_challenge l) (lg_application_state_ciphertext l)
    (lg_application_state_key_version l) (lg_presentation_hint l) (lg_browser_binding_digest l)
    (lg_browser_binding_digest_key_version l) (lg_csrf_digest l) (lg_csrf_digest_key_version l)
    (lg_selected_method l) (lg_provider_configuration_id l) (lg_user_id l) (lg_callback_url l)
    (lg_upstream_state_digest l) (lg_upstream_state_digest_key_version l)
    (lg_oidc_nonce_digest l) (lg_oidc_nonce_digest_key_version l)
    (lg_provider_pkce_ciphertext l) (lg_provider_pkce_key_version l)
    (lg_project_metadata_revision l) (lg_project_security_revision l)
    (lg_application_security_revision l) (lg_provider_revision l)
    (lg_assignment_security_revision l) (lg_claims_revision l) (lg_session_revision l)
    (lg_authenticated_at l) (lg_expires_at l) (lg_terminal_at l) (lg_created_at l) now.

(** The same with [terminal_at]. *)
Definition login_ended (status : Login.LoginTransactionStatus) (revision : Z)
    (now : OffsetDateTime) (l : LoginTransactionRow) : LoginTransactionRow :=
  mkLoginTransactionRow (lg_id l) (lg_project_id l) (lg_application_id l)
    (lg_interaction_digest l) (lg_interaction_digest_key_version l)
    (Login.LoginTransactionStatus_as_str status) revision (lg_redirect_uri l)
    (lg_application_pkce_challenge l) (lg_application_state_ciphertext l)
    (lg_application_state_key_version l) (lg_presentation_hint l) (lg_browser_binding_digest l)
    (lg_browser_binding_digest_key_version l) (lg_csrf_digest l) (lg_csrf_digest_key_version l)
    (lg_selected_method l) (lg_provider_configuration_id l) (lg_user_id l) (lg_callback_url l)
    (lg_upstream_state_digest l) (lg_upstream_state_digest_key_version l)
    (lg_oidc_nonce_digest l) (lg_oidc_nonce_digest_key_version l)
    (lg_provider_pkce_ciphertext l) (lg_provider_pkce_key_version l)
    (lg_project_metadata_revision l) (lg_project_security_revision l)
    (lg_application_security_revision l) (lg_provider_revision l)
    (lg_assignment_security_revision l) (lg_claims_revision l) (lg_session_revision l)
    (lg_authenticated_at l) (lg_expires_at l) (Some now) (lg_created_at l) now.

Definition login_browser_bound (status : Login.LoginTransactionStatus) (c : BindHostedBrowser)
    (l : LoginTransactionRow) : LoginTransactionRow :=
  mkLoginTransactionRow (lg_id l) (lg_project_id l) (lg_application_id l)
    (lg_interaction_digest l) (lg_interaction_digest_key_version l)
    (Login.LoginTransactionStatus_as_str status)
    (i64_add (bh_expected_transaction_revision c) 1) (lg_redirect_uri l)
    (lg_application_pkce_challenge l) (lg_application_state_ciphertext l)
    (lg_application_state_key_version l) (lg_presentation_hint l)
    (Some (vd_value (bh_browser_binding c))) (Some (vd_key_version (bh_browser_binding c)))
    (Some (vd_value (bh_csrf c))) (Some (vd_key_version (bh_csrf c))) (lg_selected_method l)
    (lg_provider_configuration_id l) (lg_user_id l) (lg_callback_url l)
    (lg_upstream_state_digest l) (lg_upstream_state_digest_key_version l)
    (lg_oidc_nonce_digest l) (lg_oidc_nonce_digest_key_version l)
    (lg_provider_pkce_ciphertext l) (lg_provider_pkce_key_version l)
    (lg_project_metadata_revision l) (lg_project_security_revision l)
    (lg_application_security_revision l) (lg_provider_revision l)
    (lg_assignment_security_revision l) (lg_claims_revision l) (lg_session_revision l)
    (lg_authenticated_at l) (lg_expires_at l) (lg_terminal_at l) (lg_created_at l) (bh_now c).

Definition login_provider_selected (status : Login.LoginTransactionStatus)
    (c : SelectProviderMethod) (provider : ProviderConfigurationRow) (method : LoginMethodRow)
    (l : LoginTransactionRow) : LoginTransactionRow :=
  mkLoginTransactionRow (lg_id l) (lg_project_id l) (lg_application_id l)
    (lg_interaction_digest l) (lg_interaction_digest_key_version l)
    (Login.LoginTransactionStatus_as_str status)
    (i64_add (sp_expected_transaction_revision c) 1) (lg_redirect_uri l)
    (lg_application_pkce_challenge l) (lg_application_state_ciphertext l)
    (lg_application_state_key_version l) (lg_presentation_hint l) (lg_browser_binding_digest l)
    (lg_browser_binding_digest_key_version l) (lg_csrf_digest l) (lg_csrf_digest_key_version l)
    (Some "provider"%string) (Some (sp_provider_id c)) (lg_user_id l)
    (Some (pc_callback_url provider)) (Some (vd_value (sp_upstream_state c)))
    (Some (vd_key_version (sp_upstream_state c))) (Some (vd_value (sp_oidc_nonce c)))
    (Some (vd_key_version (sp_oidc_nonce c))) (Some (pv_ciphertext (sp_provider_pkce c)))
    (Some (pv_key_version (sp_provider_pkce c))) (lg_project_metadata_revision l)
    (lg_project_security_revision l) (lg_application_security_revision l)
    (lm_provider_revision method) (lm_assignment_security_revision method)
    (lg_claims_revision l) (lg_session_revision l) (lg_authenticated_at l) (lg_expires_at l)
    (lg_terminal_at l) (lg_created_at l) (sp_now c).

(** A denied callback also erases the browser binding and the provider material. *)
Definition login_denied (now : OffsetDateTime) (l : LoginTransactionRow) : LoginTransactionRow :=
  mkLoginTransactionRow (lg_id l) (lg_project_id l) (lg_application_id l)
    (lg_interaction_digest l) (lg_interaction_digest_key_version l)
    (Login.LoginTransactionStatus_as_str Login.ProviderExchangeFailed)
    (i64_add (lg_transaction_revision l) 1) (lg_redirect_uri l)
    (lg_application_pkce_challenge l) (lg_application_state_ciphertext l)
    (lg_application_state_key_version l) (lg_presentation_hint l) None None None None
    (lg_selected_method l) (lg_provider_configuration_id l) (lg_user_id l) (lg_callback_url l)
    None None None None None None (lg_project_metadata_revision l)
    (lg_project_security_revision l) (lg_application_security_revision l)
    (lg_provider_revision l) (lg_assignment_security_revision l) (lg_claims_revision l)
    (lg_session_revision l) (lg_authenticated_at l) (lg_expires_at l) (Some now)
    (lg_created_at l) now.

(** ** Expiry *)
Definition expire_login (l : LoginTransactionRow) (now : OffsetDateTime) : txn unit :=
  status <~ mlift (parse_login_status (lg_status l)) ;;
  if bool_decide (status ∈ [Login.Completed; Login.ProviderExchangeFailed; Login.Expired;
                            Login.Cancelled])
  then mret tt
  else
    update_login (login_ended Login.Expired (i64_add (lg_transaction_revision l) 1) now l) ;;~
    append_runtime_audit (lg_project_id l) "system" "auth.login.expired" "login_transaction"
      (Some (lg_id l)) (lg_id l).

(** ** Creation *)
Definition active_assignments (db : Database) (project_id application_id : Uuid) :
    list ProviderAssignmentRow :=
  List.filter (fun a => (pa_project_id a =? project_id) && (pa_application_id a =? application_id)
                        && bool_decide (pa_status a = "active"%string))
    (map snd (map_to_list (db_assignments db))).

(** One round of the loop over the admitted providers. *)
Definition admit_provider (db : Database) (project_id : Uuid)
    (assignments : list ProviderAssignmentRow) (m : AdmittedProviderMethod) :
    result ApplicationError unit :=
  validate_admitted_provider m ;;?
  assignment <-? ok_or (List.find (fun a => pa_provider_id a =? am_provider_id m) assignments)
                   AppError.RevisionConflict ;;
  if negb (pa_security_revision assignment =? am_assignment_security_revision m)
  then Err AppError.RevisionConflict
  else
    provider <-? ok_or (find_by_id (db_providers db) (am_provider_id m)
                          (fun p => pc_project_id p =? project_id)) AppError.RevisionConflict ;;
    provider_kind <-? effective_provider_kind (pc_kind provider) (pc_issuer provider) ;;
    if negb (bool_decide (pc_status provider = "active"%string))
       || negb (pc_revision provider =? am_provider_revision m)
       || negb (bool_decide (pc_provider_key provider = am_method_key m))
       || negb (bool_decide (pc_display_name provider = am_display_name m))
       || negb (bool_decide (pc_issuer provider = am_issuer m))
       || negb (bool_decide (provider_kind = am_kind m))
    then Err AppError.RevisionConflict
    else Ok tt.

Fixpoint admit_providers (db : Database) (project_id : Uuid)
    (assignments : list ProviderAssignmentRow) (methods : list AdmittedProviderMethod) :
    result ApplicationError unit :=
  match methods with
  | [] => Ok tt
  | m :: rest =>
      admit_provider db project_id assignments m ;;?
      admit_providers db project_id assignments rest
  end.

(** [status='active' OR (status='retained' AND retained_until > now)]. *)
Definition smtp_usable (status : string) (retained_until : option OffsetDateTime)
    (now : OffsetDateTime) : bool :=
  bool_decide (status = "active"%string)
  || (bool_decide (status = "retained"%string)
      && is_some_and retained_until (fun until => now <? until)).

Definition smtp_eligible (db : Database) (project_id : Uuid) (m : AdmittedEmailMethod)
    (now : OffsetDateTime) : bool :=
  if bool_decide (em_smtp_selection_kind m = "project"%string)
  then is_some_and (em_smtp_configuration_id m) (fun id =>
         is_some (find_by_id (lt_project_smtp (db_login db)) id (fun s =>
           (sc_project_id s =? project_id) && (sc_generation s =? em_smtp_generation m)
           && (sc_security_eligibility_revision s =? em_smtp_security_eligibility_revision m)
           && smtp_usable (sc_status s) (sc_retained_until s) now)))
  else if bool_decide (em_smtp_selection_kind m = "deployment_default"%string)
  then is_some (find_one (lt_deployment_smtp (db_login db)) (fun s =>
         (ds_generation s =? em_smtp_generation m)
         && (ds_security_eligibility_revision s =? em_smtp_security_eligibility_revision m)
         && smtp_usable (ds_status s) (ds_retained_until s) now))
  else false.

Definition admit_email (db : Database) (project_id application_id : Uuid)
    (m : AdmittedEmailMethod) (now : OffsetDateTime) : result ApplicationError unit :=
  validate_admitted_email m ;;?
  policy <-? ok_or (find_by_id (lt_email_policies (db_login db)) project_id
                      (fun p => bool_decide (ep_status p = "enabled"%string)))
               AppError.RevisionConflict ;;
  assignment <-? ok_or (a ← lt_email_assignments (db_login db) !! (project_id, application_id);
                        if bool_decide (ea_status a = "active"%string) then Some a else None)
                   AppError.RevisionConflict ;;
  if negb (ep_policy_revision policy =? em_policy_revision m)
     || negb (ep_security_revision policy =? em_security_revision m)
     || negb (ea_security_revision assignment =? em_assignment_security_revision m)
  then Err AppError.RevisionConflict
  else if negb (smtp_eligible db project_id m now) then Err AppError.Disabled
  else Ok tt.

(** The reads and guards of [create_login_transaction]. *)
Definition admit_login (db : Database) (c : CreateLoginTransaction) :
    result ApplicationError unit :=
  let revisions := cl_revisions c in
  project <-? ok_or (db_projects db !! cl_project_id c) AppError.NotFound ;;
  if negb (bool_decide (pj_status project = "active"%string)) then Err AppError.Disabled
  else if negb (pj_metadata_revision project =? lr_project_metadata_revision revisions)
          || negb (pj_security_revision project =? lr_project_security_revision revisions)
  then Err AppError.RevisionConflict
  else
    application <-? ok_or (find_by_id (db_applications db) (cl_application_id c)
                             (fun a => ap_project_id a =? cl_project_id c)) AppError.NotFound ;;
    if negb (bool_decide (ap_status application = "active"%string)) then Err AppError.Disabled
    else if negb (ap_security_revision application
                    =? lr_application_security_revision revisions)
    then Err AppError.RevisionConflict
    else if negb (bool_decide ((cl_project_id c, cl_application_id c, cl_redirect_uri c)
                                 ∈ lt_redirects (db_login db)))
    then Err AppError.InvalidInput
    else
      policy <-? ok_or (db_policies db !! cl_project_id c) AppError.Integrity ;;
      if negb (po_claims_revision policy =? lr_claims_revision revisions)
         || negb (po_session_revision policy =? lr_session_revision revisions)
      then Err AppError.RevisionConflict
      else
        let assignments := active_assignments db (cl_project_id c) (cl_application_id c) in
        if list_len assignments <? list_len (cl_admitted_providers c)
        then Err AppError.RevisionConflict
        else
          admit_providers db (cl_project_id c) assignments (cl_admitted_providers c) ;;?
          match cl_admitted_email c with
          | Some email =>
              admit_email db (cl_project_id c) (cl_application_id c) email (cl_created_at c)
          | None => Ok tt
          end.

Definition new_login (c : CreateLoginTransaction) : LoginTransactionRow :=
  {| lg_id := cl_id c; lg_project_id := cl_project_id c;
     lg_application_id := cl_application_id c;
     lg_interaction_digest := vd_value (cl_interaction c);
     lg_interaction_digest_key_version := vd_key_version (cl_interaction c);
     lg_status := Login.LoginTransactionStatus_as_str Login.AwaitingBrowserBinding;
     lg_transaction_revision := 1;
     lg_redirect_uri := cl_redirect_uri c;
     lg_application_pkce_challenge := cl_application_pkce_challenge c;
     lg_application_state_ciphertext := pv_ciphertext (cl_application_state c);
     lg_application_state_key_version := pv_key_version (cl_application_state c);
     lg_presentation_hint := cl_presentation_hint c;
     lg_browser_binding_digest := None; lg_browser_binding_digest_key_version := None;
     lg_csrf_digest := None; lg_csrf_digest_key_version := None;
     lg_selected_method := None; lg_provider_configuration_id := None; lg_user_id := None;
     lg_callback_url := None;
     lg_upstream_state_digest := None; lg_upstream_state_digest_key_version := None;
     lg_oidc_nonce_digest := None; lg_oidc_nonce_digest_key_version := None;
     lg_provider_pkce_ciphertext := None; lg_provider_pkce_key_version := None;
     lg_project_metadata_revision := lr_project_metadata_revision (cl_revisions c);
     lg_project_security_revision := lr_project_security_revision (cl_revisions c);
     lg_application_security_revision := lr_application_security_revision (cl_revisions c);
     lg_provider_revision := None; lg_assignment_security_revision := None;
     lg_claims_revision := lr_claims_revision (cl_revisions c);
     lg_session_revision := lr_session_revision (cl_revisions c);
     lg_authenticated_at := None; lg_expires_at := cl_expires_at c; lg_terminal_at := None;
     lg_created_at := cl_created_at c; lg_updated_at := cl_created_at c |}.

Definition provider_method_row (c : CreateLoginTransaction) (m : AdmittedProviderMethod) :
    LoginMethodRow :=
  {| lm_project_id := cl_project_id c; lm_transaction_id := cl_id c;
     lm_method_key := am_method_key m; lm_method_kind := "provider";
     lm_provider_configuration_id := Some (am_provider_id m);
     lm_display_name := am_display_name m;
     lm_provider_revision := Some (am_provider_revision m);
     lm_assignment_security_revision := Some (am_assignment_security_revision m);
     lm_provider_kind := Some (ProviderKind_as_str (am_kind m));
     lm_provider_egress_policy_revision := am_provider_egress_policy_revision m;
     lm_created_at := cl_created_at c |}.

Definition email_method_row (c : CreateLoginTransaction) : LoginMethodRow :=
  {| lm_project_id := cl_project_id c; lm_transaction_id := cl_id c; lm_method_key := "email";
     lm_method_kind := "email"; lm_provider_configuration_id := None;
     lm_display_name := "Email"; lm_provider_revision := None;
     lm_assignment_security_revision := None; lm_provider_kind := None;
     lm_provider_egress_policy_revision := None; lm_created_at := cl_created_at c |}.

Definition email_snapshot_row (c : CreateLoginTransaction) (m : AdmittedEmailMethod) :
    LoginEmailMethodRow :=
  {| le_project_id := cl_project_id c; le_transaction_id := cl_id c;
     le_application_id := cl_application_id c;
     le_method_policy_revision := em_policy_revision m;
     le_method_security_revision := em_security_revision m;
     le_assignment_security_revision := em_assignment_security_revision m;
     le_otp_enabled := em_otp_enabled m; le_magic_link_enabled := em_magic_link_enabled m;
     le_otp_digits := em_otp_digits m; le_otp_validity_seconds := em_otp_validity_seconds m;
     le_otp_max_attempts := em_otp_max_attempts m;
     le_resend_after_seconds := em_resend_after_seconds m;
     le_max_generations := em_max_generations m;
     le_magic_validity_seconds := em_magic_validity_seconds m;
     le_signup_enabled := em_signup_enabled m;
     le_transferred_magic_link_enabled := em_transferred_magic_link_enabled m;
     le_smtp_selection_kind := em_smtp_selection_kind m;
     le_smtp_configuration_id := em_smtp_configuration_id m;
     le_smtp_generation := em_smtp_generation m;
     le_smtp_security_eligibility_revision := em_smtp_security_eligibility_revision m;
     le_created_at := cl_created_at c |}.

Definition create_login_transaction (c : CreateLoginTransaction) : txn LoginTransactionRecord :=
  mlift (validate_login_command c) ;;~
  transaction (
    db <~ mget ;;
    mlift (admit_login db c) ;;~
    insert_login (new_login c) ;;~
    insert_methods (map (provider_method_row c) (cl_admitted_providers c)) ;;~
    (match cl_admitted_email c with
     | Some email =>
         insert_method (email_method_row c) ;;~
         insert_email_method (email_snapshot_row c email)
     | None => mret tt
     end) ;;~
    append_runtime_audit (cl_project_id c) "system" "auth.login.started" "login_transaction"
      (Some (cl_id c)) (cl_id c)) ;;~
  mlift (login_record (new_login c)).

(** ** Browser binding *)
Definition bind_hosted_locked (c : BindHostedBrowser) :
    txn (result ApplicationError LoginTransactionRecord) :=
  db <~ mget ;;
  model <~ mlift (ok_or (find_one (db_logins db) (fun l =>
                           bool_decide (lg_interaction_digest l = vd_value (bh_interaction c))
                           && (lg_interaction_digest_key_version l
                                 =? vd_key_version (bh_interaction c)))) AppError.NotFound) ;;
  if lg_expires_at model <=? bh_now c then
    expire_login model (bh_now c) ;;~ mret (Err AppError.InvalidTransition)
  else if negb (lg_transaction_revision model =? bh_expected_transaction_revision c)
  then mfail AppError.RevisionConflict
  else
    status <~ mlift (parse_login_status (lg_status model)) ;;
    next <~ mlift (login_verb Login.bind_browser AppError.InvalidTransition status) ;;
    let updated := login_browser_bound next c model in
    update_login updated ;;~
    append_runtime_audit (lg_project_id updated) "system" "auth.login.browser_bound"
      "login_transaction" (Some (lg_id updated)) (lg_id updated) ;;~
    mret (login_record updated).

Definition bind_hosted_browser (c : BindHostedBrowser) : txn LoginTransactionRecord :=
  mlift (validate_digest (bh_interaction c)) ;;~
  mlift (validate_digest (bh_browser_binding c)) ;;~
  mlift (validate_digest (bh_csrf c)) ;;~
  committed (bind_hosted_locked c).

(** ** Owners of a provider login *)
Definition revalidate_login_owners (db : Database) (l : LoginTransactionRow) (provider_id : Uuid)
    (method : LoginMethodRow) : result ApplicationError unit :=
  project <-? ok_or (db_projects db !! lg_project_id l) AppError.NotFound ;;
  if negb (bool_decide (pj_status project = "active"%string))
     || negb (pj_metadata_revision project =? lg_project_metadata_revision l)
     || negb (pj_security_revision project =? lg_project_security_revision l)
  then Err AppError.RevisionConflict
  else
    application <-? ok_or (find_by_id (db_applications db) (lg_application_id l)
                             (fun a => ap_project_id a =? lg_project_id l)) AppError.NotFound ;;
    if negb (bool_decide (ap_status application = "active"%string))
       || negb (ap_security_revision application =? lg_application_security_revision l)
    then Err AppError.RevisionConflict
    else
      provider <-? ok_or (find_by_id (db_providers db) provider_id
                            (fun p => pc_project_id p =? lg_project_id l)) AppError.NotFound ;;
      if negb (bool_decide (pc_status provider = "active"%string))
         || negb (bool_decide (Some (pc_revision provider) = lm_provider_revision method))
      then Err AppError.RevisionConflict
      else
        provider_kind <-? effective_provider_kind (pc_kind provider) (pc_issuer provider) ;;
        stored_kind <-? ok_or (lm_provider_kind method) AppError.Integrity ;;
        snapshot_kind <-? map_err (fun _ => AppError.Integrity)
                            (ProviderKind_parse stored_kind) ;;
        if negb (bool_decide (snapshot_kind = provider_kind)) then Err AppError.RevisionConflict
        else
          (if bool_decide (provider_kind = Oidc)
           then
             policy <-? ok_or (lt_egress_policies (db_login db) !! lg_project_id l)
                          AppError.Integrity ;;
             if negb (bool_decide (lm_provider_egress_policy_revision method
                                   = Some (eg_revision policy)))
             then Err AppError.RevisionConflict else Ok tt
           else if is_some (lm_provider_egress_policy_revision method)
           then Err AppError.Integrity else Ok tt) ;;?
          assignment <-? ok_or (db_assignments db
                                  !! (lg_project_id l, lg_application_id l, provider_id))
                           AppError.RevisionConflict ;;
          if negb (bool_decide (pa_status assignment = "active"%string))
             || negb (bool_decide (Some (pa_security_revision assignment)
                                   = lm_assignment_security_revision method))
          then Err AppError.RevisionConflict
          else
            policy <-? ok_or (db_policies db !! lg_project_id l) AppError.Integrity ;;
            if negb (po_claims_revision policy =? lg_claims_revision l)
               || negb (po_session_revision policy =? lg_session_revision l)
            then Err AppError.RevisionConflict else Ok tt.

(** ** Selecting a provider *)
Definition select_provider_locked (c : SelectProviderMethod) :
    txn (result ApplicationError LoginTransactionRecord) :=
  db <~ mget ;;
  model <~ mlift (ok_or (find_by_id (db_logins db) (sp_transaction_id c)
                           (fun l => lg_project_id l =? sp_project_id c)) AppError.NotFound) ;;
  if lg_expires_at model <=? sp_now c then
    expire_login model (sp_now c) ;;~ mret (Err AppError.InvalidTransition)
  else if negb (lg_transaction_revision model =? sp_expected_transaction_revision c)
  then mfail AppError.RevisionConflict
  else if negb (optional_digest_matches (lg_browser_binding_digest model)
                  (lg_browser_binding_digest_key_version model) (sp_browser_binding c))
          || negb (optional_digest_matches (lg_csrf_digest model)
                     (lg_csrf_digest_key_version model) (sp_csrf c))
  then mfail AppError.NotFound
  else
    status <~ mlift (parse_login_status (lg_status model)) ;;
    next <~ mlift (login_verb Login.select_provider AppError.InvalidTransition status) ;;
    method <~ mlift (ok_or (db_methods db
                              !! (sp_project_id c, sp_transaction_id c, sp_method_key c))
                       AppError.InvalidTransition) ;;
    if negb (bool_decide (lm_method_kind method = "provider"%string))
       || negb (bool_decide (lm_provider_configuration_id method = Some (sp_provider_id c)))
    then mfail AppError.InvalidTransition
    else
      mlift (revalidate_login_owners db model (sp_provider_id c) method) ;;~
      provider <~ mlift (ok_or (find_by_id (db_providers db) (sp_provider_id c)
                                  (fun p => pc_project_id p =? sp_project_id c))
                           AppError.RevisionConflict) ;;
      if negb (bool_decide (pc_callback_url provider = sp_callback_url c))
      then mfail AppError.InvalidInput
      else
        let updated := login_provider_selected next c provider method model in
        update_login updated ;;~
        insert_callback_owner
          {| co_state_id := lg_id updated; co_project_id := lg_project_id updated;
             co_provider_configuration_id := sp_provider_id c; co_owner_kind := "login";
             co_login_transaction_id := Some (lg_id updated) |} ;;~
        append_runtime_audit (lg_project_id updated) "system" "auth.login.provider_selected"
          "login_transaction" (Some (lg_id updated)) (lg_id updated) ;;~
        check_callback_owner (lg_id updated) (lg_project_id updated) ;;~
        mret (login_record updated).

Definition select_provider_method (c : SelectProviderMethod) : txn LoginTransactionRecord :=
  mlift (validate_digest (sp_browser_binding c)) ;;~
  mlift (validate_digest (sp_csrf c)) ;;~
  mlift (validate_digest (sp_upstream_state c)) ;;~
  mlift (validate_digest (sp_oidc_nonce c)) ;;~
  mlift (validate_protected (sp_provider_pkce c)) ;;~
  committed (select_provider_locked c).

(** ** The provider's callback *)
(** The unlocked reads that resolve the public callback route. *)
Definition callback_project (snapshot : Database) (project_public_id : string) :
    option ProjectRow :=
  find_one (db_projects snapshot) (fun p => bool_decide (pj_public_id p = project_public_id)).
Definition callback_provider (snapshot : Database) (project_id : Uuid) (provider_key : string) :
    option ProviderConfigurationRow :=
  find_one (db_providers snapshot) (fun p => (pc_project_id p =? project_id)
                                    && bool_decide (pc_provider_key p = provider_key)).

Definition callback_login (db : Database) (transaction_id project_id provider_id : Uuid)
    (upstream_state : VersionedDigest) : option LoginTransactionRow :=
  find_by_id (db_logins db) transaction_id (fun l =>
    (lg_project_id l =? project_id)
    && bool_decide (lg_provider_configuration_id l = Some provider_id)
    && bool_decide (lg_upstream_state_digest l = Some (vd_value upstream_state))
    && bool_decide (lg_upstream_state_digest_key_version l
                    = Some (vd_key_version upstream_state))).

Definition claim_callback_locked (c : ClaimProviderCallback) (project : ProjectRow)
    (provider : ProviderConfigurationRow) :
    txn (result ApplicationError ClaimedProviderExchange) :=
  db <~ mget ;;
  model <~ mlift (ok_or (callback_login db (cp_transaction_id c) (pj_id project) (pc_id provider)
                           (cp_upstream_state c)) AppError.NotFound) ;;
  if lg_expires_at model <=? cp_now c then
    expire_login model (cp_now c) ;;~ mret (Err AppError.InvalidTransition)
  else if negb (optional_digest_matches (lg_browser_binding_digest model)
                  (lg_browser_binding_digest_key_version model) (cp_browser_binding c))
  then mfail AppError.NotFound
  else
    oidc_nonce_key_version <~ mlift (ok_or (lg_oidc_nonce_digest_key_version model)
                                       AppError.Integrity) ;;
    provider_pkce_key_version <~ mlift (ok_or (lg_provider_pkce_key_version model)
                                          AppError.Integrity) ;;
    if negb (bool_decide (oidc_nonce_key_version ∈ cp_readable_key_versions c))
       || negb (bool_decide (provider_pkce_key_version ∈ cp_readable_key_versions c))
    then mfail AppError.Integrity
    else
      status <~ mlift (parse_login_status (lg_status model)) ;;
      next <~ mlift (login_verb Login.claim_provider_callback AppError.InvalidTransition status) ;;
      method <~ mlift (ok_or (db_methods db
                                !! (lg_project_id model, lg_id model, pc_provider_key provider))
                         AppError.Integrity) ;;
      mlift (revalidate_login_owners db model (pc_id provider) method) ;;~
      callback_url <~ mlift (ok_or (lg_callback_url model) AppError.Integrity) ;;
      nonce <~ mlift (digest_array (lg_oidc_nonce_digest model)) ;;
      ciphertext <~ mlift (ok_or (lg_provider_pkce_ciphertext model) AppError.Integrity) ;;
      let updated := login_moved next (i64_add (lg_transaction_revision model) 1) (cp_now c)
                       model in
      update_login updated ;;~
      append_runtime_audit (lg_project_id updated) "system" "auth.callback.claimed"
        "login_transaction" (Some (lg_id updated)) (lg_id updated) ;;~
      mret (record <-? login_record updated ;;
            Ok {| ce_transaction := record; ce_provider_id := pc_id provider;
                  ce_callback_url := callback_url;
                  ce_oidc_nonce := mkVersionedDigest nonce oidc_nonce_key_version;
                  ce_provider_pkce := mkProtectedValue ciphertext provider_pkce_key_version |}).

(** [project_snapshot] and [provider_snapshot] are the stores the two reads before
    the transaction see. *)
Definition claim_provider_callback (project_snapshot provider_snapshot : Database)
    (c : ClaimProviderCallback) : txn ClaimedProviderExchange :=
  mlift (validate_digest (cp_upstream_state c)) ;;~
  mlift (validate_digest (cp_browser_binding c)) ;;~
  project <~ mlift (ok_or (callback_project project_snapshot (cp_project_public_id c))
                      AppError.NotFound) ;;
  provider <~ mlift (ok_or (callback_provider provider_snapshot (pj_id project)
                              (cp_provider_key c)) AppError.NotFound) ;;
  committed (claim_callback_locked c project provider).

Definition deny_callback_locked (c : DenyProviderCallback) (project : ProjectRow)
    (provider : ProviderConfigurationRow) :
    txn (result ApplicationError LoginTransactionRecord) :=
  db <~ mget ;;
  model <~ mlift (ok_or (callback_login db (dp_transaction_id c) (pj_id project) (pc_id provider)
                           (dp_upstream_state c)) AppError.NotFound) ;;
  if lg_expires_at model <=? dp_now c then
    expire_login model (dp_now c) ;;~ mret (Err AppError.InvalidTransition)
  else if negb (optional_digest_matches (lg_browser_binding_digest model)
                  (lg_browser_binding_digest_key_version model) (dp_browser_binding c))
  then mfail AppError.NotFound
  else
    status <~ mlift (parse_login_status (lg_status model)) ;;
    if negb (bool_decide (status = Login.ProviderAuthorizationStarted))
    then mfail AppError.InvalidTransition
    else
      method <~ mlift (ok_or (db_methods db
                                !! (lg_project_id model, lg_id model, pc_provider_key provider))
                         AppError.Integrity) ;;
      mlift (revalidate_login_owners db model (pc_id provider) method) ;;~
      let updated := login_denied (dp_now c) model in
      update_login updated ;;~
      delete_login_callback_owner (lg_id model) ;;~
      append_runtime_audit (lg_project_id model) "system" (dp_safe_outcome c)
        "login_transaction" (Some (lg_id model)) (lg_id model) ;;~
      check_callback_owner (lg_id model) (lg_project_id model) ;;~
      mret (login_record updated).

Definition deny_provider_callback (project_snapshot provider_snapshot : Database)
    (c : DenyProviderCallback) : txn LoginTransactionRecord :=
  mlift (validate_digest (dp_upstream_state c)) ;;~
  mlift (validate_digest (dp_browser_binding c)) ;;~
  if is_empty (dp_safe_outcome c) || (64 <? str_len (dp_safe_outcome c))
  then mfail AppError.InvalidInput
  else
    project <~ mlift (ok_or (callback_project project_snapshot (dp_project_public_id c))
                        AppError.NotFound) ;;
    provider <~ mlift (ok_or (callback_provider provider_snapshot (pj_id project)
                                (dp_provider_key c)) AppError.NotFound) ;;
    committed (deny_callback_locked c project provider).

(** ** A failed exchange *)
Definition fail_provider_exchange (c : FailProviderExchange) : txn LoginTransactionRecord :=
  committed (
    db <~ mget ;;
    model <~ mlift (ok_or (find_by_id (db_logins db) (fp_transaction_id c)
                             (fun l => lg_project_id l =? fp_project_id c)) AppError.NotFound) ;;
    if negb (lg_transaction_revision model =? fp_expected_transaction_revision c)
    then mfail AppError.RevisionConflict
    else
      status <~ mlift (parse_login_status (lg_status model)) ;;
      next <~ mlift (login_verb Login.fail_provider_exchange AppError.InvalidInput status) ;;
      let updated := login_ended next (i64_add (fp_expected_transaction_revision c) 1)
                       (fp_now c) model in
      update_login updated ;;~
      append_runtime_audit (lg_project_id updated) "system" "auth.callback.failed"
        "login_transaction" (Some (lg_id updated)) (lg_id updated) ;;~
      mret (login_record updated)).
