(* ===== verification/Handoff.v ===== *)
(** * Handoff: session reuse and the exchange of a ticket

    Of [adapters/postgres/session_authority.rs]: [confirm_browser_session_reuse],
    which issues a handoff ticket to a browser that is already signed in;
    [prepare_handoff_exchange] and [commit_handoff_exchange], which turn a ticket
    into an application session with its first refresh token; and
    [recover_abandoned_provider_exchanges].

    A ticket is bound to the login's PKCE challenge and to the revisions of every
    owner, lives at most a minute, and is consumed by the exchange that succeeds. *)
From S2P Require Import Prelude.
From S2P Require Import Json.
From S2P Require Import LoginTables.
From S2P Require Import Lifecycle.
From S2P Require Import Webhooks.
From S2P Require Import UrlValues.
From S2P Require Import Database.
From S2P Require Import LoginStore.
From S2P Require Import Projection.
From S2P Require Import WebhookOutbox.
From S2P Require Import SessionAuthority.
From S2P Require Import BrowserLogout.
From S2P Require Import Login.

(** ** Commands and results: [application/session_authority.rs] *)
Record ConfirmBrowserSessionReuse := mkConfirmBrowserSessionReuse {
  cr_project_id : Uuid; cr_transaction_id : Uuid; cr_expected_transaction_revision : Z;
  cr_browser_binding : VersionedDigest; cr_csrf : VersionedDigest;
  cr_browser_credential : VersionedDigest; cr_handoff_id : Uuid;
  cr_handoff_ticket : VersionedDigest; cr_now : OffsetDateTime
}.

Record IssuedHandoff := mkIssuedHandoff {
  ih_project_id : Uuid; ih_application_id : Uuid; ih_user_id : Uuid;
  ih_user_public_id : string; ih_browser_session_id : Uuid; ih_handoff_id : Uuid;
  ih_redirect_uri : string; ih_application_state : ProtectedValue;
  ih_expires_at : OffsetDateTime
}.

Record PrepareHandoffExchange := mkPrepareHandoffExchange {
  ph_project_id : Uuid; ph_application_id : Uuid; ph_handoff_ticket : VersionedDigest;
  ph_application_pkce_challenge : string; ph_now : OffsetDateTime
}.

Record HandoffPreparation := mkHandoffPreparation {
  hp_ticket_id : Uuid; hp_project_public_id : string; hp_project_issuer : string;
  hp_application_public_id : string; hp_user_id : Uuid; hp_user_public_id : string;
  hp_user_revision : Z; hp_user_security_revision : Z; hp_project_security_revision : Z;
  hp_application_security_revision : Z; hp_claims_revision : Z; hp_session_revision : Z;
  hp_projection_revision : Z; hp_projection_document : json; hp_signing_ring_id : Uuid;
  hp_signing_key_id : Uuid; hp_signing_kid : string; hp_signing_public_jwk : json;
  hp_signing_material_id : Uuid; hp_signing_epoch : Z;
  hp_access_token_lifetime_seconds : Z; hp_authenticated_at : OffsetDateTime
}.

Record CommitHandoffExchange := mkCommitHandoffExchange {
  ch_project_id : Uuid; ch_application_id : Uuid; ch_handoff_ticket : VersionedDigest;
  ch_application_pkce_challenge : string; ch_preparation : HandoffPreparation;
  ch_binding_id : Uuid; ch_projection_id : Uuid; ch_application_session_id : Uuid;
  ch_refresh_family_id : Uuid; ch_refresh_generation_id : Uuid;
  ch_refresh_token : VersionedDigest; ch_allowed_clock_skew_seconds : Z;
  ch_now : OffsetDateTime
}.

Record HandoffSessionRecord := mkHandoffSessionRecord {
  hs_project_id : Uuid; hs_application_id : Uuid; hs_user_id : Uuid;
  hs_user_public_id : string; hs_binding_id : Uuid; hs_projection_revision : Z;
  hs_application_session_id : Uuid; hs_refresh_family_id : Uuid; hs_refresh_generation : Z;
  hs_absolute_expires_at : OffsetDateTime
}.

Record RecoverProviderExchanges := mkRecoverProviderExchanges {
  re_abandoned_before : OffsetDateTime; re_limit : Z; re_now : OffsetDateTime
}.

(** ** Issuing a ticket *)
Definition handoff_row (id : Uuid) (digest : VersionedDigest) (l : LoginTransactionRow)
    (user_id browser_session_id : Uuid) (provider : option Uuid) (method : string)
    (authenticated_at issued_at expires_at : OffsetDateTime) (user_security_revision : Z) :
    HandoffTicketRow :=
  {| ht_id := id; ht_project_id := lg_project_id l; ht_login_transaction_id := lg_id l;
     ht_application_id := lg_application_id l; ht_user_id := user_id;
     ht_browser_session_id := browser_session_id; ht_provider_configuration_id := provider;
     ht_ticket_digest := vd_value digest; ht_ticket_digest_key_version := vd_key_version digest;
     ht_status := "issued"; ht_redirect_uri := lg_redirect_uri l;
     ht_application_pkce_challenge := lg_application_pkce_challenge l;
     ht_authentication_method := method; ht_authenticated_at := authenticated_at;
     ht_project_security_revision := lg_project_security_revision l;
     ht_application_security_revision := lg_application_security_revision l;
     ht_user_security_revision := user_security_revision;
     ht_provider_revision := _ ← provider; lg_provider_revision l;
     ht_assignment_security_revision := _ ← provider; lg_assignment_security_revision l;
     ht_claims_revision := lg_claims_revision l;
     ht_policy_session_revision := lg_session_revision l; ht_issued_at := issued_at;
     ht_expires_at := expires_at; ht_consumed_at := None; ht_created_at := issued_at |}.

Definition insert_handoff (id : Uuid) (digest : VersionedDigest) (l : LoginTransactionRow)
    (user_id browser_session_id : Uuid) (method : string)
    (authenticated_at issued_at expires_at : OffsetDateTime) (user_security_revision : Z) :
    txn HandoffTicketRow :=
  if (expires_at <=? issued_at)
     || negb (expires_at =? Z.min (issued_at + seconds 60) (lg_expires_at l))
  then mfail AppError.Integrity
  else
    provider <~ mlift (if bool_decide (method = "provider"%string)
                       then rmap Some (ok_or (lg_provider_configuration_id l) AppError.Integrity)
                       else Ok None) ;;
    let row := handoff_row id digest l user_id browser_session_id provider method
                 authenticated_at issued_at expires_at user_security_revision in
    insert_ticket row ;;~
    mret row.

Definition lock_login_application_owners (db : Database) (l : LoginTransactionRow) :
    result ApplicationError (ProjectRow * ApplicationRow * PolicyRow) :=
  project <-? ok_or (db_projects db !! lg_project_id l) AppError.NotFound ;;
  application <-? ok_or (find_by_id (db_applications db) (lg_application_id l)
                           (fun a => ap_project_id a =? lg_project_id l)) AppError.NotFound ;;
  policy <-? ok_or (db_policies db !! lg_project_id l) AppError.Integrity ;;
  if negb (bool_decide (pj_status project = "active"%string))
     || negb (bool_decide (ap_status application = "active"%string))
     || negb (pj_metadata_revision project =? lg_project_metadata_revision l)
     || negb (pj_security_revision project =? lg_project_security_revision l)
     || negb (ap_security_revision application =? lg_application_security_revision l)
     || negb (po_claims_revision policy =? lg_claims_revision l)
     || negb (po_session_revision policy =? lg_session_revision l)
  then Err AppError.RevisionConflict
  else Ok (project, application, policy).

(** ** Reuse of a browser session *)
Definition reuse_routed_session (snapshot : Database) (credential : VersionedDigest) :
    option BrowserSessionRow :=
  find_one (db_browsers snapshot) (fun b =>
    bool_decide (bs_credential_digest b = vd_value credential)
    && (bs_credential_digest_key_version b =? vd_key_version credential)).

(** [Value::as_bool]. *)
Definition json_as_bool (v : json) : option bool :=
  match v with
  | JBool b => Some b
  | _ => None
  end.

Definition reuse_allowed (policy : PolicyRow) (session : BrowserSessionRow)
    (now : OffsetDateTime) : result ApplicationError bool :=
  let reuse_enabled :=
    default false (json_get "browser_session_reuse" (po_session_policy policy) ≫= json_as_bool) in
  max_age <-? ok_or (json_get "browser_session_reuse_max_age_seconds" (po_session_policy policy)
                       ≫= json_as_i64) AppError.Integrity ;;
  Ok (negb (negb reuse_enabled || (max_age <? 0) || (now <? bs_authenticated_at session)
            || (seconds max_age <? now - bs_authenticated_at session))).

Definition session_unfit (session : BrowserSessionRow) (credential : VersionedDigest)
    (project : ProjectRow) (user : UserRow) (policy : PolicyRow) (now : OffsetDateTime) : bool :=
  negb (digest_matches (bs_credential_digest session) (bs_credential_digest_key_version session)
          credential)
  || negb (bool_decide (bs_status session = "active"%string))
  || (bs_idle_expires_at session <=? now)
  || (bs_absolute_expires_at session <=? now)
  || negb (bool_decide (us_status user = "active"%string))
  || negb (bs_project_security_revision session =? pj_security_revision project)
  || negb (bs_user_security_revision session =? us_security_revision user)
  || negb (bs_policy_session_revision session =? po_session_revision policy).

Definition browser_touched (now : OffsetDateTime) (b : BrowserSessionRow) : BrowserSessionRow :=
  let activity_at := Z.max (bs_last_activity_at b) now in
  mkBrowserSessionRow (bs_id b) (bs_project_id b) (bs_user_id b) (bs_credential_digest b)
    (bs_credential_digest_key_version b) (bs_status b) (i64_add (bs_session_revision b) 1)
    (bs_project_security_revision b) (bs_user_security_revision b)
    (bs_policy_session_revision b) (bs_authenticated_at b) activity_at
    (Z.min (activity_at + seconds (8 * 3600)) (bs_absolute_expires_at b))
    (bs_absolute_expires_at b) (bs_terminated_at b) (bs_created_at b) now.

Definition login_reused (status : Login.LoginTransactionStatus) (revision : Z) (user_id : Uuid)
    (authenticated_at now : OffsetDateTime) (l : LoginTransactionRow) : LoginTransactionRow :=
  mkLoginTransactionRow (lg_id l) (lg_project_id l) (lg_application_id l)
    (lg_interaction_digest l) (lg_interaction_digest_key_version l)
    (Login.LoginTransactionStatus_as_str status) revision (lg_redirect_uri l)
    (lg_application_pkce_challenge l) (lg_application_state_ciphertext l)
    (lg_application_state_key_version l) (lg_presentation_hint l) (lg_browser_binding_digest l)
    (lg_browser_binding_digest_key_version l) (lg_csrf_digest l) (lg_csrf_digest_key_version l)
    (lg_selected_method l) (lg_provider_configuration_id l) (Some user_id) (lg_callback_url l)
    (lg_upstream_state_digest l) (lg_upstream_state_digest_key_version l)
    (lg_oidc_nonce_digest l) (lg_oidc_nonce_digest_key_version l)
    (lg_provider_pkce_ciphertext l) (lg_provider_pkce_key_version l)
    (lg_project_metadata_revision l) (lg_project_security_revision l)
    (lg_application_security_revision l) (lg_provider_revision l)
    (lg_assignment_security_revision l) (lg_claims_revision l) (lg_session_revision l)
    (Some authenticated_at) (lg_expires_at l) (lg_terminal_at l) (lg_created_at l) now.

Definition reuse_locked (c : ConfirmBrowserSessionReuse) (routed : BrowserSessionRow) :
    txn (result ApplicationError IssuedHandoff) :=
  db <~ mget ;;
  login <~ mlift (ok_or (find_by_id (db_logins db) (cr_transaction_id c)
                           (fun l => lg_project_id l =? cr_project_id c)) AppError.NotFound) ;;
  if lg_expires_at login <=? cr_now c then
    expire_login login (cr_now c) ;;~ mret (Err AppError.InvalidTransition)
  else if negb (lg_transaction_revision login =? cr_expected_transaction_revision c)
  then mfail AppError.RevisionConflict
  else if negb (optional_digest_matches (lg_browser_binding_digest login)
                  (lg_browser_binding_digest_key_version login) (cr_browser_binding c))
          || negb (optional_digest_matches (lg_csrf_digest login)
                     (lg_csrf_digest_key_version login) (cr_csrf c))
  then mfail AppError.NotFound
  else
    status <~ mlift (parse_login_status (lg_status login)) ;;
    next <~ mlift (login_verb Login.confirm_session_reuse AppError.InvalidInput status) ;;
    owners <~ mlift (lock_login_application_owners db login) ;;
    let '(project, application, policy) := owners in
    user <~ mlift (ok_or (find_by_id (db_users db) (bs_user_id routed)
                            (fun u => us_project_id u =? cr_project_id c)) AppError.NotFound) ;;
    session <~ mlift (ok_or (find_by_id (db_browsers db) (bs_id routed)
                               (fun b => bs_project_id b =? cr_project_id c))
                        AppError.NotFound) ;;
    if session_unfit session (cr_browser_credential c) project user policy (cr_now c)
    then mfail AppError.Disabled
    else
      allowed <~ mlift (reuse_allowed policy session (cr_now c)) ;;
      if negb allowed then mfail AppError.Disabled
      else
        update_browser (browser_touched (cr_now c) session) ;;~
        let expires_at := Z.min (cr_now c + seconds 60) (lg_expires_at login) in
        if expires_at <=? cr_now c then mfail AppError.InvalidTransition
        else
          handoff <~ insert_handoff (cr_handoff_id c) (cr_handoff_ticket c) login (us_id user)
                       (bs_id session) "session_reuse" (bs_authenticated_at session) (cr_now c)
                       expires_at (us_security_revision user) ;;
          update_login (login_reused next (i64_add (cr_expected_transaction_revision c) 1)
                          (us_id user) (bs_authenticated_at session) (cr_now c) login) ;;~
          append_runtime_audit (cr_project_id c) "project_user" "auth.login.session_reused"
            "project_user" (Some (us_id user)) (cr_transaction_id c) ;;~
          mret (Ok {| ih_project_id := cr_project_id c; ih_application_id := ap_id application;
                      ih_user_id := us_id user; ih_user_public_id := us_public_id user;
                      ih_browser_session_id := bs_id session; ih_handoff_id := ht_id handoff;
                      ih_redirect_uri := lg_redirect_uri login;
                      ih_application_state :=
                        mkProtectedValue (lg_application_state_ciphertext login)
                          (lg_application_state_key_version login);
                      ih_expires_at := expires_at |}).

Definition confirm_browser_session_reuse (snapshot : Database) (c : ConfirmBrowserSessionReuse) :
    txn IssuedHandoff :=
  mlift (validate_digest (cr_browser_binding c)) ;;~
  mlift (validate_digest (cr_csrf c)) ;;~
  mlift (validate_digest (cr_browser_credential c)) ;;~
  mlift (validate_digest (cr_handoff_ticket c)) ;;~
  routed <~ mlift (ok_or (reuse_routed_session snapshot (cr_browser_credential c))
                     AppError.NotFound) ;;
  committed (reuse_locked c routed).

(** ** Recovery of abandoned exchanges *)
Definition abandoned_before (a b : LoginTransactionRow) : Prop :=
  lg_updated_at a < lg_updated_at b
  \/ (lg_updated_at a = lg_updated_at b /\ lg_id a <= lg_id b).
#[global] Instance abandoned_before_dec : RelDecision abandoned_before.
Proof. intros a b; unfold abandoned_before; apply _. Defined.

Fixpoint recover_all (now : OffsetDateTime) (logins : list LoginTransactionRow) : txn unit :=
  match logins with
  | [] => mret tt
  | l :: rest =>
      update_login (login_ended Login.ProviderExchangeFailed
                      (i64_add (lg_transaction_revision l) 1) now l) ;;~
      append_runtime_audit (lg_project_id l) "system" "auth.provider_exchange.recovered"
        "login_transaction" (Some (lg_id l)) (lg_id l) ;;~
      recover_all now rest
  end.

(** [locked] are the rows other transactions hold, which [SKIP LOCKED] leaves out. *)
Definition recover_abandoned_provider_exchanges (locked : Uuid -> bool)
    (c : RecoverProviderExchanges) : txn Z :=
  if (re_limit c =? 0) || (1000 <? re_limit c) || (re_now c <? re_abandoned_before c)
  then mfail AppError.InvalidInput
  else
    transaction (
      db <~ mget ;;
      let abandoned :=
        find_all (db_logins db)
          (fun l => bool_decide (lg_status l = Login.LoginTransactionStatus_as_str
                                                 Login.ProviderExchangeInProgress)
                    && (lg_updated_at l <? re_abandoned_before c) && negb (locked (lg_id l)))
          abandoned_before (re_limit c) in
      recover_all (re_now c) abandoned ;;~
      mret (list_len abandoned)).

(** ** Exchange of a ticket *)
Definition find_ticket (db : Database) (project_id application_id : Uuid)
    (digest : VersionedDigest) : option HandoffTicketRow :=
  find_one (db_tickets db) (fun t =>
    (ht_project_id t =? project_id) && (ht_application_id t =? application_id)
    && bool_decide (ht_ticket_digest t = vd_value digest)
    && (ht_ticket_digest_key_version t =? vd_key_version digest)).

(** The owners a ticket names. *)
Record TicketOwners := mkTicketOwners {
  to_project : ProjectRow; to_application : ApplicationRow; to_user : UserRow;
  to_policy : PolicyRow; to_browser : BrowserSessionRow
}.

Definition ticket_owners (db : Database) (project_id application_id : Uuid)
    (ticket : HandoffTicketRow) : result ApplicationError TicketOwners :=
  project <-? ok_or (db_projects db !! project_id) AppError.NotFound ;;
  application <-? ok_or (find_by_id (db_applications db) application_id
                           (fun a => ap_project_id a =? project_id)) AppError.NotFound ;;
  user <-? ok_or (find_by_id (db_users db) (ht_user_id ticket)
                    (fun u => us_project_id u =? project_id)) AppError.NotFound ;;
  policy <-? ok_or (db_policies db !! project_id) AppError.Integrity ;;
  browser <-? ok_or (find_by_id (db_browsers db) (ht_browser_session_id ticket)
                       (fun b => (bs_project_id b =? project_id)
                                 && (bs_user_id b =? ht_user_id ticket))) AppError.Integrity ;;
  Ok (mkTicketOwners project application user policy browser).

(** The provider a ticket was issued through is still assigned as it was. *)
Definition ticket_provider (db : Database) (project_id application_id : Uuid)
    (ticket : HandoffTicketRow) : result ApplicationError unit :=
  if bool_decide (ht_authentication_method ticket = "provider"%string) then
    provider_id <-? ok_or (ht_provider_configuration_id ticket) AppError.Integrity ;;
    provider <-? ok_or (find_by_id (db_providers db) provider_id
                          (fun p => pc_project_id p =? project_id)) AppError.NotFound ;;
    assignment <-? ok_or (db_assignments db !! (project_id, application_id, provider_id))
                     AppError.NotFound ;;
    if negb (bool_decide (pc_status provider = "active"%string))
       || negb (bool_decide (Some (pc_revision provider) = ht_provider_revision ticket))
       || negb (bool_decide (pa_status assignment = "active"%string))
       || negb (bool_decide (Some (pa_security_revision assignment)
                             = ht_assignment_security_revision ticket))
    then Err AppError.RevisionConflict
    else Ok tt
  else Ok tt.

Definition user_binding (db : Database) (project_id application_id user_id : Uuid) :
    option UserBindingRow :=
  find_one (db_bindings db) (fun b => (ub_project_id b =? project_id)
                                      && (ub_application_id b =? application_id)
                                      && (ub_user_id b =? user_id)).

Definition stored_projection (db : Database) (project_id binding_id : Uuid) :
    option ProjectionRow :=
  find_one (db_projections db) (fun x => (pn_project_id x =? project_id)
                                         && (pn_binding_id x =? binding_id)).

Definition preparation_conflict (login : LoginTransactionRow) (ticket : HandoffTicketRow)
    (o : TicketOwners) (now : OffsetDateTime) : bool :=
  negb (bool_decide (lg_status login
                     = Login.LoginTransactionStatus_as_str Login.HandoffIssued))
  || negb (bool_decide (lg_user_id login = Some (ht_user_id ticket)))
  || negb (lg_application_id login =? ht_application_id ticket)
  || negb (bool_decide (pj_status (to_project o) = "active"%string))
  || negb (bool_decide (ap_status (to_application o) = "active"%string))
  || negb (bool_decide (us_status (to_user o) = "active"%string))
  || negb (bool_decide (bs_status (to_browser o) = "active"%string))
  || (bs_idle_expires_at (to_browser o) <=? now)
  || (bs_absolute_expires_at (to_browser o) <=? now)
  || negb (pj_security_revision (to_project o) =? ht_project_security_revision ticket)
  || negb (ap_security_revision (to_application o) =? ht_application_security_revision ticket)
  || negb (us_security_revision (to_user o) =? ht_user_security_revision ticket)
  || negb (po_claims_revision (to_policy o) =? ht_claims_revision ticket)
  || negb (po_session_revision (to_policy o) =? ht_policy_session_revision ticket)
  || negb (bs_project_security_revision (to_browser o) =? pj_security_revision (to_project o))
  || negb (bs_user_security_revision (to_browser o) =? us_security_revision (to_user o))
  || negb (bs_policy_session_revision (to_browser o) =? po_session_revision (to_policy o)).

Section exchange.
Context `{CanonicalHash} `{ProjectionCryptography} `{UrlLib} `{TimeFormat} `{JsonbText}.

Definition handoff_preparation (ticket : HandoffTicketRow) (o : TicketOwners)
    (material : ProjectionMaterial) (signing : SigningSnapshot) (lifetime : Z) :
    HandoffPreparation :=
  {| hp_ticket_id := ht_id ticket; hp_project_public_id := pj_public_id (to_project o);
     hp_project_issuer := ss_issuer signing;
     hp_application_public_id := ap_public_id (to_application o);
     hp_user_id := us_id (to_user o); hp_user_public_id := us_public_id (to_user o);
     hp_user_revision := us_user_revision (to_user o);
     hp_user_security_revision := us_security_revision (to_user o);
     hp_project_security_revision := pj_security_revision (to_project o);
     hp_application_security_revision := ap_security_revision (to_application o);
     hp_claims_revision := po_claims_revision (to_policy o);
     hp_session_revision := po_session_revision (to_policy o);
     hp_projection_revision := pm_revision material;
     hp_projection_document := pm_document material; hp_signing_ring_id := ss_ring_id signing;
     hp_signing_key_id := ss_key_id signing; hp_signing_kid := ss_kid signing;
     hp_signing_public_jwk := ss_public_jwk signing;
     hp_signing_material_id := ss_material_id signing; hp_signing_epoch := ss_epoch signing;
     hp_access_token_lifetime_seconds := lifetime;
     hp_authenticated_at := ht_authenticated_at ticket |}.

(** The transaction of [prepare_handoff_exchange] only reads; [nonce] is the random
    input of an encryption whose result it does not keep. *)
Definition prepare_handoff_exchange (nonce : list Z) (c : PrepareHandoffExchange)
    (db : Database) : result ApplicationError HandoffPreparation :=
  validate_digest (ph_handoff_ticket c) ;;?
  if negb (is_pkce_s256_challenge (ph_application_pkce_challenge c))
  then Err AppError.InvalidInput
  else
    ticket <-? ok_or (find_ticket db (ph_project_id c) (ph_application_id c)
                        (ph_handoff_ticket c)) AppError.NotFound ;;
    if negb (digest_matches (ht_ticket_digest ticket) (ht_ticket_digest_key_version ticket)
               (ph_handoff_ticket c))
       || negb (bool_decide (ht_application_pkce_challenge ticket
                             = ph_application_pkce_challenge c))
    then Err AppError.NotFound
    else if negb (bool_decide (ht_status ticket = "issued"%string))
            || (ht_expires_at ticket <=? ph_now c)
    then Err AppError.InvalidTransition
    else
      login <-? ok_or (find_by_id (db_logins db) (ht_login_transaction_id ticket)
                         (fun l => lg_project_id l =? ph_project_id c)) AppError.Integrity ;;
      o <-? ticket_owners db (ph_project_id c) (ph_application_id c) ticket ;;
      if preparation_conflict login ticket o (ph_now c) then Err AppError.RevisionConflict
      else
        ticket_provider db (ph_project_id c) (ph_application_id c) ticket ;;?
        let binding := user_binding db (ph_project_id c) (ph_application_id c)
                         (us_id (to_user o)) in
        if is_some_and binding (fun b => negb (bool_decide (ub_status b = "active"%string)))
        then Err AppError.Disabled
        else
          let projection := b ← binding; stored_projection db (ph_project_id c) (ub_id b) in
          if is_some binding && is_none projection then Err AppError.Integrity
          else
            material <-? authoritative_runtime_projection_material nonce db projection
                           (ap_id (to_application o)) (to_user o) ;;
            signing <-? active_signing_snapshot db (ph_project_id c) (ph_now c) ;;
            lifetime <-? access_token_lifetime (to_policy o) ;;
            Ok (handoff_preparation ticket o material signing lifetime).

(** The login of a ticket is the one it was issued for. *)
Definition commit_login_conflict (login : LoginTransactionRow) (ticket : HandoffTicketRow) :
    bool :=
  negb (bool_decide (lg_status login
                     = Login.LoginTransactionStatus_as_str Login.HandoffIssued))
  || negb (bool_decide (lg_user_id login = Some (ht_user_id ticket)))
  || negb (lg_application_id login =? ht_application_id ticket)
  || negb (bool_decide (lg_redirect_uri login = ht_redirect_uri ticket))
  || negb (bool_decide (lg_application_pkce_challenge login
                        = ht_application_pkce_challenge ticket))
  || negb (ht_expires_at ticket
             =? Z.min (ht_issued_at ticket + seconds 60) (lg_expires_at login)).

(** The owners' guard of the exchange, up to the lifetime of access tokens. *)
Definition commit_owner_conflict (c : CommitHandoffExchange) (ticket : HandoffTicketRow)
    (o : TicketOwners) : bool :=
  let p := ch_preparation c in
  negb (bool_decide (pj_status (to_project o) = "active"%string))
  || negb (bool_decide (ap_status (to_application o) = "active"%string))
  || negb (bool_decide (us_status (to_user o) = "active"%string))
  || negb (bool_decide (bs_status (to_browser o) = "active"%string))
  || (bs_idle_expires_at (to_browser o) <=? ch_now c)
  || (bs_absolute_expires_at (to_browser o) <=? ch_now c)
  || negb (pj_security_revision (to_project o) =? ht_project_security_revision ticket)
  || negb (ap_security_revision (to_application o) =? ht_application_security_revision ticket)
  || negb (us_id (to_user o) =? hp_user_id p)
  || negb (bool_decide (us_public_id (to_user o) = hp_user_public_id p))
  || negb (pj_security_revision (to_project o) =? hp_project_security_revision p)
  || negb (ap_security_revision (to_application o) =? hp_application_security_revision p)
  || negb (us_security_revision (to_user o) =? ht_user_security_revision ticket)
  || negb (us_security_revision (to_user o) =? hp_user_security_revision p)
  || negb (us_user_revision (to_user o) =? hp_user_revision p)
  || negb (po_claims_revision (to_policy o) =? ht_claims_revision ticket)
  || negb (po_claims_revision (to_policy o) =? hp_claims_revision p)
  || negb (po_session_revision (to_policy o) =? ht_policy_session_revision ticket)
  || negb (po_session_revision (to_policy o) =? hp_session_revision p)
  || negb (ht_authenticated_at ticket =? hp_authenticated_at p).

Definition commit_browser_conflict (o : TicketOwners) : bool :=
  negb (bs_project_security_revision (to_browser o) =? pj_security_revision (to_project o))
  || negb (bs_user_security_revision (to_browser o) =? us_security_revision (to_user o))
  || negb (bs_policy_session_revision (to_browser o) =? po_session_revision (to_policy o)).

Definition commit_owners (db : Database) (c : CommitHandoffExchange) (ticket : HandoffTicketRow) :
    result ApplicationError TicketOwners :=
  o <-? ticket_owners db (ch_project_id c) (ch_application_id c) ticket ;;
  if commit_owner_conflict c ticket o then Err AppError.RevisionConflict
  else
    lifetime <-? access_token_lifetime (to_policy o) ;;
    if negb (lifetime =? hp_access_token_lifetime_seconds (ch_preparation c))
       || commit_browser_conflict o
    then Err AppError.RevisionConflict
    else Ok o.

Definition new_binding (c : CommitHandoffExchange) (user : UserRow) : UserBindingRow :=
  {| ub_id := ch_binding_id c; ub_project_id := ch_project_id c;
     ub_application_id := ch_application_id c; ub_user_id := us_id user; ub_status := "active";
     ub_binding_revision := 1; ub_merged_into_binding_id := None; ub_merged_at := None;
     ub_created_at := ch_now c; ub_updated_at := ch_now c |}.

(** The binding of the user, created on the first exchange. *)
Definition bind_user (c : CommitHandoffExchange) (user : UserRow) : txn UserBindingRow :=
  db <~ mget ;;
  match user_binding db (ch_project_id c) (ch_application_id c) (us_id user) with
  | Some binding =>
      if bool_decide (ub_status binding = "active"%string) then mret binding
      else mfail AppError.Disabled
  | None =>
      if MAX_APPLICATION_BINDINGS_PER_USER
           <=? list_len (find_all (db_bindings db)
                           (fun b => (ub_project_id b =? ch_project_id c)
                                     && (ub_user_id b =? us_id user))
                           (key_le ub_id) MAX_APPLICATION_BINDINGS_PER_USER)
      then mfail AppError.InvalidTransition
      else insert_binding (new_binding c user) ;;~ mret (new_binding c user)
  end.

Definition new_projection (c : CommitHandoffExchange) (binding : UserBindingRow) (user : UserRow)
    (material : ProjectionMaterial) : ProjectionRow :=
  {| pn_id := ch_projection_id c; pn_project_id := ch_project_id c;
     pn_binding_id := ub_id binding; pn_application_id := ch_application_id c;
     pn_user_id := us_id user; pn_schema_name := "owlauth.user.v1";
     pn_projection_revision := pm_revision material;
     pn_source_user_revision := us_user_revision user;
     pn_canonical_digest := pm_digest material;
     pn_source_base_profile_digest := us_base_profile_digest user;
     pn_verified_email_source_identity_id := pm_verified_email_source_identity_id material;
     pn_verified_email_ciphertext := pm_verified_email_ciphertext material;
     pn_verified_email_key_version := pm_verified_email_key_version material;
     pn_document := pm_storage_document material;
     pn_created_at := ch_now c; pn_updated_at := ch_now c |}.

Definition exchange_event (existing : option ProjectionRow) (user : UserRow)
    (material : ProjectionMaterial) : option UserEvent.ApplicationUserEventType :=
  if is_none existing then Some UserEvent.Created
  else if pm_semantic_change material
  then Some (if bool_decide (us_status user = "disabled"%string) then UserEvent.Disabled
             else UserEvent.Updated)
  else None.

(** The projection the application is shown, with the event of its change.
    [nonces] are the random inputs of the two encryptions that may happen. *)
Definition exchange_projection (clock : OffsetDateTime) (nonces : list Z * list Z)
    (event_uuid : Uuid) (delivery_id : Uuid -> Uuid) (c : CommitHandoffExchange)
    (o : TicketOwners) (binding : UserBindingRow) : txn ProjectionRow :=
  db <~ mget ;;
  let existing := stored_projection db (ch_project_id c) (ub_id binding) in
  material <~ mlift (authoritative_runtime_projection_material nonces.1 db existing
                       (ap_id (to_application o)) (to_user o)) ;;
  if negb (pm_revision material =? hp_projection_revision (ch_preparation c))
     || negb (json_eqb (pm_document material) (hp_projection_document (ch_preparation c)))
  then mfail AppError.RevisionConflict
  else
    projection <~
      match existing with
      | Some projection =>
          repaired <~ repair_runtime_projection nonces.2 projection (ap_id (to_application o))
                        (to_user o) (ch_now c) ;;
          mret repaired.1
      | None =>
          let row := new_projection c binding (to_user o) material in
          insert_projection row ;;~ mret row
      end ;;
    (match exchange_event existing (to_user o) material with
     | Some event_type =>
         append_projection_event clock event_uuid delivery_id (pj_public_id (to_project o))
           (ap_public_id (to_application o)) (ub_id binding) projection (pm_document material)
           event_type ;;~
         mret tt
     | None => mret tt
     end) ;;~
    mret projection.

(** The session, its refresh family and the first generation. *)
Definition handoff_expiry (c : CommitHandoffExchange) : OffsetDateTime :=
  ch_now c + seconds (30 * 24 * 3600).

Definition new_session (c : CommitHandoffExchange) (ticket : HandoffTicketRow) (o : TicketOwners)
    (binding : UserBindingRow) : ApplicationSessionRow :=
  {| as_id := ch_application_session_id c; as_project_id := ch_project_id c;
     as_application_id := ch_application_id c; as_user_id := us_id (to_user o);
     as_binding_id := ub_id binding; as_browser_session_id := Some (bs_id (to_browser o));
     as_status := "active"; as_session_revision := 1;
     as_project_security_revision := pj_security_revision (to_project o);
     as_application_security_revision := ap_security_revision (to_application o);
     as_user_security_revision := us_security_revision (to_user o);
     as_claims_revision := po_claims_revision (to_policy o);
     as_policy_session_revision := po_session_revision (to_policy o);
     as_authenticated_at := ht_authenticated_at ticket;
     as_absolute_expires_at := handoff_expiry c; as_revoked_at := None;
     as_created_at := ch_now c; as_updated_at := ch_now c |}.

Definition new_family (c : CommitHandoffExchange) (user : UserRow) : RefreshFamilyRow :=
  {| rf_id := ch_refresh_family_id c; rf_project_id := ch_project_id c;
     rf_application_id := ch_application_id c; rf_user_id := us_id user;
     rf_application_session_id := ch_application_session_id c; rf_status := "active";
     rf_family_revision := 1; rf_current_generation := 1;
     rf_allowed_clock_skew_seconds := ch_allowed_clock_skew_seconds c;
     rf_absolute_expires_at := handoff_expiry c; rf_revoked_at := None;
     rf_revocation_reason := None; rf_created_at := ch_now c; rf_updated_at := ch_now c |}.

Definition new_generation (c : CommitHandoffExchange) (user : UserRow) : RefreshGenerationRow :=
  {| rg_id := ch_refresh_generation_id c; rg_project_id := ch_project_id c;
     rg_family_id := ch_refresh_family_id c; rg_application_id := ch_application_id c;
     rg_user_id := us_id user; rg_generation := 1;
     rg_token_digest := vd_value (ch_refresh_token c);
     rg_token_digest_key_version := vd_key_version (ch_refresh_token c);
     rg_status := "current"; rg_consumed_at := None; rg_replay_detected_at := None;
     rg_retain_until := handoff_expiry c + seconds (ch_allowed_clock_skew_seconds c);
     rg_created_at := ch_now c |}.

Definition ticket_with (status : string) (consumed_at : option OffsetDateTime)
    (t : HandoffTicketRow) : HandoffTicketRow :=
  mkHandoffTicketRow (ht_id t) (ht_project_id t) (ht_login_transaction_id t)
    (ht_application_id t) (ht_user_id t) (ht_browser_session_id t)
    (ht_provider_configuration_id t) (ht_ticket_digest t) (ht_ticket_digest_key_version t)
    status (ht_redirect_uri t) (ht_application_pkce_challenge t) (ht_authentication_method t)
    (ht_authenticated_at t) (ht_project_security_revision t)
    (ht_application_security_revision t) (ht_user_security_revision t) (ht_provider_revision t)
    (ht_assignment_security_revision t) (ht_claims_revision t) (ht_policy_session_revision t)
    (ht_issued_at t) (ht_expires_at t) consumed_at (ht_created_at t).

(** The session, the family and its first generation. *)
Definition open_session (c : CommitHandoffExchange) (ticket : HandoffTicketRow) (o : TicketOwners)
    (binding : UserBindingRow) : txn unit :=
  insert_session (new_session c ticket o binding) ;;~
  insert_family (new_family c (to_user o)) ;;~
  insert_generation (new_generation c (to_user o)).

Definition exchange_writes (c : CommitHandoffExchange) (ticket : HandoffTicketRow)
    (login : LoginTransactionRow) (o : TicketOwners) (binding : UserBindingRow)
    (projection : ProjectionRow) : txn HandoffSessionRecord :=
  open_session c ticket o binding ;;~
  update_ticket (ticket_with "consumed" (Some (ch_now c)) ticket) ;;~
  status <~ mlift (parse_login_status (lg_status login)) ;;
  next <~ mlift (login_verb Login.complete AppError.InvalidInput status) ;;
  update_login (login_ended next (i64_add (lg_transaction_revision login) 1) (ch_now c) login) ;;~
  append_runtime_audit (ch_project_id c) "project_user" "auth.handoff.exchanged"
    "application_session" (Some (ch_application_session_id c)) (ch_application_session_id c) ;;~
  mret {| hs_project_id := ch_project_id c; hs_application_id := ch_application_id c;
          hs_user_id := us_id (to_user o); hs_user_public_id := us_public_id (to_user o);
          hs_binding_id := ub_id binding;
          hs_projection_revision := pn_projection_revision projection;
          hs_application_session_id := ch_application_session_id c;
          hs_refresh_family_id := ch_refresh_family_id c; hs_refresh_generation := 1;
          hs_absolute_expires_at := handoff_expiry c |}.

(** The transaction from the moment the ticket is found fit. *)
Definition exchange_ticket (clock : OffsetDateTime) (nonces : list Z * list Z)
    (event_uuid : Uuid) (delivery_id : Uuid -> Uuid) (c : CommitHandoffExchange)
    (ticket : HandoffTicketRow) : txn HandoffSessionRecord :=
  db <~ mget ;;
  login <~ mlift (ok_or (find_by_id (db_logins db) (ht_login_transaction_id ticket)
                           (fun l => lg_project_id l =? ch_project_id c)) AppError.Integrity) ;;
  if commit_login_conflict login ticket then mfail AppError.Integrity
  else
    o <~ mlift (commit_owners db c ticket) ;;
    mlift (ticket_provider db (ch_project_id c) (ch_application_id c) ticket) ;;~
    lock_signing_epoch (ch_project_id c) (hp_signing_ring_id (ch_preparation c))
      (hp_signing_key_id (ch_preparation c)) (hp_signing_epoch (ch_preparation c)) (ch_now c) ;;~
    binding <~ bind_user c (to_user o) ;;
    projection <~ exchange_projection clock nonces event_uuid delivery_id c o binding ;;
    exchange_writes c ticket login o binding projection.

Definition commit_locked (clock : OffsetDateTime) (nonces : list Z * list Z)
    (event_uuid : Uuid) (delivery_id : Uuid -> Uuid) (c : CommitHandoffExchange) :
    txn (result ApplicationError HandoffSessionRecord) :=
  db <~ mget ;;
  ticket <~ mlift (ok_or (find_ticket db (ch_project_id c) (ch_application_id c)
                            (ch_handoff_ticket c)) AppError.NotFound) ;;
  if negb (digest_matches (ht_ticket_digest ticket) (ht_ticket_digest_key_version ticket)
             (ch_handoff_ticket c))
  then mfail AppError.NotFound
  else if negb (ht_id ticket =? hp_ticket_id (ch_preparation c))
          || negb (bool_decide (ht_status ticket = "issued"%string))
          || (ht_expires_at ticket <=? ch_now c)
  then
    if bool_decide (ht_status ticket = "issued"%string) && (ht_expires_at ticket <=? ch_now c)
    then
      update_ticket (ticket_with "expired" (ht_consumed_at ticket) ticket) ;;~
      append_runtime_audit (ch_project_id c) "system" "auth.handoff.expired" "handoff_ticket"
        (Some (ht_id ticket)) (ht_id ticket) ;;~
      mret (Err AppError.InvalidTransition)
    else mfail AppError.InvalidTransition
  else if negb (bool_decide (ht_application_pkce_challenge ticket
                             = ch_application_pkce_challenge c))
  then mfail AppError.NotFound
  else
    record <~ exchange_ticket clock nonces event_uuid delivery_id c ticket ;;
    mret (Ok record).

Definition commit_handoff_exchange (clock : OffsetDateTime) (nonces : list Z * list Z)
    (event_uuid : Uuid) (delivery_id : Uuid -> Uuid) (c : CommitHandoffExchange) :
    txn HandoffSessionRecord :=
  mlift (validate_digest (ch_handoff_ticket c)) ;;~
  mlift (validate_digest (ch_refresh_token c)) ;;~
  if negb (is_pkce_s256_challenge (ch_application_pkce_challenge c))
     || (hp_user_revision (ch_preparation c) <=? 0)
     || (hp_signing_epoch (ch_preparation c) <=? 0)
     || negb (in_range 0 300 (ch_allowed_clock_skew_seconds c))
  then mfail AppError.InvalidInput
  else committed (commit_locked clock nonces event_uuid delivery_id c).
End exchange.
