(* ===== verification/SessionStore.v ===== *)
(** * The session store: its invariant and its history

    [store_ok] is what the tables of the session authority satisfy between
    transactions; [evolves] relates a store to what it may become: consumed
    tokens stay consumed, and families, sessions, browser sessions and logout
    requests that ended stay ended.  Both are shown here for each single write. *)
From S2P Require Import Prelude.
From S2P Require Import UrlValues.
From S2P Require Import Json.
From S2P Require Import Database.
From S2P Require Import Projection.
From S2P Require Import SessionAuthority.

(** ** The store's invariant *)
Definition conflict_free (t : gmap Z RefreshGenerationRow) : Prop :=
  forall i j a b, i <> j -> t !! i = Some a -> t !! j = Some b ->
  refresh_generation_conflict a b = false.

Record generations_ok (db : Database) : Prop := {
  gens_ids : forall i g, db_generations db !! i = Some g -> rg_id g = i;
  gens_check : forall i g, db_generations db !! i = Some g -> refresh_generation_check g = true;
  gens_owner : forall i g, db_generations db !! i = Some g -> refresh_generation_owner db g = true;
  gens_unique : conflict_free (db_generations db)
}.

(** The generations of a family are numbered up to the current one, which is the
    only one that is not consumed. *)
Definition chain_ok (f : RefreshFamilyRow) (g : RefreshGenerationRow) : Prop :=
  rg_generation g <= rf_current_generation f
  /\ (rg_status g = "current"%string <-> rg_generation g = rf_current_generation f).

(** Rows sit under their primary keys. *)
Definition keyed {Row} (key : Row -> Z) (t : gmap Z Row) : Prop :=
  forall i row, t !! i = Some row -> key row = i.

(** Tables the operations read or update next to the refresh tables: primary
    keys, one projection per binding with the binding's application, and one
    logout request per preparation digest. *)
Record directory_ok (rings : gmap Z KeyRingRow) (keys : gmap Z SigningKeyRow)
    (browsers : gmap Z BrowserSessionRow) (bindings : gmap Z UserBindingRow)
    (projections : gmap Z ProjectionRow) (logouts : gmap Z BrowserLogoutRow) : Prop := {
  dir_rings : keyed kr_id rings;
  dir_keys : keyed sk_id keys;
  dir_browsers : keyed bs_id browsers;
  dir_projections : keyed pn_id projections;
  dir_logouts : keyed bl_id logouts;
  dir_projection_unique : forall i j x y, projections !! i = Some x -> projections !! j = Some y ->
    pn_project_id x = pn_project_id y -> pn_binding_id x = pn_binding_id y -> i = j;
  dir_projection_binding : forall i x, projections !! i = Some x ->
    exists b, bindings !! pn_binding_id x = Some b /\ ub_application_id b = pn_application_id x;
  dir_logout_unique : forall i j x y, logouts !! i = Some x -> logouts !! j = Some y ->
    bl_preparation_digest_key_version x = bl_preparation_digest_key_version y ->
    bl_preparation_digest x = bl_preparation_digest y -> i = j;
  dir_browser_check : forall i b, browsers !! i = Some b -> browser_session_check b = true;
  dir_browser_unique : forall i j a b, i <> j -> browsers !! i = Some a -> browsers !! j = Some b ->
    browser_session_conflict a b = false;
  dir_logout_check : forall i x, logouts !! i = Some x -> browser_logout_check x = true
}.

(** Tables that only other parts of the program write. *)
Record owners_ok (applications : gmap Z ApplicationRow) (users : gmap Z UserRow)
    (bindings : gmap Z UserBindingRow) (rings : gmap Z KeyRingRow) : Prop := {
  own_applications : keyed ap_id applications;
  own_users : keyed us_id users;
  own_bindings : keyed ub_id bindings;
  own_epochs : forall i r, rings !! i = Some r -> 0 < kr_signing_epoch r
}.

Record store_ok (db : Database) : Prop := {
  store_owners : owners_ok (db_applications db) (db_users db) (db_bindings db) (db_rings db);
  store_directory : directory_ok (db_rings db) (db_keys db) (db_browsers db) (db_bindings db)
    (db_projections db) (db_logouts db);
  store_generations : generations_ok db;
  store_family_ids : forall i f, db_families db !! i = Some f -> rf_id f = i;
  store_family_check : forall i f, db_families db !! i = Some f -> refresh_family_check f = true;
  store_family_width : forall i f, db_families db !! i = Some f ->
    rf_current_generation f <= i64_max /\ rf_family_revision f <= i64_max;
  store_family_session : forall i j f h, db_families db !! i = Some f ->
    db_families db !! j = Some h -> rf_project_id f = rf_project_id h ->
    rf_application_session_id f = rf_application_session_id h -> i = j;
  store_family_owner : forall i f, db_families db !! i = Some f ->
    exists s, db_sessions db !! rf_application_session_id f = Some s
              /\ as_user_id s = rf_user_id f;
  store_session_ids : forall i s, db_sessions db !! i = Some s -> as_id s = i;
  store_session_check : forall i s, db_sessions db !! i = Some s ->
    application_session_check s = true;
  store_chain : forall i g f, db_generations db !! i = Some g ->
    db_families db !! rg_family_id g = Some f -> chain_ok f g
}.

Lemma conflict_sym a b : refresh_generation_conflict a b = refresh_generation_conflict b a.
Proof.
  unfold refresh_generation_conflict; f_equal; [f_equal|]; apply bool_decide_ext; naive_solver.
Qed.

Lemma conflict_false a b :
  refresh_generation_conflict a b = false <->
  ~ (rg_token_digest_key_version a = rg_token_digest_key_version b
     /\ rg_token_digest a = rg_token_digest b)
  /\ ~ (rg_project_id a = rg_project_id b /\ rg_family_id a = rg_family_id b
        /\ rg_generation a = rg_generation b)
  /\ ~ (rg_project_id a = rg_project_id b /\ rg_family_id a = rg_family_id b
        /\ rg_status a = "current"%string /\ rg_status b = "current"%string).
Proof. unfold refresh_generation_conflict; rewrite !orb_false_iff, !bool_decide_eq_false; tauto. Qed.

Lemma accepts_true db row :
  refresh_generation_accepts db row = true <->
  refresh_generation_check row = true /\ refresh_generation_owner db row = true
  /\ (forall j b, j <> rg_id row -> db_generations db !! j = Some b ->
        refresh_generation_conflict row b = false).
Proof.
  unfold refresh_generation_accepts; rewrite !andb_true_iff, unique_in_true; tauto.
Qed.

(** Writing an accepted row keeps the table's constraints. *)
Lemma generations_put db row :
  generations_ok db -> refresh_generation_accepts db row = true ->
  generations_ok (set_db_generations (<[rg_id row := row]> (db_generations db)) db).
Proof.
  intros [Hid Hch How Hu] (Hc & Ho & Hf)%accepts_true; constructor; simpl.
  - intros i g [[<- <-]|[_ Hg]]%lookup_insert_Some; [done | eauto].
  - intros i g [[<- <-]|[_ Hg]]%lookup_insert_Some; [done | eauto].
  - intros i g [[<- <-]|[_ Hg]]%lookup_insert_Some; [done | by apply (How i)].
  - intros i j a b Hij [[<- <-]|[Hi Ha]]%lookup_insert_Some [[<- <-]|[Hj Hb]]%lookup_insert_Some.
    + done.
    + eauto.
    + rewrite conflict_sym; eauto.
    + by apply (Hu i j).
Qed.

(** Rewriting a family that keeps its owner columns keeps the foreign keys. *)
Definition same_owner (f f' : RefreshFamilyRow) : Prop :=
  rf_id f' = rf_id f /\ rf_project_id f' = rf_project_id f
  /\ rf_application_id f' = rf_application_id f /\ rf_user_id f' = rf_user_id f
  /\ rf_application_session_id f' = rf_application_session_id f.

Lemma generations_family_put db f f' :
  generations_ok db -> db_families db !! rf_id f = Some f -> same_owner f f' ->
  generations_ok (set_db_families (<[rf_id f' := f']> (db_families db)) db).
Proof.
  intros [Hid Hch How Hu] Hf (H1 & H2 & H3 & H4 & _); constructor; simpl; [done..| |done].
  intros i g Hg; pose proof (How i g Hg) as Ho; unfold refresh_generation_owner in *; simpl.
  destruct (decide (rg_family_id g = rf_id f')) as [Heq|Hne].
  - rewrite Heq, lookup_insert_eq, H2, H3, H4; by rewrite Heq, H1, Hf in Ho.
  - by rewrite lookup_insert_ne by done.
Qed.

(** ** Every operation keeps the store's invariant *)
Lemma i64_add_one x :
  0 < x <= i64_max -> 0 < i64_add x 1 -> i64_add x 1 = x + 1 /\ x + 1 <= i64_max.
Proof.
  unfold i64_add, i64_max; intros Hx Hp.
  destruct (decide (x = 2 ^ 63 - 1)) as [->|Hne]; [by vm_compute in Hp|].
  rewrite Z.mod_small by lia; lia.
Qed.

Lemma refresh_family_check_true f :
  refresh_family_check f = true ->
  0 <= rf_allowed_clock_skew_seconds f /\ 0 < rf_current_generation f /\ 0 < rf_family_revision f.
Proof. unfold refresh_family_check; intros Hc; bool_prop; lia. Qed.

Lemma status_current_consumed : "consumed"%string <> "current"%string.
Proof. done. Qed.

Lemma store_put_generation db row :
  store_ok db -> refresh_generation_accepts db row = true ->
  (forall f, db_families db !! rg_family_id row = Some f -> chain_ok f row) ->
  store_ok (set_db_generations (<[rg_id row := row]> (db_generations db)) db).
Proof.
  intros [] Ha Hc; constructor; try done; [by apply generations_put|]; simpl.
  intros i g f [[<- <-]|[_ Hg]]%lookup_insert_Some; eauto.
Qed.

(** A family rewritten in place still owns its session alone. *)
Lemma family_session_put db f f' :
  store_ok db -> db_families db !! rf_id f = Some f -> same_owner f f' ->
  forall i j a b,
    <[rf_id f' := f']> (db_families db) !! i = Some a ->
    <[rf_id f' := f']> (db_families db) !! j = Some b ->
    rf_project_id a = rf_project_id b ->
    rf_application_session_id a = rf_application_session_id b -> i = j.
Proof.
  intros Hok Hf (Hid & Hp & _ & _ & Hs) i j a b.
  assert (forall k x, <[rf_id f' := f']> (db_families db) !! k = Some x ->
            exists y, db_families db !! k = Some y /\ rf_project_id y = rf_project_id x
                      /\ rf_application_session_id y = rf_application_session_id x) as Hback.
  { intros k x [[<- <-]|[_ Hx]]%lookup_insert_Some; [|eauto]; exists f; by rewrite Hid. }
  intros (a' & Ha & Hap & Has)%Hback (b' & Hb & Hbp & Hbs)%Hback He1 He2.
  apply (store_family_session _ Hok i j a' b'); congruence.
Qed.

Lemma store_put_family db f f' :
  store_ok db -> db_families db !! rf_id f = Some f -> same_owner f f' ->
  refresh_family_check f' = true ->
  rf_current_generation f' <= i64_max /\ rf_family_revision f' <= i64_max ->
  (forall i g, db_generations db !! i = Some g -> rg_family_id g = rf_id f -> chain_ok f' g) ->
  store_ok (set_db_families (<[rf_id f' := f']> (db_families db)) db).
Proof.
  intros Hok Hf Ho Hc Hw Hch; pose proof Ho as (Hid & _ & _ & Hu & Hs).
  pose proof (family_session_put _ _ _ Hok Hf Ho); pose proof (store_family_owner _ Hok) as Hfo.
  destruct Hok.
  constructor; simpl; try done; [by eapply generations_family_put|..].
  1-3: intros i f1 [[<- <-]|[_ Hf1]]%lookup_insert_Some; eauto.
  { intros i f1 [[<- <-]|[_ Hf1]]%lookup_insert_Some; [|eauto]; rewrite Hu, Hs; eauto. }
  intros i g f1 Hg [[Hi <-]|[_ Hf1]]%lookup_insert_Some; [|eauto].
  apply (Hch i g Hg); congruence.
Qed.

Lemma store_put_session db s s' :
  store_ok db -> db_sessions db !! as_id s = Some s -> as_id s' = as_id s ->
  as_user_id s' = as_user_id s -> application_session_check s' = true ->
  store_ok (set_db_sessions (<[as_id s' := s']> (db_sessions db)) db).
Proof.
  intros [? ? [] ? ? ? ? Hfo ? ? ?] Hs Hid Hu Hc; constructor; simpl; try done;
    try (intros i s1 [[<- <-]|[_ Hs1]]%lookup_insert_Some; by eauto).
  intros i f Hf; destruct (Hfo i f Hf) as (s1 & Hs1 & Hu1).
  destruct (decide (as_id s' = rf_application_session_id f)) as [He|Hne].
  - exists s'; rewrite <- He, lookup_insert_eq; split; [done|]; congruence.
  - exists s1; by rewrite lookup_insert_ne.
Qed.

(** A write outside the refresh tables. *)
Lemma store_frame db db' :
  store_ok db ->
  db_generations db' = db_generations db -> db_families db' = db_families db ->
  db_sessions db' = db_sessions db ->
  owners_ok (db_applications db') (db_users db') (db_bindings db') (db_rings db') ->
  directory_ok (db_rings db') (db_keys db') (db_browsers db') (db_bindings db')
    (db_projections db') (db_logouts db') ->
  store_ok db'.
Proof.
  intros [? ? [Hid Hch How Hu]] Hg Hf Hs Ho Hd; constructor; rewrite ?Hg, ?Hf, ?Hs; try done.
  constructor; rewrite ?Hg; try done.
  intros i g Hi; specialize (How i g Hi); unfold refresh_generation_owner in *; by rewrite Hf.
Qed.

Lemma store_audit db events : store_ok db -> store_ok (set_db_audit events db).
Proof. intros Hok; apply (store_frame db); try done; [exact (store_owners _ Hok)|]; exact (store_directory _ Hok). Qed.

Lemma keyed_put {Row} (key : Row -> Z) (t : gmap Z Row) row :
  keyed key t -> keyed key (<[key row := row]> t).
Proof. intros Hk i r [[<- <-]|[_ Hr]]%lookup_insert_Some; [done|eauto]. Qed.

Lemma browser_conflict_sym a b : browser_session_conflict a b = browser_session_conflict b a.
Proof. unfold browser_session_conflict; apply bool_decide_ext; naive_solver. Qed.

Lemma store_put_browser db b :
  store_ok db ->
  (browser_session_check b && unique_in browser_session_conflict (bs_id b) b (db_browsers db)) = true ->
  store_ok (set_db_browsers (<[bs_id b := b]> (db_browsers db)) db).
Proof.
  intros Hok [Hc Hu]%andb_true_iff; apply (store_frame db); try done; [exact (store_owners _ Hok)|]; simpl.
  pose proof (proj1 (unique_in_true _ _ _ _) Hu) as Hno.
  destruct (store_directory _ Hok); constructor; try done; [by apply keyed_put| |].
  - intros i x [[<- <-]|[_ Hx]]%lookup_insert_Some; eauto.
  - intros i j x y Hij [[<- <-]|[Hi Hx]]%lookup_insert_Some [[<- <-]|[Hj Hy]]%lookup_insert_Some.
    + done.
    + eauto.
    + rewrite browser_conflict_sym; eauto.
    + eauto.
Qed.

Lemma store_put_logout db l :
  store_ok db -> browser_logout_accepts db l = true ->
  store_ok (set_db_logouts (<[bl_id l := l]> (db_logouts db)) db).
Proof.
  intros Hok Ha; apply (store_frame db); try done; [exact (store_owners _ Hok)|]; simpl.
  unfold browser_logout_accepts in Ha; apply andb_true_iff in Ha as [Ha Hu].
  apply andb_true_iff in Ha as [Hc _].
  assert (forall j y, j <> bl_id l -> db_logouts db !! j = Some y ->
            bl_preparation_digest_key_version l = bl_preparation_digest_key_version y ->
            bl_preparation_digest l = bl_preparation_digest y -> False) as Hno.
  { intros j y Hj Hy Hv Hd; pose proof (proj1 (unique_in_true _ _ _ _) Hu j y Hj Hy) as Hn.
    unfold browser_logout_conflict in Hn; apply bool_decide_eq_false in Hn; auto. }
  destruct (store_directory _ Hok); constructor; try done; [by apply keyed_put| |].
  - intros i j x y [[<- <-]|[Hi Hx]]%lookup_insert_Some [[<- <-]|[Hj Hy]]%lookup_insert_Some; try done.
    + intros; exfalso; eauto.
    + intros; exfalso; eauto.
    + eauto.
  - intros i x [[<- <-]|[_ Hx]]%lookup_insert_Some; eauto.
Qed.

Lemma store_put_projection `{JsonbText} db x x' :
  store_ok db -> db_projections db !! pn_id x = Some x ->
  pn_id x' = pn_id x -> pn_project_id x' = pn_project_id x -> pn_binding_id x' = pn_binding_id x ->
  pn_application_id x' = pn_application_id x ->
  store_ok (set_db_projections (<[pn_id x := x']> (db_projections db)) db).
Proof.
  intros Hok Hx Hid Hp Hb Ha; apply (store_frame db); try done; [exact (store_owners _ Hok)|]; simpl.
  assert (forall k y, <[pn_id x := x']> (db_projections db) !! k = Some y ->
            exists z, db_projections db !! k = Some z /\ pn_project_id z = pn_project_id y
                      /\ pn_binding_id z = pn_binding_id y
                      /\ pn_application_id z = pn_application_id y) as Hback.
  { intros k y [[<- <-]|[_ Hy]]%lookup_insert_Some; [|eauto]; by exists x. }
  destruct (store_directory _ Hok); constructor; try done.
  - rewrite <- Hid; by apply keyed_put.
  - intros i j a b (a' & Ha' & ? & ? & _)%Hback (b' & Hb' & ? & ? & _)%Hback ? ?.
    apply (dir_projection_unique0 i j a' b'); congruence.
  - intros i y (z & Hz & _ & Hzb & Hza)%Hback.
    destruct (dir_projection_binding0 i z Hz) as (b & ? & ?); exists b; split; congruence.
Qed.

(** A revocation keeps the numbering of its family. *)
Lemma store_revoke_family db f reason now :
  store_ok db -> db_families db !! rf_id f = Some f ->
  refresh_family_check (with_family_revoked reason now f) = true ->
  store_ok (set_db_families
    (<[rf_id f := with_family_revoked reason now f]> (db_families db)) db).
Proof.
  intros Hok Hf Hc.
  destruct (store_family_width _ Hok _ _ Hf) as [Hg Hr].
  destruct (refresh_family_check_true _ (store_family_check _ Hok _ _ Hf)) as (_ & Hg0 & Hr0).
  destruct (refresh_family_check_true _ Hc) as (_ & _ & Hp); simpl in Hp.
  destruct (i64_add_one _ (conj Hr0 Hr) Hp) as [Ha Hle].
  eapply (store_put_family db f (with_family_revoked reason now f)); try done.
  - simpl; rewrite Ha; done.
  - intros i g Hgi Hgf; apply (store_chain _ Hok i g f Hgi); by rewrite Hgf.
Qed.

(** The current generation is alone in its family. *)
Lemma only_current db i j f g h :
  store_ok db -> db_generations db !! i = Some g -> db_generations db !! j = Some h ->
  db_families db !! rg_family_id g = Some f -> rg_family_id h = rg_family_id g ->
  rg_generation g = rf_current_generation f -> rg_status h = "current"%string -> i = j.
Proof.
  intros Hok Hg Hh Hf Hfam Hcur Hst; destruct (decide (i = j)) as [|Hij]; [done|exfalso].
  assert (db_families db !! rg_family_id h = Some f) as Hf' by (by rewrite Hfam).
  destruct (store_chain _ Hok j h f Hh Hf') as [_ Hc].
  pose proof (gens_unique _ (store_generations _ Hok) i j g h Hij Hg Hh) as Hu.
  apply conflict_false in Hu as (_ & Hu & _); apply Hu.
  pose proof (gens_owner _ (store_generations _ Hok) i g Hg) as Ho1.
  pose proof (gens_owner _ (store_generations _ Hok) j h Hh) as Ho2.
  unfold refresh_generation_owner in Ho1, Ho2; rewrite Hf in Ho1; rewrite Hf' in Ho2.
  bool_prop; destruct_and!; split_and!; [congruence|done|]; rewrite Hcur; symmetry; by apply Hc.
Qed.

(** ** What later operations cannot undo *)
Definition same_token (g g' : RefreshGenerationRow) : Prop :=
  rg_token_digest g' = rg_token_digest g
  /\ rg_token_digest_key_version g' = rg_token_digest_key_version g
  /\ rg_family_id g' = rg_family_id g.

(** A session keeps whose it is and the revisions it was opened under. *)
Definition same_session (s s' : ApplicationSessionRow) : Prop :=
  as_project_id s' = as_project_id s /\ as_application_id s' = as_application_id s
  /\ as_user_id s' = as_user_id s /\ as_browser_session_id s' = as_browser_session_id s
  /\ as_user_security_revision s' = as_user_security_revision s.

Definition same_browser (b b' : BrowserSessionRow) : Prop :=
  bs_project_id b' = bs_project_id b /\ bs_user_id b' = bs_user_id b
  /\ bs_user_security_revision b' = bs_user_security_revision b.

(** A logout request keeps what it was prepared for, and once a CSRF token is
    bound to it, that token. *)
Definition same_request (l l' : BrowserLogoutRow) : Prop :=
  bl_preparation_digest l' = bl_preparation_digest l
  /\ bl_preparation_digest_key_version l' = bl_preparation_digest_key_version l
  /\ bl_browser_session_id l' = bl_browser_session_id l
  /\ bl_application_session_id l' = bl_application_session_id l
  /\ bl_expires_at l' = bl_expires_at l
  /\ (bl_csrf_digest l <> None ->
      bl_csrf_digest l' = bl_csrf_digest l
      /\ bl_csrf_digest_key_version l' = bl_csrf_digest_key_version l).

Definition request_over (l : BrowserLogoutRow) : Prop :=
  bl_status l = "consumed"%string \/ bl_status l = "expired"%string.

(** [db'] may follow [db]: tokens keep their digests, consumed generations stay
    consumed, what is inactive stays inactive, a logout request that was consumed
    or expired never changes again, and security revisions of users grow. *)
Record evolves (db db' : Database) : Prop := {
  ev_generation : forall i g, db_generations db !! i = Some g ->
    exists g', db_generations db' !! i = Some g' /\ same_token g g'
      /\ (rg_status g = "consumed"%string -> rg_status g' = "consumed"%string);
  ev_family : forall i f, db_families db !! i = Some f ->
    exists f', db_families db' !! i = Some f' /\ same_owner f f'
      /\ (rf_status f <> "active"%string -> rf_status f' <> "active"%string);
  ev_session : forall i s, db_sessions db !! i = Some s ->
    exists s', db_sessions db' !! i = Some s' /\ same_session s s'
      /\ (as_status s <> "active"%string -> as_status s' <> "active"%string);
  ev_browser : forall i b, db_browsers db !! i = Some b ->
    exists b', db_browsers db' !! i = Some b'
      /\ bs_credential_digest b' = bs_credential_digest b
      /\ bs_credential_digest_key_version b' = bs_credential_digest_key_version b
      /\ (bs_status b <> "active"%string -> bs_status b' <> "active"%string)
      /\ same_browser b b';
  ev_logout : forall i l, db_logouts db !! i = Some l ->
    exists l', db_logouts db' !! i = Some l' /\ same_request l l'
      /\ (request_over l -> l' = l);
  ev_user : forall i u, db_users db !! i = Some u ->
    exists u', db_users db' !! i = Some u' /\ us_project_id u' = us_project_id u
      /\ us_security_revision u <= us_security_revision u'
}.

#[export] Instance same_session_preorder : PreOrder same_session.
Proof.
  unfold same_session; split; [by intros s|].
  intros a b c (? & ? & ? & ? & ?) (? & ? & ? & ? & ?); split_and!; congruence.
Qed.

#[export] Instance same_browser_preorder : PreOrder same_browser.
Proof.
  unfold same_browser; split; [by intros b|].
  intros a b c (? & ? & ?) (? & ? & ?); split_and!; congruence.
Qed.

#[export] Instance same_request_preorder : PreOrder same_request.
Proof.
  unfold same_request; split; [by intros l|].
  intros a b c (? & ? & ? & ? & ? & Hab) (? & ? & ? & ? & ? & Hbc); split_and!; try congruence.
  intros Hn; destruct (Hab Hn) as [E1 E2]; rewrite E1 in Hbc; destruct (Hbc Hn); split; congruence.
Qed.

#[export] Instance evolves_preorder : PreOrder evolves.
Proof.
  split.
  - intros db; constructor; eauto 10; intros ? x ?; exists x;
      unfold same_token, same_owner; split_and!; auto; reflexivity.
  - intros a b c [g1 f1 s1 b1 l1 u1] [g2 f2 s2 b2 l2 u2]; constructor.
    + intros i g (g' & (g'' & Hg & (? & ? & ?) & ?)%g2 & (? & ? & ?) & ?)%g1.
      exists g''; unfold same_token; split_and!; auto; congruence.
    + intros i f (f' & (f'' & Hf & (? & ? & ? & ? & ?) & ?)%f2 & (? & ? & ? & ? & ?) & ?)%f1.
      exists f''; unfold same_owner; split_and!; auto; congruence.
    + intros i s (s' & (s'' & Hs & ? & ?)%s2 & ? & ?)%s1; exists s''; split_and!; [done|by etrans|auto].
    + intros i x (x' & (x'' & Hx & ? & ? & ? & ? & ? & ?)%b2 & ? & ? & ? & ? & ? & ?)%b1.
      exists x''; unfold same_browser; split_and!; auto; congruence.
    + intros i x (x' & (x'' & Hx & Hsame2 & Ho2)%l2 & Hsame1 & Ho1)%l1.
      exists x''; split_and!; [done|by etrans|].
      intros Hover; rewrite <- (Ho1 Hover); apply Ho2; by rewrite (Ho1 Hover).
    + intros i u (u' & (u'' & Hu & ? & ?)%u2 & ? & ?)%u1; exists u''; split_and!; [done|congruence|lia].
Qed.

(** Rewriting one row of one table. *)
Lemma put_lookup {Row} (R : Row -> Row -> Prop) (t : gmap Z Row) id row :
  (forall x, R x x) -> (forall x, t !! id = Some x -> R x row) ->
  forall i x, t !! i = Some x -> exists x', <[id := row]> t !! i = Some x' /\ R x x'.
Proof.
  intros Hr Hrow i x Hi; destruct (decide (id = i)) as [<-|Hne].
  - rewrite lookup_insert_eq; eauto.
  - rewrite lookup_insert_ne by done; eauto.
Qed.

Lemma evolves_put_generation db row :
  (forall g, db_generations db !! rg_id row = Some g ->
     same_token g row /\ (rg_status g = "consumed"%string -> rg_status row = "consumed"%string)) ->
  evolves db (set_db_generations (<[rg_id row := row]> (db_generations db)) db).
Proof.
  intros Hrow; destruct (evolves_preorder.(PreOrder_Reflexive) db).
  constructor; simpl; try done; by apply put_lookup.
Qed.

Lemma evolves_put_family db f f' :
  db_families db !! rf_id f = Some f -> same_owner f f' ->
  (rf_status f <> "active"%string -> rf_status f' <> "active"%string) ->
  evolves db (set_db_families (<[rf_id f := f']> (db_families db)) db).
Proof.
  intros Hl Ho Hst; destruct (evolves_preorder.(PreOrder_Reflexive) db).
  constructor; simpl; try done; apply put_lookup; [done|]; intros x Hx; simplify_eq; done.
Qed.

Lemma evolves_put_session db s s' :
  db_sessions db !! as_id s = Some s -> same_session s s' ->
  (as_status s <> "active"%string -> as_status s' <> "active"%string) ->
  evolves db (set_db_sessions (<[as_id s := s']> (db_sessions db)) db).
Proof.
  intros Hl Hs Hst; destruct (evolves_preorder.(PreOrder_Reflexive) db).
  constructor; simpl; try done; apply put_lookup; [by split|]; intros x Hx; simplify_eq; done.
Qed.

Lemma evolves_revoke_session db s now :
  db_sessions db !! as_id s = Some s ->
  evolves db (set_db_sessions (<[as_id s := with_session_revoked now s]> (db_sessions db)) db).
Proof. intros Hl; by apply evolves_put_session. Qed.

Lemma evolves_put_user db u u' :
  db_users db !! us_id u = Some u -> us_project_id u' = us_project_id u ->
  us_security_revision u <= us_security_revision u' ->
  evolves db (set_db_users (<[us_id u := u']> (db_users db)) db).
Proof.
  intros Hl Hp Hr; destruct (evolves_preorder.(PreOrder_Reflexive) db).
  constructor; simpl; try done; apply put_lookup; [by split|]; intros x Hx; simplify_eq; done.
Qed.

Lemma store_put_user db u u' :
  store_ok db -> us_id u' = us_id u ->
  store_ok (set_db_users (<[us_id u := u']> (db_users db)) db).
Proof.
  intros Hok Hid; apply (store_frame db); try done; [|exact (store_directory _ Hok)]; simpl.
  destruct (store_owners _ Hok); constructor; try done; rewrite <- Hid; by apply keyed_put.
Qed.

Lemma evolves_put_browser db b b' :
  db_browsers db !! bs_id b = Some b ->
  bs_credential_digest b' = bs_credential_digest b ->
  bs_credential_digest_key_version b' = bs_credential_digest_key_version b ->
  (bs_status b <> "active"%string -> bs_status b' <> "active"%string) -> same_browser b b' ->
  evolves db (set_db_browsers (<[bs_id b := b']> (db_browsers db)) db).
Proof.
  intros Hl Hd Hv Hst Hsame; destruct (evolves_preorder.(PreOrder_Reflexive) db).
  constructor; simpl; try done; apply put_lookup; [done|]; intros x Hx; simplify_eq; done.
Qed.

Lemma evolves_put_logout db row :
  (forall l, db_logouts db !! bl_id row = Some l -> same_request l row /\ ~ request_over l) ->
  evolves db (set_db_logouts (<[bl_id row := row]> (db_logouts db)) db).
Proof.
  intros Hrow; destruct (evolves_preorder.(PreOrder_Reflexive) db).
  constructor; simpl; try done; apply put_lookup; [done|].
  intros l Hl; destruct (Hrow l Hl); by split.
Qed.

Lemma evolves_put_projection db i x :
  evolves db (set_db_projections (<[i := x]> (db_projections db)) db).
Proof. destruct (evolves_preorder.(PreOrder_Reflexive) db); by constructor. Qed.

Lemma evolves_audit db events : evolves db (set_db_audit events db).
Proof. destruct (evolves_preorder.(PreOrder_Reflexive) db); by constructor. Qed.

(** ** Rows that are new *)
Lemma is_none_iff {A} (o : option A) : is_none o = true <-> o = None.
Proof. destruct o; done. Qed.

(** Tables the invariant does not speak of. *)
Lemma store_login db t : store_ok db -> store_ok (set_db_login t db).
Proof. intros Hok; apply (store_frame db); try done; [exact (store_owners _ Hok)|]; exact (store_directory _ Hok). Qed.
Lemma store_webhook db t : store_ok db -> store_ok (set_db_webhook t db).
Proof. intros Hok; apply (store_frame db); try done; [exact (store_owners _ Hok)|]; exact (store_directory _ Hok). Qed.
Lemma evolves_login db t : evolves db (set_db_login t db).
Proof. destruct (evolves_preorder.(PreOrder_Reflexive) db); by constructor. Qed.
Lemma evolves_webhook db t : evolves db (set_db_webhook t db).
Proof. destruct (evolves_preorder.(PreOrder_Reflexive) db); by constructor. Qed.

Lemma store_insert_binding db b :
  store_ok db -> db_bindings db !! ub_id b = None ->
  store_ok (set_db_bindings (<[ub_id b := b]> (db_bindings db)) db).
Proof.
  intros Hok Hn; apply (store_frame db); try done; simpl.
  - destruct (store_owners _ Hok); constructor; try done; by apply keyed_put.
  - destruct (store_directory _ Hok); constructor; try done.
    intros i x Hx; destruct (dir_projection_binding0 i x Hx) as (b0 & Hb0 & Ha).
    exists b0; split; [|done]; rewrite lookup_insert_ne; [done|]; congruence.
Qed.

Lemma evolves_insert_binding db i b :
  evolves db (set_db_bindings (<[i := b]> (db_bindings db)) db).
Proof. destruct (evolves_preorder.(PreOrder_Reflexive) db); by constructor. Qed.

Lemma projection_accepts_true `{JsonbText} db x :
  projection_accepts db x = true ->
  (exists b, db_bindings db !! pn_binding_id x = Some b
             /\ ub_project_id b = pn_project_id x /\ ub_application_id b = pn_application_id x
             /\ ub_user_id b = pn_user_id x)
  /\ (forall j y, j <> pn_id x -> db_projections db !! j = Some y ->
        pn_project_id x = pn_project_id y -> pn_binding_id x = pn_binding_id y -> False).
Proof.
  unfold projection_accepts, projection_owner; rewrite !andb_true_iff, unique_in_true.
  intros [[_ [Hb _]] Hu]; split.
  - destruct (db_bindings db !! pn_binding_id x) as [b|]; [|done]; simpl in Hb; bool_prop.
    exists b; naive_solver.
  - intros j y Hj Hy Hp Hbi; specialize (Hu j y Hj Hy); unfold projection_conflict in Hu.
    apply bool_decide_eq_false in Hu; auto.
Qed.

Lemma store_insert_projection `{JsonbText} db x :
  store_ok db -> projection_accepts db x = true ->
  store_ok (set_db_projections (<[pn_id x := x]> (db_projections db)) db).
Proof.
  intros Hok [(b & Hb & _ & Ha & _) Hu]%projection_accepts_true.
  apply (store_frame db); try done; [exact (store_owners _ Hok)|]; simpl.
  destruct (store_directory _ Hok); constructor; try done; [by apply keyed_put| |].
  - intros i j y z [[<- <-]|[Hi Hy]]%lookup_insert_Some [[<- <-]|[Hj Hz]]%lookup_insert_Some Hp Hbi;
      [done|exfalso; eauto|exfalso; eauto|eauto].
  - intros i y [[<- <-]|[_ Hy]]%lookup_insert_Some; eauto.
Qed.

Lemma store_insert_session db s :
  store_ok db -> db_sessions db !! as_id s = None -> application_session_check s = true ->
  store_ok (set_db_sessions (<[as_id s := s]> (db_sessions db)) db).
Proof.
  intros [? ? [] ? ? ? ? Hfo ? ? ?] Hn Hc; constructor; simpl; try done;
    try (intros i s1 [[<- <-]|[_ Hs1]]%lookup_insert_Some; by eauto).
  intros i f Hf; destruct (Hfo i f Hf) as (s1 & Hs1 & Hu1); exists s1; split; [|done].
  rewrite lookup_insert_ne; [done|]; congruence.
Qed.

Lemma evolves_insert_session db s :
  db_sessions db !! as_id s = None ->
  evolves db (set_db_sessions (<[as_id s := s]> (db_sessions db)) db).
Proof.
  intros Hn; destruct (evolves_preorder.(PreOrder_Reflexive) db).
  constructor; simpl; try done; apply put_lookup; [done|]; intros x Hx; congruence.
Qed.

(** No generation belongs to a family that does not exist. *)
Lemma no_generation_of_new_family db id i g :
  store_ok db -> db_families db !! id = None -> db_generations db !! i = Some g ->
  rg_family_id g <> id.
Proof.
  intros Hok Hn Hg Heq; pose proof (gens_owner _ (store_generations _ Hok) i g Hg) as Ho.
  unfold refresh_generation_owner in Ho; by rewrite Heq, Hn in Ho.
Qed.

Lemma store_insert_family db f :
  store_ok db -> db_families db !! rf_id f = None -> family_accepts db f = true ->
  rf_current_generation f <= i64_max -> rf_family_revision f <= i64_max ->
  store_ok (set_db_families (<[rf_id f := f]> (db_families db)) db).
Proof.
  intros Hok Hn Ha Hg Hr; unfold family_accepts in Ha.
  rewrite !andb_true_iff, unique_in_true in Ha; destruct Ha as [[Hc Ho] Hu].
  assert (forall j h, j <> rf_id f -> db_families db !! j = Some h -> rf_project_id f = rf_project_id h ->
            rf_application_session_id f = rf_application_session_id h -> False) as Hno.
  { intros j h Hj Hh Hp Hs; specialize (Hu j h Hj Hh); unfold family_conflict in Hu.
    apply bool_decide_eq_false in Hu; auto. }
  pose proof (no_generation_of_new_family db (rf_id f)) as Hgen.
  assert (generations_ok (set_db_families (<[rf_id f := f]> (db_families db)) db)) as Hgs.
  { destruct (store_generations _ Hok); constructor; simpl; try done.
    intros i g Hgi; specialize (gens_owner0 i g Hgi); unfold refresh_generation_owner in *; simpl.
    rewrite lookup_insert_ne; [done|]; intros Heq; by apply (Hgen i g Hok Hn Hgi). }
  destruct Hok as [? ? ? ? ? ? Hfs Hfo ? ? Hch]; constructor; simpl; try done.
  1-3: intros i h [[<- <-]|[_ Hh]]%lookup_insert_Some; by eauto.
  - intros i j x y [[<- <-]|[Hi Hx]]%lookup_insert_Some [[<- <-]|[Hj Hy]]%lookup_insert_Some Hp Hs;
      [done|exfalso; eauto|exfalso; eauto|eauto].
  - intros i h [[<- <-]|[_ Hh]]%lookup_insert_Some; [|eauto]; unfold family_owner in Ho.
    destruct (db_sessions db !! rf_application_session_id f) as [s|]; [|done]; simpl in Ho.
    bool_prop; exists s; naive_solver.
  - intros i g h Hgi [[Heq <-]|[_ Hh]]%lookup_insert_Some; [|eauto]; exfalso.
    apply (Hgen i g); [by constructor|done..].
Qed.

Lemma evolves_insert_family db f :
  db_families db !! rf_id f = None ->
  evolves db (set_db_families (<[rf_id f := f]> (db_families db)) db).
Proof.
  intros Hn; destruct (evolves_preorder.(PreOrder_Reflexive) db).
  constructor; simpl; try done; apply put_lookup; [done|]; intros x Hx; congruence.
Qed.
