(* ===== verification/SessionEffects.v ===== *)
(** * What the operations of the session authority do

    Every operation keeps the store's invariant and lets the store evolve. *)
From S2P Require Import Prelude.
From S2P Require Import UrlValues.
From S2P Require Import Json.
From S2P Require Import Database.
From S2P Require Import Projection.
From S2P Require Import ProjectionProofs.
From S2P Require Import SessionAuthority.
From S2P Require Import BrowserLogout.
From S2P Require Import SessionStore.

(** ** What a rotation does *)
Definition rotated_db (command : RotateRefreshToken) (f : RefreshFamilyRow)
    (g : RefreshGenerationRow) (u : UserRow) (event : AuditEventRow) (db : Database) : Database :=
  let successor := i64_add (rg_generation g) 1 in
  set_db_audit (db_audit db ++ [event])
    (set_db_families (<[rf_id f := with_next_generation successor (rt_now command) f]> (db_families db))
       (set_db_generations
          (<[rt_successor_generation_id command := successor_row command f u successor]>
             (<[rg_id g := with_consumed (rt_now command) g]> (db_generations db))) db)).

Lemma digest_matches_true stored version supplied :
  digest_matches stored version supplied = true <->
  version = vd_key_version supplied /\ stored = vd_value supplied.
Proof.
  unfold digest_matches; rewrite !andb_true_iff, Z.eqb_eq, Nat.eqb_eq, bool_decide_eq_true.
  naive_solver.
Qed.

Lemma optional_digest_matches_true stored version supplied :
  optional_digest_matches stored version supplied = true <->
  stored = Some (vd_value supplied) /\ version = Some (vd_key_version supplied).
Proof.
  unfold optional_digest_matches, is_some_and; destruct stored as [d|].
  - rewrite !andb_true_iff, Nat.eqb_eq, !bool_decide_eq_true; naive_solver.
  - rewrite andb_true_iff; naive_solver.
Qed.

Lemma lock_signing_epoch_ok p ring key epoch now db db' u :
  lock_signing_epoch p ring key epoch now db = (db', Ok u) -> db' = db.
Proof. unfold lock_signing_epoch; intros Hl; inv_txn; done. Qed.

Lemma rotation_writes_ok c s f g u db db' r :
  rotation_writes c s f g u db = (db', Ok r) ->
  let successor := i64_add (rg_generation g) 1 in
  let consumed := with_consumed (rt_now c) g in
  let db1 := set_db_generations (<[rg_id g := consumed]> (db_generations db)) db in
  refresh_generation_accepts db consumed = true
  /\ db_generations db1 !! rt_successor_generation_id c = None
  /\ refresh_generation_accepts db1 (successor_row c f u successor) = true
  /\ refresh_family_check (with_next_generation successor (rt_now c) f) = true
  /\ (exists event, db' = rotated_db c f g u event db)
  /\ r = Rotated (us_id u) (as_id s) (rf_id f) successor (rf_absolute_expires_at f).
Proof.
  intros Hw successor consumed db1; unfold rotation_writes in Hw; inv_txn.
  match goal with Hn : is_none _ = true |- _ => rename Hn into Hnone end.
  split_and!; [assumption| |assumption|assumption| |reflexivity].
  - change (is_none (db_generations db1 !! rt_successor_generation_id c) = true) in Hnone.
    by destruct (db_generations db1 !! rt_successor_generation_id c).
  - eexists; reflexivity.
Qed.

Section rotation.
Context `{CanonicalHash} `{ProjectionCryptography}.

Lemma locked_refresh_rows_ok db p a rg rf s f g :
  locked_refresh_rows db p a rg rf = Ok (s, f, g) ->
  db_sessions db !! rf_application_session_id rf = Some s
  /\ as_project_id s = p /\ as_application_id s = a
  /\ db_families db !! rf_id rf = Some f /\ rf_project_id f = p /\ rf_application_id f = a
  /\ db_generations db !! rg_id rg = Some g /\ rg_project_id g = p /\ rg_family_id g = rf_id f.
Proof.
  unfold locked_refresh_rows; intros Hl; inv_ok.
  repeat match goal with
  | Hf : find_by_id _ _ _ = Some _ |- _ => apply find_by_id_some in Hf as [? ?]
  end.
  bool_prop; naive_solver.
Qed.

(** A successful call either recorded a replay or performed a rotation whose
    guards all held. *)
Inductive rotate_outcome (c : RotateRefreshToken) (db db' : Database) (s : ApplicationSessionRow)
    (f : RefreshFamilyRow) (g : RefreshGenerationRow) : RefreshRotationResult -> Prop :=
| outcome_replay :
    rg_status g = "consumed"%string ->
    record_refresh_replay g f (rt_project_id c) (rt_now c) db = (db', Ok tt) ->
    rotate_outcome c db db' s f g (ReplayRevoked (rf_id f))
| outcome_rotated project application user policy binding r :
    rotation_state_conflict c s f g = false ->
    rotation_owners db c s = Ok (project, application, user, policy) ->
    rotation_binding db c s user = Ok binding ->
    rotation_projection db c user binding = Ok tt ->
    rotation_browser db c s project user policy = Ok tt ->
    rotation_writes c s f g user db = (db', Ok r) ->
    rotate_outcome c db db' s f g r.

Lemma rotate_ok gs fs c db db' r :
  rotate_refresh_token gs fs c db = (db', Ok r) ->
  exists rg rf s f g,
    locked_refresh_rows db (rt_project_id c) (rt_application_id c) rg rf = Ok (s, f, g)
    /\ rg_token_digest g = vd_value (rt_presented_token c)
    /\ rg_token_digest_key_version g = vd_key_version (rt_presented_token c)
    /\ rotate_outcome c db db' s f g r.
Proof.
  unfold rotate_refresh_token, rotate_locked; intros Hr; inv_txn.
  repeat match goal with u : unit |- _ => destruct u end.
  match goal with Hl : locked_refresh_rows _ _ _ ?a ?b = Ok ?p |- _ =>
    destruct p as [[s f] g]; exists a, b, s, f, g; split; [exact Hl|] end.
  inv_txn.
  match goal with Hd : negb (digest_matches _ _ _) = false |- _ =>
    apply negb_false_iff, digest_matches_true in Hd as [Hv Hd] end.
  split; [done|]; split; [done|].
  case_bool_decide as Hs; inv_txn.
  - apply outcome_replay; [done|]; by match goal with u : unit |- _ => destruct u end.
  - match goal with Ho : rotation_owners _ _ _ = Ok ?o |- _ => destruct o as [[[pj ap] u] po] end.
    inv_txn.
    repeat match goal with u : unit |- _ => destruct u end.
    match goal with Hl : lock_signing_epoch _ _ _ _ _ _ = _ |- _ =>
      apply lock_signing_epoch_ok in Hl; subst end.
    eapply outcome_rotated; eauto.
Qed.
End rotation.

Lemma store_rotated c db f g u event i :
  store_ok db ->
  db_families db !! rf_id f = Some f -> db_generations db !! i = Some g ->
  rg_family_id g = rf_id f -> rg_generation g = rf_current_generation f ->
  let successor := i64_add (rg_generation g) 1 in
  let consumed := with_consumed (rt_now c) g in
  let db1 := set_db_generations (<[rg_id g := consumed]> (db_generations db)) db in
  refresh_generation_accepts db consumed = true ->
  refresh_generation_accepts db1 (successor_row c f u successor) = true ->
  refresh_family_check (with_next_generation successor (rt_now c) f) = true ->
  store_ok (rotated_db c f g u event db).
Proof.
  intros Hok Hf Hg Hfam Hcur successor consumed db1 Ha1 Ha2 Hc.
  pose proof (gens_ids _ (store_generations _ Hok) _ _ Hg) as Hid.
  destruct (store_family_width _ Hok _ _ Hf) as [Hw1 Hw2].
  destruct (refresh_family_check_true _ (store_family_check _ Hok _ _ Hf)) as (_ & Hp1 & Hp2).
  destruct (refresh_family_check_true _ Hc) as (_ & Hs1 & Hs2); simpl in Hs1, Hs2.
  assert (successor = rf_current_generation f + 1 /\ rf_current_generation f + 1 <= i64_max)
    as [Hsucc Hsle] by (unfold successor in *; rewrite Hcur in *; by apply i64_add_one).
  destruct (i64_add_one _ (conj Hp2 Hw2) Hs2) as [Hr Hrle].
  assert (generations_ok db1) as Hg1 by exact (generations_put db consumed (store_generations _ Hok) Ha1).
  pose proof (generations_put _ _ Hg1 Ha2) as Hg2.
  pose proof (family_session_put db f (with_next_generation successor (rt_now c) f) Hok Hf
                ltac:(done)) as Hfsess.
  pose proof (store_chain _ Hok) as Hchain; pose proof Hok as Hok'; destruct Hok'.
  apply store_audit; constructor; simpl; try done.
  - apply (generations_family_put _ f (with_next_generation successor (rt_now c) f)) in Hg2; done.
  - intros k f1 [[<- <-]|[_ Hf1]]%lookup_insert_Some; eauto.
  - intros k f1 [[<- <-]|[_ Hf1]]%lookup_insert_Some; eauto.
  - intros k f1 [[<- <-]|[_ Hf1]]%lookup_insert_Some; [simpl; lia|eauto].
  - intros k f1 [[<- <-]|[_ Hf1]]%lookup_insert_Some; simpl; eauto.
  - intros k h f1 Hh Hf1; apply lookup_insert_Some in Hh as [[<- <-]|[Hk Hh]].
    { simpl in Hf1; rewrite lookup_insert_eq in Hf1; injection Hf1 as <-.
      unfold chain_ok; simpl; split; [lia|done]. }
    apply lookup_insert_Some in Hf1 as [[Hfe <-]|[Hfn Hf1]].
    + apply lookup_insert_Some in Hh as [[<- <-]|[Hkg Hh]]; unfold chain_ok; simpl.
      { split; [lia|]; split; [done|lia]. }
      assert (db_families db !! rg_family_id h = Some f) as Hfh by (by rewrite <- Hfe).
      destruct (Hchain k h f Hh Hfh) as [Hle Hiff].
      split; [lia|]; split; [|lia]; intros Hst; exfalso; apply Hkg; rewrite Hid.
      apply (only_current db i k f g h Hok Hg Hh); [by rewrite Hfam|congruence|done..].
    + apply lookup_insert_Some in Hh as [[<- <-]|[Hkg Hh]]; [|eauto].
      simpl in Hfn; by rewrite Hfam in Hfn.
Qed.

(** ** Replay and logout revoke what is active *)
Lemma revoke_family_effects f reason now db db' :
  store_ok db -> db_families db !! rf_id f = Some f ->
  (if bool_decide (rf_status f = "active"%string)
   then update_family (with_family_revoked reason now f) else mret tt) db = (db', Ok tt) ->
  store_ok db' /\ evolves db db' /\ db_sessions db' = db_sessions db
  /\ exists f', db_families db' !! rf_id f = Some f' /\ same_owner f f'
                /\ rf_status f' <> "active"%string.
Proof.
  intros Hok Hf; case_bool_decide as Hst; intros Hu; inv_txn.
  - split_and!; [by apply (store_revoke_family _ f)| |done|].
    + by apply (evolves_put_family _ f (with_family_revoked reason now f)).
    + eexists; simpl; by rewrite lookup_insert_eq.
  - split_and!; [done..|]; exists f; by unfold same_owner.
Qed.

Lemma revoke_session_effects s now db db' :
  store_ok db -> db_sessions db !! as_id s = Some s ->
  (if bool_decide (as_status s = "active"%string)
   then update_session (with_session_revoked now s) else mret tt) db = (db', Ok tt) ->
  store_ok db' /\ evolves db db' /\ db_families db' = db_families db
  /\ exists s', db_sessions db' !! as_id s = Some s' /\ as_status s' <> "active"%string.
Proof.
  intros Hok Hs; case_bool_decide as Hst; intros Hu; inv_txn.
  - split_and!; [by apply (store_put_session db s (with_session_revoked now s))
                |exact (evolves_revoke_session db s now Hs)|done|].
    eexists; simpl; by rewrite lookup_insert_eq.
  - by split_and!; eauto.
Qed.

Lemma record_replay_effects g now db db' i :
  store_ok db -> db_generations db !! i = Some g ->
  (if is_none (rg_replay_detected_at g) then update_generation (with_replay now g) else mret tt) db
  = (db', Ok tt) ->
  store_ok db' /\ evolves db db' /\ db_families db' = db_families db.
Proof.
  intros Hok Hg; pose proof (gens_ids _ (store_generations _ Hok) _ _ Hg) as Hid.
  destruct (is_none _); intros Hu; inv_txn; [|by split_and!].
  split_and!; [|apply (evolves_put_generation db (with_replay now g))|done].
  - apply (store_put_generation db (with_replay now g)); [done..|].
    intros f Hf; by apply (store_chain _ Hok i g f).
  - simpl; rewrite Hid; intros g1 Hg1; assert (g1 = g) as -> by congruence; done.
Qed.

Lemma replay_effects g f p now db db' i :
  store_ok db -> db_generations db !! i = Some g -> db_families db !! rf_id f = Some f ->
  record_refresh_replay g f p now db = (db', Ok tt) ->
  store_ok db' /\ evolves db db'
  /\ exists f', db_families db' !! rf_id f = Some f' /\ rf_status f' <> "active"%string.
Proof.
  intros Hok Hg Hf Hr; apply mseq_ok in Hr as (d1 & [] & H1 & Hr).
  apply mseq_ok in Hr as (d2 & [] & H2 & H3).
  destruct (record_replay_effects _ _ _ _ _ Hok Hg H1) as (Hok1 & Hev1 & Hfs).
  rewrite <- Hfs in Hf.
  destruct (revoke_family_effects _ _ _ _ _ Hok1 Hf H2) as (Hok2 & Hev2 & _ & f' & Hf' & _ & Hst).
  inv_txn; split_and!; [by apply store_audit| |by exists f'].
  etrans; [done|]; etrans; [done|apply evolves_audit].
Qed.

Lemma rotated_evolves c f g u event db :
  db_generations db !! rg_id g = Some g -> db_families db !! rf_id f = Some f ->
  db_generations (set_db_generations
    (<[rg_id g := with_consumed (rt_now c) g]> (db_generations db)) db)
    !! rt_successor_generation_id c = None ->
  evolves db (rotated_db c f g u event db).
Proof.
  intros Hg Hf Hn; unfold rotated_db; etrans; [|apply evolves_audit].
  etrans; [apply (evolves_put_generation db (with_consumed (rt_now c) g))|].
  { simpl; intros g1 Hg1; assert (g1 = g) as -> by congruence; done. }
  etrans; [apply (evolves_put_generation _ (successor_row c f u (i64_add (rg_generation g) 1)))|].
  { simpl in *; intros g1 Hg1; congruence. }
  match goal with |- evolves ?d _ =>
    exact (evolves_put_family d f (with_next_generation (i64_add (rg_generation g) 1) (rt_now c) f)
             Hf ltac:(done) ltac:(done)) end.
Qed.

(** ** Preparation of a refresh *)
Section preparation.
Context `{CanonicalHash} `{ProjectionCryptography} `{UrlLib} `{TimeFormat} `{JsonbText}.

Lemma repair_keeps nonce x app u now db db' r :
  store_ok db -> db_projections db !! pn_id x = Some x ->
  repair_runtime_projection nonce x app u now db = (db', Ok r) -> store_ok db' /\ evolves db db'.
Proof.
  intros Hok Hx Hr; destruct r as [row m]; apply repair_ok in Hr as [_ Hr].
  destruct (pm_storage_repair_required m); [|by destruct Hr as [_ ->]].
  destruct Hr as (-> & _ & ->); split; [by eapply store_put_projection|apply evolves_put_projection].
Qed.

(** A successful preparation recorded a replay, or every guard held. *)
Inductive prepare_outcome (nonce : list Z) (c : PrepareRefreshRotation) (db db' : Database)
    (s : ApplicationSessionRow) (f : RefreshFamilyRow) (g : RefreshGenerationRow) :
    Prep.RefreshPreparationResult -> Prop :=
| prepared_replay :
    rg_status g = "consumed"%string ->
    record_refresh_replay g f (pr_project_id c) (pr_now c) db = (db', Ok tt) ->
    prepare_outcome nonce c db db' s f g (Prep.ReplayRevoked (rf_id f))
| prepared_ready project application user policy binding x row m signing lifetime :
    preparation_state_conflict (pr_now c) s f g = false ->
    preparation_owners db (pr_project_id c) (pr_application_id c) s
      = Ok (project, application, user, policy) ->
    session_browser db (pr_project_id c) (pr_now c) s project user policy = Ok tt ->
    preparation_binding db (pr_project_id c) (pr_application_id c) s user = Ok binding ->
    binding_projection db (pr_project_id c) (ub_id binding) = Ok x ->
    repair_runtime_projection nonce x (ap_id application) user (pr_now c) db
      = (db', Ok (row, m)) ->
    active_signing_snapshot db' (pr_project_id c) (pr_now c) = Ok signing ->
    access_token_lifetime policy = Ok lifetime ->
    prepare_outcome nonce c db db' s f g
      (Prep.Ready (refresh_preparation s f g project application user policy binding m signing
                     lifetime)).

Lemma prepare_ok nonce gs fs c db db' r :
  prepare_refresh_rotation nonce gs fs c db = (db', Ok r) ->
  exists rg rf s f g,
    routed_family fs (pr_project_id c) (rg_family_id rg) = Some rf
    /\ locked_refresh_rows db (pr_project_id c) (pr_application_id c) rg rf = Ok (s, f, g)
    /\ rg_token_digest g = vd_value (pr_presented_token c)
    /\ rg_token_digest_key_version g = vd_key_version (pr_presented_token c)
    /\ prepare_outcome nonce c db db' s f g r.
Proof.
  unfold prepare_refresh_rotation, prepare_locked; intros Hr; inv_txn.
  repeat match goal with u : unit |- _ => destruct u end.
  match goal with Hl : locked_refresh_rows _ _ _ ?a ?b = Ok ?p, Hf : ok_or (routed_family _ _ _) _ = _ |- _ =>
    destruct p as [[s f] g]; exists a, b, s, f, g; apply ok_or_ok in Hf;
    split; [exact Hf|]; split; [exact Hl|] end.
  inv_txn.
  match goal with Hd : negb (digest_matches _ _ _) = false |- _ =>
    apply negb_false_iff, digest_matches_true in Hd as [Hv Hd] end.
  split; [done|]; split; [done|].
  case_bool_decide as Hs; inv_txn.
  - apply prepared_replay; [done|]; by match goal with u : unit |- _ => destruct u end.
  - match goal with Ho : preparation_owners _ _ _ _ = Ok ?o |- _ =>
      destruct o as [[[pj ap] u] po] end.
    inv_txn; repeat match goal with u : unit |- _ => destruct u end.
    match goal with Hp : repair_runtime_projection _ _ _ _ _ _ = (_, Ok ?p) |- _ =>
      destruct p as [row m] end.
    eapply prepared_ready; eauto.
Qed.

Lemma prepare_err nonce gs fs c db db' e :
  prepare_refresh_rotation nonce gs fs c db = (db', Err e) -> db' = db.
Proof.
  unfold prepare_refresh_rotation, mseq, mlift.
  destruct (validate_digest _); [|naive_solver].
  destruct (ok_or (routed_generation _ _ _ _) _); [|naive_solver].
  destruct (ok_or (routed_family _ _ _) _); [|naive_solver]; apply transaction_err.
Qed.

(** The rows a successful preparation works on. *)
Lemma prepare_rows nonce gs fs c db db' r :
  store_ok db -> prepare_refresh_rotation nonce gs fs c db = (db', Ok r) ->
  exists s f g,
    db_sessions db !! as_id s = Some s /\ db_families db !! rf_id f = Some f
    /\ db_generations db !! rg_id g = Some g /\ rg_family_id g = rf_id f
    /\ rg_token_digest g = vd_value (pr_presented_token c)
    /\ rg_token_digest_key_version g = vd_key_version (pr_presented_token c)
    /\ prepare_outcome nonce c db db' s f g r.
Proof.
  intros Hok (rg & rf & s & f & g & _ & Hl & Hd & Hv & Ho)%prepare_ok.
  apply locked_refresh_rows_ok in Hl as (Hs & _ & _ & Hf & _ & _ & Hg & _ & Hfam).
  pose proof (store_session_ids _ Hok _ _ Hs) as Hsi.
  pose proof (store_family_ids _ Hok _ _ Hf) as Hfi.
  pose proof (gens_ids _ (store_generations _ Hok) _ _ Hg) as Hgi.
  exists s, f, g; rewrite Hsi, Hfi, Hgi; split_and!; try done; congruence.
Qed.

Lemma binding_projection_ok db p b x :
  store_ok db -> binding_projection db p b = Ok x ->
  db_projections db !! pn_id x = Some x /\ pn_project_id x = p /\ pn_binding_id x = b.
Proof.
  intros Hok Hb; apply ok_or_ok, find_one_some in Hb as (i & Hi & Hp); bool_prop.
  by rewrite (dir_projections _ _ _ _ _ _ (store_directory _ Hok) _ _ Hi).
Qed.

Lemma prepare_keeps nonce gs fs c db db' r :
  store_ok db -> prepare_refresh_rotation nonce gs fs c db = (db', r) ->
  store_ok db' /\ evolves db db'.
Proof.
  intros Hok Hr; destruct r as [r|e]; [|by apply prepare_err in Hr; subst].
  destruct (prepare_rows _ _ _ _ _ _ _ Hok Hr) as (s & f & g & Hs & Hf & Hg & Hfam & _ & _ & Ho).
  destruct Ho as [Hst Hrep|? ? ? ? ? x row m ? ? _ _ _ _ Hx Hp _ _].
  - by destruct (replay_effects _ _ _ _ _ _ _ Hok Hg Hf Hrep) as (? & ? & _).
  - apply (binding_projection_ok _ _ _ _ Hok) in Hx as [Hx _]; by eapply repair_keeps.
Qed.
End preparation.

(** ** Browser logout *)
Lemma locked_logout_ok db id preparation i :
  store_ok db -> locked_logout db id preparation = Some i ->
  bl_id i = id /\ db_logouts db !! bl_id i = Some i
  /\ bl_preparation_digest i = vd_value preparation
  /\ bl_preparation_digest_key_version i = vd_key_version preparation.
Proof.
  intros Hok Hl; apply find_by_id_some in Hl as [Hi Hp]; bool_prop.
  pose proof (dir_logouts _ _ _ _ _ _ (store_directory _ Hok) _ _ Hi) as Hid.
  rewrite Hid; naive_solver.
Qed.

(** No CSRF token is bound to a prepared request. *)
Lemma prepared_unbound db id i :
  store_ok db -> db_logouts db !! id = Some i -> bl_status i = "prepared"%string ->
  bl_csrf_digest i = None.
Proof.
  intros Hok Hi Hst; pose proof (dir_logout_check _ _ _ _ _ _ (store_directory _ Hok) _ _ Hi) as Hc.
  unfold browser_logout_check in Hc; rewrite Hst in Hc; bool_prop; destruct_and!.
  match goal with Hd : _ \/ _ |- _ => destruct Hd as [Hd|Hd]; destruct_and! end.
  - done.
  - set_solver.
Qed.

(** An update of a request that is not over, which keeps what it stands for. *)
Lemma update_logout_keeps db db' i i' :
  store_ok db -> db_logouts db !! bl_id i = Some i -> bl_id i' = bl_id i -> same_request i i' ->
  ~ request_over i -> update_logout i' db = (db', Ok tt) -> store_ok db' /\ evolves db db'.
Proof.
  intros Hok Hi Hid Hs Ho Hu; apply update_logout_ok in Hu as (_ & Ha & ->).
  split; [by apply store_put_logout|]; apply evolves_put_logout; rewrite Hid; naive_solver.
Qed.

Lemma expire_keeps i now db db' b :
  store_ok db -> db_logouts db !! bl_id i = Some i ->
  expire_browser_logout i now db = (db', Ok b) -> store_ok db' /\ evolves db db'.
Proof.
  intros Hok Hi; unfold expire_browser_logout; destruct (negb _) eqn:Hst; intros He.
  { unfold mret in He; by injection He as <- <-. }
  apply mseq_ok in He as (d & [] & Hu & He).
  destruct (update_logout_keeps db d i (logout_expired now i)) as [Hok' Hev]; try done.
  { intros [Ho|Ho]; by rewrite Ho in Hst. }
  clear Hu; inv_txn; split; [by apply store_audit|]; etrans; [done|apply evolves_audit].
Qed.

Lemma prepare_logout_keeps c db db' r :
  store_ok db -> prepare_browser_logout c db = (db', r) -> store_ok db' /\ evolves db db'.
Proof.
  intros Hok; unfold prepare_browser_logout, mseq at 1, mlift at 1.
  destruct (validate_digest _); [|by intros [= <- <-]]; intros Hr; destruct r as [r|e].
  2: { by apply transaction_err in Hr as ->. }
  inv_txn; cbv zeta in *; inv_txn.
  match goal with Hn : is_none _ = true |- _ => rename Hn into Hnone end.
  split; [by apply store_audit, store_put_logout|]; etrans; [|apply evolves_audit].
  apply evolves_put_logout; intros l Hl; by rewrite Hl in Hnone.
Qed.

Lemma bind_locked_keeps c id db db' r :
  store_ok db -> bind_locked c id db = (db', Ok r) -> store_ok db' /\ evolves db db'.
Proof.
  intros Hok; unfold bind_locked; intros Hb.
  apply mseq_ok in Hb as (d & a & Hget & Hb); unfold mget in Hget; injection Hget as <- <-.
  apply mseq_ok in Hb as (d & i & Hi & Hb); apply mlift_ok in Hi as [Hi ->].
  apply ok_or_ok in Hi; apply (locked_logout_ok _ _ _ _ Hok) in Hi as (Hid & Hi & _).
  destruct (_ <=? _).
  { apply mseq_ok in Hb as (d & b & He & Hb); inv_txn; by eapply expire_keeps. }
  apply if_mfail_ok in Hb as [Hg Hb]; bool_prop; destruct Hg as [Hst _].
  apply mseq_ok in Hb as (d & b & Hl & Hb); apply mlift_ok in Hl as [_ ->]; cbv zeta in Hb.
  apply mseq_ok in Hb as (d & [] & Hu & Hb).
  destruct (update_logout_keeps db d i (logout_bound (bb_csrf c) (bb_now c) i)) as [Hok' Hev]; try done.
  { unfold same_request; simpl; split_and!; try done; intros Hn; exfalso; apply Hn.
    by apply (prepared_unbound db (bl_id i)). }
  { intros [Ho|Ho]; by rewrite Ho in Hst. }
  clear Hu; inv_txn; split; [by apply store_audit|]; etrans; [done|apply evolves_audit].
Qed.

Lemma logout_browser_ok db i credential now b :
  store_ok db -> logout_browser db i credential now = Ok b ->
  bs_id b = bl_browser_session_id i /\ db_browsers db !! bs_id b = Some b
  /\ bs_credential_digest b = vd_value credential
  /\ bs_credential_digest_key_version b = vd_key_version credential
  /\ bs_status b = "active"%string /\ bs_session_revision b = bl_browser_session_revision i
  /\ now < bs_idle_expires_at b.
Proof.
  intros Hok Hl; unfold logout_browser in Hl; inv_ok.
  match goal with Hf : find_by_id _ _ _ = Some _ |- _ => apply find_by_id_some in Hf as [Hb _] end.
  pose proof (dir_browsers _ _ _ _ _ _ (store_directory _ Hok) _ _ Hb) as Hid.
  unfold browser_unfit in *; bool_prop; destruct_and!.
  match goal with Hd : digest_matches _ _ _ = true |- _ => apply digest_matches_true in Hd as [? ?] end.
  rewrite Hid; split_and!; congruence || lia || done.
Qed.

Lemma confirm_locked_keeps c id db db' r :
  store_ok db -> confirm_locked c id db = (db', Ok r) -> store_ok db' /\ evolves db db'.
Proof.
  intros Hok; unfold confirm_locked; intros Hb.
  apply mseq_ok in Hb as (d & a & Hget & Hb); unfold mget in Hget; injection Hget as <- <-.
  apply mseq_ok in Hb as (d & i & Hi & Hb); apply mlift_ok in Hi as [Hi ->].
  apply ok_or_ok in Hi; apply (locked_logout_ok _ _ _ _ Hok) in Hi as (Hid & Hi & _).
  destruct (_ <=? _).
  { apply mseq_ok in Hb as (d & b & He & Hb); inv_txn; by eapply expire_keeps. }
  apply if_mfail_ok in Hb as [Hg Hb]; bool_prop; destruct Hg as [[Hst _] _].
  apply mseq_ok in Hb as (d & b & Hl & Hb); apply mlift_ok in Hl as [Hl ->].
  apply (logout_browser_ok _ _ _ _ _ Hok) in Hl as (_ & Hbr & _).
  apply mseq_ok in Hb as (d & [] & Hub & Hb); apply update_browser_ok in Hub as (_ & Hacc & ->).
  cbv zeta in Hb; apply mseq_ok in Hb as (d & [] & Hu & Hb).
  assert (store_ok (set_db_browsers
            (<[bs_id b := browser_terminated (cb_now c) b]> (db_browsers db)) db)) as Hok1
    by exact (store_put_browser db (browser_terminated (cb_now c) b) Hok Hacc).
  assert (evolves db (set_db_browsers
            (<[bs_id b := browser_terminated (cb_now c) b]> (db_browsers db)) db)) as Hev1
    by (by apply evolves_put_browser).
  destruct (update_logout_keeps _ d i (logout_consumed (cb_now c) i) Hok1) as [Hok' Hev]; try done.
  { intros [Ho|Ho]; by rewrite Ho in Hst. }
  clear Hu; inv_txn; split; [by apply store_audit|].
  etrans; [exact Hev1|]; etrans; [done|apply evolves_audit].
Qed.

Lemma bind_logout_keeps snapshot c db db' r :
  store_ok db -> bind_browser_logout snapshot c db = (db', r) -> store_ok db' /\ evolves db db'.
Proof.
  intros Hok; unfold bind_browser_logout, mseq, mlift.
  do 3 (destruct (validate_digest _); [|by intros [= <- <-]]).
  destruct (ok_or _ _); [|by intros [= <- <-]].
  intros [-> | Hb]%committed_effect; [done|by eapply bind_locked_keeps].
Qed.

Lemma confirm_logout_keeps snapshot c db db' r :
  store_ok db -> confirm_browser_logout snapshot c db = (db', r) ->
  store_ok db' /\ evolves db db'.
Proof.
  intros Hok; unfold confirm_browser_logout, mseq, mlift.
  do 3 (destruct (validate_digest _); [|by intros [= <- <-]]).
  destruct (ok_or _ _); [|by intros [= <- <-]].
  intros [-> | Hb]%committed_effect; [done|by eapply confirm_locked_keeps].
Qed.

(** ** Rotation and logout *)
Section operations.
Context `{CanonicalHash} `{ProjectionCryptography} `{UrlLib} `{TimeFormat} `{JsonbText}.

(** An operation that fails leaves the store as it was. *)
Lemma rotate_err gs fs c db db' e :
  rotate_refresh_token gs fs c db = (db', Err e) -> db' = db.
Proof.
  unfold rotate_refresh_token, mseq, mlift.
  destruct (validate_digest _); [|naive_solver]; destruct (validate_digest _); [|naive_solver].
  destruct (_ <=? _); [unfold mfail; naive_solver|].
  destruct (ok_or (routed_generation _ _ _ _) _); [|naive_solver].
  destruct (ok_or (routed_family _ _ _) _); [|naive_solver]; apply transaction_err.
Qed.

Lemma state_conflict_false c s f g :
  rotation_state_conflict c s f g = false ->
  rg_status g = "current"%string /\ rf_status f = "active"%string
  /\ as_status s = "active"%string /\ rg_generation g = rf_current_generation f
  /\ rt_now c < rf_absolute_expires_at f /\ rf_absolute_expires_at f = as_absolute_expires_at s
  /\ rf_family_revision f = rp_family_revision (rt_preparation c)
  /\ as_session_revision s = rp_session_revision (rt_preparation c).
Proof. unfold rotation_state_conflict; intros Hc; bool_prop; destruct_and!; split_and!; auto. Qed.

(** The rows a successful call works on, with the facts both outcomes share. *)
Lemma rotate_rows gs fs c db db' r :
  store_ok db -> rotate_refresh_token gs fs c db = (db', Ok r) ->
  exists s f g,
    db_sessions db !! as_id s = Some s /\ db_families db !! rf_id f = Some f
    /\ db_generations db !! rg_id g = Some g /\ rg_family_id g = rf_id f
    /\ rg_token_digest g = vd_value (rt_presented_token c)
    /\ rg_token_digest_key_version g = vd_key_version (rt_presented_token c)
    /\ rotate_outcome c db db' s f g r.
Proof.
  intros Hok (rg & rf & s & f & g & Hl & Hd & Hv & Ho)%rotate_ok.
  apply locked_refresh_rows_ok in Hl as (Hs & _ & _ & Hf & _ & _ & Hg & _ & Hfam).
  pose proof (store_session_ids _ Hok _ _ Hs) as Hsi.
  pose proof (store_family_ids _ Hok _ _ Hf) as Hfi.
  pose proof (gens_ids _ (store_generations _ Hok) _ _ Hg) as Hgi.
  exists s, f, g; rewrite Hsi, Hfi, Hgi; split_and!; try done; congruence.
Qed.

Lemma rotate_keeps gs fs c db db' r :
  store_ok db -> rotate_refresh_token gs fs c db = (db', r) -> store_ok db' /\ evolves db db'.
Proof.
  intros Hok Hr; destruct r as [r|e]; [|by apply rotate_err in Hr; subst].
  destruct (rotate_rows _ _ _ _ _ _ Hok Hr) as (s & f & g & Hs & Hf & Hg & Hfam & _ & _ & Ho).
  destruct Ho as [Hst Hrep|pj ap u po b r Hcf _ _ _ _ Hw].
  - by destruct (replay_effects _ _ _ _ _ _ _ Hok Hg Hf Hrep) as (? & ? & _).
  - apply state_conflict_false in Hcf as (_ & _ & _ & Hcur & _).
    apply rotation_writes_ok in Hw as (Ha1 & Hn & Ha2 & Hc & [event ->] & _); split.
    + by eapply store_rotated.
    + by apply rotated_evolves.
Qed.

(** Logout ends the session and the family of the session. *)
Lemma logout_effects c db db' :
  store_ok db -> logout_application_session c db = (db', Ok tt) ->
  store_ok db' /\ evolves db db'
  /\ (exists s', db_sessions db' !! lo_application_session_id c = Some s'
                 /\ as_status s' <> "active"%string)
  /\ (exists i f', db_families db' !! i = Some f' /\ rf_project_id f' = lo_project_id c
                   /\ rf_application_session_id f' = lo_application_session_id c
                   /\ rf_status f' <> "active"%string).
Proof.
  intros Hok Hl; apply (proj1 (transaction_ok _ _ _ _)) in Hl.
  apply mseq_ok in Hl as (d0 & a0 & Hget & Hl); unfold mget in Hget; injection Hget as <- <-.
  apply mseq_ok in Hl as (d1 & s & Hs & Hl); apply mlift_ok in Hs as [Hs ->].
  apply mseq_ok in Hl as (d2 & f & Hf & Hl); apply mlift_ok in Hf as [Hf ->].
  apply ok_or_ok, find_by_id_some in Hs as [Hs _]; pose proof (store_session_ids _ Hok _ _ Hs) as Hsi.
  apply ok_or_ok, find_one_some in Hf as (fi & Hf & Hfp); bool_prop; destruct Hfp as [Hfp1 Hfp2].
  pose proof (store_family_ids _ Hok _ _ Hf); subst fi; rewrite <- Hsi in Hs |- *.
  apply mseq_ok in Hl as (d3 & [] & Hrs & Hl); apply mseq_ok in Hl as (d4 & [] & Hrf & Haudit).
  destruct (revoke_session_effects _ _ _ _ Hok Hs Hrs) as (Hok3 & Hev3 & Hfs & s' & Hs' & Hst).
  rewrite <- Hfs in Hf.
  destruct (revoke_family_effects _ _ _ _ _ Hok3 Hf Hrf)
    as (Hok4 & Hev4 & Hss & f' & Hf' & (_ & Hp & _ & _ & Hsid) & Hft).
  assert (store_ok db' /\ evolves d4 db' /\ db_sessions db' = db_sessions d4
          /\ db_families db' = db_families d4) as (Hok5 & Hev5 & -> & ->).
  { destruct (_ || _); inv_txn; [|by split_and!].
    split_and!; [by apply store_audit|apply evolves_audit|done|done]. }
  split_and!; [done|by etrans; [|etrans]|exists s'; by rewrite Hss|].
  exists (rf_id f), f'; split_and!; [done|congruence..|done].
Qed.

Lemma logout_err c db db' e : logout_application_session c db = (db', Err e) -> db' = db.
Proof. apply transaction_err. Qed.
End operations.
