(* ===== verification/LoginHistory.v ===== *)
(** * The history of logins and tickets

    What the login flow does to a login transaction and to a handoff ticket.  A
    write to a login moves its status one step ([login_move]) and its revision by
    one ([login_step]); a ticket that was consumed or expired never changes again
    ([ticket_evolves]).  [login_tables_ok] is the invariant of the two tables. *)
From S2P Require Import Prelude.
From S2P Require Import Json.
From S2P Require Import LoginTables.
From S2P Require Import WebhookTables.
From S2P Require Import Lifecycle.
From S2P Require Import Database.
From S2P Require Import LoginStore.
From S2P Require Import Projection.
From S2P Require Import SessionAuthority.
From S2P Require Import BrowserLogout.
From S2P Require Import SessionStore.
From S2P Require Import Login.

(** ** Statuses *)
Lemma parse_as_str s : parse_login_status (Login.LoginTransactionStatus_as_str s) = Ok s.
Proof. by destruct s. Qed.

Lemma parse_login_status_ok value s :
  parse_login_status value = Ok s <-> value = Login.LoginTransactionStatus_as_str s.
Proof.
  split; [|intros ->; apply parse_as_str].
  unfold parse_login_status; repeat case_bool_decide; intros [= <-]; by subst.
Qed.

(** The two status changes the authority writes without asking the domain's
    machine, which refuses both ([store_edge_refused]): [deny_provider_callback]
    fails a login whose exchange nobody began, and [expire_login], reached by any
    request that finds the login overdue, expires one whose exchange is running. *)
Inductive store_edge : Login.LoginTransactionStatus -> Login.LoginTransactionStatus -> Prop :=
| deny_unclaimed : store_edge Login.ProviderAuthorizationStarted Login.ProviderExchangeFailed
| expire_claimed : store_edge Login.ProviderExchangeInProgress Login.Expired.

Lemma store_edge_refused s s' :
  store_edge s s' -> Login.LoginTransactionStatus_transition s' s = (s, Err InvalidTransition).
Proof. by intros []. Qed.

(** A status change of the authority: an edge of the domain's machine, or one of
    the two above. *)
Definition login_move (s s' : Login.LoginTransactionStatus) : Prop :=
  Login.LoginTransactionStatus_allowed s s' = true \/ store_edge s s'.

Definition login_rank (s : Login.LoginTransactionStatus) : nat :=
  match s with
  | Login.AwaitingBrowserBinding => 0
  | Login.AwaitingMethodSelection => 1
  | Login.EmailAddressEntry | Login.ProviderAuthorizationStarted => 2
  | Login.EmailChallengePending | Login.ProviderExchangeInProgress => 3
  | Login.Authenticated => 4
  | Login.HandoffIssued => 5
  | _ => 6
  end.

Lemma login_move_rank s s' : login_move s s' -> (login_rank s < login_rank s')%nat.
Proof. intros [Ha|[]]; [|simpl; lia..]; destruct s, s'; try done; simpl; lia. Qed.

Lemma login_verb_ok verb e s s' :
  login_verb verb e s = Ok s' <->
  s' = Login.LoginVerb_target verb
  /\ Login.LoginTransactionStatus_allowed s (Login.LoginVerb_target verb) = true.
Proof.
  unfold login_verb, Login.LoginTransactionStatus_verb, Login.LoginTransactionStatus_transition.
  unfold guarded; destruct (Login.LoginTransactionStatus_allowed s _); naive_solver.
Qed.

(** ** One write to a login *)
Record login_step (l l' : LoginTransactionRow) : Prop := {
  step_id : lg_id l' = lg_id l;
  step_project : lg_project_id l' = lg_project_id l;
  step_application : lg_application_id l' = lg_application_id l;
  step_redirect : lg_redirect_uri l' = lg_redirect_uri l;
  step_pkce : lg_application_pkce_challenge l' = lg_application_pkce_challenge l;
  step_expiry : lg_expires_at l' = lg_expires_at l;
  step_interaction : lg_interaction_digest l' = lg_interaction_digest l
    /\ lg_interaction_digest_key_version l' = lg_interaction_digest_key_version l;
  step_revision : lg_transaction_revision l' = lg_transaction_revision l + 1;
  step_status : exists s s', lg_status l = Login.LoginTransactionStatus_as_str s
    /\ lg_status l' = Login.LoginTransactionStatus_as_str s' /\ login_move s s';
  (** A binding, once made, is kept, or erased with the rest when a callback is denied. *)
  step_binding : lg_browser_binding_digest l <> None ->
    (lg_browser_binding_digest l' = lg_browser_binding_digest l
     /\ lg_browser_binding_digest_key_version l' = lg_browser_binding_digest_key_version l
     /\ lg_csrf_digest l' = lg_csrf_digest l
     /\ lg_csrf_digest_key_version l' = lg_csrf_digest_key_version l)
    \/ (lg_browser_binding_digest l' = None
        /\ lg_status l' = Login.LoginTransactionStatus_as_str Login.ProviderExchangeFailed)
}.

Definition same_ticket (t t' : HandoffTicketRow) : Prop :=
  ht_id t' = ht_id t /\ ht_project_id t' = ht_project_id t
  /\ ht_login_transaction_id t' = ht_login_transaction_id t
  /\ ht_ticket_digest t' = ht_ticket_digest t
  /\ ht_ticket_digest_key_version t' = ht_ticket_digest_key_version t
  /\ ht_user_id t' = ht_user_id t
  /\ ht_user_security_revision t' = ht_user_security_revision t.

Record login_tables_ok (db : Database) : Prop := {
  lts_logins : keyed lg_id (db_logins db);
  lts_login_check : forall i l, db_logins db !! i = Some l ->
    login_check l = true /\ lg_transaction_revision l <= i64_max;
  lts_login_unique : forall i j a b, i <> j -> db_logins db !! i = Some a ->
    db_logins db !! j = Some b -> login_conflict a b = false;
  lts_unbound : forall i l, db_logins db !! i = Some l ->
    lg_status l = Login.LoginTransactionStatus_as_str Login.AwaitingBrowserBinding ->
    lg_browser_binding_digest l = None;
  lts_tickets : keyed ht_id (db_tickets db);
  lts_ticket_check : forall i t, db_tickets db !! i = Some t -> handoff_ticket_check t = true;
  lts_ticket_unique : forall i j a b, i <> j -> db_tickets db !! i = Some a ->
    db_tickets db !! j = Some b -> handoff_ticket_conflict a b = false
}.

(** [db'] may follow [db] in the login tables. *)
Record login_evolves (db db' : Database) : Prop := {
  le_login : forall i l, db_logins db !! i = Some l ->
    exists l', db_logins db' !! i = Some l' /\ rtc login_step l l';
  le_ticket : forall i t, db_tickets db !! i = Some t ->
    exists t', db_tickets db' !! i = Some t' /\ same_ticket t t'
      /\ (ht_status t <> "issued"%string -> t' = t)
}.

#[export] Instance login_evolves_preorder : PreOrder login_evolves.
Proof.
  split.
  - intros db; constructor; eauto using rtc_refl; intros i t Ht; exists t; by split_and!.
  - intros a b c [l1 t1] [l2 t2]; constructor.
    + intros i l (l' & (l'' & Hl & Hs)%l2 & Hs')%l1; exists l''; split; [done|by etrans].
    + intros i t (t' & (t'' & Ht & (? & ? & ? & ? & ? & ? & ?) & Hsame)%t2
        & (? & ? & ? & ? & ? & ? & ?) & Hs')%t1.
      exists t''; unfold same_ticket; split_and!; try congruence.
      intros Hn; rewrite <- (Hs' Hn); apply Hsame; by rewrite (Hs' Hn).
Qed.

(** Operations that do not touch the two tables. *)
Lemma login_frame db db' :
  login_tables_ok db -> db_logins db' = db_logins db -> db_tickets db' = db_tickets db ->
  login_tables_ok db' /\ login_evolves db db'.
Proof.
  intros [] Hl Ht; split; constructor; rewrite ?Hl, ?Ht; try done.
  - intros i l Hi; exists l; by split.
  - intros i t Hi; exists t; by split_and!.
Qed.

(** ** Facts about a chain of steps *)
Lemma rtc_step_stable l l' :
  rtc login_step l l' ->
  lg_id l' = lg_id l /\ lg_project_id l' = lg_project_id l
  /\ lg_application_id l' = lg_application_id l
  /\ lg_application_pkce_challenge l' = lg_application_pkce_challenge l
  /\ lg_expires_at l' = lg_expires_at l
  /\ lg_transaction_revision l <= lg_transaction_revision l'.
Proof.
  induction 1 as [|a b c [] _ IH]; [by split_and!|].
  destruct IH as (? & ? & ? & ? & ? & ?); split_and!; try congruence; lia.
Qed.

(** Ranks of row statuses never fall, and a status that came back never left. *)
Definition row_rank (l : LoginTransactionRow) : nat :=
  match parse_login_status (lg_status l) with
  | Ok s => login_rank s
  | Err _ => 0
  end.

Lemma step_rank l l' : login_step l l' -> (row_rank l < row_rank l')%nat.
Proof.
  intros [? ? ? ? ? ? ? ? (s & s' & Hs & Hs' & Hm) ?]; unfold row_rank.
  rewrite Hs, Hs', !parse_as_str; by apply login_move_rank.
Qed.

(** No write puts a login back at its beginning. *)
Lemma step_not_first l l' :
  login_step l l' ->
  lg_status l' <> Login.LoginTransactionStatus_as_str Login.AwaitingBrowserBinding.
Proof.
  intros [? ? ? ? ? ? ? ? (s & s' & _ & -> & Hm%login_move_rank) ?].
  by destruct s'; simpl in Hm; [lia|..].
Qed.

Lemma rtc_step_rank l l' : rtc login_step l l' -> (row_rank l <= row_rank l')%nat.
Proof. induction 1 as [|a b c Hab%step_rank _ IH]; lia. Qed.

Lemma terminal_stays l l' :
  rtc login_step l l' -> status_in TERMINAL_LOGIN_STATUSES (lg_status l) = true -> l' = l.
Proof.
  intros Hr Hst; inversion Hr as [|? b ? Hs _]; [done|exfalso].
  destruct Hs as [? ? ? ? ? ? ? ? (s & s' & Hs & _ & Hm) ?]; rewrite Hs in Hst.
  apply bool_decide_eq_true in Hst; destruct Hm as [Ha|He];
    [|by inversion He; subst; set_solver].
  destruct s; try done; set_solver.
Qed.

(** Once bound, a login stays bound as it is, until a denied callback erases it. *)
Lemma rtc_step_binding l l' :
  rtc login_step l l' -> lg_browser_binding_digest l <> None ->
  (lg_browser_binding_digest l' = lg_browser_binding_digest l
   /\ lg_browser_binding_digest_key_version l' = lg_browser_binding_digest_key_version l
   /\ lg_csrf_digest l' = lg_csrf_digest l
   /\ lg_csrf_digest_key_version l' = lg_csrf_digest_key_version l)
  \/ lg_browser_binding_digest l' = None.
Proof.
  induction 1 as [l|a b c Hab Hbc IH]; intros Hn; [by left|].
  destruct (step_binding _ _ Hab Hn) as [(E1 & E2 & E3 & E4)|[Hnone Hst]].
  - rewrite <- E1, <- E2, <- E3, <- E4; apply IH; congruence.
  - right; rewrite (terminal_stays _ _ Hbc); [done|]; by rewrite Hst.
Qed.

(** ** One row rewritten *)
Lemma login_conflict_sym a b : login_conflict a b = login_conflict b a.
Proof.
  unfold login_conflict; f_equal; [apply bool_decide_ext; naive_solver|].
  apply eq_true_iff_eq; rewrite !andb_true_iff, !bool_decide_eq_true.
  split; intros [[[H1 H2] H3] H4]; rewrite <- ?H2, <- ?H4; by split_and!.
Qed.

Lemma ticket_conflict_sym a b : handoff_ticket_conflict a b = handoff_ticket_conflict b a.
Proof. unfold handoff_ticket_conflict; f_equal; apply bool_decide_ext; naive_solver. Qed.

(** A table whose rows do not clash stays so when an accepted row is written. *)
Lemma clash_free_put {Row} (conflict : Row -> Row -> bool) (t : gmap Z Row) id row :
  (forall a b, conflict a b = conflict b a) ->
  (forall i j a b, i <> j -> t !! i = Some a -> t !! j = Some b -> conflict a b = false) ->
  unique_in conflict id row t = true ->
  forall i j a b, i <> j -> <[id := row]> t !! i = Some a -> <[id := row]> t !! j = Some b ->
  conflict a b = false.
Proof.
  intros Hsym Hfree Hu i j a b Hij; pose proof (proj1 (unique_in_true _ _ _ _) Hu) as Hno.
  intros [[<- <-]|[Hi Ha]]%lookup_insert_Some [[<- <-]|[Hj Hb]]%lookup_insert_Some;
    [done|eauto|rewrite Hsym; eauto|eauto].
Qed.

Lemma login_accepts_true db l :
  login_accepts db l = true ->
  login_check l = true /\ login_owner db l = true
  /\ unique_in login_conflict (lg_id l) l (db_logins db) = true.
Proof. unfold login_accepts; rewrite !andb_true_iff; tauto. Qed.

Lemma ticket_accepts_true db t :
  ticket_accepts db t = true ->
  handoff_ticket_check t = true /\ ticket_owner db t = true
  /\ unique_in handoff_ticket_conflict (ht_id t) t (db_tickets db) = true.
Proof. unfold ticket_accepts; rewrite !andb_true_iff; tauto. Qed.

Lemma put_login db db' l :
  login_tables_ok db -> login_accepts db l = true -> lg_transaction_revision l <= i64_max ->
  (forall l0, db_logins db !! lg_id l = Some l0 -> login_step l0 l) ->
  (lg_status l = Login.LoginTransactionStatus_as_str Login.AwaitingBrowserBinding ->
     lg_browser_binding_digest l = None) ->
  db_logins db' = <[lg_id l := l]> (db_logins db) -> db_tickets db' = db_tickets db ->
  login_tables_ok db' /\ login_evolves db db'.
Proof.
  intros [] (Hc & _ & Hu)%login_accepts_true Hrev Hstep Hunb Hl Ht.
  split; constructor; rewrite ?Hl, ?Ht; try done.
  - by apply keyed_put.
  - intros i x [[<- <-]|[_ Hx]]%lookup_insert_Some; eauto.
  - by apply clash_free_put; [apply login_conflict_sym|..].
  - intros i x [[<- <-]|[_ Hx]]%lookup_insert_Some; eauto.
  - apply put_lookup; [apply rtc_refl|]; intros x Hx; by apply rtc_once, Hstep.
  - intros i t Hi; exists t; by split_and!.
Qed.

Lemma put_ticket db db' t :
  login_tables_ok db -> ticket_accepts db t = true ->
  (forall t0, db_tickets db !! ht_id t = Some t0 ->
     same_ticket t0 t /\ ht_status t0 = "issued"%string) ->
  db_tickets db' = <[ht_id t := t]> (db_tickets db) -> db_logins db' = db_logins db ->
  login_tables_ok db' /\ login_evolves db db'.
Proof.
  intros [] (Hc & _ & Hu)%ticket_accepts_true Hrow Ht Hl.
  split; constructor; rewrite ?Hl, ?Ht; try done.
  - by apply keyed_put.
  - intros i x [[<- <-]|[_ Hx]]%lookup_insert_Some; eauto.
  - by apply clash_free_put; [apply ticket_conflict_sym|..].
  - intros i l Hi; exists l; by split.
  - apply put_lookup.
    + intros x; by split_and!.
    + intros x Hx; destruct (Hrow x Hx) as [Hs Hi]; split; [done|congruence].
Qed.

(** A store without logins. *)
Lemma no_logins_ok db : db_logins db = ∅ -> db_tickets db = ∅ -> login_tables_ok db.
Proof. intros Hl Ht; constructor; rewrite ?Hl, ?Ht; by intros i. Qed.
