(* ===== verification/Frames.v ===== *)
(** * Frames

    What a program of the store may do to the store, as a preorder [R]:
    [frame R m] says that every successful run of [m] is related by [R], and
    [effect R m] that every run is, the failing ones included.  The rules follow
    the syntax of the programs; [solve_frame] applies them. *)
From S2P Require Import Prelude.
From S2P Require Import Json.
From S2P Require Import LoginTables.
From S2P Require Import WebhookTables.
From S2P Require Import Database.
From S2P Require Import LoginStore.
From S2P Require Import Projection.
From S2P Require Import WebhookOutbox.

Definition frame_at (R : relation Database) (db : Database) {A} (m : txn A) : Prop :=
  forall db' a, m db = (db', Ok a) -> R db db'.
Definition frame (R : relation Database) {A} (m : txn A) : Prop := forall db, frame_at R db m.
Definition effect (R : relation Database) {A} (m : txn A) : Prop :=
  forall db db' r, m db = (db', r) -> R db db'.

Section rules.
Context (R : relation Database) `{!PreOrder R}.
Context {A B : Type}.

Lemma frame_at_get db (k : Database -> txn B) :
  frame_at R db (k db) -> frame_at R db (mseq mget k).
Proof. intros Hk db' b Hm; by apply Hk in Hm. Qed.

Lemma frame_at_lift db (x : result ApplicationError A) (k : A -> txn B) :
  (forall a, x = Ok a -> frame_at R db (k a)) -> frame_at R db (mseq (mlift x) k).
Proof. intros Hk db' b (d & a & [Hx ->]%mlift_ok & Hb)%mseq_ok; by eapply Hk. Qed.

Lemma frame_at_seq db (m : txn A) (k : A -> txn B) :
  frame_at R db m -> (forall db' a, m db = (db', Ok a) -> frame_at R db' (k a)) ->
  frame_at R db (mseq m k).
Proof.
  intros Hm Hk db' b (d & a & Ha & Hb)%mseq_ok; etrans; [by eapply Hm|by eapply Hk].
Qed.

Lemma frame_at_ret db (a : A) : frame_at R db (mret a).
Proof. by intros db' b [= <- _]. Qed.
Lemma frame_at_fail db e : frame_at R db (mfail e : txn A).
Proof. by intros db' b [=]. Qed.
Lemma frame_at_mlift db (x : result ApplicationError A) : frame_at R db (mlift x).
Proof. by intros db' b [_ ->]%mlift_ok. Qed.
Lemma frame_at_check db c e : frame_at R db (check_that c e).
Proof. intros db' [] [_ ->]%check_that_ok; reflexivity. Qed.
Lemma frame_at_modify db f : R db (f db) -> frame_at R db (mmodify f).
Proof. by intros Hf db' [] [= <-]. Qed.
Lemma frame_at_transaction db (m : txn A) : frame_at R db m -> frame_at R db (transaction m).
Proof. intros Hm db' a Ha%(proj1 (transaction_ok _ _ _ _)); by eapply Hm. Qed.

(** Failing runs: what precedes the transaction only reads, and a transaction
    that fails changes nothing. *)
Lemma effect_lift (x : result ApplicationError A) (k : A -> txn B) :
  (forall a, x = Ok a -> effect R (k a)) -> effect R (mseq (mlift x) k).
Proof.
  intros Hk db db' r; unfold mseq, mlift; destruct x as [a|e]; [by eapply Hk|by intros [= <- _]].
Qed.
Lemma effect_seq (m : txn A) (k : A -> txn B) :
  effect R m -> (forall a, effect R (k a)) -> effect R (mseq m k).
Proof.
  intros Hm Hk db db' r; unfold mseq; destruct (m db) as [d [a|e]] eqn:Ha.
  - intros Hr; etrans; [by eapply Hm|by eapply Hk].
  - intros [= <- _]; by eapply Hm.
Qed.
Lemma effect_mlift (x : result ApplicationError A) : effect R (mlift x).
Proof. by intros db db' r; unfold mlift; destruct x; intros [= <- _]. Qed.
Lemma effect_fail e : effect R (mfail e : txn A).
Proof. by intros db db' r [= <- _]. Qed.
Lemma effect_transaction (m : txn A) : frame R m -> effect R (transaction m).
Proof.
  intros Hm db db' [a|e] Hr; [apply (proj1 (transaction_ok _ _ _ _)) in Hr; by eapply Hm|].
  by apply transaction_err in Hr as ->.
Qed.
Lemma effect_committed (m : txn (result ApplicationError A)) : frame R m -> effect R (committed m).
Proof. intros Hm db db' r [->|Hr]%committed_effect; [done|by eapply Hm]. Qed.
End rules.

Lemma effect_fst_of {R : relation Database} {A} {m : txn A} {db} : effect R m -> R db (m db).1.
Proof. intros Hm; destruct (m db) as [db' r] eqn:Hr; by eapply Hm. Qed.

Create HintDb frames.
#[export] Hint Resolve frame_at_ret frame_at_fail frame_at_mlift frame_at_check : frames.

(** Follow the program; leaves are solved by the hints. *)
Ltac frame_step :=
  lazymatch goal with
  | |- frame _ _ => intros ?
  | |- frame_at _ _ (mseq mget _) => apply frame_at_get; cbv beta
  | |- frame_at _ _ (mseq (mlift _) _) => apply frame_at_lift; intros ? ?
  | |- frame_at _ _ (mseq _ _) => apply frame_at_seq; [exact _| |intros ? ? ?]
  | |- frame_at _ _ (transaction _) => apply frame_at_transaction
  | |- frame_at _ _ (if ?b then _ else _) => destruct b eqn:?
  | |- frame_at _ _ (match ?x with _ => _ end) => destruct x eqn:?
  | |- frame_at _ _ (let _ := _ in _) => cbv zeta
  | |- effect _ (mseq (mlift _) _) => apply effect_lift; [exact _|]; intros ? ?
  | |- effect _ (mseq _ _) => apply effect_seq; [exact _| |intros ?]
  | |- effect _ (mlift _) => apply effect_mlift; exact _
  | |- effect _ (mfail _) => apply effect_fail; exact _
  | |- effect _ (transaction _) => apply effect_transaction; [exact _|]
  | |- effect _ (committed _) => apply effect_committed; [exact _|]
  | |- effect _ (if ?b then _ else _) => destruct b eqn:?
  | |- effect _ (let _ := _ in _) => cbv zeta
  end.
Ltac solve_frame := repeat first [progress frame_step | solve [eauto with frames typeclass_instances nocore]].
