(* ===== verification/LoginEffects.v ===== *)
(** * What the operations do to the login tables

    The operations of the session authority leave logins and tickets alone; those
    of the login authority write nothing but logins, their methods and callback
    owners, and audit events. *)
From S2P Require Import Prelude.
From S2P Require Import Json.
From S2P Require Import LoginTables.
From S2P Require Import WebhookTables.
From S2P Require Import Lifecycle.
From S2P Require Import UrlValues.
From S2P Require Import Database.
From S2P Require Import LoginStore.
From S2P Require Import Projection.
From S2P Require Import WebhookOutbox.
From S2P Require Import SessionAuthority.
From S2P Require Import BrowserLogout.
From S2P Require Import Login.
From S2P Require Import Handoff.
From S2P Require Import SessionStore.
From S2P Require Import LoginHistory.
From S2P Require Import Frames.

(** ** Operations that leave the login tables alone *)
Definition same_login (db db' : Database) : Prop := db_login db' = db_login db.
#[export] Instance same_login_preorder : PreOrder same_login.
Proof. split; [done|]; unfold same_login; intros a b c Hab Hbc; congruence. Qed.

Ltac statement_frame := intros ? ?; unfold same_login; intros; inv_txn; try done.

Section statements.
Context `{JsonbText}.
Implicit Types db : Database.

Lemma insert_generation_frame db row : frame_at same_login db (insert_generation row).
Proof. statement_frame. Qed.
Lemma update_generation_frame db row : frame_at same_login db (update_generation row).
Proof. statement_frame. Qed.
Lemma insert_family_frame db row : frame_at same_login db (insert_family row).
Proof. statement_frame. Qed.
Lemma update_family_frame db row : frame_at same_login db (update_family row).
Proof. statement_frame. Qed.
Lemma insert_session_frame db row : frame_at same_login db (insert_session row).
Proof. statement_frame. Qed.
Lemma update_session_frame db row : frame_at same_login db (update_session row).
Proof. statement_frame. Qed.
Lemma update_browser_frame db row : frame_at same_login db (update_browser row).
Proof. statement_frame. Qed.
Lemma insert_logout_frame db row : frame_at same_login db (insert_logout row).
Proof. statement_frame. Qed.
Lemma update_logout_frame db row : frame_at same_login db (update_logout row).
Proof. statement_frame. Qed.
Lemma insert_projection_frame db row : frame_at same_login db (insert_projection row).
Proof. statement_frame. Qed.
Lemma update_projection_frame db row : frame_at same_login db (update_projection row).
Proof. statement_frame. Qed.
Lemma insert_binding_frame db row : frame_at same_login db (insert_binding row).
Proof. statement_frame. Qed.
Lemma audit_frame db p a b c d e : frame_at same_login db (append_runtime_audit p a b c d e).
Proof. statement_frame. Qed.
Lemma lock_signing_epoch_frame db p r k e now :
  frame_at same_login db (lock_signing_epoch p r k e now).
Proof. unfold lock_signing_epoch; statement_frame. Qed.
Lemma insert_event_frame db row : frame_at same_login db (insert_event row).
Proof. by intros db' [] (_ & _ & ->)%insert_event_ok. Qed.
Lemma insert_delivery_frame db row : frame_at same_login db (insert_delivery row).
Proof. by intros db' [] (_ & _ & ->)%insert_delivery_ok. Qed.
End statements.

#[export] Hint Resolve insert_generation_frame update_generation_frame insert_family_frame
  update_family_frame insert_session_frame update_session_frame update_browser_frame
  insert_logout_frame update_logout_frame insert_projection_frame update_projection_frame
  insert_binding_frame audit_frame lock_signing_epoch_frame insert_event_frame
  insert_delivery_frame : frames.

Section untouched.
Context `{CanonicalHash} `{ProjectionCryptography} `{UrlLib} `{TimeFormat} `{JsonbText}.

Lemma repair_login_frame db nonce x app u now :
  frame_at same_login db (repair_runtime_projection nonce x app u now).
Proof. unfold repair_runtime_projection; solve_frame. Qed.

Lemma dispatch_frame db p a : frame_at same_login db (ensure_dispatch_state p a).
Proof. unfold ensure_dispatch_state; solve_frame; by apply frame_at_modify. Qed.

Lemma enqueue_frame db delivery_id event kind endpoints :
  frame_at same_login db (enqueue_deliveries delivery_id event kind endpoints).
Proof. revert db; induction endpoints; intros db; simpl; solve_frame. Qed.

Lemma append_event_frame db clock uuid ids pp ap b x wire kind :
  frame_at same_login db (append_projection_event clock uuid ids pp ap b x wire kind).
Proof.
  pose proof dispatch_frame; pose proof enqueue_frame.
  unfold append_projection_event; solve_frame.
Qed.

Lemma fan_out_frame clock draws u now :
  effect same_login (transaction (fan_out_projected_user clock draws u now)).
Proof.
  pose proof repair_login_frame; pose proof append_event_frame.
  assert (forall p bs, frame same_login (fan_out_bindings clock draws p u now bs)) as Hbs.
  { induction bs; simpl; solve_frame; unfold fan_out_binding; solve_frame. }
  unfold fan_out_projected_user; solve_frame; apply Hbs.
Qed.

Lemma replay_frame db g f p now : frame_at same_login db (record_refresh_replay g f p now).
Proof. unfold record_refresh_replay; solve_frame. Qed.

Lemma prepare_refresh_frame nonce gs fs c :
  effect same_login (prepare_refresh_rotation nonce gs fs c).
Proof.
  pose proof repair_login_frame; pose proof replay_frame.
  unfold prepare_refresh_rotation, prepare_locked; solve_frame.
Qed.

Lemma rotate_frame gs fs c : effect same_login (rotate_refresh_token gs fs c).
Proof.
  pose proof replay_frame.
  unfold rotate_refresh_token, rotate_locked, rotation_writes; solve_frame.
Qed.

Lemma logout_frame c : effect same_login (logout_application_session c).
Proof. unfold logout_application_session; solve_frame. Qed.

Lemma prepare_logout_frame c : effect same_login (prepare_browser_logout c).
Proof. unfold prepare_browser_logout; solve_frame. Qed.

Lemma bind_logout_frame snapshot c : effect same_login (bind_browser_logout snapshot c).
Proof. unfold bind_browser_logout, bind_locked, expire_browser_logout; solve_frame. Qed.

Lemma confirm_logout_frame snapshot c : effect same_login (confirm_browser_logout snapshot c).
Proof. unfold confirm_browser_logout, confirm_locked, expire_browser_logout; solve_frame. Qed.
End untouched.

(** ** The login authority writes only the login tables and the audit trail *)
Definition login_only (db db' : Database) : Prop :=
  exists t events, db' = set_db_audit events (set_db_login t db).
#[export] Instance login_only_preorder : PreOrder login_only.
Proof.
  split.
  - intros []; eexists _, _; reflexivity.
  - intros a b c (t & e & ->) (t' & e' & ->); exists t', e'; reflexivity.
Qed.

Lemma login_only_keeps db db' :
  login_only db db' -> store_ok db -> store_ok db' /\ evolves db db'.
Proof.
  intros (t & e & ->) Hok; split; [by apply store_audit, store_login|].
  etrans; [apply evolves_login|apply evolves_audit].
Qed.

Lemma set_login_only db t : login_only db (set_db_login t db).
Proof. exists t, (db_audit db); by destruct db. Qed.

(** ** Logins and tickets keep their history *)
Definition login_kept (db db' : Database) : Prop :=
  login_tables_ok db -> login_tables_ok db' /\ login_evolves db db'.
#[export] Instance login_kept_preorder : PreOrder login_kept.
Proof.
  split; [by intros db; split|]; intros a b c Hab Hbc Ha.
  destruct (Hab Ha) as [Hb ?]; destruct (Hbc Hb) as [Hc ?]; split; [done|by etrans].
Qed.

Lemma same_login_kept db db' : same_login db db' -> login_kept db db'.
Proof. intros Hs Hok; apply login_frame; unfold db_logins, db_tickets; by rewrite ?Hs. Qed.

Lemma frame_at_assume {A} db (m : txn A) :
  (login_tables_ok db -> frame_at login_kept db m) -> frame_at login_kept db m.
Proof. intros Hm db' a Ha Hok; by eapply Hm. Qed.

(** The next state of a login row, up to the arithmetic of its revision. *)
Lemma update_login_kept db l l' :
  db_logins db !! lg_id l = Some l ->
  lg_id l' = lg_id l -> lg_transaction_revision l' = i64_add (lg_transaction_revision l) 1 ->
  (lg_transaction_revision l' = lg_transaction_revision l + 1 -> login_step l l') ->
  frame_at login_kept db (update_login l').
Proof.
  intros Hl Hid Hrev Hstep db' [] Hu Hok; apply update_login_ok in Hu as (_ & Ha & ->).
  pose proof (proj1 (login_accepts_true _ _ Ha)) as Hc; unfold login_check in Hc.
  apply andb_true_iff in Hc as [_ Hpos%Z.ltb_lt].
  destruct (lts_login_check _ Hok _ _ Hl) as [Hc Hle]; unfold login_check in Hc.
  apply andb_true_iff in Hc as [_ Hpos0%Z.ltb_lt].
  destruct (i64_add_one (lg_transaction_revision l)) as [Hr Hmax]; [lia|congruence|].
  apply (put_login db _ l'); try done; [lia| |].
  - rewrite Hid; intros l0 Hl0; simplify_eq; apply Hstep; lia.
  - intros Hs; exfalso; apply (step_not_first l l'); [apply Hstep; lia|done].
Qed.

Lemma insert_login_kept db l :
  lg_transaction_revision l <= i64_max -> lg_browser_binding_digest l = None ->
  frame_at login_kept db (insert_login l).
Proof.
  intros Hrev Hb db' [] (Hn%is_none_iff & Ha & ->)%insert_login_ok Hok.
  apply (put_login db _ l); try done; congruence.
Qed.

Lemma insert_ticket_kept db t : frame_at login_kept db (insert_ticket t).
Proof.
  intros db' [] (Hn%is_none_iff & Ha & ->)%insert_ticket_ok Hok.
  apply (put_ticket db _ t); try done; congruence.
Qed.

Lemma update_ticket_kept db t t' :
  db_tickets db !! ht_id t = Some t -> same_ticket t t' -> ht_status t = "issued"%string ->
  frame_at login_kept db (update_ticket t').
Proof.
  intros Ht Hs Hi db' [] (_ & Ha & ->)%update_ticket_ok Hok.
  apply (put_ticket db _ t'); try done; destruct (id Hs) as [-> _]; intros t0 Ht0; by simplify_eq.
Qed.

Lemma login_tables_frame db t :
  lt_logins t = db_logins db -> lt_tickets t = db_tickets db ->
  login_kept db (set_db_login t db).
Proof. intros Hl Ht Hok; by apply login_frame. Qed.

(** Both at once: what an operation of the login authority does. *)
Definition login_effect (db db' : Database) : Prop :=
  login_tables_ok db -> login_only db db' /\ login_tables_ok db' /\ login_evolves db db'.
#[export] Instance login_effect_preorder : PreOrder login_effect.
Proof.
  split; [intros db Hok; split; [reflexivity|by split]|]; intros a b c Hab Hbc Ha.
  destruct (Hab Ha) as (? & Hb & ?); destruct (Hbc Hb) as (? & ? & ?).
  split; [by etrans|]; split; [done|by etrans].
Qed.

Lemma login_effect_intro db db' : login_only db db' -> login_kept db db' -> login_effect db db'.
Proof. intros Ho Hk Hok; split; [done|by apply Hk]. Qed.

(** The invariant may be used along the way. *)
Lemma login_effect_assume {A} db (m : txn A) :
  (login_tables_ok db -> frame_at login_effect db m) -> frame_at login_effect db m.
Proof. intros Hm db' a Ha Hok; by eapply Hm. Qed.

Ltac login_statement :=
  intros ? ?; intros; inv_login;
  apply login_effect_intro; [apply set_login_only|by apply login_tables_frame].

Lemma insert_method_effect db row : frame_at login_effect db (insert_method row).
Proof. login_statement. Qed.
Lemma insert_email_method_effect db row : frame_at login_effect db (insert_email_method row).
Proof. login_statement. Qed.
Lemma insert_callback_owner_effect db row : frame_at login_effect db (insert_callback_owner row).
Proof. login_statement. Qed.
Lemma check_callback_owner_effect db id p : frame_at login_effect db (check_callback_owner id p).
Proof. unfold check_callback_owner; solve_frame. Qed.
Lemma delete_callback_owner_effect db id :
  frame_at login_effect db (delete_login_callback_owner id).
Proof.
  intros db' [] [= <-]; destruct (find_by_id _ _ _); [|done].
  apply login_effect_intro; [apply set_login_only|by apply login_tables_frame].
Qed.
Lemma audit_effect db p a b c d e : frame_at login_effect db (append_runtime_audit p a b c d e).
Proof.
  intros db' u (event & -> & _)%append_runtime_audit_ok; apply login_effect_intro.
  - exists (db_login db), (db_audit db ++ [event]); by destruct db.
  - by apply same_login_kept.
Qed.
Lemma insert_login_effect db l :
  lg_transaction_revision l <= i64_max -> lg_browser_binding_digest l = None ->
  frame_at login_effect db (insert_login l).
Proof.
  intros Hr Hb db' u Hu; apply login_effect_intro; [|by eapply insert_login_kept].
  destruct u; apply insert_login_ok in Hu as (_ & _ & ->); apply set_login_only.
Qed.
Lemma update_login_effect db l l' :
  db_logins db !! lg_id l = Some l ->
  lg_id l' = lg_id l -> lg_transaction_revision l' = i64_add (lg_transaction_revision l) 1 ->
  (lg_transaction_revision l' = lg_transaction_revision l + 1 -> login_step l l') ->
  frame_at login_effect db (update_login l').
Proof.
  intros Hl Hid Hrev Hs db' u Hu; apply login_effect_intro; [|by eapply update_login_kept].
  destruct u; apply update_login_ok in Hu as (_ & _ & ->); apply set_login_only.
Qed.
#[export] Hint Resolve insert_method_effect insert_email_method_effect insert_callback_owner_effect
  check_callback_owner_effect delete_callback_owner_effect audit_effect : frames.

(** Steps that leave the row's identity, its challenge and its binding alone. *)
Ltac solve_login_step s s' :=
  intros ?; constructor; simpl; try done; [exists s, s'; split_and!; [done..|]|by left; split_and!].

Lemma verb_move verb e s s' : login_verb verb e s = Ok s' -> login_move s s'.
Proof. intros [-> Ha]%login_verb_ok; by left. Qed.

Lemma moved_step s s' rev now l :
  lg_status l = Login.LoginTransactionStatus_as_str s -> login_move s s' ->
  rev = lg_transaction_revision l + 1 -> login_step l (login_moved s' rev now l).
Proof. intros Hs Hm Hr; revert Hr; solve_login_step s s'; done. Qed.

Lemma ended_step s s' rev now l :
  lg_status l = Login.LoginTransactionStatus_as_str s -> login_move s s' ->
  rev = lg_transaction_revision l + 1 -> login_step l (login_ended s' rev now l).
Proof. intros Hs Hm Hr; revert Hr; solve_login_step s s'; done. Qed.

Lemma bound_step s s' c l :
  lg_status l = Login.LoginTransactionStatus_as_str s -> login_move s s' ->
  lg_browser_binding_digest l = None ->
  i64_add (bh_expected_transaction_revision c) 1 = lg_transaction_revision l + 1 ->
  login_step l (login_browser_bound s' c l).
Proof. intros Hs Hm Hn Hr; constructor; simpl; try done; by exists s, s'. Qed.

Lemma selected_step s s' c p m l :
  lg_status l = Login.LoginTransactionStatus_as_str s -> login_move s s' ->
  i64_add (sp_expected_transaction_revision c) 1 = lg_transaction_revision l + 1 ->
  login_step l (login_provider_selected s' c p m l).
Proof. intros Hs Hm Hr; revert Hr; solve_login_step s s'; done. Qed.

Lemma denied_step now l :
  lg_status l = Login.LoginTransactionStatus_as_str Login.ProviderAuthorizationStarted ->
  i64_add (lg_transaction_revision l) 1 = lg_transaction_revision l + 1 ->
  login_step l (login_denied now l).
Proof.
  intros Hs Hr; constructor; simpl; try done; [|by right; split].
  exists Login.ProviderAuthorizationStarted, Login.ProviderExchangeFailed; split_and!; try done.
  right; constructor.
Qed.

Lemma expire_login_effect db l now :
  db_logins db !! lg_id l = Some l -> frame_at login_effect db (expire_login l now).
Proof.
  intros Hl; unfold expire_login; apply frame_at_lift; intros s Hs%parse_login_status_ok.
  case_bool_decide as Hin; [solve_frame|]; solve_frame; apply (update_login_effect _ l); try done.
  simpl; intros Hr; apply (ended_step s); [done| |done].
  destruct s; try (by left); try (right; constructor); exfalso; apply Hin; set_solver.
Qed.

(** ** The operations of the login authority *)
Lemma insert_methods_effect db rows : frame_at login_effect db (insert_methods rows).
Proof. revert db; induction rows; intros db; simpl; solve_frame. Qed.

Lemma create_login_effect c : effect login_effect (create_login_transaction c).
Proof.
  pose proof insert_methods_effect.
  unfold create_login_transaction; solve_frame; by apply insert_login_effect.
Qed.

(** A row a query found sits under its key. *)
Lemma found_login db id p l :
  login_tables_ok db -> find_by_id (db_logins db) id p = Some l ->
  db_logins db !! lg_id l = Some l.
Proof.
  intros Hok [Hl _]%find_by_id_some; by rewrite (lts_logins _ Hok _ _ Hl).
Qed.

Lemma matched_login db p l :
  login_tables_ok db -> find_one (db_logins db) p = Some l -> db_logins db !! lg_id l = Some l.
Proof.
  intros Hok (i & Hl & _)%find_one_some; by rewrite (lts_logins _ Hok _ _ Hl).
Qed.

(** The rows and statuses an operation has read. *)
Ltac login_facts :=
  repeat match goal with
  | H : ok_or _ _ = Ok _ |- _ => apply ok_or_ok in H
  | H : callback_login _ _ _ _ _ = Some _ |- _ => unfold callback_login in H
  | Hok : login_tables_ok ?db, H : find_by_id (db_logins ?db) _ _ = Some _ |- _ =>
      apply (found_login _ _ _ _ Hok) in H
  | Hok : login_tables_ok ?db, H : find_one (db_logins ?db) _ = Some _ |- _ =>
      apply (matched_login _ _ _ Hok) in H
  | H : parse_login_status _ = Ok _ |- _ => apply parse_login_status_ok in H
  | H : negb (_ =? _) = false |- _ => apply negb_false_iff, Z.eqb_eq in H
  end.

(** What is left of an operation: its write to the login, or the expiry of an
    overdue one. *)
Ltac login_write :=
  apply login_effect_assume; intros; login_facts;
  first [by apply expire_login_effect
        |lazymatch goal with
         | H : db_logins ?db !! lg_id ?l = Some ?l |- frame_at _ ?db (update_login _) =>
             apply (update_login_effect db l); [done|done|simpl; congruence|intros Hrev]
         end].

Lemma bind_hosted_effect c : effect login_effect (bind_hosted_browser c).
Proof.
  unfold bind_hosted_browser, bind_hosted_locked; solve_frame; login_write.
  eapply bound_step; [done|by eapply verb_move| |done].
  match goal with Hv : login_verb _ _ ?s = Ok _ |- _ =>
    apply login_verb_ok in Hv as [_ Ha]; destruct s; try done end.
  eapply lts_unbound; eauto.
Qed.

Lemma select_provider_effect c : effect login_effect (select_provider_method c).
Proof.
  unfold select_provider_method, select_provider_locked; solve_frame; login_write.
  eapply selected_step; [done|by eapply verb_move|done].
Qed.

Lemma claim_callback_effect ps vs c : effect login_effect (claim_provider_callback ps vs c).
Proof.
  unfold claim_provider_callback, claim_callback_locked; solve_frame; login_write.
  eapply moved_step; [done|by eapply verb_move|done].
Qed.

Lemma deny_callback_effect ps vs c : effect login_effect (deny_provider_callback ps vs c).
Proof.
  unfold deny_provider_callback, deny_callback_locked; solve_frame; login_write.
  apply denied_step; [|done]; bool_prop; by subst.
Qed.

Lemma fail_exchange_effect c : effect login_effect (fail_provider_exchange c).
Proof.
  unfold fail_provider_exchange; solve_frame; login_write.
  eapply ended_step; [done|by eapply verb_move|done].
Qed.

(** ** Recovery of abandoned exchanges *)
Lemma find_all_nodup {Row} (key : Row -> Z) (t : gmap Z Row) p before `{!RelDecision before} limit :
  keyed key t -> NoDup (map key (find_all t p before limit)).
Proof.
  intros Hk; assert (NoDup (map key (map snd (map_to_list t)))) as Hnd.
  { rewrite map_map; erewrite map_ext_in; [exact (NoDup_fst_map_to_list t)|].
    intros [i r] Hin%list_elem_of_In%elem_of_map_to_list; by apply Hk. }
  unfold find_all; rewrite <- firstn_map.
  eapply sublist_NoDup; [|apply sublist_take].
  rewrite merge_sort_Permutation; revert Hnd; generalize (map snd (map_to_list t)); clear.
  induction l as [|x l IH]; simpl; [done|]; intros [Hx Hl]%NoDup_cons.
  destruct (p x); simpl; [|by apply IH]; apply NoDup_cons; split; [|by apply IH].
  contradict Hx; apply list_elem_of_In, in_map_iff in Hx as (y & <- & [Hy _]%filter_In).
  by apply list_elem_of_In, in_map.
Qed.

Definition in_progress (db : Database) (l : LoginTransactionRow) : Prop :=
  db_logins db !! lg_id l = Some l
  /\ lg_status l = Login.LoginTransactionStatus_as_str Login.ProviderExchangeInProgress.

Lemma recover_all_effect now rows db :
  NoDup (map lg_id rows) -> Forall (in_progress db) rows ->
  frame_at login_effect db (recover_all now rows).
Proof.
  revert db; induction rows as [|l rows IH]; intros db; simpl; [solve_frame|].
  intros [Hl Hnd]%NoDup_cons [[Hin Hs] Hrows]%Forall_cons; apply frame_at_seq; [exact _| |].
  { apply (update_login_effect _ l); [done..|]; intros Hrev.
    apply (ended_step Login.ProviderExchangeInProgress); [done|by left|done]. }
  intros db1 [] (_ & _ & ->)%update_login_ok; apply frame_at_seq; [exact _|apply audit_effect|].
  intros db2 u (event & -> & _)%append_runtime_audit_ok; apply IH; [done|].
  rewrite Forall_forall in Hrows |- *; intros x Hx; destruct (Hrows x Hx) as [Hlx ?].
  split; [|done]; etrans; [apply lookup_insert_ne|exact Hlx]; simpl; intros Heq.
  apply Hl; rewrite Heq; by apply list_elem_of_In, in_map, list_elem_of_In.
Qed.

Lemma recover_effect locked c :
  effect login_effect (recover_abandoned_provider_exchanges locked c).
Proof.
  unfold recover_abandoned_provider_exchanges; solve_frame.
  apply login_effect_assume; intros Hok; apply recover_all_effect.
  - apply find_all_nodup; exact (lts_logins _ Hok).
  - apply Forall_forall; intros l (i & Hl & Hp)%find_all_in.
    rewrite <- (lts_logins _ Hok _ _ Hl) in Hl; bool_prop; split; [done|tauto].
Qed.
