(* ===== verification/HandoffEffects.v ===== *)
(** * What session reuse and the exchange do to the store

    Together with [LoginEffects]: every operation keeps both invariants, the one
    of the session tables ([store_ok]) and the one of the login tables
    ([login_tables_ok]), and lets both evolve. *)
From S2P Require Import Prelude.
From S2P Require Import Json.
From S2P Require Import LoginTables.
From S2P Require Import WebhookTables.
From S2P Require Import Lifecycle.
From S2P Require Import UrlValues.
From S2P Require Import Database.
From S2P Require Import LoginStore.
From S2P Require Import Projection.
From S2P Require Import ProjectionProofs.
From S2P Require Import WebhookOutbox.
From S2P Require Import SessionAuthority.
From S2P Require Import BrowserLogout.
From S2P Require Import Login.
From S2P Require Import Handoff.
From S2P Require Import SessionStore.
From S2P Require Import SessionEffects.
From S2P Require Import LoginHistory.
From S2P Require Import Frames.
From S2P Require Import LoginEffects.

Record world_ok (db : Database) : Prop := {
  world_store : store_ok db;
  world_login : login_tables_ok db
}.
Record world_evolves (db db' : Database) : Prop := {
  world_session : evolves db db';
  world_history : login_evolves db db'
}.
#[export] Instance world_evolves_preorder : PreOrder world_evolves.
Proof. split; [by intros db; split|]; intros a b c [] []; split; by etrans. Qed.

Definition world_kept (db db' : Database) : Prop :=
  world_ok db -> world_ok db' /\ world_evolves db db'.
#[export] Instance world_kept_preorder : PreOrder world_kept.
Proof.
  split; [by intros db; split|]; intros a b c Hab Hbc Ha.
  destruct (Hab Ha) as [Hb ?]; destruct (Hbc Hb) as [? ?]; split; [done|by etrans].
Qed.

Lemma login_world db db' : login_effect db db' -> world_kept db db'.
Proof.
  intros He [Hs Hl]; destruct (He Hl) as (Ho & ? & ?).
  destruct (login_only_keeps _ _ Ho Hs); split; by split.
Qed.

Lemma session_world db db' :
  same_login db db' -> (store_ok db -> store_ok db' /\ evolves db db') -> world_kept db db'.
Proof.
  intros Hs He [Hok Hl]; destruct (He Hok).
  destruct (same_login_kept _ _ Hs Hl); split; by split.
Qed.

Lemma frame_world {A} db (m : txn A) : frame_at login_effect db m -> frame_at world_kept db m.
Proof. intros Hm db' a Ha; by eapply login_world, Hm. Qed.

Lemma world_assume {A} db (m : txn A) :
  (world_ok db -> frame_at world_kept db m) -> frame_at world_kept db m.
Proof. intros Hm db' a Ha Hok; by eapply Hm. Qed.

(** ** Statements *)
Section statements.
Context `{JsonbText}.
Implicit Types db : Database.

Lemma audit_world db p a b c d e : frame_at world_kept db (append_runtime_audit p a b c d e).
Proof. apply frame_world, audit_effect. Qed.

Lemma insert_binding_world db b : frame_at world_kept db (insert_binding b).
Proof.
  intros db' [] (Hn%is_none_iff & _ & ->)%insert_binding_ok; apply session_world; [done|].
  intros Hok; split; [by apply store_insert_binding|apply evolves_insert_binding].
Qed.

Lemma insert_projection_world db x : frame_at world_kept db (insert_projection x).
Proof.
  intros db' [] (_ & Ha & ->)%insert_projection_ok; apply session_world; [done|].
  intros Hok; split; [by apply store_insert_projection|apply evolves_put_projection].
Qed.

Lemma insert_session_world db s : frame_at world_kept db (insert_session s).
Proof.
  intros db' [] (Hn%is_none_iff & Ha & ->)%insert_session_ok; apply session_world; [done|].
  unfold session_accepts in Ha; rewrite !andb_true_iff in Ha.
  intros Hok; split; [apply store_insert_session; tauto|by apply evolves_insert_session].
Qed.

Lemma insert_family_world db f :
  rf_current_generation f <= i64_max -> rf_family_revision f <= i64_max ->
  frame_at world_kept db (insert_family f).
Proof.
  intros Hg Hr db' [] (Hn%is_none_iff & Ha & ->)%insert_family_ok; apply session_world; [done|].
  intros Hok; split; [by apply store_insert_family|by apply evolves_insert_family].
Qed.

Lemma insert_generation_world db g f :
  db_families db !! rg_family_id g = Some f -> chain_ok f g ->
  frame_at world_kept db (insert_generation g).
Proof.
  intros Hf Hc db' [] (Hn%is_none_iff & Ha & ->)%insert_generation_ok.
  apply session_world; [done|]; intros Hok; split.
  - apply store_put_generation; [done..|]; intros f' Hf'; by simplify_eq.
  - apply evolves_put_generation; intros g0 Hg0; congruence.
Qed.

Lemma update_browser_world db b b' :
  db_browsers db !! bs_id b = Some b -> bs_id b' = bs_id b ->
  bs_credential_digest b' = bs_credential_digest b ->
  bs_credential_digest_key_version b' = bs_credential_digest_key_version b ->
  (bs_status b <> "active"%string -> bs_status b' <> "active"%string) -> same_browser b b' ->
  frame_at world_kept db (update_browser b').
Proof.
  intros Hb Hid Hd Hv Hs Hsame db' [] (_ & Ha & ->)%update_browser_ok.
  apply session_world; [done|]; intros Hok; split; [by apply store_put_browser|].
  rewrite Hid; by apply evolves_put_browser.
Qed.

Lemma ticket_world db db' t :
  db' = set_db_tickets t db -> login_kept db db' -> world_kept db db'.
Proof.
  intros -> Hk [Hs Hl]; destruct (Hk Hl); split; [split; [by apply store_login|done]|].
  split; [apply evolves_login|done].
Qed.

Lemma insert_ticket_world db t : frame_at world_kept db (insert_ticket t).
Proof.
  intros db' [] Hu; eapply ticket_world; [|by eapply insert_ticket_kept].
  by apply insert_ticket_ok in Hu as (_ & _ & ->).
Qed.

Lemma update_ticket_world db t t' :
  db_tickets db !! ht_id t = Some t -> same_ticket t t' -> ht_status t = "issued"%string ->
  frame_at world_kept db (update_ticket t').
Proof.
  intros Ht Hs Hi db' [] Hu; eapply ticket_world; [|by eapply update_ticket_kept].
  by apply update_ticket_ok in Hu as (_ & _ & ->).
Qed.

Lemma lock_epoch_world db p r k e now : frame_at world_kept db (lock_signing_epoch p r k e now).
Proof. by intros db' u ->%lock_signing_epoch_ok. Qed.

Lemma webhook_world db db' t : db' = set_db_webhook t db -> world_kept db db'.
Proof.
  intros ->; apply session_world; [done|]; intros Hok.
  split; [by apply store_webhook|apply evolves_webhook].
Qed.
Lemma insert_event_world db row : frame_at world_kept db (insert_event row).
Proof. intros db' [] (_ & _ & ->)%insert_event_ok; by eapply webhook_world. Qed.
Lemma insert_delivery_world db row : frame_at world_kept db (insert_delivery row).
Proof. intros db' [] (_ & _ & ->)%insert_delivery_ok; by eapply webhook_world. Qed.
Lemma dispatch_world db p a : frame_at world_kept db (ensure_dispatch_state p a).
Proof.
  unfold ensure_dispatch_state; solve_frame; apply frame_at_modify; by eapply webhook_world.
Qed.
End statements.

#[export] Hint Resolve audit_world insert_binding_world insert_projection_world
  insert_session_world insert_ticket_world lock_epoch_world insert_event_world
  insert_delivery_world dispatch_world : frames.

(** ** Reuse of a browser session *)
Lemma reused_step s s' rev u at' now l :
  lg_status l = Login.LoginTransactionStatus_as_str s -> login_move s s' ->
  rev = lg_transaction_revision l + 1 -> login_step l (login_reused s' rev u at' now l).
Proof.
  intros Hs Hm Hr; constructor; simpl; try done; [by exists s, s'|by left; split_and!].
Qed.

Lemma insert_handoff_ok id d l u b m a i e r db db' t :
  insert_handoff id d l u b m a i e r db = (db', Ok t) ->
  ht_id t = id /\ ht_login_transaction_id t = lg_id l /\ ht_status t = "issued"%string
  /\ ht_ticket_digest t = vd_value d /\ ht_ticket_digest_key_version t = vd_key_version d
  /\ insert_ticket t db = (db', Ok tt).
Proof.
  unfold insert_handoff; intros Hh; apply if_mfail_ok in Hh as [_ Hh].
  apply mseq_ok in Hh as (d1 & pr & Hp & Hh); apply mlift_ok in Hp as [_ ->]; cbv zeta in Hh.
  apply mseq_ok in Hh as (d2 & [] & Hi & Hh); unfold mret in Hh; injection Hh as <- <-.
  by split_and!.
Qed.

(** The writes of a reuse, once the session is found fit. *)
Lemma found_browser db id p b :
  store_ok db -> find_by_id (db_browsers db) id p = Some b -> db_browsers db !! bs_id b = Some b.
Proof.
  intros Hok [Hb _]%find_by_id_some.
  by rewrite (dir_browsers _ _ _ _ _ _ (store_directory _ Hok) _ _ Hb).
Qed.

Lemma insert_handoff_world db id d l u b m a i e r :
  frame_at world_kept db (insert_handoff id d l u b m a i e r).
Proof.
  intros db' t (_ & _ & _ & _ & _ & Ht)%insert_handoff_ok; by eapply insert_ticket_world.
Qed.

Lemma insert_handoff_logins id d l u b m a i e r db db' t :
  insert_handoff id d l u b m a i e r db = (db', Ok t) -> db_logins db' = db_logins db.
Proof.
  intros (_ & _ & _ & _ & _ & Ht)%insert_handoff_ok; by apply insert_ticket_ok in Ht as (_ & _ & ->).
Qed.

Lemma reuse_effect snapshot c : effect world_kept (confirm_browser_session_reuse snapshot c).
Proof.
  unfold confirm_browser_session_reuse; solve_frame; unfold reuse_locked.
  apply world_assume; intros [Hok Hl].
  frame_step; frame_step; match goal with H : ok_or _ _ = Ok _ |- _ =>
    apply ok_or_ok, (found_login _ _ _ _ Hl) in H as Hlg end.
  frame_step; [solve_frame; by apply frame_world, expire_login_effect|].
  pose proof insert_handoff_world as Hh; solve_frame.
  - match goal with H : ok_or (find_by_id (db_browsers _) _ _) _ = Ok ?b |- _ =>
      apply ok_or_ok, (found_browser _ _ _ _ Hok) in H; by apply (update_browser_world _ b) end.
  - match goal with H : update_browser _ _ = (?d, Ok _), Hi : insert_handoff _ _ _ _ _ _ _ _ _ _ ?d = _ |- _ =>
      apply insert_handoff_logins in Hi; apply update_browser_frame in H end.
    match goal with H : same_login ?d1 ?d2, Hi : db_logins ?d3 = db_logins ?d2 |- _ =>
      assert (db_logins d3 = db_logins d1) as Hsame by (rewrite Hi; unfold db_logins; by rewrite H) end.
    apply frame_world; login_facts; rewrite <- Hsame in Hlg; bool_prop.
    eapply update_login_effect; [exact Hlg|done|simpl; congruence|intros Hrev].
    eapply reused_step; [done|by eapply verb_move|done].
Qed.

(** ** The exchange *)
Section exchange.
Context `{CanonicalHash} `{ProjectionCryptography} `{UrlLib} `{TimeFormat} `{JsonbText}.

Lemma repair_world db nonce x app u now :
  db_projections db !! pn_id x = Some x ->
  frame_at world_kept db (repair_runtime_projection nonce x app u now).
Proof.
  intros Hx db' r Hr; apply session_world; [by eapply repair_login_frame|].
  intros Hok; by eapply repair_keeps.
Qed.

Lemma enqueue_world db delivery_id event kind endpoints :
  frame_at world_kept db (enqueue_deliveries delivery_id event kind endpoints).
Proof. revert db; induction endpoints; intros db; simpl; solve_frame. Qed.

Lemma append_event_world db clock uuid ids pp ap b x wire kind :
  frame_at world_kept db (append_projection_event clock uuid ids pp ap b x wire kind).
Proof. pose proof enqueue_world; unfold append_projection_event; solve_frame. Qed.

Lemma bind_user_world db c u : frame_at world_kept db (bind_user c u).
Proof. unfold bind_user; solve_frame. Qed.

Lemma bind_user_frame db c u : frame_at same_login db (bind_user c u).
Proof. unfold bind_user; solve_frame. Qed.

Lemma stored_projection_ok db p b x :
  store_ok db -> stored_projection db p b = Some x ->
  db_projections db !! pn_id x = Some x /\ pn_project_id x = p /\ pn_binding_id x = b.
Proof.
  intros Hok (i & Hx & Hp)%find_one_some; bool_prop; split; [|naive_solver].
  by rewrite (dir_projections _ _ _ _ _ _ (store_directory _ Hok) _ _ Hx).
Qed.

Lemma exchange_projection_world db clock nonces uuid ids c o b :
  frame_at world_kept db (exchange_projection clock nonces uuid ids c o b).
Proof.
  apply world_assume; intros [Hok _]; pose proof append_event_world.
  unfold exchange_projection; solve_frame; apply repair_world.
  by eapply stored_projection_ok.
Qed.

Lemma exchange_projection_frame db clock nonces uuid ids c o b :
  frame_at same_login db (exchange_projection clock nonces uuid ids c o b).
Proof.
  pose proof append_event_frame; pose proof repair_login_frame; unfold exchange_projection; solve_frame.
Qed.

Lemma open_session_world db c t o b : frame_at world_kept db (open_session c t o b).
Proof.
  unfold open_session; solve_frame; [by apply insert_family_world|].
  match goal with H : insert_family _ _ = (_, Ok ?u) |- _ =>
    destruct u; apply insert_family_ok in H as (_ & _ & ->) end.
  eapply insert_generation_world; [apply lookup_insert_eq|by unfold chain_ok].
Qed.

Lemma open_session_frame db c t o b : frame_at same_login db (open_session c t o b).
Proof. unfold open_session; solve_frame. Qed.

Lemma exchange_writes_world db c t l o b x :
  db_tickets db !! ht_id t = Some t -> ht_status t = "issued"%string ->
  db_logins db !! lg_id l = Some l ->
  frame_at world_kept db (exchange_writes c t l o b x).
Proof.
  intros Ht Hst Hl; pose proof open_session_world; unfold exchange_writes; solve_frame.
  all: match goal with H : open_session _ _ _ _ _ = _ |- _ =>
         apply open_session_frame in H; unfold same_login in H end.
  - apply (update_ticket_world _ t); [|by split_and!|done].
    unfold db_tickets in *; congruence.
  - match goal with H : update_ticket _ _ = (_, Ok ?u) |- _ =>
      destruct u; apply update_ticket_ok in H as (_ & _ & ->) end.
    apply frame_world, (update_login_effect _ l); try done.
    { unfold db_logins in *; simpl; congruence. }
    intros Hrev; login_facts; eapply ended_step; [done|by eapply verb_move|done].
Qed.

Lemma exchange_ticket_world db clock nonces uuid ids c t :
  db_tickets db !! ht_id t = Some t -> ht_status t = "issued"%string ->
  frame_at world_kept db (exchange_ticket clock nonces uuid ids c t).
Proof.
  intros Ht Hst; apply world_assume; intros [_ Hl]; unfold exchange_ticket.
  pose proof bind_user_world; pose proof exchange_projection_world; solve_frame.
  apply exchange_writes_world; [|done|].
  all: repeat match goal with
  | H : lock_signing_epoch _ _ _ _ _ _ = _ |- _ => apply lock_signing_epoch_ok in H as ->
  | H : bind_user _ _ _ = _ |- _ => apply bind_user_frame in H; unfold same_login in H
  | H : exchange_projection _ _ _ _ _ _ _ _ = _ |- _ =>
      apply exchange_projection_frame in H; unfold same_login in H
  end; login_facts; unfold db_tickets, db_logins in *; congruence.
Qed.

Lemma found_ticket db p a d t :
  login_tables_ok db -> find_ticket db p a d = Some t ->
  db_tickets db !! ht_id t = Some t /\ ht_project_id t = p /\ ht_application_id t = a
  /\ ht_ticket_digest t = vd_value d /\ ht_ticket_digest_key_version t = vd_key_version d.
Proof.
  intros Hok (i & Ht & Hp)%find_one_some; bool_prop; split; [|naive_solver].
  by rewrite (lts_tickets _ Hok _ _ Ht).
Qed.

Lemma commit_effect clock nonces uuid ids c :
  effect world_kept (commit_handoff_exchange clock nonces uuid ids c).
Proof.
  unfold commit_handoff_exchange, commit_locked; solve_frame.
  all: apply world_assume; intros [_ Hl]; match goal with H : ok_or _ _ = Ok _ |- _ =>
    apply ok_or_ok, (found_ticket _ _ _ _ _ Hl) in H as (Ht & _) end.
  - bool_prop; apply (update_ticket_world _ a1); [done|by split_and!|tauto].
  - bool_prop; apply exchange_ticket_world; [done|tauto].
Qed.

Lemma fan_out_world clock draws u now :
  effect world_kept (transaction (fan_out_projected_user clock draws u now)).
Proof.
  pose proof append_event_world.
  assert (forall p bs db, frame_at world_kept db (fan_out_bindings clock draws p u now bs)) as Hbs.
  { induction bs; intros db; simpl; solve_frame; unfold fan_out_binding.
    apply world_assume; intros [Hok _]; solve_frame; apply repair_world.
    by eapply stored_projection_ok, ok_or_ok. }
  unfold fan_out_projected_user; solve_frame.
Qed.
End exchange.
