(* ===== verification/ServerKeys.v ===== *)
(** * Server keys

    [application/server_key.rs], [adapters/server_key_security.rs] and
    [adapters/postgres/server_key.rs]: the credentials a project's backend calls
    the server API with.  An operator creates a key and gets its credential once,
    acknowledges that it arrived, and revokes it.  The store keeps a keyed digest
    of the credential; the ring of digest keys issues and checks them.

    Every command runs in one transaction with its audit event and the record of
    its idempotency key: a repeated request gets the recorded answer, without the
    secret.  Advisory locks and row locks make the transaction run alone.

    Base64, HMAC, the JSON of a record and the range of times are libraries
    ([Base64Url], [Hmac], [RecordCodec], [UnixTime]); random bytes, identifiers
    and clocks are arguments. *)
From S2P Require Import Prelude.
From S2P Require Import Json.
From S2P Require Import BTreeMap.
From S2P Require Import Database.
From S2P Require Import Projection.
From S2P Require Import WebhookOutbox.
From S2P Require Import Custody.

(** ** Constants *)
Definition SERVER_KEY_CREDENTIAL_PREFIX : string := "owl_server_v1".
Definition SERVER_KEY_PUBLIC_ID_BYTES : Z := 16.
Definition SERVER_KEY_PUBLIC_ID_LENGTH : Z := 22.
Definition SERVER_KEY_SECRET_BYTES : Z := 32.
Definition SERVER_KEY_SECRET_LENGTH : Z := 43.
Definition SERVER_KEY_DISPLAY_PREFIX_LENGTH : Z :=
  str_len SERVER_KEY_CREDENTIAL_PREFIX + 1 + SERVER_KEY_PUBLIC_ID_LENGTH.
Definition SERVER_KEY_CREDENTIAL_LENGTH : Z :=
  SERVER_KEY_DISPLAY_PREFIX_LENGTH + 1 + SERVER_KEY_SECRET_LENGTH.
Definition MAX_ACTIVE_SERVER_KEYS_PER_PROJECT : Z := 10.
Definition MAX_SERVER_KEY_LABEL_LENGTH : Z := 64.
Definition MAX_SERVER_KEY_CREATE_ATTEMPTS : nat := 4.
Definition DEFAULT_SERVER_KEY_LIST_RESULTS : Z := 50.
Definition MAX_SERVER_KEY_LIST_RESULTS : Z := 100.
Definition SERVER_KEY_CURSOR_VERSION : Z := 1.
Definition SERVER_KEY_CURSOR_BYTES : Z := 33.
Definition CREATE_OPERATION_KIND : string := "project_server_key.create".
Definition ACKNOWLEDGE_OPERATION_KIND : string := "project_server_key.acknowledge_delivery".
Definition REVOKE_OPERATION_KIND : string := "project_server_key.revoke".
(** [owlauth-project-server-key-digest-v1] and a zero byte. *)
Definition SERVER_KEY_DIGEST_DOMAIN : list Z := bytes "owlauth-project-server-key-digest-v1" ++ [0].

(** ** Libraries *)
(** [URL_SAFE_NO_PAD]. *)
Class Base64Url : Type := {
  b64_encode : list Z -> string;
  b64_decode : string -> option (list Z)
}.
Class Hmac : Type := { hmac_of : list Z -> list Z -> list Z }.
(** [OffsetDateTime::from_unix_timestamp_nanos] and [from_unix_timestamp]. *)
Class UnixTime : Type := {
  from_unix_timestamp_nanos : Z -> option OffsetDateTime;
  from_unix_timestamp : Z -> option OffsetDateTime
}.
(** PostgreSQL's class [[:cntrl:]], which depends on the locale of the database. *)
Class CntrlClass : Type := { has_cntrl : string -> bool }.

(** ** Records *)
Module KeyStatus.
Inductive ProjectServerKeyStatus := Active | Revoked.
#[global] Instance ProjectServerKeyStatus_eq_dec : EqDecision ProjectServerKeyStatus.
Proof. solve_decision. Defined.
End KeyStatus.
Abbreviation ProjectServerKeyStatus := KeyStatus.ProjectServerKeyStatus.

Record ProjectServerKeyRecord := mkProjectServerKeyRecord {
  sr_id : Uuid; sr_project_id : Uuid; sr_public_key_id : string; sr_label : string;
  sr_status : ProjectServerKeyStatus; sr_digest_key_version : Z; sr_display_prefix : string;
  sr_revision : Z; sr_created_at : OffsetDateTime;
  sr_credential_acknowledged_at : option OffsetDateTime; sr_last_used_at : option OffsetDateTime;
  sr_revoked_at : option OffsetDateTime
}.

(** The JSON a record is stored as, and read back from. *)
Class RecordCodec : Type := {
  record_to_value : ProjectServerKeyRecord -> option json;
  record_from_value : json -> option ProjectServerKeyRecord
}.

Record ServerKeyRow := mkServerKeyRow {
  sv_id : Uuid; sv_project_id : Uuid; sv_public_key_id : string; sv_label : string;
  sv_status : string; sv_digest_key_version : Z; sv_credential_digest : list Z;
  sv_display_prefix : string; sv_revision : Z; sv_created_at : OffsetDateTime;
  sv_credential_acknowledged_at : option OffsetDateTime; sv_last_used_at : option OffsetDateTime;
  sv_revoked_at : option OffsetDateTime
}.

Record ControlIdempotencyRow := mkControlIdempotencyRow {
  ci_idempotency_key : string; ci_project_id : option Uuid; ci_request_digest : list Z;
  ci_state : string; ci_result_resource_id : option Uuid; ci_response : option json;
  ci_operation_kind : string; ci_request_scope : string; ci_expires_at : option OffsetDateTime;
  ci_completed_at : option OffsetDateTime
}.

Record KeyStore := mkKeyStore {
  ks_db : Database;
  ks_keys : gmap Z ServerKeyRow;
  ks_idempotency : gmap string ControlIdempotencyRow
}.

Definition ktxn (A : Type) : Type := mut KeyStore ApplicationError A.

(** A transaction that fails is rolled back. *)
Definition k_transaction {E A : Type} (body : mut KeyStore E A) : mut KeyStore E A := fun s =>
  match body s with
  | (s', Ok a) => (s', Ok a)
  | (_, Err e) => (s, Err e)
  end.

Definition k_check (c : bool) (e : ApplicationError) : ktxn unit := if c then mret tt else mfail e.

(** ** Commands *)
Record CreateProjectServerKey := mkCreateProjectServerKey {
  cc_project_id : Uuid; cc_label : string; cc_idempotency_key : string; cc_correlation_id : Uuid
}.

(** [AcknowledgeProjectServerKeyDelivery] and [RevokeProjectServerKey] have the
    same fields. *)
Record AcknowledgeProjectServerKeyDelivery := mkAcknowledgeProjectServerKeyDelivery {
  ac_project_id : Uuid; ac_key_id : Uuid; ac_expected_revision : Z; ac_idempotency_key : string;
  ac_correlation_id : Uuid
}.
Record RevokeProjectServerKey := mkRevokeProjectServerKey {
  rv_project_id : Uuid; rv_key_id : Uuid; rv_expected_revision : Z; rv_idempotency_key : string;
  rv_correlation_id : Uuid
}.

Record PreparedProjectServerKey := mkPreparedProjectServerKey {
  pp_id : Uuid; pp_project_id : Uuid; pp_public_key_id : string; pp_label : string;
  pp_digest_key_version : Z; pp_credential_digest : list Z; pp_display_prefix : string;
  pp_idempotency_key : string; pp_request_digest : list Z; pp_correlation_id : Uuid;
  pp_created_at : OffsetDateTime
}.

Module Stored.
Inductive StoredProjectServerKeyCreate :=
| Created (record : ProjectServerKeyRecord)
| ReplayWithoutSecret (record : ProjectServerKeyRecord).
End Stored.

Module AttemptErr.
Inductive ServerKeyCreateAttemptError :=
| PublicIdCollision
| Application (error : ApplicationError).
End AttemptErr.
Abbreviation ServerKeyCreateAttemptError := AttemptErr.ServerKeyCreateAttemptError.

(** The credential is the text [owl_server_v1.<public id>.<secret>]. *)
Module Creation.
Inductive CreateProjectServerKeyResult :=
| Created (metadata : ProjectServerKeyRecord) (credential : string)
| ReplayWithoutSecret (metadata : ProjectServerKeyRecord).
End Creation.

Record ParsedServerCredential := mkParsedServerCredential {
  pc_public_key_id : string; pc_secret : list Z
}.

Record IssuedServerCredential := mkIssuedServerCredential {
  is_public_key_id : string; is_display_prefix : string; is_digest_key_version : Z;
  is_digest : list Z; is_credential : string
}.

Record SoftwareServerKeyRing := mkSoftwareServerKeyRing {
  kg_deployment_context : string; kg_active_version : Z; kg_keys : gmap Z (list Z)
}.

Record ProjectServerKeyCursor := mkProjectServerKeyCursor {
  kc_created_at : OffsetDateTime; kc_key_id : Uuid
}.

(** ** Input *)
Definition validate_server_key_label (value : string) : result ApplicationError unit :=
  if is_empty value || (MAX_SERVER_KEY_LABEL_LENGTH <? list_len (chars value))
     || negb (bool_decide (trim value = value)) || existsb char_is_control (chars value)
  then Err AppError.InvalidInput else Ok tt.

Definition idempotency_byte (b : Z) : bool :=
  is_ascii_alphanumeric b || (b =? 0x2D) || (b =? 0x5F) || (b =? 0x2E).

Definition validate_server_key_idempotency_key (value : string) : result ApplicationError unit :=
  if negb (in_range 8 128 (str_len value)) || negb (forallb idempotency_byte (bytes value))
  then Err AppError.InvalidInput else Ok tt.

Section server_keys.
Context `{CanonicalHash} `{Base64Url} `{Hmac} `{UnixTime} `{CntrlClass} `{RecordCodec}.

(** ** Credentials *)
Definition url_safe_byte (b : Z) : bool := is_ascii_alphanumeric b || (b =? 0x5F) || (b =? 0x2D).

Definition is_canonical_base64url (value : string) (decoded_length : Z) : bool :=
  let expected_encoded_length :=
    if decoded_length =? SERVER_KEY_PUBLIC_ID_BYTES then Some SERVER_KEY_PUBLIC_ID_LENGTH
    else if decoded_length =? SERVER_KEY_SECRET_BYTES then Some SERVER_KEY_SECRET_LENGTH
    else None in
  match expected_encoded_length with
  | None => false
  | Some length =>
      (str_len value =? length) && forallb url_safe_byte (bytes value)
      && is_some_and (b64_decode value) (fun decoded =>
           (list_len decoded =? decoded_length) && bool_decide (b64_encode decoded = value))
  end.

Definition server_key_display_prefix (public_key_id : string) : result ApplicationError string :=
  if negb (is_canonical_base64url public_key_id SERVER_KEY_PUBLIC_ID_BYTES)
  then Err AppError.InvalidInput
  else Ok (String.append SERVER_KEY_CREDENTIAL_PREFIX (String.append "." public_key_id)).

Definition ParsedServerCredential_parse (value : string) :
    result ApplicationError ParsedServerCredential :=
  if negb (str_len value =? SERVER_KEY_CREDENTIAL_LENGTH) || negb (is_ascii_str value)
  then Err AppError.InvalidInput
  else
    match split_byte 0x2E value with
    | [version; public_key_id; encoded_secret] =>
        if negb (bool_decide (version = SERVER_KEY_CREDENTIAL_PREFIX))
           || negb (is_canonical_base64url public_key_id SERVER_KEY_PUBLIC_ID_BYTES)
           || negb (is_canonical_base64url encoded_secret SERVER_KEY_SECRET_BYTES)
        then Err AppError.InvalidInput
        else
          decoded <-? ok_or (b64_decode encoded_secret) AppError.InvalidInput ;;
          if negb (list_len decoded =? SERVER_KEY_SECRET_BYTES) then Err AppError.InvalidInput
          else Ok (mkParsedServerCredential public_key_id decoded)
    | _ => Err AppError.InvalidInput
    end.

Definition OneTimeServerCredential_new (value : string) : result ApplicationError string :=
  _ <-? ParsedServerCredential_parse value ;; Ok value.

(** ** The ring of digest keys *)
Definition SoftwareServerKeyRing_new (deployment_context : string) (active_version : Z)
    (active : list Z) (retained : gmap Z (list Z)) : result ApplicationError SoftwareServerKeyRing :=
  if is_empty deployment_context || (128 <? str_len deployment_context) || (active_version <=? 0)
     || existsb (fun version => version <=? 0) (map fst (map_to_list retained))
     || is_some (retained !! active_version) || (32 <=? Z.of_nat (size retained))
  then Err AppError.InvalidInput
  else Ok (mkSoftwareServerKeyRing deployment_context active_version (<[active_version := active]> retained)).

(** [update_framed]: the length as a [u32], then the bytes. *)
Definition update_framed (mac value : list Z) : result ApplicationError (list Z) :=
  if 2 ^ 32 <=? list_len value then Err AppError.InvalidInput
  else Ok (mac ++ be_bytes 4 (list_len value) ++ value).

Definition digest_message (deployment_context : string) (project_id key_id : Uuid)
    (public_key_id : string) (secret : list Z) (digest_key_version : Z) :
    result ApplicationError (list Z) :=
  mac <-? update_framed SERVER_KEY_DIGEST_DOMAIN (bytes deployment_context) ;;
  mac <-? update_framed mac (be_bytes 4 digest_key_version) ;;
  mac <-? update_framed mac (bytes SERVER_KEY_CREDENTIAL_PREFIX) ;;
  mac <-? update_framed mac (be_bytes 16 project_id) ;;
  mac <-? update_framed mac (be_bytes 16 key_id) ;;
  mac <-? update_framed mac (bytes public_key_id) ;;
  update_framed mac secret.

Definition digest (ring : SoftwareServerKeyRing) (project_id key_id : Uuid) (public_key_id : string)
    (secret : list Z) (digest_key_version : Z) : result ApplicationError (list Z) :=
  _ <-? server_key_display_prefix public_key_id ;;
  key <-? ok_or (kg_keys ring !! digest_key_version) AppError.Integrity ;;
  message <-? digest_message (kg_deployment_context ring) project_id key_id public_key_id secret
                digest_key_version ;;
  Ok (hmac_of key message).

(** [issue]: the random bytes are the operating system's, which may fail. *)
Definition issue (ring : SoftwareServerKeyRing) (random_public_id random_secret : option (list Z))
    (project_id key_id : Uuid) : result ApplicationError IssuedServerCredential :=
  public_id_bytes <-? ok_or random_public_id AppError.ExternalStore ;;
  secret <-? ok_or random_secret AppError.ExternalStore ;;
  let public_key_id := b64_encode public_id_bytes in
  let encoded_secret := b64_encode secret in
  display_prefix <-? server_key_display_prefix public_key_id ;;
  credential <-? OneTimeServerCredential_new
                   (String.append display_prefix (String.append "." encoded_secret)) ;;
  digest <-? digest ring project_id key_id public_key_id secret (kg_active_version ring) ;;
  Ok (mkIssuedServerCredential public_key_id display_prefix (kg_active_version ring) digest credential).

Definition digest_candidate (ring : SoftwareServerKeyRing) (project_id key_id : Uuid)
    (public_key_id : string) (secret : list Z) (digest_key_version : Z) :
    result ApplicationError (list Z) :=
  digest ring project_id key_id public_key_id secret digest_key_version.

(** ** Cursors: a version, the time in nanoseconds as an [i128], the identifier *)
Definition cursor_encode (created_at : OffsetDateTime) (id : Uuid) : string :=
  b64_encode ([SERVER_KEY_CURSOR_VERSION] ++ be_bytes 16 created_at ++ be_bytes 16 id).

Definition i128_of_be_bytes (l : list Z) : Z :=
  let v := be_value 0 l in if v <? 2 ^ 127 then v else v - 2 ^ 128.

Definition cursor_parse (value : string) : result ApplicationError (OffsetDateTime * Uuid) :=
  if (64 <? str_len value) || negb (is_ascii_str value) then Err AppError.InvalidInput
  else
    decoded <-? ok_or (b64_decode value) AppError.InvalidInput ;;
    if negb (list_len decoded =? SERVER_KEY_CURSOR_BYTES)
       || negb (bool_decide (b64_encode decoded = value))
    then Err AppError.InvalidInput
    else if negb (bool_decide (head decoded = Some SERVER_KEY_CURSOR_VERSION))
    then Err AppError.InvalidInput
    else
      created_at <-? ok_or (from_unix_timestamp_nanos (i128_of_be_bytes (take 16 (drop 1 decoded))))
                       AppError.InvalidInput ;;
      Ok (created_at, be_value 0 (drop 17 decoded)).

Definition ProjectServerKeyCursor_encode (cursor : ProjectServerKeyCursor) : string :=
  cursor_encode (kc_created_at cursor) (kc_key_id cursor).
Definition ProjectServerKeyCursor_parse (value : string) :
    result ApplicationError ProjectServerKeyCursor :=
  rmap (fun c => mkProjectServerKeyCursor c.1 c.2) (cursor_parse value).

(** ** Constraints *)
(** [btrim(label) = label] for a label with characters: no space at the ends. *)
Definition btrimmed (label : string) : bool :=
  negb (starts_with_byte 0x20 label) && negb (ends_with_byte 0x20 label).

Definition public_key_id_pattern (value : string) : bool :=
  (str_len value =? 22) && forallb url_safe_byte (bytes value).

Definition server_key_check (row : ServerKeyRow) : bool :=
  match sv_credential_acknowledged_at row with Some t => sv_created_at row <=? t | None => true end
  && bool_decide (sv_display_prefix row = String.append "owl_server_v1." (sv_public_key_id row))
  && ((bool_decide (sv_status row = "active"%string) && is_none (sv_revoked_at row))
      || (bool_decide (sv_status row = "revoked"%string) && is_some (sv_revoked_at row)))
  && match sv_last_used_at row with Some t => sv_created_at row <=? t | None => true end
  && match sv_revoked_at row with Some t => sv_created_at row <=? t | None => true end
  && (list_len (sv_credential_digest row) =? 32)
  && (0 <? sv_digest_key_version row)
  && in_range 1 64 (list_len (chars (sv_label row))) && btrimmed (sv_label row)
  && negb (has_cntrl (sv_label row))
  && public_key_id_pattern (sv_public_key_id row)
  && (0 <? sv_revision row)
  && bool_decide (sv_status row ∈ ["active"; "revoked"]%string).

Definition is_active (row : ServerKeyRow) : bool := bool_decide (sv_status row = "active"%string).
Definition is_unacknowledged (row : ServerKeyRow) : bool :=
  is_active row && is_none (sv_credential_acknowledged_at row).

(** Unique: the public id, and the active unacknowledged key of a project. *)
Definition server_key_conflict (a b : ServerKeyRow) : bool :=
  bool_decide (sv_public_key_id a = sv_public_key_id b)
  || ((sv_project_id a =? sv_project_id b) && is_unacknowledged a && is_unacknowledged b).

(** [enforce_project_server_key_lifecycle], on updates. *)
Definition lifecycle_update (old new : ServerKeyRow) : bool :=
  bool_decide (sv_id new = sv_id old /\ sv_project_id new = sv_project_id old
               /\ sv_public_key_id new = sv_public_key_id old
               /\ sv_digest_key_version new = sv_digest_key_version old
               /\ sv_credential_digest new = sv_credential_digest old
               /\ sv_display_prefix new = sv_display_prefix old
               /\ sv_created_at new = sv_created_at old)
  && negb (bool_decide (sv_status old = "revoked"%string))
  && (if bool_decide (sv_status new = "revoked"%string) then
        (sv_revision new =? sv_revision old + 1) && is_some (sv_revoked_at new)
        && bool_decide (sv_label new = sv_label old)
        && bool_decide (sv_last_used_at new = sv_last_used_at old)
        && bool_decide (sv_credential_acknowledged_at new = sv_credential_acknowledged_at old)
      else if is_none (sv_credential_acknowledged_at old) && is_some (sv_credential_acknowledged_at new)
      then
        is_active new && (sv_revision new =? sv_revision old + 1) && is_none (sv_revoked_at new)
        && bool_decide (sv_label new = sv_label old)
        && bool_decide (sv_last_used_at new = sv_last_used_at old)
      else
        is_active new && (sv_revision new =? sv_revision old) && is_none (sv_revoked_at new)
        && bool_decide (sv_label new = sv_label old)
        && bool_decide (sv_credential_acknowledged_at new = sv_credential_acknowledged_at old)
        && match sv_last_used_at old, sv_last_used_at new with
           | Some _, None => false
           | Some before, Some after => before <=? after
           | None, _ => true
           end).

Definition set_ks_keys (t : gmap Z ServerKeyRow) (s : KeyStore) : KeyStore :=
  mkKeyStore (ks_db s) t (ks_idempotency s).

Definition insert_server_key (row : ServerKeyRow) : ktxn unit :=
  s <~ mget ;;
  k_check (is_none (ks_keys s !! sv_id row) && is_none (sv_credential_acknowledged_at row)
           && server_key_check row && is_some (db_projects (ks_db s) !! sv_project_id row)
           && unique_in server_key_conflict (sv_id row) row (ks_keys s)) AppError.Persistence ;;~
  mmodify (set_ks_keys (<[sv_id row := row]> (ks_keys s))).

Definition update_server_key (row : ServerKeyRow) : ktxn unit :=
  s <~ mget ;;
  k_check (is_some_and (ks_keys s !! sv_id row) (fun old => lifecycle_update old row)
           && server_key_check row && unique_in server_key_conflict (sv_id row) row (ks_keys s))
    AppError.Persistence ;;~
  mmodify (set_ks_keys (<[sv_id row := row]> (ks_keys s))).

(** The record of a completed request, a row that is inserted once. *)
Definition idempotency_check (s : KeyStore) (row : ControlIdempotencyRow) : bool :=
  is_none (ks_idempotency s !! ci_idempotency_key row)
  && (list_len (ci_request_digest row) =? 32)
  && in_range 8 128 (list_len (chars (ci_idempotency_key row)))
  && in_range 3 96 (list_len (chars (ci_operation_kind row)))
  && ((bool_decide (ci_state row = "pending"%string) && is_none (ci_completed_at row)
       && is_none (ci_response row))
      || (bool_decide (ci_state row = "completed"%string) && is_some (ci_completed_at row)
          && is_some (ci_response row)))
  && in_range 1 128 (list_len (chars (ci_request_scope row)))
  && match ci_project_id row with
     | Some p => is_some (db_projects (ks_db s) !! p)
     | None => true
     end.

Definition insert_idempotency (row : ControlIdempotencyRow) : ktxn unit :=
  s <~ mget ;;
  k_check (idempotency_check s row) AppError.Persistence ;;~
  mmodify (fun s => mkKeyStore (ks_db s) (ks_keys s)
                      (<[ci_idempotency_key row := row]> (ks_idempotency s))).

(** ** Rows *)
Definition server_key_record (model : ServerKeyRow) : result ApplicationError ProjectServerKeyRecord :=
  status <-? (if bool_decide (sv_status model = "active"%string) && is_none (sv_revoked_at model)
              then Ok KeyStatus.Active
              else if bool_decide (sv_status model = "revoked"%string) && is_some (sv_revoked_at model)
              then Ok KeyStatus.Revoked
              else Err AppError.Integrity) ;;
  if (sv_revision model <=? 0) || (sv_digest_key_version model <=? 0)
     || negb (list_len (sv_credential_digest model) =? 32)
     || is_some_and (sv_credential_acknowledged_at model) (fun t => t <? sv_created_at model)
  then Err AppError.Integrity
  else Ok {| sr_id := sv_id model; sr_project_id := sv_project_id model;
             sr_public_key_id := sv_public_key_id model; sr_label := sv_label model;
             sr_status := status; sr_digest_key_version := sv_digest_key_version model;
             sr_display_prefix := sv_display_prefix model; sr_revision := sv_revision model;
             sr_created_at := sv_created_at model;
             sr_credential_acknowledged_at := sv_credential_acknowledged_at model;
             sr_last_used_at := sv_last_used_at model; sr_revoked_at := sv_revoked_at model |}.

Definition key_with (status : string) (revision : Z)
    (acknowledged_at last_used_at revoked_at : option OffsetDateTime) (r : ServerKeyRow) : ServerKeyRow :=
  mkServerKeyRow (sv_id r) (sv_project_id r) (sv_public_key_id r) (sv_label r) status
    (sv_digest_key_version r) (sv_credential_digest r) (sv_display_prefix r) revision
    (sv_created_at r) acknowledged_at last_used_at revoked_at.

Definition new_server_key (prepared : PreparedProjectServerKey) : ServerKeyRow :=
  {| sv_id := pp_id prepared; sv_project_id := pp_project_id prepared;
     sv_public_key_id := pp_public_key_id prepared; sv_label := pp_label prepared;
     sv_status := "active"; sv_digest_key_version := pp_digest_key_version prepared;
     sv_credential_digest := pp_credential_digest prepared;
     sv_display_prefix := pp_display_prefix prepared; sv_revision := 1;
     sv_created_at := pp_created_at prepared; sv_credential_acknowledged_at := None;
     sv_last_used_at := None; sv_revoked_at := None |}.

(** ** Requests *)
(** [digest_json]: [adapters/system.rs]. *)
Definition digest_json (value : json) : result ApplicationError (list Z) :=
  rmap sha256 (ok_or (json_to_vec value) AppError.InvalidInput).

Definition replay (s : KeyStore) (idempotency_key : string) (project_id : Uuid)
    (operation_kind scope : string) (request_digest : list Z) :
    result ApplicationError (option ProjectServerKeyRecord) :=
  match ks_idempotency s !! idempotency_key with
  | None => Ok None
  | Some existing =>
      if negb (bool_decide (ci_project_id existing = Some project_id))
         || negb (bool_decide (ci_operation_kind existing = operation_kind))
         || negb (bool_decide (ci_request_scope existing = scope))
         || negb (bool_decide (ci_request_digest existing = request_digest))
      then Err AppError.IdempotencyConflict
      else if negb (bool_decide (ci_state existing = "completed"%string))
      then Err AppError.OperationInProgress
      else
        response <-? ok_or (ci_response existing) AppError.Persistence ;;
        rmap Some (ok_or (record_from_value response) AppError.Persistence)
  end.

Definition complete_idempotency (completed_at : OffsetDateTime) (idempotency_key : string)
    (project_id result_resource_id : Uuid) (operation_kind scope : string) (request_digest : list Z)
    (response : ProjectServerKeyRecord) : ktxn unit :=
  value <~ mlift (ok_or (record_to_value response) AppError.Persistence) ;;
  insert_idempotency
    {| ci_idempotency_key := idempotency_key; ci_project_id := Some project_id;
       ci_request_digest := request_digest; ci_state := "completed";
       ci_result_resource_id := Some result_resource_id; ci_response := Some value;
       ci_operation_kind := operation_kind; ci_request_scope := scope; ci_expires_at := None;
       ci_completed_at := Some completed_at |}.

(** Two hexadecimal digits per byte. *)
Definition hex_digest (value : list Z) : string :=
  fold_right (fun byte rest => hex_string 2 byte rest) EmptyString (sha256 value).

Definition insert_server_key_audit (record : ProjectServerKeyRecord) (action : string)
    (correlation_id : Uuid) (idempotency_key : string) : ktxn unit :=
  mmodify (fun s =>
    mkKeyStore
      (set_db_audit (db_audit (ks_db s) ++
         [{| ae_project_id := Some (sr_project_id record); ae_actor_kind := "deployment_operator";
             ae_action := action; ae_target_kind := "project_server_key";
             ae_target_id := Some (sr_id record); ae_outcome := "succeeded";
             ae_correlation_id := correlation_id;
             ae_safe_context := JObject
               [("display_prefix", JString (sr_display_prefix record));
                ("idempotency_fingerprint", JString (hex_digest (bytes idempotency_key)));
                ("label", JString (sr_label record));
                ("public_key_id", JString (sr_public_key_id record));
                ("revision", JInt (sr_revision record))]%string |}]) (ks_db s))
      (ks_keys s) (ks_idempotency s)).

(** ** Queries *)
Definition keys_of (s : KeyStore) (p : ServerKeyRow -> bool) : list ServerKeyRow :=
  List.filter p (map snd (map_to_list (ks_keys s))).

Definition of_project (project_id : Uuid) (p : ServerKeyRow -> bool) (row : ServerKeyRow) : bool :=
  (sv_project_id row =? project_id) && p row.

Definition ensure_project (s : KeyStore) (project_id : Uuid) : result ApplicationError unit :=
  rmap (fun _ => tt) (ok_or (db_projects (ks_db s) !! project_id) AppError.NotFound).

(** [ORDER BY created_at, id]. *)
Definition earliest_first {Row : Type} (at_ : Row -> OffsetDateTime) (id : Row -> Uuid) (a b : Row) : Prop :=
  at_ a < at_ b \/ at_ a = at_ b /\ id a <= id b.
#[global] Instance earliest_first_dec {Row : Type} (at_ id : Row -> Z) :
  RelDecision (earliest_first at_ id).
Proof. intros a b. unfold earliest_first. apply _. Defined.

Definition after_cursor (cursor : option (OffsetDateTime * Uuid)) (at_ : OffsetDateTime) (id : Uuid) : bool :=
  match cursor with
  | None => true
  | Some (t, i) => (t <? at_) || ((at_ =? t) && (i <? id))
  end.

Definition list_project_server_keys (s : KeyStore) (project_id : Uuid)
    (after : option ProjectServerKeyCursor) (limit_plus_one : Z) :
    result ApplicationError (list ProjectServerKeyRecord) :=
  if negb (in_range 2 101 limit_plus_one) then Err AppError.InvalidInput
  else
    _ <-? ensure_project s project_id ;;
    rmapM server_key_record
      (find_all (ks_keys s)
         (of_project project_id (fun k =>
            after_cursor ((fun c => (kc_created_at c, kc_key_id c)) <$> after) (sv_created_at k) (sv_id k)))
         (earliest_first sv_created_at sv_id) limit_plus_one).

Definition active_unacknowledged_project_server_key (s : KeyStore) (project_id : Uuid) :
    result ApplicationError (option ProjectServerKeyRecord) :=
  _ <-? ensure_project s project_id ;;
  match find_one (ks_keys s) (of_project project_id is_unacknowledged) with
  | Some row => rmap Some (server_key_record row)
  | None => Ok None
  end.

Definition get_project_server_key (s : KeyStore) (project_id key_id : Uuid) :
    result ApplicationError ProjectServerKeyRecord :=
  row <-? ok_or (find_by_id (ks_keys s) key_id (fun k => sv_project_id k =? project_id))
            AppError.NotFound ;;
  server_key_record row.

(** ** Transactions *)
Definition replay_project_server_key_create (s : KeyStore) (project_id : Uuid)
    (idempotency_key : string) (request_digest : list Z) :
    result ApplicationError (option ProjectServerKeyRecord) :=
  if negb (list_len request_digest =? 32) then Err AppError.InvalidInput
  else
    result <-? replay s idempotency_key project_id CREATE_OPERATION_KIND
                 (uuid_hyphenated project_id) request_digest ;;
    if is_some_and result (fun record => negb (sr_project_id record =? project_id))
    then Err AppError.Integrity
    else Ok result.

Definition attempt {A : Type} (body : ktxn A) : mut KeyStore ServerKeyCreateAttemptError A := fun s =>
  match body s with
  | (s', r) => (s', map_err AttemptErr.Application r)
  end.

(** The key, its audit event and the record of the request. *)
Definition store_created_key (completed_at : OffsetDateTime) (prepared : PreparedProjectServerKey) :
    ktxn ProjectServerKeyRecord :=
  insert_server_key (new_server_key prepared) ;;~
  record <~ mlift (server_key_record (new_server_key prepared)) ;;
  insert_server_key_audit record "project_server_key.created" (pp_correlation_id prepared)
    (pp_idempotency_key prepared) ;;~
  complete_idempotency completed_at (pp_idempotency_key prepared) (pp_project_id prepared)
    (pp_id prepared) CREATE_OPERATION_KIND (uuid_hyphenated (pp_project_id prepared))
    (pp_request_digest prepared) record ;;~
  mret record.

(** The project must be active, all its keys acknowledged, and fewer than ten of
    them active. *)
Definition may_create_key (s : KeyStore) (project_id : Uuid) : result ApplicationError unit :=
  owner <-? ok_or (db_projects (ks_db s) !! project_id) AppError.NotFound ;;
  if negb (bool_decide (pj_status owner = "active"%string)) then Err AppError.Disabled
  else if is_some (find_one (ks_keys s) (of_project project_id is_unacknowledged))
  then Err AppError.InvalidTransition
  else if MAX_ACTIVE_SERVER_KEYS_PER_PROJECT <=? list_len (keys_of s (of_project project_id is_active))
  then Err AppError.CapacityExceeded
  else Ok tt.

Definition create_project_server_key_attempt (completed_at : OffsetDateTime)
    (prepared : PreparedProjectServerKey) :
    mut KeyStore ServerKeyCreateAttemptError Stored.StoredProjectServerKeyCreate :=
  if negb (list_len (pp_request_digest prepared) =? 32) || (pp_digest_key_version prepared <=? 0)
  then mfail (AttemptErr.Application AppError.InvalidInput)
  else k_transaction (
    s <~ mget ;;
    replayed <~ attempt (mlift (replay s (pp_idempotency_key prepared) (pp_project_id prepared)
                                  CREATE_OPERATION_KIND (uuid_hyphenated (pp_project_id prepared))
                                  (pp_request_digest prepared))) ;;
    match replayed with
    | Some record =>
        if negb (sr_project_id record =? pp_project_id prepared)
        then mfail (AttemptErr.Application AppError.Integrity)
        else mret (Stored.ReplayWithoutSecret record)
    | None =>
        attempt (mlift (may_create_key s (pp_project_id prepared))) ;;~
        if is_some (find_one (ks_keys s) (fun k =>
             bool_decide (sv_public_key_id k = pp_public_key_id prepared)))
        then mfail AttemptErr.PublicIdCollision
        else
          record <~ attempt (store_created_key completed_at prepared) ;;
          mret (Stored.Created record)
    end).

(** The common part of the two commands on a key: the project, the key at the
    revision expected, the row written, the audit event, the record. *)
Definition change_key (completed_at : OffsetDateTime) (project_id key_id : Uuid)
    (expected_revision : Z) (allowed : ServerKeyRow -> bool) (next : Z -> ServerKeyRow -> ServerKeyRow)
    (action operation_kind idempotency_key : string) (request_digest : list Z)
    (correlation_id : Uuid) : ktxn ProjectServerKeyRecord :=
  s <~ mget ;;
  _ <~ mlift (ok_or (db_projects (ks_db s) !! project_id) AppError.NotFound) ;;
  model <~ mlift (ok_or (find_by_id (ks_keys s) key_id (fun k => sv_project_id k =? project_id))
                    AppError.NotFound) ;;
  k_check (sv_revision model =? expected_revision) AppError.RevisionConflict ;;~
  k_check (allowed model) AppError.InvalidTransition ;;~
  next_revision <~ mlift (ok_or (checked_add_i64 expected_revision 1) AppError.InvalidInput) ;;
  update_server_key (next next_revision model) ;;~
  record <~ mlift (server_key_record (next next_revision model)) ;;
  insert_server_key_audit record action correlation_id idempotency_key ;;~
  complete_idempotency completed_at idempotency_key project_id key_id operation_kind
    (uuid_hyphenated project_id) request_digest record ;;~
  mret record.

Definition acknowledge_project_server_key_delivery (completed_at : OffsetDateTime)
    (command : AcknowledgeProjectServerKeyDelivery) (request_digest : list Z)
    (acknowledged_at : OffsetDateTime) : ktxn ProjectServerKeyRecord :=
  if negb (list_len request_digest =? 32) then mfail AppError.InvalidInput
  else k_transaction (
    s <~ mget ;;
    replayed <~ mlift (replay s (ac_idempotency_key command) (ac_project_id command)
                         ACKNOWLEDGE_OPERATION_KIND (uuid_hyphenated (ac_project_id command))
                         request_digest) ;;
    match replayed with
    | Some record =>
        k_check ((sr_project_id record =? ac_project_id command) && (sr_id record =? ac_key_id command)
                 && bool_decide (sr_status record = KeyStatus.Active)
                 && is_some (sr_credential_acknowledged_at record)) AppError.Integrity ;;~
        mret record
    | None =>
        change_key completed_at (ac_project_id command) (ac_key_id command)
          (ac_expected_revision command)
          (fun model => is_active model && is_none (sv_revoked_at model)
                        && is_none (sv_credential_acknowledged_at model))
          (fun revision model => key_with (sv_status model) revision (Some acknowledged_at)
                                   (sv_last_used_at model) (sv_revoked_at model) model)
          "project_server_key.delivery_acknowledged" ACKNOWLEDGE_OPERATION_KIND
          (ac_idempotency_key command) request_digest (ac_correlation_id command)
    end).

Definition revoke_project_server_key (completed_at : OffsetDateTime) (command : RevokeProjectServerKey)
    (request_digest : list Z) (revoked_at : OffsetDateTime) : ktxn ProjectServerKeyRecord :=
  if negb (list_len request_digest =? 32) then mfail AppError.InvalidInput
  else k_transaction (
    s <~ mget ;;
    replayed <~ mlift (replay s (rv_idempotency_key command) (rv_project_id command)
                         REVOKE_OPERATION_KIND (uuid_hyphenated (rv_project_id command))
                         request_digest) ;;
    match replayed with
    | Some record =>
        k_check ((sr_project_id record =? rv_project_id command) && (sr_id record =? rv_key_id command)
                 && bool_decide (sr_status record = KeyStatus.Revoked)) AppError.Integrity ;;~
        mret record
    | None =>
        change_key completed_at (rv_project_id command) (rv_key_id command)
          (rv_expected_revision command)
          (fun model => is_active model && is_none (sv_revoked_at model))
          (fun revision model => key_with "revoked" revision (sv_credential_acknowledged_at model)
                                   (sv_last_used_at model) (Some revoked_at) model)
          "project_server_key.revoked" REVOKE_OPERATION_KIND (rv_idempotency_key command)
          request_digest (rv_correlation_id command)
    end).

(** ** The service *)
(** What one attempt draws: an identifier, random bytes, and two clocks. *)
Record IssueDraw := mkIssueDraw {
  dw_key_id : Uuid; dw_public_id : option (list Z); dw_secret : option (list Z);
  dw_created_at : OffsetDateTime; dw_completed_at : OffsetDateTime
}.

Definition prepare_key (command : CreateProjectServerKey) (request_digest : list Z) (draw : IssueDraw)
    (issued : IssuedServerCredential) : PreparedProjectServerKey :=
  {| pp_id := dw_key_id draw; pp_project_id := cc_project_id command;
     pp_public_key_id := is_public_key_id issued; pp_label := cc_label command;
     pp_digest_key_version := is_digest_key_version issued; pp_credential_digest := is_digest issued;
     pp_display_prefix := is_display_prefix issued; pp_idempotency_key := cc_idempotency_key command;
     pp_request_digest := request_digest; pp_correlation_id := cc_correlation_id command;
     pp_created_at := dw_created_at draw |}.

(** One attempt: [None] when the public id was taken. *)
Definition create_attempt (ring : SoftwareServerKeyRing) (command : CreateProjectServerKey)
    (request_digest : list Z) (draw : IssueDraw) :
    ktxn (option Creation.CreateProjectServerKeyResult) :=
  issued <~ mlift (issue ring (dw_public_id draw) (dw_secret draw) (cc_project_id command)
                     (dw_key_id draw)) ;;
  k_check (is_digest_key_version issued =? kg_active_version ring) AppError.Integrity ;;~
  fun s =>
  match create_project_server_key_attempt (dw_completed_at draw)
          (prepare_key command request_digest draw issued) s with
  | (s', Ok (Stored.Created metadata)) =>
      if negb (sr_id metadata =? dw_key_id draw)
         || negb (sr_project_id metadata =? cc_project_id command)
         || negb (bool_decide (sr_public_key_id metadata = is_public_key_id issued))
         || negb (bool_decide (sr_display_prefix metadata = is_display_prefix issued))
         || negb (sr_digest_key_version metadata =? is_digest_key_version issued)
      then (s', Err AppError.Integrity)
      else (s', Ok (Some (Creation.Created metadata (is_credential issued))))
  | (s', Ok (Stored.ReplayWithoutSecret metadata)) =>
      (s', Ok (Some (Creation.ReplayWithoutSecret metadata)))
  | (s', Err AttemptErr.PublicIdCollision) => (s', Ok None)
  | (s', Err (AttemptErr.Application error)) => (s', Err error)
  end.

(** [others i] is what other transactions do before attempt [i]. *)
Fixpoint create_attempts (others : nat -> KeyStore -> KeyStore) (draws : nat -> IssueDraw)
    (ring : SoftwareServerKeyRing) (command : CreateProjectServerKey) (request_digest : list Z)
    (first attempts : nat) : ktxn Creation.CreateProjectServerKeyResult :=
  match attempts with
  | O => mfail AppError.Persistence
  | S rest =>
      mmodify (others first) ;;~
      outcome <~ create_attempt ring command request_digest (draws first) ;;
      match outcome with
      | Some result => mret result
      | None => create_attempts others draws ring command request_digest (S first) rest
      end
  end.

Definition create_request (command : CreateProjectServerKey) : json :=
  JObject [("label", JString (cc_label command));
           ("project_id", JString (uuid_hyphenated (cc_project_id command)))]%string.

Definition service_create_project_server_key (others : nat -> KeyStore -> KeyStore)
    (draws : nat -> IssueDraw) (ring : SoftwareServerKeyRing) (command : CreateProjectServerKey) :
    ktxn Creation.CreateProjectServerKeyResult :=
  mlift (validate_server_key_label (cc_label command)) ;;~
  mlift (validate_server_key_idempotency_key (cc_idempotency_key command)) ;;~
  request_digest <~ mlift (digest_json (create_request command)) ;;
  s <~ mget ;;
  replayed <~ mlift (replay_project_server_key_create s (cc_project_id command)
                       (cc_idempotency_key command) request_digest) ;;
  match replayed with
  | Some metadata => mret (Creation.ReplayWithoutSecret metadata)
  | None => create_attempts others draws ring command request_digest 0 MAX_SERVER_KEY_CREATE_ATTEMPTS
  end.

Definition change_request (project_id key_id : Uuid) (expected_revision : Z) : json :=
  JObject [("expected_revision", JInt expected_revision); ("key_id", JString (uuid_hyphenated key_id));
           ("project_id", JString (uuid_hyphenated project_id))]%string.

Definition service_acknowledge_project_server_key_delivery (completed_at now : OffsetDateTime)
    (command : AcknowledgeProjectServerKeyDelivery) : ktxn ProjectServerKeyRecord :=
  k_check (negb (ac_expected_revision command <=? 0)) AppError.InvalidInput ;;~
  mlift (validate_server_key_idempotency_key (ac_idempotency_key command)) ;;~
  request_digest <~ mlift (digest_json (change_request (ac_project_id command) (ac_key_id command)
                                          (ac_expected_revision command))) ;;
  acknowledge_project_server_key_delivery completed_at command request_digest now.

Definition service_revoke_project_server_key (completed_at now : OffsetDateTime)
    (command : RevokeProjectServerKey) : ktxn ProjectServerKeyRecord :=
  k_check (negb (rv_expected_revision command <=? 0)) AppError.InvalidInput ;;~
  mlift (validate_server_key_idempotency_key (rv_idempotency_key command)) ;;~
  request_digest <~ mlift (digest_json (change_request (rv_project_id command) (rv_key_id command)
                                          (rv_expected_revision command))) ;;
  revoke_project_server_key completed_at command request_digest now.

(** [cursor.map(parse).transpose()] *)
Definition parse_cursor_option {C : Type} (parse : string -> result ApplicationError C)
    (cursor : option string) : result ApplicationError (option C) :=
  match cursor with
  | Some text => rmap Some (parse text)
  | None => Ok None
  end.

(** The two queries run on stores of their own. *)
Definition service_list_project_server_keys (s seen : KeyStore) (project_id : Uuid)
    (cursor : option string) (limit : option Z) :
    result ApplicationError
      (list ProjectServerKeyRecord * option string * option ProjectServerKeyRecord) :=
  let limit := default DEFAULT_SERVER_KEY_LIST_RESULTS limit in
  if (limit =? 0) || (MAX_SERVER_KEY_LIST_RESULTS <? limit) then Err AppError.InvalidInput
  else
    after <-? parse_cursor_option ProjectServerKeyCursor_parse cursor ;;
    records <-? list_project_server_keys s project_id after (limit + 1) ;;
    active_unacknowledged_key <-? active_unacknowledged_project_server_key seen project_id ;;
    if limit <? list_len records then
      let records := take (Z.to_nat limit) records in
      last <-? ok_or (last records) AppError.Integrity ;;
      Ok (records,
          Some (ProjectServerKeyCursor_encode (mkProjectServerKeyCursor (sr_created_at last) (sr_id last))),
          active_unacknowledged_key)
    else Ok (records, None, active_unacknowledged_key).
End server_keys.
