(* ===== verification/ServerApi.v ===== *)
(** * The server API

    [application/server_api.rs], [adapters/postgres/server_api.rs] and
    [adapters/postgres/email_identity_lookup.rs]: what a project's backend does
    with a server key.  It authenticates, lists and looks up users, reads an
    application's projection of a user, and asks whether an access token is
    active.

    Every repository call reads one snapshot: a [KeyStore] argument, the later
    calls of one request having their own.  Recording that a key was used is the
    only write; it runs detached, at most one at a time ([UsageTelemetry]).

    JSON, Ed25519 and the protectors of email addresses are libraries or other
    components' ([TokenJson], [Ed25519], [EmailAddressReader],
    [EmailLookupDigester]). *)
From S2P Require Import Prelude.
From S2P Require Import Json.
From S2P Require Import Email.
From S2P Require Import Database.
From S2P Require Import Projection.
From S2P Require Import WebhookOutbox.
From S2P Require Import WebhookDelivery.
From S2P Require Import Custody.
From S2P Require Import SessionAuthority.
From S2P Require Import ServerKeys.

(** ** Constants *)
Definition DEFAULT_SERVER_USER_PAGE_LIMIT : Z := 50.
Definition MAX_SERVER_USER_PAGE_LIMIT : Z := 100.
Definition MAX_SERVER_ACCESS_TOKEN_BYTES : Z := 16384.
Definition SERVER_KEY_USAGE_BUCKET : Z := 15 * 60.
Definition SERVER_TOKEN_CLOCK_SKEW_SECONDS : Z := 60.
Definition SERVER_USAGE_TELEMETRY_CAPACITY : Z := 8192.
Definition SERVER_USAGE_TELEMETRY_CONCURRENCY : Z := 1.
Definition SERVER_ACCESS_TOKEN_TYP : string := "at+jwt".

(** ** Records *)
Record ServerKeyAuthority := mkServerKeyAuthority {
  sa_key_id : Uuid; sa_project_id : Uuid; sa_project_public_id : string; sa_public_key_id : string;
  sa_digest_key_version : Z; sa_credential_digest : list Z
}.

Record ServerPrincipal := mkServerPrincipal {
  sp_project_id : Uuid; sp_project_public_id : string; sp_key_id : Uuid; sp_public_key_id : string
}.

Module UserStatus.
Inductive ServerUserStatus := Active | Disabled | Merged.
#[global] Instance ServerUserStatus_eq_dec : EqDecision ServerUserStatus.
Proof. solve_decision. Defined.
End UserStatus.
Abbreviation ServerUserStatus := UserStatus.ServerUserStatus.

Record ServerUser := mkServerUser {
  su_project_public_id : string; su_user_public_id : string; su_status : ServerUserStatus;
  su_display_name : option string; su_picture_url : option string;
  su_primary_verified_email : option string; su_user_revision : Z; su_created_at : OffsetDateTime;
  su_updated_at : OffsetDateTime
}.

Record ServerUserCursor := mkServerUserCursor { uc_created_at : OffsetDateTime; uc_user_id : Uuid }.

Record ServerUserPage := mkServerUserPage {
  up_users : list ServerUser; up_next_cursor : option string
}.

Record ServerApplicationProjection := mkServerApplicationProjection {
  sj_project_public_id : string; sj_application_public_id : string; sj_user_public_id : string;
  sj_projection_revision : Z; sj_document : json
}.

Record ActiveServerToken := mkActiveServerToken {
  at_project_public_id : string; at_application_public_id : string; at_user_public_id : string;
  at_application_session_id : Uuid; at_token_type : string; at_issued_at : OffsetDateTime;
  at_expires_at : OffsetDateTime; at_user_revision : Z; at_application_revision : Z;
  at_session_revision : Z; at_claims_revision : Z; at_projection_revision : Z;
  at_projection_document : json
}.

Module Introspection.
Inductive ServerTokenIntrospection := Inactive | Active (token : ActiveServerToken).
End Introspection.

Record ServerVerificationKey := mkServerVerificationKey {
  vk_project_id : Uuid; vk_project_public_id : string; vk_issuer : string; vk_public_jwk : json
}.

Record ServerTokenSessionLookup := mkServerTokenSessionLookup {
  sl_project_id : Uuid; sl_application_public_id : string; sl_user_public_id : string;
  sl_application_session_id : Uuid; sl_claims_revision : Z; sl_issued_at : OffsetDateTime;
  sl_expires_at : OffsetDateTime; sl_now : OffsetDateTime
}.

Record AccessTokenHeader := mkAccessTokenHeader { th_alg : string; th_typ : string; th_kid : string }.

Record AccessTokenClaims := mkAccessTokenClaims {
  tc_issuer : string; tc_audience : string; tc_subject : string; tc_application_id : string;
  tc_session_id : Uuid; tc_issued_at : Z; tc_not_before : Z; tc_expires_at : Z; tc_jwt_id : string;
  tc_authenticated_at : Z; tc_claims_revision : Z
}.

Record ParsedAccessToken := mkParsedAccessToken {
  pt_header : AccessTokenHeader; pt_claims : AccessTokenClaims; pt_signing_input : string;
  pt_signature : list Z
}.

(** A row of [email_identity_aliases]. *)
Record EmailAliasRow := mkEmailAliasRow {
  ea_project_id : Uuid; ea_identity_id : Uuid; ea_canonicalization_version : Z;
  ea_digest_key_version : Z; ea_lookup_digest : list Z
}.

(** ** Libraries and other components *)
(** [serde_json::from_slice] at the two structures of a token. *)
Class TokenJson : Type := {
  header_from_slice : list Z -> option AccessTokenHeader;
  claims_from_slice : list Z -> option AccessTokenClaims
}.
(** [VerifyingKey::from_bytes], [Signature::from_slice], [verify_strict]. *)
Class Ed25519 : Type := {
  verifying_key_ok : list Z -> bool;
  signature_ok : list Z -> bool;
  verify_strict : list Z -> list Z -> list Z -> bool
}.
(** [DurableEmailAddressReader] and [ProjectionVerifiedEmailProtector]. *)
Class EmailAddressReader : Type := {
  read_durable_address : Uuid -> Uuid -> ProtectedValue -> result ApplicationError string;
  protector_write_version : Z;
  protector_readable_versions : list Z;
  unprotect_verified_email : Uuid -> Uuid -> Uuid -> Z -> ProtectedValue -> result ApplicationError string
}.
(** [RuntimeProtector::digest_at] for [EmailIdentityLookup]. *)
Class EmailLookupDigester : Type := {
  email_identity_active_version : Z;
  email_digest_at : list Z -> list Z -> Z -> result ApplicationError VersionedDigest
}.

(** ** Errors *)
Definition generic_auth_error (error : ApplicationError) : ApplicationError :=
  match error with
  | AppError.Persistence | AppError.Integrity => error
  | _ => AppError.Disabled
  end.

Section server_api.
Context `{CanonicalHash} `{Base64Url} `{Hmac} `{UnixTime} `{CntrlClass} `{TokenJson} `{Ed25519}
  `{EmailAddressReader} `{EmailLookupDigester}.

(** ** Key authority *)
Definition project_is_active (db : Database) (project_id : Uuid) : bool :=
  is_some_and (db_projects db !! project_id) (fun p => bool_decide (pj_status p = "active"%string)).

Definition usable (s : KeyStore) (key : ServerKeyRow) : bool :=
  is_active key && is_none (sv_revoked_at key) && project_is_active (ks_db s) (sv_project_id key).

Definition server_key_authority (s : KeyStore) (public_key_id : string) :
    result ApplicationError ServerKeyAuthority :=
  key <-? ok_or (find_one (ks_keys s) (fun k =>
                   bool_decide (sv_public_key_id k = public_key_id) && usable s k)) AppError.NotFound ;;
  owner <-? ok_or (db_projects (ks_db s) !! sv_project_id key) AppError.NotFound ;;
  if negb (list_len (sv_credential_digest key) =? 32) then Err AppError.Integrity
  else if sv_digest_key_version key <=? 0 then Err AppError.Integrity
  else Ok {| sa_key_id := sv_id key; sa_project_id := sv_project_id key;
             sa_project_public_id := pj_public_id owner; sa_public_key_id := sv_public_key_id key;
             sa_digest_key_version := sv_digest_key_version key;
             sa_credential_digest := sv_credential_digest key |}.

Definition confirm_active (s : KeyStore) (project_id key_id : Uuid) : result ApplicationError unit :=
  key <-? ok_or (find_one (ks_keys s) (fun k =>
                   (sv_project_id k =? project_id) && (sv_id k =? key_id) && usable s k))
            AppError.Disabled ;;
  if negb (sv_id key =? key_id) then Err AppError.Integrity else Ok tt.

(** [authenticate]: the key is read in [s] and confirmed in a later snapshot. *)
Definition authenticate (ring : SoftwareServerKeyRing) (s confirmed : KeyStore)
    (route_project_public_id credential : string) : result ApplicationError ServerPrincipal :=
  parsed <-? map_err (fun _ => AppError.Disabled) (ParsedServerCredential_parse credential) ;;
  authority <-? map_err generic_auth_error (server_key_authority s (pc_public_key_id parsed)) ;;
  if negb (bool_decide (sa_project_public_id authority = route_project_public_id))
     || negb (bool_decide (sa_public_key_id authority = pc_public_key_id parsed))
  then Err AppError.Disabled
  else
    candidate <-? map_err (fun _ => AppError.Disabled)
      (digest_candidate ring (sa_project_id authority) (sa_key_id authority)
         (sa_public_key_id authority) (pc_secret parsed) (sa_digest_key_version authority)) ;;
    if negb (bool_decide (candidate = sa_credential_digest authority)) then Err AppError.Disabled
    else
      _ <-? map_err generic_auth_error
              (confirm_active confirmed (sa_project_id authority) (sa_key_id authority)) ;;
      Ok {| sp_project_id := sa_project_id authority;
            sp_project_public_id := sa_project_public_id authority;
            sp_key_id := sa_key_id authority; sp_public_key_id := sa_public_key_id authority |}.

(** ** Usage *)
(** One statement; when no row matches nothing happens. *)
Definition usage_update (s : KeyStore) (project_id key_id : Uuid) (usage_bucket : OffsetDateTime)
    (key : ServerKeyRow) : option ServerKeyRow :=
  let used := Z.max usage_bucket (sv_created_at key) in
  if (sv_project_id key =? project_id) && (sv_id key =? key_id) && usable s key
     && match sv_last_used_at key with Some t => t <? used | None => true end
  then Some (key_with (sv_status key) (sv_revision key) (sv_credential_acknowledged_at key)
               (Some used) (sv_revoked_at key) key)
  else None.

Definition record_usage_if_older (project_id key_id : Uuid) (usage_bucket : OffsetDateTime) :
    ktxn unit :=
  s <~ mget ;;
  match ks_keys s !! key_id ≫= usage_update s project_id key_id usage_bucket with
  | Some row => k_transaction (update_server_key row)
  | None => mret tt
  end.

(** The map of observed buckets and the permits left. *)
Record UsageTelemetry := mkUsageTelemetry {
  ut_observed_buckets : gmap (Z * Z) Z; ut_permits : Z
}.

Definition ServerUsageTelemetry_new : UsageTelemetry :=
  mkUsageTelemetry ∅ SERVER_USAGE_TELEMETRY_CONCURRENCY.

(** The detached write an observation starts. *)
Record UsageTask := mkUsageTask { uk_project_id : Uuid; uk_key_id : Uuid; uk_bucket : OffsetDateTime }.

Definition usage_bucket (now : OffsetDateTime) : Z :=
  unix_timestamp now / SERVER_KEY_USAGE_BUCKET * SERVER_KEY_USAGE_BUCKET.

(** A started task holds the permit; on every other path it is given back. *)
Definition observe_server_key_usage (now : OffsetDateTime) (principal : ServerPrincipal)
    (t : UsageTelemetry) : UsageTelemetry * option UsageTask :=
  let bucket_unix := usage_bucket now in
  if ut_permits t <=? 0 then (t, None)
  else
    let observed := filter (fun '(_, seen) => bucket_unix <= seen) (ut_observed_buckets t) in
    let identity := (sp_project_id principal, sp_key_id principal) in
    if is_some_and (observed !! identity) (fun seen => bucket_unix <=? seen)
       || ((SERVER_USAGE_TELEMETRY_CAPACITY <=? Z.of_nat (size observed))
           && is_none (observed !! identity))
    then (mkUsageTelemetry observed (ut_permits t), None)
    else
      let observed := <[identity := bucket_unix]> observed in
      match from_unix_timestamp bucket_unix with
      | None => (mkUsageTelemetry observed (ut_permits t), None)
      | Some bucket =>
          (mkUsageTelemetry observed (ut_permits t - 1),
           Some (mkUsageTask (sp_project_id principal) (sp_key_id principal) bucket))
      end.

(** The task ends, by the write or by its deadline; the permit is released. *)
Definition usage_task_ends (t : UsageTelemetry) : UsageTelemetry :=
  mkUsageTelemetry (ut_observed_buckets t) (ut_permits t + 1).

(** ** Users *)
Definition user_status (user : UserRow) : result ApplicationError ServerUserStatus :=
  if us_user_revision user <=? 0 then Err AppError.Integrity
  else if bool_decide (us_status user = "active"%string) && is_none (us_merged_into_user_id user)
  then Ok UserStatus.Active
  else if bool_decide (us_status user = "disabled"%string) && is_none (us_merged_into_user_id user)
  then Ok UserStatus.Disabled
  else if bool_decide (us_status user = "merged"%string) && is_some (us_merged_into_user_id user)
  then Ok UserStatus.Merged
  else Err AppError.Integrity.

Definition map_server_user (project_public_id : string) (user : UserRow) (status : ServerUserStatus)
    (primary_verified_email : option string) : ServerUser :=
  {| su_project_public_id := project_public_id; su_user_public_id := us_public_id user;
     su_status := status; su_display_name := us_display_name user;
     su_picture_url := us_picture_url user; su_primary_verified_email := primary_verified_email;
     su_user_revision := us_user_revision user; su_created_at := us_created_at user;
     su_updated_at := us_updated_at user |}.

(** A project's row with this public id, active. *)
Definition active_project (db : Database) (project_id : Uuid) (project_public_id : string) :
    result ApplicationError unit :=
  owner <-? ok_or (find_by_id (db_projects db) project_id (fun p =>
                     bool_decide (pj_public_id p = project_public_id)
                     && bool_decide (pj_status p = "active"%string))) AppError.NotFound ;;
  if negb (pj_id owner =? project_id) then Err AppError.Integrity else Ok tt.

Definition has_primary_email (user : UserRow) (status : ServerUserStatus) : bool :=
  bool_decide (status = UserStatus.Active)
  && bool_decide (us_primary_source_kind user = "email"%string).

(** The identity of a user with a primary email. *)
Definition requested_identity (entry : UserRow * ServerUserStatus) :
    result ApplicationError (option Uuid) :=
  let '(user, status) := entry in
  if has_primary_email user status
  then rmap Some (ok_or (us_primary_email_identity_id user) AppError.Integrity)
  else Ok None.

(** The address of the primary email: the identity must be the user's, verified,
    and active for the address to be read. *)
Definition primary_email (db : Database) (source_project : option Uuid)
    (entry : UserRow * ServerUserStatus) : result ApplicationError (option string) :=
  let '(user, status) := entry in
  if has_primary_email user status then
    identity_id <-? ok_or (us_primary_email_identity_id user) AppError.Integrity ;;
    source <-? ok_or (find_by_id (db_email_identities db) identity_id (fun e =>
                        bool_decide (source_project = Some (ei_project_id e)))) AppError.Integrity ;;
    if negb (ei_user_id source =? us_id user) then Err AppError.Integrity
    else if bool_decide (ei_status source = "disabled"%string) && is_some (ei_verified_at source)
    then Ok None
    else if bool_decide (ei_status source = "active"%string) && is_some (ei_verified_at source)
    then rmap Some (read_durable_address (us_project_id user) identity_id
                      (mkProtectedValue (ei_address_ciphertext source) (ei_address_key_version source)))
    else Err AppError.Integrity
  else Ok None.

(** [map_users]: the identities are those of the first user's project. *)
Definition map_users (db : Database) (project_public_id : string) (users : list UserRow) :
    result ApplicationError (list ServerUser) :=
  statuses <-? rmapM user_status users ;;
  let entries := zip users statuses in
  _ <-? rmapM requested_identity entries ;;
  rmapM (fun entry =>
    email <-? primary_email db (us_project_id <$> head users) entry ;;
    Ok (map_server_user project_public_id entry.1 entry.2 email)) entries.

Definition ServerUserCursor_encode (cursor : ServerUserCursor) : string :=
  cursor_encode (uc_created_at cursor) (uc_user_id cursor).
Definition ServerUserCursor_parse (value : string) : result ApplicationError ServerUserCursor :=
  rmap (fun c => mkServerUserCursor c.1 c.2) (cursor_parse value).

Definition list_users (db : Database) (project_id : Uuid) (project_public_id : string)
    (after : option ServerUserCursor) (limit_plus_one : Z) :
    result ApplicationError (list (ServerUserCursor * ServerUser)) :=
  if negb (in_range 2 101 limit_plus_one) then Err AppError.InvalidInput
  else
    _ <-? active_project db project_id project_public_id ;;
    let users := find_all (db_users db) (fun u =>
        (us_project_id u =? project_id)
        && after_cursor ((fun c => (uc_created_at c, uc_user_id c)) <$> after) (us_created_at u) (us_id u))
      (earliest_first us_created_at us_id) limit_plus_one in
    mapped <-? map_users db project_public_id users ;;
    Ok (zip (map (fun u => mkServerUserCursor (us_created_at u) (us_id u)) users) mapped).

Definition user_by_public_id (db : Database) (project_id : Uuid)
    (project_public_id user_public_id : string) : result ApplicationError ServerUser :=
  _ <-? active_project db project_id project_public_id ;;
  user <-? ok_or (find_one (db_users db) (fun u =>
                    (us_project_id u =? project_id) && bool_decide (us_public_id u = user_public_id)))
             AppError.NotFound ;;
  mapped <-? map_users db project_public_id [user] ;;
  ok_or (last mapped) AppError.Integrity.

(** ** Lookup by email *)
(** The identity an alias of one key version leads to, if it is active. *)
Definition alias_user (db : Database) (aliases : list EmailAliasRow) (project_id : Uuid)
    (candidate : VersionedDigest) : option Uuid :=
  alias ← List.find (fun a =>
      (ea_project_id a =? project_id) && (ea_canonicalization_version a =? 1)
      && (ea_digest_key_version a =? vd_key_version candidate)
      && bool_decide (ea_lookup_digest a = vd_value candidate)
      && is_some (find_by_id (db_email_identities db) (ea_identity_id a) (fun e =>
           (ei_project_id e =? ea_project_id a) && bool_decide (ei_status e = "active"%string))))
    aliases;
  ei_user_id <$> db_email_identities db !! ea_identity_id alias.

(** The candidates must have distinct positive versions, and agree on the user. *)
Definition resolve_active_email_user_id (db : Database) (aliases : list EmailAliasRow)
    (project_id : Uuid) (candidates : list VersionedDigest) : result ApplicationError (option Uuid) :=
  if bool_decide (candidates = []) || (32 <? list_len candidates) then Err AppError.InvalidInput
  else if existsb (fun c => vd_key_version c <=? 0) candidates
          || negb (Z.of_nat (size (list_to_set (map vd_key_version candidates) : gset Z))
                   =? list_len candidates)
  then Err AppError.InvalidInput
  else
    let user_ids := elements (list_to_set (omap (alias_user db aliases project_id) candidates) : gset Z) in
    if 1 <? list_len user_ids then Err AppError.Integrity else Ok (head user_ids).

Definition user_by_email_digests (db : Database) (aliases : list EmailAliasRow) (project_id : Uuid)
    (project_public_id : string) (candidates : list VersionedDigest) :
    result ApplicationError (option ServerUser) :=
  if bool_decide (candidates = []) || (32 <? list_len candidates) then Err AppError.InvalidInput
  else
    _ <-? active_project db project_id project_public_id ;;
    found <-? resolve_active_email_user_id db aliases project_id candidates ;;
    match found with
    | None => Ok None
    | Some user_id =>
        user <-? ok_or (find_by_id (db_users db) user_id (fun u => us_project_id u =? project_id))
                   AppError.Integrity ;;
        status <-? user_status user ;;
        Ok (Some (map_server_user project_public_id user status None))
    end.

(** [RuntimeServerEmailLookupDigester]: the readable versions, in order. *)
Definition RuntimeServerEmailLookupDigester_new (readable_versions : list Z) :
    result ApplicationError (list Z) :=
  if bool_decide (readable_versions = []) || (32 <? list_len readable_versions)
     || existsb (fun v => v <=? 0) readable_versions
     || negb (bool_decide (email_identity_active_version ∈ readable_versions))
  then Err AppError.InvalidInput
  else Ok readable_versions.

Definition digest_candidates (readable_versions : list Z) (project_id : Uuid)
    (canonical_email : string) : result ApplicationError (list VersionedDigest) :=
  rmapM (fun version => email_digest_at (be_bytes 16 project_id) (bytes canonical_email) version)
    readable_versions.

(** ** Projections *)
(** [ServerProjectionReader]: it reads, and refuses to protect. *)
Definition server_projection_reader : ProjectionCryptography :=
  {| projection_write_version := protector_write_version;
     projection_readable_versions := protector_readable_versions;
     read_durable_email := read_durable_address;
     protect_projection_email := fun _ _ _ _ _ _ => Err AppError.Disabled;
     unprotect_projection_email := unprotect_verified_email |}.

Definition read_projection (projection : ProjectionRow) : result ApplicationError json :=
  @wire_projection_document _ server_projection_reader projection.

Definition application_projection (db : Database) (project_id : Uuid)
    (project_public_id application_public_id user_public_id : string) :
    result ApplicationError ServerApplicationProjection :=
  _ <-? active_project db project_id project_public_id ;;
  application <-? ok_or (find_one (db_applications db) (fun a =>
                           (ap_project_id a =? project_id)
                           && bool_decide (ap_public_id a = application_public_id)
                           && bool_decide (ap_status a = "active"%string))) AppError.NotFound ;;
  user <-? ok_or (find_one (db_users db) (fun u =>
                    (us_project_id u =? project_id) && bool_decide (us_public_id u = user_public_id)))
             AppError.NotFound ;;
  binding <-? ok_or (find_one (db_bindings db) (fun b =>
                       (ub_project_id b =? project_id) && (ub_application_id b =? ap_id application)
                       && (ub_user_id b =? us_id user) && bool_decide (ub_status b = "active"%string)))
                AppError.NotFound ;;
  projection <-? ok_or (find_one (db_projections db) (fun p =>
                          (pn_project_id p =? project_id) && (pn_binding_id p =? ub_id binding)
                          && (pn_application_id p =? ap_id application)
                          && (pn_user_id p =? us_id user))) AppError.NotFound ;;
  document <-? read_projection projection ;;
  Ok {| sj_project_public_id := project_public_id;
        sj_application_public_id := ap_public_id application; sj_user_public_id := us_public_id user;
        sj_projection_revision := pn_projection_revision projection; sj_document := document |}.

(** ** Access tokens *)
Definition decode_part (encoded : string) : result ApplicationError (list Z) :=
  ok_or (b64_decode encoded) AppError.InvalidInput.

Definition ParsedAccessToken_parse (token : string) : result ApplicationError ParsedAccessToken :=
  if is_empty token || (MAX_SERVER_ACCESS_TOKEN_BYTES <? str_len token) || negb (is_ascii_str token)
  then Err AppError.InvalidInput
  else
    match split_byte 0x2E token with
    | [encoded_header; encoded_claims; encoded_signature] =>
        raw <-? decode_part encoded_header ;;
        header <-? ok_or (header_from_slice raw) AppError.InvalidInput ;;
        raw <-? decode_part encoded_claims ;;
        claims <-? ok_or (claims_from_slice raw) AppError.InvalidInput ;;
        if negb (bool_decide (th_alg header = "EdDSA"%string))
           || negb (bool_decide (th_typ header = SERVER_ACCESS_TOKEN_TYP))
           || is_empty (th_kid header) || (128 <? str_len (th_kid header))
        then Err AppError.InvalidInput
        else
          signature <-? decode_part encoded_signature ;;
          if negb (list_len signature =? 64) then Err AppError.InvalidInput
          else Ok (mkParsedAccessToken header claims
                     (String.append encoded_header (String.append "." encoded_claims)) signature)
    | _ => Err AppError.InvalidInput
    end.

(** [verify_ed25519]: [adapters/runtime_security.rs]. *)
Definition jwk_string (field : string) (jwk : json) : option string :=
  match json_get field jwk with
  | Some (JString s) => Some s
  | _ => None
  end.

Definition validate_public_ed25519_jwk (jwk : json) : result ApplicationError unit :=
  if negb (forallb (fun field => bool_decide (field ∈ ["alg"; "crv"; "kid"; "kty"; "use"; "x"]%string))
             (object_keys jwk))
     || negb (bool_decide (jwk_string "kty" jwk = Some "OKP"%string))
     || negb (bool_decide (jwk_string "crv" jwk = Some "Ed25519"%string))
     || negb (bool_decide (jwk_string "alg" jwk = Some "EdDSA"%string))
     || negb (bool_decide (jwk_string "use" jwk = Some "sig"%string))
     || is_none (jwk_string "x" jwk)
     || match jwk_string "kid" jwk with Some kid => is_empty kid | None => true end
  then Err AppError.Integrity else Ok tt.

Definition verify_ed25519 (public_jwk : json) (signing_input signature : list Z) :
    result ApplicationError unit :=
  match public_jwk with
  | JObject _ =>
      _ <-? validate_public_ed25519_jwk public_jwk ;;
      encoded_key <-? ok_or (jwk_string "x" public_jwk) AppError.Integrity ;;
      decoded_key <-? ok_or (b64_decode encoded_key) AppError.Integrity ;;
      if negb (bool_decide (b64_encode decoded_key = encoded_key)) then Err AppError.Integrity
      else if negb (list_len decoded_key =? 32) then Err AppError.Integrity
      else if negb (verifying_key_ok decoded_key) then Err AppError.Integrity
      else if negb (signature_ok signature) then Err AppError.InvalidInput
      else if verify_strict decoded_key signing_input signature then Ok tt
      else Err AppError.InvalidTransition
  | _ => Err AppError.Integrity
  end.

Definition verification_key (db : Database) (project_id : Uuid) (kid : string) (now : OffsetDateTime) :
    result ApplicationError ServerVerificationKey :=
  owner <-? ok_or (find_by_id (db_projects db) project_id (fun p =>
                     bool_decide (pj_status p = "active"%string))) AppError.NotFound ;;
  ring <-? ok_or (find_one (db_rings db) (fun r =>
                    (kr_project_id r =? project_id)
                    && bool_decide (kr_purpose r = "application_tokens"%string)
                    && bool_decide (kr_algorithm r = "EdDSA"%string))) AppError.NotFound ;;
  key <-? ok_or (find_one (db_keys db) (fun k =>
                   (sk_project_id k =? project_id) && (sk_ring_id k =? kr_id ring)
                   && bool_decide (sk_kid k = kid))) AppError.NotFound ;;
  if negb (bool_decide (sk_state key = "active"%string))
     && negb (bool_decide (sk_state key = "retiring"%string)
              && is_some_and (sk_verify_not_after key) (fun cutoff => now <? cutoff))
  then Err AppError.Disabled
  else Ok {| vk_project_id := project_id; vk_project_public_id := pj_public_id owner;
             vk_issuer := kr_issuer ring; vk_public_jwk := sk_public_jwk key |}.

(** The joined row of [introspect_session]. *)
Record SessionView := mkSessionView {
  sw_project : ProjectRow; sw_policy : PolicyRow; sw_application : ApplicationRow;
  sw_user : UserRow; sw_session : ApplicationSessionRow; sw_browser : BrowserSessionRow;
  sw_family : RefreshFamilyRow; sw_binding : UserBindingRow; sw_projection : ProjectionRow
}.

Definition rows {Row : Type} (t : gmap Z Row) : list Row := map snd (map_to_list t).

(** The joins, from the session the token names. *)
Definition session_joins (db : Database) (lookup : ServerTokenSessionLookup) : list SessionView :=
  project ← option_list (db_projects db !! sl_project_id lookup);
  policy ← option_list (db_policies db !! pj_id project);
  application ← List.filter (fun a => (ap_project_id a =? pj_id project)
      && bool_decide (ap_public_id a = sl_application_public_id lookup)) (rows (db_applications db));
  user ← List.filter (fun u => (us_project_id u =? pj_id project)
      && bool_decide (us_public_id u = sl_user_public_id lookup)) (rows (db_users db));
  session ← option_list (find_by_id (db_sessions db) (sl_application_session_id lookup) (fun x =>
      (as_project_id x =? pj_id project) && (as_application_id x =? ap_id application)
      && (as_user_id x =? us_id user)));
  browser ← List.filter (fun b => (bs_project_id b =? pj_id project) && (bs_user_id b =? us_id user)
      && bool_decide (as_browser_session_id session = Some (bs_id b))) (rows (db_browsers db));
  family ← List.filter (fun f => (rf_project_id f =? pj_id project)
      && (rf_application_id f =? ap_id application) && (rf_user_id f =? us_id user)
      && (rf_application_session_id f =? as_id session)) (rows (db_families db));
  binding ← List.filter (fun b => (ub_project_id b =? pj_id project)
      && (ub_application_id b =? ap_id application) && (ub_user_id b =? us_id user)
      && (ub_id b =? as_binding_id session)) (rows (db_bindings db));
  projection ← List.filter (fun p => (pn_project_id p =? pj_id project)
      && (pn_application_id p =? ap_id application) && (pn_user_id p =? us_id user)
      && (pn_binding_id p =? ub_id binding)) (rows (db_projections db));
  [mkSessionView project policy application user session browser family binding projection].

(** The [WHERE] clause. *)
Definition session_is_live (lookup : ServerTokenSessionLookup) (v : SessionView) : bool :=
  let active (status : string) := bool_decide (status = "active"%string) in
  let session := sw_session v in
  let browser := sw_browser v in
  let now := sl_now lookup in
  active (pj_status (sw_project v)) && active (ap_status (sw_application v))
  && active (us_status (sw_user v))
  && active (as_status session) && (now <? as_absolute_expires_at session)
  && (sl_expires_at lookup <=? as_absolute_expires_at session)
  && (as_authenticated_at session <=? sl_issued_at lookup)
  && active (bs_status browser) && (now <? bs_idle_expires_at browser)
  && (now <? bs_absolute_expires_at browser)
  && active (rf_status (sw_family v)) && (now <? rf_absolute_expires_at (sw_family v))
  && active (ub_status (sw_binding v))
  && (as_project_security_revision session =? pj_security_revision (sw_project v))
  && (as_application_security_revision session =? ap_security_revision (sw_application v))
  && (as_user_security_revision session =? us_security_revision (sw_user v))
  && (as_claims_revision session =? sl_claims_revision lookup)
  && (po_claims_revision (sw_policy v) =? sl_claims_revision lookup)
  && (as_policy_session_revision session =? po_session_revision (sw_policy v))
  && (bs_project_security_revision browser =? pj_security_revision (sw_project v))
  && (bs_user_security_revision browser =? us_security_revision (sw_user v))
  && (bs_policy_session_revision browser =? po_session_revision (sw_policy v)).

Definition introspect_session (db : Database) (lookup : ServerTokenSessionLookup) :
    result ApplicationError ActiveServerToken :=
  v <-? ok_or (List.find (session_is_live lookup) (session_joins db lookup)) AppError.Disabled ;;
  projection <-? ok_or (db_projections db !! pn_id (sw_projection v)) AppError.Integrity ;;
  if is_empty (pj_public_id (sw_project v))
     || negb (bool_decide (ap_public_id (sw_application v) = sl_application_public_id lookup))
     || negb (bool_decide (us_public_id (sw_user v) = sl_user_public_id lookup))
     || negb (pn_projection_revision projection =? pn_projection_revision (sw_projection v))
  then Err AppError.Integrity
  else
    document <-? read_projection projection ;;
    Ok {| at_project_public_id := pj_public_id (sw_project v);
          at_application_public_id := ap_public_id (sw_application v);
          at_user_public_id := us_public_id (sw_user v);
          at_application_session_id := sl_application_session_id lookup; at_token_type := "Bearer";
          at_issued_at := sl_issued_at lookup; at_expires_at := sl_expires_at lookup;
          at_user_revision := us_user_revision (sw_user v);
          at_application_revision := ap_revision (sw_application v);
          at_session_revision := as_session_revision (sw_session v);
          at_claims_revision := sl_claims_revision lookup;
          at_projection_revision := pn_projection_revision projection;
          at_projection_document := document |}.

(** ** The service *)
Definition service_list_users (db : Database) (principal : ServerPrincipal) (cursor : option string)
    (limit : option Z) : result ApplicationError ServerUserPage :=
  let limit := default DEFAULT_SERVER_USER_PAGE_LIMIT limit in
  if (limit =? 0) || (MAX_SERVER_USER_PAGE_LIMIT <? limit) then Err AppError.InvalidInput
  else
    after <-? parse_cursor_option ServerUserCursor_parse cursor ;;
    found <-? list_users db (sp_project_id principal) (sp_project_public_id principal) after (limit + 1) ;;
    let has_more := limit <? list_len found in
    let page := if has_more then take (Z.to_nat limit) found else found in
    Ok {| up_users := map snd page;
          up_next_cursor := if has_more
                            then (fun entry => ServerUserCursor_encode entry.1) <$> last page
                            else None |}.

Definition service_user (db : Database) (principal : ServerPrincipal) (user_public_id : string) :
    result ApplicationError ServerUser :=
  user_by_public_id db (sp_project_id principal) (sp_project_public_id principal) user_public_id.

Definition lookup_user_by_email (db : Database) (aliases : list EmailAliasRow)
    (readable_versions : list Z) (principal : ServerPrincipal) (email : string) :
    result ApplicationError (option ServerUser) :=
  if 320 <? str_len email then Err AppError.InvalidInput
  else
    canonical <-? map_err (fun _ => AppError.InvalidInput) (CanonicalEmail_parse_v1 email) ;;
    candidates <-? digest_candidates readable_versions (sp_project_id principal)
                     (CanonicalEmail_expose canonical) ;;
    if bool_decide (candidates = []) || (32 <? list_len candidates) then Err AppError.Integrity
    else user_by_email_digests db aliases (sp_project_id principal) (sp_project_public_id principal)
           candidates.

Definition service_application_projection (db : Database) (principal : ServerPrincipal)
    (application_public_id user_public_id : string) :
    result ApplicationError ServerApplicationProjection :=
  application_projection db (sp_project_id principal) (sp_project_public_id principal)
    application_public_id user_public_id.

(** [introspect_active]: the key is read in [db], the session in [later]. *)
Definition introspect_active (now : OffsetDateTime) (db later : Database) (principal : ServerPrincipal)
    (token : string) (expected_application_public_id : option string) :
    result ApplicationError ActiveServerToken :=
  parsed <-? ParsedAccessToken_parse token ;;
  let claims := pt_claims parsed in
  if is_some_and expected_application_public_id (fun expected =>
       negb (bool_decide (expected = tc_application_id claims)))
  then Err AppError.Disabled
  else
    key <-? verification_key db (sp_project_id principal) (th_kid (pt_header parsed)) now ;;
    if negb (vk_project_id key =? sp_project_id principal)
       || negb (bool_decide (vk_project_public_id key = sp_project_public_id principal))
       || negb (bool_decide (tc_issuer claims = vk_issuer key))
       || negb (bool_decide (tc_audience claims = vk_project_public_id key))
       || (tc_claims_revision claims <=? 0) || is_empty (tc_jwt_id claims)
       || (tc_not_before claims <? tc_issued_at claims)
       || (tc_expires_at claims <? tc_not_before claims)
       || (tc_issued_at claims <? tc_authenticated_at claims)
    then Err AppError.Disabled
    else
      let now_seconds := unix_timestamp now in
      if (tc_expires_at claims <=? now_seconds - SERVER_TOKEN_CLOCK_SKEW_SECONDS)
         || (now_seconds + SERVER_TOKEN_CLOCK_SKEW_SECONDS <? tc_not_before claims)
         || (now_seconds + SERVER_TOKEN_CLOCK_SKEW_SECONDS <? tc_issued_at claims)
      then Err AppError.InvalidTransition
      else
        _ <-? verify_ed25519 (vk_public_jwk key) (bytes (pt_signing_input parsed)) (pt_signature parsed) ;;
        issued_at <-? ok_or (from_unix_timestamp (tc_issued_at claims)) AppError.InvalidInput ;;
        expires_at <-? ok_or (from_unix_timestamp (tc_expires_at claims)) AppError.InvalidInput ;;
        introspect_session later
          {| sl_project_id := sp_project_id principal;
             sl_application_public_id := tc_application_id claims;
             sl_user_public_id := tc_subject claims;
             sl_application_session_id := tc_session_id claims;
             sl_claims_revision := tc_claims_revision claims; sl_issued_at := issued_at;
             sl_expires_at := expires_at; sl_now := now |}.

Definition introspect (now : OffsetDateTime) (db later : Database) (principal : ServerPrincipal)
    (token : string) (expected_application_public_id : option string) :
    result ApplicationError Introspection.ServerTokenIntrospection :=
  match introspect_active now db later principal token expected_application_public_id with
  | Ok active => Ok (Introspection.Active active)
  | Err (AppError.InvalidInput | AppError.NotFound | AppError.Disabled | AppError.InvalidTransition) =>
      Ok Introspection.Inactive
  | Err error => Err error
  end.
End server_api.
