(* ===== verification/ControlLifecycle.v ===== *)
(** * Control of users and sessions

    [application/control_lifecycle.rs] and [adapters/postgres/control_lifecycle.rs]:
    what an operator does with the users of a project.  The directory lists and
    finds users, their identities and their sessions; a user is disabled and
    enabled again; an application session or a browser session is revoked.

    A directory call makes several reads outside a transaction; each has its own
    snapshot argument.  The four commands are transactions on the store.  The
    identities of providers and the tombstones of merges belong to the identity
    graph, which these operations only read ([IdentityGraph]).  PostgreSQL's
    [lower] is a parameter ([PgText]). *)
From S2P Require Import Prelude.
From S2P Require Import Json.
From S2P Require Import Managed.
From S2P Require Import Email.
From S2P Require Import UrlValues.
From S2P Require Import BTreeMap.
From S2P Require Import LoginTables.
From S2P Require Import Database.
From S2P Require Import LoginStore.
From S2P Require Import Projection.
From S2P Require Import WebhookOutbox.
From S2P Require Import WebhookDelivery.
From S2P Require Import SessionAuthority.
From S2P Require Import ServerKeys.
From S2P Require Import ServerApi.

(** ** Constants *)
Definition MAX_PROJECT_USER_PAGE_LIMIT : Z := 100.
Definition DEFAULT_PROJECT_USER_PAGE_LIMIT : Z := 50.
Definition MAX_CONTROL_RESULTS : Z := 100.

(** ** Records *)
Module ProjectUser.
Inductive ProjectUserStatus := Active | Disabled | Merged.
Inductive ProjectUserSort := CreatedNewest | CreatedOldest.
Inductive ProjectUserIdentityFilter := Provider (provider_key : option string) | Email.
Inductive ProjectUserIdentityStatus := IdentityActive | IdentityDisabled.
Inductive ManagedSessionStatus := SessionActive | SessionRevoked | SessionExpired.
#[global] Instance ProjectUserStatus_eq_dec : EqDecision ProjectUserStatus.
Proof. solve_decision. Defined.
#[global] Instance ManagedSessionStatus_eq_dec : EqDecision ManagedSessionStatus.
Proof. solve_decision. Defined.
End ProjectUser.
Abbreviation ProjectUserStatus := ProjectUser.ProjectUserStatus.
Abbreviation ProjectUserSort := ProjectUser.ProjectUserSort.
Abbreviation ProjectUserIdentityFilter := ProjectUser.ProjectUserIdentityFilter.
Abbreviation ManagedSessionStatus := ProjectUser.ManagedSessionStatus.

Module IdentityKind.
Inductive ProjectUserIdentityKind := Provider | Email.
#[global] Instance ProjectUserIdentityKind_eq_dec : EqDecision ProjectUserIdentityKind.
Proof. solve_decision. Defined.
End IdentityKind.
Abbreviation ProjectUserIdentityKind := IdentityKind.ProjectUserIdentityKind.

Record ProjectUserListCriteria := mkProjectUserListCriteria {
  cr_status : option ProjectUserStatus; cr_search : option string;
  cr_identity : option ProjectUserIdentityFilter; cr_sort : ProjectUserSort
}.

Record ProjectUserRecord := mkProjectUserRecord {
  pu_id : Uuid; pu_project_id : Uuid; pu_public_id : string; pu_status : ProjectUserStatus;
  pu_user_revision : Z; pu_security_revision : Z; pu_display_name : option string;
  pu_picture_url : option string; pu_created_at : OffsetDateTime; pu_updated_at : OffsetDateTime
}.

Record ProjectUserPage := mkProjectUserPage {
  pg_items : list ProjectUserRecord; pg_next_cursor : option Uuid
}.

Record ProjectUserIdentityRecord := mkProjectUserIdentityRecord {
  pi_id : Uuid; pi_project_id : Uuid; pi_user_id : Uuid; pi_kind : ProjectUserIdentityKind;
  pi_status : ProjectUser.ProjectUserIdentityStatus; pi_identity_revision : Z;
  pi_is_primary_source : bool; pi_provider_key : option string;
  pi_verified_or_observed_at : OffsetDateTime; pi_created_at : OffsetDateTime;
  pi_updated_at : OffsetDateTime
}.

Record ApplicationSessionRecord := mkApplicationSessionRecord {
  ar_id : Uuid; ar_project_id : Uuid; ar_user_id : Uuid; ar_application_id : Uuid;
  ar_application_public_id : string; ar_application_display_name : string;
  ar_browser_session_id : option Uuid; ar_status : ManagedSessionStatus; ar_session_revision : Z;
  ar_authenticated_at : OffsetDateTime; ar_absolute_expires_at : OffsetDateTime;
  ar_revoked_at : option OffsetDateTime; ar_created_at : OffsetDateTime;
  ar_updated_at : OffsetDateTime
}.

Record BrowserSessionRecord := mkBrowserSessionRecord {
  br_id : Uuid; br_project_id : Uuid; br_user_id : Uuid; br_status : ManagedSessionStatus;
  br_session_revision : Z; br_authenticated_at : OffsetDateTime;
  br_last_activity_at : OffsetDateTime; br_idle_expires_at : OffsetDateTime;
  br_absolute_expires_at : OffsetDateTime; br_terminated_at : option OffsetDateTime;
  br_created_at : OffsetDateTime; br_updated_at : OffsetDateTime
}.

Record ProjectUserSessions := mkProjectUserSessions {
  px_application_sessions : list ApplicationSessionRecord;
  px_browser_sessions : list BrowserSessionRecord
}.

Record DisableProjectUser := mkDisableProjectUser {
  du_project_id : Uuid; du_user_id : Uuid; du_expected_security_revision : Z;
  du_correlation_id : Uuid; du_now : OffsetDateTime
}.
Record EnableProjectUser := mkEnableProjectUser {
  eu_project_id : Uuid; eu_user_id : Uuid; eu_expected_security_revision : Z;
  eu_correlation_id : Uuid; eu_now : OffsetDateTime
}.
Record RevokeApplicationSession := mkRevokeApplicationSession {
  ra_project_id : Uuid; ra_user_id : Uuid; ra_session_id : Uuid;
  ra_expected_session_revision : Z; ra_correlation_id : Uuid; ra_now : OffsetDateTime
}.
Record RevokeBrowserSession := mkRevokeBrowserSession {
  rb_project_id : Uuid; rb_user_id : Uuid; rb_session_id : Uuid;
  rb_expected_session_revision : Z; rb_correlation_id : Uuid; rb_now : OffsetDateTime
}.

(** ** Tables of the identity graph *)
Record LinkedIdentityRow := mkLinkedIdentityRow {
  li_id : Uuid; li_project_id : Uuid; li_user_id : Uuid;
  li_created_via_provider_configuration_id : Uuid; li_status : string; li_identity_revision : Z;
  li_observed_at : OffsetDateTime; li_created_at : OffsetDateTime; li_updated_at : OffsetDateTime
}.
Record MergeTombstoneRow := mkMergeTombstoneRow {
  mt_project_id : Uuid; mt_loser_user_id : Uuid; mt_winner_user_id : Uuid
}.
Record IdentityGraph := mkIdentityGraph {
  ig_linked : gmap Z LinkedIdentityRow;
  ig_tombstones : list MergeTombstoneRow
}.

(** [lower], as the database's collation has it. *)
Class PgText : Type := { pg_lower : string -> string }.

(** ** The users table *)
Definition user_with (status : string) (user_revision security_revision : Z) (now : OffsetDateTime)
    (u : UserRow) : UserRow :=
  mkUserRow (us_id u) (us_project_id u) (us_public_id u) status (us_merged_into_user_id u)
    user_revision security_revision (us_primary_profile_identity_id u)
    (us_primary_email_identity_id u) (us_primary_source_kind u) (us_base_profile_digest u)
    (us_local_display_name_set u) (us_local_display_name u) (us_local_picture_url_set u)
    (us_local_picture_url u) (us_local_locale_set u) (us_local_locale u) (us_display_name u)
    (us_picture_url u) (us_locale u) (us_created_at u) now.

Definition char_length (s : string) : Z := list_len (chars s).
Definition length_within (lo hi : Z) (o : option string) : bool :=
  match o with
  | Some s => in_range lo hi (char_length s)
  | None => true
  end.

Definition merged_shape_check (u : UserRow) : bool :=
  (bool_decide (us_status u = "merged"%string)
   && is_some_and (us_merged_into_user_id u) (fun w => negb (w =? us_id u))
   && is_none (us_primary_profile_identity_id u) && is_none (us_primary_email_identity_id u))
  || (bool_decide (us_status u ∈ ["active"; "disabled"]%string)
      && is_none (us_merged_into_user_id u)
      && ((bool_decide (us_primary_source_kind u = "provider"%string)
           && is_none (us_primary_email_identity_id u))
          || (bool_decide (us_primary_source_kind u = "email"%string)
              && is_none (us_primary_profile_identity_id u)))).

Definition local_profile_shape_check (u : UserRow) : bool :=
  (us_local_display_name_set u || is_none (us_local_display_name u))
  && (us_local_picture_url_set u || is_none (us_local_picture_url u))
  && (us_local_locale_set u || is_none (us_local_locale u))
  && length_within 1 128 (us_local_display_name u)
  && length_within 8 2048 (us_local_picture_url u)
  && length_within 2 35 (us_local_locale u)
  && length_within 2 35 (us_locale u).

Definition project_user_check (u : UserRow) : bool :=
  (list_len (us_base_profile_digest u) =? 32)
  && length_within 1 128 (us_display_name u)
  && merged_shape_check u
  && length_within 8 2048 (us_picture_url u)
  && in_range 8 96 (char_length (us_public_id u))
  && (0 <? us_security_revision u)
  && bool_decide (us_status u ∈ ["active"; "disabled"; "merged"]%string)
  && (0 <? us_user_revision u)
  && local_profile_shape_check u
  && bool_decide (us_primary_source_kind u ∈ ["provider"; "email"]%string).

Definition project_user_conflict (a b : UserRow) : bool :=
  bool_decide (us_project_id a = us_project_id b /\ us_public_id a = us_public_id b).

(** The trigger before an update: what a merge attributed stays. *)
Definition merged_user_kept (old new : UserRow) : bool :=
  negb (bool_decide (us_status old = "merged"%string))
  || bool_decide (us_status new = us_status old /\ us_project_id new = us_project_id old
       /\ us_id new = us_id old /\ us_primary_source_kind new = us_primary_source_kind old
       /\ us_primary_profile_identity_id new = us_primary_profile_identity_id old
       /\ us_primary_email_identity_id new = us_primary_email_identity_id old
       /\ us_merged_into_user_id new = us_merged_into_user_id old).

Definition update_user (row : UserRow) : txn unit :=
  db <~ mget ;;
  check_that (is_some_and (db_users db !! us_id row) (fun old => merged_user_kept old row)
              && project_user_check row
              && unique_in project_user_conflict (us_id row) row (db_users db)) AppError.Persistence ;;~
  mmodify (set_db_users (<[us_id row := row]> (db_users db))).

(** The deferred triggers of the users table, on the row with this id. *)
Definition exact_primary_identity (u : UserRow) : bool :=
  if bool_decide (us_status u = "merged"%string)
  then is_some (us_merged_into_user_id u) && is_none (us_primary_profile_identity_id u)
       && is_none (us_primary_email_identity_id u)
  else if bool_decide (us_primary_source_kind u = "provider"%string)
  then is_some (us_primary_profile_identity_id u) && is_none (us_primary_email_identity_id u)
       && is_none (us_merged_into_user_id u)
  else bool_decide (us_primary_source_kind u = "email"%string)
       && is_none (us_primary_profile_identity_id u) && is_some (us_primary_email_identity_id u)
       && is_none (us_merged_into_user_id u).

Definition owns_identity (graph : IdentityGraph) (db : Database) (project_id user_id : Uuid) : bool :=
  existsb (fun i => (li_project_id i =? project_id) && (li_user_id i =? user_id)) (rows (ig_linked graph))
  || existsb (fun i => (ei_project_id i =? project_id) && (ei_user_id i =? user_id))
       (rows (db_email_identities db)).

Definition active_winner (db : Database) (project_id : Uuid) (winner : option Uuid) : bool :=
  is_some_and winner (fun w =>
    is_some_and (find_by_id (db_users db) w (fun u => us_project_id u =? project_id))
      (fun u => bool_decide (us_status u = "active"%string) && is_none (us_merged_into_user_id u))).

(** A merged user has an active winner, a tombstone, and no identity. *)
Definition merged_loser_ok (graph : IdentityGraph) (db : Database) (loser : UserRow) : bool :=
  active_winner db (us_project_id loser) (us_merged_into_user_id loser)
  && existsb (fun t => (mt_project_id t =? us_project_id loser) && (mt_loser_user_id t =? us_id loser)
                       && bool_decide (Some (mt_winner_user_id t) = us_merged_into_user_id loser))
       (ig_tombstones graph)
  && negb (owns_identity graph db (us_project_id loser) (us_id loser)).

Definition tombstone_ok (graph : IdentityGraph) (db : Database) (t : MergeTombstoneRow) : bool :=
  is_some_and (find_by_id (db_users db) (mt_loser_user_id t) (fun u => us_project_id u =? mt_project_id t))
    (fun loser => bool_decide (us_status loser = "merged"%string)
                  && bool_decide (us_merged_into_user_id loser = Some (mt_winner_user_id t))
                  && is_none (us_primary_profile_identity_id loser)
                  && is_none (us_primary_email_identity_id loser))
  && active_winner db (mt_project_id t) (Some (mt_winner_user_id t))
  && negb (owns_identity graph db (mt_project_id t) (mt_loser_user_id t)).

Definition merged_attribution (graph : IdentityGraph) (db : Database) (project_id user_id : Uuid) : bool :=
  forallb (fun loser =>
      negb ((us_project_id loser =? project_id)
            && ((us_id loser =? user_id) || bool_decide (us_merged_into_user_id loser = Some user_id))
            && bool_decide (us_status loser = "merged"%string))
      || merged_loser_ok graph db loser) (rows (db_users db))
  && forallb (fun t =>
      negb ((mt_project_id t =? project_id)
            && ((mt_loser_user_id t =? user_id) || (mt_winner_user_id t =? user_id)))
      || tombstone_ok graph db t) (ig_tombstones graph).

Definition no_live_binding_after_merge (db : Database) (u : UserRow) : bool :=
  negb (bool_decide (us_status u = "merged"%string))
  || negb (existsb (fun b => (ub_project_id b =? us_project_id u) && (ub_user_id b =? us_id u)
                             && negb (bool_decide (ub_status b = "merged"%string))) (rows (db_bindings db))).

Definition user_triggers (graph : IdentityGraph) (project_id user_id : Uuid) : txn unit :=
  db <~ mget ;;
  check_that (is_some_and (find_by_id (db_users db) user_id (fun u => us_project_id u =? project_id))
                (fun u => exact_primary_identity u && no_live_binding_after_merge db u)
              && merged_attribution graph db project_id user_id) AppError.Persistence.

(** ** Records from rows *)
Definition project_user_status (status : ProjectUserStatus) : string :=
  match status with
  | ProjectUser.Active => "active"
  | ProjectUser.Disabled => "disabled"
  | ProjectUser.Merged => "merged"
  end.

Definition project_user_record (u : UserRow) : result ApplicationError ProjectUserRecord :=
  status <-?
    (if bool_decide (us_status u = "active"%string) then Ok ProjectUser.Active
     else if bool_decide (us_status u = "disabled"%string) then Ok ProjectUser.Disabled
     else if bool_decide (us_status u = "merged"%string) then Ok ProjectUser.Merged
     else Err AppError.Integrity) ;;
  if (us_user_revision u <=? 0) || (us_security_revision u <=? 0) then Err AppError.Integrity
  else Ok {| pu_id := us_id u; pu_project_id := us_project_id u; pu_public_id := us_public_id u;
             pu_status := status; pu_user_revision := us_user_revision u;
             pu_security_revision := us_security_revision u; pu_display_name := us_display_name u;
             pu_picture_url := us_picture_url u; pu_created_at := us_created_at u;
             pu_updated_at := us_updated_at u |}.

Definition session_status (persisted : string) (expired : bool) :
    result ApplicationError ManagedSessionStatus :=
  if bool_decide (persisted = "active"%string)
  then Ok (if expired then ProjectUser.SessionExpired else ProjectUser.SessionActive)
  else if bool_decide (persisted = "revoked"%string) || bool_decide (persisted = "terminated"%string)
  then Ok ProjectUser.SessionRevoked
  else Err AppError.Integrity.

Definition application_session_record (s : ApplicationSessionRow) (application : ApplicationRow)
    (now : OffsetDateTime) : result ApplicationError ApplicationSessionRecord :=
  status <-? session_status (as_status s) (as_absolute_expires_at s <=? now) ;;
  if (as_session_revision s <=? 0) || negb (ap_project_id application =? as_project_id s)
  then Err AppError.Integrity
  else Ok {| ar_id := as_id s; ar_project_id := as_project_id s; ar_user_id := as_user_id s;
             ar_application_id := as_application_id s;
             ar_application_public_id := ap_public_id application;
             ar_application_display_name := ap_display_name application;
             ar_browser_session_id := as_browser_session_id s; ar_status := status;
             ar_session_revision := as_session_revision s;
             ar_authenticated_at := as_authenticated_at s;
             ar_absolute_expires_at := as_absolute_expires_at s; ar_revoked_at := as_revoked_at s;
             ar_created_at := as_created_at s; ar_updated_at := as_updated_at s |}.

Definition browser_session_record (b : BrowserSessionRow) (now : OffsetDateTime) :
    result ApplicationError BrowserSessionRecord :=
  let expired := (bs_idle_expires_at b <=? now) || (bs_absolute_expires_at b <=? now) in
  status <-? session_status (bs_status b) expired ;;
  if bs_session_revision b <=? 0 then Err AppError.Integrity
  else Ok {| br_id := bs_id b; br_project_id := bs_project_id b; br_user_id := bs_user_id b;
             br_status := status; br_session_revision := bs_session_revision b;
             br_authenticated_at := bs_authenticated_at b;
             br_last_activity_at := bs_last_activity_at b;
             br_idle_expires_at := bs_idle_expires_at b;
             br_absolute_expires_at := bs_absolute_expires_at b;
             br_terminated_at := bs_terminated_at b; br_created_at := bs_created_at b;
             br_updated_at := bs_updated_at b |}.

(** ** Guards *)
Definition bounded_limit (limit : Z) : result ApplicationError unit :=
  if negb (in_range 1 100 limit) then Err AppError.InvalidInput else Ok tt.

Definition enforce_bound {A : Type} (items : list A) (limit : Z) : result ApplicationError unit :=
  if limit <? list_len items then Err AppError.Integrity else Ok tt.

Definition next_revision (revision : option Z) : result ApplicationError Z :=
  ok_or (r ← revision; if 0 <? r then checked_add_i64 r 1 else None) AppError.Integrity.

Definition positive_revision (revision : Z) : result ApplicationError unit :=
  if revision <=? 0 then Err AppError.InvalidInput else Ok tt.

Definition find_user (db : Database) (project_id user_id : Uuid) : option UserRow :=
  find_by_id (db_users db) user_id (fun u => us_project_id u =? project_id).

Definition require_project_user (db : Database) (project_id user_id : Uuid) :
    result ApplicationError unit :=
  rmap (fun _ => tt) (ok_or (find_user db project_id user_id) AppError.NotFound).

Definition require_project (db : Database) (project_id : Uuid) : result ApplicationError unit :=
  rmap (fun _ => tt) (ok_or (db_projects db !! project_id) AppError.NotFound).

Definition require_user (project_db db : Database) (project_id user_id : Uuid) :
    result ApplicationError UserRow :=
  _ <-? require_project project_db project_id ;;
  ok_or (find_user db project_id user_id) AppError.NotFound.

Definition lock_active_project (project_id : Uuid) : txn ProjectRow :=
  db <~ mget ;;
  project <~ mlift (ok_or (db_projects db !! project_id) AppError.NotFound) ;;
  if negb (bool_decide (pj_status project = "active"%string)) then mfail AppError.Disabled
  else mret project.

(** ** The directory *)
Section directory.
Context `{PgText}.

(** [PROJECT_USER_PREFIX_FILTER]; a NULL name does not match. *)
Definition starts_with (s prefix : string) : bool :=
  bool_decide (take (length (bytes prefix)) (bytes s) = bytes prefix).
Definition prefix_filter (search : string) (u : UserRow) : bool :=
  starts_with (pg_lower (us_public_id u)) (pg_lower search)
  || is_some_and (us_display_name u) (fun name => starts_with (pg_lower name) (pg_lower search)).

Definition has_linked_identity (graph : IdentityGraph) (provider_id : option Uuid) (u : UserRow) : bool :=
  existsb (fun i => (li_project_id i =? us_project_id u) && (li_user_id i =? us_id u)
                    && bool_decide (li_status i = "active"%string)
                    && match provider_id with
                       | Some p => li_created_via_provider_configuration_id i =? p
                       | None => true
                       end) (rows (ig_linked graph)).

Definition has_email_identity (db : Database) (u : UserRow) : bool :=
  existsb (fun i => (ei_project_id i =? us_project_id u) && (ei_user_id i =? us_id u)
                    && bool_decide (ei_status i = "active"%string)) (rows (db_email_identities db)).

(** [filter_user_identity]: the condition it adds; the provider is looked up in
    a snapshot of its own. *)
Definition filter_user_identity (provider_db : Database) (graph : IdentityGraph) (db : Database)
    (project_id : Uuid) (identity : option ProjectUserIdentityFilter) (u : UserRow) : bool :=
  match identity with
  | None => true
  | Some ProjectUser.Email => has_email_identity db u
  | Some (ProjectUser.Provider None) => has_linked_identity graph None u
  | Some (ProjectUser.Provider (Some provider_key)) =>
      match find_one (lt_providers (db_login provider_db)) (fun p =>
              (pc_project_id p =? project_id) && bool_decide (pc_provider_key p = provider_key)) with
      | None => false
      | Some provider => has_linked_identity graph (Some (pc_id provider)) u
      end
  end.

(** [ORDER BY created_at DESC, id DESC] or ascending, and what comes after the
    cursor in that order. *)
Definition user_before (sort : ProjectUserSort) (a b : UserRow) : Prop :=
  match sort with
  | ProjectUser.CreatedNewest => us_created_at b < us_created_at a
      \/ us_created_at a = us_created_at b /\ us_id b <= us_id a
  | ProjectUser.CreatedOldest => us_created_at a < us_created_at b
      \/ us_created_at a = us_created_at b /\ us_id a <= us_id b
  end.
#[global] Instance user_before_dec sort : RelDecision (user_before sort).
Proof. intros a b. unfold user_before. destruct sort; apply _. Defined.

Definition beyond (sort : ProjectUserSort) (cursor : option UserRow) (u : UserRow) : bool :=
  match cursor, sort with
  | None, _ => true
  | Some c, ProjectUser.CreatedNewest => (us_created_at u <? us_created_at c)
      || ((us_created_at u =? us_created_at c) && (us_id u <? us_id c))
  | Some c, ProjectUser.CreatedOldest => (us_created_at c <? us_created_at u)
      || ((us_created_at u =? us_created_at c) && (us_id c <? us_id u))
  end.

Definition listed (provider_db : Database) (graph : IdentityGraph) (db : Database) (project_id : Uuid)
    (criteria : ProjectUserListCriteria) (u : UserRow) : bool :=
  (us_project_id u =? project_id)
  && match cr_status criteria with
     | Some status => bool_decide (us_status u = project_user_status status)
     | None => true
     end
  && match cr_search criteria with Some search => prefix_filter search u | None => true end
  && filter_user_identity provider_db graph db project_id (cr_identity criteria) u.

(** The four reads see [project_db], [cursor_db], [provider_db] and [db]. *)
Definition list_project_users (project_db cursor_db provider_db : Database) (graph : IdentityGraph)
    (db : Database) (project_id : Uuid) (criteria : ProjectUserListCriteria) (cursor : option Uuid)
    (limit : Z) : result ApplicationError ProjectUserPage :=
  _ <-? bounded_limit limit ;;
  _ <-? require_project project_db project_id ;;
  cursor <-? match cursor with
             | Some cursor_id =>
                 rmap Some (ok_or (find_user cursor_db project_id cursor_id) AppError.InvalidInput)
             | None => Ok None
             end ;;
  let users := find_all (db_users db) (fun u => listed provider_db graph db project_id criteria u
                                                && beyond (cr_sort criteria) cursor u)
                 (user_before (cr_sort criteria)) (limit + 1) in
  let has_more := limit <? list_len users in
  let users := take (Z.to_nat limit) users in
  items <-? rmapM project_user_record users ;;
  Ok {| pg_items := items;
        pg_next_cursor := if has_more then us_id <$> last users else None |}.

(** One snapshot: the transaction is repeatable. *)
Definition lookup_project_user_by_email_digests (db : Database) (aliases : list EmailAliasRow)
    (project_id : Uuid) (candidates : list VersionedDigest) :
    result ApplicationError (option ProjectUserRecord) :=
  _ <-? require_project db project_id ;;
  user_id <-? resolve_active_email_user_id db aliases project_id candidates ;;
  match user_id with
  | Some user_id =>
      user <-? ok_or (find_user db project_id user_id) AppError.Integrity ;;
      rmap Some (project_user_record user)
  | None => Ok None
  end.

Definition get_project_user (project_db db : Database) (project_id user_id : Uuid) :
    result ApplicationError ProjectUserRecord :=
  _ <-? require_project project_db project_id ;;
  user <-? ok_or (find_user db project_id user_id) AppError.NotFound ;;
  project_user_record user.

(** A row of the safe columns; [ir_is_primary_source] is NULL when the primary
    identity is. *)
Record SafeIdentityRow := mkSafeIdentityRow {
  ir_id : Uuid; ir_project_id : Uuid; ir_user_id : Uuid; ir_kind : string; ir_status : string;
  ir_identity_revision : Z; ir_is_primary_source : option bool; ir_provider_key : option string;
  ir_verified_or_observed_at : option OffsetDateTime; ir_created_at : OffsetDateTime;
  ir_updated_at : OffsetDateTime
}.

(** [source_kind = kind AND primary = id], in three-valued logic. *)
Definition is_primary (kind : string) (primary : option Uuid) (u : UserRow) (id : Uuid) : option bool :=
  if bool_decide (us_primary_source_kind u = kind) then (fun p => p =? id) <$> primary else Some false.

Definition provider_identity_rows (graph : IdentityGraph) (db : Database) (project_id user_id : Uuid) :
    list SafeIdentityRow :=
  i ← List.filter (fun i => (li_project_id i =? project_id) && (li_user_id i =? user_id)) (rows (ig_linked graph));
  u ← option_list (find_user db (li_project_id i) (li_user_id i));
  p ← option_list (find_by_id (lt_providers (db_login db)) (li_created_via_provider_configuration_id i)
                     (fun p => pc_project_id p =? li_project_id i));
  [mkSafeIdentityRow (li_id i) (li_project_id i) (li_user_id i) "provider" (li_status i)
     (li_identity_revision i) (is_primary "provider" (us_primary_profile_identity_id u) u (li_id i))
     (Some (pc_provider_key p)) (Some (li_observed_at i)) (li_created_at i) (li_updated_at i)].

Definition email_identity_rows (db : Database) (project_id user_id : Uuid) : list SafeIdentityRow :=
  e ← List.filter (fun e => (ei_project_id e.2 =? project_id) && (ei_user_id e.2 =? user_id))
        (map_to_list (db_email_identities db));
  u ← option_list (find_user db (ei_project_id e.2) (ei_user_id e.2));
  [mkSafeIdentityRow e.1 (ei_project_id e.2) (ei_user_id e.2) "email" (ei_status e.2)
     (ei_identity_revision e.2) (is_primary "email" (us_primary_email_identity_id u) u e.1)
     None (ei_verified_at e.2) (ei_created_at e.2) (ei_updated_at e.2)].

(** [ORDER BY created_at, identity_id, identity_kind]; "email" sorts first. *)
Definition identity_before (a b : SafeIdentityRow) : Prop :=
  ir_created_at a < ir_created_at b
  \/ ir_created_at a = ir_created_at b
     /\ (ir_id a < ir_id b
         \/ ir_id a = ir_id b /\ (ir_kind a = "email"%string \/ ir_kind b = "provider"%string)).
#[global] Instance identity_before_dec : RelDecision identity_before.
Proof. intros a b. unfold identity_before. apply _. Defined.

Definition project_user_identity_record (row : SafeIdentityRow) :
    result ApplicationError ProjectUserIdentityRecord :=
  kind <-? (if bool_decide (ir_kind row = "provider"%string) then Ok IdentityKind.Provider
            else if bool_decide (ir_kind row = "email"%string) then Ok IdentityKind.Email
            else Err AppError.Integrity) ;;
  status <-? (if bool_decide (ir_status row = "active"%string) then Ok ProjectUser.IdentityActive
              else if bool_decide (ir_status row = "disabled"%string)
              then Ok ProjectUser.IdentityDisabled
              else Err AppError.Integrity) ;;
  if (ir_identity_revision row <=? 0)
     || negb (Bool.eqb (bool_decide (kind = IdentityKind.Provider)) (is_some (ir_provider_key row)))
  then Err AppError.Integrity
  else
    primary <-? ok_or (ir_is_primary_source row) AppError.Persistence ;;
    verified <-? ok_or (ir_verified_or_observed_at row) AppError.Persistence ;;
    Ok {| pi_id := ir_id row; pi_project_id := ir_project_id row; pi_user_id := ir_user_id row;
          pi_kind := kind; pi_status := status; pi_identity_revision := ir_identity_revision row;
          pi_is_primary_source := primary; pi_provider_key := ir_provider_key row;
          pi_verified_or_observed_at := verified; pi_created_at := ir_created_at row;
          pi_updated_at := ir_updated_at row |}.

Definition list_project_user_identities (user_db : Database) (graph : IdentityGraph) (db : Database)
    (project_id user_id : Uuid) (limit : Z) :
    result ApplicationError (list ProjectUserIdentityRecord) :=
  _ <-? bounded_limit limit ;;
  _ <-? require_project_user user_db project_id user_id ;;
  probe_limit <-? ok_or (checked_add_i64 limit 1) AppError.InvalidInput ;;
  let found := take (Z.to_nat probe_limit)
                 (merge_sort identity_before
                    (provider_identity_rows graph db project_id user_id
                     ++ email_identity_rows db project_id user_id)) in
  _ <-? enforce_bound found limit ;;
  rmapM project_user_identity_record found.

(** [ORDER BY created_at DESC, id ASC]. *)
Definition recent_first {Row : Type} (at_ : Row -> OffsetDateTime) (id : Row -> Uuid) (a b : Row) : Prop :=
  at_ b < at_ a \/ at_ a = at_ b /\ id a <= id b.
#[global] Instance recent_first_dec {Row : Type} (at_ id : Row -> Z) : RelDecision (recent_first at_ id).
Proof. intros a b. unfold recent_first. apply _. Defined.

(** The reads see the project, the user, the sessions, the browser sessions and
    the applications in snapshots of their own. *)
Definition list_project_user_sessions (project_db user_db session_db browser_db application_db : Database)
    (project_id user_id : Uuid) (limit : Z) (now : OffsetDateTime) :
    result ApplicationError ProjectUserSessions :=
  _ <-? bounded_limit limit ;;
  _ <-? require_user project_db user_db project_id user_id ;;
  let sessions := find_all (db_sessions session_db)
    (fun s => (as_project_id s =? project_id) && (as_user_id s =? user_id))
    (recent_first as_created_at as_id) (limit + 1) in
  _ <-? enforce_bound sessions limit ;;
  let browsers := find_all (db_browsers browser_db)
    (fun b => (bs_project_id b =? project_id) && (bs_user_id b =? user_id))
    (recent_first bs_created_at bs_id) (limit + 1) in
  _ <-? enforce_bound browsers limit ;;
  application_sessions <-? rmapM (fun s =>
    application <-? ok_or (find_by_id (db_applications application_db) (as_application_id s)
                             (fun a => ap_project_id a =? project_id)) AppError.Integrity ;;
    application_session_record s application now) sessions ;;
  browser_sessions <-? rmapM (fun b => browser_session_record b now) browsers ;;
  Ok {| px_application_sessions := application_sessions; px_browser_sessions := browser_sessions |}.

(** *** The service *)
Definition list_criteria (status : option ProjectUserStatus) (search : option string)
    (identity_kind : option ProjectUserIdentityKind) (provider_key : option string)
    (sort : option ProjectUserSort) : result ApplicationError ProjectUserListCriteria :=
  search <-?
    match search with
    | Some value =>
        let value := trim value in
        if is_empty value then Ok None
        else if 128 <? char_length value then Err AppError.InvalidInput
        else Ok (Some value)
    | None => Ok None
    end ;;
  identity <-?
    match identity_kind, provider_key with
    | None, None => Ok None
    | Some IdentityKind.Email, None => Ok (Some ProjectUser.Email)
    | Some IdentityKind.Provider, None => Ok (Some (ProjectUser.Provider None))
    | Some IdentityKind.Provider, Some key =>
        key <-? map_err (fun _ => AppError.InvalidInput) (ProviderKey_parse key) ;;
        Ok (Some (ProjectUser.Provider (Some (ProviderKey_as_str key))))
    | _, _ => Err AppError.InvalidInput
    end ;;
  Ok {| cr_status := status; cr_search := search; cr_identity := identity;
        cr_sort := default ProjectUser.CreatedNewest sort |}.

Definition service_list_project_users (project_db cursor_db provider_db : Database)
    (graph : IdentityGraph) (db : Database) (project_id : Uuid) (status : option ProjectUserStatus)
    (search : option string) (identity_kind : option ProjectUserIdentityKind)
    (provider_key : option string) (sort : option ProjectUserSort) (cursor : option Uuid)
    (limit : option Z) : result ApplicationError ProjectUserPage :=
  let limit := default DEFAULT_PROJECT_USER_PAGE_LIMIT limit in
  if negb (in_range 1 MAX_PROJECT_USER_PAGE_LIMIT limit) then Err AppError.InvalidInput
  else
    criteria <-? list_criteria status search identity_kind provider_key sort ;;
    list_project_users project_db cursor_db provider_db graph db project_id criteria cursor limit.

Definition lookup_project_user_by_email `{EmailLookupDigester} (db : Database)
    (aliases : list EmailAliasRow) (readable_versions : list Z) (project_id : Uuid) (email : string) :
    result ApplicationError (option ProjectUserRecord) :=
  canonical <-? map_err (fun _ => AppError.InvalidInput) (CanonicalEmail_parse_v1 email) ;;
  candidates <-? digest_candidates readable_versions project_id (CanonicalEmail_expose canonical) ;;
  if bool_decide (candidates = []) || (32 <? list_len candidates) then Err AppError.Integrity
  else lookup_project_user_by_email_digests db aliases project_id candidates.

Definition service_list_project_user_identities (user_db : Database) (graph : IdentityGraph)
    (db : Database) (project_id user_id : Uuid) :
    result ApplicationError (list ProjectUserIdentityRecord) :=
  list_project_user_identities user_db graph db project_id user_id MAX_CONTROL_RESULTS.

Definition service_list_project_user_sessions
    (project_db user_db session_db browser_db application_db : Database) (project_id user_id : Uuid)
    (now : OffsetDateTime) : result ApplicationError ProjectUserSessions :=
  list_project_user_sessions project_db user_db session_db browser_db application_db project_id
    user_id MAX_CONTROL_RESULTS now.
End directory.

(** ** Commands *)
Section commands.
Context `{CanonicalHash} `{ProjectionCryptography} `{UrlLib} `{TimeFormat} `{JsonbText}.

(** [fan_out_user] of [PostgresIdentityProjectionMaterializer]. *)
Definition fan_out_user (clock : OffsetDateTime) (draws : Draws) (user : UserRow)
    (now : OffsetDateTime) : txn unit :=
  mlift assert_projection_crypto_authority ;;~
  fan_out_projected_user clock draws user now.

(** The change of status, its fan-out and its audit event. *)
Definition switch_user (clock : OffsetDateTime) (draws : Draws) (project_id user_id : Uuid)
    (user : UserRow) (status action : string) (correlation_id : Uuid) (now : OffsetDateTime) :
    txn UserRow :=
  user_revision <~ mlift (next_revision (Some (us_user_revision user))) ;;
  security_revision <~ mlift (next_revision (Some (us_security_revision user))) ;;
  let updated := user_with status user_revision security_revision now user in
  update_user updated ;;~
  fan_out_user clock draws updated now ;;~
  append_runtime_audit project_id "deployment_operator" action "project_user" (Some user_id)
    correlation_id ;;~
  mret updated.

Definition locked_user (project_id user_id : Uuid) (expected_security_revision : Z) : txn UserRow :=
  lock_active_project project_id ;;~
  db <~ mget ;;
  user <~ mlift (ok_or (find_user db project_id user_id) AppError.NotFound) ;;
  if negb (us_security_revision user =? expected_security_revision)
  then mfail AppError.RevisionConflict
  else mret user.

Definition disable_locked (clock : OffsetDateTime) (draws : Draws) (graph : IdentityGraph)
    (command : DisableProjectUser) : txn UserRow :=
  user <~ locked_user (du_project_id command) (du_user_id command)
            (du_expected_security_revision command) ;;
  if bool_decide (us_status user = "active"%string) then
    updated <~ switch_user clock draws (du_project_id command) (du_user_id command) user
                 "disabled" "project_user.disabled" (du_correlation_id command) (du_now command) ;;
    user_triggers graph (us_project_id user) (us_id user) ;;~
    mret updated
  else if bool_decide (us_status user = "disabled"%string) then mret user
  else mfail AppError.Integrity.

Definition disable_project_user (clock : OffsetDateTime) (draws : Draws) (graph : IdentityGraph)
    (command : DisableProjectUser) : txn ProjectUserRecord :=
  user <~ transaction (disable_locked clock draws graph command) ;;
  mlift (project_user_record user).

Definition enable_locked (clock : OffsetDateTime) (draws : Draws) (graph : IdentityGraph)
    (command : EnableProjectUser) : txn UserRow :=
  user <~ locked_user (eu_project_id command) (eu_user_id command)
            (eu_expected_security_revision command) ;;
  if bool_decide (us_status user = "disabled"%string) then
    updated <~ switch_user clock draws (eu_project_id command) (eu_user_id command) user
                 "active" "project_user.enabled" (eu_correlation_id command) (eu_now command) ;;
    user_triggers graph (us_project_id user) (us_id user) ;;~
    mret updated
  else if bool_decide (us_status user = "active"%string) then mret user
  else if bool_decide (us_status user = "merged"%string) then mfail AppError.InvalidTransition
  else mfail AppError.Integrity.

Definition enable_project_user (clock : OffsetDateTime) (draws : Draws) (graph : IdentityGraph)
    (command : EnableProjectUser) : txn ProjectUserRecord :=
  user <~ transaction (enable_locked clock draws graph command) ;;
  mlift (project_user_record user).

Definition session_revoked_by_control (revision : Z) (now : OffsetDateTime) (s : ApplicationSessionRow) :
    ApplicationSessionRow :=
  mkApplicationSessionRow (as_id s) (as_project_id s) (as_application_id s) (as_user_id s)
    (as_binding_id s) (as_browser_session_id s) "revoked" revision
    (as_project_security_revision s) (as_application_security_revision s)
    (as_user_security_revision s) (as_claims_revision s) (as_policy_session_revision s)
    (as_authenticated_at s) (as_absolute_expires_at s) (Some now) (as_created_at s) now.

Definition revoke_application_session (command : RevokeApplicationSession) :
    txn ApplicationSessionRecord :=
  found <~ transaction (
    db <~ mget ;;
    mlift (require_user db db (ra_project_id command) (ra_user_id command)) ;;~
    session <~ mlift (ok_or (find_by_id (db_sessions db) (ra_session_id command)
                               (fun s => (as_project_id s =? ra_project_id command)
                                         && (as_user_id s =? ra_user_id command))) AppError.NotFound) ;;
    if negb (as_session_revision session =? ra_expected_session_revision command)
    then mfail AppError.RevisionConflict
    else
      session <~
        (if bool_decide (as_status session = "active"%string) then
           revision <~ mlift (next_revision (Some (as_session_revision session))) ;;
           let updated := session_revoked_by_control revision (ra_now command) session in
           update_session updated ;;~
           append_runtime_audit (ra_project_id command) "deployment_operator"
             "application_session.revoked" "application_session" (Some (ra_session_id command))
             (ra_correlation_id command) ;;~
           mret updated
         else if bool_decide (as_status session = "revoked"%string) then mret session
         else mfail AppError.Integrity) ;;
      application <~ mlift (ok_or (find_by_id (db_applications db) (as_application_id session)
                                     (fun a => ap_project_id a =? ra_project_id command))
                              AppError.Integrity) ;;
      mret (session, application)) ;;
  mlift (application_session_record found.1 found.2 (ra_now command)).

Definition browser_terminated_by_control (revision : Z) (now : OffsetDateTime) (b : BrowserSessionRow) :
    BrowserSessionRow :=
  mkBrowserSessionRow (bs_id b) (bs_project_id b) (bs_user_id b) (bs_credential_digest b)
    (bs_credential_digest_key_version b) "terminated" revision (bs_project_security_revision b)
    (bs_user_security_revision b) (bs_policy_session_revision b) (bs_authenticated_at b)
    (bs_last_activity_at b) (bs_idle_expires_at b) (bs_absolute_expires_at b) (Some now)
    (bs_created_at b) now.

Definition revoke_browser_session (command : RevokeBrowserSession) : txn BrowserSessionRecord :=
  session <~ transaction (
    db <~ mget ;;
    mlift (require_user db db (rb_project_id command) (rb_user_id command)) ;;~
    session <~ mlift (ok_or (find_by_id (db_browsers db) (rb_session_id command)
                               (fun b => (bs_project_id b =? rb_project_id command)
                                         && (bs_user_id b =? rb_user_id command))) AppError.NotFound) ;;
    if negb (bs_session_revision session =? rb_expected_session_revision command)
    then mfail AppError.RevisionConflict
    else if bool_decide (bs_status session = "active"%string) then
      revision <~ mlift (next_revision (Some (bs_session_revision session))) ;;
      let updated := browser_terminated_by_control revision (rb_now command) session in
      update_browser updated ;;~
      append_runtime_audit (rb_project_id command) "deployment_operator"
        "project_browser_session.revoked" "project_browser_session" (Some (rb_session_id command))
        (rb_correlation_id command) ;;~
      mret updated
    else if bool_decide (bs_status session = "terminated"%string) then mret session
    else mfail AppError.Integrity) ;;
  mlift (browser_session_record session (rb_now command)).

(** *** The service *)
Definition service_disable_project_user (clock : OffsetDateTime) (draws : Draws)
    (graph : IdentityGraph) (project_id user_id : Uuid) (expected_security_revision : Z)
    (correlation_id : Uuid) (now : OffsetDateTime) : txn ProjectUserRecord :=
  mlift (positive_revision expected_security_revision) ;;~
  disable_project_user clock draws graph
    (mkDisableProjectUser project_id user_id expected_security_revision correlation_id now).

Definition service_enable_project_user (clock : OffsetDateTime) (draws : Draws)
    (graph : IdentityGraph) (project_id user_id : Uuid) (expected_security_revision : Z)
    (correlation_id : Uuid) (now : OffsetDateTime) : txn ProjectUserRecord :=
  mlift (positive_revision expected_security_revision) ;;~
  enable_project_user clock draws graph
    (mkEnableProjectUser project_id user_id expected_security_revision correlation_id now).

Definition service_revoke_application_session (project_id user_id session_id : Uuid)
    (expected_session_revision : Z) (correlation_id : Uuid) (now : OffsetDateTime) :
    txn ApplicationSessionRecord :=
  mlift (positive_revision expected_session_revision) ;;~
  revoke_application_session
    (mkRevokeApplicationSession project_id user_id session_id expected_session_revision
       correlation_id now).

Definition service_revoke_browser_session (project_id user_id session_id : Uuid)
    (expected_session_revision : Z) (correlation_id : Uuid) (now : OffsetDateTime) :
    txn BrowserSessionRecord :=
  mlift (positive_revision expected_session_revision) ;;~
  revoke_browser_session
    (mkRevokeBrowserSession project_id user_id session_id expected_session_revision
       correlation_id now).
End commands.
