(* ===== verification/ControlEffects.v ===== *)
(** * What the control commands do to the store

    Disabling and enabling a user and revoking a session keep the invariant of
    the session tables and move the store forward: a security revision only
    grows, and what was ended stays ended. *)
From S2P Require Import Prelude.
From S2P Require Import Json.
From S2P Require Import UrlValues.
From S2P Require Import Database.
From S2P Require Import Projection.
From S2P Require Import WebhookOutbox.
From S2P Require Import SessionAuthority.
From S2P Require Import SessionStore.
From S2P Require Import Frames.
From S2P Require Import LoginEffects.
From S2P Require Import HandoffEffects.
From S2P Require Import ControlLifecycle.

(** ** Rows and revisions *)
Lemma control_revision_ok o r : next_revision o = Ok r <->
  exists n, o = Some n /\ 0 < n /\ r = n + 1 /\ n + 1 <= i64_max.
Proof.
  unfold next_revision, checked_add_i64, in_i64. destruct o as [n|]; cbn; [|naive_solver].
  destruct (0 <? n) eqn:Hn; cbn; [|split; [done|naive_solver lia]].
  destruct ((i64_min <=? n + 1) && (n + 1 <=? i64_max)) eqn:Hr; cbn.
  - split; [intros [= <-]; exists n; naive_solver lia|intros (? & [= ->] & ? & -> & ?); done].
  - split; [done|intros (? & [= ->] & ? & -> & ?)]. unfold i64_min in Hr. lia.
Qed.

Lemma update_user_ok row db db' :
  update_user row db = (db', Ok tt) <->
  is_some_and (db_users db !! us_id row) (fun old => merged_user_kept old row) = true
  /\ project_user_check row = true
  /\ unique_in project_user_conflict (us_id row) row (db_users db) = true
  /\ db' = set_db_users (<[us_id row := row]> (db_users db)) db.
Proof.
  unfold update_user, mseq, mget, check_that, mmodify. cbn.
  destruct (is_some_and _ _ && _ && _) eqn:Hc; rewrite ?andb_true_iff in Hc; cbn.
  - naive_solver.
  - split; [by intros [=]|intros (H1 & H2 & H3 & _)]. by rewrite H1, H2, H3 in Hc.
Qed.

Lemma find_user_ok db p i u :
  find_user db p i = Some u <-> db_users db !! i = Some u /\ us_project_id u = p.
Proof. unfold find_user. rewrite find_by_id_some. by rewrite Z.eqb_eq. Qed.

Lemma found_user db p i u :
  store_ok db -> find_user db p i = Some u ->
  us_id u = i /\ us_project_id u = p /\ db_users db !! us_id u = Some u.
Proof.
  intros Hok [Hu Hp]%find_user_ok. pose proof (own_users _ _ _ _ (store_owners _ Hok) _ _ Hu) as Hi.
  by rewrite Hi.
Qed.

(** ** Statements *)
Section statements.
Context `{JsonbText}.
Implicit Types db : Database.

Lemma update_user_world db u u' :
  db_users db !! us_id u = Some u -> us_id u' = us_id u -> us_project_id u' = us_project_id u ->
  us_security_revision u <= us_security_revision u' ->
  frame_at world_kept db (update_user u').
Proof.
  intros Hu Hid Hp Hr db' [] (_ & _ & _ & ->)%update_user_ok. rewrite Hid.
  apply session_world; [done|]. intros Hok. split; [by apply store_put_user|by apply evolves_put_user].
Qed.

Lemma update_session_world db s s' :
  db_sessions db !! as_id s = Some s -> as_id s' = as_id s -> same_session s s' ->
  (as_status s <> "active"%string -> as_status s' <> "active"%string) ->
  frame_at world_kept db (update_session s').
Proof.
  intros Hs Hid Hsame Hst db' [] (_ & Hc & ->)%update_session_ok.
  apply session_world; [done|]. intros Hok. split.
  - apply (store_put_session _ s); try done. apply Hsame.
  - rewrite Hid. by apply evolves_put_session.
Qed.

Lemma user_triggers_world db graph p i : frame_at world_kept db (user_triggers graph p i).
Proof. unfold user_triggers. solve_frame. Qed.
End statements.

Lemma found_session db i p s :
  store_ok db -> find_by_id (db_sessions db) i p = Some s ->
  as_id s = i /\ p s = true /\ db_sessions db !! as_id s = Some s.
Proof.
  intros Hok [Hs Hp]%find_by_id_some. pose proof (store_session_ids _ Hok _ _ Hs) as Hi. by rewrite Hi.
Qed.

(** ** Commands *)
Section commands.
Context `{CanonicalHash} `{ProjectionCryptography} `{UrlLib} `{TimeFormat} `{JsonbText}.
Implicit Types db : Database.

Lemma fan_out_user_world db clock draws u now : frame_at world_kept db (fan_out_user clock draws u now).
Proof.
  unfold fan_out_user. solve_frame. intros db' r Hr.
  apply (fan_out_world clock draws u now db db' (Ok r)). by apply transaction_ok.
Qed.

Lemma switch_user_world db clock draws p i u status action cid now :
  db_users db !! us_id u = Some u ->
  frame_at world_kept db (switch_user clock draws p i u status action cid now).
Proof.
  intros Hu. pose proof fan_out_user_world. unfold switch_user. solve_frame.
  apply (update_user_world _ u); try done. cbn.
  match goal with Hr : next_revision (Some (us_security_revision u)) = Ok _ |- _ =>
    apply control_revision_ok in Hr as (? & [= <-] & ? & -> & ?) end. lia.
Qed.

(** A relation kept by its statements is kept by the fan-out, and by the commands. *)
Section kept.
Context (R : relation Database) `{!PreOrder R}.
Hypothesis Hrepair : forall db nonce x app u now, frame_at R db (repair_runtime_projection nonce x app u now).
Hypothesis Happend : forall db clock uuid ids pp ap b x wire kind,
  frame_at R db (append_projection_event clock uuid ids pp ap b x wire kind).

Lemma fan_out_user_kept db clock draws u now : frame_at R db (fan_out_user clock draws u now).
Proof.
  assert (forall p bs, frame R (fan_out_bindings clock draws p u now bs)) as Hbs.
  { induction bs; cbn; solve_frame; unfold fan_out_binding; solve_frame. }
  unfold fan_out_user, fan_out_projected_user. solve_frame. apply Hbs.
Qed.

Hypothesis Hupdate : forall db u, frame_at R db (update_user u).
Hypothesis Haudit : forall db p a b c d e, frame_at R db (append_runtime_audit p a b c d e).

Lemma disable_kept clock draws graph c : effect R (disable_project_user clock draws graph c).
Proof.
  pose proof fan_out_user_kept.
  unfold disable_project_user, disable_locked, locked_user, lock_active_project, switch_user, user_triggers. solve_frame.
Qed.
Lemma enable_kept clock draws graph c : effect R (enable_project_user clock draws graph c).
Proof.
  pose proof fan_out_user_kept.
  unfold enable_project_user, enable_locked, locked_user, lock_active_project, switch_user, user_triggers. solve_frame.
Qed.
End kept.

(** The rows the commands lock. *)
Lemma locked_user_ok p i expected db db' u :
  locked_user p i expected db = (db', Ok u) <->
  db' = db /\ find_user db p i = Some u /\ us_security_revision u = expected
  /\ exists project, db_projects db !! p = Some project /\ pj_status project = "active"%string.
Proof.
  unfold locked_user, lock_active_project, mseq, mget, mlift, mret, mfail, ok_or.
  destruct (db_projects db !! p) as [project|]; cbn; [|naive_solver].
  case_bool_decide as Hst; cbn; [|naive_solver].
  destruct (find_user db p i) as [u0|]; cbn; [|naive_solver].
  destruct (us_security_revision u0 =? expected) eqn:Hr; cbn;
    [apply Z.eqb_eq in Hr|apply Z.eqb_neq in Hr]; naive_solver.
Qed.

Lemma locked_user_world db p i expected : frame_at world_kept db (locked_user p i expected).
Proof. by intros db' u (-> & _)%locked_user_ok. Qed.

Ltac user_command :=
  apply world_assume; intros [Hok _]; solve_frame; try apply locked_user_world;
  match goal with Hl : locked_user _ _ _ _ = (_, Ok _) |- _ =>
    apply locked_user_ok in Hl as (-> & (_ & _ & Hu)%(found_user _ _ _ _ Hok) & _) end;
  by apply switch_user_world.

Lemma disable_effect clock draws graph c : effect world_kept (disable_project_user clock draws graph c).
Proof. pose proof user_triggers_world. unfold disable_project_user, disable_locked. solve_frame; user_command. Qed.

Lemma enable_effect clock draws graph c : effect world_kept (enable_project_user clock draws graph c).
Proof. pose proof user_triggers_world. unfold enable_project_user, enable_locked. solve_frame; user_command. Qed.

Lemma revoke_session_effect c : effect world_kept (revoke_application_session c).
Proof.
  unfold revoke_application_session. solve_frame.
  apply world_assume; intros [Hok _].
  match goal with Hs : ok_or (find_by_id (db_sessions _) _ _) _ = Ok ?s |- _ =>
    apply ok_or_ok, (found_session _ _ _ _ Hok) in Hs as (_ & _ & Hs); by apply (update_session_world _ s) end.
Qed.

Lemma revoke_browser_effect c : effect world_kept (revoke_browser_session c).
Proof.
  unfold revoke_browser_session. solve_frame.
  apply world_assume; intros [Hok _].
  match goal with Hs : ok_or (find_by_id (db_browsers _) _ _) _ = Ok ?b |- _ =>
    apply ok_or_ok, (found_browser _ _ _ _ Hok) in Hs; by apply (update_browser_world _ b) end.
Qed.
End commands.
