(* ===== verification/EmailTables.v ===== *)
(** * Tables of passwordless email

    Rows of [email_challenges], [magic_transfer_contexts] and [mail_outbox], with
    the checks, keys and triggers the migrations put on them, and the statements
    of [adapters/postgres/email.rs] on these tables and on users, email identities
    and their aliases.  [EmailStore] is the store with these tables.

    A challenge belongs to a login or to an identity mutation ([owner_kind]); the
    statements here write challenges of logins, whose slot columns are null, and
    the triggers on the challenges of mutations return at once for them. *)
From S2P Require Import Prelude.
From S2P Require Import Json.
From S2P Require Import LoginTables.
From S2P Require Import Database.
From S2P Require Import LoginStore.
From S2P Require Import ServerApi.
From S2P Require Import ControlLifecycle.

(** ** Rows *)
Record EmailChallengeRow := mkEmailChallengeRow {
  ech_id : Uuid; ech_project_id : Uuid; ech_application_id : Uuid;
  ech_transaction_id : option Uuid; ech_generation : Z; ech_status : string;
  ech_canonicalization_version : Z; ech_lookup_digest : list Z;
  ech_lookup_digest_key_version : Z; ech_address_ciphertext : option (list Z);
  ech_address_key_version : option Z; ech_otp_digest : option (list Z);
  ech_otp_digest_key_version : option Z; ech_otp_attempts : Z; ech_otp_max_attempts : Z;
  ech_magic_digest : option (list Z); ech_magic_digest_key_version : option Z;
  ech_method_policy_revision : Z; ech_method_security_revision : Z;
  ech_assignment_security_revision : Z; ech_smtp_selection_kind : string;
  ech_smtp_configuration_id : option Uuid; ech_smtp_generation : Z;
  ech_smtp_security_eligibility_revision : Z; ech_browser_binding_required : bool;
  ech_issued_at : OffsetDateTime; ech_otp_expires_at : option OffsetDateTime;
  ech_magic_expires_at : option OffsetDateTime; ech_expires_at : OffsetDateTime;
  ech_consumed_at : option OffsetDateTime; ech_terminal_at : option OffsetDateTime;
  ech_redacted_at : option OffsetDateTime; ech_created_at : OffsetDateTime;
  ech_updated_at : OffsetDateTime; ech_owner_kind : string;
  ech_identity_mutation_intent_id : option Uuid; ech_identity_mutation_proof_slot_id : option Uuid
}.

Record MagicTransferRow := mkMagicTransferRow {
  mtc_id : Uuid; mtc_challenge_id : Uuid; mtc_context_digest : list Z;
  mtc_context_digest_key_version : Z; mtc_csrf_digest : list Z; mtc_csrf_digest_key_version : Z;
  mtc_browser_binding_required : bool; mtc_status : string; mtc_expires_at : OffsetDateTime;
  mtc_consumed_at : option OffsetDateTime; mtc_created_at : OffsetDateTime
}.

Record MailOutboxRow := mkMailOutboxRow {
  mob_id : Uuid; mob_project_id : Uuid; mob_transaction_id : option Uuid; mob_challenge_id : Uuid;
  mob_challenge_generation : Z; mob_status : string; mob_smtp_selection_kind : string;
  mob_smtp_configuration_id : option Uuid; mob_smtp_generation : Z;
  mob_smtp_security_eligibility_revision : Z; mob_message_id : string;
  mob_envelope_ciphertext : option (list Z); mob_envelope_key_version : option Z;
  mob_body_ciphertext : option (list Z); mob_body_key_version : option Z; mob_attempts : Z;
  mob_max_attempts : Z; mob_next_attempt_at : OffsetDateTime; mob_lease_owner : option string;
  mob_lease_expires_at : option OffsetDateTime; mob_safe_outcome : option string;
  mob_useful_until : OffsetDateTime; mob_delivered_at : option OffsetDateTime;
  mob_terminal_at : option OffsetDateTime; mob_redacted_at : option OffsetDateTime;
  mob_created_at : OffsetDateTime; mob_updated_at : OffsetDateTime
}.

(** ** Checks *)
(** A conjunct of a check over a column that may be null: null passes. *)
Definition unless_null {A : Type} (o : option A) (f : A -> bool) : bool :=
  match o with Some a => f a | None => true end.

(** A digest with its key version and its expiry within the challenge's life. *)
Definition challenge_proof_check (row : EmailChallengeRow) (digest : option (list Z))
    (key_version : option Z) (expires_at : option OffsetDateTime) : bool :=
  unless_null digest (fun d => list_len d =? 32) && unless_null key_version (fun v => 0 <? v)
  && unless_null expires_at (fun e => (ech_issued_at row <? e) && (e <=? ech_expires_at row)).

Definition challenge_owner_shape_check (row : EmailChallengeRow) : bool :=
  (bool_decide (ech_owner_kind row = "login"%string) && is_some (ech_transaction_id row)
   && is_none (ech_identity_mutation_intent_id row)
   && is_none (ech_identity_mutation_proof_slot_id row))
  || (bool_decide (ech_owner_kind row = "identity_mutation"%string)
      && is_none (ech_transaction_id row) && is_some (ech_identity_mutation_intent_id row)
      && is_some (ech_identity_mutation_proof_slot_id row)).

Definition CHALLENGE_STATUSES : list string :=
  ["pending"; "consumed"; "exhausted"; "expired"; "superseded"; "delivery_unavailable"]%string.

Definition email_challenge_check (row : EmailChallengeRow) : bool :=
  unless_null (ech_address_ciphertext row) (fun c => in_range 41 2048 (list_len c))
  && unless_null (ech_address_key_version row) (fun v => 0 <? v)
  && (0 <? ech_assignment_security_revision row)
  && (0 <? ech_canonicalization_version row)
  && (ech_issued_at row <? ech_expires_at row)
  && (ech_expires_at row <=? ech_issued_at row + minutes 10)
  && challenge_proof_check row (ech_otp_digest row) (ech_otp_digest_key_version row)
       (ech_otp_expires_at row)
  && Bool.eqb (is_none (ech_redacted_at row)) (is_some (ech_address_ciphertext row))
  && challenge_proof_check row (ech_magic_digest row) (ech_magic_digest_key_version row)
       (ech_magic_expires_at row)
  && (is_some (ech_otp_digest row) || is_some (ech_magic_digest row))
  && Bool.eqb (bool_decide (ech_smtp_selection_kind row = "project"%string))
       (is_some (ech_smtp_configuration_id row))
  && Bool.eqb (bool_decide (ech_status row = "consumed"%string)) (is_some (ech_consumed_at row))
  && Bool.eqb (bool_decide (ech_status row = "pending"%string)) (is_none (ech_terminal_at row))
  && Bool.eqb (is_none (ech_address_ciphertext row)) (is_none (ech_address_key_version row))
  && in_range 1 5 (ech_generation row)
  && (list_len (ech_lookup_digest row) =? 32)
  && (0 <? ech_lookup_digest_key_version row)
  && (0 <? ech_method_policy_revision row)
  && (0 <? ech_method_security_revision row)
  && in_range 0 5 (ech_otp_attempts row)
  && in_range 1 5 (ech_otp_max_attempts row)
  && bool_decide (ech_owner_kind row ∈ ["login"; "identity_mutation"]%string)
  && challenge_owner_shape_check row
  && (0 <? ech_smtp_generation row)
  && (0 <? ech_smtp_security_eligibility_revision row)
  && bool_decide (ech_smtp_selection_kind row ∈ ["project"; "deployment_default"]%string)
  && bool_decide (ech_status row ∈ CHALLENGE_STATUSES).

(** Two columns that are set and equal: how a unique key compares them. *)
Definition same_key {A : Type} `{EqDecision A} (a b : option A) : bool :=
  is_some a && bool_decide (a = b).

Definition email_challenge_conflict (a b : EmailChallengeRow) : bool :=
  (ech_project_id a =? ech_project_id b)
  && ((same_key (ech_transaction_id a) (ech_transaction_id b)
       && ((ech_generation a =? ech_generation b)
           || (bool_decide (ech_owner_kind a = "login"%string)
               && bool_decide (ech_status a = "pending"%string)
               && bool_decide (ech_owner_kind b = "login"%string)
               && bool_decide (ech_status b = "pending"%string))))
      || (same_key (ech_identity_mutation_intent_id a) (ech_identity_mutation_intent_id b)
          && same_key (ech_identity_mutation_proof_slot_id a) (ech_identity_mutation_proof_slot_id b)
          && bool_decide (ech_owner_kind a = "identity_mutation"%string)
          && bool_decide (ech_owner_kind b = "identity_mutation"%string)
          && ((ech_generation a =? ech_generation b)
              || (bool_decide (ech_status a = "pending"%string)
                  && bool_decide (ech_status b = "pending"%string))))).

(** The trigger before an update: the columns that may not change. *)
Definition challenge_stable (old new : EmailChallengeRow) : bool :=
  bool_decide (ech_project_id new = ech_project_id old
    /\ ech_application_id new = ech_application_id old
    /\ ech_owner_kind new = ech_owner_kind old
    /\ ech_transaction_id new = ech_transaction_id old
    /\ ech_identity_mutation_intent_id new = ech_identity_mutation_intent_id old
    /\ ech_identity_mutation_proof_slot_id new = ech_identity_mutation_proof_slot_id old
    /\ ech_generation new = ech_generation old
    /\ ech_smtp_selection_kind new = ech_smtp_selection_kind old
    /\ ech_smtp_configuration_id new = ech_smtp_configuration_id old
    /\ ech_smtp_generation new = ech_smtp_generation old
    /\ ech_smtp_security_eligibility_revision new = ech_smtp_security_eligibility_revision old).

Definition magic_transfer_check (row : MagicTransferRow) : bool :=
  (mtc_created_at row <? mtc_expires_at row)
  && (mtc_expires_at row <=? mtc_created_at row + minutes 5)
  && Bool.eqb (bool_decide (mtc_status row = "consumed"%string)) (is_some (mtc_consumed_at row))
  && (list_len (mtc_context_digest row) =? 32)
  && (0 <? mtc_context_digest_key_version row)
  && (list_len (mtc_csrf_digest row) =? 32)
  && (0 <? mtc_csrf_digest_key_version row)
  && bool_decide (mtc_status row ∈ ["pending"; "consumed"; "expired"]%string).

Definition magic_transfer_conflict (a b : MagicTransferRow) : bool :=
  bool_decide (mtc_context_digest_key_version a = mtc_context_digest_key_version b
               /\ mtc_context_digest a = mtc_context_digest b).

Definition ACTIVE_MAIL_STATUSES : list string := ["pending"; "leased"; "retry"; "ambiguous"]%string.
Definition MAIL_STATUSES : list string :=
  ["pending"; "leased"; "delivered"; "retry"; "permanent_failure"; "ambiguous"; "cancelled";
   "expired"]%string.

Definition mail_outbox_check (row : MailOutboxRow) : bool :=
  in_range 0 8 (mob_attempts row)
  && unless_null (mob_body_ciphertext row) (fun c => in_range 41 65536 (list_len c))
  && unless_null (mob_body_key_version row) (fun v => 0 <? v)
  && in_range 1 5 (mob_challenge_generation row)
  && Bool.eqb (bool_decide (mob_smtp_selection_kind row = "project"%string))
       (is_some (mob_smtp_configuration_id row))
  && Bool.eqb (bool_decide (mob_status row = "leased"%string))
       (is_some (mob_lease_owner row) && is_some (mob_lease_expires_at row))
  && Bool.eqb (is_none (mob_envelope_ciphertext row)) (is_none (mob_envelope_key_version row))
  && Bool.eqb (is_none (mob_body_ciphertext row)) (is_none (mob_body_key_version row))
  && Bool.eqb (is_none (mob_envelope_ciphertext row)) (is_none (mob_body_ciphertext row))
  && Bool.eqb (is_none (mob_redacted_at row)) (is_some (mob_envelope_ciphertext row))
  && (mob_created_at row <? mob_useful_until row)
  && (mob_next_attempt_at row <=? mob_useful_until row)
  && unless_null (mob_envelope_ciphertext row) (fun c => in_range 41 8192 (list_len c))
  && unless_null (mob_envelope_key_version row) (fun v => 0 <? v)
  && in_range 1 8 (mob_max_attempts row)
  && in_range 16 255 (LoginTables.char_length (mob_message_id row))
  && unless_null (mob_safe_outcome row) (fun o =>
       bool_decide (o ∈ ["delivered"; "transient"; "permanent"; "ambiguous"; "policy_denied";
                         "expired"]%string))
  && (0 <? mob_smtp_generation row)
  && (0 <? mob_smtp_security_eligibility_revision row)
  && bool_decide (mob_smtp_selection_kind row ∈ ["project"; "deployment_default"]%string)
  && bool_decide (mob_status row ∈ MAIL_STATUSES).

Definition mail_outbox_conflict (a b : MailOutboxRow) : bool :=
  bool_decide (mob_message_id a = mob_message_id b)
  || bool_decide (mob_project_id a = mob_project_id b /\ mob_challenge_id a = mob_challenge_id b).

Definition email_identity_check (row : EmailIdentityRow) : bool :=
  in_range 41 2048 (list_len (ei_address_ciphertext row))
  && (0 <? ei_address_key_version row)
  && (0 <? ei_canonicalization_version row)
  && (0 <? ei_identity_revision row)
  && bool_decide (ei_status row ∈ ["active"; "disabled"]%string).

Definition email_alias_check (row : EmailAliasRow) : bool :=
  (0 <? ea_canonicalization_version row) && (0 <? ea_digest_key_version row)
  && (list_len (ea_lookup_digest row) =? 32).

(** The primary key (one digest per identity and version) and the unique key (one
    identity per digest and version). *)
Definition email_alias_conflict (a b : EmailAliasRow) : bool :=
  (ServerApi.ea_project_id a =? ServerApi.ea_project_id b)
  && (ea_canonicalization_version a =? ea_canonicalization_version b)
  && (ea_digest_key_version a =? ea_digest_key_version b)
  && ((ea_identity_id a =? ea_identity_id b)
      || bool_decide (ea_lookup_digest a = ea_lookup_digest b)).

(** ** The store *)
Record EmailStore := mkEmailStore {
  es_db : Database;
  es_challenges : gmap Z EmailChallengeRow;
  es_transfers : gmap Z MagicTransferRow;
  es_outbox : gmap Z MailOutboxRow;
  es_aliases : list EmailAliasRow;
  es_graph : IdentityGraph
}.

Definition set_es_db t (s : EmailStore) : EmailStore :=
  mkEmailStore t (es_challenges s) (es_transfers s) (es_outbox s) (es_aliases s) (es_graph s).
Definition set_es_challenges t (s : EmailStore) : EmailStore :=
  mkEmailStore (es_db s) t (es_transfers s) (es_outbox s) (es_aliases s) (es_graph s).
Definition set_es_transfers t (s : EmailStore) : EmailStore :=
  mkEmailStore (es_db s) (es_challenges s) t (es_outbox s) (es_aliases s) (es_graph s).
Definition set_es_outbox t (s : EmailStore) : EmailStore :=
  mkEmailStore (es_db s) (es_challenges s) (es_transfers s) t (es_aliases s) (es_graph s).
Definition set_es_aliases t (s : EmailStore) : EmailStore :=
  mkEmailStore (es_db s) (es_challenges s) (es_transfers s) (es_outbox s) t (es_graph s).

Definition etxn (A : Type) : Type := mut EmailStore ApplicationError A.

Definition e_transaction {A : Type} (body : etxn A) : etxn A := fun s =>
  match body s with
  | (s', Ok a) => (s', Ok a)
  | (_, Err e) => (s, Err e)
  end.

Definition e_check (c : bool) (e : ApplicationError) : etxn unit := if c then mret tt else mfail e.

Definition on_db {A : Type} (body : txn A) : etxn A := fun s =>
  match body (es_db s) with
  | (db, r) => (set_es_db db s, r)
  end.

(** ** Statements *)
(** [UPDATE table SET .. WHERE p]: every row that matches becomes [f row], if each
    new row is accepted; the answer is the number of rows.  None of the updates
    here adds a row to a unique index. *)
Section bulk.
Context {Row : Type}.

Definition updated (p : Row -> bool) (f : Row -> Row) (t : gmap Z Row) : gmap Z Row :=
  (fun row => if p row then f row else row) <$> t.
Definition affected (p : Row -> bool) (t : gmap Z Row) : Z := list_len (List.filter p (rows t)).
Definition updatable (accepts : Row -> Row -> bool) (p : Row -> bool) (f : Row -> Row)
    (t : gmap Z Row) : bool :=
  forallb (fun row => negb (p row) || accepts row (f row)) (rows t).
End bulk.

Definition update_challenges (p : EmailChallengeRow -> bool)
    (f : EmailChallengeRow -> EmailChallengeRow) : etxn Z :=
  s <~ mget ;;
  e_check (updatable (fun old new => challenge_stable old new && email_challenge_check new) p f
             (es_challenges s)) AppError.Persistence ;;~
  mmodify (set_es_challenges (updated p f (es_challenges s))) ;;~
  mret (affected p (es_challenges s)).

Definition mail_stable (old new : MailOutboxRow) : bool :=
  bool_decide (mob_project_id new = mob_project_id old
    /\ mob_transaction_id new = mob_transaction_id old
    /\ mob_challenge_id new = mob_challenge_id old
    /\ mob_challenge_generation new = mob_challenge_generation old
    /\ mob_smtp_selection_kind new = mob_smtp_selection_kind old
    /\ mob_smtp_configuration_id new = mob_smtp_configuration_id old
    /\ mob_smtp_generation new = mob_smtp_generation old
    /\ mob_smtp_security_eligibility_revision new = mob_smtp_security_eligibility_revision old
    /\ mob_created_at new = mob_created_at old).

Definition update_outbox (p : MailOutboxRow -> bool) (f : MailOutboxRow -> MailOutboxRow) : etxn Z :=
  s <~ mget ;;
  e_check (updatable (fun old new => mail_stable old new && mail_outbox_check new) p f
             (es_outbox s)) AppError.Persistence ;;~
  mmodify (set_es_outbox (updated p f (es_outbox s))) ;;~
  mret (affected p (es_outbox s)).

Definition update_transfers (p : MagicTransferRow -> bool) (f : MagicTransferRow -> MagicTransferRow) :
    etxn Z :=
  s <~ mget ;;
  e_check (updatable (fun _ new => magic_transfer_check new) p f (es_transfers s))
    AppError.Persistence ;;~
  mmodify (set_es_transfers (updated p f (es_transfers s))) ;;~
  mret (affected p (es_transfers s)).

Definition smtp_configuration_exists (db : Database) (project_id id : Uuid) : bool :=
  is_some (find_by_id (lt_project_smtp (db_login db)) id (fun c => sc_project_id c =? project_id)).

Definition challenge_owner (db : Database) (row : EmailChallengeRow) : bool :=
  application_exists db (ech_project_id row) (ech_application_id row)
  && optional_key (smtp_configuration_exists db (ech_project_id row)) (ech_smtp_configuration_id row)
  && optional_key (login_exists db (ech_project_id row)) (ech_transaction_id row).

Definition insert_challenge (row : EmailChallengeRow) : etxn unit :=
  s <~ mget ;;
  e_check (is_none (es_challenges s !! ech_id row)
           && (email_challenge_check row && challenge_owner (es_db s) row
               && unique_in email_challenge_conflict (ech_id row) row (es_challenges s)))
    AppError.Persistence ;;~
  mmodify (set_es_challenges (<[ech_id row := row]> (es_challenges s))).

(** The keys to the challenge, and the deferred trigger
    [owlauth_enforce_mail_outbox_challenge_owner]. *)
Definition mail_owner (s : EmailStore) (row : MailOutboxRow) : bool :=
  is_some (find_by_id (es_challenges s) (mob_challenge_id row) (fun c =>
    (ech_project_id c =? mob_project_id row)
    && (ech_generation c =? mob_challenge_generation row)
    && bool_decide (ech_transaction_id c = mob_transaction_id row)
    && bool_decide (ech_smtp_selection_kind c = mob_smtp_selection_kind row)
    && bool_decide (ech_smtp_configuration_id c = mob_smtp_configuration_id row)
    && (ech_smtp_generation c =? mob_smtp_generation row)
    && (ech_smtp_security_eligibility_revision c =? mob_smtp_security_eligibility_revision row)))
  && optional_key (smtp_configuration_exists (es_db s) (mob_project_id row))
       (mob_smtp_configuration_id row).

Definition insert_mail (row : MailOutboxRow) : etxn unit :=
  s <~ mget ;;
  e_check (is_none (es_outbox s !! mob_id row)
           && (mail_outbox_check row && mail_owner s row
               && unique_in mail_outbox_conflict (mob_id row) row (es_outbox s)))
    AppError.Persistence ;;~
  mmodify (set_es_outbox (<[mob_id row := row]> (es_outbox s))).

Definition insert_transfer (row : MagicTransferRow) : etxn unit :=
  s <~ mget ;;
  e_check (is_none (es_transfers s !! mtc_id row)
           && (magic_transfer_check row && is_some (es_challenges s !! mtc_challenge_id row)
               && unique_in magic_transfer_conflict (mtc_id row) row (es_transfers s)))
    AppError.Persistence ;;~
  mmodify (set_es_transfers (<[mtc_id row := row]> (es_transfers s))).

(** ** Users, identities and aliases *)
Definition identity_exists (db : Database) (project_id identity_id : Uuid) : bool :=
  is_some (find_by_id (db_email_identities db) identity_id (fun i => ei_project_id i =? project_id)).

Definition insert_user (row : UserRow) : txn unit :=
  db <~ mget ;;
  check_that (is_none (db_users db !! us_id row)
              && (project_user_check row && is_some (db_projects db !! us_project_id row)
                  && unique_in project_user_conflict (us_id row) row (db_users db)))
    AppError.Persistence ;;~
  mmodify (set_db_users (<[us_id row := row]> (db_users db))).

Definition insert_email_identity (id : Uuid) (row : EmailIdentityRow) : txn unit :=
  db <~ mget ;;
  check_that (is_none (db_email_identities db !! id)
              && (email_identity_check row && user_exists db (ei_project_id row) (ei_user_id row)))
    AppError.Persistence ;;~
  mmodify (set_db_email_identities (<[id := row]> (db_email_identities db))).

Definition alias_accepts (s : EmailStore) (row : EmailAliasRow) : bool :=
  email_alias_check row && identity_exists (es_db s) (ServerApi.ea_project_id row) (ea_identity_id row).

Definition insert_alias (row : EmailAliasRow) : etxn unit :=
  s <~ mget ;;
  e_check (alias_accepts s row && forallb (fun a => negb (email_alias_conflict row a)) (es_aliases s))
    AppError.Persistence ;;~
  mmodify (set_es_aliases (es_aliases s ++ [row])).

(** [INSERT .. ON CONFLICT DO NOTHING]. *)
Definition insert_alias_if_absent (row : EmailAliasRow) : etxn unit :=
  s <~ mget ;;
  if negb (email_alias_check row) then mfail AppError.Persistence
  else if existsb (email_alias_conflict row) (es_aliases s) then mret tt
  else
    e_check (alias_accepts s row) AppError.Persistence ;;~
    mmodify (set_es_aliases (es_aliases s ++ [row])).

(** [UPDATE project_users SET primary_email_identity_id = $2 WHERE id = $1]. *)
Definition user_with_primary_email (identity_id : Uuid) (u : UserRow) : UserRow :=
  mkUserRow (us_id u) (us_project_id u) (us_public_id u) (us_status u) (us_merged_into_user_id u)
    (us_user_revision u) (us_security_revision u) (us_primary_profile_identity_id u)
    (Some identity_id) (us_primary_source_kind u) (us_base_profile_digest u)
    (us_local_display_name_set u) (us_local_display_name u) (us_local_picture_url_set u)
    (us_local_picture_url u) (us_local_locale_set u) (us_local_locale u) (us_display_name u)
    (us_picture_url u) (us_locale u) (us_created_at u) (us_updated_at u).

Definition set_primary_email (user_id identity_id : Uuid) : txn unit :=
  db <~ mget ;;
  match db_users db !! user_id with
  | None => mret tt
  | Some u =>
      check_that (is_some (find_by_id (db_email_identities db) identity_id (fun i =>
                    (ei_project_id i =? us_project_id u) && (ei_user_id i =? user_id))))
        AppError.Persistence ;;~
      update_user (user_with_primary_email identity_id u)
  end.

Definition insert_browser (row : BrowserSessionRow) : txn unit :=
  db <~ mget ;;
  check_that (is_none (db_browsers db !! bs_id row)
              && (browser_session_check row && user_exists db (bs_project_id row) (bs_user_id row)
                  && unique_in browser_session_conflict (bs_id row) row (db_browsers db)))
    AppError.Persistence ;;~
  mmodify (set_db_browsers (<[bs_id row := row]> (db_browsers db))).
