(* ===== verification/PasswordlessEmail.v ===== *)
(** * Passwordless email

    [PasswordlessEmailRepository] of [adapters/postgres/email.rs] and
    [adapters/postgres/mail_delivery_safety.rs]: a login picks email, a challenge
    with a code, a link or both is committed together with the mail that carries
    it, and a proof that matches the newest challenge signs the user in, creating
    the user when the address is new and the project admits sign-ups.

    Readings of [clock_timestamp()] are arguments; the other instants come with
    the commands.  Key versions of digests are compared with the digests. *)
From S2P Require Import Prelude.
From S2P Require Import Json.
From S2P Require Import LoginTables.
From S2P Require Import Lifecycle.
From S2P Require Import Mail.
From S2P Require Import UrlValues.
From S2P Require Import Database.
From S2P Require Import LoginStore.
From S2P Require Import Projection.
From S2P Require Import SessionAuthority.
From S2P Require Import BrowserLogout.
From S2P Require Import Login.
From S2P Require Import Handoff.
From S2P Require Import ServerApi.
From S2P Require Import ControlLifecycle.
From S2P Require Import EmailTables.

Definition MAX_MAGIC_TRANSFER_CONTEXTS_PER_CHALLENGE : Z := 8.
Definition MAX_ACTIVE_MAIL_OUTBOX_PER_PROJECT : Z := 1000.

(** ** Commands and results: [application/passwordless_email.rs] *)
Record EmailMethodSelection := mkEmailMethodSelection {
  sel_status : Login.LoginTransactionStatus; sel_transaction_revision : Z
}.

Record SelectEmailMethod := mkSelectEmailMethod {
  sem_project_id : Uuid; sem_transaction_id : Uuid; sem_expected_transaction_revision : Z;
  sem_browser_binding : VersionedDigest; sem_csrf : VersionedDigest; sem_now : OffsetDateTime
}.

Record EmailGenerationPreparation := mkEmailGenerationPreparation {
  egp_project_id : Uuid; egp_application_id : Uuid; egp_transaction_id : Uuid;
  egp_next_generation : Z; egp_transaction_expires_at : OffsetDateTime;
  egp_policy : AdmittedEmailMethod
}.

Record CommitEmailGeneration := mkCommitEmailGeneration {
  ceg_project_id : Uuid; ceg_application_id : Uuid; ceg_transaction_id : Uuid;
  ceg_expected_transaction_revision : Z; ceg_expected_generation : Z; ceg_challenge_id : Uuid;
  ceg_outbox_id : Uuid; ceg_canonicalization_version : Z; ceg_lookup_digest : VersionedDigest;
  ceg_recipient_digests : list VersionedDigest; ceg_address : ProtectedValue;
  ceg_otp_digest : option VersionedDigest; ceg_magic_digest : option VersionedDigest;
  ceg_envelope : ProtectedValue; ceg_body : ProtectedValue; ceg_message_id : string;
  ceg_issued_at : OffsetDateTime; ceg_otp_expires_at : option OffsetDateTime;
  ceg_magic_expires_at : option OffsetDateTime; ceg_expires_at : OffsetDateTime
}.

Inductive EmailProofKind := Otp | MagicLink.
#[global] Instance EmailProofKind_eq_dec : EqDecision EmailProofKind.
Proof. solve_decision. Defined.

Record VerifyEmailProof := mkVerifyEmailProof {
  vep_project_id : Uuid; vep_transaction_id : Uuid; vep_challenge_id : Uuid;
  vep_proof_kind : EmailProofKind; vep_proof_digest : VersionedDigest;
  vep_browser_binding : option VersionedDigest; vep_csrf : VersionedDigest;
  vep_transfer_context : option VersionedDigest; vep_expected_transaction_revision : Z;
  vep_now : OffsetDateTime
}.

Record EstablishMagicTransferContext := mkEstablishMagicTransferContext {
  emt_id : Uuid; emt_challenge_id : Uuid; emt_context : VersionedDigest;
  emt_csrf : VersionedDigest; emt_now : OffsetDateTime
}.

Record ResolveMagicTransferContext := mkResolveMagicTransferContext {
  rmt_challenge_id : Uuid; rmt_project_public_id : string; rmt_transaction_id : Uuid;
  rmt_context : VersionedDigest; rmt_csrf : VersionedDigest; rmt_now : OffsetDateTime
}.

Record ResolvedMagicTransferContext := mkResolvedMagicTransferContext {
  rmc_project_id : Uuid; rmc_project_public_id : string; rmc_transaction_id : Uuid;
  rmc_application_type : ApplicationType; rmc_browser_binding_required : bool
}.

Record VerifiedEmailChallenge := mkVerifiedEmailChallenge {
  vec_project_id : Uuid; vec_application_id : Uuid; vec_transaction_id : Uuid;
  vec_challenge_id : Uuid; vec_address : ProtectedValue; vec_canonicalization_version : Z;
  vec_lookup_digest : VersionedDigest
}.

Inductive EmailProofDecision :=
| Accepted (challenge : VerifiedEmailChallenge)
| Invalid.

Record CompleteEmailProof := mkCompleteEmailProof {
  cep_verification : VerifyEmailProof; cep_new_user_id : Uuid; cep_new_user_public_id : string;
  cep_new_identity_id : Uuid; cep_durable_address : ProtectedValue;
  cep_verified_challenge_lookup : VersionedDigest; cep_lookup_aliases : list VersionedDigest;
  cep_active_alias : VersionedDigest; cep_alias_authority_revision : Z;
  cep_browser_session_id : Uuid; cep_existing_browser_credential : option VersionedDigest;
  cep_browser_credential : VersionedDigest; cep_handoff_id : Uuid;
  cep_handoff_ticket : VersionedDigest
}.

#[global] Instance VersionedDigest_eq_dec : EqDecision VersionedDigest.
Proof. solve_decision. Defined.

(** ** Guards *)
Definition validate_digests (digests : list VersionedDigest) : result ApplicationError unit :=
  fold_right (fun d r => validate_digest d ;;? r) (Ok tt) digests.

Definition opt_list {A : Type} (o : option A) : list A := match o with Some a => [a] | None => [] end.

Definition validate_generation (c : CommitEmailGeneration) : result ApplicationError unit :=
  validate_digest (ceg_lookup_digest c) ;;?
  if bool_decide (ceg_recipient_digests c = []) || (16 <? list_len (ceg_recipient_digests c))
     || negb (bool_decide (ceg_lookup_digest c ∈ ceg_recipient_digests c))
  then Err AppError.InvalidInput
  else
    validate_digests (ceg_recipient_digests c) ;;?
    if (ceg_expected_generation c <? 1) || (5 <? ceg_expected_generation c)
       || (ceg_expires_at c <=? ceg_issued_at c)
       || (ceg_issued_at c + minutes 10 <? ceg_expires_at c)
       || (is_none (ceg_otp_digest c) && is_none (ceg_magic_digest c))
       || negb (Bool.eqb (is_some (ceg_otp_digest c)) (is_some (ceg_otp_expires_at c)))
       || negb (Bool.eqb (is_some (ceg_magic_digest c)) (is_some (ceg_magic_expires_at c)))
       || is_some_and (ceg_otp_expires_at c) (fun e =>
            (e <=? ceg_issued_at c) || (ceg_expires_at c <? e))
       || is_some_and (ceg_magic_expires_at c) (fun e =>
            (e <=? ceg_issued_at c) || (ceg_expires_at c <? e))
       || (str_len (ceg_message_id c) <? 16) || (255 <? str_len (ceg_message_id c))
    then Err AppError.InvalidInput
    else
      validate_digests (opt_list (ceg_otp_digest c)) ;;?
      validate_digests (opt_list (ceg_magic_digest c)).

Definition require_stored_digest (value : option (list Z)) (version : option Z)
    (presented : VersionedDigest) : result ApplicationError unit :=
  if optional_digest_matches value version presented then Ok tt else Err AppError.NotFound.

(** The columns [revalidate_policy_and_smtp] reads: of a login with the snapshot
    of its email method, or of a login with a challenge. *)
Record EmailAuthority := mkEmailAuthority {
  eau_application_id : Uuid; eau_project_metadata_revision : Z; eau_project_security_revision : Z;
  eau_application_security_revision : Z; eau_method_policy_revision : Z;
  eau_method_security_revision : Z; eau_assignment_security_revision : Z;
  eau_smtp_selection_kind : string; eau_smtp_configuration_id : option Uuid;
  eau_smtp_generation : Z; eau_smtp_security_eligibility_revision : Z
}.

Definition snapshot_authority (l : LoginTransactionRow) (m : LoginEmailMethodRow) : EmailAuthority :=
  mkEmailAuthority (le_application_id m) (lg_project_metadata_revision l)
    (lg_project_security_revision l) (lg_application_security_revision l)
    (le_method_policy_revision m) (le_method_security_revision m)
    (le_assignment_security_revision m) (le_smtp_selection_kind m) (le_smtp_configuration_id m)
    (le_smtp_generation m) (le_smtp_security_eligibility_revision m).

Definition challenge_authority (l : LoginTransactionRow) (c : EmailChallengeRow) : EmailAuthority :=
  mkEmailAuthority (ech_application_id c) (lg_project_metadata_revision l)
    (lg_project_security_revision l) (lg_application_security_revision l)
    (ech_method_policy_revision c) (ech_method_security_revision c)
    (ech_assignment_security_revision c) (ech_smtp_selection_kind c) (ech_smtp_configuration_id c)
    (ech_smtp_generation c) (ech_smtp_security_eligibility_revision c).

Definition authority_smtp_eligible (db : Database) (project_id : Uuid) (a : EmailAuthority)
    (now : OffsetDateTime) : bool :=
  if bool_decide (eau_smtp_selection_kind a = "project"%string)
  then is_some_and (eau_smtp_configuration_id a) (fun id =>
         is_some (find_by_id (lt_project_smtp (db_login db)) id (fun s =>
           (sc_project_id s =? project_id) && (sc_generation s =? eau_smtp_generation a)
           && (sc_security_eligibility_revision s =? eau_smtp_security_eligibility_revision a)
           && smtp_usable (sc_status s) (sc_retained_until s) now)))
  else is_some (find_one (lt_deployment_smtp (db_login db)) (fun s =>
         (ds_generation s =? eau_smtp_generation a)
         && (ds_security_eligibility_revision s =? eau_smtp_security_eligibility_revision a)
         && smtp_usable (ds_status s) (ds_retained_until s) now)).

Definition revalidate_policy_and_smtp (db : Database) (a : EmailAuthority) (project_id : Uuid)
    (now : OffsetDateTime) : result ApplicationError unit :=
  project <-? ok_or (db_projects db !! project_id) AppError.RevisionConflict ;;
  application <-? ok_or (find_by_id (db_applications db) (eau_application_id a)
                           (fun x => ap_project_id x =? project_id)) AppError.RevisionConflict ;;
  if negb (bool_decide (pj_status project = "active"%string))
     || negb (pj_metadata_revision project =? eau_project_metadata_revision a)
     || negb (pj_security_revision project =? eau_project_security_revision a)
     || negb (bool_decide (ap_status application = "active"%string))
     || negb (ap_security_revision application =? eau_application_security_revision a)
  then Err AppError.RevisionConflict
  else
    policy <-? ok_or (find_by_id (lt_email_policies (db_login db)) project_id
                        (fun p => bool_decide (ep_status p = "enabled"%string)))
                 AppError.RevisionConflict ;;
    assignment <-? ok_or (x ← lt_email_assignments (db_login db) !! (project_id, eau_application_id a);
                          if bool_decide (ea_status x = "active"%string) then Some x else None)
                     AppError.RevisionConflict ;;
    if negb (ep_policy_revision policy =? eau_method_policy_revision a)
       || negb (ep_security_revision policy =? eau_method_security_revision a)
       || negb (ea_security_revision assignment =? eau_assignment_security_revision a)
    then Err AppError.RevisionConflict
    else if negb (authority_smtp_eligible db project_id a now) then Err AppError.Disabled
    else Ok tt.

Definition lock_email_method_owners (db : Database) (project_id application_id : Uuid) :
    result ApplicationError unit :=
  if is_some (lt_email_policies (db_login db) !! project_id)
     && is_some (lt_email_assignments (db_login db) !! (project_id, application_id))
  then Ok tt else Err AppError.RevisionConflict.

(** ** Challenges of a login *)
Definition of_login (project_id transaction_id : Uuid) (c : EmailChallengeRow) : bool :=
  (ech_project_id c =? project_id) && bool_decide (ech_transaction_id c = Some transaction_id).

Definition login_challenges (s : EmailStore) (project_id transaction_id : Uuid) :
    list EmailChallengeRow :=
  List.filter (of_login project_id transaction_id) (rows (es_challenges s)).

(** [MAX(..)] over a list of rows. *)
Definition max_of {Row : Type} (key : Row -> Z) (l : list Row) : option Z :=
  fold_right (fun row best => match best with
                              | Some b => Some (Z.max (key row) b)
                              | None => Some (key row)
                              end) None l.

(** [COALESCE(MAX(generation), 0)], and [MAX(issued_at)]. *)
Definition current_generation (s : EmailStore) (project_id transaction_id : Uuid) : Z :=
  default 0 (max_of ech_generation (login_challenges s project_id transaction_id)).
Definition last_issued_at (s : EmailStore) (project_id transaction_id : Uuid) :
    option OffsetDateTime :=
  max_of ech_issued_at (login_challenges s project_id transaction_id).

(** A login with the snapshot of its email method. *)
Definition email_login (db : Database) (project_id transaction_id : Uuid) :
    option (LoginTransactionRow * LoginEmailMethodRow) :=
  l ← find_by_id (db_logins db) transaction_id (fun l => lg_project_id l =? project_id);
  m ← lt_email_methods (db_login db) !! (project_id, transaction_id);
  Some (l, m).

(** [transaction_revision + 1] in a [BIGINT] column: an error past its range. *)
Definition bigint_succ (revision : Z) : result ApplicationError Z :=
  if revision <? i64_max then Ok (revision + 1) else Err AppError.Persistence.

(** A login moved on by the email authority. *)
Definition login_with_email (status : string) (selected_method : option string) (revision : Z)
    (user_id : option Uuid) (authenticated_at : option OffsetDateTime) (now : OffsetDateTime)
    (l : LoginTransactionRow) : LoginTransactionRow :=
  {| lg_id := lg_id l; lg_project_id := lg_project_id l;
     lg_application_id := lg_application_id l;
     lg_interaction_digest := lg_interaction_digest l;
     lg_interaction_digest_key_version := lg_interaction_digest_key_version l;
     lg_status := status; lg_transaction_revision := revision;
     lg_redirect_uri := lg_redirect_uri l;
     lg_application_pkce_challenge := lg_application_pkce_challenge l;
     lg_application_state_ciphertext := lg_application_state_ciphertext l;
     lg_application_state_key_version := lg_application_state_key_version l;
     lg_presentation_hint := lg_presentation_hint l;
     lg_browser_binding_digest := lg_browser_binding_digest l;
     lg_browser_binding_digest_key_version := lg_browser_binding_digest_key_version l;
     lg_csrf_digest := lg_csrf_digest l; lg_csrf_digest_key_version := lg_csrf_digest_key_version l;
     lg_selected_method := selected_method;
     lg_provider_configuration_id := lg_provider_configuration_id l; lg_user_id := user_id;
     lg_callback_url := lg_callback_url l; lg_upstream_state_digest := lg_upstream_state_digest l;
     lg_upstream_state_digest_key_version := lg_upstream_state_digest_key_version l;
     lg_oidc_nonce_digest := lg_oidc_nonce_digest l;
     lg_oidc_nonce_digest_key_version := lg_oidc_nonce_digest_key_version l;
     lg_provider_pkce_ciphertext := lg_provider_pkce_ciphertext l;
     lg_provider_pkce_key_version := lg_provider_pkce_key_version l;
     lg_project_metadata_revision := lg_project_metadata_revision l;
     lg_project_security_revision := lg_project_security_revision l;
     lg_application_security_revision := lg_application_security_revision l;
     lg_provider_revision := lg_provider_revision l;
     lg_assignment_security_revision := lg_assignment_security_revision l;
     lg_claims_revision := lg_claims_revision l; lg_session_revision := lg_session_revision l;
     lg_authenticated_at := authenticated_at; lg_expires_at := lg_expires_at l;
     lg_terminal_at := lg_terminal_at l; lg_created_at := lg_created_at l; lg_updated_at := now |}.

(** ** Choosing email *)
Definition select_locked (c : SelectEmailMethod) : txn EmailMethodSelection :=
  db <~ mget ;;
  found <~ mlift (ok_or (email_login db (sem_project_id c) (sem_transaction_id c)) AppError.NotFound) ;;
  let login := found.1 in
  if (lg_expires_at login <=? sem_now c)
     || negb (bool_decide (lg_status login = "awaiting_method_selection"%string))
  then mfail AppError.InvalidTransition
  else if negb (lg_transaction_revision login =? sem_expected_transaction_revision c)
  then mfail AppError.RevisionConflict
  else
    mlift (require_stored_digest (lg_browser_binding_digest login)
             (lg_browser_binding_digest_key_version login) (sem_browser_binding c)) ;;~
    mlift (require_stored_digest (lg_csrf_digest login) (lg_csrf_digest_key_version login)
             (sem_csrf c)) ;;~
    mlift (revalidate_policy_and_smtp db (snapshot_authority login found.2) (sem_project_id c)
             (sem_now c)) ;;~
    revision <~ mlift (bigint_succ (lg_transaction_revision login)) ;;
    update_login (login_with_email "email_address_entry" (Some "email"%string) revision
                    (lg_user_id login) (lg_authenticated_at login) (sem_now c) login) ;;~
    mret (mkEmailMethodSelection Login.EmailAddressEntry revision).

Definition select_email_method (c : SelectEmailMethod) : etxn EmailMethodSelection :=
  mlift (validate_digest (sem_browser_binding c)) ;;~
  mlift (validate_digest (sem_csrf c)) ;;~
  on_db (transaction (select_locked c)).

(** ** A new challenge *)
Definition email_stage (status : string) : bool :=
  bool_decide (status ∈ ["email_address_entry"; "email_challenge_pending"]%string).

Definition too_soon (last : option OffsetDateTime) (resend_after_seconds : Z) (now : OffsetDateTime) :
    bool :=
  is_some_and last (fun last => now <? last + seconds resend_after_seconds).

Definition admitted_method (m : LoginEmailMethodRow) : AdmittedEmailMethod :=
  {| em_policy_revision := le_method_policy_revision m;
     em_security_revision := le_method_security_revision m;
     em_assignment_security_revision := le_assignment_security_revision m;
     em_otp_enabled := le_otp_enabled m; em_magic_link_enabled := le_magic_link_enabled m;
     em_otp_digits := le_otp_digits m; em_otp_validity_seconds := le_otp_validity_seconds m;
     em_otp_max_attempts := le_otp_max_attempts m;
     em_resend_after_seconds := le_resend_after_seconds m;
     em_max_generations := le_max_generations m;
     em_magic_validity_seconds := le_magic_validity_seconds m;
     em_signup_enabled := le_signup_enabled m;
     em_transferred_magic_link_enabled := le_transferred_magic_link_enabled m;
     em_smtp_selection_kind := le_smtp_selection_kind m;
     em_smtp_configuration_id := le_smtp_configuration_id m;
     em_smtp_generation := le_smtp_generation m;
     em_smtp_security_eligibility_revision := le_smtp_security_eligibility_revision m |}.

Definition prepare_email_generation (s : EmailStore) (project_id transaction_id : Uuid)
    (expected_transaction_revision : Z) (browser_binding csrf : VersionedDigest)
    (now : OffsetDateTime) : result ApplicationError EmailGenerationPreparation :=
  validate_digest browser_binding ;;?
  validate_digest csrf ;;?
  found <-? ok_or (email_login (es_db s) project_id transaction_id) AppError.NotFound ;;
  let login := found.1 in
  let snapshot := found.2 in
  let generation := current_generation s project_id transaction_id in
  if (lg_expires_at login <=? now) || negb (email_stage (lg_status login))
  then Err AppError.InvalidTransition
  else if negb (lg_transaction_revision login =? expected_transaction_revision)
  then Err AppError.RevisionConflict
  else
    require_stored_digest (lg_browser_binding_digest login)
      (lg_browser_binding_digest_key_version login) browser_binding ;;?
    require_stored_digest (lg_csrf_digest login) (lg_csrf_digest_key_version login) csrf ;;?
    if (le_max_generations snapshot <=? generation) || (5 <=? generation)
    then Err AppError.InvalidTransition
    else if too_soon (last_issued_at s project_id transaction_id) (le_resend_after_seconds snapshot) now
    then Err AppError.InvalidTransition
    else Ok {| egp_project_id := project_id; egp_application_id := lg_application_id login;
               egp_transaction_id := transaction_id; egp_next_generation := generation + 1;
               egp_transaction_expires_at := lg_expires_at login;
               egp_policy := admitted_method snapshot |}.

(** *** May a mail go out?  [mail_delivery_safety.rs] *)
Inductive MailDeliveryAuthorization := Dispatch | RecipientSuppressed | ProjectBacklogFull.
#[global] Instance MailDeliveryAuthorization_eq_dec : EqDecision MailDeliveryAuthorization.
Proof. solve_decision. Defined.

Definition validate_inputs (canonicalization_version : Z) (recipient_digests : list VersionedDigest)
    (suppression_seconds : Z) : result ApplicationError unit :=
  if (canonicalization_version <=? 0) || bool_decide (recipient_digests = [])
     || (16 <? list_len recipient_digests) || negb (in_range 30 600 suppression_seconds)
  then Err AppError.InvalidInput
  else if existsb (fun d => vd_key_version d <=? 0) recipient_digests
          || negb (bool_decide (NoDup (map vd_key_version recipient_digests)))
  then Err AppError.InvalidInput
  else Ok tt.

Definition active_mail (project_id : Uuid) (m : MailOutboxRow) : bool :=
  (mob_project_id m =? project_id) && bool_decide (mob_status m ∈ ACTIVE_MAIL_STATUSES).

(** A mail to one of the digests was enqueued less than [suppression_seconds] ago. *)
Definition recipient_was_recently_enqueued (clock : OffsetDateTime) (s : EmailStore)
    (project_id : Uuid) (canonicalization_version : Z) (recipient_digests : list VersionedDigest)
    (suppression_seconds : Z) : bool :=
  existsb (fun c =>
    (ech_project_id c =? project_id)
    && (ech_canonicalization_version c =? canonicalization_version)
    && existsb (fun d => (ech_lookup_digest_key_version c =? vd_key_version d)
                         && bool_decide (ech_lookup_digest c = vd_value d)) recipient_digests
    && existsb (fun m => (mob_project_id m =? ech_project_id c) && (mob_challenge_id m =? ech_id c)
                         && (mob_challenge_generation m =? ech_generation c)
                         && (clock - seconds suppression_seconds <? mob_created_at m))
         (rows (es_outbox s))) (rows (es_challenges s)).

Definition authorize_mail_delivery_with_limit (clock : OffsetDateTime) (s : EmailStore)
    (project_id : Uuid) (canonicalization_version : Z) (recipient_digests : list VersionedDigest)
    (suppression_seconds active_outbox_limit : Z) :
    result ApplicationError MailDeliveryAuthorization :=
  validate_inputs canonicalization_version recipient_digests suppression_seconds ;;?
  if (active_outbox_limit <=? 0) || (MAX_ACTIVE_MAIL_OUTBOX_PER_PROJECT <? active_outbox_limit)
  then Err AppError.InvalidInput
  else if active_outbox_limit <=? affected (active_mail project_id) (es_outbox s)
  then Ok ProjectBacklogFull
  else if recipient_was_recently_enqueued clock s project_id canonicalization_version
            recipient_digests suppression_seconds
  then Ok RecipientSuppressed
  else Ok Dispatch.

Definition authorize_mail_delivery (clock : OffsetDateTime) (s : EmailStore) (project_id : Uuid)
    (canonicalization_version : Z) (recipient_digests : list VersionedDigest)
    (suppression_seconds : Z) : result ApplicationError MailDeliveryAuthorization :=
  authorize_mail_delivery_with_limit clock s project_id canonicalization_version recipient_digests
    suppression_seconds MAX_ACTIVE_MAIL_OUTBOX_PER_PROJECT.

(** *** Committing a generation *)
Definition mail_with (status : string) (safe_outcome : option string)
    (terminal_at : option OffsetDateTime) (now : OffsetDateTime) (m : MailOutboxRow) : MailOutboxRow :=
  mkMailOutboxRow (mob_id m) (mob_project_id m) (mob_transaction_id m) (mob_challenge_id m)
    (mob_challenge_generation m) status (mob_smtp_selection_kind m) (mob_smtp_configuration_id m)
    (mob_smtp_generation m) (mob_smtp_security_eligibility_revision m) (mob_message_id m)
    (mob_envelope_ciphertext m) (mob_envelope_key_version m) (mob_body_ciphertext m)
    (mob_body_key_version m) (mob_attempts m) (mob_max_attempts m) (mob_next_attempt_at m) None None
    safe_outcome (mob_useful_until m) (mob_delivered_at m) terminal_at (mob_redacted_at m)
    (mob_created_at m) now.

Definition challenge_with (status : string) (otp_attempts : Z)
    (consumed_at terminal_at : option OffsetDateTime) (now : OffsetDateTime) (c : EmailChallengeRow) :
    EmailChallengeRow :=
  mkEmailChallengeRow (ech_id c) (ech_project_id c) (ech_application_id c) (ech_transaction_id c)
    (ech_generation c) status (ech_canonicalization_version c) (ech_lookup_digest c)
    (ech_lookup_digest_key_version c) (ech_address_ciphertext c) (ech_address_key_version c)
    (ech_otp_digest c) (ech_otp_digest_key_version c) otp_attempts (ech_otp_max_attempts c)
    (ech_magic_digest c) (ech_magic_digest_key_version c) (ech_method_policy_revision c)
    (ech_method_security_revision c) (ech_assignment_security_revision c)
    (ech_smtp_selection_kind c) (ech_smtp_configuration_id c) (ech_smtp_generation c)
    (ech_smtp_security_eligibility_revision c) (ech_browser_binding_required c) (ech_issued_at c)
    (ech_otp_expires_at c) (ech_magic_expires_at c) (ech_expires_at c) consumed_at terminal_at
    (ech_redacted_at c) (ech_created_at c) now (ech_owner_kind c)
    (ech_identity_mutation_intent_id c) (ech_identity_mutation_proof_slot_id c).

(** Mails of the login's challenges that nobody is sending. *)
Definition cancellable_mail (clock : OffsetDateTime) (s : EmailStore) (project_id transaction_id : Uuid)
    (m : MailOutboxRow) : bool :=
  existsb (fun c =>
    bool_decide (ech_owner_kind c = "login"%string) && of_login project_id transaction_id c
    && (mob_project_id m =? ech_project_id c) && (mob_challenge_id m =? ech_id c)
    && (mob_challenge_generation m =? ech_generation c)) (rows (es_challenges s))
  && (bool_decide (mob_status m ∈ ["pending"; "retry"; "ambiguous"]%string)
      || (bool_decide (mob_status m = "leased"%string)
          && is_some_and (mob_lease_expires_at m) (fun e => e <=? clock))).

Definition supersedable (project_id transaction_id : Uuid) (c : EmailChallengeRow) : bool :=
  of_login project_id transaction_id c
  && bool_decide (ech_status c ∈ ["pending"; "delivery_unavailable"]%string).

Definition new_challenge (c : CommitEmailGeneration) (m : LoginEmailMethodRow) (dispatch : bool)
    (database_now : OffsetDateTime) : EmailChallengeRow :=
  {| ech_id := ceg_challenge_id c; ech_project_id := ceg_project_id c;
     ech_application_id := ceg_application_id c; ech_transaction_id := Some (ceg_transaction_id c);
     ech_generation := ceg_expected_generation c;
     ech_status := if dispatch then "pending" else "delivery_unavailable";
     ech_canonicalization_version := ceg_canonicalization_version c;
     ech_lookup_digest := vd_value (ceg_lookup_digest c);
     ech_lookup_digest_key_version := vd_key_version (ceg_lookup_digest c);
     ech_address_ciphertext := Some (pv_ciphertext (ceg_address c));
     ech_address_key_version := Some (pv_key_version (ceg_address c));
     ech_otp_digest := vd_value <$> ceg_otp_digest c;
     ech_otp_digest_key_version := vd_key_version <$> ceg_otp_digest c;
     ech_otp_attempts := 0; ech_otp_max_attempts := le_otp_max_attempts m;
     ech_magic_digest := vd_value <$> ceg_magic_digest c;
     ech_magic_digest_key_version := vd_key_version <$> ceg_magic_digest c;
     ech_method_policy_revision := le_method_policy_revision m;
     ech_method_security_revision := le_method_security_revision m;
     ech_assignment_security_revision := le_assignment_security_revision m;
     ech_smtp_selection_kind := le_smtp_selection_kind m;
     ech_smtp_configuration_id := le_smtp_configuration_id m;
     ech_smtp_generation := le_smtp_generation m;
     ech_smtp_security_eligibility_revision := le_smtp_security_eligibility_revision m;
     ech_browser_binding_required := negb (le_transferred_magic_link_enabled m);
     ech_issued_at := ceg_issued_at c; ech_otp_expires_at := ceg_otp_expires_at c;
     ech_magic_expires_at := ceg_magic_expires_at c; ech_expires_at := ceg_expires_at c;
     ech_consumed_at := None; ech_terminal_at := if dispatch then None else Some database_now;
     ech_redacted_at := None; ech_created_at := ceg_issued_at c; ech_updated_at := ceg_issued_at c;
     ech_owner_kind := "login"; ech_identity_mutation_intent_id := None;
     ech_identity_mutation_proof_slot_id := None |}.

Definition new_mail (c : CommitEmailGeneration) (m : LoginEmailMethodRow)
    (database_now : OffsetDateTime) : MailOutboxRow :=
  {| mob_id := ceg_outbox_id c; mob_project_id := ceg_project_id c;
     mob_transaction_id := Some (ceg_transaction_id c); mob_challenge_id := ceg_challenge_id c;
     mob_challenge_generation := ceg_expected_generation c; mob_status := "pending";
     mob_smtp_selection_kind := le_smtp_selection_kind m;
     mob_smtp_configuration_id := le_smtp_configuration_id m;
     mob_smtp_generation := le_smtp_generation m;
     mob_smtp_security_eligibility_revision := le_smtp_security_eligibility_revision m;
     mob_message_id := ceg_message_id c;
     mob_envelope_ciphertext := Some (pv_ciphertext (ceg_envelope c));
     mob_envelope_key_version := Some (pv_key_version (ceg_envelope c));
     mob_body_ciphertext := Some (pv_ciphertext (ceg_body c));
     mob_body_key_version := Some (pv_key_version (ceg_body c));
     mob_attempts := 0; mob_max_attempts := 5; mob_next_attempt_at := database_now;
     mob_lease_owner := None; mob_lease_expires_at := None; mob_safe_outcome := None;
     mob_useful_until := ceg_expires_at c; mob_delivered_at := None; mob_terminal_at := None;
     mob_redacted_at := None; mob_created_at := database_now; mob_updated_at := database_now |}.

(** The clock of the transaction, of the cancellation and of the look for recent
    mails. *)
Definition commit_generation_locked (clock cancel_clock recent_clock : OffsetDateTime)
    (c : CommitEmailGeneration) : etxn unit :=
  s <~ mget ;;
  found <~ mlift (ok_or (email_login (es_db s) (ceg_project_id c) (ceg_transaction_id c))
                    AppError.NotFound) ;;
  let login := found.1 in
  let snapshot := found.2 in
  if negb (lg_transaction_revision login =? ceg_expected_transaction_revision c)
     || negb (current_generation s (ceg_project_id c) (ceg_transaction_id c) + 1
              =? ceg_expected_generation c)
     || (le_max_generations snapshot <? ceg_expected_generation c)
     || (5 <? ceg_expected_generation c)
  then mfail AppError.RevisionConflict
  else if too_soon (last_issued_at s (ceg_project_id c) (ceg_transaction_id c))
            (le_resend_after_seconds snapshot) clock
  then mfail AppError.InvalidTransition
  else if (lg_expires_at login <=? ceg_issued_at c) || negb (email_stage (lg_status login))
  then mfail AppError.InvalidTransition
  else
    mlift (revalidate_policy_and_smtp (es_db s) (snapshot_authority login snapshot)
             (ceg_project_id c) (ceg_issued_at c)) ;;~
    update_outbox (cancellable_mail cancel_clock s (ceg_project_id c) (ceg_transaction_id c))
      (fun m => mail_with "cancelled" (Some "expired"%string) (Some clock) clock m) ;;~
    update_challenges (supersedable (ceg_project_id c) (ceg_transaction_id c))
      (fun x => challenge_with "superseded" (ech_otp_attempts x) (ech_consumed_at x) (Some clock)
                  clock x) ;;~
    s' <~ mget ;;
    authorization <~ mlift (authorize_mail_delivery recent_clock s' (ceg_project_id c)
                              (ceg_canonicalization_version c) (ceg_recipient_digests c)
                              (le_resend_after_seconds snapshot)) ;;
    let dispatch := bool_decide (authorization = Dispatch) in
    insert_challenge (new_challenge c snapshot dispatch clock) ;;~
    (if dispatch then insert_mail (new_mail c snapshot clock) else mret tt) ;;~
    revision <~ mlift (bigint_succ (lg_transaction_revision login)) ;;
    on_db (update_login (login_with_email "email_challenge_pending" (lg_selected_method login) revision
                           (lg_user_id login) (lg_authenticated_at login) clock login)).

Definition commit_email_generation (clock cancel_clock recent_clock : OffsetDateTime)
    (c : CommitEmailGeneration) : etxn unit :=
  mlift (validate_generation c) ;;~
  e_transaction (commit_generation_locked clock cancel_clock recent_clock c).

(** ** Links opened in another browser *)
Definition newest (s : EmailStore) (c : EmailChallengeRow) : bool :=
  negb (existsb (fun newer => (ech_project_id newer =? ech_project_id c)
                              && same_key (ech_transaction_id newer) (ech_transaction_id c)
                              && (ech_generation c <? ech_generation newer))
          (rows (es_challenges s))).

(** The challenge a link names, with the login it belongs to. *)
Definition open_magic_challenge (s : EmailStore) (challenge_id : Uuid) (now : OffsetDateTime) :
    option (EmailChallengeRow * LoginTransactionRow) :=
  c ← find_by_id (es_challenges s) challenge_id (fun c =>
        bool_decide (ech_status c = "pending"%string) && is_some (ech_magic_digest c)
        && (now <? ech_expires_at c) && newest s c);
  transaction_id ← ech_transaction_id c;
  l ← find_by_id (db_logins (es_db s)) transaction_id (fun l =>
        (lg_project_id l =? ech_project_id c) && (now <? lg_expires_at l)
        && bool_decide (lg_status l = "email_challenge_pending"%string));
  Some (c, l).

Definition transfer_with (status : string) (consumed_at : option OffsetDateTime) (t : MagicTransferRow) :
    MagicTransferRow :=
  mkMagicTransferRow (mtc_id t) (mtc_challenge_id t) (mtc_context_digest t)
    (mtc_context_digest_key_version t) (mtc_csrf_digest t) (mtc_csrf_digest_key_version t)
    (mtc_browser_binding_required t) status (mtc_expires_at t) consumed_at (mtc_created_at t).

Definition pending_transfer (challenge_id : Uuid) (now : OffsetDateTime) (t : MagicTransferRow) : bool :=
  (mtc_challenge_id t =? challenge_id) && bool_decide (mtc_status t = "pending"%string)
  && (now <? mtc_expires_at t).

Definition establish_locked (c : EstablishMagicTransferContext) : etxn unit :=
  s <~ mget ;;
  found <~ mlift (ok_or (open_magic_challenge s (emt_challenge_id c) (emt_now c)) AppError.NotFound) ;;
  update_transfers (fun t => (mtc_challenge_id t =? emt_challenge_id c)
                             && bool_decide (mtc_status t = "pending"%string)
                             && (mtc_expires_at t <=? emt_now c))
    (fun t => transfer_with "expired" (mtc_consumed_at t) t) ;;~
  s' <~ mget ;;
  if MAX_MAGIC_TRANSFER_CONTEXTS_PER_CHALLENGE
     <=? affected (pending_transfer (emt_challenge_id c) (emt_now c)) (es_transfers s')
  then mfail AppError.NotFound
  else
    insert_transfer
      {| mtc_id := emt_id c; mtc_challenge_id := emt_challenge_id c;
         mtc_context_digest := vd_value (emt_context c);
         mtc_context_digest_key_version := vd_key_version (emt_context c);
         mtc_csrf_digest := vd_value (emt_csrf c);
         mtc_csrf_digest_key_version := vd_key_version (emt_csrf c);
         mtc_browser_binding_required := ech_browser_binding_required found.1;
         mtc_status := "pending";
         mtc_expires_at := Z.min (Z.min (emt_now c + minutes 5) (ech_expires_at found.1))
                             (lg_expires_at found.2);
         mtc_consumed_at := None; mtc_created_at := emt_now c |}.

Definition establish_magic_transfer_context (c : EstablishMagicTransferContext) : etxn unit :=
  mlift (validate_digest (emt_context c)) ;;~
  mlift (validate_digest (emt_csrf c)) ;;~
  e_transaction (establish_locked c).

(** The pending context with these digests. *)
Definition find_transfer (s : EmailStore) (challenge_id : Uuid) (context csrf : VersionedDigest)
    (now : OffsetDateTime) : option MagicTransferRow :=
  find_one (es_transfers s) (fun t =>
    (mtc_challenge_id t =? challenge_id)
    && bool_decide (mtc_context_digest t = vd_value context)
    && (mtc_context_digest_key_version t =? vd_key_version context)
    && bool_decide (mtc_csrf_digest t = vd_value csrf)
    && (mtc_csrf_digest_key_version t =? vd_key_version csrf)
    && bool_decide (mtc_status t = "pending"%string) && (now <? mtc_expires_at t)).

Definition resolve_magic_transfer_context (s : EmailStore) (c : ResolveMagicTransferContext) :
    result ApplicationError ResolvedMagicTransferContext :=
  validate_digest (rmt_context c) ;;?
  validate_digest (rmt_csrf c) ;;?
  found <-? ok_or
    (t ← find_transfer s (rmt_challenge_id c) (rmt_context c) (rmt_csrf c) (rmt_now c);
     ch ← find_by_id (es_challenges s) (mtc_challenge_id t) (fun ch =>
            bool_decide (ech_status ch = "pending"%string) && (rmt_now c <? ech_expires_at ch)
            && bool_decide (ech_transaction_id ch = Some (rmt_transaction_id c)));
     l ← find_by_id (db_logins (es_db s)) (rmt_transaction_id c) (fun l =>
            (lg_project_id l =? ech_project_id ch)
            && bool_decide (lg_status l = "email_challenge_pending"%string)
            && (rmt_now c <? lg_expires_at l));
     p ← find_by_id (db_projects (es_db s)) (ech_project_id ch) (fun p =>
            bool_decide (pj_public_id p = rmt_project_public_id c)
            && bool_decide (pj_status p = "active"%string));
     a ← find_by_id (db_applications (es_db s)) (lg_application_id l) (fun a =>
            ap_project_id a =? lg_project_id l);
     Some (t, ch, p, a)) AppError.NotFound ;;
  let '(t, ch, p, a) := found in
  application_type <-? (if bool_decide (ap_application_type a = "web"%string) then Ok WebApplication
                        else if bool_decide (ap_application_type a = "native"%string)
                        then Ok NativeApplication else Err AppError.Integrity) ;;
  Ok {| rmc_project_id := ech_project_id ch; rmc_project_public_id := pj_public_id p;
        rmc_transaction_id := rmt_transaction_id c; rmc_application_type := application_type;
        rmc_browser_binding_required := mtc_browser_binding_required t |}.

(** ** Proofs *)
Definition find_challenge (s : EmailStore) (project_id transaction_id challenge_id : Uuid) :
    option EmailChallengeRow :=
  find_by_id (es_challenges s) challenge_id (of_login project_id transaction_id).

Definition email_proof_key_version (s : EmailStore) (project_id transaction_id challenge_id : Uuid)
    (proof_kind : EmailProofKind) : result ApplicationError (option Z) :=
  c <-? ok_or (find_challenge s project_id transaction_id challenge_id) AppError.NotFound ;;
  Ok (match proof_kind with
      | Otp => ech_otp_digest_key_version c
      | MagicLink => ech_magic_digest_key_version c
      end).

(** The digest, key version and expiry a kind of proof is held against. *)
Definition stored_proof (kind : EmailProofKind) (c : EmailChallengeRow) :
    option (list Z) * option Z * option OffsetDateTime :=
  match kind with
  | Otp => (ech_otp_digest c, ech_otp_digest_key_version c, ech_otp_expires_at c)
  | MagicLink => (ech_magic_digest c, ech_magic_digest_key_version c, ech_magic_expires_at c)
  end.

Definition proof_matches (c : EmailChallengeRow) (v : VerifyEmailProof) : bool :=
  let '(digest, version, _) := stored_proof (vep_proof_kind v) c in
  optional_digest_matches digest version (vep_proof_digest v).

(** [expires_at.is_none_or(|expires_at| expires_at <= now)]. *)
Definition proof_expired (c : EmailChallengeRow) (v : VerifyEmailProof) : bool :=
  let '(_, _, expires_at) := stored_proof (vep_proof_kind v) c in
  negb (is_some_and expires_at (fun e => vep_now v <? e)).

(** Who may confirm: the browser of the login with its CSRF token, or, for a link,
    a transfer context, with that browser too where the challenge requires it. *)
Definition validate_email_confirmation_authority (s : EmailStore) (c : EmailChallengeRow)
    (l : LoginTransactionRow) (v : VerifyEmailProof) : result ApplicationError unit :=
  let require_binding := require_stored_digest (lg_browser_binding_digest l)
                           (lg_browser_binding_digest_key_version l) in
  match vep_transfer_context v with
  | Some context =>
      if negb (bool_decide (vep_proof_kind v = MagicLink)) then Err AppError.NotFound
      else
        transfer <-? ok_or (find_transfer s (vep_challenge_id v) context (vep_csrf v) (vep_now v))
                       AppError.NotFound ;;
        if negb (Bool.eqb (mtc_browser_binding_required transfer) (ech_browser_binding_required c))
        then Err AppError.Integrity
        else if mtc_browser_binding_required transfer && is_none (vep_browser_binding v)
        then Err AppError.NotFound
        else match vep_browser_binding v with
             | Some binding => require_binding binding
             | None => Ok tt
             end
  | None =>
      require_stored_digest (lg_csrf_digest l) (lg_csrf_digest_key_version l) (vep_csrf v) ;;?
      binding <-? ok_or (vep_browser_binding v) AppError.NotFound ;;
      require_binding binding
  end.

(** The challenge is the newest of its login, and both are open. *)
Definition challenge_open (s : EmailStore) (c : EmailChallengeRow) (l : LoginTransactionRow)
    (v : VerifyEmailProof) : bool :=
  bool_decide (ech_status c = "pending"%string)
  && bool_decide (lg_status l = "email_challenge_pending"%string)
  && (ech_generation c =? current_generation s (vep_project_id v) (vep_transaction_id v))
  && (vep_now v <? ech_expires_at c) && (vep_now v <? lg_expires_at l).

(** The locks and guards both steps share: the login, its owners and the challenge;
    a verification locks the owners of the method ([lock_owners]) too. *)
Definition lock_proof (lock_owners : LoginTransactionRow -> result ApplicationError unit)
    (s : EmailStore) (v : VerifyEmailProof) :
    result ApplicationError (LoginTransactionRow * EmailChallengeRow) :=
  login <-? ok_or (find_by_id (db_logins (es_db s)) (vep_transaction_id v)
                     (fun l => lg_project_id l =? vep_project_id v)) AppError.NotFound ;;
  lock_login_application_owners (es_db s) login ;;?
  lock_owners login ;;?
  challenge <-? ok_or (find_challenge s (vep_project_id v) (vep_transaction_id v) (vep_challenge_id v))
                  AppError.NotFound ;;
  if negb (lg_transaction_revision login =? vep_expected_transaction_revision v)
  then Err AppError.RevisionConflict
  else
    validate_email_confirmation_authority s challenge login v ;;?
    Ok (login, challenge).

Definition failed_otp (now : OffsetDateTime) (c : EmailChallengeRow) : EmailChallengeRow :=
  let attempts := ech_otp_attempts c + 1 in
  let exhausted := ech_otp_max_attempts c <=? attempts in
  challenge_with (if exhausted then "exhausted" else ech_status c) attempts (ech_consumed_at c)
    (if exhausted then Some now else ech_terminal_at c) now c.

Definition verified_challenge (c : EmailChallengeRow) (v : VerifyEmailProof) :
    result ApplicationError VerifiedEmailChallenge :=
  ciphertext <-? ok_or (ech_address_ciphertext c) AppError.Persistence ;;
  key_version <-? ok_or (ech_address_key_version c) AppError.Persistence ;;
  if negb (list_len (ech_lookup_digest c) =? 32) then Err AppError.Integrity
  else Ok {| vec_project_id := vep_project_id v; vec_application_id := ech_application_id c;
             vec_transaction_id := vep_transaction_id v; vec_challenge_id := vep_challenge_id v;
             vec_address := mkProtectedValue ciphertext key_version;
             vec_canonicalization_version := ech_canonicalization_version c;
             vec_lookup_digest := mkVersionedDigest (ech_lookup_digest c)
                                    (ech_lookup_digest_key_version c) |}.

Definition verify_locked (v : VerifyEmailProof) : etxn EmailProofDecision :=
  s <~ mget ;;
  locked <~ mlift (lock_proof (fun l => lock_email_method_owners (es_db s) (lg_project_id l)
                                          (lg_application_id l)) s v) ;;
  let login := locked.1 in
  let challenge := locked.2 in
  if negb (challenge_open s challenge login v) then mret Invalid
  else
    mlift (revalidate_policy_and_smtp (es_db s) (challenge_authority login challenge)
             (vep_project_id v) (vep_now v)) ;;~
    if proof_expired challenge v then mret Invalid
    else if negb (proof_matches challenge v) then
      (if bool_decide (vep_proof_kind v = Otp) then
         update_challenges (fun c => (ech_id c =? vep_challenge_id v)
                                     && bool_decide (ech_status c = "pending"%string))
           (failed_otp (vep_now v)) ;;~
         mret Invalid
       else mret Invalid)
    else
      verified <~ mlift (verified_challenge challenge v) ;;
      mret (Accepted verified).

Definition verify_email_proof (v : VerifyEmailProof) : etxn EmailProofDecision :=
  mlift (validate_digest (vep_proof_digest v)) ;;~
  mlift (validate_digest (vep_csrf v)) ;;~
  mlift (validate_digests (opt_list (vep_transfer_context v))) ;;~
  e_transaction (verify_locked v).

(** ** Signing in *)
Definition validate_completion (c : CompleteEmailProof) : result ApplicationError unit :=
  let v := cep_verification c in
  validate_digest (vep_proof_digest v) ;;?
  validate_digest (vep_csrf v) ;;?
  validate_digests (opt_list (vep_transfer_context v)) ;;?
  validate_digest (cep_browser_credential c) ;;?
  validate_digest (cep_handoff_ticket c) ;;?
  validate_digest (cep_verified_challenge_lookup c) ;;?
  validate_digests (cep_lookup_aliases c) ;;?
  validate_digest (cep_active_alias c) ;;?
  if negb (cep_alias_authority_revision c =? 1)
     || negb (bool_decide (NoDup (map vd_key_version (cep_lookup_aliases c))))
     || negb (bool_decide (cep_active_alias c ∈ cep_lookup_aliases c))
  then Err AppError.InvalidInput
  else if (pv_key_version (cep_durable_address c) <=? 0)
          || (list_len (pv_ciphertext (cep_durable_address c)) <? 41)
  then Err AppError.InvalidInput
  else Ok tt.

(** The identity a digest leads to, with its user. *)
Definition alias_owner (s : EmailStore) (project_id : Uuid) (canonicalization_version : Z)
    (alias : VersionedDigest) : option (Uuid * EmailIdentityRow * UserRow) :=
  row ← List.find (fun a =>
          (ServerApi.ea_project_id a =? project_id)
          && (ea_canonicalization_version a =? canonicalization_version)
          && (ea_digest_key_version a =? vd_key_version alias)
          && bool_decide (ea_lookup_digest a = vd_value alias)) (es_aliases s);
  identity ← find_by_id (db_email_identities (es_db s)) (ea_identity_id row)
               (fun i => ei_project_id i =? project_id);
  user ← find_by_id (db_users (es_db s)) (ei_user_id identity)
           (fun u => us_project_id u =? project_id);
  Some (ea_identity_id row, identity, user).

(** The owners the aliases lead to must be one; the last one found is taken. *)
Fixpoint existing_owner (s : EmailStore) (project_id : Uuid) (canonicalization_version : Z)
    (aliases : list VersionedDigest) (existing : option (Uuid * EmailIdentityRow * UserRow)) :
    result ApplicationError (option (Uuid * EmailIdentityRow * UserRow)) :=
  match aliases with
  | [] => Ok existing
  | alias :: rest =>
      match alias_owner s project_id canonicalization_version alias with
      | None => existing_owner s project_id canonicalization_version rest existing
      | Some found =>
          if is_some_and existing (fun e => negb (e.1.1 =? found.1.1)) then Err AppError.Integrity
          else existing_owner s project_id canonicalization_version rest (Some found)
      end
  end.

Definition alias_row (project_id identity_id : Uuid) (canonicalization_version : Z)
    (alias : VersionedDigest) : EmailAliasRow :=
  {| ServerApi.ea_project_id := project_id; ea_identity_id := identity_id;
     ea_canonicalization_version := canonicalization_version;
     ea_digest_key_version := vd_key_version alias; ea_lookup_digest := vd_value alias |}.

(** The user's address is known: its active digest is recorded for the identity. *)
Definition sign_in_existing (c : CompleteEmailProof) (canonicalization_version : Z)
    (existing : Uuid * EmailIdentityRow * UserRow) : etxn (Uuid * string * Z) :=
  let '(identity_id, identity, user) := existing in
  let project_id := vep_project_id (cep_verification c) in
  if negb (bool_decide (ei_status identity = "active"%string))
     || negb (bool_decide (us_status user = "active"%string))
  then mfail AppError.Disabled
  else
    insert_alias_if_absent (alias_row project_id identity_id canonicalization_version
                              (cep_active_alias c)) ;;~
    s <~ mget ;;
    owner <~ mlift (ok_or (List.find (fun a =>
                        (ServerApi.ea_project_id a =? project_id)
                        && (ea_canonicalization_version a =? canonicalization_version)
                        && (ea_digest_key_version a =? vd_key_version (cep_active_alias c))
                        && bool_decide (ea_lookup_digest a = vd_value (cep_active_alias c)))
                      (es_aliases s)) AppError.Integrity) ;;
    if negb (ea_identity_id owner =? identity_id) then mfail AppError.Integrity
    else mret (ei_user_id identity, us_public_id user, us_security_revision user).

Section completion.
Context `{CanonicalHash}.

Definition new_email_user (c : CompleteEmailProof) (digest : list Z) : UserRow :=
  mkUserRow (cep_new_user_id c) (vep_project_id (cep_verification c)) (cep_new_user_public_id c)
    "active" None 1 1 None None "email" digest false None false None false None None None None
    (vep_now (cep_verification c)) (vep_now (cep_verification c)).

Definition new_email_identity (c : CompleteEmailProof) (canonicalization_version : Z) :
    EmailIdentityRow :=
  {| ei_project_id := vep_project_id (cep_verification c); ei_user_id := cep_new_user_id c;
     ei_status := "active"; ei_address_ciphertext := pv_ciphertext (cep_durable_address c);
     ei_address_key_version := pv_key_version (cep_durable_address c);
     ei_verified_at := Some (vep_now (cep_verification c)); ei_identity_revision := 1;
     ei_canonicalization_version := canonicalization_version;
     ei_created_at := vep_now (cep_verification c); ei_updated_at := vep_now (cep_verification c) |}.

(** The address is new: a user with this identity, if the project admits sign-ups. *)
Definition sign_up (c : CompleteEmailProof) (canonicalization_version : Z) :
    etxn (Uuid * string * Z) :=
  let project_id := vep_project_id (cep_verification c) in
  s <~ mget ;;
  policy <~ mlift (ok_or (lt_email_policies (db_login (es_db s)) !! project_id) AppError.Integrity) ;;
  if negb (ep_signup_enabled policy) then mfail AppError.Disabled
  else
    digest <~ mlift (base_profile_digest None None None) ;;
    on_db (insert_user (new_email_user c digest)) ;;~
    on_db (insert_email_identity (cep_new_identity_id c)
             (new_email_identity c canonicalization_version)) ;;~
    insert_alias (alias_row project_id (cep_new_identity_id c) canonicalization_version
                    (cep_active_alias c)) ;;~
    on_db (set_primary_email (cep_new_user_id c) (cep_new_identity_id c)) ;;~
    mret (cep_new_user_id c, cep_new_user_public_id c, 1).

(** [rotate_or_create_browser_session] of [session_authority.rs]. *)
Record BrowserSessionCompletion := mkBrowserSessionCompletion {
  bsc_project_id : Uuid; bsc_user_id : Uuid; bsc_user_security_revision : Z;
  bsc_browser_session_id : Uuid; bsc_existing_browser_credential : option VersionedDigest;
  bsc_browser_credential : VersionedDigest; bsc_project_security_revision : Z;
  bsc_policy_session_revision : Z; bsc_now : OffsetDateTime
}.

Definition browser_signed_in (c : BrowserSessionCompletion) (id : Uuid) (revision : Z)
    (terminated_at : option OffsetDateTime) (created_at : OffsetDateTime) : BrowserSessionRow :=
  {| bs_id := id; bs_project_id := bsc_project_id c; bs_user_id := bsc_user_id c;
     bs_credential_digest := vd_value (bsc_browser_credential c);
     bs_credential_digest_key_version := vd_key_version (bsc_browser_credential c);
     bs_status := "active"; bs_session_revision := revision;
     bs_project_security_revision := bsc_project_security_revision c;
     bs_user_security_revision := bsc_user_security_revision c;
     bs_policy_session_revision := bsc_policy_session_revision c;
     bs_authenticated_at := bsc_now c; bs_last_activity_at := bsc_now c;
     bs_idle_expires_at := bsc_now c + seconds (8 * 3600);
     bs_absolute_expires_at := bsc_now c + seconds (24 * 3600); bs_terminated_at := terminated_at;
     bs_created_at := created_at; bs_updated_at := bsc_now c |}.

(** The browser's session of another user of the project is ended. *)
Definition retire_browser (c : BrowserSessionCompletion) (existing : BrowserSessionRow) : txn unit :=
  if (bs_project_id existing =? bsc_project_id c)
     && bool_decide (bs_status existing = "active"%string)
  then update_browser (browser_terminated_by_control (i64_add (bs_session_revision existing) 1)
                         (bsc_now c) existing)
  else mret tt.

Definition create_browser_session (c : BrowserSessionCompletion) : txn BrowserSessionRow :=
  let row := browser_signed_in c (bsc_browser_session_id c) 1 None (bsc_now c) in
  insert_browser row ;;~
  mret row.

Definition rotate_or_create_browser_session (c : BrowserSessionCompletion) : txn BrowserSessionRow :=
  db <~ mget ;;
  match bsc_existing_browser_credential c ≫= reuse_routed_session db with
  | None => create_browser_session c
  | Some existing =>
      if is_some_and (bsc_existing_browser_credential c) (fun d =>
           digest_matches (bs_credential_digest existing)
             (bs_credential_digest_key_version existing) d)
         && (bs_project_id existing =? bsc_project_id c)
         && (bs_user_id existing =? bsc_user_id c)
         && bool_decide (bs_status existing = "active"%string)
      then
        let row := browser_signed_in c (bs_id existing) (i64_add (bs_session_revision existing) 1)
                     (bs_terminated_at existing) (bs_created_at existing) in
        update_browser row ;;~
        mret row
      else
        retire_browser c existing ;;~
        create_browser_session c
  end.

(** *** The completion *)
Definition consumable_transfer (v : VerifyEmailProof) (context : VersionedDigest) (t : MagicTransferRow) :
    bool :=
  (mtc_challenge_id t =? vep_challenge_id v)
  && bool_decide (mtc_context_digest t = vd_value context)
  && (mtc_context_digest_key_version t =? vd_key_version context)
  && bool_decide (mtc_csrf_digest t = vd_value (vep_csrf v))
  && bool_decide (mtc_status t = "pending"%string) && (vep_now v <? mtc_expires_at t).

Definition consume_transfer (v : VerifyEmailProof) : etxn unit :=
  match vep_transfer_context v with
  | None => mret tt
  | Some context =>
      consumed <~ update_transfers (consumable_transfer v context)
                    (transfer_with "consumed" (Some (vep_now v))) ;;
      if negb (consumed =? 1) then mfail AppError.InvalidTransition else mret tt
  end.

Definition consume_challenge (v : VerifyEmailProof) : etxn unit :=
  consumed <~ update_challenges
    (fun c => (ech_id c =? vep_challenge_id v) && bool_decide (ech_status c = "pending"%string))
    (fun c => challenge_with "consumed" (ech_otp_attempts c) (Some (vep_now v)) (Some (vep_now v))
                (vep_now v) c) ;;
  if negb (consumed =? 1) then mfail AppError.InvalidTransition else mret tt.

(** The user an address belongs to, or a new one; the flag says which. *)
Definition completed_user (c : CompleteEmailProof) (canonicalization_version : Z) :
    etxn (Uuid * string * Z * bool) :=
  s <~ mget ;;
  existing <~ mlift (existing_owner s (vep_project_id (cep_verification c)) canonicalization_version
                       (cep_lookup_aliases c) None) ;;
  match existing with
  | Some existing => u <~ sign_in_existing c canonicalization_version existing ;; mret (u, false)
  | None => u <~ sign_up c canonicalization_version ;; mret (u, true)
  end.

(** The triggers that run at the commit of a sign-up: on the new user, and on the
    owner of the new identity.  A merge tombstone names an identity that exists, so
    the trigger that compares the two passes for an identity that is new. *)
Definition sign_up_triggers (graph : IdentityGraph) (project_id user_id : Uuid) : txn unit :=
  user_triggers graph project_id user_id ;;~
  db <~ mget ;;
  check_that (negb (is_some (find_by_id (db_users db) user_id (fun u =>
                       (us_project_id u =? project_id)
                       && bool_decide (us_status u = "merged"%string)))
                    && owns_identity graph db project_id user_id)) AppError.Persistence.

Definition completion_session (c : CompleteEmailProof) (l : LoginTransactionRow) (user_id : Uuid)
    (user_security_revision : Z) : BrowserSessionCompletion :=
  {| bsc_project_id := vep_project_id (cep_verification c); bsc_user_id := user_id;
     bsc_user_security_revision := user_security_revision;
     bsc_browser_session_id := cep_browser_session_id c;
     bsc_existing_browser_credential := cep_existing_browser_credential c;
     bsc_browser_credential := cep_browser_credential c;
     bsc_project_security_revision := lg_project_security_revision l;
     bsc_policy_session_revision := lg_session_revision l;
     bsc_now := vep_now (cep_verification c) |}.

(** The writes for the user that was found or made. *)
Definition complete_writes (c : CompleteEmailProof) (login : LoginTransactionRow)
    (challenge : EmailChallengeRow) (user_id : Uuid) (user_public_id : string)
    (user_security_revision : Z) : etxn IssuedHandoff :=
  let v := cep_verification c in
  let expires_at := Z.min (vep_now v + seconds 60) (lg_expires_at login) in
  browser <~ on_db (rotate_or_create_browser_session
                      (completion_session c login user_id user_security_revision)) ;;
  on_db (insert_handoff (cep_handoff_id c) (cep_handoff_ticket c) login user_id (bs_id browser) "email"
           (vep_now v) (vep_now v) expires_at user_security_revision) ;;~
  consume_transfer v ;;~
  consume_challenge v ;;~
  revision <~ mlift (bigint_succ (lg_transaction_revision login)) ;;
  on_db (update_login (login_with_email "handoff_issued" (lg_selected_method login) revision
                         (Some user_id) (Some (vep_now v)) (vep_now v) login)) ;;~
  on_db (append_runtime_audit (vep_project_id v) "system" "auth.email.completed" "project_user"
           (Some user_id) (vep_transaction_id v)) ;;~
  mret {| ih_project_id := vep_project_id v; ih_application_id := ech_application_id challenge;
          ih_user_id := user_id; ih_user_public_id := user_public_id;
          ih_browser_session_id := bs_id browser; ih_handoff_id := cep_handoff_id c;
          ih_redirect_uri := lg_redirect_uri login;
          ih_application_state := mkProtectedValue (lg_application_state_ciphertext login)
                                    (lg_application_state_key_version login);
          ih_expires_at := expires_at |}.

(** The digests and versions of the aliases were validated before the
    transaction, where the source checks them once more here. *)
Definition complete_locked (c : CompleteEmailProof) : etxn IssuedHandoff :=
  let v := cep_verification c in
  s <~ mget ;;
  locked <~ mlift (lock_proof (fun _ => Ok tt) s v) ;;
  let login := locked.1 in
  let challenge := locked.2 in
  if negb (challenge_open s challenge login v) then mfail AppError.InvalidTransition
  else
    mlift (revalidate_policy_and_smtp (es_db s) (challenge_authority login challenge)
             (vep_project_id v) (vep_now v)) ;;~
    if proof_expired challenge v || negb (proof_matches challenge v)
    then mfail AppError.InvalidTransition
    else if bool_decide (cep_lookup_aliases c = []) || (16 <? list_len (cep_lookup_aliases c))
    then mfail AppError.InvalidInput
    else if negb (digest_matches (ech_lookup_digest challenge) (ech_lookup_digest_key_version challenge)
                    (cep_verified_challenge_lookup c))
    then mfail AppError.Integrity
    else
      user <~ completed_user c (ech_canonicalization_version challenge) ;;
      let '(user_id, user_public_id, user_security_revision, is_new) := user in
      issued <~ complete_writes c login challenge user_id user_public_id user_security_revision ;;
      (if is_new : bool then on_db (sign_up_triggers (es_graph s) (vep_project_id v) user_id)
       else mret tt) ;;~
      mret issued.

Definition complete_email_proof (c : CompleteEmailProof) : etxn IssuedHandoff :=
  mlift (validate_completion c) ;;~
  e_transaction (complete_locked c).
End completion.

(** ** Retention: the statements of [maintain_short_term_data]

    Each runs in a transaction of its own, on at most [limit] rows in the order of
    their ids, less the rows other transactions hold ([locked]).  [cutoff] is ten
    minutes before [now]. *)
Section retention.
Context (locked : Uuid -> bool) (clock now : OffsetDateTime) (limit : Z).
Let cutoff : OffsetDateTime := now - minutes 10.

Definition bounded {Row : Type} (id : Row -> Uuid) (p : Row -> bool) (t : gmap Z Row) : list Uuid :=
  map id (find_all t (fun row => p row && negb (locked (id row))) (key_le id) limit).

Definition chosen (ids : list Uuid) (id : Uuid) : bool := bool_decide (id ∈ ids).

Definition mutation_mail (s : EmailStore) (m : MailOutboxRow) : bool :=
  is_some (find_by_id (es_challenges s) (mob_challenge_id m) (fun c =>
    (ech_project_id c =? mob_project_id m)
    && bool_decide (ech_owner_kind c = "identity_mutation"%string))).

(** Not held by a worker. *)
Definition unleased (m : MailOutboxRow) : bool :=
  negb (bool_decide (mob_status m = "leased"%string))
  || is_some_and (mob_lease_expires_at m) (fun e => e <=? clock).

Definition overdue_mail (p : MailOutboxRow -> bool) (s : EmailStore) (m : MailOutboxRow) : bool :=
  bool_decide (mob_status m ∈ ACTIVE_MAIL_STATUSES) && p m && negb (mutation_mail s m) && unleased m.

Definition end_exhausted_mail : etxn Z :=
  s <~ mget ;;
  let ids := bounded mob_id (overdue_mail (fun m => mob_max_attempts m <=? mob_attempts m) s)
               (es_outbox s) in
  update_outbox (fun m => chosen ids (mob_id m) && unleased m)
    (fun m => mail_with "permanent_failure"
                (Some (default "transient"%string (mob_safe_outcome m))) (Some now) now m).

Definition end_useless_mail : etxn Z :=
  s <~ mget ;;
  let ids := bounded mob_id (overdue_mail (fun m => mob_useful_until m <=? now) s) (es_outbox s) in
  update_outbox (fun m => chosen ids (mob_id m) && unleased m)
    (fun m => mail_with "expired" (Some "expired"%string) (Some now) now m).

Definition expire_challenges : etxn Z :=
  s <~ mget ;;
  let ids := bounded ech_id (fun c => bool_decide (ech_owner_kind c = "login"%string)
                                      && bool_decide (ech_status c = "pending"%string)
                                      && (ech_expires_at c <=? now)) (es_challenges s) in
  update_challenges (fun c => chosen ids (ech_id c))
    (fun c => challenge_with "expired" (ech_otp_attempts c) (ech_consumed_at c) (Some now) now c).

Definition challenge_redacted (c : EmailChallengeRow) : EmailChallengeRow :=
  mkEmailChallengeRow (ech_id c) (ech_project_id c) (ech_application_id c) (ech_transaction_id c)
    (ech_generation c) (ech_status c) (ech_canonicalization_version c) (ech_lookup_digest c)
    (ech_lookup_digest_key_version c) None None
    (ech_otp_digest c) (ech_otp_digest_key_version c) (ech_otp_attempts c) (ech_otp_max_attempts c)
    (ech_magic_digest c) (ech_magic_digest_key_version c) (ech_method_policy_revision c)
    (ech_method_security_revision c) (ech_assignment_security_revision c)
    (ech_smtp_selection_kind c) (ech_smtp_configuration_id c) (ech_smtp_generation c)
    (ech_smtp_security_eligibility_revision c) (ech_browser_binding_required c) (ech_issued_at c)
    (ech_otp_expires_at c) (ech_magic_expires_at c) (ech_expires_at c) (ech_consumed_at c)
    (ech_terminal_at c) (Some now) (ech_created_at c) now (ech_owner_kind c)
    (ech_identity_mutation_intent_id c) (ech_identity_mutation_proof_slot_id c).

Definition redact_challenges : etxn Z :=
  s <~ mget ;;
  let ids := bounded ech_id (fun c => is_some (ech_address_ciphertext c)
                                      && (is_some_and (ech_terminal_at c) (fun t => t <=? cutoff)
                                          || (ech_expires_at c <=? cutoff))) (es_challenges s) in
  update_challenges (fun c => chosen ids (ech_id c)) challenge_redacted.

Definition mail_redacted (m : MailOutboxRow) : MailOutboxRow :=
  mkMailOutboxRow (mob_id m) (mob_project_id m) (mob_transaction_id m) (mob_challenge_id m)
    (mob_challenge_generation m) (mob_status m) (mob_smtp_selection_kind m)
    (mob_smtp_configuration_id m) (mob_smtp_generation m) (mob_smtp_security_eligibility_revision m)
    (mob_message_id m) None None None None (mob_attempts m) (mob_max_attempts m)
    (mob_next_attempt_at m) (mob_lease_owner m) (mob_lease_expires_at m) (mob_safe_outcome m)
    (mob_useful_until m) (mob_delivered_at m) (mob_terminal_at m) (Some now) (mob_created_at m) now.

Definition redact_mail : etxn Z :=
  s <~ mget ;;
  let ids := bounded mob_id (fun m => is_some (mob_envelope_ciphertext m)
                                      && is_some_and (mob_terminal_at m) (fun t => t <=? cutoff))
               (es_outbox s) in
  update_outbox (fun m => chosen ids (mob_id m)) mail_redacted.

Definition delete_transfers : etxn Z :=
  s <~ mget ;;
  let ids := bounded mtc_id (fun t =>
               is_some_and (es_challenges s !! mtc_challenge_id t) (fun c =>
                 (mtc_expires_at t <=? cutoff)
                 || is_some_and (mtc_consumed_at t) (fun e => e <=? cutoff)
                 || is_some_and (ech_terminal_at c) (fun e => e <=? cutoff))) (es_transfers s) in
  mmodify (set_es_transfers (filter (fun kt => mtc_id kt.2 ∉ ids) (es_transfers s))) ;;~
  mret (list_len ids).
End retention.

(** ** The end of an attempt to send *)
Record ClaimedMailJob := mkClaimedMailJob {
  cmj_id : Uuid; cmj_project_id : Uuid; cmj_owner : MailChallengeOwner; cmj_challenge_id : Uuid;
  cmj_challenge_generation : Z; cmj_message_id : string; cmj_envelope : ProtectedValue;
  cmj_body : ProtectedValue; cmj_endpoint : SmtpEndpoint; cmj_envelope_from : string;
  cmj_sender_name : option string; cmj_reply_to : option string; cmj_credential_material_id : Uuid;
  cmj_safe_fingerprint : list Z; cmj_lease_owner : string; cmj_lease_expires_at : OffsetDateTime;
  cmj_attempts : Z; cmj_max_attempts : Z; cmj_useful_until : OffsetDateTime
}.

(** The status, the outcome and whether the mail is done. *)
Definition attempt_result (outcome : MailTransportOutcome) (next_attempt_at : option OffsetDateTime) :
    string * string * bool :=
  match outcome, next_attempt_at with
  | Delivered, _ => ("delivered", "delivered", true)
  | Permanent, _ => ("permanent_failure", "permanent", true)
  | PolicyDenied, _ => ("permanent_failure", "policy_denied", true)
  | Transient, Some _ => ("retry", "transient", false)
  | Ambiguous, Some _ => ("ambiguous", "ambiguous", false)
  | Transient, None => ("permanent_failure", "transient", true)
  | Ambiguous, None => ("permanent_failure", "ambiguous", true)
  end%string.

Definition mail_attempted (status safe_outcome : string) (terminal : bool) (next now : OffsetDateTime)
    (m : MailOutboxRow) : MailOutboxRow :=
  mkMailOutboxRow (mob_id m) (mob_project_id m) (mob_transaction_id m) (mob_challenge_id m)
    (mob_challenge_generation m) status (mob_smtp_selection_kind m) (mob_smtp_configuration_id m)
    (mob_smtp_generation m) (mob_smtp_security_eligibility_revision m) (mob_message_id m)
    (mob_envelope_ciphertext m) (mob_envelope_key_version m) (mob_body_ciphertext m)
    (mob_body_key_version m) (mob_attempts m) (mob_max_attempts m) next None None
    (Some safe_outcome) (mob_useful_until m)
    (if bool_decide (status = "delivered"%string) then Some now else mob_delivered_at m)
    (if terminal then Some now else mob_terminal_at m) (mob_redacted_at m) (mob_created_at m) now.

(** The mail is still leased to this attempt. *)
Definition leased_to (clock : OffsetDateTime) (job : ClaimedMailJob) (m : MailOutboxRow) : bool :=
  (mob_id m =? cmj_id job) && bool_decide (mob_status m = "leased"%string)
  && bool_decide (mob_lease_owner m = Some (cmj_lease_owner job)) && (mob_attempts m =? cmj_attempts job)
  && bool_decide (mob_lease_expires_at m = Some (cmj_lease_expires_at job))
  && is_some_and (mob_lease_expires_at m) (fun e => clock <? e).

Definition finish_mail_attempt (clock : OffsetDateTime) (job : ClaimedMailJob)
    (outcome : MailTransportOutcome) (next_attempt_at : option OffsetDateTime) (now : OffsetDateTime) :
    etxn unit :=
  let '(status, safe_outcome, terminal) := attempt_result outcome next_attempt_at in
  let next := default (cmj_useful_until job) next_attempt_at in
  e_transaction (
    updated_rows <~ update_outbox (leased_to clock job)
                      (mail_attempted status safe_outcome terminal next now) ;;
    if negb (updated_rows =? 1) then mfail AppError.RevisionConflict else mret tt).
