(* ===== verification/EmailEffects.v ===== *)
(** * What the email authority does to its tables

    The invariant of the tables of passwordless email, [email_ok], and what may
    become of them, [email_evolves]: a challenge keeps its proofs and moves along
    the machine of [domain/email.rs], the count of wrong codes of a login only
    grows, a project has at most a thousand mails under way, and a digest of an
    address, once recorded, leads to the same identity.  Nothing here depends on
    the tables of the rest of the program. *)
From S2P Require Import Prelude.
From S2P Require Import Json.
From S2P Require Import Lifecycle.
From S2P Require Import Email.
From S2P Require Import LoginTables.
From S2P Require Import Database.
From S2P Require Import LoginStore.
From S2P Require Import Projection.
From S2P Require Import SessionAuthority.
From S2P Require Import SessionStore.
From S2P Require Import LoginHistory.
From S2P Require Import ServerApi.
From S2P Require Import ControlLifecycle.
From S2P Require Import EmailTables.
From S2P Require Import PasswordlessEmail.
Import Challenge.

(** ** Frames of programs on [EmailStore] *)
Definition e_frame_at (R : relation EmailStore) (s : EmailStore) {A} (m : etxn A) : Prop :=
  forall s' a, m s = (s', Ok a) -> R s s'.
Definition e_frame (R : relation EmailStore) {A} (m : etxn A) : Prop := forall s, e_frame_at R s m.
Definition e_effect (R : relation EmailStore) {A} (m : etxn A) : Prop :=
  forall s s' r, m s = (s', r) -> R s s'.

(** A relation that does not look at the tables of the rest of the program. *)
Class DbBlind (R : relation EmailStore) : Prop := db_blind : forall s db, R s (set_es_db db s).

Lemma e_check_ok c e s s' : e_check c e s = (s', Ok tt) <-> c = true /\ s' = s.
Proof. unfold e_check, mret, mfail; destruct c; naive_solver. Qed.

Lemma e_transaction_ok {A} (m : etxn A) s s' a : e_transaction m s = (s', Ok a) <-> m s = (s', Ok a).
Proof. unfold e_transaction; destruct (m s) as [? [?|?]]; naive_solver. Qed.
Lemma e_transaction_err {A} (m : etxn A) s s' e : e_transaction m s = (s', Err e) -> s' = s.
Proof. unfold e_transaction; destruct (m s) as [? [?|?]]; naive_solver. Qed.

Lemma on_db_ok {A} (m : txn A) s s' a :
  on_db m s = (s', Ok a) <-> exists db, m (es_db s) = (db, Ok a) /\ s' = set_es_db db s.
Proof. unfold on_db. destruct (m (es_db s)) as [db r]. naive_solver. Qed.

Section rules.
Context (R : relation EmailStore) `{!PreOrder R}.
Context {A B : Type}.

Lemma e_frame_get s (k : EmailStore -> etxn B) : e_frame_at R s (k s) -> e_frame_at R s (mseq mget k).
Proof. intros Hk s' b Hm; by apply Hk in Hm. Qed.
Lemma e_frame_lift s (x : result ApplicationError A) (k : A -> etxn B) :
  (forall a, x = Ok a -> e_frame_at R s (k a)) -> e_frame_at R s (mseq (mlift x) k).
Proof. intros Hk s' b (d & a & [Hx ->]%mlift_ok & Hb)%mseq_ok; by eapply Hk. Qed.
Lemma e_frame_seq s (m : etxn A) (k : A -> etxn B) :
  e_frame_at R s m -> (forall s' a, m s = (s', Ok a) -> e_frame_at R s' (k a)) ->
  e_frame_at R s (mseq m k).
Proof. intros Hm Hk s' b (d & a & Ha & Hb)%mseq_ok; etrans; [by eapply Hm|by eapply Hk]. Qed.
Lemma e_frame_ret s (a : A) : e_frame_at R s (mret a).
Proof. by intros s' b [= <- _]. Qed.
Lemma e_frame_fail s e : e_frame_at R s (mfail e : etxn A).
Proof. by intros s' b [=]. Qed.
Lemma e_frame_mlift s (x : result ApplicationError A) : e_frame_at R s (mlift x).
Proof. by intros s' b [_ ->]%mlift_ok. Qed.
Lemma e_frame_check s c e : e_frame_at R s (e_check c e).
Proof. intros s' [] [_ ->]%e_check_ok; reflexivity. Qed.
Lemma e_frame_modify s f : R s (f s) -> e_frame_at R s (mmodify f).
Proof. by intros Hf s' [] [= <-]. Qed.
Lemma e_frame_on_db `{!DbBlind R} s (m : txn A) : e_frame_at R s (on_db m).
Proof. intros s' a (db & _ & ->)%on_db_ok. apply db_blind. Qed.

Lemma e_effect_lift (x : result ApplicationError A) (k : A -> etxn B) :
  (forall a, x = Ok a -> e_effect R (k a)) -> e_effect R (mseq (mlift x) k).
Proof.
  intros Hk s s' r; unfold mseq, mlift; destruct x as [a|e]; [by eapply Hk|by intros [= <- _]].
Qed.
Lemma e_effect_transaction (m : etxn A) : e_frame R m -> e_effect R (e_transaction m).
Proof.
  intros Hm s s' [a|e] Hr; [apply (proj1 (e_transaction_ok _ _ _ _)) in Hr; by eapply Hm|].
  by apply e_transaction_err in Hr as ->.
Qed.
Lemma e_effect_on_db `{!DbBlind R} (m : txn A) : e_effect R (on_db m).
Proof. intros s s' r. unfold on_db. destruct (m (es_db s)). intros [= <- _]. apply db_blind. Qed.
End rules.

Create HintDb email_frames.
#[export] Hint Resolve e_frame_ret e_frame_fail e_frame_mlift e_frame_check e_frame_on_db : email_frames.

Ltac e_frame_step :=
  lazymatch goal with
  | |- e_frame _ _ => intros ?
  | |- e_frame_at _ _ (mseq mget _) => apply e_frame_get; cbv beta
  | |- e_frame_at _ _ (mseq (mlift _) _) => apply e_frame_lift; intros ? ?
  | |- e_frame_at _ _ (mseq _ _) => apply e_frame_seq; [exact _| |intros ? ? ?]
  | |- e_frame_at _ _ (if ?b then _ else _) => destruct b eqn:?
  | |- e_frame_at _ _ (match ?x with _ => _ end) => destruct x eqn:?
  | |- e_frame_at _ _ (let _ := _ in _) => cbv zeta
  | |- e_effect _ (mseq (mlift _) _) => apply e_effect_lift; [exact _|]; intros ? ?
  | |- e_effect _ (e_transaction _) => apply e_effect_transaction; [exact _|]
  | |- e_effect _ (on_db _) => apply e_effect_on_db
  end.
Ltac solve_email := repeat first [progress e_frame_step | solve [eauto with email_frames typeclass_instances nocore]].

(** ** Rows of a table *)
Section tables.
Context {Row : Type}.
Implicit Types t : gmap Z Row.

Lemma elem_of_rows t row : row ∈ rows t <-> exists i, t !! i = Some row.
Proof.
  unfold rows. rewrite list_elem_of_In, in_map_iff. split.
  - intros ([i x] & <- & Hin). exists i. by apply elem_of_map_to_list, list_elem_of_In.
  - intros [i Hi]. exists (i, row). split; [done|]. by apply list_elem_of_In, elem_of_map_to_list.
Qed.

Lemma rows_updated p f t :
  rows (updated p f t) = map (fun row => if p row then f row else row : Row) (rows t).
Proof. unfold rows, updated. rewrite map_to_list_fmap, !map_map. by apply map_ext; intros []. Qed.

Lemma rows_insert t i row : t !! i = None -> rows (<[i := row]> t) ≡ₚ row :: rows t.
Proof. intros Hi. unfold rows. by rewrite (map_to_list_insert _ _ _ Hi). Qed.

Lemma lookup_updated p f t i row' :
  updated p f t !! i = Some row' <-> exists row, t !! i = Some row /\ row' = if p row then f row else row.
Proof. unfold updated. rewrite lookup_fmap, fmap_Some. done. Qed.

Lemma updatable_true accepts p f t :
  updatable accepts p f t = true <->
  forall i row, t !! i = Some row -> p row = true -> accepts row (f row) = true.
Proof.
  unfold updatable. rewrite forallb_forall. split.
  - intros Hf i row Hi Hp. specialize (Hf row). rewrite Hp in Hf. apply Hf, list_elem_of_In, elem_of_rows. eauto.
  - intros Hf row [i Hi]%list_elem_of_In%elem_of_rows. destruct (p row) eqn:Hp; [|done]. by eapply Hf.
Qed.

Lemma list_len_filter_le (p q : Row -> bool) (l : list Row) :
  (forall row, row ∈ l -> p row = true -> q row = true) ->
  list_len (List.filter p l) <= list_len (List.filter q l).
Proof.
  unfold list_len. induction l as [|x l IH]; intros Hpq; cbn; [lia|].
  assert (forall row, row ∈ l -> p row = true -> q row = true) as Hl by (intros; apply Hpq; [by right|done]).
  specialize (IH Hl). destruct (p x) eqn:Hp; [rewrite (Hpq x) by (done || by left)|destruct (q x)]; cbn; lia.
Qed.

(** An update that puts no new row under [q] does not raise their number. *)
Lemma affected_updated q p f t :
  (forall i row, t !! i = Some row -> p row = true -> q (f row) = true -> q row = true) ->
  affected q (updated p f t) <= affected q t.
Proof.
  intros Hq. unfold affected. rewrite rows_updated.
  assert (forall l, list_len (List.filter q (map (fun row => if p row then f row else row) l))
                    = list_len (List.filter (fun row => q (if p row then f row else row)) l)) as ->.
  { unfold list_len. induction l as [|x l IH]; cbn; [done|].
    destruct (q (if p x then f x else x)); cbn; lia. }
  apply list_len_filter_le. intros row [i Hi]%elem_of_rows. destruct (p row) eqn:Hp; [by eapply Hq|done].
Qed.

(** Sums over rows. *)
Fixpoint sum_of (w : Row -> Z) (l : list Row) : Z :=
  match l with [] => 0 | row :: l => w row + sum_of w l end.

Lemma sum_of_perm w l l' : l ≡ₚ l' -> sum_of w l = sum_of w l'.
Proof. induction 1; cbn; lia. Qed.

Lemma sum_of_le w (f : Row -> Row) l :
  (forall row, row ∈ l -> w row <= w (f row)) -> sum_of w l <= sum_of w (map f l).
Proof.
  induction l as [|x l IH]; intros Hw; cbn; [lia|].
  specialize (IH (fun y Hy => Hw y (list_elem_of_further _ _ _ Hy))).
  specialize (Hw x (list_elem_of_here _ _)). lia.
Qed.

Lemma sum_of_lt w (f : Row -> Row) l x :
  (forall row, row ∈ l -> w row <= w (f row)) -> x ∈ l -> w x + 1 <= w (f x) ->
  sum_of w l + 1 <= sum_of w (map f l).
Proof.
  induction l as [|y l IH]; intros Hw Hx Hlt; [by apply not_elem_of_nil in Hx|]. cbn.
  assert (forall row, row ∈ l -> w row <= w (f row)) as Hl by (intros; apply Hw; by right).
  pose proof (Hw y (list_elem_of_here _ _)). pose proof (sum_of_le w f l Hl).
  apply elem_of_cons in Hx as [->|Hx]; [lia|]. specialize (IH Hl Hx Hlt). lia.
Qed.

Lemma sum_of_bounded w l k :
  (forall row, row ∈ l -> 0 <= w row <= k) -> 0 <= sum_of w l <= k * list_len l.
Proof.
  unfold list_len. induction l as [|x l IH]; intros Hw; cbn; [lia|].
  specialize (IH (fun y Hy => Hw y (list_elem_of_further _ _ _ Hy))).
  specialize (Hw x (list_elem_of_here _ _)). nia.
Qed.

Lemma affected_insert q t i row :
  t !! i = None -> affected q (<[i := row]> t) = (if q row then 1 else 0) + affected q t.
Proof.
  intros Hi. unfold affected. pose proof (rows_insert t i row Hi) as Hp.
  assert (forall a b : list Row, a ≡ₚ b -> list_len (List.filter q a) = list_len (List.filter q b)) as Hl.
  { unfold list_len. induction 1; cbn; repeat match goal with |- context [if q ?x then _ else _] => destruct (q x) end; cbn; lia. }
  rewrite (Hl _ _ Hp). cbn. unfold list_len. destruct (q row); cbn; lia.
Qed.
End tables.

(** ** Challenges as the domain sees them *)
Definition status_view (status : string) : EmailChallengeStatus :=
  if bool_decide (status = "pending"%string) then Pending
  else if bool_decide (status = "consumed"%string) then Consumed
  else if bool_decide (status = "exhausted"%string) then Exhausted
  else if bool_decide (status = "expired"%string) then Expired
  else if bool_decide (status = "superseded"%string) then Superseded
  else DeliveryUnavailable.

Definition challenge_view (c : EmailChallengeRow) : EmailChallengeState :=
  mkEmailChallengeState (ech_generation c) (status_view (ech_status c)) (ech_otp_attempts c)
    (ech_otp_max_attempts c) (ech_issued_at c) (ech_expires_at c).

(** The moves of a challenge the domain has ([EmailChallengeState::failed_otp] and
    [consume]), as it has them. *)
Inductive domain_move (a b : EmailChallengeState) : Prop :=
| guess_step now : EmailChallengeState_failed_otp a now = Ok b -> domain_move a b
| consume_step now : EmailChallengeState_consume a now = Ok b -> domain_move a b.

(** The moves the SQL of the store makes on its own.  [commit_email_generation]
    supersedes whatever is pending or was never delivered, by its status alone; the
    domain's [resend] asks for a pending challenge that has not expired.  The end of
    a challenge's time is written to its row; the domain only compares times. *)
Inductive store_move (a b : EmailChallengeState) : Prop :=
| supersede_step : ec_status a ∈ [Pending; DeliveryUnavailable] ->
    b = ec_set_status Superseded a -> store_move a b
| expire_step now : ec_status a = Pending -> ec_expires_at a <= now ->
    b = ec_set_status Expired a -> store_move a b.

Inductive challenge_step (a b : EmailChallengeState) : Prop :=
| domain_step : domain_move a b -> challenge_step a b
| store_step : store_move a b -> challenge_step a b.

(** A challenge as it is issued. *)
Definition issued (a : EmailChallengeState) : Prop :=
  otp_attempts a = 0 /\ ec_status a ∈ [Pending; DeliveryUnavailable].

(** What a challenge never changes. *)
Definition same_challenge (a b : EmailChallengeRow) : Prop :=
  ech_id b = ech_id a /\ ech_project_id b = ech_project_id a
  /\ ech_application_id b = ech_application_id a /\ ech_transaction_id b = ech_transaction_id a
  /\ ech_owner_kind b = ech_owner_kind a /\ ech_otp_digest b = ech_otp_digest a
  /\ ech_identity_mutation_intent_id b = ech_identity_mutation_intent_id a
  /\ ech_identity_mutation_proof_slot_id b = ech_identity_mutation_proof_slot_id a
  /\ ech_otp_digest_key_version b = ech_otp_digest_key_version a
  /\ ech_otp_expires_at b = ech_otp_expires_at a /\ ech_magic_digest b = ech_magic_digest a
  /\ ech_magic_digest_key_version b = ech_magic_digest_key_version a
  /\ ech_magic_expires_at b = ech_magic_expires_at a
  /\ ech_lookup_digest b = ech_lookup_digest a
  /\ ech_lookup_digest_key_version b = ech_lookup_digest_key_version a
  /\ ech_generation b = ech_generation a.

Definition challenge_path (a b : EmailChallengeRow) : Prop :=
  same_challenge a b /\ rtc challenge_step (challenge_view a) (challenge_view b).

#[export] Instance same_challenge_preorder : PreOrder same_challenge.
Proof. split; [done|]. intros a b c. unfold same_challenge. intuition congruence. Qed.
#[export] Instance challenge_path_preorder : PreOrder challenge_path.
Proof.
  split; [by intros a; split|]. intros a b c [? ?] [? ?]. split; by etrans.
Qed.

(** What moves tell. *)
Lemma require_pending_ok a now u :
  EmailChallengeState_require_pending a now = Ok u <-> u = tt /\ ec_status a = Pending /\ now < ec_expires_at a.
Proof.
  unfold EmailChallengeState_require_pending. case_bool_decide; cbn; destruct u; [|naive_solver].
  destruct (Z.leb_spec (ec_expires_at a) now); naive_solver lia.
Qed.

Lemma failed_otp_ok a now b :
  EmailChallengeState_failed_otp a now = Ok b <->
  ec_status a = Pending /\ now < ec_expires_at a /\ otp_attempts a < otp_max_attempts a
  /\ b = mkEmailChallengeState (ec_generation a)
           (if otp_attempts a + 1 =? otp_max_attempts a then Exhausted else Pending)
           (otp_attempts a + 1) (otp_max_attempts a) (ec_issued_at a) (ec_expires_at a).
Proof.
  unfold EmailChallengeState_failed_otp. rewrite rbind_ok. split.
  - intros (? & (-> & Hp & He)%require_pending_ok & H). inv_ok. cbn in *. bool_prop.
    unfold ec_set_attempts. destruct (_ =? _); cbn; rewrite ?Hp; by split_and!.
  - intros (Hp & He & Hm & ->). exists tt. rewrite require_pending_ok. split; [done|].
    destruct (Z.leb_spec (otp_max_attempts a) (otp_attempts a)); [lia|]. cbn.
    unfold ec_set_attempts. by destruct (_ =? _); cbn; rewrite ?Hp.
Qed.

Lemma consume_ok a now b :
  EmailChallengeState_consume a now = Ok b <->
  ec_status a = Pending /\ now < ec_expires_at a /\ b = ec_set_status Consumed a.
Proof.
  unfold EmailChallengeState_consume. rewrite rbind_ok. split.
  - intros (? & (-> & Hp & He)%require_pending_ok & [= <-]). done.
  - intros (Hp & He & ->). exists tt. by rewrite require_pending_ok.
Qed.

Lemma challenge_step_attempts a b : challenge_step a b ->
  otp_attempts a <= otp_attempts b /\ otp_max_attempts b = otp_max_attempts a
  /\ ec_generation b = ec_generation a.
Proof.
  intros [[now (_ & _ & _ & ->)%failed_otp_ok|now (_ & _ & ->)%consume_ok]|[_ ->|now _ _ ->]];
    cbn; lia.
Qed.

Lemma challenge_step_ended a b :
  challenge_step a b -> ec_status a <> Pending -> ec_status b <> Pending.
Proof.
  by intros [[now (? & _)%failed_otp_ok|now (? & _)%consume_ok]|[_ ->|now ? _ ->]].
Qed.

(** Moves start at a challenge that is open, or was never delivered; the latter is
    only ever superseded. *)
Lemma challenge_step_from a b : challenge_step a b ->
  ec_status a = Pending \/ ec_status a = DeliveryUnavailable /\ b = ec_set_status Superseded a.
Proof.
  intros [[now (? & _)%failed_otp_ok|now (? & _)%consume_ok]|[Hs ->|now ? _ ->]]; auto.
  apply elem_of_cons in Hs as [?|Hs%list_elem_of_singleton]; auto.
Qed.

Lemma challenge_final a b : rtc challenge_step a b ->
  ec_status a <> Pending -> ec_status a <> DeliveryUnavailable -> b = a.
Proof. intros [|? y ? Hs _] Hp Hu; [done|]. by apply challenge_step_from in Hs as [?|[? _]]. Qed.

Lemma undelivered_ends a b : rtc challenge_step a b -> ec_status a = DeliveryUnavailable ->
  b = a \/ b = ec_set_status Superseded a.
Proof.
  intros [|? y ? Hs Hr] Hu; [by left|right].
  apply challenge_step_from in Hs as [Hp|[_ ->]]; [congruence|]. by apply challenge_final in Hr.
Qed.

(** The domain's machine has no move from a challenge that was never delivered, nor
    from one whose time is over. *)
Lemma domain_refuses a now policy tx :
  ec_status a <> Pending \/ ec_expires_at a <= now ->
  EmailChallengeState_failed_otp a now = Err InvalidTransition
  /\ EmailChallengeState_consume a now = Err InvalidTransition
  /\ EmailChallengeState_resend a now policy tx = Err InvalidTransition.
Proof.
  intros Ha. assert (EmailChallengeState_require_pending a now = Err InvalidTransition) as Hr.
  { unfold EmailChallengeState_require_pending. case_bool_decide; cbn; [|done].
    destruct Ha; [done|]. by rewrite (proj2 (Z.leb_le _ _)). }
  unfold EmailChallengeState_failed_otp, EmailChallengeState_consume, EmailChallengeState_resend.
  by rewrite Hr.
Qed.

Lemma challenge_path_attempts a b : challenge_path a b ->
  ech_otp_attempts a <= ech_otp_attempts b /\ ech_otp_max_attempts b = ech_otp_max_attempts a.
Proof.
  intros [_ Hp].
  assert (otp_attempts (challenge_view a) <= otp_attempts (challenge_view b)
          /\ otp_max_attempts (challenge_view b) = otp_max_attempts (challenge_view a)); [|done].
  induction Hp as [|x y z Hs _ IH]; [lia|]. apply challenge_step_attempts in Hs. lia.
Qed.

Lemma status_view_pending status : status_view status = Pending <-> status = "pending"%string.
Proof. unfold status_view. repeat case_bool_decide; naive_solver. Qed.

(** A challenge that ended stays ended. *)
Lemma challenge_path_ended a b : challenge_path a b ->
  ech_status a <> "pending"%string -> ech_status b <> "pending"%string.
Proof.
  intros [_ Hp]. rewrite <- !status_view_pending.
  change (ec_status (challenge_view a) <> Pending -> ec_status (challenge_view b) <> Pending).
  induction Hp as [|x y z Hs _ IH]; [done|]. eauto using challenge_step_ended.
Qed.

(** What the checks of a row bound. *)
Lemma challenge_check_bounds c : email_challenge_check c = true ->
  1 <= ech_generation c <= 5 /\ 0 <= ech_otp_attempts c <= 5 /\ 1 <= ech_otp_max_attempts c <= 5.
Proof.
  unfold email_challenge_check. rewrite !andb_true_iff. intros H. destruct_and!.
  repeat match goal with H : in_range _ _ _ = true |- _ => apply in_range_true in H end. lia.
Qed.

(** ** The invariant, and what may become of the tables *)
Record challenges_ok (t : gmap Z EmailChallengeRow) : Prop := {
  ch_ids : keyed ech_id t;
  ch_check : forall i c, t !! i = Some c -> email_challenge_check c = true;
  ch_unique : forall i j a b, i <> j -> t !! i = Some a -> t !! j = Some b ->
    email_challenge_conflict a b = false;
  ch_attempts : forall i c, t !! i = Some c -> ech_status c = "pending"%string ->
    ech_otp_attempts c < ech_otp_max_attempts c
}.

Record email_ok (s : EmailStore) : Prop := {
  eo_challenges : challenges_ok (es_challenges s);
  eo_backlog : forall p,
    affected (active_mail p) (es_outbox s) <= MAX_ACTIVE_MAIL_OUTBOX_PER_PROJECT
}.

(** The wrong codes counted for a login, over all its challenges. *)
Definition attempts_for (project_id transaction_id : Uuid) (c : EmailChallengeRow) : Z :=
  if of_login project_id transaction_id c then ech_otp_attempts c else 0.
Definition login_attempts (t : gmap Z EmailChallengeRow) (project_id transaction_id : Uuid) : Z :=
  sum_of (attempts_for project_id transaction_id) (rows t).

Record challenges_evolve (t t' : gmap Z EmailChallengeRow) : Prop := {
  ce_path : forall i c, t !! i = Some c -> exists c', t' !! i = Some c' /\ challenge_path c c';
  ce_issued : forall i c', t' !! i = Some c' -> t !! i = None ->
    exists a, issued a /\ rtc challenge_step a (challenge_view c');
  ce_attempts : forall p tx, login_attempts t p tx <= login_attempts t' p tx
}.

Record email_evolves (s s' : EmailStore) : Prop := {
  ee_challenges : challenges_evolve (es_challenges s) (es_challenges s');
  ee_aliases : exists extra, es_aliases s' = es_aliases s ++ extra
}.

Definition email_kept (s s' : EmailStore) : Prop := email_ok s -> email_ok s' /\ email_evolves s s'.

#[export] Instance challenges_evolve_preorder : PreOrder challenges_evolve.
Proof.
  split.
  - intros t. constructor; [intros i c Hc; by exists c|intros; congruence|lia].
  - intros t1 t2 t3 [P1 I1 A1] [P2 I2 A2]. constructor.
    + intros i c (c' & Hc' & Hp)%P1. apply P2 in Hc' as (c'' & ? & ?). eexists. split; [done|]. by etrans.
    + intros i c'' Hc'' Hn. destruct (t2 !! i) as [c'|] eqn:Hc'; [|by eapply I2].
      destruct (I1 _ _ Hc' Hn) as (a & ? & ?). apply P2 in Hc' as (x & Hx & _ & Hp).
      simplify_eq. exists a. split; [done|]. by etrans.
    + intros p tx. etrans; [apply A1|apply A2].
Qed.
#[export] Instance email_evolves_preorder : PreOrder email_evolves.
Proof.
  split.
  - intros s. constructor; [done|]. exists []. by rewrite app_nil_r.
  - intros a b c [? [x Hx]] [? [y Hy]]. constructor; [by etrans|].
    exists (x ++ y). by rewrite Hy, Hx, app_assoc.
Qed.
#[export] Instance email_kept_preorder : PreOrder email_kept.
Proof.
  split; [by intros s; split|]. intros a b c Hab Hbc Ha.
  destruct (Hab Ha) as [Hb ?]. destruct (Hbc Hb). split; [done|by etrans].
Qed.
#[export] Instance email_kept_blind : DbBlind email_kept.
Proof. intros s db [? ?]. split; [by constructor|]. constructor; [done|]. exists []. by rewrite app_nil_r. Qed.

(** ** Statements on challenges *)
Lemma update_challenges_ok p f s s' n :
  update_challenges p f s = (s', Ok n) <->
  (forall i c, es_challenges s !! i = Some c -> p c = true ->
     challenge_stable c (f c) = true /\ email_challenge_check (f c) = true)
  /\ s' = set_es_challenges (updated p f (es_challenges s)) s /\ n = affected p (es_challenges s).
Proof.
  unfold update_challenges, mseq, mget, e_check, mmodify, mret, mfail.
  destruct (updatable _ p f _) eqn:Hu.
  - rewrite updatable_true in Hu. setoid_rewrite andb_true_iff in Hu. naive_solver.
  - split; [done|]. intros [Hf _]. exfalso. apply not_true_iff_false in Hu. apply Hu, updatable_true.
    setoid_rewrite andb_true_iff. exact Hf.
Qed.

Lemma of_login_same p tx a b : same_challenge a b -> of_login p tx b = of_login p tx a.
Proof. intros (_ & Hp & _ & Ht & _). unfold of_login. by rewrite Hp, Ht. Qed.

Lemma path_attempts_for p tx a b : challenge_path a b -> attempts_for p tx a <= attempts_for p tx b.
Proof.
  intros Hp. unfold attempts_for. rewrite (of_login_same p tx _ _ (proj1 Hp)).
  apply challenge_path_attempts in Hp. destruct (of_login p tx a); lia.
Qed.

Lemma challenge_conflict_sym a b : email_challenge_conflict a b = email_challenge_conflict b a.
Proof.
  unfold email_challenge_conflict, same_key. apply eq_true_iff_eq.
  rewrite !andb_true_iff, !orb_true_iff, !andb_true_iff, !orb_true_iff, !andb_true_iff, !Z.eqb_eq, !bool_decide_eq_true.
  split; intros [? [H|H]]; (split; [done|]); [left|right|left|right]; intuition congruence.
Qed.

(** A clash of two challenges was one before they moved. *)
Lemma challenge_conflict_path a b a' b' :
  challenge_path a a' -> challenge_path b b' ->
  email_challenge_conflict a b = false -> email_challenge_conflict a' b' = false.
Proof.
  intros Ha Hb. pose proof (challenge_path_ended _ _ Ha) as Ea. pose proof (challenge_path_ended _ _ Hb) as Eb.
  destruct Ha as [(_ & A1 & _ & A2 & A3 & _ & A4 & A5 & _ & _ & _ & _ & _ & _ & _ & A6) _].
  destruct Hb as [(_ & B1 & _ & B2 & B3 & _ & B4 & B5 & _ & _ & _ & _ & _ & _ & _ & B6) _].
  unfold email_challenge_conflict. rewrite A1, A2, A3, A4, A5, A6, B1, B2, B3, B4, B5, B6.
  intros Hc. apply not_true_iff_false in Hc. apply not_true_iff_false. contradict Hc.
  destruct (decide (ech_status a = "pending"%string)) as [Pa|Pa];
    [|rewrite (bool_decide_false (ech_status a' = _)) in Hc by auto];
    (destruct (decide (ech_status b = "pending"%string)) as [Pb|Pb];
      [|rewrite (bool_decide_false (ech_status b' = _)) in Hc by auto]);
    rewrite ?Pa, ?Pb; rewrite ?andb_false_r, ?orb_false_r in Hc; cbn in Hc |- *;
    repeat (rewrite ?andb_true_iff, ?orb_true_iff in *); naive_solver.
Qed.

Section moved.
Context (t : gmap Z EmailChallengeRow) (p : EmailChallengeRow -> bool)
  (f : EmailChallengeRow -> EmailChallengeRow).
Hypothesis Hmoves : forall i c, t !! i = Some c -> p c = true -> challenge_path c (f c).

Let moved (c : EmailChallengeRow) : EmailChallengeRow := if p c then f c else c.

Lemma moved_path i c : t !! i = Some c -> challenge_path c (moved c).
Proof. intros Hc. unfold moved. destruct (p c) eqn:Hp; [by eapply Hmoves|done]. Qed.

Lemma moved_attempts pj tx : login_attempts t pj tx <= login_attempts (updated p f t) pj tx.
Proof.
  unfold login_attempts. rewrite rows_updated. apply sum_of_le.
  intros c [i Hc]%elem_of_rows. by eapply path_attempts_for, moved_path.
Qed.

Lemma moved_evolve : challenges_evolve t (updated p f t).
Proof.
  constructor.
  - intros i c Hc. exists (moved c). split; [|by eapply moved_path]. apply lookup_updated. eauto.
  - intros i c' (c & Hc & _)%lookup_updated Hn. congruence.
  - apply moved_attempts.
Qed.

Lemma moved_ok :
  (forall i c, t !! i = Some c -> p c = true -> email_challenge_check (f c) = true) ->
  (forall i c, t !! i = Some c -> p c = true -> ech_status (f c) = "pending"%string ->
     ech_otp_attempts (f c) < ech_otp_max_attempts (f c)) ->
  challenges_ok t -> challenges_ok (updated p f t).
Proof.
  intros Hcheck Hlt Hok. constructor.
  - intros i c' (c & Hc & ->)%lookup_updated. fold (moved c).
    rewrite (proj1 (proj1 (moved_path _ _ Hc))). by apply (ch_ids _ Hok).
  - intros i c' (c & Hc & ->)%lookup_updated. destruct (p c) eqn:Hp; [by eapply Hcheck|by eapply ch_check].
  - intros i j a' b' Hij (a & Ha & ->)%lookup_updated (b & Hb & ->)%lookup_updated.
    eapply challenge_conflict_path; [by eapply moved_path|by eapply moved_path|]. by eapply ch_unique.
  - intros i c' (c & Hc & ->)%lookup_updated. destruct (p c) eqn:Hp; [by eapply Hlt|by eapply ch_attempts].
Qed.
End moved.

Lemma update_challenges_kept s p f :
  (challenges_ok (es_challenges s) -> forall i c, es_challenges s !! i = Some c -> p c = true ->
     challenge_path c (f c)
     /\ (ech_status (f c) = "pending"%string -> ech_otp_attempts (f c) < ech_otp_max_attempts (f c))) ->
  e_frame_at email_kept s (update_challenges p f).
Proof.
  intros Hf s' n (Hu & -> & _)%update_challenges_ok [Hc Hb]. specialize (Hf Hc). split; constructor; cbn.
  - apply moved_ok; [..|done]; intros i c Hi Hp; [apply (Hf _ _ Hi Hp)|apply (Hu _ _ Hi Hp)|apply (Hf _ _ Hi Hp)].
  - done.
  - apply moved_evolve. intros i c Hi Hp. apply (Hf _ _ Hi Hp).
  - exists []. by rewrite app_nil_r.
Qed.

Lemma insert_challenge_ok c s s' :
  insert_challenge c s = (s', Ok tt) <->
  es_challenges s !! ech_id c = None /\ email_challenge_check c = true
  /\ challenge_owner (es_db s) c = true
  /\ unique_in email_challenge_conflict (ech_id c) c (es_challenges s) = true
  /\ s' = set_es_challenges (<[ech_id c := c]> (es_challenges s)) s.
Proof.
  unfold insert_challenge, mseq, mget, e_check, mmodify, mret, mfail.
  destruct (is_none _ && _) eqn:Hc; rewrite ?andb_true_iff, ?is_none_iff in Hc; [naive_solver|].
  split; [done|]. intros (H1 & H2 & H3 & H4 & _). by rewrite H1, H2, H3, H4 in Hc.
Qed.

Lemma insert_challenge_kept s c :
  issued (challenge_view c) -> e_frame_at email_kept s (insert_challenge c).
Proof.
  intros [Ha Hs] s' [] (Hn & Hc & _ & Hu & ->)%insert_challenge_ok [Hok Hb].
  split; constructor; cbn; [|done| |by exists []; rewrite app_nil_r]; constructor.
  - intros i x [[<- <-]|[_ Hx]]%lookup_insert_Some; [done|by apply (ch_ids _ Hok)].
  - intros i x [[<- <-]|[_ Hx]]%lookup_insert_Some; [done|by eapply ch_check].
  - apply clash_free_put; [apply challenge_conflict_sym|by apply ch_unique|done].
  - intros i x [[<- <-]|[_ Hx]]%lookup_insert_Some; [|by eapply ch_attempts]. intros _.
    cbn in Ha. apply challenge_check_bounds in Hc. lia.
  - intros i x Hx. exists x. split; [|done]. rewrite lookup_insert_ne; [done|congruence].
  - intros i x [[<- <-]|[_ Hx]]%lookup_insert_Some Hi; [|congruence]. by exists (challenge_view c).
  - intros p tx. unfold login_attempts. rewrite (sum_of_perm _ _ _ (rows_insert _ _ c Hn)). cbn in Ha |- *.
    unfold attempts_for at 2. rewrite Ha. destruct (of_login p tx c); lia.
Qed.

(** ** Statements on mails, transfer contexts and aliases *)
Lemma update_outbox_ok p f s s' n :
  update_outbox p f s = (s', Ok n) ->
  s' = set_es_outbox (updated p f (es_outbox s)) s /\ n = affected p (es_outbox s).
Proof.
  unfold update_outbox, mseq, mget, e_check, mmodify, mret, mfail.
  destruct (updatable _ p f _); naive_solver.
Qed.

Lemma update_transfers_ok p f s s' n :
  update_transfers p f s = (s', Ok n) ->
  s' = set_es_transfers (updated p f (es_transfers s)) s /\ n = affected p (es_transfers s).
Proof.
  unfold update_transfers, mseq, mget, e_check, mmodify, mret, mfail.
  destruct (updatable _ p f _); naive_solver.
Qed.

Lemma insert_mail_ok m s s' u :
  insert_mail m s = (s', Ok u) ->
  es_outbox s !! mob_id m = None /\ mail_outbox_check m = true
  /\ s' = set_es_outbox (<[mob_id m := m]> (es_outbox s)) s.
Proof.
  unfold insert_mail, mseq, mget, e_check, mmodify, mret, mfail.
  destruct (is_none _ && _) eqn:Hc; rewrite ?andb_true_iff, ?is_none_iff in Hc; naive_solver.
Qed.

Lemma insert_transfer_ok t s s' u :
  insert_transfer t s = (s', Ok u) ->
  s' = set_es_transfers (<[mtc_id t := t]> (es_transfers s)) s.
Proof.
  unfold insert_transfer, mseq, mget, e_check, mmodify, mret, mfail.
  destruct (is_none _ && _); naive_solver.
Qed.

Lemma insert_alias_ok row s s' u :
  insert_alias row s = (s', Ok u) ->
  (forall a, a ∈ es_aliases s -> email_alias_conflict row a = false)
  /\ s' = set_es_aliases (es_aliases s ++ [row]) s.
Proof.
  unfold insert_alias, mseq, mget, e_check, mmodify, mret, mfail.
  destruct (_ && _) eqn:Hc; [|done]. intros [= <- <-]. apply andb_true_iff in Hc as [_ Hc].
  split; [|done]. rewrite forallb_forall in Hc. intros a Ha%list_elem_of_In. by apply negb_true_iff, Hc.
Qed.

Lemma insert_alias_if_absent_ok row s s' u :
  insert_alias_if_absent row s = (s', Ok u) ->
  s' = s \/ s' = set_es_aliases (es_aliases s ++ [row]) s.
Proof.
  unfold insert_alias_if_absent, mseq, mget, e_check, mmodify, mret, mfail.
  destruct (negb _); [done|]. destruct (existsb _ _); [naive_solver|]. destruct (alias_accepts s row); naive_solver.
Qed.

Lemma update_outbox_kept s p f :
  (forall m q, p m = true -> active_mail q (f m) = true -> active_mail q m = true) ->
  e_frame_at email_kept s (update_outbox p f).
Proof.
  intros Hf s' n [-> _]%update_outbox_ok [Hc Hb]. split; constructor; cbn; try done.
  - intros q. etrans; [|apply (Hb q)]. apply affected_updated. eauto.
  - exists []. by rewrite app_nil_r.
Qed.

Lemma insert_mail_kept s m :
  affected (active_mail (mob_project_id m)) (es_outbox s) < MAX_ACTIVE_MAIL_OUTBOX_PER_PROJECT ->
  e_frame_at email_kept s (insert_mail m).
Proof.
  intros Hlt s' n (Hn & _ & ->)%insert_mail_ok [Hc Hb]. split; constructor; cbn; try done.
  - intros q. rewrite affected_insert by done. specialize (Hb q). destruct (active_mail q m) eqn:Hq; [|lia].
    unfold active_mail in Hq. apply andb_true_iff in Hq as [Hq%Z.eqb_eq _]. rewrite Hq in Hlt. lia.
  - exists []. by rewrite app_nil_r.
Qed.

Lemma transfers_kept s t : email_kept s (set_es_transfers t s).
Proof. intros [? ?]. split; constructor; cbn; try done. exists []. by rewrite app_nil_r. Qed.
Lemma aliases_kept s extra : email_kept s (set_es_aliases (es_aliases s ++ extra) s).
Proof. intros [? ?]. split; constructor; cbn; try done. by exists extra. Qed.

Lemma update_transfers_kept s p f : e_frame_at email_kept s (update_transfers p f).
Proof. intros s' n [-> _]%update_transfers_ok. apply transfers_kept. Qed.
Lemma insert_transfer_kept s t : e_frame_at email_kept s (insert_transfer t).
Proof. intros s' n ->%insert_transfer_ok. apply transfers_kept. Qed.
Lemma insert_alias_kept s row : e_frame_at email_kept s (insert_alias row).
Proof. intros s' n [_ ->]%insert_alias_ok. apply aliases_kept. Qed.
Lemma insert_alias_if_absent_kept s row : e_frame_at email_kept s (insert_alias_if_absent row).
Proof. intros s' n [->| ->]%insert_alias_if_absent_ok; [done|]. apply aliases_kept. Qed.

#[export] Hint Resolve update_transfers_kept insert_transfer_kept insert_alias_kept
  insert_alias_if_absent_kept : email_frames.

(** ** The operations *)
Lemma moved_with status attempts consumed terminal now c :
  same_challenge c (challenge_with status attempts consumed terminal now c).
Proof. done. Qed.

(** A move that ends a challenge. *)
Lemma ending_path status attempts consumed terminal now c :
  status_view status <> Pending ->
  challenge_step (challenge_view c)
    (challenge_view (challenge_with status attempts consumed terminal now c)) ->
  let c' := challenge_with status attempts consumed terminal now c in
  challenge_path c c'
  /\ (ech_status c' = "pending"%string -> ech_otp_attempts c' < ech_otp_max_attempts c').
Proof.
  intros Hst Hs c'. split; [split; [apply moved_with|by apply rtc_once]|].
  intros Hp%status_view_pending. done.
Qed.

Lemma supersede_path pj tx terminal now c :
  supersedable pj tx c = true ->
  challenge_step (challenge_view c)
    (challenge_view (challenge_with "superseded" (ech_otp_attempts c) (ech_consumed_at c) terminal now c)).
Proof.
  unfold supersedable. intros [_ Hs%bool_decide_eq_true]%andb_true_iff. apply store_step, supersede_step; [|done].
  cbn. rewrite !elem_of_cons, elem_of_nil in Hs. unfold status_view.
  destruct Hs as [-> |[-> |[]]]; cbn; set_solver.
Qed.

Lemma failed_otp_step v c :
  ech_status c = "pending"%string -> vep_now v < ech_expires_at c ->
  ech_otp_attempts c < ech_otp_max_attempts c ->
  EmailChallengeState_failed_otp (challenge_view c) (vep_now v)
    = Ok (challenge_view (failed_otp (vep_now v) c)).
Proof.
  intros Hp He Ha. apply failed_otp_ok. cbn. rewrite Hp. split_and!; try done.
  unfold failed_otp, challenge_with, challenge_view. cbn.
  destruct (Z.leb_spec (ech_otp_max_attempts c) (ech_otp_attempts c + 1)),
    (Z.eqb_spec (ech_otp_attempts c + 1) (ech_otp_max_attempts c)); try lia; [done|]. by rewrite Hp.
Qed.

Lemma failed_otp_path v c :
  ech_status c = "pending"%string -> vep_now v < ech_expires_at c ->
  ech_otp_attempts c < ech_otp_max_attempts c ->
  challenge_path c (failed_otp (vep_now v) c)
  /\ (ech_status (failed_otp (vep_now v) c) = "pending"%string ->
      ech_otp_attempts (failed_otp (vep_now v) c) < ech_otp_max_attempts (failed_otp (vep_now v) c)).
Proof.
  intros Hp He Ha. split.
  - split; [apply moved_with|]. apply rtc_once. eapply domain_step, guess_step. by apply failed_otp_step.
  - unfold failed_otp. cbn. destruct (Z.leb_spec (ech_otp_max_attempts c) (ech_otp_attempts c + 1)); [done|lia].
Qed.

Lemma lock_proof_ok lo s v l c :
  lock_proof lo s v = Ok (l, c) ->
  find_by_id (db_logins (es_db s)) (vep_transaction_id v) (fun l => lg_project_id l =? vep_project_id v) = Some l
  /\ find_challenge s (vep_project_id v) (vep_transaction_id v) (vep_challenge_id v) = Some c
  /\ lg_transaction_revision l = vep_expected_transaction_revision v
  /\ validate_email_confirmation_authority s c l v = Ok tt.
Proof.
  unfold lock_proof. intros H. inv_ok. rewrite negb_false_iff, Z.eqb_eq in *. done.
Qed.

Lemma challenge_open_ok s c l v :
  challenge_open s c l v = true <->
  ech_status c = "pending"%string /\ lg_status l = "email_challenge_pending"%string
  /\ ech_generation c = current_generation s (vep_project_id v) (vep_transaction_id v)
  /\ vep_now v < ech_expires_at c /\ vep_now v < lg_expires_at l.
Proof.
  unfold challenge_open. rewrite !andb_true_iff, !bool_decide_eq_true, Z.eqb_eq, !Z.ltb_lt. tauto.
Qed.

Lemma find_challenge_ok s p tx i c :
  find_challenge s p tx i = Some c <-> es_challenges s !! i = Some c /\ of_login p tx c = true.
Proof. unfold find_challenge. by rewrite find_by_id_some. Qed.

(** The open challenge a proof is for is the only row its updates touch. *)
Lemma proved_challenge s t v c i x :
  keyed ech_id t -> es_challenges s = t -> es_challenges s !! vep_challenge_id v = Some c ->
  t !! i = Some x -> (ech_id x =? vep_challenge_id v) && bool_decide (ech_status x = "pending"%string) = true ->
  x = c /\ i = vep_challenge_id v /\ ech_status x = "pending"%string.
Proof.
  intros Hk <- Hc Hx [Hi%Z.eqb_eq Hp%bool_decide_eq_true]%andb_true_iff.
  pose proof (Hk _ _ Hx) as Hi'. assert (i = vep_challenge_id v) as -> by congruence.
  split_and!; [congruence|done|done].
Qed.

Lemma commit_generation_kept clock cancel_clock recent_clock c :
  e_effect email_kept (commit_email_generation clock cancel_clock recent_clock c).
Proof.
  unfold commit_email_generation, commit_generation_locked. solve_email.
  - apply update_outbox_kept. intros m q _. unfold active_mail. cbn. by rewrite andb_false_r.
  - apply update_challenges_kept. intros _ i x _ Hx. apply ending_path; [done|]. by eapply supersede_path.
  - apply insert_challenge_kept. split; [done|]. cbn. destruct (bool_decide _); cbn; set_solver.
  - apply insert_mail_kept. cbn.
    match goal with Hi : insert_challenge _ _ = (_, Ok ?u) |- _ =>
      destruct u; apply insert_challenge_ok in Hi as (_ & _ & _ & _ & ->) end. cbn.
    match goal with Ha : authorize_mail_delivery _ _ _ _ _ _ = Ok _ |- _ =>
      unfold authorize_mail_delivery, authorize_mail_delivery_with_limit in Ha end.
    inv_ok. repeat case_match; inv_ok; bool_prop; done || lia.
Qed.

Lemma establish_kept c : e_effect email_kept (establish_magic_transfer_context c).
Proof. unfold establish_magic_transfer_context, establish_locked. solve_email. Qed.

Lemma verify_kept v : e_effect email_kept (verify_email_proof v).
Proof.
  unfold verify_email_proof, verify_locked. solve_email.
  match goal with Hl : lock_proof _ _ _ = Ok ?x |- _ => destruct x as [l c];
    apply lock_proof_ok in Hl as (_ & [Hc _]%find_challenge_ok & _) end.
  match goal with Ho : negb (challenge_open _ _ _ _) = false |- _ =>
    apply negb_false_iff, challenge_open_ok in Ho as (Hp & _ & _ & He & _) end.
  apply update_challenges_kept. intros Hok i x Hx Hi.
  destruct (proved_challenge _ _ _ _ _ _ (ch_ids _ Hok) eq_refl Hc Hx Hi) as (-> & _ & _).
  apply failed_otp_path; [done|done|]. by eapply ch_attempts.
Qed.

(** *** The completion *)
(** The statements before the consumption leave the challenges alone. *)
Definition same_challenges (s s' : EmailStore) : Prop := es_challenges s' = es_challenges s.
#[export] Instance same_challenges_preorder : PreOrder same_challenges.
Proof. split; unfold same_challenges; [done|]. intros a b c; congruence. Qed.
#[export] Instance same_challenges_blind : DbBlind same_challenges.
Proof. done. Qed.

Lemma insert_alias_challenges s row : e_frame_at same_challenges s (insert_alias row).
Proof. by intros s' n [_ ->]%insert_alias_ok. Qed.
Lemma insert_alias_if_absent_challenges s row : e_frame_at same_challenges s (insert_alias_if_absent row).
Proof. by intros s' n [->| ->]%insert_alias_if_absent_ok. Qed.
Lemma update_transfers_challenges s p f : e_frame_at same_challenges s (update_transfers p f).
Proof. by intros s' n [-> _]%update_transfers_ok. Qed.
#[export] Hint Resolve insert_alias_challenges insert_alias_if_absent_challenges
  update_transfers_challenges : email_frames.

Section completion.
Context `{CanonicalHash}.

Lemma completed_user_challenges s c version : e_frame_at same_challenges s (completed_user c version).
Proof. unfold completed_user, sign_in_existing, sign_up. solve_email. Qed.
Lemma completed_user_kept s c version : e_frame_at email_kept s (completed_user c version).
Proof. unfold completed_user, sign_in_existing, sign_up. solve_email. Qed.
Lemma consume_transfer_challenges s v : e_frame_at same_challenges s (consume_transfer v).
Proof. unfold consume_transfer. solve_email. Qed.
Lemma consume_transfer_kept s v : e_frame_at email_kept s (consume_transfer v).
Proof. unfold consume_transfer. solve_email. Qed.

Lemma consume_step_of v c :
  ech_status c = "pending"%string -> vep_now v < ech_expires_at c ->
  challenge_step (challenge_view c)
    (challenge_view (challenge_with "consumed" (ech_otp_attempts c) (Some (vep_now v))
                       (Some (vep_now v)) (vep_now v) c)).
Proof. intros Hp He. eapply domain_step, (consume_step _ _ (vep_now v)). apply consume_ok. cbn. by rewrite Hp. Qed.

Lemma consume_challenge_kept s v c :
  es_challenges s !! vep_challenge_id v = Some c -> vep_now v < ech_expires_at c ->
  e_frame_at email_kept s (consume_challenge v).
Proof.
  intros Hc He. unfold consume_challenge. solve_email.
  apply update_challenges_kept. intros Hok i x Hx Hi.
  destruct (proved_challenge _ _ _ _ _ _ (ch_ids _ Hok) eq_refl Hc Hx Hi) as (-> & _ & Hp).
  apply ending_path; [done|]. by apply consume_step_of.
Qed.

Lemma complete_writes_kept s c l ch uid pub rev :
  es_challenges s !! vep_challenge_id (cep_verification c) = Some ch ->
  vep_now (cep_verification c) < ech_expires_at ch ->
  e_frame_at email_kept s (complete_writes c l ch uid pub rev).
Proof.
  intros Hc He. pose proof consume_transfer_kept. unfold complete_writes. solve_email.
  eapply consume_challenge_kept; [|done].
  repeat match goal with
  | Ho : on_db _ _ = (_, Ok _) |- _ => apply on_db_ok in Ho as (? & _ & ->)
  | Ht : consume_transfer _ _ = (_, Ok _) |- _ => apply consume_transfer_challenges in Ht as ->
  end. exact Hc.
Qed.

Lemma complete_kept c : e_effect email_kept (complete_email_proof c).
Proof.
  pose proof completed_user_kept. unfold complete_email_proof, complete_locked. solve_email.
  - match goal with Hl : lock_proof _ _ _ = Ok ?x |- _ => destruct x as [l ch];
      apply lock_proof_ok in Hl as (_ & [Hc _]%find_challenge_ok & _) end.
    match goal with Ho : negb (challenge_open _ _ _ _) = false |- _ =>
      apply negb_false_iff, challenge_open_ok in Ho as (_ & _ & _ & He & _) end.
    match goal with Hu : completed_user _ _ _ = _ |- _ => apply completed_user_challenges in Hu as Hs end.
    apply complete_writes_kept; [|done]. by rewrite Hs.
Qed.
End completion.

(** *** Retention *)
Section retention.
Context (locked : Uuid -> bool) (clock now : OffsetDateTime) (limit : Z).

Lemma end_exhausted_kept : e_frame email_kept (end_exhausted_mail locked clock now limit).
Proof.
  unfold end_exhausted_mail. solve_email. apply update_outbox_kept.
  intros m q _. unfold active_mail. cbn. by rewrite andb_false_r.
Qed.
Lemma end_useless_kept : e_frame email_kept (end_useless_mail locked clock now limit).
Proof.
  unfold end_useless_mail. solve_email. apply update_outbox_kept.
  intros m q _. unfold active_mail. cbn. by rewrite andb_false_r.
Qed.
Lemma redact_mail_kept : e_frame email_kept (redact_mail locked now limit).
Proof. unfold redact_mail. solve_email. by apply update_outbox_kept. Qed.
Lemma delete_transfers_kept : e_frame email_kept (delete_transfers locked now limit).
Proof. unfold delete_transfers. solve_email. apply e_frame_modify, transfers_kept. Qed.
Lemma redact_challenges_kept : e_frame email_kept (redact_challenges locked now limit).
Proof.
  unfold redact_challenges. solve_email. apply update_challenges_kept. intros Hok i c Hc _.
  split; [by split|]. cbn. by eapply ch_attempts.
Qed.

(** The rows a bounded statement picks are among those its condition holds of. *)
Lemma chosen_row {Row} (id : Row -> Uuid) p (t : gmap Z Row) i row :
  keyed id t -> t !! i = Some row -> chosen (bounded locked limit id p t) (id row) = true -> p row = true.
Proof.
  intros Hk Hi Hc%bool_decide_eq_true. unfold bounded in Hc.
  apply list_elem_of_In, in_map_iff in Hc as (x & Hx & Hin%list_elem_of_In).
  apply find_all_in in Hin as (j & Hj & Hp). pose proof (Hk _ _ Hj). pose proof (Hk _ _ Hi).
  assert (j = i) as -> by congruence. simplify_eq. by apply andb_true_iff in Hp as [? _].
Qed.

Lemma expire_challenges_kept : e_frame email_kept (expire_challenges locked now limit).
Proof.
  unfold expire_challenges. solve_email. apply update_challenges_kept. intros Hok i c Hc Hi.
  apply (chosen_row _ _ _ _ _ (ch_ids _ Hok) Hc) in Hi.
  rewrite !andb_true_iff, !bool_decide_eq_true, Z.leb_le in Hi. destruct Hi as [[_ Hp] He].
  apply ending_path; [done|]. eapply store_step, (expire_step _ _ now); [|done|done]. cbn. by rewrite Hp.
Qed.
End retention.

Lemma finish_attempt_kept clock job outcome next now :
  e_effect email_kept (finish_mail_attempt clock job outcome next now).
Proof.
  unfold finish_mail_attempt. destruct (attempt_result outcome next) as [[status so] terminal]. solve_email.
  apply update_outbox_kept. intros m q Hm. unfold active_mail. cbn. rewrite !andb_true_iff.
  intros [Hq _]. split; [done|]. unfold leased_to in Hm. rewrite !andb_true_iff, !bool_decide_eq_true in Hm.
  destruct Hm as (((((_ & ->) & _) & _) & _) & _). done.
Qed.
