(* ===== verification/EmailProofs.v ===== *)
(** * Passwordless email: what the authority guarantees

    Runs of the email authority, with anything at all happening to the other
    tables in between, and what holds of them: wrong codes are few, a proof is
    used once, the stored challenges follow the machine of the domain, the mails
    under way of a project are few, and an address leads to one user. *)
From S2P Require Import Prelude.
From S2P Require Import Json.
From S2P Require Import LoginTables.
From S2P Require Import Lifecycle.
From S2P Require Import Email.
From S2P Require Import Mail.
From S2P Require Import Database.
From S2P Require Import LoginStore.
From S2P Require Import Projection.
From S2P Require Import SessionAuthority.
From S2P Require Import Login.
From S2P Require Import Handoff.
From S2P Require Import SessionStore.
From S2P Require Import SessionEffects.
From S2P Require Import Frames.
From S2P Require Import LoginEffects.
From S2P Require Import HandoffEffects.
From S2P Require Import ServerApi.
From S2P Require Import ControlLifecycle.
From S2P Require Import ControlEffects.
From S2P Require Import EmailTables.
From S2P Require Import PasswordlessEmail.
From S2P Require Import EmailEffects.
Import Challenge.

(** ** Runs *)
Inductive RetentionStatement :=
| EndExhaustedMail | EndUselessMail | ExpireChallenges | RedactChallenges | RedactMail
| DeleteTransfers.

(** [Elsewhere db]: the rest of the program leaves its tables as [db].  The removal
    of old logins, which takes their challenges with them, is not among the steps. *)
Inductive email_op :=
| SelectEmail (c : SelectEmailMethod)
| CommitGeneration (clock cancel_clock recent_clock : OffsetDateTime) (c : CommitEmailGeneration)
| EstablishTransfer (c : EstablishMagicTransferContext)
| VerifyProof (v : VerifyEmailProof)
| CompleteProof (c : CompleteEmailProof)
| FinishAttempt (clock : OffsetDateTime) (job : ClaimedMailJob) (outcome : MailTransportOutcome)
    (next_attempt_at : option OffsetDateTime) (now : OffsetDateTime)
| Retain (what : RetentionStatement) (locked : Uuid -> bool) (clock now : OffsetDateTime) (limit : Z)
| Elsewhere (db : Database).

Definition retention_statement (what : RetentionStatement) (locked : Uuid -> bool)
    (clock now : OffsetDateTime) (limit : Z) : etxn Z :=
  match what with
  | EndExhaustedMail => end_exhausted_mail locked clock now limit
  | EndUselessMail => end_useless_mail locked clock now limit
  | ExpireChallenges => expire_challenges locked now limit
  | RedactChallenges => redact_challenges locked now limit
  | RedactMail => redact_mail locked now limit
  | DeleteTransfers => delete_transfers locked now limit
  end.

Section runs.
Context `{CanonicalHash}.

Definition run_email_op (op : email_op) (s : EmailStore) : EmailStore :=
  match op with
  | SelectEmail c => (select_email_method c s).1
  | CommitGeneration clock cancel_clock recent_clock c =>
      (commit_email_generation clock cancel_clock recent_clock c s).1
  | EstablishTransfer c => (establish_magic_transfer_context c s).1
  | VerifyProof v => (verify_email_proof v s).1
  | CompleteProof c => (complete_email_proof c s).1
  | FinishAttempt clock job outcome next now => (finish_mail_attempt clock job outcome next now s).1
  | Retain what locked clock now limit =>
      (e_transaction (retention_statement what locked clock now limit) s).1
  | Elsewhere db => set_es_db db s
  end.

Definition run_email_ops (ops : list email_op) (s : EmailStore) : EmailStore :=
  fold_left (fun s op => run_email_op op s) ops s.

Lemma e_effect_fst {R : relation EmailStore} {A} {m : etxn A} s : e_effect R m -> R s (m s).1.
Proof. intros Hm. destruct (m s) as [s' r] eqn:Hr. by eapply Hm. Qed.

Lemma email_op_kept op s : email_kept s (run_email_op op s).
Proof.
  destruct op as [c|k1 k2 k3 c|c|v|c|k j o n now|what l k now lim|db]; cbn [run_email_op].
  - apply e_effect_fst. unfold select_email_method. solve_email.
  - apply e_effect_fst, commit_generation_kept.
  - apply e_effect_fst, establish_kept.
  - apply e_effect_fst, verify_kept.
  - apply e_effect_fst, complete_kept.
  - apply e_effect_fst, finish_attempt_kept.
  - apply e_effect_fst, e_effect_transaction; [exact _|].
    destruct what; [apply end_exhausted_kept|apply end_useless_kept|apply expire_challenges_kept
      |apply redact_challenges_kept|apply redact_mail_kept|apply delete_transfers_kept].
  - apply db_blind.
Qed.

Lemma email_ops_kept ops s : email_kept s (run_email_ops ops s).
Proof.
  revert s. induction ops as [|op ops IH]; intros s; cbn; [done|]. etrans; [apply email_op_kept|apply IH].
Qed.


(** A project never has more than a thousand login mails under way, whatever
    the authority, the end of attempts and the retention do, in any order. *)
Theorem mail_backlog_bounded (ops : list email_op) (s : EmailStore) (p : Uuid) :
  email_ok s ->
  affected (active_mail p) (es_outbox (run_email_ops ops s)) <= MAX_ACTIVE_MAIL_OUTBOX_PER_PROJECT.
Proof. intros Hok. destruct (email_ops_kept ops s Hok) as [Hok' _]. apply (eo_backlog _ Hok'). Qed.
End runs.

(** ** Wrong codes *)
(** The challenges of a login have different generations, from one to five. *)
Lemma login_generations t (l : list (Z * EmailChallengeRow)) p tx :
  challenges_ok t -> NoDup l.*1 -> (forall i c, (i, c) ∈ l -> t !! i = Some c) ->
  NoDup (map ech_generation (List.filter (of_login p tx) (map snd l))).
Proof.
  intros Hok. induction l as [|[i c] l IH]; intros Hnd Ht; cbn; [constructor|].
  apply NoDup_cons in Hnd as [Hi Hnd].
  assert (forall j b, (j, b) ∈ l -> t !! j = Some b) as Hl by (intros; apply Ht; by right).
  specialize (IH Hnd Hl). destruct (of_login p tx c) eqn:Hc; [|done]. cbn. constructor; [|done].
  intros (b & Hg & [Hb Hbl]%filter_In)%list_elem_of_In%in_map_iff.
  apply in_map_iff in Hb as ([j b'] & <- & Hj%list_elem_of_In). cbn in *.
  assert (i <> j) as Hij by (intros ->; apply Hi, list_elem_of_fmap; by exists (j, b')).
  pose proof (ch_unique _ Hok i j c b' Hij (Ht _ _ (list_elem_of_here _ _)) (Hl _ _ Hj)) as Hcf.
  unfold email_challenge_conflict, same_key in Hcf. unfold of_login in Hc, Hbl.
  rewrite !andb_true_iff, !Z.eqb_eq, !bool_decide_eq_true in Hc, Hbl. destruct Hc as [Hc1 Hc2], Hbl as [Hb1 Hb2].
  by rewrite Hc1, Hc2, Hb1, Hb2, Hg, !Z.eqb_refl, bool_decide_true in Hcf.
Qed.

Lemma login_challenges_few t p tx :
  challenges_ok t -> list_len (List.filter (of_login p tx) (rows t)) <= 5.
Proof.
  intros Hok.
  pose proof (login_generations t (map_to_list t) p tx Hok (NoDup_fst_map_to_list t)
                (fun i c => proj1 (elem_of_map_to_list t i c))) as Hnd.
  apply NoDup_ListNoDup in Hnd. fold (rows t) in Hnd.
  assert (incl (map ech_generation (List.filter (of_login p tx) (rows t))) [1; 2; 3; 4; 5]) as Hin.
  { intros g (c & <- & [Hc _]%filter_In)%in_map_iff.
    apply list_elem_of_In, elem_of_rows in Hc as [i Hc]. apply (ch_check _ Hok) in Hc.
    apply challenge_check_bounds in Hc as [Hg _]. cbn. lia. }
  apply (NoDup_incl_length Hnd) in Hin. rewrite length_map in Hin. unfold list_len. cbn in Hin. lia.
Qed.

Lemma login_attempts_bounded t p tx : challenges_ok t -> 0 <= login_attempts t p tx <= 25.
Proof.
  intros Hok. pose proof (login_challenges_few t p tx Hok) as Hfew. unfold login_attempts.
  assert (forall l, sum_of (attempts_for p tx) l = sum_of ech_otp_attempts (List.filter (of_login p tx) l)) as ->.
  { unfold attempts_for. induction l as [|c l IH]; cbn; [done|]. destruct (of_login p tx c); cbn; lia. }
  enough (0 <= sum_of ech_otp_attempts (List.filter (of_login p tx) (rows t))
          <= 5 * list_len (List.filter (of_login p tx) (rows t))) by lia.
  apply sum_of_bounded. intros c Hc%list_elem_of_In. apply filter_In in Hc as [Hc _].
  apply list_elem_of_In, elem_of_rows in Hc as [i Hc]. apply (ch_check _ Hok), challenge_check_bounds in Hc. lia.
Qed.

(** *** What a verification did *)
Lemma verify_answer v s s' r :
  verify_email_proof v s = (s', Ok r) ->
  exists l c, lock_proof (fun l => lock_email_method_owners (es_db s) (lg_project_id l) (lg_application_id l)) s v
                = Ok (l, c)
    /\ (challenge_open s c l v = false /\ r = Invalid /\ s' = s
        \/ challenge_open s c l v = true
           /\ revalidate_policy_and_smtp (es_db s) (challenge_authority l c) (vep_project_id v) (vep_now v) = Ok tt
           /\ (proof_expired c v = true /\ r = Invalid /\ s' = s
               \/ proof_expired c v = false /\ proof_matches c v = false /\ r = Invalid
                  /\ (vep_proof_kind v <> Otp -> s' = s)
                  /\ (vep_proof_kind v = Otp -> s' = set_es_challenges (updated (fun c =>
                        (ech_id c =? vep_challenge_id v) && bool_decide (ech_status c = "pending"%string))
                        (failed_otp (vep_now v)) (es_challenges s)) s)
               \/ proof_expired c v = false /\ proof_matches c v = true /\ s' = s
                  /\ exists d, verified_challenge c v = Ok d /\ r = Accepted d)).
Proof.
  unfold verify_email_proof. intros Hv.
  do 3 (apply mseq_ok in Hv as (? & ? & [_ ->]%mlift_ok & Hv)).
  apply (proj1 (e_transaction_ok _ _ _ _)) in Hv. unfold verify_locked in Hv.
  apply mseq_ok in Hv as (? & ? & [= <- <-] & Hv). apply mseq_ok in Hv as (? & [l c] & [Hl ->]%mlift_ok & Hv).
  exists l, c. split; [done|]. cbn [fst snd] in Hv. cbv zeta in Hv.
  destruct (challenge_open s c l v); cbn [negb] in Hv; [right|left; by injection Hv as <- <-].
  split; [done|]. apply mseq_ok in Hv as (? & [] & [Hr ->]%mlift_ok & Hv). split; [done|].
  destruct (proof_expired c v); [left; by injection Hv as <- <-|]. right.
  destruct (proof_matches c v); cbn [negb] in Hv; [right|left].
  - apply mseq_ok in Hv as (? & d & [Hd ->]%mlift_ok & [= <- <-]). eauto 10.
  - case_bool_decide as Hk; [|injection Hv as <- <-; naive_solver].
    apply mseq_ok in Hv as (? & n & (_ & -> & _)%update_challenges_ok & [= <- <-]). naive_solver.
Qed.

Definition presented (d : VersionedDigest) (v : VerifyEmailProof) : VerifyEmailProof :=
  mkVerifyEmailProof (vep_project_id v) (vep_transaction_id v) (vep_challenge_id v) (vep_proof_kind v) d
    (vep_browser_binding v) (vep_csrf v) (vep_transfer_context v) (vep_expected_transaction_revision v)
    (vep_now v).

Definition stored_code (c : EmailChallengeRow) : option VersionedDigest :=
  digest ← ech_otp_digest c; version ← ech_otp_digest_key_version c; Some (mkVersionedDigest digest version).

Definition is_accepted (r : result ApplicationError EmailProofDecision) : bool :=
  match r with Ok (Accepted _) => true | _ => false end.
Definition is_refused (r : result ApplicationError EmailProofDecision) : bool :=
  match r with Ok Invalid => true | _ => false end.

(** A code for the login is refused where the right one would have been accepted. *)
Definition wrong_guess (p tx : Uuid) (op : email_op) (s : EmailStore) : bool :=
  match op with
  | VerifyProof v =>
      (vep_project_id v =? p) && (vep_transaction_id v =? tx) && bool_decide (vep_proof_kind v = Otp)
      && is_some_and (find_challenge s p tx (vep_challenge_id v) ≫= stored_code) (fun code =>
           is_accepted (verify_email_proof (presented code v) s).2)
      && is_refused (verify_email_proof v s).2
  | _ => false
  end.

Lemma wrong_guess_counts v s :
  email_ok s -> wrong_guess (vep_project_id v) (vep_transaction_id v) (VerifyProof v) s = true ->
  login_attempts (es_challenges s) (vep_project_id v) (vep_transaction_id v) + 1
  <= login_attempts (es_challenges (verify_email_proof v s).1) (vep_project_id v) (vep_transaction_id v).
Proof.
  intros [Hok _]. unfold wrong_guess. rewrite !andb_true_iff, bool_decide_eq_true.
  intros (((_ & Hk) & Ha) & Hi).
  destruct (_ ≫= stored_code) as [code|]; [|done]. cbn [is_some_and] in Ha.
  destruct (verify_email_proof (presented code v) s) as [s1 [[d|]|e]] eqn:H1; try done.
  destruct (verify_email_proof v s) as [s2 [[d2|]|e]] eqn:H2; try done. clear Ha Hi. cbn [fst].
  apply verify_answer in H1 as (l & c & Hl & [(_ & ? & _)|(Ho & Hr & [(_ & ? & _)|[(_ & _ & ? & _)|(He & Hm & _)]])]); try done.
  apply verify_answer in H2 as (l2 & c2 & Hl2 & Hcase).
  change (lock_proof _ s (presented code v)) with
    (lock_proof (fun l => lock_email_method_owners (es_db s) (lg_project_id l) (lg_application_id l)) s v) in Hl.
  rewrite Hl in Hl2. injection Hl2 as <- <-.
  change (challenge_open s c l (presented code v)) with (challenge_open s c l v) in Ho.
  change (proof_expired c (presented code v)) with (proof_expired c v) in He.
  destruct Hcase as [[? _]|(_ & _ & [[? _]|[(_ & _ & _ & _ & Hs2)|(_ & _ & _ & ? & _ & ?)]])]; try congruence.
  rewrite (Hs2 Hk).
  apply lock_proof_ok in Hl as (_ & [Hc Hol]%find_challenge_ok & _).
  apply challenge_open_ok in Ho as (Hp & _ & _ & Hx & _).
  unfold login_attempts. cbn. rewrite rows_updated. apply (sum_of_lt _ _ _ c).
  - intros x [j Hj]%elem_of_rows. apply path_attempts_for.
    destruct ((ech_id x =? _) && _) eqn:Hq; [|done].
    destruct (proved_challenge _ _ _ _ _ _ (ch_ids _ Hok) eq_refl Hc Hj Hq) as (-> & _ & _).
    apply failed_otp_path; [done|done|]. by eapply ch_attempts.
  - apply elem_of_rows. eauto.
  - rewrite (ch_ids _ Hok _ _ Hc), Z.eqb_refl, bool_decide_true by done. cbn [andb].
    unfold attempts_for. rewrite (of_login_same _ _ c (failed_otp (vep_now v) c)) by done. rewrite Hol. cbn. lia.
Qed.

Section guesses.
Context `{CanonicalHash}.

Fixpoint wrong_guesses (p tx : Uuid) (ops : list email_op) (s : EmailStore) : Z :=
  match ops with
  | [] => 0
  | op :: ops => Z.b2z (wrong_guess p tx op s) + wrong_guesses p tx ops (run_email_op op s)
  end.

(** C32: Codes cannot be searched for: over any run, with any number of challenges
    sent and anything happening to the other tables, at most twenty-five wrong
    codes are answered for one login, each of them counted in a stored challenge. *)
Theorem wrong_codes_bounded (ops : list email_op) (s : EmailStore) (p tx : Uuid) :
  email_ok s ->
  wrong_guesses p tx ops s <= 25 - login_attempts (es_challenges s) p tx
  /\ 0 <= login_attempts (es_challenges s) p tx.
Proof.
  intros Hok. split; [|by apply login_attempts_bounded, eo_challenges].
  revert s Hok. induction ops as [|op ops IH]; intros s Hok; cbn [wrong_guesses].
  { pose proof (login_attempts_bounded _ p tx (eo_challenges _ Hok)). lia. }
  destruct (email_op_kept op s Hok) as [Hok' Hev]. specialize (IH _ Hok').
  pose proof (ce_attempts _ _ (ee_challenges _ _ Hev) p tx) as Hmono.
  destruct (wrong_guess p tx op s) eqn:Hw; cbn [Z.b2z]; [|lia].
  destruct op as [| | |v| | | |]; try done. cbn [run_email_op] in *.
  assert (vep_project_id v = p /\ vep_transaction_id v = tx) as [<- <-].
  { unfold wrong_guess in Hw. rewrite !andb_true_iff, !Z.eqb_eq in Hw. tauto. }
  pose proof (wrong_guess_counts v s Hok Hw). lia.
Qed.
End guesses.

(** ** A proof is used once *)
Definition stored_digest (kind : EmailProofKind) (c : EmailChallengeRow) : option VersionedDigest :=
  let '(digest, version, _) := stored_proof kind c in
  d ← digest; v ← version; Some (mkVersionedDigest d v).

Lemma proof_matches_true c v :
  proof_matches c v = true <-> stored_digest (vep_proof_kind v) c = Some (vep_proof_digest v).
Proof.
  unfold proof_matches, stored_digest. destruct (stored_proof _ c) as [[[d|] [k|]] e]; cbn;
    rewrite optional_digest_matches_true; destruct (vep_proof_digest v); cbn; naive_solver.
Qed.

(** What both steps require of the challenge and the login. *)
Record proof_accepted (s : EmailStore) (v : VerifyEmailProof) (l : LoginTransactionRow)
    (c : EmailChallengeRow) : Prop := {
  pa_login : find_by_id (db_logins (es_db s)) (vep_transaction_id v)
               (fun l => lg_project_id l =? vep_project_id v) = Some l;
  pa_login_open : lg_status l = "email_challenge_pending"%string /\ vep_now v < lg_expires_at l;
  pa_authority : validate_email_confirmation_authority s c l v = Ok tt;
  pa_challenge : es_challenges s !! vep_challenge_id v = Some c
    /\ of_login (vep_project_id v) (vep_transaction_id v) c = true;
  pa_newest : ech_generation c = current_generation s (vep_project_id v) (vep_transaction_id v);
  pa_pending : ech_status c = "pending"%string /\ vep_now v < ech_expires_at c;
  pa_policy : revalidate_policy_and_smtp (es_db s) (challenge_authority l c) (vep_project_id v)
                (vep_now v) = Ok tt;
  pa_unexpired : proof_expired c v = false;
  pa_digest : stored_digest (vep_proof_kind v) c = Some (vep_proof_digest v)
}.

Lemma proof_accepted_of lo s v l c :
  lock_proof lo s v = Ok (l, c) -> challenge_open s c l v = true ->
  proof_expired c v = false -> proof_matches c v = true ->
  revalidate_policy_and_smtp (es_db s) (challenge_authority l c) (vep_project_id v) (vep_now v) = Ok tt ->
  proof_accepted s v l c.
Proof.
  intros (Hl & Hc%find_challenge_ok & _ & Ha)%lock_proof_ok (Hp & Hlp & Hg & He & Hle)%challenge_open_ok
    Hx Hm%proof_matches_true Hr. by constructor.
Qed.

Lemma verify_accepted v s s' d :
  verify_email_proof v s = (s', Ok (Accepted d)) -> exists l c, proof_accepted s v l c.
Proof.
  intros (l & c & Hl & [(_ & ? & _)|(Ho & Hr & [(_ & ? & _)|[(_ & _ & ? & _)|(Hx & Hm & _)]])])%verify_answer; try done.
  exists l, c. by eapply proof_accepted_of.
Qed.

(** Both kinds of rows a step writes next to the challenge. *)
Lemma consume_transfer_ok v s s' u :
  consume_transfer v s = (s', Ok u) -> es_db s' = es_db s /\ es_challenges s' = es_challenges s
    /\ es_aliases s' = es_aliases s.
Proof.
  unfold consume_transfer. destruct (vep_transfer_context v); [|by intros [= <- _]].
  intros (? & n & [-> _]%update_transfers_ok & [_ [= <- _]]%if_mfail_ok)%mseq_ok. done.
Qed.

Definition challenge_consumed (v : VerifyEmailProof) (c : EmailChallengeRow) : EmailChallengeRow :=
  challenge_with "consumed" (ech_otp_attempts c) (Some (vep_now v)) (Some (vep_now v)) (vep_now v) c.

Lemma consume_challenge_ok v s s' u :
  consume_challenge v s = (s', Ok u) ->
  s' = set_es_challenges (updated (fun c => (ech_id c =? vep_challenge_id v)
                                            && bool_decide (ech_status c = "pending"%string))
                            (challenge_consumed v) (es_challenges s)) s.
Proof.
  unfold consume_challenge.
  intros (? & n & (_ & -> & _)%update_challenges_ok & [_ [= <- _]]%if_mfail_ok)%mseq_ok. done.
Qed.

(** *** What a completion wrote *)
(** Users and email identities stay as they are. *)
Definition same_people (db db' : Database) : Prop :=
  db_email_identities db' = db_email_identities db /\ db_users db' = db_users db.
#[export] Instance same_people_preorder : PreOrder same_people.
Proof. split; [done|]. unfold same_people. intros a b c. intuition congruence. Qed.

Lemma update_browser_people db row : frame_at same_people db (update_browser row).
Proof. by intros db' [] (_ & _ & ->)%update_browser_ok. Qed.
Lemma insert_browser_people db row : frame_at same_people db (insert_browser row).
Proof.
  unfold insert_browser. intros db' [] (d & a & [= <- <-] & Hr)%mseq_ok.
  apply mseq_ok in Hr as (? & [] & [_ ->]%check_that_ok & [= <-]). done.
Qed.
#[export] Hint Resolve update_browser_people insert_browser_people : frames.

Lemma browser_people db c : frame_at same_people db (rotate_or_create_browser_session c).
Proof. unfold rotate_or_create_browser_session, retire_browser, create_browser_session. solve_frame. Qed.

Lemma sign_up_triggers_reads db graph p u : frame_at eq db (sign_up_triggers graph p u).
Proof. unfold sign_up_triggers, user_triggers. solve_frame. Qed.

(** The handoff and the login a completion leaves behind. *)
Definition handoff_issued_for (db : Database) (c : CompleteEmailProof) (l : LoginTransactionRow)
    (user_id : Uuid) : Prop :=
  (exists t, db_tickets db !! cep_handoff_id c = Some t /\ ht_status t = "issued"%string
     /\ ht_user_id t = user_id /\ ht_login_transaction_id t = lg_id l
     /\ ht_ticket_digest t = vd_value (cep_handoff_ticket c)
     /\ vep_now (cep_verification c) < ht_expires_at t <= vep_now (cep_verification c) + seconds 60)
  /\ (exists l', db_logins db !! lg_id l = Some l' /\ lg_status l' = "handoff_issued"%string
        /\ lg_user_id l' = Some user_id /\ lg_transaction_revision l' = lg_transaction_revision l + 1).

Section completions.
Context `{CanonicalHash}.

Lemma complete_writes_answer c l ch uid pub rev s s' h :
  complete_writes c l ch uid pub rev s = (s', Ok h) ->
  ih_user_id h = uid /\ es_aliases s' = es_aliases s /\ same_people (es_db s) (es_db s')
  /\ es_challenges s' = updated (fun x => (ech_id x =? vep_challenge_id (cep_verification c))
                                          && bool_decide (ech_status x = "pending"%string))
                          (challenge_consumed (cep_verification c)) (es_challenges s)
  /\ handoff_issued_for (es_db s') c l uid.
Proof.
  unfold complete_writes. cbv zeta.
  intros (s1 & b & (d1 & Hb%browser_people & ->)%on_db_ok & Hr)%mseq_ok.
  apply mseq_ok in Hr as (s2 & t & (d2 & Ht & ->)%on_db_ok & Hr).
  apply mseq_ok in Hr as (s3 & [] & (Hd3 & Hc3 & Ha3)%consume_transfer_ok & Hr).
  apply mseq_ok in Hr as (s4 & [] & ->%consume_challenge_ok & Hr).
  apply mseq_ok in Hr as (? & rv & [Hrv ->]%mlift_ok & Hr).
  apply mseq_ok in Hr as (s5 & [] & (d5 & (_ & _ & ->)%update_login_ok & ->)%on_db_ok & Hr).
  apply mseq_ok in Hr as (s6 & u & (d6 & (ev & -> & _)%append_runtime_audit_ok & ->)%on_db_ok & Hr).
  injection Hr as <- <-. cbn in *.
  assert (vep_now (cep_verification c) < ht_expires_at t <= vep_now (cep_verification c) + seconds 60
          /\ ht_user_id t = uid) as [Hexp Hu].
  { unfold insert_handoff in Ht. apply if_mfail_ok in Ht as [Hg Ht].
    apply mseq_ok in Ht as (? & pr & [_ ->]%mlift_ok & Ht). cbv zeta in Ht.
    apply mseq_ok in Ht as (? & [] & _ & [= _ <-]). cbn. bool_prop. lia. }
  apply insert_handoff_ok in Ht as (Hi & Hli & Hst & Hdg & _ & Ht).
  apply insert_ticket_ok in Ht as (_ & _ & ->). rewrite Hd3. cbn. split_and!; try done.
  - by rewrite Hc3.
  - split.
    + exists t. split; [|tauto]. rewrite <- Hi. cbn. apply lookup_insert_eq.
    + eexists. split; [apply lookup_insert_eq|]. cbn. split_and!; try done.
      unfold bigint_succ in Hrv. by inv_ok.
Qed.

Lemma complete_answer c s s' h :
  complete_email_proof c s = (s', Ok h) ->
  let v := cep_verification c in
  exists l ch s1 uid pub rev is_new,
    proof_accepted s v l ch
    /\ completed_user c (ech_canonicalization_version ch) s = (s1, Ok (uid, pub, rev, is_new))
    /\ ih_user_id h = uid /\ es_aliases s' = es_aliases s1 /\ same_people (es_db s1) (es_db s')
    /\ es_challenges s' = updated (fun x => (ech_id x =? vep_challenge_id v)
                                            && bool_decide (ech_status x = "pending"%string))
                            (challenge_consumed v) (es_challenges s)
    /\ handoff_issued_for (es_db s') c l uid.
Proof.
  intros Hc v. unfold complete_email_proof in Hc. apply mseq_ok in Hc as (? & ? & [_ ->]%mlift_ok & Hc).
  apply (proj1 (e_transaction_ok _ _ _ _)) in Hc. unfold complete_locked in Hc. fold v in Hc. cbv zeta in Hc.
  apply mseq_ok in Hc as (? & ? & [= <- <-] & Hc). apply mseq_ok in Hc as (? & [l ch] & [Hl ->]%mlift_ok & Hc).
  cbn [fst snd] in Hc. apply if_mfail_ok in Hc as [Ho%negb_false_iff Hc].
  apply mseq_ok in Hc as (? & [] & [Hr ->]%mlift_ok & Hc). apply if_mfail_ok in Hc as [Hm Hc].
  apply orb_false_iff in Hm as [Hx Hm%negb_false_iff].
  do 2 apply if_mfail_ok in Hc as [_ Hc].
  apply mseq_ok in Hc as (s1 & [[[uid pub] rev] is_new] & Hu & Hc).
  apply mseq_ok in Hc as (s2 & h2 & Hw & Hc). apply mseq_ok in Hc as (s3 & ? & Ht & Hc).
  injection Hc as <- <-. pose proof (completed_user_challenges _ _ _ _ _ Hu) as Hch.
  apply complete_writes_answer in Hw as (Hh & Ha & Hp & Hcs & Hiss).
  assert (s3 = s2) as ->.
  { destruct is_new; [|by injection Ht as <- _].
    apply on_db_ok in Ht as (d & <-%sign_up_triggers_reads & ->). by destruct s2. }
  exists l, ch, s1, uid, pub, rev, is_new. rewrite Hcs, Hch. split_and!; try done.
  by eapply proof_accepted_of.
Qed.

Lemma consumed_challenge s v l ch :
  email_ok s -> proof_accepted s v l ch ->
  updated (fun x => (ech_id x =? vep_challenge_id v) && bool_decide (ech_status x = "pending"%string))
    (challenge_consumed v) (es_challenges s) !! vep_challenge_id v = Some (challenge_consumed v ch).
Proof.
  intros [Hok _] Hp. destruct (pa_challenge _ _ _ _ Hp) as [Hc _]. apply lookup_updated. exists ch. split; [done|].
  by rewrite (ch_ids _ Hok _ _ Hc), Z.eqb_refl, bool_decide_true by apply (pa_pending _ _ _ _ Hp).
Qed.

(** C33: A code or a link signs in once: a completion succeeds only for the newest
    challenge of the login, pending and unexpired, with exactly its stored proof,
    presented by the browser of the login or through a transfer context, and
    leaves one issued handoff and the login moved on; from then on, and whatever
    runs, no verification and no completion with that challenge succeeds. *)
Theorem email_proof_single_use (c : CompleteEmailProof) (s s1 : EmailStore) (h : IssuedHandoff)
    (ops : list email_op) :
  email_ok s -> complete_email_proof c s = (s1, Ok h) ->
  (exists l ch, proof_accepted s (cep_verification c) l ch
     /\ handoff_issued_for (es_db s1) c l (ih_user_id h))
  /\ (forall v, vep_challenge_id v = vep_challenge_id (cep_verification c) ->
        is_accepted (verify_email_proof v (run_email_ops ops s1)).2 = false)
  /\ (forall c2 s2 h2, vep_challenge_id (cep_verification c2) = vep_challenge_id (cep_verification c) ->
        complete_email_proof c2 (run_email_ops ops s1) <> (s2, Ok h2)).
Proof.
  intros Hok Hc. pose proof (complete_kept c s s1 _ Hc Hok) as [Hok1 _].
  destruct (complete_answer _ _ _ _ Hc) as (l & ch & su & uid & pub & rev & is_new & Hp & _ & Hu & _ & _ & Hcs & Hh).
  pose proof (consumed_challenge _ _ _ _ Hok Hp) as Hcon. rewrite <- Hcs in Hcon.
  destruct (email_ops_kept ops s1 Hok1) as [_ [[Hpath _ _] _]].
  destruct (Hpath _ _ Hcon) as (ch2 & Hch2 & Hend%challenge_path_ended); [|done].
  assert (forall v l0 c0, vep_challenge_id v = vep_challenge_id (cep_verification c) ->
            ~ proof_accepted (run_email_ops ops s1) v l0 c0) as Hno.
  { intros v l0 c0 Hv Ha. destruct (pa_challenge _ _ _ _ Ha) as [Hc0 _]. rewrite Hv in Hc0.
    assert (c0 = ch2) as -> by congruence. apply Hend, (pa_pending _ _ _ _ Ha). }
  split; [|split].
  - exists l, ch. by rewrite Hu.
  - intros v Hv. destruct (verify_email_proof v _) as [s' [[d|]|e]] eqn:Hvr; try done.
    apply verify_accepted in Hvr as (l0 & c0 & Ha). exfalso. by eapply Hno.
  - intros c2 s2 h2 Hv Hc2. apply complete_answer in Hc2 as (l0 & c0 & ? & ? & ? & ? & ? & Ha & _).
    by eapply Hno.
Qed.

(** ** One user for an address *)
(** The row of a digest. *)
Definition alias_of (aliases : list EmailAliasRow) (p version : Z) (d : VersionedDigest) :
    option EmailAliasRow :=
  List.find (fun a =>
    (ServerApi.ea_project_id a =? p) && (ea_canonicalization_version a =? version)
    && (ea_digest_key_version a =? vd_key_version d)
    && bool_decide (ea_lookup_digest a = vd_value d)) aliases.

Lemma alias_of_app l l' p version d row :
  alias_of l p version d = Some row -> alias_of (l ++ l') p version d = Some row.
Proof. unfold alias_of. induction l as [|x l IH]; cbn; [done|]. by destruct (_ && _). Qed.

Lemma alias_of_fresh l p version d row :
  alias_of l p version d = None ->
  ServerApi.ea_project_id row = p -> ea_canonicalization_version row = version ->
  ea_digest_key_version row = vd_key_version d -> ea_lookup_digest row = vd_value d ->
  alias_of (l ++ [row]) p version d = Some row.
Proof.
  intros Hn H1 H2 H3 H4. unfold alias_of in *. induction l as [|x l IH]; cbn in *.
  - by rewrite H1, H2, H3, H4, !Z.eqb_refl, bool_decide_true.
  - destruct (_ && _); [done|]. by apply IH.
Qed.

(** The digest belongs to the user through an identity. *)
Definition address_of (s : EmailStore) (p version : Z) (d : VersionedDigest) (identity_id user_id : Uuid) :
    Prop :=
  exists row i u, alias_of (es_aliases s) p version d = Some row /\ ea_identity_id row = identity_id
    /\ db_email_identities (es_db s) !! identity_id = Some i /\ ei_project_id i = p
    /\ ei_user_id i = user_id /\ db_users (es_db s) !! user_id = Some u /\ us_project_id u = p.

Lemma alias_owner_ok s p version d identity_id i u :
  alias_owner s p version d = Some (identity_id, i, u) ->
  address_of s p version d identity_id (ei_user_id i)
  /\ db_email_identities (es_db s) !! identity_id = Some i.
Proof.
  unfold alias_owner. fold (alias_of (es_aliases s) p version d).
  destruct (alias_of _ p version d) as [row|] eqn:Hrow; [|done]. cbn [mbind option_bind].
  destruct (find_by_id (db_email_identities _) _ _) as [i0|] eqn:Hi; [|done]. cbn [mbind option_bind].
  destruct (find_by_id (db_users _) _ _) as [u0|] eqn:Hu; [|done]. cbn [mbind option_bind].
  intros [= <- <- <-]. apply find_by_id_some in Hi as [Hi Hip%Z.eqb_eq]. apply find_by_id_some in Hu as [Hu Hup%Z.eqb_eq].
  split; [|done]. exists row, i0, u0. by split_and!.
Qed.

Lemma address_owner s p version d identity_id user_id :
  address_of s p version d identity_id user_id ->
  exists i u, alias_owner s p version d = Some (identity_id, i, u) /\ ei_user_id i = user_id.
Proof.
  intros (row & i & u & Hrow & <- & Hi & Hip & <- & Hu & Hup). exists i, u.
  unfold alias_owner. fold (alias_of (es_aliases s) p version d). rewrite Hrow. cbn [mbind option_bind].
  rewrite (proj2 (find_by_id_some _ _ _ _) (conj Hi (proj2 (Z.eqb_eq _ _) Hip))). cbn [mbind option_bind].
  by rewrite (proj2 (find_by_id_some _ _ _ _) (conj Hu (proj2 (Z.eqb_eq _ _) Hup))).
Qed.

(** The search over several digests: an owner found is the owner of each of them
    that has one. *)
Lemma existing_owner_agrees s p version ds e r :
  existing_owner s p version ds e = Ok r ->
  (forall x, e = Some x -> exists y, r = Some y /\ y.1.1 = x.1.1)
  /\ (forall d x, d ∈ ds -> alias_owner s p version d = Some x -> exists y, r = Some y /\ y.1.1 = x.1.1)
  /\ (forall y, r = Some y -> e = Some y \/ exists d, alias_owner s p version d = Some y).
Proof.
  revert e. induction ds as [|d ds IH]; intros e; cbn.
  { intros [= <-]. split_and!; [eauto|by intros ? ? ?%not_elem_of_nil|eauto]. }
  destruct (alias_owner s p version d) as [f|] eqn:Hf.
  - destruct (is_some_and e _) eqn:Hg; [done|]. intros (H1 & H2 & H3)%IH.
    destruct (H1 f eq_refl) as (y & -> & Hy). split_and!.
    + intros x ->. exists y. split; [done|]. cbn in Hg. apply negb_false_iff, Z.eqb_eq in Hg. congruence.
    + intros d' x [->|Hd]%elem_of_cons Hx; [|eauto]. assert (x = f) as -> by congruence. eauto.
    + intros y' [= <-]. destruct (H3 y eq_refl) as [[= ->]|]; eauto.
  - intros (H1 & H2 & H3)%IH. split_and!; [done| |done].
    intros d' x [->|Hd]%elem_of_cons Hx; [congruence|eauto].
Qed.

Lemma insert_user_ok row db db' u :
  insert_user row db = (db', Ok u) ->
  db_users db !! us_id row = None /\ db' = set_db_users (<[us_id row := row]> (db_users db)) db.
Proof.
  unfold insert_user. intros (d & a & [= <- <-] & Hr)%mseq_ok.
  apply mseq_ok in Hr as (? & [] & [Hc ->]%check_that_ok & [= <- _]).
  apply andb_true_iff in Hc as [Hn%is_none_iff _]. done.
Qed.

Lemma insert_email_identity_ok id row db db' u :
  insert_email_identity id row db = (db', Ok u) ->
  db' = set_db_email_identities (<[id := row]> (db_email_identities db)) db.
Proof.
  unfold insert_email_identity. intros (d & a & [= <- <-] & Hr)%mseq_ok.
  by apply mseq_ok in Hr as (? & [] & [_ ->]%check_that_ok & [= <- _]).
Qed.

Lemma set_primary_email_ok user_id identity_id u db db' r :
  db_users db !! user_id = Some u -> us_id u = user_id ->
  set_primary_email user_id identity_id db = (db', Ok r) ->
  db' = set_db_users (<[user_id := user_with_primary_email identity_id u]> (db_users db)) db.
Proof.
  intros Hu Hid. unfold set_primary_email. intros (d & a & [= <- <-] & Hr)%mseq_ok.
  rewrite Hu in Hr. apply mseq_ok in Hr as (? & [] & [_ ->]%check_that_ok & Hr). destruct r.
  apply update_user_ok in Hr as (_ & _ & _ & ->). cbn. by rewrite Hid.
Qed.

(** The user of an alias search. *)
Lemma existing_owner_found s p version ds identity_id i u :
  existing_owner s p version ds None = Ok (Some (identity_id, i, u)) ->
  db_email_identities (es_db s) !! identity_id = Some i /\ ei_project_id i = p
  /\ exists u', db_users (es_db s) !! ei_user_id i = Some u' /\ us_project_id u' = p.
Proof.
  intros (_ & _ & Hf)%existing_owner_agrees. destruct (Hf _ eq_refl) as [[=]|[d Hd]].
  apply alias_owner_ok in Hd as [(row & i' & u' & _ & _ & Hi' & Hip & _ & Hu & Hup) Hi].
  assert (i' = i) as -> by congruence. eauto.
Qed.

Lemma sign_in_address c version s s' identity_id i u uid pub rev :
  existing_owner s (vep_project_id (cep_verification c)) version (cep_lookup_aliases c) None
    = Ok (Some (identity_id, i, u)) ->
  sign_in_existing c version (identity_id, i, u) s = (s', Ok (uid, pub, rev)) ->
  uid = ei_user_id i
  /\ address_of s' (vep_project_id (cep_verification c)) version (cep_active_alias c) identity_id uid.
Proof.
  intros (Hi & Hip & u' & Hu & Hup)%existing_owner_found. unfold sign_in_existing. cbv zeta.
  intros [_ Hr]%if_mfail_ok. apply mseq_ok in Hr as (s1 & x & Hins & Hr).
  apply mseq_ok in Hr as (? & ? & [= <- <-] & Hr).
  apply mseq_ok in Hr as (? & owner & [Ho%ok_or_ok ->]%mlift_ok & Hr).
  apply if_mfail_ok in Hr as [Hid%negb_false_iff Hr]. apply Z.eqb_eq in Hid.
  injection Hr as <- <- _ _. split; [done|]. exists owner, i, u'.
  assert (es_db s1 = es_db s) as -> by by apply insert_alias_if_absent_ok in Hins as [->| ->].
  by split_and!.
Qed.

Lemma sign_up_address c version s s' uid pub rev :
  sign_up c version s = (s', Ok (uid, pub, rev)) ->
  uid = cep_new_user_id c
  /\ address_of s' (vep_project_id (cep_verification c)) version (cep_active_alias c)
       (cep_new_identity_id c) uid.
Proof.
  unfold sign_up. cbv zeta. intros (? & ? & [= <- <-] & Hr)%mseq_ok.
  apply mseq_ok in Hr as (? & policy & [_ ->]%mlift_ok & Hr). apply if_mfail_ok in Hr as [_ Hr].
  apply mseq_ok in Hr as (? & digest & [_ ->]%mlift_ok & Hr).
  apply mseq_ok in Hr as (s1 & ? & (d1 & (_ & ->)%insert_user_ok & ->)%on_db_ok & Hr).
  apply mseq_ok in Hr as (s2 & ? & (d2 & ->%insert_email_identity_ok & ->)%on_db_ok & Hr).
  apply mseq_ok in Hr as (s3 & ? & (Hfree & ->)%insert_alias_ok & Hr).
  apply mseq_ok in Hr as (s4 & ? & (d4 & Hp & ->)%on_db_ok & [= <- <- _ _]).
  apply (set_primary_email_ok _ _ (new_email_user c digest)) in Hp as ->; [|apply lookup_insert_eq|done].
  split; [done|]. eexists _, _, _. cbn. split_and!.
  - apply alias_of_fresh; try done. unfold alias_of.
    destruct (List.find _ _) as [a|] eqn:Ha; [|done]. exfalso.
    apply List.find_some in Ha as [Hin%list_elem_of_In Ha]. specialize (Hfree a Hin).
    rewrite !andb_true_iff, !Z.eqb_eq, bool_decide_eq_true in Ha. destruct Ha as [[[H1 H2] H3] H4].
    unfold email_alias_conflict in Hfree. cbn in Hfree.
    by rewrite H1, H2, H3, H4, !Z.eqb_refl, bool_decide_true, orb_true_r in Hfree.
  - done.
  - apply lookup_insert_eq.
  - done.
  - done.
  - apply lookup_insert_eq.
  - done.
Qed.

(** A completion leaves its active digest with the user it signed in. *)
Lemma completed_user_address c version s s' uid pub rev is_new :
  completed_user c version s = (s', Ok (uid, pub, rev, is_new)) ->
  exists identity_id, address_of s' (vep_project_id (cep_verification c)) version (cep_active_alias c)
                        identity_id uid.
Proof.
  unfold completed_user. intros (? & ? & [= <- <-] & Hr)%mseq_ok.
  apply mseq_ok in Hr as (? & [[[iid i] u]|] & [He ->]%mlift_ok & Hr);
    apply mseq_ok in Hr as (s1 & [[uid' pub'] rev'] & Hr & [= <- <- <- <- <-]).
  - exists iid. by eapply sign_in_address.
  - exists (cep_new_identity_id c). by eapply sign_up_address.
Qed.

(** A digest that has a user leads a completion to that user. *)
Lemma completed_user_known c version s s' d identity_id user_id uid pub rev is_new :
  address_of s (vep_project_id (cep_verification c)) version d identity_id user_id ->
  d ∈ cep_lookup_aliases c ->
  completed_user c version s = (s', Ok (uid, pub, rev, is_new)) ->
  uid = user_id /\ is_new = false.
Proof.
  intros Ha Hd. destruct (address_owner _ _ _ _ _ _ Ha) as (i & u & Hown & <-).
  unfold completed_user. intros (? & ? & [= <- <-] & Hr)%mseq_ok.
  apply mseq_ok in Hr as (? & e & [He ->]%mlift_ok & Hr).
  destruct (existing_owner_agrees _ _ _ _ _ _ He) as (_ & Hag & _).
  destruct (Hag d _ Hd Hown) as ([[iid i2] u2] & -> & Hid). cbn in Hid. subst iid.
  apply mseq_ok in Hr as (s1 & [[uid' pub'] rev'] & Hr & [= <- <- <- <- <-]).
  destruct (existing_owner_found _ _ _ _ _ _ _ He) as [Hi2 _].
  apply alias_owner_ok in Hown as [_ Hi]. assert (i2 = i) as -> by congruence.
  apply (sign_in_address _ _ _ _ _ _ _ _ _ _ He) in Hr as [-> _]. done.
Qed.

(** The version under which the address of a completion was put in canonical form. *)
Definition proof_version (s : EmailStore) (c : CompleteEmailProof) : option Z :=
  ech_canonicalization_version <$> es_challenges s !! vep_challenge_id (cep_verification c).

(** Identities keep their users: unlinking and merging have not touched them. *)
Definition people_kept (db db' : Database) : Prop :=
  (forall id i, db_email_identities db !! id = Some i ->
     exists i', db_email_identities db' !! id = Some i' /\ ei_project_id i' = ei_project_id i
       /\ ei_user_id i' = ei_user_id i)
  /\ (forall id u, db_users db !! id = Some u ->
        exists u', db_users db' !! id = Some u' /\ us_project_id u' = us_project_id u).

Lemma people_kept_same db db' : same_people db db' -> people_kept db db'.
Proof. intros [Hi Hu]. split; intros id x Hx; exists x; by rewrite ?Hi, ?Hu. Qed.

(** C34: An address signs in one user: once a completion has recorded a digest of
    the address, every later completion that is given that digest among its
    aliases signs in the same user, whatever ran in between and however the keys
    of the digests rotate, as long as identities and users stay where they are. *)
Theorem address_signs_in_same_user (c c2 : CompleteEmailProof) (s s1 s3 : EmailStore)
    (h h2 : IssuedHandoff) (ops : list email_op) :
  let s2 := run_email_ops ops s1 in
  email_ok s ->
  complete_email_proof c s = (s1, Ok h) -> complete_email_proof c2 s2 = (s3, Ok h2) ->
  people_kept (es_db s1) (es_db s2) ->
  vep_project_id (cep_verification c2) = vep_project_id (cep_verification c) ->
  proof_version s2 c2 = proof_version s c ->
  cep_active_alias c ∈ cep_lookup_aliases c2 ->
  ih_user_id h2 = ih_user_id h.
Proof.
  intros s2 Hok Hc Hc2 [Hids Husers] Hproj Hver Hin.
  pose proof (complete_kept c s s1 _ Hc Hok) as [Hok1 _].
  destruct (email_ops_kept ops s1 Hok1) as [_ [_ [extra Hext]]]. fold s2 in Hext.
  apply complete_answer in Hc as (l & ch & su & uid & pub & rev & is_new & Hp & Hu & Hh & Hal & [Hpi Hpu] & _).
  apply complete_answer in Hc2 as (l2 & ch2 & su2 & uid2 & pub2 & rev2 & is_new2 & Hp2 & Hu2 & Hh2 & _).
  assert (ech_canonicalization_version ch2 = ech_canonicalization_version ch) as Hv.
  { unfold proof_version in Hver. rewrite (proj1 (pa_challenge _ _ _ _ Hp)), (proj1 (pa_challenge _ _ _ _ Hp2)) in Hver.
    by injection Hver. }
  apply completed_user_address in Hu as (iid & row & i & u & Hrow & Hrid & Hi & Hip & Hiu & Hus & Hup).
  rewrite <- Hal in Hrow. rewrite <- Hpi in Hi. rewrite <- Hpu in Hus.
  destruct (Hids _ _ Hi) as (i' & Hi' & Hip' & Hiu'). destruct (Husers _ _ Hus) as (u' & Hus' & Hup').
  rewrite Hh, Hh2. eapply completed_user_known; [|exact Hin|exact Hu2]. rewrite Hproj, Hv.
  exists row, i', u'. rewrite Hext. split_and!; try done; [by apply alias_of_app|congruence|congruence|congruence].
Qed.
End completions.
