(* ===== verification/SessionOps.v ===== *)
(** * Operations in sequence

    The operations of the login and session authorities and the control commands
    on users and sessions as one type, and what any sequence of them keeps,
    whatever stale snapshots their routing reads see. *)
From S2P Require Import Prelude.
From S2P Require Import Json.
From S2P Require Import UrlValues.
From S2P Require Import Database.
From S2P Require Import LoginStore.
From S2P Require Import Projection.
From S2P Require Import WebhookOutbox.
From S2P Require Import SessionAuthority.
From S2P Require Import BrowserLogout.
From S2P Require Import Login.
From S2P Require Import Handoff.
From S2P Require Import SessionStore.
From S2P Require Import SessionEffects.
From S2P Require Import LoginHistory.
From S2P Require Import Frames.
From S2P Require Import LoginEffects.
From S2P Require Import HandoffEffects.
From S2P Require Import ControlLifecycle.
From S2P Require Import ControlEffects.

Section operations.
Context `{CanonicalHash} `{ProjectionCryptography} `{UrlLib} `{TimeFormat} `{JsonbText}.

(** Every operation of the session, login and handoff authorities and of the control
    of users and sessions, with the stores its unlocked reads see and the values it
    draws.  The two completions of a sign-in, which also write browser sessions, are
    not among them: the one by email is an operation of [EmailSessions.sign_in_op],
    over which [EmailSessions] and [SignOut] state their theorems; the one by a
    provider, [complete_authenticated_identity], is not modelled. *)
Inductive session_op :=
| PrepareOp (nonce : list Z) (generation_snapshot family_snapshot : Database)
    (command : PrepareRefreshRotation)
| RotateOp (generation_snapshot family_snapshot : Database) (command : RotateRefreshToken)
| LogoutOp (command : LogoutApplicationSession)
| PrepareLogoutOp (command : PrepareBrowserLogout)
| BindLogoutOp (snapshot : Database) (command : BindBrowserLogout)
| ConfirmLogoutOp (snapshot : Database) (command : ConfirmBrowserLogout)
| CreateLoginOp (command : CreateLoginTransaction)
| BindHostedOp (command : BindHostedBrowser)
| SelectProviderOp (command : SelectProviderMethod)
| ClaimCallbackOp (project_snapshot provider_snapshot : Database)
    (command : ClaimProviderCallback)
| DenyCallbackOp (project_snapshot provider_snapshot : Database)
    (command : DenyProviderCallback)
| FailExchangeOp (command : FailProviderExchange)
| ReuseOp (snapshot : Database) (command : ConfirmBrowserSessionReuse)
| RecoverOp (locked : Uuid -> bool) (command : RecoverProviderExchanges)
| CommitHandoffOp (clock : OffsetDateTime) (nonces : list Z * list Z) (event_uuid : Uuid)
    (delivery_id : Uuid -> Uuid) (command : CommitHandoffExchange)
| DisableUserOp (clock : OffsetDateTime) (draws : Draws) (graph : IdentityGraph)
    (command : DisableProjectUser)
| EnableUserOp (clock : OffsetDateTime) (draws : Draws) (graph : IdentityGraph)
    (command : EnableProjectUser)
| RevokeSessionOp (command : RevokeApplicationSession)
| RevokeBrowserOp (command : RevokeBrowserSession).

Definition run_session_op (op : session_op) (db : Database) : Database :=
  match op with
  | PrepareOp nonce gs fs c => (prepare_refresh_rotation nonce gs fs c db).1
  | RotateOp gs fs c => (rotate_refresh_token gs fs c db).1
  | LogoutOp c => (logout_application_session c db).1
  | PrepareLogoutOp c => (prepare_browser_logout c db).1
  | BindLogoutOp snapshot c => (bind_browser_logout snapshot c db).1
  | ConfirmLogoutOp snapshot c => (confirm_browser_logout snapshot c db).1
  | CreateLoginOp c => (create_login_transaction c db).1
  | BindHostedOp c => (bind_hosted_browser c db).1
  | SelectProviderOp c => (select_provider_method c db).1
  | ClaimCallbackOp ps vs c => (claim_provider_callback ps vs c db).1
  | DenyCallbackOp ps vs c => (deny_provider_callback ps vs c db).1
  | FailExchangeOp c => (fail_provider_exchange c db).1
  | ReuseOp snapshot c => (confirm_browser_session_reuse snapshot c db).1
  | RecoverOp locked c => (recover_abandoned_provider_exchanges locked c db).1
  | CommitHandoffOp clock nonces uuid ids c =>
      (commit_handoff_exchange clock nonces uuid ids c db).1
  | DisableUserOp clock draws graph c => (disable_project_user clock draws graph c db).1
  | EnableUserOp clock draws graph c => (enable_project_user clock draws graph c db).1
  | RevokeSessionOp c => (revoke_application_session c db).1
  | RevokeBrowserOp c => (revoke_browser_session c db).1
  end.

Definition run_session_ops (ops : list session_op) (db : Database) : Database :=
  fold_left (fun d op => run_session_op op d) ops db.

(** An operation of the session authority. *)
Lemma session_effect {A} (m : txn A) :
  effect same_login m ->
  (forall db db' r, store_ok db -> m db = (db', r) -> store_ok db' /\ evolves db db') ->
  effect world_kept m.
Proof. intros Hs Hk db db' r Hr; apply session_world; [by eapply Hs|intros; by eapply Hk]. Qed.

Lemma login_op_effect {A} (m : txn A) : effect login_effect m -> effect world_kept m.
Proof. intros Hm db db' r Hr; by eapply login_world, Hm. Qed.

Lemma rotate_effect gs fs c : effect world_kept (rotate_refresh_token gs fs c).
Proof. apply session_effect; [apply rotate_frame|intros *; apply rotate_keeps]. Qed.

Lemma logout_keeps c db db' r :
  store_ok db -> logout_application_session c db = (db', r) -> store_ok db' /\ evolves db db'.
Proof.
  intros Hok Hl; destruct r as [[]|e].
  - by destruct (logout_effects _ _ _ Hok Hl) as (? & ? & _).
  - by apply logout_err in Hl as ->.
Qed.
Lemma logout_effect c : effect world_kept (logout_application_session c).
Proof. apply session_effect; [apply logout_frame|intros *; apply logout_keeps]. Qed.

Lemma confirm_logout_effect snapshot c : effect world_kept (confirm_browser_logout snapshot c).
Proof. apply session_effect; [apply confirm_logout_frame|intros *; apply confirm_logout_keeps]. Qed.

Lemma session_op_effect op db : world_kept db (run_session_op op db).
Proof.
  destruct op; simpl; apply effect_fst_of.
  - apply session_effect; [apply prepare_refresh_frame|intros *; apply prepare_keeps].
  - apply rotate_effect.
  - apply logout_effect.
  - apply session_effect; [apply prepare_logout_frame|intros *; apply prepare_logout_keeps].
  - apply session_effect; [apply bind_logout_frame|intros *; apply bind_logout_keeps].
  - apply confirm_logout_effect.
  - apply login_op_effect, create_login_effect.
  - apply login_op_effect, bind_hosted_effect.
  - apply login_op_effect, select_provider_effect.
  - apply login_op_effect, claim_callback_effect.
  - apply login_op_effect, deny_callback_effect.
  - apply login_op_effect, fail_exchange_effect.
  - apply reuse_effect.
  - apply login_op_effect, recover_effect.
  - apply commit_effect.
  - apply disable_effect.
  - apply enable_effect.
  - apply revoke_session_effect.
  - apply revoke_browser_effect.
Qed.

Lemma session_op_keeps op db :
  world_ok db -> world_ok (run_session_op op db) /\ world_evolves db (run_session_op op db).
Proof. apply session_op_effect. Qed.

Lemma session_ops_keep ops db :
  world_ok db -> world_ok (run_session_ops ops db) /\ world_evolves db (run_session_ops ops db).
Proof.
  revert db; induction ops as [|op ops IH]; intros db Hok; [by split|].
  destruct (session_op_keeps op db Hok) as [Hok1 Hev1].
  destruct (IH _ Hok1) as [Hok2 Hev2]; split; [done|]; by etrans.
Qed.

Lemma run_session_ops_app xs ys db :
  run_session_ops (xs ++ ys) db = run_session_ops ys (run_session_ops xs db).
Proof. apply fold_left_app. Qed.
End operations.
