(* ===== verification/FamilyHistory.v ===== *)
(** * Refresh families over time

    The store admits at most one current generation of a family (its unique
    index and the numbering of [store_ok]).  That there is one at all is kept by
    the programs and not by the schema: [families_current] says so, and every
    operation keeps it. *)
From S2P Require Import Prelude.
From S2P Require Import Json.
From S2P Require Import UrlValues.
From S2P Require Import Database.
From S2P Require Import LoginStore.
From S2P Require Import Projection.
From S2P Require Import WebhookOutbox.
From S2P Require Import SessionAuthority.
From S2P Require Import BrowserLogout.
From S2P Require Import Login.
From S2P Require Import Handoff.
From S2P Require Import SessionStore.
From S2P Require Import SessionEffects.
From S2P Require Import LoginHistory.
From S2P Require Import Frames.
From S2P Require Import LoginEffects.
From S2P Require Import HandoffEffects.
From S2P Require Import ControlLifecycle.
From S2P Require Import ControlEffects.
From S2P Require Import SessionOps.

(** Generation [j] is the current one of a family. *)
Definition current_at (db : Database) (family_id : Uuid) (j : Uuid) (g : RefreshGenerationRow) : Prop :=
  db_generations db !! j = Some g /\ rg_family_id g = family_id /\ rg_status g = "current"%string.

Definition families_current (db : Database) : Prop :=
  forall i f, db_families db !! i = Some f -> exists j g, current_at db i j g.

Definition current_kept (db db' : Database) : Prop := families_current db -> families_current db'.
Instance current_kept_preorder : PreOrder current_kept.
Proof. unfold current_kept. split; red; auto. Qed.

Lemma current_same db db' :
  db_generations db' = db_generations db ->
  (forall i, is_Some (db_families db' !! i) -> is_Some (db_families db !! i)) -> current_kept db db'.
Proof.
  intros Hg Hf Hc i f' Hi. destruct (Hf i) as [f Hf0]; [eauto|].
  unfold current_at. rewrite Hg. by apply (Hc i f).
Qed.

Ltac current_statement :=
  intros ? ?; intros; inv_login; apply current_same; [done|by intros ?].

Section statements.
Context `{JsonbText}.
Implicit Types db : Database.

Lemma update_family_current db row : frame_at current_kept db (update_family row).
Proof.
  intros db' [] (Hi & _ & ->)%update_family_ok. apply current_same; [done|].
  cbn. intros i [x [[<- _]|[_ Hx]]%lookup_insert_Some]; [|eauto]. by destruct (db_families db !! rf_id row).
Qed.
Lemma update_session_current db row : frame_at current_kept db (update_session row).
Proof. current_statement. Qed.
Lemma update_browser_current db row : frame_at current_kept db (update_browser row).
Proof. current_statement. Qed.
Lemma insert_logout_current db row : frame_at current_kept db (insert_logout row).
Proof. current_statement. Qed.
Lemma update_logout_current db row : frame_at current_kept db (update_logout row).
Proof. current_statement. Qed.
Lemma update_projection_current db row : frame_at current_kept db (update_projection row).
Proof. current_statement. Qed.
Lemma insert_projection_current db row : frame_at current_kept db (insert_projection row).
Proof. current_statement. Qed.
Lemma insert_binding_current db row : frame_at current_kept db (insert_binding row).
Proof. current_statement. Qed.
Lemma update_login_current db row : frame_at current_kept db (update_login row).
Proof. current_statement. Qed.
Lemma insert_ticket_current db row : frame_at current_kept db (insert_ticket row).
Proof. current_statement. Qed.
Lemma update_ticket_current db row : frame_at current_kept db (update_ticket row).
Proof. current_statement. Qed.
Lemma audit_current db p a b c d e : frame_at current_kept db (append_runtime_audit p a b c d e).
Proof. current_statement. Qed.
Lemma lock_epoch_current db p r k e now : frame_at current_kept db (lock_signing_epoch p r k e now).
Proof. by intros db' u ->%lock_signing_epoch_ok. Qed.
Lemma insert_event_current db row : frame_at current_kept db (insert_event row).
Proof. intros db' [] (_ & _ & ->)%insert_event_ok. by apply current_same. Qed.
Lemma insert_delivery_current db row : frame_at current_kept db (insert_delivery row).
Proof. intros db' [] (_ & _ & ->)%insert_delivery_ok. by apply current_same. Qed.
Lemma dispatch_current db p a : frame_at current_kept db (ensure_dispatch_state p a).
Proof. unfold ensure_dispatch_state. solve_frame. apply frame_at_modify. by apply current_same. Qed.
Lemma update_user_current db u : frame_at current_kept db (update_user u).
Proof. intros db' [] (_ & _ & _ & ->)%update_user_ok. by apply current_same. Qed.
End statements.

#[export] Hint Resolve update_family_current update_session_current update_browser_current
  insert_logout_current update_logout_current update_projection_current insert_projection_current
  insert_binding_current update_login_current insert_ticket_current update_ticket_current
  audit_current lock_epoch_current insert_event_current insert_delivery_current dispatch_current
  update_user_current : frames.

(** ** The three programs that write generations *)
Section generations.
Context `{CanonicalHash} `{ProjectionCryptography} `{UrlLib} `{TimeFormat} `{JsonbText}.
Implicit Types db : Database.

(** A replay marks a generation that is there, and leaves its status. *)
Lemma replay_current g f p now db db' :
  db_generations db !! rg_id g = Some g ->
  record_refresh_replay g f p now db = (db', Ok tt) -> current_kept db db'.
Proof.
  intros Hg Hr. apply mseq_ok in Hr as (d & [] & Hu & Hr).
  transitivity d.
  - destruct (is_none _); inv_txn; [|done]. intros Hc i y Hi. destruct (Hc _ _ Hi) as (j & h & Hj & Hh).
    destruct (decide (j = rg_id g)) as [->|Hne].
    + rewrite Hg in Hj. injection Hj as <-. exists (rg_id g), (with_replay now g).
      split; [apply lookup_insert_eq|done].
    + exists j, h. split; [|done]. cbn. by rewrite lookup_insert_ne.
  - match type of Hr with ?m d = _ => cut (frame_at current_kept d m); [by eauto|solve_frame] end.
Qed.

(** A rotation replaces the current generation of its family by the successor. *)
Lemma rotated_current c f g u event db :
  rg_status g = "current"%string -> rg_family_id g = rf_id f -> db_generations db !! rg_id g = Some g ->
  db_generations (set_db_generations
    (<[rg_id g := with_consumed (rt_now c) g]> (db_generations db)) db)
    !! rt_successor_generation_id c = None ->
  current_kept db (rotated_db c f g u event db).
Proof.
  intros Hst Hfam Hg Hn Hc. cbn in Hn. apply lookup_insert_None in Hn as [Hn Hne].
  intros i x Hi. destruct (decide (i = rf_id f)) as [->|Hif].
  - exists (rt_successor_generation_id c), (successor_row c f u (i64_add (rg_generation g) 1)).
    split; [apply lookup_insert_eq|done].
  - cbn in Hi. rewrite lookup_insert_ne in Hi by done. destruct (Hc _ _ Hi) as (j & h & Hj & Hh & Hs).
    exists j, h. split; [|done]. cbn.
    rewrite !lookup_insert_ne; [done| |congruence]. intros <-. congruence.
Qed.

(** An exchange opens a family together with its first generation. *)
Lemma open_session_current db c t o b : frame_at current_kept db (open_session c t o b).
Proof.
  unfold open_session. intros db' [] Hr. inv_login. intros Hc i f Hi. cbn in *.
  apply lookup_insert_Some in Hi as [[<- _]|[Hne Hi]].
  - eexists _, _. split; [apply lookup_insert_eq|done].
  - destruct (Hc _ _ Hi) as (j & g & Hj & Hg). exists j, g. split; [|done]. cbn.
    rewrite lookup_insert_ne; [done|]. intros <-. by rewrite Hj in *.
Qed.

Lemma repair_current db nonce x app u now :
  frame_at current_kept db (repair_runtime_projection nonce x app u now).
Proof. unfold repair_runtime_projection. solve_frame. Qed.
Lemma enqueue_current db ids event kind endpoints :
  frame_at current_kept db (enqueue_deliveries ids event kind endpoints).
Proof. revert db; induction endpoints; intros db; cbn; solve_frame. Qed.
Lemma append_event_current db clock uuid ids pp ap b x wire kind :
  frame_at current_kept db (append_projection_event clock uuid ids pp ap b x wire kind).
Proof. pose proof enqueue_current. unfold append_projection_event. solve_frame. Qed.
Hint Resolve open_session_current repair_current append_event_current : frames.

Lemma commit_current clock nonces uuid ids c :
  effect current_kept (commit_handoff_exchange clock nonces uuid ids c).
Proof.
  unfold commit_handoff_exchange, commit_locked, exchange_ticket, bind_user, exchange_projection,
    exchange_writes. solve_frame.
Qed.

Lemma prepare_current nonce gs fs c db :
  store_ok db -> current_kept db (prepare_refresh_rotation nonce gs fs c db).1.
Proof.
  intros Hok. destruct (prepare_refresh_rotation nonce gs fs c db) as [db' [r|e]] eqn:Hr; cbn;
    [|by rewrite (prepare_err _ _ _ _ _ _ _ Hr)].
  destruct (prepare_rows _ _ _ _ _ _ _ Hok Hr) as (s & f & g & _ & _ & Hg & _ & _ & _ & Ho).
  destruct Ho; [by eapply replay_current|by eapply repair_current].
Qed.

Lemma rotate_current gs fs c db :
  store_ok db -> current_kept db (rotate_refresh_token gs fs c db).1.
Proof.
  intros Hok. destruct (rotate_refresh_token gs fs c db) as [db' [r|e]] eqn:Hr; cbn;
    [|by rewrite (rotate_err _ _ _ _ _ _ Hr)].
  destruct (rotate_rows _ _ _ _ _ _ Hok Hr) as (s & f & g & _ & _ & Hg & Hfam & _ & _ & Ho).
  destruct Ho as [_ Hrep|pj ap u po b r Hcf _ _ _ _ Hw]; [by eapply replay_current|].
  apply state_conflict_false in Hcf as [Hst _].
  apply rotation_writes_ok in Hw as (_ & Hn & _ & _ & [event ->] & _). by apply rotated_current.
Qed.

(** ** Every operation *)
Lemma login_current {A} (m : txn A) db :
  login_tables_ok db -> effect login_effect m -> current_kept db (m db).1.
Proof.
  intros Hok Hm. destruct (m db) as [db' r] eqn:Hr.
  destruct (Hm _ _ _ Hr Hok) as ((t & e & ->) & _). by apply current_same.
Qed.

Lemma op_current op db : world_ok db -> current_kept db (run_session_op op db).
Proof.
  intros Hw. destruct op; simpl in *;
    try (apply login_current; [apply Hw|]; first [apply create_login_effect|apply bind_hosted_effect
      |apply select_provider_effect|apply claim_callback_effect|apply deny_callback_effect
      |apply fail_exchange_effect|apply recover_effect]);
    try (by apply prepare_current, Hw); try (by apply rotate_current, Hw);
    apply effect_fst_of.
  - unfold logout_application_session. solve_frame.
  - unfold prepare_browser_logout. solve_frame.
  - unfold bind_browser_logout, bind_locked, expire_browser_logout. solve_frame.
  - unfold confirm_browser_logout, confirm_locked, expire_browser_logout. solve_frame.
  - unfold confirm_browser_session_reuse, reuse_locked, expire_login, insert_handoff. solve_frame.
  - apply commit_current.
  - apply disable_kept; eauto with frames typeclass_instances.
  - apply enable_kept; eauto with frames typeclass_instances.
  - unfold revoke_application_session. solve_frame.
  - unfold revoke_browser_session. solve_frame.
Qed.

Lemma ops_current ops db :
  world_ok db -> families_current db -> families_current (run_session_ops ops db).
Proof.
  revert db. induction ops as [|op ops IH]; intros db Hw Hc; [done|].
  apply IH; [by apply session_op_keeps|by apply op_current].
Qed.

(** In a store that keeps both, the current generation of a family is the newest
    and every other one is consumed. *)
Lemma current_is_newest db i f :
  store_ok db -> families_current db -> db_families db !! i = Some f ->
  exists j g, current_at db i j g /\ rg_generation g = rf_current_generation f
    /\ forall k h, db_generations db !! k = Some h -> rg_family_id h = i -> k <> j ->
         rg_status h = "consumed"%string /\ rg_generation h < rg_generation g.
Proof.
  intros Hok Hc Hf. destruct (Hc _ _ Hf) as (j & g & Hj & <- & Hst). exists j, g.
  destruct (store_chain _ Hok j g f Hj Hf) as [_ Hcg]. pose proof (proj1 Hcg Hst) as Hn.
  split_and!; [done..|]. intros k h Hk Hfam Hkj.
  assert (db_families db !! rg_family_id h = Some f) as Hf' by (by rewrite Hfam).
  destruct (store_chain _ Hok k h f Hk Hf') as [Hle Hch].
  assert (rg_status h <> "current"%string) as Hns
    by (intros Hs; by apply Hkj; symmetry; apply (only_current _ j k f g h Hok Hj Hk)).
  split.
  - pose proof (gens_check _ (store_generations _ Hok) _ _ Hk) as Hck.
    unfold refresh_generation_check in Hck. bool_prop. naive_solver.
  - rewrite Hn. assert (rg_generation h <> rf_current_generation f) by (by rewrite <- Hch). lia.
Qed.
End generations.
