(* ===== verification/SessionAuthorityProofs.v ===== *)
(** * The session authority: theorems

    Refresh tokens are single-use: in a store that satisfies its constraints
    each family has at most one current generation, a generation rotates at most
    once whatever runs in between, presenting it again revokes the family, and a
    family that is not active never rotates again.  Failed transactions change
    nothing, and the writes of a rotation never trip over the constraints. *)
From S2P Require Import Prelude.
From S2P Require Import UrlValues.
From S2P Require Import Json.
From S2P Require Import LoginTables.
From S2P Require Import WebhookTables.
From S2P Require Import Database.
From S2P Require Import Projection.
From S2P Require Import ProjectionProofs.
From S2P Require Import SessionAuthority.
From S2P Require Import BrowserLogout.
From S2P Require Import SessionStore.
From S2P Require Import SessionEffects.
From S2P Require Import LoginHistory.
From S2P Require Import HandoffEffects.
From S2P Require Import SessionOps.
From S2P Require Import FamilyHistory.

(** ** The writes respect the constraints *)
Lemma update_generation_run row db :
  is_some (db_generations db !! rg_id row) = true -> refresh_generation_accepts db row = true ->
  update_generation row db
  = (set_db_generations (<[rg_id row := row]> (db_generations db)) db, Ok tt).
Proof. intros; by apply update_generation_ok. Qed.

Lemma check_parts g :
  refresh_generation_check g = true ->
  rg_created_at g < rg_retain_until g /\ 0 < rg_generation g
  /\ Z.of_nat (length (rg_token_digest g)) = 32 /\ 0 < rg_token_digest_key_version g
  /\ (rg_status g = "consumed"%string -> is_some (rg_consumed_at g) = true).
Proof.
  unfold refresh_generation_check; intros Hc; bool_prop; destruct_and!; split_and!; try done.
  intros Hs; match goal with He : Bool.eqb _ _ = true |- _ => apply Bool.eqb_prop in He end.
  rewrite bool_decide_true in * by done; done.
Qed.

Lemma consumed_accepted db i g now :
  store_ok db -> db_generations db !! i = Some g ->
  refresh_generation_accepts db (with_consumed now g) = true.
Proof.
  intros Hok Hg; pose proof (store_generations _ Hok) as Hgs.
  pose proof (gens_ids _ Hgs _ _ Hg) as Hid.
  destruct (check_parts _ (gens_check _ Hgs _ _ Hg)) as (Hr & Hn & Hl & Hv & _).
  apply accepts_true; split_and!.
  - unfold refresh_generation_check; simpl; rewrite orb_true_r; bool_prop; done.
  - exact (gens_owner _ Hgs _ _ Hg).
  - intros j b Hj Hb; pose proof (gens_unique _ Hgs i j g b) as Hu.
    specialize (Hu ltac:(simpl in Hj; congruence) Hg Hb).
    apply conflict_false in Hu as (Hu1 & Hu2 & _); apply conflict_false; simpl.
    split_and!; [done..|naive_solver].
Qed.

Lemma replay_accepted db i g now :
  store_ok db -> db_generations db !! i = Some g -> rg_status g = "consumed"%string ->
  refresh_generation_accepts db (with_replay now g) = true.
Proof.
  intros Hok Hg Hst; pose proof (store_generations _ Hok) as Hgs.
  pose proof (gens_ids _ Hgs _ _ Hg) as Hid.
  destruct (check_parts _ (gens_check _ Hgs _ _ Hg)) as (Hr & Hn & Hl & Hv & Hc).
  apply accepts_true; split_and!.
  - unfold refresh_generation_check; simpl; rewrite Hst, Hc by done.
    rewrite bool_decide_true, orb_true_r by done; bool_prop; simpl; done.
  - exact (gens_owner _ Hgs _ _ Hg).
  - intros j b Hj Hb; apply (gens_unique _ Hgs i j g b); [simpl in Hj; congruence|done..].
Qed.

Definition fresh_token (token : VersionedDigest) (db : Database) : Prop :=
  length (vd_value token) = 32%nat /\ 0 < vd_key_version token
  /\ forall i h, db_generations db !! i = Some h ->
       ~ (vd_key_version token = rg_token_digest_key_version h /\ vd_value token = rg_token_digest h).

Lemma successor_accepted db i c f g u :
  store_ok db -> db_generations db !! i = Some g -> db_families db !! rf_id f = Some f ->
  rg_family_id g = rf_id f -> rg_generation g = rf_current_generation f ->
  rt_now c < rf_absolute_expires_at f -> rf_current_generation f < i64_max ->
  rf_project_id f = rt_project_id c -> rf_application_id f = rt_application_id c ->
  rf_user_id f = us_id u -> fresh_token (rt_successor_token c) db ->
  refresh_generation_accepts
    (set_db_generations (<[rg_id g := with_consumed (rt_now c) g]> (db_generations db)) db)
    (successor_row c f u (rf_current_generation f + 1)) = true.
Proof.
  intros Hok Hg Hf Hfam Hcur Hexp Hmax Hp Ha Hu (Hlen & Hver & Hfresh).
  pose proof (gens_ids _ (store_generations _ Hok) _ _ Hg) as Hid.
  destruct (refresh_family_check_true _ (store_family_check _ Hok _ _ Hf)) as (Hsk & Hp1 & _).
  apply accepts_true; split_and!.
  - unfold refresh_generation_check; simpl; rewrite Hlen; bool_prop; unfold seconds; simpl; lia.
  - unfold refresh_generation_owner; simpl; rewrite Hf, Hp, Ha, Hu, !Z.eqb_refl; done.
  - intros j h _ Hl; apply conflict_false; simpl in Hl |- *.
    apply lookup_insert_Some in Hl as [[<- <-]|[Hj Hh]].
    { simpl; split_and!; [by apply (Hfresh i)|lia|naive_solver]. }
    split_and!; [by apply (Hfresh j)|..].
    + intros (_ & Hfh & Hgen); assert (db_families db !! rg_family_id h = Some f) as Hf' by congruence.
      destruct (store_chain _ Hok j h f Hh Hf'); lia.
    + intros (_ & Hfh & _ & Hst); apply Hj; rewrite Hid.
      apply (only_current db i j f g h Hok Hg Hh); congruence.
Qed.

Lemma i64_add_small x : 0 < x < i64_max -> i64_add x 1 = x + 1.
Proof. unfold i64_add, i64_max; intros; rewrite Z.mod_small by lia; lia. Qed.

(** With headroom in the counters and a fresh successor every statement of a
    rotation is accepted. *)
Lemma rotation_writes_run db i c s f g u :
  store_ok db -> db_generations db !! i = Some g -> db_families db !! rf_id f = Some f ->
  rg_family_id g = rf_id f -> rotation_state_conflict c s f g = false ->
  rf_current_generation f < i64_max -> rf_family_revision f < i64_max ->
  rf_project_id f = rt_project_id c -> rf_application_id f = rt_application_id c ->
  rf_user_id f = us_id u -> fresh_token (rt_successor_token c) db ->
  db_generations db !! rt_successor_generation_id c = None ->
  exists event,
    rotation_writes c s f g u db
    = (rotated_db c f g u event db,
       Ok (Rotated (us_id u) (as_id s) (rf_id f) (rg_generation g + 1) (rf_absolute_expires_at f))).
Proof.
  intros Hok Hg Hf Hfam Hcf Hmax1 Hmax2 Hp Ha Hu Hfresh Hnew.
  apply state_conflict_false in Hcf as (Hst & Hact & _ & Hcur & Hexp & _).
  pose proof (gens_ids _ (store_generations _ Hok) _ _ Hg) as Hid.
  pose proof (store_family_check _ Hok _ _ Hf) as Hfc.
  destruct (refresh_family_check_true _ Hfc) as (_ & Hp1 & Hp2).
  unfold rotation_writes, rotated_db; rewrite Hcur, !i64_add_small by lia.
  exists (mkAuditEventRow (Some (rt_project_id c)) "project_user" "auth.refresh.rotated"
            "refresh_family" (Some (rf_id f)) "succeeded" (rf_id f) (JObject [])).
  unfold mseq; rewrite update_generation_run; [|by simpl; rewrite Hid, Hg|by eapply consumed_accepted].
  erewrite (proj2 (insert_generation_ok _ _ _)); [|split_and!; [| |reflexivity]].
  2: { simpl; rewrite lookup_insert_ne by congruence; by rewrite Hnew. }
  2: { exact (successor_accepted db i c f g u Hok Hg Hf Hfam Hcur Hexp Hmax1 Hp Ha Hu Hfresh). }
  erewrite (proj2 (update_family_ok _ _ _)); [|split_and!; [| |reflexivity]]; [reflexivity|..].
  - simpl; by rewrite Hf.
  - revert Hfc; unfold refresh_family_check; simpl; rewrite i64_add_small by lia.
    bool_prop; intros; destruct_and!; split_and!; (done || lia).
Qed.

Lemma preparation_conflict_false now s f g :
  preparation_state_conflict now s f g = false ->
  rg_status g = "current"%string /\ rf_status f = "active"%string
  /\ as_status s = "active"%string /\ rg_generation g = rf_current_generation f
  /\ now < rf_absolute_expires_at f /\ rf_absolute_expires_at f = as_absolute_expires_at s.
Proof. unfold preparation_state_conflict; intros Hc; bool_prop; destruct_and!; split_and!; auto. Qed.

Section routing.
Context `{CanonicalHash} `{ProjectionCryptography}.

(** A digest names one row: the row with the presented token is the one the
    call works on. *)
Lemma token_row_unique db i j g h token :
  store_ok db -> db_generations db !! i = Some g -> db_generations db !! j = Some h ->
  rg_token_digest g = vd_value token -> rg_token_digest_key_version g = vd_key_version token ->
  rg_token_digest h = vd_value token -> rg_token_digest_key_version h = vd_key_version token ->
  i = j /\ g = h.
Proof.
  intros Hok Hg Hh ????; destruct (decide (i = j)) as [->|Hij]; [split; congruence|exfalso].
  pose proof (gens_unique _ (store_generations _ Hok) i j g h Hij Hg Hh) as Hu.
  apply conflict_false in Hu as [Hu _]; apply Hu; split; congruence.
Qed.

Lemma routed_generation_found db i g c :
  store_ok db -> db_generations db !! i = Some g ->
  rg_project_id g = rt_project_id c -> rg_application_id g = rt_application_id c ->
  rg_token_digest g = vd_value (rt_presented_token c) ->
  rg_token_digest_key_version g = vd_key_version (rt_presented_token c) ->
  routed_generation db (rt_project_id c) (rt_application_id c) (rt_presented_token c) = Some g.
Proof.
  intros Hok Hg Hp Ha Hd Hv; unfold routed_generation; destruct (find_one _ _) as [h|] eqn:Hf.
  - apply find_one_some in Hf as (j & Hh & Hm); bool_prop; destruct_and!.
    f_equal; symmetry; by eapply (token_row_unique db i j g h (rt_presented_token c)).
  - apply (find_one_none _ _ i g) in Hf; [|done]; cbv beta in Hf.
    rewrite Hp, Ha, Hv, !Z.eqb_refl, bool_decide_true in Hf by done; done.
Qed.

(** A consistent store: the token's row with its family and session. *)
Record token_rows (c : RotateRefreshToken) (db : Database) (s : ApplicationSessionRow)
    (f : RefreshFamilyRow) (g : RefreshGenerationRow) : Prop := {
  tr_generation : db_generations db !! rg_id g = Some g;
  tr_family : db_families db !! rf_id f = Some f;
  tr_session : db_sessions db !! as_id s = Some s;
  tr_family_link : rg_family_id g = rf_id f;
  tr_session_link : rf_application_session_id f = as_id s;
  tr_project : rg_project_id g = rt_project_id c /\ rf_project_id f = rt_project_id c
               /\ as_project_id s = rt_project_id c;
  tr_application : rg_application_id g = rt_application_id c
                   /\ rf_application_id f = rt_application_id c
                   /\ as_application_id s = rt_application_id c;
  tr_digest : rg_token_digest g = vd_value (rt_presented_token c)
              /\ rg_token_digest_key_version g = vd_key_version (rt_presented_token c);
  tr_versions : 0 < vd_key_version (rt_presented_token c)
                /\ 0 < vd_key_version (rt_successor_token c)
                /\ 0 < rp_signing_epoch (rt_preparation c)
}.

(** Routing and locking reach the transaction body with those rows. *)
Lemma rotate_reaches c db s f g :
  store_ok db -> token_rows c db s f g ->
  rotate_refresh_token db db c db = transaction (rotate_locked c g f) db
  /\ locked_refresh_rows db (rt_project_id c) (rt_application_id c) g f = Ok (s, f, g)
  /\ digest_matches (rg_token_digest g) (rg_token_digest_key_version g) (rt_presented_token c)
     = true.
Proof.
  intros Hok [Hg Hf Hs Hfl Hsl (Hp1 & Hp2 & Hp3) (Ha1 & Ha2 & Ha3) (Hd & Hv) (Hv1 & Hv2 & He)].
  split_and!.
  - unfold rotate_refresh_token, mseq, mlift, validate_digest.
    rewrite !(proj2 (Z.leb_gt _ _)) by done.
    rewrite (routed_generation_found db (rg_id g) g c) by done; simpl.
    unfold routed_family, find_by_id; rewrite Hfl, Hf; simpl.
    by rewrite Hp2, Z.eqb_refl.
  - unfold locked_refresh_rows, find_by_id; rewrite Hsl, Hs; simpl.
    rewrite Hp3, Ha3, !Z.eqb_refl, Hf; simpl; rewrite Hp2, Ha2, !Z.eqb_refl, Hg; simpl.
    by rewrite Hp1, Hfl, !Z.eqb_refl.
  - by apply digest_matches_true.
Qed.

Lemma revoked_family_accepted reason now f :
  refresh_family_check f = true -> rf_family_revision f < i64_max ->
  reason = "replay"%string \/ reason = "logout"%string ->
  refresh_family_check (with_family_revoked reason now f) = true.
Proof.
  intros Hc Hm Hr; destruct (refresh_family_check_true _ Hc) as (_ & _ & Hp).
  revert Hc; unfold refresh_family_check; simpl; rewrite i64_add_small by lia.
  intros Hc; bool_prop; destruct_and!; split_and!; try done; try lia.
  all: destruct Hr as [-> | ->]; set_solver.
Qed.

Lemma replay_run g f p now db i :
  store_ok db -> db_generations db !! i = Some g -> db_families db !! rf_id f = Some f ->
  rg_status g = "consumed"%string -> rf_family_revision f < i64_max ->
  exists db', record_refresh_replay g f p now db = (db', Ok tt).
Proof.
  intros Hok Hg Hf Hst Hmax; pose proof (gens_ids _ (store_generations _ Hok) _ _ Hg) as Hid.
  assert (exists d, (if is_none (rg_replay_detected_at g) then update_generation (with_replay now g)
                     else mret tt) db = (d, Ok tt) /\ db_families d = db_families db)
    as (d & Hd & Hfs).
  { destruct (is_none _); [|by exists db]; eexists; split.
    - apply update_generation_run; [by simpl; rewrite Hid, Hg | by eapply replay_accepted].
    - done. }
  assert (exists d', (if bool_decide (rf_status f = "active"%string)
                      then update_family (with_family_revoked "replay" now f) else mret tt) d
                     = (d', Ok tt)) as (d' & Hd').
  { case_bool_decide; [|by exists d]; eexists; apply update_family_ok.
    split_and!; [simpl; by rewrite Hfs, Hf| |reflexivity].
    apply revoked_family_accepted; [by apply (store_family_check _ Hok _ _ Hf)|done|by left]. }
  eexists; apply mseq_ok; exists d, tt; split; [exact Hd|]; apply mseq_ok; exists d', tt; split; [exact Hd'|]; reflexivity.
Qed.
End routing.

(** ** From preparation to rotation *)

(** The rotation a caller asks for with what preparation gave it. *)
Record follows (pc : PrepareRefreshRotation) (p : RefreshPreparation) (c : RotateRefreshToken) : Prop := {
  fl_project : rt_project_id c = pr_project_id pc;
  fl_application : rt_application_id c = pr_application_id pc;
  fl_token : rt_presented_token c = pr_presented_token pc;
  fl_preparation : rt_preparation c = p;
  fl_later : pr_now pc <= rt_now c;
  fl_expiry : rt_now c < rp_absolute_expires_at p
}.

Lemma state_carries c s f g pj ap u po b m sg lt :
  preparation_state_conflict (rt_now c) s f g = false ->
  rt_preparation c = refresh_preparation s f g pj ap u po b m sg lt ->
  rotation_state_conflict c s f g = false.
Proof.
  unfold preparation_state_conflict, rotation_state_conflict; intros Hc ->; simpl.
  by rewrite Hc, !Z.eqb_refl.
Qed.

Lemma state_later now now' s f g :
  preparation_state_conflict now s f g = false -> now' < rf_absolute_expires_at f ->
  preparation_state_conflict now' s f g = false.
Proof.
  unfold preparation_state_conflict; rewrite !orb_false_iff, !Z.leb_gt; intros; destruct_and!.
  match goal with He : negb (rf_absolute_expires_at f =? as_absolute_expires_at s) = false |- _ =>
    pose proof He as He'; apply negb_false_iff, Z.eqb_eq in He' end.
  split_and!; try done; lia.
Qed.

Lemma owners_carry db c s f g pj ap u po b m sg lt :
  preparation_owners db (rt_project_id c) (rt_application_id c) s = Ok (pj, ap, u, po) ->
  access_token_lifetime po = Ok lt ->
  rt_preparation c = refresh_preparation s f g pj ap u po b m sg lt ->
  rotation_owners db c s = Ok (pj, ap, u, po).
Proof.
  unfold preparation_owners, rotation_owners, rotation_owner_conflict; intros Ho Hlt Hp.
  repeat match type of Ho with
  | rbind ?r _ = _ => destruct r; simpl rbind in Ho |- *; [|discriminate Ho]
  end.
  apply if_err_ok in Ho as [Hc Ho]; injection Ho as -> -> -> ->.
  by rewrite Hp; simpl; rewrite Hc, !Z.eqb_refl, Hlt, bool_decide_true; simpl; rewrite ?Z.eqb_refl.
Qed.

Lemma binding_carries db c s f g pj ap u po b m sg lt :
  preparation_binding db (rt_project_id c) (rt_application_id c) s u = Ok b ->
  rt_preparation c = refresh_preparation s f g pj ap u po b m sg lt ->
  rotation_binding db c s u = Ok b.
Proof.
  unfold preparation_binding, rotation_binding; intros Hb Hp.
  match type of Hb with rbind ?r _ = _ => destruct r; simpl rbind in Hb |- *; [|discriminate Hb] end.
  apply if_err_ok in Hb as [Hc Hb]; injection Hb as ->.
  by rewrite Hp; simpl; rewrite Hc, !Z.eqb_refl.
Qed.

Lemma browser_later db p now now' s pj u po :
  session_browser db p now s pj u po = Ok tt -> 
  (forall i b, as_browser_session_id s = Some i -> db_browsers db !! i = Some b ->
     now' < bs_idle_expires_at b /\ now' < bs_absolute_expires_at b) ->
  session_browser db p now' s pj u po = Ok tt.
Proof.
  unfold session_browser; destruct (as_browser_session_id s) as [i|]; [|done]; intros Hb Hl.
  match type of Hb with rbind ?r _ = _ => destruct r as [b|] eqn:Hf; simpl rbind in Hb |- *; [|discriminate Hb] end.
  apply ok_or_ok, find_by_id_some in Hf as [Hi _]; destruct (Hl i b eq_refl Hi) as [H1' H2'].
  apply if_err_ok in Hb as [Hc _].
  rewrite !orb_false_iff in Hc; destruct_and!.
  rewrite (proj2 (Z.leb_gt (bs_idle_expires_at b) _)), (proj2 (Z.leb_gt (bs_absolute_expires_at b) _)) by done.
  by repeat match goal with He : ?t = false |- context [?t] => rewrite He end.
Qed.

Section carries.
Context `{CanonicalHash} `{ProjectionCryptography} `{UrlLib} `{TimeFormat} `{JsonbText}.

(** Everything but the projections is as preparation found it. *)
Lemma repair_frame nonce x app u now db db1 row m :
  db_projections db !! pn_id x = Some x ->
  repair_runtime_projection nonce x app u now db = (db1, Ok (row, m)) ->
  row = current_row x u m now
  /\ exists t, db1 = set_db_projections t db /\ t !! pn_id x = Some row.
Proof.
  intros Hx Hr; apply repair_ok in Hr as [_ Hr]; unfold current_row.
  destruct (pm_storage_repair_required m).
  - destruct Hr as (-> & _ & ->); split; [done|]; eexists; split; [done|]; apply lookup_insert_eq.
  - destruct Hr as (-> & ->); split; [done|]; exists (db_projections db); by destruct db.
Qed.

Lemma binding_projection_found db p b x :
  store_ok db -> db_projections db !! pn_id x = Some x -> pn_project_id x = p ->
  pn_binding_id x = b -> binding_projection db p b = Ok x.
Proof.
  intros Hok Hx Hp Hb; unfold binding_projection; destruct (find_one _ _) as [y|] eqn:Hf; simpl.
  - apply find_one_some in Hf as (j & Hy & Hm); bool_prop; destruct Hm as [Hyp Hyb]; f_equal.
    assert (j = pn_id x) as ->; [|congruence].
    apply (dir_projection_unique _ _ _ _ _ _ (store_directory _ Hok) j (pn_id x) y x); congruence.
  - apply (find_one_none _ _ _ _ Hf) in Hx; cbv beta in Hx.
    by rewrite Hp, Hb, !Z.eqb_refl in Hx.
Qed.

Lemma projection_carries `{!ProjectionCryptographyLaws} nonce x app now db0 db c s f g pj ap u po b m
    sg lt source version :
  material_of nonce db0 x app u m source version -> row_context x app u -> store_ok db ->
  db_projections db !! pn_id x = Some (current_row x u m now) ->
  pn_project_id x = rt_project_id c -> pn_binding_id x = ub_id b ->
  rt_preparation c = refresh_preparation s f g pj ap u po b m sg lt ->
  rotation_projection db c u b = Ok tt.
Proof.
  intros Hm Hx Hok Hrow Hp Hb Hc.
  destruct (current_row_fields _ _ _ _ _ _ _ _ now Hm)
    as (Hid & Hp' & Hb' & _ & _ & Hr & Hur & Hd & _ & Hbd & _).
  pose proof (current_row_wire _ _ _ _ _ _ _ _ now Hm Hx) as Hw.
  unfold rotation_projection.
  rewrite (binding_projection_found _ _ _ (current_row x u m now) Hok) by congruence; cbn [rbind].
  assert ((if is_some (pn_verified_email_ciphertext (current_row x u m now))
           then assert_projection_crypto_authority else Ok tt) = Ok tt) as ->.
  { destruct (is_some _) eqn:Hs; [|done]; by eapply current_row_authority. }
  cbn [rbind]; rewrite Hw; cbn [rbind]; rewrite (mo_storage _ _ _ _ _ _ _ _ Hm); cbn [rbind].
  rewrite Hc, Hr, Hur, Hbd, Hd; simpl; rewrite !Z.eqb_refl, !json_eqb_refl.
  by rewrite !bool_decide_true.
Qed.

Lemma signing_carries db c pnow s f g pj ap u po b m sg lt :
  store_ok db -> active_signing_snapshot db (rt_project_id c) pnow = Ok sg -> pnow <= rt_now c ->
  rt_preparation c = refresh_preparation s f g pj ap u po b m sg lt ->
  0 < rp_signing_epoch (rt_preparation c)
  /\ lock_signing_epoch (rt_project_id c) (rp_signing_ring_id (rt_preparation c))
       (rp_signing_key_id (rt_preparation c)) (rp_signing_epoch (rt_preparation c)) (rt_now c) db
     = (db, Ok tt).
Proof.
  intros Hok Hs Hle Hp; unfold active_signing_snapshot in Hs.
  apply rbind_ok in Hs as (ring & Hring & Hs); apply rbind_ok in Hs as (key & Hkey & Hs).
  apply if_err_ok in Hs as [Hnb Hs]; injection Hs as <-; rewrite Hp; simpl.
  apply ok_or_ok, find_one_some in Hring as (i & Hi & Hrp); bool_prop; destruct_and!.
  apply ok_or_ok, find_first_some in Hkey as (j & Hj & Hkp); bool_prop; destruct_and!.
  pose proof (dir_rings _ _ _ _ _ _ (store_directory _ Hok) _ _ Hi) as Hri; subst i.
  pose proof (dir_keys _ _ _ _ _ _ (store_directory _ Hok) _ _ Hj) as Hki; subst j.
  split; [exact (own_epochs _ _ _ _ (store_owners _ Hok) _ _ Hi)|].
  assert (not_yet_signing (sk_sign_not_before key) (rt_now c) = false) as Hnb'.
  { unfold not_yet_signing in *; destruct (sk_sign_not_before key); [|done]; lia. }
  unfold lock_signing_epoch, mseq, mget, mlift, find_by_id, check_that.
  rewrite Hi; simpl; rewrite (proj2 (Z.eqb_eq _ _)) by done; rewrite Hj; simpl.
  repeat (rewrite (proj2 (Z.eqb_eq _ _)) by done); simpl.
  by rewrite Hnb', !bool_decide_true.
Qed.

Lemma outcome_epoch nonce pc db db1 s f g p :
  store_ok db1 -> prepare_outcome nonce pc db db1 s f g (Prep.Ready p) -> 0 < rp_signing_epoch p.
Proof.
  intros Hok Ho; inversion Ho as [|? ? ? ? ? ? ? ? ? ? _ _ _ _ _ _ Hs _]; subst; simpl.
  unfold active_signing_snapshot in Hs; inv_ok; simpl.
  match goal with Hf : find_one _ _ = Some _ |- _ => apply find_one_some in Hf as (i & Hi & _) end.
  exact (own_epochs _ _ _ _ (store_owners _ Hok) _ _ Hi).
Qed.

(** The rows preparation worked on, when its routing read saw an earlier store. *)
Lemma rows_carry nonce gs fs pc db db1 p c :
  store_ok db -> evolves fs db ->
  prepare_refresh_rotation nonce gs fs pc db = (db1, Ok (Prep.Ready p)) ->
  follows pc p c -> 0 < vd_key_version (rt_successor_token c) ->
  exists s f g, token_rows c db s f g /\ prepare_outcome nonce pc db db1 s f g (Prep.Ready p).
Proof.
  intros Hok Hev Hr [Hp Ha Ht Hpr _ _] Hv.
  destruct (prepare_keeps _ _ _ _ _ _ _ Hok Hr) as [Hok1 _].
  assert (0 < vd_key_version (pr_presented_token pc)) as Hpv.
  { unfold prepare_refresh_rotation, mseq, mlift, validate_digest in Hr.
    destruct (vd_key_version (pr_presented_token pc) <=? 0) eqn:Hle; [discriminate Hr|lia]. }
  destruct (prepare_ok _ _ _ _ _ _ _ Hr) as (rg & rf & s & f & g & Hrf & Hl & Hd & Hdv & Ho).
  apply locked_refresh_rows_ok in Hl as (Hs & Hsp & Hsa & Hf & Hfp & Hfa & Hg & Hgp & Hgf).
  pose proof (store_session_ids _ Hok _ _ Hs) as Hsi.
  pose proof (store_family_ids _ Hok _ _ Hf) as Hfi.
  pose proof (gens_ids _ (store_generations _ Hok) _ _ Hg) as Hgi.
  pose proof (outcome_epoch _ _ _ _ _ _ _ _ Hok1 Ho) as He.
  apply find_by_id_some in Hrf as [Hrf _].
  destruct (ev_family _ _ Hev _ _ Hrf) as (f' & Hf' & (Hi' & _ & _ & _ & Hs') & _).
  pose proof (store_family_ids _ Hok _ _ Hf') as Hfi'.
  assert (f' = f) as -> by congruence.
  pose proof (gens_owner _ (store_generations _ Hok) _ _ Hg) as Hown.
  unfold refresh_generation_owner in Hown; rewrite Hgf, Hfi, Hf in Hown; bool_prop; destruct_and!.
  exists s, f, g; split; [|done]; constructor; rewrite ?Hpr, ?Ht; split_and?; congruence.
Qed.


Lemma preparation_owners_ok db p a s pj ap u po :
  preparation_owners db p a s = Ok (pj, ap, u, po) ->
  db_applications db !! a = Some ap /\ db_users db !! as_user_id s = Some u /\ us_project_id u = p.
Proof.
  unfold preparation_owners; intros Ho; inv_ok; simplify_eq.
  repeat match goal with Hf : find_by_id _ _ _ = Some _ |- _ => apply find_by_id_some in Hf as [? ?] end.
  bool_prop; done.
Qed.

(** The guards of rotation hold in the store preparation left. *)
Lemma guards_carry `{!ProjectionCryptographyLaws} nonce pc db db1 p c s f g pj ap u po b x row m sg lt :
  store_ok db -> store_ok db1 -> follows pc p c -> token_rows c db s f g ->
  preparation_owners db (pr_project_id pc) (pr_application_id pc) s = Ok (pj, ap, u, po) ->
  preparation_binding db (pr_project_id pc) (pr_application_id pc) s u = Ok b ->
  binding_projection db (pr_project_id pc) (ub_id b) = Ok x ->
  repair_runtime_projection nonce x (ap_id ap) u (pr_now pc) db = (db1, Ok (row, m)) ->
  p = refresh_preparation s f g pj ap u po b m sg lt ->
  rotation_projection db1 c u b = Ok tt /\ rf_user_id f = us_id u
  /\ exists t, db1 = set_db_projections t db.
Proof.
  intros Hok Hok1 [Hp Ha _ Hpr _ _] Hrows Ho Hb Hx Hrep ->.
  apply (binding_projection_ok _ _ _ _ Hok) in Hx as (Hx & Hxp & Hxb).
  destruct (repair_frame _ _ _ _ _ _ _ _ _ Hx Hrep) as (-> & t & Ht & Hrow).
  apply repair_ok in Hrep as [Hm _]; apply authoritative_ok in Hm as (source & version & Hm).
  apply preparation_owners_ok in Ho as (Hap & Hu & Hup).
  unfold preparation_binding in Hb; inv_ok.
  match goal with Hf : find_by_id (db_bindings db) _ _ = Some _ |- _ =>
    apply find_by_id_some in Hf as [Hbi Hbp]; bool_prop end.
  pose proof (store_owners _ Hok) as [Happ Husers Hbind _].
  pose proof (Happ _ _ Hap); pose proof (Husers _ _ Hu); pose proof (Hbind _ _ Hbi).
  destruct (dir_projection_binding _ _ _ _ _ _ (store_directory _ Hok) _ _ Hx) as (b' & Hb' & Hba).
  assert (b' = b) as -> by congruence.
  split_and!; [| |eauto].
  - eapply projection_carries; try done; [split; naive_solver congruence|by rewrite Hp].
  - destruct Hrows; destruct (store_family_owner _ Hok _ _ tr_family0) as (s' & Hs' & Hsu); congruence.
Qed.
End carries.

Section claims.
Context `{CanonicalHash} `{ProjectionCryptography} `{UrlLib} `{TimeFormat} `{JsonbText}.

(** a successful rotation was made with the family's current, unexpired
    token; it consumes exactly that generation, inserts the successor with the
    next number as the current one, advances the family, and touches no other
    refresh token, family or session. *)
Theorem rotation_replaces_current_generation gs fs c db db' user_id session_id family_id n expires :
  store_ok db ->
  rotate_refresh_token gs fs c db
  = (db', Ok (Rotated user_id session_id family_id n expires)) ->
  exists f g u,
    db_families db !! family_id = Some f /\ rf_status f = "active"%string
    /\ rt_now c < rf_absolute_expires_at f
    /\ db_generations db !! rg_id g = Some g /\ rg_family_id g = family_id
    /\ rg_status g = "current"%string
    /\ rg_token_digest g = vd_value (rt_presented_token c)
    /\ rg_token_digest_key_version g = vd_key_version (rt_presented_token c)
    /\ n = rg_generation g + 1
    /\ db_generations db !! rt_successor_generation_id c = None
    /\ db_generations db' = <[rt_successor_generation_id c := successor_row c f u n]>
                              (<[rg_id g := with_consumed (rt_now c) g]> (db_generations db))
    /\ db_families db' = <[family_id := with_next_generation n (rt_now c) f]> (db_families db)
    /\ db_sessions db' = db_sessions db.
Proof.
  intros Hok Hr; destruct (rotate_rows _ _ _ _ _ _ Hok Hr) as (s & f & g & Hs & Hf & Hg & Hfam & Hd & Hv & Ho).
  inversion Ho as [|pj ap u po b r Hcf _ _ _ _ Hw]; subst.
  apply state_conflict_false in Hcf as (Hst & Hact & _ & Hcur & Hexp & _).
  apply rotation_writes_ok in Hw as (_ & Hn & _ & Hc & [event ->] & [= -> -> -> -> ->]).
  destruct (refresh_family_check_true _ (store_family_check _ Hok _ _ Hf)) as (_ & Hp1 & _).
  destruct (refresh_family_check_true _ Hc) as (_ & Hs1 & _); simpl in Hs1; rewrite Hcur in Hs1.
  destruct (i64_add_one _ (conj Hp1 (proj1 (store_family_width _ Hok _ _ Hf))) Hs1) as [Hadd _].
  exists f, g, u; split_and!; try done; [by rewrite Hcur|].
  simpl in Hn; by apply lookup_insert_None in Hn as [? _].
Qed.

(** C3: every refresh family has exactly one current generation, at all times:
    whatever operations of the session, login, handoff and control authorities
    run, with whatever stale routing reads, each family of the store still has a
    current generation, it carries the number the family counts, and every other
    generation of the family is consumed and older. *)
Theorem one_current_generation_per_family (ops : list session_op) (db : Database) :
  world_ok db -> families_current db ->
  world_ok (run_session_ops ops db)
  /\ forall i f, db_families (run_session_ops ops db) !! i = Some f ->
       exists j g,
         db_generations (run_session_ops ops db) !! j = Some g /\ rg_family_id g = i
         /\ rg_status g = "current"%string /\ rg_generation g = rf_current_generation f
         /\ forall k h, db_generations (run_session_ops ops db) !! k = Some h ->
              rg_family_id h = i -> k <> j ->
              rg_status h = "consumed"%string /\ rg_generation h < rg_generation g.
Proof.
  intros Hw Hc; destruct (session_ops_keep ops db Hw) as [Hw' _]; split; [done|].
  intros i f Hf.
  destruct (current_is_newest _ _ _ (world_store _ Hw') (ops_current ops db Hw Hc) Hf)
    as (j & g & (Hj & Hi & Hs) & Hn & Hall).
  by exists j, g.
Qed.

(** A consumed token is answered, by either step of a refresh, with a replay. *)
Lemma consumed_token_replays db i g :
  store_ok db -> db_generations db !! i = Some g -> rg_status g = "consumed"%string ->
  (forall gs fs c db' r, rg_token_digest g = vd_value (rt_presented_token c) ->
     rg_token_digest_key_version g = vd_key_version (rt_presented_token c) ->
     rotate_refresh_token gs fs c db = (db', Ok r) -> r = ReplayRevoked (rg_family_id g))
  /\ (forall nonce gs fs c db' r, rg_token_digest g = vd_value (pr_presented_token c) ->
     rg_token_digest_key_version g = vd_key_version (pr_presented_token c) ->
     prepare_refresh_rotation nonce gs fs c db = (db', Ok r) ->
     r = Prep.ReplayRevoked (rg_family_id g)).
Proof.
  intros Hok Hg Hst; split.
  - intros gs fs c db' r Hd Hv Hr.
    destruct (rotate_rows _ _ _ _ _ _ Hok Hr) as (s & f & g2 & _ & Hf & Hg2 & Hfam & Hd2 & Hv2 & Ho).
    destruct (token_row_unique _ _ _ g g2 (rt_presented_token c) Hok Hg Hg2) as [_ <-]; try done.
    destruct Ho as [_ _|? ? ? ? ? ? Hcf]; [f_equal; congruence|].
    apply state_conflict_false in Hcf as [Hcur _]; by rewrite Hst in Hcur.
  - intros nonce gs fs c db' r Hd Hv Hr.
    destruct (prepare_rows _ _ _ _ _ _ _ Hok Hr) as (s & f & g2 & _ & Hf & Hg2 & Hfam & Hd2 & Hv2 & Ho).
    destruct (token_row_unique _ _ _ g g2 (pr_presented_token c) Hok Hg Hg2) as [_ <-]; try done.
    destruct Ho as [_ _|? ? ? ? ? ? ? ? ? ? Hcf]; [f_equal; congruence|].
    apply preparation_conflict_false in Hcf as [Hcur _]; by rewrite Hst in Hcur.
Qed.

(** C1: a refresh token rotates at most once: after it has been exchanged, and
    after any number of other operations, presenting it again, to preparation or
    to rotation, never yields another token; it is reported as a replay of its
    family. *)
Theorem refresh_token_single_use gs fs c db db1 user_id session_id family_id n expires ops :
  world_ok db ->
  rotate_refresh_token gs fs c db = (db1, Ok (Rotated user_id session_id family_id n expires)) ->
  (forall gs' fs' c' db2 r,
     rt_presented_token c' = rt_presented_token c ->
     rotate_refresh_token gs' fs' c' (run_session_ops ops db1) = (db2, Ok r) ->
     r = ReplayRevoked family_id)
  /\ (forall nonce gs' fs' c' db2 r,
     pr_presented_token c' = rt_presented_token c ->
     prepare_refresh_rotation nonce gs' fs' c' (run_session_ops ops db1) = (db2, Ok r) ->
     r = Prep.ReplayRevoked family_id).
Proof.
  intros Hw0 Hr; pose proof (world_store _ Hw0) as Hok.
  destruct (rotate_effect _ _ _ _ _ _ Hr Hw0) as [Hok1 _].
  destruct (session_ops_keep ops db1 Hok1) as [[Hok2 _] [Hev _]].
  destruct (rotate_rows _ _ _ _ _ _ Hok Hr) as (s & f & g & Hs & Hf & Hg & Hfam & Hd & Hv & Ho).
  inversion Ho as [|pj ap u po b r0 Hcf _ _ _ _ Hw]; subst r0.
  apply rotation_writes_ok in Hw as (_ & Hn & _ & _ & [event ->] & [= -> -> -> -> ->]).
  assert (db_generations (rotated_db c f g u event db) !! rg_id g = Some (with_consumed (rt_now c) g))
    as Hg1.
  { simpl in *; apply lookup_insert_None in Hn as [_ Hne].
    by rewrite lookup_insert_ne, lookup_insert_eq by done. }
  destruct (ev_generation _ _ Hev _ _ Hg1) as (g' & Hg' & (Hd' & Hv' & Hf') & Hst').
  simpl in Hd', Hv', Hf'; rewrite <- Hfam, <- Hf'.
  destruct (consumed_token_replays _ _ _ Hok2 Hg' (Hst' eq_refl)) as [Hrot Hprep]; split.
  - intros gs' fs' c' db2 r Htok; apply Hrot; rewrite Htok; congruence.
  - intros nonce gs' fs' c' db2 r Htok; apply Hprep; rewrite Htok; congruence.
Qed.

(** C2: presenting a consumed token revokes its family for good: a call that
    succeeds reports the replay and leaves the family inactive, and no rotation
    of that family ever succeeds afterwards. *)
Theorem replay_revokes_family gs fs c db db' r i g :
  world_ok db -> db_generations db !! i = Some g -> rg_status g = "consumed"%string ->
  rg_token_digest g = vd_value (rt_presented_token c) ->
  rg_token_digest_key_version g = vd_key_version (rt_presented_token c) ->
  rotate_refresh_token gs fs c db = (db', Ok r) ->
  r = ReplayRevoked (rg_family_id g)
  /\ forall ops gs' fs' c' db2 u s family_id n e,
       rotate_refresh_token gs' fs' c' (run_session_ops ops db')
       = (db2, Ok (Rotated u s family_id n e)) -> family_id <> rg_family_id g.
Proof.
  intros Hw0 Hg Hst Hd Hv Hr; pose proof (world_store _ Hw0) as Hok.
  destruct (rotate_effect _ _ _ _ _ _ Hr Hw0) as [Hok1 _].
  destruct (rotate_rows _ _ _ _ _ _ Hok Hr) as (s & f & g2 & _ & Hf & Hg2 & Hfam & Hd2 & Hv2 & Ho).
  destruct (token_row_unique _ _ _ g g2 (rt_presented_token c) Hok Hg Hg2) as [_ <-]; try done.
  destruct Ho as [_ Hrep|? ? ? ? ? ? Hcf].
  2: { apply state_conflict_false in Hcf as [Hcur _]; by rewrite Hst in Hcur. }
  rewrite Hfam; split; [done|]; intros ops gs' fs' c' db2 u s' fid n e Hr' ->.
  destruct (replay_effects _ _ _ _ _ _ _ Hok Hg Hf Hrep) as (_ & _ & f' & Hf' & Hna).
  destruct (session_ops_keep ops db' Hok1) as [[Hok2 _] [Hev _]].
  destruct (ev_family _ _ Hev _ _ Hf') as (f'' & Hf'' & _ & Hna2).
  destruct (rotate_rows _ _ _ _ _ _ Hok2 Hr') as (s3 & f3 & g3 & _ & Hf3 & _ & _ & _ & _ & Ho3).
  inversion Ho3 as [|? ? ? ? ? ? Hcf3 _ _ _ _ Hw3]; subst.
  apply rotation_writes_ok in Hw3 as (_ & _ & _ & _ & _ & [= _ _ Hid _ _]).
  apply state_conflict_false in Hcf3 as (_ & Hact & _); apply Hna2; [done|].
  rewrite Hid in Hf''; congruence.
Qed.

(** reuse is always detected: in a store with the token's rows present, a
    call with a consumed token does not fail but succeeds as a replay, whatever
    preparation it carries (given room in the family's revision counter). *)
Theorem replay_is_detected c db s f g :
  store_ok db -> token_rows c db s f g -> rg_status g = "consumed"%string ->
  rf_family_revision f < i64_max ->
  exists db', rotate_refresh_token db db c db = (db', Ok (ReplayRevoked (rf_id f))).
Proof.
  intros Hok Hrows Hst Hmax.
  destruct (rotate_reaches _ _ _ _ _ Hok Hrows) as (-> & Hl & Hd); destruct Hrows.
  destruct (replay_run g f (rt_project_id c) (rt_now c) db _ Hok tr_generation0 tr_family0 Hst Hmax)
    as [db' Hrep].
  exists db'; apply transaction_ok; unfold rotate_locked, mseq at 1, mget.
  unfold mseq at 1, mlift; rewrite Hl, Hd, bool_decide_true by done; simpl.
  unfold mseq; by rewrite Hrep.
Qed.

(** When the guards hold for the current token of an active family and the
    successor token is new, the constraints of the store accept every statement
    of the rotation. *)
Lemma rotation_accepted c db s f g project application u policy binding :
  store_ok db -> token_rows c db s f g ->
  rotation_state_conflict c s f g = false ->
  rotation_owners db c s = Ok (project, application, u, policy) ->
  rotation_binding db c s u = Ok binding -> rotation_projection db c u binding = Ok tt ->
  rotation_browser db c s project u policy = Ok tt ->
  lock_signing_epoch (rt_project_id c) (rp_signing_ring_id (rt_preparation c))
    (rp_signing_key_id (rt_preparation c)) (rp_signing_epoch (rt_preparation c)) (rt_now c) db
  = (db, Ok tt) ->
  rf_user_id f = us_id u -> fresh_token (rt_successor_token c) db ->
  db_generations db !! rt_successor_generation_id c = None ->
  rf_current_generation f < i64_max -> rf_family_revision f < i64_max ->
  exists db', rotate_refresh_token db db c db
    = (db', Ok (Rotated (us_id u) (as_id s) (rf_id f) (rg_generation g + 1)
                  (rf_absolute_expires_at f))).
Proof.
  intros Hok Hrows Hcf Ho Hb Hp Hbr Hl Hu Hfresh Hnew Hm1 Hm2.
  destruct (rotate_reaches _ _ _ _ _ Hok Hrows) as (-> & Hlr & Hd).
  pose proof Hrows as [Hg Hf _ Hfl _ (_ & Hpf & _) (_ & Haf & _) _ _].
  destruct (rotation_writes_run db _ c s f g u Hok Hg Hf Hfl Hcf Hm1 Hm2 Hpf Haf Hu Hfresh Hnew)
    as [event Hw].
  exists (rotated_db c f g u event db); apply transaction_ok.
  unfold rotate_locked, mseq at 1, mget; unfold mseq at 1, mlift at 1; rewrite Hlr, Hd; simpl.
  pose proof (state_conflict_false _ _ _ _ Hcf) as [Hst _].
  rewrite bool_decide_false, Hcf by (by rewrite Hst).
  unfold mseq at 1, mlift at 1; rewrite Ho; unfold mseq at 1, mlift at 1; rewrite Hb.
  unfold mseq at 1, mlift at 1; rewrite Hp; unfold mseq at 1, mlift at 1; rewrite Hbr.
  unfold mseq; rewrite Hl; exact Hw.
Qed.

(** C4: a refresh that was prepared goes through: if preparation succeeded, then
    rotation with the preparation it returned, at any time before the session,
    the token or the browser session expires and with a new successor token,
    commits and reports exactly the prepared user, session and family with the
    next generation.  Preparation checks everything rotation will check, its
    projection repair leaves the row rotation accepts, and every write passes
    the constraints of the store. *)
Theorem prepared_rotation_commits `{!ProjectionCryptographyLaws} nonce gs fs pc db db1 p c :
  store_ok db -> evolves fs db ->
  prepare_refresh_rotation nonce gs fs pc db = (db1, Ok (Prep.Ready p)) ->
  follows pc p c ->
  (forall s i b, db_sessions db !! rp_application_session_id p = Some s ->
     as_browser_session_id s = Some i -> db_browsers db !! i = Some b ->
     rt_now c < bs_idle_expires_at b /\ rt_now c < bs_absolute_expires_at b) ->
  fresh_token (rt_successor_token c) db ->
  db_generations db !! rt_successor_generation_id c = None ->
  rp_generation p < i64_max -> rp_family_revision p < i64_max ->
  exists db2, rotate_refresh_token db1 db1 c db1
    = (db2, Ok (Rotated (rp_user_id p) (rp_application_session_id p) (rp_family_id p)
                  (rp_generation p + 1) (rp_absolute_expires_at p))).
Proof.
  intros Hok Hev Hr Hfl Hbr Hfresh Hnew Hm1 Hm2; pose proof Hfresh as (_ & Hv & _).
  destruct (prepare_keeps _ _ _ _ _ _ _ Hok Hr) as [Hok1 _].
  destruct (rows_carry _ _ _ _ _ _ _ _ Hok Hev Hr Hfl Hv) as (s & f & g & Hrows & Ho).
  inversion Ho as [|pj ap u po b x row m sg lt Hst Hown Hbs Hb Hx Hrep Hsg Hlt]; subst p.
  destruct (guards_carry _ _ _ _ _ _ _ _ _ _ _ _ _ _ _ _ _ sg lt Hok Hok1 Hfl Hrows Hown Hb Hx Hrep
              eq_refl) as (Hproj & Huser & t & ->).
  pose proof Hfl as [Hp Ha _ Hpr Hle Hexp]; rewrite <- Hp, <- Ha in *; simpl in Hexp, Hm1, Hm2, Hbr.
  pose proof (state_later _ _ _ _ _ Hst Hexp) as Hst'.
  destruct (preparation_conflict_false _ _ _ _ Hst) as (_ & _ & _ & Hcur & _).
  pose proof Hrows as [Hg Hf Hs].
  destruct (signing_carries _ c _ _ _ _ _ _ _ _ _ _ _ _ Hok1 Hsg Hle Hpr) as [_ Hlock].
  apply (rotation_accepted c (set_db_projections t db) s f g pj ap u po b); try done.
  - by eapply state_carries.
  - by eapply owners_carry.
  - by eapply binding_carries.
  - eapply browser_later; [exact Hbs|]; intros i br Hi Hb'; by apply (Hbr s i br Hs).
  - by rewrite <- Hcur.
Qed.

(** C5: logout ends the session: afterwards the session stays inactive and no
    rotation succeeds for the refresh family of that session, whatever runs in
    between. *)
Theorem logout_ends_refresh c db db' ops :
  world_ok db -> logout_application_session c db = (db', Ok tt) ->
  (exists s, db_sessions (run_session_ops ops db') !! lo_application_session_id c = Some s
             /\ as_status s <> "active"%string)
  /\ forall gs fs c' db2 u s family_id n e f,
       rotate_refresh_token gs fs c' (run_session_ops ops db')
       = (db2, Ok (Rotated u s family_id n e)) ->
       db_families (run_session_ops ops db') !! family_id = Some f ->
       rf_project_id f = lo_project_id c ->
       rf_application_session_id f <> lo_application_session_id c.
Proof.
  intros Hw0 Hl; destruct (logout_effects _ _ _ (world_store _ Hw0) Hl)
    as (_ & _ & (s1 & Hs1 & Hns) & (i & f1 & Hf1 & Hfp & Hfs & Hnf)).
  destruct (logout_effect _ _ _ _ Hl Hw0) as [Hok1 _].
  destruct (session_ops_keep ops db' Hok1) as [[Hok2 _] [Hev _]]; split.
  { destruct (ev_session _ _ Hev _ _ Hs1) as (s2 & Hs2 & _ & Hns2); eauto. }
  intros gs fs c' db2 u s fid n e f Hr Hf Hp Hsess.
  destruct (ev_family _ _ Hev _ _ Hf1) as (f2 & Hf2 & (_ & Hp2 & _ & _ & Hs2) & Hnf2).
  assert (i = fid) as -> by (apply (store_family_session _ Hok2 i fid f2 f Hf2 Hf); congruence).
  assert (f2 = f) as -> by congruence.
  destruct (rotate_rows _ _ _ _ _ _ Hok2 Hr) as (s3 & f3 & g3 & _ & Hf3 & _ & _ & _ & _ & Ho3).
  inversion Ho3 as [|? ? ? ? ? ? Hcf3 _ _ _ _ Hw3]; subst.
  apply rotation_writes_ok in Hw3 as (_ & _ & _ & _ & _ & [= _ _ Hid _ _]).
  apply state_conflict_false in Hcf3 as (_ & Hact & _); apply Hnf2; [done|].
  rewrite Hid in Hf; congruence.
Qed.

(** every failure of a preparation, a rotation or a logout, at whatever
    point, leaves the whole store as it was. *)
Theorem session_failures_roll_back nonce gs fs pc c lc db :
  (forall db' e, prepare_refresh_rotation nonce gs fs pc db = (db', Err e) -> db' = db)
  /\ (forall db' e, rotate_refresh_token gs fs c db = (db', Err e) -> db' = db)
  /\ (forall db' e, logout_application_session lc db = (db', Err e) -> db' = db).
Proof. split_and!; intros db' e; [apply prepare_err | apply rotate_err | apply logout_err]. Qed.
End claims.

(** ** A worked store: one session behind a browser, its refresh token, and a
    projection that is behind the user *)
Definition sample_expiry : Z := seconds (30 * 24 * 3600).
Definition sample_token (n : Z) : VersionedDigest := mkVersionedDigest (repeat n 32) 1.

Definition sample_session : ApplicationSessionRow :=
  mkApplicationSessionRow 8 1 2 3 6 (Some 12) "active" 1 1 1 1 1 1 0 sample_expiry None 0 0.
Definition sample_family : RefreshFamilyRow :=
  mkRefreshFamilyRow 9 1 2 3 8 "active" 1 1 60 sample_expiry None None 0 0.
Definition sample_generation : RefreshGenerationRow :=
  mkRefreshGenerationRow 10 1 9 2 3 1 (repeat 7 32) 1 "current" None None
    (sample_expiry + seconds 60) 0.
Definition sample_browser : BrowserSessionRow :=
  mkBrowserSessionRow 12 1 3 (repeat 5 32) 1 "active" 1 1 1 1 0 0 (seconds (8 * 3600))
    (seconds (24 * 3600)) None 0 0.
Definition sample_project : ProjectRow :=
  mkProjectRow 1 "prj_12345678" None "Demo" "active" 1 1 None 0 0.
Definition sample_application : ApplicationRow :=
  mkApplicationRow 2 1 "app_12345678" "Web" "web" "active" 1 1 1 0 0.
Definition sample_policy : PolicyRow :=
  mkPolicyRow 1 1 1 (JObject [("access_token_lifetime_seconds"%string, JInt 600)]) (JObject []).
Definition sample_ring : KeyRingRow :=
  mkKeyRingRow 4 1 "https://id.example" "application_tokens" "EdDSA" 1 1.
Definition sample_key : SigningKeyRow :=
  mkSigningKeyRow 5 1 4 "kid" JNull 50 1 "active" 1 None None (Some 0) (Some 0) None None None None
    None 0 0.

Definition stale_db : Database :=
  {| db_projects := {[1 := sample_project]};
     db_applications := {[2 := sample_application]};
     db_users := {[3 := sample_user]};
     db_policies := {[1 := sample_policy]};
     db_rings := {[4 := sample_ring]};
     db_keys := {[5 := sample_key]};
     db_browsers := {[12 := sample_browser]};
     db_bindings := {[6 := sample_user_binding]};
     db_projections := {[7 := sample_projection]};
     db_sessions := {[8 := sample_session]};
     db_families := {[9 := sample_family]};
     db_generations := {[10 := sample_generation]};
     db_logouts := ∅;
     db_email_identities := {[20 := mkEmailIdentityRow 1 3 "active" (repeat 0 41) 1 (Some 0) 1 1 0 0]};
     db_login := no_login_rows; db_webhook := no_webhook_rows;
     db_audit := [] |}.

Definition sample_prepare : PrepareRefreshRotation :=
  mkPrepareRefreshRotation 1 2 (sample_token 7) (seconds 4).
Definition sample_prepared : Database * result ApplicationError Prep.RefreshPreparationResult :=
  Eval vm_compute in prepare_refresh_rotation [] stale_db stale_db sample_prepare stale_db.
(** The store after preparation repaired the projection. *)
Definition sample_db : Database := sample_prepared.1.

Definition sample_preparation : RefreshPreparation :=
  Eval vm_compute in
    match sample_prepared.2 with
    | Ok (Prep.Ready p) => p
    | _ => mkRefreshPreparation 0 0 "" "" "" 0 0 0 0 0 0 0 "" 0 0 0 JNull 0 0 "" JNull 0 0 0 0 0
    end.
Definition sample_rotate : RotateRefreshToken :=
  mkRotateRefreshToken 1 2 (sample_token 7) sample_preparation 11 (sample_token 8) (seconds 5).
(** The same token again, later. *)
Definition sample_reuse : RotateRefreshToken :=
  mkRotateRefreshToken 1 2 (sample_token 7) sample_preparation 12 (sample_token 9) (seconds 6).
Definition sample_logout : LogoutApplicationSession :=
  mkLogoutApplicationSession 1 2 3 8 (seconds 7).

Definition sample_rotated_db : Database := (rotate_refresh_token sample_db sample_db sample_rotate sample_db).1.

(** Reduce a goal on all rows of one-row tables to the row. *)
Ltac only_row :=
  unfold keyed, conflict_free; intros;
  repeat match goal with
  | Hl : {[_ := _]} !! _ = Some _ |- _ => apply lookup_singleton_Some in Hl as [<- <-]
  | Hl : {[_ := _]} !! _ = Some _ |- _ => apply lookup_singleton_Some in Hl as [_ <-]
  | Hl : ∅ !! _ = Some _ |- _ => by rewrite lookup_empty in Hl
  end.

Lemma stale_db_ok : store_ok stale_db.
Proof.
  constructor; simpl; try (only_row; done); try (only_row; vm_compute; by repeat split).
  - constructor; only_row; done.
  - constructor; only_row; try done; by eexists.
  - constructor; simpl; only_row; try done; vm_compute; reflexivity.
  - only_row; by exists sample_session.
Qed.

Lemma sample_preparation_run :
  prepare_refresh_rotation [] stale_db stale_db sample_prepare stale_db
  = (sample_db, Ok (Prep.Ready sample_preparation)).
Proof. vm_compute; reflexivity. Qed.

Lemma sample_db_ok : store_ok sample_db.
Proof. eapply prepare_keeps; [apply stale_db_ok | apply sample_preparation_run]. Qed.

Lemma sample_rotation :
  rotate_refresh_token sample_db sample_db sample_rotate sample_db
  = (sample_rotated_db, Ok (Rotated 3 8 9 2 sample_expiry)).
Proof. vm_compute; reflexivity. Qed.

Lemma sample_rotated_ok : store_ok sample_rotated_db.
Proof. eapply rotate_keeps; [apply sample_db_ok | apply sample_rotation]. Qed.

Lemma sample_db_world : world_ok sample_db.
Proof. split; [apply sample_db_ok|by apply no_logins_ok]. Qed.
Lemma stale_db_current : families_current stale_db.
Proof.
  intros i f Hi. cbn in Hi. apply lookup_singleton_Some in Hi as [<- <-].
  by exists (rg_id sample_generation), sample_generation.
Qed.
Lemma sample_db_current : families_current sample_db.
Proof.
  pose proof (prepare_current [] stale_db stale_db sample_prepare stale_db stale_db_ok) as Hc.
  rewrite sample_preparation_run in Hc. exact (Hc stale_db_current).
Qed.
Lemma sample_rotated_world : world_ok sample_rotated_db.
Proof. split; [apply sample_rotated_ok|by apply no_logins_ok]. Qed.

Lemma sample_rows : token_rows sample_rotate sample_db sample_session sample_family sample_generation.
Proof. constructor; repeat split; vm_compute; reflexivity. Qed.

Lemma rotation_replaces_current_generation_witness :
  exists f, db_families sample_db !! 9 = Some f /\ rf_status f = "active"%string.
Proof.
  destruct (rotation_replaces_current_generation sample_db sample_db sample_rotate sample_db
              sample_rotated_db 3 8 9 2 sample_expiry sample_db_ok sample_rotation)
    as (f & _ & _ & Hf & Hst & _).
  exists f; split; [exact Hf | exact Hst].
Defined.

Lemma one_current_generation_per_family_witness :
  exists j g, db_generations (run_session_ops
    [RotateOp sample_db sample_db sample_rotate; LogoutOp sample_logout] sample_db) !! j = Some g
    /\ rg_status g = "current"%string /\ rg_generation g = 2.
Proof.
  destruct (one_current_generation_per_family
              [RotateOp sample_db sample_db sample_rotate; LogoutOp sample_logout] sample_db
              sample_db_world sample_db_current) as [_ Hone].
  destruct (db_families (run_session_ops
    [RotateOp sample_db sample_db sample_rotate; LogoutOp sample_logout] sample_db) !! 9)
    as [f|] eqn:Hf; [|exfalso; vm_compute in Hf; discriminate].
  destruct (Hone 9 f Hf) as (j & g & Hj & _ & Hs & Hn & _).
  exists j, g; split; [exact Hj|]; split; [exact Hs|].
  rewrite Hn; vm_compute in Hf; injection Hf as <-; reflexivity.
Defined.

Lemma refresh_token_single_use_witness :
  (rotate_refresh_token sample_db sample_db sample_reuse sample_rotated_db).2
  = Ok (ReplayRevoked 9)
  /\ (prepare_refresh_rotation [] sample_db sample_db sample_prepare sample_rotated_db).2
     = Ok (Prep.ReplayRevoked 9).
Proof.
  destruct (refresh_token_single_use sample_db sample_db sample_rotate sample_db sample_rotated_db
              3 8 9 2 sample_expiry [] sample_db_world sample_rotation) as [Hrot Hprep].
  destruct (rotate_refresh_token sample_db sample_db sample_reuse sample_rotated_db) as [d r] eqn:Hr.
  destruct (prepare_refresh_rotation [] sample_db sample_db sample_prepare sample_rotated_db)
    as [d' r'] eqn:Hp.
  assert (exists x, r = Ok x) as [x ->].
  { revert Hr; vm_compute; intros [= _ <-]; eexists; reflexivity. }
  assert (exists x, r' = Ok x) as [x' ->].
  { revert Hp; vm_compute; intros [= _ <-]; eexists; reflexivity. }
  split; simpl; f_equal; [exact (Hrot sample_db sample_db sample_reuse d x eq_refl Hr)
                         |exact (Hprep [] sample_db sample_db sample_prepare d' x' eq_refl Hp)].
Defined.

Lemma replay_revokes_family_witness :
  exists x, (rotate_refresh_token sample_db sample_db sample_reuse sample_rotated_db).2 = Ok x
            /\ x = ReplayRevoked 9.
Proof.
  destruct (rotate_refresh_token sample_db sample_db sample_reuse sample_rotated_db) as [d r] eqn:Hr.
  assert (exists x, r = Ok x) as [x ->].
  { revert Hr; vm_compute; intros [= _ <-]; eexists; reflexivity. }
  exists x; split; [reflexivity|].
  apply (replay_revokes_family sample_db sample_db sample_reuse sample_rotated_db d x 10
           (with_consumed (seconds 5) sample_generation) sample_rotated_world);
    [vm_compute; reflexivity | reflexivity | reflexivity | reflexivity | exact Hr].
Defined.

Lemma replay_is_detected_witness :
  exists d, rotate_refresh_token sample_rotated_db sample_rotated_db sample_reuse sample_rotated_db
            = (d, Ok (ReplayRevoked 9)).
Proof.
  apply (replay_is_detected sample_reuse sample_rotated_db sample_session
           (with_next_generation 2 (seconds 5) sample_family)
           (with_consumed (seconds 5) sample_generation) sample_rotated_ok);
    [constructor; repeat split; vm_compute; reflexivity | reflexivity | vm_compute; reflexivity].
Defined.

Lemma prepared_rotation_commits_witness :
  exists d, rotate_refresh_token sample_db sample_db sample_rotate sample_db
            = (d, Ok (Rotated 3 8 9 2 sample_expiry)).
Proof.
  apply (prepared_rotation_commits [] stale_db stale_db sample_prepare stale_db sample_db
           sample_preparation sample_rotate stale_db_ok (evolves_preorder.(PreOrder_Reflexive) stale_db)
           sample_preparation_run).
  - constructor; vm_compute; congruence.
  - intros s i b Hs Hi Hb; vm_compute in Hs; injection Hs as <-; injection Hi as <-.
    vm_compute in Hb; injection Hb as <-; vm_compute; split; reflexivity.
  - split; [reflexivity|]; split; [vm_compute; reflexivity|].
    intros i h Hl [_ Hd]; change (({[10 := sample_generation]} : gmap Z RefreshGenerationRow) !! i = Some h) in Hl.
    apply lookup_singleton_Some in Hl as [_ <-]; discriminate Hd.
  - vm_compute; reflexivity.
  - vm_compute; reflexivity.
  - vm_compute; reflexivity.
Defined.

Lemma logout_ends_refresh_witness :
  exists s, db_sessions (logout_application_session sample_logout sample_db).1 !! 8 = Some s
            /\ as_status s <> "active"%string.
Proof.
  apply (logout_ends_refresh sample_logout sample_db
           (logout_application_session sample_logout sample_db).1 [] sample_db_world).
  vm_compute; reflexivity.
Defined.
