(* ===== verification/BrowserLogoutProofs.v ===== *)
(** * Browser logout: theorems

    Confirming a browser logout takes the browser's own credential and the CSRF
    token that credential bound before; it works once, and afterwards no refresh
    of an application session behind that browser succeeds.  A failed call
    changes nothing, unless it finds the request overdue and marks it expired. *)
From S2P Require Import Prelude.
From S2P Require Import UrlValues.
From S2P Require Import Json.
From S2P Require Import Database.
From S2P Require Import Projection.
From S2P Require Import ProjectionProofs.
From S2P Require Import SessionAuthority.
From S2P Require Import BrowserLogout.
From S2P Require Import SessionStore.
From S2P Require Import SessionEffects.
From S2P Require Import LoginStore.
From S2P Require Import WebhookOutbox.
From S2P Require Import Login.
From S2P Require Import Handoff.
From S2P Require Import LoginHistory.
From S2P Require Import Frames.
From S2P Require Import LoginEffects.
From S2P Require Import HandoffEffects.
From S2P Require Import ControlLifecycle.
From S2P Require Import ControlEffects.
From S2P Require Import SessionOps.
From S2P Require Import SessionAuthorityProofs.

(** ** Successful calls *)
(** What a successful binding read and wrote. *)
Lemma bind_ok snapshot c db db' r :
  store_ok db -> bind_browser_logout snapshot c db = (db', Ok r) ->
  exists i b event,
    db_logouts db !! bl_id i = Some i
    /\ bl_preparation_digest i = vd_value (bb_preparation c)
    /\ bl_preparation_digest_key_version i = vd_key_version (bb_preparation c)
    /\ bl_status i = "prepared"%string
    /\ bl_interaction_revision i = bb_expected_interaction_revision c
    /\ bb_now c < bl_expires_at i
    /\ logout_browser db i (bb_browser_credential c) (bb_now c) = Ok b
    /\ r = browser_logout_record (logout_bound (bb_csrf c) (bb_now c) i)
    /\ db' = set_db_audit (db_audit db ++ [event])
               (set_db_logouts (<[bl_id i := logout_bound (bb_csrf c) (bb_now c) i]> (db_logouts db)) db).
Proof.
  intros Hok Hb; unfold bind_browser_logout in Hb; inv_txn.
  unfold bind_locked in Hb; apply mseq_ok in Hb as (d & a & Hget & Hb).
  unfold mget in Hget; injection Hget as <- <-.
  apply mseq_ok in Hb as (d & i & Hi & Hb); apply mlift_ok in Hi as [Hi ->].
  apply ok_or_ok in Hi; apply (locked_logout_ok _ _ _ _ Hok) in Hi as (_ & Hi & Hd & Hv).
  destruct (_ <=? _) eqn:Hexp; [by apply mseq_ok in Hb as (? & ? & _ & [=])|].
  apply if_mfail_ok in Hb as [Hg Hb]; bool_prop; destruct Hg as [Hst Hrev].
  apply mseq_ok in Hb as (d & b & Hl & Hb); apply mlift_ok in Hl as [Hl ->]; cbv zeta in Hb.
  inv_txn; do 3 eexists; split_and!; try done; lia.
Qed.

(** What a successful confirmation read and wrote. *)
Lemma confirm_ok snapshot c db db' r :
  store_ok db -> confirm_browser_logout snapshot c db = (db', Ok r) ->
  exists i b event,
    db_logouts db !! bl_id i = Some i
    /\ bl_preparation_digest i = vd_value (cb_preparation c)
    /\ bl_preparation_digest_key_version i = vd_key_version (cb_preparation c)
    /\ bl_status i = "csrf_bound"%string
    /\ bl_csrf_digest i = Some (vd_value (cb_csrf c))
    /\ bl_csrf_digest_key_version i = Some (vd_key_version (cb_csrf c))
    /\ logout_browser db i (cb_browser_credential c) (cb_now c) = Ok b
    /\ r = browser_logout_record (logout_consumed (cb_now c) i)
    /\ db' = set_db_audit (db_audit db ++ [event])
               (set_db_logouts (<[bl_id i := logout_consumed (cb_now c) i]> (db_logouts db))
                 (set_db_browsers (<[bs_id b := browser_terminated (cb_now c) b]> (db_browsers db)) db)).
Proof.
  intros Hok Hb; unfold confirm_browser_logout in Hb; inv_txn.
  unfold confirm_locked in Hb; apply mseq_ok in Hb as (d & a & Hget & Hb).
  unfold mget in Hget; injection Hget as <- <-.
  apply mseq_ok in Hb as (d & i & Hi & Hb); apply mlift_ok in Hi as [Hi ->].
  apply ok_or_ok in Hi; apply (locked_logout_ok _ _ _ _ Hok) in Hi as (_ & Hi & Hd & Hv).
  destruct (_ <=? _) eqn:Hexp; [by apply mseq_ok in Hb as (? & ? & _ & [=])|].
  apply if_mfail_ok in Hb as [Hg Hb]; rewrite !orb_false_iff, !negb_false_iff in Hg.
  destruct Hg as [[Hst _] Hcs]; apply bool_decide_eq_true in Hst.
  apply optional_digest_matches_true in Hcs as [Hc1 Hc2].
  apply mseq_ok in Hb as (d & b & Hl & Hb); apply mlift_ok in Hl as [Hl ->]; cbv zeta in Hb.
  inv_txn; do 3 eexists; split_and!; try done.
Qed.

(** ** Failed calls *)
(** The store in which an overdue request was marked expired. *)
Definition expired_db (i : BrowserLogoutRow) (now : OffsetDateTime) (event : AuditEventRow)
    (db : Database) : Database :=
  set_db_audit (db_audit db ++ [event])
    (set_db_logouts (<[bl_id i := logout_expired now i]> (db_logouts db)) db).

Definition marks_overdue (preparation : VersionedDigest) (now : OffsetDateTime) (db db' : Database) :
    Prop :=
  exists i event, db_logouts db !! bl_id i = Some i
    /\ bl_preparation_digest i = vd_value preparation
    /\ bl_preparation_digest_key_version i = vd_key_version preparation
    /\ (bl_status i = "prepared"%string \/ bl_status i = "csrf_bound"%string)
    /\ bl_expires_at i <= now /\ db' = expired_db i now event db.

Lemma expire_effect i now db db' b preparation :
  db_logouts db !! bl_id i = Some i -> bl_preparation_digest i = vd_value preparation ->
  bl_preparation_digest_key_version i = vd_key_version preparation -> bl_expires_at i <= now ->
  expire_browser_logout i now db = (db', Ok b) ->
  db' = db \/ marks_overdue preparation now db db'.
Proof.
  unfold expire_browser_logout; intros Hi Hd Hv Hle; destruct (negb _) eqn:Hst; intros He.
  { unfold mret in He; injection He as <- <-; by left. }
  inv_txn; right; exists i; eexists; split_and!; try done.
  apply negb_false_iff, orb_true_iff in Hst; rewrite !bool_decide_eq_true in Hst; done.
Qed.

Lemma bind_failed snapshot c db db' e :
  store_ok db -> bind_browser_logout snapshot c db = (db', Err e) ->
  db' = db \/ marks_overdue (bb_preparation c) (bb_now c) db db'.
Proof.
  intros Hok; unfold bind_browser_logout, mseq, mlift.
  do 3 (destruct (validate_digest _) as [[]|]; [|intros [= <- <-]; by left]).
  destruct (ok_or _ _) as [routed|]; [|intros [= <- <-]; by left].
  intros [-> | Hb]%committed_effect; [by left|]; unfold bind_locked in Hb.
  apply mseq_ok in Hb as (d & a & Hget & Hb); unfold mget in Hget; injection Hget as <- <-.
  apply mseq_ok in Hb as (d & i & Hi & Hb); apply mlift_ok in Hi as [Hi ->].
  apply ok_or_ok in Hi; apply (locked_logout_ok _ _ _ _ Hok) in Hi as (_ & Hi & Hd & Hv).
  destruct (_ <=? _) eqn:Hexp.
  { apply Z.leb_le in Hexp; apply mseq_ok in Hb as (d & b & He & Hb).
    unfold mret in Hb; injection Hb as <- _; by eapply expire_effect. }
  apply if_mfail_ok in Hb as [_ Hb]; cbv zeta in Hb; inv_txn; discriminate.
Qed.

Lemma confirm_failed snapshot c db db' e :
  store_ok db -> confirm_browser_logout snapshot c db = (db', Err e) ->
  db' = db \/ marks_overdue (cb_preparation c) (cb_now c) db db'.
Proof.
  intros Hok; unfold confirm_browser_logout, mseq, mlift.
  do 3 (destruct (validate_digest _) as [[]|]; [|intros [= <- <-]; by left]).
  destruct (ok_or _ _) as [routed|]; [|intros [= <- <-]; by left].
  intros [-> | Hb]%committed_effect; [by left|]; unfold confirm_locked in Hb.
  apply mseq_ok in Hb as (d & a & Hget & Hb); unfold mget in Hget; injection Hget as <- <-.
  apply mseq_ok in Hb as (d & i & Hi & Hb); apply mlift_ok in Hi as [Hi ->].
  apply ok_or_ok in Hi; apply (locked_logout_ok _ _ _ _ Hok) in Hi as (_ & Hi & Hd & Hv).
  destruct (_ <=? _) eqn:Hexp.
  { apply Z.leb_le in Hexp; apply mseq_ok in Hb as (d & b & He & Hb).
    unfold mret in Hb; injection Hb as <- _; by eapply expire_effect. }
  apply if_mfail_ok in Hb as [_ Hb]; cbv zeta in Hb; inv_txn; discriminate.
Qed.

Lemma overdue_csrf preparation now db db' j l d :
  db' = db \/ marks_overdue preparation now db db' ->
  db_logouts db' !! j = Some l -> bl_csrf_digest l = Some d ->
  exists l0, db_logouts db !! j = Some l0 /\ bl_csrf_digest l0 = Some d.
Proof.
  intros [-> | (i & event & Hi & _ & _ & _ & _ & ->)] Hl Hd; [eauto|].
  simpl in Hl; apply lookup_insert_Some in Hl as [[<- <-]|[_ Hl]]; eauto.
Qed.

(** ** Who binds a CSRF token *)
Lemma replay_logouts g f p now db db' :
  record_refresh_replay g f p now db = (db', Ok tt) -> db_logouts db' = db_logouts db.
Proof.
  unfold record_refresh_replay; intros Hr.
  apply mseq_ok in Hr as (d1 & [] & Hg & Hr); apply mseq_ok in Hr as (d2 & [] & Hf & Ha).
  destruct (is_none _); destruct (bool_decide _); inv_txn; done.
Qed.

Lemma logout_session_logouts c db : db_logouts (logout_application_session c db).1 = db_logouts db.
Proof.
  destruct (logout_application_session c db) as [db' [[]|e]] eqn:Hl; simpl.
  2: { by apply logout_err in Hl as ->. }
  unfold logout_application_session in Hl; inv_txn; simpl.
  repeat match goal with Hi : (if ?b then _ else _) _ = _ |- _ => destruct b end; inv_txn; done.
Qed.

Section origin.
Context `{CanonicalHash} `{ProjectionCryptography} `{UrlLib} `{TimeFormat} `{JsonbText}.

Lemma rotate_logouts gs fs c db : db_logouts (rotate_refresh_token gs fs c db).1 = db_logouts db.
Proof.
  destruct (rotate_refresh_token gs fs c db) as [db' [r|e]] eqn:Hr; simpl.
  2: { by apply rotate_err in Hr as ->. }
  destruct (rotate_ok _ _ _ _ _ _ Hr) as (rg & rf & s & f & g & _ & _ & _ & Ho).
  destruct Ho as [_ Hrep|? ? ? ? ? r _ _ _ _ _ Hw]; [by eapply replay_logouts|].
  by apply rotation_writes_ok in Hw as (_ & _ & _ & _ & [event ->] & _).
Qed.

Lemma prepare_logouts nonce gs fs c db :
  db_logouts (prepare_refresh_rotation nonce gs fs c db).1 = db_logouts db.
Proof.
  destruct (prepare_refresh_rotation nonce gs fs c db) as [db' [r|e]] eqn:Hr; simpl.
  2: { by apply prepare_err in Hr as ->. }
  destruct (prepare_ok _ _ _ _ _ _ _ Hr) as (rg & rf & s & f & g & _ & _ & _ & _ & Ho).
  destruct Ho as [_ Hrep|? ? ? ? ? x row m ? ? _ _ _ _ _ Hp _ _]; [by eapply replay_logouts|].
  apply repair_ok in Hp as [_ Hp]; destruct (pm_storage_repair_required m); naive_solver.
Qed.

(** [l] is a request whose token [bc] bound, holding the browser's credential. *)
Definition bound_by (db : Database) (snapshot : Database) (bc : BindBrowserLogout)
    (l : BrowserLogoutRow) : Prop :=
  (exists db' r, bind_browser_logout snapshot bc db = (db', Ok r))
  /\ bl_preparation_digest l = vd_value (bb_preparation bc)
  /\ bl_preparation_digest_key_version l = vd_key_version (bb_preparation bc)
  /\ bl_csrf_digest l = Some (vd_value (bb_csrf bc))
  /\ bl_csrf_digest_key_version l = Some (vd_key_version (bb_csrf bc))
  /\ exists b, db_browsers db !! bl_browser_session_id l = Some b
       /\ bs_credential_digest b = vd_value (bb_browser_credential bc)
       /\ bs_credential_digest_key_version b = vd_key_version (bb_browser_credential bc).

(** The operations of a login leave the logout requests alone. *)
Definition same_logouts (db0 db1 : Database) : Prop := db_logouts db1 = db_logouts db0.
Instance same_logouts_preorder : PreOrder same_logouts.
Proof. split; [done|]; unfold same_logouts; intros x y z Hxy Hyz; congruence. Qed.

Ltac logouts_statement := intros ? ?; intros; unfold same_logouts; inv_login; done.

Lemma login_logouts db0 {A} (m : txn A) :
  login_tables_ok db0 -> effect login_effect m -> same_logouts db0 (m db0).1.
Proof.
  intros Hok Hm; destruct (m db0) as [db1 r] eqn:Hr.
  by destruct (Hm _ _ _ Hr Hok) as ((t & e & ->) & _).
Qed.

Lemma update_login_logouts db0 row : frame_at same_logouts db0 (update_login row).
Proof. logouts_statement. Qed.
Lemma insert_ticket_logouts db0 row : frame_at same_logouts db0 (insert_ticket row).
Proof. logouts_statement. Qed.
Lemma update_ticket_logouts db0 row : frame_at same_logouts db0 (update_ticket row).
Proof. logouts_statement. Qed.
Lemma update_browser_logouts db0 row : frame_at same_logouts db0 (update_browser row).
Proof. logouts_statement. Qed.
Lemma insert_binding_logouts db0 row : frame_at same_logouts db0 (insert_binding row).
Proof. logouts_statement. Qed.
Lemma insert_projection_logouts db0 row : frame_at same_logouts db0 (insert_projection row).
Proof. logouts_statement. Qed.
Lemma update_projection_logouts db0 row : frame_at same_logouts db0 (update_projection row).
Proof. logouts_statement. Qed.
Lemma insert_session_logouts db0 row : frame_at same_logouts db0 (insert_session row).
Proof. logouts_statement. Qed.
Lemma insert_family_logouts db0 row : frame_at same_logouts db0 (insert_family row).
Proof. logouts_statement. Qed.
Lemma insert_generation_logouts db0 row : frame_at same_logouts db0 (insert_generation row).
Proof. logouts_statement. Qed.
Lemma audit_logouts db0 p x y z t i : frame_at same_logouts db0 (append_runtime_audit p x y z t i).
Proof. logouts_statement. Qed.
Lemma lock_epoch_logouts db0 p r k e now :
  frame_at same_logouts db0 (lock_signing_epoch p r k e now).
Proof. by intros db1 u ->%lock_signing_epoch_ok. Qed.
Lemma insert_event_logouts db0 row : frame_at same_logouts db0 (insert_event row).
Proof. by intros db1 [] (_ & _ & ->)%insert_event_ok. Qed.
Lemma insert_delivery_logouts db0 row : frame_at same_logouts db0 (insert_delivery row).
Proof. by intros db1 [] (_ & _ & ->)%insert_delivery_ok. Qed.
Lemma dispatch_logouts db0 p x : frame_at same_logouts db0 (ensure_dispatch_state p x).
Proof. unfold ensure_dispatch_state; solve_frame; by apply frame_at_modify. Qed.
Hint Resolve update_login_logouts insert_ticket_logouts update_ticket_logouts
  update_browser_logouts insert_binding_logouts insert_projection_logouts
  update_projection_logouts insert_session_logouts insert_family_logouts
  insert_generation_logouts audit_logouts lock_epoch_logouts insert_event_logouts
  insert_delivery_logouts dispatch_logouts : frames.

Lemma enqueue_logouts db0 ids event kind endpoints :
  frame_at same_logouts db0 (enqueue_deliveries ids event kind endpoints).
Proof. revert db0; induction endpoints; intros db0; simpl; solve_frame. Qed.
Hint Resolve enqueue_logouts : frames.

Lemma reuse_logouts snapshot c :
  effect same_logouts (confirm_browser_session_reuse snapshot c).
Proof.
  unfold confirm_browser_session_reuse, reuse_locked, expire_login, insert_handoff; solve_frame.
Qed.

Lemma commit_logouts clock nonces uuid ids c :
  effect same_logouts (commit_handoff_exchange clock nonces uuid ids c).
Proof.
  unfold commit_handoff_exchange, commit_locked, exchange_ticket, bind_user, exchange_projection,
    repair_runtime_projection, append_projection_event, exchange_writes, open_session; solve_frame.
Qed.

Lemma update_user_logouts db0 u : frame_at same_logouts db0 (update_user u).
Proof. by intros db1 [] (_ & _ & _ & ->)%update_user_ok. Qed.
Lemma update_session_logouts db0 row : frame_at same_logouts db0 (update_session row).
Proof. logouts_statement. Qed.
Lemma repair_logouts db0 nonce x app u now :
  frame_at same_logouts db0 (repair_runtime_projection nonce x app u now).
Proof. unfold repair_runtime_projection; solve_frame. Qed.
Lemma append_event_logouts db0 clock uuid ids pp ap b x wire kind :
  frame_at same_logouts db0 (append_projection_event clock uuid ids pp ap b x wire kind).
Proof. unfold append_projection_event; solve_frame. Qed.
Hint Resolve update_user_logouts update_session_logouts repair_logouts append_event_logouts : frames.

Lemma disable_logouts clock draws graph c :
  effect same_logouts (disable_project_user clock draws graph c).
Proof. apply disable_kept; eauto with frames typeclass_instances. Qed.
Lemma enable_logouts clock draws graph c :
  effect same_logouts (enable_project_user clock draws graph c).
Proof. apply enable_kept; eauto with frames typeclass_instances. Qed.
Lemma revoke_session_logouts c : effect same_logouts (revoke_application_session c).
Proof. unfold revoke_application_session; solve_frame. Qed.
Lemma revoke_browser_logouts c : effect same_logouts (revoke_browser_session c).
Proof. unfold revoke_browser_session; solve_frame. Qed.

(** The token of a request was there before an operation, unless the operation
    is the binding of that token. *)
Lemma op_csrf op db j l d :
  world_ok db -> db_logouts (run_session_op op db) !! j = Some l -> bl_csrf_digest l = Some d ->
  (exists l0, db_logouts db !! j = Some l0 /\ bl_csrf_digest l0 = Some d)
  \/ (exists snapshot bc, op = BindLogoutOp snapshot bc /\ bound_by db snapshot bc l).
Proof.
  intros Hw Hl Hd; pose proof (world_store _ Hw) as Hok; pose proof (world_login _ Hw) as Hlt.
  destruct op as [nonce gs fs c|gs fs c|c|c|snapshot c|snapshot c|c|c|c|ps vs c|ps vs c|c|snapshot c
                 |locked c|clock nonces uuid ids c|clock draws graph c|clock draws graph c|c|c]; simpl in Hl.
  - rewrite prepare_logouts in Hl; eauto.
  - rewrite rotate_logouts in Hl; eauto.
  - rewrite logout_session_logouts in Hl; eauto.
  - left; unfold prepare_browser_logout, mseq at 1, mlift at 1 in Hl.
    destruct (validate_digest _); [|by eauto].
    destruct (transaction _ db) as [db' [r|e]] eqn:Hr; simpl in Hl.
    2: { apply transaction_err in Hr as ->; eauto. }
    inv_txn; cbv zeta in *; inv_txn; simpl in Hl.
    apply lookup_insert_Some in Hl as [[<- <-]|[_ Hl]]; [done|eauto].
  - destruct (bind_browser_logout snapshot c db) as [db' [r|e]] eqn:Hb; simpl in Hl.
    + destruct (bind_ok _ _ _ _ _ Hok Hb) as (i & b & event & Hi & Hp & Hv & _ & _ & _ & Hlb & _ & ->).
      simpl in Hl; apply lookup_insert_Some in Hl as [[<- <-]|[_ Hl]]; [|eauto].
      right; exists snapshot, c; split; [done|]; unfold bound_by; simpl; split_and!; try done; [eauto|].
      apply (logout_browser_ok _ _ _ _ _ Hok) in Hlb as (Hbi & Hbb & ? & ? & _).
      exists b; rewrite <- Hbi; done.
    + left; eapply overdue_csrf; [by eapply bind_failed|done..].
  - left; destruct (confirm_browser_logout snapshot c db) as [db' [r|e]] eqn:Hb; simpl in Hl.
    + destruct (confirm_ok _ _ _ _ _ Hok Hb) as (i & b & event & Hi & _ & _ & _ & _ & _ & _ & _ & ->).
      simpl in Hl; apply lookup_insert_Some in Hl as [[<- <-]|[_ Hl]]; eauto.
    + eapply overdue_csrf; [by eapply confirm_failed|done..].
  - rewrite (login_logouts _ _ Hlt (create_login_effect c)) in Hl; eauto.
  - rewrite (login_logouts _ _ Hlt (bind_hosted_effect c)) in Hl; eauto.
  - rewrite (login_logouts _ _ Hlt (select_provider_effect c)) in Hl; eauto.
  - rewrite (login_logouts _ _ Hlt (claim_callback_effect ps vs c)) in Hl; eauto.
  - rewrite (login_logouts _ _ Hlt (deny_callback_effect ps vs c)) in Hl; eauto.
  - rewrite (login_logouts _ _ Hlt (fail_exchange_effect c)) in Hl; eauto.
  - rewrite (effect_fst_of (reuse_logouts snapshot c)) in Hl; eauto.
  - rewrite (login_logouts _ _ Hlt (recover_effect locked c)) in Hl; eauto.
  - rewrite (effect_fst_of (commit_logouts clock nonces uuid ids c)) in Hl; eauto.
  - rewrite (effect_fst_of (disable_logouts clock draws graph c)) in Hl; eauto.
  - rewrite (effect_fst_of (enable_logouts clock draws graph c)) in Hl; eauto.
  - rewrite (effect_fst_of (revoke_session_logouts c)) in Hl; eauto.
  - rewrite (effect_fst_of (revoke_browser_logouts c)) in Hl; eauto.
Qed.

(** A token in the store at the end was there at the start or bound on the way. *)
Lemma ops_csrf ops db j l d :
  world_ok db -> db_logouts (run_session_ops ops db) !! j = Some l -> bl_csrf_digest l = Some d ->
  (exists l0, db_logouts db !! j = Some l0 /\ bl_csrf_digest l0 = Some d)
  \/ exists pre post snapshot bc lb,
       ops = pre ++ BindLogoutOp snapshot bc :: post
       /\ bound_by (run_session_ops pre db) snapshot bc lb
       /\ db_logouts (run_session_ops (pre ++ [BindLogoutOp snapshot bc]) db) !! j = Some lb.
Proof.
  revert l d; induction ops as [|op ops IH] using rev_ind; intros l d Hok Hl Hd; [by eauto|].
  destruct (session_ops_keep ops db Hok) as [Hok1 _].
  pose proof Hl as Hl'; unfold run_session_ops in Hl'; rewrite fold_left_app in Hl'.
  fold (run_session_ops ops db) in Hl'; simpl in Hl'.
  destruct (op_csrf op _ j l d Hok1 Hl' Hd) as [(l0 & Hl0 & Hd0)|(snapshot & bc & -> & Hb)].
  - destruct (IH l0 d Hok Hl0 Hd0) as [|(pre & post & snapshot & bc & lb & -> & Hb & Hlb)]; [by left|].
    right; exists pre, (post ++ [op]), snapshot, bc, lb; split_and!; try done.
    by rewrite <- app_assoc.
  - right; by exists ops, [], snapshot, bc, l.
Qed.
End origin.

Lemma digest_eq (a b : VersionedDigest) :
  vd_value a = vd_value b -> vd_key_version a = vd_key_version b -> a = b.
Proof. destruct a, b; simpl; congruence. Qed.

(** A request is found by its preparation digest alone. *)
Lemma request_unique db i j x y :
  store_ok db -> db_logouts db !! i = Some x -> db_logouts db !! j = Some y ->
  bl_preparation_digest x = bl_preparation_digest y ->
  bl_preparation_digest_key_version x = bl_preparation_digest_key_version y -> i = j /\ x = y.
Proof.
  intros Hok Hx Hy Hd Hv.
  pose proof (dir_logout_unique _ _ _ _ _ _ (store_directory _ Hok) i j x y Hx Hy Hv Hd) as ->.
  split; congruence.
Qed.

(** ** A request that is followed through *)

(** An open request: its rows are live and stay so until it expires. *)
Record open_request (db : Database) (i : BrowserLogoutRow) (ow : LogoutOwners)
    (br : BrowserSessionRow) : Prop := {
  or_row : db_logouts db !! bl_id i = Some i;
  or_owner : browser_logout_owner db i = true;
  or_owners : forall now, now < bl_expires_at i ->
    lock_logout_owners db (bl_project_id i) (bl_application_id i) (bl_user_id i)
      (bl_application_session_id i) (Some (bl_application_session_revision i)) now = Ok ow;
  or_browser : find_by_id (db_browsers db) (bl_browser_session_id i)
      (fun b => (bs_project_id b =? bl_project_id i) && (bs_user_id b =? bl_user_id i)) = Some br;
  or_session : as_browser_session_id (low_session ow) = Some (bs_id br);
  or_active : bs_status br = "active"%string;
  or_revision : bs_session_revision br = bl_browser_session_revision i;
  or_fit : forall now, now < bl_expires_at i -> browser_unfit br ow now = false
}.

Lemma open_browser db i ow br credential now :
  open_request db i ow br -> now < bl_expires_at i ->
  bs_credential_digest br = vd_value credential ->
  bs_credential_digest_key_version br = vd_key_version credential ->
  logout_browser db i credential now = Ok br.
Proof.
  intros [] Hn Hd Hv; unfold logout_browser; rewrite or_owners0 by done; cbn [rbind].
  rewrite or_browser0; cbn [ok_or rbind]; rewrite or_session0, or_active0, or_revision0, or_fit0 by done.
  by rewrite (proj2 (digest_matches_true _ _ _)), Z.eqb_refl, !bool_decide_true.
Qed.

(** Owners locked at one time are locked the same at a later one, before the
    session expires. *)
Lemma owners_later db p a u sid now now' ow :
  lock_logout_owners db p a u sid None now = Ok ow ->
  now' < as_absolute_expires_at (low_session ow) ->
  lock_logout_owners db p a u sid (Some (as_session_revision (low_session ow))) now' = Ok ow.
Proof.
  unfold lock_logout_owners; intros Ho Hn.
  repeat match type of Ho with
  | rbind ?r _ = _ => destruct r; simpl rbind in Ho |- *; [|discriminate Ho]
  end.
  apply if_err_ok in Ho as [Hc Ho]; injection Ho as <-; simpl in Hn |- *.
  rewrite Z.eqb_refl, (proj2 (Z.leb_gt _ _) Hn).
  rewrite !orb_false_iff in Hc; destruct_and!.
  by repeat match goal with He : ?t = false |- context [?t] => rewrite He end.
Qed.

Lemma prepare_opens c db db' r :
  store_ok db -> prepare_browser_logout c db = (db', Ok r) ->
  exists i ow br, open_request db' i ow br /\ r = browser_logout_record i
    /\ bl_status i = "prepared"%string /\ bl_interaction_revision i = 1
    /\ bl_preparation_digest i = vd_value (pb_preparation c)
    /\ bl_preparation_digest_key_version i = vd_key_version (pb_preparation c)
    /\ bl_browser_session_id i = pb_browser_session_id c /\ db_browsers db' = db_browsers db.
Proof.
  intros Hok; unfold prepare_browser_logout; intros Hr; inv_txn; cbv zeta in *; inv_txn.
  match goal with
  | Ho : lock_logout_owners _ _ _ _ _ _ _ = Ok ?ow, Hb : ok_or _ _ = Ok ?br,
    Hg : _ || _ || _ = false |- _ =>
      rename Ho into Hown; apply ok_or_ok in Hb; rename Hb into Hbr; rename Hg into Hguard;
      eexists; exists ow, br
  end.
  apply orb_false_iff in Hguard as [Hguard Hfit]; apply orb_false_iff in Hguard as [Hsb Hact].
  apply negb_false_iff, bool_decide_eq_true in Hsb; apply negb_false_iff, bool_decide_eq_true in Hact.
  match goal with Ha : browser_logout_accepts _ _ = true |- _ =>
    unfold browser_logout_accepts in Ha; rewrite !andb_true_iff in Ha; destruct Ha as [[Hc Hfk] _] end.
  split; [|split_and!; reflexivity].
  constructor; simpl; try done; [apply lookup_insert_eq|..].
  - intros now Hn; apply (owners_later db _ _ _ _ (pb_now c)); [exact Hown|lia].
  - intros now Hn; unfold browser_unfit in *; rewrite !orb_false_iff in *; destruct_and!.
    split_and!; try done; apply Z.leb_gt; lia.
Qed.

(** The row of a request with what it was prepared for is accepted in place. *)
Lemma rewrite_accepted db i i' :
  store_ok db -> db_logouts db !! bl_id i = Some i -> bl_id i' = bl_id i ->
  bl_preparation_digest i' = bl_preparation_digest i ->
  bl_preparation_digest_key_version i' = bl_preparation_digest_key_version i ->
  browser_logout_check i' = true -> browser_logout_owner db i' = true ->
  browser_logout_accepts db i' = true.
Proof.
  intros Hok Hi Hid Hd Hv Hc Ho; unfold browser_logout_accepts; rewrite Hc, Ho; simpl.
  apply unique_in_true; intros j y Hj Hy; apply bool_decide_eq_false; intros [Hv' Hd'].
  destruct (request_unique db (bl_id i) j i y Hok Hi Hy) as [<- _]; congruence.
Qed.

Lemma request_routed db i preparation :
  store_ok db -> db_logouts db !! bl_id i = Some i ->
  bl_preparation_digest i = vd_value preparation ->
  bl_preparation_digest_key_version i = vd_key_version preparation ->
  routed_logout db preparation = Some i /\ locked_logout db (bl_id i) preparation = Some i.
Proof.
  intros Hok Hi Hd Hv; split.
  - unfold routed_logout; destruct (find_one _ _) as [y|] eqn:Hf.
    + apply find_one_some in Hf as (j & Hy & Hm); bool_prop; f_equal; symmetry.
      eapply (request_unique db (bl_id i) j i y); naive_solver congruence.
    + apply (find_one_none _ _ _ _ Hf) in Hi; cbv beta in Hi.
      by rewrite Hd, Hv, Z.eqb_refl, bool_decide_true in Hi.
  - apply find_by_id_some; split; [done|]; by rewrite Hd, Hv, Z.eqb_refl, bool_decide_true.
Qed.

Lemma update_logout_run row db :
  is_some (db_logouts db !! bl_id row) = true -> browser_logout_accepts db row = true ->
  update_logout row db = (set_db_logouts (<[bl_id row := row]> (db_logouts db)) db, Ok tt).
Proof. intros; by apply update_logout_ok. Qed.

Lemma update_browser_run row db :
  is_some (db_browsers db !! bs_id row) = true ->
  (browser_session_check row
   && unique_in browser_session_conflict (bs_id row) row (db_browsers db)) = true ->
  update_browser row db = (set_db_browsers (<[bs_id row := row]> (db_browsers db)) db, Ok tt).
Proof. intros; by apply update_browser_ok. Qed.

Definition bound_db (c : BindBrowserLogout) (i : BrowserLogoutRow) (db : Database) : Database :=
  let bound := logout_bound (bb_csrf c) (bb_now c) i in
  set_db_audit (db_audit db ++
      [mkAuditEventRow (Some (bl_project_id i)) "project_user" "auth.browser_logout.csrf_bound"
         "browser_logout_interaction" (Some (bl_id i)) "succeeded" (bl_application_session_id i)
         (JObject [])])
    (set_db_logouts (<[bl_id i := bound]> (db_logouts db)) db).

Lemma bind_runs db c i ow br :
  store_ok db -> open_request db i ow br -> bl_status i = "prepared"%string ->
  bl_interaction_revision i = bb_expected_interaction_revision c ->
  0 < bl_interaction_revision i < i64_max ->
  bl_preparation_digest i = vd_value (bb_preparation c) ->
  bl_preparation_digest_key_version i = vd_key_version (bb_preparation c) ->
  bs_credential_digest br = vd_value (bb_browser_credential c) ->
  bs_credential_digest_key_version br = vd_key_version (bb_browser_credential c) ->
  length (vd_value (bb_csrf c)) = 32%nat -> 0 < vd_key_version (bb_csrf c) ->
  0 < vd_key_version (bb_browser_credential c) -> bb_now c < bl_expires_at i ->
  bind_browser_logout db c db
  = (bound_db c i db, Ok (browser_logout_record (logout_bound (bb_csrf c) (bb_now c) i))).
Proof.
  intros Hok Hopen Hst Hrev Hr Hp Hv Hd Hdv Hlen Hcv Hbv Hnow.
  pose proof (or_row _ _ _ _ Hopen) as Hi.
  destruct (request_routed _ _ _ Hok Hi Hp Hv) as [Hroute Hlock].
  pose proof (dir_logout_check _ _ _ _ _ _ (store_directory _ Hok) _ _ Hi) as Hc.
  assert (0 < vd_key_version (bb_preparation c)) as Hpv.
  { rewrite <- Hv; unfold browser_logout_check in Hc; bool_prop; destruct_and!; done. }
  unfold bind_browser_logout, mseq, mlift, validate_digest.
  rewrite !(proj2 (Z.leb_gt _ _)) by done; rewrite Hroute; cbn [ok_or].
  apply committed_ok; unfold bind_locked, mseq at 1, mget; unfold mseq at 1, mlift at 1.
  rewrite Hlock; cbn [ok_or]; rewrite (proj2 (Z.leb_gt _ _)) by done.
  rewrite Hst, <- Hrev, Z.eqb_refl, bool_decide_true by done; cbn [negb orb].
  unfold mseq at 1, mlift at 1; rewrite (open_browser _ _ _ _ _ _ Hopen Hnow Hd Hdv); cbv zeta.
  unfold mseq at 1; rewrite update_logout_run; [reflexivity|simpl; by rewrite Hi|].
  apply (rewrite_accepted db i); try done; [|exact (or_owner _ _ _ _ Hopen)].
  revert Hc; unfold browser_logout_check, list_len; simpl; rewrite Hst, i64_add_small, Hlen by lia.
  bool_prop; intros; destruct_and!; split_and!; try done; try lia; try set_solver.
  by match goal with Hn : bl_consumed_at i = None |- _ => rewrite Hn end.
Qed.

Lemma bound_open db c i ow br :
  open_request db i ow br -> open_request (bound_db c i db) (logout_bound (bb_csrf c) (bb_now c) i) ow br.
Proof. intros []; constructor; simpl; try done; apply lookup_insert_eq. Qed.

Lemma terminated_accepted db b now :
  store_ok db -> db_browsers db !! bs_id b = Some b -> bs_session_revision b < i64_max ->
  (browser_session_check (browser_terminated now b)
   && unique_in browser_session_conflict (bs_id b) (browser_terminated now b) (db_browsers db)) = true.
Proof.
  intros Hok Hb Hmax; destruct (store_directory _ Hok).
  pose proof (dir_browser_check _ _ Hb) as Hc; apply andb_true_iff; split.
  - revert Hc; unfold browser_session_check; simpl.
    destruct (decide (0 < bs_session_revision b)) as [Hpos|Hneg].
    + rewrite i64_add_small by lia; bool_prop; intros; destruct_and!; split_and!; try done; lia || set_solver.
    + intros Hc'; bool_prop; destruct_and!; lia.
  - apply unique_in_true; intros j y Hj Hy; exact (dir_browser_unique (bs_id b) j b y (not_eq_sym Hj) Hb Hy).
Qed.

Lemma confirm_runs db c i ow br :
  store_ok db -> open_request db i ow br -> bl_status i = "csrf_bound"%string ->
  bl_interaction_revision i = cb_expected_interaction_revision c ->
  0 < bl_interaction_revision i < i64_max ->
  bl_preparation_digest i = vd_value (cb_preparation c) ->
  bl_preparation_digest_key_version i = vd_key_version (cb_preparation c) ->
  bl_csrf_digest i = Some (vd_value (cb_csrf c)) ->
  bl_csrf_digest_key_version i = Some (vd_key_version (cb_csrf c)) ->
  bs_credential_digest br = vd_value (cb_browser_credential c) ->
  bs_credential_digest_key_version br = vd_key_version (cb_browser_credential c) ->
  0 < vd_key_version (cb_csrf c) -> 0 < vd_key_version (cb_browser_credential c) ->
  bs_session_revision br < i64_max -> cb_now c < bl_expires_at i ->
  exists db', confirm_browser_logout db c db
    = (db', Ok (browser_logout_record (logout_consumed (cb_now c) i))).
Proof.
  intros Hok Hopen Hst Hrev Hr Hp Hv Hcs Hcsv Hd Hdv Hcv Hbv Hmax Hnow.
  pose proof (or_row _ _ _ _ Hopen) as Hi.
  destruct (request_routed _ _ _ Hok Hi Hp Hv) as [Hroute Hlock].
  pose proof (dir_logout_check _ _ _ _ _ _ (store_directory _ Hok) _ _ Hi) as Hc.
  assert (0 < vd_key_version (cb_preparation c)) as Hpv.
  { rewrite <- Hv; unfold browser_logout_check in Hc; bool_prop; destruct_and!; done. }
  pose proof (or_browser _ _ _ _ Hopen) as [Hbr Hbo]%find_by_id_some.
  pose proof (dir_browsers _ _ _ _ _ _ (store_directory _ Hok) _ _ Hbr) as Hbi.
  rewrite <- Hbi in Hbr; pose proof (terminated_accepted db br (cb_now c) Hok Hbr Hmax) as Hacc.
  eexists; unfold confirm_browser_logout, mseq, mlift, validate_digest.
  rewrite !(proj2 (Z.leb_gt _ _)) by done; rewrite Hroute; cbn [ok_or].
  apply committed_ok; unfold confirm_locked, mseq at 1, mget; unfold mseq at 1, mlift at 1.
  rewrite Hlock; cbn [ok_or]; rewrite (proj2 (Z.leb_gt _ _)) by done.
  rewrite (proj2 (optional_digest_matches_true _ _ _) (conj Hcs Hcsv)).
  rewrite Hst, <- Hrev, Z.eqb_refl, bool_decide_true by done; cbn [negb orb].
  unfold mseq at 1, mlift at 1; rewrite (open_browser _ _ _ _ _ _ Hopen Hnow Hd Hdv).
  unfold mseq at 1; rewrite update_browser_run; [|simpl; by rewrite Hbr|exact Hacc]; cbv zeta.
  unfold mseq at 1; rewrite update_logout_run; [reflexivity|simpl; by rewrite Hi|].
  pose proof (store_put_browser db (browser_terminated (cb_now c) br) Hok Hacc) as Hok1.
  apply (rewrite_accepted _ i _ Hok1); try done.
  - revert Hc; unfold browser_logout_check, list_len; simpl; rewrite Hst, i64_add_small by lia.
    rewrite Hcs, Hcsv; bool_prop; intros; destruct_and!; split_and!; try done; lia || set_solver.
  - pose proof (or_owner _ _ _ _ Hopen) as Ho; unfold browser_logout_owner in *; simpl.
    apply andb_true_iff in Ho as [-> _]; rewrite <- Hbi, lookup_insert_eq; exact Hbo.
Qed.

Section claims.
Context `{CanonicalHash} `{ProjectionCryptography} `{UrlLib} `{TimeFormat} `{JsonbText}.

(** C9: a browser logout cannot be forged: whatever runs, a confirmation
    succeeds only after a binding for the same request succeeded that brought the
    very CSRF token and the very browser credential the confirmation brings
    (given that no token was bound to the request at the start). *)
Theorem browser_logout_needs_bound_token (ops : list session_op) db snapshot c db2 r :
  world_ok db ->
  (forall i l, db_logouts db !! i = Some l ->
     bl_preparation_digest l = vd_value (cb_preparation c) ->
     bl_preparation_digest_key_version l = vd_key_version (cb_preparation c) ->
     bl_csrf_digest l = None) ->
  confirm_browser_logout snapshot c (run_session_ops ops db) = (db2, Ok r) ->
  exists pre post snapshot' bc,
    ops = pre ++ BindLogoutOp snapshot' bc :: post
    /\ (exists db' r', bind_browser_logout snapshot' bc (run_session_ops pre db) = (db', Ok r'))
    /\ bb_preparation bc = cb_preparation c /\ bb_csrf bc = cb_csrf c
    /\ bb_browser_credential bc = cb_browser_credential c.
Proof.
  intros Hok Hstart Hc; destruct (session_ops_keep ops db Hok) as [[Hok1 _] [Hev _]].
  destruct (confirm_ok _ _ _ _ _ Hok1 Hc) as (i & b & _ & Hi & Hp & Hv & _ & Hcs & Hcv & Hlb & _).
  apply (logout_browser_ok _ _ _ _ _ Hok1) in Hlb as (Hbi & Hb & Hbd & Hbv & _).
  destruct (ops_csrf ops db _ i _ Hok Hi Hcs) as
    [(l0 & Hl0 & Hd0)|(pre & post & snapshot' & bc & lb & -> & Hbound & Hlb)].
  { destruct (ev_logout _ _ Hev _ _ Hl0) as (l' & Hl' & (Hp' & Hv' & _) & _).
    assert (l' = i) as -> by congruence; rewrite (Hstart _ _ Hl0) in Hd0; congruence. }
  destruct Hbound as (Hrun & Hp0 & Hv0 & Hc0 & Hcv0 & bb & Hbb & Hbbd & Hbbv).
  destruct (session_ops_keep (pre ++ [BindLogoutOp snapshot' bc]) db Hok) as [Hok2 _].
  assert (run_session_ops (pre ++ BindLogoutOp snapshot' bc :: post) db
          = run_session_ops post (run_session_ops (pre ++ [BindLogoutOp snapshot' bc]) db)) as Heq
    by (by rewrite <- run_session_ops_app, <- app_assoc).
  rewrite Heq in Hi, Hb; destruct (session_ops_keep post _ Hok2) as [_ [Hev2 _]].
  destruct (ev_logout _ _ Hev2 _ _ Hlb) as (l' & Hl' & (Hp' & Hv' & Hbs' & _ & _ & Hcs') & _).
  assert (l' = i) as -> by congruence; rewrite Hc0 in Hcs'; destruct (Hcs' ltac:(done)) as [Hc1 Hc2].
  destruct (session_ops_keep pre db Hok) as [Hok3 _].
  destruct (session_ops_keep [BindLogoutOp snapshot' bc] _ Hok3) as [_ [Hev3 _]].
  rewrite <- run_session_ops_app in Hev3; pose proof (transitivity Hev3 Hev2) as Hev4.
  destruct (ev_browser _ _ Hev4 _ _ Hbb) as (b' & Hb' & Hd' & Hdv' & _).
  assert (b' = b) as -> by congruence.
  exists pre, post, snapshot', bc; split_and!; [done|done|apply digest_eq; congruence..].
Qed.

(** confirming a browser logout ends refresh behind that browser: from then
    on the browser session stays inactive, and neither preparation nor rotation
    ever succeeds for an application session attached to it. *)
Theorem browser_logout_ends_refresh snapshot c db db1 r ops :
  world_ok db -> confirm_browser_logout snapshot c db = (db1, Ok r) ->
  (exists b, db_browsers (run_session_ops ops db1) !! br_browser_session_id r = Some b
             /\ bs_status b <> "active"%string)
  /\ (forall gs fs c' db2 u session_id f n e s,
        rotate_refresh_token gs fs c' (run_session_ops ops db1)
        = (db2, Ok (Rotated u session_id f n e)) ->
        db_sessions (run_session_ops ops db1) !! session_id = Some s ->
        as_browser_session_id s <> Some (br_browser_session_id r))
  /\ (forall nonce gs fs c' db2 p s,
        prepare_refresh_rotation nonce gs fs c' (run_session_ops ops db1) = (db2, Ok (Prep.Ready p)) ->
        db_sessions (run_session_ops ops db1) !! rp_application_session_id p = Some s ->
        as_browser_session_id s <> Some (br_browser_session_id r)).
Proof.
  intros Hw0 Hc; destruct (confirm_logout_effect _ _ _ _ _ Hc Hw0) as [Hok1 _].
  pose proof (world_store _ Hw0) as Hok.
  destruct (confirm_ok _ _ _ _ _ Hok Hc) as (i & b & event & _ & _ & _ & _ & _ & _ & Hlb & -> & ->).
  apply (logout_browser_ok _ _ _ _ _ Hok) in Hlb as (Hbi & _); simpl br_browser_session_id in *.
  set (db1 := set_db_audit _ _) in *; destruct (session_ops_keep ops db1 Hok1) as [[Hok2 _] [Hev _]].
  assert (db_browsers db1 !! bl_browser_session_id i = Some (browser_terminated (cb_now c) b)) as Hb
    by (simpl; rewrite <- Hbi; apply lookup_insert_eq).
  destruct (ev_browser _ _ Hev _ _ Hb) as (b' & Hb' & _ & _ & Hna & _); specialize (Hna ltac:(done)).
  assert (forall p now s pj u po, session_browser (run_session_ops ops db1) p now s pj u po = Ok tt ->
            as_browser_session_id s <> Some (bl_browser_session_id i)) as Hno.
  { intros p now s pj u po Hs Hsb; unfold session_browser in Hs; rewrite Hsb in Hs.
    apply rbind_ok in Hs as (b2 & Hb2 & Hs); apply ok_or_ok, find_by_id_some in Hb2 as [Hb2 _].
    apply if_err_ok in Hs as [Hs _]; bool_prop; destruct_and!; congruence. }
  split_and!; [by exists b'|..].
  - intros gs fs c' db2 u sid f n e s Hr Hs.
    destruct (rotate_rows _ _ _ _ _ _ Hok2 Hr) as (s' & f' & g' & Hs' & _ & _ & _ & _ & _ & Ho).
    inversion Ho as [|? ? ? ? ? ? _ _ _ _ Hbr Hw]; subst.
    apply rotation_writes_ok in Hw as (_ & _ & _ & _ & _ & [= _ -> _ _ _]).
    assert (s' = s) as -> by congruence; by eapply Hno.
  - intros nonce gs fs c' db2 p s Hr Hs.
    destruct (prepare_rows _ _ _ _ _ _ _ Hok2 Hr) as (s' & f' & g' & Hs' & _ & _ & _ & _ & _ & Ho).
    inversion Ho as [|? ? ? ? ? ? ? ? ? ? _ _ Hbr]; subst; simpl in Hs.
    assert (s' = s) as -> by congruence; by eapply Hno.
Qed.

(** a request is used once: after a confirmation, and whatever runs, no
    binding and no confirmation of the same request succeeds again. *)
Theorem browser_logout_single_use snapshot c db db1 r ops :
  world_ok db -> confirm_browser_logout snapshot c db = (db1, Ok r) ->
  (forall snapshot' c' db2 r', confirm_browser_logout snapshot' c' (run_session_ops ops db1)
     = (db2, Ok r') -> cb_preparation c' <> cb_preparation c)
  /\ (forall snapshot' c' db2 r', bind_browser_logout snapshot' c' (run_session_ops ops db1)
     = (db2, Ok r') -> bb_preparation c' <> cb_preparation c).
Proof.
  intros Hw0 Hc; destruct (confirm_logout_effect _ _ _ _ _ Hc Hw0) as [Hok1 _].
  pose proof (world_store _ Hw0) as Hok.
  destruct (confirm_ok _ _ _ _ _ Hok Hc) as (i & b & event & _ & Hp & Hv & _ & _ & _ & _ & _ & ->).
  set (db1 := set_db_audit _ _) in *; destruct (session_ops_keep ops db1 Hok1) as [[Hok2 _] [Hev _]].
  assert (db_logouts db1 !! bl_id i = Some (logout_consumed (cb_now c) i)) as Hi
    by (simpl; apply lookup_insert_eq).
  destruct (ev_logout _ _ Hev _ _ Hi) as (l & Hl & _ & Hover); specialize (Hover ltac:(by left)); subst l.
  split; intros snapshot' c' db2 r' Hr Heq.
  - destruct (confirm_ok _ _ _ _ _ Hok2 Hr) as (i' & _ & _ & Hi' & Hp' & Hv' & Hst & _).
    destruct (request_unique _ _ _ _ _ Hok2 Hl Hi') as [_ <-]; simpl; congruence || done.
  - destruct (bind_ok _ _ _ _ _ Hok2 Hr) as (i' & _ & _ & Hi' & Hp' & Hv' & Hst & _).
    destruct (request_unique _ _ _ _ _ Hok2 Hl Hi') as [_ <-]; simpl; congruence || done.
Qed.

(** a logout that is followed through ends the browser session: once it was
    prepared, a binding with the browser's credential and then a confirmation
    with the bound token, each naming the revision it was given and before the
    request expires, are both accepted. *)
Theorem browser_logout_completes pc db db1 r bc cc :
  store_ok db -> prepare_browser_logout pc db = (db1, Ok r) ->
  bb_preparation bc = pb_preparation pc -> cb_preparation cc = pb_preparation pc ->
  bb_expected_interaction_revision bc = br_interaction_revision r ->
  cb_expected_interaction_revision cc = br_interaction_revision r + 1 ->
  cb_csrf cc = bb_csrf bc -> cb_browser_credential cc = bb_browser_credential bc ->
  length (vd_value (bb_csrf bc)) = 32%nat -> 0 < vd_key_version (bb_csrf bc) ->
  0 < vd_key_version (bb_browser_credential bc) ->
  (forall b, db_browsers db !! pb_browser_session_id pc = Some b ->
     bs_credential_digest b = vd_value (bb_browser_credential bc)
     /\ bs_credential_digest_key_version b = vd_key_version (bb_browser_credential bc)
     /\ bs_session_revision b < i64_max) ->
  bb_now bc < br_expires_at r -> cb_now cc < br_expires_at r ->
  exists db2 r2 db3 r3,
    bind_browser_logout db1 bc db1 = (db2, Ok r2)
    /\ confirm_browser_logout db2 cc db2 = (db3, Ok r3)
    /\ br_browser_session_id r3 = pb_browser_session_id pc.
Proof.
  intros Hok Hr Hp Hp' Hrev Hrev' Hcs Hcr Hlen Hcv Hbv Hcred Hn Hn'.
  destruct (prepare_logout_keeps _ _ _ _ Hok Hr) as [Hok1 _].
  destruct (prepare_opens _ _ _ _ Hok Hr) as (i & ow & br & Ho & -> & Hst & Hone & Hd & Hv & Hbs & Hbb).
  pose proof (or_browser _ _ _ _ Ho) as [Hbr _]%find_by_id_some; rewrite Hbs, Hbb in Hbr.
  destruct (Hcred _ Hbr) as (Hcd & Hcdv & Hmax); simpl in Hrev, Hrev', Hn, Hn'.
  pose proof (bind_runs db1 bc i ow br Hok1 Ho Hst) as Hbind; rewrite Hone, Hp in Hbind.
  specialize (Hbind ltac:(congruence) ltac:(done) Hd Hv Hcd Hcdv Hlen Hcv Hbv Hn).
  destruct (bind_logout_keeps _ _ _ _ _ Hok1 Hbind) as [Hok2 _].
  set (bound := logout_bound (bb_csrf bc) (bb_now bc) i) in *.
  assert (bl_interaction_revision bound = 2) as Htwo by (simpl; rewrite Hone; reflexivity).
  pose proof (confirm_runs (bound_db bc i db1) cc bound ow br Hok2 (bound_open db1 bc i ow br Ho) eq_refl)
    as Hconf; rewrite Htwo, Hrev', Hone, Hp', Hcs, Hcr in Hconf; simpl bl_csrf_digest in Hconf.
  destruct (Hconf eq_refl ltac:(done) Hd Hv eq_refl eq_refl Hcd Hcdv Hcv Hbv Hmax Hn') as [db3 Hrun].
  do 4 eexists; split_and!; [exact Hbind|exact Hrun|exact Hbs].
Qed.

(** a failed binding or confirmation changes nothing, with one exception: a
    call that finds an open request past its deadline marks exactly that request
    expired. *)
Theorem browser_logout_failures snapshot bc cc db :
  store_ok db ->
  (forall db' e, bind_browser_logout snapshot bc db = (db', Err e) ->
     db' = db \/ marks_overdue (bb_preparation bc) (bb_now bc) db db')
  /\ (forall db' e, confirm_browser_logout snapshot cc db = (db', Err e) ->
     db' = db \/ marks_overdue (cb_preparation cc) (cb_now cc) db db').
Proof. intros Hok; split; intros; [by eapply bind_failed | by eapply confirm_failed]. Qed.
End claims.

(** ** The worked store logs its browser out *)
Definition sample_prepare_logout : PrepareBrowserLogout :=
  mkPrepareBrowserLogout 30 1 2 3 8 12 (sample_token 21) (seconds 10).
Definition sample_bind : BindBrowserLogout :=
  mkBindBrowserLogout (sample_token 21) (sample_token 5) 1 (sample_token 22) (seconds 11).
Definition sample_confirm : ConfirmBrowserLogout :=
  mkConfirmBrowserLogout (sample_token 21) (sample_token 5) (sample_token 22) 2 (seconds 12).

Definition prepared_db : Database := (prepare_browser_logout sample_prepare_logout sample_db).1.
Definition logout_bound_db : Database := (bind_browser_logout prepared_db sample_bind prepared_db).1.
Definition logged_out_db : Database :=
  (confirm_browser_logout logout_bound_db sample_confirm logout_bound_db).1.
Definition sample_logout_record (revision : Z) : BrowserLogoutRecord :=
  mkBrowserLogoutRecord 30 1 12 revision (seconds 70).

Lemma prepared_run :
  prepare_browser_logout sample_prepare_logout sample_db = (prepared_db, Ok (sample_logout_record 1)).
Proof. vm_compute; reflexivity. Qed.

Lemma bound_run :
  bind_browser_logout prepared_db sample_bind prepared_db = (logout_bound_db, Ok (sample_logout_record 2)).
Proof. vm_compute; reflexivity. Qed.

Lemma confirmed_run :
  confirm_browser_logout logout_bound_db sample_confirm logout_bound_db
  = (logged_out_db, Ok (sample_logout_record 3)).
Proof. vm_compute; reflexivity. Qed.

Lemma logout_bound_db_ok : world_ok logout_bound_db.
Proof.
  split; [|by apply no_logins_ok].
  eapply bind_logout_keeps; [|apply bound_run].
  eapply prepare_logout_keeps; [apply sample_db_ok | apply prepared_run].
Qed.

Lemma browser_logout_needs_bound_token_witness :
  exists pre post snapshot bc,
    [PrepareLogoutOp sample_prepare_logout; BindLogoutOp prepared_db sample_bind]
    = pre ++ BindLogoutOp snapshot bc :: post /\ bb_csrf bc = sample_token 22.
Proof.
  destruct (browser_logout_needs_bound_token
              [PrepareLogoutOp sample_prepare_logout; BindLogoutOp prepared_db sample_bind]
              sample_db logout_bound_db sample_confirm logged_out_db (sample_logout_record 3))
    as (pre & post & snapshot & bc & Hops & _ & _ & Hcs & _).
  - exact sample_db_world.
  - intros i l Hl; change ((∅ : gmap Z BrowserLogoutRow) !! i = Some l) in Hl.
    rewrite lookup_empty in Hl; discriminate Hl.
  - exact confirmed_run.
  - exists pre, post, snapshot, bc; split; [exact Hops | exact Hcs].
Defined.

Lemma browser_logout_ends_refresh_witness :
  exists b, db_browsers logged_out_db !! 12 = Some b /\ bs_status b <> "active"%string.
Proof.
  exact (proj1 (browser_logout_ends_refresh logout_bound_db sample_confirm logout_bound_db logged_out_db
                  (sample_logout_record 3) [] logout_bound_db_ok confirmed_run)).
Defined.

Lemma browser_logout_single_use_witness :
  is_ok (confirm_browser_logout logged_out_db sample_confirm logged_out_db).2 = false.
Proof.
  destruct (confirm_browser_logout logged_out_db sample_confirm logged_out_db) as [d [r|e]] eqn:Hr;
    [exfalso|reflexivity].
  exact (proj1 (browser_logout_single_use logout_bound_db sample_confirm logout_bound_db logged_out_db
                  (sample_logout_record 3) [] logout_bound_db_ok confirmed_run)
           logged_out_db sample_confirm d r Hr eq_refl).
Defined.

Lemma browser_logout_completes_witness :
  exists db2 r2 db3 r3,
    bind_browser_logout prepared_db sample_bind prepared_db = (db2, Ok r2)
    /\ confirm_browser_logout db2 sample_confirm db2 = (db3, Ok r3)
    /\ br_browser_session_id r3 = 12.
Proof.
  apply (browser_logout_completes sample_prepare_logout sample_db prepared_db (sample_logout_record 1)
           sample_bind sample_confirm sample_db_ok prepared_run); try reflexivity.
  intros b Hb; vm_compute in Hb; injection Hb as <-; vm_compute; repeat split; reflexivity.
Defined.

(** Binding after the deadline marks the request expired. *)
Definition late_bind : BindBrowserLogout :=
  mkBindBrowserLogout (sample_token 21) (sample_token 5) 1 (sample_token 22) (seconds 99).

Lemma browser_logout_failures_witness :
  marks_overdue (sample_token 21) (seconds 99) prepared_db
    (bind_browser_logout prepared_db late_bind prepared_db).1.
Proof.
  assert (store_ok prepared_db) as Hok.
  { eapply prepare_logout_keeps; [apply sample_db_ok | apply prepared_run]. }
  destruct (bind_browser_logout prepared_db late_bind prepared_db) as [d r] eqn:Hb.
  assert (r = Err AppError.InvalidTransition) as Hr by (revert Hb; vm_compute; by intros [= _ <-]).
  rewrite Hr in Hb.
  destruct (proj1 (browser_logout_failures prepared_db late_bind sample_confirm prepared_db Hok) d
              AppError.InvalidTransition Hb) as [Hd|Hd]; [|exact Hd].
  exfalso; revert Hb; rewrite Hd; vm_compute; discriminate.
Defined.
