(* ===== verification/EmailSessions.v ===== *)
(** * Email sign-in and the session store

    The email authority writes logins, users, browser sessions and handoffs too.
    It keeps the invariant of the session tables, so what is proved of sessions,
    refresh tokens, logins and handoffs from that invariant holds of stores that
    email sign-ins have written to; and it moves its logins along a machine of
    its own, which joins that of the providers at the handoff. *)
From S2P Require Import Prelude.
From S2P Require Import Json.
From S2P Require Import LoginTables.
From S2P Require Import Lifecycle.
From S2P Require Import UrlValues.
From S2P Require Import Database.
From S2P Require Import LoginStore.
From S2P Require Import Projection.
From S2P Require Import SessionAuthority.
From S2P Require Import Login.
From S2P Require Import Handoff.
From S2P Require Import SessionStore.
From S2P Require Import SessionEffects.
From S2P Require Import LoginHistory.
From S2P Require Import Frames.
From S2P Require Import LoginEffects.
From S2P Require Import HandoffEffects.
From S2P Require Import ServerApi.
From S2P Require Import ControlLifecycle.
From S2P Require Import ControlEffects.
From S2P Require Import SessionOps.
From S2P Require Import SessionAuthorityProofs.
From S2P Require Import EmailTables.
From S2P Require Import PasswordlessEmail.
From S2P Require Import EmailEffects.
From S2P Require Import EmailProofs.

(** ** The statuses of an email login *)
(** The moves the statements of [email.rs] write.  The list is the store's own: the
    first two are edges of [LoginTransactionStatus::transition], the resend, which
    keeps the status, and the completion, which skips [authenticated], are not. *)
Definition email_move (from to : string) : Prop :=
  (from, to) ∈ [("awaiting_method_selection", "email_address_entry");
                ("email_address_entry", "email_challenge_pending");
                ("email_challenge_pending", "email_challenge_pending");
                ("email_challenge_pending", "handoff_issued")]%string.

Lemma email_move_edges (s s' : Login.LoginTransactionStatus) :
  email_move (Login.LoginTransactionStatus_as_str s) (Login.LoginTransactionStatus_as_str s') ->
  Login.LoginTransactionStatus_allowed s s' = true
  \/ s = Login.EmailChallengePending
     /\ (s' = Login.EmailChallengePending \/ s' = Login.HandoffIssued)
     /\ Login.LoginTransactionStatus_transition s' s = (s, Err InvalidTransition).
Proof.
  unfold email_move. rewrite !elem_of_cons, elem_of_nil. intros Hm.
  repeat (destruct Hm as [[= H1 H2]|Hm]; [destruct s; try discriminate H1; destruct s'; try discriminate H2; auto|]).
  done.
Qed.

Record email_login_step (l l' : LoginTransactionRow) : Prop := {
  es_id : lg_id l' = lg_id l;
  es_project : lg_project_id l' = lg_project_id l;
  es_application : lg_application_id l' = lg_application_id l;
  es_redirect : lg_redirect_uri l' = lg_redirect_uri l;
  es_challenge : lg_application_pkce_challenge l' = lg_application_pkce_challenge l;
  es_expiry : lg_expires_at l' = lg_expires_at l;
  es_binding : lg_browser_binding_digest l' = lg_browser_binding_digest l;
  es_revision : lg_transaction_revision l' = lg_transaction_revision l + 1;
  es_move : email_move (lg_status l) (lg_status l')
}.

(** What an email operation leaves of the session store. *)
Record signed_in (db db' : Database) : Prop := {
  si_sessions : db_sessions db' = db_sessions db;
  si_families : db_families db' = db_families db;
  si_generations : db_generations db' = db_generations db;
  si_tickets : forall i t, db_tickets db !! i = Some t -> db_tickets db' !! i = Some t;
  si_logins : forall i l, db_logins db !! i = Some l ->
    exists l', db_logins db' !! i = Some l' /\ rtc email_login_step l l'
}.
#[export] Instance signed_in_preorder : PreOrder signed_in.
Proof.
  split.
  - intros db. constructor; try done. intros i l Hl. exists l. by split.
  - intros a b c [] []. constructor; try congruence; [eauto|].
    intros i l (l' & (l'' & ? & ?)%si_logins1 & ?)%si_logins0. exists l''. split; [done|by etrans].
Qed.

Definition sign_in_kept (db db' : Database) : Prop :=
  world_ok db -> world_ok db' /\ signed_in db db'.
#[export] Instance sign_in_kept_preorder : PreOrder sign_in_kept.
Proof.
  split; [by intros db; split|]. intros a b c Hab Hbc Ha.
  destruct (Hab Ha) as [Hb ?]. destruct (Hbc Hb). split; [done|by etrans].
Qed.

(** ** Statements *)
Lemma same_rows_kept db db' :
  (store_ok db -> store_ok db') -> db_sessions db' = db_sessions db -> db_families db' = db_families db ->
  db_generations db' = db_generations db -> db_logins db' = db_logins db ->
  db_tickets db' = db_tickets db -> sign_in_kept db db'.
Proof.
  intros Hs H1 H2 H3 H4 H5 [Hok Hl]. split.
  - split; [by apply Hs|]. by apply (login_frame db db' Hl H4 H5).
  - constructor; rewrite ?H4, ?H5; try done. intros i l Hi. exists l. by split.
Qed.

Section statements.
Implicit Types db : Database.

Lemma audit_sign_in db p a b c d e : frame_at sign_in_kept db (append_runtime_audit p a b c d e).
Proof.
  intros db' u (ev & -> & _)%append_runtime_audit_ok. apply same_rows_kept; try done.
  intros Hok. apply (store_frame db); try done; [exact (store_owners _ Hok)|exact (store_directory _ Hok)].
Qed.

Lemma insert_user_sign_in db row : frame_at sign_in_kept db (insert_user row).
Proof.
  intros db' u [_ ->]%insert_user_ok. apply same_rows_kept; try done.
  intros Hok. by apply (store_put_user db row row).
Qed.

Lemma insert_identity_sign_in db id row : frame_at sign_in_kept db (insert_email_identity id row).
Proof.
  intros db' u ->%insert_email_identity_ok. apply same_rows_kept; try done.
  intros Hok. apply (store_frame db); try done; [exact (store_owners _ Hok)|exact (store_directory _ Hok)].
Qed.

Lemma update_user_sign_in db row : frame_at sign_in_kept db (update_user row).
Proof.
  intros db' [] (_ & _ & _ & ->)%update_user_ok. apply same_rows_kept; try done.
  intros Hok. by apply (store_put_user db row row).
Qed.

Lemma set_primary_email_sign_in db u i : frame_at sign_in_kept db (set_primary_email u i).
Proof. pose proof update_user_sign_in. unfold set_primary_email. solve_frame. Qed.

Lemma update_browser_sign_in db row : frame_at sign_in_kept db (update_browser row).
Proof.
  intros db' [] (_ & Hc & ->)%update_browser_ok. apply same_rows_kept; try done.
  intros Hok. by apply store_put_browser.
Qed.

Lemma insert_browser_sign_in db row : frame_at sign_in_kept db (insert_browser row).
Proof.
  unfold insert_browser. intros db' [] (d & a & [= <- <-] & Hr)%mseq_ok.
  apply mseq_ok in Hr as (? & [] & [Hc ->]%check_that_ok & [= <-]).
  apply same_rows_kept; try done. intros Hok. apply store_put_browser; [done|].
  rewrite !andb_true_iff in *. tauto.
Qed.

Lemma insert_ticket_sign_in db t : frame_at sign_in_kept db (insert_ticket t).
Proof.
  intros db' [] Ht Hw. pose proof (insert_ticket_world _ _ _ _ Ht Hw) as [Hw' _]. split; [done|].
  apply insert_ticket_ok in Ht as (Hn%is_none_iff & _ & ->). constructor; cbn; try done.
  - intros i x Hx. rewrite lookup_insert_ne; [done|congruence].
  - intros i l Hl. exists l. by split.
Qed.

Lemma insert_handoff_sign_in db id d l u b m a i e r :
  frame_at sign_in_kept db (insert_handoff id d l u b m a i e r).
Proof. intros db' t (_ & _ & _ & _ & _ & Ht)%insert_handoff_ok. by eapply insert_ticket_sign_in. Qed.

Lemma browser_sign_in db c : frame_at sign_in_kept db (rotate_or_create_browser_session c).
Proof.
  pose proof update_browser_sign_in. pose proof insert_browser_sign_in.
  unfold rotate_or_create_browser_session, retire_browser, create_browser_session. solve_frame.
Qed.

Lemma update_login_sign_in db l l' :
  db_logins db !! lg_id l = Some l -> email_login_step l l' -> lg_transaction_revision l' <= i64_max ->
  frame_at sign_in_kept db (update_login l').
Proof.
  intros Hl Hst Hrev db' [] (_ & (Hc & _ & Hu)%login_accepts_true & ->)%update_login_ok [Hs Hlt].
  rewrite (es_id _ _ Hst) in *. split; [split|].
  - by apply store_login.
  - destruct Hlt. constructor; cbn; try done.
    + intros i x [[<- <-]|[_ Hx]]%lookup_insert_Some; [by rewrite (es_id _ _ Hst)|eauto].
    + intros i x [[<- <-]|[_ Hx]]%lookup_insert_Some; eauto.
    + by apply clash_free_put; [apply login_conflict_sym|..].
    + intros i x [[<- <-]|[_ Hx]]%lookup_insert_Some Hx'; [|eauto]. exfalso.
      pose proof (es_move _ _ Hst) as Hm. rewrite Hx' in Hm. unfold email_move in Hm. cbn in Hm. set_solver.
  - constructor; cbn; try done. intros i x Hx. destruct (decide (i = lg_id l)) as [->|Hne].
    + rewrite lookup_insert_eq. exists l'. split; [done|]. assert (x = l) as -> by (cbn in Hl; congruence).
      by apply rtc_once.
    + exists x. by rewrite lookup_insert_ne.
Qed.
End statements.

(** ** Programs on the email store *)
Definition store_kept (s s' : EmailStore) : Prop := sign_in_kept (es_db s) (es_db s').
#[export] Instance store_kept_preorder : PreOrder store_kept.
Proof. split; unfold store_kept; [done|]. intros a b c ? ?. by etrans. Qed.

Lemma on_db_store {A} s (m : txn A) :
  frame_at sign_in_kept (es_db s) m -> e_frame_at store_kept s (on_db m).
Proof. intros Hm s' a (db & Hr & ->)%on_db_ok. by eapply Hm. Qed.

(** Statements on the tables of the email authority itself. *)
Definition same_db (s s' : EmailStore) : Prop := es_db s' = es_db s.
#[export] Instance same_db_preorder : PreOrder same_db.
Proof. split; unfold same_db; [done|]. intros a b c ? ?. congruence. Qed.

Lemma update_outbox_db s p f : e_frame_at same_db s (update_outbox p f).
Proof. by intros s' n [-> _]%update_outbox_ok. Qed.
Lemma update_transfers_db s p f : e_frame_at same_db s (update_transfers p f).
Proof. by intros s' n [-> _]%update_transfers_ok. Qed.
Lemma update_challenges_db s p f : e_frame_at same_db s (update_challenges p f).
Proof. by intros s' n (_ & -> & _)%update_challenges_ok. Qed.
Lemma insert_challenge_db s c : e_frame_at same_db s (insert_challenge c).
Proof. by intros s' [] (_ & _ & _ & _ & ->)%insert_challenge_ok. Qed.
Lemma insert_mail_db s m : e_frame_at same_db s (insert_mail m).
Proof. by intros s' n (_ & _ & ->)%insert_mail_ok. Qed.
Lemma insert_transfer_db s t : e_frame_at same_db s (insert_transfer t).
Proof. by intros s' n ->%insert_transfer_ok. Qed.
Lemma insert_alias_db s row : e_frame_at same_db s (insert_alias row).
Proof. by intros s' n [_ ->]%insert_alias_ok. Qed.
Lemma insert_alias_if_absent_db s row : e_frame_at same_db s (insert_alias_if_absent row).
Proof. by intros s' n [->| ->]%insert_alias_if_absent_ok. Qed.
#[export] Hint Resolve update_outbox_db update_transfers_db update_challenges_db insert_challenge_db
  insert_mail_db insert_transfer_db insert_alias_db insert_alias_if_absent_db : email_frames.

Lemma same_db_store {A} s (m : etxn A) : e_frame_at same_db s m -> e_frame_at store_kept s m.
Proof. intros Hm s' a Hr. unfold store_kept. by rewrite (Hm _ _ Hr). Qed.

Lemma retention_db what locked clock now limit s :
  e_frame_at same_db s (retention_statement what locked clock now limit).
Proof.
  destruct what; cbn [retention_statement];
    unfold end_exhausted_mail, end_useless_mail, expire_challenges, redact_challenges, redact_mail,
      delete_transfers; solve_email. by apply e_frame_modify.
Qed.

Lemma verify_db v : e_effect same_db (verify_email_proof v).
Proof. unfold verify_email_proof, verify_locked. solve_email. Qed.
Lemma establish_db c : e_effect same_db (establish_magic_transfer_context c).
Proof. unfold establish_magic_transfer_context, establish_locked. solve_email. Qed.
Lemma finish_attempt_db clock job outcome next now :
  e_effect same_db (finish_mail_attempt clock job outcome next now).
Proof. unfold finish_mail_attempt. destruct (attempt_result outcome next) as [[? ?] ?]. solve_email. Qed.

(** A login the authority found and moves on. *)
Lemma email_login_ok db p tx l m :
  login_tables_ok db -> email_login db p tx = Some (l, m) -> db_logins db !! lg_id l = Some l.
Proof.
  intros Hl. unfold email_login. destruct (find_by_id _ _ _) as [l0|] eqn:Hf; [|done]. cbn [mbind option_bind].
  destruct (_ !! _); [|done]. intros [= <- _]. apply find_by_id_some in Hf as [Hf _].
  by rewrite (lts_logins _ Hl _ _ Hf).
Qed.

Lemma bigint_succ_ok r r' : bigint_succ r = Ok r' -> r' = r + 1 /\ r' <= i64_max.
Proof. unfold bigint_succ. intros H. inv_ok. bool_prop. lia. Qed.

Lemma moved_login status method revision user at_ now l :
  revision = lg_transaction_revision l + 1 -> email_move (lg_status l) status ->
  email_login_step l (login_with_email status method revision user at_ now l).
Proof. by constructor. Qed.

Lemma select_kept c : effect sign_in_kept (transaction (select_locked c)).
Proof.
  apply effect_transaction; [exact _|]. intros db db' r Hr Hw. revert Hw.
  unfold select_locked in Hr. apply mseq_ok in Hr as (? & ? & [= <- <-] & Hr).
  apply mseq_ok in Hr as (? & [l m] & [Hf%ok_or_ok ->]%mlift_ok & Hr). cbv zeta in Hr. cbn [fst snd] in Hr.
  apply if_mfail_ok in Hr as [Hst Hr]. apply if_mfail_ok in Hr as [_ Hr].
  do 3 (apply mseq_ok in Hr as (? & ? & [_ ->]%mlift_ok & Hr)).
  apply mseq_ok in Hr as (? & rv & [[-> Hrv]%bigint_succ_ok ->]%mlift_ok & Hr).
  apply mseq_ok in Hr as (d & [] & Hu & [= -> _]). intros Hw.
  apply (update_login_sign_in _ l) in Hu; [by apply Hu|by eapply email_login_ok, Hf; apply Hw| |done].
  apply moved_login; [done|]. apply orb_false_iff in Hst as [_ Hst%negb_false_iff%bool_decide_eq_true].
  rewrite Hst. unfold email_move. set_solver.
Qed.

Lemma commit_store_kept clock cancel_clock recent_clock c :
  e_effect store_kept (commit_email_generation clock cancel_clock recent_clock c).
Proof.
  unfold commit_email_generation. solve_email. intros s' r Hr Hw. revert Hw.
  unfold commit_generation_locked in Hr. apply mseq_ok in Hr as (? & ? & [= <- <-] & Hr).
  apply mseq_ok in Hr as (? & [l m] & [Hf%ok_or_ok ->]%mlift_ok & Hr). cbv zeta in Hr. cbn [fst snd] in Hr.
  do 2 apply if_mfail_ok in Hr as [_ Hr]. apply if_mfail_ok in Hr as [Hst Hr].
  apply mseq_ok in Hr as (? & ? & [_ ->]%mlift_ok & Hr).
  apply mseq_ok in Hr as (s1 & ? & H1%update_outbox_db & Hr).
  apply mseq_ok in Hr as (s2 & ? & H2%update_challenges_db & Hr).
  apply mseq_ok in Hr as (? & ? & [= <- <-] & Hr). apply mseq_ok in Hr as (? & au & [_ ->]%mlift_ok & Hr).
  apply mseq_ok in Hr as (s3 & ? & H3%insert_challenge_db & Hr).
  apply mseq_ok in Hr as (s4 & ? & H4 & Hr).
  apply mseq_ok in Hr as (? & rv & [[-> Hrv]%bigint_succ_ok ->]%mlift_ok & Hr). intros Hw.
  assert (es_db s4 = es_db s) as Hsame.
  { unfold same_db in *. assert (es_db s4 = es_db s3); [|congruence].
    destruct (bool_decide _); [by apply insert_mail_db in H4|by injection H4 as <- _]. }
  apply on_db_ok in Hr as (db & Hu & ->). rewrite Hsame in Hu. destruct r.
  apply (update_login_sign_in _ l) in Hu; [by apply Hu|by eapply email_login_ok, Hf; apply Hw| |done].
  apply moved_login; [done|]. apply orb_false_iff in Hst as [_ Hst%negb_false_iff%bool_decide_eq_true].
  unfold email_move. rewrite !elem_of_cons, elem_of_nil in Hst.
  destruct Hst as [-> |[-> |[]]]; rewrite !elem_of_cons; auto.
Qed.

Section completion.
Context `{CanonicalHash}.

Lemma completed_user_store s c version : e_frame_at store_kept s (completed_user c version).
Proof.
  unfold completed_user, sign_in_existing, sign_up.
  pose proof (fun s row => same_db_store s _ (insert_alias_db s row)).
  pose proof (fun s row => same_db_store s _ (insert_alias_if_absent_db s row)).
  solve_email; apply on_db_store;
    eauto using insert_user_sign_in, insert_identity_sign_in, set_primary_email_sign_in.
Qed.

Lemma completed_user_logins s c version s' r :
  completed_user c version s = (s', Ok r) -> db_logins (es_db s') = db_logins (es_db s).
Proof.
  set (R := fun s s' : EmailStore => db_logins (es_db s') = db_logins (es_db s)).
  assert (PreOrder R) by (split; unfold R; [done|]; intros a b d; congruence).
  assert (forall s, e_frame_at R s (completed_user c version)) as Hf; [|by apply Hf].
  unfold completed_user, sign_in_existing, sign_up. intros s0. solve_email; intros s1 w Hr; unfold R.
  - by rewrite (insert_alias_if_absent_db _ _ _ _ Hr).
  - by apply on_db_ok in Hr as (? & [_ ->]%insert_user_ok & ->).
  - by apply on_db_ok in Hr as (? & ->%insert_email_identity_ok & ->).
  - by rewrite (insert_alias_db _ _ _ _ Hr).
  - apply on_db_ok in Hr as (d & Hr & ->). revert Hr. unfold set_primary_email.
    intros (? & ? & [= <- <-] & Hr)%mseq_ok. destruct (db_users _ !! _); [|by injection Hr as <- _].
    apply mseq_ok in Hr as (? & [] & [_ ->]%check_that_ok & Hr). destruct w.
    by apply update_user_ok in Hr as (_ & _ & _ & ->).
Qed.

Lemma browser_logins db c db' b :
  rotate_or_create_browser_session c db = (db', Ok b) -> db_logins db' = db_logins db.
Proof.
  set (R := fun db db' : Database => db_logins db' = db_logins db).
  assert (PreOrder R) by (split; unfold R; [done|]; intros x y z; congruence).
  assert (forall db row, frame_at R db (update_browser row)).
  { by intros d row d' [] (_ & _ & ->)%update_browser_ok. }
  assert (forall db row, frame_at R db (insert_browser row)).
  { unfold insert_browser. intros d row d' [] (? & ? & [= <- <-] & Hr)%mseq_ok.
    by apply mseq_ok in Hr as (? & [] & [_ ->]%check_that_ok & [= <-]). }
  assert (frame_at R db (rotate_or_create_browser_session c)) as Hf; [|by apply Hf].
  unfold rotate_or_create_browser_session, retire_browser, create_browser_session. solve_frame.
Qed.

Lemma complete_writes_store s c l ch uid pub rev :
  db_logins (es_db s) !! lg_id l = Some l -> lg_status l = "email_challenge_pending"%string ->
  e_frame_at store_kept s (complete_writes c l ch uid pub rev).
Proof.
  intros Hl Hst s' h. unfold complete_writes. cbv zeta.
  intros (s1 & b & Hb & Hr)%mseq_ok. apply mseq_ok in Hr as (s2 & t & Ht & Hr).
  apply mseq_ok in Hr as (s3 & [] & (Hd3 & _ & _)%consume_transfer_ok & Hr).
  apply mseq_ok in Hr as (s4 & [] & ->%consume_challenge_ok & Hr).
  apply mseq_ok in Hr as (? & rv & [[-> Hrv]%bigint_succ_ok ->]%mlift_ok & Hr).
  apply mseq_ok in Hr as (s5 & [] & Hu & Hr). apply mseq_ok in Hr as (s6 & u & Ha & [= <- _]).
  apply on_db_ok in Hb as (d1 & Hb & ->). apply on_db_ok in Ht as (d2 & Ht & ->). cbn in Ht, Hd3.
  apply on_db_ok in Hu as (d5 & Hu & ->). apply on_db_ok in Ha as (d6 & Ha & ->). cbn [es_db set_es_db set_es_challenges] in Hu, Ha.
  pose proof (browser_logins _ _ _ _ Hb) as E1. pose proof (insert_handoff_logins _ _ _ _ _ _ _ _ _ _ _ _ _ Ht) as E2.
  rewrite Hd3 in Hu. unfold store_kept. cbn.
  etrans; [by eapply browser_sign_in|]. etrans; [by eapply insert_handoff_sign_in|].
  etrans; [|by eapply audit_sign_in]. eapply (update_login_sign_in _ l); [by rewrite E2, E1| | |exact Hu]; [|done].
  apply moved_login; [done|]. rewrite Hst. unfold email_move. set_solver.
Qed.

Lemma complete_store_kept c : e_effect store_kept (complete_email_proof c).
Proof.
  unfold complete_email_proof. solve_email. intros s' h Hc Hw. revert Hc.
  unfold complete_locked. cbv zeta. intros (? & ? & [= <- <-] & Hc)%mseq_ok.
  apply mseq_ok in Hc as (? & [l ch] & [Hl ->]%mlift_ok & Hc). cbn [fst snd] in Hc.
  apply lock_proof_ok in Hl as ([Hl _]%find_by_id_some & _).
  pose proof (lts_logins _ (world_login _ Hw) _ _ Hl) as Hid. rewrite <- Hid in Hl.
  apply if_mfail_ok in Hc as [(_ & Hst & _)%negb_false_iff%challenge_open_ok Hc].
  apply mseq_ok in Hc as (? & ? & [_ ->]%mlift_ok & Hc). do 3 apply if_mfail_ok in Hc as [_ Hc].
  apply mseq_ok in Hc as (s1 & [[[uid pub] rev] is_new] & Hu & Hc).
  apply mseq_ok in Hc as (s2 & h2 & Hwr & Hc). apply mseq_ok in Hc as (s3 & ? & Ht & [= <- _]).
  assert (s3 = s2) as ->.
  { destruct is_new; [|by injection Ht as <- _].
    apply on_db_ok in Ht as (d & <-%sign_up_triggers_reads & ->). by destruct s2. }
  pose proof (completed_user_logins _ _ _ _ _ Hu) as El.
  apply completed_user_store in Hu. apply complete_writes_store in Hwr; [|by rewrite El|done].
  revert Hw. change (store_kept s s2). by etrans.
Qed.

(** Anything but the changes of other parts of the program. *)
Definition of_email (op : email_op) : bool :=
  match op with Elsewhere _ => false | _ => true end.

Lemma email_op_store op s : of_email op = true -> store_kept s (run_email_op op s).
Proof.
  assert (forall s s', same_db s s' -> store_kept s s') as Hsame by (intros ? ? E; unfold store_kept; by rewrite E).
  destruct op as [c|k1 k2 k3 c|c|v|c|k j o n now|what lk k now lim|db]; intros Hop; cbn [run_email_op].
  - apply e_effect_fst. unfold select_email_method. do 2 (apply e_effect_lift; [exact _|]; intros ? ?).
    intros s0 s' r. unfold on_db. destruct (transaction (select_locked c) (es_db s0)) as [db x] eqn:Ht.
    intros [= <- _]. by eapply select_kept.
  - apply e_effect_fst, commit_store_kept.
  - apply Hsame, e_effect_fst, establish_db.
  - apply Hsame, e_effect_fst, verify_db.
  - apply e_effect_fst, complete_store_kept.
  - apply Hsame, e_effect_fst, finish_attempt_db.
  - apply Hsame, e_effect_fst, e_effect_transaction; [exact _|]. intros s0. apply retention_db.
  - done.
Qed.

Lemma email_ops_store ops s :
  Forall (fun op => of_email op = true) ops -> store_kept s (run_email_ops ops s).
Proof.
  intros Hops. revert s. induction Hops as [|op ops Hop _ IH]; intros s; cbn; [done|].
  etrans; [by apply email_op_store|apply IH].
Qed.
End completion.

(** ** Sessions and email sign-ins together *)
(** What was used up or ended stays so. *)
Record spent_stays (db db' : Database) : Prop := {
  ss_generation : forall i g, db_generations db !! i = Some g ->
    exists g', db_generations db' !! i = Some g' /\ same_token g g'
      /\ (rg_status g = "consumed"%string -> rg_status g' = "consumed"%string);
  ss_session : forall i x, db_sessions db !! i = Some x ->
    exists x', db_sessions db' !! i = Some x' /\ (as_status x <> "active"%string -> as_status x' <> "active"%string);
  ss_ticket : forall i t, db_tickets db !! i = Some t -> ht_status t <> "issued"%string ->
    db_tickets db' !! i = Some t
}.
#[export] Instance spent_stays_preorder : PreOrder spent_stays.
Proof.
  split.
  - intros db. constructor; try done; [intros i g Hg; by exists g|intros i x Hx; by exists x].
  - intros a b c [g1 s1 t1] [g2 s2 t2]. constructor; [..|eauto].
    + intros i g (g' & (g'' & ? & (? & ? & ?) & ?)%g2 & (? & ? & ?) & ?)%g1. exists g''.
      unfold same_token. split_and!; try congruence; auto.
    + intros i x (x' & (x'' & ? & ?)%s2 & ?)%s1. exists x''. split; [done|auto].
Qed.

Lemma evolves_spent db db' : world_evolves db db' -> spent_stays db db'.
Proof.
  intros [[] []]. constructor; [done| |].
  - intros i x (x' & ? & _ & ?)%ev_session. exists x'. by split.
  - intros i t Ht Hn. destruct (le_ticket _ _ Ht) as (t' & Ht' & _ & Hs). by rewrite <- (Hs Hn).
Qed.

Lemma signed_in_spent db db' : signed_in db db' -> spent_stays db db'.
Proof.
  intros [Hs _ Hg Ht _]. constructor; rewrite ?Hs, ?Hg; [intros i g Hi; by exists g|intros i x Hx; by exists x|eauto].
Qed.

Section sign_ins.
Context `{CanonicalHash} `{ProjectionCryptography} `{UrlLib} `{TimeFormat} `{JsonbText}.

Inductive sign_in_op :=
| BySession (op : session_op)
| ByEmail (op : email_op).

Definition run_sign_in_op (op : sign_in_op) (s : EmailStore) : EmailStore :=
  match op with
  | BySession op => set_es_db (run_session_op op (es_db s)) s
  | ByEmail op => run_email_op op s
  end.
Definition run_sign_in_ops (ops : list sign_in_op) (s : EmailStore) : EmailStore :=
  fold_left (fun s op => run_sign_in_op op s) ops s.

(** No step stands for parts of the program that are not named. *)
Definition closed_op (op : sign_in_op) : bool :=
  match op with BySession _ => true | ByEmail op => of_email op end.

Definition both_ok (s : EmailStore) : Prop := world_ok (es_db s) /\ email_ok s.

Lemma sign_in_op_keeps op s :
  closed_op op = true -> both_ok s ->
  both_ok (run_sign_in_op op s) /\ spent_stays (es_db s) (es_db (run_sign_in_op op s)).
Proof.
  intros Hop [Hw He]. destruct op as [op|op]; cbn [run_sign_in_op closed_op] in *.
  - destruct (session_op_keeps op _ Hw) as [Hw' Hev]. split; [|by apply evolves_spent].
    split; [done|]. by apply (db_blind (R := email_kept)).
  - destruct (email_op_store op s Hop Hw) as [Hw' Hs]. destruct (email_op_kept op s He) as [He' _].
    split; [done|]. by apply signed_in_spent.
Qed.

Lemma sign_in_ops_keep ops s :
  Forall (fun op => closed_op op = true) ops -> both_ok s ->
  both_ok (run_sign_in_ops ops s) /\ spent_stays (es_db s) (es_db (run_sign_in_ops ops s)).
Proof.
  intros Hops. revert s. induction Hops as [|op ops Hop _ IH]; intros s Hok; [done|].
  destruct (sign_in_op_keeps op s Hop Hok) as [Hok1 Hs1]. destruct (IH _ Hok1) as [Hok2 Hs2].
  split; [done|]. by etrans.
Qed.

(** C36: Email sign-ins and the session authority work on one store: any mix of
    their operations keeps the invariants of both, an email operation changes no
    session, family or refresh token and moves a login only by [email_move], and
    a refresh token that was used, a session that ended and a handoff that was
    exchanged stay so: presenting the token is only ever a replay of its family. *)
Theorem email_sign_in_keeps_sessions (ops : list sign_in_op) (s : EmailStore) :
  Forall (fun op => closed_op op = true) ops -> world_ok (es_db s) -> email_ok s ->
  let s' := run_sign_in_ops ops s in
  world_ok (es_db s') /\ email_ok s'
  /\ (forall op, of_email op = true -> signed_in (es_db s') (es_db (run_email_op op s')))
  /\ (forall i g gs fs c db r, db_generations (es_db s) !! i = Some g ->
        rg_status g = "consumed"%string -> rg_token_digest g = vd_value (rt_presented_token c) ->
        rg_token_digest_key_version g = vd_key_version (rt_presented_token c) ->
        rotate_refresh_token gs fs c (es_db s') = (db, Ok r) -> r = ReplayRevoked (rg_family_id g))
  /\ (forall i x, db_sessions (es_db s) !! i = Some x -> as_status x <> "active"%string ->
        exists x', db_sessions (es_db s') !! i = Some x' /\ as_status x' <> "active"%string)
  /\ (forall i t, db_tickets (es_db s) !! i = Some t -> ht_status t <> "issued"%string ->
        db_tickets (es_db s') !! i = Some t).
Proof.
  intros Hops Hw He s'. destruct (sign_in_ops_keep ops s Hops (conj Hw He)) as [[Hw' He'] [Hg Hx Ht]].
  fold s' in Hw', He', Hg, Hx, Ht. split_and!; try done.
  - intros op Hop. by apply (email_op_store op s' Hop Hw').
  - intros i g gs fs c db r Hi Hst Hd Hv Hr.
    destruct (Hg _ _ Hi) as (g' & Hg' & (Hd' & Hv' & Hf') & Hst'). rewrite <- Hf'.
    destruct (consumed_token_replays _ _ _ (world_store _ Hw') Hg' (Hst' Hst)) as [Hrot _].
    eapply Hrot; [..|exact Hr]; congruence.
  - intros i x Hi Ha. destruct (Hx _ _ Hi) as (x' & ? & Ha'). exists x'. split; [done|auto].
Qed.
End sign_ins.
