(* ===== verification/LoginSamples.v ===== *)
(** * A worked login

    A store with a project that offers Google and session reuse, and the login
    flow run on it: a login is created, bound to a browser and then either sent
    to the provider or completed from the browser's session. *)
From S2P Require Import Prelude.
From S2P Require Import Json.
From S2P Require Import LoginTables.
From S2P Require Import WebhookTables.
From S2P Require Import Lifecycle.
From S2P Require Import Managed.
From S2P Require Import UrlValues.
From S2P Require Import Database.
From S2P Require Import LoginStore.
From S2P Require Import Projection.
From S2P Require Import ProjectionProofs.
From S2P Require Import WebhookOutbox.
From S2P Require Import SessionAuthority.
From S2P Require Import BrowserLogout.
From S2P Require Import Login.
From S2P Require Import Handoff.
From S2P Require Import SessionStore.
From S2P Require Import SessionEffects.
From S2P Require Import LoginHistory.
From S2P Require Import Frames.
From S2P Require Import LoginEffects.
From S2P Require Import HandoffEffects.
From S2P Require Import SessionOps.
From S2P Require Import SessionAuthorityProofs.

Definition login_policy : PolicyRow :=
  mkPolicyRow 1 1 1 (JObject [("access_token_lifetime_seconds"%string, JInt 600)])
    (JObject [("browser_session_reuse"%string, JBool true);
              ("browser_session_reuse_max_age_seconds"%string, JInt 3600)]).
Definition google_provider : ProviderConfigurationRow :=
  mkProviderConfigurationRow 30 1 "google" "google" "Google" "https://accounts.google.com"
    "client" "https://id.example/callback/google" 31 1 "active" 1 false 1 None.
Definition login_tables : LoginTables :=
  mkLoginTables ∅ ∅ ∅ ∅ ∅ {[(1, 2, "https://app.example/cb"%string)]} {[30 := google_provider]}
    {[(1, 2, 30) := mkProviderAssignmentRow 1 2 30 "active" 1]} ∅ ∅ ∅ ∅ ∅.

Definition login_base : Database :=
  {| db_projects := db_projects stale_db; db_applications := db_applications stale_db;
     db_users := db_users stale_db; db_policies := {[1 := login_policy]};
     db_rings := db_rings stale_db; db_keys := db_keys stale_db;
     db_browsers := db_browsers stale_db; db_bindings := db_bindings stale_db;
     db_projections := db_projections stale_db; db_sessions := db_sessions stale_db;
     db_families := db_families stale_db; db_generations := db_generations stale_db;
     db_logouts := ∅; db_email_identities := db_email_identities stale_db;
     db_login := login_tables; db_webhook := no_webhook_rows; db_audit := [] |}.

Lemma login_base_world : world_ok login_base.
Proof.
  split; [|by apply no_logins_ok].
  pose proof stale_db_ok as Hok; apply (store_frame stale_db); try done.
  - exact (store_owners _ Hok).
  - exact (store_directory _ Hok).
Qed.

Definition sample_challenge : string := "E9Melhoa2OwvFrEMTJguCHaoeK1t8URWbuGJSstw-cM".

Definition sample_create : CreateLoginTransaction :=
  {| cl_id := 40; cl_project_id := 1; cl_application_id := 2; cl_interaction := sample_token 41;
     cl_redirect_uri := "https://app.example/cb"; cl_application_pkce_challenge := sample_challenge;
     cl_application_state := mkProtectedValue (repeat 0 20) 1; cl_presentation_hint := None;
     cl_revisions := mkLoginRevisionSnapshot 1 1 1 1 1; cl_created_at := seconds 10;
     cl_expires_at := seconds 610;
     cl_admitted_providers :=
       [mkAdmittedProviderMethod Google "google" 30 "Google" "https://accounts.google.com" 1 None 1];
     cl_admitted_email := None |}.
Definition created_db : Database := Eval vm_compute in (create_login_transaction sample_create login_base).1.

Definition sample_hosted_bind : BindHostedBrowser :=
  mkBindHostedBrowser (sample_token 41) 1 (sample_token 42) (sample_token 43) (seconds 11).
Definition hosted_db : Database := Eval vm_compute in (bind_hosted_browser sample_hosted_bind created_db).1.

Definition sample_select : SelectProviderMethod :=
  mkSelectProviderMethod 1 40 2 "google" 30 (sample_token 42) (sample_token 43)
    "https://id.example/callback/google" (sample_token 44) (sample_token 45)
    (mkProtectedValue (repeat 0 20) 1) (seconds 12).
Definition selected_db : Database := Eval vm_compute in (select_provider_method sample_select hosted_db).1.

Definition sample_claim : ClaimProviderCallback :=
  mkClaimProviderCallback 40 "prj_12345678" "google" (sample_token 44) (sample_token 42) [1]
    (seconds 13).
Definition claimed_db : Database :=
  Eval vm_compute in (claim_provider_callback selected_db selected_db sample_claim selected_db).1.

Definition sample_session_reuse : ConfirmBrowserSessionReuse :=
  mkConfirmBrowserSessionReuse 1 40 2 (sample_token 42) (sample_token 43) (sample_token 5) 46
    (sample_token 47) (seconds 12).
Definition issued_db : Database :=
  Eval vm_compute in (confirm_browser_session_reuse hosted_db sample_session_reuse hosted_db).1.

Definition sample_handoff_prepare : PrepareHandoffExchange :=
  mkPrepareHandoffExchange 1 2 (sample_token 47) sample_challenge (seconds 13).
Definition sample_handoff_preparation : HandoffPreparation :=
  Eval vm_compute in
    match prepare_handoff_exchange [] sample_handoff_prepare issued_db with
    | Ok p => p
    | Err _ => mkHandoffPreparation 0 "" "" "" 0 "" 0 0 0 0 0 0 0 JNull 0 0 "" JNull 0 0 0 0
    end.
Definition sample_handoff_commit : CommitHandoffExchange :=
  {| ch_project_id := 1; ch_application_id := 2; ch_handoff_ticket := sample_token 47;
     ch_application_pkce_challenge := sample_challenge;
     ch_preparation := sample_handoff_preparation; ch_binding_id := 50; ch_projection_id := 51;
     ch_application_session_id := 52; ch_refresh_family_id := 53;
     ch_refresh_generation_id := 54; ch_refresh_token := sample_token 55;
     ch_allowed_clock_skew_seconds := 60; ch_now := seconds 14 |}.
Definition exchanged_db : Database :=
  Eval vm_compute in
    (commit_handoff_exchange (seconds 14) ([], []) 56 (fun e => e) sample_handoff_commit issued_db).1.

(** The runs, by evaluation. *)
Lemma created_run : exists r, create_login_transaction sample_create login_base = (created_db, Ok r).
Proof. eexists; vm_compute; reflexivity. Qed.
Lemma hosted_run :
  bind_hosted_browser sample_hosted_bind created_db
  = (hosted_db, Ok (mkLoginTransactionRecord 40 1 2 Login.AwaitingMethodSelection 2 (seconds 610))).
Proof. vm_compute; reflexivity. Qed.
Lemma selected_run : exists r, select_provider_method sample_select hosted_db = (selected_db, Ok r).
Proof. eexists; vm_compute; reflexivity. Qed.
Lemma claimed_run :
  exists r, claim_provider_callback selected_db selected_db sample_claim selected_db
            = (claimed_db, Ok r).
Proof. eexists; vm_compute; reflexivity. Qed.
Lemma issued_run :
  exists r, confirm_browser_session_reuse hosted_db sample_session_reuse hosted_db
            = (issued_db, Ok r).
Proof. eexists; vm_compute; reflexivity. Qed.
Definition sample_handoff_record : HandoffSessionRecord :=
  mkHandoffSessionRecord 1 2 3 "usr_12345678" 6 2 52 53 1 (seconds 14 + seconds (30 * 24 * 3600)).
Lemma exchanged_run :
  commit_handoff_exchange (seconds 14) ([], []) 56 (fun e => e) sample_handoff_commit issued_db
  = (exchanged_db, Ok sample_handoff_record).
Proof. vm_compute; reflexivity. Qed.

Lemma created_world : world_ok created_db.
Proof.
  destruct created_run as [r Hr].
  exact (proj1 (login_op_effect _ (create_login_effect _) _ _ _ Hr login_base_world)).
Qed.
Lemma hosted_world : world_ok hosted_db.
Proof. exact (proj1 (login_op_effect _ (bind_hosted_effect _) _ _ _ hosted_run created_world)). Qed.
Lemma selected_world : world_ok selected_db.
Proof.
  destruct selected_run as [r Hr].
  exact (proj1 (login_op_effect _ (select_provider_effect _) _ _ _ Hr hosted_world)).
Qed.
Lemma issued_world : world_ok issued_db.
Proof. destruct issued_run as [r Hr]; exact (proj1 (reuse_effect _ _ _ _ _ Hr hosted_world)). Qed.
