(* ===== verification/LoginProofs.v ===== *)
(** * Logins: theorems

    The status of a login follows its machine through any sequence of
    operations; the provider's callback is claimed once; a login belongs to the
    browser it was bound to. *)
From S2P Require Import Prelude.
From S2P Require Import Json.
From S2P Require Import LoginTables.
From S2P Require Import WebhookTables.
From S2P Require Import Lifecycle.
From S2P Require Import UrlValues.
From S2P Require Import Database.
From S2P Require Import LoginStore.
From S2P Require Import Projection.
From S2P Require Import WebhookOutbox.
From S2P Require Import SessionAuthority.
From S2P Require Import BrowserLogout.
From S2P Require Import Login.
From S2P Require Import Handoff.
From S2P Require Import SessionStore.
From S2P Require Import SessionEffects.
From S2P Require Import LoginHistory.
From S2P Require Import Frames.
From S2P Require Import LoginEffects.
From S2P Require Import HandoffEffects.
From S2P Require Import SessionOps.
From S2P Require Import ProjectionProofs.
From S2P Require Import SessionAuthorityProofs.
From S2P Require Import LoginSamples.

(** ** What a successful call found and wrote *)
(** The browser binding the caller brings is the login's. *)
Definition bound_to (l : LoginTransactionRow) (digest : VersionedDigest) : Prop :=
  lg_browser_binding_digest l = Some (vd_value digest)
  /\ lg_browser_binding_digest_key_version l = Some (vd_key_version digest).
Definition csrf_of (l : LoginTransactionRow) (digest : VersionedDigest) : Prop :=
  lg_csrf_digest l = Some (vd_value digest)
  /\ lg_csrf_digest_key_version l = Some (vd_key_version digest).

Ltac digest_facts :=
  repeat match goal with
  | H : optional_digest_matches _ _ _ = true |- _ =>
      apply optional_digest_matches_true in H as [? ?]
  end.

(** A call that succeeds did not find the login overdue. *)
Lemma overdue_ok {A} (b : bool) (m : txn unit) e (k : txn (result ApplicationError A)) db db' r :
  (if b then m ;;~ mret (Err e) else k) db = (db', Ok (Ok r)) ->
  b = false /\ k db = (db', Ok (Ok r)).
Proof. destruct b; [|done]; intros Hm; by inv_txn. Qed.

(** Invert a successful call on a login. *)
Ltac inv_live :=
  inv_login;
  repeat (match goal with
  | H : (if _ then _ ;;~ mret (Err _) else _) _ = (_, Ok (Ok _)) |- _ =>
      apply overdue_ok in H; destruct H as [? H]
  end; inv_login).

Lemma login_record_ok l r :
  login_record l = Ok r ->
  ltr_id r = lg_id l /\ ltr_transaction_revision r = lg_transaction_revision l.
Proof. unfold login_record; intros Hr; inv_ok; done. Qed.

Lemma bind_hosted_ok c db db' r :
  login_tables_ok db -> bind_hosted_browser c db = (db', Ok r) ->
  exists l, db_logins db !! lg_id l = Some l
    /\ lg_interaction_digest l = vd_value (bh_interaction c)
    /\ lg_interaction_digest_key_version l = vd_key_version (bh_interaction c)
    /\ lg_transaction_revision l = bh_expected_transaction_revision c
    /\ db_logins db' !! lg_id l
       = Some (login_browser_bound Login.AwaitingMethodSelection c l)
    /\ ltr_id r = lg_id l.
Proof.
  unfold bind_hosted_browser, bind_hosted_locked; intros Hok Hb; inv_live.
  match goal with H : ok_or (find_one _ _) _ = Ok ?l |- _ =>
    apply ok_or_ok, find_one_some in H as (i & Hi & Hp);
    rewrite <- (lts_logins _ Hok _ _ Hi) in Hi; exists l end.
  match goal with H : login_verb _ _ _ = Ok _ |- _ => apply login_verb_ok in H as [-> _] end.
  match goal with H : login_record _ = Ok _ |- _ => apply login_record_ok in H as [Hr _] end.
  bool_prop; destruct Hp; split_and!; try done; apply lookup_insert_eq.
Qed.

Lemma select_ok c db db' r :
  login_tables_ok db -> select_provider_method c db = (db', Ok r) ->
  exists l, db_logins db !! sp_transaction_id c = Some l
    /\ bound_to l (sp_browser_binding c) /\ csrf_of l (sp_csrf c).
Proof.
  unfold select_provider_method, select_provider_locked; intros Hok Hb; inv_live.
  match goal with H : ok_or (find_by_id (db_logins _) _ _) _ = Ok ?l |- _ =>
    apply ok_or_ok, find_by_id_some in H as [Hi _]; exists l end.
  bool_prop; destruct_and!; digest_facts; by split_and!.
Qed.

Lemma claim_ok ps vs c db db' r :
  login_tables_ok db -> claim_provider_callback ps vs c db = (db', Ok r) ->
  exists l rev, db_logins db !! cp_transaction_id c = Some l
    /\ bound_to l (cp_browser_binding c)
    /\ lg_status l = Login.LoginTransactionStatus_as_str Login.ProviderAuthorizationStarted
    /\ lg_upstream_state_digest l = Some (vd_value (cp_upstream_state c))
    /\ db_logins db' !! cp_transaction_id c
       = Some (login_moved Login.ProviderExchangeInProgress rev (cp_now c) l).
Proof.
  unfold claim_provider_callback, claim_callback_locked; intros Hok Hb; inv_live.
  match goal with H : ok_or (callback_login _ _ _ _ _) _ = Ok ?l |- _ =>
    apply ok_or_ok, find_by_id_some in H as [Hi Hp]; exists l end.
  match goal with H : login_verb _ _ _ = Ok _ |- _ => apply login_verb_ok in H as [-> Ha] end.
  login_facts; eexists; bool_prop; destruct_and!; digest_facts; split_and!; try done.
  - match goal with H : lg_status _ = Login.LoginTransactionStatus_as_str ?s |- _ =>
      rewrite H; by destruct s end.
  - rewrite <- (lts_logins _ Hok _ _ Hi); apply lookup_insert_eq.
Qed.

Lemma deny_ok ps vs c db db' r :
  login_tables_ok db -> deny_provider_callback ps vs c db = (db', Ok r) ->
  exists l, db_logins db !! dp_transaction_id c = Some l
    /\ bound_to l (dp_browser_binding c)
    /\ lg_status l = Login.LoginTransactionStatus_as_str Login.ProviderAuthorizationStarted.
Proof.
  unfold deny_provider_callback, deny_callback_locked; intros Hok Hb; inv_live.
  match goal with H : ok_or (callback_login _ _ _ _ _) _ = Ok ?l |- _ =>
    apply ok_or_ok, find_by_id_some in H as [Hi Hp]; exists l end.
  login_facts; bool_prop; destruct_and!; digest_facts; split_and!; try done; congruence.
Qed.

Lemma reuse_ok snapshot c db db' r :
  login_tables_ok db -> confirm_browser_session_reuse snapshot c db = (db', Ok r) ->
  exists l, db_logins db !! cr_transaction_id c = Some l
    /\ bound_to l (cr_browser_binding c) /\ csrf_of l (cr_csrf c).
Proof.
  unfold confirm_browser_session_reuse, reuse_locked; intros Hok Hb; inv_live.
  match goal with H : ok_or (find_by_id (db_logins _) _ _) _ = Ok ?l |- _ =>
    apply ok_or_ok, find_by_id_some in H as [Hi _]; exists l end.
  bool_prop; destruct_and!; digest_facts; by split_and!.
Qed.

(** Bound once, a login answers to that browser only. *)
Lemma later_binding l l' digest digest' :
  rtc login_step l l' -> bound_to l digest -> bound_to l' digest' ->
  digest' = digest /\ lg_csrf_digest l' = lg_csrf_digest l
  /\ lg_csrf_digest_key_version l' = lg_csrf_digest_key_version l.
Proof.
  intros Hr [Hd Hv] [Hd' Hv'].
  destruct (rtc_step_binding _ _ Hr) as [(E1 & E2 & E3 & E4)|Hn]; [congruence| |congruence].
  split; [|done]; destruct digest, digest'; simpl in *; congruence.
Qed.

Section claims.
Context `{CanonicalHash} `{ProjectionCryptography} `{UrlLib} `{TimeFormat} `{JsonbText}.

(** C8: the life of a login runs one way, and the store does not keep to the
    domain's machine in two places.  Over any run of the session, login, handoff and
    control operations, every write to a login keeps its identity, its redirect,
    its challenge and its expiry, advances the
    revision by exactly one, raises the rank of the status, and moves the status
    by an edge of [LoginTransactionStatus::transition] or by one of the two edges
    of [store_edge], which that function refuses: a denied callback fails a login
    nobody claimed, and an overdue login is expired while its exchange runs.  A
    login that ended never changes again. *)
Theorem login_life_is_one_way (ops : list session_op) db i l :
  world_ok db -> db_logins db !! i = Some l ->
  (exists l', db_logins (run_session_ops ops db) !! i = Some l' /\ rtc login_step l l'
     /\ (l' = l \/ (row_rank l < row_rank l')%nat)
     /\ (status_in TERMINAL_LOGIN_STATUSES (lg_status l) = true -> l' = l))
  /\ forall s s', store_edge s s' ->
       Login.LoginTransactionStatus_transition s' s = (s, Err InvalidTransition).
Proof.
  intros Hw Hl; split; [|apply store_edge_refused].
  destruct (session_ops_keep ops db Hw) as [_ [_ Hev]].
  destruct (le_login _ _ Hev _ _ Hl) as (l' & Hl' & Hr).
  exists l'; split_and!; [done|done| |by apply terminal_stays].
  destruct Hr as [|? l1 ? Hs1%step_rank Hr%rtc_step_rank]; [by left|right; lia].
Qed.

(** the provider's callback is claimed once: after a claim, and whatever
    runs, no claim and no denial of the same login ever succeeds again. *)
Theorem callback_claimed_once ps vs c db db1 r (ops : list session_op) :
  world_ok db -> claim_provider_callback ps vs c db = (db1, Ok r) ->
  (forall ps' vs' c' db2 r',
     claim_provider_callback ps' vs' c' (run_session_ops ops db1) = (db2, Ok r') ->
     cp_transaction_id c' <> cp_transaction_id c)
  /\ (forall ps' vs' c' db2 r',
     deny_provider_callback ps' vs' c' (run_session_ops ops db1) = (db2, Ok r') ->
     dp_transaction_id c' <> cp_transaction_id c).
Proof.
  intros Hw Hc; destruct (login_op_effect _ (claim_callback_effect ps vs c) _ _ _ Hc Hw) as [Hw1 _].
  destruct (claim_ok _ _ _ _ _ _ (world_login _ Hw) Hc) as (l & rev & _ & _ & _ & _ & Hl1).
  destruct (session_ops_keep ops db1 Hw1) as [[_ Hok2] [_ Hev]].
  destruct (le_login _ _ Hev _ _ Hl1) as (l2 & Hl2 & Hr%rtc_step_rank).
  unfold row_rank at 1 in Hr; simpl in Hr.
  assert (lg_status l2 <> Login.LoginTransactionStatus_as_str Login.ProviderAuthorizationStarted)
    as Hne by (intros Hs; unfold row_rank in Hr; rewrite Hs in Hr; simpl in Hr; lia).
  split; intros ps' vs' c' db2 r' Hr' Heq.
  - destruct (claim_ok _ _ _ _ _ _ Hok2 Hr') as (l3 & _ & Hl3 & _ & Hs & _); congruence.
  - destruct (deny_ok _ _ _ _ _ _ Hok2 Hr') as (l3 & Hl3 & _ & Hs); congruence.
Qed.

(** a login belongs to the browser it was bound to: after a binding, and
    whatever runs, choosing a provider, taking its callback, denying it or
    reusing a session succeeds only for the very browser binding, and for the two
    that bring one the very CSRF token, that the binding registered. *)
Theorem login_bound_to_browser c db db1 r (ops : list session_op) :
  world_ok db -> bind_hosted_browser c db = (db1, Ok r) ->
  (forall c' db2 r', select_provider_method c' (run_session_ops ops db1) = (db2, Ok r') ->
     sp_transaction_id c' = ltr_id r ->
     sp_browser_binding c' = bh_browser_binding c /\ sp_csrf c' = bh_csrf c)
  /\ (forall ps vs c' db2 r', claim_provider_callback ps vs c' (run_session_ops ops db1) = (db2, Ok r') ->
     cp_transaction_id c' = ltr_id r -> cp_browser_binding c' = bh_browser_binding c)
  /\ (forall ps vs c' db2 r', deny_provider_callback ps vs c' (run_session_ops ops db1) = (db2, Ok r') ->
     dp_transaction_id c' = ltr_id r -> dp_browser_binding c' = bh_browser_binding c)
  /\ (forall snapshot c' db2 r',
     confirm_browser_session_reuse snapshot c' (run_session_ops ops db1) = (db2, Ok r') ->
     cr_transaction_id c' = ltr_id r ->
     cr_browser_binding c' = bh_browser_binding c /\ cr_csrf c' = bh_csrf c).
Proof.
  intros Hw Hb; destruct (login_op_effect _ (bind_hosted_effect c) _ _ _ Hb Hw) as [Hw1 _].
  destruct (bind_hosted_ok _ _ _ _ (world_login _ Hw) Hb) as (l & _ & _ & _ & _ & Hl1 & ->).
  destruct (session_ops_keep ops db1 Hw1) as [[_ Hok2] [_ Hev]].
  destruct (le_login _ _ Hev _ _ Hl1) as (l2 & Hl2 & Hr).
  assert (forall d, bound_to l2 d -> d = bh_browser_binding c
            /\ lg_csrf_digest l2 = Some (vd_value (bh_csrf c))
            /\ lg_csrf_digest_key_version l2 = Some (vd_key_version (bh_csrf c))) as Hlater
    by (intros d Hd; by apply (later_binding _ _ (bh_browser_binding c) d Hr)).
  assert (forall d x, bound_to l2 d -> csrf_of l2 x -> d = bh_browser_binding c /\ x = bh_csrf c)
    as Hboth.
  { intros d x Hd [Hx Hxv]; destruct (Hlater d Hd) as (-> & Hc & Hcv); split; [done|].
    destruct x, (bh_csrf c); simpl in *; congruence. }
  split_and!.
  - intros c' db2 r' (l3 & Hl3 & ? & ?)%select_ok Heq; [|done].
    rewrite Heq in Hl3; assert (l3 = l2) as -> by congruence; by apply Hboth.
  - intros ps vs c' db2 r' (l3 & _ & Hl3 & ? & _)%claim_ok Heq; [|done].
    rewrite Heq in Hl3; assert (l3 = l2) as -> by congruence; by apply Hlater.
  - intros ps vs c' db2 r' (l3 & Hl3 & ? & _)%deny_ok Heq; [|done].
    rewrite Heq in Hl3; assert (l3 = l2) as -> by congruence; by apply Hlater.
  - intros snapshot c' db2 r' (l3 & Hl3 & ? & ?)%reuse_ok Heq; [|done].
    rewrite Heq in Hl3; assert (l3 = l2) as -> by congruence; by apply Hboth.
Qed.
End claims.

(** ** The theorems on the worked login *)
Lemma login_life_is_one_way_witness :
  exists l l', db_logins created_db !! 40 = Some l /\ rtc login_step l l'
    /\ db_logins (run_session_ops [BindHostedOp sample_hosted_bind; SelectProviderOp sample_select]
                    created_db) !! 40 = Some l'.
Proof.
  destruct (db_logins created_db !! 40) as [l|] eqn:Hl; [|vm_compute in Hl; discriminate Hl].
  destruct (login_life_is_one_way [BindHostedOp sample_hosted_bind; SelectProviderOp sample_select]
              created_db 40 l created_world Hl) as [(l' & Hl' & Hr & _) _].
  exists l, l'; split; [reflexivity|split; [exact Hr|exact Hl']].
Defined.

(** Both edges of [store_edge] are taken.  A callback that comes when the login is
    overdue expires it although another callback claimed it: *)
Definition late_claim : ClaimProviderCallback :=
  mkClaimProviderCallback 40 "prj_12345678" "google" (sample_token 44) (sample_token 42) [1]
    (seconds 611).
Example claimed_login_expires :
  (lg_status <$> db_logins claimed_db !! 40) = Some "provider_exchange_in_progress"%string
  /\ (lg_status <$> db_logins (run_session_ops [ClaimCallbackOp claimed_db claimed_db late_claim]
                                 claimed_db) !! 40) = Some "expired"%string.
Proof. split; vm_compute; reflexivity. Qed.

(** and a denied callback fails a login nobody claimed. *)
Definition sample_deny : DenyProviderCallback :=
  mkDenyProviderCallback 40 "prj_12345678" "google" (sample_token 44) (sample_token 42)
    "auth.callback.denied" (seconds 13).
Example unclaimed_login_denied :
  (lg_status <$> db_logins selected_db !! 40) = Some "provider_authorization_started"%string
  /\ (lg_status <$> db_logins (run_session_ops [DenyCallbackOp selected_db selected_db sample_deny]
                                 selected_db) !! 40) = Some "provider_exchange_failed"%string.
Proof. split; vm_compute; reflexivity. Qed.

Lemma callback_claimed_once_witness :
  is_ok (claim_provider_callback claimed_db claimed_db sample_claim claimed_db).2 = false.
Proof.
  destruct (claim_provider_callback claimed_db claimed_db sample_claim claimed_db) as [d [r|e]] eqn:Hr;
    [exfalso|reflexivity].
  destruct claimed_run as [r0 Hr0].
  exact (proj1 (callback_claimed_once selected_db selected_db sample_claim selected_db claimed_db r0 []
                  selected_world Hr0) claimed_db claimed_db sample_claim d r Hr eq_refl).
Defined.

Lemma login_bound_to_browser_witness :
  sp_browser_binding sample_select = bh_browser_binding sample_hosted_bind
  /\ sp_csrf sample_select = bh_csrf sample_hosted_bind.
Proof.
  destruct selected_run as [r Hr].
  exact (proj1 (login_bound_to_browser sample_hosted_bind created_db hosted_db
                  (mkLoginTransactionRecord 40 1 2 Login.AwaitingMethodSelection 2 (seconds 610)) []
                  created_world hosted_run) sample_select selected_db r Hr eq_refl).
Defined.
