(* ===== verification/HandoffProofs.v ===== *)
(** * Handoff: theorems

    A ticket is exchanged at most once, by whoever knows the verifier of the
    login's PKCE challenge, and its exchange opens one application session with
    one refresh family whose only generation is current. *)
From S2P Require Import Prelude.
From S2P Require Import Json.
From S2P Require Import LoginTables.
From S2P Require Import WebhookTables.
From S2P Require Import Lifecycle.
From S2P Require Import UrlValues.
From S2P Require Import Database.
From S2P Require Import LoginStore.
From S2P Require Import Projection.
From S2P Require Import ProjectionProofs.
From S2P Require Import WebhookOutbox.
From S2P Require Import SessionAuthority.
From S2P Require Import BrowserLogout.
From S2P Require Import Login.
From S2P Require Import Handoff.
From S2P Require Import SessionStore.
From S2P Require Import SessionEffects.
From S2P Require Import LoginHistory.
From S2P Require Import Frames.
From S2P Require Import LoginEffects.
From S2P Require Import HandoffEffects.
From S2P Require Import SessionOps.
From S2P Require Import SessionAuthorityProofs.
From S2P Require Import LoginSamples.

Section exchange.
Context `{CanonicalHash} `{ProjectionCryptography} `{UrlLib} `{TimeFormat} `{JsonbText}.

(** The writes of an exchange, from the store before them. *)
Lemma exchange_writes_ok c t l o b x db db' r :
  exchange_writes c t l o b x db = (db', Ok r) ->
  db_sessions db !! ch_application_session_id c = None
  /\ db_families db !! ch_refresh_family_id c = None
  /\ db_generations db !! ch_refresh_generation_id c = None
  /\ db_sessions db' = <[ch_application_session_id c := new_session c t o b]> (db_sessions db)
  /\ db_families db' = <[ch_refresh_family_id c := new_family c (to_user o)]> (db_families db)
  /\ db_generations db'
     = <[ch_refresh_generation_id c := new_generation c (to_user o)]> (db_generations db)
  /\ db_tickets db' = <[ht_id t := ticket_with "consumed" (Some (ch_now c)) t]> (db_tickets db)
  /\ (exists rev, db_logins db' = <[lg_id l := login_ended Login.Completed rev (ch_now c) l]>
                                    (db_logins db))
  /\ hs_application_session_id r = ch_application_session_id c
  /\ hs_refresh_family_id r = ch_refresh_family_id c.
Proof.
  unfold exchange_writes, open_session; intros Hw; inv_login.
  match goal with H : login_verb _ _ _ = Ok _ |- _ => apply login_verb_ok in H as [-> _] end.
  repeat match goal with H : is_none _ = true |- _ => apply is_none_iff in H end.
  split_and!; try done; by eexists.
Qed.

Lemma exchange_ticket_ok clock nonces uuid ids c t db db' r :
  world_ok db -> exchange_ticket clock nonces uuid ids c t db = (db', Ok r) ->
  exists l o b x db1,
    db_logins db !! ht_login_transaction_id t = Some l /\ commit_login_conflict l t = false
    /\ commit_owners db c t = Ok o
    /\ ticket_provider db (ch_project_id c) (ch_application_id c) t = Ok tt
    /\ world_kept db db1 /\ same_login db db1
    /\ exchange_writes c t l o b x db1 = (db', Ok r)
    /\ exists d, bind_user c (to_user o) db = (d, Ok b)
                 /\ exchange_projection clock nonces uuid ids c o b d = (db1, Ok x).
Proof.
  intros [_ Hl] He; unfold exchange_ticket in He.
  apply mseq_ok in He as (d & a & Hget & He); unfold mget in Hget; injection Hget as <- <-.
  apply mseq_ok in He as (d & l & Hlg & He); apply mlift_ok in Hlg as [Hlg ->].
  apply ok_or_ok, find_by_id_some in Hlg as [Hlg _]; apply if_mfail_ok in He as [Hc He].
  apply mseq_ok in He as (d & o & Ho & He); apply mlift_ok in Ho as [Ho ->].
  apply mseq_ok in He as (d & [] & Hp & He); apply mlift_ok in Hp as [Hp ->].
  apply mseq_ok in He as (d & u & Hs & He); apply lock_signing_epoch_ok in Hs as ->.
  apply mseq_ok in He as (d1 & b & Hb & He); apply mseq_ok in He as (d2 & x & Hx & He).
  exists l, o, b, x, d2; split_and!; try done; [..|by eauto].
  - etrans; [by eapply bind_user_world|by eapply exchange_projection_world].
  - etrans; [by eapply bind_user_frame|by eapply exchange_projection_frame].
Qed.

Lemma commit_ok clock nonces uuid ids c db db' r :
  world_ok db -> commit_handoff_exchange clock nonces uuid ids c db = (db', Ok r) ->
  exists t, db_tickets db !! ht_id t = Some t
    /\ ht_ticket_digest t = vd_value (ch_handoff_ticket c)
    /\ ht_ticket_digest_key_version t = vd_key_version (ch_handoff_ticket c)
    /\ ht_project_id t = ch_project_id c /\ ht_application_id t = ch_application_id c
    /\ ht_status t = "issued"%string /\ ch_now c < ht_expires_at t
    /\ ht_application_pkce_challenge t = ch_application_pkce_challenge c
    /\ exchange_ticket clock nonces uuid ids c t db = (db', Ok r).
Proof.
  intros [_ Hl] Hc; unfold commit_handoff_exchange, commit_locked in Hc.
  repeat (apply mseq_ok in Hc as (? & ? & Hv & Hc); apply mlift_ok in Hv as [_ ->]).
  apply if_mfail_ok in Hc as [_ Hc]; apply (proj1 (committed_ok _ _ _ _)) in Hc.
  apply mseq_ok in Hc as (d & a & Hget & Hc); unfold mget in Hget; injection Hget as <- <-.
  apply mseq_ok in Hc as (d & t & Ht & Hc); apply mlift_ok in Ht as [Ht ->].
  apply ok_or_ok, (found_ticket _ _ _ _ _ Hl) in Ht as (Ht & Hp & Ha & Hd & Hv).
  apply if_mfail_ok in Hc as [_ Hc]; exists t.
  destruct (_ || _) eqn:Hfit in Hc; [by destruct (_ && _) in Hc; inv_txn|].
  apply if_mfail_ok in Hc as [Hk Hc].
  apply mseq_ok in Hc as (d & x & Hx & Hc); unfold mret in Hc; injection Hc as <- <-.
  bool_prop; destruct_and!; split_and!; try done; lia.
Qed.

Lemma prepare_handoff_ok nonce c db p :
  login_tables_ok db -> prepare_handoff_exchange nonce c db = Ok p ->
  exists t, db_tickets db !! ht_id t = Some t
    /\ ht_ticket_digest t = vd_value (ph_handoff_ticket c)
    /\ ht_ticket_digest_key_version t = vd_key_version (ph_handoff_ticket c)
    /\ ht_status t = "issued"%string
    /\ ht_application_pkce_challenge t = ph_application_pkce_challenge c.
Proof.
  intros Hl Hp; unfold prepare_handoff_exchange in Hp.
  apply rbind_ok in Hp as (u & _ & Hp); apply if_err_ok in Hp as [_ Hp].
  apply rbind_ok in Hp as (t & Ht & Hp); apply if_err_ok in Hp as [Hk Hp].
  apply if_err_ok in Hp as [Hs _].
  apply ok_or_ok, (found_ticket _ _ _ _ _ Hl) in Ht as (Ht & _ & _ & Hd & Hv).
  exists t; bool_prop; by destruct_and!; split_and!.
Qed.

Lemma commit_login_conflict_ok l t :
  commit_login_conflict l t = false ->
  lg_status l = Login.LoginTransactionStatus_as_str Login.HandoffIssued
  /\ lg_user_id l = Some (ht_user_id t)
  /\ lg_application_pkce_challenge l = ht_application_pkce_challenge t.
Proof. unfold commit_login_conflict; intros Hc; bool_prop; destruct_and!; by split_and!. Qed.

Lemma commit_owners_ok db c t o :
  store_ok db -> commit_owners db c t = Ok o ->
  us_id (to_user o) = ht_user_id t /\ bs_id (to_browser o) = ht_browser_session_id t.
Proof.
  intros Hok Ho; unfold commit_owners, ticket_owners in Ho; inv_ok.
  repeat match goal with H : find_by_id _ _ _ = Some _ |- _ =>
    apply find_by_id_some in H as [? _] end.
  split; [by eapply own_users; [apply (store_owners _ Hok)|]
         |by eapply dir_browsers; [apply (store_directory _ Hok)|]].
Qed.

(** Rows that are absent later were absent before. *)
Lemma absent_session db d id :
  evolves db d -> db_sessions d !! id = None -> db_sessions db !! id = None.
Proof.
  intros Hev Hn; destruct (db_sessions db !! id) as [s|] eqn:Hs; [|done].
  destruct (ev_session _ _ Hev _ _ Hs) as (s' & Hs' & _); congruence.
Qed.
Lemma absent_family db d id :
  evolves db d -> db_families d !! id = None -> db_families db !! id = None.
Proof.
  intros Hev Hn; destruct (db_families db !! id) as [f|] eqn:Hf; [|done].
  destruct (ev_family _ _ Hev _ _ Hf) as (f' & Hf' & _); congruence.
Qed.

(** A ticket is known by its digest. *)
Lemma ticket_unique db t t' :
  login_tables_ok db -> db_tickets db !! ht_id t = Some t -> db_tickets db !! ht_id t' = Some t' ->
  ht_ticket_digest t = ht_ticket_digest t' ->
  ht_ticket_digest_key_version t = ht_ticket_digest_key_version t' -> t = t'.
Proof.
  intros Hok Ht Ht' Hd Hv; destruct (decide (ht_id t = ht_id t')) as [Heq|Hne]; [congruence|].
  pose proof (lts_ticket_unique _ Hok _ _ _ _ Hne Ht Ht') as Hc; exfalso; revert Hc.
  unfold handoff_ticket_conflict; rewrite orb_false_iff, !bool_decide_eq_false; naive_solver.
Qed.

(** A ticket that is no longer issued is not found fit again. *)
Lemma spent_ticket db t digest :
  login_tables_ok db -> db_tickets db !! ht_id t = Some t -> ht_status t <> "issued"%string ->
  ht_ticket_digest t = vd_value digest -> ht_ticket_digest_key_version t = vd_key_version digest ->
  forall t', db_tickets db !! ht_id t' = Some t' -> ht_ticket_digest t' = vd_value digest ->
  ht_ticket_digest_key_version t' = vd_key_version digest -> ht_status t' <> "issued"%string.
Proof.
  intros Hok Ht Hs Hd Hv t' Ht' Hd' Hv'.
  assert (t = t') as <- by (eapply ticket_unique; [done..|congruence|congruence]); done.
Qed.
End exchange.

Section claims.
Context `{CanonicalHash} `{ProjectionCryptography} `{UrlLib} `{TimeFormat} `{JsonbText}.

(** C6: a handoff ticket is used once: after an exchange, and whatever runs, the
    same ticket is never prepared nor exchanged again. *)
Theorem handoff_ticket_single_use clock nonces uuid ids c db db1 r (ops : list session_op) :
  world_ok db -> commit_handoff_exchange clock nonces uuid ids c db = (db1, Ok r) ->
  (forall clock' nonces' uuid' ids' c' db2 r',
     commit_handoff_exchange clock' nonces' uuid' ids' c' (run_session_ops ops db1) = (db2, Ok r') ->
     ch_handoff_ticket c' <> ch_handoff_ticket c)
  /\ (forall nonce c' p,
     prepare_handoff_exchange nonce c' (run_session_ops ops db1) = Ok p ->
     ph_handoff_ticket c' <> ch_handoff_ticket c).
Proof.
  intros Hw Hc; destruct (commit_effect _ _ _ _ _ _ _ _ Hc Hw) as [Hw1 _].
  destruct (commit_ok _ _ _ _ _ _ _ _ Hw Hc) as (t & Ht & Hd & Hv & _ & _ & _ & _ & _ & He).
  destruct (exchange_ticket_ok _ _ _ _ _ _ _ _ _ Hw He)
    as (l & o & b & x & d & _ & _ & _ & _ & _ & _ & Hx & _).
  apply exchange_writes_ok in Hx as (_ & _ & _ & _ & _ & _ & Ht1 & _).
  destruct (session_ops_keep ops db1 Hw1) as [Hw2 [_ Hev]].
  assert (db_tickets db1 !! ht_id t = Some (ticket_with "consumed" (Some (ch_now c)) t)) as Hl1
    by (rewrite Ht1; apply lookup_insert_eq).
  destruct (le_ticket _ _ Hev _ _ Hl1) as (t2 & Ht2 & _ & Hsame); rewrite Hsame in Ht2 by done.
  pose proof (spent_ticket _ (ticket_with "consumed" (Some (ch_now c)) t) (ch_handoff_ticket c)
                (world_login _ Hw2) Ht2 ltac:(done) Hd Hv) as Hno.
  split; [intros clock' nonces' uuid' ids' c' db2 r' Hr Heq|intros nonce c' p Hr Heq].
  - destruct (commit_ok _ _ _ _ _ _ _ _ Hw2 Hr) as (t3 & Ht3 & Hd3 & Hv3 & _ & _ & Hs3 & _).
    apply (Hno t3 Ht3); congruence.
  - destruct (prepare_handoff_ok _ _ _ _ (world_login _ Hw2) Hr) as (t3 & Ht3 & Hd3 & Hv3 & Hs3 & _).
    apply (Hno t3 Ht3); congruence.
Qed.

(** C7: a successful exchange consumed an issued, unexpired ticket of the
    application whose challenge is the one of the command and of the login; it
    completed the login and opened exactly one new application session, active
    for thirty days, with a new active refresh family whose first and current
    generation carries the refresh token of the command. *)
Theorem handoff_opens_session clock nonces uuid ids c db db' r :
  world_ok db -> commit_handoff_exchange clock nonces uuid ids c db = (db', Ok r) ->
  exists t l s f g l',
    (db_tickets db !! ht_id t = Some t /\ ht_status t = "issued"%string
     /\ ch_now c < ht_expires_at t /\ ht_ticket_digest t = vd_value (ch_handoff_ticket c)
     /\ ht_application_id t = ch_application_id c
     /\ ht_application_pkce_challenge t = ch_application_pkce_challenge c)
    /\ (db_logins db !! ht_login_transaction_id t = Some l
        /\ lg_status l = Login.LoginTransactionStatus_as_str Login.HandoffIssued
        /\ lg_application_pkce_challenge l = ch_application_pkce_challenge c
        /\ lg_user_id l = Some (ht_user_id t))
    /\ (db_tickets db' !! ht_id t = Some (ticket_with "consumed" (Some (ch_now c)) t)
        /\ db_logins db' !! ht_login_transaction_id t = Some l' /\ rtc login_step l l'
        /\ lg_status l' = Login.LoginTransactionStatus_as_str Login.Completed)
    /\ (db_sessions db !! hs_application_session_id r = None
        /\ db_sessions db' !! hs_application_session_id r = Some s
        /\ as_status s = "active"%string /\ as_user_id s = ht_user_id t
        /\ as_application_id s = ch_application_id c
        /\ as_browser_session_id s = Some (ht_browser_session_id t)
        /\ as_absolute_expires_at s = ch_now c + seconds (30 * 24 * 3600))
    /\ (db_families db !! hs_refresh_family_id r = None
        /\ db_families db' !! hs_refresh_family_id r = Some f
        /\ rf_application_session_id f = hs_application_session_id r
        /\ rf_status f = "active"%string /\ rf_current_generation f = 1)
    /\ (db_generations db' !! rg_id g = Some g /\ rg_family_id g = hs_refresh_family_id r
        /\ rg_status g = "current"%string /\ rg_generation g = 1
        /\ rg_token_digest g = vd_value (ch_refresh_token c)
        /\ forall i h, db_generations db' !! i = Some h ->
             rg_family_id h = hs_refresh_family_id r -> i = rg_id g).
Proof.
  intros Hw Hc; destruct (commit_effect _ _ _ _ _ _ _ _ Hc Hw) as [_ [_ Hev]].
  destruct (commit_ok _ _ _ _ _ _ _ _ Hw Hc) as (t & Ht & Hd & Hv & Hp & Ha & Hs & Hn & Hk & He).
  destruct (exchange_ticket_ok _ _ _ _ _ _ _ _ _ Hw He)
    as (l & o & b & x & d & Hl & Hlc & Ho & _ & Hkept & Hsl & Hx & _).
  destruct (Hkept Hw) as [Hwd [Hevd _]].
  apply exchange_writes_ok in Hx
    as (Hns & Hnf & Hng & Hss & Hfs & Hgs & Hts & (rev & Hls) & -> & ->).
  destruct (le_login _ _ Hev _ _ Hl) as (l' & Hl' & Hr).
  pose proof (lts_logins _ (world_login _ Hw) _ _ Hl) as Hid.
  assert (l' = login_ended Login.Completed rev (ch_now c) l) as ->
    by (rewrite Hls, Hid, lookup_insert_eq in Hl'; congruence).
  apply commit_login_conflict_ok in Hlc as (Hst & Hu & Hpk).
  apply (commit_owners_ok _ _ _ _ (world_store _ Hw)) in Ho as [Huser Hbrowser].
  eexists t, l, _, _, (new_generation c (to_user o)), _; split_and!; try done.
  all: rewrite ?Hts, ?Hss, ?Hfs, ?Hgs, ?lookup_insert_eq; try done; simpl; try congruence.
  - by eapply absent_session.
  - by eapply absent_family.
  - intros i h [[<- _]|[_ Hh]]%lookup_insert_Some Hfam; [done|exfalso].
    by apply (no_generation_of_new_family d _ i h (world_store _ Hwd) Hnf Hh).
Qed.
End claims.

(** ** The theorems on the worked login *)
Lemma handoff_ticket_single_use_witness :
  is_ok (commit_handoff_exchange (seconds 15) ([], []) 57 (fun e => e) sample_handoff_commit
           exchanged_db).2 = false.
Proof.
  destruct (commit_handoff_exchange (seconds 15) ([], []) 57 (fun e => e) sample_handoff_commit
              exchanged_db) as [d [r|e]] eqn:Hr; [exfalso|reflexivity].
  exact (proj1 (handoff_ticket_single_use (seconds 14) ([], []) 56 (fun e => e) sample_handoff_commit
                  issued_db exchanged_db sample_handoff_record [] issued_world exchanged_run)
           (seconds 15) ([], []) 57 (fun e => e) sample_handoff_commit d r Hr eq_refl).
Defined.

Lemma handoff_opens_session_witness :
  exists s, db_sessions issued_db !! 52 = None /\ db_sessions exchanged_db !! 52 = Some s
            /\ as_status s = "active"%string.
Proof.
  destruct (handoff_opens_session (seconds 14) ([], []) 56 (fun e => e) sample_handoff_commit
              issued_db exchanged_db sample_handoff_record issued_world exchanged_run)
    as (t & l & s & f & g & l' & _ & _ & _ & (Hn & Hs & Ha & _) & _).
  exists s; split; [exact Hn|split; [exact Hs|exact Ha]].
Defined.
