(* ===== verification/RevisionHistory.v ===== *)
(** * Security revisions over time

    A session records the security revision of its user when it is opened.  The
    revision of a user only grows, so a session never records more than its
    user's ([revisions_ok]), and one that records less stays behind for good. *)
From S2P Require Import Prelude.
From S2P Require Import Json.
From S2P Require Import UrlValues.
From S2P Require Import Database.
From S2P Require Import LoginStore.
From S2P Require Import Projection.
From S2P Require Import WebhookOutbox.
From S2P Require Import SessionAuthority.
From S2P Require Import BrowserLogout.
From S2P Require Import Login.
From S2P Require Import Handoff.
From S2P Require Import SessionStore.
From S2P Require Import SessionEffects.
From S2P Require Import LoginHistory.
From S2P Require Import Frames.
From S2P Require Import LoginEffects.
From S2P Require Import HandoffEffects.
From S2P Require Import ControlLifecycle.
From S2P Require Import ControlEffects.
From S2P Require Import SessionOps.
From S2P Require Import HandoffProofs.

Definition recorded (db : Database) (user_id : Uuid) (revision : Z) : Prop :=
  exists u, db_users db !! user_id = Some u /\ revision <= us_security_revision u.

Record revisions_ok (db : Database) : Prop := {
  rev_sessions : forall i s, db_sessions db !! i = Some s ->
    recorded db (as_user_id s) (as_user_security_revision s);
  rev_browsers : forall i b, db_browsers db !! i = Some b ->
    recorded db (bs_user_id b) (bs_user_security_revision b)
}.

Lemma recorded_later db db' u r : evolves db db' -> recorded db u r -> recorded db' u r.
Proof.
  intros Hev (x & Hx & Hr). destruct (ev_user _ _ Hev _ _ Hx) as (x' & Hx' & _ & Hle).
  exists x'. split; [done|lia].
Qed.

(** ** Operations that open no session *)
Definition no_new (db db' : Database) : Prop :=
  (forall i, is_Some (db_sessions db' !! i) -> is_Some (db_sessions db !! i))
  /\ (forall i, is_Some (db_browsers db' !! i) -> is_Some (db_browsers db !! i)).
Instance no_new_preorder : PreOrder no_new.
Proof. split; [by split|]. intros a b c [Hs Hb] [Hs' Hb']. split; eauto. Qed.

Lemma no_new_same db db' :
  db_sessions db' = db_sessions db -> db_browsers db' = db_browsers db -> no_new db db'.
Proof. intros Hs Hb. split; intros i; by rewrite ?Hs, ?Hb. Qed.

Lemma revisions_kept db db' :
  evolves db db' -> no_new db db' -> revisions_ok db -> revisions_ok db'.
Proof.
  intros Hev [Hs Hb] [Ho1 Ho2]. constructor.
  - intros i s' Hi. destruct (Hs i) as [s Hs0]; [by rewrite Hi|].
    destruct (ev_session _ _ Hev _ _ Hs0) as (s1 & Hs1 & (_ & _ & Hu & _ & Hr) & _).
    assert (s1 = s') as -> by congruence. rewrite Hu, Hr. eauto using recorded_later.
  - intros i b' Hi. destruct (Hb i) as [b Hb0]; [by rewrite Hi|].
    destruct (ev_browser _ _ Hev _ _ Hb0) as (b1 & Hb1 & _ & _ & _ & (_ & Hu & Hr)).
    assert (b1 = b') as -> by congruence. rewrite Hu, Hr. eauto using recorded_later.
Qed.

Lemma inserted {Row} (t : gmap Z Row) id row i :
  is_some (t !! id) = true -> is_Some (<[id := row]> t !! i) -> is_Some (t !! i).
Proof.
  intros Hid [x [[<- _]|[_ Hx]]%lookup_insert_Some]; [|eauto]. by destruct (t !! id).
Qed.

Ltac no_new_statement := intros ? ?; intros; inv_login; by apply no_new_same.

Section statements.
Context `{JsonbText}.
Implicit Types db : Database.

Lemma insert_generation_no_new db row : frame_at no_new db (insert_generation row).
Proof. no_new_statement. Qed.
Lemma update_generation_no_new db row : frame_at no_new db (update_generation row).
Proof. no_new_statement. Qed.
Lemma update_family_no_new db row : frame_at no_new db (update_family row).
Proof. no_new_statement. Qed.
Lemma insert_logout_no_new db row : frame_at no_new db (insert_logout row).
Proof. no_new_statement. Qed.
Lemma update_logout_no_new db row : frame_at no_new db (update_logout row).
Proof. no_new_statement. Qed.
Lemma update_projection_no_new db row : frame_at no_new db (update_projection row).
Proof. no_new_statement. Qed.
Lemma insert_projection_no_new db row : frame_at no_new db (insert_projection row).
Proof. no_new_statement. Qed.
Lemma insert_binding_no_new db row : frame_at no_new db (insert_binding row).
Proof. no_new_statement. Qed.
Lemma update_login_no_new db row : frame_at no_new db (update_login row).
Proof. no_new_statement. Qed.
Lemma insert_ticket_no_new db row : frame_at no_new db (insert_ticket row).
Proof. no_new_statement. Qed.
Lemma update_ticket_no_new db row : frame_at no_new db (update_ticket row).
Proof. no_new_statement. Qed.
Lemma audit_no_new db p a b c d e : frame_at no_new db (append_runtime_audit p a b c d e).
Proof. no_new_statement. Qed.
Lemma lock_epoch_no_new db p r k e now : frame_at no_new db (lock_signing_epoch p r k e now).
Proof. by intros db' u ->%lock_signing_epoch_ok. Qed.
Lemma insert_event_no_new db row : frame_at no_new db (insert_event row).
Proof. intros db' [] (_ & _ & ->)%insert_event_ok. by apply no_new_same. Qed.
Lemma insert_delivery_no_new db row : frame_at no_new db (insert_delivery row).
Proof. intros db' [] (_ & _ & ->)%insert_delivery_ok. by apply no_new_same. Qed.
Lemma dispatch_no_new db p a : frame_at no_new db (ensure_dispatch_state p a).
Proof. unfold ensure_dispatch_state. solve_frame. apply frame_at_modify. by apply no_new_same. Qed.
Lemma update_user_no_new db u : frame_at no_new db (update_user u).
Proof. intros db' [] (_ & _ & _ & ->)%update_user_ok. by apply no_new_same. Qed.
Lemma update_session_no_new db row : frame_at no_new db (update_session row).
Proof.
  intros db' [] (Hi & _ & ->)%update_session_ok. split; cbn; [|done]. intros i. by apply inserted.
Qed.
Lemma update_browser_no_new db row : frame_at no_new db (update_browser row).
Proof.
  intros db' [] (Hi & _ & ->)%update_browser_ok. split; cbn; [done|]. intros i. by apply inserted.
Qed.
End statements.

#[export] Hint Resolve insert_generation_no_new update_generation_no_new update_family_no_new
  insert_logout_no_new update_logout_no_new update_projection_no_new insert_projection_no_new
  insert_binding_no_new update_login_no_new insert_ticket_no_new update_ticket_no_new audit_no_new
  lock_epoch_no_new insert_event_no_new insert_delivery_no_new dispatch_no_new update_user_no_new
  update_session_no_new update_browser_no_new : frames.

Section operations.
Context `{CanonicalHash} `{ProjectionCryptography} `{UrlLib} `{TimeFormat} `{JsonbText}.
Implicit Types db : Database.

Lemma repair_no_new db nonce x app u now :
  frame_at no_new db (repair_runtime_projection nonce x app u now).
Proof. unfold repair_runtime_projection. solve_frame. Qed.
Lemma enqueue_no_new db ids event kind endpoints :
  frame_at no_new db (enqueue_deliveries ids event kind endpoints).
Proof. revert db; induction endpoints; intros db; cbn; solve_frame. Qed.
Lemma append_event_no_new db clock uuid ids pp ap b x wire kind :
  frame_at no_new db (append_projection_event clock uuid ids pp ap b x wire kind).
Proof. pose proof enqueue_no_new. unfold append_projection_event. solve_frame. Qed.
Lemma replay_no_new db g f p now : frame_at no_new db (record_refresh_replay g f p now).
Proof. unfold record_refresh_replay. solve_frame. Qed.
Hint Resolve repair_no_new append_event_no_new replay_no_new : frames.

Lemma login_no_new {A} (m : txn A) db :
  login_tables_ok db -> effect login_effect m -> no_new db (m db).1.
Proof.
  intros Hok Hm. destruct (m db) as [db' r] eqn:Hr.
  destruct (Hm _ _ _ Hr Hok) as ((t & e & ->) & _). by apply no_new_same.
Qed.

(** The sessions an exchange opens record the revision of the moment. *)
Lemma exchange_writes_people c t l o b x db db' r :
  exchange_writes c t l o b x db = (db', Ok r) ->
  db_users db' = db_users db /\ db_browsers db' = db_browsers db.
Proof. unfold exchange_writes, open_session; intros Hw; inv_login; done. Qed.

Lemma exchange_revisions clock nonces uuid ids c t db db' r :
  world_ok db -> exchange_ticket clock nonces uuid ids c t db = (db', Ok r) ->
  revisions_ok db -> revisions_ok db'.
Proof.
  intros Hw He Hr.
  destruct (exchange_ticket_ok _ _ _ _ _ _ _ _ _ Hw He)
    as (l & o & b & x & db1 & _ & _ & Ho & _ & Hk & _ & Hx & d & Hb & Hp).
  assert (no_new db db1) as Hn.
  { transitivity d; [revert Hb; unfold bind_user|revert Hp; unfold exchange_projection];
      match goal with |- ?m ?a = (?b, Ok ?y) -> _ => cut (frame_at no_new a m); [by eauto|solve_frame] end. }
  destruct (Hk Hw) as [Hw1 [Hev1 _]]. pose proof (revisions_kept _ _ Hev1 Hn Hr) as [Hr1 Hr2].
  unfold commit_owners, ticket_owners in Ho. inv_ok. cbn in *.
  repeat match goal with H : find_by_id _ _ _ = Some _ |- _ => apply find_by_id_some in H as [? _] end.
  destruct (exchange_writes_people _ _ _ _ _ _ _ _ _ Hx) as [Hu Hbr].
  apply exchange_writes_ok in Hx as (_ & _ & _ & Hs & _).
  constructor; unfold recorded; rewrite ?Hu, ?Hbr, ?Hs; [|exact Hr2].
  intros i s [[_ <-]|[_ Hi]]%lookup_insert_Some; [cbn|by eapply Hr1].
  apply (recorded_later db db1); [done|].
  match goal with H : db_users db !! _ = Some ?u |- _ =>
    pose proof (own_users _ _ _ _ (store_owners _ (world_store _ Hw)) _ _ H) as Hi; exists u; rewrite Hi end.
  split; [done|lia].
Qed.

(** A refused exchange at most lets its ticket expire. *)
Lemma refused_no_new clock nonces uuid ids c db db' e :
  commit_locked clock nonces uuid ids c db = (db', Ok (Err e)) -> no_new db db'.
Proof.
  unfold commit_locked. intros Hc.
  apply mseq_ok in Hc as (d & a & [= <- <-] & Hc).
  apply mseq_ok in Hc as (d & t & [_ ->]%mlift_ok & Hc). apply if_mfail_ok in Hc as [_ Hc].
  destruct (_ || _) in Hc.
  - destruct (_ && _) in Hc; [|done].
    match type of Hc with ?m db = _ => cut (frame_at no_new db m); [by eauto|solve_frame] end.
  - apply if_mfail_ok in Hc as [_ Hc]. apply mseq_ok in Hc as (? & ? & _ & [=]).
Qed.

Lemma commit_revisions clock nonces uuid ids c db :
  world_ok db -> revisions_ok db ->
  revisions_ok (commit_handoff_exchange clock nonces uuid ids c db).1.
Proof.
  intros Hw Hr. destruct (commit_handoff_exchange clock nonces uuid ids c db) as [db' [rec|e]] eqn:Hc; cbn.
  - destruct (commit_ok _ _ _ _ _ _ _ _ Hw Hc) as (t & _ & _ & _ & _ & _ & _ & _ & _ & He).
    by eapply exchange_revisions.
  - destruct (commit_effect _ _ _ _ _ _ _ _ Hc Hw) as [_ [Hev _]].
    apply (revisions_kept _ _ Hev); [|done]. revert Hc. unfold commit_handoff_exchange, mseq, mlift.
    do 2 (destruct (validate_digest _); [|by intros [= <- _]]).
    destruct (_ || _); [by intros [= <- _]|]. intros [->|Hc]%committed_effect; [done|].
    by eapply refused_no_new.
Qed.

(** ** The invariant under every operation *)
Lemma revisions_login {A} (m : txn A) db :
  effect login_effect m -> world_ok db -> revisions_ok db -> revisions_ok (m db).1.
Proof.
  intros He Hw Hr. destruct (effect_fst_of (db := db) (login_op_effect _ He) Hw) as [_ [Hev _]].
  apply (revisions_kept _ _ Hev); [by apply login_no_new; [apply Hw|]|done].
Qed.

Lemma op_revisions op db : world_ok db -> revisions_ok db -> revisions_ok (run_session_op op db).
Proof.
  intros Hw Hr. pose proof (session_op_effect op db Hw) as [_ [Hev _]].
  destruct op; simpl in *;
    try (by apply commit_revisions);
    try (apply revisions_login; [|done..]; first [apply create_login_effect|apply bind_hosted_effect
      |apply select_provider_effect|apply claim_callback_effect|apply deny_callback_effect
      |apply fail_exchange_effect|apply recover_effect]);
    (apply (revisions_kept _ _ Hev); [apply effect_fst_of|done]).
  - unfold prepare_refresh_rotation, prepare_locked. solve_frame.
  - unfold rotate_refresh_token, rotate_locked, rotation_writes. solve_frame.
  - unfold logout_application_session. solve_frame.
  - unfold prepare_browser_logout. solve_frame.
  - unfold bind_browser_logout, bind_locked, expire_browser_logout. solve_frame.
  - unfold confirm_browser_logout, confirm_locked, expire_browser_logout. solve_frame.
  - unfold confirm_browser_session_reuse, reuse_locked, expire_login, insert_handoff. solve_frame.
  - apply disable_kept; eauto with frames typeclass_instances.
  - apply enable_kept; eauto with frames typeclass_instances.
  - unfold revoke_application_session. solve_frame.
  - unfold revoke_browser_session. solve_frame.
Qed.

Lemma ops_revisions ops db : world_ok db -> revisions_ok db -> revisions_ok (run_session_ops ops db).
Proof.
  revert db. induction ops as [|op ops IH]; intros db Hw Hr; [done|].
  apply IH; [by apply session_op_keeps|by apply op_revisions].
Qed.
End operations.
