(* ===== verification/WebhookOutboxProofs.v ===== *)
(** * The webhook outbox: theorems

    An event is stored without the user's address, and a delivery sends exactly
    the body the event was made from; every active endpoint that subscribes to
    the event has a pending delivery for it. *)
From S2P Require Import Prelude.
From S2P Require Import Json.
From S2P Require Import LoginTables.
From S2P Require Import WebhookTables.
From S2P Require Import UrlValues.
From S2P Require Import Webhooks.
From S2P Require Import Database.
From S2P Require Import LoginStore.
From S2P Require Import Projection.
From S2P Require Import ProjectionProofs.
From S2P Require Import WebhookOutbox.
From S2P Require Import SessionAuthority.
From S2P Require Import SessionStore.
From S2P Require Import SessionAuthorityProofs.

(** ** Taking the address out and putting it back *)
Lemma replace_inserted key v w fields :
  exists safe, object_replace key w (object_insert key v fields) = Some safe
    /\ object_replace key v safe = Some (object_insert key v fields)
    /\ json_get key (JObject safe) = Some w
    /\ (w = v -> safe = object_insert key v fields).
Proof.
  induction fields as [|[k x] r (safe & H1 & H2 & H3 & H4)]; simpl.
  { case_bool_decide; [|done]; eexists; split; [reflexivity|];
    split_and!; simpl; first [by case_bool_decide|by intros ->]. }
  destruct (String.compare key k) eqn:Hc; simpl.
  1-2: case_bool_decide; [|done]; eexists; split; [reflexivity|];
    split_and!; simpl; first [by case_bool_decide|by intros ->].
  assert (k <> key) as Hne.
  { intros ->; pose proof (String.compare_antisym key key) as Ha; by rewrite Hc in Ha. }
  rewrite bool_decide_false by done; rewrite H1; simpl; eexists; split_and!; [done|..]; simpl.
  - by rewrite bool_decide_false, H2 by done.
  - rewrite bool_decide_false by done; exact H3.
  - intros Hw; by rewrite (H4 Hw).
Qed.

Section outbox.
Context `{CanonicalHash} `{ProjectionCryptography} `{UrlLib} `{TimeFormat} `{JsonbText}.

(** The body with another address in its projection. *)
Lemma body_email_set pp ap eid ts uid fields fields' projection kind v :
  object_replace "verified_email" v fields = Some fields' ->
  set_body_email v (event_body pp ap eid ts uid (JObject fields) projection kind)
  = Some (event_body pp ap eid ts uid (JObject fields') projection kind).
Proof. intros Hr; unfold set_body_email; simpl; by rewrite Hr. Qed.

(** The document sent over the wire carries the address the row protects. *)
Lemma wire_document_ok projection wire :
  wire_projection_document projection = Ok wire ->
  exists email fields, decrypted_projection_verified_email projection = Ok email
    /\ wire = JObject (object_insert "verified_email" (json_of_option email) fields).
Proof.
  unfold wire_projection_document; intros Hw.
  apply rbind_ok in Hw as (email & He & Hw); exists email.
  destruct (pn_document projection) as [| | | | | |fields] eqn:Hd; try done.
  apply rbind_ok in Hw as (raw & _ & Hw); apply if_err_ok in Hw as [_ [= <-]]; eauto.
Qed.

(** Deliveries are added after the event. *)
Lemma dispatch_events p a db db' :
  ensure_dispatch_state p a db = (db', Ok tt) ->
  db_events db' = db_events db /\ db_deliveries db' = db_deliveries db
  /\ db_endpoints db' = db_endpoints db.
Proof.
  unfold ensure_dispatch_state; intros Hd; apply mseq_ok in Hd as (d & x & Hget & Hd).
  unfold mget in Hget; injection Hget as <- <-; destruct (_ !! _); inv_txn; [done|].
  by unfold mmodify in *; simplify_eq.
Qed.

Lemma enqueue_events ids event kind endpoints db db' :
  enqueue_deliveries ids event kind endpoints db = (db', Ok tt) ->
  db_events db' = db_events db
  /\ db_deliveries db ⊆ db_deliveries db'
  /\ forall e, e ∈ endpoints -> subscribes kind e = true ->
       db_deliveries db' !! ids (we_id e) = Some (pending_delivery (ids (we_id e)) event (we_id e)).
Proof.
  revert db; induction endpoints as [|e r IH]; intros db; simpl; intros Hq.
  { inv_txn; split_and!; [done|done|]; intros e He; by apply not_elem_of_nil in He. }
  apply mseq_ok in Hq as (d & [] & Hi & Hq); destruct (IH _ Hq) as (He & Hsub & Hall).
  destruct (subscribes kind e) eqn:Hs.
  - apply insert_delivery_ok in Hi as (Hn%is_none_iff & _ & ->); split_and!; [done| |].
    + etrans; [|exact Hsub]; by apply insert_subseteq.
    + intros e' [->|Hin]%elem_of_cons Hs'; [|by apply Hall].
      eapply lookup_weaken; [|exact Hsub]; apply lookup_insert_eq.
  - inv_txn; split_and!; [done|done|]; intros e' [->|Hin]%elem_of_cons Hs'; [congruence|eauto].
Qed.

(** C14: an event round trip: an event made from a projection and the document it
    is sent as is stored with the user's address taken out, under a digest of the
    full body; and what a delivery sends is that full body, byte for byte, the
    address put back from the row's ciphertext. *)
Theorem event_body_round_trip clock uuid ids pp ap binding projection wire kind db db' event :
  wire_projection_document projection = Ok wire ->
  append_projection_event clock uuid ids pp ap binding projection wire kind db = (db', Ok event) ->
  exists ts user_id raw,
    json_to_vec (event_body pp ap (String.append "evt_" (uuid_simple uuid)) ts user_id wire
                   projection kind) = Some raw
    /\ event_raw_body event = Ok raw
    /\ ue_canonical_body_digest event = sha256 raw
    /\ db_events db' !! ue_id event = Some event
    /\ exists data, json_get "data" (ue_safe_body event) = Some data
         /\ (json_get "projection" data ≫= json_get "verified_email") = Some JNull.
Proof.
  intros Hw Ha; apply wire_document_ok in Hw as (email & fields & He & ->).
  destruct (replace_inserted "verified_email" (json_of_option email) JNull fields)
    as (safe & Hout & Hback & Hnull & Hsame).
  unfold append_projection_event in Ha.
  apply mseq_ok in Ha as (d & ts & Hts & Ha); apply mlift_ok in Hts as [_ ->].
  apply mseq_ok in Ha as (d & uid & Hu & Ha); apply mlift_ok in Hu as [_ ->]; cbv zeta in Ha.
  apply mseq_ok in Ha as (d & raw & Hraw & Ha); apply mlift_ok in Hraw as [Hraw%ok_or_ok ->].
  apply mseq_ok in Ha as (d & body & Hb & Ha); apply mlift_ok in Hb as [Hb%ok_or_ok ->].
  rewrite (body_email_set _ _ _ _ _ _ _ _ _ _ Hout) in Hb; injection Hb as <-.
  apply mseq_ok in Ha as (d & [] & Hi & Ha).
  assert (event = user_event_row uuid binding clock projection kind
            (event_body pp ap (String.append "evt_" (uuid_simple uuid)) ts uid (JObject safe)
               projection kind) (sha256 raw) /\ db_events db' = db_events d) as [-> Hev].
  { apply mseq_ok in Ha as (d1 & x & Hget & Ha); unfold mget in Hget; injection Hget as <- <-.
    apply if_mfail_ok in Ha as [_ Ha]; apply mseq_ok in Ha as (d2 & [] & Hdis & Ha).
    apply mseq_ok in Ha as (d3 & [] & Hen & Ha); unfold mret in Ha; injection Ha as <- <-.
    split; [done|]; rewrite (proj1 (enqueue_events _ _ _ _ _ _ Hen)); by eapply dispatch_events. }
  exists ts, uid, raw; split_and!; [done| |done| |].
  - unfold event_raw_body; simpl; unfold decrypted_projection_verified_email in He.
    destruct (pn_verified_email_source_identity_id projection),
      (pn_verified_email_ciphertext projection), (pn_verified_email_key_version projection);
      try done; simpl.
    + destruct (0 <? _); [|done]; apply rbind_ok in He as (p & Hp & [= <-]); rewrite Hp; simpl.
      rewrite (body_email_set _ _ _ _ _ _ _ _ _ _ Hback); simpl in Hraw |- *.
      rewrite Hraw; simpl; by rewrite bool_decide_true.
    + injection He as <-; rewrite (Hsame eq_refl); simpl in Hraw |- *.
      rewrite Hraw; simpl; by rewrite bool_decide_true.
  - rewrite Hev; apply insert_event_ok in Hi as (_ & _ & ->); apply lookup_insert_eq.
  - eexists; split; [reflexivity|]; exact Hnull.
Qed.
(** no subscriber is forgotten: appending an event stores it, keeps every
    delivery there is, and queues one pending delivery for each active endpoint of
    the application that subscribes to the event's type. *)
Theorem event_reaches_subscribers clock uuid ids pp ap binding projection wire kind db db' event :
  append_projection_event clock uuid ids pp ap binding projection wire kind db = (db', Ok event) ->
  db_events db !! ue_id event = None /\ db_events db' !! ue_id event = Some event
  /\ db_deliveries db ⊆ db_deliveries db'
  /\ forall id e, db_endpoints db !! id = Some e ->
       we_project_id e = pn_project_id projection ->
       we_application_id e = pn_application_id projection ->
       we_status e = "active"%string -> subscribes kind e = true ->
       db_deliveries db' !! ids (we_id e) = Some (pending_delivery (ids (we_id e)) event (we_id e)).
Proof.
  intros Ha; unfold append_projection_event in Ha.
  do 2 (apply mseq_ok in Ha as (? & ? & Hs & Ha); apply mlift_ok in Hs as [_ ->]).
  cbv zeta in Ha.
  do 2 (apply mseq_ok in Ha as (? & ? & Hs & Ha); apply mlift_ok in Hs as [_ ->]).
  apply mseq_ok in Ha as (d & [] & Hi & Ha); apply insert_event_ok in Hi as (Hn%is_none_iff & _ & Hd).
  apply mseq_ok in Ha as (d1 & y & Hget & Ha); unfold mget in Hget; injection Hget as <- <-.
  apply if_mfail_ok in Ha as [Hmax Ha]; apply Z.ltb_ge in Hmax.
  apply mseq_ok in Ha as (d2 & [] & Hdis & Ha); apply dispatch_events in Hdis as (E1 & E2 & _).
  apply mseq_ok in Ha as (d3 & [] & Hen & Ha); unfold mret in Ha; injection Ha as <- <-.
  apply enqueue_events in Hen as (E3 & Hsub & Hall).
  split_and!; [done|rewrite E3, E1, Hd; apply lookup_insert_eq|by rewrite E2, Hd in Hsub|].
  intros id e He Hp Hap Hst Hs; apply Hall; [|done].
  unfold active_endpoints in Hmax |- *; apply find_all_complete with (id := id); [lia| |].
  { by rewrite Hd. }
  by rewrite Hp, Hap, Hst, !Z.eqb_refl, bool_decide_true.
Qed.
End outbox.

(** ** The theorems on a projection with an address *)
Definition sample_endpoint : WebhookEndpointRow :=
  mkWebhookEndpointRow 60 1 2 "whk_12345678" "key" [] "https://app.example/hook"
    [UserEvent.ApplicationUserEventType_as_str UserEvent.Updated] "active" 1 (Some 1) None None 0
    None None None None None 0 0 None.
Definition outbox_db : Database :=
  set_db_webhook (mkWebhookTables ∅ {[60 := sample_endpoint]} ∅ ∅) sample_db.
Definition repaired_sample : ProjectionRow :=
  Eval vm_compute in default sample_projection (db_projections outbox_db !! 7).
Definition sample_wire : json :=
  Eval vm_compute in match wire_projection_document repaired_sample with Ok w => w | Err _ => JNull end.
Definition sample_append : Database * result ApplicationError UserEventRow :=
  append_projection_event (seconds 20) 61 (fun e => e + 1) "prj_12345678" "app_12345678" 6
    repaired_sample sample_wire UserEvent.Updated outbox_db.

Lemma sample_wire_ok : wire_projection_document repaired_sample = Ok sample_wire.
Proof. vm_compute; reflexivity. Qed.

Lemma event_body_round_trip_witness :
  exists event raw, sample_append.2 = Ok event /\ event_raw_body event = Ok raw.
Proof.
  destruct sample_append as [d [event|e]] eqn:Ha; [|vm_compute in Ha; discriminate Ha].
  destruct (event_body_round_trip (seconds 20) 61 (fun e => e + 1) "prj_12345678" "app_12345678" 6
              repaired_sample sample_wire UserEvent.Updated outbox_db d event
              sample_wire_ok Ha) as (ts & uid & raw & _ & Hraw & _).
  exists event, raw; split; [reflexivity|exact Hraw].
Defined.

Lemma event_reaches_subscribers_witness :
  exists event, sample_append.2 = Ok event
    /\ db_deliveries sample_append.1 !! 61 = Some (pending_delivery 61 event 60).
Proof.
  destruct sample_append as [d [event|e]] eqn:Ha; [|vm_compute in Ha; discriminate Ha].
  exists event; split; [reflexivity|].
  exact (proj2 (proj2 (proj2 (event_reaches_subscribers (seconds 20) 61 (fun e => e + 1) "prj_12345678"
           "app_12345678" 6 repaired_sample sample_wire UserEvent.Updated outbox_db d event Ha)))
           60 sample_endpoint eq_refl eq_refl eq_refl eq_refl ltac:(vm_compute; reflexivity)).
Defined.
