(* ===== verification/WebhookDeliveryProofs.v ===== *)
(** * Theorems on webhook delivery

    What the worker does to the deliveries and their attempts is an abstract
    machine ([vstep]): a pending delivery is leased, a leased one is released
    with its attempt on record, a pending one is cancelled, and finished ones
    are removed with their attempts.  Every operation refines it, for any
    snapshots, clocks and interleaving; the theorems follow by induction on the
    machine. *)
From S2P Require Import Prelude.
From S2P Require Import Json.
From S2P Require Import WebhookTables.
From S2P Require Import Webhooks.
From S2P Require Import UrlValues.
From S2P Require Import Database.
From S2P Require Import Projection.
From S2P Require Import WebhookOutbox.
From S2P Require Import SessionStore.
From S2P Require Import SessionAuthorityProofs.
From S2P Require Import WebhookOutboxProofs.
From S2P Require Import WebhookDelivery.

(** ** The machine *)
Record View := mkView {
  vw_deliveries : gmap Z WebhookDeliveryRow;
  vw_attempts : gmap (Z * Z) WebhookAttemptRow
}.
Definition view (s : DeliveryStore) : View := mkView (deliveries s) (dl_attempts s).

Inductive wstep : View -> View -> Prop :=
| VLease D A d owner incarnation clock lease_seconds secret overlap material overlap_material :
    D !! wd_id d = Some d -> is_pending d = true ->
    (forall d', D !! wd_id d' = Some d' -> wd_endpoint_id d' = wd_endpoint_id d ->
       is_leased d' = false) ->
    wstep (mkView D A)
      (mkView (<[wd_id d := delivery_leased owner incarnation clock lease_seconds secret overlap
                              material overlap_material d]> D) A)
| VRelease D A d a state next class status delivered now :
    D !! wd_id d = Some d -> is_leased d = true ->
    A !! (wd_id d, wd_attempt_count d) = None ->
    wa_delivery_id a = wd_id d -> wa_attempt_number a = wd_attempt_count d ->
    state ∈ ["pending"; "delivered"; "terminal"; "cancelled"]%string ->
    (state = "pending"%string -> wd_attempt_count d < MAX_WEBHOOK_DELIVERY_ATTEMPTS) ->
    wstep (mkView D A)
      (mkView (<[wd_id d := delivery_released state next class status delivered now d]> D)
              (<[(wd_id d, wd_attempt_count d) := a]> A))
| VCancel D A d clock :
    D !! wd_id d = Some d -> is_pending d = true ->
    wstep (mkView D A) (mkView (<[wd_id d := delivery_cancelled clock d]> D) A)
| VForget D A id n :
    wstep (mkView D A) (mkView D (delete (id, n) A))
| VDrop D A d :
    D !! wd_id d = Some d -> is_finished d = true -> (forall n, A !! (wd_id d, n) = None) ->
    wstep (mkView D A) (mkView (delete (wd_id d) D) A).

(** The worker's steps, and the outbox appending a delivery. *)
Inductive vstep : View -> View -> Prop :=
| VWork v v' : wstep v v' -> vstep v v'
| VAppend D A d :
    D !! wd_id d = None -> is_pending d = true -> wd_attempt_count d = 0 ->
    wd_lease_generation d = 0 ->
    vstep (mkView D A) (mkView (<[wd_id d := d]> D) A).

(** ** Invariant *)
Definition attempts_bounded (d : WebhookDeliveryRow) : Prop :=
  0 <= wd_attempt_count d <= MAX_WEBHOOK_DELIVERY_ATTEMPTS
  /\ (is_pending d = true -> wd_attempt_count d < MAX_WEBHOOK_DELIVERY_ATTEMPTS)
  /\ 0 <= wd_lease_generation d
  /\ (is_leased d = true -> 0 < wd_attempt_count d /\ 0 < wd_lease_generation d).

Record view_ok (v : View) : Prop := {
  vo_keys : forall id d, vw_deliveries v !! id = Some d -> wd_id d = id;
  vo_attempts : forall id d, vw_deliveries v !! id = Some d -> attempts_bounded d;
  vo_single : forall i j d e, vw_deliveries v !! i = Some d -> vw_deliveries v !! j = Some e ->
    is_leased d = true -> is_leased e = true -> wd_endpoint_id d = wd_endpoint_id e -> i = j;
  vo_attempt_keys : forall id n a, vw_attempts v !! (id, n) = Some a -> wa_delivery_id a = id;
  vo_log : forall id n a, vw_attempts v !! (id, n) = Some a ->
    exists d, vw_deliveries v !! id = Some d /\ n <= wd_attempt_count d
              /\ (n = wd_attempt_count d -> is_leased d = false)
}.

Lemma released_states state :
  state ∈ ["pending"; "delivered"; "terminal"; "cancelled"]%string ->
  bool_decide (state = "leased"%string) = false.
Proof. rewrite !elem_of_cons, elem_of_nil. intros Hs. apply bool_decide_eq_false. naive_solver. Qed.

Lemma pending_not_leased d : is_pending d = true -> is_leased d = false.
Proof. unfold is_pending, is_leased. intros ->%bool_decide_eq_true. done. Qed.

Lemma leased_row owner inc clock ls a b c e d :
  is_leased (delivery_leased owner inc clock ls a b c e d) = true
  /\ is_pending (delivery_leased owner inc clock ls a b c e d) = false.
Proof. done. Qed.

(** A row written at its own key. *)
Lemma view_ok_write D A d' :
  view_ok (mkView D A) -> attempts_bounded d' ->
  (is_leased d' = true -> forall j e, D !! j = Some e -> is_leased e = true ->
     wd_endpoint_id e = wd_endpoint_id d' -> j = wd_id d') ->
  (forall n a, A !! (wd_id d', n) = Some a ->
     n <= wd_attempt_count d' /\ (n = wd_attempt_count d' -> is_leased d' = false)) ->
  view_ok (mkView (<[wd_id d' := d']> D) A).
Proof.
  intros [Hk Ha Hs Hak Hl] Hb Hone Hlog; constructor; cbn in *.
  - intros id d. destruct (decide (id = wd_id d')) as [->|Hne].
    + rewrite lookup_insert_eq. by intros [= <-].
    + rewrite lookup_insert_ne by done. apply Hk.
  - intros id d. destruct (decide (id = wd_id d')) as [->|Hne].
    + rewrite lookup_insert_eq. by intros [= <-].
    + rewrite lookup_insert_ne by done. apply Ha.
  - intros i j d e. destruct (decide (i = wd_id d')) as [->|Hi], (decide (j = wd_id d')) as [->|Hj];
      rewrite ?lookup_insert_eq, ?lookup_insert_ne by done; [done|..].
    + intros [= <-] He Hd Hle Hep. symmetry. eapply Hone; eauto.
    + intros Hd [= <-] Hld Hle Hep. eapply Hone; eauto.
    + apply Hs.
  - exact Hak.
  - intros id n a Hn. destruct (decide (id = wd_id d')) as [->|Hne].
    + exists d'. rewrite lookup_insert_eq. split; [done|]. by eapply Hlog.
    + rewrite lookup_insert_ne by done. by eapply Hl.
Qed.

Lemma view_ok_attempts D A A' :
  (forall k a, A' !! k = Some a -> A !! k = Some a) -> view_ok (mkView D A) -> view_ok (mkView D A').
Proof. intros Hsub [Hk Ha Hs Hak Hl]. constructor; cbn in *; eauto. Qed.

(** The log of a row that is there. *)
Lemma view_ok_log D A d n a :
  view_ok (mkView D A) -> D !! wd_id d = Some d -> A !! (wd_id d, n) = Some a ->
  n <= wd_attempt_count d /\ (n = wd_attempt_count d -> is_leased d = false).
Proof. intros [_ _ _ _ Hl] Hd Ha. destruct (Hl _ _ _ Ha) as (e & He & Hn). cbn in He. naive_solver. Qed.

Lemma wstep_ok v v' : wstep v v' -> view_ok v -> view_ok v'.
Proof.
  intros Hstep Hok. pose proof Hok as [Hk Ha Hs Hak Hl]. destruct Hstep; cbn in *.
  - destruct (Ha _ _ H) as (Hb & Hp & Hg & Hlg).
    apply (view_ok_write D A (delivery_leased owner incarnation clock lease_seconds secret overlap
             material overlap_material d)); cbn; [done|..].
    + specialize (Hp H0). split; cbn; [lia|]. split; [done|]. split; lia.
    + intros _ j e He Hle Hep. specialize (Hk _ _ He). subst.
      rewrite (H1 e) in Hle; [done|done|done].
    + intros n a Hn. destruct (view_ok_log _ _ _ _ _ Hok H Hn). lia.
  - destruct (Ha _ _ H) as (Hb & Hp & Hg & Hlg).
    assert (Hrel : is_leased (delivery_released state next class status delivered now d) = false)
      by (apply released_states; done).
    assert (Hok' : view_ok (mkView (<[wd_id d := delivery_released state next class status delivered now d]> D) A)).
    { apply (view_ok_write D A (delivery_released state next class status delivered now d)); cbn; [done|..].
      - split; cbn; [lia|]. split; [|split; [lia|by rewrite Hrel]].
        unfold is_pending; cbn. intros ->%bool_decide_eq_true. auto.
      - rewrite Hrel. done.
      - intros n x Hn. destruct (view_ok_log _ _ _ _ _ Hok H Hn). split; [lia|auto]. }
    destruct Hok' as [Hk' Ha' Hs' Hak' Hl']. constructor; cbn in *; [done..| |].
    { intros id n x [[[= <- <-] <-]|[_ Hx]]%lookup_insert_Some; [done|eauto]. }
    intros id n x. destruct (decide ((id, n) = (wd_id d, wd_attempt_count d))) as [[= -> ->]|Hne].
    + intros _. eexists. rewrite lookup_insert_eq. split; [done|]. cbn. split; [lia|auto].
    + rewrite (lookup_insert_ne A) by done. apply Hl'.
  - destruct (Ha _ _ H) as (Hb & Hp & Hg & Hlg).
    apply (view_ok_write D A (delivery_cancelled clock d)); cbn; [done|..].
    + split; cbn; [lia|]. split; [done|]. split; [lia|done].
    + done.
    + intros n a Hn. destruct (view_ok_log _ _ _ _ _ Hok H Hn). auto.
  - apply view_ok_attempts with A; [|done]. intros k a. rewrite lookup_delete_Some. tauto.
  - constructor; cbn.
    + intros id e. rewrite lookup_delete_Some. intros [_ He]. eauto.
    + intros id e. rewrite lookup_delete_Some. intros [_ He]. eauto.
    + intros i j x y. rewrite !lookup_delete_Some. intros [_ Hx] [_ Hy]. eauto.
    + exact Hak.
    + intros id n a Hn. destruct (Hl _ _ _ Hn) as (e & He & ?). exists e.
      rewrite lookup_delete_ne; [done|]. intros <-. by rewrite H1 in Hn.
Qed.

Lemma vstep_ok v v' : vstep v v' -> view_ok v -> view_ok v'.
Proof.
  intros [v1 v1' Hw|D A d Hnone Hp Hc Hg] Hok; [by eapply wstep_ok|]. pose proof Hok as [_ _ _ _ Hl].
  apply view_ok_write; [done|..].
  - split; unfold MAX_WEBHOOK_DELIVERY_ATTEMPTS; [lia|]. split; [lia|]. split; [lia|].
    by rewrite pending_not_leased.
  - rewrite pending_not_leased by done. done.
  - intros n a Hn. destruct (Hl _ _ _ Hn) as (e & He & _). cbn in *. congruence.
Qed.

Lemma view_ok_steps v v' : rtc vstep v v' -> view_ok v -> view_ok v'.
Proof. induction 1; eauto using vstep_ok. Qed.

(** ** What happens to one delivery *)
Definition delivery_moves (d d' : WebhookDeliveryRow) : Prop :=
  wd_id d' = wd_id d /\ wd_endpoint_id d' = wd_endpoint_id d
  /\ wd_lease_generation d <= wd_lease_generation d'
  /\ (wd_lease_generation d' = wd_lease_generation d -> is_leased d' = true -> d' = d)
  /\ (is_finished d = true -> d' = d).

Lemma moves_refl d : delivery_moves d d.
Proof. repeat split; auto; lia. Qed.

Lemma moves_trans d1 d2 d3 : delivery_moves d1 d2 -> delivery_moves d2 d3 -> delivery_moves d1 d3.
Proof.
  intros (I1 & E1 & G1 & L1 & F1) (I2 & E2 & G2 & L2 & F2). split; [congruence|].
  split; [congruence|]. split; [lia|]. split.
  - intros Hg Hl. assert (d3 = d2) as -> by (apply L2; [lia|done]). apply L1; [lia|done].
  - intros Hf. specialize (F1 Hf). subst. auto.
Qed.

(** A delivery keeps moving, or was removed and stays away. *)
Definition moves_at (id : Uuid) (v v' : View) : Prop :=
  match vw_deliveries v !! id, vw_deliveries v' !! id with
  | Some d, Some d' => delivery_moves d d'
  | None, Some _ => False
  | _, None => True
  end.

Lemma moves_at_refl id v : moves_at id v v.
Proof. unfold moves_at. destruct (_ !! _); [apply moves_refl|done]. Qed.

Lemma moves_at_trans id v1 v2 v3 : moves_at id v1 v2 -> moves_at id v2 v3 -> moves_at id v1 v3.
Proof.
  unfold moves_at. destruct (_ v1 !! _), (_ v2 !! _), (_ v3 !! _); try done. apply moves_trans.
Qed.

Lemma moves_at_write id D A A' d d' :
  D !! wd_id d = Some d -> wd_id d' = wd_id d -> delivery_moves d d' ->
  moves_at id (mkView D A) (mkView (<[wd_id d := d']> D) A').
Proof.
  intros Hd Hid Hm. unfold moves_at; cbn. destruct (decide (id = wd_id d)) as [->|Hne].
  - by rewrite Hd, lookup_insert_eq.
  - rewrite lookup_insert_ne by done. destruct (D !! id); [apply moves_refl|done].
Qed.

Lemma pending_not_finished d : is_pending d = true -> is_finished d = false.
Proof. unfold is_pending, is_finished. intros ->%bool_decide_eq_true. done. Qed.
Lemma leased_not_finished d : is_leased d = true -> is_finished d = false.
Proof. unfold is_leased, is_finished. intros ->%bool_decide_eq_true. done. Qed.

Lemma wstep_moves id v v' : wstep v v' -> moves_at id v v'.
Proof.
  destruct 1; try (apply moves_at_write; [done..|]).
  - split; [done|]. split; [done|]. cbn. split; [lia|]. split; [lia|].
    rewrite pending_not_finished by done. done.
  - split; [done|]. split; [done|]. cbn. split; [lia|]. split.
    + intros _. unfold is_leased; cbn. rewrite released_states by done. done.
    + rewrite leased_not_finished by done. done.
  - split; [done|]. split; [done|]. cbn. split; [lia|]. split; [done|].
    rewrite pending_not_finished by done. done.
  - unfold moves_at; cbn. destruct (D !! id); [apply moves_refl|done].
  - unfold moves_at; cbn. destruct (decide (id = wd_id d)) as [->|Hne].
    + rewrite lookup_delete_eq. by destruct (_ !! _).
    + rewrite lookup_delete_ne by done. destruct (D !! id); [apply moves_refl|done].
Qed.

(** Steps of the whole system that do not reuse an identifier. *)
Definition vstep_at (id : Uuid) (v v' : View) : Prop :=
  vstep v v' /\ (vw_deliveries v !! id = None -> vw_deliveries v' !! id = None).

Lemma moves_at_steps id v v' : rtc (vstep_at id) v v' -> moves_at id v v'.
Proof.
  induction 1 as [v|v1 v2 v3 [Hs Hfresh] _ IH]; [apply moves_at_refl|].
  eapply moves_at_trans; [|exact IH]. destruct Hs as [v v' Hw|D A d Hnone Hp Hc Hg];
    [by apply wstep_moves|].
  unfold moves_at; cbn in *. destruct (decide (id = wd_id d)) as [->|Hne].
  - rewrite lookup_insert_eq in Hfresh. specialize (Hfresh Hnone). done.
  - rewrite lookup_insert_ne by done. destruct (D !! id); [apply moves_refl|done].
Qed.

Lemma wstep_at id v v' : wstep v v' -> vstep_at id v v'.
Proof.
  intros Hw. split; [by constructor|]. pose proof (wstep_moves id _ _ Hw) as Hm.
  unfold moves_at in Hm. intros Hn. rewrite Hn in Hm. by destruct (_ v' !! _).
Qed.

(** ** The operations refine the machine *)
(** Statements that leave deliveries and attempts alone. *)
Lemma d_check_ok c e s s' u : d_check c e s = (s', Ok u) -> c = true /\ s' = s.
Proof. unfold d_check. destruct c; [|done]. intros [= <-]. done. Qed.

Lemma d_transaction_ok {A} (body : dtxn A) s s' a :
  d_transaction body s = (s', Ok a) -> body s = (s', Ok a).
Proof. unfold d_transaction. destruct (body s) as [x [y|e]]; naive_solver. Qed.

Lemma d_transaction_err {A} (body : dtxn A) s s' e : d_transaction body s = (s', Err e) -> s' = s.
Proof. unfold d_transaction. destruct (body s) as [x [y|f]]; naive_solver. Qed.

Lemma mmodify_ok {S E} (f : S -> S) s s' u : mmodify (E := E) f s = (s', Ok u) -> s' = f s.
Proof. unfold mmodify. intros [= <-]. done. Qed.

Lemma match_none {A B S E} (o : option A) (k : A -> mut S E B) (n : mut S E B) s :
  match o with Some a => k a | None => n end s = match o with Some a => k a s | None => n s end.
Proof. by destruct o. Qed.

(** Inversion of successful statements over the store. *)
Ltac inv_d := repeat first
  [ progress inv_txn
  | match goal with
    | Hx : d_check _ _ _ = (_, Ok _) |- _ => apply d_check_ok in Hx as [? ->]
    | Hx : d_transaction _ _ = (_, Ok _) |- _ => apply d_transaction_ok in Hx
    | Hx : mmodify _ _ = (_, Ok _) |- _ => apply mmodify_ok in Hx; subst
    end ].

Lemma update_delivery_ok row s s' u :
  update_delivery row s = (s', Ok u) ->
  view s' = mkView (<[wd_id row := row]> (deliveries s)) (dl_attempts s)
  /\ webhook_delivery_check row = true.
Proof. unfold update_delivery. intros. inv_d. bool_prop. split; [done|tauto]. Qed.

Lemma insert_attempt_ok row s s' u :
  insert_attempt row s = (s', Ok u) ->
  view s' = mkView (deliveries s) (<[(wa_delivery_id row, wa_attempt_number row) := row]> (dl_attempts s))
  /\ dl_attempts s !! (wa_delivery_id row, wa_attempt_number row) = None.
Proof.
  unfold insert_attempt. intros. inv_d. bool_prop. split; [done|].
  destruct (dl_attempts _ !! _); naive_solver.
Qed.

Lemma update_endpoint_row_view row s s' u : update_endpoint_row row s = (s', Ok u) -> view s' = view s.
Proof. unfold update_endpoint_row. intros. inv_d. done. Qed.
Lemma update_secret_view row s s' u : update_secret row s = (s', Ok u) -> view s' = view s.
Proof. unfold update_secret. intros. inv_d. done. Qed.
Lemma enqueue_view i c e g m n b s s' u :
  enqueue_secret_cleanup i c e g m n b s = (s', Ok u) -> view s' = view s.
Proof.
  unfold enqueue_secret_cleanup. intros. inv_d. destruct (existsb _ _); inv_d; done.
Qed.
Lemma lock_owners_ok p a s s' x : lock_application_owners p a s = (s', Ok x) -> s' = s.
Proof. unfold lock_application_owners. intros. inv_d. done. Qed.
Lemma lock_active_ok p a s s' x : lock_active_application p a s = (s', Ok x) -> s' = s.
Proof.
  unfold lock_active_application. intros. inv_d.
  match goal with Hl : lock_application_owners _ _ _ = _ |- _ => by apply lock_owners_ok in Hl end.
Qed.
Lemma lock_endpoint_ok p a e s s' x :
  lock_endpoint p a e s = (s', Ok x) -> s' = s /\ endpoints s !! e = Some x.
Proof.
  unfold lock_endpoint, find_by_id. intros. inv_d. inv_ok. split; [done|].
  destruct (endpoints _ !! e) as [r|]; cbn in *; [|done].
  match goal with Hx : (if ?b then _ else _) = _ |- _ => destruct b; naive_solver end.
Qed.

Ltac keep_view := repeat match goal with
  | Hx : lock_application_owners _ _ _ = (_, Ok _) |- _ => apply lock_owners_ok in Hx; subst
  | Hx : lock_active_application _ _ _ = (_, Ok _) |- _ => apply lock_active_ok in Hx; subst
  | Hx : lock_endpoint _ _ _ _ = (_, Ok _) |- _ => apply lock_endpoint_ok in Hx as [-> ?]
  | Hx : update_endpoint_row _ _ = (_, Ok _) |- _ => apply update_endpoint_row_view in Hx
  | Hx : update_secret _ _ = (_, Ok _) |- _ => apply update_secret_view in Hx
  | Hx : enqueue_secret_cleanup _ _ _ _ _ _ _ _ = (_, Ok _) |- _ => apply enqueue_view in Hx
  end.

Definition refines {A : Type} (m : dtxn A) : Prop :=
  forall s s' r, view_ok (view s) -> m s = (s', r) -> rtc wstep (view s) (view s').

Lemma view_ok_wsteps v v' : rtc wstep v v' -> view_ok v -> view_ok v'.
Proof. induction 1; eauto using wstep_ok. Qed.

Lemma refines_seq {A B} (m : dtxn A) (k : A -> dtxn B) :
  refines m -> (forall a, refines (k a)) -> refines (a <~ m ;; k a).
Proof.
  intros Hm Hk s s' r Hok. unfold mseq. destruct (m s) as [s1 [a|e]] eqn:E.
  - intros Hs. pose proof (Hm _ _ _ Hok E) as H1. etransitivity; [exact H1|].
    eapply Hk; [|exact Hs]. by eapply view_ok_wsteps.
  - intros [= <- <-]. by eapply Hm.
Qed.

Lemma refines_txn {A} (body : dtxn A) :
  (forall s s' a, view_ok (view s) -> body s = (s', Ok a) -> rtc wstep (view s) (view s')) ->
  refines (d_transaction body).
Proof.
  intros Hb s s' [a|e] Hok Hs.
  - apply d_transaction_ok in Hs. eauto.
  - apply d_transaction_err in Hs as ->. reflexivity.
Qed.

Lemma refines_id {A} (m : dtxn A) : (forall s s' r, m s = (s', r) -> s' = s) -> refines m.
Proof. intros Hm s s' r _ Hs. apply Hm in Hs as ->. reflexivity. Qed.

Lemma refines_ret {A} (a : A) : refines (mret a).
Proof. apply refines_id. intros s s' r [= <- _]. done. Qed.
Lemma refines_fail {A} e : refines (A := A) (mfail e).
Proof. apply refines_id. intros s s' r [= <- _]. done. Qed.
Lemma refines_lift {A} (r : result ApplicationError A) : refines (mlift r).
Proof. apply refines_id. intros s s' r' [= <- _]. done. Qed.
Lemma refines_get : refines mget.
Proof. apply refines_id. intros s s' r' [= <- _]. done. Qed.

Lemma same_view v s : view s = v -> rtc wstep v (view s).
Proof. by intros ->. Qed.

Lemma refines_retire_overlap seen clock now id : refines (retire_one_expired_overlap seen clock now id).
Proof.
  unfold retire_one_expired_overlap. destruct (expired_overlap_hint seen); [|apply refines_ret].
  apply refines_txn. intros s s' a Hok Hs. apply same_view. inv_d. keep_view.
  destruct (_ || _); inv_d; keep_view; [done|].
  destruct (bool_decide _); [|destruct (negb _)]; inv_d; keep_view; congruence.
Qed.

Lemma retire_secrets_view ids clock now e o nb l s s' u :
  retire_secrets ids clock now e o nb l s = (s', Ok u) -> view s' = view s.
Proof.
  revert s; induction l as [|x l IH]; intros s Hs; cbn in Hs; inv_d; [done|].
  apply IH in Hs. destruct (bool_decide _); inv_d; keep_view; congruence.
Qed.

Lemma refines_retire_disabled seen clock now ids :
  refines (retire_one_disabled_owner_endpoint seen clock now ids).
Proof.
  unfold retire_one_disabled_owner_endpoint. destruct (disabled_owner_hint seen); [|apply refines_ret].
  apply refines_txn. intros s s' a Hok Hs. apply same_view. inv_d. keep_view.
  destruct (_ && _); inv_d; keep_view; [done|].
  repeat match goal with
  | Hx : match ?o with Some _ => _ | None => _ end _ = _ |- _ => destruct o; inv_d
  | Hx : (if negb ?o then _ else _) _ = _ |- _ => destruct o; cbn in Hx; inv_d
  | Hx : retire_secrets _ _ _ _ _ _ _ _ = _ |- _ => apply retire_secrets_view in Hx
  end; keep_view; congruence.
Qed.

(** ** Release of a lease *)
Lemma recovered_states active n :
  recovered_state active n ∈ ["pending"; "delivered"; "terminal"; "cancelled"]%string
  /\ (recovered_state active n = "pending"%string -> n < MAX_WEBHOOK_DELIVERY_ATTEMPTS).
Proof.
  unfold recovered_state. destruct (negb active); [split; [set_solver|done]|].
  destruct (_ <=? _) eqn:?; (split; [set_solver|]); [done|]. intros _. bool_prop. lia.
Qed.

Lemma finished_states outcome active n next :
  finished_state outcome active n next ∈ ["pending"; "delivered"; "terminal"; "cancelled"]%string
  /\ (finished_state outcome active n next = "pending"%string -> n < MAX_WEBHOOK_DELIVERY_ATTEMPTS).
Proof.
  unfold finished_state. destruct (bool_decide _); [split; [set_solver|done]|].
  destruct (_ && _ && _ && _) eqn:Hr; [|clear Hr; destruct (_ && _); (split; [set_solver|done])].
  split; [clear Hr; set_solver|]. intros _. bool_prop. lia.
Qed.

(** Recording an attempt and releasing its delivery is one step. *)
Lemma release_step s s1 s2 s' d a state next class status delivered now u1 u2 :
  view_ok (view s) -> deliveries s !! wd_id d = Some d -> is_leased d = true ->
  wa_delivery_id a = wd_id d -> wa_attempt_number a = wd_attempt_count d ->
  state ∈ ["pending"; "delivered"; "terminal"; "cancelled"]%string
  /\ (state = "pending"%string -> wd_attempt_count d < MAX_WEBHOOK_DELIVERY_ATTEMPTS) ->
  insert_attempt a s = (s1, Ok u1) ->
  update_delivery (delivery_released state next class status delivered now d) s1 = (s2, Ok u2) ->
  view s' = view s2 ->
  rtc wstep (view s) (view s').
Proof.
  intros Hok Hd Hl Hid Hn [Hst Hp] Hi Hu Hv.
  apply insert_attempt_ok in Hi as [Hv1 Hnone]; apply update_delivery_ok in Hu as [Hv2 _].
  rewrite Hid, Hn in Hv1, Hnone. injection Hv1 as Hd1 Ha1. rewrite Hd1, Ha1 in Hv2.
  rewrite Hv, Hv2. apply rtc_once. by apply (VRelease (deliveries s) (dl_attempts s) d a).
Qed.

(** A row found under a key has it. *)
Lemma own_key s id d :
  view_ok (view s) -> deliveries s !! id = Some d -> deliveries s !! wd_id d = Some d.
Proof. intros Hok Hd. by rewrite (vo_keys _ Hok _ _ Hd). Qed.

Lemma refines_recover seen clock now id : refines (recover_one_expired_delivery seen clock now id).
Proof.
  unfold recover_one_expired_delivery. destruct (expired_delivery_hint seen) as [hint|];
    [|apply refines_ret].
  apply refines_txn. intros s s' a Hok Hs. unfold recover_locked in Hs. inv_d. keep_view. inv_ok.
  destruct (_ || _) eqn:Hskip in Hs; [injection Hs as <-; reflexivity|].
  apply orb_false_iff in Hskip as [Hl%negb_false_iff _].
  inv_d. keep_view.
  eapply release_step; [..|eassumption|eassumption|eassumption];
    [done|eauto using own_key|done|done|done|apply recovered_states].
Qed.

Section with_libraries.
Context `{CanonicalHash} `{ProjectionCryptography} `{UrlLib} `{TimeFormat} `{JsonbText}.

Lemma refines_finish seen claim ts outcome next now correlation :
  refines (finish seen claim ts outcome next now correlation).
Proof.
  apply refines_seq; [apply refines_lift|]. intros hint. apply refines_txn.
  intros s s' a Hok Hs. unfold finish_locked in Hs. inv_d. keep_view. inv_ok.
  match goal with Hm : lease_mismatch _ _ _ _ = false |- _ => unfold lease_mismatch in Hm end.
  bool_prop.
  eapply release_step; [..|eassumption|eassumption|eassumption];
    [done|eauto using own_key|tauto|done|done|apply finished_states].
Qed.

(** The candidate of the claim's own statement has no leased delivery on its
    endpoint. *)
Lemma candidate_claimable s now id d :
  List.find (fun d => wd_id d =? id) (application_candidates s (claimable s now)) = Some d ->
  wd_id d = id /\ claimable s now d = true /\ exists k, deliveries s !! k = Some d.
Proof.
  intros [Hin Hid%Z.eqb_eq]%find_some. split; [done|].
  unfold application_candidates, distinct_on in Hin.
  apply filter_In in Hin as [[[Hin Hc]%filter_In _]%filter_In _]. split; [done|].
  apply in_map_iff in Hin as ([k y] & Hy & Hk). cbn in Hy. subst y. exists k.
  by apply elem_of_map_to_list, list_elem_of_In.
Qed.

Lemma claimable_single s now d d' :
  view_ok (view s) -> claimable s now d = true -> deliveries s !! wd_id d' = Some d' ->
  wd_endpoint_id d' = wd_endpoint_id d -> is_leased d' = false.
Proof.
  intros Hok Hc Hd' He. unfold claimable in Hc. apply andb_true_iff in Hc as [_ Hn%negb_true_iff].
  destruct (is_leased d') eqn:Hl; [|done]. rewrite <-Hn. symmetry. apply existsb_exists.
  exists d'. split; [|rewrite He, Z.eqb_refl, Hl; done].
  apply in_map_iff. exists (wd_id d', d'). split; [done|].
  by apply list_elem_of_In, elem_of_map_to_list.
Qed.

Lemma refines_lease s s' w i c now ls seq locked id r :
  view_ok (view s) -> lease_delivery w i c now ls seq locked id s = (s', Ok r) ->
  rtc wstep (view s) (view s').
Proof.
  intros Hok Hs. unfold lease_delivery in Hs. inv_d.
  destruct (List.find _ _) as [d|] eqn:Hf; [|injection Hs as <- _; reflexivity].
  destruct (locked || _); [injection Hs as <- _; reflexivity|]. inv_d.
  destruct (endpoints s !! _) as [e|]; [|injection Hs as <- _; reflexivity].
  destruct (event_retained _ _ _); [|injection Hs as <- _; reflexivity]. inv_d.
  apply candidate_claimable in Hf as (Hid & Hc & k & Hk).
  match goal with Hu : update_delivery _ _ = _ |- _ => apply update_delivery_ok in Hu as [Hv _] end.
  rewrite Hv. apply rtc_once. unfold claimed_row in *. cbn.
  pose proof (own_key _ _ _ Hok Hk).
  apply (VLease (deliveries s) (dl_attempts s) d); [done| |eauto using claimable_single].
  unfold claimable in Hc. bool_prop. tauto.
Qed.

Lemma refines_claim draws w i now ls : refines (claim_one draws w i now ls).
Proof.
  unfold claim_one. destruct (_ || _); [apply refines_fail|].
  apply refines_seq; [apply refines_retire_overlap|intros _].
  apply refines_seq; [apply refines_recover|intros _].
  apply refines_txn. intros s s' a Hok Hs. unfold claim_locked in Hs.
  destruct (find_claim_candidate _ _); [|injection Hs as <- _; reflexivity].
  inv_d. keep_view.
  match goal with Hl : lease_delivery _ _ _ _ _ _ _ _ _ = _ |- _ =>
    apply refines_lease in Hl; [|done]; revert Hl end.
  intros Hl. match goal with Hx : match ?o with Some _ => _ | None => _ end _ = _ |- _ =>
    destruct o as [[row e]|] end; [|injection Hs as <- _; done].
  inv_d. done.
Qed.
End with_libraries.

(** ** Maintenance *)
Lemma bounded_in {A} (before : A -> A -> bool) n l x :
  x ∈ bounded before n l -> In x l.
Proof.
  unfold bounded. intros Hx. apply list_elem_of_In.
  rewrite <-(merge_sort_Permutation (in_order before) l).
  by eapply elem_of_take in Hx as (i & Hi & _); eapply list_elem_of_lookup_2.
Qed.

Lemma NoDup_map_filter {A B} (f : A -> B) (p : A -> bool) l :
  NoDup (map f l) -> NoDup (map f (List.filter p l)).
Proof.
  induction l as [|a l IH]; cbn; [done|]. intros [Hn Hl]%NoDup_cons.
  destruct (p a); cbn; [|auto]. apply NoDup_cons. split; [|auto]. contradict Hn.
  apply list_elem_of_In in Hn. apply list_elem_of_In.
  apply in_map_iff in Hn as (x & Hx & [Hin _]%filter_In). apply in_map_iff. eauto.
Qed.

Lemma NoDup_map_bounded {A B} (f : A -> B) (before : A -> A -> bool) n l :
  NoDup (map f l) -> NoDup (map f (bounded before n l)).
Proof.
  intros Hl. unfold bounded. assert (Hp : NoDup (map f (merge_sort (in_order before) l))).
  { by rewrite (merge_sort_Permutation (in_order before) l). }
  rewrite <-(take_drop (Z.to_nat n) (merge_sort _ l)), map_app in Hp.
  by apply NoDup_app in Hp as [Hp _].
Qed.

Lemma stored_ids s : view_ok (view s) -> NoDup (map wd_id (map snd (map_to_list (deliveries s)))).
Proof.
  intros Hok. rewrite map_map.
  replace (map (fun x => wd_id x.2) (map_to_list (deliveries s)))
    with (map fst (map_to_list (deliveries s))); [apply NoDup_fst_map_to_list|].
  apply map_ext_in. intros [k d] Hin. apply list_elem_of_In, elem_of_map_to_list in Hin.
  symmetry. exact (vo_keys _ Hok _ _ Hin).
Qed.

Lemma stored_row s d :
  view_ok (view s) -> In d (map snd (map_to_list (deliveries s))) ->
  deliveries s !! wd_id d = Some d.
Proof.
  intros Hok Hin. apply in_map_iff in Hin as ([k y] & Hy & Hk). cbn in Hy. subst y.
  apply list_elem_of_In, elem_of_map_to_list in Hk. by eapply own_key.
Qed.

(** Rows chosen by a statement of the maintenance. *)
Lemma chosen_rows s before n p :
  view_ok (view s) ->
  let rows := bounded before n (List.filter p (map snd (map_to_list (deliveries s)))) in
  NoDup (map wd_id rows)
  /\ Forall (fun d => deliveries s !! wd_id d = Some d /\ p d = true) rows.
Proof.
  intros Hok rows. split.
  - by apply NoDup_map_bounded, NoDup_map_filter, stored_ids.
  - apply Forall_forall. intros d Hd. apply bounded_in, filter_In in Hd as [Hd Hp].
    split; [by apply stored_row|done].
Qed.

Lemma cancel_steps clock l : forall s s' u,
  NoDup (map wd_id l) ->
  Forall (fun d => deliveries s !! wd_id d = Some d /\ is_pending d = true) l ->
  update_deliveries (map (delivery_cancelled clock) l) s = (s', Ok u) ->
  rtc wstep (view s) (view s').
Proof.
  induction l as [|d l IH]; cbn; intros s s' u Hnd Hl Hs; [injection Hs as <- _; reflexivity|].
  apply NoDup_cons in Hnd as [Hn Hnd]. apply Forall_cons in Hl as [[Hd Hp] Hl]. inv_d.
  match goal with Hu : update_delivery _ _ = _ |- _ => apply update_delivery_ok in Hu as [Hv _] end.
  eapply rtc_l; [|eapply IH; [done| |exact Hs]].
  - rewrite Hv. by apply (VCancel (deliveries s) (dl_attempts s) d).
  - injection Hv as Hv _. rewrite Forall_forall in Hl |- *.
    intros e He. destruct (Hl e He) as [Hk Hpe]. split; [|done]. rewrite Hv. cbn. rewrite lookup_insert_ne; [done|].
    intros Heq. apply Hn. rewrite Heq. apply list_elem_of_In, in_map, list_elem_of_In. done.
Qed.

(** Statements of one transaction; on an error nothing of it remains. *)
Definition refines_ok {A : Type} (m : dtxn A) : Prop :=
  forall s s' a, view_ok (view s) -> m s = (s', Ok a) -> rtc wstep (view s) (view s').

Lemma refines_ok_seq {A B} (m : dtxn A) (k : A -> dtxn B) :
  refines_ok m -> (forall a, refines_ok (k a)) -> refines_ok (a <~ m ;; k a).
Proof.
  intros Hm Hk s s' b Hok Hs. inv_d. etransitivity; [by eapply Hm|].
  eapply Hk; [|eassumption]. eapply view_ok_wsteps; [|exact Hok]. by eapply Hm.
Qed.

Lemma refines_ok_ret {A} (a : A) : refines_ok (mret a).
Proof. intros s s' b _ [= <- _]. reflexivity. Qed.

Lemma refines_within_budget b n (k : Z -> dtxn Z) :
  (forall m, refines_ok (k m)) -> refines_ok (within_budget b n k).
Proof.
  intros Hk. unfold within_budget. destruct (_ <? _); [|apply refines_ok_ret].
  apply refines_ok_seq; [done|]. intros; apply refines_ok_ret.
Qed.

Lemma refines_is_ok {A} (m : dtxn A) : refines m -> refines_ok m.
Proof. intros Hm s s' a. apply Hm. Qed.

Lemma refines_cancel clock locked n : refines_ok (cancel_deliveries clock locked n).
Proof.
  intros s s' r Hok Hs; unfold cancel_deliveries in Hs. inv_d.
  destruct (chosen_rows s (fun a b => (retain_of s a <? retain_of s b)
                        || ((retain_of s a =? retain_of s b)
                            && ((wd_created_at a <? wd_created_at b)
                                || ((wd_created_at a =? wd_created_at b) && (wd_id a <? wd_id b)))))
              n (fun d => cancellable s clock d && negb (locked (wd_id d))) Hok) as [Hnd Hall].
  eapply cancel_steps; [exact Hnd| |eassumption]. eapply Forall_impl; [exact Hall|].
  intros d [Hd Hc]. split; [done|]. unfold cancellable in Hc. bool_prop. tauto.
Qed.

Lemma forget_steps D (rows : list WebhookAttemptRow) A :
  rtc wstep (mkView D A)
    (mkView D (fold_right (fun a t => delete (wa_delivery_id a, wa_attempt_number a) t) A rows)).
Proof. induction rows as [|a l IH]; cbn; [reflexivity|]. eapply rtc_r; [exact IH|]. constructor. Qed.

Lemma refines_delete_attempts clock n : refines_ok (delete_attempts clock n).
Proof. intros s s' r Hok Hs. unfold delete_attempts in Hs. inv_d. apply forget_steps. Qed.

Lemma fold_delete_ne (l : list WebhookDeliveryRow) (D : gmap Z WebhookDeliveryRow) id :
  id ∉ map wd_id l -> fold_right (fun d t => delete (wd_id d) t) D l !! id = D !! id.
Proof.
  induction l as [|d l IH]; cbn; [done|]. rewrite not_elem_of_cons. intros [Hne Hn].
  rewrite lookup_delete_ne by done. auto.
Qed.

Lemma drop_steps D A (rows : list WebhookDeliveryRow) :
  NoDup (map wd_id rows) ->
  Forall (fun d => D !! wd_id d = Some d /\ is_finished d = true
                   /\ forall n, A !! (wd_id d, n) = None) rows ->
  rtc wstep (mkView D A) (mkView (fold_right (fun d t => delete (wd_id d) t) D rows) A).
Proof.
  induction rows as [|d l IH]; cbn; intros Hnd Hl; [reflexivity|].
  apply NoDup_cons in Hnd as [Hn Hnd]. apply Forall_cons in Hl as [(Hd & Hf & Ha) Hl].
  eapply rtc_r; [by apply IH|]. constructor; [|done..]. by rewrite fold_delete_ne.
Qed.

Lemma refines_delete_deliveries clock locked n : refines_ok (delete_deliveries clock locked n).
Proof.
  intros s s' r Hok Hs. unfold delete_deliveries in Hs. inv_d.
  apply drop_steps; [by apply NoDup_map_bounded, NoDup_map_filter, stored_ids|].
  apply Forall_forall. intros d Hd. apply bounded_in, filter_In in Hd as [Hd Hp].
  split; [by apply stored_row|]. apply andb_true_iff in Hp as [[[[Hf _]%andb_true_iff Hno]%andb_true_iff _]%andb_true_iff _].
  split; [done|]. intros k. destruct (dl_attempts s !! (wd_id d, k)) as [a|] eqn:Ha; [|done].
  apply negb_true_iff in Hno. enough (true = false) by done. rewrite <-Hno. symmetry. apply existsb_exists. exists a.
  split; [|apply Z.eqb_eq, (vo_attempt_keys _ Hok _ _ _ Ha)].
  apply in_map_iff. exists ((wd_id d, k), a). split; [done|].
  by apply list_elem_of_In, elem_of_map_to_list.
Qed.

Lemma refines_delete_events clock locked n : refines_ok (delete_events clock locked n).
Proof. intros s s' r Hok Hs. unfold delete_events in Hs. inv_d. reflexivity. Qed.

Lemma refines_maintain draws now b : refines (maintain draws now b).
Proof.
  unfold maintain. destruct (_ || _); [apply refines_fail|].
  apply refines_seq; [apply refines_retire_disabled|intros disabled].
  apply refines_seq.
  { unfold within_budget. destruct (_ <? _); [|apply refines_ret].
    apply refines_seq; [|intros; apply refines_ret].
    apply refines_seq; [apply refines_retire_overlap|intros; apply refines_ret]. }
  intros affected. apply refines_seq; [apply refines_recover|intros _].
  destruct (_ <=? _); [apply refines_ret|]. apply refines_txn.
  apply refines_ok_seq; [apply refines_cancel|intros cancelled].
  apply refines_ok_seq; [apply refines_within_budget, refines_delete_attempts|intros a1].
  apply refines_ok_seq; [|intros a2]; apply refines_within_budget; intros m;
    [apply refines_delete_deliveries|apply refines_delete_events].
Qed.

(** ** The outbox appends *)
(** A step of the system whose new identifiers satisfy [drawn]. *)
Definition vstep_by (drawn : Uuid -> Prop) (v v' : View) : Prop :=
  vstep v v' /\ forall id, ~ drawn id ->
    vw_deliveries v !! id = None -> vw_deliveries v' !! id = None.

Lemma wsteps_by drawn v v' : rtc wstep v v' -> rtc (vstep_by drawn) v v'.
Proof.
  induction 1 as [|v1 v2 v3 Hw _ IH]; [reflexivity|]. eapply rtc_l; [|exact IH].
  split; [by constructor|]. intros id _. by apply wstep_at.
Qed.

Lemma vsteps_at (drawn : Uuid -> Prop) id v v' :
  ~ drawn id -> rtc (vstep_by drawn) v v' -> rtc (vstep_at id) v v'.
Proof.
  intros Hid. induction 1 as [|v1 v2 v3 [Hw Hn] _ IH]; [reflexivity|]. eapply rtc_l; [|exact IH].
  split; [done|]. by apply Hn.
Qed.

Lemma enqueue_steps `{CanonicalHash} ids event kind l A : forall db db' u,
  enqueue_deliveries ids event kind l db = (db', Ok u) ->
  rtc (vstep_by (fun id => exists e, ids e = id))
    (mkView (db_deliveries db) A) (mkView (db_deliveries db') A).
Proof.
  induction l as [|e l IH]; cbn; intros db db' u Hs; [injection Hs as <- _; reflexivity|].
  apply mseq_ok in Hs as (d & [] & Hi & Hs). destruct (subscribes kind e);
    [|injection Hi as <-; eauto].
  apply insert_delivery_ok in Hi as (Hn%is_none_iff & _ & ->).
  eapply rtc_l; [|exact (IH _ _ _ Hs)]. cbn in *. split; [by apply VAppend|].
  cbn. intros id Hid Hnone. rewrite lookup_insert_ne; [done|]. intros <-. apply Hid. eauto.
Qed.

Section system.
Context `{CanonicalHash} `{ProjectionCryptography} `{UrlLib} `{TimeFormat} `{JsonbText}.

Lemma append_steps clock uuid ids pp ap binding projection wire kind A db db' event :
  append_projection_event clock uuid ids pp ap binding projection wire kind db = (db', Ok event) ->
  rtc (vstep_by (fun id => exists e, ids e = id))
    (mkView (db_deliveries db) A) (mkView (db_deliveries db') A).
Proof.
  intros Ha; unfold append_projection_event in Ha.
  do 2 (apply mseq_ok in Ha as (? & ? & Hs & Ha); apply mlift_ok in Hs as [_ ->]).
  cbv zeta in Ha.
  do 2 (apply mseq_ok in Ha as (? & ? & Hs & Ha); apply mlift_ok in Hs as [_ ->]).
  apply mseq_ok in Ha as (d & [] & Hi & Ha); apply insert_event_ok in Hi as (_ & _ & Hd).
  apply mseq_ok in Ha as (d1 & y & Hget & Ha); unfold mget in Hget; injection Hget as <- <-.
  apply if_mfail_ok in Ha as [_ Ha].
  apply mseq_ok in Ha as (d2 & [] & Hdis & Ha); apply dispatch_events in Hdis as (_ & E2 & _).
  apply mseq_ok in Ha as (d3 & [] & Hen & Ha); unfold mret in Ha; injection Ha as <- _.
  apply enqueue_steps with (A := A) in Hen. by rewrite E2, Hd in Hen.
Qed.

(** ** The system: workers and the outbox, in any order *)
Inductive DeliveryOp :=
| OpClaim (draws : ClaimDraws) (worker_id : string) (incarnation : Uuid) (now : OffsetDateTime)
    (lease_seconds : Z)
| OpFinish (seen : DeliveryStore) (claim : ClaimedWebhookDelivery) (attempt_timestamp : Z)
    (outcome : WebhookTransportOutcome) (next_attempt_at : option OffsetDateTime)
    (now : OffsetDateTime) (correlation_id : Uuid)
| OpMaintain (draws : MaintainDraws) (now : OffsetDateTime) (row_budget : Z)
| OpClaimCleanup (worker_id : string) (incarnation : Uuid) (clock : OffsetDateTime)
    (lease_seconds : Z) (locked : Uuid -> bool)
| OpFinishCleanup (cleanup : ClaimedWebhookSecretCleanup) (clock now : OffsetDateTime)
    (erase : Uuid -> result ApplicationError unit) (correlation_id : Uuid)
| OpAppend (clock : OffsetDateTime) (event_uuid : Uuid) (delivery_id : Uuid -> Uuid)
    (project_public_id application_public_id : string) (binding_id : Uuid)
    (projection : ProjectionRow) (wire_projection : json)
    (event_type : UserEvent.ApplicationUserEventType).

Definition quiet {A : Type} (m : dtxn A) : DeliveryStore -> DeliveryStore := fun s => (m s).1.

Definition exec_op (op : DeliveryOp) : DeliveryStore -> DeliveryStore :=
  match op with
  | OpClaim draws w i now ls => quiet (claim_one draws w i now ls)
  | OpFinish seen claim ts outcome next now id => quiet (finish seen claim ts outcome next now id)
  | OpMaintain draws now b => quiet (maintain draws now b)
  | OpClaimCleanup w i clock ls locked => quiet (claim_secret_cleanup w i clock ls locked)
  | OpFinishCleanup c clock now erase id => quiet (finish_secret_cleanup c clock now erase id)
  | OpAppend clock uuid ids pp ap binding projection wire kind =>
      quiet (d_transaction (in_database
        (append_projection_event clock uuid ids pp ap binding projection wire kind)))
  end.

Definition exec_ops (ops : list DeliveryOp) (s : DeliveryStore) : DeliveryStore :=
  fold_left (fun s op => exec_op op s) ops s.

(** The identifiers an operation gives to new deliveries. *)
Definition draws_id (op : DeliveryOp) (id : Uuid) : Prop :=
  match op with OpAppend _ _ ids _ _ _ _ _ _ => exists e, ids e = id | _ => False end.

Lemma refines_claim_cleanup w i clock ls locked : refines (claim_secret_cleanup w i clock ls locked).
Proof.
  unfold claim_secret_cleanup. destruct (_ || _); [apply refines_fail|]. apply refines_txn.
  intros s s' a _ Hs. inv_d. destruct (find_first _ _ _); unfold update_cleanup in Hs; inv_d; reflexivity.
Qed.

Lemma refines_finish_cleanup c clock now erase id : refines (finish_secret_cleanup c clock now erase id).
Proof.
  apply refines_txn. intros s s' a _ Hs. unfold update_cleanup in Hs. inv_d.
  unfold in_database in Hs. destruct (append_runtime_audit _ _ _ _ _ _ _) as [db r] eqn:Ha.
  injection Hs as <- ->. apply append_runtime_audit_ok in Ha as (? & -> & _). reflexivity.
Qed.

Lemma quiet_steps {A} drawn (m : dtxn A) s :
  refines m -> view_ok (view s) -> rtc (vstep_by drawn) (view s) (view (quiet m s)).
Proof.
  intros Hm Hok. unfold quiet. destruct (m s) as [s' r] eqn:E. apply wsteps_by. by eapply Hm.
Qed.

(** Every operation is a run of the machine. *)
Lemma exec_op_steps op s :
  view_ok (view s) -> rtc (vstep_by (draws_id op)) (view s) (view (exec_op op s)).
Proof.
  intros Hok. destruct op; cbn [exec_op];
    try (apply quiet_steps; [|done]; solve [eauto using refines_claim, refines_finish,
           refines_maintain, refines_claim_cleanup, refines_finish_cleanup]).
  unfold quiet, d_transaction, in_database.
  destruct (append_projection_event clock event_uuid delivery_id project_public_id
              application_public_id binding_id projection wire_projection event_type (dl_db s))
    as [db [e|e]] eqn:Ha; [|apply rtc_refl].
  by apply append_steps with (A := dl_attempts s) in Ha.
Qed.

Lemma exec_ops_steps ops : forall s,
  view_ok (view s) ->
  rtc (vstep_by (fun id => exists op, op ∈ ops /\ draws_id op id)) (view s) (view (exec_ops ops s)).
Proof.
  induction ops as [|op ops IH]; cbn; intros s Hok; [reflexivity|].
  pose proof (exec_op_steps op s Hok) as Hop. etransitivity.
  - eapply rtc_congruence with (f := id); [|exact Hop]. intros v v' [Hv Hn]. split; [done|].
    intros i Hi. apply Hn. contradict Hi. exists op. split; [apply list_elem_of_here|done].
  - eapply rtc_congruence with (f := id); [|apply IH].
    + intros v v' [Hv Hn]. split; [done|]. intros i Hi. apply Hn. contradict Hi.
      destruct Hi as (o & Ho & Hi). exists o. split; [by apply list_elem_of_further|done].
    + eapply view_ok_steps; [|exact Hok].
      eapply rtc_congruence with (f := id); [|exact Hop]. by intros v v' [Hv _].
Qed.

(** A machine run without its bookkeeping. *)
Lemma forget_drawn drawn v v' : rtc (vstep_by drawn) v v' -> rtc vstep v v'.
Proof. intros Hs. eapply rtc_congruence with (f := id); [|exact Hs]. by intros x y [Hv _]. Qed.

Lemma exec_ops_view_ok ops s : view_ok (view s) -> view_ok (view (exec_ops ops s)).
Proof. intros Hok. eapply view_ok_steps; [|exact Hok]. eapply forget_drawn, exec_ops_steps, Hok. Qed.

Lemma exec_ops_moves ops s id :
  view_ok (view s) -> Forall (fun op => ~ draws_id op id) ops ->
  moves_at id (view s) (view (exec_ops ops s)).
Proof.
  intros Hok Hall. apply moves_at_steps. eapply vsteps_at; [|apply exec_ops_steps, Hok].
  intros (op & Hin & Hd). rewrite Forall_forall in Hall. by eapply Hall.
Qed.

(** What a successful [finish] found and left. *)
Lemma finish_ok seen claim ts outcome next now id s s' u :
  view_ok (view s) ->
  finish seen claim ts outcome next now id s = (s', Ok u) ->
  exists d d', deliveries s !! cw_delivery_id claim = Some d
    /\ deliveries s' !! cw_delivery_id claim = Some d'
    /\ is_leased d = true /\ wd_lease_generation d = cw_lease_generation claim
    /\ is_leased d' = false /\ wd_lease_generation d' = wd_lease_generation d.
Proof.
  intros Hok Hs. unfold finish in Hs. inv_d. unfold finish_locked in Hs. inv_d. keep_view. inv_ok.
  match goal with Hm : lease_mismatch _ _ _ _ = false |- _ => unfold lease_mismatch in Hm end.
  bool_prop. match goal with Hd : deliveries s !! _ = Some ?d |- _ =>
    pose proof (vo_keys _ Hok _ _ Hd) as Hkey; exists d end.
  match goal with
  | Hi : insert_attempt _ _ = _, Hu : update_delivery _ _ = _ |- _ =>
      apply insert_attempt_ok in Hi as [_ _]; apply update_delivery_ok in Hu as [Hrow _]
  end.
  injection Hs as Hs _. eexists. split; [done|]. split; [|split; [tauto|split; [tauto|]]].
  { rewrite Hs. injection Hrow as -> _. rewrite <-Hkey. apply lookup_insert_eq. }
  split; [|done]. apply released_states, finished_states.
Qed.

(** ** What a claim leaves *)
Lemma lease_ok w i clock now ls seq locked id s s' row e :
  lease_delivery w i clock now ls seq locked id s = (s', Ok (Some (row, e))) ->
  deliveries s' !! wd_id row = Some row /\ is_leased row = true
  /\ webhook_delivery_check row = true
  /\ wd_lease_owner row = Some w /\ wd_lease_incarnation row = Some i.
Proof.
  unfold lease_delivery. intros Hs. inv_d. destruct (List.find _ _); [|done].
  destruct (locked || _); [done|]. inv_d. destruct (endpoints s !! _); [|done].
  destruct (event_retained _ _ _); [|done]. inv_d.
  match goal with Hu : update_delivery _ _ = _ |- _ => apply update_delivery_ok in Hu as [Hrow Hc] end.
  injection Hrow as Hrow _. rewrite Hrow. split; [apply lookup_insert_eq|done].
Qed.

Lemma delivery_claim_ok draws w i now ls s s' c :
  claim_one draws w i now ls s = (s', Ok (Some c)) ->
  exists row, deliveries s' !! cw_delivery_id c = Some row /\ wd_id row = cw_delivery_id c
    /\ is_leased row = true /\ webhook_delivery_check row = true
    /\ wd_lease_owner row = Some (cw_lease_owner c)
    /\ wd_lease_incarnation row = Some (cw_lease_incarnation c)
    /\ wd_lease_generation row = cw_lease_generation c
    /\ wd_attempt_count row = cw_attempt_number c.
Proof.
  unfold claim_one. destruct (_ || _); [done|]. intros Hs. inv_d. unfold claim_locked in Hs.
  destruct (find_claim_candidate _ _); [|done]. inv_d. keep_view.
  match goal with Hx : match ?o with Some _ => _ | None => _ end _ = _ |- _ =>
    destruct o as [[row e]|] end; [|done].
  inv_d. match goal with Hl : lease_delivery _ _ _ _ _ _ _ _ _ = _ |- _ => apply lease_ok in Hl end.
  exists row. cbn. tauto.
Qed.

(** C19: a lease is exclusive: when the worker that claimed a delivery finishes it,
    the row is exactly the one its claim wrote, whatever ran in between; and from
    then on the claim is spent: finishing it again is refused and changes
    nothing, whatever ran in between.  (The identifiers drawn for new deliveries
    do not repeat the delivery's.) *)
Theorem lease_is_exclusive draws w i now ls s s1 c ops seen ts outcome next at_ id s3 :
  view_ok (view s) ->
  claim_one draws w i now ls s = (s1, Ok (Some c)) ->
  Forall (fun op => ~ draws_id op (cw_delivery_id c)) ops ->
  finish seen c ts outcome next at_ id (exec_ops ops s1) = (s3, Ok tt) ->
  deliveries (exec_ops ops s1) !! cw_delivery_id c = deliveries s1 !! cw_delivery_id c
  /\ forall ops' seen' ts' outcome' next' at' id',
       Forall (fun op => ~ draws_id op (cw_delivery_id c)) ops' ->
       exists e, finish seen' c ts' outcome' next' at' id' (exec_ops ops' s3)
                 = (exec_ops ops' s3, Err e).
Proof.
  intros Hok Hc Hops Hf.
  assert (Hok1 : view_ok (view s1)).
  { eapply view_ok_wsteps; [|exact Hok]. by eapply refines_claim. }
  assert (Hok2 : view_ok (view (exec_ops ops s1))) by (by apply exec_ops_view_ok).
  assert (Hok3 : view_ok (view s3)).
  { eapply view_ok_wsteps; [|exact Hok2]. by eapply refines_finish. }
  destruct (finish_ok _ _ _ _ _ _ _ _ _ _ Hok2 Hf) as (d & d3 & Hd & Hd3 & Hl & Hg & Hl3 & Hg3).
  destruct (delivery_claim_ok _ _ _ _ _ _ _ _ Hc) as (row & Hrow & _ & _ & _ & _ & _ & Hgen & _).
  split.
  - pose proof (exec_ops_moves ops s1 (cw_delivery_id c) Hok1 Hops) as Hm. unfold moves_at in Hm.
    cbn in Hm. rewrite Hrow, Hd in Hm. rewrite Hd, Hrow. f_equal.
    destruct Hm as (_ & _ & _ & Hsame & _). apply Hsame; [congruence|done].
  - intros ops' seen' ts' outcome' next' at' id' Hops'.
    destruct (finish seen' c _ _ _ _ _ _) as [s5 [[]|e]] eqn:Hf'.
    + exfalso. assert (Hok4 : view_ok (view (exec_ops ops' s3))) by (by apply exec_ops_view_ok).
      destruct (finish_ok _ _ _ _ _ _ _ _ _ _ Hok4 Hf') as (d4 & _ & Hd4 & _ & Hl4 & Hg4 & _).
      pose proof (exec_ops_moves ops' s3 (cw_delivery_id c) Hok3 Hops') as Hm. unfold moves_at in Hm.
      cbn in Hm. rewrite Hd3, Hd4 in Hm.
      destruct Hm as (_ & _ & _ & Hsame & _).
      assert (d4 = d3) as -> by (apply Hsame; [congruence|done]). congruence.
    + exists e. f_equal. unfold finish, mseq, mlift in Hf'. destruct (ok_or _ _); [|congruence].
      by apply d_transaction_err in Hf'.
Qed.

(** C20: no endpoint is flooded: from a store without deliveries, whatever the
    workers and the outbox do, in any order and on any snapshots, a delivery is
    tried at most twelve times and is pending only when a try is left, an endpoint
    has at most one leased delivery, and every recorded attempt belongs to a
    delivery that is there and has reached its number. *)
Theorem delivery_attempts_bounded ops s :
  deliveries s = ∅ -> dl_attempts s = ∅ ->
  let s' := exec_ops ops s in
  (forall id d, deliveries s' !! id = Some d ->
     0 <= wd_attempt_count d <= MAX_WEBHOOK_DELIVERY_ATTEMPTS
     /\ (is_pending d = true -> wd_attempt_count d < MAX_WEBHOOK_DELIVERY_ATTEMPTS))
  /\ (forall i j d e, deliveries s' !! i = Some d -> deliveries s' !! j = Some e ->
       is_leased d = true -> is_leased e = true -> wd_endpoint_id d = wd_endpoint_id e -> i = j)
  /\ (forall id n a, dl_attempts s' !! (id, n) = Some a ->
       exists d, deliveries s' !! id = Some d /\ n <= wd_attempt_count d).
Proof.
  intros Hd Ha s'. assert (Hok : view_ok (view s')).
  { apply exec_ops_view_ok. unfold view. rewrite Hd, Ha. constructor; cbn; intros *; done. }
  destruct Hok as [Hk Hb Hs Hak Hl]. split; [|split; [exact Hs|]].
  { intros id d Hx. destruct (Hb _ _ Hx) as (? & ? & _). auto. }
  intros id n a Hn. destruct (Hl _ _ _ Hn) as (d & Hx & Hc & _). eauto.
Qed.

(** C21: a refinement: whatever the workers and the outbox do to the store, what
    happens to deliveries and attempts is a run of the machine [vstep]: lease a
    pending delivery of an endpoint with none leased, release a leased one with
    its attempt on record, cancel a pending one, remove an attempt, remove a
    finished delivery without attempts, append a pending one. *)
Theorem delivery_refines_machine ops s :
  view_ok (view s) -> rtc vstep (view s) (view (exec_ops ops s)) /\ view_ok (view (exec_ops ops s)).
Proof. intros Hok. split; [eapply forget_drawn, exec_ops_steps, Hok|by apply exec_ops_view_ok]. Qed.

(** a verdict is final: a delivery that was delivered, given up or cancelled
    is never touched again, except to be removed. *)
Theorem finished_delivery_is_final ops s id d :
  view_ok (view s) -> deliveries s !! id = Some d -> is_finished d = true ->
  Forall (fun op => ~ draws_id op id) ops ->
  deliveries (exec_ops ops s) !! id = Some d \/ deliveries (exec_ops ops s) !! id = None.
Proof.
  intros Hok Hd Hf Hops. pose proof (exec_ops_moves ops s id Hok Hops) as Hm.
  unfold moves_at in Hm. cbn in Hm. rewrite Hd in Hm.
  destruct (deliveries (exec_ops ops s) !! id) as [d'|]; [left; f_equal; by apply Hm|by right].
Qed.
End system.
