(* ===== verification/WebhookDispatchProofs.v ===== *)
(** * Theorems on the choice of deliveries and the end of claims

    The application that waited longest is served first; the worker that holds a
    lease can finish it; an event whose body cannot be rebuilt keeps its place at
    the head of the queue.  The last part evaluates the worker on a store with one
    subscribed endpoint. *)
From S2P Require Import Prelude.
From S2P Require Import Json.
From S2P Require Import WebhookTables.
From S2P Require Import Webhooks.
From S2P Require Import UrlValues.
From S2P Require Import Database.
From S2P Require Import Projection.
From S2P Require Import ProjectionProofs.
From S2P Require Import WebhookOutbox.
From S2P Require Import SessionStore.
From S2P Require Import SessionAuthorityProofs.
From S2P Require Import WebhookOutboxProofs.
From S2P Require Import WebhookDelivery.
From S2P Require Import WebhookDeliveryProofs.

(** ** Fairness *)
(** [first_by] finds a least element of any key its order respects. *)
Lemma first_by_some {A} (before : A -> A -> bool) l a : first_by before l = Some a -> In a l.
Proof.
  revert a; induction l as [|x l IH]; cbn; intros a; [done|].
  destruct (first_by before l) as [b|]; [destruct (before b x)|]; intros [= <-]; auto.
Qed.

(** For an order that is asymmetric and whose complement is transitive. *)
Lemma first_by_min {A} (before : A -> A -> bool) l m :
  (forall x y, In x l -> In y l -> before x y = true -> before y x = false) ->
  (forall x y z, In x l -> In y l -> In z l -> before x z = true ->
     before x y = true \/ before y z = true) ->
  first_by before l = Some m -> forall x, In x l -> before x m = false.
Proof.
  revert m; induction l as [|y l IH]; cbn; intros m Hasym Hneg Hf; [done|].
  assert (Hirr : before y y = false).
  { destruct (before y y) eqn:E; [|done]. rewrite <-E at 1. apply Hasym; auto. }
  destruct (first_by before l) as [b|] eqn:E.
  - assert (Hb : forall x, In x l -> before x b = false) by (apply IH; [eauto..|done]).
    assert (Hin : In b l) by (by eapply first_by_some).
    destruct (before b y) eqn:Hby; injection Hf as <-; intros x [<-|Hx]; auto.
    destruct (before x y) eqn:Hxy; [|done].
    destruct (Hneg x b y) as [Hc|Hc]; auto; [|congruence]. rewrite <-Hc. by apply Hb.
  - injection Hf as <-. intros x [<-|Hx]; [done|]. destruct l as [|z l]; [done|].
    cbn in E. destruct (first_by before l); [destruct (before _ z)|]; done.
Qed.

Lemma first_by_none {A} (before : A -> A -> bool) l : first_by before l = None -> l = [].
Proof.
  destruct l as [|y l]; [done|]. cbn. destruct (first_by before l); [destruct (before _ y)|]; done.
Qed.

Lemma delivery_before_asym a b : delivery_before a b = true -> delivery_before b a = false.
Proof.
  unfold delivery_before. rewrite <-not_true_iff_false, !orb_true_iff, !andb_true_iff,
    !orb_true_iff, !andb_true_iff. lia.
Qed.
Lemma delivery_before_neg a b c :
  delivery_before a c = true -> delivery_before a b = true \/ delivery_before b c = true.
Proof. unfold delivery_before. rewrite !orb_true_iff, !andb_true_iff, !orb_true_iff, !andb_true_iff. lia. Qed.

(** [distinct_on] keeps a row of every group. *)
Lemma distinct_on_group {G} `{EqDecision G} (group : WebhookDeliveryRow -> G) l d :
  In d l -> exists m, In m (distinct_on group l) /\ group m = group d.
Proof.
  intros Hd. set (same := List.filter (fun x => bool_decide (group x = group d)) l).
  destruct (first_by delivery_before same) as [m|] eqn:Hm.
  - pose proof (first_by_some _ _ _ Hm) as [Hin Hg%bool_decide_eq_true]%filter_In.
    exists m. split; [|done]. apply filter_In. split; [done|]. apply forallb_forall. intros x Hx.
    apply negb_true_iff, andb_false_iff. destruct (decide (group x = group m)) as [He|He];
      [right|left; by apply bool_decide_eq_false].
    eapply first_by_min; [..|exact Hm|]; eauto using delivery_before_asym, delivery_before_neg.
    apply filter_In. split; [done|]. apply bool_decide_eq_true. congruence.
  - apply first_by_none in Hm. assert (Hx : In d same); [|by rewrite Hm in Hx].
    apply filter_In. split; [done|]. by apply bool_decide_eq_true.
Qed.

Lemma distinct_on_in {G} `{EqDecision G} (group : WebhookDeliveryRow -> G) l d :
  In d (distinct_on group l) -> In d l.
Proof. by intros [Hd _]%filter_In. Qed.

Lemma dispatch_before_asym s a b :
  dispatch_before s a b = true -> dispatch_before s b a = false.
Proof.
  unfold dispatch_before. destruct (last_claim s a) as [x|], (last_claim s b) as [y|]; try done.
  intros Hab. apply orb_true_iff in Hab as [Hab|[He Hab%delivery_before_asym]%andb_true_iff].
  - apply orb_false_iff. split; [lia|]. apply andb_false_iff. left. lia.
  - rewrite Hab, andb_false_r, orb_false_r. lia.
Qed.

Lemma dispatch_before_neg s a b c :
  is_some (last_claim s b) = true -> dispatch_before s a c = true ->
  dispatch_before s a b = true \/ dispatch_before s b c = true.
Proof.
  unfold dispatch_before. destruct (last_claim s a) as [x|], (last_claim s b) as [y|],
    (last_claim s c) as [z|]; try done.
  intros _ Hac. apply orb_true_iff in Hac as [Hac|[He Hac]%andb_true_iff];
    rewrite !orb_true_iff, !andb_true_iff; [lia|].
  destruct (delivery_before_neg _ b _ Hac) as [Hx|Hx]; rewrite Hx; lia.
Qed.

(** Rows that are there name an application of their project, and an endpoint of
    that application: the foreign keys of the table. *)
Definition owned (s : DeliveryStore) : Prop :=
  forall id d, deliveries s !! id = Some d ->
    wd_id d = id
    /\ (exists e, endpoints s !! wd_endpoint_id d = Some e /\ we_application_id e = wd_application_id d)
    /\ (exists a, db_applications (dl_db s) !! wd_application_id d = Some a
                  /\ ap_project_id a = wd_project_id d).

Lemma in_deliveries s d :
  In d (map snd (map_to_list (deliveries s))) <-> exists id, deliveries s !! id = Some d.
Proof.
  rewrite in_map_iff. split.
  - intros ([k y] & <- & Hk). exists k. by apply elem_of_map_to_list, list_elem_of_In.
  - intros [k Hk]. exists (k, d). split; [done|]. by apply list_elem_of_In, elem_of_map_to_list.
Qed.

Lemma candidates_in s eligible d :
  In d (application_candidates s eligible) -> eligible d = true /\ exists id, deliveries s !! id = Some d.
Proof.
  intros Hd. apply distinct_on_in, distinct_on_in, filter_In in Hd as [Hd He].
  by rewrite <-in_deliveries.
Qed.

(** Every application with an eligible delivery has a candidate. *)
Lemma candidate_of_application s eligible id d :
  owned s -> deliveries s !! id = Some d -> eligible d = true ->
  exists m, In m (application_candidates s eligible) /\ last_claim s m = last_claim s d.
Proof.
  intros Hown Hd He.
  assert (Hin : In d (List.filter eligible (map snd (map_to_list (deliveries s))))).
  { apply filter_In. rewrite in_deliveries. eauto. }
  destruct (distinct_on_group wd_endpoint_id _ _ Hin) as (m1 & Hm1 & He1).
  destruct (distinct_on_group wd_application_id _ _ Hm1) as (m & Hm & Ha).
  exists m. split; [done|].
  destruct (candidates_in _ _ _ Hm) as (_ & km & Hkm).
  pose proof (distinct_on_in _ _ _ Hm1) as [Hm1in _]%filter_In.
  apply in_deliveries in Hm1in as [k1 Hk1].
  destruct (Hown _ _ Hd) as (_ & (e & Hee & Hea) & (a & Haa & Hap)).
  destruct (Hown _ _ Hk1) as (_ & (e1 & Hee1 & Hea1) & _).
  destruct (Hown _ _ Hkm) as (_ & _ & (a2 & Haa2 & Hap2)).
  rewrite He1, Hee in Hee1. injection Hee1 as <-.
  assert (Happ : wd_application_id m = wd_application_id d) by congruence.
  rewrite Happ, Haa in Haa2. injection Haa2 as <-.
  unfold last_claim. rewrite Happ. by rewrite <-Hap2, Hap.
Qed.

Lemma candidate_is_least s at_ now d id d' y :
  owned s -> find_claim_candidate (mkRead s at_) now = Some d ->
  deliveries s !! id = Some d' -> claimable s now d' && event_retained s at_ d' = true ->
  last_claim s d' = Some y ->
  exists x, last_claim s d = Some x /\ x <= y.
Proof.
  intros Hown Hf Hd' Hc Hy. unfold find_claim_candidate in Hf. cbn in Hf.
  pose proof (first_by_some _ _ _ Hf) as [Hin Hs]%filter_In.
  destruct (last_claim s d) as [x|] eqn:Hx; [|done]. exists x. split; [done|].
  destruct (candidate_of_application s (fun d => claimable s now d && event_retained s at_ d) id d'
              Hown Hd' Hc) as (m & Hm & Hlm).
  assert (Hnb : dispatch_before s m d = false).
  { eapply first_by_min; [..|exact Hf|].
    - intros a b _ _. apply dispatch_before_asym.
    - intros a b c _ [_ Hb]%filter_In _. by apply dispatch_before_neg.
    - apply filter_In. rewrite Hlm, Hy. done. }
  unfold dispatch_before in Hnb. rewrite Hlm, Hy, Hx in Hnb. apply orb_false_iff in Hnb as [Hnb _]. lia.
Qed.

Section dispatch.
Context `{CanonicalHash} `{ProjectionCryptography} `{UrlLib} `{TimeFormat} `{JsonbText}.

(** A committed claim leased its candidate and moved the application back. *)
Lemma claim_locked_ok seen w i clock now ls seq locked s s' c :
  claim_locked seen w i clock now ls seq locked s = (s', Ok (Some c)) ->
  exists d row, find_claim_candidate seen now = Some d /\ wd_id row = wd_id d
    /\ cw_delivery_id c = wd_id d /\ (exists k, deliveries s !! k = Some row)
    /\ last_claim s' row = Some seq.
Proof.
  unfold claim_locked. intros Hs. destruct (find_claim_candidate seen now) as [d|]; [|done].
  inv_d. keep_view. exists d.
  match goal with Hx : match ?o with Some _ => _ | None => _ end _ = _ |- _ =>
    destruct o as [[row e]|] end; [|done]. inv_d.
  match goal with Hl : lease_delivery _ _ _ _ _ _ _ _ _ = _ |- _ => unfold lease_delivery in Hl end.
  inv_d. destruct (List.find _ _) as [r|] eqn:Hfind; [|done].
  apply candidate_claimable in Hfind as (Hid & _ & Hk).
  destruct (locked || _); [done|]. inv_d. destruct (endpoints s !! wd_endpoint_id r); [|done].
  destruct (event_retained _ _ _); [|done]. unfold update_delivery in *. inv_d.
  exists r. repeat split; try done. unfold last_claim. cbn. apply lookup_insert_eq.
Qed.

(** dispatch is fair: when a claim is made, the application it serves is one
    that was served longest ago among all that have an eligible delivery, and it
    goes to the back of the queue: its dispatch number becomes the fresh value of
    the claim sequence. *)
Theorem dispatch_serves_longest_waiting at_ w i clock now ls seq locked s s' c :
  owned s ->
  d_transaction (claim_locked (mkRead s at_) w i clock now ls seq locked) s = (s', Ok (Some c)) ->
  exists d x, deliveries s !! cw_delivery_id c = Some d
    /\ last_claim s d = Some x /\ last_claim s' d = Some seq
    /\ forall id d' y, deliveries s !! id = Some d' ->
         claimable s now d' && event_retained s at_ d' = true -> last_claim s d' = Some y -> x <= y.
Proof.
  intros Hown Hs%d_transaction_ok. apply claim_locked_ok in Hs as (d & row & Hf & Hid & Hc & [k Hk] & Hseq).
  pose proof Hf as Hin. unfold find_claim_candidate in Hin. cbn in Hin.
  apply first_by_some, filter_In in Hin as [Hin Hx]. apply candidates_in in Hin as (_ & j & Hj).
  destruct (Hown _ _ Hk) as [Hk1 _]. destruct (Hown _ _ Hj) as [Hj1 _].
  assert (row = d) as -> by congruence.
  destruct (last_claim s d) as [x|] eqn:Hxd; [|done]. exists d, x.
  rewrite Hc, Hj1. split; [done|]. split; [done|]. split; [done|].
  intros id d' y Hd' He Hy.
  destruct (candidate_is_least _ _ _ _ _ _ _ Hown Hf Hd' He Hy) as (x' & Hx' & Hle).
  assert (x' = x) as -> by congruence. done.
Qed.

Lemma claim_locked_body seen w i clock now ls seq locked s s' c :
  claim_locked seen w i clock now ls seq locked s = (s', Ok (Some c)) ->
  exists d row event, find_claim_candidate seen now = Some d /\ wd_id row = wd_id d
    /\ (exists k, deliveries s !! k = Some row)
    /\ db_events (dl_db s) !! wd_event_id row = Some event
    /\ event_raw_body event = Ok (cw_raw_body c).
Proof.
  unfold claim_locked. intros Hs. destruct (find_claim_candidate seen now) as [d|]; [|done].
  inv_d. keep_view. exists d.
  match goal with Hx : match ?o with Some _ => _ | None => _ end _ = _ |- _ =>
    destruct o as [[row e]|] end; [|done]. inv_d.
  match goal with Hl : lease_delivery _ _ _ _ _ _ _ _ _ = _ |- _ => unfold lease_delivery in Hl end.
  inv_d. destruct (List.find _ _) as [r|] eqn:Hfind; [|done].
  apply candidate_claimable in Hfind as (Hid & _ & Hk).
  destruct (locked || _); [done|]. inv_d. destruct (endpoints s !! wd_endpoint_id r); [|done].
  destruct (event_retained _ _ _); [|done]. unfold update_delivery in *. inv_d. inv_ok.
  exists r. eexists. repeat split; eauto.
Qed.

(** The store after the two transactions a claim commits before it chooses: the
    retirement of one overlapping secret and the recovery of one abandoned lease. *)
Definition after_maintenance (draws : ClaimDraws) (now : OffsetDateTime) (s : DeliveryStore) :
    DeliveryStore :=
  ((_ <~ retire_one_expired_overlap (cd_overlap draws) (cd_overlap_clock draws) now
           (cd_cleanup_id draws) ;;
    recover_one_expired_delivery (cd_expired draws) (cd_expired_clock draws) now
      (cd_correlation draws)) s).1.

(** One bad event stops the queue: when the event of the delivery that is next in
    line has a body that cannot be rebuilt, [claim_one] leases nothing, whoever
    calls it; and when it fails in its last transaction it leaves behind what the two
    before it committed and nothing else, the queue's order included, so the same
    delivery is next again. *)
Theorem undecodable_event_blocks draws w i now ls s d event e s' r :
  1 <= ls <= i64_max ->
  owned (after_maintenance draws now s) -> rd_store (cd_candidates draws) = after_maintenance draws now s ->
  find_claim_candidate (cd_candidates draws) now = Some d ->
  db_events (dl_db (after_maintenance draws now s)) !! wd_event_id d = Some event ->
  event_raw_body event = Err e ->
  claim_one draws w i now ls s = (s', r) ->
  (forall c, r <> Ok (Some c)) /\ (forall e', r = Err e' -> s' = after_maintenance draws now s).
Proof.
  intros Hls Hown Hseen Hf Hev Hbad Hs. unfold claim_one in Hs.
  rewrite (proj2 (Z.ltb_ge i64_max ls)), (proj2 (Z.ltb_ge ls 1)) in Hs by lia. cbn in Hs.
  unfold after_maintenance, mseq in Hown, Hseen, Hev |- *. unfold mseq in Hs.
  destruct (retire_one_expired_overlap _ _ _ _ s) as [s1 [x|e1]]; [|by injection Hs as <- <-].
  destruct (recover_one_expired_delivery _ _ _ _ s1) as [s2 [y|e2]]; [|by injection Hs as <- <-].
  cbn in *. split.
  - intros c ->. apply d_transaction_ok, claim_locked_body in Hs
      as (d1 & row & event1 & Hf1 & Hid & [k Hk] & Hev1 & Hok).
    rewrite Hf in Hf1. injection Hf1 as <-.
    pose proof Hf as Hin. unfold find_claim_candidate in Hin. rewrite Hseen in Hin.
    apply first_by_some, filter_In in Hin as [Hin _]. apply candidates_in in Hin as (_ & j & Hj).
    destruct (Hown _ _ Hk) as [Hk1 _]. destruct (Hown _ _ Hj) as [Hj1 _].
    assert (row = d) as -> by congruence. congruence.
  - intros e' ->. by apply d_transaction_err in Hs.
Qed.

(** ** The holder of a lease can end it *)
Lemma released_check state next class status now d
    (delivered := if bool_decide (state = "delivered"%string) then Some now else None) :
  state ∈ ["pending"; "delivered"; "terminal"; "cancelled"]%string ->
  match status with Some x => in_range 100 599 x | None => true end = true ->
  webhook_delivery_check d = true -> 
  webhook_delivery_check (delivery_released state next class status delivered now d) = true.
Proof.
  intros Hst Hstatus Hc. unfold webhook_delivery_check in *.
  apply andb_true_iff in Hc as [[[[[[[Ha _]%andb_true_iff Hg]%andb_true_iff Hr]%andb_true_iff
    _]%andb_true_iff _]%andb_true_iff Hrep]%andb_true_iff _].
  cbn. rewrite Ha, Hstatus, Hg, Hr, Hrep.
  rewrite !elem_of_cons, elem_of_nil in Hst. destruct Hst as [->|[->|[->|[->|[]]]]]; done.
Qed.

Lemma attempted_check failure now e :
  webhook_endpoint_check e = true -> webhook_endpoint_check (endpoint_attempted failure now e) = true.
Proof.
  intros Hc. unfold webhook_endpoint_check in *. cbn.
  destruct (0 <=? we_consecutive_failure_count e) eqn:Hn; [|by rewrite !andb_false_r in Hc].
  replace (0 <=? match failure with
                 | Some _ => if we_consecutive_failure_count e + 1 <=? i32_max
                             then we_consecutive_failure_count e + 1 else i32_max
                 | None => 0 end) with true; [done|].
  destruct failure; [|done]. destruct (_ <=? i32_max); unfold i32_max; lia.
Qed.

(** The statements, forwards. *)
Lemma d_check_true e s : d_check true e s = (s, Ok tt).
Proof. done. Qed.
Lemma update_delivery_run row s :
  is_some (deliveries s !! wd_id row) = true -> webhook_delivery_check row = true ->
  update_delivery row s
  = (set_dl_db (set_db_deliveries (<[wd_id row := row]> (deliveries s)) (dl_db s)) s, Ok tt).
Proof. intros H1' H2'. unfold update_delivery, mseq, mget. rewrite H1', H2'. done. Qed.
Lemma insert_attempt_run a s :
  dl_attempts s !! (wa_delivery_id a, wa_attempt_number a) = None ->
  is_some (deliveries s !! wa_delivery_id a) = true -> webhook_attempt_check a = true ->
  insert_attempt a s
  = (set_dl_attempts (<[(wa_delivery_id a, wa_attempt_number a) := a]> (dl_attempts s)) s, Ok tt).
Proof. intros H1' H2' H3'. unfold insert_attempt, mseq, mget. rewrite H1', H2', H3'. done. Qed.
Lemma update_endpoint_run e s :
  is_some (endpoints s !! we_id e) = true -> webhook_endpoint_check e = true ->
  exists s', update_endpoint_row e s = (s', Ok tt) /\ view s' = view s.
Proof.
  intros H1' H2'. unfold update_endpoint_row, mseq, mget. rewrite H1', H2'. by eexists.
Qed.

(** An attempt can be recorded and its delivery released. *)
Lemma release_run a row e s :
  dl_attempts s !! (wa_delivery_id a, wa_attempt_number a) = None ->
  is_some (deliveries s !! wa_delivery_id a) = true -> webhook_attempt_check a = true ->
  is_some (deliveries s !! wd_id row) = true -> webhook_delivery_check row = true ->
  is_some (endpoints s !! we_id e) = true -> webhook_endpoint_check e = true ->
  exists s', (insert_attempt a ;;~ update_delivery row ;;~ update_endpoint_row e) s = (s', Ok tt)
    /\ view s' = mkView (<[wd_id row := row]> (deliveries s))
                   (<[(wa_delivery_id a, wa_attempt_number a) := a]> (dl_attempts s)).
Proof.
  intros Hfree Hthere Ha Hrow Hr He Hec.
  rewrite (mseq_run _ _ _ _ _ (insert_attempt_run a s Hfree Hthere Ha)).
  rewrite (mseq_run _ _ _ _ _ (update_delivery_run row (set_dl_attempts _ s) Hrow Hr)).
  destruct (update_endpoint_run e (set_dl_db (set_db_deliveries (<[wd_id row := row]> (deliveries s))
              (dl_db s)) (set_dl_attempts (<[(wa_delivery_id a, wa_attempt_number a) := a]>
              (dl_attempts s)) s)) He Hec) as (s' & Hs' & Hv).
  exists s'. split; [exact Hs'|exact Hv].
Qed.

(** The owners a delivery's row names, as a transaction locks them. *)
Record owners_of (s : DeliveryStore) (d : WebhookDeliveryRow) (project : ProjectRow)
    (application : ApplicationRow) (e : WebhookEndpointRow) : Prop := {
  oo_project : db_projects (dl_db s) !! wd_project_id d = Some project;
  oo_application : find_by_id (db_applications (dl_db s)) (wd_application_id d)
                     (fun a => ap_project_id a =? wd_project_id d) = Some application;
  oo_endpoint : find_by_id (endpoints s) (wd_endpoint_id d)
                  (fun e => (we_project_id e =? wd_project_id d)
                            && (we_application_id e =? wd_application_id d)) = Some e;
  oo_endpoint_id : we_id e = wd_endpoint_id d
}.

Lemma lock_owners_run s d project application e :
  owners_of s d project application e ->
  lock_application_owners (wd_project_id d) (wd_application_id d) s = (s, Ok (project, application))
  /\ lock_endpoint (wd_project_id d) (wd_application_id d) (wd_endpoint_id d) s = (s, Ok e).
Proof.
  intros [Hp Ha He _]. unfold lock_application_owners, lock_endpoint, mseq, mget, mlift.
  rewrite Hp, Ha, He. done.
Qed.

Lemma endpoint_there s d project application e :
  owners_of s d project application e -> is_some (endpoints s !! we_id e) = true.
Proof.
  intros [_ _ He Hid]. rewrite Hid. unfold find_by_id in He.
  destruct (endpoints s !! wd_endpoint_id d); [done|discriminate He].
Qed.

Lemma matching_lease row c project application s e :
  owners_of s row project application e ->
  is_leased row = true -> wd_lease_owner row = Some (cw_lease_owner c) ->
  wd_lease_incarnation row = Some (cw_lease_incarnation c) ->
  wd_lease_generation row = cw_lease_generation c -> wd_attempt_count row = cw_attempt_number c ->
  lease_mismatch row row e c = false.
Proof.
  intros [_ _ _ Hid] Hl Ho Hi Hg Hn. unfold lease_mismatch.
  by rewrite Hid, Hl, Ho, Hi, Hg, Hn, !Z.eqb_refl, !bool_decide_true.
Qed.

End dispatch.

(** ** The theorems on one endpoint *)
Definition hook_endpoint : WebhookEndpointRow :=
  mkWebhookEndpointRow 60 1 2 "whk_12345678" "key" (repeat 0 32) "https://app.example/hook"
    [UserEvent.ApplicationUserEventType_as_str UserEvent.Updated] "active" 1 (Some 1) None None 0
    None None None (Some 5) (Some 5) 0 0 None.
Definition hook_secret : WebhookSecretRow :=
  mkWebhookSecretRow 60 1 "key" (repeat 0 32) (Some "fp"%string) "active" 0 (Some 0) (Some 0) None 70.
Definition hook_store : DeliveryStore :=
  mkDeliveryStore (set_db_webhook (mkWebhookTables ∅ {[60 := hook_endpoint]} ∅ ∅) sample_db)
    {[(60, 1) := hook_secret]} ∅ ∅.

Definition append_updated : DeliveryOp :=
  OpAppend (seconds 20) 61 (fun e => e + 1) "prj_12345678" "app_12345678" 6 repaired_sample
    sample_wire UserEvent.Updated.
Definition queued_store : DeliveryStore := exec_op append_updated hook_store.

Definition claim_draws (s : DeliveryStore) (at_ : OffsetDateTime) : ClaimDraws :=
  mkClaimDraws (mkRead s at_) at_ 80 (mkRead s at_) at_ 81 (mkRead s at_) at_ 1 false.
Definition sample_claim (s : DeliveryStore) :=
  claim_one (claim_draws s (seconds 21)) "worker" 90 (seconds 21) 30 s.
Definition leased_store : DeliveryStore := (sample_claim queued_store).1.
Definition claimed : ClaimedWebhookDelivery :=
  match (sample_claim queued_store).2 with
  | Ok (Some c) => c
  | _ => mkClaimedWebhookDelivery 0 "" 0 0 "" "" [] 0 None 0
  end.

Definition delivered_outcome : WebhookTransportOutcome :=
  mkWebhookTransportOutcome Delivery.Accepted (Some 204) 12.
Definition sample_finish (s : DeliveryStore) :=
  finish s claimed 21 delivered_outcome None (seconds 22) 91 s.
Definition delivered_store : DeliveryStore := (sample_finish leased_store).1.
Definition late_maintenance (s : DeliveryStore) : DeliveryOp :=
  let read := mkRead s (seconds 100) in
  OpMaintain (mkMaintainDraws read (seconds 100) (fun g => g) read (seconds 100) 82 read (seconds 100)
                83 (seconds 100) (fun _ => false) (fun _ => false)) (seconds 100) 25.

Lemma hook_store_ok : view_ok (view hook_store).
Proof. constructor; cbn; intros *; rewrite lookup_empty; done. Qed.
Lemma queued_store_ok : view_ok (view queued_store).
Proof. exact (exec_ops_view_ok [append_updated] hook_store hook_store_ok). Qed.
Lemma sample_claim_ok : sample_claim queued_store = (leased_store, Ok (Some claimed)).
Proof. vm_compute. reflexivity. Qed.
Lemma leased_store_ok : view_ok (view leased_store).
Proof. exact (exec_ops_view_ok
  [OpClaim (claim_draws queued_store (seconds 21)) "worker" 90 (seconds 21) 30]
  queued_store queued_store_ok). Qed.
Lemma delivered_store_ok : view_ok (view delivered_store).
Proof. exact (exec_ops_view_ok
  [OpFinish leased_store claimed 21 delivered_outcome None (seconds 22) 91]
  leased_store leased_store_ok). Qed.

Lemma lease_is_exclusive_witness :
  exists e, sample_finish (exec_ops [late_maintenance delivered_store] delivered_store)
            = (exec_ops [late_maintenance delivered_store] delivered_store, Err e).
Proof.
  assert (Hdraws : forall op, Forall (fun op => ~ draws_id op (cw_delivery_id claimed))
                                [late_maintenance op]) by (intros op; constructor; [intros []|done]).
  exact (proj2 (lease_is_exclusive (claim_draws queued_store (seconds 21)) "worker" 90 (seconds 21) 30
           queued_store leased_store claimed [] leased_store 21 delivered_outcome None (seconds 22) 91
           delivered_store queued_store_ok sample_claim_ok (Forall_nil_2 _)
           ltac:(vm_compute; reflexivity))
         [late_maintenance delivered_store] _ 21 delivered_outcome None (seconds 22) 91 (Hdraws _)).
Defined.

Definition queued_row : WebhookDeliveryRow :=
  default (pending_delivery 0 (user_event_row 0 0 0 repaired_sample UserEvent.Updated JNull []) 0)
    (deliveries queued_store !! 61).

Lemma queued_row_there : deliveries (exec_ops [append_updated] hook_store) !! 61 = Some queued_row.
Proof. vm_compute. reflexivity. Qed.

Lemma delivery_attempts_bounded_witness : wd_attempt_count queued_row <= 12.
Proof.
  exact (proj2 (proj1 (proj1 (delivery_attempts_bounded [append_updated] hook_store eq_refl eq_refl)
           61 queued_row queued_row_there))).
Defined.

Lemma delivery_refines_machine_witness :
  rtc vstep (view queued_store) (view (exec_ops [late_maintenance queued_store] queued_store)).
Proof.
  exact (proj1 (delivery_refines_machine [late_maintenance queued_store] queued_store queued_store_ok)).
Defined.

Definition delivered_row : WebhookDeliveryRow :=
  default (pending_delivery 0 (user_event_row 0 0 0 repaired_sample UserEvent.Updated JNull []) 0)
    (deliveries delivered_store !! 61).
Lemma finished_delivery_is_final_witness :
  let s := exec_ops [late_maintenance delivered_store] delivered_store in
  deliveries s !! 61 = Some delivered_row \/ deliveries s !! 61 = None.
Proof.
  apply (finished_delivery_is_final [late_maintenance delivered_store] delivered_store 61 delivered_row
           delivered_store_ok); [vm_compute; reflexivity|vm_compute; reflexivity|].
  constructor; [intros []|done].
Defined.

Lemma queued_owned : owned queued_store.
Proof.
  intros id d Hd. assert (In d (map snd (map_to_list (deliveries queued_store)))) as Hin
    by (apply in_deliveries; eauto).
  replace (map snd (map_to_list (deliveries queued_store)))
    with [default delivered_row (deliveries queued_store !! 61)] in Hin by (vm_compute; reflexivity).
  destruct Hin as [<-|[]]. split.
  { exact (vo_keys _ queued_store_ok _ _ Hd). }
  split; eexists; split; vm_compute; reflexivity.
Qed.

Lemma sample_claim_txn :
  d_transaction (claim_locked (mkRead queued_store (seconds 21)) "worker" 90 (seconds 21) (seconds 21)
                   30 1 false) queued_store = (leased_store, Ok (Some claimed)).
Proof. vm_compute. reflexivity. Qed.

Lemma dispatch_serves_longest_waiting_witness :
  exists d x, deliveries queued_store !! 61 = Some d /\ last_claim queued_store d = Some x.
Proof.
  destruct (dispatch_serves_longest_waiting (seconds 21) "worker" 90 (seconds 21) (seconds 21) 30 1 false
              queued_store leased_store claimed queued_owned sample_claim_txn)
    as (d & x & Hd & Hx & _).
  exists d, x. split; [exact Hd|exact Hx].
Defined.

(** The queued event with a digest its body does not have. *)
Definition with_digest (digest : list Z) (e : UserEventRow) : UserEventRow :=
  mkUserEventRow (ue_id e) (ue_event_id e) (ue_project_id e) (ue_application_id e) (ue_binding_id e)
    (ue_user_id e) (ue_event_type e) (ue_user_revision e) (ue_projection_revision e)
    (ue_projection_schema e) (ue_safe_body e) digest (ue_verified_email_source_identity_id e)
    (ue_verified_email_ciphertext e) (ue_verified_email_key_version e) (ue_occurred_at e)
    (ue_replay_until e) (ue_retain_until e) (ue_created_at e).
Definition bad_store : DeliveryStore :=
  set_dl_db (set_db_events (with_digest [1] <$> db_events (dl_db queued_store))
               (dl_db queued_store)) queued_store.
Definition bad_event : UserEventRow :=
  default (user_event_row 0 0 0 repaired_sample UserEvent.Updated JNull [])
    (db_events (dl_db bad_store) !! 61).

Lemma bad_owned : owned bad_store.
Proof. exact queued_owned. Qed.

Lemma undecodable_event_blocks_witness :
  exists e, claim_one (claim_draws bad_store (seconds 21)) "worker" 90 (seconds 21) 30 bad_store
            = (after_maintenance (claim_draws bad_store (seconds 21)) (seconds 21) bad_store, Err e).
Proof.
  destruct (claim_one (claim_draws bad_store (seconds 21)) "worker" 90 (seconds 21) 30 bad_store)
    as [s' r] eqn:Hs.
  assert (Hsame : after_maintenance (claim_draws bad_store (seconds 21)) (seconds 21) bad_store = bad_store)
    by (vm_compute; reflexivity).
  assert (Hf : find_claim_candidate (mkRead bad_store (seconds 21)) (seconds 21) = Some queued_row)
    by (vm_compute; reflexivity).
  assert (He : db_events (dl_db bad_store) !! wd_event_id queued_row = Some bad_event)
    by (vm_compute; reflexivity).
  assert (Hb : event_raw_body bad_event = Err AppError.Integrity) by (vm_compute; reflexivity).
  destruct (undecodable_event_blocks (claim_draws bad_store (seconds 21)) "worker" 90 (seconds 21) 30
              bad_store queued_row bad_event AppError.Integrity s' r) as [Hno Hback];
    [unfold i64_max; lia|rewrite Hsame; exact bad_owned|rewrite Hsame; reflexivity|exact Hf
    |rewrite Hsame; exact He|exact Hb|exact Hs|].
  destruct r as [[c|]|e]; [by destruct (Hno c)|vm_compute in Hs; discriminate Hs|].
  exists e. by rewrite (Hback e eq_refl).
Defined.

Definition leased_row : WebhookDeliveryRow := default delivered_row (deliveries leased_store !! 61).
Lemma hook_owners_of :
  exists p a, owners_of leased_store leased_row p a hook_endpoint.
Proof. eexists _, _. split; vm_compute; reflexivity. Qed.

