(* ===== verification/CustodyProofs.v ===== *)
(** * Theorems on protected materials

    A material keeps its identity, moves from pending to live to erased and never
    back, and holds the first envelope it was given; a reservation can be repeated
    and read back at any later time; distinct materials have distinct contexts. *)
From S2P Require Import Prelude.
From S2P Require Import Json.
From S2P Require Import KeyProvider.
From S2P Require Import Database.
From S2P Require Import Projection.
From S2P Require Import WebhookOutbox.
From S2P Require Import Custody.

(** ** Identifiers *)
Definition uuid_ok (u : Uuid) : Prop := 0 <= u < 2 ^ 128.

Lemma hex_digit_inj a b : 0 <= a < 16 -> 0 <= b < 16 -> hex_digit a = hex_digit b -> a = b.
Proof.
  intros Ha Hb. assert (Hc : forall k, 0 <= k < 16 -> k ∈ seqZ 0 16).
  { intros k Hk. apply elem_of_seqZ. lia. }
  apply Hc in Ha, Hb. revert a b Ha Hb.
  assert (Hall : Forall (fun a => Forall (fun b => hex_digit a = hex_digit b -> a = b) (seqZ 0 16))
                   (seqZ 0 16)).
  { apply (bool_decide_unpack _). vm_compute. done. }
  intros a b Ha Hb. rewrite Forall_forall in Hall. specialize (Hall a Ha).
  rewrite Forall_forall in Hall. auto.
Qed.

Lemma hex_string_inj n : forall u v r q,
  0 <= u < 16 ^ Z.of_nat n -> 0 <= v < 16 ^ Z.of_nat n ->
  hex_string n u r = hex_string n v q -> u = v /\ r = q.
Proof.
  induction n as [|n IH]; cbn [hex_string]; intros u v r q Hu Hv Heq; [split; [lia|done]|].
  rewrite Nat2Z.inj_succ, Z.pow_succ_r in Hu, Hv by lia.
  apply IH in Heq as [Hq Hr]; [|split; [apply Z.div_pos; lia|apply Z.div_lt_upper_bound; lia]..].
  injection Hr as Hd ->. split; [|done].
  apply hex_digit_inj in Hd; [|apply Z.mod_pos_bound; lia..].
  rewrite (Z.div_mod u 16), (Z.div_mod v 16), Hq, Hd by lia. done.
Qed.

Lemma hyphenate_inj s t :
  String.length s = 32%nat -> String.length t = 32%nat -> hyphenate s = hyphenate t -> s = t.
Proof.
  intros Hs Ht.
  do 32 (destruct s as [|? s]; [discriminate Hs|]; apply (f_equal Nat.pred) in Hs; cbn in Hs).
  do 32 (destruct t as [|? t]; [discriminate Ht|]; apply (f_equal Nat.pred) in Ht; cbn in Ht).
  destruct s; [|discriminate Hs]. destruct t; [|discriminate Ht].
  unfold hyphenate. cbn. intros Heq. injection Heq. intros. by subst.
Qed.

Lemma hex_string_length n : forall u r,
  String.length (hex_string n u r) = (n + String.length r)%nat.
Proof. induction n as [|n IH]; intros u r; cbn [hex_string]; [done|]. rewrite IH. cbn. lia. Qed.

Lemma uuid_hyphenated_inj u v :
  uuid_ok u -> uuid_ok v -> uuid_hyphenated u = uuid_hyphenated v -> u = v.
Proof.
  unfold uuid_ok, uuid_hyphenated, uuid_simple. intros Hu Hv Heq.
  apply hyphenate_inj in Heq; [|apply hex_string_length..].
  apply hex_string_inj in Heq as [-> _]; [done|lia..].
Qed.

(** ** What the statements do *)
Lemma c_check_ok c e s s' u : c_check c e s = (s', Ok u) -> c = true /\ s' = s.
Proof. unfold c_check. destruct c; [|done]. intros [= <-]. done. Qed.

Lemma c_modify_ok {S E} (f : S -> S) s s' u : mmodify (E := E) f s = (s', Ok u) -> s' = f s.
Proof. unfold mmodify. intros [= <-]. done. Qed.

Ltac inv_c := repeat first
  [ progress inv_txn
  | match goal with
    | Hx : c_check _ _ _ = (_, Ok _) |- _ => apply c_check_ok in Hx as [? ->]
    | Hx : mmodify _ _ = (_, Ok _) |- _ => apply c_modify_ok in Hx; subst
    end ].

Lemma inventory_bump_ok s s' u :
  bump_material_inventory_revision s = (s', Ok u) ->
  cu_materials s' = cu_materials s /\ (is_some (cu_inventory s) = true -> is_some (cu_inventory s') = true).
Proof.
  unfold bump_material_inventory_revision. intros Hs. inv_c.
  destruct (cu_inventory _) as [r|] eqn:Hr; inv_c; [done|]. by rewrite Hr.
Qed.

Lemma insert_material_ok pe row s s' u :
  insert_material pe row s = (s', Ok u) ->
  cu_materials s !! pm_id row = None /\ protected_material_check row = true
  /\ unique_in protected_material_conflict (pm_id row) row (cu_materials s) = true
  /\ cu_materials s' = <[pm_id row := row]> (cu_materials s)
  /\ (is_some (cu_inventory s) = true -> is_some (cu_inventory s') = true).
Proof.
  unfold insert_material. intros Hs. inv_c.
  match goal with Hb : bump_material_inventory_revision _ = _ |- _ => apply inventory_bump_ok in Hb as [Hm Hi] end.
  bool_prop. destruct (cu_materials s !! pm_id row) eqn:E; [naive_solver|].
  split; [done|]. split; [tauto|]. split; [tauto|]. split; [by rewrite Hm|done].
Qed.

Lemma update_material_ok row s s' u :
  update_material row s = (s', Ok u) ->
  exists old, cu_materials s !! pm_id row = Some old /\ material_identity old = material_identity row
  /\ protected_material_check row = true
  /\ cu_materials s' = <[pm_id row := row]> (cu_materials s)
  /\ (is_some (cu_inventory s) = true -> is_some (cu_inventory s') = true).
Proof.
  unfold update_material. intros Hs. inv_c.
  match goal with Hb : bump_material_inventory_revision _ = _ |- _ => apply inventory_bump_ok in Hb as [Hm Hi] end.
  destruct (cu_materials s !! pm_id row) as [old|] eqn:E; cbn in *; [|done].
  bool_prop. exists old. split; [done|]. split; [tauto|]. split; [tauto|]. split; [by rewrite Hm|done].
Qed.

(** ** The life of a material *)
Definition state_rank (m : ProtectedMaterialRow) : Z :=
  if bool_decide (pm_state m = "pending"%string) then 0
  else if bool_decide (pm_state m = "live"%string) then 1 else 2.

Definition is_erased (m : ProtectedMaterialRow) : bool := bool_decide (pm_state m = "erased"%string).

(** What may become of a row. *)
Definition material_moves (m m' : ProtectedMaterialRow) : Prop :=
  material_identity m' = material_identity m
  /\ state_rank m <= state_rank m'
  /\ (is_live m = true -> is_live m' = true -> m' = m)
  /\ (is_erased m = true -> m' = m)
  /\ (forall f, pm_safe_fingerprint m = Some f -> pm_safe_fingerprint m' = Some f).

Lemma material_moves_refl m : material_moves m m.
Proof. unfold material_moves. split; [done|]. split; [lia|]. done. Qed.

Lemma rank_live m : is_live m = true <-> state_rank m = 1.
Proof.
  unfold is_live, state_rank. cbn. rewrite bool_decide_eq_true.
  repeat case_bool_decide; split; try done; congruence.
Qed.
Lemma rank_range m : 0 <= state_rank m <= 2.
Proof. unfold state_rank. repeat case_bool_decide; lia. Qed.

Lemma material_moves_trans m1 m2 m3 :
  material_moves m1 m2 -> material_moves m2 m3 -> material_moves m1 m3.
Proof.
  intros (I1 & R1 & L1 & E1 & F1) (I2 & R2 & L2 & E2 & F2). split; [congruence|].
  split; [lia|]. split; [|split].
  - intros Ha Hb. assert (Hm : is_live m2 = true).
    { apply rank_live. apply rank_live in Ha, Hb. lia. }
    rewrite (L2 Hm Hb). auto.
  - intros He. specialize (E1 He). subst. auto.
  - auto.
Qed.

(** Rows under their own key, that satisfy the table's checks, with the
    inventory's row. *)
Record custody_ok (s : CustodyStore) : Prop := {
  co_keys : forall id m, cu_materials s !! id = Some m -> pm_id m = id;
  co_check : forall id m, cu_materials s !! id = Some m -> protected_material_check m = true;
  co_inventory : is_some (cu_inventory s) = true;
  co_unique : forall i j a b, cu_materials s !! i = Some a -> cu_materials s !! j = Some b ->
    protected_material_conflict a b = true -> i = j
}.

(** A later store: materials only move. *)
Definition custody_evolves (s s' : CustodyStore) : Prop :=
  forall id m, cu_materials s !! id = Some m ->
    exists m', cu_materials s' !! id = Some m' /\ material_moves m m'.

#[global] Instance custody_evolves_preorder : PreOrder custody_evolves.
Proof.
  split.
  - intros s id m Hm. exists m. split; [done|apply material_moves_refl].
  - intros s1 s2 s3 H12 H23 id m Hm. destruct (H12 _ _ Hm) as (m2 & Hm2 & M12).
    destruct (H23 _ _ Hm2) as (m3 & Hm3 & M23). eauto using material_moves_trans.
Qed.

(** [custody_step s s']: the invariant is kept and materials only move. *)
Definition custody_step (s s' : CustodyStore) : Prop :=
  custody_ok s -> custody_ok s' /\ custody_evolves s s'.

#[global] Instance custody_step_preorder : PreOrder custody_step.
Proof.
  split.
  - intros s Hs. split; [done|reflexivity].
  - intros s1 s2 s3 H12 H23 H1. destruct (H12 H1) as [H2 E12]. destruct (H23 H2) as [H3 E23].
    split; [done|by etransitivity].
Qed.

(** The unique key depends on the identity only. *)
Lemma conflict_identity a a' b :
  material_identity a = material_identity a' ->
  protected_material_conflict a b = protected_material_conflict a' b
  /\ protected_material_conflict b a = protected_material_conflict b a'.
Proof.
  unfold material_identity. intros [=]. unfold protected_material_conflict.
  split; apply bool_decide_ext; split; intros (? & ? & ? & ? & ?); split_and!; congruence.
Qed.

Lemma update_step row old s s' u :
  update_material row s = (s', Ok u) -> cu_materials s !! pm_id row = Some old ->
  material_moves old row -> custody_step s s'.
Proof.
  intros Hu Hold Hmove Hok. pose proof Hok as [Hk Hc Hi Hq].
  apply update_material_ok in Hu as (old' & Ho & Hid & Hchk & Hm & Hinv).
  rewrite Hold in Ho. injection Ho as <-. split.
  - constructor.
    + intros id m. rewrite Hm, lookup_insert_Some. intros [[<- <-]|[_ Hx]]; eauto.
    + intros id m. rewrite Hm, lookup_insert_Some. intros [[<- <-]|[_ Hx]]; eauto.
    + auto.
    + destruct (conflict_identity old row row Hid) as [Hcr Hcr'].
      intros i j a b. rewrite Hm, !lookup_insert_Some.
      intros [[<- <-]|[Hne Hx]] [[<- <-]|[Hne' Hy]] Hcon; [done|..].
      * destruct (conflict_identity old row b Hid) as [Hb _]. eapply Hq; eauto; congruence.
      * destruct (conflict_identity old row a Hid) as [_ Hb]. eapply Hq; eauto; congruence.
      * eauto.
  - intros id m Hx. rewrite Hm. destruct (decide (id = pm_id row)) as [->|Hne].
    + exists row. rewrite lookup_insert_eq. rewrite Hold in Hx. by injection Hx as <-.
    + exists m. rewrite lookup_insert_ne by done. split; [done|apply material_moves_refl].
Qed.

Lemma insert_step pe row s s' u : insert_material pe row s = (s', Ok u) -> custody_step s s'.
Proof.
  intros Hu Hok. pose proof Hok as [Hk Hc Hi Hq].
  apply insert_material_ok in Hu as (Hnone & Hchk & Hun & Hm & Hinv).
  assert (Hfresh : forall j b, cu_materials s !! j = Some b -> protected_material_conflict row b = false).
  { intros j b Hb. unfold unique_in in Hun. rewrite delete_id in Hun by done.
    rewrite forallb_forall in Hun. apply negb_true_iff, Hun, in_map_iff. exists (j, b).
    split; [done|]. by apply list_elem_of_In, elem_of_map_to_list. }
  split.
  - constructor.
    + intros id m. rewrite Hm, lookup_insert_Some. intros [[<- <-]|[_ Hx]]; eauto.
    + intros id m. rewrite Hm, lookup_insert_Some. intros [[<- <-]|[_ Hx]]; eauto.
    + auto.
    + intros i j a b. rewrite Hm, !lookup_insert_Some.
      intros [[<- <-]|[Hne Hx]] [[<- <-]|[Hne' Hy]] Hcon; [done|..].
      * by rewrite (Hfresh _ _ Hy) in Hcon.
      * exfalso. assert (Hsym : protected_material_conflict row a = true).
        { unfold protected_material_conflict in *. apply bool_decide_eq_true.
          apply bool_decide_eq_true in Hcon. naive_solver. }
        by rewrite (Hfresh _ _ Hx) in Hsym.
      * eauto.
  - intros id m Hx. exists m. rewrite Hm, lookup_insert_ne; [|congruence].
    split; [done|apply material_moves_refl].
Qed.

(** ** The operations *)
Lemma pending_unfingerprinted m :
  protected_material_check m = true -> pm_state m = "pending"%string -> pm_safe_fingerprint m = None.
Proof.
  intros Hc Hs. unfold protected_material_check in Hc. cbv zeta in Hc. rewrite Hs in Hc.
  destruct (pm_safe_fingerprint m); [|done]. cbn in Hc.
  rewrite !andb_false_r in Hc. cbn in Hc. done.
Qed.

Lemma parse_state_ok v st :
  MaterialState.ProtectedMaterialState_parse v = Ok st ->
  v = MaterialState.ProtectedMaterialState_as_str st.
Proof.
  unfold MaterialState.ProtectedMaterialState_parse. intros Hp.
  repeat case_bool_decide; by simplify_eq.
Qed.

Lemma lock_inventory_ok s s' u : lock_material_inventory s = (s', Ok u) -> s' = s.
Proof. unfold lock_material_inventory. intros. by inv_c. Qed.

Section steps.
Context `{CanonicalHash}.

Lemma reserve_step clock pe dep p mid ok oid g mk pu pid pv s s' r :
  reserve_in_transaction clock pe dep p mid ok oid g mk pu pid pv s = (s', Ok r) -> custody_step s s'.
Proof.
  unfold reserve_in_transaction. intros Hs. inv_c.
  match goal with Hl : lock_material_inventory _ = _ |- _ => apply lock_inventory_ok in Hl as -> end.
  destruct (find_one _ _) as [m|]; inv_c; [reflexivity|]. by eapply insert_step.
Qed.

Lemma finalize_step mid p v f at_ s s' u :
  finalize_pending_material mid p v f at_ s = (s', Ok u) -> custody_step s s'.
Proof.
  unfold finalize_pending_material. intros Hs. inv_c.
  match goal with Hl : lock_material_inventory _ = _ |- _ => apply lock_inventory_ok in Hl as -> end.
  inv_ok. match goal with Hf : find_by_id _ _ _ = Some ?m |- _ =>
    apply find_by_id_some in Hf as [Hm Hp] end.
  match goal with Hst : MaterialState.ProtectedMaterialState_parse _ = Ok ?st |- _ =>
    apply parse_state_ok in Hst as Hstate; destruct st end.
  - intros Hok. pose proof (co_keys _ Hok _ _ Hm) as Hkey.
    eapply update_step; [exact Hs|cbn; by rewrite Hkey| |done].
    pose proof (pending_unfingerprinted _ (co_check _ Hok _ _ Hm) Hstate) as Hnf.
    split; [done|]. unfold state_rank, is_live, is_erased. cbn. rewrite Hstate. cbn.
    split; [done|]. split; [done|]. split; [done|]. by rewrite Hnf.
  - destruct (_ && _); inv_c. reflexivity.
  - destruct (_ && _); [|destruct (is_some f)]; inv_c. reflexivity.
Qed.

Lemma erase_step mid at_ s s' u :
  erase_by_id_in_transaction mid at_ s = (s', Ok u) -> custody_step s s'.
Proof.
  unfold erase_by_id_in_transaction. intros Hs. inv_c.
  match goal with Hl : lock_material_inventory _ = _ |- _ => apply lock_inventory_ok in Hl as -> end.
  inv_ok.
  match goal with Hst : MaterialState.ProtectedMaterialState_parse _ = Ok ?st,
                  Hm : cu_materials _ !! _ = Some _ |- _ =>
    apply parse_state_ok in Hst as Hstate; destruct st; [| |inv_c; reflexivity];
    intros Hok; pose proof (co_keys _ Hok _ _ Hm) as Hkey;
    (eapply update_step; [exact Hs|cbn; by rewrite Hkey| |done]);
    (split; [done|]); unfold state_rank, is_live, is_erased; cbn; rewrite Hstate; cbn; done
  end.
Qed.
(** What each operation leaves of the material it names. *)
Lemma finalize_effect mid p v f at_ s s' u :
  custody_ok s -> finalize_pending_material mid p v f at_ s = (s', Ok u) ->
  exists m m', cu_materials s !! mid = Some m /\ cu_materials s' = <[mid := m']> (cu_materials s)
    /\ pm_project_id m = p /\ material_moves m m' /\ 1 <= state_rank m'
    /\ is_erased m' = is_erased m /\ (is_some f = true -> pm_safe_fingerprint m' = f).
Proof.
  unfold finalize_pending_material. intros Hok Hs. inv_c.
  match goal with Hl : lock_material_inventory _ = _ |- _ => apply lock_inventory_ok in Hl as -> end.
  inv_ok. match goal with Hx : find_by_id _ _ _ = Some ?m |- _ =>
    apply find_by_id_some in Hx as [Hm Hp%bool_decide_eq_true]; exists m end.
  match goal with Hst : MaterialState.ProtectedMaterialState_parse _ = Ok ?st |- _ =>
    apply parse_state_ok in Hst as Hstate; destruct st end.
  - pose proof (pending_unfingerprinted _ (co_check _ Hok _ _ Hm) Hstate) as Hnf.
    apply update_material_ok in Hs as (old & _ & _ & _ & Hs & _). cbn in Hs.
    rewrite (co_keys _ Hok _ _ Hm) in Hs. eexists. split; [done|]. split; [exact Hs|]. split; [done|].
    unfold state_rank, is_live, is_erased. cbn. rewrite Hstate. cbn. split; [|done].
    split; [done|]. unfold state_rank, is_live, is_erased. cbn. rewrite Hstate, Hnf. done.
  - destruct (_ && _) eqn:Hsame; inv_c. bool_prop. eexists. rewrite insert_id by exact Hm.
    split; [done|]. split; [done|]. split; [done|]. split; [apply material_moves_refl|].
    split; [unfold state_rank; by rewrite Hstate|]. split; [done|]. tauto.
  - destruct (_ && _) eqn:Hsame; [|destruct (is_some f)]; inv_c. bool_prop. eexists.
    rewrite insert_id by exact Hm. split; [done|]. split; [done|]. split; [done|].
    split; [apply material_moves_refl|]. split; [unfold state_rank; by rewrite Hstate|]. split; [done|]. tauto.
Qed.

Lemma erase_effect mid at_ s s' u :
  custody_ok s -> erase_by_id_in_transaction mid at_ s = (s', Ok u) ->
  exists m m', cu_materials s !! mid = Some m /\ cu_materials s' = <[mid := m']> (cu_materials s)
    /\ material_moves m m' /\ is_erased m' = true.
Proof.
  intros Hok Hs. pose proof (erase_step _ _ _ _ _ Hs Hok) as [_ Hev].
  unfold erase_by_id_in_transaction in Hs. inv_c.
  match goal with Hl : lock_material_inventory _ = _ |- _ => apply lock_inventory_ok in Hl as -> end.
  inv_ok. match goal with Hst : MaterialState.ProtectedMaterialState_parse _ = Ok ?st,
                          Hm : cu_materials _ !! mid = Some ?m |- _ =>
    apply parse_state_ok in Hst as Hstate; rename Hm into Hrow; exists m; destruct st;
      [pose proof Hs as Hs'; apply update_material_ok in Hs' as (old & _ & _ & _ & HM & _)..|] end.
  3:{ inv_c. eexists. rewrite insert_id by exact Hrow. split; [done|]. split; [done|].
      split; [apply material_moves_refl|]. unfold is_erased. by rewrite Hstate. }
  all: cbn in HM; rewrite (co_keys _ Hok _ _ Hrow) in HM; eexists; (split; [done|]); (split; [exact HM|]);
    (split; [|done]); destruct (Hev _ _ Hrow) as (m' & Hm' & Hmv); rewrite HM, lookup_insert_eq in Hm';
    by injection Hm' as <-.
Qed.

(** A reservation is either there or is inserted. *)
Lemma reserve_effect clock pe dep p mid ok oid g mk pu pid pv s s' r :
  reserve_in_transaction clock pe dep p mid ok oid g mk pu pid pv s = (s', Ok r) ->
  (exists k m, cu_materials s !! k = Some m /\ reserved_by p ok oid g m = true)
  \/ exists row, cu_materials s !! mid = None /\ cu_materials s' = <[mid := row]> (cu_materials s)
       /\ reserved_by p ok oid g row = true /\ pm_state row = "pending"%string.
Proof.
  unfold reserve_in_transaction. intros Hs. inv_c.
  match goal with Hl : lock_material_inventory _ = _ |- _ => apply lock_inventory_ok in Hl as -> end.
  destruct (find_one _ _) as [m|] eqn:Hf; inv_c.
  - left. apply find_some in Hf as [Hin Hby]. apply in_map_iff in Hin as ([k y] & Hy & Hk). cbn in Hy.
    subst y. apply list_elem_of_In, elem_of_map_to_list in Hk. eauto.
  - right. match goal with Hi : insert_material _ ?row _ = _ |- _ =>
      apply insert_material_ok in Hi as (Hn & _ & _ & Hm & _); exists row end.
    split; [exact Hn|]. split; [exact Hm|]. split; [|done].
    unfold reserved_by, reserved_row; cbn. rewrite !bool_decide_true by done. by rewrite !Z.eqb_refl.
Qed.
End steps.

(** ** Sequences of operations *)
Section sequences.
Context `{CanonicalHash}.

Inductive CustodyOp :=
| CReserve (clock : OffsetDateTime) (project_exists : Uuid -> bool) (deployment_id : string)
    (project_id : option Uuid) (material_id : Uuid) (owner_kind : MaterialOwnerKind)
    (owner_id : Uuid) (generation : Z) (material_kind : MaterialKind) (purpose : MaterialPurpose)
    (provider_id : ProviderId) (provider_format_version : Z)
| CFinalize (material_id : Uuid) (project_id : option Uuid) (opaque_value : list Z)
    (safe_fingerprint : option (list Z)) (finalized_at : OffsetDateTime)
| CErase (material_id : Uuid) (erased_at : OffsetDateTime).

(** Each in a transaction of its own. *)
Definition c_commit {A : Type} (m : ctxn A) (s : CustodyStore) : CustodyStore :=
  match m s with (s', Ok _) => s' | (_, Err _) => s end.

Definition exec_custody (op : CustodyOp) : CustodyStore -> CustodyStore :=
  match op with
  | CReserve clock pe dep p mid ok oid g mk pu pid pv =>
      c_commit (reserve_in_transaction clock pe dep p mid ok oid g mk pu pid pv)
  | CFinalize mid p v f at_ => c_commit (finalize_pending_material mid p v f at_)
  | CErase mid at_ => c_commit (erase_by_id_in_transaction mid at_)
  end.

Definition exec_custodies (ops : list CustodyOp) (s : CustodyStore) : CustodyStore :=
  fold_left (fun s op => exec_custody op s) ops s.

Lemma c_commit_step {A} (m : ctxn A) s :
  (forall s' a, m s = (s', Ok a) -> custody_step s s') -> custody_step s (c_commit m s).
Proof.
  unfold c_commit. intros Hm. destruct (m s) as [s' [a|e]] eqn:E; [by eapply Hm|reflexivity].
Qed.

Lemma exec_custody_step op s : custody_step s (exec_custody op s).
Proof.
  destruct op; apply c_commit_step; intros s' a Hs;
    [by eapply reserve_step|by eapply finalize_step|by eapply erase_step].
Qed.

Lemma exec_custodies_step ops : forall s, custody_step s (exec_custodies ops s).
Proof.
  induction ops as [|op ops IH]; intros s; cbn; [reflexivity|].
  etransitivity; [apply exec_custody_step|apply IH].
Qed.

Lemma erased_without_envelope m :
  protected_material_check m = true -> is_erased m = true -> pm_opaque_value m = None.
Proof.
  intros Hc Hs%bool_decide_eq_true. unfold protected_material_check in Hc. cbv zeta in Hc.
  rewrite Hs in Hc. destruct (pm_opaque_value m); [|done]. cbn in Hc. bool_prop. naive_solver.
Qed.

(** C25: the life of a material is one way: whatever is reserved, finalized and
    erased, a material stays, keeps its identity, goes from pending to live to
    erased and never back, holds while it is live the envelope it was first given,
    has none once it is erased, and keeps the fingerprint of its request. *)
Theorem material_life_is_one_way ops s id m :
  custody_ok s -> cu_materials s !! id = Some m ->
  exists m', cu_materials (exec_custodies ops s) !! id = Some m'
    /\ material_identity m' = material_identity m /\ state_rank m <= state_rank m'
    /\ (is_live m = true -> is_live m' = true -> m' = m)
    /\ (is_erased m = true -> m' = m)
    /\ (is_erased m' = true -> pm_opaque_value m' = None)
    /\ (forall f, pm_safe_fingerprint m = Some f -> pm_safe_fingerprint m' = Some f).
Proof.
  intros Hok Hm. destruct (exec_custodies_step ops s Hok) as [Hok' Hev].
  destruct (Hev _ _ Hm) as (m' & Hm' & Hi & Hr & Hl & He & Hf). exists m'.
  repeat (split; [done|]). split; [|done].
  apply erased_without_envelope. by eapply co_check.
Qed.

(** ** Reservations *)
(** What is read from a row depends on its identity and its state. *)
Definition with_state (st : ProtectedMaterialState) (r : ProtectedMaterialReservation) :
    ProtectedMaterialReservation :=
  mkProtectedMaterialReservation (pr_id r) (pr_project_id r) (pr_owner_kind r) (pr_owner_id r)
    (pr_generation r) (pr_material_kind r) (pr_provider_id r) (pr_provider_format_version r)
    (pr_context r) st.

Lemma map_reservation_identity m m' dep pu r st :
  material_identity m' = material_identity m -> map_reservation m dep pu = Ok r ->
  MaterialState.ProtectedMaterialState_parse (pm_state m') = Ok st ->
  map_reservation m' dep pu = Ok (with_state st r).
Proof.
  unfold material_identity. intros [=] Hr Hst. unfold map_reservation in Hr |- *.
  repeat match goal with Hx : _ m' = _ m |- _ => rewrite Hx; clear Hx end.
  repeat (match goal with Hx : rbind ?r _ = Ok _ |- context [rbind ?r _] =>
    destruct r; [cbn [rbind] in *|discriminate Hx] end).
  destruct (_ || _); [discriminate Hr|]. rewrite Hst. cbn [rbind].
  apply rbind_ok in Hr as (st0 & _ & [= <-]). done.
Qed.

Lemma find_one_unique {Row} (t : gmap Z Row) p id row :
  t !! id = Some row -> p row = true ->
  (forall j r, t !! j = Some r -> p r = true -> r = row) -> find_one t p = Some row.
Proof.
  intros Hrow Hp Huni. unfold find_one. destruct (List.find p _) as [x|] eqn:E.
  - apply find_some in E as [Hin Hx]. apply in_map_iff in Hin as ([k y] & Hy & Hk). cbn in Hy.
    subst. f_equal. eapply Huni; [|done]. by apply elem_of_map_to_list, list_elem_of_In.
  - exfalso. eapply find_none in E; [rewrite E in Hp; done|]. apply in_map_iff.
    exists (id, row). split; [done|]. by apply list_elem_of_In, elem_of_map_to_list.
Qed.

Lemma owner_kind_round_trip k :
  Owner.MaterialOwnerKind_parse (Owner.MaterialOwnerKind_as_str k) = Ok k.
Proof. by destruct k. Qed.
Lemma material_kind_round_trip k : parse_material_kind (material_kind_name k) = Ok k.
Proof. by destruct k. Qed.

(** The row of a new reservation reads back as it was asked for. *)
Lemma reserved_row_reads clock dep p mid ok oid g mk pu pid pv ctx r :
  context dep p mid ok oid g mk pu pid pv = Ok ctx ->
  map_reservation (reserved_row clock p mid ok oid g mk pid pv (sha256 (pctx_canonical ctx))) dep pu
    = Ok r ->
  pr_id r = mid /\ pr_material_kind r = mk /\ pr_provider_id r = pid
  /\ pr_provider_format_version r = pv /\ pr_context r = ctx.
Proof.
  unfold context, map_reservation, reserved_row. cbn. intros Hctx Hr.
  rewrite owner_kind_round_trip, material_kind_round_trip in Hr. cbn [rbind] in Hr.
  apply rbind_ok in Hctx as (g64 & Hg & Hctx). unfold u64_try_from in *.
  destruct (in_range 0 (2 ^ 64 - 1) g); [|discriminate Hg]. injection Hg as <-.
  apply rbind_ok in Hctx as (parts & Hparts & Hctx).
  apply rbind_ok in Hr as (pid' & Hpid & Hr). apply map_err_ok in Hpid.
  assert (pid' = pid) as ->.
  { unfold ProviderId_new in Hpid. destruct pid as [v]; cbn in Hpid.
    repeat match type of Hpid with context [if ?b then _ else _] => destruct b; [discriminate Hpid|] end.
    by injection Hpid. }
  apply rbind_ok in Hr as (f16 & Hf & Hr). unfold u16_try_from in Hf.
  destruct (in_range 0 65535 pv); [|discriminate Hf]. injection Hf as <-.
  apply rbind_ok in Hr as (pv' & Hpv & Hr). apply map_err_ok in Hpv.
  unfold ProviderFormatVersion_new in Hpv. destruct (pv =? 0); [discriminate Hpv|].
  injection Hpv as <-.
  change (ok_or (u16_try_from 1) AppError.Integrity) with (Ok (E := ApplicationError) 1) in Hr.
  cbn [rbind ok_or] in Hr.
  change (integrity_of (ContextVersion_try_from 1)) with (Ok (E := ApplicationError) V1) in Hr.
  cbn [rbind] in Hr. rewrite Hparts in Hr. cbn [rbind] in Hr.
  rewrite Hctx in Hr. cbn [rbind] in Hr. destruct (_ || _); [discriminate Hr|].
  apply rbind_ok in Hr as (st & _ & [= <-]). done.
Qed.

(** What a successful reservation leaves. *)
Lemma reserve_ok clock pe dep p mid ok oid g mk pu pid pv s s' r :
  custody_ok s ->
  reserve_in_transaction clock pe dep p mid ok oid g mk pu pid pv s = (s', Ok r) ->
  exists ctx m, context dep p mid ok oid g mk pu pid pv = Ok ctx
    /\ cu_materials s' !! mid = Some m /\ reserved_by p ok oid g m = true
    /\ map_reservation m dep pu = Ok r
    /\ pr_id r = mid /\ pr_material_kind r = mk /\ pr_provider_id r = pid
    /\ pr_provider_format_version r = pv /\ pr_context r = ctx.
Proof.
  unfold reserve_in_transaction. intros Hok Hs. inv_c.
  match goal with Hl : lock_material_inventory _ = _ |- _ => apply lock_inventory_ok in Hl as -> end.
  match goal with Hx : Custody.context _ _ _ _ _ _ _ _ _ _ = Ok ?c |- _ => exists c; rename Hx into Hctx end.
  destruct (find_one _ _) as [m|] eqn:Hf; inv_c.
  - apply find_some in Hf as [Hin Hby]. apply in_map_iff in Hin as ([k y] & Hy & Hk). cbn in Hy.
    subst y. apply list_elem_of_In, elem_of_map_to_list in Hk.
    match goal with Hr : map_reservation m dep pu = Ok _, Hb : _ = false |- _ =>
      rename Hr into Hmap; rename Hb into Hneq end.
    assert (Hid : pr_id r = pm_id m).
    { unfold map_reservation in Hmap. inv_ok. done. }
    bool_prop. exists m. pose proof (co_keys _ Hok _ _ Hk) as Hkey.
    assert (mid = k) as -> by (destruct Hneq as [[[[? _] _] _] _]; congruence). tauto.
  - match goal with Hi : insert_material _ ?row _ = _ |- _ =>
      apply insert_material_ok in Hi as (_ & _ & _ & Hm & _); exists row end.
    match goal with Hr : map_reservation _ _ _ = Ok _ |- _ =>
      pose proof (reserved_row_reads _ _ _ _ _ _ _ _ _ _ _ _ _ Hctx Hr) end.
    split; [done|]. split; [rewrite Hm; apply lookup_insert_eq|]. split; [|tauto].
    unfold reserved_by, reserved_row; cbn. rewrite !bool_decide_true by done.
    by rewrite !Z.eqb_refl.
Qed.

(** A row is the only one reserved for its owner and generation. *)
Lemma reserved_unique s p ok oid g i j a b :
  custody_ok s -> cu_materials s !! i = Some a -> cu_materials s !! j = Some b ->
  reserved_by p ok oid g a = true -> reserved_by p ok oid g b = true -> b = a.
Proof.
  intros Hok Ha Hb Hra Hrb. assert (Hc : protected_material_conflict a b = true).
  { unfold reserved_by in *. bool_prop. unfold protected_material_conflict.
    apply bool_decide_eq_true. destruct Hra as [[[[? ?] ?] ?] ?], Hrb as [[[[? ?] ?] ?] ?].
    split_and!; congruence. }
  pose proof (co_unique _ Hok _ _ _ _ Ha Hb Hc). congruence.
Qed.

Lemma reserved_by_identity p ok oid g m m' :
  material_identity m' = material_identity m -> reserved_by p ok oid g m' = reserved_by p ok oid g m.
Proof.
  unfold material_identity, reserved_by. intros [=].
  repeat match goal with Hx : _ m' = _ m |- _ => rewrite Hx; clear Hx end. done.
Qed.

Lemma stored_state_parses m :
  protected_material_check m = true ->
  exists st, MaterialState.ProtectedMaterialState_parse (pm_state m) = Ok st.
Proof.
  intros Hc. unfold protected_material_check in Hc. cbv zeta in Hc.
  apply andb_true_iff in Hc as [_ Hc%bool_decide_eq_true].
  rewrite !elem_of_cons, elem_of_nil in Hc. destruct Hc as [->|[->|[->|[]]]]; by eexists.
Qed.

Lemma lock_inventory_run s : custody_ok s -> lock_material_inventory s = (s, Ok tt).
Proof.
  intros Hok. unfold lock_material_inventory, mseq, mget. by rewrite (co_inventory _ Hok).
Qed.

(** a reservation is stable: at any time after it was made, whatever was
    reserved, finalized and erased since, reading the material gives the same
    identity and the same protection context, only its state may have moved; and
    asking for the same reservation again returns it and changes nothing. *)
Theorem reservation_is_stable clock pe dep project mid ok oid g mk pu pid pv s s1 r ops clock' pe' :
  custody_ok s ->
  reserve_project_in_transaction clock pe dep project mid ok oid g mk pu pid pv s = (s1, Ok r) ->
  let s2 := exec_custodies ops s1 in
  exists st, load_project_reservation s2 dep project mid pu = Ok (with_state st r)
    /\ pr_id r = mid /\ pr_material_kind r = mk /\ pr_provider_id r = pid
    /\ pr_provider_format_version r = pv
    /\ reserve_project_in_transaction clock' pe' dep project mid ok oid g mk pu pid pv s2
       = (s2, Ok (with_state st r)).
Proof.
  intros Hok Hr s2. pose proof (reserve_step _ _ _ _ _ _ _ _ _ _ _ _ _ _ _ Hr Hok) as [Hok1 _].
  destruct (reserve_ok _ _ _ _ _ _ _ _ _ _ _ _ _ _ _ Hok Hr)
    as (ctx & m & Hctx & Hm & Hby & Hmap & Hid & Hmk & Hpid & Hpv & Hc).
  destruct (exec_custodies_step ops s1 Hok1) as [Hok2 Hev]. fold s2 in Hok2, Hev.
  destruct (Hev _ _ Hm) as (m2 & Hm2 & Hident & _).
  destruct (stored_state_parses _ (co_check _ Hok2 _ _ Hm2)) as [st Hst].
  pose proof (map_reservation_identity _ _ _ _ _ _ Hident Hmap Hst) as Hmap2.
  pose proof (reserved_by_identity (Some project) ok oid g _ _ Hident) as Hby2. rewrite Hby in Hby2.
  exists st. split; [|repeat (split; [done|])].
  - unfold load_project_reservation, find_by_id. rewrite Hm2. cbn.
    unfold reserved_by in Hby2. bool_prop. rewrite bool_decide_true by tauto. cbn. done.
  - unfold reserve_project_in_transaction, reserve_in_transaction.
    rewrite (mseq_run _ _ _ _ _ (lock_inventory_run _ Hok2)). unfold mseq, mget, mlift. rewrite Hctx.
    rewrite (find_one_unique _ _ _ _ Hm2 Hby2), Hmap2.
    + cbn. rewrite Hid, Hmk, Hpid, Hpv, Hc, !Z.eqb_refl, !bool_decide_true by done. done.
    + intros j x Hj Hx. eapply reserved_unique; [exact Hok2|exact Hm2|exact Hj|done|done].
Qed.

(** the first envelope wins: once a material is finalized under a request's
    fingerprint, every later finalization succeeds without any effect when it
    carries that fingerprint and is refused when it carries another, whether the
    material is still live or has been erased. *)
Theorem first_envelope_wins mid p v f at_ s s1 ops v' f' at' :
  custody_ok s ->
  finalize_pending_material mid p v (Some f) at_ s = (s1, Ok tt) ->
  let s2 := exec_custodies ops s1 in
  finalize_pending_material mid p v' (Some f') at' s2
  = (s2, if bool_decide (f' = f) then Ok tt else Err AppError.IdempotencyConflict).
Proof.
  intros Hok Hf s2. pose proof (finalize_step _ _ _ _ _ _ _ _ Hf Hok) as [Hok1 _].
  assert (Hrow : exists m, cu_materials s1 !! mid = Some m /\ pm_project_id m = p
            /\ pm_safe_fingerprint m = Some f /\ 1 <= state_rank m).
  { destruct (finalize_effect _ _ _ _ _ _ _ _ Hok Hf) as (m0 & m & Hm0 & HM & Hp & Hmv & Hr & _ & Hfp).
    exists m. rewrite HM, lookup_insert_eq. split; [done|]. split; [|split; [by apply Hfp|done]].
    destruct Hmv as [Hi _]. unfold material_identity in Hi. congruence. }
  destruct Hrow as (m & Hm & Hp & Hfp & Hrank).
  destruct (exec_custodies_step ops s1 Hok1) as [Hok2 Hev]. fold s2 in Hok2, Hev.
  destruct (Hev _ _ Hm) as (m2 & Hm2 & Hident & Hr2 & _ & _ & Hfp2). specialize (Hfp2 _ Hfp).
  destruct (stored_state_parses _ (co_check _ Hok2 _ _ Hm2)) as [st Hst].
  assert (Hp2 : pm_project_id m2 = p) by (unfold material_identity in Hident; congruence).
  unfold finalize_pending_material. rewrite (mseq_run _ _ _ _ _ (lock_inventory_run _ Hok2)).
  unfold mseq, mget, mlift, find_by_id. rewrite Hm2. cbn. rewrite bool_decide_true by done.
  cbn. rewrite Hst, Hfp2. pose proof (parse_state_ok _ _ Hst) as Hstate. destruct st.
  - exfalso. assert (H0 : state_rank m2 = 0); [|lia]. unfold state_rank. by rewrite Hstate.
  - cbn. rewrite andb_true_r. destruct (decide (f' = f)) as [->|Hne].
    + by rewrite !bool_decide_true.
    + rewrite !bool_decide_false; [done|congruence|congruence].
  - cbn. destruct (decide (f' = f)) as [->|Hne].
    + by rewrite !bool_decide_true.
    + rewrite !bool_decide_false; [done|congruence|congruence].
Qed.

(** ** Contexts *)
Lemma bounded_class_ok n cls v v' : bounded_class n cls v = Ok v' -> v' = v.
Proof. unfold bounded_class. intros. by inv_ok. Qed.

Lemma context_parts_ok cv dep p mid mk ok oid g pu pid pv parts :
  context_parts cv dep p mid mk ok oid g pu pid pv = Ok parts ->
  parts = mkProtectionContextParts cv dep
    (from_option (fun u => ProjectScope (uuid_hyphenated u)) Deployment p) (uuid_hyphenated mid) mk
    (Owner.MaterialOwnerKind_as_str ok) (uuid_hyphenated oid) g (Purpose.MaterialPurpose_as_str pu)
    pid pv.
Proof.
  unfold context_parts, integrity_of, context_identifier_new, context_label_new, validate_label.
  intros Hp. inv_ok.
  repeat match goal with Hx : bounded_class _ _ _ = Ok _ |- _ => apply bounded_class_ok in Hx; subst end.
  destruct p as [u|]; cbn in *; inv_ok; [|done].
  repeat match goal with Hx : bounded_class _ _ _ = Ok _ |- _ => apply bounded_class_ok in Hx; subst end.
  done.
Qed.

(** The parts a reservation was read with. *)
Definition reservation_parts (dep : string) (pu : MaterialPurpose) (r : ProtectedMaterialReservation) :
    ProtectionContextParts :=
  mkProtectionContextParts V1 dep
    (from_option (fun u => ProjectScope (uuid_hyphenated u)) Deployment (pr_project_id r))
    (uuid_hyphenated (pr_id r)) (pr_material_kind r)
    (Owner.MaterialOwnerKind_as_str (pr_owner_kind r)) (uuid_hyphenated (pr_owner_id r))
    (pr_generation r) (Purpose.MaterialPurpose_as_str pu) (pr_provider_id r)
    (pr_provider_format_version r).

Lemma map_reservation_context m dep pu r :
  map_reservation m dep pu = Ok r ->
  let parts := reservation_parts dep pu r in
  pr_id r = pm_id m /\ pr_project_id r = pm_project_id m /\ pr_owner_id r = pm_owner_id m
  /\ ProtectionContext_new parts = Ok (pr_context r) /\ parts_typed parts.
Proof.
  unfold map_reservation. intros Hr. inv_ok.
  repeat match goal with
  | Hx : u16_try_from _ = Some _ |- _ =>
      unfold u16_try_from in Hx; destruct (in_range 0 65535 _) eqn:?; [|discriminate Hx];
      injection Hx as Hx; subst
  | Hx : u64_try_from _ = Some _ |- _ =>
      unfold u64_try_from in Hx; destruct (in_range 0 (2 ^ 64 - 1) _) eqn:?; [|discriminate Hx];
      injection Hx as Hx; subst
  | Hx : context_parts _ _ _ _ _ _ _ _ _ _ _ = Ok _ |- _ => apply context_parts_ok in Hx; subst
  | Hx : integrity_of _ = Ok _ |- _ => apply map_err_ok in Hx
  | cv : ContextVersion |- _ => destruct cv
  | Hx : ProviderFormatVersion_new _ = Ok _ |- _ =>
      unfold ProviderFormatVersion_new in Hx; inv_ok
  end.
  cbn. repeat (split; [done|]). unfold parts_typed, in_range in *; cbn. bool_prop. lia.
Qed.

Lemma owner_name_inj a b :
  Owner.MaterialOwnerKind_as_str a = Owner.MaterialOwnerKind_as_str b -> a = b.
Proof. by destruct a, b. Qed.
Lemma purpose_name_inj a b :
  Purpose.MaterialPurpose_as_str a = Purpose.MaterialPurpose_as_str b -> a = b.
Proof. by destruct a, b. Qed.

(** contexts identify materials: two stored materials whose contexts have the
    same bytes are one material of one deployment, read for one purpose, with the
    same project, owner, generation, kind, provider and format; so an envelope
    sealed for one material never opens as another, across projects and
    deployments too. *)
Theorem contexts_identify_materials m1 m2 dep1 dep2 pu1 pu2 r1 r2 :
  Forall uuid_ok [pm_id m1; pm_owner_id m1; pm_id m2; pm_owner_id m2] ->
  Forall uuid_ok (option_list (pm_project_id m1) ++ option_list (pm_project_id m2)) ->
  map_reservation m1 dep1 pu1 = Ok r1 -> map_reservation m2 dep2 pu2 = Ok r2 ->
  pctx_canonical (pr_context r1) = pctx_canonical (pr_context r2) ->
  dep1 = dep2 /\ pu1 = pu2 /\ r2 = with_state (pr_state r2) r1.
Proof.
  intros Hids Hprojects H1 H2 Heq.
  apply map_reservation_context in H1 as (I1 & P1 & O1 & N1 & T1).
  apply map_reservation_context in H2 as (I2 & P2 & O2 & N2 & T2).
  pose proof N1 as (_ & F1 & _ & C1)%ProtectionContext_new_ok.
  pose proof N2 as (_ & F2 & _ & C2)%ProtectionContext_new_ok.
  assert (Hparts : reservation_parts dep1 pu1 r1 = reservation_parts dep2 pu2 r2).
  { apply canonical_bytes_inj; try done. rewrite C1, C2 in Heq. done. }
  rewrite Hparts in C1. rewrite <- C2 in C1. rewrite <- I1, <- O1, <- I2, <- O2 in Hids.
  rewrite <- P1, <- P2 in Hprojects. clear Heq N1 N2 T1 T2 F1 F2 C2 I1 I2 O1 O2 P1 P2.
  pose proof (f_equal deployment_id Hparts) as Hd. pose proof (f_equal scope Hparts) as Hs.
  pose proof (f_equal material_id Hparts) as Hm. pose proof (f_equal material_kind Hparts) as Hk.
  pose proof (f_equal owner_id Hparts) as Ho. pose proof (f_equal generation Hparts) as Hg.
  pose proof (f_equal provider_id Hparts) as Hpi.
  pose proof (f_equal provider_format_version Hparts) as Hpv.
  pose proof (purpose_name_inj _ _ (f_equal field_purpose Hparts)) as Hp.
  pose proof (owner_name_inj _ _ (f_equal owner_kind Hparts)) as Hok. clear Hparts.
  cbn [reservation_parts deployment_id scope material_id material_kind owner_id generation
       provider_id provider_format_version] in *.
  rewrite !Forall_cons in Hids. destruct Hids as (U1 & U2 & U3 & U4 & _).
  apply uuid_hyphenated_inj in Hm; [|done..]. apply uuid_hyphenated_inj in Ho; [|done..].
  assert (Hpr : pr_project_id r1 = pr_project_id r2).
  { destruct (pr_project_id r1), (pr_project_id r2); cbn in Hs, Hprojects; try done.
    apply (f_equal (fun s => match s with ProjectScope v => v | _ => EmptyString end)) in Hs.
    rewrite !Forall_cons in Hprojects. destruct Hprojects as (V1 & V2 & _).
    by apply uuid_hyphenated_inj in Hs as ->. }
  split; [done|]. split; [done|]. destruct r1, r2; unfold with_state; cbn in *; congruence.
Qed.
End sequences.

(** ** An example *)
#[local] Instance example_digest : CanonicalHash :=
  {| json_to_vec := fun _ => Some []; sha256 := fun _ => repeat 1 32 |}.

Definition no_materials : CustodyStore := mkCustodyStore ∅ (Some 1).
Definition example_provider : ProviderId := mkProviderId "software".
Definition example_reservation : ctxn ProtectedMaterialReservation :=
  reserve_project_in_transaction 5 (fun _ => true) "instance-1" 7 70 Owner.WebhookSecret 71 1
    ConfigurationSecret Purpose.WebhookSigningSecret example_provider 1.
Definition one_material : CustodyStore := c_commit example_reservation no_materials.
Definition envelope (n : nat) : list Z := repeat 9 n.
Definition example_fingerprint : list Z := repeat 2 32.
Definition example_finalize : CustodyOp :=
  CFinalize 70 (Some 7) (envelope 40) (Some example_fingerprint) 6.

Lemma no_materials_ok : custody_ok no_materials.
Proof. constructor; cbn; [intros ? ?; by rewrite lookup_empty..|done|intros ? ? ? ?; by rewrite lookup_empty]. Qed.
Lemma one_material_ok : custody_ok one_material.
Proof.
  apply (exec_custodies_step [CReserve 5 (fun _ => true) "instance-1" (Some 7) 70 Owner.WebhookSecret
    71 1 ConfigurationSecret Purpose.WebhookSigningSecret example_provider 1] no_materials),
    no_materials_ok.
Qed.

(** Finalized, finalized again with another envelope, erased. *)
Lemma material_life_is_one_way_witness :
  exists m m', cu_materials one_material !! 70 = Some m
    /\ cu_materials (exec_custodies [example_finalize; example_finalize; CErase 70 8] one_material) !! 70
       = Some m'
    /\ state_rank m = 0 /\ state_rank m' = 2 /\ pm_opaque_value m' = None
    /\ material_identity m' = material_identity m.
Proof.
  destruct (cu_materials one_material !! 70) as [m|] eqn:Hm; [|vm_compute in Hm; discriminate Hm].
  destruct (material_life_is_one_way [example_finalize; example_finalize; CErase 70 8] one_material
              70 m one_material_ok Hm) as (m' & Hm' & Hid & _ & _ & _ & He & _).
  exists m, m'. split; [done|]. split; [exact Hm'|].
  assert (Hr : state_rank m = 0 /\ is_erased m' = true /\ state_rank m' = 2).
  { vm_compute in Hm. injection Hm as <-. vm_compute in Hm'. injection Hm' as <-. done. }
  destruct Hr as (Hr & Her & Hr'). auto.
Defined.

Lemma reservation_is_stable_witness :
  exists r st, example_reservation no_materials = (one_material, Ok r)
    /\ load_project_reservation (exec_custodies [example_finalize] one_material) "instance-1" 7 70
         Purpose.WebhookSigningSecret = Ok (with_state st r)
    /\ st = MaterialState.Live.
Proof.
  destruct (example_reservation no_materials) as [s1 [r|e]] eqn:Hr;
    [|vm_compute in Hr; discriminate Hr].
  assert (Hs : s1 = one_material) by (unfold one_material, c_commit; by rewrite Hr). subst s1.
  destruct (reservation_is_stable 5 (fun _ => true) "instance-1" 7 70 Owner.WebhookSecret 71 1
    ConfigurationSecret Purpose.WebhookSigningSecret example_provider 1 no_materials one_material r
    [example_finalize] 9 (fun _ => true) no_materials_ok Hr) as (st & Hl & _).
  exists r, st. split; [done|]. split; [exact Hl|].
  apply (f_equal (rmap pr_state)) in Hl. vm_compute in Hl. by injection Hl as <-.
Defined.

Lemma first_envelope_wins_witness :
  finalize_pending_material 70 (Some 7) (envelope 41) (Some example_fingerprint) 9
    (exec_custodies [CErase 70 8] (exec_custodies [example_finalize] one_material))
  = (exec_custodies [CErase 70 8] (exec_custodies [example_finalize] one_material), Ok tt).
Proof.
  rewrite (first_envelope_wins 70 (Some 7) (envelope 40) example_fingerprint 6 one_material
    (exec_custodies [example_finalize] one_material) [CErase 70 8] (envelope 41)
    example_fingerprint 9 one_material_ok).
  - by rewrite bool_decide_true.
  - vm_compute. reflexivity.
Defined.

Lemma contexts_identify_materials_witness :
  exists m r, cu_materials one_material !! 70 = Some m
    /\ map_reservation m "instance-1" Purpose.WebhookSigningSecret = Ok r
    /\ r = with_state (pr_state r) r.
Proof.
  destruct (cu_materials one_material !! 70) as [m|] eqn:Hm; [|vm_compute in Hm; discriminate Hm].
  destruct (map_reservation m "instance-1" Purpose.WebhookSigningSecret) as [r|e] eqn:Hr.
  - exists m, r. split; [done|]. split; [exact Hr|].
    destruct (contexts_identify_materials m m "instance-1" "instance-1" Purpose.WebhookSigningSecret
      Purpose.WebhookSigningSecret r r) as (_ & _ & Heq); [..|exact Hr|exact Hr|done|exact Heq].
    + vm_compute in Hm. injection Hm as <-. repeat constructor; cbn; lia.
    + vm_compute in Hm. injection Hm as <-. repeat constructor; cbn; lia.
  - exfalso. vm_compute in Hm. injection Hm as <-. vm_compute in Hr. discriminate Hr.
Defined.
