(* ===== verification/WebhookSecrets.v ===== *)
(** * The secrets of webhook endpoints

    The invariant that ties the endpoints, their secrets, the queued erasures, the
    leases and the sealed materials together, and that the worker's operations
    keep it: an endpoint points at exactly its active and its overlapping secret,
    every retired secret has its erasure queued, and a material is erased only
    after no lease holds its secret. *)
From S2P Require Import Prelude.
From S2P Require Import Json.
From S2P Require Import WebhookTables.
From S2P Require Import Webhooks.
From S2P Require Import UrlValues.
From S2P Require Import Database.
From S2P Require Import Projection.
From S2P Require Import WebhookOutbox.
From S2P Require Import SessionStore.
From S2P Require Import WebhookOutboxProofs.
From S2P Require Import WebhookDelivery.
From S2P Require Import WebhookDeliveryProofs.
From S2P Require Import Custody.
From S2P Require Import CustodyProofs.

(** ** The invariant *)
(** What matters of an endpoint: its status, and the generations it signs with. *)
Record Pointers := mkPointers {
  pt_id : Uuid; pt_status : string; pt_current : option Z; pt_overlap : option Z
}.
Definition pointers (e : WebhookEndpointRow) : Pointers :=
  mkPointers (we_id e) (we_status e) (we_current_secret_generation e) (we_overlap_secret_generation e).
Definition points (s : DeliveryStore) (i : Uuid) : option Pointers := pointers <$> endpoints s !! i.

Definition terminal (x : WebhookSecretRow) : bool :=
  bool_decide (ws_state x ∈ ["retired"; "compromised"]%string).
Definition provisioned (x : WebhookSecretRow) : bool := is_some (ws_provisioned_at x).

(** Secrets lie under their own key, satisfy the table's checks, and belong to an
    endpoint. *)
Definition secrets_wf (s : DeliveryStore) : Prop :=
  forall i g x, dl_secrets s !! (i, g) = Some x ->
    ws_endpoint_id x = i /\ ws_generation x = g /\ webhook_secret_check x = true
    /\ is_some (points s i) = true.

(** The secrets of one endpoint, against its row. *)
Record endpoint_ok (s : DeliveryStore) (i : Uuid) (p : Pointers) : Prop := {
  ek_id : pt_id p = i;
  ek_active : pt_status p = "active"%string -> is_some (pt_current p) = true;
  ek_idle : pt_status p <> "active"%string -> pt_current p = None /\ pt_overlap p = None;
  ek_there : forall g, pt_current p = Some g \/ pt_overlap p = Some g ->
    is_some (dl_secrets s !! (i, g)) = true;
  ek_states : forall g x, dl_secrets s !! (i, g) = Some x ->
    (ws_state x = "active"%string <-> pt_current p = Some g)
    /\ (ws_state x = "overlap"%string <-> pt_overlap p = Some g);
  ek_disabled : forall g x, pt_status p = "disabled"%string -> dl_secrets s !! (i, g) = Some x ->
    terminal x = true
}.

Definition endpoints_ok (s : DeliveryStore) : Prop :=
  forall i p, points s i = Some p -> endpoint_ok s i p.

(** The secret a lease holds under a generation, with its material. *)
Definition holds (s : DeliveryStore) (d : WebhookDeliveryRow) (generation material : option Z) : Prop :=
  match generation with
  | Some g => exists x, dl_secrets s !! (wd_endpoint_id d, g) = Some x
                        /\ material = Some (ws_material_id x) /\ provisioned x = true
  | None => material = None
  end.

Definition holds_generation (d : WebhookDeliveryRow) (g : Z) : Prop :=
  wd_claimed_secret_generation d = Some g \/ wd_claimed_overlap_generation d = Some g.

Definition webhook_material (m : ProtectedMaterialRow) : Prop :=
  pm_owner_kind m = "webhook_secret"%string.

Definition owned_by (m : ProtectedMaterialRow) (i : Uuid) (g : Z) : Prop :=
  webhook_material m /\ pm_owner_id m = i /\ pm_generation m = g.

(** The life of the secrets and of what they are sealed in. *)
Record life_ok (s : DeliveryStore) (M : gmap Z ProtectedMaterialRow) : Prop := {
  lf_material : forall i g x, dl_secrets s !! (i, g) = Some x ->
    exists m, M !! ws_material_id x = Some m /\ owned_by m i g
              /\ (provisioned x = true -> 1 <= state_rank m);
  lf_owned : forall id m, M !! id = Some m -> webhook_material m ->
    exists x, dl_secrets s !! (pm_owner_id m, pm_generation m) = Some x /\ ws_material_id x = id;
  lf_cleanup : forall j c, dl_cleanups s !! j = Some c ->
    wc_id c = j /\ exists x, dl_secrets s !! (wc_endpoint_id c, wc_generation c) = Some x
                             /\ ws_material_id x = wc_material_id c /\ terminal x = true;
  lf_retired : forall i g x, dl_secrets s !! (i, g) = Some x -> terminal x = true ->
    exists j c, dl_cleanups s !! j = Some c /\ wc_endpoint_id c = i /\ wc_generation c = g;
  lf_erased : forall id m, M !! id = Some m -> webhook_material m -> is_erased m = true ->
    exists j c, dl_cleanups s !! j = Some c /\ wc_material_id c = id /\ wc_state c = "erased"%string;
  lf_unheld : forall j c k d, dl_cleanups s !! j = Some c -> wc_state c <> "pending"%string ->
    deliveries s !! k = Some d -> is_leased d = true -> wd_endpoint_id d = wc_endpoint_id c ->
    ~ holds_generation d (wc_generation c);
  lf_lease : forall k d, deliveries s !! k = Some d -> is_leased d = true ->
    is_some (wd_claimed_secret_generation d) = true
    /\ holds s d (wd_claimed_secret_generation d) (wd_claimed_secret_material_id d)
    /\ holds s d (wd_claimed_overlap_generation d) (wd_claimed_overlap_material_id d)
}.

(** ** Moves: what operations on the worker's tables do to secrets *)
(** Secrets keep their material and are never unretired; only those already
    provisioned are; a new retirement comes with its queued erasure; no lease is
    taken. *)
Record moves (s s' : DeliveryStore) : Prop := {
  mv_forward : forall k x, dl_secrets s !! k = Some x ->
    exists x', dl_secrets s' !! k = Some x' /\ ws_material_id x' = ws_material_id x
               /\ provisioned x' = provisioned x /\ (terminal x = true -> terminal x' = true);
  mv_back : forall k x', dl_secrets s' !! k = Some x' -> is_some (dl_secrets s !! k) = true;
  mv_retired : forall i g x', dl_secrets s' !! (i, g) = Some x' -> terminal x' = true ->
    (exists x, dl_secrets s !! (i, g) = Some x /\ terminal x = true)
    \/ exists j c, dl_cleanups s' !! j = Some c /\ wc_endpoint_id c = i /\ wc_generation c = g;
  mv_kept : forall j c, dl_cleanups s !! j = Some c -> dl_cleanups s' !! j = Some c;
  mv_queued : forall j c, dl_cleanups s' !! j = Some c ->
    dl_cleanups s !! j = Some c
    \/ (wc_id c = j /\ wc_state c = "pending"%string
        /\ exists x', dl_secrets s' !! (wc_endpoint_id c, wc_generation c) = Some x'
                      /\ ws_material_id x' = wc_material_id c /\ terminal x' = true);
  mv_leases : forall k d, deliveries s' !! k = Some d -> is_leased d = true ->
    deliveries s !! k = Some d
}.

#[global] Instance moves_preorder : PreOrder moves.
Proof.
  split.
  - intros s. constructor; [by eauto|intros k x' ->; done|intros; left; by eauto|auto..].
  - intros s1 s2 s3 [F1 B1 R1 K1 Q1 L1] [F2 B2 R2 K2 Q2 L2]. constructor.
    + intros k x Hx. destruct (F1 _ _ Hx) as (x2 & Hx2 & M2 & P2 & T2).
      destruct (F2 _ _ Hx2) as (x3 & Hx3 & M3 & P3 & T3). exists x3.
      split; [done|]. split; [congruence|]. split; [congruence|auto].
    + intros k x3 Hx3. apply B2 in Hx3. apply some_of_is_some in Hx3 as [x2 Hx2]. eauto.
    + intros i g x3 Hx3 Ht. destruct (R2 _ _ _ Hx3 Ht) as [(x2 & Hx2 & Ht2)|]; [|by right].
      destruct (R1 _ _ _ Hx2 Ht2) as [|(j & c & Hc & ?)]; [by left|right; eauto].
    + eauto.
    + intros j c Hc. destruct (Q2 _ _ Hc) as [Hc2|]; [|by right].
      destruct (Q1 _ _ Hc2) as [|(Hid & Hst & x2 & Hx2 & Hm & Ht)]; [by left|right].
      destruct (F2 _ _ Hx2) as (x3 & Hx3 & M3 & _ & T3).
      split; [done|]. split; [done|]. exists x3. split; [done|]. split; [congruence|auto].
    + eauto.
Qed.

Lemma moves_life s s' M : moves s s' -> life_ok s M -> life_ok s' M.
Proof.
  intros [F B R K Q L] [Lm Lo Lc Lr Le Lu Ll]. constructor.
  - intros i g x' Hx'. pose proof (B _ _ Hx') as [x Hx]%some_of_is_some.
    destruct (F _ _ Hx) as (y & Hy & Hm & Hp & _). assert (y = x') as -> by congruence.
    destruct (Lm _ _ _ Hx) as (m & HM & Ho & Hr). exists m. rewrite Hm, Hp. auto.
  - intros id m HM Hw. destruct (Lo _ _ HM Hw) as (x & Hx & Hid).
    destruct (F _ _ Hx) as (y & Hy & Hm & _). exists y. split; [done|congruence].
  - intros j c Hc. destruct (Q _ _ Hc) as [Hold|(Hid & _ & Hx)]; [|auto].
    destruct (Lc _ _ Hold) as (Hid & x & Hx & Hm & Ht). split; [done|].
    destruct (F _ _ Hx) as (y & Hy & Hm' & _ & Ht'). exists y. split; [done|]. split; [congruence|auto].
  - intros i g x' Hx' Ht. destruct (R _ _ _ Hx' Ht) as [(x & Hx & Hxt)|]; [|done].
    destruct (Lr _ _ _ Hx Hxt) as (j & c & Hc & ?). eauto.
  - intros id m HM Hw He. destruct (Le _ _ HM Hw He) as (j & c & Hc & ?). eauto.
  - intros j c k d Hc Hst Hd Hl He. destruct (Q _ _ Hc) as [Hold|(_ & Hp & _)]; [|done].
    eapply Lu; eauto.
  - intros k d Hd Hl. destruct (Ll k d) as (H0 & H1 & H2); [by apply L|done|].
    assert (Hh : forall g m, holds s d g m -> holds s' d g m).
    { intros [g|] m; unfold holds; [|done]. intros (x & Hx & Hm & Hp).
      destruct (F _ _ Hx) as (y & Hy & Hmy & Hpy & _). exists y. split; [done|].
      split; [congruence|congruence]. }
    auto.
Qed.

(** [only i]: nothing of another endpoint changes. *)
Definition only (i : Uuid) (s s' : DeliveryStore) : Prop :=
  (forall j, j <> i -> points s' j = points s j)
  /\ (forall j g, j <> i -> dl_secrets s' !! (j, g) = dl_secrets s !! (j, g)).

#[global] Instance only_preorder i : PreOrder (only i).
Proof.
  split; [done|]. intros s1 s2 s3 [P1 S1] [P2 S2].
  split; intros; [rewrite P2, P1|rewrite S2, S1]; done.
Qed.

Lemma endpoint_ok_same s s' i p :
  (forall g, dl_secrets s' !! (i, g) = dl_secrets s !! (i, g)) -> endpoint_ok s i p -> endpoint_ok s' i p.
Proof.
  intros Hs [H1 H2 H3 H4 H5 H6]. constructor; try done.
  - intros g. rewrite Hs. auto.
  - intros g x. rewrite Hs. auto.
  - intros g x. rewrite Hs. eauto.
Qed.

Lemma only_endpoints i s s' :
  only i s s' -> (forall p, points s' i = Some p -> endpoint_ok s' i p) ->
  endpoints_ok s -> endpoints_ok s'.
Proof.
  intros [HP HS] Hi Hok j p Hp. destruct (decide (j = i)) as [->|Hne]; [auto|].
  rewrite HP in Hp by done. apply endpoint_ok_same with s; [intros; by apply HS|auto].
Qed.

(** ** The invariant of the worker's tables, and steps that keep it *)
Definition keys_ok (s : DeliveryStore) (M : gmap Z ProtectedMaterialRow) : Prop :=
  secrets_wf s /\ endpoints_ok s /\ life_ok s M.
Definition keeps (s s' : DeliveryStore) : Prop := forall M, keys_ok s M -> keys_ok s' M.

#[global] Instance keeps_preorder : PreOrder keeps.
Proof. split; [by intros s M|]. intros s1 s2 s3 H12 H23 M H1. auto. Qed.

(** No secret, erasure or pointer changes, and no lease is taken. *)
Record steady (s s' : DeliveryStore) : Prop := {
  qt_secrets : dl_secrets s' = dl_secrets s;
  qt_cleanups : dl_cleanups s' = dl_cleanups s;
  qt_points : forall i, points s' i = points s i;
  qt_leases : forall k d, deliveries s' !! k = Some d -> is_leased d = true -> deliveries s !! k = Some d
}.

#[global] Instance steady_preorder : PreOrder steady.
Proof.
  split; [by constructor|]. intros s1 s2 s3 [A1 B1 C1 D1] [A2 B2 C2 D2].
  constructor; intros; rewrite ?A2, ?B2, ?C2; eauto.
Qed.

Lemma steady_moves s s' : steady s s' -> moves s s'.
Proof.
  intros [HS HC HP HD]. constructor; rewrite ?HS, ?HC; [by eauto|intros k x' ->; done|..].
  - intros; left; by eauto.
  - done.
  - auto.
  - done.
Qed.

Lemma steady_only i s s' : steady s s' -> only i s s'.
Proof. intros [HS HC HP HD]. split; intros; [apply HP|by rewrite HS]. Qed.

Lemma steady_keeps s s' : steady s s' -> keeps s s'.
Proof.
  intros Hq M (Hw & He & Hl). pose proof Hq as [HS HC HP HD]. split; [|split].
  - intros i g x. rewrite HS, HP. apply Hw.
  - intros i p. rewrite HP. intros Hp. apply endpoint_ok_same with s; [by rewrite HS|auto].
  - eapply moves_life; [by apply steady_moves|done].
Qed.

(** Steady statements. *)
Lemma insert_attempt_steady row s s' u : insert_attempt row s = (s', Ok u) -> steady s s'.
Proof. unfold insert_attempt. intros. inv_d. by constructor. Qed.

Lemma leases_insert (D : gmap Z WebhookDeliveryRow) k0 d0 k d :
  is_leased d0 = false -> <[k0 := d0]> D !! k = Some d -> is_leased d = true -> D !! k = Some d.
Proof. intros Hn [[-> ->]|[_ Hd]]%lookup_insert_Some Hl; [congruence|done]. Qed.

Lemma update_delivery_steady row s s' u :
  is_leased row = false -> update_delivery row s = (s', Ok u) -> steady s s'.
Proof.
  unfold update_delivery. intros Hn Hs. inv_d. constructor; try done.
  cbn. intros k d. by apply leases_insert.
Qed.

Lemma points_insert s s' i row :
  endpoints s' = <[we_id row := row]> (endpoints s) ->
  points s' i = if decide (i = we_id row) then Some (pointers row) else points s i.
Proof.
  intros He. unfold points. rewrite He. destruct (decide _) as [->|Hne].
  - by rewrite lookup_insert_eq.
  - by rewrite lookup_insert_ne.
Qed.

Lemma update_endpoint_row_ok row s s' u :
  update_endpoint_row row s = (s', Ok u) ->
  webhook_endpoint_check row = true /\ is_some (endpoints s !! we_id row) = true
  /\ dl_secrets s' = dl_secrets s /\ dl_cleanups s' = dl_cleanups s
  /\ deliveries s' = deliveries s
  /\ (forall i, points s' i = if decide (i = we_id row) then Some (pointers row) else points s i).
Proof.
  unfold update_endpoint_row. intros. inv_d. bool_prop. split; [tauto|]. split; [tauto|].
  split; [done|]. split; [done|]. split; [done|]. intros i. by apply points_insert.
Qed.

Lemma update_endpoint_row_steady row s s' u :
  points s (we_id row) = Some (pointers row) -> update_endpoint_row row s = (s', Ok u) -> steady s s'.
Proof.
  intros Hp (_ & _ & HS & HC & HD & HP)%update_endpoint_row_ok. constructor; [done|done| |by rewrite HD].
  intros i. rewrite HP. destruct (decide _) as [->|]; congruence.
Qed.

(** A statement on the database that leaves the endpoints alone and takes no lease. *)
Lemma in_database_steady {A} (m : txn A) s s' a :
  (forall db db', m db = (db', Ok a) ->
     db_endpoints db' = db_endpoints db
     /\ forall k d, db_deliveries db' !! k = Some d -> is_leased d = true -> db_deliveries db !! k = Some d) ->
  in_database m s = (s', Ok a) -> steady s s'.
Proof.
  intros Hm. unfold in_database. destruct (m (dl_db s)) as [db r] eqn:E. intros [= <- ->].
  destruct (Hm _ _ E) as [He Hd]. constructor; try done.
  intros i. unfold points, endpoints. cbn. by rewrite He.
Qed.

Lemma audit_steady p a c k t i s s' u :
  in_database (append_runtime_audit p a c k t i) s = (s', Ok u) -> steady s s'.
Proof. apply in_database_steady. intros db db' Hd. inv_txn. by subst. Qed.

Lemma dispatch_steady p a s s' u :
  in_database (ensure_dispatch_state p a) s = (s', Ok u) -> steady s s'.
Proof.
  apply in_database_steady. unfold ensure_dispatch_state. intros db db' Hd. inv_txn.
  destruct (db_dispatch _ !! _); inv_txn; [done|].
  apply mmodify_ok in Hd. by subst.
Qed.

Lemma insert_delivery_steady row s s' u :
  is_leased row = false -> in_database (insert_delivery row) s = (s', Ok u) -> steady s s'.
Proof.
  intros Hn. apply in_database_steady. intros db db' Hd. destruct u.
  apply insert_delivery_ok in Hd as (_ & _ & ->). split; [done|]. cbn. intros k d. by apply leases_insert.
Qed.

(** A row read under its key, as a point. *)
Lemma endpoint_point s i e : endpoints s !! i = Some e -> points s i = Some (pointers e).
Proof. unfold points. by intros ->. Qed.

Lemma point_key s M i e : keys_ok s M -> endpoints s !! i = Some e -> we_id e = i.
Proof. intros (_ & He & _) Hi%endpoint_point. exact (ek_id _ _ _ (He _ _ Hi)). Qed.

(** Whatever a computation returns, the invariant is kept. *)
Definition holds_through {A : Type} (m : dtxn A) : Prop :=
  forall s s' r, m s = (s', r) -> keeps s s'.

Lemma through_seq {A B} (m : dtxn A) (k : A -> dtxn B) :
  holds_through m -> (forall a, holds_through (k a)) -> holds_through (a <~ m ;; k a).
Proof.
  intros Hm Hk s s' r. unfold mseq. destruct (m s) as [s1 [a|e]] eqn:E.
  - intros Hs. etransitivity; [by eapply Hm|by eapply Hk].
  - intros [= <- <-]. by eapply Hm.
Qed.

Lemma through_txn {A} (body : dtxn A) :
  (forall s s' a, body s = (s', Ok a) -> keeps s s') -> holds_through (d_transaction body).
Proof.
  intros Hb s s' [a|e] Hs; [apply d_transaction_ok in Hs; eauto|].
  apply d_transaction_err in Hs as ->. reflexivity.
Qed.

Lemma through_ret {A} (a : A) : holds_through (mret a).
Proof. intros s s' r [= <- _]. reflexivity. Qed.
Lemma through_fail {A} e : holds_through (A := A) (mfail e).
Proof. intros s s' r [= <- _]. reflexivity. Qed.
Lemma through_lift {A} (r : result ApplicationError A) : holds_through (mlift r).
Proof. intros s s' r' [= <- _]. reflexivity. Qed.

(** ** Releasing a lease *)
(** The attempt on record, the delivery released, the endpoint's health written. *)
Lemma release_keeps s s1 s2 s' i e row a class now u1 u2 u3 :
  endpoints s !! i = Some e -> is_leased row = false ->
  insert_attempt a s = (s1, Ok u1) -> update_delivery row s1 = (s2, Ok u2) ->
  update_endpoint_row (endpoint_attempted class now e) s2 = (s', Ok u3) -> keeps s s'.
Proof.
  intros He Hn Ha%insert_attempt_steady Hd%update_delivery_steady Hu M Hok; [|done].
  assert (Hq : steady s s2) by (etransitivity; eassumption).
  apply update_endpoint_row_steady in Hu.
  - eapply steady_keeps; [|exact Hok]. by etransitivity.
  - rewrite (qt_points _ _ Hq). change (points s (we_id e) = Some (pointers e)).
    rewrite (point_key _ _ _ _ Hok He). by apply endpoint_point.
Qed.

Lemma through_recover seen clock now id :
  holds_through (recover_one_expired_delivery seen clock now id).
Proof.
  unfold recover_one_expired_delivery. destruct (expired_delivery_hint seen); [|apply through_ret].
  apply through_txn. intros s s' a Hs. unfold recover_locked in Hs. inv_d.
  match goal with Hx : lock_application_owners _ _ _ = _ |- _ => apply lock_owners_ok in Hx; subst end.
  match goal with Hx : lock_endpoint _ _ _ _ = _ |- _ => apply lock_endpoint_ok in Hx as [-> ?] end.
  destruct (_ || _) in Hs; [injection Hs as <-; reflexivity|]. inv_d.
  eapply release_keeps; [eassumption| |eassumption|eassumption|eassumption].
  apply released_states, recovered_states.
Qed.

Section with_libraries.
Context `{CanonicalHash} `{ProjectionCryptography} `{UrlLib} `{TimeFormat} `{JsonbText}.

Lemma through_finish seen claim ts outcome next now correlation :
  holds_through (finish seen claim ts outcome next now correlation).
Proof.
  apply through_seq; [apply through_lift|]. intros hint. apply through_txn.
  intros s s' a Hs. unfold finish_locked in Hs. inv_d.
  match goal with Hx : lock_application_owners _ _ _ = _ |- _ => apply lock_owners_ok in Hx; subst end.
  match goal with Hx : lock_endpoint _ _ _ _ = _ |- _ => apply lock_endpoint_ok in Hx as [-> ?] end.
  eapply release_keeps; [eassumption| |eassumption|eassumption|eassumption].
  apply released_states, finished_states.
Qed.

(** ** Taking a lease *)
Lemma active_provisioned x :
  webhook_secret_check x = true -> terminal x = false -> ws_state x <> "pending"%string ->
  provisioned x = true.
Proof.
  unfold webhook_secret_check, terminal, provisioned. intros Hc Ht Hp.
  apply andb_true_iff in Hc as [_ Hc]. apply orb_true_iff in Hc as [Hc|Hc]; [|done].
  apply bool_decide_eq_true in Hc. apply bool_decide_eq_false in Ht.
  rewrite !elem_of_cons, elem_of_nil in *. naive_solver.
Qed.

Lemma state_not_terminal x st :
  ws_state x = st -> st ∈ ["pending"; "active"; "overlap"]%string -> terminal x = false.
Proof.
  intros <- Hst. unfold terminal. rewrite !elem_of_cons, elem_of_nil in Hst.
  destruct Hst as [E|[E|[E|[]]]]; by rewrite E.
Qed.

(** A generation an endpoint points at has a provisioned secret that is not
    retired. *)
Lemma pointed_secret s M i p g :
  keys_ok s M -> points s i = Some p -> pt_current p = Some g \/ pt_overlap p = Some g ->
  exists x, dl_secrets s !! (i, g) = Some x /\ provisioned x = true /\ terminal x = false.
Proof.
  intros (Hw & He & _) Hp Hg. pose proof (He _ _ Hp) as [_ _ _ Ht Hs _].
  apply Ht in Hg as Hx. apply some_of_is_some in Hx as [x Hx]. exists x. split; [done|].
  destruct (Hw _ _ _ Hx) as (_ & _ & Hc & _). destruct (Hs _ _ Hx) as [Ha Ho].
  assert (Hst : ws_state x = "active"%string \/ ws_state x = "overlap"%string) by tauto.
  assert (Hn : terminal x = false).
  { destruct Hst as [Hst|Hst]; apply (state_not_terminal _ _ Hst); set_solver. }
  split; [|done]. apply active_provisioned; [done|done|]. destruct Hst as [-> | ->]; done.
Qed.

Lemma claimed_holds s M e d g :
  keys_ok s M -> endpoints s !! wd_endpoint_id d = Some e ->
  (forall h, g = Some h -> we_current_secret_generation e = Some h \/ we_overlap_secret_generation e = Some h) ->
  holds s d g (secret_material s (we_id e) g).
Proof.
  intros Hok He Hg. unfold holds, secret_material. destruct g as [h|]; [|done].
  destruct (pointed_secret s M (wd_endpoint_id d) (pointers e) h Hok (endpoint_point _ _ _ He) (Hg h eq_refl))
    as (x & Hx & Hp & _).
  exists x. rewrite (point_key _ _ _ _ Hok He). cbn. rewrite Hx. done.
Qed.

Lemma lease_keeps s s' w i c now ls seq locked id r :
  lease_delivery w i c now ls seq locked id s = (s', Ok r) -> keeps s s'.
Proof.
  intros Hs M Hok. unfold lease_delivery in Hs. inv_d.
  destruct (List.find _ _) as [d|] eqn:Hf; [|by injection Hs as <- _].
  destruct (locked || _); [by injection Hs as <- _|]. inv_d.
  assert (Hq : forall x, steady s (set_dl_db (set_db_dispatch x (dl_db s)) s)) by (intros; by constructor).
  destruct (endpoints s !! _) as [e|] eqn:He; [|injection Hs as <- _; by apply (steady_keeps _ _ (Hq _))].
  destruct (event_retained _ _ _); [|injection Hs as <- _; by apply (steady_keeps _ _ (Hq _))]. inv_d.
  match goal with Hu : update_delivery ?row _ = _ |- _ => set (row' := row) in *;
    unfold update_delivery in Hu; inv_d; rename Hu into Hu' || idtac end.
  apply candidate_claimable in Hf as (_ & Hc & _).
  assert (Hep : endpoints s !! wd_endpoint_id row' = Some e) by done.
  assert (Hact : we_status e = "active"%string).
  { unfold claimable in Hc. rewrite He in Hc. cbn in Hc. unfold is_active in Hc. bool_prop. tauto. }
  pose proof Hok as (Hw & Heok & Hl). pose proof (Heok _ _ (endpoint_point _ _ _ He)) as Hek.
  split; [exact Hw|]. split.
  { intros j p Hp. apply endpoint_ok_same with s; [done|by apply Heok]. }
  destruct Hl as [Lm Lo Lc Lr Le Lu Ll].
  assert (Hov : forall h, wd_claimed_overlap_generation row' = Some h ->
                  we_overlap_secret_generation e = Some h).
  { intros h. cbn. destruct (is_some_and _ _); [done|discriminate]. }
  constructor; [exact Lm|exact Lo|exact Lc|exact Lr|exact Le|..].
  - intros j q k x Hq' Hst. cbn. intros [[<- <-]|[_ Hx]]%lookup_insert_Some Hlx Hex;
      [|exact (Lu _ _ _ _ Hq' Hst Hx Hlx Hex)].
    destruct (Lc _ _ Hq') as (_ & y & Hy & _ & Ht). intros Hg.
    destruct (pointed_secret s M (wd_endpoint_id d) (pointers e) (wc_generation q) Hok
                (endpoint_point _ _ _ He)) as (z & Hz & _ & Hnt).
    { destruct Hg as [Hg|Hg]; [by left|right; by apply Hov]. }
    rewrite <- Hex in Hy. cbn in Hy. congruence.
  - intros k x. cbn. intros [[<- <-]|[_ Hx]]%lookup_insert_Some Hlx; [|exact (Ll _ _ Hx Hlx)].
    split; [|split].
    + cbn. by apply (ek_active _ _ _ Hek).
    + apply (claimed_holds s M e row'); [done|done|]. intros h Hh. by left.
    + apply (claimed_holds s M e row'); [done|done|]. intros h Hh. right. by apply Hov.
Qed.

End with_libraries.

(** ** Retiring *)
Definition secret_key (x : WebhookSecretRow) : Z * Z := (ws_endpoint_id x, ws_generation x).

Lemma update_secret_ok row s s' u :
  update_secret row s = (s', Ok u) ->
  webhook_secret_check row = true /\ is_some (dl_secrets s !! secret_key row) = true
  /\ dl_secrets s' = <[secret_key row := row]> (dl_secrets s) /\ dl_cleanups s' = dl_cleanups s
  /\ deliveries s' = deliveries s /\ endpoints s' = endpoints s.
Proof. unfold update_secret. intros. inv_d. bool_prop. tauto. Qed.

Lemma enqueue_ok id clock e g m now nb s s' u :
  enqueue_secret_cleanup id clock e g m now nb s = (s', Ok u) ->
  dl_secrets s' = dl_secrets s /\ deliveries s' = deliveries s /\ endpoints s' = endpoints s
  /\ (forall j c, dl_cleanups s !! j = Some c -> dl_cleanups s' !! j = Some c)
  /\ (forall j c, dl_cleanups s' !! j = Some c -> dl_cleanups s !! j = Some c
        \/ (wc_id c = j /\ wc_state c = "pending"%string /\ wc_endpoint_id c = e
            /\ wc_generation c = g /\ wc_material_id c = m))
  /\ exists j c, dl_cleanups s' !! j = Some c /\ wc_endpoint_id c = e /\ wc_generation c = g.
Proof.
  unfold enqueue_secret_cleanup. intros Hs. inv_d. destruct (existsb _ _) eqn:Hex; inv_d.
  - split; [done|]. split; [done|]. split; [done|]. split; [done|]. split; [auto|].
    apply existsb_exists in Hex as (c & Hin & Hc). apply in_map_iff in Hin as ([j y] & Hy & Hin).
    cbn in Hy. subst y. apply list_elem_of_In, elem_of_map_to_list in Hin. bool_prop. eauto.
  - apply andb_true_iff in H as [[[Hn _]%andb_true_iff _]%andb_true_iff _].
    split; [done|]. split; [done|]. split; [done|]. cbn. split; [|split].
    + intros j c Hj. rewrite lookup_insert_ne; [done|]. intros <-. by rewrite Hj in Hn.
    + intros j c [[<- <-]|[_ Hj]]%lookup_insert_Some; [right; done|by left].
    + eexists id, _. rewrite lookup_insert_eq. done.
Qed.

Lemma secret_retired_facts now x :
  secret_key (secret_retired now x) = secret_key x /\ ws_material_id (secret_retired now x) = ws_material_id x
  /\ provisioned (secret_retired now x) = provisioned x /\ terminal (secret_retired now x) = true.
Proof. done. Qed.

(** A secret retired and its erasure queued, with the endpoint written in between. *)
Lemma retire_moves s s1 s2 s' x now id clock at_ nb u u' :
  dl_secrets s !! secret_key x = Some x -> update_secret (secret_retired now x) s = (s1, Ok u) ->
  dl_secrets s2 = dl_secrets s1 -> dl_cleanups s2 = dl_cleanups s1 -> deliveries s2 = deliveries s1 ->
  enqueue_secret_cleanup id clock (ws_endpoint_id x) (ws_generation x) (ws_material_id x) at_ nb s2
    = (s', Ok u') ->
  moves s s' /\ dl_secrets s' = <[secret_key x := secret_retired now x]> (dl_secrets s)
  /\ webhook_secret_check (secret_retired now x) = true.
Proof.
  intros Hx (Hchk & _ & HS & HC & HD & _)%update_secret_ok S2 C2 D2
    (S3 & D3 & _ & Hkeep & Hnew & Hex)%enqueue_ok.
  rewrite C2, HC in Hkeep, Hnew. rewrite D2, HD in D3.
  assert (HS' : dl_secrets s' = <[secret_key x := secret_retired now x]> (dl_secrets s))
    by (rewrite S3, S2, HS; done).
  split; [|done]. constructor.
  - intros k y Hy. rewrite HS'. destruct (decide (k = secret_key x)) as [->|Hne].
    + rewrite lookup_insert_eq. eexists. split; [done|]. assert (y = x) as -> by congruence. done.
    + rewrite lookup_insert_ne by done. eauto.
  - intros k y. rewrite HS'. intros [[<- _]|[_ Hy]]%lookup_insert_Some; [by rewrite Hx|by rewrite Hy].
  - intros i g y. rewrite HS'. intros [[[= <- <-] <-]|[_ Hy]]%lookup_insert_Some Ht; [by right|left; eauto].
  - done.
  - intros j c Hc. destruct (Hnew _ _ Hc) as [|(Hid & Hst & He & Hg & Hm)]; [by left|right].
    split; [done|]. split; [done|]. exists (secret_retired now x). rewrite HS', He, Hg, Hm.
    by rewrite lookup_insert_eq.
  - intros k d. by rewrite D3.
Qed.

Lemma wf_write s s' x :
  webhook_secret_check x = true -> is_some (points s (ws_endpoint_id x)) = true ->
  dl_secrets s' = <[secret_key x := x]> (dl_secrets s) ->
  (forall i, is_some (points s i) = true -> is_some (points s' i) = true) ->
  secrets_wf s -> secrets_wf s'.
Proof.
  intros Hc Hp HS HP Hw i g y. rewrite HS. intros [[[= <- <-] <-]|[_ Hy]]%lookup_insert_Some; [auto|].
  destruct (Hw _ _ _ Hy) as (? & ? & ? & ?). auto.
Qed.

Lemma wf_same s s' :
  dl_secrets s' = dl_secrets s -> (forall i, is_some (points s i) = true -> is_some (points s' i) = true) ->
  secrets_wf s -> secrets_wf s'.
Proof. intros HS HP Hw i g y. rewrite HS. intros Hy. destruct (Hw _ _ _ Hy) as (? & ? & ? & ?). auto. Qed.

Lemma points_same s s' : endpoints s' = endpoints s -> forall i, points s' i = points s i.
Proof. unfold points. by intros ->. Qed.

(** The loop that retires the secrets of an endpoint. *)
Lemma retire_loop ids clock now e o nb l : forall s s' u,
  (forall x, In x l -> dl_secrets s !! secret_key x = Some x /\ ws_endpoint_id x = e) ->
  NoDup (map secret_key l) ->
  retire_secrets ids clock now e o nb l s = (s', Ok u) ->
  moves s s' /\ endpoints s' = endpoints s /\ (secrets_wf s -> secrets_wf s')
  /\ (forall x, In x l -> dl_secrets s' !! secret_key x = Some (secret_retired now x))
  /\ (forall k, ~ In k (map secret_key l) -> dl_secrets s' !! k = dl_secrets s !! k).
Proof.
  induction l as [|x l IH]; intros s s' u Hl Hnd Hs; cbn in Hs; inv_d.
  - split; [reflexivity|]. done.
  - apply NoDup_cons in Hnd as [Hn Hnd]. destruct (Hl x (or_introl eq_refl)) as [Hx He].
    match goal with Hb : (if ?b then _ else _) ?s1 = (?s2, Ok _) |- _ =>
      assert (s2 = s1) as -> by (destruct b; inv_d; done); clear Hb end.
    match goal with Hu : update_secret _ _ = (?s1, Ok _), Hq : enqueue_secret_cleanup _ _ _ _ _ _ _ _ = (?s3, Ok _) |- _ =>
      pose proof (update_secret_ok _ _ _ _ Hu) as (_ & _ & _ & _ & _ & HE1);
      pose proof (enqueue_ok _ _ _ _ _ _ _ _ _ _ Hq) as (_ & _ & HE3 & _);
      rewrite <- He in Hq;
      destruct (retire_moves s s1 s1 s3 x now _ _ _ _ _ _ Hx Hu eq_refl eq_refl eq_refl Hq) as (Hmv & HS & Hchk);
      assert (HE : forall i, points s3 i = points s i) by (apply points_same; congruence)
    end.
    apply IH in Hs; [|intros y Hy; destruct (Hl y (or_intror Hy)) as [Hy' Hye]; split; [|done]|done].
    2:{ rewrite HS, lookup_insert_ne; [done|]. intros Heq. apply Hn.
        rewrite Heq. by apply list_elem_of_In, in_map. }
    destruct Hs as (Hmv' & HE' & Hwf' & Hin' & Hout'). split; [by etransitivity|].
    split; [congruence|]. split; [|split].
    + intros Hw. apply Hwf'. destruct (Hw _ _ _ Hx) as (_ & _ & _ & Hp).
      eapply wf_write; [exact Hchk|exact Hp|exact HS|intros i; by rewrite HE|done].
    + intros y [<-|Hy]; [|by apply Hin'].
      rewrite Hout'; [rewrite HS; apply lookup_insert_eq|]. by rewrite <- list_elem_of_In.
    + intros k Hk. cbn in Hk. rewrite Hout' by tauto. rewrite HS, lookup_insert_ne; [done|].
      intros Heq. tauto.
Qed.

Definition retirable (x : WebhookSecretRow) : bool := bool_decide (ws_state x ∈ retirable_states).

Lemma retirable_or_terminal x : webhook_secret_check x = true -> retirable x = false -> terminal x = true.
Proof.
  unfold webhook_secret_check, retirable, terminal, retirable_states. intros Hc Hr%bool_decide_eq_false.
  apply andb_true_iff in Hc as [[[Hc _]%andb_true_iff _]%andb_true_iff _].
  apply bool_decide_eq_true. rewrite !orb_true_iff, !andb_true_iff, !bool_decide_eq_true in Hc.
  rewrite !elem_of_cons, elem_of_nil in *. naive_solver.
Qed.

(** The rows of an endpoint that are not retired, each once. *)
Lemma unretired_rows s i :
  secrets_wf s ->
  let l := merge_sort secret_before
             (List.filter (fun x => (ws_endpoint_id x =? i) && retirable x)
                (map snd (map_to_list (dl_secrets s)))) in
  NoDup (map secret_key l)
  /\ (forall x, In x l -> dl_secrets s !! secret_key x = Some x /\ ws_endpoint_id x = i)
  /\ (forall g x, dl_secrets s !! (i, g) = Some x -> retirable x = true -> In x l).
Proof.
  intros Hw l.
  assert (Hkey : forall k x, dl_secrets s !! k = Some x -> secret_key x = k).
  { intros [j g] x Hx. destruct (Hw _ _ _ Hx) as (<- & <- & _). done. }
  assert (Hmem : forall x, In x l <-> In x (List.filter (fun x => (ws_endpoint_id x =? i) && retirable x)
                                             (map snd (map_to_list (dl_secrets s))))).
  { intros x. rewrite <- !list_elem_of_In. unfold l. by rewrite (merge_sort_Permutation secret_before). }
  split; [|split].
  - unfold l. rewrite (merge_sort_Permutation secret_before). apply NoDup_map_filter. rewrite map_map.
    replace (map (fun x => secret_key x.2) (map_to_list (dl_secrets s)))
      with (map fst (map_to_list (dl_secrets s))); [apply NoDup_fst_map_to_list|].
    apply map_ext_in. intros [k d] Hin. apply list_elem_of_In, elem_of_map_to_list in Hin.
    symmetry. by apply Hkey.
  - intros x [Hin Hp]%Hmem%filter_In. apply in_map_iff in Hin as ([k y] & Hy & Hin). cbn in Hy. subst y.
    apply list_elem_of_In, elem_of_map_to_list in Hin. pose proof (Hkey _ _ Hin) as <-. bool_prop. tauto.
  - intros g x Hx Hr. apply Hmem, filter_In. split.
    + apply in_map_iff. exists ((i, g), x). split; [done|]. by apply list_elem_of_In, elem_of_map_to_list.
    + destruct (Hw _ _ _ Hx) as (-> & _). by rewrite Z.eqb_refl.
Qed.

(** Disabling an endpoint and retiring all its secrets. *)
Lemma disable_keeps s s1 s' i e rev dis now at_ ids clock o nb l u u' :
  endpoints s !! i = Some e ->
  update_endpoint_row (endpoint_secrets "disabled" rev dis None now e) s = (s1, Ok u) ->
  l = merge_sort secret_before (List.filter (fun x => (ws_endpoint_id x =? i) && retirable x)
                                  (map snd (map_to_list (dl_secrets s)))) ->
  retire_secrets ids clock at_ i o nb l s1 = (s', Ok u') -> keeps s s'.
Proof.
  intros He (_ & _ & HS & HC & HD & HP)%update_endpoint_row_ok -> Hr M Hok.
  pose proof Hok as (Hw & Heo & Hl). pose proof (point_key _ _ _ _ Hok He) as Hid. cbn in HP. rewrite Hid in HP.
  destruct (unretired_rows s i Hw) as (Hnd & Hin & Hall).
  assert (Hw1 : secrets_wf s1).
  { eapply wf_same; [exact HS| |exact Hw]. intros j Hj. rewrite HP. by destruct (decide _). }
  assert (Hmv1 : moves s s1).
  { constructor; rewrite ?HS, ?HC, ?HD; [by eauto|intros k x' ->; done|intros; left; by eauto|auto..]. }
  destruct (retire_loop _ _ _ _ _ _ _ _ _ _
              (fun x Hx => conj (eq_trans (f_equal (fun t => t !! secret_key x) HS) (proj1 (Hin x Hx)))
                             (proj2 (Hin x Hx))) Hnd Hr)
    as (Hmv & HE & Hwf & Hret & Hout).
  split; [by apply Hwf|]. split; [|exact (moves_life _ _ _ (transitivity Hmv1 Hmv) Hl)].
  assert (Hp' : forall j, points s' j = points s1 j) by (by apply points_same).
  apply only_endpoints with i s; [split| |done].
  - intros j Hj. rewrite Hp', HP. by destruct (decide _).
  - intros j g Hj. rewrite Hout, HS; [done|]. intros Hk. apply in_map_iff in Hk as (x & Hxk & Hx).
    destruct (Hin _ Hx) as [_ Hxi]. apply Hj. rewrite <- Hxi. unfold secret_key in Hxk. congruence.
  - intros p. rewrite Hp', HP. destruct (decide (i = i)); [|done]. intros [= <-].
    assert (Hterm : forall g x, dl_secrets s' !! (i, g) = Some x -> terminal x = true).
    { intros g x Hx. destruct (dl_secrets s !! (i, g)) as [y|] eqn:Hy.
      - destruct (Hw _ _ _ Hy) as (Hyi & Hyg & Hchk & _). destruct (retirable y) eqn:Hry.
        + specialize (Hret y (Hall _ _ Hy Hry)). unfold secret_key in Hret. rewrite Hyi, Hyg, Hx in Hret.
          by injection Hret as ->.
        + rewrite Hout, HS, Hy in Hx.
          * injection Hx as <-. by apply retirable_or_terminal.
          * intros Hk. apply in_map_iff in Hk as (z & Hz & Hzin). destruct (Hin _ Hzin) as [Hz' _].
            rewrite Hz in Hz'. assert (z = y) as -> by congruence.
            apply list_elem_of_In in Hzin. rewrite (merge_sort_Permutation secret_before) in Hzin.
            apply list_elem_of_In, filter_In in Hzin as [_ Hzin]. bool_prop. destruct Hzin. congruence.
      - pose proof (mv_back _ _ Hmv _ _ Hx) as Hb. rewrite HS, Hy in Hb. done. }
    constructor; cbn; [done|done|done|by intros g [?|?]|..].
    + intros g x Hx. specialize (Hterm _ _ Hx). split; (split; [|done]); intros Hst; exfalso;
        rewrite (state_not_terminal _ _ Hst) in Hterm; [done|set_solver|done|set_solver].
    + eauto.
Qed.

Lemma take_short {A} (l : list A) n : list_len (take n l) < Z.of_nat n -> take n l = l.
Proof.
  unfold list_len. intros Hl. apply take_ge. rewrite length_take in Hl. lia.
Qed.

Lemma through_retire_disabled seen clock now ids :
  holds_through (retire_one_disabled_owner_endpoint seen clock now ids).
Proof.
  unfold retire_one_disabled_owner_endpoint. destruct (disabled_owner_hint seen) as [hint|]; [|apply through_ret].
  apply through_txn. intros s s' a Hs. inv_d.
  match goal with Hx : lock_application_owners _ _ _ = _ |- _ => apply lock_owners_ok in Hx; subst end.
  match goal with Hx : lock_endpoint _ _ _ _ = _ |- _ => apply lock_endpoint_ok in Hx as [-> He] end.
  destruct (_ && _) in Hs; inv_d; [reflexivity|].
  intros M Hok. pose proof (point_key _ _ _ _ Hok He) as Hid. revert Hok.
  match goal with Hx : match ?o with Some _ => _ | None => _ end ?s1 = (?s2, Ok _) |- _ =>
    assert (s2 = s1) as -> by (destruct o; inv_d; done); clear Hx end.
  match goal with Hx : (if _ then mlift _ else _) ?s1 = (?s2, Ok _) |- _ =>
    assert (s2 = s1) as -> by (destruct (negb _) in Hx; inv_d; done); clear Hx end.
  match goal with Hx : (3 <? _) = false, Hr : retire_secrets _ _ _ _ _ _ ?l _ = _ |- _ =>
    unfold retirable_secrets in Hx, Hr; rewrite take_short in Hr by (bool_prop; lia) end.
  match goal with Hu : update_endpoint_row (endpoint_secrets ?st _ _ _ _ _) _ = _ |- _ =>
    assert (st = "disabled"%string) as Hst;
      [destruct (bool_decide (we_status _ = "disabled"%string)) eqn:Hb in |- *; cbn;
         [by apply bool_decide_eq_true in Hb|done]|rewrite Hst in Hu] end.
  rewrite Hid in *. eapply disable_keeps; [exact He|eassumption|reflexivity|eassumption].
Qed.

(** The overlapping secret of an endpoint retired and its pointer dropped. *)
Lemma drop_overlap_keeps s s1 s2 s' i e g x rev dis now id clock nb u u2 u3 :
  endpoints s !! i = Some e -> we_status e = "active"%string ->
  we_overlap_secret_generation e = Some g -> dl_secrets s !! (i, g) = Some x ->
  update_secret (secret_retired now x) s = (s1, Ok u) ->
  update_endpoint_row (endpoint_secrets (we_status e) rev dis (we_current_secret_generation e) now e) s1
    = (s2, Ok u2) ->
  enqueue_secret_cleanup id clock i g (ws_material_id x) now nb s2 = (s', Ok u3) -> keeps s s'.
Proof.
  intros He Hact Hg Hx Hu Hue Hq M Hok. pose proof Hok as (Hw & Heo & Hl).
  pose proof (point_key _ _ _ _ Hok He) as Hid. destruct (Hw _ _ _ Hx) as (Hxi & Hxg & _ & Hxp).
  pose proof (update_secret_ok _ _ _ _ Hu) as (_ & _ & _ & _ & _ & HE1).
  pose proof (update_endpoint_row_ok _ _ _ _ Hue) as (_ & _ & HS2 & HC2 & HD2 & HP2). cbn in HP2.
  pose proof (enqueue_ok _ _ _ _ _ _ _ _ _ _ Hq) as (_ & _ & HE3 & _).
  rewrite <- Hxi, <- Hxg in Hq. unfold secret_key in *.
  destruct (retire_moves s s1 s2 s' x now id clock now nb u u3) as (Hmv & HS & Hchk);
    [unfold secret_key; by rewrite Hxi, Hxg|done|done|done|done|done|].
  unfold secret_key in HS. rewrite Hxi, Hxg in HS. rewrite Hid in HP2.
  assert (HP : forall j, points s' j = if decide (j = i)
             then Some (mkPointers i "active" (we_current_secret_generation e) None) else points s j).
  { intros j. rewrite (points_same _ _ HE3), HP2. destruct (decide _); [|by rewrite (points_same _ _ HE1)].
    unfold pointers; cbn. by rewrite Hid, Hact. }
  split; [|split].
  - eapply wf_write; [exact Hchk|cbn; rewrite Hxi; exact Hxp|unfold secret_key; cbn; rewrite Hxi, Hxg; exact HS| |exact Hw].
    intros j Hj. rewrite HP. by destruct (decide _).
  - pose proof (Heo _ _ (endpoint_point _ _ _ He)) as [_ Ka _ Kt Ks _]. cbn in *.
    destruct (Ks _ _ Hx) as [_ Kx]. assert (Hxo : ws_state x = "overlap"%string) by (by apply Kx).
    apply only_endpoints with i s; [split| |done].
    + intros j Hj. rewrite HP. by destruct (decide _).
    + intros j h Hj. rewrite HS, lookup_insert_ne; [done|congruence].
    + intros p. rewrite HP. destruct (decide (i = i)); [|done]. intros [= <-].
      constructor; cbn; [done|auto|done|..|done].
      * intros h [Hh|?]; [|done]. rewrite HS. destruct (decide ((i, h) = (i, g))) as [->|Hne].
        -- by rewrite lookup_insert_eq.
        -- rewrite lookup_insert_ne by done. apply Kt. by left.
      * intros h y. rewrite HS. intros [[[= <-] <-]|[Hne Hy]]%lookup_insert_Some; cbn.
        -- destruct (Ks _ _ Hx) as [Kc _]. split; [|done]. split; [done|]. intros Hc. apply Kc in Hc. congruence.
        -- destruct (Ks _ _ Hy) as [Kc Ko]. split; [done|]. split; [|done]. intros Hst. apply Ko in Hst. congruence.
  - exact (moves_life _ _ _ Hmv Hl).
Qed.

Lemma through_retire_overlap seen clock now id :
  holds_through (retire_one_expired_overlap seen clock now id).
Proof.
  unfold retire_one_expired_overlap. destruct (expired_overlap_hint seen) as [hint|]; [|apply through_ret].
  apply through_txn. intros s s' a Hs. inv_d.
  match goal with Hx : lock_application_owners _ _ _ = _ |- _ => apply lock_owners_ok in Hx; subst end.
  match goal with Hx : lock_endpoint _ _ _ _ = _ |- _ => apply lock_endpoint_ok in Hx as [-> He] end.
  destruct (_ || _) eqn:Hskip in Hs; inv_d; [reflexivity|].
  apply orb_false_iff in Hskip as [Hact%negb_false_iff%bool_decide_eq_true _]. inv_ok.
  intros M Hok. pose proof (point_key _ _ _ _ Hok He) as Hid. rewrite Hid in *.
  match goal with Hg : we_overlap_secret_generation _ = Some ?g, Hx : dl_secrets _ !! _ = Some ?x |- _ =>
    assert (Hst : ws_state x = "overlap"%string);
    [destruct Hok as (_ & Heo & _);
     by apply (proj2 (ek_states _ _ _ (Heo _ _ (endpoint_point _ _ _ He)) _ _ Hx))|] end.
  rewrite Hst in *. rewrite bool_decide_true in * by done.
  eapply drop_overlap_keeps; [exact He|exact Hact|eassumption..|exact Hok].
Qed.

(** ** The worker's operations *)
Section worker_steps.
Context `{CanonicalHash} `{ProjectionCryptography} `{UrlLib} `{TimeFormat} `{JsonbText}.

Lemma through_claim draws w i now ls : holds_through (claim_one draws w i now ls).
Proof.
  unfold claim_one. destruct (_ || _); [apply through_fail|].
  apply through_seq; [apply through_retire_overlap|intros _].
  apply through_seq; [apply through_recover|intros _].
  apply through_txn. intros s s' a Hs. unfold claim_locked in Hs.
  destruct (find_claim_candidate _ _); [|injection Hs as <- _; reflexivity].
  inv_d. keep_view.
  match goal with Hl : lease_delivery _ _ _ _ _ _ _ _ _ = _ |- _ => apply lease_keeps in Hl; revert Hl end.
  intros Hl. match goal with Hx : match ?o with Some _ => _ | None => _ end _ = _ |- _ =>
    destruct o as [[row e]|] end; [|injection Hs as <- _; done].
  inv_d. done.
Qed.

Definition steady_ok {A : Type} (m : dtxn A) : Prop := forall s s' a, m s = (s', Ok a) -> steady s s'.

Lemma steady_seq {A B} (m : dtxn A) (k : A -> dtxn B) :
  steady_ok m -> (forall a, steady_ok (k a)) -> steady_ok (a <~ m ;; k a).
Proof. intros Hm Hk s s' b Hs. inv_d. etransitivity; [by eapply Hm|by eapply Hk]. Qed.
Lemma steady_ret {A} (a : A) : steady_ok (mret a).
Proof. intros s s' b [= <- _]. reflexivity. Qed.

Lemma steady_budget b n (k : Z -> dtxn Z) : (forall m, steady_ok (k m)) -> steady_ok (within_budget b n k).
Proof.
  intros Hk. unfold within_budget. destruct (_ <? _); [|apply steady_ret].
  apply steady_seq; [done|]. intros; apply steady_ret.
Qed.

Lemma steady_cancelled clock rows : steady_ok (update_deliveries (map (delivery_cancelled clock) rows)).
Proof.
  induction rows as [|d rows IH]; intros s s' u Hu; cbn in Hu; inv_d; [reflexivity|].
  etransitivity; [eapply update_delivery_steady; [|eassumption]; done|by eapply IH].
Qed.

Lemma steady_cancel clock locked n : steady_ok (cancel_deliveries clock locked n).
Proof. intros s s' r Hs. unfold cancel_deliveries in Hs. inv_d. by eapply steady_cancelled. Qed.

Lemma steady_delete_attempts clock n : steady_ok (delete_attempts clock n).
Proof. intros s s' r Hs. unfold delete_attempts in Hs. inv_d. by constructor. Qed.

Lemma fold_delete_some (l : list WebhookDeliveryRow) (D : gmap Z WebhookDeliveryRow) k d :
  fold_right (fun d t => delete (wd_id d) t) D l !! k = Some d -> D !! k = Some d.
Proof. induction l as [|x l IH]; cbn; [done|]. intros [_ Hd]%lookup_delete_Some. auto. Qed.

Lemma steady_delete_deliveries clock locked n : steady_ok (delete_deliveries clock locked n).
Proof.
  intros s s' r Hs. unfold delete_deliveries in Hs. inv_d. constructor; try done.
  cbn. intros k d Hd _. by eapply fold_delete_some.
Qed.

Lemma steady_delete_events clock locked n : steady_ok (delete_events clock locked n).
Proof. intros s s' r Hs. unfold delete_events in Hs. inv_d. by constructor. Qed.

Lemma through_maintain draws now b : holds_through (maintain draws now b).
Proof.
  unfold maintain. destruct (_ || _); [apply through_fail|].
  apply through_seq; [apply through_retire_disabled|intros disabled].
  apply through_seq.
  { unfold within_budget. destruct (_ <? _); [|apply through_ret].
    apply through_seq; [|intros; apply through_ret].
    apply through_seq; [apply through_retire_overlap|intros; apply through_ret]. }
  intros affected. apply through_seq; [apply through_recover|intros _].
  destruct (_ <=? _); [apply through_ret|]. apply through_txn. intros s s' a Hs. apply steady_keeps.
  revert s s' a Hs.
  apply steady_seq; [apply steady_cancel|intros cancelled].
  apply steady_seq; [apply steady_budget, steady_delete_attempts|intros a1].
  apply steady_seq; [|intros a2]; apply steady_budget; intros m;
    [apply steady_delete_deliveries|apply steady_delete_events].
Qed.

(** Claiming an erasure: the statement looked at the leases. *)
Lemma through_claim_cleanup w i clock ls locked :
  holds_through (claim_secret_cleanup w i clock ls locked).
Proof.
  unfold claim_secret_cleanup. destruct (_ || _); [apply through_fail|]. apply through_txn.
  intros s s' a Hs. inv_d. destruct (find_first _ _ _) as [c|] eqn:Hf; inv_d; [|reflexivity].
  apply find_first_some in Hf as (j & Hc & Hp). apply andb_true_iff in Hp as [[Hdue Hsafe]%andb_true_iff _].
  unfold update_cleanup in *. inv_d. intros M (Hw & He & [Lm Lo Lc Lr Le Lu Ll]).
  destruct (Lc _ _ Hc) as [Hj _]. rewrite <- Hj in Hc.
  split; [exact Hw|]. split.
  { intros k p Hp. apply endpoint_ok_same with s; [done|by apply He]. }
  constructor; [exact Lm|exact Lo|..|exact Ll]; cbn.
  - intros k q [[<- <-]|[_ Hq]]%lookup_insert_Some; cbn; [|by apply Lc]. split; [done|]. by apply Lc in Hc as [_ ?].
  - intros k g x Hx Ht. destruct (Lr _ _ _ Hx Ht) as (n & q & Hq & Hqe & Hqg).
    destruct (decide (n = wc_id c)) as [->|Hne].
    + eexists _, _. rewrite lookup_insert_eq. split; [done|]. cbn. by assert (q = c) as -> by congruence.
    + exists n, q. by rewrite lookup_insert_ne.
  - intros id m HM Hm Her. destruct (Le _ _ HM Hm Her) as (n & q & Hq & Hqm & Hqs). exists n, q.
    rewrite lookup_insert_ne; [done|]. intros <-. assert (q = c) as -> by congruence.
    unfold cleanup_due in Hdue. rewrite Hqs in Hdue. by rewrite andb_false_r in Hdue.
  - intros n q k d [[<- <-]|[_ Hq]]%lookup_insert_Some Hst Hd Hl Hqe; [|by eapply Lu].
    cbn in *. intros Hg. unfold cleanup_safe in Hsafe. apply andb_true_iff in Hsafe as [_ Hn%negb_true_iff].
    enough (true = false) by done. rewrite <- Hn. symmetry. apply existsb_exists. exists d. split.
    + apply in_map_iff. exists (k, d). split; [done|]. by apply list_elem_of_In, elem_of_map_to_list.
    + rewrite Hqe, Z.eqb_refl, Hl. cbn. apply orb_true_iff.
      destruct Hg as [Hg|Hg]; [left|right]; by apply bool_decide_eq_true.
Qed.
End worker_steps.
