(* ===== verification/WebhookControlProofs.v ===== *)
(** * Theorems on webhook endpoints

    The control commands keep the invariant of [WebhookSecrets], so that it holds
    through any interleaving of operators, workers, the outbox and the erasure of
    secrets; what it gives of the secrets in use, of revisions, registration,
    replay and the pages of history. *)
From S2P Require Import Prelude.
From S2P Require Import Json.
From S2P Require Import Lifecycle.
From S2P Require Import KeyProvider.
From S2P Require Import UrlValues.
From S2P Require Import WebhookTables.
From S2P Require Import Webhooks.
From S2P Require Import Database.
From S2P Require Import Projection.
From S2P Require Import WebhookOutbox.
From S2P Require Import SessionStore.
From S2P Require Import WebhookOutboxProofs.
From S2P Require Import WebhookDelivery.
From S2P Require Import WebhookDeliveryProofs.
From S2P Require Import Custody.
From S2P Require Import CustodyProofs.
From S2P Require Import WebhookSecrets.
From S2P Require Import WebhookControl.

(** ** Commands on the worker's tables *)
Lemma lock_active_endpoint_ok p a i s s' e :
  lock_active_endpoint p a i s = (s', Ok e) -> s' = s /\ endpoints s !! i = Some e.
Proof.
  unfold lock_active_endpoint. intros Hs. inv_d.
  match goal with Hx : lock_active_application _ _ _ = _ |- _ => apply lock_active_ok in Hx as -> end.
  by apply lock_endpoint_ok in Hs.
Qed.

Lemma write_secret_ok row s s' u :
  write_secret row s = (s', Ok u) ->
  webhook_secret_check row = true /\ is_some (dl_secrets s !! secret_key row) = true
  /\ dl_secrets s' = <[secret_key row := row]> (dl_secrets s) /\ dl_cleanups s' = dl_cleanups s
  /\ deliveries s' = deliveries s /\ endpoints s' = endpoints s.
Proof. unfold write_secret. intros Hs. inv_d. by apply update_secret_ok in Hs. Qed.

(** A secret rewritten without being retired. *)
Lemma rewrite_moves s s' x x' :
  dl_secrets s !! secret_key x = Some x -> secret_key x' = secret_key x ->
  ws_material_id x' = ws_material_id x -> provisioned x' = provisioned x ->
  terminal x = false -> terminal x' = false ->
  dl_secrets s' = <[secret_key x := x']> (dl_secrets s) -> dl_cleanups s' = dl_cleanups s ->
  deliveries s' = deliveries s -> moves s s'.
Proof.
  intros Hx Hk Hm Hp Ht Ht' HS HC HD. constructor; rewrite ?HC, ?HD, ?HS.
  - intros k y Hy. destruct (decide (k = secret_key x)) as [->|Hne].
    + rewrite lookup_insert_eq. assert (y = x) as -> by congruence. exists x'. rewrite Ht. done.
    + rewrite lookup_insert_ne by done. eauto.
  - intros k y [[<- _]|[_ Hy]]%lookup_insert_Some; [by rewrite Hx|by rewrite Hy].
  - intros i g y [[Heq <-]|[_ Hy]]%lookup_insert_Some Hty; [congruence|left; eauto].
  - done.
  - auto.
  - done.
Qed.

Lemma endpoint_row_moves row s s' u : update_endpoint_row row s = (s', Ok u) -> moves s s'.
Proof.
  intros (_ & _ & HS & HC & HD & _)%update_endpoint_row_ok.
  constructor; rewrite ?HS, ?HC, ?HD; [by eauto|intros k x' ->; done|intros; left; by eauto|auto..].
Qed.

Lemma status_update_keeps s s' row i e u :
  endpoints s !! i = Some e -> pointers row = pointers e -> update_endpoint_row row s = (s', Ok u) ->
  keeps s s'.
Proof.
  intros He Hp Hu M Hok. pose proof (point_key _ _ _ _ Hok He) as Hid.
  assert (Hrid : we_id row = we_id e) by (by injection Hp).
  eapply steady_keeps; [|exact Hok]. eapply update_endpoint_row_steady; [|exact Hu].
  rewrite Hp, Hrid, Hid. by apply endpoint_point.
Qed.

Lemma d_audit_keeps p a i c s s' u : d_audit p a i c s = (s', Ok u) -> keeps s s'.
Proof. intros Hs. by eapply steady_keeps, audit_steady. Qed.

Lemma record_test_keeps p a i r now c s s' e :
  record_test_locked p a i r now c s = (s', Ok e) -> keeps s s'.
Proof.
  unfold record_test_locked. intros Hs. inv_d.
  match goal with Hl : lock_active_endpoint _ _ _ _ = _ |- _ => apply lock_active_endpoint_ok in Hl as [-> He] end.
  etransitivity; [eapply status_update_keeps; [exact He| |eassumption]; done|by eapply d_audit_keeps].
Qed.

Lemma update_endpoint_keeps p a i command now c s s' e :
  update_endpoint_locked p a i command now c s = (s', Ok e) -> keeps s s'.
Proof.
  unfold update_endpoint_locked. intros Hs. inv_d.
  match goal with Hl : lock_active_endpoint _ _ _ _ = _ |- _ => apply lock_active_endpoint_ok in Hl as [-> He] end.
  etransitivity; [eapply status_update_keeps; [exact He| |eassumption]; done|by eapply d_audit_keeps].
Qed.

Lemma disable_endpoint_keeps ids clock p a i r now c s s' e :
  disable_endpoint_locked ids clock p a i r now c s = (s', Ok e) -> keeps s s'.
Proof.
  unfold disable_endpoint_locked. intros Hs. inv_d.
  match goal with Hx : lock_active_application _ _ _ = _ |- _ => apply lock_active_ok in Hx as -> end.
  match goal with Hx : lock_endpoint _ _ _ _ = _ |- _ => apply lock_endpoint_ok in Hx as [-> He] end.
  match goal with Hx : match ?o with Some _ => _ | None => _ end ?s1 = (?s2, Ok _) |- _ =>
    assert (s2 = s1) as -> by (destruct o; inv_d; done); clear Hx end.
  etransitivity; [|by eapply d_audit_keeps].
  eapply disable_keeps; [exact He|eassumption|reflexivity|eassumption].
Qed.

(** The first activation: the pending secret becomes the current one. *)
Lemma first_activation_keeps s s1 s' i e x rev now u u' :
  endpoints s !! i = Some e -> we_status e = "pending"%string ->
  dl_secrets s !! (i, 1) = Some x -> ws_state x = "pending"%string ->
  write_secret (secret_activated now x) s = (s1, Ok u) ->
  update_endpoint_row (endpoint_activated rev now e) s1 = (s', Ok u') -> keeps s s'.
Proof.
  intros He Hst Hx Hxs (Hchk & _ & HS1 & HC1 & HD1 & HE1)%write_secret_ok Hu M Hok.
  pose proof Hok as (Hw & Heo & Hl). pose proof (point_key _ _ _ _ Hok He) as Hid.
  destruct (Hw _ _ _ Hx) as (Hxi & Hxg & _ & Hxp).
  pose proof (update_endpoint_row_ok _ _ _ _ Hu) as (_ & _ & HS & _ & _ & HP). cbn in HP. rewrite Hid in HP.
  assert (HS' : dl_secrets s' = <[(i, 1) := secret_activated now x]> (dl_secrets s)).
  { rewrite HS, HS1. unfold secret_key; cbn. by rewrite Hxi, Hxg. }
  pose proof (Heo _ _ (endpoint_point _ _ _ He)) as [_ _ Ki _ Ks _]. cbn in Ki, Ks.
  destruct Ki as [Kc Ko]; [by rewrite Hst|].
  assert (HP' : forall j, points s' j = if decide (j = i)
            then Some (mkPointers i "active" (Some 1) None) else points s j).
  { intros j. rewrite HP. destruct (decide _); [|by rewrite (points_same _ _ HE1)].
    unfold pointers; cbn. by rewrite Hid, Ko. }
  split; [|split].
  - eapply wf_write; [exact Hchk|cbn; rewrite Hxi; exact Hxp| | |exact Hw].
    + unfold secret_key; cbn. rewrite Hxi, Hxg. exact HS'.
    + intros j Hj. rewrite HP'. by destruct (decide _).
  - apply only_endpoints with i s; [split| |done].
    + intros j Hj. rewrite HP'. by destruct (decide _).
    + intros j h Hj. rewrite HS', lookup_insert_ne; [done|congruence].
    + intros p. rewrite HP'. destruct (decide (i = i)); [|done]. intros [= <-].
      constructor; cbn; [done|done|done|..|done].
      * intros g [[= <-]|?]; [|done]. by rewrite HS', lookup_insert_eq.
      * intros g y. rewrite HS'. intros [[[= <-] <-]|[Hne Hy]]%lookup_insert_Some; cbn; [done|].
        destruct (Ks _ _ Hy) as [Kya Kyo]. rewrite Kc in Kya. rewrite Ko in Kyo.
        split; [|done]. split; [intros Hs; apply Kya in Hs; done|congruence].
  - refine (moves_life _ _ _ _ Hl). transitivity s1.
    + apply rewrite_moves with x (secret_activated now x); try done;
        [unfold secret_key; by rewrite Hxi, Hxg|].
      apply (state_not_terminal _ _ Hxs). set_solver.
    + by eapply endpoint_row_moves.
Qed.

Lemma activate_endpoint_keeps p a i r now c s s' e :
  activate_endpoint_locked p a i r now c s = (s', Ok e) -> keeps s s'.
Proof.
  unfold activate_endpoint_locked. intros Hs. inv_d.
  match goal with Hl : lock_active_endpoint _ _ _ _ = _ |- _ => apply lock_active_endpoint_ok in Hl as [-> He] end.
  destruct (is_active _); [destruct (_ =? _); inv_d; reflexivity|]. inv_d. inv_ok.
  etransitivity; [|by eapply d_audit_keeps].
  eapply first_activation_keeps; [exact He| |eassumption| |eassumption|eassumption].
  - match goal with Hst : endpoint_status _ = Ok ?st, Hc : negb (Endpoint.WebhookEndpointStatus_can_activate ?st) = false |- _ =>
      unfold endpoint_status, of_domain in Hst; apply map_err_ok in Hst; unfold Endpoint.WebhookEndpointStatus_parse in Hst;
      repeat case_bool_decide; simplify_eq; done end.
  - match goal with Hb : negb (bool_decide (ws_state _ = _)) || _ = false |- _ =>
      apply orb_false_iff in Hb as [Hb%negb_false_iff%bool_decide_eq_true _] end. done.
Qed.

(** The earlier overlap is retired when there is one. *)
Lemma previous_overlap_moves id clock now i e s s' u M :
  keys_ok s M -> endpoints s !! i = Some e ->
  retire_previous_overlap id clock now e s = (s', Ok u) ->
  moves s s' /\ endpoints s' = endpoints s /\ secrets_wf s'
  /\ (we_overlap_secret_generation e = None /\ s' = s
      \/ exists g x, we_overlap_secret_generation e = Some g /\ dl_secrets s !! (i, g) = Some x
           /\ dl_secrets s' = <[(i, g) := secret_retired now x]> (dl_secrets s)).
Proof.
  intros Hok He Hs. pose proof Hok as (Hw & _ & _). pose proof (point_key _ _ _ _ Hok He) as Hid.
  unfold retire_previous_overlap in Hs. destruct (we_overlap_secret_generation e) as [g|] eqn:Hg; inv_d.
  - inv_ok. match goal with Hx : dl_secrets s !! _ = Some ?x, Hu : update_secret _ _ = (?s1, Ok _),
      Hq : enqueue_secret_cleanup _ _ _ _ _ _ _ _ = _ |- _ =>
      rename Hx into Hsec; rename Hu into Hupd; rename x into old; rename s1 into s1' end.
    rewrite Hid in Hsec. destruct (Hw _ _ _ Hsec) as (Hxi & Hxg & _ & Hxp).
    pose proof (update_secret_ok _ _ _ _ Hupd) as (_ & _ & _ & _ & _ & HE1).
    pose proof (enqueue_ok _ _ _ _ _ _ _ _ _ _ Hs) as (_ & _ & HE2 & _).
    rewrite Hid, <- Hxi in Hs.
    edestruct (retire_moves s s1' s1' s' old now) as (Hmv & HS & Hchk);
      [unfold secret_key; by rewrite Hxi, Hxg|exact Hupd|done|done|done|exact Hs|].
    split; [done|]. split; [congruence|]. split.
    + eapply wf_write; [exact Hchk|cbn; rewrite Hxi; exact Hxp|exact HS| |exact Hw].
      intros j. rewrite (points_same s s'); [done|congruence].
    + right. exists g, old. split; [done|]. split; [done|]. unfold secret_key in HS. by rewrite Hxi, Hxg in HS.
  - split; [reflexivity|]. split; [done|]. split; [done|]. by left.
Qed.

(** Rotation: the current secret overlaps, the pending one becomes current. *)
Lemma rotation_keeps s s1 s2 s3 s' i e g cur old new id clock now until rev u1 u2 u3 u4 :
  endpoints s !! i = Some e -> we_status e = "active"%string ->
  we_current_secret_generation e = Some cur ->
  dl_secrets s !! (i, g) = Some new -> ws_state new = "pending"%string ->
  dl_secrets s !! (i, cur) = Some old -> ws_state old = "active"%string ->
  retire_previous_overlap id clock now e s = (s1, Ok u1) ->
  write_secret (secret_overlapping old) s1 = (s2, Ok u2) ->
  write_secret (secret_activated now new) s2 = (s3, Ok u3) ->
  update_endpoint_row (endpoint_rotated rev g cur until now e) s3 = (s', Ok u4) -> keeps s s'.
Proof.
  intros He Hact Hcur Hnew Hnst Hold Host Hprev Hw2 Hw3 Hu M Hok.
  pose proof Hok as (Hw & Heo & Hl). pose proof (point_key _ _ _ _ Hok He) as Hid.
  destruct (previous_overlap_moves _ _ _ _ _ _ _ _ _ Hok He Hprev) as (Hmv1 & HE1 & Hwf1 & Hcase).
  destruct (Hw _ _ _ Hnew) as (Hni & Hng & _ & Hnp). destruct (Hw _ _ _ Hold) as (Hoi & Hog & _ & Hop).
  pose proof (write_secret_ok _ _ _ _ Hw2) as (Hchk2 & _ & HS2 & HC2 & HD2 & HE2).
  pose proof (write_secret_ok _ _ _ _ Hw3) as (Hchk3 & _ & HS3 & HC3 & HD3 & HE3).
  pose proof (update_endpoint_row_ok _ _ _ _ Hu) as (_ & _ & HS & _ & _ & HP). cbn in HP. rewrite Hid in HP.
  change (secret_key (secret_overlapping old)) with (secret_key old) in HS2.
  change (secret_key (secret_activated now new)) with (secret_key new) in HS3.
  assert (Kold : secret_key old = (i, cur)) by (unfold secret_key; congruence).
  assert (Knew : secret_key new = (i, g)) by (unfold secret_key; congruence).
  rewrite Kold in HS2. rewrite Knew in HS3.
  pose proof (Heo _ _ (endpoint_point _ _ _ He)) as [_ _ _ _ Ks _]. cbn in Ks.
  assert (Hgc : g <> cur) by (intros ->; congruence).
  (** the first secrets are still what they were *)
  assert (Hkeep1 : forall h y, dl_secrets s !! (i, h) = Some y ->
            ws_state y = "active"%string \/ ws_state y = "pending"%string ->
            dl_secrets s1 !! (i, h) = Some y).
  { intros h y Hy Hst. destruct Hcase as [[_ ->]|(o & x & Ho & Hx & ->)]; [done|].
    rewrite lookup_insert_ne; [done|]. intros [= <-]. destruct (Ks _ _ Hx) as [_ Kx].
    rewrite Ho in Kx. assert (ws_state x = "overlap"%string) by (by apply Kx).
    assert (y = x) as -> by congruence. destruct Hst; congruence. }
  assert (Hold1 : dl_secrets s1 !! (i, cur) = Some old) by auto.
  assert (Hnew2 : dl_secrets s2 !! (i, g) = Some new).
  { rewrite HS2, lookup_insert_ne by congruence. auto. }
  assert (HP' : forall j, points s' j = if decide (j = i)
            then Some (mkPointers i "active" (Some g) (Some cur)) else points s j).
  { intros j. rewrite HP. destruct (decide _).
    - unfold pointers; cbn. by rewrite Hid, Hact.
    - rewrite (points_same s s3); [done|congruence]. }
  assert (Hsome : forall j, is_some (points s j) = true -> is_some (points s' j) = true).
  { intros j Hj. rewrite HP'. by destruct (decide _). }
  split; [|split].
  - assert (Hw2' : secrets_wf s2).
    { eapply wf_write; [exact Hchk2| |unfold secret_key; cbn; rewrite Hoi, Hog; exact HS2| |exact Hwf1];
        cbn; rewrite ?Hoi; [rewrite (points_same s s1); [exact Hop|congruence]|].
      intros j. rewrite (points_same s1 s2); [done|congruence]. }
    assert (Hw3' : secrets_wf s3).
    { eapply wf_write; [exact Hchk3| |unfold secret_key; cbn; rewrite Hni, Hng; exact HS3| |exact Hw2'];
        cbn; rewrite ?Hni; [rewrite (points_same s s2); [exact Hnp|congruence]|].
      intros j. rewrite (points_same s2 s3); [done|congruence]. }
    eapply wf_same; [exact HS| |exact Hw3']. intros j. rewrite (points_same s s3); [apply Hsome|congruence].
  - apply only_endpoints with i s; [split| |done].
    + intros j Hj. rewrite HP'. by destruct (decide _).
    + intros j h Hj. rewrite HS, HS3, lookup_insert_ne, HS2, lookup_insert_ne by congruence.
      destruct Hcase as [[_ ->]|(o & x & _ & _ & ->)]; [done|]. rewrite lookup_insert_ne by congruence. done.
    + intros p. rewrite HP'. destruct (decide (i = i)); [|done]. intros [= <-].
      constructor; cbn; [done|done|done|..|done].
      * intros h [[= <-]|[= <-]]; rewrite HS, HS3; [by rewrite lookup_insert_eq|].
        rewrite lookup_insert_ne by congruence. by rewrite HS2, lookup_insert_eq.
      * intros h y. rewrite HS, HS3. intros [[[= <-] <-]|[Hn1 Hy]]%lookup_insert_Some; cbn.
        { split; [done|]. split; [done|]. congruence. }
        rewrite HS2 in Hy. apply lookup_insert_Some in Hy as [[[= <-] <-]|[Hn2 Hy]]; cbn.
        { split; [|done]. split; [done|congruence]. }
        assert (Hrest : ws_state y <> "active"%string /\ ws_state y <> "overlap"%string).
        { destruct Hcase as [[Ho ->]|(o & x & Ho & Hx & HSx)].
          - destruct (Ks _ _ Hy) as [Ka Kv]. rewrite Hcur in Ka. rewrite Ho in Kv.
            split; intros Hst; [apply Ka in Hst|apply Kv in Hst]; congruence.
          - rewrite HSx in Hy. apply lookup_insert_Some in Hy as [[[= <-] <-]|[Hn3 Hy]]; [done|].
            destruct (Ks _ _ Hy) as [Ka Kv]. rewrite Hcur in Ka. rewrite Ho in Kv.
            split; intros Hst; [apply Ka in Hst|apply Kv in Hst]; congruence. }
        split; (split; [tauto|intros; exfalso; congruence]).
  - refine (moves_life _ _ _ _ Hl). transitivity s1; [done|]. transitivity s2; [|transitivity s3].
    + apply rewrite_moves with old (secret_overlapping old); rewrite ?Kold; try done.
      apply (state_not_terminal _ _ Host). set_solver.
    + apply rewrite_moves with new (secret_activated now new); rewrite ?Knew; try done.
      apply (state_not_terminal _ _ Hnst). set_solver.
    + by eapply endpoint_row_moves.
Qed.

Lemma activate_rotation_keeps id clock now p a i g r o c s s' e :
  activate_rotation_locked id clock now p a i g r o c s = (s', Ok e) -> keeps s s'.
Proof.
  unfold activate_rotation_locked. intros Hs. inv_d.
  match goal with Hl : lock_active_endpoint _ _ _ _ = _ |- _ => apply lock_active_endpoint_ok in Hl as [-> He] end.
  inv_ok. match goal with Ha : negb (is_active (we_status _)) = false |- _ =>
    apply negb_false_iff, bool_decide_eq_true in Ha as Hact end.
  destruct (_ =? _) in Hs; [destruct (_ =? _) in Hs; inv_d; reflexivity|]. inv_d. inv_ok.
  match goal with Hb : negb (bool_decide (ws_state _ = _)) || _ = false |- _ =>
    apply orb_false_iff in Hb as [Hb%negb_false_iff%bool_decide_eq_true _] end.
  match goal with Ha : negb (is_active (ws_state _)) = false |- _ =>
    apply negb_false_iff, bool_decide_eq_true in Ha end.
  etransitivity; [|by eapply d_audit_keeps].
  eapply rotation_keeps; [exact He|exact Hact|eassumption..].
Qed.

Lemma replay_keeps id clock p a d hint now c s s' r :
  replay_locked id clock p a d hint now c s = (s', Ok r) -> keeps s s'.
Proof.
  unfold replay_locked. intros Hs. inv_d. keep_view.
  apply steady_keeps. etransitivity; [by eapply dispatch_steady|].
  etransitivity; [eapply insert_delivery_steady; [|eassumption]; done|by eapply audit_steady].
Qed.

(** ** Commands on both stores *)
Definition webhook_ok (s : ControlStore) : Prop :=
  keys_ok (ct_delivery s) (x_materials s) /\ custody_ok (ct_custody s).

Lemma on_delivery_ok {A} (m : dtxn A) s s' a :
  on_delivery m s = (s', Ok a) ->
  m (ct_delivery s) = (ct_delivery s', Ok a) /\ ct_custody s' = ct_custody s.
Proof. unfold on_delivery. destruct (m _) as [d r]. by intros [= <- ->]. Qed.

Lemma on_custody_ok {A} (m : ctxn A) s s' a :
  on_custody m s = (s', Ok a) ->
  m (ct_custody s) = (ct_custody s', Ok a) /\ ct_delivery s' = ct_delivery s.
Proof. unfold on_custody. destruct (m _) as [c r]. by intros [= <- ->]. Qed.

Lemma x_check_ok c e s s' u : x_check c e s = (s', Ok u) -> c = true /\ s' = s.
Proof. unfold x_check. destruct c; [|done]. intros [= <-]. done. Qed.

Lemma commit_material_ok oo id s s' u : commit_material oo id s = (s', Ok u) -> s' = s.
Proof. unfold commit_material. intros Hs. inv_txn. by apply x_check_ok in Hs as [_ ->]. Qed.

Lemma on_delivery_keeps {A} (m : dtxn A) s s' a :
  (forall d d' b, m d = (d', Ok b) -> keeps d d') -> on_delivery m s = (s', Ok a) ->
  webhook_ok s -> webhook_ok s'.
Proof.
  intros Hm [Hd Hc]%on_delivery_ok [Hk Hok]. unfold webhook_ok, x_materials. rewrite Hc.
  split; [|done]. by eapply Hm.
Qed.

Lemma audit_keeps p a k t c s s' u : audit p a k t c s = (s', Ok u) -> webhook_ok s -> webhook_ok s'.
Proof. apply on_delivery_keeps. intros d d' b Hd. by eapply steady_keeps, audit_steady. Qed.

(** Materials that moved. *)
Lemma life_materials d M M' id m m' :
  life_ok d M -> M !! id = Some m -> M' = <[id := m']> M -> material_moves m m' ->
  (is_erased m' = true -> webhook_material m -> is_erased m = false ->
     exists j c, dl_cleanups d !! j = Some c /\ wc_material_id c = id /\ wc_state c = "erased"%string) ->
  life_ok d M'.
Proof.
  intros [Lm Lo Lc Lr Le Lu Ll] Hm -> (Hi & Hr & _) Her.
  assert (Hid : pm_owner_kind m' = pm_owner_kind m /\ pm_owner_id m' = pm_owner_id m
                /\ pm_generation m' = pm_generation m).
  { unfold material_identity in Hi. by injection Hi. }
  destruct Hid as (Hk & Ho & Hg). constructor; [| |exact Lc|exact Lr| |exact Lu|exact Ll].
  - intros i g x Hx. destruct (Lm _ _ _ Hx) as (y & Hy & (Hw & Hyo & Hyg) & Hp).
    destruct (decide (ws_material_id x = id)) as [Heq|Hne].
    + rewrite Heq, lookup_insert_eq. exists m'. split; [done|].
      assert (y = m) as -> by congruence. unfold owned_by, webhook_material in *.
      split; [split_and!; congruence|]. intros Hpx. specialize (Hp Hpx). lia.
    + rewrite lookup_insert_ne by done. exists y. done.
  - intros k y [[<- <-]|[_ Hy]]%lookup_insert_Some Hw; [|by apply Lo].
    rewrite Ho, Hg. apply Lo; [done|]. unfold webhook_material in *. congruence.
  - intros k y [[<- <-]|[_ Hy]]%lookup_insert_Some Hw Hey; [|by eapply Le].
    assert (Hwm : webhook_material m) by (unfold webhook_material in *; congruence).
    destruct (is_erased m) eqn:Hem; [by eapply Le|auto].
Qed.

(** A new endpoint. *)
Lemma insert_endpoint_ok row s s' u :
  insert_endpoint row s = (s', Ok u) ->
  endpoints s !! we_id row = None /\ webhook_endpoint_check row = true
  /\ dl_secrets s' = dl_secrets s /\ dl_cleanups s' = dl_cleanups s /\ deliveries s' = deliveries s
  /\ endpoints s' = <[we_id row := row]> (endpoints s).
Proof.
  unfold insert_endpoint. intros Hs. inv_d. bool_prop. split; [|tauto].
  destruct (endpoints s !! we_id row); naive_solver.
Qed.

Lemma new_endpoint_keeps i p a command now s s' u :
  insert_endpoint (new_endpoint i p a command now) s = (s', Ok u) -> keeps s s'.
Proof.
  intros (Hn & _ & HS & HC & HD & HE)%insert_endpoint_ok M (Hw & Heo & Hl). cbn in Hn, HE.
  assert (HP : forall j, points s' j = if decide (j = i) then Some (mkPointers i "pending" None None)
                                       else points s j).
  { intros j. rewrite (points_insert s s' j (new_endpoint i p a command now)) by done. done. }
  assert (Hnone : points s i = None) by (unfold points; by rewrite Hn).
  assert (Hfree : forall g, dl_secrets s !! (i, g) = None).
  { intros g. destruct (dl_secrets s !! (i, g)) as [x|] eqn:Hx; [|done].
    destruct (Hw _ _ _ Hx) as (_ & _ & _ & Hp). by rewrite Hnone in Hp. }
  split; [|split].
  - eapply wf_same; [exact HS| |exact Hw]. intros j Hj. rewrite HP. by destruct (decide _).
  - apply only_endpoints with i s; [split| |done].
    + intros j Hj. rewrite HP. by destruct (decide _).
    + intros j g _. by rewrite HS.
    + intros q. rewrite HP. destruct (decide (i = i)); [|done]. intros [= <-].
      constructor; cbn; [done|done|done|by intros g [?|?]|..|done].
      intros g x. rewrite HS, Hfree. done.
  - refine (moves_life _ _ _ _ Hl).
    constructor; rewrite ?HS, ?HC, ?HD; [by eauto|intros k x' ->; done|intros; left; by eauto|auto..].
Qed.

(** A new pending secret with its reserved material. *)
Lemma insert_secret_ok row s s' u :
  insert_secret row s = (s', Ok u) ->
  dl_secrets s !! secret_key row = None /\ webhook_secret_check row = true
  /\ is_some (endpoints s !! ws_endpoint_id row) = true
  /\ dl_secrets s' = <[secret_key row := row]> (dl_secrets s) /\ dl_cleanups s' = dl_cleanups s
  /\ deliveries s' = deliveries s /\ endpoints s' = endpoints s.
Proof.
  unfold insert_secret. intros Hs. inv_d. bool_prop. split; [|tauto].
  unfold secret_key. destruct (dl_secrets s !! _); naive_solver.
Qed.

Lemma reserved_owner p i g m :
  reserved_by p Owner.WebhookSecret i g m = true -> owned_by m i g.
Proof. unfold reserved_by, owned_by, webhook_material. cbn. intros. bool_prop. tauto. Qed.

Lemma new_secret_life d d' M M' i g mid row x :
  life_ok d M -> M !! mid = None -> M' = <[mid := row]> M -> owned_by row i g ->
  pm_state row = "pending"%string -> dl_secrets d !! (i, g) = None ->
  dl_secrets d' = <[(i, g) := x]> (dl_secrets d) -> ws_material_id x = mid -> provisioned x = false ->
  terminal x = false -> dl_cleanups d' = dl_cleanups d -> deliveries d' = deliveries d -> life_ok d' M'.
Proof.
  intros [Lm Lo Lc Lr Le Lu Ll] Hn -> (Hw & Hoi & Hog) Hst Hnone HS Hxm Hxp Hxt HC HD.
  assert (Hgrow : forall k y, dl_secrets d !! k = Some y -> dl_secrets d' !! k = Some y).
  { intros k y Hy. rewrite HS, lookup_insert_ne; [done|congruence]. }
  constructor; rewrite ?HC, ?HD.
  - intros j h y. rewrite HS. intros [[[= <- <-] <-]|[_ Hy]]%lookup_insert_Some.
    + rewrite Hxm, lookup_insert_eq. exists row. rewrite Hxp. done.
    + destruct (Lm _ _ _ Hy) as (m & Hm & ?). exists m. rewrite lookup_insert_ne; [done|congruence].
  - intros k m [[<- <-]|[_ Hm]]%lookup_insert_Some Hwm.
    + exists x. rewrite Hoi, Hog, HS, lookup_insert_eq. done.
    + destruct (Lo _ _ Hm Hwm) as (y & Hy & ?). eauto.
  - intros j c Hc. destruct (Lc _ _ Hc) as (Hj & y & Hy & ?). eauto.
  - intros j h y. rewrite HS. intros [[_ <-]|[_ Hy]]%lookup_insert_Some Ht; [congruence|by eapply Lr].
  - intros k m [[_ <-]|[_ Hm]]%lookup_insert_Some Hwm Her; [|by eapply Le].
    unfold is_erased in Her. by rewrite Hst in Her.
  - exact Lu.
  - intros k y Hy Hl. destruct (Ll _ _ Hy Hl) as (H0 & H1 & H2). split; [done|].
    assert (Hh : forall h m, holds d y h m -> holds d' y h m).
    { intros [h|] m; unfold holds; [|done]. intros (z & Hz & ?). eauto. }
    auto.
Qed.

Lemma new_secret_endpoints d d' i g x p :
  secrets_wf d -> endpoints_ok d -> points d i = Some p -> pt_status p <> "disabled"%string ->
  dl_secrets d !! (i, g) = None -> dl_secrets d' = <[(i, g) := x]> (dl_secrets d) ->
  ws_state x = "pending"%string -> endpoints d' = endpoints d -> endpoints_ok d'.
Proof.
  intros Hw Heo Hp Hst Hnone HS Hxs HE. pose proof (points_same _ _ HE) as HP.
  apply only_endpoints with i d; [split| |done].
  - intros j _. apply HP.
  - intros j h Hj. rewrite HS, lookup_insert_ne; [done|congruence].
  - intros q. rewrite HP, Hp. intros [= <-]. pose proof (Heo _ _ Hp) as [K1 K2 K3 K4 K5 K6].
    constructor; [done|done|done|..].
    + intros h Hh. apply K4 in Hh. rewrite HS. destruct (decide ((i, g) = (i, h))) as [->|Hne];
        [by rewrite lookup_insert_eq|by rewrite lookup_insert_ne].
    + intros h y. rewrite HS. intros [[[= <-] <-]|[_ Hy]]%lookup_insert_Some; [|auto]. rewrite Hxs.
      split; (split; [done|]); intros Hh; exfalso;
        assert (Hs : is_some (dl_secrets d !! (i, g)) = true) by auto; by rewrite Hnone in Hs.
    + intros h y Hd. done.
Qed.

Section commands.
Context `{CanonicalHash} `{WebhookIo} (other_owner : ProtectedMaterialRow -> bool).

Lemma reserve_secret_keeps custody clock now p i g mid key fp s s' mat pt :
  reserve_secret custody clock now p i g mid key fp s = (s', Ok mat) ->
  points (ct_delivery s) i = Some pt -> pt_status pt <> "disabled"%string ->
  webhook_ok s -> webhook_ok s'.
Proof.
  unfold reserve_secret. intros Hs Hp Hst [(Hw & Heo & Hl) Hc]. inv_txn.
  match goal with Hr : on_custody _ _ = (?s1, Ok _), Hi : on_delivery _ ?s1 = (_, Ok _) |- _ =>
    apply on_custody_ok in Hr as [Hr Hd1]; apply on_delivery_ok in Hi as [Hi Hc2]; rename s1 into t end.
  unfold reserve_project_in_transaction in *.
  match goal with Hr : reserve_in_transaction _ _ _ _ _ _ _ _ _ _ _ _ _ = _ |- _ =>
    pose proof (reserve_step _ _ _ _ _ _ _ _ _ _ _ _ _ _ _ Hr Hc) as [Hc' _];
    apply reserve_effect in Hr as Heff end.
  match goal with Hi : insert_secret _ _ = _ |- _ =>
    apply insert_secret_ok in Hi as (Hnone & Hchk & _ & HS & HC & HD & HE) end.
  rewrite Hd1 in *. change (secret_key (pending_secret i g key fp mid now)) with (i, g) in *.
  destruct Heff as [(k & m & Hm & Hby)|(row & Hn & HM & Hby & Hrow)].
  - exfalso. apply reserved_owner in Hby as (Hwm & Hoi & Hog).
    destruct (lf_owned _ _ Hl _ _ Hm Hwm) as (y & Hy & _). rewrite Hoi, Hog in Hy. congruence.
  - apply reserved_owner in Hby. split; [|by rewrite Hc2]. unfold x_materials. rewrite Hc2.
    split; [|split].
    + eapply wf_write; [exact Hchk|cbn; by rewrite Hp|exact HS| |exact Hw].
      intros j. by rewrite (points_same _ _ HE).
    + eapply new_secret_endpoints; [exact Hw|exact Heo|exact Hp|exact Hst|exact Hnone|exact HS|done|exact HE].
    + eapply new_secret_life; [exact Hl|exact Hn|exact HM|exact Hby|exact Hrow|exact Hnone|exact HS|done..].
Qed.

(** ** Registration *)
Lemma register_keeps custody clock i mid p a command now c s s' r :
  register_endpoint other_owner custody clock i mid p a command now c s = (s', Ok r) ->
  webhook_ok s -> webhook_ok s'.
Proof.
  unfold register_endpoint. intros Hs Hok. inv_txn.
  match goal with Hx : commit_material _ _ _ = _ |- _ => apply commit_material_ok in Hx as -> end.
  eapply audit_keeps; [eassumption|]. eapply reserve_secret_keeps; [eassumption| | |].
  3:{ eapply on_delivery_keeps; [|eassumption|exact Hok]. intros d d' b Hd. by eapply new_endpoint_keeps. }
  - match goal with Hi : on_delivery (insert_endpoint _) _ = _ |- _ =>
      apply on_delivery_ok in Hi as [Hi _]; apply insert_endpoint_ok in Hi as (_ & _ & _ & _ & _ & HE) end.
    unfold points. rewrite HE. cbn. rewrite lookup_insert_eq. reflexivity.
  - done.
Qed.

Lemma existing_endpoint_same custody seen p e s s' r :
  existing_endpoint custody seen p e s = (s', Ok r) -> s' = s.
Proof. unfold existing_endpoint. intros Hs. by inv_txn. Qed.

Lemma prepare_endpoint_keeps custody seen clock i mid p a command now c s s' r :
  prepare_endpoint_locked other_owner custody seen clock i mid p a command now c s = (s', Ok r) ->
  webhook_ok s -> webhook_ok s'.
Proof.
  unfold prepare_endpoint_locked. intros Hs Hok. inv_txn.
  match goal with Hl : on_delivery (lock_active_application _ _) _ = _ |- _ =>
    pose proof (on_delivery_keeps _ _ _ _ (fun d d' b Hd M Hk =>
      eq_ind_r (fun x => keys_ok x M) Hk (lock_active_ok _ _ _ _ _ Hd)) Hl Hok) as Hok1 end.
  destruct (find_one _ _) as [e|]; inv_txn.
  - apply existing_endpoint_same in Hs. by subst.
  - destruct (find_one _ _) as [e|]; inv_txn.
    + apply existing_endpoint_same in Hs. by subst.
    + by eapply register_keeps.
Qed.

(** ** Rotation *)
Lemma abandon_keeps id clock now i x s s' u e :
  dl_secrets s !! secret_key x = Some x -> ws_endpoint_id x = i -> ws_state x = "pending"%string ->
  endpoints s !! i = Some e ->
  abandon_pending id clock now i x s = (s', Ok u) ->
  keeps s s' /\ endpoints s' = endpoints s.
Proof.
  unfold abandon_pending. intros Hx Hxi Hxs He Hs. inv_d.
  match goal with Hu : update_secret _ _ = (?s1, Ok _) |- _ =>
    pose proof (update_secret_ok _ _ _ _ Hu) as (_ & _ & _ & _ & _ & HE1); rename Hu into Hupd; rename s1 into t end.
  pose proof (enqueue_ok _ _ _ _ _ _ _ _ _ _ Hs) as (_ & _ & HE2 & _). rewrite <- Hxi in Hs.
  edestruct (retire_moves s t t s' x now) as (Hmv & HS & Hchk); [done|exact Hupd|done..|exact Hs|].
  assert (HE : endpoints s' = endpoints s) by congruence. split; [|done].
  intros M (Hw & Heo & Hl). pose proof (points_same _ _ HE) as HP. split; [|split].
  - eapply wf_write; [exact Hchk| |exact HS|intros j; by rewrite HP|exact Hw].
    cbn. rewrite Hxi. by rewrite (endpoint_point _ _ _ He).
  - apply only_endpoints with i s; [split| |done].
    + intros j _. apply HP.
    + intros j h Hj. rewrite HS, lookup_insert_ne; [done|]. unfold secret_key. congruence.
    + intros q. rewrite HP. intros Hq. pose proof (Heo _ _ Hq) as [K1 K2 K3 K4 K5 K6].
      constructor; [done|done|done|..].
      * intros h Hh. apply K4 in Hh. rewrite HS. destruct (decide (secret_key x = (i, h))) as [->|Hne];
          [by rewrite lookup_insert_eq|by rewrite lookup_insert_ne].
      * intros h y. rewrite HS. intros [[Hk <-]|[_ Hy]]%lookup_insert_Some; [|auto]. cbn.
        rewrite Hk in Hx. destruct (K5 _ _ Hx) as [Ka Ko].
        split; (split; [done|]); intros Hh; [apply Ka in Hh|apply Ko in Hh]; congruence.
      * intros h y Hd. rewrite HS. intros [[_ <-]|[_ Hy]]%lookup_insert_Some; [done|by eapply K6].
  - exact (moves_life _ _ _ Hmv Hl).
Qed.

Lemma endpoint_secret_some s i p x :
  secrets_wf s -> endpoint_secret s i p = Some x ->
  dl_secrets s !! secret_key x = Some x /\ ws_endpoint_id x = i /\ p x = true.
Proof.
  intros Hw Hf. unfold endpoint_secret in Hf. apply find_some in Hf as [Hin Hp].
  apply in_map_iff in Hin as ([[j g] y] & Hy & Hin). cbn in Hy. subst y.
  apply list_elem_of_In, elem_of_map_to_list in Hin. destruct (Hw _ _ _ Hin) as (Hj & Hg & _).
  unfold secret_key. rewrite Hj, Hg. bool_prop. split; [done|]. split; [|tauto]. destruct Hp. congruence.
Qed.

Lemma new_rotation_keeps custody id mid clock p i e pending command now c s s' r :
  endpoints (ct_delivery s) !! i = Some e -> we_status e = "active"%string ->
  (forall x, pending = Some x -> dl_secrets (ct_delivery s) !! secret_key x = Some x
     /\ ws_endpoint_id x = i /\ ws_state x = "pending"%string) ->
  new_rotation other_owner custody id mid clock p e pending command now c s = (s', Ok r) ->
  webhook_ok s -> webhook_ok s'.
Proof.
  unfold new_rotation. intros He Hact Hpend Hs Hok. pose proof (point_key _ _ _ _ (proj1 Hok) He) as Hid.
  subst i. inv_txn.
  match goal with Hx : commit_material _ _ _ = _ |- _ => apply commit_material_ok in Hx as -> end.
  eapply audit_keeps; [eassumption|].
  match goal with Hm : match pending with Some _ => _ | None => _ end s = (?t, Ok _) |- _ =>
    assert (Ht : webhook_ok t /\ points (ct_delivery t) (we_id e) = Some (pointers e)) end.
  { destruct pending as [y|]; inv_txn; [|split; [done|by apply endpoint_point]].
    destruct (Hpend _ eq_refl) as (Hx & Hxi & Hxs). unfold webhook_ok, x_materials.
    match goal with Hd : on_delivery (abandon_pending _ _ _ _ _) _ = _ |- _ =>
      apply on_delivery_ok in Hd as [Hd Hcc];
      destruct (abandon_keeps _ _ _ _ _ _ _ _ _ Hx Hxi Hxs He Hd) as [Hk HE] end. rewrite Hcc.
    split; [split; [apply Hk, Hok|apply Hok]|]. rewrite (points_same _ _ HE). by apply endpoint_point. }
  destruct Ht as [Htok Htp]. eapply reserve_secret_keeps; [eassumption|exact Htp| |exact Htok].
  cbn. by rewrite Hact.
Qed.

Lemma prepare_rotation_keeps custody seen id mid clock p a i command now c s s' r :
  prepare_rotation_locked other_owner custody seen id mid clock p a i command now c s = (s', Ok r) ->
  webhook_ok s -> webhook_ok s'.
Proof.
  unfold prepare_rotation_locked. intros Hs Hok. inv_txn.
  match goal with Hl : on_delivery (lock_active_endpoint _ _ _) s = (?t, Ok _) |- _ =>
    apply on_delivery_ok in Hl as [Hl Hc]; apply lock_active_endpoint_ok in Hl as [Hd He];
    assert (t = s) as -> by (destruct t, s; cbn in *; congruence) end.
  match goal with Ha : negb (is_active (we_status _)) = false |- _ =>
    apply negb_false_iff, bool_decide_eq_true in Ha as Hact end.
  assert (Hex : forall e x b t r', existing_rotation custody seen p e x b s = (t, Ok r') -> t = s).
  { unfold existing_rotation. intros ? ? ? t r' Hx. by inv_txn. }
  destruct (endpoint_secret _ _ _) as [x|] in Hs; inv_txn; [by apply Hex in Hs; subst|].
  destruct (endpoint_secret _ _ _) as [x|] eqn:Hf in Hs.
  - destruct (bool_decide _); [by apply Hex in Hs; subst|].
    apply endpoint_secret_some in Hf as (Hx & Hxi & Hxs%bool_decide_eq_true); [|apply Hok].
    eapply new_rotation_keeps; [exact He|exact Hact| |exact Hs|exact Hok].
    intros y [= <-]. done.
  - eapply new_rotation_keeps; [exact He|exact Hact| |exact Hs|exact Hok]. done.
Qed.
End commands.

(** ** Finalization and erasure *)
(** A secret provisioned, its material sealed. *)
Lemma provision_keeps d d' M x x' m u :
  keys_ok d M -> dl_secrets d !! secret_key x = Some x -> M !! ws_material_id x = Some m ->
  1 <= state_rank m -> secret_key x' = secret_key x -> ws_state x' = ws_state x ->
  ws_material_id x' = ws_material_id x -> provisioned x' = true ->
  write_secret x' d = (d', Ok u) -> keys_ok d' M.
Proof.
  intros (Hw & Heo & [Lm Lo Lc Lr Le Lu Ll]) Hx HM Hrank Hk Hst Hmat Hprov
    (Hchk & _ & HS & HC & HD & HE)%write_secret_ok. rewrite Hk in HS.
  pose proof (points_same _ _ HE) as HP. unfold secret_key in Hk, Hx. injection Hk as Hki Hkg.
  destruct (Hw _ _ _ Hx) as (_ & _ & _ & Hp).
  assert (Hterm : terminal x' = terminal x) by (unfold terminal; by rewrite Hst).
  assert (Hfwd : forall k y, dl_secrets d !! k = Some y -> exists y', dl_secrets d' !! k = Some y'
            /\ ws_state y' = ws_state y /\ ws_material_id y' = ws_material_id y
            /\ (provisioned y = true -> provisioned y' = true)).
  { intros k y Hy. rewrite HS. destruct (decide (secret_key x = k)) as [<-|Hne].
    - rewrite lookup_insert_eq. unfold secret_key in Hy. assert (y = x) as -> by congruence. eauto.
    - rewrite lookup_insert_ne by done. eauto. }
  split; [|split].
  - eapply wf_write; [exact Hchk|by rewrite Hki| |intros j; by rewrite HP|exact Hw].
    unfold secret_key in *. by rewrite Hki, Hkg.
  - intros j q. rewrite HP. intros Hq. pose proof (Heo _ _ Hq) as [K1 K2 K3 K4 K5 K6].
    assert (Hback : forall h y', dl_secrets d' !! (j, h) = Some y' ->
              exists y, dl_secrets d !! (j, h) = Some y /\ ws_state y' = ws_state y).
    { intros h y'. rewrite HS. intros [[Heq <-]|[_ Hy]]%lookup_insert_Some; [|eauto].
      exists x. split; [|done]. unfold secret_key in Heq. by rewrite <- Heq. }
    constructor; [done|done|done|..].
    + intros h Hh. apply K4, some_of_is_some in Hh as [y Hy]. destruct (Hfwd _ _ Hy) as (y' & -> & _). done.
    + intros h y' Hy'. destruct (Hback _ _ Hy') as (y & Hy & ->). auto.
    + intros h y' Hd Hy'. destruct (Hback _ _ Hy') as (y & Hy & Hs). unfold terminal. rewrite Hs.
      exact (K6 _ _ Hd Hy).
  - constructor; rewrite ?HC, ?HD; [..|exact Le|exact Lu|].
    + intros j h y. rewrite HS. intros [[Heq <-]|[_ Hy]]%lookup_insert_Some; [|auto].
      unfold secret_key in Heq. rewrite Heq in Hx. destruct (Lm _ _ _ Hx) as (m0 & Hm0 & Ho & _).
      exists m. rewrite Hmat. assert (m0 = m) as -> by congruence. done.
    + intros k m0 Hm0 Hwm. destruct (Lo _ _ Hm0 Hwm) as (y & Hy & Hym).
      destruct (Hfwd _ _ Hy) as (y' & Hy' & _ & Hm' & _). exists y'. split; [done|congruence].
    + intros j c Hc. destruct (Lc _ _ Hc) as (Hj & y & Hy & Hym & Hyt). split; [done|].
      destruct (Hfwd _ _ Hy) as (y' & Hy' & Hs' & Hm' & _). exists y'. unfold terminal. rewrite Hs', Hm'. done.
    + intros j h y. rewrite HS. intros [[Heq <-]|[_ Hy]]%lookup_insert_Some Ht; [|by eapply Lr].
      unfold secret_key in Heq. rewrite Heq in Hx. eapply Lr; [exact Hx|congruence].
    + intros k y Hy Hl. destruct (Ll _ _ Hy Hl) as (H0 & H1 & H2). split; [done|].
      assert (Hh : forall h mm, holds d y h mm -> holds d' y h mm).
      { intros [h|] mm; unfold holds; [|done]. intros (z & Hz & Hzm & Hzp).
        destruct (Hfwd _ _ Hz) as (z' & Hz' & _ & Hm' & Hp'). exists z'. split; [done|].
        split; [congruence|auto]. }
      auto.
Qed.

Section more_commands.
Context `{CanonicalHash} `{WebhookIo} (other_owner : ProtectedMaterialRow -> bool).

Lemma finalize_secret_keeps custody p a i g r fp material now c s s' u :
  finalize_secret_locked other_owner custody p a i g r fp material now c s = (s', Ok u) ->
  webhook_ok s -> webhook_ok s'.
Proof.
  unfold finalize_secret_locked. intros Hs [Hk Hc]. inv_txn.
  match goal with Hl : on_delivery (lock_active_endpoint _ _ _) s = (?t, Ok _) |- _ =>
    apply on_delivery_ok in Hl as [Hl Hcc]; apply lock_active_endpoint_ok in Hl as [Hd He];
    assert (t = s) as -> by (destruct t, s; cbn in *; congruence) end.
  apply commit_material_ok in Hs as ->. inv_ok.
  match goal with Hx : x_secrets s !! _ = Some ?y, Hf : negb (secret_finalizable _ _ _ ?y) = false |- _ =>
    rename y into x; rename Hx into Hsec; unfold secret_finalizable in Hf end.
  match goal with Hf : on_custody _ s = (?t, Ok _) |- _ =>
    apply on_custody_ok in Hf as [Hf Hdel]; pose proof (finalize_step _ _ _ _ _ _ _ _ Hf Hc) as [Hc1 _];
    destruct (finalize_effect _ _ _ _ _ _ _ _ Hc Hf) as (m & m' & Hm & HM & _ & Hmv & Hrank & Her & _);
    rename t into s1 end.
  assert (Hmat : ws_material_id x = sp_material_id material) by (bool_prop; lia).
  destruct Hk as (Hw & Heo & Hl). destruct (Hw _ _ _ Hsec) as (Hxi & Hxg & _ & _).
  assert (Hk1 : keys_ok (ct_delivery s1) (x_materials s1)).
  { rewrite Hdel. split; [done|]. split; [done|]. eapply life_materials; [exact Hl|exact Hm|exact HM|exact Hmv|].
    rewrite Her. congruence. }
  match goal with Hx : (if ?b then _ else _) s1 = _ |- _ => destruct b; inv_txn; [by split|] end.
  match goal with Hwr : on_delivery _ s1 = (?t, Ok _) |- _ =>
    apply on_delivery_ok in Hwr as [Hwr Hcc2]; assert (Hok2 : webhook_ok t) end.
  { unfold webhook_ok, x_materials. rewrite Hcc2. split; [|done].
    eapply provision_keeps; [exact Hk1| |..|eassumption].
    - rewrite Hdel. unfold secret_key. rewrite Hxi, Hxg. exact Hsec.
    - unfold x_materials. rewrite HM, Hmat. apply lookup_insert_eq.
    - exact Hrank.
    - done.
    - done.
    - done.
    - unfold provisioned; cbn. by destruct (ws_provisioned_at x). }
  match goal with Hx : (if ?b then _ else _) _ = _ |- _ => destruct b; inv_txn; [by eapply audit_keeps|done] end.
Qed.

(** The erasure of a retired secret that no lease holds. *)
Lemma cleanup_erased_keeps cleanup clock now erase id s s' u M :
  finish_secret_cleanup cleanup clock now erase id s = (s', Ok u) -> keys_ok s M ->
  keys_ok s' M
  /\ exists c, dl_cleanups s' !! cs_id cleanup = Some c /\ wc_material_id c = cs_material_id cleanup
              /\ wc_state c = "erased"%string.
Proof.
  unfold finish_secret_cleanup. intros Hs Hok. inv_d. inv_ok.
  match goal with Hf : find_by_id _ _ _ = Some ?q |- _ =>
    apply find_by_id_some in Hf as [Hc Hp]; rename q into c end.
  unfold update_cleanup in *. inv_d. apply audit_steady in Hs as Hst.
  match type of Hst with steady ?t _ => set (s1 := t) in *; assert (Hk1 : keys_ok s1 M) end.
  { destruct Hok as (Hw & He & [Lm Lo Lc Lr Le Lu Ll]). destruct (Lc _ _ Hc) as [Hj _].
    rewrite <- Hj in Hc. split; [exact Hw|]. split.
    { intros k p Hq. apply endpoint_ok_same with s; [done|by apply He]. }
    constructor; [exact Lm|exact Lo|..|exact Ll]; cbn.
    - intros k q [[<- <-]|[_ Hq]]%lookup_insert_Some; cbn; [|by apply Lc]. split; [done|]. by apply Lc in Hc as [_ ?].
    - intros k g x Hx Ht. destruct (Lr _ _ _ Hx Ht) as (n & q & Hq & Hqe & Hqg).
      destruct (decide (n = wc_id c)) as [->|Hne].
      + eexists _, _. rewrite lookup_insert_eq. split; [done|]. cbn. by assert (q = c) as -> by congruence.
      + exists n, q. by rewrite lookup_insert_ne.
    - intros k m HM Hm Her. destruct (Le _ _ HM Hm Her) as (n & q & Hq & Hqm & Hqs).
      destruct (decide (n = wc_id c)) as [->|Hne].
      + eexists _, _. rewrite lookup_insert_eq. split; [done|]. cbn. by assert (q = c) as -> by congruence.
      + exists n, q. by rewrite lookup_insert_ne.
    - intros n q k d [[<- <-]|[_ Hq]]%lookup_insert_Some Hq' Hd Hl Hqe; [|by eapply Lu].
      cbn in *. eapply (Lu _ c); [exact Hc| |exact Hd|exact Hl|exact Hqe].
      bool_prop. intros Hp'. destruct Hp as [[[[[_ Hls] _] _] _] _]. congruence. }
  split; [by apply (steady_keeps _ _ Hst)|]. rewrite (qt_cleanups _ _ Hst).
  destruct (lf_cleanup _ _ (proj2 (proj2 Hok)) _ _ Hc) as [Hj _]. rewrite <- Hj. cbn.
  eexists. rewrite lookup_insert_eq. split; [done|]. cbn. split; [|done]. bool_prop. destruct Hp. lia.
Qed.

Lemma finish_cleanup_keeps cleanup clock now id s s' u :
  finish_cleanup_erasing other_owner cleanup clock now id s = (s', Ok u) -> webhook_ok s -> webhook_ok s'.
Proof.
  unfold finish_cleanup_erasing, x_transaction. destruct ((s0 <~ mget ;; _) s) as [t [[]|e]] eqn:Hs; [|done].
  intros [= <- _] [Hk Hc]. inv_txn. apply commit_material_ok in Hs as ->.
  match goal with Hd : on_delivery _ s = (?t1, Ok _), He : on_custody _ ?t1 = _ |- _ =>
    apply on_delivery_ok in Hd as [Hd Hc1]; apply on_custody_ok in He as [He Hd2];
    destruct (cleanup_erased_keeps _ _ _ _ _ _ _ _ _ Hd Hk) as [Hk1 (c & Hcl & Hcm & Hcs)];
    rewrite Hc1 in He; pose proof (erase_step _ _ _ _ _ He Hc) as [Hc2 _];
    destruct (erase_effect _ _ _ _ _ Hc He) as (m & m' & Hm & HM & Hmv & Her) end.
  split; [|done]. rewrite Hd2. destruct Hk1 as (Hw & Heo & Hl). split; [done|]. split; [done|].
  eapply life_materials; [exact Hl|exact Hm|exact HM|exact Hmv|]. eauto.
Qed.
End more_commands.

(** ** Operators, workers and the outbox, in any order *)
Definition through {A : Type} (m : xtxn A) : Prop :=
  forall s s' r, m s = (s', r) -> webhook_ok s -> webhook_ok s'.

Lemma through_transaction {A} (body : xtxn A) :
  (forall s s' a, body s = (s', Ok a) -> webhook_ok s -> webhook_ok s') -> through (x_transaction body).
Proof.
  intros Hb s s' r. unfold x_transaction. destruct (body s) as [t [a|e]] eqn:E; intros [= <- <-]; [|done].
  by eapply Hb.
Qed.

Lemma through_then {A B} (m : xtxn A) (k : A -> xtxn B) :
  through m -> (forall a, through (k a)) -> through (a <~ m ;; k a).
Proof.
  intros Hm Hk s s' r. unfold mseq. destruct (m s) as [t [a|e]] eqn:E.
  - intros Hs Hok. eapply Hk; [exact Hs|]. by eapply Hm.
  - intros [= <- <-]. by eapply Hm.
Qed.

Lemma through_still {A} (m : xtxn A) : (forall s, (m s).1 = s) -> through m.
Proof. intros Hm s s' r Hs. specialize (Hm s). rewrite Hs in Hm. cbn in Hm. by subst. Qed.

Lemma through_command (body : dtxn WebhookEndpointRow) :
  (forall d d' e, body d = (d', Ok e) -> keeps d d') -> through (endpoint_command body).
Proof.
  intros Hb. apply through_then; [|intros; by apply through_still]. apply through_transaction.
  intros s s' a Hs. by eapply on_delivery_keeps.
Qed.

(** An operation on the worker's tables alone. *)
Definition on_worker (f : DeliveryStore -> DeliveryStore) (s : ControlStore) : ControlStore :=
  mkControlStore (f (ct_delivery s)) (ct_custody s).

Section system.
Context `{CanonicalHash} `{WebhookIo} `{ProjectionCryptography} `{UrlLib} `{TimeFormat} `{JsonbText}.
Context (other_owner : ProtectedMaterialRow -> bool) (custody : WebhookCustody).

Inductive WebhookOp :=
| WPrepare (seen : CustodyStore) (clock : OffsetDateTime) (new_endpoint_id material_id project_id
    application_id : Uuid) (command : PrepareWebhookEndpoint) (now : OffsetDateTime) (correlation_id : Uuid)
| WFinalize (project_id application_id endpoint_id : Uuid) (generation expected_revision : Z)
    (request_fingerprint : list Z) (material : SealedProtectedMaterial) (now : OffsetDateTime)
    (correlation_id : Uuid)
| WTest (project_id application_id endpoint_id : Uuid) (expected_revision : Z) (now : OffsetDateTime)
    (correlation_id : Uuid)
| WActivate (project_id application_id endpoint_id : Uuid) (expected_revision : Z)
    (now : OffsetDateTime) (correlation_id : Uuid)
| WUpdate (project_id application_id endpoint_id : Uuid) (command : UpdateWebhookEndpoint)
    (now : OffsetDateTime) (correlation_id : Uuid)
| WDisable (cleanup_id : Z -> Uuid) (clock : OffsetDateTime) (project_id application_id
    endpoint_id : Uuid) (expected_revision : Z) (now : OffsetDateTime) (correlation_id : Uuid)
| WPrepareRotation (seen : CustodyStore) (cleanup_id material_id : Uuid) (clock : OffsetDateTime)
    (project_id application_id endpoint_id : Uuid) (command : PrepareWebhookRotation)
    (now : OffsetDateTime) (correlation_id : Uuid)
| WRotate (cleanup_id : Uuid) (clock now : OffsetDateTime) (project_id application_id
    endpoint_id : Uuid) (generation expected_revision overlap_seconds : Z) (correlation_id : Uuid)
| WReplay (hinted : DeliveryStore) (replay_id : Uuid) (clock : OffsetDateTime) (project_id
    application_id delivery_id : Uuid) (now : OffsetDateTime) (correlation_id : Uuid)
| WWorker (op : DeliveryOp).

(** The erasure a worker finishes is the custody store's. *)
Definition exec_webhook (op : WebhookOp) (s : ControlStore) : ControlStore :=
  match op with
  | WPrepare seen clock i mid p a command now c =>
      (prepare_endpoint other_owner custody seen clock i mid p a command now c s).1
  | WFinalize p a i g r fp material now c =>
      (finalize_protected_secret other_owner custody p a i g r fp material now c s).1
  | WTest p a i r now c => (record_endpoint_test_success p a i r now c s).1
  | WActivate p a i r now c => (activate_prepared_endpoint p a i r now c s).1
  | WUpdate p a i command now c => (update_endpoint p a i command now c s).1
  | WDisable ids clock p a i r now c => (disable_endpoint ids clock p a i r now c s).1
  | WPrepareRotation seen id mid clock p a i command now c =>
      (prepare_secret_rotation other_owner custody seen id mid clock p a i command now c s).1
  | WRotate id clock now p a i g r o c => (activate_secret_rotation id clock now p a i g r o c s).1
  | WReplay hinted id clock p a d now c => (replay_delivery hinted id clock p a d now c s).1
  | WWorker (OpFinishCleanup cleanup clock now _ c) =>
      (finish_cleanup_erasing other_owner cleanup clock now c s).1
  | WWorker op => on_worker (exec_op op) s
  end.

Definition exec_webhooks (ops : list WebhookOp) (s : ControlStore) : ControlStore :=
  fold_left (fun s op => exec_webhook op s) ops s.

(** The outbox takes no lease and leaves the endpoints. *)
Lemma enqueue_leases ids event kind l : forall db db' u,
  enqueue_deliveries ids event kind l db = (db', Ok u) ->
  db_endpoints db' = db_endpoints db
  /\ forall k d, db_deliveries db' !! k = Some d -> is_leased d = true -> db_deliveries db !! k = Some d.
Proof.
  induction l as [|e l IH]; cbn; intros db db' u Hs; [by injection Hs as <- _|].
  apply mseq_ok in Hs as (d & [] & Hi & Hs). destruct (IH _ _ _ Hs) as [He Hd].
  destruct (subscribes kind e); [|by injection Hi as <-].
  apply insert_delivery_ok in Hi as (_ & _ & ->). split; [done|].
  intros k x Hk Hl. eapply leases_insert; [|by apply Hd|done]. done.
Qed.

Lemma append_steady clock uuid ids pp ap binding projection wire kind s s' e :
  in_database (append_projection_event clock uuid ids pp ap binding projection wire kind) s = (s', Ok e) ->
  steady s s'.
Proof.
  apply in_database_steady. intros db db' Ha. unfold append_projection_event in Ha.
  do 2 (apply mseq_ok in Ha as (? & ? & Hs & Ha); apply mlift_ok in Hs as [_ ->]).
  cbv zeta in Ha.
  do 2 (apply mseq_ok in Ha as (? & ? & Hs & Ha); apply mlift_ok in Hs as [_ ->]).
  apply mseq_ok in Ha as (d & [] & Hi & Ha); apply insert_event_ok in Hi as (_ & _ & ->).
  apply mseq_ok in Ha as (d1 & y & Hget & Ha); unfold mget in Hget; injection Hget as <- <-.
  apply if_mfail_ok in Ha as [_ Ha].
  apply mseq_ok in Ha as (d2 & [] & Hdis & Ha); apply dispatch_events in Hdis as (_ & E2 & E3).
  apply mseq_ok in Ha as (d3 & [] & Hen & Ha); unfold mret in Ha; injection Ha as <- _.
  apply enqueue_leases in Hen as [E4 E5]. rewrite E2 in E5. rewrite E3 in E4. by split.
Qed.

(** ** Every operation keeps the invariant *)
Lemma through_quiet {A} (m : dtxn A) :
  holds_through m -> forall s, webhook_ok s -> webhook_ok (on_worker (quiet m) s).
Proof.
  intros Hm s [Hk Hc]. unfold quiet, on_worker, webhook_ok, x_materials. cbn.
  destruct (m (ct_delivery s)) as [d r] eqn:E. split; [|done]. by eapply Hm.
Qed.

Lemma through_run {A} (m : xtxn A) s : through m -> webhook_ok s -> webhook_ok (m s).1.
Proof. intros Hm. destruct (m s) as [s' r] eqn:E. by eapply Hm. Qed.

Lemma through_guard {A} (b : bool) e (m : xtxn A) : through m -> through (if b then mfail e else m).
Proof. intros Hm. destruct b; [by apply through_still|done]. Qed.

Lemma exec_webhook_ok op s : webhook_ok s -> webhook_ok (exec_webhook op s).
Proof.
  destruct op as [| | | | | | | | |op]; cbn [exec_webhook]; intros Hok.
  1-9: apply through_run; [|done].
  - apply through_guard, through_then; [|intros; apply through_then; intros; by apply through_still].
    apply through_transaction. intros. by eapply prepare_endpoint_keeps.
  - apply through_guard, through_guard, through_transaction. intros. by eapply finalize_secret_keeps.
  - apply through_command. intros. by eapply record_test_keeps.
  - apply through_command. intros. by eapply activate_endpoint_keeps.
  - apply through_command. intros. by eapply update_endpoint_keeps.
  - apply through_command. intros. by eapply disable_endpoint_keeps.
  - apply through_guard, through_then.
    + apply through_transaction. intros. by eapply prepare_rotation_keeps.
    + intros [[[[e g] mat] st] b]. apply through_then; intros; by apply through_still.
  - apply through_guard, through_command. intros. by eapply activate_rotation_keeps.
  - apply through_then; [by apply through_still|intros hint]. apply through_guard, through_then;
      [|intros; by apply through_still].
    apply through_transaction. intros t t' b Ht. eapply on_delivery_keeps; [|exact Ht].
    intros. by eapply replay_keeps.
  - destruct op as [| | | |cleanup clock now erase c|]; cbn [exec_op].
    + apply through_quiet; [apply through_claim|done].
    + apply through_quiet; [apply through_finish|done].
    + apply through_quiet; [apply through_maintain|done].
    + apply through_quiet; [apply through_claim_cleanup|done].
    + destruct (finish_cleanup_erasing other_owner cleanup clock now c s) as [s' [u|e]] eqn:E.
      * by eapply finish_cleanup_keeps.
      * unfold finish_cleanup_erasing, x_transaction in E.
        destruct ((s0 <~ mget ;; _) s) as [t [[]|e']]; by simplify_eq.
    + apply through_quiet; [|done]. apply through_txn. intros t t' b Ht.
      by eapply steady_keeps, append_steady.
Qed.

Lemma exec_webhooks_ok ops : forall s, webhook_ok s -> webhook_ok (exec_webhooks ops s).
Proof.
  induction ops as [|op ops IH]; cbn; intros s Hok; [done|]. by apply IH, exec_webhook_ok.
Qed.
End system.
