(* ===== verification/WebhookHistoryProofs.v ===== *)
(** * Theorems on the history of webhooks

    The pages of [list_deliveries] and [list_events]: a client that follows the
    cursors gets the whole history, newest first, each entry once; and a replay is
    a new delivery at the head of it. *)
From S2P Require Import Prelude.
From S2P Require Import Json.
From S2P Require Import Text.
From S2P Require Import WebhookTables.
From S2P Require Import UrlValues.
From S2P Require Import Webhooks.
From S2P Require Import Database.
From S2P Require Import Projection.
From S2P Require Import WebhookOutbox.
From S2P Require Import SessionStore.
From S2P Require Import WebhookOutboxProofs.
From S2P Require Import WebhookDelivery.
From S2P Require Import WebhookDeliveryProofs.
From S2P Require Import Custody.
From S2P Require Import CustodyProofs.
From S2P Require Import WebhookControl.

(** ** Rows in the order of a history *)
Section rows.
Context {Row : Type} (at_ : Row -> OffsetDateTime) (id : Row -> Uuid) (t : gmap Z Row).

Definition cursor_at (x : Row) : HistoryCursor := mkHistoryCursor (at_ x) (id x).
Definition rows_of (p : Row -> bool) : list Row :=
  merge_sort (latest_first at_ id) (List.filter p (map snd (map_to_list t))).

#[local] Instance latest_total : Total (latest_first at_ id).
Proof. intros a b. unfold latest_first. lia. Qed.
#[local] Instance latest_trans : Transitive (latest_first at_ id).
Proof. intros a b c. unfold latest_first. lia. Qed.

Lemma rows_sorted p : StronglySorted (latest_first at_ id) (rows_of p).
Proof. apply StronglySorted_merge_sort; apply _. Qed.

Lemma rows_in p x : x ∈ rows_of p <-> p x = true /\ exists k, t !! k = Some x.
Proof.
  unfold rows_of. rewrite merge_sort_Permutation, list_elem_of_In, filter_In, in_map_iff. split.
  - intros [([k y] & Hy & Hin) Hp]. cbn in Hy. subst. split; [done|]. exists k.
    by apply elem_of_map_to_list, list_elem_of_In.
  - intros [Hp (k & Hk)]. split; [|done]. exists (k, x). split; [done|].
    by apply list_elem_of_In, elem_of_map_to_list.
Qed.

Lemma rows_nodup p : keyed id t -> NoDup (rows_of p).
Proof.
  intros Hk. unfold rows_of. rewrite merge_sort_Permutation. apply NoDup_ListNoDup, List.NoDup_filter.
  apply NoDup_ListNoDup, (NoDup_fmap_1 id). rewrite <- list_fmap_compose.
  erewrite list_fmap_ext; [exact (NoDup_fst_map_to_list t)|]. intros i [k x] Hx.
  apply Hk, elem_of_map_to_list. by eapply list_elem_of_lookup_2.
Qed.

Lemma filter_all {A} (q : A -> bool) l : (forall x, x ∈ l -> q x = true) -> List.filter q l = l.
Proof.
  induction l as [|x l IH]; cbn; [done|]. intros Hq. rewrite Hq by apply list_elem_of_here.
  f_equal. apply IH. intros. by apply Hq, list_elem_of_further.
Qed.
Lemma filter_none {A} (q : A -> bool) l : (forall x, x ∈ l -> q x = false) -> List.filter q l = [].
Proof.
  induction l as [|x l IH]; cbn; [done|]. intros Hq. rewrite Hq by apply list_elem_of_here.
  apply IH. intros. by apply Hq, list_elem_of_further.
Qed.

Lemma filter_permutation {A} (q : A -> bool) l l' : l ≡ₚ l' -> List.filter q l ≡ₚ List.filter q l'.
Proof.
  induction 1 as [|x l l' _ IH|x y l|l1 l2 l3 _ IH1 _ IH2]; cbn; [done|..].
  - destruct (q x); [by constructor|done].
  - destruct (q x), (q y); try done. constructor.
  - by etransitivity.
Qed.

Lemma filter_both {A} (p q : A -> bool) l :
  List.filter (fun x => p x && q x) l = List.filter q (List.filter p l).
Proof. induction l as [|x l IH]; cbn; [done|]. destruct (p x), (q x) eqn:E; cbn; rewrite ?E, IH; done. Qed.

(** What comes after a row is what its cursor selects. *)
Lemma rows_after p l1 r l2 :
  keyed id t -> rows_of p = l1 ++ r :: l2 ->
  rows_of (fun x => p x && before_cursor (Some (cursor_at r)) (at_ x) (id x)) = l2.
Proof.
  intros Hk Hrows. set (q x := before_cursor (Some (cursor_at r)) (at_ x) (id x)).
  pose proof (rows_sorted p) as Hs. pose proof (rows_nodup p Hk) as Hn. rewrite Hrows in Hs, Hn.
  assert (Hin : forall x, x ∈ rows_of p -> exists k, t !! k = Some x) by (intros; by apply (rows_in p)).
  apply StronglySorted_app in Hs as (H12 & H1 & [H2 Hl2]%StronglySorted_cons).
  apply StronglySorted_unique_strong with (latest_first at_ id);
    [|apply StronglySorted_merge_sort; apply _|done|].
  - intros x y Hx Hy Hxy Hyx. apply rows_in in Hx as (_ & k & Hkx).
    destruct (Hin y) as [k' Hky]; [rewrite Hrows; set_solver|].
    apply Hk in Hkx as Hix. apply Hk in Hky as Hiy. unfold latest_first in *.
    assert (k = k') by lia. congruence.
  - unfold rows_of at 1. rewrite merge_sort_Permutation.
    trans (List.filter q (rows_of p)).
    + unfold rows_of. etransitivity; [|symmetry; apply filter_permutation, merge_sort_Permutation].
      by rewrite <- filter_both.
    + rewrite Hrows, List.filter_app. cbn. unfold q at 2. cbn. rewrite !Z.ltb_irrefl, andb_false_r. cbn.
      rewrite filter_none, filter_all; [done|..].
      * intros x Hx. rewrite Forall_forall in H2. specialize (H2 _ Hx). unfold q, latest_first in *. cbn.
        assert (id x <> id r); [|lia]. intros Heq.
        destruct (Hin x) as [k Hkx]; [rewrite Hrows; set_solver|].
        destruct (Hin r) as [k' Hkr]; [rewrite Hrows; set_solver|].
        assert (k = k') by (rewrite <- (Hk _ _ Hkx), <- (Hk _ _ Hkr); done). subst k'.
        assert (x = r) as -> by congruence. apply NoDup_app in Hn as (_ & _ & Hn).
        apply NoDup_cons in Hn as [Hn _]. done.
      * intros x Hx. specialize (H12 x r Hx). unfold q, latest_first in *. cbn.
        assert (at_ r < at_ x \/ at_ x = at_ r /\ id r <= id x) by (apply H12; set_solver). lia.
Qed.
End rows.

(** ** Cursors *)
Section cursors.
Context `{CanonicalHash} `{WebhookIo} `{CursorCodec} `{TimeFormat}.

(** The documented behaviour of the libraries a cursor goes through: base64, JSON,
    times and identifiers are read back as they were written; base64 takes four
    characters for three bytes; the object of a cursor is short, a time having at
    most 35 characters and an identifier 36. *)
Class CursorCodecLaws : Prop := {
  base64_decodes : forall raw, Forall (fun b => 0 <= b < 256) raw ->
    base64url_decode (base64url_no_pad raw) = Some raw;
  base64_length : forall raw, raw <> [] ->
    0 < str_len (base64url_no_pad raw) <= (4 * list_len raw + 2) / 3;
  cursor_json_reads : forall at_ t id, format_rfc3339 at_ = Some t -> uuid_ok id ->
    exists raw, json_to_vec (cursor_json t id) = Some raw
      /\ json_from_slice raw = Some (cursor_json t id)
      /\ Forall (fun b => 0 <= b < 256) raw /\ raw <> [] /\ list_len raw <= 128;
  time_reads : forall at_ t, format_rfc3339 at_ = Some t -> parse_rfc3339 t = Some at_;
  uuid_reads : forall u, uuid_ok u -> parse_uuid (uuid_hyphenated u) = Some u
}.
Context `{!CursorCodecLaws}.

Lemma cursor_fields t id :
  uuid_ok id -> decode_fields (cursor_json t id) = Some (1, t, id).
Proof.
  intros Hid. change (decode_members (JInt 1) (JString t) (JString (uuid_hyphenated id)) = Some (1, t, id)).
  unfold decode_members. by rewrite (uuid_reads _ Hid).
Qed.

Lemma cursor_round_trip c :
  is_some (format_rfc3339 (hc_timestamp c)) = true -> uuid_ok (hc_id c) ->
  exists text, encode_cursor c = Ok text /\ decode_cursor (Some text) = Ok (Some c).
Proof.
  intros [t Ht]%some_of_is_some Hid. destruct (cursor_json_reads _ _ _ Ht Hid) as (raw & Hj & Hr & Hb & Hn & Hl).
  exists (base64url_no_pad raw). unfold encode_cursor. rewrite Ht. cbn. rewrite Hj. split; [done|].
  pose proof (base64_length raw Hn) as Hlen. unfold decode_cursor.
  assert (Hmax : (4 * list_len raw + 2) / 3 <= 512).
  { apply Z.div_le_upper_bound; lia. }
  destruct (is_empty _) eqn:He.
  { destruct (base64url_no_pad raw); [cbn in Hlen; lia|done]. }
  rewrite (proj2 (Z.ltb_ge _ _)) by lia. cbn. rewrite base64_decodes by done. cbn.
  rewrite Hr. change (Some ?j ≫= decode_fields) with (decode_fields j). rewrite cursor_fields by done.
  cbn. rewrite (time_reads _ _ Ht). cbn. by destruct c.
Qed.

(** ** Following the cursors *)
(** A client: it asks for pages until one has no next cursor. *)
Fixpoint follow {T : Type} (fetch : option string -> result ApplicationError (HistoryPage T))
    (fuel : nat) (cursor : option string) : option (list T) :=
  match fuel with
  | O => None
  | S n =>
      match fetch cursor with
      | Err _ => None
      | Ok page =>
          match hp_next_cursor page with
          | None => Some (hp_items page)
          | Some next => rest ← follow fetch n (Some next); Some (hp_items page ++ rest)
          end
      end
  end.

Lemma rmapM_take {E A B} (f : A -> result E B) l r n :
  rmapM f l = Ok r -> rmapM f (take n l) = Ok (take n r).
Proof. rewrite !rmapM_ok. apply Forall2_take. Qed.
Lemma rmapM_drop {E A B} (f : A -> result E B) l r n :
  rmapM f l = Ok r -> rmapM f (drop n l) = Ok (drop n r).
Proof. rewrite !rmapM_ok. apply Forall2_drop. Qed.

Section follow.
Context {Row T : Type} (at_ : Row -> OffsetDateTime) (id : Row -> Uuid) (record : Row -> result ApplicationError T)
  (cursor_of : T -> HistoryCursor) (fetch : option string -> result ApplicationError (HistoryPage T))
  (rows : list Row) (limit : Z).

(** What a cursor stands for. *)
Definition denotes (c : option string) (l : list Row) : Prop :=
  (c = None /\ l = rows)
  \/ exists text l1 r, c = Some text /\ rows = l1 ++ r :: l
       /\ decode_cursor (Some text) = Ok (Some (cursor_at at_ id r)).

Hypothesis Hlimit : 1 <= limit.
Hypothesis Hrecord : forall x y, record x = Ok y -> cursor_of y = cursor_at at_ id x.
Hypothesis Hwritable : forall x, x ∈ rows -> is_some (format_rfc3339 (at_ x)) = true /\ uuid_ok (id x).
Hypothesis Hfetch : forall c l, denotes c l ->
  fetch c = (records <-? rmapM record (take (Z.to_nat (limit + 1)) l) ;; history_page records limit cursor_of).

Lemma last_of_page l r1 :
  rmapM record l = Ok r1 -> limit < list_len r1 ->
  exists x y l1 l2, l = l1 ++ x :: l2 /\ length (l1 ++ [x]) = Z.to_nat limit
    /\ last (take (Z.to_nat limit) r1) = Some y /\ record x = Ok y.
Proof.
  intros Hl Hlen. pose proof (rmapM_length _ _ _ Hl) as Hll. unfold list_len in Hlen.
  destruct (lookup_lt_is_Some_2 l (Z.to_nat limit - 1)) as [x Hx]; [lia|].
  pose proof Hl as Hf. rewrite rmapM_ok in Hf. destruct (Forall2_lookup_l _ _ _ _ _ Hf Hx) as (y & Hy & Hxy).
  exists x, y, (take (Z.to_nat limit - 1) l), (drop (S (Z.to_nat limit - 1)) l).
  split; [by rewrite take_drop_middle|]. split; [rewrite length_app, length_take; cbn; lia|].
  split; [|done]. rewrite last_lookup, length_take, lookup_take_lt by lia. rewrite <- Hy. f_equal. lia.
Qed.

Lemma follow_rows : forall n c l rs,
  denotes c l -> rmapM record l = Ok rs -> (length l < n)%nat -> follow fetch n c = Some rs.
Proof.
  induction n as [|n IH]; intros c l rs Hd Hrs Hn; [lia|]. cbn [follow].
  rewrite (Hfetch _ _ Hd), (rmapM_take _ _ _ _ Hrs). cbn [rbind]. unfold history_page.
  pose proof (rmapM_length _ _ _ Hrs) as Hlen.
  assert (Hle : list_len (take (Z.to_nat (limit + 1)) rs) <= limit + 1).
  { unfold list_len. rewrite length_take. lia. }
  rewrite (proj2 (Z.ltb_ge _ _)) by lia. rewrite take_take, Nat.min_l by lia.
  destruct (limit <? _) eqn:Hmore.
  - apply Z.ltb_lt in Hmore. unfold list_len in Hmore. rewrite length_take in Hmore.
    destruct (last_of_page _ _ Hrs) as (x & y & l1 & l2 & Hl & Hl1 & Hlast & Hxy); [unfold list_len; lia|].
    rewrite Hlast, (Hrecord _ _ Hxy).
    assert (Hxl : x ∈ l) by (rewrite Hl; apply elem_of_app; right; apply list_elem_of_here).
    assert (Hx : x ∈ rows).
    { destruct Hd as [[_ Hr]|(? & ? & ? & _ & Hr & _)]; rewrite Hr in *; [congruence|].
      apply elem_of_app; right. by apply list_elem_of_further. }
    destruct (Hwritable _ Hx) as [Hw1 Hw2]. destruct (cursor_round_trip (cursor_at at_ id x) Hw1 Hw2) as (text & He & Hdec).
    rewrite He. cbn. rewrite (IH _ l2 (drop (Z.to_nat limit) rs)); [cbn; by rewrite take_drop|..].
    + right. destruct Hd as [[_ Hr]|(t0 & l0 & r0 & _ & Hr & _)].
      * exists text, l1, x. split; [done|]. split; [congruence|done].
      * exists text, (l0 ++ r0 :: l1), x. split; [done|]. split; [|done].
        by rewrite Hr, Hl, <- app_assoc.
    + replace l2 with (drop (Z.to_nat limit) l); [by apply rmapM_drop|].
      rewrite Hl, cons_middle, app_assoc. by apply drop_app_length'.
    + rewrite Hl, length_app in Hn. cbn in Hn. lia.
  - cbn. apply Z.ltb_ge in Hmore. unfold list_len in Hmore. rewrite length_take in Hmore.
    rewrite take_ge by lia. done.
Qed.
End follow.

(** ** The pages of an application *)
(** Times that can be written and identifiers of 128 bits. *)
Definition writable {Row : Type} (at_ : Row -> OffsetDateTime) (id : Row -> Uuid) (t : gmap Z Row) : Prop :=
  forall k x, t !! k = Some x -> is_some (format_rfc3339 (at_ x)) = true /\ uuid_ok (id x).

Section application.
Context (s : ControlStore) (clock : OffsetDateTime) (project_id application_id : Uuid) (limit : Z).

Definition wanted_delivery (endpoint_id : option Uuid) (d : WebhookDeliveryRow) : bool :=
  delivery_listed s clock project_id application_id d
  && match endpoint_id with Some e => wd_endpoint_id d =? e | None => true end.

Definition wanted_event (e : UserEventRow) : bool :=
  (ue_project_id e =? project_id) && (ue_application_id e =? application_id)
  && (clock <? ue_retain_until e).

Lemma limit_ok : 1 <= limit <= 100 ->
  history_limit (Some limit) = Ok limit /\ in_range 1 MAX_LIST_ROWS (limit + 1) = true.
Proof. intros Hl. unfold history_limit, in_range, MAX_CONTROL_RESULTS, MAX_LIST_ROWS. split; [|lia].
  replace (negb _) with false by lia. done.
Qed.

(** A query with a cursor, from what it denotes. *)
Lemma denoted_rows {Row} (at_ : Row -> OffsetDateTime) id (t : gmap Z Row) p c l :
  keyed id t -> denotes at_ id (rows_of at_ id t p) c l ->
  exists hc, decode_cursor c = Ok hc
    /\ rows_of at_ id t (fun x => p x && before_cursor hc (at_ x) (id x)) = l.
Proof.
  intros Hk [[-> ->]|(text & l1 & r & -> & Hl & Hd)].
  - exists None. split; [done|]. unfold rows_of. f_equal. apply filter_ext. intros. by rewrite andb_true_r.
  - eexists. split; [exact Hd|]. by eapply rows_after.
Qed.

Lemma joined_exists d : delivery_listed s clock project_id application_id d = true ->
  exists r, joined_record s d = Ok r.
Proof.
  unfold delivery_listed, event_retained, joined_record. intros [_ He]%andb_true_iff.
  destruct (db_events _ !! wd_event_id d); [cbn; eauto|done].
Qed.

Lemma rmapM_exists {E A B} (f : A -> result E B) l :
  (forall x, x ∈ l -> exists y, f x = Ok y) -> exists r, rmapM f l = Ok r.
Proof.
  induction l as [|x l IH]; cbn; intros Hf; [by eexists|].
  destruct (Hf x) as [y ->]; [apply list_elem_of_here|]. destruct IH as [r ->].
  { intros z Hz. by apply Hf, list_elem_of_further. }
  cbn. by eexists.
Qed.

(** the pages of an application's deliveries are its history: a client that
    follows the cursors, with any page size from 1 to 100, gets every retained
    delivery (of the endpoint it asked for) exactly once, newest first, and the
    walk ends. *)
Theorem pages_list_deliveries endpoint_id :
  view_ok (view (ct_delivery s)) -> writable wd_created_at wd_id (deliveries (ct_delivery s)) ->
  ensure_application (x_database s) project_id application_id = Ok tt -> 1 <= limit <= 100 ->
  exists rows records,
    (forall d, d ∈ rows <-> wanted_delivery endpoint_id d = true
                            /\ exists k, deliveries (ct_delivery s) !! k = Some d)
    /\ NoDup rows /\ StronglySorted (latest_first wd_created_at wd_id) rows
    /\ Forall2 (fun d r => joined_record s d = Ok r) rows records
    /\ forall fuel, (length rows < fuel)%nat ->
       follow (fun c => service_list_deliveries s clock project_id application_id endpoint_id c (Some limit))
         fuel None = Some records.
Proof.
  intros Hv Hw Ha Hl. pose proof (vo_keys _ Hv) as Hk. change (keyed wd_id (deliveries (ct_delivery s))) in Hk.
  set (rows := rows_of wd_created_at wd_id (deliveries (ct_delivery s)) (wanted_delivery endpoint_id)).
  destruct (rmapM_exists (joined_record s) rows) as [records Hrec].
  { intros d [Hd _]%rows_in. apply andb_true_iff in Hd as [Hd _]. by apply joined_exists. }
  exists rows, records. split; [apply rows_in|]. split; [by apply rows_nodup|].
  split; [apply rows_sorted|]. split; [by apply rmapM_ok|]. intros fuel Hfuel.
  apply (follow_rows wd_created_at wd_id (joined_record s)
           (fun r => mkHistoryCursor (dr_created_at r) (dr_id r)) _ rows limit) with rows;
    [lia|..|by left|done|done].
  - intros x y. unfold joined_record. destruct (db_events _ !! _); [|done]. cbn. by intros [= <-].
  - intros x (_ & k & Hx)%rows_in. exact (Hw _ _ Hx).
  - intros c l Hd. destruct (denoted_rows _ _ _ _ _ _ Hk Hd) as (hc & Hc & Hrows).
    unfold service_list_deliveries. destruct (limit_ok Hl) as [-> Hr]. cbn [rbind]. rewrite Hc. cbn [rbind].
    unfold list_deliveries. rewrite Ha, Hr. cbn [rbind negb]. unfold find_all.
    change (merge_sort _ _) with (rows_of wd_created_at wd_id (deliveries (ct_delivery s))
      (fun d => wanted_delivery endpoint_id d && before_cursor hc (wd_created_at d) (wd_id d))).
    by rewrite Hrows.
Qed.

(** The same for the events, whose types can be read. *)
Lemma pages_list_events :
  keyed ue_id (db_events (x_database s)) -> writable ue_occurred_at ue_id (db_events (x_database s)) ->
  (forall k e, db_events (x_database s) !! k = Some e -> exists r, event_record_from_row e = Ok r) ->
  ensure_application (x_database s) project_id application_id = Ok tt -> 1 <= limit <= 100 ->
  exists rows records,
    (forall e, e ∈ rows <-> wanted_event e = true /\ exists k, db_events (x_database s) !! k = Some e)
    /\ NoDup rows /\ StronglySorted (latest_first ue_occurred_at ue_id) rows
    /\ Forall2 (fun e r => event_record_from_row e = Ok r) rows records
    /\ forall fuel, (length rows < fuel)%nat ->
       follow (fun c => service_list_events s clock project_id application_id c (Some limit)) fuel None
       = Some records.
Proof.
  intros Hk Hw Ht Ha Hl.
  set (rows := rows_of ue_occurred_at ue_id (db_events (x_database s)) wanted_event).
  destruct (rmapM_exists event_record_from_row rows) as [records Hrec].
  { intros e (_ & k & Hd)%rows_in. by eapply Ht. }
  exists rows, records. split; [apply rows_in|]. split; [by apply rows_nodup|].
  split; [apply rows_sorted|]. split; [by apply rmapM_ok|]. intros fuel Hfuel.
  apply (follow_rows ue_occurred_at ue_id event_record_from_row
           (fun r => mkHistoryCursor (ur_occurred_at r) (ur_id r)) _ rows limit) with rows;
    [lia|..|by left|done|done].
  - intros x y. unfold event_record_from_row. destruct (event_type _); [|done]. cbn. by intros [= <-].
  - intros x (_ & k & Hx)%rows_in. exact (Hw _ _ Hx).
  - intros c l Hd. destruct (denoted_rows _ _ _ _ _ _ Hk Hd) as (hc & Hc & Hrows).
    unfold service_list_events. destruct (limit_ok Hl) as [-> Hr]. cbn [rbind]. rewrite Hc. cbn [rbind].
    unfold list_events. rewrite Ha, Hr. cbn [rbind negb]. unfold find_all.
    change (merge_sort _ _) with (rows_of ue_occurred_at ue_id (db_events (x_database s))
      (fun d => wanted_event d && before_cursor hc (ue_occurred_at d) (ue_id d))).
    by rewrite Hrows.
Qed.
End application.
End cursors.

(** ** Replay *)
(** The first row in the order of a measure, largest first, has the largest. *)
Lemma find_first_largest {Row} (t : gmap Z Row) p (f : Row -> Z) r k x :
  find_first t p (fun a b => f b <? f a) = Some r -> t !! k = Some x -> p x = true -> f x <= f r.
Proof.
  unfold find_first. intros Hr Hx Hp.
  assert (Hgen : forall (l : list Row) best out,
    fold_left (fun best row => if p row then match best with
      | Some b => if f b <? f row then Some row else best | None => Some row end else best) l best = Some out ->
    (forall b, best = Some b -> f b <= f out) /\ (forall y, In y l -> p y = true -> f y <= f out)).
  { induction l as [|y l IH]; cbn; intros best out Ho; [split; [by intros b ->; simplify_eq|done]|].
    destruct (IH _ _ Ho) as [Hb Hl]. destruct (p y) eqn:Hy.
    - destruct best as [b|]; [|split; [done|]; intros z [<-|Hz] Hpz; auto].
      destruct (f b <? f y) eqn:Hlt.
      + specialize (Hb _ eq_refl). split; [intros ? [= <-]; lia|]. intros z [<-|Hz] Hpz; [lia|auto].
      + specialize (Hb _ eq_refl). split; [by intros ? [= <-]|]. intros z [<-|Hz] Hpz; [lia|auto].
    - split; [done|]. intros z [<-|Hz] Hpz; [congruence|auto]. }
  apply Hgen in Hr as [_ Hr]. apply Hr; [|done]. apply in_map_iff. exists (k, x). split; [done|].
  by apply list_elem_of_In, elem_of_map_to_list.
Qed.

Section replay.
Context `{CanonicalHash} `{WebhookIo}.

Lemma in_database_ok {A} (m : txn A) s s' a :
  in_database m s = (s', Ok a) -> m (dl_db s) = (dl_db s', Ok a).
Proof. unfold in_database. destruct (m (dl_db s)) as [db r]. by intros [= <- ->]. Qed.

Definition replay_of (s s' : DeliveryStore) (clock : OffsetDateTime) (replay_id delivery_id : Uuid)
    (new : WebhookDeliveryRow) (event_id : string) : Prop :=
  exists original event i endpoint,
    deliveries s !! delivery_id = Some original
    /\ deliveries s !! replay_id = None
    /\ deliveries s' = <[replay_id := new]> (deliveries s)
    /\ wd_replay_of_delivery_id new = Some delivery_id /\ wd_event_id new = wd_event_id original
    /\ wd_endpoint_id new = wd_endpoint_id original /\ wd_state new = "pending"%string
    /\ wd_attempt_count new = 0
    /\ (forall k x, deliveries s !! k = Some x -> wd_event_id x = wd_event_id original ->
          wd_endpoint_id x = wd_endpoint_id original -> wd_replay_sequence x < wd_replay_sequence new)
    /\ db_events (dl_db s) !! wd_event_id original = Some event /\ clock < ue_replay_until event
    /\ ue_event_id event = event_id
    /\ endpoints s !! i = Some endpoint /\ we_id endpoint = wd_endpoint_id original
    /\ we_status endpoint = "active"%string.

Lemma replay_locked_ok replay_id clock p a delivery_id hint now c s s' r :
  view_ok (view s) ->
  replay_locked replay_id clock p a delivery_id hint now c s = (s', Ok r) ->
  replay_of s s' clock replay_id delivery_id r.1 r.2.
Proof.
  intros Hv Hs. unfold replay_locked in Hs. inv_d. inv_ok. keep_view.
  match goal with
  | Ho : deliveries s !! delivery_id = Some ?o, He : find_by_id _ _ _ = Some ?e,
    Hen : endpoints s !! ?i = Some ?en, Hl : latest_replay _ _ _ = Some _,
    Hd : in_database (ensure_dispatch_state _ _) _ = _, Hi : in_database (insert_delivery _) _ = _,
    Ha : in_database (append_runtime_audit _ _ _ _ _ _) _ = _ |- _ =>
      rename Ho into Horig; rename He into Hev; rename Hl into Hlat; exists o, e, i, en;
      apply in_database_ok in Hd as Hdis; apply in_database_ok in Hi as Hins; apply in_database_ok in Ha as Haud;
      clear Hd Hi Ha
  end.
  apply dispatch_events in Hdis as (_ & HD & _). apply insert_delivery_ok in Hins as (Hnone%is_none_iff & _ & Hins).
  apply append_runtime_audit_ok in Haud as (ev & Haud & _). apply find_by_id_some in Hev as [Hev Hep].
  cbn in Hnone. rewrite HD in Hnone. bool_prop.
  assert (HD' : deliveries s' = <[replay_id := replayed_delivery replay_id x6 x9 p a now]> (deliveries s)).
  { unfold deliveries. rewrite Haud. cbn. rewrite Hins. cbn. by rewrite HD. }
  cbn [fst snd replayed_delivery wd_replay_of_delivery_id wd_event_id wd_endpoint_id wd_state
       wd_attempt_count wd_replay_sequence]. split_and!; try done.
  - by rewrite (vo_keys _ Hv _ _ Horig).
  - intros k x Hx Hxe Hxn. unfold latest_replay in Hlat.
    pose proof (find_first_largest _ _ _ _ _ _ Hlat Hx) as Hle. cbv beta in Hle.
    rewrite Hxe, Hxn, !Z.eqb_refl in Hle.
    specialize (Hle eq_refl). repeat case_match; simplify_eq. lia.
  - intuition lia.
  - intuition lia.
  - match goal with Ha : is_active _ = true |- _ => by apply bool_decide_eq_true in Ha end.
Qed.

(** a replay is a delivery of its own: it asks for an active endpoint and an
    event still in its replay window, and adds exactly one delivery, under a new
    identifier, pending and without attempts, for the same event and endpoint,
    with a replay sequence above all those of that event at that endpoint; the
    delivery replayed, and every other one, is left as it was. *)
Theorem replay_is_a_new_delivery hinted replay_id clock p a delivery_id now c s s' r :
  view_ok (view (ct_delivery s)) ->
  replay_delivery hinted replay_id clock p a delivery_id now c s = (s', Ok r) ->
  exists new event_id, r = delivery_record new event_id
    /\ replay_of (ct_delivery s) (ct_delivery s') clock replay_id delivery_id new event_id.
Proof.
  intros Hv Hs. unfold replay_delivery in Hs. inv_txn. unfold x_transaction in *.
  destruct (on_delivery _ s) as [s1 [x1'|e]] eqn:E; [|done]. simplify_eq.
  unfold on_delivery in E. destruct (replay_locked _ _ _ _ _ _ _ _ _) as [d1 r1] eqn:Hr. simplify_eq.
  exists x1.1, x1.2. split; [done|]. by eapply replay_locked_ok.
Qed.
End replay.

(** ** A codec that satisfies the laws *)
(** Text of bytes, lengths before parts, and hexadecimal digits. *)
Module SampleCodec.
Fixpoint text (l : list Z) : string :=
  match l with
  | [] => EmptyString
  | b :: r => String (Ascii.ascii_of_N (Z.to_N b)) (text r)
  end.

Definition digit_value (a : Ascii.ascii) : Z := if byte_of a <? 0x40 then byte_of a - 0x30 else byte_of a - 0x57.
Fixpoint hex_value (acc : Z) (s : string) : Z :=
  match s with
  | EmptyString => acc
  | String a r => if byte_of a =? 0x2d then hex_value acc r else hex_value (acc * 16 + digit_value a) r
  end.

#[export] Instance sample_json : CanonicalHash :=
  {| json_to_vec := fun j => match j with
       | JObject [(_, _); (_, JString t); (_, JString id)] => Some (str_len t :: bytes t ++ bytes id)
       | _ => None
       end;
     sha256 := fun _ => repeat 1 32 |}.
#[export] Instance sample_base64 : WebhookIo :=
  {| hmac_sha256 := fun _ _ => []; base64url_no_pad := text; resolve_secret := fun _ => Ok [];
     webhook_post := fun _ _ _ _ _ => mkWebhookTransportOutcome Delivery.Accepted None 0 |}.
#[export] Instance sample_times : TimeFormat :=
  {| format_rfc3339 := fun t => if in_range 0 (2 ^ 64 - 1) t then Some (text (be_bytes 8 t)) else None |}.
#[export] Instance sample_codec : CursorCodec :=
  {| base64url_decode := fun s => Some (bytes s);
     json_from_slice := fun raw => match raw with
       | n :: r => Some (JObject [("v", JInt 1); ("t", JString (text (take (Z.to_nat n) r)));
                                  ("id", JString (text (drop (Z.to_nat n) r)))])%string
       | [] => None
       end;
     parse_rfc3339 := fun s => Some (be_value 0 (bytes s));
     parse_uuid := fun s => Some (hex_value 0 s) |}.

Lemma bytes_text l : Forall (fun b => 0 <= b < 256) l -> bytes (text l) = l.
Proof.
  induction 1 as [|b l Hb _ IH]; cbn; [done|]. rewrite IH. f_equal. unfold byte_of.
  rewrite Ascii.N_ascii_embedding by lia. lia.
Qed.
Lemma text_bytes s : text (bytes s) = s.
Proof.
  induction s as [|a s IH]; cbn; [done|]. rewrite IH. unfold byte_of.
  by rewrite N2Z.id, Ascii.ascii_N_embedding.
Qed.
Lemma bytes_range s : Forall (fun b => 0 <= b < 256) (bytes s).
Proof.
  induction s as [|a s IH]; cbn; constructor; [|done]. unfold byte_of.
  pose proof (Ascii.N_ascii_bounded a). lia.
Qed.
Lemma be_bytes_range w v : Forall (fun b => 0 <= b < 256) (be_bytes w v).
Proof.
  revert v. induction w as [|w IH]; intros v; cbn; [done|]. apply Forall_app. split; [done|].
  constructor; [|done]. apply Z.mod_pos_bound. lia.
Qed.

Lemma text_len l : str_len (text l) = list_len l.
Proof. induction l as [|b l IH]; cbn; [done|]. rewrite IH. unfold list_len. cbn [length]. lia. Qed.
Lemma be_len w v : list_len (be_bytes w v) = Z.of_nat w.
Proof. unfold list_len. by rewrite be_bytes_length. Qed.
Lemma hyphenated_len u : str_len (uuid_hyphenated u) = 36.
Proof.
  unfold uuid_hyphenated. pose proof (hex_string_length 32 u EmptyString) as Hs. fold (uuid_simple u) in Hs.
  revert Hs. generalize (uuid_simple u). intros s Hs.
  do 32 (destruct s as [|? s]; [discriminate Hs|]; apply (f_equal Nat.pred) in Hs; cbn in Hs).
  by destruct s.
Qed.

Lemma hex_value_app s1 : forall acc s2, hex_value acc (String.append s1 s2) = hex_value (hex_value acc s1) s2.
Proof.
  induction s1 as [|a s1 IH]; intros acc s2; [done|].
  change (String.append (String a s1) s2) with (String a (String.append s1 s2)). cbn [hex_value].
  destruct (_ =? _); apply IH.
Qed.

Lemma hex_value_digit n : 0 <= n < 16 ->
  (byte_of (hex_digit n) =? 0x2d) = false /\ digit_value (hex_digit n) = n.
Proof.
  intros Hn. assert (Hin : In n (map Z.of_nat (seq 0 16))).
  { apply in_map_iff. exists (Z.to_nat n). split; [lia|]. apply in_seq. lia. }
  cbn in Hin. repeat destruct Hin as [<-|Hin]; done.
Qed.

Lemma hex_value_string n : forall u r acc, 0 <= u < 16 ^ Z.of_nat n ->
  hex_value acc (hex_string n u r) = hex_value (acc * 16 ^ Z.of_nat n + u) r.
Proof.
  induction n as [|n IH]; intros u r acc Hu; cbn [hex_string]; [f_equal; lia|].
  rewrite Nat2Z.inj_succ, Z.pow_succ_r in * by lia.
  rewrite IH by (split; [apply Z.div_pos; lia|apply Z.div_lt_upper_bound; lia]). cbn [hex_value].
  destruct (hex_value_digit (u mod 16)) as [-> ->]; [apply Z.mod_pos_bound; lia|].
  f_equal. pose proof (Z.div_mod u 16). lia.
Qed.

Lemma hex_value_hyphenate s : String.length s = 32%nat -> hex_value 0 (hyphenate s) = hex_value 0 s.
Proof.
  intros Hs. assert (Hd : forall acc r, hex_value acc (String.append "-" r) = hex_value acc r) by done.
  unfold hyphenate. do 4 rewrite (hex_value_app (String.substring _ _ _)), Hd. rewrite <- !hex_value_app. f_equal.
  do 32 (destruct s as [|? s]; [discriminate Hs|]; apply (f_equal Nat.pred) in Hs; cbn in Hs).
  by destruct s.
Qed.

#[export] Instance sample_codec_laws : CursorCodecLaws.
Proof.
  constructor.
  - intros raw Hr. cbn. by rewrite bytes_text.
  - intros raw Hr. cbn. rewrite text_len. assert (0 < list_len raw) by (destruct raw; cbn; [done|unfold list_len; cbn; lia]).
    split; [done|]. apply Z.div_le_lower_bound; lia.
  - intros at_ t id Ht Hid. assert (Hlt : str_len t = 8).
    { cbn [format_rfc3339 sample_times] in Ht. destruct (in_range _ _ _); [|done].
      assert (t = text (be_bytes 8 at_)) as -> by congruence. by rewrite text_len, be_len. }
    assert (Hlen : length (bytes t) = 8%nat) by (rewrite str_len_bytes in Hlt; lia).
    eexists. split; [reflexivity|]. split; [|split; [|split; [done|]]].
    + cbn [json_from_slice sample_codec]. rewrite Hlt, take_app_length', drop_app_length' by done.
      by rewrite !text_bytes.
    + rewrite Hlt. constructor; [lia|]. apply Forall_app. split; apply bytes_range.
    + unfold list_len. cbn [length]. rewrite length_app, Nat2Z.inj_succ, Nat2Z.inj_add, <- !str_len_bytes, Hlt.
      rewrite hyphenated_len. lia.
  - intros at_ t. cbn [format_rfc3339 sample_times parse_rfc3339 sample_codec].
    destruct (in_range _ _ _) eqn:Hr; [|done]. intros Ht.
    assert (t = text (be_bytes 8 at_)) as -> by congruence. rewrite bytes_text by apply be_bytes_range.
    unfold in_range in Hr. by rewrite be_value_be_bytes by lia.
  - intros u Hu. unfold uuid_ok in Hu. cbn [parse_uuid sample_codec]. unfold uuid_hyphenated, uuid_simple.
    rewrite hex_value_hyphenate by apply hex_string_length. by rewrite hex_value_string.
Qed.
End SampleCodec.
