(* ===== verification/WebhookEndpointProofs.v ===== *)
(** * What webhook endpoints promise

    From the invariant of [WebhookSecrets], which every operation keeps: the secret
    a lease or an endpoint uses can be opened, an endpoint signs with exactly its
    active and its overlapping secret and a disabled one with none; a revision is
    spent once; a replay is a delivery of its own; and the pages of a history list
    it exactly. *)
From S2P Require Import Prelude.
From S2P Require Import Json.
From S2P Require Import Lifecycle.
From S2P Require Import KeyProvider.
From S2P Require Import UrlValues.
From S2P Require Import WebhookTables.
From S2P Require Import Webhooks.
From S2P Require Import Database.
From S2P Require Import Projection.
From S2P Require Import ProjectionProofs.
From S2P Require Import WebhookOutbox.
From S2P Require Import SessionStore.
From S2P Require Import SessionAuthorityProofs.
From S2P Require Import WebhookOutboxProofs.
From S2P Require Import WebhookDelivery.
From S2P Require Import WebhookDeliveryProofs.
From S2P Require Import WebhookDispatchProofs.
From S2P Require Import Custody.
From S2P Require Import CustodyProofs.
From S2P Require Import WebhookSecrets.
From S2P Require Import WebhookControl.
From S2P Require Import WebhookControlProofs.
From S2P Require Import WebhookHistoryProofs.

(** ** Secrets in use *)
(** The material of generation [g] of endpoint [i], live and with its envelope. *)
Definition opens (s : ControlStore) (i : Uuid) (g : Z) (material : Uuid) : Prop :=
  exists m envelope, x_materials s !! material = Some m /\ pm_state m = "live"%string
    /\ pm_opaque_value m = Some envelope /\ owned_by m i g.

Lemma live_envelope m :
  protected_material_check m = true -> state_rank m = 1 ->
  pm_state m = "live"%string /\ is_some (pm_opaque_value m) = true.
Proof.
  intros Hc Hr. assert (Hs : pm_state m = "live"%string).
  { unfold state_rank in Hr. repeat case_bool_decide; done. }
  split; [done|]. unfold protected_material_check in Hc. cbv zeta in Hc. rewrite Hs in Hc. cbn in Hc.
  bool_prop. naive_solver.
Qed.

Lemma owned_by_unique m i g i' g' : owned_by m i g -> owned_by m i' g' -> i = i' /\ g = g'.
Proof. unfold owned_by. intuition congruence. Qed.

Lemma erasure_of s M i g x j c :
  keys_ok s M -> dl_secrets s !! (i, g) = Some x -> dl_cleanups s !! j = Some c ->
  wc_material_id c = ws_material_id x -> wc_endpoint_id c = i /\ wc_generation c = g.
Proof.
  intros (_ & _ & Hl) Hx Hc Hm. destruct (lf_cleanup _ _ Hl _ _ Hc) as (_ & y & Hy & Hym & _).
  destruct (lf_material _ _ Hl _ _ _ Hx) as (m & HM & Ho & _).
  destruct (lf_material _ _ Hl _ _ _ Hy) as (m' & HM' & Ho' & _).
  rewrite Hym, Hm, HM in HM'. injection HM' as <-. by eapply owned_by_unique.
Qed.

(** A provisioned secret opens until its erasure is through. *)
Lemma unerased_opens s i g x :
  webhook_ok s -> x_secrets s !! (i, g) = Some x -> provisioned x = true ->
  (forall j c, dl_cleanups (ct_delivery s) !! j = Some c -> wc_endpoint_id c = i ->
     wc_generation c = g -> wc_state c <> "erased"%string) ->
  opens s i g (ws_material_id x).
Proof.
  intros [Hk Hc] Hx Hp Hun. pose proof Hk as (_ & _ & Hl).
  destruct (lf_material _ _ Hl _ _ _ Hx) as (m & HM & Ho & Hr). specialize (Hr Hp).
  pose proof (co_check _ Hc _ _ HM) as Hchk.
  assert (Hrank : state_rank m = 1).
  { pose proof (rank_range m). destruct (decide (state_rank m = 2)) as [H2|]; [exfalso|lia].
    assert (He : is_erased m = true).
    { unfold protected_material_check in Hchk. cbv zeta in Hchk. apply andb_true_iff in Hchk as [_ Hst].
      apply bool_decide_eq_true in Hst. unfold state_rank in H2. unfold is_erased.
      repeat case_bool_decide; try done. set_solver. }
    destruct (lf_erased _ _ Hl _ _ HM (proj1 Ho) He) as (j & c & Hj & Hcm & Hcs).
    destruct (erasure_of _ _ _ _ _ _ _ Hk Hx Hj Hcm) as [Hi Hg]. by eapply Hun. }
  destruct (live_envelope _ Hchk Hrank) as [Hlive [v Hv]%some_of_is_some].
  exists m, v. done.
Qed.

Section secrets_in_use.
Context `{CanonicalHash} `{WebhookIo} `{ProjectionCryptography} `{UrlLib} `{TimeFormat} `{JsonbText}.
Context (other_owner : ProtectedMaterialRow -> bool) (custody : WebhookCustody).

Lemma held_opens s k d g material :
  webhook_ok s -> deliveries (ct_delivery s) !! k = Some d -> is_leased d = true ->
  holds_generation d g -> holds (ct_delivery s) d (Some g) material ->
  exists id, material = Some id /\ opens s (wd_endpoint_id d) g id.
Proof.
  intros Hok Hd Hl Hg (x & Hx & -> & Hp). exists (ws_material_id x). split; [done|].
  apply unerased_opens; [done|done|done|]. intros j c Hc Hi Hgen Her. subst g.
  destruct Hok as [(_ & _ & Hlife) _].
  eapply (lf_unheld _ _ Hlife); [exact Hc|by rewrite Her|exact Hd|exact Hl|done|done].
Qed.

(** C23: a lease can always sign: whatever operators, workers, the outbox and the
    erasure of secrets do, in any order, for as long as a delivery is leased the
    secret it was claimed with, and the overlapping one when it holds one, is a
    live material of its endpoint with its envelope; disabling the endpoint,
    rotating, retiring and erasing never take it away. *)
Theorem leased_secrets_stay_open ops s k d :
  webhook_ok s ->
  deliveries (ct_delivery (exec_webhooks other_owner custody ops s)) !! k = Some d ->
  is_leased d = true ->
  let s' := exec_webhooks other_owner custody ops s in
  (exists g material, wd_claimed_secret_generation d = Some g
     /\ wd_claimed_secret_material_id d = Some material /\ opens s' (wd_endpoint_id d) g material)
  /\ (forall material, wd_claimed_overlap_material_id d = Some material ->
       exists g, wd_claimed_overlap_generation d = Some g /\ opens s' (wd_endpoint_id d) g material).
Proof.
  intros Hok Hd Hl s'. apply (exec_webhooks_ok other_owner custody ops) in Hok. fold s' in Hok, Hd.
  pose proof Hok as [(_ & _ & Hlife) _]. destruct (lf_lease _ _ Hlife _ _ Hd Hl) as (Hs & Hp & Ho). split.
  - apply some_of_is_some in Hs as [g Hg]. rewrite Hg in Hp.
    destruct (held_opens _ _ _ _ _ Hok Hd Hl (or_introl Hg) Hp) as (id & Hid & Hop). eauto.
  - intros material Hm. destruct (wd_claimed_overlap_generation d) as [g|] eqn:Hg; cbn in Ho; [|congruence].
    destruct (held_opens _ _ _ _ _ Hok Hd Hl (or_intror Hg) Ho) as (id & Hid & Hop).
    exists g. split; [done|]. congruence.
Qed.

(** C24: an endpoint signs with its own secrets and no others: after any sequence
    of operations, an active endpoint has a current secret; its secrets in state
    active and overlap are exactly those it points at, and each of these opens; a
    retired secret has its erasure queued; and all secrets of a disabled endpoint
    are retired. *)
Theorem endpoint_signs_with_its_secrets ops s i e :
  webhook_ok s ->
  x_endpoints (exec_webhooks other_owner custody ops s) !! i = Some e ->
  let s' := exec_webhooks other_owner custody ops s in
  (we_status e = "active"%string -> exists g x, we_current_secret_generation e = Some g
     /\ x_secrets s' !! (i, g) = Some x /\ opens s' i g (ws_material_id x))
  /\ forall g x, x_secrets s' !! (i, g) = Some x ->
     (ws_state x = "active"%string <-> we_current_secret_generation e = Some g)
     /\ (ws_state x = "overlap"%string <-> we_overlap_secret_generation e = Some g)
     /\ (ws_state x = "active"%string \/ ws_state x = "overlap"%string -> opens s' i g (ws_material_id x))
     /\ (we_status e = "disabled"%string -> terminal x = true)
     /\ (terminal x = true -> exists j c, dl_cleanups (ct_delivery s') !! j = Some c
           /\ wc_endpoint_id c = i /\ wc_generation c = g /\ wc_material_id c = ws_material_id x).
Proof.
  intros Hok He s'. apply (exec_webhooks_ok other_owner custody ops) in Hok. fold s' in Hok, He.
  pose proof Hok as [Hk _]. pose proof Hk as (_ & Heo & Hlife).
  pose proof (Heo _ _ (endpoint_point _ _ _ He)) as Hep.
  assert (Hopen : forall g, we_current_secret_generation e = Some g \/ we_overlap_secret_generation e = Some g ->
            exists x, x_secrets s' !! (i, g) = Some x /\ opens s' i g (ws_material_id x)).
  { intros g Hg. destruct (pointed_secret _ _ _ _ _ Hk (endpoint_point _ _ _ He) Hg) as (x & Hx & Hp & Ht).
    exists x. split; [done|]. apply unerased_opens; [done|done|done|]. intros j c Hc Hi Hgen _.
    destruct (lf_cleanup _ _ Hlife _ _ Hc) as (_ & y & Hy & _ & Hyt). rewrite Hi, Hgen in Hy. congruence. }
  split.
  - intros Hact. destruct (some_of_is_some _ (ek_active _ _ _ Hep Hact)) as [g Hg].
    destruct (Hopen g (or_introl Hg)) as (x & Hx & Hop). eauto.
  - intros g x Hx. destruct (ek_states _ _ _ Hep _ _ Hx) as [Ha Ho]. cbn in Ha, Ho.
    split; [done|]. split; [done|]. split; [|split].
    + intros Hst. destruct (Hopen g) as (y & Hy & Hop); [tauto|]. congruence.
    + intros Hd. by eapply (ek_disabled _ _ _ Hep).
    + intros Ht. destruct (lf_retired _ _ Hlife _ _ _ Hx Ht) as (j & c & Hc & Hi & Hg).
      destruct (lf_cleanup _ _ Hlife _ _ Hc) as (_ & y & Hy & Hm & _). exists j, c.
      rewrite Hi, Hg in Hy. unfold x_secrets in Hx. assert (y = x) as -> by congruence. done.
Qed.
End secrets_in_use.

(** ** An endpoint's life *)
(** Registered, sealed, tested, activated; an event is delivered to it and the
    delivery leased; then the endpoint is disabled and the erasure of its secret
    asked for while the lease still holds it. *)
#[local] Instance sample_webhook_io : WebhookIo :=
  {| hmac_sha256 := fun _ _ => []; base64url_no_pad := fun _ => "AgICAgICAgICAgICAgICAg"%string;
     resolve_secret := fun _ => Ok []; webhook_post := fun _ _ _ _ _ => delivered_outcome |}.

Definition sample_custody : WebhookCustody := mkWebhookCustody "instance-1" (Some (example_provider, 1)).
Definition control_start : ControlStore := mkControlStore (mkDeliveryStore sample_db ∅ ∅ ∅) no_materials.
Definition run (ops : list WebhookOp) (s : ControlStore) : ControlStore :=
  exec_webhooks (fun _ => true) sample_custody ops s.

Definition register_hook : list WebhookOp :=
  [ WPrepare no_materials (seconds 10) 60 70 1 2
      (mkPrepareWebhookEndpoint "https://app.example/hook"
         [UserEvent.ApplicationUserEventType_as_str UserEvent.Updated] "key" (repeat 3 32)) (seconds 10) 91;
    WFinalize 1 2 60 1 1 (repeat 3 32)
      (mkSealedProtectedMaterial 70 example_provider 1 (envelope 40) example_fingerprint) (seconds 11) 92;
    WTest 1 2 60 1 (seconds 12) 93; WActivate 1 2 60 2 (seconds 13) 94; WWorker append_updated ].
Definition served : ControlStore := run register_hook control_start.
Definition disable_hook : list WebhookOp :=
  [ WWorker (OpClaim (claim_draws (ct_delivery served) (seconds 21)) "worker" 90 (seconds 21) 30);
    WDisable (fun g => 80 + g) (seconds 23) 1 2 60 3 (seconds 23) 95;
    WWorker (OpClaimCleanup "worker" 90 (seconds 4000) 30 (fun _ => false)) ].

Lemma control_start_ok : webhook_ok control_start.
Proof.
  split; [|exact no_materials_ok]. split; [|split].
  - intros i g x. cbn. by rewrite lookup_empty.
  - intros i p Hp. cbv in Hp. by destruct i.
  - constructor; cbn; intros *; rewrite ?lookup_empty; try done.
Qed.

Lemma leased_secrets_stay_open_witness :
  exists d, deliveries (ct_delivery (run (register_hook ++ disable_hook) control_start)) !! 61 = Some d
    /\ exists g material, wd_claimed_secret_generation d = Some g
         /\ opens (run (register_hook ++ disable_hook) control_start) (wd_endpoint_id d) g material.
Proof.
  destruct (deliveries (ct_delivery (run (register_hook ++ disable_hook) control_start)) !! 61)
    as [d|] eqn:Hd; [|vm_compute in Hd; discriminate Hd].
  exists d. split; [reflexivity|].
  assert (Hl : is_leased d = true) by (vm_compute in Hd; injection Hd as <-; vm_compute; reflexivity).
  destruct (proj1 (leased_secrets_stay_open (fun _ => true) sample_custody (register_hook ++ disable_hook)
              control_start 61 d control_start_ok Hd Hl)) as (g & material & Hg & _ & Ho).
  exists g, material. split; [exact Hg|exact Ho].
Defined.

Lemma endpoint_signs_with_its_secrets_witness :
  exists e g x, x_endpoints served !! 60 = Some e /\ we_current_secret_generation e = Some g
    /\ x_secrets served !! (60, g) = Some x /\ opens served 60 g (ws_material_id x).
Proof.
  destruct (x_endpoints served !! 60) as [e|] eqn:He; [|vm_compute in He; discriminate He].
  assert (Ha : we_status e = "active"%string) by (vm_compute in He; injection He as <-; reflexivity).
  destruct (proj1 (endpoint_signs_with_its_secrets (fun _ => true) sample_custody register_hook control_start
              60 e control_start_ok He) Ha) as (g & x & Hg & Hx & Ho).
  exists e, g, x. split; [reflexivity|]. split; [exact Hg|]. split; [exact Hx|exact Ho].
Defined.

(** The event delivered to the endpoint, again. *)
Definition replay_hook (s : ControlStore) : ControlStore * result ApplicationError WebhookDeliveryRecord :=
  replay_delivery (ct_delivery s) 62 (seconds 30) 1 2 61 (seconds 30) 96 s.

Definition served_row : WebhookDeliveryRow :=
  Eval vm_compute in default queued_row (deliveries (ct_delivery served) !! 61).
Lemma served_view_ok : view_ok (view (ct_delivery served)).
Proof.
  assert (Hv : view (ct_delivery served) = mkView {[61 := served_row]} ∅) by (vm_compute; reflexivity).
  rewrite Hv. constructor; cbn.
  - intros id d [<- <-]%lookup_singleton_Some. vm_compute. reflexivity.
  - intros id d [<- <-]%lookup_singleton_Some. unfold attempts_bounded, served_row,
      MAX_WEBHOOK_DELIVERY_ATTEMPTS. cbn [wd_attempt_count wd_lease_generation wd_state is_pending is_leased].
    split; [lia|]. split; [lia|]. split; [lia|]. by intros Hl%bool_decide_eq_true.
  - by intros i j d e [<- _]%lookup_singleton_Some [<- _]%lookup_singleton_Some.
  - intros id n x. by rewrite lookup_empty.
  - intros id n x. by rewrite lookup_empty.
Qed.

Lemma replay_is_a_new_delivery_witness :
  exists new event_id, (replay_hook served).2 = Ok (delivery_record new event_id)
    /\ wd_replay_sequence new = 1
    /\ replay_of (ct_delivery served) (ct_delivery (replay_hook served).1) (seconds 30) 62 61 new event_id.
Proof.
  destruct (replay_hook served) as [s' [r|e]] eqn:Hr; [|vm_compute in Hr; discriminate Hr].
  destruct (replay_is_a_new_delivery (ct_delivery served) 62 (seconds 30) 1 2 61 (seconds 30) 96 served s' r
              served_view_ok Hr) as (new & event_id & -> & Hn).
  exists new, event_id. split; [reflexivity|]. split; [|exact Hn].
  apply (f_equal (fun x => rmap dr_replay_sequence x.2)) in Hr. vm_compute in Hr.
  by injection Hr.
Defined.

(** ** A history of two deliveries *)
Definition replayed_store : ControlStore := (replay_hook served).1.
Definition replayed_row : WebhookDeliveryRow :=
  Eval vm_compute in default served_row (deliveries (ct_delivery replayed_store) !! 62).
Lemma replayed_deliveries :
  view (ct_delivery replayed_store) = mkView (<[61 := served_row]> {[62 := replayed_row]}) ∅.
Proof. vm_compute. reflexivity. Qed.

Lemma two_rows (P : Z -> WebhookDeliveryRow -> Prop) :
  P 61 served_row -> P 62 replayed_row ->
  forall k d, (<[61 := served_row]> {[62 := replayed_row]} : gmap Z WebhookDeliveryRow) !! k = Some d -> P k d.
Proof.
  intros H1 H2 k d [[<- <-]|[_ [<- <-]%lookup_singleton_Some]]%lookup_insert_Some; done.
Qed.

Lemma replayed_view_ok : view_ok (view (ct_delivery replayed_store)).
Proof.
  rewrite replayed_deliveries. constructor; cbn.
  - apply two_rows; vm_compute; reflexivity.
  - apply two_rows; unfold attempts_bounded, served_row, replayed_row, MAX_WEBHOOK_DELIVERY_ATTEMPTS;
      cbn [wd_attempt_count wd_lease_generation wd_state is_pending is_leased];
      (split; [lia|]); (split; [lia|]); (split; [lia|]); by intros Hl%bool_decide_eq_true.
  - intros i j d e Hi _ Hl. exfalso. revert i d Hi Hl. apply (two_rows (fun _ d => is_leased d = true -> False));
      intros Hl; vm_compute in Hl; discriminate Hl.
  - intros id n x. by rewrite lookup_empty.
  - intros id n x. by rewrite lookup_empty.
Qed.

Module PagesExample.
Import SampleCodec.

Lemma replayed_writable : writable wd_created_at wd_id (deliveries (ct_delivery replayed_store)).
Proof.
  intros k d Hd. change (deliveries (ct_delivery replayed_store))
    with (vw_deliveries (view (ct_delivery replayed_store))) in Hd. rewrite replayed_deliveries in Hd. revert k d Hd.
  apply (two_rows (fun _ d => _ /\ _)); (split; [vm_compute; reflexivity|]); unfold uuid_ok; cbn; lia.
Qed.

Lemma pages_list_deliveries_witness :
  exists records, follow (fun c => service_list_deliveries replayed_store (seconds 40) 1 2 (Some 60) c (Some 1))
                    3 None = Some records
    /\ map dr_id records = [62; 61].
Proof.
  destruct (pages_list_deliveries replayed_store (seconds 40) 1 2 1 (Some 60) replayed_view_ok
              replayed_writable eq_refl ltac:(lia)) as (rows & records & Hrows & Hnd & _ & Hrec & Hf).
  assert (Hlen : (length rows <= 2)%nat).
  { replace 2%nat with (size (deliveries (ct_delivery replayed_store))) by (vm_compute; reflexivity).
    rewrite <- length_map_to_list, <- (length_map snd). apply submseteq_length, NoDup_submseteq; [done|].
    intros d [_ (k & Hk)]%Hrows. apply elem_of_map_to_list, (list_elem_of_fmap_2 snd) in Hk. exact Hk. }
  exists records. split; [apply Hf; lia|]. specialize (Hf 3%nat ltac:(lia)). vm_compute in Hf.
  injection Hf as <-. reflexivity.
Defined.
End PagesExample.
