(* ===== verification/ServerCredentials.v ===== *)
(** * The grammar of server credentials

    A credential is exactly [owl_server_v1.<16 bytes>.<32 bytes>] in base64; the
    issuer writes such credentials, and the message its digest is computed over
    determines the key it belongs to.  Cursors are read back as they were written. *)
From S2P Require Import Prelude.
From S2P Require Import Json.
From S2P Require Import Text.
From S2P Require Import Database.
From S2P Require Import Projection.
From S2P Require Import WebhookOutbox.
From S2P Require Import Custody.
From S2P Require Import ServerKeys.

Definition is_byte (b : Z) : Prop := 0 <= b < 256.

(** The documented behaviour of base64 without padding: what is written is read
    back, four characters stand for three bytes, of the URL-safe alphabet, and
    reading gives bytes. *)
Class Base64UrlLaws `{Base64Url} : Prop := {
  b64_reads : forall raw, Forall is_byte raw -> b64_decode (b64_encode raw) = Some raw;
  b64_length : forall raw, str_len (b64_encode raw) = (4 * list_len raw + 2) / 3;
  b64_alphabet : forall raw, forallb url_safe_byte (bytes (b64_encode raw)) = true;
  b64_bytes : forall value raw, b64_decode value = Some raw -> Forall is_byte raw
}.

(** ** Text in parts *)
Definition dot (s t : string) : string := String.append s (String.append "." t).

Lemma split_byte_app b a s t :
  byte_of a = b -> forallb (fun x => negb (x =? b)) (bytes s) = true ->
  split_byte b (String.append s (String a t)) = s :: split_byte b t.
Proof.
  intros Ha. induction s as [|c s IH]; cbn [bytes forallb]; intros Hs.
  { change (String.append "" ?r) with r. cbn [split_byte]. by rewrite Ha, Z.eqb_refl. }
  change (String.append (String c s) ?r) with (String c (String.append s r)). cbn [split_byte].
  apply andb_true_iff in Hs as [Hc Hs]. rewrite (proj1 (negb_true_iff _) Hc), (IH Hs). done.
Qed.

Lemma split_byte_none b s :
  forallb (fun x => negb (x =? b)) (bytes s) = true -> split_byte b s = [s].
Proof.
  induction s as [|c s IH]; cbn [split_byte bytes forallb]; [done|]. intros [Hc Hs]%andb_true_iff.
  by rewrite (proj1 (negb_true_iff _) Hc), (IH Hs).
Qed.

Lemma split_byte_unfold b s p ps :
  split_byte b s = p :: ps ->
  match ps with
  | [] => s = p
  | _ :: _ => exists a t, byte_of a = b /\ s = String.append p (String a t) /\ split_byte b t = ps
  end.
Proof.
  revert p ps. induction s as [|c s IH]; cbn [split_byte]; intros p ps; [by intros [= <- <-]|].
  destruct (byte_of c =? b) eqn:Hc.
  - apply Z.eqb_eq in Hc. intros [= <- <-]. destruct (split_byte_cons b s) as (q & qs & Hq).
    rewrite Hq. eauto.
  - destruct (split_byte_cons b s) as (q & qs & Hq). rewrite Hq. intros [= <- <-].
    specialize (IH _ _ Hq). destruct qs; [by rewrite IH|].
    destruct IH as (a & t & Ha & -> & Ht). by exists a, t.
Qed.

Lemma dot_eq s t : dot s t = String.append s (String "."%char t).
Proof. done. Qed.
Lemma dot_is_char a : byte_of a = 0x2E -> a = "."%char.
Proof. intros Ha. apply byte_of_inj. by rewrite Ha. Qed.

Lemma split_three s x y z :
  split_byte 0x2E s = [x; y; z] -> s = dot x (dot y z).
Proof.
  intros (a & t & Ha & -> & Ht)%split_byte_unfold. apply split_byte_unfold in Ht as (b & u & Hb & -> & Hu).
  apply split_byte_unfold in Hu as ->. by rewrite (dot_is_char _ Ha), (dot_is_char _ Hb).
Qed.

Definition no_dot (s : string) : Prop := forallb (fun x => negb (x =? 0x2E)) (bytes s) = true.

Lemma split_dots x y z :
  no_dot x -> no_dot y -> no_dot z -> split_byte 0x2E (dot x (dot y z)) = [x; y; z].
Proof.
  intros Hx Hy Hz. rewrite (dot_eq x), (dot_eq y), !split_byte_app by done. by rewrite split_byte_none.
Qed.

Lemma url_safe_no_dot s : forallb url_safe_byte (bytes s) = true -> no_dot s.
Proof.
  unfold no_dot. rewrite !forallb_forall. intros Hs x Hx. specialize (Hs x Hx).
  apply negb_true_iff, Z.eqb_neq. intros ->. done.
Qed.

Lemma url_safe_ascii s : forallb url_safe_byte (bytes s) = true -> is_ascii_str s = true.
Proof.
  unfold is_ascii_str. rewrite !forallb_forall. intros Hs x Hx. specialize (Hs x Hx).
  unfold url_safe_byte, is_ascii_alphanumeric, is_ascii_lowercase, is_ascii_uppercase, is_ascii_digit, in_range in Hs.
  lia.
Qed.

Lemma is_ascii_app s t : is_ascii_str (String.append s t) = is_ascii_str s && is_ascii_str t.
Proof. unfold is_ascii_str. by rewrite bytes_app, forallb_app. Qed.

(** ** Credentials *)
Section credentials.
Context `{CanonicalHash} `{Hmac} `{UnixTime} `{CntrlClass} `{RecordCodec} `{Base64UrlLaws}.

Lemma canonical_length (raw : list Z) n :
  list_len raw = n ->
  n = SERVER_KEY_PUBLIC_ID_BYTES /\ str_len (b64_encode raw) = SERVER_KEY_PUBLIC_ID_LENGTH
  \/ n = SERVER_KEY_SECRET_BYTES /\ str_len (b64_encode raw) = SERVER_KEY_SECRET_LENGTH
  \/ n <> SERVER_KEY_PUBLIC_ID_BYTES /\ n <> SERVER_KEY_SECRET_BYTES.
Proof.
  intros Hn. rewrite b64_length, Hn. unfold SERVER_KEY_PUBLIC_ID_BYTES, SERVER_KEY_SECRET_BYTES.
  destruct (decide (n = 16)) as [->|]; [by left|]. destruct (decide (n = 32)) as [->|]; [by right; left|].
  by right; right.
Qed.

(** The canonical texts are the encodings of the byte strings of the length. *)
Lemma canonical_iff value n :
  is_canonical_base64url value n = true <->
  (n = SERVER_KEY_PUBLIC_ID_BYTES \/ n = SERVER_KEY_SECRET_BYTES)
  /\ exists raw, Forall is_byte raw /\ list_len raw = n /\ value = b64_encode raw
     /\ b64_decode value = Some raw.
Proof.
  unfold is_canonical_base64url. split.
  - intros Hc.
    assert (Hn : n = SERVER_KEY_PUBLIC_ID_BYTES \/ n = SERVER_KEY_SECRET_BYTES).
    { destruct (n =? SERVER_KEY_PUBLIC_ID_BYTES) eqn:E1; [lia|].
      destruct (n =? SERVER_KEY_SECRET_BYTES) eqn:E2; [lia|done]. }
    split; [done|]. destruct (if n =? _ then _ else _) as [l|]; [|done].
    destruct (b64_decode value) as [raw|] eqn:E; [|by rewrite andb_false_r in Hc].
    cbn in Hc. bool_prop. destruct Hc as [_ [Hl He]].
    exists raw. split; [by eapply b64_bytes|]. split; [lia|]. by split.
  - intros [Hn (raw & Hb & Hl & -> & Hd)]. pose proof (canonical_length raw n Hl) as Hlen.
    rewrite Hd. cbn. rewrite Hl, Z.eqb_refl, (bool_decide_eq_true_2 _ eq_refl), b64_alphabet, !andb_true_r.
    cbn [andb]. destruct Hn as [-> | ->]; cbn;
      destruct Hlen as [[? ->]|[[? ->]|[? ?]]]; done.
Qed.

Definition credential_text (public_id secret : list Z) : string :=
  dot SERVER_KEY_CREDENTIAL_PREFIX (dot (b64_encode public_id) (b64_encode secret)).

Lemma credential_text_length public_id secret :
  list_len public_id = 16 -> list_len secret = 32 ->
  str_len (credential_text public_id secret) = SERVER_KEY_CREDENTIAL_LENGTH.
Proof.
  intros Hp Hs. unfold credential_text, dot. rewrite !str_len_app, !b64_length, Hp, Hs. done.
Qed.

Lemma parse_credential value public_key_id secret :
  ParsedServerCredential_parse value = Ok (mkParsedServerCredential public_key_id secret) <->
  exists public_id, Forall is_byte public_id /\ list_len public_id = SERVER_KEY_PUBLIC_ID_BYTES
    /\ Forall is_byte secret /\ list_len secret = SERVER_KEY_SECRET_BYTES
    /\ public_key_id = b64_encode public_id /\ value = credential_text public_id secret.
Proof.
  unfold ParsedServerCredential_parse. split.
  - intros Hp. inv_ok. destruct (split_byte _ _) as [|v [|p [|e [|]]]] eqn:Hsp; try discriminate Hp.
    apply split_three in Hsp. inv_ok. bool_prop. subst.
    match goal with Hc : (_ /\ _) /\ _ |- _ => destruct Hc as [[-> Hpub] Hsec] end.
    apply canonical_iff in Hpub as [_ (raw & Hb & Hl & -> & _)].
    apply canonical_iff in Hsec as [_ (raw' & Hb' & Hl' & -> & Hd)].
    assert (raw' = secret) as -> by congruence. by exists raw.
  - intros (raw & Hb & Hl & Hb' & Hl' & -> & ->).
    rewrite credential_text_length, Z.eqb_refl by done. cbn [negb orb].
    assert (Ha : forall r, is_ascii_str (b64_encode r) = true) by (intros; apply url_safe_ascii, b64_alphabet).
    assert (Hn : forall r, no_dot (b64_encode r)) by (intros; apply url_safe_no_dot, b64_alphabet).
    assert (is_ascii_str (credential_text raw secret) = true) as ->.
    { unfold credential_text, dot. by rewrite !is_ascii_app, !Ha. }
    cbn [negb]. unfold credential_text. rewrite split_dots by done.
    rewrite (bool_decide_eq_true_2 _ eq_refl). cbn [negb orb].
    assert (Hc : forall r n, list_len r = n -> Forall is_byte r ->
      n = SERVER_KEY_PUBLIC_ID_BYTES \/ n = SERVER_KEY_SECRET_BYTES ->
      is_canonical_base64url (b64_encode r) n = true).
    { intros r n Hr Hbr Hn'. apply canonical_iff. split; [done|]. exists r. by rewrite b64_reads. }
    rewrite !Hc by auto. cbn [negb orb]. rewrite b64_reads by done. cbn.
    by rewrite Hl'.
Qed.

(** C31: the credentials the server accepts are exactly those it writes: a text
    parses if and only if it is [owl_server_v1], sixteen bytes and thirty-two
    bytes in base64, joined by dots, and it parses to that public id and those
    secret bytes. *)
Theorem server_credential_grammar value public_key_id secret :
  ParsedServerCredential_parse value = Ok (mkParsedServerCredential public_key_id secret) <->
  exists public_id, Forall is_byte public_id /\ list_len public_id = SERVER_KEY_PUBLIC_ID_BYTES
    /\ Forall is_byte secret /\ list_len secret = SERVER_KEY_SECRET_BYTES
    /\ public_key_id = b64_encode public_id /\ value = credential_text public_id secret.
Proof. apply parse_credential. Qed.

(** ** Issuing *)
Lemma display_prefix_ok public_key_id prefix :
  server_key_display_prefix public_key_id = Ok prefix <->
  is_canonical_base64url public_key_id SERVER_KEY_PUBLIC_ID_BYTES = true
  /\ prefix = dot SERVER_KEY_CREDENTIAL_PREFIX public_key_id.
Proof.
  unfold server_key_display_prefix, dot. destruct (is_canonical_base64url _ _); cbn; naive_solver.
Qed.

Lemma dot_assoc x y z : dot (dot x y) z = dot x (dot y z).
Proof. apply bytes_inj. unfold dot. by rewrite !bytes_app, <- !app_assoc. Qed.

(** The bytes the operating system draws. *)
Definition drawn (random : option (list Z)) (n : Z) (raw : list Z) : Prop :=
  random = Some raw /\ Forall is_byte raw /\ list_len raw = n.

Lemma issue_ok ring rp rs public_id secret project_id key_id issued :
  drawn rp 16 public_id -> drawn rs 32 secret ->
  issue ring rp rs project_id key_id = Ok issued <->
  exists d, digest ring project_id key_id (b64_encode public_id) secret (kg_active_version ring) = Ok d
    /\ issued = mkIssuedServerCredential (b64_encode public_id)
                  (dot SERVER_KEY_CREDENTIAL_PREFIX (b64_encode public_id)) (kg_active_version ring) d
                  (credential_text public_id secret).
Proof.
  intros (-> & Hb & Hl) (-> & Hb' & Hl'). unfold issue. cbn [ok_or rbind].
  assert (Hp : server_key_display_prefix (b64_encode public_id)
               = Ok (dot SERVER_KEY_CREDENTIAL_PREFIX (b64_encode public_id))).
  { apply display_prefix_ok. split; [|done]. apply canonical_iff. split; [by left|].
    exists public_id. by rewrite b64_reads. }
  rewrite Hp. cbn [rbind].
  fold (dot (dot SERVER_KEY_CREDENTIAL_PREFIX (b64_encode public_id)) (b64_encode secret)).
  rewrite dot_assoc. fold (credential_text public_id secret).
  assert (Hc : ParsedServerCredential_parse (credential_text public_id secret)
               = Ok (mkParsedServerCredential (b64_encode public_id) secret)).
  { apply parse_credential. by exists public_id. }
  unfold OneTimeServerCredential_new. rewrite Hc. cbn [rbind].
  destruct (digest _ _ _ _ _ _) as [d|e]; cbn; naive_solver.
Qed.

(** ** What is digested *)
Definition frame (value : list Z) : list Z := be_bytes 4 (list_len value) ++ value.
Definition framed (values : list (list Z)) : list Z := concat (map frame values).
Definition frameable (value : list Z) : Prop := list_len value < 2 ^ 32.

Lemma update_framed_ok mac value out :
  update_framed mac value = Ok out <-> frameable value /\ out = mac ++ frame value.
Proof. unfold update_framed, frameable, frame. destruct (_ <=? _) eqn:E; naive_solver lia. Qed.

Lemma framed_inj l1 l2 :
  Forall frameable l1 -> Forall frameable l2 -> length l1 = length l2 -> framed l1 = framed l2 -> l1 = l2.
Proof.
  revert l2. induction l1 as [|x l1 IH]; intros [|y l2] Hl1 Hl2 Hlen Heq; [done..|].
  apply Forall_cons in Hl1 as [Hx Hl1]. apply Forall_cons in Hl2 as [Hy Hl2]. injection Hlen as Hlen.
  unfold framed in Heq. cbn [map concat] in Heq. unfold frame in Heq. rewrite <- !app_assoc in Heq.
  apply app_inj_length in Heq as [Hl Heq]; [|by rewrite !be_bytes_length].
  unfold frameable, list_len in *. apply be_bytes_inj in Hl; [|lia..].
  apply app_inj_length in Heq as [-> Heq]; [|lia]. f_equal. by apply IH.
Qed.

Definition digest_fields (context : string) (project_id key_id : Uuid) (public_key_id : string)
    (secret : list Z) (version : Z) : list (list Z) :=
  [bytes context; be_bytes 4 version; bytes SERVER_KEY_CREDENTIAL_PREFIX; be_bytes 16 project_id;
   be_bytes 16 key_id; bytes public_key_id; secret].

Lemma digest_message_ok c p k i x v m :
  digest_message c p k i x v = Ok m <->
  Forall frameable (digest_fields c p k i x v)
  /\ m = SERVER_KEY_DIGEST_DOMAIN ++ framed (digest_fields c p k i x v).
Proof.
  unfold digest_message, digest_fields. split.
  - intros Hm. inv_ok.
    repeat match goal with Hu : update_framed _ _ = Ok _ |- _ => apply update_framed_ok in Hu as [? ->] end.
    split; [by repeat constructor|]. unfold framed. cbn [map concat]. by rewrite <- !app_assoc, app_nil_r.
  - intros [Hf ->]. repeat (apply Forall_cons in Hf as [? Hf]).
    repeat (rewrite (proj2 (update_framed_ok _ _ _)) by (split; [eassumption|reflexivity]); cbn [rbind]).
    f_equal. unfold framed. cbn [map concat]. by rewrite <- !app_assoc, app_nil_r.
Qed.

Definition uuid_range (u : Uuid) : Prop := 0 <= u < 2 ^ 128.

(** The message names the key: equal messages are of the same deployment,
    version, project, key, public id and secret. *)
Lemma digest_message_inj c1 p1 k1 i1 x1 v1 c2 p2 k2 i2 x2 v2 m :
  uuid_range p1 -> uuid_range p2 -> uuid_range k1 -> uuid_range k2 ->
  0 <= v1 < 2 ^ 32 -> 0 <= v2 < 2 ^ 32 ->
  digest_message c1 p1 k1 i1 x1 v1 = Ok m -> digest_message c2 p2 k2 i2 x2 v2 = Ok m ->
  c1 = c2 /\ p1 = p2 /\ k1 = k2 /\ i1 = i2 /\ x1 = x2 /\ v1 = v2.
Proof.
  intros Hp1 Hp2 Hk1 Hk2 Hv1 Hv2 [Hf1 ->]%digest_message_ok [Hf2 Hm]%digest_message_ok.
  apply app_inv_head, framed_inj in Hm; [|done..]. pose proof (fun n => f_equal (fun l => nth n l []) Hm) as Hn. unfold uuid_range in *.
  split; [apply bytes_inj, (Hn 0%nat)|]. split; [apply (be_bytes_inj 16), (Hn 3%nat); cbn; lia|].
  split; [apply (be_bytes_inj 16), (Hn 4%nat); cbn; lia|]. split; [apply bytes_inj, (Hn 5%nat)|].
  split; [apply (Hn 6%nat)|apply (be_bytes_inj 4), (Hn 1%nat); cbn; lia].
Qed.

(** ** Cursors *)
Lemma be_value_range l acc :
  Forall is_byte l -> 0 <= acc -> 0 <= be_value acc l < (acc + 1) * 256 ^ list_len l.
Proof.
  unfold list_len. revert acc. induction l as [|b l IH]; intros acc Hl Hacc.
  { cbn. lia. }
  apply Forall_cons in Hl as [Hb Hl]. specialize (IH (acc * 256 + b) Hl). unfold is_byte in Hb.
  cbn [be_value length]. rewrite Nat2Z.inj_succ, Z.pow_succ_r by lia. nia.
Qed.

Lemma be_bytes_mod w v : be_bytes w v = be_bytes w (v mod 256 ^ Z.of_nat w).
Proof.
  revert v. induction w as [|w IH]; intros v; [done|]. cbn [be_bytes].
  rewrite Nat2Z.inj_succ, Z.pow_succ_r by lia. f_equal.
  - rewrite (IH (v / 256)), (IH (_ / 256)). f_equal.
    rewrite Z.rem_mul_r by lia. rewrite (Z.mul_comm 256 (_ mod _)), Z.div_add by lia.
    rewrite (Z.div_small (v mod 256)) by (apply Z.mod_pos_bound; lia). rewrite Z.add_0_l.
    by rewrite Z.mod_mod by lia.
  - f_equal. rewrite Z.rem_mul_r by lia.
    rewrite (Z.mul_comm 256 (_ mod _)), Z.mod_add, Z.mod_mod by lia. done.
Qed.

Lemma i128_round_trip v : - 2 ^ 127 <= v < 2 ^ 127 -> i128_of_be_bytes (be_bytes 16 v) = v.
Proof.
  intros Hv. unfold i128_of_be_bytes. rewrite be_bytes_mod, be_value_be_bytes by (apply Z.mod_pos_bound; lia).
  change (256 ^ Z.of_nat 16) with (2 ^ 128). rewrite Z.add_0_l.
  destruct (Z_lt_le_dec v 0).
  - replace (v mod 2 ^ 128) with (v + 2 ^ 128); [destruct (_ <? _) eqn:E; lia|].
    rewrite <- (Z.mod_add v 1) by lia. rewrite Z.mod_small; lia.
  - rewrite Z.mod_small by lia. destruct (_ <? _) eqn:E; lia.
Qed.

Lemma be_bytes_are_bytes w v : Forall is_byte (be_bytes w v).
Proof.
  revert v. induction w as [|w IH]; intros v; [constructor|]. cbn [be_bytes]. apply Forall_app. split; [done|].
  constructor; [|done]. apply Z.mod_pos_bound. lia.
Qed.

Lemma cursor_round_trip_bytes t id :
  from_unix_timestamp_nanos t = Some t -> - 2 ^ 127 <= t < 2 ^ 127 -> uuid_range id ->
  cursor_parse (cursor_encode t id) = Ok (t, id).
Proof.
  intros Ht Hr Hid. unfold cursor_parse, cursor_encode.
  set (raw := [SERVER_KEY_CURSOR_VERSION] ++ be_bytes 16 t ++ be_bytes 16 id).
  assert (Hlen : list_len raw = SERVER_KEY_CURSOR_BYTES).
  { unfold list_len, raw. rewrite !length_app, !be_bytes_length. done. }
  rewrite b64_length, Hlen, (url_safe_ascii _ (b64_alphabet raw)).
  change (64 <? (4 * SERVER_KEY_CURSOR_BYTES + 2) / 3) with false. cbn [negb orb].
  rewrite b64_reads.
  2: { unfold raw. apply Forall_app; split; [|apply Forall_app; split; apply be_bytes_are_bytes].
       unfold is_byte, SERVER_KEY_CURSOR_VERSION. repeat constructor; lia. }
  cbn [ok_or rbind]. rewrite Hlen, Z.eqb_refl, (bool_decide_eq_true_2 _ eq_refl). cbn [negb orb].
  unfold raw. cbn [head app]. rewrite (bool_decide_eq_true_2 _ eq_refl). cbn [negb drop].
  change (drop 0 ?l) with l. rewrite take_app_length' by by rewrite be_bytes_length.
  change (drop 17 (SERVER_KEY_CURSOR_VERSION :: ?l)) with (drop 16 l).
  rewrite drop_app_length' by by rewrite be_bytes_length.
  rewrite i128_round_trip, Ht by done. cbn [ok_or rbind]. unfold uuid_range in Hid.
  rewrite be_value_be_bytes by (cbn; lia). by rewrite Z.add_0_l.
Qed.
End credentials.
