(* ===== verification/ServerKeyProofs.v ===== *)
(** * Theorems on server keys

    What the transactions do, how a key's row may change, and the invariant of the
    table: coherent rows, distinct public ids, at most one key per project that is
    not acknowledged, at most ten active ones, and answers on record that agree
    with the keys. *)
From S2P Require Import Prelude.
From S2P Require Import Json.
From S2P Require Import Database.
From S2P Require Import Projection.
From S2P Require Import WebhookOutbox.
From S2P Require Import SessionStore.
From S2P Require Import WebhookDeliveryProofs.
From S2P Require Import Custody.
From S2P Require Import SessionAuthority.
From S2P Require Import ServerKeys.
From S2P Require Import ServerCredentials.
From S2P Require Import ServerApi.

(** A record is read back from its JSON. *)
Class RecordCodecLaws `{RecordCodec} : Prop := {
  record_reads : forall r v, record_to_value r = Some v -> record_from_value v = Some r
}.

(** ** Counting rows *)
Section counting.
Context {Row : Type} (p : Row -> bool).

Definition count_rows (t : gmap Z Row) : nat := length (List.filter p (map snd (map_to_list t))).

Lemma count_permutation (l l' : list Row) :
  l ≡ₚ l' -> length (List.filter p l) = length (List.filter p l').
Proof.
  induction 1 as [|x l l' _ IH|x y l|l1 l2 l3 _ IH1 _ IH2]; cbn; [done|..|congruence].
  - destruct (p x); cbn; congruence.
  - by destruct (p x), (p y).
Qed.

Lemma count_insert t k x :
  t !! k = None -> count_rows (<[k := x]> t) = ((if p x then 1 else 0) + count_rows t)%nat.
Proof.
  intros Hk. unfold count_rows. etransitivity.
  { apply count_permutation. apply fmap_Permutation. by apply map_to_list_insert. }
  cbn. by destruct (p x).
Qed.

Lemma count_update t k old new :
  t !! k = Some old -> (p new = true -> p old = true) -> (count_rows (<[k := new]> t) <= count_rows t)%nat.
Proof.
  intros Hk Hp. rewrite <- (insert_delete_id t k old Hk) at 2. rewrite <- (insert_delete_eq t k new).
  rewrite !count_insert by apply lookup_delete_eq. destruct (p new), (p old); naive_solver lia.
Qed.

Lemma count_two t :
  (2 <= count_rows t)%nat ->
  exists i j a b, i <> j /\ t !! i = Some a /\ t !! j = Some b /\ p a = true /\ p b = true.
Proof.
  unfold count_rows. replace (List.filter p (map snd (map_to_list t)))
    with (map snd (List.filter (fun e => p e.2) (map_to_list t))).
  2: { induction (map_to_list t) as [|[k x] l IH]; cbn; [done|]. destruct (p x); cbn; by rewrite IH. }
  assert (Hn : NoDup (List.filter (fun e => p e.2) (map_to_list t))).
  { apply NoDup_ListNoDup, List.NoDup_filter, NoDup_ListNoDup, NoDup_map_to_list. }
  assert (Hin : forall e, e ∈ List.filter (fun e => p e.2) (map_to_list t) -> t !! e.1 = Some e.2 /\ p e.2 = true).
  { intros [k x] [He Hp]%list_elem_of_In%filter_In. split; [|done].
    by apply elem_of_map_to_list, list_elem_of_In. }
  destruct (List.filter _ _) as [|[i a] [|[j b] l]]; cbn; [lia..|]. intros _.
  destruct (Hin (i, a)) as [Ha Hpa]; [apply list_elem_of_here|].
  destruct (Hin (j, b)) as [Hb Hpb]; [apply list_elem_of_further, list_elem_of_here|].
  exists i, j, a, b. split; [|done]. cbn in *. intros <-. assert (a = b) as <- by congruence.
  apply NoDup_cons in Hn as [Hn _]. apply Hn, list_elem_of_here.
Qed.
End counting.

Section server_keys.
Context `{CanonicalHash} `{Base64Url} `{Hmac} `{UnixTime} `{CntrlClass} `{RecordCodec}.

(** ** What the statements do *)
Lemma k_check_ok c e s s' u : k_check c e s = (s', Ok u) -> c = true /\ s' = s.
Proof. unfold k_check. destruct c; [|done]. intros [= <-]. done. Qed.

Lemma k_transaction_ok {E A} (body : mut KeyStore E A) s s' a :
  k_transaction body s = (s', Ok a) -> body s = (s', Ok a).
Proof. unfold k_transaction. destruct (body s) as [x [y|f]]; naive_solver. Qed.
Lemma k_transaction_err {E A} (body : mut KeyStore E A) s s' e :
  k_transaction body s = (s', Err e) -> s' = s.
Proof. unfold k_transaction. destruct (body s) as [x [y|f]]; naive_solver. Qed.

Lemma attempt_ok {A} (body : ktxn A) s s' a : attempt body s = (s', Ok a) -> body s = (s', Ok a).
Proof. unfold attempt. destruct (body s) as [x [y|f]]; cbn; naive_solver. Qed.

Ltac inv_k := repeat first
  [ progress inv_d
  | match goal with
    | Hx : k_check _ _ _ = (_, Ok _) |- _ => apply k_check_ok in Hx as [? ->]
    | Hx : attempt _ _ = (_, Ok _) |- _ => apply attempt_ok in Hx
    | Hx : k_transaction _ _ = (_, Ok _) |- _ => apply k_transaction_ok in Hx
    end ].

Lemma insert_server_key_ok row s s' u :
  insert_server_key row s = (s', Ok u) ->
  s' = set_ks_keys (<[sv_id row := row]> (ks_keys s)) s /\ ks_keys s !! sv_id row = None
  /\ server_key_check row = true /\ unique_in server_key_conflict (sv_id row) row (ks_keys s) = true.
Proof.
  unfold insert_server_key. intros Hs. inv_k. bool_prop. destruct (ks_keys _ !! _) eqn:E; [naive_solver|].
  naive_solver.
Qed.

Lemma update_server_key_ok row s s' u :
  update_server_key row s = (s', Ok u) ->
  s' = set_ks_keys (<[sv_id row := row]> (ks_keys s)) s
  /\ (exists old, ks_keys s !! sv_id row = Some old /\ lifecycle_update old row = true)
  /\ server_key_check row = true /\ unique_in server_key_conflict (sv_id row) row (ks_keys s) = true.
Proof.
  unfold update_server_key. intros Hs. inv_k. bool_prop. destruct (ks_keys _ !! _) eqn:E; [|naive_solver].
  cbn in *. naive_solver.
Qed.

Lemma idempotency_fresh s row :
  idempotency_check s row = true -> ks_idempotency s !! ci_idempotency_key row = None.
Proof.
  unfold idempotency_check. destruct (ks_idempotency _ !! _); [|done]. by rewrite !andb_false_l.
Qed.

(** A completed request on record. *)
Definition completed_row (at_ : OffsetDateTime) (key : string) (project_id resource : Uuid)
    (kind : string) (digest : list Z) (value : json) : ControlIdempotencyRow :=
  {| ci_idempotency_key := key; ci_project_id := Some project_id; ci_request_digest := digest;
     ci_state := "completed"; ci_result_resource_id := Some resource; ci_response := Some value;
     ci_operation_kind := kind; ci_request_scope := uuid_hyphenated project_id; ci_expires_at := None;
     ci_completed_at := Some at_ |}.

Lemma complete_idempotency_ok at_ key p x kind digest r s s' u :
  complete_idempotency at_ key p x kind (uuid_hyphenated p) digest r s = (s', Ok u) ->
  exists v, record_to_value r = Some v /\ ks_idempotency s !! key = None
    /\ s' = mkKeyStore (ks_db s) (ks_keys s)
              (<[key := completed_row at_ key p x kind digest v]> (ks_idempotency s)).
Proof.
  unfold complete_idempotency, insert_idempotency. intros Hs. inv_k.
  match goal with Hc : idempotency_check _ _ = true |- _ => apply idempotency_fresh in Hc end.
  inv_ok. by eexists.
Qed.

Lemma audit_ok r action c key s s' u :
  insert_server_key_audit r action c key s = (s', Ok u) ->
  exists a, s' = mkKeyStore (set_db_audit a (ks_db s)) (ks_keys s) (ks_idempotency s).
Proof. unfold insert_server_key_audit. intros Hs. inv_k. by eexists. Qed.

(** ** What the transactions do *)
(** Their writes: one row of the keys, one record, the audit log. *)
Definition wrote (s s' : KeyStore) (row : ServerKeyRow) (request : ControlIdempotencyRow) : Prop :=
  ks_keys s' = <[sv_id row := row]> (ks_keys s)
  /\ ks_idempotency s' = <[ci_idempotency_key request := request]> (ks_idempotency s)
  /\ exists a, ks_db s' = set_db_audit a (ks_db s).

Lemma create_effect at_ prepared s s' r :
  create_project_server_key_attempt at_ prepared s = (s', r) ->
  (s' = s /\ forall stored, r = Ok stored -> exists m, stored = Stored.ReplayWithoutSecret m
      /\ replay s (pp_idempotency_key prepared) (pp_project_id prepared) CREATE_OPERATION_KIND
           (uuid_hyphenated (pp_project_id prepared)) (pp_request_digest prepared) = Ok (Some m)
      /\ sr_project_id m = pp_project_id prepared)
  \/ exists record v, r = Ok (Stored.Created record)
    /\ server_key_record (new_server_key prepared) = Ok record
    /\ ks_keys s !! pp_id prepared = None
    /\ server_key_check (new_server_key prepared) = true
    /\ unique_in server_key_conflict (pp_id prepared) (new_server_key prepared) (ks_keys s) = true
    /\ may_create_key s (pp_project_id prepared) = Ok tt
    /\ ks_idempotency s !! pp_idempotency_key prepared = None
    /\ record_to_value record = Some v
    /\ wrote s s' (new_server_key prepared)
         (completed_row at_ (pp_idempotency_key prepared) (pp_project_id prepared) (pp_id prepared)
            CREATE_OPERATION_KIND (pp_request_digest prepared) v).
Proof.
  unfold create_project_server_key_attempt. destruct (_ || _); [intros [= <- <-]; by left|].
  destruct r as [r|e]; [|intros ->%k_transaction_err; by left].
  intros Hs. inv_k.
  match goal with Hm : context [match ?o with _ => _ end] |- _ => destruct o as [record|] end; inv_k.
  { left. split; [done|]. intros ? [= <-]. bool_prop. by exists record. }
  right. inv_ok.
  match goal with Hs : store_created_key _ _ _ = _ |- _ => unfold store_created_key in Hs; inv_k end.
  repeat match goal with
  | Hi : insert_server_key _ _ = _ |- _ => apply insert_server_key_ok in Hi as (-> & ? & ? & ?)
  | Ha : insert_server_key_audit _ _ _ _ _ = _ |- _ => apply audit_ok in Ha as (aud & ->)
  | Hc : complete_idempotency _ _ _ _ _ _ _ _ _ = _ |- _ => apply complete_idempotency_ok in Hc as (v & ? & ? & ->)
  end.
  exists x2, v. repeat (split; [eassumption || reflexivity|]). by exists aud.
Qed.

Lemma change_effect at_ p k rev allowed next action kind key digest c s s' record :
  change_key at_ p k rev allowed next action kind key digest c s = (s', Ok record) ->
  (forall n m, sv_id (next n m) = sv_id m) ->
  exists model v, let row := next (rev + 1) model in
    ks_keys s !! k = Some model /\ sv_project_id model = p /\ sv_revision model = rev
    /\ allowed model = true /\ server_key_record row = Ok record
    /\ (exists old, ks_keys s !! sv_id row = Some old /\ lifecycle_update old row = true)
    /\ server_key_check row = true
    /\ unique_in server_key_conflict (sv_id row) row (ks_keys s) = true
    /\ ks_idempotency s !! key = None /\ record_to_value record = Some v
    /\ wrote s s' row (completed_row at_ key p k kind digest v).
Proof.
  unfold change_key. intros Hs Hid. inv_k.
  repeat match goal with
  | Hf : find_by_id _ _ _ = Some _ |- _ => apply find_by_id_some in Hf as [? ?]
  | Hn : checked_add_i64 _ _ = Some _ |- _ => apply checked_add_i64_some in Hn as [-> _]
  | Hi : update_server_key _ _ = _ |- _ => apply update_server_key_ok in Hi as (-> & ? & ? & ?)
  | Ha : insert_server_key_audit _ _ _ _ _ = _ |- _ => apply audit_ok in Ha as (aud & ->)
  | Hc : complete_idempotency _ _ _ _ _ _ _ _ _ = _ |- _ => apply complete_idempotency_ok in Hc as (v & ? & ? & ->)
  | _ => progress inv_ok
  end.
  bool_prop. subst. do 2 eexists. cbn zeta. repeat (split; [eassumption || reflexivity|]). by exists aud.
Qed.

Definition acknowledged_row (at_ : OffsetDateTime) (revision : Z) (m : ServerKeyRow) : ServerKeyRow :=
  key_with (sv_status m) revision (Some at_) (sv_last_used_at m) (sv_revoked_at m) m.
Definition revoked_row (at_ : OffsetDateTime) (revision : Z) (m : ServerKeyRow) : ServerKeyRow :=
  key_with "revoked" revision (sv_credential_acknowledged_at m) (sv_last_used_at m) (Some at_) m.

(** A command on a key: it wrote the row [next] of the key, or answered from the
    record, or failed. *)
Definition changed (s s' : KeyStore) (project_id key_id : Uuid) (revision : Z)
    (next : Z -> ServerKeyRow -> ServerKeyRow) (kind key : string)
    (r : result ApplicationError ProjectServerKeyRecord) : Prop :=
  exists model at_ digest v record, let row := next (revision + 1) model in
    r = Ok record /\ ks_keys s !! key_id = Some model /\ sv_project_id model = project_id
    /\ server_key_record row = Ok record
    /\ (exists old, ks_keys s !! sv_id row = Some old /\ lifecycle_update old row = true)
    /\ server_key_check row = true
    /\ unique_in server_key_conflict (sv_id row) row (ks_keys s) = true
    /\ ks_idempotency s !! key = None /\ record_to_value record = Some v
    /\ wrote s s' row (completed_row at_ key project_id key_id kind digest v).

Lemma acknowledge_effect at_ command digest now s s' r :
  acknowledge_project_server_key_delivery at_ command digest now s = (s', r) ->
  s' = s \/ changed s s' (ac_project_id command) (ac_key_id command) (ac_expected_revision command)
              (acknowledged_row now) ACKNOWLEDGE_OPERATION_KIND (ac_idempotency_key command) r.
Proof.
  unfold acknowledge_project_server_key_delivery. destruct (negb _); [intros [= <- <-]; by left|].
  destruct r as [r|e]; [|intros ->%k_transaction_err; by left]. intros Hs. inv_k.
  match goal with Hm : context [match ?o with _ => _ end] |- _ => destruct o end; inv_k; [by left|].
  match goal with Hc : change_key _ _ _ _ _ _ _ _ _ _ _ _ = _ |- _ =>
    apply change_effect in Hc as (m & v & Hm & Hp & _ & _ & Hr & ? & ? & ? & ? & ? & Hw); [|done] end.
  right. by exists m, at_, digest, v, r.
Qed.

Lemma revoke_effect at_ command digest now s s' r :
  revoke_project_server_key at_ command digest now s = (s', r) ->
  (s' = s /\ forall record, r = Ok record -> exists row v,
      ks_idempotency s !! rv_idempotency_key command = Some row
      /\ ci_operation_kind row = REVOKE_OPERATION_KIND /\ ci_response row = Some v
      /\ record_from_value v = Some record /\ sr_id record = rv_key_id command)
  \/ changed s s' (rv_project_id command) (rv_key_id command) (rv_expected_revision command)
       (revoked_row now) REVOKE_OPERATION_KIND (rv_idempotency_key command) r.
Proof.
  unfold revoke_project_server_key. destruct (negb _); [intros [= <- <-]; by left|].
  destruct r as [r|e]; [|intros ->%k_transaction_err; by left]. intros Hs. inv_k.
  match goal with Hm : context [match ?o with _ => _ end] |- _ => destruct o end; inv_k.
  - left. split; [done|]. intros ? [= <-]. unfold replay in *. destruct (ks_idempotency _ !! _) as [row|] eqn:E.
    + inv_ok. bool_prop. eexists row, _. split; [done|]. split; [tauto|].
      split; [eassumption|]. split; [|lia]. congruence.
    + by inv_ok.
  - match goal with Hc : change_key _ _ _ _ _ _ _ _ _ _ _ _ = _ |- _ =>
      apply change_effect in Hc as (m & v & Hm & Hp & _ & _ & Hr & ? & ? & ? & ? & ? & Hw); [|done] end.
    right. by exists m, at_, digest, v, r.
Qed.

Lemma usage_effect p k bucket s s' r :
  record_usage_if_older p k bucket s = (s', r) ->
  s' = s \/ exists old used, ks_keys s !! k = Some old
    /\ let row := key_with (sv_status old) (sv_revision old) (sv_credential_acknowledged_at old)
                    (Some used) (sv_revoked_at old) old in
       s' = set_ks_keys (<[sv_id row := row]> (ks_keys s)) s
       /\ (exists old', ks_keys s !! sv_id row = Some old' /\ lifecycle_update old' row = true)
       /\ server_key_check row = true
       /\ unique_in server_key_conflict (sv_id row) row (ks_keys s) = true.
Proof.
  unfold record_usage_if_older, mseq, mget. destruct (ks_keys s !! k) as [old|] eqn:E; cbn.
  2: { intros [= <- <-]. by left. }
  unfold usage_update. destruct (_ && _); [|intros [= <- <-]; by left].
  destruct r as [r|e]; [|intros ->%k_transaction_err; by left]. intros Hs. inv_k.
  apply update_server_key_ok in Hs as (-> & ? & ? & ?). right. eauto 10.
Qed.

(** ** How a store changes *)
(** A key's row keeps its identity; once revoked it does not change; its revision
    does not fall; an acknowledgement stays. *)
Record row_evolves (old new : ServerKeyRow) : Prop := {
  re_id : sv_id new = sv_id old;
  re_project : sv_project_id new = sv_project_id old;
  re_public : sv_public_key_id new = sv_public_key_id old;
  re_version : sv_digest_key_version new = sv_digest_key_version old;
  re_digest : sv_credential_digest new = sv_credential_digest old;
  re_revoked : sv_status old = "revoked"%string -> new = old;
  re_revision : sv_revision old <= sv_revision new;
  re_acknowledged : is_some (sv_credential_acknowledged_at old) = true ->
    sv_credential_acknowledged_at new = sv_credential_acknowledged_at old
}.

#[global] Instance row_evolves_preorder : PreOrder row_evolves.
Proof.
  split; [done|]. intros a b c [] []. split; try congruence; try lia.
  - intros Ha. rewrite re_revoked1; [auto|]. by rewrite re_revoked0.
  - intros Ha. rewrite re_acknowledged1; [auto|]. by rewrite re_acknowledged0.
Qed.

Lemma lifecycle_evolves old new : lifecycle_update old new = true -> row_evolves old new.
Proof.
  unfold lifecycle_update. intros Hl. bool_prop. destruct Hl as [[Hid Hrev] Hl].
  destruct Hid as (? & ? & ? & ? & ? & ? & ?).
  split; try done.
  - destruct (bool_decide _); [bool_prop; lia|]. destruct (_ && _); bool_prop; lia.
  - intros Ha. destruct (bool_decide (sv_status new = _)); [bool_prop; tauto|].
    destruct (is_none (sv_credential_acknowledged_at old)) eqn:E.
    { unfold is_none in E. by rewrite Ha in E. }
    cbn in Hl. bool_prop. tauto.
Qed.

(** The kinds of requests recorded here. *)
Definition own_kind (row : ControlIdempotencyRow) : Prop :=
  ci_operation_kind row ∈ [CREATE_OPERATION_KIND; ACKNOWLEDGE_OPERATION_KIND; REVOKE_OPERATION_KIND].

(** Projects are kept, with their public ids. *)
Definition projects_kept (db db' : Database) : Prop :=
  forall p x, db_projects db !! p = Some x ->
  exists x', db_projects db' !! p = Some x' /\ pj_public_id x' = pj_public_id x.

Definition requests_kept (m m' : gmap string ControlIdempotencyRow) : Prop :=
  forall i row, m !! i = Some row -> own_kind row -> m' !! i = Some row.

Definition keys_kept (m m' : gmap Z ServerKeyRow) : Prop :=
  forall k row, m !! k = Some row -> exists row', m' !! k = Some row' /\ row_evolves row row'.

Record key_evolution (s s' : KeyStore) : Prop := {
  ev_keys : keys_kept (ks_keys s) (ks_keys s');
  ev_requests : requests_kept (ks_idempotency s) (ks_idempotency s');
  ev_projects : projects_kept (ks_db s) (ks_db s')
}.

#[global] Instance key_evolution_preorder : PreOrder key_evolution.
Proof.
  split.
  - intros s. split; [|by intros ???|]; intros ? x ?; by exists x.
  - intros a b c [K1 R1 P1] [K2 R2 P2]. split.
    + intros k row Hk. destruct (K1 _ _ Hk) as (r1 & Hr1 & He1). destruct (K2 _ _ Hr1) as (r2 & ? & ?).
      exists r2. split; [done|]. by etransitivity.
    + intros i row Hi Ho. eauto.
    + intros p x Hp. destruct (P1 _ _ Hp) as (x1 & Hx1 & E1). destruct (P2 _ _ Hx1) as (x2 & ? & ?).
      exists x2. split; [done|congruence].
Qed.

(** ** Steps *)
(** A transaction on the keys, a detached usage write, or a transaction of another
    component: it keeps the projects, the keys, and the records of these requests,
    and adds none of their kind. *)
Inductive key_step : KeyStore -> KeyStore -> Prop :=
| step_create at_ prepared s s' r :
    create_project_server_key_attempt at_ prepared s = (s', r) -> key_step s s'
| step_acknowledge at_ command digest now s s' r :
    acknowledge_project_server_key_delivery at_ command digest now s = (s', r) -> key_step s s'
| step_revoke at_ command digest now s s' r :
    revoke_project_server_key at_ command digest now s = (s', r) -> key_step s s'
| step_usage p k bucket s s' r :
    record_usage_if_older p k bucket s = (s', r) -> key_step s s'
| step_other s db requests :
    projects_kept (ks_db s) db -> requests_kept (ks_idempotency s) requests ->
    (forall i row, requests !! i = Some row -> own_kind row -> ks_idempotency s !! i = Some row) ->
    key_step s (mkKeyStore db (ks_keys s) requests).

Lemma update_keeps (m : gmap Z ServerKeyRow) row old :
  m !! sv_id row = Some old -> row_evolves old row -> keys_kept m (<[sv_id row := row]> m).
Proof.
  intros Hold He k x Hk. destruct (decide (k = sv_id row)) as [->|Hne].
  - exists row. rewrite lookup_insert_eq. split; [done|]. by assert (x = old) as -> by congruence.
  - exists x. by rewrite lookup_insert_ne.
Qed.

Lemma insert_keeps (m : gmap Z ServerKeyRow) row :
  m !! sv_id row = None -> keys_kept m (<[sv_id row := row]> m).
Proof. intros Hn k x Hk. exists x. rewrite lookup_insert_ne by congruence. done. Qed.

Lemma wrote_evolves s s' row request :
  wrote s s' row request -> keys_kept (ks_keys s) (<[sv_id row := row]> (ks_keys s)) ->
  ks_idempotency s !! ci_idempotency_key request = None -> key_evolution s s'.
Proof.
  intros (Hk & Hi & a & Hdb) Hkeep Hn. split.
  - by rewrite Hk.
  - intros i x Hx _. rewrite Hi, lookup_insert_ne by congruence. done.
  - rewrite Hdb. intros p x Hp. by exists x.
Qed.

Lemma changed_evolves s s' p k n next kind key r : changed s s' p k n next kind key r -> key_evolution s s'.
Proof.
  intros (m & at_ & digest & v & record & _ & _ & _ & _ & (old & Hold & Hl) & _ & _ & Hn & _ & Hw).
  eapply wrote_evolves; [exact Hw| |done]. by apply (update_keeps _ _ _ Hold), lifecycle_evolves.
Qed.

Lemma step_evolves s s' : key_step s s' -> key_evolution s s'.
Proof.
  intros [at_ prepared s0 s1 r Hs|at_ c d n s0 s1 r Hs|at_ c d n s0 s1 r Hs|p k b s0 s1 r Hs|s0 db reqs Hp Hr _].
  - apply create_effect in Hs as [[-> _]|(record & v & _ & _ & Hn & _ & _ & _ & Hi & _ & Hw)]; [done|].
    eapply wrote_evolves; [exact Hw| |done]. by apply insert_keeps.
  - apply acknowledge_effect in Hs as [->|Hs]; [done|]. by eapply changed_evolves.
  - apply revoke_effect in Hs as [[-> _]|Hs]; [done|]. by eapply changed_evolves.
  - apply usage_effect in Hs as [->|(old & used & _ & -> & (old' & Ho & Hl) & _)]; [done|].
    split; [by apply (update_keeps _ _ _ Ho), lifecycle_evolves|by intros ???|]. intros q x Hq. by exists x.
  - split; [|done..]. intros k x Hk. by exists x.
Qed.

Lemma steps_evolve s s' : rtc key_step s s' -> key_evolution s s'.
Proof. induction 1 as [|a b c Hab _ IH]; [done|]. etransitivity; [by apply step_evolves|done]. Qed.

(** ** The invariant *)
Record table_ok (m : gmap Z ServerKeyRow) : Prop := {
  to_keyed : keyed sv_id m;
  to_check : forall k row, m !! k = Some row -> server_key_check row = true;
  to_unique : forall i j a b, i <> j -> m !! i = Some a -> m !! j = Some b ->
    server_key_conflict a b = false;
  to_limit : forall p, Z.of_nat (count_rows (of_project p is_active) m) <= MAX_ACTIVE_SERVER_KEYS_PER_PROJECT
}.

(** An answer on record: a key of the project, revoked or acknowledged if the
    request was. *)
Definition answer_ok (m : gmap Z ServerKeyRow) (row : ControlIdempotencyRow) : Prop :=
  exists v r key, ci_response row = Some v /\ record_from_value v = Some r
    /\ ci_state row = "completed"%string /\ ci_project_id row = Some (sr_project_id r)
    /\ m !! sr_id r = Some key /\ sv_project_id key = sr_project_id r
    /\ (ci_operation_kind row = REVOKE_OPERATION_KIND -> sv_status key = "revoked"%string)
    /\ (ci_operation_kind row = ACKNOWLEDGE_OPERATION_KIND ->
        is_some (sv_credential_acknowledged_at key) = true).

Record keys_ok (s : KeyStore) : Prop := {
  ko_table : table_ok (ks_keys s);
  ko_answers : forall i row, ks_idempotency s !! i = Some row -> own_kind row -> answer_ok (ks_keys s) row
}.

Lemma key_conflict_sym a b : server_key_conflict a b = server_key_conflict b a.
Proof.
  unfold server_key_conflict. f_equal; [apply bool_decide_ext; by split|].
  rewrite (Z.eqb_sym (sv_project_id a)). destruct (is_unacknowledged a), (is_unacknowledged b), (_ =? _); done.
Qed.

Lemma put_ok m row :
  table_ok m -> server_key_check row = true -> unique_in server_key_conflict (sv_id row) row m = true ->
  (forall p, Z.of_nat (count_rows (of_project p is_active) (<[sv_id row := row]> m))
             <= MAX_ACTIVE_SERVER_KEYS_PER_PROJECT) ->
  table_ok (<[sv_id row := row]> m).
Proof.
  intros [K C U L] Hc Hu Hlim. rewrite unique_in_true in Hu. split; [..|done].
  - intros k x. destruct (decide (k = sv_id row)) as [->|Hne].
    + rewrite lookup_insert_eq. by intros [= <-].
    + rewrite lookup_insert_ne by done. apply K.
  - intros k x. destruct (decide (k = sv_id row)) as [->|Hne].
    + rewrite lookup_insert_eq. by intros [= <-].
    + rewrite lookup_insert_ne by done. apply C.
  - intros i j a b Hij. destruct (decide (i = sv_id row)) as [->|Hi], (decide (j = sv_id row)) as [->|Hj].
    + done.
    + rewrite lookup_insert_eq, lookup_insert_ne by done. intros [= <-] Hb. eauto.
    + rewrite lookup_insert_ne, lookup_insert_eq by done. intros Ha [= <-]. rewrite key_conflict_sym. eauto.
    + rewrite !lookup_insert_ne by done. eauto.
Qed.

(** The columns a check fixes. *)
Lemma check_status row :
  server_key_check row = true ->
  (sv_status row = "active"%string /\ sv_revoked_at row = None)
  \/ (sv_status row = "revoked"%string /\ is_some (sv_revoked_at row) = true).
Proof.
  unfold server_key_check. intros Hc. repeat (apply andb_true_iff in Hc as [Hc ?]).
  match goal with Hx : (_ && is_none _) || _ = true |- _ => rename Hx into Ho end.
  apply orb_true_iff in Ho as [Ho|Ho];
    apply andb_true_iff in Ho as [Hs%bool_decide_eq_true Hr]; [left|by right].
  by destruct (sv_revoked_at row).
Qed.

Lemma check_readable row : server_key_check row = true -> exists r, server_key_record row = Ok r.
Proof.
  intros Hc. unfold server_key_record.
  assert (Hrow : (sv_revision row <=? 0) || (sv_digest_key_version row <=? 0)
     || negb (list_len (sv_credential_digest row) =? 32)
     || is_some_and (sv_credential_acknowledged_at row) (fun t => t <? sv_created_at row) = false).
  { unfold server_key_check in Hc. repeat (apply andb_true_iff in Hc as [Hc ?]).
    destruct (sv_credential_acknowledged_at row); cbn in *; lia. }
  rewrite Hrow. destruct (check_status _ Hc) as [[-> Hr]|[-> Hr]]; rewrite Hr; cbn; eauto.
Qed.

Lemma one_unacknowledged s project_id :
  table_ok (ks_keys s) -> list_len (keys_of s (of_project project_id is_unacknowledged)) <= 1.
Proof.
  intros Ht. change (Z.of_nat (count_rows (of_project project_id is_unacknowledged) (ks_keys s)) <= 1).
  destruct (decide (2 <= count_rows (of_project project_id is_unacknowledged) (ks_keys s))%nat) as [H2'|]; [|lia].
  exfalso. apply count_two in H2' as (i & j & a & b & Hne & Ha & Hb & Hpa & Hpb).
  pose proof (to_unique _ Ht _ _ _ _ Hne Ha Hb) as Hu. unfold server_key_conflict, of_project in *.
  apply andb_true_iff in Hpa as [Hpa Hua]. apply andb_true_iff in Hpb as [Hpb Hub].
  apply orb_false_iff in Hu as [_ Hu]. rewrite Hua, Hub, !andb_true_r in Hu. lia.
Qed.

(** An update never makes a revoked key active. *)
Lemma update_count p old new :
  server_key_check old = true -> lifecycle_update old new = true ->
  of_project p is_active new = true -> of_project p is_active old = true.
Proof.
  intros Hc Hl. pose proof (lifecycle_evolves _ _ Hl) as He. unfold of_project. rewrite (re_project _ _ He).
  intros [-> Ha]%andb_true_iff. cbn. destruct (check_status _ Hc) as [[Hs _]|[Hs _]].
  - by apply bool_decide_eq_true.
  - by rewrite <- (re_revoked _ _ He Hs).
Qed.

Lemma update_ok m row old :
  table_ok m -> m !! sv_id row = Some old -> lifecycle_update old row = true ->
  server_key_check row = true -> unique_in server_key_conflict (sv_id row) row m = true ->
  table_ok (<[sv_id row := row]> m).
Proof.
  intros Hm Hold Hl Hc Hu. apply put_ok; [done..|]. intros p. pose proof (to_limit _ Hm p) as Hlim.
  pose proof (count_update (of_project p is_active) _ _ _ row Hold) as Hcount.
  assert ((count_rows (of_project p is_active) (<[sv_id row:=row]> m)
           <= count_rows (of_project p is_active) m)%nat); [|lia].
  apply Hcount. by apply update_count; [eapply to_check|].
Qed.

Lemma admitted_ok s prepared :
  table_ok (ks_keys s) -> may_create_key s (pp_project_id prepared) = Ok tt ->
  ks_keys s !! pp_id prepared = None -> server_key_check (new_server_key prepared) = true ->
  unique_in server_key_conflict (pp_id prepared) (new_server_key prepared) (ks_keys s) = true ->
  table_ok (<[pp_id prepared := new_server_key prepared]> (ks_keys s)).
Proof.
  intros Hm Ha Hn Hc Hu. apply (put_ok (ks_keys s) (new_server_key prepared)); [done..|]. intros p.
  rewrite count_insert by done. pose proof (to_limit _ Hm p) as Hlim.
  destruct (of_project p is_active (new_server_key prepared)) eqn:Hp; [|lia].
  apply andb_true_iff in Hp as [Hp%Z.eqb_eq _]. cbn in Hp. subst p. unfold may_create_key in Ha. inv_ok.
  match goal with Hx : (MAX_ACTIVE_SERVER_KEYS_PER_PROJECT <=? _) = false |- _ =>
    apply Z.leb_gt in Hx; unfold list_len, keys_of in Hx end.
  unfold count_rows. lia.
Qed.

Lemma answer_evolves m m' row :
  keys_kept m m' -> answer_ok m row -> answer_ok m' row.
Proof.
  intros Hk (v & r & key & Hv & Hr & Hs & Hp & Hkey & Hpk & Hrev & Hack).
  destruct (Hk _ _ Hkey) as (key' & Hkey' & He). exists v, r, key'.
  split; [done|]. split; [done|]. split; [done|]. split; [done|]. split; [done|].
  split; [by rewrite (re_project _ _ He)|]. split.
  - intros Hkind. specialize (Hrev Hkind). by rewrite (re_revoked _ _ He Hrev).
  - intros Hkind. specialize (Hack Hkind). by rewrite (re_acknowledged _ _ He Hack).
Qed.

Lemma record_fields row r :
  server_key_record row = Ok r ->
  sr_id r = sv_id row /\ sr_project_id r = sv_project_id row /\ sr_public_key_id r = sv_public_key_id row
  /\ sr_digest_key_version r = sv_digest_key_version row
  /\ (sr_status r = KeyStatus.Revoked <-> sv_status row = "revoked"%string).
Proof.
  unfold server_key_record. intros Hr. inv_ok. cbn. do 4 (split; [done|]).
  destruct (bool_decide (sv_status row = "active"%string)) eqn:E; cbn in *; bool_prop.
  - destruct (is_none _); inv_ok; [rewrite E; done|]. by rewrite bool_decide_eq_false_2 in * by (by rewrite E).
  - destruct (bool_decide (sv_status row = "revoked"%string)) eqn:E2; cbn in *; [|discriminate].
    destruct (is_some _); inv_ok. bool_prop. done.
Qed.

Section laws.
Context `{!RecordCodecLaws}.

Lemma wrote_ok s s' row at_ key kind digest v record :
  keys_ok s -> wrote s s' row (completed_row at_ key (sv_project_id row) (sv_id row) kind digest v) ->
  table_ok (<[sv_id row := row]> (ks_keys s)) -> keys_kept (ks_keys s) (<[sv_id row := row]> (ks_keys s)) ->
  server_key_record row = Ok record -> record_to_value record = Some v ->
  (kind = REVOKE_OPERATION_KIND -> sv_status row = "revoked"%string) ->
  (kind = ACKNOWLEDGE_OPERATION_KIND -> is_some (sv_credential_acknowledged_at row) = true) ->
  keys_ok s'.
Proof.
  intros [_ Ha] (Hk & Hi & _) Ht Hkeep Hr Hv Hrev Hack. split; [by rewrite Hk|].
  intros i x. rewrite Hi, Hk. cbn. destruct (decide (i = key)) as [->|Hne].
  - rewrite lookup_insert_eq. intros [= <-] _. destruct (record_fields _ _ Hr) as (Hid & Hp & _).
    exists v, record, row. cbn. rewrite (record_reads _ _ Hv), Hid, Hp, lookup_insert_eq. done.
  - rewrite lookup_insert_ne by done. intros Hx Ho. eapply answer_evolves; [done|]. by apply (Ha i).
Qed.

Lemma changed_ok s s' p k n next kind key r :
  keys_ok s -> changed s s' p k n next kind key r ->
  (forall n m, sv_id (next n m) = sv_id m) -> (forall n m, sv_project_id (next n m) = sv_project_id m) ->
  (kind = REVOKE_OPERATION_KIND -> forall n m, sv_status (next n m) = "revoked"%string) ->
  (kind = ACKNOWLEDGE_OPERATION_KIND ->
   forall n m, is_some (sv_credential_acknowledged_at (next n m)) = true) ->
  keys_ok s'.
Proof.
  intros Hs (m & at_ & digest & v & record & -> & Hm & Hp & Hr & (old & Ho & Hl) & Hc & Hu & Hn & Hv & Hw)
    Hid Hpid Hrev Hack.
  pose proof (to_keyed _ (ko_table _ Hs) _ _ Hm) as Hkm.
  eapply (wrote_ok s s' (next (n + 1) m) at_ key kind digest v); try done; auto.
  - by rewrite Hpid, Hid, Hp, Hkm.
  - by eapply update_ok; [apply Hs|..].
  - by apply (update_keeps _ _ _ Ho), lifecycle_evolves.
Qed.

Lemma step_ok s s' : keys_ok s -> key_step s s' -> keys_ok s'.
Proof.
  intros Hok Hstep. revert Hok.
  destruct Hstep as [at_ prepared s0 s1 r Hs|at_ c d n s0 s1 r Hs|at_ c d n s0 s1 r Hs|p k b s0 s1 r Hs
    |s0 db reqs Hp Hr Hnew]; intros Hok.
  - apply create_effect in Hs as [[-> _]|(record & v & _ & Hrec & Hn & Hc & Hu & Hm & Hi & Hv & Hw)]; [done|].
    apply (wrote_ok _ _ _ _ _ _ _ _ record Hok Hw); [by apply admitted_ok; [apply Hok|..]
      |by apply insert_keeps|done|done|discriminate|discriminate].
  - apply acknowledge_effect in Hs as [->|Hs]; [done|]. apply (changed_ok _ _ _ _ _ _ _ _ _ Hok Hs); done || discriminate.
  - apply revoke_effect in Hs as [[-> _]|Hs]; [done|]. apply (changed_ok _ _ _ _ _ _ _ _ _ Hok Hs); done || discriminate.
  - apply usage_effect in Hs as [->|(old & used & _ & -> & (old' & Ho & Hl) & Hc & Hu)]; [done|].
    destruct Hok as [Ht Ha]. split; [by eapply update_ok|]. intros i row Hi Hown.
    eapply answer_evolves; [by apply (update_keeps _ _ _ Ho), lifecycle_evolves|]. by apply (Ha i).
  - destruct Hok as [Ht Ha]. split; [done|]. intros i row Hi Hown. apply (Ha i); [|done]. by apply Hnew.
Qed.

Lemma steps_ok s s' : keys_ok s -> rtc key_step s s' -> keys_ok s'.
Proof. intros Hs Hsteps. induction Hsteps as [|a b c Hab _ IH]; [done|]. by eapply IH, step_ok. Qed.

(** C29: the limits on a project's keys hold in every store the program reaches,
    whatever the interleaving of creations, acknowledgements, revocations, usage
    writes and other components' transactions: at most ten active keys, at most one
    of them not yet acknowledged, no two keys with one public id, and rows that can
    be read. *)
Theorem server_key_limits s s' project_id :
  keys_ok s -> rtc key_step s s' ->
  list_len (keys_of s' (of_project project_id is_active)) <= MAX_ACTIVE_SERVER_KEYS_PER_PROJECT
  /\ list_len (keys_of s' (of_project project_id is_unacknowledged)) <= 1
  /\ (forall i j a b, ks_keys s' !! i = Some a -> ks_keys s' !! j = Some b ->
      sv_public_key_id a = sv_public_key_id b -> i = j)
  /\ (forall i a, ks_keys s' !! i = Some a -> exists r, server_key_record a = Ok r).
Proof.
  intros Hs Hsteps. destruct (steps_ok _ _ Hs Hsteps) as [Ht _].
  split; [exact (to_limit _ Ht project_id)|]. split; [by apply one_unacknowledged|]. split.
  - intros i j a b Ha Hb Heq. destruct (decide (i = j)) as [|Hne]; [done|].
    pose proof (to_unique _ Ht _ _ _ _ Hne Ha Hb) as Hu. unfold server_key_conflict in Hu. bool_prop. tauto.
  - intros i a Ha. by eapply check_readable, to_check.
Qed.

(** ** Creating a key *)
Definition metadata_of (r : Creation.CreateProjectServerKeyResult) : ProjectServerKeyRecord :=
  match r with
  | Creation.Created m _ | Creation.ReplayWithoutSecret m => m
  end.

(** The answer to a request is on record. *)
Definition on_record (s : KeyStore) (command : CreateProjectServerKey) (digest : list Z)
    (metadata : ProjectServerKeyRecord) : Prop :=
  replay s (cc_idempotency_key command) (cc_project_id command) CREATE_OPERATION_KIND
    (uuid_hyphenated (cc_project_id command)) digest = Ok (Some metadata)
  /\ sr_project_id metadata = cc_project_id command.

Lemma create_kind_own row : ci_operation_kind row = CREATE_OPERATION_KIND -> own_kind row.
Proof. unfold own_kind. intros ->. apply list_elem_of_here. Qed.

Lemma replay_found s key p kind scope digest m :
  replay s key p kind scope digest = Ok (Some m) ->
  exists row, ks_idempotency s !! key = Some row /\ ci_project_id row = Some p
    /\ ci_operation_kind row = kind /\ ci_request_digest row = digest.
Proof.
  unfold replay. destruct (ks_idempotency s !! key) as [row|]; [|done]. intros Hr. inv_ok. bool_prop.
  exists row. tauto.
Qed.

Lemma on_record_stays s s' command digest m : key_evolution s s' -> on_record s command digest m -> on_record s' command digest m.
Proof.
  intros He [Hr Hp]. split; [|done]. destruct (replay_found _ _ _ _ _ _ _ Hr) as (row & Hrow & _ & Hk & _).
  pose proof (ev_requests _ _ He _ _ Hrow (create_kind_own _ Hk)) as Hrow'.
  unfold replay in *. by rewrite Hrow' in *; rewrite Hrow in Hr.
Qed.

Lemma create_attempt_some ring command digest draw s s' result :
  create_attempt ring command digest draw s = (s', Ok (Some result)) ->
  exists issued r, issue ring (dw_public_id draw) (dw_secret draw) (cc_project_id command) (dw_key_id draw)
      = Ok issued
    /\ create_project_server_key_attempt (dw_completed_at draw) (prepare_key command digest draw issued) s
       = (s', Ok r)
    /\ match result with
       | Creation.Created m credential => r = Stored.Created m /\ credential = is_credential issued
       | Creation.ReplayWithoutSecret m => r = Stored.ReplayWithoutSecret m
       end.
Proof.
  unfold create_attempt. intros Hs. inv_k.
  destruct (create_project_server_key_attempt _ _ _) as [s1 [[m|m]|[|e]]] eqn:E; [..|done|done].
  - destruct (_ || _); [done|]. injection Hs as <- <-. eauto 10.
  - injection Hs as <- <-. eauto 10.
Qed.

Lemma create_attempt_none ring command digest draw s s' :
  create_attempt ring command digest draw s = (s', Ok None) -> key_step s s'.
Proof.
  unfold create_attempt. intros Hs. inv_k.
  destruct (create_project_server_key_attempt _ _ _) as [s1 [[m|m]|[|e]]] eqn:E; [|done| |done].
  - by destruct (_ || _).
  - injection Hs as <-. by eapply step_create.
Qed.

Lemma create_attempts_ok others draws ring command digest : 
  (forall i t, rtc key_step t (others i t)) ->
  forall attempts first s s' result,
  create_attempts others draws ring command digest first attempts s = (s', Ok result) ->
  exists i t, rtc key_step s t /\ create_attempt ring command digest (draws i) t = (s', Ok (Some result)).
Proof.
  intros Ho. induction attempts as [|n IH]; intros first s s' result; cbn [create_attempts]; intros Hs; inv_k.
  match goal with Hm : context [match ?o with _ => _ end] |- _ => destruct o as [res|] end; inv_k.
  - exists first, (others first s). split; [apply Ho|done].
  - match goal with Hr : create_attempts _ _ _ _ _ _ _ _ = _ |- _ =>
      apply IH in Hr as (i & t & Ht & Hi) end.
    exists i, t. split; [|done]. etransitivity; [apply Ho|]. eapply rtc_l; [|exact Ht].
    by eapply create_attempt_none.
Qed.

Lemma stored_on_record at_ command digest draw issued s s' r :
  create_project_server_key_attempt at_ (prepare_key command digest draw issued) s = (s', Ok r) ->
  on_record s' command digest (match r with Stored.Created m | Stored.ReplayWithoutSecret m => m end).
Proof.
  intros [[-> Hr]|(record & v & [= ->] & Hrec & _ & _ & _ & _ & Hi & Hv & Hw)]%create_effect.
  - destruct (Hr r eq_refl) as (m & -> & Hm & Hp). by split.
  - destruct Hw as (_ & Hreq & _). destruct (record_fields _ _ Hrec) as (_ & Hp & _).
    split; [|done]. unfold replay. rewrite Hreq. cbn. rewrite lookup_insert_eq. cbn.
    rewrite !bool_decide_eq_true_2 by done. cbn. by rewrite (record_reads _ _ Hv).
Qed.

(** A creation that returned: the answer came from the record, or from an attempt. *)
Lemma service_create_ok others draws ring command s s' result :
  (forall i t, rtc key_step t (others i t)) ->
  service_create_project_server_key others draws ring command s = (s', Ok result) ->
  exists digest, validate_server_key_label (cc_label command) = Ok tt
    /\ validate_server_key_idempotency_key (cc_idempotency_key command) = Ok tt
    /\ digest_json (create_request command) = Ok digest /\ list_len digest = 32
    /\ ((s' = s /\ result = Creation.ReplayWithoutSecret (metadata_of result)
         /\ on_record s command digest (metadata_of result))
        \/ exists i t, rtc key_step s t
             /\ create_attempt ring command digest (draws i) t = (s', Ok (Some result))).
Proof.
  intros Ho Hs. unfold service_create_project_server_key in Hs. inv_k. inv_ok.
  match goal with Hd : digest_json _ = Ok ?d |- _ => exists d end. do 3 (split; [done|]).
  unfold replay_project_server_key_create in *. inv_ok. bool_prop. split; [done|].
  match goal with Hm : context [match ?o with Some _ => _ | None => _ end _] |- _ => destruct o as [m|] end; inv_k.
  - left. split; [done|]. split; [done|]. cbn in *. bool_prop. split; [done|]. lia.
  - right. by eapply create_attempts_ok.
Qed.

Lemma create_on_record others draws ring command s s' result :
  (forall i t, rtc key_step t (others i t)) ->
  service_create_project_server_key others draws ring command s = (s', Ok result) ->
  exists digest, digest_json (create_request command) = Ok digest
    /\ on_record s' command digest (metadata_of result).
Proof.
  intros Ho (digest & _ & _ & Hd & _ & [(-> & _ & Hr)|(i & t & _ & Hc)])%service_create_ok; [|..|done]; [eauto|].
  exists digest. split; [done|]. apply create_attempt_some in Hc as (issued & r & _ & Hc & Hm).
  apply stored_on_record in Hc. destruct result; [destruct Hm as [-> _]|subst r]; done.
Qed.

(** C30: creating a key is idempotent.  Once a request has been answered, the same
    request gets the same key in any later store, without the secret and without a
    write, whatever was drawn; and another request with its idempotency key is
    refused. *)
Theorem create_is_idempotent others draws ring command s s' result others' draws' ring' s'' :
  (forall i t, rtc key_step t (others i t)) ->
  service_create_project_server_key others draws ring command s = (s', Ok result) ->
  rtc key_step s' s'' ->
  service_create_project_server_key others' draws' ring' command s''
    = (s'', Ok (Creation.ReplayWithoutSecret (metadata_of result)))
  /\ forall other digest, cc_idempotency_key other = cc_idempotency_key command ->
     validate_server_key_label (cc_label other) = Ok tt ->
     digest_json (create_request other) = Ok digest -> list_len digest = 32 ->
     Ok digest <> digest_json (create_request command) ->
     service_create_project_server_key others' draws' ring' other s'' = (s'', Err AppError.IdempotencyConflict).
Proof.
  intros Ho Hs Hlater. destruct (create_on_record _ _ _ _ _ _ _ Ho Hs) as (digest & Hd & Hrec).
  destruct (service_create_ok _ _ _ _ _ _ _ Ho Hs) as (d' & Hl & Hk & Hd' & Hlen & _).
  assert (d' = digest) as -> by congruence.
  destruct (on_record_stays _ _ _ _ _ (steps_evolve _ _ Hlater) Hrec) as [Hr Hp].
  unfold service_create_project_server_key, replay_project_server_key_create. split.
  - unfold mseq, mlift, mget. rewrite Hl, Hk, Hd, Hlen, Hr. cbn. by rewrite Hp, Z.eqb_refl.
  - intros other d Hkey Hlabel Hdo Hdlen Hne. unfold mseq, mlift, mget.
    rewrite Hlabel, Hkey, Hk, Hdo, Hdlen. cbn.
    destruct (replay_found _ _ _ _ _ _ _ Hr) as (row & Hrow & _ & _ & Hdig).
    unfold replay. rewrite Hrow. rewrite (bool_decide_eq_false_2 (ci_request_digest row = d)) by congruence.
    by rewrite orb_true_r.
Qed.
End laws.
End server_keys.
