(* ===== verification/ServerApiProofs.v ===== *)
(** * Theorems on the server API

    Who authenticates: the credential that was issued, while its key is active,
    and no revoked key.  What introspection answers: a token is active only while
    its session is.  How usage is recorded. *)
From S2P Require Import Prelude.
From S2P Require Import Json.
From S2P Require Import UrlValues.
From S2P Require Import Database.
From S2P Require Import Projection.
From S2P Require Import WebhookOutbox.
From S2P Require Import WebhookDelivery.
From S2P Require Import WebhookDeliveryProofs.
From S2P Require Import Custody.
From S2P Require Import CustodyProofs.
From S2P Require Import SessionAuthority.
From S2P Require Import SessionStore.
From S2P Require Import SessionEffects.
From S2P Require Import HandoffEffects.
From S2P Require Import SessionOps.
From S2P Require Import ServerKeys.
From S2P Require Import ServerCredentials.
From S2P Require Import ServerApi.
From S2P Require Import ServerKeyProofs.

Section authentication.
Context `{CanonicalHash} `{Hmac} `{UnixTime} `{CntrlClass} `{RecordCodec} `{Base64UrlLaws}
  `{!RecordCodecLaws}.

(** ** Who authenticates *)
Lemma usable_active s key :
  usable s key = true -> sv_status key = "active"%string /\ sv_revoked_at key = None
    /\ exists owner, db_projects (ks_db s) !! sv_project_id key = Some owner /\ pj_status owner = "active"%string.
Proof.
  unfold usable, is_active, project_is_active. intros [[Ha Hr]%andb_true_iff Hp]%andb_true_iff. bool_prop.
  split; [done|]. split; [by destruct (sv_revoked_at key)|].
  destruct (db_projects _ !! _) as [owner|]; [|done]. cbn in Hp. bool_prop. eauto.
Qed.

Lemma authority_ok s public_key_id a :
  server_key_authority s public_key_id = Ok a ->
  exists k key owner, ks_keys s !! k = Some key /\ sv_public_key_id key = public_key_id
    /\ usable s key = true /\ db_projects (ks_db s) !! sv_project_id key = Some owner
    /\ a = mkServerKeyAuthority (sv_id key) (sv_project_id key) (pj_public_id owner)
             (sv_public_key_id key) (sv_digest_key_version key) (sv_credential_digest key).
Proof.
  unfold server_key_authority. intros Ha. inv_ok.
  match goal with Hf : find_one _ _ = Some _ |- _ => apply find_one_some in Hf as (k & Hk & Hp) end.
  bool_prop. destruct Hp as [Hp Hu]. eauto 10.
Qed.

Lemma confirm_active_ok s p k u :
  confirm_active s p k = Ok u -> exists i key, ks_keys s !! i = Some key /\ sv_project_id key = p
    /\ sv_id key = k /\ usable s key = true.
Proof.
  unfold confirm_active. intros Ha. inv_ok.
  match goal with Hf : find_one _ _ = Some _ |- _ => apply find_one_some in Hf as (i & Hk & Hp) end.
  bool_prop. eexists _, _. split; [done|]. tauto.
Qed.

(** What a principal stands for. *)
Lemma authenticate_sound ring s confirmed route credential pr :
  authenticate ring s confirmed route credential = Ok pr ->
  exists public_id secret k key owner i key',
    credential = credential_text public_id secret
    /\ Forall is_byte public_id /\ list_len public_id = 16 /\ Forall is_byte secret /\ list_len secret = 32
    /\ ks_keys s !! k = Some key /\ sv_public_key_id key = b64_encode public_id /\ usable s key = true
    /\ db_projects (ks_db s) !! sv_project_id key = Some owner /\ pj_public_id owner = route
    /\ digest ring (sv_project_id key) (sv_id key) (sv_public_key_id key) secret (sv_digest_key_version key)
       = Ok (sv_credential_digest key)
    /\ ks_keys confirmed !! i = Some key' /\ sv_id key' = sv_id key
    /\ sv_project_id key' = sv_project_id key /\ usable confirmed key' = true
    /\ pr = mkServerPrincipal (sv_project_id key) route (sv_id key) (sv_public_key_id key).
Proof.
  unfold authenticate. intros Ha. inv_ok.
  match goal with Hp : ParsedServerCredential_parse _ = Ok ?x |- _ =>
    destruct x as [public_key_id secret]; apply parse_credential in Hp
      as (public_id & Hb & Hl & Hb' & Hl' & -> & ->) end.
  match goal with Hk : server_key_authority _ _ = Ok _ |- _ =>
    apply authority_ok in Hk as (k & key & owner & Hk & Hpub & Hu & Ho & ->) end.
  match goal with Hc : confirm_active _ _ _ = Ok _ |- _ =>
    apply confirm_active_ok in Hc as (i & key' & Hi & Hp' & Hid' & Hu') end.
  cbn in *. unfold digest_candidate in *. bool_prop. subst.
  exists public_id, secret, k, key, owner, i, key'. naive_solver.
Qed.

Lemma authenticate_complete ring s confirmed public_id secret key owner :
  table_ok (ks_keys s) -> table_ok (ks_keys confirmed) ->
  Forall is_byte public_id -> list_len public_id = 16 -> Forall is_byte secret -> list_len secret = 32 ->
  ks_keys s !! sv_id key = Some key -> sv_public_key_id key = b64_encode public_id -> usable s key = true ->
  db_projects (ks_db s) !! sv_project_id key = Some owner ->
  digest ring (sv_project_id key) (sv_id key) (sv_public_key_id key) secret (sv_digest_key_version key)
    = Ok (sv_credential_digest key) ->
  (exists key', ks_keys confirmed !! sv_id key = Some key' /\ sv_project_id key' = sv_project_id key
                /\ usable confirmed key' = true) ->
  authenticate ring s confirmed (pj_public_id owner) (credential_text public_id secret)
    = Ok (mkServerPrincipal (sv_project_id key) (pj_public_id owner) (sv_id key) (sv_public_key_id key)).
Proof.
  intros Ht Ht' Hb Hl Hb' Hl' Hk Hpub Hu Ho Hd (key' & Hk' & Hp' & Hu'). unfold authenticate.
  assert (Hparse : ParsedServerCredential_parse (credential_text public_id secret)
                   = Ok (mkParsedServerCredential (b64_encode public_id) secret)).
  { apply parse_credential. by exists public_id. }
  rewrite Hparse. cbn [map_err rbind pc_public_key_id]. unfold server_key_authority.
  rewrite (find_one_unique (ks_keys s) _ (sv_id key) key Hk).
  2: { by rewrite Hu, bool_decide_eq_true_2. }
  2: { intros j r Hj Hr. apply andb_true_iff in Hr as [Hr%bool_decide_eq_true _].
       destruct (decide (j = sv_id key)) as [->|Hne]; [congruence|].
       pose proof (to_unique _ Ht _ _ _ _ Hne Hj Hk) as Hc. unfold server_key_conflict in Hc.
       apply orb_false_iff in Hc as [Hc%bool_decide_eq_false _]. congruence. }
  cbn [ok_or rbind]. rewrite Ho. cbn [ok_or rbind].
  pose proof (to_check _ Ht _ _ Hk) as Hcheck. unfold server_key_check in Hcheck.
  repeat (apply andb_true_iff in Hcheck as [Hcheck ?]).
  replace (negb (list_len (sv_credential_digest key) =? 32)) with false by lia.
  replace (sv_digest_key_version key <=? 0) with false by lia. cbn [map_err rbind].
  cbn. rewrite !bool_decide_eq_true_2 by done. cbn. unfold digest_candidate. rewrite Hd. cbn.
  rewrite bool_decide_eq_true_2 by done. cbn. unfold confirm_active.
  pose proof (to_keyed _ Ht' _ _ Hk') as Hid'.
  rewrite (find_one_unique (ks_keys confirmed) _ (sv_id key) key' Hk').
  2: { by rewrite Hp', Hid', !Z.eqb_refl, Hu'. }
  2: { intros j r Hj Hr. apply andb_true_iff in Hr as [[_ Hr%Z.eqb_eq]%andb_true_iff _].
       rewrite (to_keyed _ Ht' _ _ Hj) in Hr. subst. congruence. }
  cbn. by rewrite Hid', Z.eqb_refl.
Qed.

(** ** Revoked keys *)
Lemma revoked_stays s s' k key :
  key_evolution s s' -> ks_keys s !! k = Some key -> sv_status key = "revoked"%string ->
  ks_keys s' !! k = Some key.
Proof.
  intros He Hk Hr. destruct (ev_keys _ _ He _ _ Hk) as (key' & Hk' & Hrow).
  by rewrite <- (re_revoked _ _ Hrow Hr).
Qed.

Lemma revoke_revokes at_ now command s s' record :
  keys_ok s -> service_revoke_project_server_key at_ now command s = (s', Ok record) ->
  keys_ok s' /\ exists key, ks_keys s' !! rv_key_id command = Some key /\ sv_status key = "revoked"%string.
Proof.
  intros Hs Hr. unfold service_revoke_project_server_key in Hr.
  apply mseq_ok in Hr as (? & ? & Hc & Hr). apply k_check_ok in Hc as [_ ->].
  apply mseq_ok in Hr as (? & ? & [_ ->]%mlift_ok & Hr). apply mseq_ok in Hr as (? & d & [_ ->]%mlift_ok & Hr).
  split; [by eapply step_ok, step_revoke|]. apply revoke_effect in Hr as [[-> Hr]|Hr].
  - destruct (Hr _ eq_refl) as (row & v & Hrow & Hk & Hv & Hrec & Hid).
    destruct (ko_answers _ Hs _ _ Hrow) as (v' & r & key & Hv' & Hrec' & _ & _ & Hkey & _ & Hrev & _).
    { unfold own_kind. rewrite Hk. set_solver. }
    assert (r = record) as -> by congruence. rewrite Hid in Hkey. eauto.
  - destruct Hr as (m & a & dg & w & r & _ & Hm & _ & _ & _ & _ & _ & _ & _ & (Hk & _)).
    pose proof (to_keyed _ (ko_table _ Hs) _ _ Hm) as Hid. rewrite Hk.
    change (sv_id (revoked_row now (rv_expected_revision command + 1) m)) with (sv_id m). rewrite Hid, lookup_insert_eq.
    by eexists.
Qed.

(** C26: a revoked key is dead.  Once a revocation has been answered, no request
    authenticates with the key, although it may have read the key before the
    revocation, whatever ran since. *)
Theorem revoked_key_is_dead ring at_ now command s s' record seen confirmed route credential pr :
  keys_ok s -> service_revoke_project_server_key at_ now command s = (s', Ok record) ->
  rtc key_step s' confirmed -> authenticate ring seen confirmed route credential = Ok pr ->
  sp_key_id pr <> rv_key_id command.
Proof.
  intros Hs Hr Hsteps Ha. destruct (revoke_revokes _ _ _ _ _ _ Hs Hr) as [Hs' (key & Hk & Hrev)].
  pose proof (revoked_stays _ _ _ _ (steps_evolve _ _ Hsteps) Hk Hrev) as Hkc.
  apply authenticate_sound in Ha as (pid & sec & k & key0 & owner & i & key' & _ & _ & _ & _ & _ & _ & _ & _ & _ & _ & _
    & Hi & Hid & _ & Hu & ->). cbn. intros Heq.
  pose proof (ko_table _ (steps_ok _ _ Hs' Hsteps)) as Ht. pose proof (to_keyed _ Ht _ _ Hi) as Hki.
  assert (i = rv_key_id command) as -> by congruence. assert (key' = key) as -> by congruence.
  apply usable_active in Hu as [Hact _]. congruence.
Qed.

(** ** Issued credentials *)
(** The randomness of an attempt. *)
Definition draw_bytes (draw : IssueDraw) (public_id secret : list Z) : Prop :=
  drawn (dw_public_id draw) 16 public_id /\ drawn (dw_secret draw) 32 secret.
Definition draws_bytes (draws : nat -> IssueDraw) : Prop :=
  forall i, exists public_id secret, draw_bytes (draws i) public_id secret.

(** A key as it was issued: its row holds the digest of the credential. *)
Definition issued_as (ring : SoftwareServerKeyRing) (row : ServerKeyRow) (public_id secret : list Z) : Prop :=
  Forall is_byte public_id /\ list_len public_id = 16 /\ Forall is_byte secret /\ list_len secret = 32
  /\ sv_public_key_id row = b64_encode public_id
  /\ digest ring (sv_project_id row) (sv_id row) (sv_public_key_id row) secret (sv_digest_key_version row)
     = Ok (sv_credential_digest row).

Lemma created_issued others draws ring command s s' metadata credential :
  keys_ok s -> (forall i t, rtc key_step t (others i t)) -> draws_bytes draws ->
  service_create_project_server_key others draws ring command s = (s', Ok (Creation.Created metadata credential)) ->
  keys_ok s' /\ exists row public_id secret,
    ks_keys s' !! sr_id metadata = Some row /\ issued_as ring row public_id secret
    /\ credential = credential_text public_id secret
    /\ sv_project_id row = cc_project_id command /\ sv_digest_key_version row = sr_digest_key_version metadata
    /\ sv_status row = "active"%string.
Proof.
  intros Hs Ho Hd (dg & _ & _ & _ & _ & [(_ & Hbad & _)|(i & t & Ht & Hc)])%service_create_ok; [done| |done].
  destruct (Hd i) as (public_id & secret & Hpub & Hsec).
  apply create_attempt_some in Hc as (issued & r & Hi & Hc & [-> ->]).
  rewrite (issue_ok ring _ _ _ _ _ _ _ Hpub Hsec) in Hi. destruct Hi as (d & Hdig & ->).
  split; [by eapply step_ok; [eapply steps_ok|eapply step_create]|].
  apply create_effect in Hc as [[_ Hr]|(record & v & [= <-] & Hrec & _ & _ & _ & _ & _ & _ & (Hk & _))].
  { by destruct (Hr _ eq_refl) as (m & ? & _). }
  destruct (record_fields _ _ Hrec) as (Hid & _ & _ & Hver & _).
  destruct Hpub as (_ & ? & ?). destruct Hsec as (_ & ? & ?).
  eexists _, public_id, secret. rewrite Hk, Hid, lookup_insert_eq. split; [done|]. by rewrite Hver.
Qed.

(** A ring that still has the version a key was issued with. *)
Definition retains (ring ring' : SoftwareServerKeyRing) (version : Z) : Prop :=
  kg_deployment_context ring' = kg_deployment_context ring
  /\ kg_keys ring' !! version = kg_keys ring !! version.

Lemma digest_retained ring ring' p k i x v :
  retains ring ring' v -> digest ring' p k i x v = digest ring p k i x v.
Proof. intros [Hc Hk]. unfold digest. by rewrite Hc, Hk. Qed.

Lemma issued_stays ring row row' public_id secret :
  row_evolves row row' -> issued_as ring row public_id secret -> issued_as ring row' public_id secret.
Proof.
  intros [] (? & ? & ? & ? & ? & ?). unfold issued_as.
  rewrite re_id, re_project, re_public, re_version, re_digest. done.
Qed.

(** C27: the credential handed out authenticates.  While its key is not revoked and
    its project is active, the credential a creation returned gives the principal
    of that key and project, in any later store, also after the ring's active
    version has moved on, as long as the version is retained. *)
Theorem issued_credential_authenticates others draws ring ring' command s s' metadata credential
    seen confirmed row owner owner' :
  keys_ok s -> (forall i t, rtc key_step t (others i t)) -> draws_bytes draws ->
  service_create_project_server_key others draws ring command s = (s', Ok (Creation.Created metadata credential)) ->
  rtc key_step s' seen -> rtc key_step seen confirmed ->
  ks_keys confirmed !! sr_id metadata = Some row -> sv_status row = "active"%string ->
  db_projects (ks_db seen) !! cc_project_id command = Some owner -> pj_status owner = "active"%string ->
  db_projects (ks_db confirmed) !! cc_project_id command = Some owner' -> pj_status owner' = "active"%string ->
  retains ring ring' (sr_digest_key_version metadata) ->
  authenticate ring' seen confirmed (pj_public_id owner) credential
    = Ok (mkServerPrincipal (cc_project_id command) (pj_public_id owner) (sr_id metadata)
            (sv_public_key_id row)).
Proof.
  intros Hs Ho Hd Hc Hseen Hconf Hrow Hact Howner Hoa Howner' Hoa' Hret.
  destruct (created_issued _ _ _ _ _ _ _ _ Hs Ho Hd Hc) as [Hs' (row0 & pid & sec & Hrow0 & Hi & -> & Hp & Hv & _)].
  destruct (ev_keys _ _ (steps_evolve _ _ Hseen) _ _ Hrow0) as (row1 & Hrow1 & He1).
  destruct (ev_keys _ _ (steps_evolve _ _ Hconf) _ _ Hrow1) as (row2 & Hrow2 & He2).
  assert (row2 = row) as -> by congruence.
  pose proof (steps_ok _ _ Hs' Hseen) as Hok1. pose proof (steps_ok _ _ Hok1 Hconf) as Hok2.
  pose proof (issued_stays _ _ _ _ _ He1 Hi) as (Hb & Hl & Hb' & Hl' & Hpub & Hdig).
  pose proof (to_keyed _ (ko_table _ Hok1) _ _ Hrow1) as Hid1.
  assert (Hus : forall st r k ow, keys_ok st -> ks_keys st !! k = Some r -> sv_status r = "active"%string ->
    db_projects (ks_db st) !! sv_project_id r = Some ow -> pj_status ow = "active"%string -> usable st r = true).
  { intros st r k ow Hst Hr Ha How Hoact. destruct (check_status _ (to_check _ (ko_table _ Hst) _ _ Hr)) as [[_ Hn]|[Hn _]].
    - unfold usable, is_active, project_is_active. rewrite Ha, Hn, How. cbn. by rewrite Hoact.
    - rewrite Ha in Hn. done. }
  assert (Hact1 : sv_status row1 = "active"%string).
  { destruct (check_status _ (to_check _ (ko_table _ Hok1) _ _ Hrow1)) as [[Hn _]|[Hn _]]; [done|].
    rewrite (re_revoked _ _ He2 Hn) in Hact. done. }
  assert (Hp1 : sv_project_id row1 = cc_project_id command) by (rewrite (re_project _ _ He1); done).
  assert (Hp2 : sv_project_id row = cc_project_id command) by (rewrite (re_project _ _ He2); done).
  assert (Hv1 : sv_digest_key_version row1 = sr_digest_key_version metadata) by (rewrite (re_version _ _ He1); done).
  rewrite (authenticate_complete ring' seen confirmed pid sec row1 owner); try done.
  - by rewrite Hp1, Hid1, (re_public _ _ He2).
  - apply Hok1.
  - apply Hok2.
  - by rewrite Hid1.
  - by eapply (Hus seen row1); rewrite ?Hp1.
  - by rewrite Hp1.
  - by rewrite <- Hdig, Hv1; apply digest_retained.
  - rewrite Hid1. exists row. split; [done|]. split; [congruence|]. by eapply (Hus confirmed row); rewrite ?Hp2.
Qed.

Lemma digest_message_of ring p k i x v d :
  digest ring p k i x v = Ok d ->
  exists key m, kg_keys ring !! v = Some key
    /\ digest_message (kg_deployment_context ring) p k i x v = Ok m /\ d = hmac_of key m.
Proof. unfold digest. intros Hd. inv_ok. eauto. Qed.

(** C28: nothing else authenticates as the key.  Every credential that gives the
    principal of a created key has the key's public id, is presented under its
    project's public id, and carries a secret whose message has the keyed digest
    of the issued one; the two messages are equal only if the credential is the
    issued one. *)
Theorem only_issued_credential others draws ring ring' command s s' metadata credential
    seen confirmed route other pr :
  keys_ok s -> (forall i t, rtc key_step t (others i t)) -> draws_bytes draws ->
  service_create_project_server_key others draws ring command s = (s', Ok (Creation.Created metadata credential)) ->
  rtc key_step s' seen -> retains ring ring' (sr_digest_key_version metadata) ->
  authenticate ring' seen confirmed route other = Ok pr -> sp_key_id pr = sr_id metadata ->
  sp_project_id pr = cc_project_id command
  /\ (exists owner, db_projects (ks_db seen) !! cc_project_id command = Some owner /\ pj_public_id owner = route)
  /\ exists public_id secret secret' key m m',
       credential = credential_text public_id secret /\ other = credential_text public_id secret'
       /\ kg_keys ring !! sr_digest_key_version metadata = Some key
       /\ digest_message (kg_deployment_context ring) (cc_project_id command) (sr_id metadata)
            (b64_encode public_id) secret (sr_digest_key_version metadata) = Ok m
       /\ digest_message (kg_deployment_context ring) (cc_project_id command) (sr_id metadata)
            (b64_encode public_id) secret' (sr_digest_key_version metadata) = Ok m'
       /\ hmac_of key m' = hmac_of key m /\ (m' = m -> other = credential).
Proof.
  intros Hs Ho Hd Hc Hseen Hret Ha Hid.
  destruct (created_issued _ _ _ _ _ _ _ _ Hs Ho Hd Hc) as [Hs' (row0 & pid & sec & Hrow0 & Hi & -> & Hp & Hv & _)].
  destruct (ev_keys _ _ (steps_evolve _ _ Hseen) _ _ Hrow0) as (row1 & Hrow1 & He1).
  pose proof (ko_table _ (steps_ok _ _ Hs' Hseen)) as Ht.
  apply authenticate_sound in Ha as (pid' & sec' & k & key & owner & i & key' & -> & Hb1 & Hl1 & Hb2 & Hl2 & Hk & Hpub & _
    & Howner & <- & Hdig & _ & _ & _ & _ & ->). cbn in Hid |- *.
  assert (k = sr_id metadata) as -> by (rewrite <- (to_keyed _ Ht _ _ Hk); done).
  assert (key = row1) as -> by congruence.
  pose proof (issued_stays _ _ _ _ _ He1 Hi) as (Hb & Hl & Hb' & Hl' & Hpub1 & Hdig1).
  rewrite Hpub in Hpub1.
  assert (pid' = pid) as ->.
  { apply (f_equal b64_decode) in Hpub1. rewrite !b64_reads in Hpub1 by done. by injection Hpub1. }
  rewrite (re_project _ _ He1), Hp, (re_version _ _ He1), Hv, Hid, Hpub in *.
  rewrite (digest_retained _ _ _ _ _ _ _ Hret) in Hdig.
  destruct (digest_message_of _ _ _ _ _ _ _ Hdig) as (key1 & m' & Hkey1 & Hm' & Hd').
  destruct (digest_message_of _ _ _ _ _ _ _ Hdig1) as (key2 & m & Hkey2 & Hm & Hdm).
  split; [done|]. split; [by exists owner|]. exists pid, sec, sec', key2, m, m'.
  do 5 (split; [done|]). split; [congruence|]. intros ->.
  apply digest_message_ok in Hm as [Hf ->]. apply digest_message_ok in Hm' as [Hf' Heq].
  apply app_inv_head, framed_inj in Heq; [|done..]. injection Heq as ->. done.
Qed.
End authentication.

(** ** Introspection *)
Section introspection.
Context `{CanonicalHash} `{Base64Url} `{Hmac} `{UnixTime} `{CntrlClass} `{TokenJson} `{Ed25519}
  `{EmailAddressReader} `{EmailLookupDigester}.

Lemma rows_lookup {Row} (t : gmap Z Row) p x :
  x ∈ List.filter p (rows t) -> exists k, t !! k = Some x /\ p x = true.
Proof.
  intros [Hx Hp]%list_elem_of_In%filter_In. apply in_map_iff in Hx as ([k y] & <- & Hk).
  exists k. split; [|done]. by apply elem_of_map_to_list, list_elem_of_In.
Qed.

Lemma option_list_in {A} (o : option A) x : x ∈ option_list o -> o = Some x.
Proof. destruct o; cbn; intros Hx; [apply list_elem_of_singleton in Hx; by subst|by apply not_elem_of_nil in Hx]. Qed.

(** What a joined row is made of. *)
Lemma joins_in db lookup v :
  v ∈ session_joins db lookup ->
  db_projects db !! sl_project_id lookup = Some (sw_project v)
  /\ db_sessions db !! sl_application_session_id lookup = Some (sw_session v)
  /\ ap_id (sw_application v) = as_application_id (sw_session v)
  /\ us_id (sw_user v) = as_user_id (sw_session v)
  /\ (exists b, db_browsers db !! b = Some (sw_browser v)
        /\ as_browser_session_id (sw_session v) = Some (bs_id (sw_browser v)))
  /\ (exists f, db_families db !! f = Some (sw_family v)
        /\ rf_application_session_id (sw_family v) = as_id (sw_session v))
  /\ (exists u, db_users db !! u = Some (sw_user v)).
Proof.
  unfold session_joins. intros Hv.
  repeat match goal with Hx : _ ∈ mbind _ _ |- _ => apply list_elem_of_bind in Hx as (? & Hx & ?) end.
  repeat match goal with
  | Hx : _ ∈ option_list _ |- _ => apply option_list_in in Hx
  | Hx : _ ∈ List.filter _ _ |- _ => apply rows_lookup in Hx as (? & ? & ?)
  | Hx : find_by_id _ _ _ = Some _ |- _ => apply find_by_id_some in Hx as [? ?]
  | Hx : _ ∈ [_] |- _ => apply list_elem_of_singleton in Hx; subst
  end.
  cbn. bool_prop. split; [done|]. split; [done|]. split; [lia|]. split; [lia|].
  split_and!; eexists; try eassumption; (split; [eassumption|]); tauto.
Qed.

(** The session behind an answer. *)
Lemma introspected db lookup a :
  introspect_session db lookup = Ok a ->
  at_application_session_id a = sl_application_session_id lookup
  /\ exists v, v ∈ session_joins db lookup /\ session_is_live lookup v = true.
Proof.
  unfold introspect_session. intros Ha. inv_ok.
  match goal with Hf : List.find _ _ = Some _ |- _ => apply List.find_some in Hf as [Hin Hlive] end.
  split; [done|]. eexists. split; [by apply list_elem_of_In|done].
Qed.

(** Its session, browser session and refresh family are active and have not
    expired. *)
Definition live_session (db : Database) (now : OffsetDateTime) (id : Uuid) : Prop :=
  exists x browser family b f, db_sessions db !! id = Some x
    /\ as_status x = "active"%string /\ now < as_absolute_expires_at x
    /\ db_browsers db !! b = Some browser /\ as_browser_session_id x = Some (bs_id browser)
    /\ bs_status browser = "active"%string /\ now < bs_idle_expires_at browser
    /\ db_families db !! f = Some family /\ rf_application_session_id family = as_id x
    /\ rf_status family = "active"%string /\ now < rf_absolute_expires_at family.

Lemma introspected_live db lookup a :
  introspect_session db lookup = Ok a -> live_session db (sl_now lookup) (at_application_session_id a).
Proof.
  intros [-> (v & Hv & Hlive)]%introspected.
  apply joins_in in Hv as (_ & Hx & _ & _ & (b & Hb & Hxb) & (f & Hf & Hxf) & _).
  unfold session_is_live in Hlive. repeat (apply andb_true_iff in Hlive as [Hlive ?]). bool_prop.
  exists (sw_session v), (sw_browser v), (sw_family v), b, f. split_and!; done.
Qed.

Lemma introspect_ok now db later pr token expected a :
  introspect now db later pr token expected = Ok (Introspection.Active a) ->
  introspect_active now db later pr token expected = Ok a.
Proof. unfold introspect. destruct (introspect_active _ _ _ _ _ _) as [x|[]]; congruence. Qed.

(** an active token is a live one.  When introspection answers that a token is
    active, the token names its application and carries a signature that verifies
    under a usable key of the caller's project, it has not been expired for longer
    than the allowed skew, and the session, the browser session and the refresh
    family behind it are active at that moment. *)
Theorem active_token_is_live now db later pr token expected a :
  introspect now db later pr token expected = Ok (Introspection.Active a) ->
  exists parsed key,
    ParsedAccessToken_parse token = Ok parsed
    /\ (forall app, expected = Some app -> app = tc_application_id (pt_claims parsed))
    /\ verification_key db (sp_project_id pr) (th_kid (pt_header parsed)) now = Ok key
    /\ tc_issuer (pt_claims parsed) = vk_issuer key
    /\ tc_audience (pt_claims parsed) = sp_project_public_id pr
    /\ verify_ed25519 (vk_public_jwk key) (bytes (pt_signing_input parsed)) (pt_signature parsed) = Ok tt
    /\ unix_timestamp now < tc_expires_at (pt_claims parsed) + SERVER_TOKEN_CLOCK_SKEW_SECONDS
    /\ at_application_session_id a = tc_session_id (pt_claims parsed)
    /\ live_session later now (at_application_session_id a).
Proof.
  intros Ha%introspect_ok. unfold introspect_active in Ha. inv_ok.
  match goal with Hi : introspect_session _ _ = Ok _ |- _ =>
    pose proof (introspected_live _ _ _ Hi) as Hlive; apply introspected in Hi as [Hid _] end.
  eexists _, _. split; [done|]. bool_prop. split.
  - intros app ->. match goal with Hx : is_some_and (Some _) _ = false |- _ => cbn in Hx end. bool_prop. done.
  - split; [eassumption|]. cbn in Hid. split; [tauto|]. split; [intuition congruence|]. split; [done|].
    split; [lia|]. split; [done|exact Hlive].
Qed.

Section logout.
Context `{ProjectionCryptography} `{UrlLib} `{TimeFormat} `{JsonbText}.

(** logout ends introspection.  After an application session was logged out no
    token of that session is reported active, whatever runs in between, although
    the token itself has not expired. *)
Theorem logout_ends_introspection c db db' ops now keys pr token expected a :
  world_ok db -> logout_application_session c db = (db', Ok tt) ->
  at_application_session_id a = lo_application_session_id c ->
  introspect now keys (run_session_ops ops db') pr token expected <> Ok (Introspection.Active a).
Proof.
  intros Hw Hl Heq Ha%introspect_ok.
  destruct (logout_effects _ _ _ (world_store _ Hw) Hl) as (_ & _ & (s1 & Hs1 & Hn1) & _).
  destruct (logout_effect _ _ _ _ Hl Hw) as [Hok1 _].
  destruct (session_ops_keep ops db' Hok1) as [_ [Hev _]].
  destruct (ev_session _ _ Hev _ _ Hs1) as (s2 & Hs2 & _ & Hn2).
  unfold introspect_active in Ha. inv_ok.
  apply introspected_live in Ha as (y & ? & ? & ? & ? & Hy & Hact & _).
  rewrite Heq in Hy. assert (y = s2) as -> by congruence. naive_solver.
Qed.
End logout.
End introspection.

(** ** Usage *)
Section usage.
Context `{UnixTime}.

(** Requests that authenticate and detached writes that end, in any order, under a
    clock that does not go back.  The log has what was started: the key and the
    start of the quarter of an hour. *)
Record UsageRun := mkUsageRun {
  ur_telemetry : UsageTelemetry; ur_in_flight : list UsageTask; ur_clock : OffsetDateTime;
  ur_log : list (Uuid * Uuid * Z)
}.

Definition task_entry (now : OffsetDateTime) (task : UsageTask) : Uuid * Uuid * Z :=
  (uk_project_id task, uk_key_id task, usage_bucket now).

Inductive usage_step : UsageRun -> UsageRun -> Prop :=
| usage_observed now principal t task r :
    ur_clock r <= now -> observe_server_key_usage now principal (ur_telemetry r) = (t, task) ->
    usage_step r (mkUsageRun t (option_list task ++ ur_in_flight r) now
                    (option_list (task_entry now <$> task) ++ ur_log r))
| usage_ended before task after r :
    ur_in_flight r = before ++ task :: after ->
    usage_step r (mkUsageRun (usage_task_ends (ur_telemetry r)) (before ++ after) (ur_clock r) (ur_log r)).

Record run_ok (r : UsageRun) : Prop := {
  ro_permits : ut_permits (ur_telemetry r) + list_len (ur_in_flight r) = SERVER_USAGE_TELEMETRY_CONCURRENCY;
  ro_permits_left : 0 <= ut_permits (ur_telemetry r);
  ro_nodup : NoDup (ur_log r);
  ro_logged : forall p k b, (p, k, b) ∈ ur_log r -> b <= usage_bucket (ur_clock r)
    /\ (b = usage_bucket (ur_clock r) -> ut_observed_buckets (ur_telemetry r) !! (p, k) = Some b)
}.

Lemma usage_bucket_mono t t' : t <= t' -> usage_bucket t <= usage_bucket t'.
Proof.
  intros Ht. unfold usage_bucket, SERVER_KEY_USAGE_BUCKET, unix_timestamp.
  apply Z.mul_le_mono_nonneg_r; [lia|]. by repeat apply Z.div_le_mono.
Qed.

Lemma observe_cases now pr t t' task :
  observe_server_key_usage now pr t = (t', task) ->
  let observed := filter (fun '(_, seen) => usage_bucket now <= seen) (ut_observed_buckets t) in
  let identity := (sp_project_id pr, sp_key_id pr) in
  (task = None /\ ut_permits t' = ut_permits t
   /\ (ut_observed_buckets t' = ut_observed_buckets t \/ ut_observed_buckets t' = observed
       \/ ut_observed_buckets t' = <[identity := usage_bucket now]> observed))
  \/ (exists bucket, task = Some (mkUsageTask (sp_project_id pr) (sp_key_id pr) bucket)
      /\ 0 < ut_permits t /\ ut_permits t' = ut_permits t - 1
      /\ ut_observed_buckets t' = <[identity := usage_bucket now]> observed
      /\ (forall seen, ut_observed_buckets t !! identity = Some seen -> seen < usage_bucket now)).
Proof.
  unfold observe_server_key_usage. destruct (ut_permits t <=? 0) eqn:Hp; [intros [= <- <-]; naive_solver|].
  cbn zeta. destruct (_ || _) eqn:Hskip; [intros [= <- <-]; cbn; naive_solver|].
  destruct (from_unix_timestamp _) as [bucket|]; intros [= <- <-]; cbn; [right|naive_solver].
  exists bucket. split; [done|]. split; [lia|]. split; [done|]. split; [done|]. intros seen Hseen.
  apply orb_false_iff in Hskip as [Hskip _]. destruct (decide (usage_bucket now <= seen)) as [Hle|]; [|lia].
  rewrite (proj2 (map_lookup_filter_Some _ _ _ _)) in Hskip by (split; [exact Hseen|exact Hle]).
  cbn in Hskip. lia.
Qed.

Lemma run_step r r' : run_ok r -> usage_step r r' -> run_ok r'.
Proof.
  intros Hr Hstep. revert Hr. destruct Hstep as [now pr t task r Hc Ho|before task after r Hf]; intros [P0 P1 N L].
  2: { split; cbn; [|lia|done|done]. unfold list_len in *. rewrite Hf, !length_app in P0. rewrite length_app.
       cbn in P0. lia. }
  pose proof (usage_bucket_mono _ _ Hc) as Hmono. apply observe_cases in Ho.
  assert (Hkeep : forall p k b, (p, k, b) ∈ ur_log r -> b = usage_bucket now ->
    filter (fun '(_, seen) => usage_bucket now <= seen) (ut_observed_buckets (ur_telemetry r)) !! (p, k)
    = Some b /\ ut_observed_buckets (ur_telemetry r) !! (p, k) = Some b).
  { intros p k b Hin Hb. destruct (L _ _ _ Hin) as [Hle Hobs]. specialize (Hobs ltac:(lia)).
    split; [|done]. apply map_lookup_filter_Some. split; [done|lia]. }
  destruct Ho as [(-> & Hp & Ho)|(bucket & -> & Hpos & Hp & Ho & Hnew)]; cbn.
  - split; cbn; [by rewrite Hp|by rewrite Hp|done|]. intros p k b Hin. destruct (L _ _ _ Hin) as [Hle _].
    split; [lia|]. intros Hb. destruct (Hkeep _ _ _ Hin Hb) as [Hf Hu].
    destruct Ho as [->|[->| ->]]; [done|done|]. destruct (decide ((sp_project_id pr, sp_key_id pr) = (p, k))) as [->|Hne].
    + by rewrite lookup_insert_eq, Hb.
    + by rewrite lookup_insert_ne.
  - split; cbn; [rewrite Hp; unfold list_len in *; cbn; lia|lia|..].
    + apply NoDup_cons. split; [|done]. intros Hin. destruct (Hkeep _ _ _ Hin eq_refl) as [_ Hu].
      specialize (Hnew _ Hu). lia.
    + intros p k b [Heq|Hin]%elem_of_cons.
      * injection Heq as -> -> ->. split; [lia|]. intros _. by rewrite Ho, lookup_insert_eq.
      * destruct (L _ _ _ Hin) as [Hle _]. split; [lia|]. intros Hb. destruct (Hkeep _ _ _ Hin Hb) as [Hf _].
        rewrite Ho. destruct (decide ((sp_project_id pr, sp_key_id pr) = (p, k))) as [->|Hne].
        -- by rewrite lookup_insert_eq, Hb.
        -- by rewrite lookup_insert_ne.
Qed.

Lemma run_steps r r' : rtc usage_step r r' -> run_ok r -> run_ok r'.
Proof. induction 1 as [|x y z Hxy _ IH]; [done|]. intros Hx. by apply IH, (run_step x). Qed.

(** recording usage is bounded work.  However many requests authenticate and
    however long the writes take, at most one write is in flight, and for each key
    at most one is started per quarter of an hour. *)
Theorem usage_is_coalesced start r :
  rtc usage_step (mkUsageRun ServerUsageTelemetry_new [] start []) r ->
  list_len (ur_in_flight r) <= 1 /\ NoDup (ur_log r).
Proof.
  intros Hsteps. assert (Hr : run_ok r).
  { apply (run_steps _ _ Hsteps). split; [done|done|constructor|]. intros p k b []%not_elem_of_nil. }
  destruct Hr as [P0 P1 N _]. split; [|done]. unfold SERVER_USAGE_TELEMETRY_CONCURRENCY in P0. lia.
Qed.
End usage.
