(* ===== verification/ControlProofs.v ===== *)
(** * Control of users and sessions: theorems

    What a session needs to be of use, and what the commands do to users and
    sessions.  Revoking a session or a browser session ends it for good.  The
    commands are guarded by revisions, and the winner of a merge cannot be
    disabled.  (That disabling a user signs the user out is the theorem of
    [SignOut].) *)
From S2P Require Import Prelude.
From S2P Require Import Json.
From S2P Require Import UrlValues.
From S2P Require Import Database.
From S2P Require Import LoginStore.
From S2P Require Import Projection.
From S2P Require Import WebhookOutbox.
From S2P Require Import SessionAuthority.
From S2P Require Import BrowserLogout.
From S2P Require Import Login.
From S2P Require Import Handoff.
From S2P Require Import SessionStore.
From S2P Require Import SessionEffects.
From S2P Require Import LoginHistory.
From S2P Require Import Frames.
From S2P Require Import LoginEffects.
From S2P Require Import HandoffEffects.
From S2P Require Import ServerKeys.
From S2P Require Import ServerApi.
From S2P Require Import ControlLifecycle.
From S2P Require Import ControlEffects.
From S2P Require Import SessionOps.
From S2P Require Import SessionAuthorityProofs.
From S2P Require Import HandoffProofs.
From S2P Require Import RevisionHistory.
From S2P Require Import ServerApiProofs.

(** ** What a session needs to be of use *)
Definition user_fit (db : Database) (user_id : Uuid) (revision : Z) : Prop :=
  exists u, db_users db !! user_id = Some u /\ us_status u = "active"%string
    /\ us_security_revision u = revision.

Definition browser_active (db : Database) (id : Uuid) : Prop :=
  exists b, db_browsers db !! id = Some b /\ bs_status b = "active"%string.

Definition session_fit (db : Database) (id : Uuid) : Prop :=
  exists s, db_sessions db !! id = Some s /\ as_status s = "active"%string
    /\ user_fit db (as_user_id s) (as_user_security_revision s)
    /\ forall j, as_browser_session_id s = Some j -> browser_active db j.

Definition browser_fit (db : Database) (id : Uuid) : Prop :=
  exists b, db_browsers db !! id = Some b /\ bs_status b = "active"%string
    /\ user_fit db (bs_user_id b) (bs_user_security_revision b).

Section fit.
Context `{CanonicalHash} `{ProjectionCryptography} `{UrlLib} `{TimeFormat} `{JsonbText}.
Implicit Types db : Database.

Lemma session_browser_fit db p now s pj u po :
  session_browser db p now s pj u po = Ok tt ->
  forall j, as_browser_session_id s = Some j -> browser_active db j.
Proof.
  unfold session_browser. intros Hb j Hj. rewrite Hj in Hb. inv_ok.
  match goal with Hf : find_by_id _ _ _ = Some ?b |- _ => apply find_by_id_some in Hf as [Hf _]; exists b end.
  bool_prop. naive_solver.
Qed.

Lemma rotates_fit gs fs c db db' u i f n e :
  store_ok db -> rotate_refresh_token gs fs c db = (db', Ok (Rotated u i f n e)) -> session_fit db i.
Proof.
  intros Hok Hr. destruct (rotate_rows _ _ _ _ _ _ Hok Hr) as (s & f' & g & Hs & _ & _ & _ & _ & _ & Ho).
  inversion Ho as [|pj ap user po b r Hst How _ _ Hbr Hw]; subst.
  apply rotation_writes_ok in Hw as (_ & _ & _ & _ & _ & [= _ -> _ _ _]).
  apply state_conflict_false in Hst as (_ & _ & Ha & _). exists s. split_and!; [done..| |].
  - unfold rotation_owners in How. inv_ok. unfold rotation_owner_conflict in *. bool_prop.
    match goal with Hf : find_by_id (db_users db) _ _ = Some ?x |- _ =>
      apply find_by_id_some in Hf as [Hf _]; exists x end. naive_solver lia.
  - by eapply session_browser_fit.
Qed.

Lemma prepares_fit nonce gs fs c db db' p :
  store_ok db -> prepare_refresh_rotation nonce gs fs c db = (db', Ok (Prep.Ready p)) ->
  session_fit db (rp_application_session_id p).
Proof.
  intros Hok Hr. destruct (prepare_rows _ _ _ _ _ _ _ Hok Hr) as (s & f' & g & Hs & _ & _ & _ & _ & _ & Ho).
  inversion Ho as [|pj ap user po b x row m sg lt Hst How Hbr]; subst; cbn.
  apply preparation_conflict_false in Hst as (_ & _ & Ha & _). exists s. split_and!; [done..| |].
  - unfold preparation_owners in How. inv_ok. bool_prop.
    match goal with Hf : find_by_id (db_users db) _ _ = Some ?x |- _ =>
      apply find_by_id_some in Hf as [Hf _]; exists x end. naive_solver lia.
  - by eapply session_browser_fit.
Qed.

Lemma reuse_locked_ok c routed db db' h :
  reuse_locked c routed db = (db', Ok (Ok h)) ->
  exists b u, db_browsers db !! bs_id routed = Some b /\ db_users db !! bs_user_id routed = Some u
    /\ ih_browser_session_id h = bs_id b /\ bs_status b = "active"%string
    /\ us_status u = "active"%string /\ us_security_revision u = bs_user_security_revision b.
Proof.
  unfold reuse_locked. intros Hr.
  apply mseq_ok in Hr as (d & a & [= <- <-] & Hr).
  apply mseq_ok in Hr as (d & l & [_ ->]%mlift_ok & Hr).
  destruct (_ <=? _) in Hr; [apply mseq_ok in Hr as (? & ? & _ & [=])|].
  do 2 apply if_mfail_ok in Hr as [_ Hr].
  apply mseq_ok in Hr as (d & st & [_ ->]%mlift_ok & Hr).
  apply mseq_ok in Hr as (d & nx & [_ ->]%mlift_ok & Hr).
  apply mseq_ok in Hr as (d & [[pj ap] po] & [_ ->]%mlift_ok & Hr).
  apply mseq_ok in Hr as (d & u & [Hu ->]%mlift_ok & Hr).
  apply mseq_ok in Hr as (d & b & [Hb ->]%mlift_ok & Hr).
  apply if_mfail_ok in Hr as [Hfit Hr]. unfold session_unfit in Hfit. bool_prop.
  apply ok_or_ok, find_by_id_some in Hu as [Hu _]. apply ok_or_ok, find_by_id_some in Hb as [Hb _].
  exists b, u. assert (ih_browser_session_id h = bs_id b) as ->; [|naive_solver].
  apply mseq_ok in Hr as (d & al & [_ ->]%mlift_ok & Hr). apply if_mfail_ok in Hr as [_ Hr].
  apply mseq_ok in Hr as (d1 & ? & _ & Hr). cbv zeta in Hr. apply if_mfail_ok in Hr as [_ Hr].
  apply mseq_ok in Hr as (d2 & t & _ & Hr). apply mseq_ok in Hr as (d3 & ? & _ & Hr).
  apply mseq_ok in Hr as (d4 & ? & _ & Hr). by injection Hr as _ <-.
Qed.

(** A reuse is routed by a snapshot the store has evolved from. *)
Lemma reuses_fit snapshot c db db' h :
  store_ok snapshot -> evolves snapshot db -> store_ok db ->
  confirm_browser_session_reuse snapshot c db = (db', Ok h) -> browser_fit db (ih_browser_session_id h).
Proof.
  intros Hsn Hev Hok Hr. unfold confirm_browser_session_reuse in Hr.
  do 4 (apply mseq_ok in Hr as (? & ? & [_ ->]%mlift_ok & Hr)).
  apply mseq_ok in Hr as (? & routed & [Hro ->]%mlift_ok & Hr).
  apply (proj1 (committed_ok _ _ _ _)), reuse_locked_ok in Hr as (b & u & Hb & Hu & -> & Hst & Hus & Hrev).
  apply ok_or_ok, find_one_some in Hro as (k & Hk & _).
  pose proof (dir_browsers _ _ _ _ _ _ (store_directory _ Hsn) _ _ Hk) as Hid. rewrite Hid in Hb.
  destruct (ev_browser _ _ Hev _ _ Hk) as (b' & Hb' & _ & _ & _ & (_ & Hsame & _)).
  assert (b' = b) as -> by congruence.
  exists b. rewrite (dir_browsers _ _ _ _ _ _ (store_directory _ Hok) _ _ Hb). split_and!; [done..|].
  exists u. split_and!; [congruence|done..].
Qed.

(** The session an exchange opens stands behind a browser session that is fit. *)
Lemma exchanges_fit clock nonces uuid ids c db db' r :
  world_ok db -> commit_handoff_exchange clock nonces uuid ids c db = (db', Ok r) ->
  exists s j, db_sessions db' !! hs_application_session_id r = Some s
    /\ as_browser_session_id s = Some j /\ browser_fit db j.
Proof.
  intros Hw Hc. destruct (commit_ok _ _ _ _ _ _ _ _ Hw Hc) as (t & _ & _ & _ & _ & _ & _ & _ & _ & He).
  destruct (exchange_ticket_ok _ _ _ _ _ _ _ _ _ Hw He) as (l & o & b & x & db1 & _ & _ & Ho & _ & _ & _ & Hx & _).
  apply exchange_writes_ok in Hx as (_ & _ & _ & Hs & _ & _ & _ & _ & Hid & _).
  exists (new_session c t o b), (bs_id (to_browser o)). rewrite Hs, Hid, lookup_insert_eq. split_and!; [done..|].
  clear Hc He Hs Hid. unfold commit_owners, ticket_owners in Ho. inv_ok.
  unfold commit_owner_conflict, commit_browser_conflict in *. cbn in *.
  repeat match goal with Hf : find_by_id _ _ _ = Some _ |- _ => apply find_by_id_some in Hf as [? ?] end.
  bool_prop. destruct_and?. match goal with Hf : db_browsers db !! _ = Some ?y |- _ => exists y;
    rewrite (dir_browsers _ _ _ _ _ _ (store_directory _ (world_store _ Hw)) _ _ Hf) end.
  split_and!; [done..|].
  match goal with Hf : db_users db !! _ = Some ?y |- _ => exists y end.
  split_and!; [congruence|done|lia].
Qed.
End fit.

(** ** What the commands do *)
Definition same_users (db db' : Database) : Prop := db_users db' = db_users db.
Instance same_users_preorder : PreOrder same_users.
Proof. split; [done|]. unfold same_users. intros a b c Hab Hbc. congruence. Qed.

Section commands.
Context `{CanonicalHash} `{ProjectionCryptography} `{UrlLib} `{TimeFormat} `{JsonbText}.
Implicit Types db : Database.

Lemma update_projection_users db row : frame_at same_users db (update_projection row).
Proof. intros ? ?; intros; inv_txn; done. Qed.
Lemma insert_event_users db row : frame_at same_users db (insert_event row).
Proof. by intros db' [] (_ & _ & ->)%insert_event_ok. Qed.
Lemma insert_delivery_users db row : frame_at same_users db (insert_delivery row).
Proof. by intros db' [] (_ & _ & ->)%insert_delivery_ok. Qed.
Lemma dispatch_users db p a : frame_at same_users db (ensure_dispatch_state p a).
Proof. unfold ensure_dispatch_state. solve_frame. by apply frame_at_modify. Qed.
Lemma audit_users db p a b c d e : frame_at same_users db (append_runtime_audit p a b c d e).
Proof. by intros db' u [= <- <-]. Qed.
Hint Resolve update_projection_users insert_event_users insert_delivery_users dispatch_users
  audit_users : frames.

Lemma enqueue_users db ids event kind endpoints :
  frame_at same_users db (enqueue_deliveries ids event kind endpoints).
Proof. revert db; induction endpoints; intros db; cbn; solve_frame. Qed.
Lemma fan_out_users db clock draws u now : frame_at same_users db (fan_out_user clock draws u now).
Proof.
  pose proof enqueue_users. apply fan_out_user_kept; [apply _|intros; unfold repair_runtime_projection; solve_frame
    |intros; unfold append_projection_event; solve_frame].
Qed.

Lemma switch_user_ok clock draws p i u status action cid now db db' r :
  switch_user clock draws p i u status action cid now db = (db', Ok r) ->
  0 < us_user_revision u /\ 0 < us_security_revision u
  /\ r = user_with status (us_user_revision u + 1) (us_security_revision u + 1) now u
  /\ db_users db' = <[us_id u := r]> (db_users db).
Proof.
  unfold switch_user. intros Hs.
  apply mseq_ok in Hs as (? & r1 & [Hr1 ->]%mlift_ok & Hs).
  apply mseq_ok in Hs as (? & r2 & [Hr2 ->]%mlift_ok & Hs). cbv zeta in Hs.
  apply control_revision_ok in Hr1 as (? & [= <-] & ? & -> & _).
  apply control_revision_ok in Hr2 as (? & [= <-] & ? & -> & _).
  apply mseq_ok in Hs as (d1 & [] & Hu & Hs). apply update_user_ok in Hu as (_ & _ & _ & ->).
  apply mseq_ok in Hs as (d2 & [] & Hf & Hs). apply fan_out_users in Hf.
  apply mseq_ok in Hs as (d3 & [] & Ha & Hs). apply audit_users in Ha.
  injection Hs as <- <-. unfold same_users in *. split_and!; [done..|]. by rewrite Ha, Hf.
Qed.

Lemma user_triggers_ok graph p i db db' :
  user_triggers graph p i db = (db', Ok tt) -> db' = db /\ merged_attribution graph db p i = true.
Proof.
  unfold user_triggers. intros Ht. apply mseq_ok in Ht as (? & ? & [= <- <-] & Ht).
  apply check_that_ok in Ht as [Ht ->]. by apply andb_true_iff in Ht as [_ Ht].
Qed.

(** The transactions that switch a user. *)
Lemma disable_locked_ok clock draws graph c db db' u u' :
  store_ok db -> find_user db (du_project_id c) (du_user_id c) = Some u ->
  us_status u = "active"%string -> disable_locked clock draws graph c db = (db', Ok u') ->
  us_security_revision u = du_expected_security_revision c
  /\ 0 < us_user_revision u /\ 0 < us_security_revision u
  /\ u' = user_with "disabled" (us_user_revision u + 1) (us_security_revision u + 1) (du_now c) u
  /\ db_users db' = <[du_user_id c := u']> (db_users db)
  /\ merged_attribution graph db' (du_project_id c) (du_user_id c) = true.
Proof.
  intros Hok Hf Hst Ht. destruct (found_user _ _ _ _ Hok Hf) as (Hid & Hp & _).
  unfold disable_locked in Ht. apply mseq_ok in Ht as (d0 & u0 & Hl & Ht).
  apply locked_user_ok in Hl as (-> & Hf0 & Hr & _). assert (u0 = u) as -> by congruence.
  rewrite bool_decide_true in Ht by done. apply mseq_ok in Ht as (d1 & u1 & Hs & Ht).
  apply mseq_ok in Ht as (d2 & [] & Htr & Ht). injection Ht as <- <-.
  apply user_triggers_ok in Htr as [-> Hm]. apply switch_user_ok in Hs as (? & ? & -> & Hu).
  rewrite Hid, Hp in *. by split_and!.
Qed.

Lemma enable_locked_ok clock draws graph c db db' u' :
  enable_locked clock draws graph c db = (db', Ok u') ->
  exists u, find_user db (eu_project_id c) (eu_user_id c) = Some u
    /\ us_security_revision u = eu_expected_security_revision c.
Proof.
  unfold enable_locked. intros (d0 & u0 & Hl & _)%mseq_ok. apply locked_user_ok in Hl. naive_solver.
Qed.

Lemma disable_needs_revision clock draws graph c db db' u' :
  disable_locked clock draws graph c db = (db', Ok u') ->
  exists u, find_user db (du_project_id c) (du_user_id c) = Some u
    /\ us_security_revision u = du_expected_security_revision c.
Proof.
  unfold disable_locked. intros (d0 & u0 & Hl & _)%mseq_ok. apply locked_user_ok in Hl. naive_solver.
Qed.

(** The result is the row that was written. *)
Lemma disable_ok clock draws graph c db db' rec :
  disable_project_user clock draws graph c db = (db', Ok rec) ->
  exists u', disable_locked clock draws graph c db = (db', Ok u') /\ project_user_record u' = Ok rec.
Proof.
  unfold disable_project_user. intros (d & u' & Ht & [Hrec ->]%mlift_ok)%mseq_ok.
  apply (proj1 (transaction_ok _ _ _ _)) in Ht. eauto.
Qed.
Lemma enable_ok clock draws graph c db db' rec :
  enable_project_user clock draws graph c db = (db', Ok rec) ->
  exists u', enable_locked clock draws graph c db = (db', Ok u') /\ project_user_record u' = Ok rec.
Proof.
  unfold enable_project_user. intros (d & u' & Ht & [Hrec ->]%mlift_ok)%mseq_ok.
  apply (proj1 (transaction_ok _ _ _ _)) in Ht. eauto.
Qed.

Lemma record_status u rec : project_user_record u = Ok rec ->
  us_status u = project_user_status (pu_status rec) /\ pu_security_revision rec = us_security_revision u.
Proof.
  unfold project_user_record. repeat case_bool_decide; cbn; try done;
    (destruct (_ || _); [done|]); by intros [= <-].
Qed.

Lemma revoke_session_ok c db db' r :
  store_ok db -> revoke_application_session c db = (db', Ok r) ->
  exists s, db_sessions db' !! ra_session_id c = Some s /\ as_status s <> "active"%string.
Proof.
  intros Hok Hr. unfold revoke_application_session in Hr.
  apply mseq_ok in Hr as (d & [s1 ap] & Ht & [_ ->]%mlift_ok).
  apply (proj1 (transaction_ok _ _ _ _)) in Ht. apply mseq_ok in Ht as (? & ? & [= <- <-] & Ht).
  apply mseq_ok in Ht as (? & ? & [_ ->]%mlift_ok & Ht).
  apply mseq_ok in Ht as (? & s & [Hs ->]%mlift_ok & Ht). apply if_mfail_ok in Ht as [_ Ht].
  apply ok_or_ok, (found_session _ _ _ _ Hok) in Hs as (Hid & _ & Hs).
  apply mseq_ok in Ht as (d2 & s2 & Hu & Ht).
  apply mseq_ok in Ht as (? & ? & [_ ->]%mlift_ok & Ht). injection Ht as <- <- <-.
  revert Hu. case_bool_decide as Hst; [|case_bool_decide as Hst'; [|done]].
  - intros Hu. apply mseq_ok in Hu as (? & n & [_ ->]%mlift_ok & Hu). cbv zeta in Hu.
    apply mseq_ok in Hu as (d3 & [] & Hw & Hu). apply update_session_ok in Hw as (_ & _ & ->).
    apply mseq_ok in Hu as (d4 & [] & [= <-] & Hu). injection Hu as <- <-. cbn.
    rewrite Hid, lookup_insert_eq. by eexists.
  - intros [= <- <-]. rewrite <- Hid. exists s. by rewrite Hst'.
Qed.

Lemma revoke_browser_ok c db db' r :
  store_ok db -> revoke_browser_session c db = (db', Ok r) ->
  exists b, db_browsers db' !! rb_session_id c = Some b /\ bs_status b <> "active"%string.
Proof.
  intros Hok Hr. unfold revoke_browser_session in Hr.
  apply mseq_ok in Hr as (d & b1 & Ht & [_ ->]%mlift_ok).
  apply (proj1 (transaction_ok _ _ _ _)) in Ht. apply mseq_ok in Ht as (? & ? & [= <- <-] & Ht).
  apply mseq_ok in Ht as (? & ? & [_ ->]%mlift_ok & Ht).
  apply mseq_ok in Ht as (? & b & [Hb ->]%mlift_ok & Ht). apply if_mfail_ok in Ht as [_ Ht].
  apply ok_or_ok, find_by_id_some in Hb as [Hb _].
  pose proof (dir_browsers _ _ _ _ _ _ (store_directory _ Hok) _ _ Hb) as Hid.
  revert Ht. case_bool_decide as Hst; [|case_bool_decide as Hst'; [|done]].
  - intros Hu. apply mseq_ok in Hu as (? & n & [_ ->]%mlift_ok & Hu). cbv zeta in Hu.
    apply mseq_ok in Hu as (d3 & [] & Hw & Hu). apply update_browser_ok in Hw as (_ & _ & ->).
    apply mseq_ok in Hu as (d4 & [] & [= <-] & Hu). injection Hu as <- <-. cbn.
    rewrite Hid, lookup_insert_eq. by eexists.
  - intros [= <- <-]. exists b. by rewrite Hst'.
Qed.
End commands.

(** ** What ends, ends for good *)
Section ended.
Context `{CanonicalHash} `{Base64Url} `{Hmac} `{UnixTime} `{CntrlClass} `{TokenJson} `{Ed25519}
  `{EmailAddressReader} `{EmailLookupDigester} `{ProjectionCryptography} `{UrlLib} `{TimeFormat}
  `{JsonbText}.
Implicit Types db : Database.

(** The session of an application is of no use: its refresh token is neither
    prepared nor rotated, and no access token of it is reported active. *)
Definition session_dead (db : Database) (id : Uuid) : Prop :=
  (forall gs fs c db' u f n e, rotate_refresh_token gs fs c db <> (db', Ok (Rotated u id f n e)))
  /\ (forall nonce gs fs c db' p,
        prepare_refresh_rotation nonce gs fs c db = (db', Ok (Prep.Ready p)) ->
        rp_application_session_id p <> id)
  /\ (forall now keys pr token expected a,
        introspect now keys db pr token expected = Ok (Introspection.Active a) ->
        at_application_session_id a <> id).

(** A browser session is of no use: no login reuses it, and no ticket behind it is
    exchanged for a session. *)
Definition browser_dead (db : Database) (id : Uuid) : Prop :=
  (forall snapshot c db' h, store_ok snapshot -> evolves snapshot db ->
     confirm_browser_session_reuse snapshot c db = (db', Ok h) -> ih_browser_session_id h <> id)
  /\ (forall clock nonces uuid ids c db' r s,
        commit_handoff_exchange clock nonces uuid ids c db = (db', Ok r) ->
        db_sessions db' !! hs_application_session_id r = Some s ->
        as_browser_session_id s <> Some id).

Lemma introspects_fit now keys db pr token expected a :
  store_ok db -> introspect now keys db pr token expected = Ok (Introspection.Active a) ->
  session_fit db (at_application_session_id a).
Proof.
  intros Hok Ha%introspect_ok. unfold introspect_active in Ha. inv_ok.
  match goal with Hi : introspect_session _ _ = Ok _ |- _ =>
    apply introspected in Hi as [-> (v & Hv & Hlive)] end.
  apply joins_in in Hv as (_ & Hs & _ & Hu & (b & Hb & Hsb) & _ & (k & Hk)).
  unfold session_is_live in Hlive. bool_prop. destruct_and!.
  pose proof (own_users _ _ _ _ (store_owners _ Hok) _ _ Hk) as Hi.
  pose proof (dir_browsers _ _ _ _ _ _ (store_directory _ Hok) _ _ Hb) as Hbi.
  exists (sw_session v). split_and!; [done..| |].
  - exists (sw_user v). split_and!; [congruence|done|lia].
  - intros j Hj. exists (sw_browser v). split; [congruence|done].
Qed.

Lemma unfit_session_dead db id : world_ok db -> ~ session_fit db id -> session_dead db id.
Proof.
  intros [Hok _] Hn. split_and!.
  - intros * Hr. by apply Hn, (rotates_fit _ _ _ _ _ _ _ _ _ _ Hok Hr).
  - intros * Hr <-. by apply Hn, (prepares_fit _ _ _ _ _ _ _ Hok Hr).
  - intros * Hr <-. by apply Hn, (introspects_fit _ _ _ _ _ _ _ Hok Hr).
Qed.

Lemma unfit_browser_dead db id : world_ok db -> ~ browser_fit db id -> browser_dead db id.
Proof.
  intros Hw Hn. split.
  - intros * Hsn Hev Hr <-. by apply Hn, (reuses_fit _ _ _ _ _ Hsn Hev (world_store _ Hw) Hr).
  - intros * Hr Hs Hj. destruct (exchanges_fit _ _ _ _ _ _ _ _ Hw Hr) as (s' & j & Hs' & Hj' & Hfit).
    assert (j = id) as -> by congruence. done.
Qed.

(** C38: an operator's revocation is final.  After an application session was
    revoked it is of no use, whatever runs; after a browser session was revoked
    neither it nor any application session behind it is. *)
Theorem revocation_is_final rc bc db ops :
  world_ok db ->
  (forall db1 r, revoke_application_session rc db = (db1, Ok r) ->
     session_dead (run_session_ops ops db1) (ra_session_id rc))
  /\ (forall db1 r, revoke_browser_session bc db = (db1, Ok r) ->
        browser_dead (run_session_ops ops db1) (rb_session_id bc)
        /\ forall i s, db_sessions (run_session_ops ops db1) !! i = Some s ->
             as_browser_session_id s = Some (rb_session_id bc) ->
             session_dead (run_session_ops ops db1) i).
Proof.
  intros Hw. split; intros db1 r Hr.
  - destruct (revoke_session_effect _ _ _ _ Hr Hw) as [Hw1 _].
    destruct (session_ops_keep ops db1 Hw1) as [Hw2 [Hev _]].
    destruct (revoke_session_ok _ _ _ _ (world_store _ Hw) Hr) as (s & Hs & Hn).
    apply unfit_session_dead; [done|]. intros (s2 & Hs2 & Ha & _).
    destruct (ev_session _ _ Hev _ _ Hs) as (s3 & Hs3 & _ & Hn3). rewrite Hs2 in Hs3. injection Hs3 as ->. by apply Hn3.
  - destruct (revoke_browser_effect _ _ _ _ Hr Hw) as [Hw1 _].
    destruct (session_ops_keep ops db1 Hw1) as [Hw2 [Hev _]].
    destruct (revoke_browser_ok _ _ _ _ (world_store _ Hw) Hr) as (b & Hb & Hn).
    destruct (ev_browser _ _ Hev _ _ Hb) as (b3 & Hb3 & _ & _ & Hn3 & _). specialize (Hn3 Hn). split.
    + apply unfit_browser_dead; [done|]. intros (b2 & Hb2 & Ha & _). congruence.
    + intros i s Hs Hj. apply unfit_session_dead; [done|]. intros (s2 & Hs2 & _ & _ & Hbr).
      rewrite Hs in Hs2. injection Hs2 as <-. destruct (Hbr _ Hj) as (b2 & Hb2 & Ha). congruence.
Qed.
End ended.

(** ** Guards of the commands *)
Section guards.
Context `{CanonicalHash} `{ProjectionCryptography} `{UrlLib} `{TimeFormat} `{JsonbText}.
Implicit Types db : Database.

(** C39: the winner of a merge cannot be disabled.  As long as a user that was
    merged into it is on record, the trigger on the users' table refuses the change
    when the transaction commits: the command fails and the store is as it was. *)
Theorem merge_winner_cannot_be_disabled clock draws graph c db u k loser :
  store_ok db -> find_user db (du_project_id c) (du_user_id c) = Some u ->
  us_status u = "active"%string ->
  db_users db !! k = Some loser -> us_project_id loser = du_project_id c ->
  us_status loser = "merged"%string -> us_merged_into_user_id loser = Some (du_user_id c) ->
  exists e, disable_project_user clock draws graph c db = (db, Err e).
Proof.
  intros Hok Hf Hst Hk Hp Hm Hinto. unfold disable_project_user, mseq, transaction.
  destruct (disable_locked clock draws graph c db) as [db' [u'|e]] eqn:Hd; [exfalso|by eexists].
  destruct (disable_locked_ok _ _ _ _ _ _ _ _ Hok Hf Hst Hd) as (_ & _ & _ & -> & Hu & Htr).
  apply find_user_ok in Hf as [Hf _].
  assert (db_users db' !! k = Some loser) as Hk'.
  { rewrite Hu, lookup_insert_ne; [done|]. intros <-. congruence. }
  unfold merged_attribution in Htr. apply andb_true_iff in Htr as [Htr _].
  rewrite forallb_forall in Htr. specialize (Htr loser).
  rewrite Hp, Hm, Hinto, Z.eqb_refl, !bool_decide_true, orb_true_r in Htr by done. cbn in Htr.
  assert (In loser (rows (db_users db'))) as Hin.
  { apply in_map_iff. exists (k, loser). split; [done|]. by apply list_elem_of_In, elem_of_map_to_list. }
  specialize (Htr Hin). unfold merged_loser_ok, active_winner in Htr.
  rewrite Hinto in Htr. cbn in Htr. unfold find_by_id in Htr. rewrite Hu, lookup_insert_eq in Htr. cbn in Htr.
  by destruct (_ =? _) in Htr.
Qed.

(** A security revision admits one change: after a user was disabled under a
    revision, no command on the user presented with that revision or an older one
    succeeds, whatever runs in between. *)
Theorem user_revision_single_use clock draws graph c db db1 rec ops :
  world_ok db ->
  (exists u, find_user db (du_project_id c) (du_user_id c) = Some u /\ us_status u = "active"%string) ->
  disable_project_user clock draws graph c db = (db1, Ok rec) ->
  let db2 := run_session_ops ops db1 in
  (forall clock' draws' graph' c' db3 rec', du_user_id c' = du_user_id c ->
     disable_project_user clock' draws' graph' c' db2 = (db3, Ok rec') ->
     du_expected_security_revision c < du_expected_security_revision c')
  /\ (forall clock' draws' graph' c' db3 rec', eu_user_id c' = du_user_id c ->
        enable_project_user clock' draws' graph' c' db2 = (db3, Ok rec') ->
        du_expected_security_revision c < eu_expected_security_revision c').
Proof.
  intros Hw (u & Hf & Hst) Hd db2. destruct (disable_effect _ _ _ _ _ _ _ Hd Hw) as [Hw1 _].
  destruct (session_ops_keep ops db1 Hw1) as [_ [Hev _]].
  destruct (disable_ok _ _ _ _ _ _ _ Hd) as (u' & Ht & _).
  destruct (disable_locked_ok _ _ _ _ _ _ _ _ (world_store _ Hw) Hf Hst Ht) as (Hexp & _ & _ & -> & Hu & _).
  assert (Hu1 := lookup_insert_eq (db_users db) (du_user_id c)
    (user_with "disabled" (us_user_revision u + 1) (us_security_revision u + 1) (du_now c) u)).
  rewrite <- Hu in Hu1. destruct (ev_user _ _ Hev _ _ Hu1) as (u2 & Hu2 & _ & Hle). cbn in Hle.
  split; intros * Hid Hr.
  - destruct (disable_ok _ _ _ _ _ _ _ Hr) as (? & (u3 & [Hu3 _]%find_user_ok & <-)%disable_needs_revision & _).
    unfold db2 in Hu3. rewrite Hid, Hu2 in Hu3. injection Hu3 as <-. lia.
  - destruct (enable_ok _ _ _ _ _ _ _ Hr) as (? & (u3 & [Hu3 _]%find_user_ok & <-)%enable_locked_ok & _).
    unfold db2 in Hu3. rewrite Hid, Hu2 in Hu3. injection Hu3 as <-. lia.
Qed.
End guards.
