(* ===== verification/SignOut.v ===== *)
(** * Signing out by disabling

    Disabling a user advances the security revision every session, browser session
    and handoff ticket of the user has recorded.  What records an older revision is
    of no use, and stays so: sessions and tickets never record another one, and a
    browser session only when a sign-in completed later writes its row anew.  The
    operations are those of the session, login, handoff and control authorities and
    of the email authority; the completion of a provider sign-in, which writes a
    browser session by the same function as an email sign-in, is not modelled. *)
From S2P Require Import Prelude.
From S2P Require Import Json.
From S2P Require Import LoginTables.
From S2P Require Import UrlValues.
From S2P Require Import Database.
From S2P Require Import LoginStore.
From S2P Require Import Projection.
From S2P Require Import WebhookOutbox.
From S2P Require Import SessionAuthority.
From S2P Require Import BrowserLogout.
From S2P Require Import Login.
From S2P Require Import Handoff.
From S2P Require Import SessionStore.
From S2P Require Import SessionEffects.
From S2P Require Import LoginHistory.
From S2P Require Import Frames.
From S2P Require Import LoginEffects.
From S2P Require Import HandoffEffects.
From S2P Require Import ServerKeys.
From S2P Require Import ServerApi.
From S2P Require Import ControlLifecycle.
From S2P Require Import ControlEffects.
From S2P Require Import EmailTables.
From S2P Require Import PasswordlessEmail.
From S2P Require Import EmailEffects.
From S2P Require Import EmailProofs.
From S2P Require Import SessionOps.
From S2P Require Import EmailSessions.
From S2P Require Import HandoffProofs.
From S2P Require Import RevisionHistory.
From S2P Require Import ServerApiProofs.
From S2P Require Import ControlProofs.

(** ** Recorded revisions over time *)
(** A browser session may record, instead of what it did, the revision its user has
    (or a later one): that is what a completed sign-in writes. *)
Definition browser_follows (db : Database) (b b' : BrowserSessionRow) : Prop :=
  bs_user_id b' = bs_user_id b
  /\ (bs_user_security_revision b' = bs_user_security_revision b
      \/ exists u, db_users db !! bs_user_id b = Some u
                   /\ us_security_revision u <= bs_user_security_revision b').

Record later (db db' : Database) : Prop := {
  la_user : forall i u, db_users db !! i = Some u ->
    exists u', db_users db' !! i = Some u' /\ us_security_revision u <= us_security_revision u';
  la_session : forall i s, db_sessions db !! i = Some s ->
    exists s', db_sessions db' !! i = Some s' /\ as_user_id s' = as_user_id s
      /\ as_user_security_revision s' = as_user_security_revision s;
  la_ticket : forall i t, db_tickets db !! i = Some t ->
    exists t', db_tickets db' !! i = Some t' /\ same_ticket t t';
  la_browser : forall i b, db_browsers db !! i = Some b ->
    exists b', db_browsers db' !! i = Some b' /\ browser_follows db b b'
}.

Lemma browser_follows_trans a b x y z :
  (forall i u, db_users a !! i = Some u ->
     exists u', db_users b !! i = Some u' /\ us_security_revision u <= us_security_revision u') ->
  browser_follows a x y -> browser_follows b y z -> (exists u, db_users a !! bs_user_id x = Some u) ->
  browser_follows a x z.
Proof.
  intros Hu [Hxy Hr] [Hyz Hs] [u Hx]. split; [congruence|].
  destruct Hs as [->|(v & Hv & Hle)]; [done|]. right. exists u. split; [done|].
  destruct (Hu _ _ Hx) as (u' & Hu' & ?). rewrite Hxy, Hu' in Hv. injection Hv as <-. lia.
Qed.

(** Stores in which every browser session has its user. *)
Definition people (db : Database) : Prop :=
  forall i b, db_browsers db !! i = Some b -> exists u, db_users db !! bs_user_id b = Some u.

Lemma later_trans a b c : people a -> later a b -> later b c -> later a c.
Proof.
  intros Hp [u1 s1 t1 b1] [u2 s2 t2 b2]. constructor.
  - intros i u (u' & (u'' & ? & ?)%u2 & ?)%u1. exists u''. split; [done|lia].
  - intros i s (s' & (s'' & ? & ? & ?)%s2 & ? & ?)%s1. exists s''. split_and!; congruence.
  - intros i t (t' & (t'' & ? & Hb)%t2 & Ha)%t1. exists t''. split; [done|].
    unfold same_ticket in *. destruct_and!. split_and!; congruence.
  - intros i x Hx. destruct (b1 _ _ Hx) as (y & Hy & Hxy). destruct (b2 _ _ Hy) as (z & Hz & Hyz).
    exists z. split; [done|]. by eapply browser_follows_trans; [exact u1|..|eapply Hp].
Qed.

Lemma later_refl db : later db db.
Proof.
  constructor.
  - intros i u Hu. exists u. split; [done|lia].
  - intros i s Hs. by exists s.
  - intros i t Ht. exists t. by split_and!.
  - intros i b Hb. exists b. split; [done|]. split; [done|by left].
Qed.

Lemma world_later db db' : world_evolves db db' -> later db db'.
Proof.
  intros [Hev [_ Ht]]. constructor.
  - intros i u (u' & ? & _ & ?)%(ev_user _ _ Hev). by exists u'.
  - intros i s (s' & ? & (_ & _ & ? & _ & ?) & _)%(ev_session _ _ Hev). by exists s'.
  - intros i t (t' & ? & ? & _)%Ht. by exists t'.
  - intros i b (b' & ? & _ & _ & _ & (_ & ? & ?))%(ev_browser _ _ Hev). exists b'.
    split; [done|]. split; [done|by left].
Qed.

Lemma revisions_people db : revisions_ok db -> people db.
Proof. intros Hr i b Hb. destruct (rev_browsers _ Hr _ _ Hb) as (u & Hu & _). eauto. Qed.

(** ** What email sign-ins write of users and browser sessions *)
Record signed_people (db db' : Database) : Prop := {
  sp_user : forall i u, db_users db !! i = Some u ->
    exists u', db_users db' !! i = Some u' /\ us_security_revision u <= us_security_revision u';
  sp_browser : forall i b, db_browsers db !! i = Some b ->
    exists b', db_browsers db' !! i = Some b' /\ browser_follows db b b';
  sp_recorded : forall i b', db_browsers db' !! i = Some b' ->
    (exists b, db_browsers db !! i = Some b /\ bs_user_id b' = bs_user_id b
               /\ bs_user_security_revision b' = bs_user_security_revision b)
    \/ recorded db' (bs_user_id b') (bs_user_security_revision b')
}.

Lemma same_people db db' :
  db_users db' = db_users db -> db_browsers db' = db_browsers db -> signed_people db db'.
Proof.
  intros Hu Hb. constructor; rewrite ?Hu, ?Hb.
  - intros i u Hi. exists u. split; [done|lia].
  - intros i b Hi. exists b. split; [done|]. split; [done|by left].
  - intros i b Hi. left. by exists b.
Qed.

Lemma recorded_signed db db' u r :
  (forall i u, db_users db !! i = Some u ->
     exists u', db_users db' !! i = Some u' /\ us_security_revision u <= us_security_revision u') ->
  recorded db u r -> recorded db' u r.
Proof. intros Hu (x & (x' & ? & ?)%Hu & ?). exists x'. split; [done|lia]. Qed.

Lemma signed_trans a b c : people a -> signed_people a b -> signed_people b c -> signed_people a c.
Proof.
  intros Hp [u1 b1 r1] [u2 b2 r2]. constructor.
  - intros i u (u' & (u'' & ? & ?)%u2 & ?)%u1. exists u''. split; [done|lia].
  - intros i x Hx. destruct (b1 _ _ Hx) as (y & Hy & Hxy). destruct (b2 _ _ Hy) as (z & Hz & Hyz).
    exists z. split; [done|]. by eapply browser_follows_trans; [exact u1|..|eapply Hp].
  - intros i z Hz. destruct (r2 _ _ Hz) as [(y & Hy & Ezu & Ezr)|Hr]; [|by right].
    destruct (r1 _ _ Hy) as [(x & Hx & Eyu & Eyr)|Hr].
    + left. exists x. split_and!; congruence.
    + right. rewrite Ezu, Ezr. by eapply recorded_signed.
Qed.

Lemma signed_revisions db db' :
  signed_people db db' -> db_sessions db' = db_sessions db -> revisions_ok db -> revisions_ok db'.
Proof.
  intros [Hu _ Hb] Hs [H1 H2]. constructor.
  - rewrite Hs. intros i s Hi. by eapply recorded_signed; [exact Hu|eapply H1].
  - intros i b' [(b & Hi & -> & ->)|Hr]%Hb; [|done]. by eapply recorded_signed; [exact Hu|eapply H2].
Qed.

Lemma put_browser_people db row :
  (forall b, db_browsers db !! bs_id row = Some b -> browser_follows db b row) ->
  (exists b, db_browsers db !! bs_id row = Some b /\ bs_user_id row = bs_user_id b
             /\ bs_user_security_revision row = bs_user_security_revision b)
  \/ recorded db (bs_user_id row) (bs_user_security_revision row) ->
  signed_people db (set_db_browsers (<[bs_id row := row]> (db_browsers db)) db).
Proof.
  intros Hf Hr. constructor; cbn.
  - intros i u Hi. exists u. split; [done|lia].
  - intros i b Hi. destruct (decide (i = bs_id row)) as [->|Hne].
    + exists row. rewrite lookup_insert_eq. auto.
    + exists b. rewrite lookup_insert_ne by done. split; [done|]. split; [done|by left].
  - intros i b [[<- <-]|[_ Hi]]%lookup_insert_Some; [done|]. left. by exists b.
Qed.

Lemma put_user_people db id u :
  (forall u0, db_users db !! id = Some u0 -> us_security_revision u0 <= us_security_revision u) ->
  signed_people db (set_db_users (<[id := u]> (db_users db)) db).
Proof.
  intros Hle. constructor; cbn.
  - intros i x Hi. destruct (decide (i = id)) as [->|Hne].
    + exists u. rewrite lookup_insert_eq. auto.
    + exists x. rewrite lookup_insert_ne by done. split; [done|lia].
  - intros i b Hi. exists b. split; [done|]. split; [done|by left].
  - intros i b Hi. left. by exists b.
Qed.

Ltac put_row := match goal with
  |- signed_people ?db (set_db_browsers (<[_ := ?row]> _) _) => apply (put_browser_people db row) end.

(** A sign-in writes the browser session with the revision the user has. *)
Lemma insert_browser_ok row db db' :
  insert_browser row db = (db', Ok tt) ->
  db_browsers db !! bs_id row = None /\ db' = set_db_browsers (<[bs_id row := row]> (db_browsers db)) db.
Proof.
  unfold insert_browser. intros (? & ? & [= <- <-] & Hr)%mseq_ok.
  apply mseq_ok in Hr as (? & [] & [[Hn%is_none_iff _]%andb_true_iff ->]%check_that_ok & [= <-]). done.
Qed.

Lemma created_people db db' c b u :
  db_users db !! bsc_user_id c = Some u -> us_security_revision u = bsc_user_security_revision c ->
  create_browser_session c db = (db', Ok b) -> signed_people db db'.
Proof.
  intros Hu Hr. unfold create_browser_session. cbv zeta.
  intros (d & [] & [Hn ->]%insert_browser_ok & [= <- _])%mseq_ok.
  apply put_browser_people; [intros x; congruence|]. right. exists u. cbn. split; [done|lia].
Qed.

Lemma rotated_people db db' c b u :
  store_ok db -> people db -> db_users db !! bsc_user_id c = Some u ->
  us_security_revision u = bsc_user_security_revision c ->
  rotate_or_create_browser_session c db = (db', Ok b) -> signed_people db db'.
Proof.
  intros Hok Hp Hu Hr. unfold rotate_or_create_browser_session.
  intros (? & ? & [= <- <-] & Hc)%mseq_ok.
  destruct (_ ≫= _) as [x|] eqn:Hx; [|by eapply created_people].
  assert (db_browsers db !! bs_id x = Some x) as Hb.
  { apply bind_Some in Hx as (d & _ & Hx). apply find_one_some in Hx as (k & Hk & _).
    by rewrite (dir_browsers _ _ _ _ _ _ (store_directory _ Hok) _ _ Hk). }
  destruct (_ && _) eqn:Hsame in Hc.
  - apply andb_true_iff in Hsame as [[_ Hown%Z.eqb_eq]%andb_true_iff _]. cbv zeta in Hc.
    apply mseq_ok in Hc as (d & [] & (_ & _ & ->)%update_browser_ok & [= <- _]).
    put_row; cbn.
    + intros y Hy. rewrite Hb in Hy. injection Hy as <-. split; [done|]. right. exists u. cbn.
      rewrite Hown. split; [done|lia].
    + right. exists u. split; [done|lia].
  - apply mseq_ok in Hc as (d & [] & Hret & Hc). revert Hret. unfold retire_browser.
    clear Hsame. destruct (_ && _); [|intros [= <-]; by eapply created_people].
    intros (_ & _ & ->)%update_browser_ok.
    eapply signed_trans; [done| |eapply created_people; [|done|exact Hc]; done].
    put_row; cbn.
    + intros y Hy. rewrite Hb in Hy. injection Hy as <-. split; [done|by left].
    + left. by exists x.
Qed.

(** Programs that leave both tables alone. *)
Definition same_rows (db db' : Database) : Prop :=
  db_users db' = db_users db /\ db_browsers db' = db_browsers db.
#[export] Instance same_rows_preorder : PreOrder same_rows.
Proof. split; [done|]. intros a b c [? ?] [? ?]. split; congruence. Qed.
Definition same_store_rows (s s' : EmailStore) : Prop := same_rows (es_db s) (es_db s').
#[export] Instance same_store_rows_preorder : PreOrder same_store_rows.
Proof. split; unfold same_store_rows; [done|]. intros a b c ? ?. by etrans. Qed.

Lemma update_login_rows db row : frame_at same_rows db (update_login row).
Proof. by intros db' [] (_ & _ & ->)%update_login_ok. Qed.
Lemma audit_rows db p a b c d e : frame_at same_rows db (append_runtime_audit p a b c d e).
Proof. by intros db' u (ev & -> & _)%append_runtime_audit_ok. Qed.
Lemma handoff_rows db id d l u b m a i e r :
  frame_at same_rows db (insert_handoff id d l u b m a i e r).
Proof. by intros db' t (_ & _ & _ & _ & _ & (_ & _ & ->)%insert_ticket_ok)%insert_handoff_ok. Qed.
#[export] Hint Resolve update_login_rows audit_rows handoff_rows : frames.

Lemma on_db_rows {A} s (m : txn A) : frame_at same_rows (es_db s) m -> e_frame_at same_store_rows s (on_db m).
Proof. intros Hm s' a (db & Hr & ->)%on_db_ok. by eapply Hm. Qed.
Lemma same_db_rows {A} s (m : etxn A) : e_frame_at same_db s m -> e_frame_at same_store_rows s m.
Proof. intros Hm s' a Hr. unfold same_store_rows. by rewrite (Hm _ _ Hr). Qed.

Lemma select_rows c : e_effect same_store_rows (select_email_method c).
Proof.
  unfold select_email_method. do 2 (apply e_effect_lift; [exact _|]; intros ? ?).
  intros s0 s' r. unfold on_db. destruct (transaction (select_locked c) (es_db s0)) as [db x] eqn:Ht.
  intros [= <- _]. revert Ht. unfold same_store_rows. cbn.
  assert (effect same_rows (transaction (select_locked c))) as He; [|by apply He].
  unfold select_locked. solve_frame.
Qed.

Lemma commit_rows clock cancel_clock recent_clock c :
  e_effect same_store_rows (commit_email_generation clock cancel_clock recent_clock c).
Proof.
  unfold commit_email_generation, commit_generation_locked. solve_email;
    first [apply on_db_rows; solve_frame | apply same_db_rows; eauto with email_frames].
Qed.

Lemma signed_people_people a b : people a -> signed_people a b -> people b.
Proof.
  intros Hp [Hu _ Hr] i y [(x & (u & (u' & ? & _)%Hu)%Hp & -> & _)|(u & ? & _)]%Hr; eauto.
Qed.

(** ** The completion of an email proof *)
Section completion.
Context `{CanonicalHash}.

Lemma existing_owner_user s p version ds identity_id i u :
  existing_owner s p version ds None = Ok (Some (identity_id, i, u)) ->
  db_users (es_db s) !! ei_user_id i = Some u.
Proof.
  intros (_ & _ & Hf)%existing_owner_agrees. destruct (Hf _ eq_refl) as [[=]|[d Hd]].
  revert Hd. unfold alias_owner.
  destruct (List.find _ _) as [row|]; [|done]. cbn [mbind option_bind].
  destruct (find_by_id (db_email_identities _) _ _) as [i0|]; [|done]. cbn [mbind option_bind].
  destruct (find_by_id (db_users _) _ _) as [u0|] eqn:Hu; [|done]. cbn [mbind option_bind].
  intros [= _ -> ->]. by apply find_by_id_some in Hu as [Hu _].
Qed.

Lemma sign_up_people c version s s' uid pub rev :
  people (es_db s) -> sign_up c version s = (s', Ok (uid, pub, rev)) ->
  signed_people (es_db s) (es_db s')
  /\ exists u, db_users (es_db s') !! uid = Some u /\ us_security_revision u = rev.
Proof.
  intros Hp. unfold sign_up. cbv zeta. intros (? & ? & [= <- <-] & Hr)%mseq_ok.
  apply mseq_ok in Hr as (? & policy & [_ ->]%mlift_ok & Hr). apply if_mfail_ok in Hr as [_ Hr].
  apply mseq_ok in Hr as (? & digest & [_ ->]%mlift_ok & Hr).
  apply mseq_ok in Hr as (s1 & ? & (d1 & (Hn & ->)%insert_user_ok & ->)%on_db_ok & Hr).
  apply mseq_ok in Hr as (s2 & ? & (d2 & ->%insert_email_identity_ok & ->)%on_db_ok & Hr).
  apply mseq_ok in Hr as (s3 & ? & (Hfree & ->)%insert_alias_ok & Hr).
  apply mseq_ok in Hr as (s4 & ? & (d4 & Hs & ->)%on_db_ok & [= <- <- _ <-]).
  apply (set_primary_email_ok _ _ (new_email_user c digest)) in Hs as ->; [|apply lookup_insert_eq|done].
  split; [|eexists; split; [apply lookup_insert_eq|done]]. cbn in *.
  eapply (signed_trans _ (set_db_users (<[cep_new_user_id c := new_email_user c digest]>
                                          (db_users (es_db s))) (es_db s))); [done| |].
  - apply put_user_people. intros u0. congruence.
  - constructor; cbn.
    + intros i v Hi. destruct (decide (i = cep_new_user_id c)) as [->|Hne].
      * rewrite lookup_insert_eq in Hi. injection Hi as <-. eexists.
        split; [apply lookup_insert_eq|cbn; lia].
      * exists v. rewrite lookup_insert_ne by done. split; [done|lia].
    + intros i b Hi. exists b. split; [done|]. split; [done|by left].
    + intros i b Hi. left. by exists b.
Qed.

Lemma completed_user_people c version s s' uid pub rev is_new :
  people (es_db s) -> completed_user c version s = (s', Ok (uid, pub, rev, is_new)) ->
  signed_people (es_db s) (es_db s')
  /\ exists u, db_users (es_db s') !! uid = Some u /\ us_security_revision u = rev.
Proof.
  intros Hp. unfold completed_user. intros (? & ? & [= <- <-] & Hr)%mseq_ok.
  apply mseq_ok in Hr as (? & [[[iid i] u]|] & [He ->]%mlift_ok & Hr);
    apply mseq_ok in Hr as (s1 & [[uid' pub'] rev'] & Hr & [= <- <- <- <- <-]); [|by eapply sign_up_people].
  pose proof (existing_owner_user _ _ _ _ _ _ _ He) as Hu.
  revert Hr. unfold sign_in_existing. cbv zeta. intros [_ Hr]%if_mfail_ok.
  apply mseq_ok in Hr as (s2 & x & Hins & Hr). apply mseq_ok in Hr as (? & ? & [= <- <-] & Hr).
  apply mseq_ok in Hr as (? & owner & [_ ->]%mlift_ok & Hr). apply if_mfail_ok in Hr as [_ Hr].
  injection Hr as <- <- _ <-.
  assert (es_db s2 = es_db s) as -> by by apply insert_alias_if_absent_ok in Hins as [->| ->].
  split; [by apply same_people|by exists u].
Qed.

Lemma complete_writes_people s s' c l ch uid pub rev u h :
  store_ok (es_db s) -> people (es_db s) -> db_users (es_db s) !! uid = Some u ->
  us_security_revision u = rev ->
  complete_writes c l ch uid pub rev s = (s', Ok h) -> signed_people (es_db s) (es_db s').
Proof.
  intros Hok Hp Hu Hrev. unfold complete_writes. cbv zeta.
  intros (s1 & b & (d1 & Hb & ->)%on_db_ok & Hr)%mseq_ok.
  apply mseq_ok in Hr as (s2 & t & (d2 & Ht%handoff_rows & ->)%on_db_ok & Hr).
  apply mseq_ok in Hr as (s3 & [] & (Hd3 & _ & _)%consume_transfer_ok & Hr).
  apply mseq_ok in Hr as (s4 & [] & ->%consume_challenge_ok & Hr).
  apply mseq_ok in Hr as (? & rv & [_ ->]%mlift_ok & Hr).
  apply mseq_ok in Hr as (s5 & [] & (d5 & Hl%update_login_rows & ->)%on_db_ok & Hr).
  apply mseq_ok in Hr as (s6 & v & (d6 & Ha%audit_rows & ->)%on_db_ok & [= <- _]).
  cbn in *. rewrite Hd3 in Hl.
  destruct (transitivity Ht (transitivity Hl Ha)) as [E1 E2]. cbn in E1, E2.
  apply (signed_trans _ d1); [done| |by apply same_people].
  by eapply (rotated_people _ _ _ _ u); [..|exact Hb].
Qed.

Lemma complete_people c s s' h :
  world_ok (es_db s) -> people (es_db s) -> complete_locked c s = (s', Ok h) ->
  signed_people (es_db s) (es_db s').
Proof.
  intros Hw Hp. unfold complete_locked. cbv zeta. intros (? & ? & [= <- <-] & Hc)%mseq_ok.
  apply mseq_ok in Hc as (? & [l ch] & [_ ->]%mlift_ok & Hc). cbn [fst snd] in Hc.
  apply if_mfail_ok in Hc as [_ Hc]. apply mseq_ok in Hc as (? & ? & [_ ->]%mlift_ok & Hc).
  do 3 apply if_mfail_ok in Hc as [_ Hc].
  apply mseq_ok in Hc as (s1 & [[[uid pub] rev] is_new] & Hu & Hc).
  apply mseq_ok in Hc as (s2 & h2 & Hwr & Hc). apply mseq_ok in Hc as (s3 & ? & Ht & [= <- _]).
  assert (s3 = s2) as ->.
  { destruct is_new; [|by injection Ht as <- _].
    apply on_db_ok in Ht as (d & <-%sign_up_triggers_reads & ->). by destruct s2. }
  destruct (completed_user_store _ _ _ _ _ Hu Hw) as [Hw1 _].
  destruct (completed_user_people _ _ _ _ _ _ _ _ Hp Hu) as (Hs1 & u & Hu1 & Hrev).
  eapply signed_trans; [done|exact Hs1|].
  eapply complete_writes_people; [apply Hw1|by eapply signed_people_people|exact Hu1|done|exact Hwr].
Qed.

(** The completion of a sign-in is the one operation that writes either table. *)
Definition completes (op : sign_in_op) : bool :=
  match op with ByEmail (CompleteProof _) => true | _ => false end.

Lemma email_op_rows op s :
  of_email op = true -> completes (ByEmail op) = false -> same_store_rows s (run_email_op op s).
Proof.
  assert (forall s s', same_db s s' -> same_store_rows s s') as Hsame
    by (intros ? ? E; unfold same_store_rows; by rewrite E).
  destruct op as [c|k1 k2 k3 c|c|v|c|k j o n now|what lk k now lim|db]; intros Hop Hno;
    cbn [run_email_op]; try done.
  - apply e_effect_fst, select_rows.
  - apply e_effect_fst, commit_rows.
  - apply Hsame, e_effect_fst, establish_db.
  - apply Hsame, e_effect_fst, verify_db.
  - apply Hsame, e_effect_fst, finish_attempt_db.
  - apply Hsame, e_effect_fst, e_effect_transaction; [exact _|]. intros s0. apply retention_db.
Qed.

Lemma email_op_people op s :
  of_email op = true -> world_ok (es_db s) -> people (es_db s) ->
  signed_people (es_db s) (es_db (run_email_op op s)).
Proof.
  intros Hop Hw Hp. destruct (completes (ByEmail op)) eqn:Hno.
  - destruct op; try done. cbn [run_email_op].
    unfold complete_email_proof, mseq, mlift. destruct (validate_completion _); [|by apply same_people].
    destruct (e_transaction _ s) as [s' [h|e]] eqn:Hc; cbn.
    + apply (proj1 (e_transaction_ok _ _ _ _)) in Hc. by eapply complete_people.
    + apply e_transaction_err in Hc as ->. by apply same_people.
  - destruct (email_op_rows op s Hop Hno). by apply same_people.
Qed.
End completion.

(** ** Operations of all authorities *)
Lemma signed_later db db' : signed_in db db' -> signed_people db db' -> later db db'.
Proof.
  intros [Hs _ _ Ht _] [Hu Hb _]. constructor; [done| | |done].
  - rewrite Hs. intros i s Hi. by exists s.
  - intros i t Hi. exists t. split; [auto|]. by split_and!.
Qed.

Section operations.
Context `{CanonicalHash} `{ProjectionCryptography} `{UrlLib} `{TimeFormat} `{JsonbText}.

(** What the operations keep of a store of both authorities. *)
Definition standing (s : EmailStore) : Prop := both_ok s /\ revisions_ok (es_db s).

Lemma sign_in_op_later op s :
  closed_op op = true -> standing s ->
  standing (run_sign_in_op op s) /\ later (es_db s) (es_db (run_sign_in_op op s)).
Proof.
  intros Hop [Hok Hr]. destruct (sign_in_op_keeps op s Hop Hok) as [Hok' _]. destruct Hok as [Hw He].
  destruct op as [op|op]; cbn [run_sign_in_op closed_op] in *.
  - split; [split; [done|]|]; cbn; [by apply op_revisions|].
    apply world_later, session_op_keeps, Hw.
  - destruct (email_op_store op s Hop Hw) as [_ Hs].
    pose proof (email_op_people op s Hop Hw (revisions_people _ Hr)) as Hp.
    split; [split; [done|]|by apply signed_later].
    by apply (signed_revisions _ _ Hp (si_sessions _ _ Hs)).
Qed.

Lemma sign_in_ops_later ops s :
  Forall (fun op => closed_op op = true) ops -> standing s ->
  standing (run_sign_in_ops ops s) /\ later (es_db s) (es_db (run_sign_in_ops ops s)).
Proof.
  intros Hops. revert s. induction Hops as [|op ops Hop _ IH]; intros s Hs; [split; [done|apply later_refl]|].
  destruct (sign_in_op_later op s Hop Hs) as [Hs1 Hl1]. destruct (IH _ Hs1) as [Hs2 Hl2].
  split; [done|]. eapply later_trans; [by apply revisions_people, Hs|done..].
Qed.

(** Without a completed sign-in every browser session keeps the revision it recorded. *)
Lemma recorded_browser_kept ops s i b :
  Forall (fun op => closed_op op = true) ops -> existsb completes ops = false -> standing s ->
  db_browsers (es_db s) !! i = Some b ->
  exists b', db_browsers (es_db (run_sign_in_ops ops s)) !! i = Some b' /\ bs_user_id b' = bs_user_id b
    /\ bs_user_security_revision b' = bs_user_security_revision b.
Proof.
  intros Hops. revert s b. induction Hops as [|op ops Hop _ IH]; intros s b Hno Hs Hb; [by exists b|].
  cbn [existsb] in Hno. apply orb_false_iff in Hno as [Hno Hnos].
  destruct (sign_in_op_later op s Hop Hs) as [Hs1 _].
  assert (exists b1, db_browsers (es_db (run_sign_in_op op s)) !! i = Some b1
    /\ bs_user_id b1 = bs_user_id b /\ bs_user_security_revision b1 = bs_user_security_revision b)
    as (b1 & Hb1 & E1 & E2).
  { destruct op as [op|op]; cbn [run_sign_in_op] in *.
    - destruct (session_op_keeps op _ (proj1 (proj1 Hs))) as [_ [Hev _]].
      destruct (ev_browser _ _ Hev _ _ Hb) as (b1 & ? & _ & _ & _ & (_ & ? & ?)). by exists b1.
    - destruct (email_op_rows op s Hop Hno) as [_ E]. exists b. by rewrite E. }
  destruct (IH _ _ Hnos Hs1 Hb1) as (b2 & ? & ? & ?). exists b2. split_and!; [done|congruence..].
Qed.

(** What recorded less than the revision its user has now is behind for good. *)
Lemma behind_unfit db db' user_id u r :
  later db db' -> db_users db !! user_id = Some u -> r < us_security_revision u ->
  ~ user_fit db' user_id r.
Proof.
  intros Hl Hu Hr (x & Hx & _ & Heq). destruct (la_user _ _ Hl _ _ Hu) as (u' & Hu' & Hle).
  assert (u' = x) as -> by congruence. lia.
Qed.
End operations.

(** ** The sign-out *)
Section signed_out.
Context `{CanonicalHash} `{Base64Url} `{Hmac} `{UnixTime} `{CntrlClass} `{TokenJson} `{Ed25519}
  `{EmailAddressReader} `{EmailLookupDigester} `{ProjectionCryptography} `{UrlLib} `{TimeFormat}
  `{JsonbText}.
Implicit Types db : Database.

(** No login reuses a browser session, whatever earlier store its request was routed
    by, and no handoff behind it is exchanged. *)
Definition browser_signed_out (db : Database) (id : Uuid) : Prop :=
  (forall snapshot c db' h, store_ok snapshot -> later snapshot db ->
     confirm_browser_session_reuse snapshot c db = (db', Ok h) -> ih_browser_session_id h <> id)
  /\ (forall clock nonces uuid ids c db' r s,
        commit_handoff_exchange clock nonces uuid ids c db = (db', Ok r) ->
        db_sessions db' !! hs_application_session_id r = Some s ->
        as_browser_session_id s <> Some id).

Lemma reuses_later_fit snapshot c db db' h :
  store_ok snapshot -> later snapshot db -> store_ok db ->
  confirm_browser_session_reuse snapshot c db = (db', Ok h) -> browser_fit db (ih_browser_session_id h).
Proof.
  intros Hsn Hl Hok Hr. unfold confirm_browser_session_reuse in Hr.
  do 4 (apply mseq_ok in Hr as (? & ? & [_ ->]%mlift_ok & Hr)).
  apply mseq_ok in Hr as (? & routed & [Hro ->]%mlift_ok & Hr).
  apply (proj1 (committed_ok _ _ _ _)), reuse_locked_ok in Hr as (b & u & Hb & Hu & -> & Hst & Hus & Hrev).
  apply ok_or_ok, find_one_some in Hro as (k & Hk & _).
  pose proof (dir_browsers _ _ _ _ _ _ (store_directory _ Hsn) _ _ Hk) as Hid. rewrite Hid in Hb.
  destruct (la_browser _ _ Hl _ _ Hk) as (b' & Hb' & Hsame & _).
  assert (b' = b) as -> by congruence.
  exists b. rewrite (dir_browsers _ _ _ _ _ _ (store_directory _ Hok) _ _ Hb). split_and!; [done..|].
  exists u. split_and!; [congruence|done..].
Qed.

Lemma unfit_signed_out db id : world_ok db -> ~ browser_fit db id -> browser_signed_out db id.
Proof.
  intros Hw Hn. split.
  - intros * Hsn Hl Hr <-. by apply Hn, (reuses_later_fit _ _ _ _ _ Hsn Hl (world_store _ Hw) Hr).
  - intros * Hr Hs Hj. destruct (exchanges_fit _ _ _ _ _ _ _ _ Hw Hr) as (s' & j & Hs' & Hj' & Hfit).
    assert (j = id) as -> by congruence. done.
Qed.

(** An exchange needs the revision its ticket recorded. *)
Lemma exchange_needs_revision clock nonces uuid ids c db db' r :
  world_ok db -> commit_handoff_exchange clock nonces uuid ids c db = (db', Ok r) ->
  exists t, db_tickets db !! ht_id t = Some t
    /\ ht_ticket_digest t = vd_value (ch_handoff_ticket c)
    /\ ht_ticket_digest_key_version t = vd_key_version (ch_handoff_ticket c)
    /\ user_fit db (ht_user_id t) (ht_user_security_revision t).
Proof.
  intros Hw Hc. destruct (commit_ok _ _ _ _ _ _ _ _ Hw Hc) as (t & Ht & Hd & Hv & _ & _ & _ & _ & _ & He).
  destruct (exchange_ticket_ok _ _ _ _ _ _ _ _ _ Hw He) as (l & o & b & x & db1 & _ & _ & Ho & _).
  exists t. split_and!; [done..|]. clear Hc He. unfold commit_owners, ticket_owners in Ho. inv_ok.
  unfold commit_owner_conflict in *. cbn in *.
  repeat match goal with Hf : find_by_id _ _ _ = Some _ |- _ => apply find_by_id_some in Hf as [? ?] end.
  bool_prop. destruct_and?. match goal with Hf : db_users db !! _ = Some ?y |- _ => exists y end.
  split_and!; [done|done|lia].
Qed.

Lemma ticket_needs_revision clock nonces uuid ids c db db' r i t :
  world_ok db -> commit_handoff_exchange clock nonces uuid ids c db = (db', Ok r) ->
  db_tickets db !! i = Some t ->
  ch_handoff_ticket c = mkVersionedDigest (ht_ticket_digest t) (ht_ticket_digest_key_version t) ->
  user_fit db (ht_user_id t) (ht_user_security_revision t).
Proof.
  intros Hw Hc Ht Heq.
  destruct (exchange_needs_revision _ _ _ _ _ _ _ _ Hw Hc) as (t2 & Ht2 & Hd2 & Hv2 & Hfit).
  rewrite Heq in Hd2, Hv2. cbn in Hd2, Hv2. replace t with t2; [done|].
  apply (ticket_unique db); [apply Hw|done| |congruence..].
  by rewrite (lts_tickets _ (world_login _ Hw) _ _ Ht).
Qed.

(** The store a disabling leaves behind. *)
Lemma disabled_store s clock draws graph c u db1 rec :
  standing s -> find_user (es_db s) (du_project_id c) (du_user_id c) = Some u ->
  us_status u = "active"%string -> disable_project_user clock draws graph c (es_db s) = (db1, Ok rec) ->
  pu_status rec = ProjectUser.Disabled /\ standing (set_es_db db1 s) /\ world_evolves (es_db s) db1
  /\ db_users (es_db s) !! du_user_id c = Some u
  /\ exists u1, db_users db1 !! du_user_id c = Some u1
       /\ us_security_revision u1 = us_security_revision u + 1.
Proof.
  intros Hs Hf Hst Hd. pose proof (proj1 (proj1 Hs)) as Hw.
  destruct (sign_in_op_later (BySession (DisableUserOp clock draws graph c)) s eq_refl Hs) as [Hs1 _].
  destruct (session_op_keeps (DisableUserOp clock draws graph c) _ Hw) as [_ Hev].
  cbn in Hs1, Hev. rewrite Hd in Hs1, Hev.
  destruct (disable_ok _ _ _ _ _ _ _ Hd) as (u' & Ht & [Hrec _]%record_status).
  destruct (disable_locked_ok _ _ _ _ _ _ _ _ (world_store _ Hw) Hf Hst Ht) as (_ & _ & _ & -> & Hu' & _).
  apply find_user_ok in Hf as [Hu _]. cbn in Hrec.
  split_and!; [by destruct (pu_status rec)|done..|]. rewrite Hu'. eexists.
  split; [apply lookup_insert_eq|done].
Qed.

End signed_out.
