(* ===== verification/DirectoryProofs.v ===== *)
(** * The directory of users: theorems

    The pages of [list_project_users]: a client that follows the cursors gets every
    user that matches, each once, in the order asked for. *)
From S2P Require Import Prelude.
From S2P Require Import Json.
From S2P Require Import Database.
From S2P Require Import LoginStore.
From S2P Require Import SessionStore.
From S2P Require Import WebhookHistoryProofs.
From S2P Require Import ServerApi.
From S2P Require Import ControlLifecycle.
From S2P Require Import ControlEffects.

(** ** Pages of a sorted list *)
Section pages.
Context {A : Type} (R : relation A) `{!RelDecision R, !Total R, !Transitive R}.
Context (base : list A) (Hnodup : NoDup base)
  (Hanti : forall x y, x ∈ base -> y ∈ base -> R x y -> R y x -> x = y).

Definition sorted_rows (p : A -> bool) : list A := merge_sort R (List.filter p base).

Lemma sorted_rows_in p x : x ∈ sorted_rows p <-> x ∈ base /\ p x = true.
Proof. unfold sorted_rows. by rewrite merge_sort_Permutation, !list_elem_of_In, filter_In. Qed.

Lemma sorted_rows_nodup p : NoDup (sorted_rows p).
Proof.
  unfold sorted_rows. rewrite merge_sort_Permutation.
  by apply NoDup_ListNoDup, List.NoDup_filter, NoDup_ListNoDup.
Qed.

(** What comes after a row is what its cursor selects. *)
Lemma sorted_rows_after p (after : A -> bool) l1 r l2 :
  (forall x, x ∈ base -> after x = true <-> R r x /\ x <> r) ->
  sorted_rows p = l1 ++ r :: l2 -> sorted_rows (fun x => p x && after x) = l2.
Proof.
  intros Hafter Hrows. pose proof (sorted_rows_nodup p) as Hn.
  assert (Hs : StronglySorted R (sorted_rows p)) by (apply StronglySorted_merge_sort; apply _).
  assert (Hin : forall x, x ∈ l1 ++ r :: l2 -> x ∈ base) by (rewrite <- Hrows; intros x; by intros [? _]%sorted_rows_in).
  rewrite Hrows in Hs, Hn. apply StronglySorted_app in Hs as (H12 & _ & [H2 Hl2]%StronglySorted_cons).
  apply NoDup_app in Hn as (_ & Hdis & [Hr _]%NoDup_cons).
  apply StronglySorted_unique_strong with R; [|apply StronglySorted_merge_sort; apply _|done|].
  - intros x y [Hx _]%sorted_rows_in Hy. apply Hanti; [done|]. apply Hin. set_solver.
  - unfold sorted_rows. rewrite merge_sort_Permutation. trans (List.filter after (sorted_rows p)).
    { unfold sorted_rows. rewrite filter_both. symmetry. apply filter_permutation, merge_sort_Permutation. }
    rewrite Hrows, List.filter_app. cbn.
    assert (after r = false) as -> by (apply not_true_iff_false; rewrite Hafter by (apply Hin; set_solver); naive_solver).
    rewrite filter_none, filter_all; [done|..].
    + intros x Hx. apply Hafter; [apply Hin; set_solver|]. rewrite Forall_forall in H2. split; [by apply H2|].
      by intros ->.
    + intros x Hx. apply not_true_iff_false. rewrite Hafter by (apply Hin; set_solver). intros [Hrx Hne].
      apply Hne, Hanti; [apply Hin; set_solver..| |done]. apply H12; set_solver.
Qed.
End pages.

(** One row more than the limit tells whether there are more. *)
Lemma probe_tells limit n :
  0 <= limit -> (limit <? Z.of_nat (Z.to_nat (limit + 1) `min` n)) = (limit <? Z.of_nat n).
Proof.
  intros Hl. apply Bool.eq_iff_eq_true. rewrite !Z.ltb_lt.
  destruct (Nat.min_spec (Z.to_nat (limit + 1)) n) as [[? ->]|[? ->]]; lia.
Qed.

(** ** The directory *)
Section directory.
Context `{PgText}.
Context (db : Database) (graph : IdentityGraph) (project_id : Uuid) (criteria : ProjectUserListCriteria)
  (limit : Z).

(** A client: it asks for pages until one has no next cursor. *)
Fixpoint follow_users (fuel : nat) (cursor : option Uuid) : option (list ProjectUserRecord) :=
  match fuel with
  | O => None
  | S n =>
      match list_project_users db db db graph db project_id criteria cursor limit with
      | Err _ => None
      | Ok page =>
          match pg_next_cursor page with
          | None => Some (pg_items page)
          | Some next => rest ← follow_users n (Some next); Some (pg_items page ++ rest)
          end
      end
  end.

Definition matching : UserRow -> bool := listed db graph db project_id criteria.
Definition directory : list UserRow :=
  sorted_rows (user_before (cr_sort criteria)) (rows (db_users db)) matching.

#[local] Instance user_before_total sort : Total (user_before sort).
Proof. intros a b. unfold user_before. destruct sort; lia. Qed.
#[local] Instance user_before_trans sort : Transitive (user_before sort).
Proof. intros a b c. unfold user_before. destruct sort; lia. Qed.

Hypothesis Husers : keyed us_id (db_users db).
Hypothesis Hproject : require_project db project_id = Ok tt.
Hypothesis Hlimit : 1 <= limit <= 100.

Lemma rows_elem {Row} (t : gmap Z Row) x : x ∈ rows t <-> exists k, t !! k = Some x.
Proof.
  unfold rows. rewrite list_elem_of_fmap. split.
  - intros ([k y] & -> & Hk). exists k. by apply elem_of_map_to_list.
  - intros (k & Hk). exists (k, x). split; [done|]. by apply elem_of_map_to_list.
Qed.

Lemma users_nodup : NoDup (rows (db_users db)).
Proof.
  apply (NoDup_fmap_1 us_id). unfold rows. rewrite <- list_fmap_compose.
  erewrite list_fmap_ext; [exact (NoDup_fst_map_to_list (db_users db))|]. intros i [k x] Hx.
  apply Husers, elem_of_map_to_list. by eapply list_elem_of_lookup_2.
Qed.

Lemma same_key x y : x ∈ rows (db_users db) -> y ∈ rows (db_users db) -> us_id x = us_id y -> x = y.
Proof.
  intros (k & Hk)%rows_elem (j & Hj)%rows_elem Hid.
  assert (k = j) as -> by (rewrite <- (Husers _ _ Hk), <- (Husers _ _ Hj); done). congruence.
Qed.

Lemma before_anti x y :
  x ∈ rows (db_users db) -> y ∈ rows (db_users db) ->
  user_before (cr_sort criteria) x y -> user_before (cr_sort criteria) y x -> x = y.
Proof. intros Hx Hy. unfold user_before. destruct (cr_sort criteria); intros; apply same_key; auto; lia. Qed.

Lemma beyond_after r x :
  r ∈ rows (db_users db) -> x ∈ rows (db_users db) ->
  beyond (cr_sort criteria) (Some r) x = true <-> user_before (cr_sort criteria) r x /\ x <> r.
Proof.
  intros Hr Hx. pose proof (same_key x r Hx Hr) as Hkey. unfold beyond, user_before.
  destruct (decide (us_id x = us_id r)) as [Heq|Hne].
  - rewrite (Hkey Heq). destruct (cr_sort criteria); (split; [lia|naive_solver]).
  - assert (x <> r) by congruence. destruct (cr_sort criteria); (split; [intros; split; [lia|done]|lia]).
Qed.

(** What a cursor stands for. *)
Definition rest_at (cursor : option Uuid) (l : list UserRow) : Prop :=
  (cursor = None /\ l = directory)
  \/ exists l1 r, cursor = Some (us_id r) /\ directory = l1 ++ r :: l.

Lemma directory_user l1 r l : directory = l1 ++ r :: l ->
  r ∈ rows (db_users db) /\ find_user db project_id (us_id r) = Some r.
Proof.
  intros Hd. assert (r ∈ directory) as [Hr Hm]%sorted_rows_in by (rewrite Hd; set_solver).
  split; [done|]. apply rows_elem in Hr as (k & Hk). rewrite (Husers _ _ Hk). apply find_user_ok. split; [done|].
  unfold matching, listed in Hm. rewrite !andb_true_iff in Hm. destruct Hm as [[[Hm _] _] _]. lia.
Qed.

Lemma page_at cursor l :
  rest_at cursor l ->
  list_project_users db db db graph db project_id criteria cursor limit
  = (items <-? rmapM project_user_record (take (Z.to_nat limit) l) ;;
     Ok {| pg_items := items;
           pg_next_cursor := if limit <? list_len l then us_id <$> last (take (Z.to_nat limit) l) else None |}).
Proof.
  intros Hl. unfold list_project_users, bounded_limit, in_range.
  replace (negb ((1 <=? limit) && (limit <=? 100))) with false by lia. cbn [rbind]. rewrite Hproject. cbn [rbind].
  assert (exists c, match cursor with
    | Some cursor_id => rmap Some (ok_or (find_user db project_id cursor_id) AppError.InvalidInput)
    | None => Ok None end = Ok c
    /\ sorted_rows (user_before (cr_sort criteria)) (rows (db_users db))
         (fun u => matching u && beyond (cr_sort criteria) c u) = l) as (c & -> & Hc).
  { destruct Hl as [[-> ->]|(l1 & r & -> & Hd)].
    - exists None. split; [done|]. unfold directory, sorted_rows. f_equal. apply filter_ext. intros. by rewrite andb_true_r.
    - destruct (directory_user _ _ _ Hd) as [Hr ->]. exists (Some r). split; [done|].
      eapply sorted_rows_after; [apply _|apply _|exact users_nodup|exact before_anti| |exact Hd].
      intros x Hx. by apply beyond_after. }
  cbn [rbind]. unfold find_all. change (map snd (map_to_list (db_users db))) with (rows (db_users db)).
  change (merge_sort _ _) with (sorted_rows (user_before (cr_sort criteria)) (rows (db_users db))
    (fun u => matching u && beyond (cr_sort criteria) c u)). rewrite Hc.
  rewrite take_take, Nat.min_l by lia. unfold list_len. rewrite length_take.
  by rewrite probe_tells by lia.
Qed.

Lemma follow_rest : forall fuel cursor l records,
  rest_at cursor l -> Forall2 (fun u r => project_user_record u = Ok r) l records ->
  (length l < fuel)%nat -> follow_users fuel cursor = Some records.
Proof.
  induction fuel as [|n IH]; intros cursor l records Hl Hrec Hn; [lia|]. cbn [follow_users].
  rewrite (page_at _ _ Hl). assert (rmapM project_user_record (take (Z.to_nat limit) l)
    = Ok (take (Z.to_nat limit) records)) as -> by (by apply rmapM_ok, Forall2_take).
  cbn [rbind pg_next_cursor pg_items]. pose proof (Forall2_length _ _ _ Hrec) as Hlen.
  destruct (limit <? list_len l) eqn:Hmore; unfold list_len in Hmore.
  - destruct (lookup_lt_is_Some_2 l (Z.to_nat limit - 1)) as [x Hx]; [lia|].
    assert (last (take (Z.to_nat limit) l) = Some x) as ->.
    { rewrite last_lookup, length_take, lookup_take_lt by lia. rewrite <- Hx. f_equal. lia. }
    cbn. set (l1 := take (Z.to_nat limit - 1) l). set (l2 := drop (Z.to_nat limit) l).
    assert (l = l1 ++ x :: l2) as Hsplit.
    { unfold l1, l2. replace (Z.to_nat limit) with (S (Z.to_nat limit - 1)) at 2 by lia.
      by rewrite take_drop_middle. }
    rewrite (IH _ l2 (drop (Z.to_nat limit) records)); [cbn; by rewrite take_drop|..].
    + right. destruct Hl as [[_ Hr]|(l0 & r0 & _ & Hr)].
      * exists l1, x. split; [done|congruence].
      * exists (l0 ++ r0 :: l1), x. split; [done|]. by rewrite Hr, Hsplit, <- app_assoc.
    + by apply Forall2_drop.
    + unfold l2. rewrite length_drop. lia.
  - cbn. rewrite take_ge by lia. done.
Qed.
End directory.

(** C40: the pages of the directory are the directory.  A client that follows the
    cursors, with any page size from 1 to 100 and either order, gets every user of
    the project that matches the status, the search and the identity filter exactly
    once, in that order, and the walk ends. *)
Theorem directory_pages `{PgText} db graph project_id criteria limit :
  store_ok db -> require_project db project_id = Ok tt ->
  (forall k u, db_users db !! k = Some u -> project_user_check u = true) -> 1 <= limit <= 100 ->
  exists users records,
    (forall u, u ∈ users <-> listed db graph db project_id criteria u = true
                             /\ exists k, db_users db !! k = Some u)
    /\ NoDup users /\ StronglySorted (user_before (cr_sort criteria)) users
    /\ Forall2 (fun u r => project_user_record u = Ok r) users records
    /\ forall fuel, (length users < fuel)%nat ->
         follow_users db graph project_id criteria limit fuel None = Some records.
Proof.
  intros Hok Hp Hc Hl. pose proof (own_users _ _ _ _ (store_owners _ Hok)) as Hk.
  set (users := directory db graph project_id criteria).
  destruct (rmapM_exists project_user_record users) as [records Hrec].
  { intros u [(k & Hu)%rows_elem _]%sorted_rows_in. specialize (Hc _ _ Hu).
    unfold project_user_check in Hc. rewrite !andb_true_iff in Hc.
    destruct Hc as [[[[[[[_ _] _] Hsec] Hst] Hrev] _] _]. apply bool_decide_eq_true in Hst.
    unfold project_user_record. replace (_ || _) with false by lia.
    repeat case_bool_decide; cbn; try by eexists. set_solver. }
  exists users, records. split_and!.
  - intros u. unfold users, directory. rewrite sorted_rows_in, rows_elem. unfold matching. tauto.
  - apply sorted_rows_nodup, users_nodup, Hk.
  - apply StronglySorted_merge_sort; [apply user_before_trans|apply user_before_total].
  - by apply rmapM_ok.
  - intros fuel Hf. apply (follow_rest db graph project_id criteria limit Hk Hp Hl fuel None users);
      [by left|by apply rmapM_ok|done].
Qed.
