(* ===== verification/ServerSamples.v ===== *)
(** * Worked server keys

    Base64 as RFC 4648 defines it, with the laws the theorems ask for, stand-ins
    for the other libraries, and the theorems on server keys at a concrete store. *)
From S2P Require Import Prelude.
From S2P Require Import Json.
From S2P Require Import BTreeMap.
From S2P Require Import Database.
From S2P Require Import LoginStore.
From S2P Require Import Projection.
From S2P Require Import ProjectionProofs.
From S2P Require Import WebhookOutbox.
From S2P Require Import WebhookDelivery.
From S2P Require Import Custody.
From S2P Require Import SessionAuthority.
From S2P Require Import SessionOps.
From S2P Require Import SessionAuthorityProofs.
From S2P Require Import ServerKeys.
From S2P Require Import ServerCredentials.
From S2P Require Import ServerApi.
From S2P Require Import ServerKeyProofs.
From S2P Require Import ServerApiProofs.

(** ** Base64 *)
Module Base64.
Definition letter (n : Z) : Z :=
  if n <? 26 then 65 + n else if n <? 52 then 71 + n else if n <? 62 then n - 4
  else if n =? 62 then 45 else 95.
Definition digit (c : Z) : option Z :=
  if in_range 65 90 c then Some (c - 65) else if in_range 97 122 c then Some (c - 71)
  else if in_range 48 57 c then Some (c + 4) else if c =? 45 then Some 62
  else if c =? 95 then Some 63 else None.

(** Three bytes are four digits of six bits; the last group may be shorter. *)
Fixpoint digits (l : list Z) : list Z :=
  match l with
  | a :: b :: c :: r => a / 4 :: a mod 4 * 16 + b / 16 :: b mod 16 * 4 + c / 64 :: c mod 64 :: digits r
  | [a; b] => [a / 4; a mod 4 * 16 + b / 16; b mod 16 * 4]
  | [a] => [a / 4; a mod 4 * 16]
  | [] => []
  end.
Fixpoint undigits (l : list Z) : option (list Z) :=
  match l with
  | w :: x :: y :: z :: r =>
      rest ← undigits r;
      Some (w * 4 + x / 16 :: x mod 16 * 16 + y / 4 :: y mod 4 * 64 + z :: rest)
  | [w; x; y] => if y mod 4 =? 0 then Some [w * 4 + x / 16; x mod 16 * 16 + y / 4] else None
  | [w; x] => if x mod 16 =? 0 then Some [w * 4 + x / 16] else None
  | [_] => None
  | [] => Some []
  end.

Definition encode (raw : list Z) : string := str_of_bytes (map (fun n => letter (n mod 64)) (digits raw)).
Definition decode (text : string) : option (list Z) := mapM digit (bytes text) ≫= undigits.

Ltac by_division := Z.to_euclidean_division_equations; lia.

(** Induction by groups of three. *)
Lemma groups_ind {A} (P : list A -> Prop) :
  P [] -> (forall a, P [a]) -> (forall a b, P [a; b]) -> (forall a b c l, P l -> P (a :: b :: c :: l)) ->
  forall l, P l.
Proof.
  intros H0 H1 H2 H3. assert (Hall : forall l, P l /\ (forall a, P (a :: l)) /\ forall a b, P (a :: b :: l)).
  { induction l as [|x l (IH0 & IH1 & IH2)]; [done|]. auto. }
  intros l. apply Hall.
Qed.

Lemma letter_range n : 0 <= n mod 64 < 64 -> 0 <= letter (n mod 64) < 128.
Proof. unfold letter. intros Hn. repeat case_match; lia. Qed.

Lemma letter_digit n : 0 <= n < 64 -> digit (letter n) = Some n.
Proof.
  intros Hn. unfold letter, digit, in_range.
  repeat case_match; repeat (f_equal; try lia); bool_prop; lia.
Qed.

Lemma bytes_of_text l : Forall is_byte l -> bytes (str_of_bytes l) = l.
Proof.
  induction 1 as [|b l Hb _ IH]; cbn [str_of_bytes bytes]; [done|]. rewrite IH. f_equal. unfold is_byte in Hb.
  unfold byte_of. rewrite Ascii.N_ascii_embedding by lia. lia.
Qed.

Definition letters (raw : list Z) : list Z := map (fun n => letter (n mod 64)) (digits raw).

Lemma letters_bytes raw : Forall is_byte (letters raw).
Proof.
  apply Forall_map, Forall_forall. intros n _. unfold is_byte.
  assert (Hn : 0 <= n mod 64 < 64) by (apply Z.mod_pos_bound; lia). apply letter_range in Hn. lia.
Qed.

Lemma digits_range raw : Forall is_byte raw -> Forall (fun n => 0 <= n < 64) (digits raw).
Proof.
  unfold is_byte. induction raw as [|a|a b|a b c l IH] using groups_ind; intros Hr; cbn [digits];
    repeat (apply Forall_cons in Hr as [? Hr]); repeat constructor; try by_division; by apply IH.
Qed.

Lemma undigits_digits raw : Forall is_byte raw -> undigits (digits raw) = Some raw.
Proof.
  unfold is_byte. induction raw as [|a|a b|a b c l IH] using groups_ind; intros Hr; cbn [digits undigits];
    repeat (apply Forall_cons in Hr as [? Hr]); [done|..].
  - replace (_ =? 0) with true by by_division. repeat (f_equal; try by_division).
  - replace (_ =? 0) with true by by_division. repeat (f_equal; try by_division).
  - rewrite (IH Hr). cbn. repeat (f_equal; try by_division).
Qed.


(** Induction by groups of four. *)
Lemma fours_ind {A} (P : list A -> Prop) :
  P [] -> (forall a, P [a]) -> (forall a b, P [a; b]) -> (forall a b c, P [a; b; c]) ->
  (forall a b c d l, P l -> P (a :: b :: c :: d :: l)) -> forall l, P l.
Proof.
  intros H0 H1 H2 H3 H4.
  assert (Hall : forall l, P l /\ (forall a, P (a :: l)) /\ (forall a b, P (a :: b :: l)) /\ forall a b c, P (a :: b :: c :: l)).
  { induction l as [|x l (IH0 & IH1 & IH2 & IH3)]; [done|]. auto. }
  intros l. apply Hall.
Qed.

Lemma undigits_bytes l raw :
  Forall (fun n => 0 <= n < 64) l -> undigits l = Some raw -> Forall is_byte raw.
Proof.
  unfold is_byte. revert raw. induction l as [|w|w x|w x y|w x y z l IH] using fours_ind;
    intros raw Hl; cbn [undigits]; repeat (apply Forall_cons in Hl as [? Hl]).
  - by intros [= <-].
  - done.
  - destruct (_ =? 0) eqn:E; intros [= <-]. repeat constructor; by_division.
  - destruct (_ =? 0) eqn:E; intros [= <-]. repeat constructor; by_division.
  - destruct (undigits l) as [rest|]; cbn; intros [= <-]. specialize (IH _ Hl eq_refl).
    repeat constructor; try by_division. done.
Qed.

Lemma digit_range c n : digit c = Some n -> 0 <= n < 64.
Proof. unfold digit, in_range. repeat case_match; intros [= <-]; bool_prop; lia. Qed.

Lemma digits_letters raw : Forall is_byte raw -> mapM digit (letters raw) = Some (digits raw).
Proof.
  intros Hr. apply mapM_Some. unfold letters. apply Forall2_fmap_l.
  pose proof (digits_range _ Hr) as Hd. induction Hd as [|n l Hn _ IH]; constructor; [|done].
  change (digit (letter (n mod 64)) = Some n). rewrite Z.mod_small by done. by apply letter_digit.
Qed.

Lemma digits_length raw : Z.of_nat (length (digits raw)) = (4 * list_len raw + 2) / 3.
Proof.
  unfold list_len. induction raw as [|a|a b|a b c l IH] using groups_ind; [done..|].
  cbn [digits length]. rewrite !Nat2Z.inj_succ. rewrite IH. by_division.
Qed.

Lemma letter_safe n : url_safe_byte (letter (n mod 64)) = true.
Proof.
  assert (Hn : 0 <= n mod 64 < 64) by (apply Z.mod_pos_bound; lia). revert Hn. generalize (n mod 64). intros m Hm.
  unfold letter, url_safe_byte, is_ascii_alphanumeric, is_ascii_lowercase, is_ascii_uppercase, is_ascii_digit, in_range.
  repeat case_match; lia.
Qed.

#[export] Instance base64 : Base64Url := {| b64_encode := encode; b64_decode := decode |}.

#[export] Instance base64_laws : Base64UrlLaws.
Proof.
  split; cbn; unfold encode, decode.
  - intros raw Hr. fold (letters raw). rewrite bytes_of_text by apply letters_bytes.
    rewrite digits_letters by done. by apply undigits_digits.
  - intros raw. fold (letters raw). rewrite str_len_bytes, bytes_of_text by apply letters_bytes.
    unfold letters. by rewrite length_map, digits_length.
  - intros raw. fold (letters raw). rewrite bytes_of_text by apply letters_bytes. unfold letters.
    apply forallb_forall. intros x (n & <- & _)%in_map_iff. apply letter_safe.
  - intros value raw Hd. apply bind_Some in Hd as (l & Hl & Hu). eapply undigits_bytes; [|done].
    apply mapM_Some in Hl. eapply Forall2_Forall_r; [exact Hl|]. apply Forall_forall. intros c _ n. apply digit_range.
Qed.
End Base64.
Import Base64.

(** [URL_SAFE_NO_PAD.encode] of sixteen sevens and of two short strings. *)
Lemma base64_golden :
  Base64.encode (repeat 7 16) = "BwcHBwcHBwcHBwcHBwcHBw"%string
  /\ Base64.encode (bytes "fo") = "Zm8"%string /\ Base64.encode [255; 254] = "__4"%string.
Proof. vm_compute. done. Qed.

(** ** The other libraries *)
(** A stand-in keyed digest: the last 32 bytes of key and message. *)
#[export] Instance sample_hmac : Hmac :=
  {| hmac_of := fun key message => be_bytes 32 (be_value 0 (key ++ message)) |}.
#[export] Instance sample_unix : UnixTime :=
  {| from_unix_timestamp_nanos := Some; from_unix_timestamp := fun n => Some (seconds n) |}.
#[export] Instance sample_cntrl : CntrlClass := {| has_cntrl := fun _ => false |}.

Definition time_value (t : option OffsetDateTime) : json :=
  match t with Some t => JInt t | None => JNull end.
Definition value_time (v : json) : option OffsetDateTime :=
  match v with JInt t => Some t | _ => None end.

#[export] Instance sample_codec : RecordCodec := {|
  record_to_value := fun r => Some (JArray
    [JInt (sr_id r); JInt (sr_project_id r); JString (sr_public_key_id r); JString (sr_label r);
     JBool (bool_decide (sr_status r = KeyStatus.Active)); JInt (sr_digest_key_version r);
     JString (sr_display_prefix r); JInt (sr_revision r); JInt (sr_created_at r);
     time_value (sr_credential_acknowledged_at r); time_value (sr_last_used_at r);
     time_value (sr_revoked_at r)]);
  record_from_value := fun v =>
    match v with
    | JArray [JInt id; JInt p; JString pub; JString label; JBool active; JInt version; JString prefix;
              JInt revision; JInt created; acknowledged; used; revoked] =>
        Some (mkProjectServerKeyRecord id p pub label
                (if active then KeyStatus.Active else KeyStatus.Revoked) version prefix revision created
                (value_time acknowledged) (value_time used) (value_time revoked))
    | _ => None
    end |}.
#[export] Instance sample_codec_laws : RecordCodecLaws.
Proof.
  split. intros [id p pub label status version prefix revision created ack used revoked] v. cbn. intros [= <-].
  by destruct status, ack, used, revoked.
Qed.

(** ** A project with no keys *)
Definition no_keys : KeyStore := mkKeyStore sample_db ∅ ∅.

Lemma no_keys_ok : keys_ok no_keys.
Proof.
  by split; [split|]; cbn; intros; rewrite ?lookup_empty in *.
Qed.

Definition sample_server_ring : SoftwareServerKeyRing :=
  mkSoftwareServerKeyRing "deployment-1" 2 {[1 := repeat 1 32; 2 := repeat 2 32]}.
Definition sample_server_create : CreateProjectServerKey :=
  mkCreateProjectServerKey 1 "backend" "request-0001" 77.
(** The drawn bytes follow the attempt. *)
Definition sample_draws (i : nat) : IssueDraw :=
  mkIssueDraw 100 (Some (repeat (Z.of_nat i mod 256) 16)) (Some (repeat 9 32)) (seconds 10) (seconds 11).
Definition undisturbed (_ : nat) (s : KeyStore) : KeyStore := s.

Definition sample_creation : ktxn Creation.CreateProjectServerKeyResult :=
  service_create_project_server_key undisturbed sample_draws sample_server_ring sample_server_create.
Definition one_key : KeyStore := Eval vm_compute in (sample_creation no_keys).1.
Definition sample_credential : string :=
  Eval vm_compute in match (sample_creation no_keys).2 with Ok (Creation.Created _ c) => c | _ => "" end.
Definition sample_metadata : ProjectServerKeyRecord :=
  Eval vm_compute in match (sample_creation no_keys).2 with
                     | Ok r => metadata_of r
                     | _ => mkProjectServerKeyRecord 0 0 "" "" KeyStatus.Active 0 "" 0 0 None None None
                     end.

Lemma created_once : sample_creation no_keys = (one_key, Ok (Creation.Created sample_metadata sample_credential)).
Proof. vm_compute. reflexivity. Qed.

Lemma repeat_bytes b n : is_byte b -> Forall is_byte (repeat b n).
Proof. intros Hb. apply Forall_forall. intros x Hx%list_elem_of_In. by apply repeat_spec in Hx as ->. Qed.
Lemma undisturbed_steps i t : rtc key_step t (undisturbed i t).
Proof. apply rtc_refl. Qed.
Lemma sample_draws_bytes : draws_bytes sample_draws.
Proof.
  intros i. exists (repeat (Z.of_nat i mod 256) 16), (repeat 9 32).
  split; (split; [reflexivity|]; split; [|reflexivity]); apply repeat_bytes; unfold is_byte; [|lia].
  apply Z.mod_pos_bound. lia.
Qed.

Lemma one_key_ok : keys_ok one_key.
Proof.
  apply (created_issued undisturbed sample_draws sample_server_ring sample_server_create no_keys one_key
           sample_metadata sample_credential no_keys_ok undisturbed_steps sample_draws_bytes created_once).
Qed.

Definition sample_acknowledge : AcknowledgeProjectServerKeyDelivery :=
  mkAcknowledgeProjectServerKeyDelivery 1 100 1 "request-0002" 78.
Definition acknowledged_run : KeyStore * result ApplicationError ProjectServerKeyRecord :=
  Eval vm_compute in acknowledge_project_server_key_delivery (seconds 13) sample_acknowledge (repeat 1 32)
                       (seconds 12) one_key.
Definition acknowledged_key : KeyStore := acknowledged_run.1.
Lemma acknowledged_step : key_step one_key acknowledged_key.
Proof.
  apply (step_acknowledge (seconds 13) sample_acknowledge (repeat 1 32) (seconds 12) one_key acknowledged_key
           acknowledged_run.2).
  vm_compute. reflexivity.
Qed.

Definition sample_server_revoke : RevokeProjectServerKey :=
  mkRevokeProjectServerKey 1 100 2 "request-0003" 79.
Definition revoked_run : KeyStore * result ApplicationError ProjectServerKeyRecord :=
  Eval vm_compute in service_revoke_project_server_key (seconds 15) (seconds 14) sample_server_revoke acknowledged_key.
Definition revoked_key : KeyStore := revoked_run.1.

(** The key is issued, acknowledged and used, and dead once revoked. *)
Lemma sample_key_life :
  authenticate sample_server_ring one_key acknowledged_key "prj_12345678" sample_credential
    = Ok (mkServerPrincipal 1 "prj_12345678" 100 (Base64.encode (repeat 0 16)))
  /\ authenticate sample_server_ring acknowledged_key revoked_key "prj_12345678" sample_credential
     = Err AppError.Disabled
  /\ authenticate sample_server_ring revoked_key revoked_key "prj_12345678" sample_credential
     = Err AppError.Disabled.
Proof. vm_compute. done. Qed.

(** ** The theorems at this store *)
Lemma server_credential_grammar_witness :
  ParsedServerCredential_parse sample_credential
    = Ok (mkParsedServerCredential (Base64.encode (repeat 0 16)) (repeat 9 32)).
Proof.
  apply server_credential_grammar. exists (repeat 0 16).
  split; [apply repeat_bytes; unfold is_byte; lia|]. split; [reflexivity|].
  split; [apply repeat_bytes; unfold is_byte; lia|]. split; [reflexivity|]. split; vm_compute; reflexivity.
Defined.

Lemma server_key_limits_witness :
  list_len (keys_of acknowledged_key (of_project 1 is_active)) <= 10
  /\ list_len (keys_of acknowledged_key (of_project 1 is_unacknowledged)) <= 1.
Proof.
  destruct (server_key_limits one_key acknowledged_key 1 one_key_ok (rtc_once _ _ acknowledged_step))
    as (Hactive & Hpending & _). split; assumption.
Defined.

Lemma create_is_idempotent_witness :
  service_create_project_server_key undisturbed sample_draws sample_server_ring sample_server_create acknowledged_key
    = (acknowledged_key, Ok (Creation.ReplayWithoutSecret sample_metadata)).
Proof.
  apply (create_is_idempotent undisturbed sample_draws sample_server_ring sample_server_create no_keys one_key
           (Creation.Created sample_metadata sample_credential) undisturbed sample_draws sample_server_ring
           acknowledged_key undisturbed_steps created_once (rtc_once _ _ acknowledged_step)).
Defined.

Definition sample_key_row : ServerKeyRow :=
  Eval vm_compute in
    default (mkServerKeyRow 0 0 "" "" "" 0 [] "" 0 0 None None None) (ks_keys acknowledged_key !! 100).

Lemma issued_credential_authenticates_witness :
  authenticate sample_server_ring one_key acknowledged_key "prj_12345678" sample_credential
    = Ok (mkServerPrincipal 1 "prj_12345678" 100 (Base64.encode (repeat 0 16))).
Proof.
  apply (issued_credential_authenticates undisturbed sample_draws sample_server_ring sample_server_ring
           sample_server_create no_keys one_key sample_metadata sample_credential one_key acknowledged_key
           sample_key_row sample_project sample_project no_keys_ok undisturbed_steps sample_draws_bytes created_once
           (rtc_refl _ _) (rtc_once _ _ acknowledged_step)); try (vm_compute; reflexivity).
  split; reflexivity.
Defined.

Lemma only_issued_credential_witness : exists public_id secret,
  sample_credential = credential_text public_id secret.
Proof.
  destruct (only_issued_credential undisturbed sample_draws sample_server_ring sample_server_ring
    sample_server_create no_keys one_key sample_metadata sample_credential one_key acknowledged_key
    "prj_12345678" sample_credential (mkServerPrincipal 1 "prj_12345678" 100 (Base64.encode (repeat 0 16)))
    no_keys_ok undisturbed_steps sample_draws_bytes created_once (rtc_refl _ _) (conj eq_refl eq_refl)
    (proj1 sample_key_life) eq_refl) as (_ & _ & public_id & secret & _ & _ & _ & _ & Hc & _).
  exists public_id, secret. exact Hc.
Defined.

(** Another key of the project still authenticates after the revocation. *)
Definition second_create : CreateProjectServerKey :=
  mkCreateProjectServerKey 1 "worker" "request-0004" 80.
Definition second_draws (i : nat) : IssueDraw :=
  mkIssueDraw 101 (Some (repeat 3 16)) (Some (repeat 5 32)) (seconds 20) (seconds 21).
Definition second_prepared : PreparedProjectServerKey :=
  Eval vm_compute in
    match issue sample_server_ring (Some (repeat 3 16)) (Some (repeat 5 32)) 1 101 with
    | Ok issued => prepare_key second_create (repeat 1 32) (second_draws 0) issued
    | _ => mkPreparedProjectServerKey 0 0 "" "" 0 [] "" "" [] 0 0
    end.
Definition second_run : KeyStore * result ServerKeyCreateAttemptError Stored.StoredProjectServerKeyCreate :=
  Eval vm_compute in create_project_server_key_attempt (seconds 21) second_prepared revoked_key.
Definition second_key : KeyStore := second_run.1.
Lemma second_step : key_step revoked_key second_key.
Proof.
  apply (step_create (seconds 21) second_prepared revoked_key second_key second_run.2). vm_compute. reflexivity.
Qed.
Lemma acknowledged_ok : keys_ok acknowledged_key.
Proof. eapply step_ok; [apply one_key_ok|apply acknowledged_step]. Qed.

Lemma revoked_key_is_dead_witness :
  authenticate sample_server_ring second_key second_key "prj_12345678"
    (credential_text (repeat 3 16) (repeat 5 32))
    = Ok (mkServerPrincipal 1 "prj_12345678" 101 (Base64.encode (repeat 3 16))) /\ 101 <> 100.
Proof.
  assert (Ha : authenticate sample_server_ring second_key second_key "prj_12345678"
    (credential_text (repeat 3 16) (repeat 5 32))
    = Ok (mkServerPrincipal 1 "prj_12345678" 101 (Base64.encode (repeat 3 16)))) by (vm_compute; reflexivity).
  split; [exact Ha|].
  assert (Hr : exists record, service_revoke_project_server_key (seconds 15) (seconds 14) sample_server_revoke
    acknowledged_key = (revoked_key, Ok record)) by (eexists; vm_compute; reflexivity).
  destruct Hr as [record Hr].
  exact (revoked_key_is_dead sample_server_ring (seconds 15) (seconds 14) sample_server_revoke acknowledged_key
    revoked_key record second_key second_key "prj_12345678" _ _ acknowledged_ok Hr (rtc_once _ _ second_step) Ha).
Defined.

(** ** A token of the session of [SessionAuthorityProofs] *)
#[export] Instance sample_token_json : TokenJson := {|
  header_from_slice := fun raw => if bool_decide (raw = [1]) then Some (mkAccessTokenHeader "EdDSA" "at+jwt" "kid") else None;
  claims_from_slice := fun raw =>
    if bool_decide (raw = [2]) then
      Some (mkAccessTokenClaims "https://id.example" "prj_12345678" "usr_12345678" "app_12345678" 8 1 1 600 "jti" 0 1)
    else None |}.
(** A stand-in signature: all bytes equal to the first of the key. *)
#[export] Instance sample_ed25519 : Ed25519 := {|
  verifying_key_ok := fun key => list_len key =? 32;
  signature_ok := fun signature => list_len signature =? 64;
  verify_strict := fun key _ signature => forallb (fun b => bool_decide (head key = Some b)) signature |}.
#[export] Instance sample_reader : EmailAddressReader := {|
  read_durable_address := fun _ _ _ => Ok "user@example.com"%string;
  protector_write_version := 1; protector_readable_versions := [1];
  unprotect_verified_email := fun _ _ _ _ v => Ok (text_of (drop 40 (pv_ciphertext v))) |}.
#[export] Instance sample_digester : EmailLookupDigester := {|
  email_identity_active_version := 1;
  email_digest_at := fun context email version => Ok (mkVersionedDigest (take 32 (email ++ repeat 0 32)) version) |}.

Definition sample_jwk : json :=
  JObject [("alg", JString "EdDSA"); ("crv", JString "Ed25519"); ("kid", JString "kid");
           ("kty", JString "OKP"); ("use", JString "sig"); ("x", JString (Base64.encode (repeat 6 32)))]%string.
Definition published_key : SigningKeyRow :=
  mkSigningKeyRow 5 1 4 "kid" sample_jwk 50 1 "active" 1 None None (Some 0) (Some 0) None None None None None 0 0.
(** The store with the public key of the ring. *)
Definition published_db : Database :=
  mkDatabase (db_projects sample_db) (db_applications sample_db) (db_users sample_db) (db_policies sample_db)
    (db_rings sample_db) {[5 := published_key]} (db_browsers sample_db) (db_bindings sample_db)
    (db_projections sample_db) (db_sessions sample_db) (db_families sample_db) (db_generations sample_db)
    (db_logouts sample_db) (db_email_identities sample_db) (db_login sample_db) (db_webhook sample_db)
    (db_audit sample_db).

Definition sample_principal : ServerPrincipal := mkServerPrincipal 1 "prj_12345678" 100 "key".
Definition sample_access_token : string :=
  dot (Base64.encode [1]) (dot (Base64.encode [2]) (Base64.encode (repeat 6 64))).
Definition sample_introspection (later : Database) :=
  introspect (seconds 8) published_db later sample_principal sample_access_token (Some "app_12345678"%string).
Definition sample_active_token : ActiveServerToken :=
  Eval vm_compute in match sample_introspection sample_db with
                     | Ok (Introspection.Active a) => a
                     | _ => mkActiveServerToken "" "" "" 0 "" 0 0 0 0 0 0 0 JNull
                     end.
Definition logged_out : Database := (logout_application_session sample_logout sample_db).1.

(** The token is active until the session is logged out. *)
Lemma token_life :
  sample_introspection sample_db = Ok (Introspection.Active sample_active_token)
  /\ sample_introspection logged_out = Ok Introspection.Inactive.
Proof. vm_compute. done. Qed.

Lemma active_token_is_live_witness : live_session sample_db (seconds 8) 8.
Proof.
  destruct (active_token_is_live (seconds 8) published_db sample_db sample_principal sample_access_token
    (Some "app_12345678"%string) sample_active_token (proj1 token_life))
    as (parsed & key & _ & _ & _ & _ & _ & _ & _ & _ & Hlive). exact Hlive.
Defined.

Lemma logout_ends_introspection_witness :
  sample_introspection logged_out <> Ok (Introspection.Active sample_active_token).
Proof.
  apply (logout_ends_introspection sample_logout sample_db logged_out [] (seconds 8) published_db sample_principal
    sample_access_token (Some "app_12345678"%string) sample_active_token sample_db_world);
    vm_compute; reflexivity.
Defined.

(** ** Two requests in one quarter of an hour start one write *)
Definition fresh_usage : UsageRun := mkUsageRun ServerUsageTelemetry_new [] 0 [].
Definition first_use : UsageTelemetry * option UsageTask :=
  observe_server_key_usage (seconds 5) sample_principal ServerUsageTelemetry_new.
Definition used_once : UsageRun :=
  mkUsageRun first_use.1 (option_list first_use.2 ++ []) (seconds 5)
    (option_list (task_entry (seconds 5) <$> first_use.2) ++ []).

Lemma usage_is_coalesced_witness :
  list_len (ur_in_flight used_once) <= 1 /\ ur_log used_once = [(1, 100, 0)].
Proof.
  split; [|vm_compute; reflexivity].
  apply (usage_is_coalesced 0 used_once), rtc_once.
  apply (usage_observed (seconds 5) sample_principal first_use.1 first_use.2 fresh_usage);
    [vm_compute; discriminate|reflexivity].
Defined.
