(* ===== verification/ControlSamples.v ===== *)
(** * Control commands at a concrete store

    The theorems on the directory and on the control commands, evaluated on the
    store of [SessionAuthorityProofs]. *)
From S2P Require Import Prelude.
From S2P Require Import Json.
From S2P Require Import Database.
From S2P Require Import LoginStore.
From S2P Require Import Projection.
From S2P Require Import ProjectionProofs.
From S2P Require Import WebhookOutbox.
From S2P Require Import SessionAuthority.
From S2P Require Import SessionStore.
From S2P Require Import LoginHistory.
From S2P Require Import HandoffEffects.
From S2P Require Import ServerKeys.
From S2P Require Import ServerApi.
From S2P Require Import ControlLifecycle.
From S2P Require Import ControlEffects.
From S2P Require Import SessionOps.
From S2P Require Import SessionAuthorityProofs.
From S2P Require Import RevisionHistory.
From S2P Require Import ControlProofs.
From S2P Require Import DirectoryProofs.
From S2P Require Import ServerSamples.
Import Base64.

#[local] Instance ascii_pg_text : PgText := {| pg_lower := to_ascii_lowercase |}.

Definition sample_draws : Draws := mkDraws (fun _ => []) (fun _ => 900) (fun _ _ => 901).
Definition later_draws : Draws := mkDraws (fun _ => []) (fun _ => 910) (fun _ _ => 911).
Definition sample_graph : IdentityGraph := mkIdentityGraph ∅ [].
Definition sample_disable : DisableProjectUser := mkDisableProjectUser 1 3 1 77 (seconds 10).
Definition sample_enable : EnableProjectUser := mkEnableProjectUser 1 3 2 78 (seconds 11).
Definition disabled_db : Database :=
  (disable_project_user (seconds 9) sample_draws sample_graph sample_disable sample_db).1.
Definition enable_op : session_op := EnableUserOp (seconds 10) later_draws sample_graph sample_enable.

Lemma stale_revisions : revisions_ok stale_db.
Proof. constructor; simpl; only_row; exists sample_user; (split; [done|]); vm_compute; discriminate. Qed.

Lemma sample_revisions : revisions_ok sample_db.
Proof.
  pose proof (op_revisions (PrepareOp [] stale_db stale_db sample_prepare) stale_db) as Ho.
  simpl in Ho. rewrite sample_preparation_run in Ho. apply Ho; [|apply stale_revisions].
  split; [apply stale_db_ok|by apply no_logins_ok].
Qed.

(** An operator revokes the session, and its browser session. *)
Definition sample_revoke : RevokeApplicationSession := mkRevokeApplicationSession 1 3 8 1 79 (seconds 12).
Definition sample_revoke_browser : RevokeBrowserSession := mkRevokeBrowserSession 1 3 12 1 80 (seconds 13).

Lemma revocation_is_final_witness :
  session_dead (revoke_application_session sample_revoke sample_db).1 8
  /\ browser_dead (revoke_browser_session sample_revoke_browser sample_db).1 12
  /\ session_dead (revoke_browser_session sample_revoke_browser sample_db).1 8.
Proof.
  destruct (revocation_is_final sample_revoke sample_revoke_browser sample_db [] sample_db_world) as [Hs Hb].
  destruct (revoke_application_session sample_revoke sample_db) as [db1 [r1|e1]] eqn:H1; [|by vm_compute in H1].
  destruct (revoke_browser_session sample_revoke_browser sample_db) as [db2 [r2|e2]] eqn:H2; [|by vm_compute in H2].
  destruct (Hb _ _ eq_refl) as [Hb1 Hb2]. split; [exact (Hs _ _ eq_refl)|]. split; [exact Hb1|].
  apply (Hb2 8 sample_session); [|reflexivity].
  replace db2 with ((revoke_browser_session sample_revoke_browser sample_db).1) by (by rewrite H2).
  vm_compute; reflexivity.
Defined.

(** A user that was merged into the active one. *)
Definition merged_user : UserRow :=
  mkUserRow 13 1 "usr_87654321" "merged" (Some 3) 2 2 None None "provider" (repeat 2 32) false None
    false None false None None None None 0 0.
Definition merged_db : Database := set_db_users (<[13 := merged_user]> (db_users sample_db)) sample_db.

Lemma merge_winner_cannot_be_disabled_witness :
  exists e, disable_project_user (seconds 9) sample_draws (mkIdentityGraph ∅ [mkMergeTombstoneRow 1 13 3])
              sample_disable merged_db = (merged_db, Err e).
Proof.
  apply (merge_winner_cannot_be_disabled (seconds 9) sample_draws
           (mkIdentityGraph ∅ [mkMergeTombstoneRow 1 13 3]) sample_disable merged_db sample_user 13 merged_user);
    [|vm_compute; reflexivity..].
  apply (store_put_user sample_db merged_user merged_user); [apply sample_db_ok|reflexivity].
Defined.

(** Two users, one to a page, oldest first. *)
Lemma directory_pages_witness :
  exists users records,
    (forall u, u ∈ users <-> listed merged_db sample_graph merged_db 1
                               (mkProjectUserListCriteria None None None ProjectUser.CreatedOldest) u = true
                             /\ exists k, db_users merged_db !! k = Some u)
    /\ (forall fuel, (length users < fuel)%nat ->
         follow_users merged_db sample_graph 1
           (mkProjectUserListCriteria None None None ProjectUser.CreatedOldest) 1 fuel None = Some records).
Proof.
  destruct (directory_pages merged_db sample_graph 1
              (mkProjectUserListCriteria None None None ProjectUser.CreatedOldest) 1)
    as (users & records & Hin & _ & _ & _ & Hf).
  - apply (store_put_user sample_db merged_user merged_user); [apply sample_db_ok|reflexivity].
  - reflexivity.
  - intros k u. change (db_users merged_db) with (<[13 := merged_user]> {[3 := sample_user]} : gmap Z UserRow).
    intros [[<- <-]|[_ [_ <-]%lookup_singleton_Some]]%lookup_insert_Some; [vm_compute; reflexivity|].
    vm_compute; reflexivity.
  - lia.
  - exists users, records. split; [exact Hin|exact Hf].
Defined.

Example two_pages :
  (fun l => map pu_id l) <$> follow_users merged_db sample_graph 1
     (mkProjectUserListCriteria None None None ProjectUser.CreatedOldest) 1 3 None = Some [3; 13].
Proof. vm_compute. reflexivity. Qed.
