(* ===== verification/EmailSamples.v ===== *)
(** * A worked email login

    A login that chose email: a challenge with a code and a link is mailed, a wrong
    code is counted, the right one signs a new user in, and a second login of the
    same address finds that user again. *)
From S2P Require Import Prelude.
From S2P Require Import Json.
From S2P Require Import LoginTables.
From S2P Require Import WebhookTables.
From S2P Require Import Lifecycle.
From S2P Require Import Managed.
From S2P Require Import UrlValues.
From S2P Require Import Database.
From S2P Require Import LoginStore.
From S2P Require Import Projection.
From S2P Require Import ProjectionProofs.
From S2P Require Import SessionAuthority.
From S2P Require Import Login.
From S2P Require Import Handoff.
From S2P Require Import SessionAuthorityProofs.
From S2P Require Import LoginSamples.
From S2P Require Import ControlLifecycle.
From S2P Require Import EmailTables.
From S2P Require Import PasswordlessEmail.
From S2P Require Import Email.
From S2P Require Import EmailEffects.
From S2P Require Import EmailProofs.
From S2P Require Import SessionStore.
From S2P Require Import LoginHistory.
From S2P Require Import HandoffEffects.
From S2P Require Import SessionOps.
From S2P Require Import EmailSessions.
From S2P Require Import RevisionHistory.
From S2P Require Import ControlProofs.
From S2P Require Import SignOut.
From S2P Require Import ServerKeys.
From S2P Require Import ServerApi.
From S2P Require Import ServerSamples.
From S2P Require Import ControlSamples.
Import Base64.
Import Challenge.

Definition email_method : AdmittedEmailMethod :=
  mkAdmittedEmailMethod 1 1 1 true true 6 300 3 30 5 300 true false "deployment_default" None 1 1.
Definition email_base : Database :=
  set_db_login
    (mkLoginTables ∅ ∅ ∅ ∅ ∅ {[(1, 2, "https://app.example/cb"%string)]} {[30 := google_provider]}
       {[(1, 2, 30) := mkProviderAssignmentRow 1 2 30 "active" 1]} ∅
       {[1 := mkEmailPolicyRow 1 "enabled" 1 1 true]}
       {[(1, 2) := mkEmailAssignmentRow 1 2 "active" 1]} ∅
       {[1 := mkDeploymentSmtpRow 1 1 "active" None]}) login_base.

Definition email_create (id : Z) : CreateLoginTransaction :=
  {| cl_id := id; cl_project_id := 1; cl_application_id := 2; cl_interaction := sample_token (id + 1);
     cl_redirect_uri := "https://app.example/cb"; cl_application_pkce_challenge := sample_challenge;
     cl_application_state := mkProtectedValue (repeat 0 20) 1; cl_presentation_hint := None;
     cl_revisions := mkLoginRevisionSnapshot 1 1 1 1 1; cl_created_at := seconds 10;
     cl_expires_at := seconds 610; cl_admitted_providers := [];
     cl_admitted_email := Some email_method |}.

Definition email_logins_db : Database :=
  Eval vm_compute in
    let d := (create_login_transaction (email_create 140) email_base).1 in
    let d := (bind_hosted_browser (mkBindHostedBrowser (sample_token 141) 1 (sample_token 142)
                                     (sample_token 143) (seconds 11)) d).1 in
    let d := (create_login_transaction (email_create 150) d).1 in
    (bind_hosted_browser (mkBindHostedBrowser (sample_token 151) 1 (sample_token 152)
                            (sample_token 153) (seconds 11)) d).1.

Definition email_start : EmailStore :=
  mkEmailStore email_logins_db ∅ ∅ ∅ [] (mkIdentityGraph ∅ []).

Definition sample_select_email : SelectEmailMethod :=
  mkSelectEmailMethod 1 140 2 (sample_token 142) (sample_token 143) (seconds 12).
Definition sample_generation_commit : CommitEmailGeneration :=
  {| ceg_project_id := 1; ceg_application_id := 2; ceg_transaction_id := 140;
     ceg_expected_transaction_revision := 3; ceg_expected_generation := 1; ceg_challenge_id := 60;
     ceg_outbox_id := 61; ceg_canonicalization_version := 1; ceg_lookup_digest := sample_token 62;
     ceg_recipient_digests := [sample_token 62]; ceg_address := mkProtectedValue (repeat 0 41) 1;
     ceg_otp_digest := Some (sample_token 63); ceg_magic_digest := Some (sample_token 64);
     ceg_envelope := mkProtectedValue (repeat 0 41) 1; ceg_body := mkProtectedValue (repeat 0 41) 1;
     ceg_message_id := "<61@mail.owlauth.invalid>"; ceg_issued_at := seconds 20;
     ceg_otp_expires_at := Some (seconds 320); ceg_magic_expires_at := Some (seconds 320);
     ceg_expires_at := seconds 320 |}.
Definition sample_verification (code : Z) (now : Z) : VerifyEmailProof :=
  mkVerifyEmailProof 1 140 60 Otp (sample_token code) (Some (sample_token 142)) (sample_token 143)
    None 4 now.
Definition sample_completion : CompleteEmailProof :=
  mkCompleteEmailProof (sample_verification 63 (seconds 40)) 70 "usr_abcdefgh" 71
    (mkProtectedValue (repeat 0 41) 1) (sample_token 62) [sample_token 62] (sample_token 62) 1 72
    None (sample_token 73) 74 (sample_token 75).

Definition email_opening : list email_op :=
  [SelectEmail sample_select_email;
   CommitGeneration (seconds 20) (seconds 20) (seconds 20) sample_generation_commit].
Definition email_sent : EmailStore := Eval vm_compute in run_email_ops email_opening email_start.
Definition email_completed : EmailStore :=
  Eval vm_compute in (complete_email_proof sample_completion email_sent).1.

Lemma email_start_ok : email_ok email_start.
Proof. split; [by constructor|]. intros p. by vm_compute. Qed.
Lemma email_sent_ok : email_ok email_sent.
Proof.
  replace email_sent with (run_email_ops email_opening email_start) by (vm_compute; reflexivity).
  by apply email_ops_kept, email_start_ok.
Qed.

(** A wrong code is counted, and the third one ends the challenge, as in the domain. *)
Definition wrong_codes : list email_op :=
  [VerifyProof (sample_verification 65 (seconds 30)); VerifyProof (sample_verification 66 (seconds 31));
   VerifyProof (sample_verification 67 (seconds 32)); VerifyProof (sample_verification 68 (seconds 33))].


(** Three of the four guesses were answered by a comparison with the code. *)
Lemma wrong_codes_bounded_witness :
  wrong_guesses 1 140 wrong_codes email_sent = 3
  /\ wrong_guesses 1 140 wrong_codes email_sent
     <= 25 - login_attempts (es_challenges email_sent) 1 140.
Proof.
  split; [vm_compute; reflexivity|].
  exact (proj1 (wrong_codes_bounded wrong_codes email_sent 1 140 email_sent_ok)).
Defined.

Lemma mail_backlog_bounded_witness :
  affected (active_mail 1) (es_outbox (run_email_ops wrong_codes email_sent)) = 1
  /\ affected (active_mail 1) (es_outbox (run_email_ops wrong_codes email_sent))
     <= MAX_ACTIVE_MAIL_OUTBOX_PER_PROJECT.
Proof.
  split; [vm_compute; reflexivity|]. exact (mail_backlog_bounded wrong_codes email_sent 1 email_sent_ok).
Defined.

Lemma email_proof_single_use_witness :
  exists h, complete_email_proof sample_completion email_sent = (email_completed, Ok h)
    /\ is_accepted (verify_email_proof (sample_verification 63 (seconds 41)) email_completed).2 = false
    /\ forall s2 h2, complete_email_proof sample_completion email_completed <> (s2, Ok h2).
Proof.
  destruct (complete_email_proof sample_completion email_sent) as [s1 [h|e]] eqn:Hc; [|by vm_compute in Hc].
  assert (s1 = email_completed) as ->.
  { change s1 with ((s1, Ok h : result ApplicationError IssuedHandoff).1). rewrite <- Hc. vm_compute. reflexivity. }
  destruct (email_proof_single_use sample_completion email_sent email_completed h [] email_sent_ok Hc)
    as (_ & Hv & Hn).
  exists h. split; [reflexivity|]. split; [by apply Hv|]. intros s2 h2. by apply Hn.
Defined.

(** A second login with the same address. *)
Definition second_generation (generation revision id now : Z) : CommitEmailGeneration :=
  {| ceg_project_id := 1; ceg_application_id := 2; ceg_transaction_id := 150;
     ceg_expected_transaction_revision := revision; ceg_expected_generation := generation;
     ceg_challenge_id := id; ceg_outbox_id := id + 1; ceg_canonicalization_version := 1;
     ceg_lookup_digest := sample_token 62; ceg_recipient_digests := [sample_token 62];
     ceg_address := mkProtectedValue (repeat 0 41) 1; ceg_otp_digest := Some (sample_token (id + 3));
     ceg_magic_digest := None; ceg_envelope := mkProtectedValue (repeat 0 41) 1;
     ceg_body := mkProtectedValue (repeat 0 41) 1; ceg_message_id := "<81@mail.owlauth.invalid>";
     ceg_issued_at := seconds now; ceg_otp_expires_at := Some (seconds (now + 300));
     ceg_magic_expires_at := None; ceg_expires_at := seconds (now + 300) |}.
Definition second_login : list email_op :=
  [SelectEmail (mkSelectEmailMethod 1 150 2 (sample_token 152) (sample_token 153) (seconds 100));
   CommitGeneration (seconds 110) (seconds 110) (seconds 110) (second_generation 1 3 80 110)].
Definition second_completion : CompleteEmailProof :=
  mkCompleteEmailProof
    (mkVerifyEmailProof 1 150 80 Otp (sample_token 83) (Some (sample_token 152)) (sample_token 153)
       None 4 (seconds 120)) 90 "usr_ijklmnop" 91
    (mkProtectedValue (repeat 0 41) 1) (sample_token 62) [sample_token 62] (sample_token 62) 1 92
    None (sample_token 93) 94 (sample_token 95).

Lemma address_signs_in_same_user_witness :
  exists h h2 s3, complete_email_proof sample_completion email_sent = (email_completed, Ok h)
    /\ complete_email_proof second_completion (run_email_ops second_login email_completed) = (s3, Ok h2)
    /\ ih_user_id h2 = ih_user_id h.
Proof.
  destruct (complete_email_proof sample_completion email_sent) as [s1 [h|e]] eqn:Hc; [|by vm_compute in Hc].
  assert (s1 = email_completed) as ->.
  { change s1 with ((s1, Ok h : result ApplicationError IssuedHandoff).1). rewrite <- Hc. vm_compute. reflexivity. }
  destruct (complete_email_proof second_completion (run_email_ops second_login email_completed))
    as [s3 [h2|e2]] eqn:Hc2; [|by vm_compute in Hc2].
  exists h, h2, s3. split; [reflexivity|]. split; [reflexivity|].
  apply (address_signs_in_same_user sample_completion second_completion email_sent email_completed s3 h h2
           second_login email_sent_ok Hc Hc2); [|vm_compute; reflexivity..|].
  - apply people_kept_same. split; vm_compute; reflexivity.
  - apply list_elem_of_here.
Defined.

(** The domain lets only a pending challenge be replaced; the store replaces one
    that wrong codes have exhausted too, and starts its count again. *)
Definition exhausted_resend : CommitEmailGeneration :=
  {| ceg_project_id := 1; ceg_application_id := 2; ceg_transaction_id := 140;
     ceg_expected_transaction_revision := 4; ceg_expected_generation := 2; ceg_challenge_id := 160;
     ceg_outbox_id := 161; ceg_canonicalization_version := 1; ceg_lookup_digest := sample_token 62;
     ceg_recipient_digests := [sample_token 62]; ceg_address := mkProtectedValue (repeat 0 41) 1;
     ceg_otp_digest := Some (sample_token 163); ceg_magic_digest := None;
     ceg_envelope := mkProtectedValue (repeat 0 41) 1; ceg_body := mkProtectedValue (repeat 0 41) 1;
     ceg_message_id := "<161@mail.owlauth.invalid>"; ceg_issued_at := seconds 60;
     ceg_otp_expires_at := Some (seconds 360); ceg_magic_expires_at := None;
     ceg_expires_at := seconds 360 |}.

Lemma exhausted_challenge_replaced :
  let s := run_email_ops wrong_codes email_sent in
  (exists c, es_challenges s !! 60 = Some c /\ ec_status (challenge_view c) = Exhausted
     /\ forall now policy expires,
          EmailChallengeState_resend (challenge_view c) now policy expires = Err InvalidTransition)
  /\ exists s', commit_email_generation (seconds 60) (seconds 60) (seconds 60) exhausted_resend s = (s', Ok tt)
       /\ ech_otp_attempts <$> es_challenges s' !! 160 = Some 0.
Proof.
  cbv zeta. split.
  - eexists. split; [vm_compute; reflexivity|]. split; [reflexivity|]. reflexivity.
  - eexists. split; vm_compute; reflexivity.
Qed.

(** Nor is a challenge whose mail the delivery limits held back replaceable in the
    domain; the store supersedes it when the next generation is issued. *)
Definition held_back : list email_op :=
  [SelectEmail (mkSelectEmailMethod 1 150 2 (sample_token 152) (sample_token 153) (seconds 24));
   CommitGeneration (seconds 25) (seconds 25) (seconds 25) (second_generation 1 3 80 25)].

Lemma unavailable_challenge_replaced :
  let s := run_email_ops held_back email_sent in
  (exists c, es_challenges s !! 80 = Some c /\ ec_status (challenge_view c) = DeliveryUnavailable
     /\ forall now policy expires,
          EmailChallengeState_resend (challenge_view c) now policy expires = Err InvalidTransition)
  /\ exists s', commit_email_generation (seconds 110) (seconds 110) (seconds 110)
                  (second_generation 2 4 84 110) s = (s', Ok tt)
       /\ (ec_status ∘ challenge_view) <$> es_challenges s' !! 80 = Some Superseded.
Proof.
  cbv zeta. split.
  - eexists. split; [vm_compute; reflexivity|]. split; reflexivity.
  - eexists. split; vm_compute; reflexivity.
Qed.

(** The login from its creation on, by both authorities. *)
Definition mixed_start : EmailStore := mkEmailStore email_base ∅ ∅ ∅ [] (mkIdentityGraph ∅ []).
Definition mixed_ops : list sign_in_op :=
  [BySession (CreateLoginOp (email_create 140));
   BySession (BindHostedOp (mkBindHostedBrowser (sample_token 141) 1 (sample_token 142)
                              (sample_token 143) (seconds 11)));
   ByEmail (SelectEmail sample_select_email);
   ByEmail (CommitGeneration (seconds 20) (seconds 20) (seconds 20) sample_generation_commit);
   ByEmail (CompleteProof sample_completion)].

Lemma email_base_world : world_ok email_base.
Proof.
  split; [apply store_login, login_base_world|]. apply no_logins_ok; vm_compute; reflexivity.
Qed.

Lemma email_sign_in_keeps_sessions_witness :
  world_ok (es_db (run_sign_in_ops mixed_ops mixed_start)) /\ email_ok (run_sign_in_ops mixed_ops mixed_start)
  /\ lg_status <$> db_logins (es_db (run_sign_in_ops mixed_ops mixed_start)) !! 140
     = Some "handoff_issued"%string.
Proof.
  destruct (email_sign_in_keeps_sessions mixed_ops mixed_start) as (Hw & He & _).
  - repeat constructor.
  - exact email_base_world.
  - split; [by constructor|]. intros p. by vm_compute.
  - split; [exact Hw|]. split; [exact He|]. vm_compute. reflexivity.
Defined.

(** The user of that login is disabled and enabled again; a second login with the
    same address, from the browser of the first, writes the browser session anew. *)
Definition two_logins : list sign_in_op :=
  mixed_ops ++
  [BySession (CreateLoginOp (email_create 150));
   BySession (BindHostedOp (mkBindHostedBrowser (sample_token 151) 1 (sample_token 152)
                              (sample_token 153) (seconds 41)))].
Definition email_disable : DisableProjectUser := mkDisableProjectUser 1 70 1 77 (seconds 50).
Definition returning_completion : CompleteEmailProof :=
  mkCompleteEmailProof (cep_verification second_completion) 90 "usr_ijklmnop" 91
    (mkProtectedValue (repeat 0 41) 1) (sample_token 62) [sample_token 62] (sample_token 62) 1 92
    (Some (sample_token 73)) (sample_token 93) 94 (sample_token 95).
Definition enabled_sign_in : list sign_in_op :=
  [BySession (EnableUserOp (seconds 51) later_draws sample_graph
                (mkEnableProjectUser 1 70 2 78 (seconds 51)))]
  ++ map ByEmail second_login ++ [ByEmail (CompleteProof returning_completion)].
Definition signed_up : EmailStore := run_sign_in_ops two_logins mixed_start.
Definition disabled_run : Database * result ApplicationError ProjectUserRecord :=
  disable_project_user (seconds 50) sample_draws sample_graph email_disable (es_db signed_up).
Definition returned_db : Database :=
  es_db (run_sign_in_ops enabled_sign_in (set_es_db disabled_run.1 signed_up)).
(** The other store: a session and its browser session, and no login. *)
Definition session_start : EmailStore := mkEmailStore sample_db ∅ ∅ ∅ [] (mkIdentityGraph ∅ []).
Definition enabled_db : Database :=
  es_db (run_sign_in_ops [BySession enable_op] (set_es_db disabled_db session_start)).

Lemma mixed_revisions : revisions_ok (es_db mixed_start).
Proof. constructor; simpl; only_row; exists sample_user; (split; [done|]); vm_compute; discriminate. Qed.

Lemma mixed_start_ok : email_ok mixed_start.
Proof. split; [by constructor|]. intros p. by vm_compute. Qed.
Lemma session_start_ok : email_ok session_start.
Proof. split; [by constructor|]. intros p. by vm_compute. Qed.

